(* ===== verification/_CoqProject ===== *)
-Q . S2P
Prelude.v
Prog.v
FirmwarePlan.v
FirmwarePackets.v
FirmwareTransfer.v
Device.v
DmaProbe.v
PciDownload.v
Descriptors.v
DataPath.v
Protocol.v
FirmwareDmaQueue.v
Station.v
PciConfig.v
MmioTransaction.v
PowerSequence.v
RingProbe.v
FirmwareBoot.v
StationFields.v
StationTables.v
FirmwareCommands.v
Programmer.v
ScanCache.v
ForegroundScan.v
RxAssembly.v
PciRuntime.v
RuntimeControl.v
PciRingSetup.v
RxDmaQueue.v
PciQueueService.v
FirmwareMailbox.v
EfuseCalibration.v
EfuseReader.v
DavEfuseReader.v
DeviceCalibration.v
RadioTables.v
RadioSequence.v
BasebandGain.v
RadioFirmware.v
RadioAccess.v
RadioInitialization.v
FirmwareCapabilities.v
WirelessSelection.v
