(* ===== verification/Prelude.v ===== *)
(** * Verification of the RTL8852BE driver core

    The repository is a macOS driver for the Realtek RTL8852BE wireless
    adapter.  Its logic lives in header-only C++ under [src/src] (the
    diagnostic driver) and [src/src/network] (the network driver): classes and
    functions that are parametric in the device or in the class they call
    ("back end"), so that the kernel glue only instantiates them.  This
    library models that logic and proves what makes it correct.

    ** How code is modelled

    - a [w]-bit integer is a [Z] and every conversion or wrap-around of the
      source is written ([u8] ... [u64] in this file); a byte buffer is a
      [list Z], and a pure routine that reads or writes buffers runs in
      [mres E], whose third outcome [MOob] is an access out of bounds: that a
      routine never yields it is its memory safety;
    - a routine that talks to a device or to a back end is a program of
      [Prog.v]: a tree whose nodes are calls and whose branches are all the
      answers the other side may give, with the members of the object as the
      state and an early return as [brk].  Nothing is assumed of the answers
      unless a theorem says so.  [exec] is the set of executions, [protocol]
      states what may be called when, [wpm] is the program logic that relates
      the two, [mcost] bounds the number of calls;
    - a callback is a call whose answer tells what the callback did to the
      object, so that statements about all answers cover clients that call
      the object again from inside it;
    - a loop of the source is a [Fixpoint] on the number of turns left, which
      is the bound the source itself gives; where the source loops on a clock,
      the bound is the limit on turns the source has beside it.  No fuel is
      invented: every bound below is the code's own.

    ** The parts of the program and their files

    The diagnostic driver reads the device without driving it:

    - [PciConfig] ([PciConfig.hpp], [ReportBuffer.hpp]): [walk] and the other
      functions of the decoder of a configuration-space dump, total and in
      range on every dump, and the bounded text buffer of the reports;
    - [Device] ([MmioProbe.hpp]): the operations of the PCI device that the
      probes share;
    - [MmioTransaction] ([MmioProbe.hpp], [XtalProbe.hpp]): the transaction
      that opens the register window, runs an extension inside and closes it
      on every path; the crystal probe is the first extension;
    - [PowerSequence] ([PowerSequence.hpp]): the power tables, their
      interpreter and the cycle around an extension;
    - [DmaProbe], [RingProbe] ([DmaProbe.hpp], [RingProbe.hpp]): the DMA
      memory, its mapping rules and its probe; the probe of the ring's
      registers, which restores every one;
    - [FirmwareBoot] ([FirmwareBoot.hpp]): the ROM boot probe, with the undoing
      of every stage it reached.

    The firmware download, used by both drivers:

    - [FirmwarePlan] ([FirmwarePlan.hpp]): the parser of the firmware
      container and the segmentation in packets.  Reads stay in range for
      every input, accepted plans are well formed, the chunks put together are
      the image;
    - [FirmwarePackets] ([FirmwarePackets.hpp]): the packet encoder; the
      packets of a download carry the image;
    - [FirmwareTransfer] ([FirmwareTransfer.hpp]): the download over an
      abstract back end; contract, truthful result, termination;
    - [PciDownload] ([PciFirmwareTransport.hpp]): the back end of the transfer
      on the device, a refinement of the contract, and the composition of the
      two down to the registers.

    Commands to the firmware and what they carry:

    - [Descriptors] ([Rtw89DescriptorCore.hpp], [NetworkDescriptors.hpp]):
      transmit and receive descriptors;
    - [Protocol] ([FirmwareProtocol.hpp]): commands and events of the firmware;
    - [FirmwareDmaQueue] ([FirmwareDmaQueue.hpp]): the command DMA channel, a
      queue with a lag;
    - [FirmwareCommands] ([FirmwareCommands.hpp]): the bus that allocates
      command numbers and routes acknowledgements to their owners;
    - [FirmwareMailbox] ([FirmwareMailbox.hpp]): the register mailbox and the
      scheduler it pauses;
    - [StationFields], [StationTables] ([Rtw8852bStationTableFields.hpp],
      [StationTables.hpp]): the field setters and the CMAC and CAM commands
      built with them;
    - [Programmer] (class [Programmer] of [StationTables.hpp]): submits a plan
      of such commands through the bus.

    The data path of the running network driver:

    - [DataPath] ([PciDataPath.hpp]): the transmit frame and the ledger of
      transmit pages, a refinement of leases and a first-in first-out list;
    - [PciRingSetup] ([PciRingSetup.hpp]): programs the nine rings of a stopped
      device;
    - [PciRuntime], [RuntimeControl] ([PciRuntime.hpp]): starts the DMA, moves
      the indices and stops everything again;
    - [RxDmaQueue] ([RxDmaQueue.hpp]): the receive banks and the lending of
      buffers to callbacks;
    - [PciQueueService] ([PciQueueService.hpp]): one pass over the queues;
    - [RxAssembly] ([PciRxAssembly.hpp], [RxTrace.hpp]): packets put together
      from their segments.

    The wireless side:

    - [Station] ([StationController.hpp], [ChannelGeometry.hpp], the channel
      check of [RfkInitialization.hpp]): the station state machine;
    - [ScanCache] ([NativeScanCache.hpp]): the two banks of observations, a
      refinement of finite maps;
    - [ForegroundScan] (class [Controller] of [NativeForegroundScan.hpp]): the
      walk of a scan through its channels.

    The data of the individual device and the radio:

    - [EfuseCalibration] ([EfuseCalibration.hpp], [Rtw8852bEfuseLayout.hpp]):
      the format of the eFuse banks, its decoder and the records parsed from
      it;
    - [EfuseReader], [DavEfuseReader] ([EfuseReader.hpp],
      [DavEfuseReader.hpp]): the readers of the two banks;
    - [DeviceCalibration] ([DeviceCalibration.hpp]): the composition of the
      readers with the decoder, over any readers that keep the laws of two
      type classes, and for the two of the program;
    - [RadioTables] ([RadioTables.hpp]): the interpreter of the radio's
      register tables, equal to the meaning of the tables, over any sink; the
      sinks are in the next three files;
    - [BasebandGain] ([BasebandGain.hpp]): the gain arrays, filled from a table
      whose addresses name entries;
    - [RadioFirmware] ([RadioFirmware.hpp]): the rows of the radio collected
      for the firmware, and the pages that carry them;
    - [RadioAccess], [RadioInitialization] ([RadioAccess.hpp],
      [RadioInitialization.hpp]): the registers of the radio behind the
      baseband, the serial port to its analog part included, and the stages
      that program the tables through them;
    - [RadioSequence] ([RadioBootSequence.hpp]): the state machine of boot,
      tuning and scanning, one leased step at a time, over any back end.

    [Prelude] and [Prog] model no component: this file has the machine
    integers, bits, buffers, records and lists, [Prog] the program logic.

    ** What the theorems show

    - Memory safety: the parsers, decoders and encoders read and write only
      inside their buffers, on every input ([FirmwarePlan], [Descriptors],
      [Protocol], [PciConfig], [ScanCache], [EfuseCalibration]).
    - Meaning: what is built or decoded is what the members say, field by
      field; encoders and decoders are inverse ([encodeH2c], the CAM command,
      firmware chunks, receive segments); a decoder accepts exactly the
      strings of its format ([ScanCache], [EfuseCalibration], [RadioTables]);
      a table of gains or of radio rows is loaded wholly or not at all
      ([BasebandGain], [RadioFirmware]).
    - Register discipline: for every device, a component writes only the
      registers it owns, in the order that is safe, and leaves them as its
      contract says on every path ([MmioTransaction], [PowerSequence],
      [RingProbe], [FirmwareBoot], [PciDownload], [PciRingSetup],
      [RuntimeControl], [EfuseReader], [DavEfuseReader], [FirmwareMailbox],
      [RadioAccess], [RadioInitialization]).
      Memory is given back only with the engine proven idle.
    - State machines: invariants over every sequence of calls, reentrant ones
      included, and refinement of a smaller specification ([Station],
      [ForegroundScan], [FirmwareCommands], [FirmwareDmaQueue], [DataPath],
      [ScanCache], [RxDmaQueue], [PciQueueService], [PciRuntime],
      [Programmer], [RadioSequence]).
    - Progress and termination: a transfer makes at most 193,200 back-end
      calls, a mailbox exchange 11,000,224 (its reply is awaited for
      1,000,001 turns), [stop] of the runtime 628 (201 turns for the queues to
      be idle), the main eFuse reader 35 and 4,000,003 for each byte, the small
      one 15,551,582,806 in all; the ledger never refuses a frame it has room
      for, a disconnection completes, a cancelled scan drains.

    ** What is not modelled, and why

    - the radio, power and register tables imported from the vendor driver
      ([Rtw8852bRadioTables.cpp], [Rtw8852bPowerTables.cpp], the [*Constants.hpp]
      and [*Functions.inc] files): data, and sequences of register writes
      generated from another program, which alone says what they should be;
    - the adapters that only run those sequences ([MacInitialization.hpp],
      [RfkInitialization.hpp] apart from its channel check,
      [ChannelProgramming.hpp], the [Bt*] files and the other files listed with
      them in the manifest), and the power-up and link set-up of the network
      driver ([DevicePower.hpp], [PciLinkInitialization.hpp],
      [FirmwareBootPreparation.hpp]), fixed lists of register updates;
    - conversions to structures of the operating system whose layout is not in
      the repository ([NativeWcl*.hpp], [NativeWireless*.hpp],
      [Wireless*.hpp]), authentication (calls of a cryptographic library) and
      the bridge to the net80211 stack (fetched at build time);
    - the kernel glue ([Mac*.cpp], [RTL8852BEProbe.cpp], [Kernel*.hpp]): memory
      mapping, timers, work loop.  It is the answering side of the models, and
      no statement depends on how it answers.
*)

From Stdlib Require Export ZArith Lia Bool List.
From stdpp Require Export base decidable option list numbers strings.

#[export] Set Default Goal Selector "!".
Global Open Scope Z_scope.

(** ** Machine integers

    A C++ integer of width [w] is a [Z] in [0, 2^w); every place where the
    source converts or may wrap carries the conversion explicitly. *)

Definition u8 (z : Z) : Z := z mod 2^8.
Definition u16 (z : Z) : Z := z mod 2^16.
Definition u32 (z : Z) : Z := z mod 2^32.
Definition u64 (z : Z) : Z := z mod 2^64.

Definition in_u8 (z : Z) : Prop := 0 <= z < 256.
Definition in_u16 (z : Z) : Prop := 0 <= z < 65536.
Definition in_u32 (z : Z) : Prop := 0 <= z < 4294967296.
Definition in_u64 (z : Z) : Prop := 0 <= z < 18446744073709551616.

Ltac unfold_words :=
  unfold u8, u16, u32, u64, in_u8, in_u16, in_u32, in_u64 in *;
  change (2^8) with 256 in *; change (2^16) with 65536 in *;
  change (2^32) with 4294967296 in *;
  change (2^64) with 18446744073709551616 in *.

(** Linear arithmetic with [mod] and [/] by constants. *)
Ltac zlia := unfold_words; Z.div_mod_to_equations; lia.

Lemma u8_range z : in_u8 (u8 z). Proof. zlia. Qed.
Lemma u16_range z : in_u16 (u16 z). Proof. zlia. Qed.
Lemma u32_range z : in_u32 (u32 z). Proof. zlia. Qed.
Lemma u64_range z : in_u64 (u64 z). Proof. zlia. Qed.

Lemma u8_small z : in_u8 z -> u8 z = z. Proof. intros. apply Z.mod_small. zlia. Qed.
Lemma u16_small z : in_u16 z -> u16 z = z. Proof. intros. apply Z.mod_small. zlia. Qed.
Lemma u32_small z : in_u32 z -> u32 z = z. Proof. intros. apply Z.mod_small. zlia. Qed.
Lemma u64_small z : in_u64 z -> u64 z = z. Proof. intros. apply Z.mod_small. zlia. Qed.

Create HintDb words.
Create Rewrite HintDb words.
#[export] Hint Resolve u8_range u16_range u32_range u64_range : words.
#[export] Hint Rewrite u8_small u16_small u32_small u64_small
  using (solve [auto with words | zlia]) : words.

(** ** Bits *)

(** [v & mask] read as a C condition. *)
Definition flag (v mask : Z) : bool := negb (Z.land v mask =? 0).

Lemma land_ldiff_split a b : Z.land a b + Z.ldiff a b = a.
Proof.
  rewrite Z.add_nocarry_lxor.
  - apply Z.bits_inj'. intros n Hn.
    rewrite Z.lxor_spec, Z.land_spec, Z.ldiff_spec.
    destruct (Z.testbit a n), (Z.testbit b n); reflexivity.
  - apply Z.bits_inj'. intros n Hn.
    rewrite !Z.land_spec, Z.ldiff_spec, Z.bits_0.
    destruct (Z.testbit a n), (Z.testbit b n); reflexivity.
Qed.

Lemma land_bounds a b : 0 <= b -> 0 <= Z.land a b <= b.
Proof.
  intros Hb. split; [apply Z.land_nonneg; auto|].
  pose proof (land_ldiff_split b a) as Hs. rewrite Z.land_comm in Hs.
  assert (0 <= Z.ldiff b a) by (apply Z.ldiff_nonneg; auto). lia.
Qed.

Lemma land_bounds_l a b : 0 <= a -> 0 <= Z.land a b <= a.
Proof. rewrite Z.land_comm. apply land_bounds. Qed.

Lemma ldiff_bounds a b : 0 <= a -> 0 <= Z.ldiff a b <= a.
Proof.
  intros Ha. split; [apply Z.ldiff_nonneg; auto|].
  pose proof (land_ldiff_split a b).
  assert (0 <= Z.land a b) by (apply Z.land_nonneg; auto). lia.
Qed.

Lemma lor_bound k a b : 0 <= k -> 0 <= a < 2^k -> 0 <= b < 2^k -> 0 <= Z.lor a b < 2^k.
Proof.
  intros Hk Ha Hb.
  apply Z.bounded_iff_bits_nonneg'; [lia|apply Z.lor_nonneg; lia|].
  intros l Hl. rewrite Z.lor_spec.
  apply orb_false_intro.
  - revert l Hl. apply Z.bounded_iff_bits_nonneg'; lia.
  - revert l Hl. apply Z.bounded_iff_bits_nonneg'; lia.
Qed.

Lemma lor_u32 a b : in_u32 a -> in_u32 b -> in_u32 (Z.lor a b).
Proof. intros. apply (lor_bound 32); [lia| |]; zlia. Qed.

Lemma ldiff_u32 a b : in_u32 a -> in_u32 (Z.ldiff a b).
Proof. intros Ha. pose proof (ldiff_bounds a b). zlia. Qed.

Lemma land_u32 a b : in_u32 a -> in_u32 (Z.land a b).
Proof. intros Ha. pose proof (land_bounds_l a b). zlia. Qed.

#[export] Hint Resolve lor_u32 ldiff_u32 land_u32 : words.

(** Bits not under the mask of a read-modify-write survive it. *)
Lemma rmw_other v mask bits other :
  Z.land mask other = 0 -> Z.land bits other = 0 ->
  Z.land (Z.lor (Z.ldiff v mask) bits) other = Z.land v other.
Proof.
  intros Hm Hb. apply Z.bits_inj'. intros n Hn.
  apply (f_equal (fun z => Z.testbit z n)) in Hm, Hb.
  rewrite Z.land_spec, Z.bits_0 in Hm, Hb.
  rewrite !Z.land_spec, Z.lor_spec, Z.ldiff_spec.
  destruct (Z.testbit v n), (Z.testbit mask n), (Z.testbit bits n), (Z.testbit other n);
    simpl in *; congruence.
Qed.

(** ... and the bits under the mask take the new value. *)
Lemma rmw_masked v mask bits :
  Z.land bits mask = bits -> Z.land (Z.lor (Z.ldiff v mask) bits) mask = bits.
Proof.
  intros Hb. apply Z.bits_inj'. intros n Hn.
  apply (f_equal (fun z => Z.testbit z n)) in Hb.
  rewrite Z.land_spec in Hb. rewrite Z.land_spec, Z.lor_spec, Z.ldiff_spec.
  destruct (Z.testbit v n), (Z.testbit mask n), (Z.testbit bits n); simpl in *; congruence.
Qed.

(** ** Results of pure code

    [MVal] is a returned value, [MErr] an error code of the source, and
    [MOob] an access outside a buffer, which the C++ text leaves undefined:
    a function that never yields [MOob] is memory safe. *)

Inductive mres (E A : Type) : Type :=
| MVal (a : A)
| MErr (e : E)
| MOob.
Arguments MVal {E A} a.
Arguments MErr {E A} e.
Arguments MOob {E A}.

#[export] Instance mres_ret {E} : MRet (mres E) := fun A a => MVal a.
#[export] Instance mres_bind {E} : MBind (mres E) := fun A B f m =>
  match m with MVal a => f a | MErr e => MErr e | MOob => MOob end.

Definition mthrow {E A} (e : E) : mres E A := MErr e.

(** [if (b) return e;] *)
Definition fail_if {E} (b : bool) (e : E) : mres E unit := if b then MErr e else MVal tt.

Definition safe {E A} (m : mres E A) : Prop := m <> MOob.

Lemma safe_bind {E A B} (m : mres E A) (f : A -> mres E B) :
  safe m -> (forall a, m = MVal a -> safe (f a)) -> safe (m ≫= f).
Proof. unfold safe. destruct m; simpl; [auto|discriminate|auto]. Qed.

Lemma safe_val {E A} (a : A) : safe (MVal (E:=E) a). Proof. discriminate. Qed.
Lemma safe_err {E A} (e : E) : safe (MErr (A:=A) e). Proof. discriminate. Qed.
Lemma safe_fail_if {E} b (e : E) : safe (fail_if b e).
Proof. destruct b; discriminate. Qed.

Create HintDb memsafe.
#[export] Hint Resolve safe_val safe_err safe_fail_if : memsafe.

Lemma fail_if_val {E} b (e : E) x : fail_if b e = MVal x -> b = false.
Proof. destruct b; [discriminate|reflexivity]. Qed.

Lemma fail_if_bind_val {E B} b (e : E) (k : unit -> mres E B) v :
  (fail_if b e ≫= k) = MVal v -> b = false /\ k tt = MVal v.
Proof. destruct b; simpl; [discriminate|auto]. Qed.

Lemma bind_val {E A B} (m : mres E A) (f : A -> mres E B) v :
  (m ≫= f) = MVal v -> exists a, m = MVal a /\ f a = MVal v.
Proof. destruct m; simpl; [eauto|discriminate|discriminate]. Qed.

(** Case analysis of a successful run: every passed guard becomes a fact. *)
Ltac minv1 H :=
  lazymatch type of H with
  | mbind ?f (MVal ?a) = MVal _ => change (f a = MVal _) in H; cbv beta in H
  | mbind ?f (mret ?a) = MVal _ => change (f a = MVal _) in H; cbv beta in H
  | mbind _ (fail_if _ _) = MVal _ =>
      let Hg := fresh "Hg" in apply fail_if_bind_val in H as [Hg H]
  | mbind _ _ = MVal _ =>
      let v := fresh "v" in let Hv := fresh "Hv" in
      apply bind_val in H as (v & Hv & H); cbv beta in H
  | (if ?b then _ else _) = MVal _ => destruct b eqn:?
  | (let '(_, _) := (_, _) in _) = MVal _ => cbv beta iota in H
  | (let '(_, _) := ?x in _) = MVal _ => destruct x eqn:?
  | MVal _ = MVal _ => injection H as H
  | mret _ = MVal _ => injection H as H
  | MErr _ = MVal _ => discriminate H
  | mthrow _ = MVal _ => discriminate H
  end.
Ltac minv H := repeat minv1 H.

(** ... and of the absence of out-of-bounds accesses. *)
Ltac msafe :=
  repeat lazymatch goal with
  | |- safe (mbind ?f (MVal ?a)) => change (safe (f a)); cbv beta
  | |- safe (mbind ?f (mret ?a)) => change (safe (f a)); cbv beta
  | |- safe (mbind _ (fail_if _ _)) =>
      let Hg := fresh "Hg" in
      apply safe_bind; [apply safe_fail_if|intros [] Hg; apply fail_if_val in Hg]
  | |- safe (mbind _ _) =>
      let v := fresh "v" in let Hv := fresh "Hv" in apply safe_bind; [|intros v Hv]
  | |- safe (fail_if _ _) => apply safe_fail_if
  | |- safe (MVal _) => apply safe_val
  | |- safe (MErr _) => apply safe_err
  | |- safe (mret _) => apply safe_val
  | |- safe (if ?b then _ else _) => destruct b eqn:?
  | |- safe (let '(_, _) := (_, _) in _) => cbv beta iota
  | |- safe (let '(_, _) := ?x in _) => destruct x eqn:?
  end.

(** [mspec m Q]: [m] is memory safe and its value, if any, satisfies [Q]. *)
Definition mspec {E A} (m : mres E A) (Q : A -> Prop) : Prop :=
  match m with MVal a => Q a | MErr _ => True | MOob => False end.

Lemma mspec_iff {E A} (m : mres E A) Q : mspec m Q <-> safe m /\ forall a, m = MVal a -> Q a.
Proof.
  unfold safe. destruct m; simpl; split.
  - intros H. split; [discriminate|congruence].
  - intros [_ H]. auto.
  - split; discriminate.
  - auto.
  - intros [].
  - intros [H _]. congruence.
Qed.

Lemma mspec_safe {E A} (m : mres E A) Q : mspec m Q -> safe m.
Proof. intros H. apply mspec_iff in H. apply H. Qed.
Lemma mspec_val {E A} (m : mres E A) Q a : mspec m Q -> m = MVal a -> Q a.
Proof. intros H ->. exact H. Qed.
Lemma mspec_ret {E A} (a : A) (Q : A -> Prop) : Q a -> mspec (E:=E) (MVal a) Q.
Proof. auto. Qed.
Lemma mspec_mono {E A} (m : mres E A) (Q Q' : A -> Prop) :
  mspec m Q -> (forall a, Q a -> Q' a) -> mspec m Q'.
Proof. destruct m; simpl; auto. Qed.
Lemma mspec_bind {E A B} (m : mres E A) (f : A -> mres E B) Q :
  mspec m (fun a => mspec (f a) Q) -> mspec (m ≫= f) Q.
Proof. destruct m; simpl; auto. Qed.
Lemma mspec_fail_if {E} b (e : E) (Q : unit -> Prop) : (b = false -> Q tt) -> mspec (fail_if b e) Q.
Proof. destruct b; simpl; auto. Qed.

Ltac mstep :=
  lazymatch goal with
  | |- mspec (mbind ?f (MVal ?a)) ?Q => change (mspec (f a) Q); cbv beta
  | |- mspec (mbind ?f (mret ?a)) ?Q => change (mspec (f a) Q); cbv beta
  | |- mspec (mbind _ _) _ => apply mspec_bind
  | |- mspec (fail_if _ _) _ =>
      let Hg := fresh "Hg" in apply mspec_fail_if; intros Hg
  | |- mspec (mret _) _ => apply mspec_ret
  | |- mspec (MVal _) _ => apply mspec_ret
  | |- mspec (MErr _) _ => exact I
  | |- mspec (mthrow _) _ => exact I
  | |- mspec (if ?b then _ else _) _ => destruct b eqn:?
  | |- mspec (let '(_, _) := (_, _) in _) _ => cbv beta iota
  | |- mspec (let '(_, _) := ?x in _) _ => destruct x eqn:?
  end.

(** ** Byte buffers

    A buffer is the list of its bytes; reads are checked, and a stored byte
    reads back as a [uint8_t]. *)

Abbreviation buf := (list Z).

Definition zlen {A} (l : list A) : Z := Z.of_nat (length l).

Definition rd8 {E} (b : buf) (i : Z) : mres E Z :=
  if (i <? 0) then MOob else
  match b !! Z.to_nat i with Some v => MVal (u8 v) | None => MOob end.

(** The total reading used by statements: [byte_at b i] is [b[i]]. *)
Definition byte_at (b : buf) (i : Z) : Z := u8 (nth (Z.to_nat i) b 0).

Lemma zlen_nonneg {A} (l : list A) : 0 <= zlen l. Proof. unfold zlen. lia. Qed.
Lemma nil_zlen {A} (l : list A) : zlen l = 0 <-> l = [].
Proof. unfold zlen. destruct l; [split; reflexivity|split; [cbn; lia|discriminate]]. Qed.

Lemma rd8_in {E} b i : 0 <= i < zlen b -> rd8 (E:=E) b i = MVal (byte_at b i).
Proof.
  intros Hi. unfold rd8, byte_at, zlen in *.
  destruct (Z.ltb_spec i 0); [lia|].
  destruct (b !! Z.to_nat i) eqn:Hb.
  - rewrite (nth_lookup_Some b _ 0 z Hb). reflexivity.
  - apply lookup_ge_None in Hb. lia.
Qed.

Lemma rd8_safe {E} b i : 0 <= i < zlen b -> safe (rd8 (E:=E) b i).
Proof. intros. rewrite rd8_in by auto. auto with memsafe. Qed.

Lemma rd8_val {E} b i v : rd8 (E:=E) b i = MVal v -> v = byte_at b i /\ 0 <= i < zlen b.
Proof.
  intros H. assert (0 <= i < zlen b).
  { unfold rd8, zlen in *. destruct (Z.ltb_spec i 0); [discriminate|].
    destruct (b !! Z.to_nat i) eqn:Hb; [|discriminate].
    apply lookup_lt_Some in Hb. lia. }
  rewrite rd8_in in H by auto. split; [congruence|auto].
Qed.

Lemma byte_at_range b i : in_u8 (byte_at b i).
Proof. apply u8_range. Qed.
#[export] Hint Resolve byte_at_range : words.

(** Reads that went through are the bytes of the buffer. *)
Ltac mreads :=
  repeat match goal with
  | H : rd8 _ _ = MVal _ |- _ => apply rd8_val in H as [-> ?]
  end.

(** Little-endian composition, as the source's [le32]/[read16]/[little32]. *)
Definition le16_of (b0 b1 : Z) : Z := Z.lor b0 (Z.shiftl b1 8).
Definition le32_of (b0 b1 b2 b3 : Z) : Z :=
  Z.lor (Z.lor (Z.lor b0 (Z.shiftl b1 8)) (Z.shiftl b2 16)) (Z.shiftl b3 24).

Definition rd32 {E} (b : buf) (i : Z) : mres E Z :=
  b0 ← rd8 b i; b1 ← rd8 b (i + 1); b2 ← rd8 b (i + 2); b3 ← rd8 b (i + 3);
  mret (le32_of b0 b1 b2 b3).
Definition rd16 {E} (b : buf) (i : Z) : mres E Z :=
  b0 ← rd8 b i; b1 ← rd8 b (i + 1); mret (le16_of b0 b1).

Definition le32_at (b : buf) (i : Z) : Z :=
  le32_of (byte_at b i) (byte_at b (i + 1)) (byte_at b (i + 2)) (byte_at b (i + 3)).
Definition le16_at (b : buf) (i : Z) : Z := le16_of (byte_at b i) (byte_at b (i + 1)).

Lemma rd32_in {E} b i : 0 <= i -> i + 4 <= zlen b -> rd32 (E:=E) b i = MVal (le32_at b i).
Proof. intros. unfold rd32. rewrite !rd8_in by lia. reflexivity. Qed.
Lemma rd16_in {E} b i : 0 <= i -> i + 2 <= zlen b -> rd16 (E:=E) b i = MVal (le16_at b i).
Proof. intros. unfold rd16. rewrite !rd8_in by lia. reflexivity. Qed.

Lemma rd32_safe {E} b i : 0 <= i -> i + 4 <= zlen b -> safe (rd32 (E:=E) b i).
Proof. intros. rewrite rd32_in by auto. auto with memsafe. Qed.
Lemma rd16_safe {E} b i : 0 <= i -> i + 2 <= zlen b -> safe (rd16 (E:=E) b i).
Proof. intros. rewrite rd16_in by auto. auto with memsafe. Qed.

Lemma rd32_val {E} b i v :
  rd32 (E:=E) b i = MVal v -> v = le32_at b i /\ 0 <= i /\ i + 4 <= zlen b.
Proof.
  intros H. unfold rd32 in H. minv H. mreads. subst. split; [reflexivity|lia].
Qed.
Lemma rd16_val {E} b i v :
  rd16 (E:=E) b i = MVal v -> v = le16_at b i /\ 0 <= i /\ i + 2 <= zlen b.
Proof.
  intros H. unfold rd16 in H. minv H. mreads. subst. split; [reflexivity|lia].
Qed.

Ltac mreads ::=
  repeat match goal with
  | H : rd8 _ _ = MVal _ |- _ => apply rd8_val in H as [-> ?]
  | H : rd16 _ _ = MVal _ |- _ => apply rd16_val in H as [-> ?]
  | H : rd32 _ _ = MVal _ |- _ => apply rd32_val in H as [-> ?]
  end.

Lemma lor_disjoint_add k a b :
  0 <= k -> 0 <= a < 2^k -> Z.lor a (Z.shiftl b k) = a + b * 2^k.
Proof.
  intros Hk Ha.
  rewrite Z.shiftl_mul_pow2 by lia.
  assert (Z.land a (b * 2 ^ k) = 0).
  { apply Z.bits_inj'. intros n Hn. rewrite Z.land_spec, Z.bits_0.
    destruct (Z.lt_ge_cases n k).
    - rewrite Z.mul_pow2_bits_low by lia. apply andb_false_r.
    - assert (Z.testbit a n = false) as ->; [|reflexivity].
      revert n Hn H. intros n _. revert n. apply Z.bounded_iff_bits_nonneg'; lia. }
  rewrite Z.add_nocarry_lxor by auto. rewrite Z.lxor_lor by auto. reflexivity.
Qed.

(** The composition is the usual positional value. *)
Lemma le32_of_sum b0 b1 b2 b3 :
  in_u8 b0 -> in_u8 b1 -> in_u8 b2 -> in_u8 b3 ->
  le32_of b0 b1 b2 b3 = b0 + b1 * 256 + b2 * 65536 + b3 * 16777216.
Proof.
  intros. unfold le32_of.
  rewrite (lor_disjoint_add 8) by zlia. change (2^8) with 256.
  rewrite (lor_disjoint_add 16) by zlia. change (2^16) with 65536.
  rewrite (lor_disjoint_add 24) by zlia. reflexivity.
Qed.
Lemma le16_of_sum b0 b1 : in_u8 b0 -> le16_of b0 b1 = b0 + b1 * 256.
Proof. intros. unfold le16_of. rewrite (lor_disjoint_add 8) by zlia. reflexivity. Qed.

Lemma le32_at_range b i : in_u32 (le32_at b i).
Proof.
  unfold le32_at. rewrite le32_of_sum by auto with words.
  pose proof (byte_at_range b i). pose proof (byte_at_range b (i+1)).
  pose proof (byte_at_range b (i+2)). pose proof (byte_at_range b (i+3)). zlia.
Qed.
Lemma le16_at_range b i : in_u16 (le16_at b i).
Proof.
  unfold le16_at. rewrite le16_of_sum by auto with words.
  pose proof (byte_at_range b i). pose proof (byte_at_range b (i+1)). zlia.
Qed.
#[export] Hint Resolve le32_at_range le16_at_range : words.

Lemma rd8_spec {E} b i Q : 0 <= i < zlen b -> Q (byte_at b i) -> mspec (rd8 (E:=E) b i) Q.
Proof. intros. rewrite rd8_in by auto. auto. Qed.
Lemma rd16_spec {E} b i Q : 0 <= i -> i + 2 <= zlen b -> Q (le16_at b i) -> mspec (rd16 (E:=E) b i) Q.
Proof. intros. rewrite rd16_in by auto. auto. Qed.
Lemma rd32_spec {E} b i Q : 0 <= i -> i + 4 <= zlen b -> Q (le32_at b i) -> mspec (rd32 (E:=E) b i) Q.
Proof. intros. rewrite rd32_in by auto. auto. Qed.

(** Walk a body, discharging the bounds of its reads by [lia]. *)
Ltac mwalk :=
  repeat first
    [ mstep
    | lazymatch goal with
      | |- mspec (rd8 _ _) _ => apply rd8_spec; [lia|]
      | |- mspec (rd16 _ _) _ => apply rd16_spec; [lia|lia|]
      | |- mspec (rd32 _ _) _ => apply rd32_spec; [lia|lia|]
      end ].

(** The [n] elements of [l] from index [o]. *)
Definition slice {A} (l : list A) (o n : Z) : list A := take (Z.to_nat n) (drop (Z.to_nat o) l).

Lemma slice_nil {A} (l : list A) o : slice l o 0 = [].
Proof. unfold slice. reflexivity. Qed.

Lemma slice_app {A} (l : list A) o n1 n2 :
  0 <= o -> 0 <= n1 -> 0 <= n2 -> slice l o (n1 + n2) = slice l o n1 ++ slice l (o + n1) n2.
Proof.
  intros. unfold slice. rewrite !Z2Nat.inj_add by lia.
  rewrite <- drop_drop. rewrite <- take_take_drop. reflexivity.
Qed.

(** Case analysis over a short range of integers. *)
Lemma range_in lo k n : lo <= n < lo + k -> In n (seqZ lo k).
Proof. intros H. apply list_elem_of_In, elem_of_seqZ. lia. Qed.
Ltac z_cases n lo k :=
  let E := fresh "E" in
  assert (E : In n (seqZ lo k)) by (apply range_in; lia); vm_compute in E;
  repeat (destruct E as [<-|E]); [..|destruct E].
Lemma map_seqZ_shift {B} (f : Z -> B) m n :
  map f (seqZ m n) = map (fun k => f (m + k)) (seqZ 0 n).
Proof.
  assert (H : seqZ m n = map (Z.add m) (seqZ 0 n)).
  { transitivity (Z.add m <$> seqZ 0 n); [rewrite fmap_add_seqZ; f_equal; lia|].
    generalize (seqZ 0 n). intros l. induction l as [|x l IH]; [reflexivity|].
    rewrite fmap_cons, IH. reflexivity. }
  rewrite H, map_map. reflexivity.
Qed.

Lemma zlen_slice {A} (l : list A) o n :
  0 <= o -> 0 <= n -> o + n <= zlen l -> zlen (slice l o n) = n.
Proof. intros. unfold zlen, slice in *. rewrite length_take, length_drop. lia. Qed.

(** Stores: [blit b p src] overwrites [b] from index [p]; [store] is the checked
    form, undefined past the end of the buffer. *)
Definition blit {A} (b : list A) (p : Z) (src : list A) : list A :=
  take (Z.to_nat p) b ++ src ++ drop (Z.to_nat p + length src) b.

Definition store {E} (b : buf) (p : Z) (src : buf) : mres E buf :=
  if (0 <=? p) && (p + zlen src <=? zlen b) then MVal (blit b p src) else MOob.

Definition le16_bytes (v : Z) : buf := [u8 v; u8 (Z.shiftr v 8)].
Definition le32_bytes (v : Z) : buf :=
  [u8 v; u8 (Z.shiftr v 8); u8 (Z.shiftr v 16); u8 (Z.shiftr v 24)].

Lemma store_in {E} b p src :
  0 <= p -> p + zlen src <= zlen b -> store (E:=E) b p src = MVal (blit b p src).
Proof.
  intros. unfold store. destruct (Z.leb_spec 0 p); [|lia].
  destruct (Z.leb_spec (p + zlen src) (zlen b)); [|lia]. reflexivity.
Qed.

Lemma zlen_blit {A} (b : list A) p src :
  0 <= p -> p + zlen src <= zlen b -> zlen (blit b p src) = zlen b.
Proof.
  intros. unfold zlen, blit in *. rewrite !length_app, length_take, length_drop. lia.
Qed.

(** Storing behind a prefix leaves the prefix alone. *)
Lemma blit_app_r {A} (b1 b2 : list A) p src :
  zlen b1 <= p -> blit (b1 ++ b2) p src = b1 ++ blit b2 (p - zlen b1) src.
Proof.
  intros H. unfold blit, zlen in *.
  rewrite take_app_ge, drop_app_ge, <- app_assoc by lia.
  do 3 f_equal; [lia|f_equal; lia].
Qed.

Lemma blit_app_l {A} (b1 b2 : list A) p src :
  0 <= p -> p + zlen src <= zlen b1 -> blit (b1 ++ b2) p src = blit b1 p src ++ b2.
Proof.
  intros Hp H. unfold blit, zlen in *.
  rewrite take_app_le, drop_app_le, !app_assoc by lia. reflexivity.
Qed.

Lemma blit_all {A} (b src : list A) : zlen src = zlen b -> blit b 0 src = src.
Proof.
  intros H. unfold blit, zlen in *. simpl. rewrite drop_ge by lia. apply app_nil_r.
Qed.

(** Storing exactly over the middle part of a buffer. *)
Lemma blit_mid {A} (pre mid post src : list A) p :
  zlen pre = p -> zlen src = zlen mid -> blit (pre ++ mid ++ post) p src = pre ++ src ++ post.
Proof.
  intros Hp Hs. pose proof (zlen_nonneg pre).
  rewrite blit_app_r by lia. replace (p - zlen pre) with 0 by lia.
  rewrite (blit_app_l mid) by lia. rewrite blit_all by exact Hs. reflexivity.
Qed.
Lemma store_mid {E} (pre mid post src : buf) p :
  zlen pre = p -> zlen src = zlen mid ->
  store (E:=E) (pre ++ mid ++ post) p src = MVal (pre ++ src ++ post).
Proof.
  intros Hp Hs. pose proof (zlen_nonneg pre). pose proof (zlen_nonneg post).
  rewrite store_in, blit_mid; [reflexivity|exact Hp|exact Hs|lia|].
  unfold zlen in *. rewrite !length_app. lia.
Qed.

(** The buffer, byte after byte. *)
Lemma blit_snoc (o l : buf) v : blit (blit o 0 l) (zlen l) [v] = blit o 0 (l ++ [v]).
Proof.
  unfold blit, zlen. change (Z.to_nat 0) with 0%nat. rewrite Nat2Z.id, !take_0. cbn [app Nat.add length]. rewrite length_app. cbn [length].
  rewrite take_app_length, drop_app_ge by lia. rewrite drop_drop, <- app_assoc. cbn [app]. do 3 f_equal. lia.
Qed.
Lemma blit_over (o l r : buf) : zlen l = zlen r -> blit (blit o 0 l) 0 r = blit o 0 r.
Proof.
  intros H. unfold blit, zlen in *. change (Z.to_nat 0) with 0%nat. rewrite !take_0. cbn [app Nat.add].
  rewrite drop_app_ge by lia. rewrite drop_drop. do 2 f_equal. lia.
Qed.
Lemma blit_nothing (o : buf) : blit o 0 [] = o.
Proof. reflexivity. Qed.

Lemma u8_shiftr v k : 0 <= k -> u8 (Z.shiftr v k) = (v / 2^k) mod 256.
Proof. intros. unfold u8. rewrite Z.shiftr_div_pow2 by lia. reflexivity. Qed.

(** Encoding then decoding a word. *)
Lemma le32_of_bytes v : le32_of (u8 v) (u8 (Z.shiftr v 8)) (u8 (Z.shiftr v 16)) (u8 (Z.shiftr v 24)) = u32 v.
Proof.
  rewrite le32_of_sum by auto with words. rewrite !u8_shiftr by lia.
  change (2^8) with 256. change (2^16) with 65536. change (2^24) with 16777216. zlia.
Qed.
Lemma le16_of_bytes v : le16_of (u8 v) (u8 (Z.shiftr v 8)) = u16 v.
Proof.
  rewrite le16_of_sum by auto with words. rewrite !u8_shiftr by lia.
  change (2^8) with 256. zlia.
Qed.

Lemma u8_u8 v : u8 (u8 v) = u8 v.
Proof. apply u8_small, u8_range. Qed.

Lemma byte_at_app_l b1 b2 i : 0 <= i < zlen b1 -> byte_at (b1 ++ b2) i = byte_at b1 i.
Proof. intros. unfold byte_at, zlen in *. rewrite app_nth1 by lia. reflexivity. Qed.
Lemma byte_at_app_r b1 b2 i : zlen b1 <= i -> byte_at (b1 ++ b2) i = byte_at b2 (i - zlen b1).
Proof.
  intros. unfold byte_at, zlen in *. rewrite app_nth2 by lia. do 2 f_equal. lia.
Qed.

Lemma byte_at_blit b p src j : 0 <= p -> p + zlen src <= zlen b -> 0 <= j ->
  byte_at (blit b p src) j =
  if (p <=? j) && (j <? p + zlen src) then byte_at src (j - p) else byte_at b j.
Proof.
  intros Hp Hl Hj. unfold blit.
  assert (Ht : zlen (take (Z.to_nat p) b) = p) by (unfold zlen in *; rewrite length_take; lia).
  destruct (Z.leb_spec p j); simpl.
  - rewrite byte_at_app_r, Ht by lia. destruct (Z.ltb_spec j (p + zlen src)).
    + apply byte_at_app_l. lia.
    + rewrite byte_at_app_r by lia. unfold byte_at. rewrite !nth_lookup, lookup_drop.
      do 3 f_equal. unfold zlen in *. lia.
  - rewrite byte_at_app_l by lia. unfold byte_at. rewrite !nth_lookup, lookup_take_lt by lia. reflexivity.
Qed.

Lemma store_spec {E} b p src Q :
  0 <= p -> p + zlen src <= zlen b -> Q (blit b p src) -> mspec (store (E:=E) b p src) Q.
Proof. intros. rewrite store_in by auto. auto. Qed.

Definition zeros (n : Z) : buf := replicate (Z.to_nat n) 0.
Lemma zlen_zeros n : 0 <= n -> zlen (zeros n) = n.
Proof. intros. unfold zlen, zeros. rewrite length_replicate. lia. Qed.
Lemma zeros_app a b : 0 <= a -> 0 <= b -> zeros (a + b) = zeros a ++ zeros b.
Proof. intros. unfold zeros. rewrite Z2Nat.inj_add, replicate_add by lia. reflexivity. Qed.

Lemma zlen_app {A} (l1 l2 : list A) : zlen (l1 ++ l2) = zlen l1 + zlen l2.
Proof. unfold zlen. rewrite length_app. lia. Qed.
Lemma zlen_map {A B} (f : A -> B) l : zlen (map f l) = zlen l.
Proof. unfold zlen. rewrite length_map. reflexivity. Qed.

(** [memcpy]-style loops copy the bytes they name. *)
Definition bytesOf (b : buf) (o n : Z) : buf := map u8 (slice b o n).

Lemma zlen_bytesOf b o n : 0 <= o -> 0 <= n -> o + n <= zlen b -> zlen (bytesOf b o n) = n.
Proof. intros. unfold bytesOf. rewrite zlen_map. apply zlen_slice; auto. Qed.

Lemma slice_last b o n : 0 <= o -> 0 <= n -> o + n < zlen b ->
  bytesOf b o (n + 1) = bytesOf b o n ++ [byte_at b (o + n)].
Proof.
  intros. unfold bytesOf. rewrite slice_app, map_app by lia. f_equal.
  unfold slice, byte_at, zlen in *. change (Z.to_nat 1) with 1%nat.
  destruct (b !! Z.to_nat (o + n)) as [v|] eqn:Hv.
  - rewrite (drop_S b v) by exact Hv. simpl. rewrite (nth_lookup_Some _ _ 0 v Hv). reflexivity.
  - apply lookup_ge_None in Hv. lia.
Qed.

Lemma bytesOf_cons b o n : 0 <= o -> 0 <= n -> o + (1 + n) <= zlen b ->
  bytesOf b o (1 + n) = byte_at b o :: bytesOf b (o + 1) n.
Proof.
  intros. unfold bytesOf. rewrite slice_app, map_app by lia.
  change (map u8 (slice b o 1)) with (bytesOf b o (0 + 1)). rewrite slice_last by lia. rewrite Z.add_0_r. reflexivity.
Qed.

Lemma byte_at_slice b o n i :
  0 <= o -> 0 <= i < n -> o + n <= zlen b -> byte_at (slice b o n) i = byte_at b (o + i).
Proof.
  intros. unfold byte_at, slice, zlen in *. f_equal.
  destruct (b !! Z.to_nat (o + i)) as [v|] eqn:Hv.
  - rewrite (nth_lookup_Some b _ 0 v Hv). apply nth_lookup_Some.
    rewrite lookup_take_lt, lookup_drop by lia. rewrite <- Hv. f_equal. lia.
  - apply lookup_ge_None in Hv. lia.
Qed.

Lemma byte_at_map_u8 b i : byte_at (map u8 b) i = byte_at b i.
Proof.
  unfold byte_at. change 0 with (u8 0) at 1. rewrite map_nth. apply u8_u8.
Qed.

(** Rings: an updated slot, and distinct offsets of a ring. *)
Lemma nth_insert_Z {A} (l : list A) i v j d : 0 <= i < zlen l -> 0 <= j ->
  nth (Z.to_nat j) (<[Z.to_nat i := v]> l) d = if j =? i then v else nth (Z.to_nat j) l d.
Proof.
  intros Hi Hj. unfold zlen in Hi. destruct (Z.eqb_spec j i) as [->|Hne].
  - apply nth_lookup_Some, list_lookup_insert_eq. lia.
  - rewrite !nth_lookup, list_lookup_insert_ne by lia. reflexivity.
Qed.

Lemma mod_add_inj n c j k : 0 < n -> 0 <= j < n -> 0 <= k < n -> (c + j) mod n = (c + k) mod n -> j = k.
Proof.
  intros Hn Hj Hk H. assert (E : (j - k) mod n = 0).
  { replace (j - k) with ((c + j) - (c + k)) by lia. rewrite Zminus_mod, H, Z.sub_diag. apply Z.mod_0_l. lia. }
  apply Z.mod_divide in E; [|lia]. destruct E as [q Hq].
  assert (q < 1) by nia. assert (-1 < q) by nia. assert (q = 0) by lia. subst q. lia.
Qed.

(** One bit of a 64-bit map. *)
Lemma flag_bit v k : 0 <= k < 64 -> flag v (u64 (Z.shiftl 1 k)) = Z.testbit v k.
Proof.
  intros Hk. unfold flag. rewrite Z.shiftl_mul_pow2, Z.mul_1_l by lia.
  assert (Hp : 2 ^ k < 2 ^ 64) by (apply Z.pow_lt_mono_r; lia).
  rewrite u64_small by (unfold in_u64; pose proof (Z.pow_pos_nonneg 2 k); lia).
  destruct (Z.testbit v k) eqn:E.
  - apply negb_true_iff, Z.eqb_neq. intros H0.
    assert (Ht : Z.testbit (Z.land v (2 ^ k)) k = false) by (rewrite H0; apply Z.testbit_0_l).
    rewrite Z.land_spec, E, Z.pow2_bits_true in Ht by lia. discriminate.
  - apply negb_false_iff, Z.eqb_eq. apply Z.bits_inj'. intros n Hn.
    rewrite Z.land_spec, Z.testbit_0_l, Z.pow2_bits_eqb by lia.
    destruct (Z.eqb_spec k n) as [<-|]; [rewrite E; reflexivity|apply andb_false_r].
Qed.

Lemma lor_bit v k n : 0 <= k < 64 -> 0 <= n ->
  Z.testbit (Z.lor v (u64 (Z.shiftl 1 k))) n = true <-> Z.testbit v n = true \/ k = n.
Proof.
  intros Hk Hn. rewrite Z.shiftl_mul_pow2, Z.mul_1_l by lia.
  assert (Hp : 2 ^ k < 2 ^ 64) by (apply Z.pow_lt_mono_r; lia).
  rewrite u64_small by (unfold in_u64; pose proof (Z.pow_pos_nonneg 2 k); lia).
  rewrite Z.lor_spec, orb_true_iff, Z.pow2_bits_eqb by lia. rewrite Z.eqb_eq. tauto.
Qed.

(** ** Loops of pure code

    [for_m n i body s]: [n] iterations from index [i], threading [s]; the
    first error or out-of-bounds access ends the loop. *)
Fixpoint for_m {E T} (n : nat) (i : Z) (body : Z -> T -> mres E T) (s : T) : mres E T :=
  match n with
  | O => MVal s
  | S n => s' ← body i s; for_m n (i + 1) body s'
  end.

Lemma for_m_inv {E T} (I : Z -> T -> Prop) n i (body : Z -> T -> mres E T) s :
  I i s ->
  (forall j t, i <= j < i + Z.of_nat n -> I j t ->
     safe (body j t) /\ forall t', body j t = MVal t' -> I (j + 1) t') ->
  safe (for_m n i body s) /\
  forall t, for_m n i body s = MVal t -> I (i + Z.of_nat n) t.
Proof.
  revert i s. induction n as [|n IH]; intros i s H0 Hb; simpl.
  - split; [auto with memsafe|]. intros t [= <-]. rewrite Z.add_0_r. exact H0.
  - destruct (Hb i s) as [Hs Hv]; [lia|auto|].
    destruct (body i s) as [s'|e|]; simpl; [|split; [auto with memsafe|discriminate]|easy].
    destruct (IH (i + 1) s') as [Hs' Hv'].
    { auto. }
    { intros j t Hj. apply Hb. lia. }
    split; [exact Hs'|]. intros t Ht.
    replace (i + Z.of_nat (S n)) with (i + 1 + Z.of_nat n) by lia. auto.
Qed.

Lemma mspec_for_m {E T} (I : Z -> T -> Prop) n (body : Z -> T -> mres E T) s (Q : T -> Prop) :
  0 <= n -> I 0 s ->
  (forall j t, 0 <= j < n -> I j t -> mspec (body j t) (I (j + 1))) ->
  (forall t, I n t -> Q t) ->
  mspec (for_m (Z.to_nat n) 0 body s) Q.
Proof.
  intros Hn H0 Hb HQ. apply mspec_iff.
  destruct (for_m_inv I (Z.to_nat n) 0 body s) as [Hs Hv].
  - exact H0.
  - intros j t Hj HI. apply mspec_iff. apply Hb; [lia|exact HI].
  - split; [exact Hs|]. intros t Ht. apply HQ. apply Hv in Ht.
    replace (0 + Z.of_nat (Z.to_nat n)) with n in Ht by lia. exact Ht.
Qed.

Lemma for_m_last {E T} n i (body : Z -> T -> mres E T) s :
  for_m (Datatypes.S n) i body s = (t ← for_m n i body s; body (i + Z.of_nat n) t).
Proof.
  revert i s. induction n as [|n IH]; intros i s.
  - cbn. rewrite Z.add_0_r. destruct (body i s); reflexivity.
  - change (for_m (Datatypes.S (Datatypes.S n)) i body s) with (s' ← body i s; for_m (Datatypes.S n) (i + 1) body s').
    change (for_m (Datatypes.S n) i body s) with (s' ← body i s; for_m n (i + 1) body s').
    destruct (body i s) as [t|e|]; cbn [mbind mres_bind]; [|reflexivity..]. rewrite IH.
    replace (i + 1 + Z.of_nat n) with (i + Z.of_nat (Datatypes.S n)) by lia. reflexivity.
Qed.
(** A copying loop writes the bytes it reads. *)
Lemma for_m_copy {E} (g : Z -> buf -> mres E buf) to at_ from start n :
  0 <= n -> 0 <= start -> start + n <= zlen from -> 0 <= at_ -> at_ + n <= zlen to ->
  (forall i t, 0 <= i < n -> g i t = store t (at_ + i) [byte_at from (start + i)]) ->
  for_m (Z.to_nat n) 0 g to = MVal (blit to at_ (bytesOf from start n)).
Proof.
  intros Hn Hs Hf Ha Ht Hg. rewrite <- (Z2Nat.id n Hn) in Hf, Ht, Hg |- * at 2. clear Hn. set (k := Z.to_nat n) in *. clearbody k.
  assert (H : forall m, (m <= k)%nat -> for_m m 0 g to = MVal (blit to at_ (bytesOf from start (Z.of_nat m)))); [|apply H; lia].
  induction m as [|m IH]; intros Hm.
  { change (bytesOf from start (Z.of_nat 0)) with (@nil Z). unfold blit. cbn [app length for_m]. rewrite Nat.add_0_r, take_drop. reflexivity. }
  rewrite for_m_last, IH by lia. cbn [mbind mres_bind]. rewrite Z.add_0_l, Hg by lia.
  set (p := bytesOf from start (Z.of_nat m)). assert (Hp : zlen p = Z.of_nat m) by (apply zlen_bytesOf; lia).
  rewrite store_in; [|lia|rewrite zlen_blit by lia; change (zlen [_]) with 1; lia]. f_equal.
  replace (Z.of_nat (Datatypes.S m)) with (Z.of_nat m + 1) by lia. rewrite slice_last by lia. fold p.
  unfold blit at 2. rewrite app_assoc. assert (Hpre : zlen (take (Z.to_nat at_) to ++ p) = at_ + Z.of_nat m).
  { rewrite zlen_app, Hp. unfold zlen in *. rewrite length_take. lia. }
  rewrite blit_app_r, Hpre, Z.sub_diag by lia. unfold blit. change (Z.to_nat 0) with 0%nat. cbn [take app Nat.add length].
  rewrite drop_drop, length_app, <- !app_assoc, Nat.add_assoc. reflexivity.
Qed.
Lemma map_u8_id b : Forall in_u8 b -> map u8 b = b.
Proof. induction 1 as [|x b Hx _ IH]; [reflexivity|]. cbn. rewrite IH, u8_small by exact Hx. reflexivity. Qed.

(** [never e m]: [m] does not end with the error [e]. *)
Definition never {E A} (e : E) (m : mres E A) : Prop := m <> MErr e.

Lemma never_bind {E A B} (e : E) (m : mres E A) (f : A -> mres E B) :
  never e m -> (forall a, never e (f a)) -> never e (m ≫= f).
Proof. unfold never. destruct m; simpl; [auto|congruence|discriminate]. Qed.
Lemma never_fail_if {E} (e e' : E) b : e' <> e -> never e (fail_if b e').
Proof. unfold never. destruct b; simpl; congruence. Qed.
Lemma never_val {E A} (e : E) (a : A) : never e (MVal a). Proof. discriminate. Qed.
Lemma never_rd8 {E} (e : E) b i : never e (rd8 b i).
Proof. unfold never, rd8. destruct (i <? 0); [discriminate|]. destruct (b !! _); discriminate. Qed.
Lemma never_store {E} (e : E) b p src : never e (store b p src).
Proof. unfold never, store. destruct (_ && _); discriminate. Qed.
Lemma never_for_m {E T} (e : E) n i (body : Z -> T -> mres E T) s :
  (forall j t, never e (body j t)) -> never e (for_m n i body s).
Proof.
  intros Hb. revert i s. induction n as [|n IH]; intros i s; simpl; [apply never_val|].
  apply never_bind; auto.
Qed.

(** Walk a body all of whose errors are other constructors than [e]. *)
Ltac mnever :=
  repeat lazymatch goal with
  | |- never _ (mbind _ _) => apply never_bind; [|intros ?]
  | |- never _ (fail_if _ _) => apply never_fail_if; discriminate
  | |- never _ (MVal _) => apply never_val
  | |- never _ (mret _) => apply never_val
  | |- never _ (rd8 _ _) => apply never_rd8
  | |- never _ (rd16 _ _) => unfold rd16
  | |- never _ (rd32 _ _) => unfold rd32
  | |- never _ (store _ _ _) => apply never_store
  | |- never _ (for_m _ _ _ _) => apply never_for_m; intros ? ?
  | |- never _ (if ?b then _ else _) => destruct b
  | |- never _ (let '(_, _) := ?x in _) => destruct x
  | |- never _ (MErr _) => intros [=]
  end.

(** ** Record update

    [r <| f := v |>] replaces one field; [Rebuild] lists the constructor's
    fields once per record. *)

Class Rebuild (R : Type) := rebuild : R -> R.
Class Updater {R T : Type} (proj : R -> T) := update_field : (T -> T) -> R -> R.

Ltac derive_updater :=
  match goal with
  | |- @Updater ?R ?T ?p =>
      let upd := open_constr:(fun (f : T -> T) (r : R) => ltac:(
        let full := constr:(ltac:(let e := eval hnf in (_ : Rebuild R) in exact e)) in
        let full := eval cbv beta in (full r) in
        match full with
        | context C [p r] => let t := context C [f (p r)] in exact t
        end)) in
      exact upd
  end.
#[export] Hint Extern 0 (Updater _) => derive_updater : typeclass_instances.

Notation "r <| p := v |>" := (@update_field _ _ p _ (fun _ => v) r)
  (at level 1, left associativity, p at level 9, format "r  <| p  :=  v |>").
Arguments update_field {R T} proj {_} _ _ /.
