(* ===== verification/Prog.v ===== *)
(** * Programs over an interface

    The C++ sources are templates over a device or backend class.  A template
    body is modelled as a [prog]: a finite tree of calls to the interface's
    operations, one branch per possible answer.  Nothing is assumed of the
    device: a theorem about all executions quantifies over all its answers.
    Every loop of the sources has a constant bound, so every [prog] is finite
    and running it terminates by construction. *)

From S2P Require Import Prelude.

Record sig := Sig { Op :> Type; Ans : Op -> Type }.

Inductive prog (Σ : sig) (A : Type) : Type :=
| Ret (a : A)
| Act (o : Op Σ) (k : Ans Σ o -> prog Σ A).
Arguments Ret {Σ A} a.
Arguments Act {Σ A} o k.

Fixpoint bindP {Σ A B} (p : prog Σ A) (f : A -> prog Σ B) : prog Σ B :=
  match p with Ret a => f a | Act o k => Act o (fun x => bindP (k x) f) end.

(** ** Executions *)

(** A call and the answer it got. *)
Record event (Σ : sig) := Ev { ev_op : Op Σ; ev_ans : Ans Σ ev_op }.
Arguments Ev {Σ} ev_op ev_ans.
Arguments ev_op {Σ} e.
Arguments ev_ans {Σ} e.

(** [exec p tr a]: [p] can perform the calls of [tr], getting those answers,
    and return [a]. *)
Fixpoint exec {Σ A} (p : prog Σ A) (tr : list (event Σ)) (a : A) : Prop :=
  match p with
  | Ret a' => tr = [] /\ a' = a
  | Act o k => exists x tr', tr = Ev o x :: tr' /\ exec (k x) tr' a
  end.

Lemma exec_bind {Σ A B} (p : prog Σ A) (f : A -> prog Σ B) tr b :
  exec (bindP p f) tr b <->
  exists t1 t2 a, tr = t1 ++ t2 /\ exec p t1 a /\ exec (f a) t2 b.
Proof.
  revert tr. induction p as [a|o k IH]; intros tr; simpl.
  - split.
    + intros H. exists [], tr, a. auto.
    + intros (t1 & t2 & a' & -> & [-> ->] & H). exact H.
  - split.
    + intros (x & t & -> & H). apply IH in H as (t1 & t2 & a & -> & H1 & H2).
      exists (Ev o x :: t1), t2, a. repeat split; [|exact H2]. eauto.
    + intros (t1 & t2 & a & -> & (x & t & -> & H1) & H2).
      exists x, (t ++ t2). split; [reflexivity|]. apply IH. eauto 7.
Qed.

(** A deterministic device: its state and its answer to every call. *)
Definition handler (Σ : sig) (D : Type) := D -> forall o : Op Σ, Ans Σ o * D.

Fixpoint run {Σ D A} (h : handler Σ D) (p : prog Σ A) (d : D) : A * D :=
  match p with
  | Ret a => (a, d)
  | Act o k => let (x, d') := h d o in run h (k x) d'
  end.

Fixpoint run_trace {Σ D A} (h : handler Σ D) (p : prog Σ A) (d : D) : A * D * list (event Σ) :=
  match p with
  | Ret a => (a, d, [])
  | Act o k => let (x, d') := h d o in
               let '(a, d'', tr) := run_trace h (k x) d' in (a, d'', Ev o x :: tr)
  end.

Lemma run_trace_exec {Σ D A} (h : handler Σ D) (p : prog Σ A) d :
  exec p (run_trace h p d).2 (run_trace h p d).1.1.
Proof.
  revert d. induction p as [a|o k IH]; intros d; simpl; [auto|].
  destruct (h d o) as [x d']. specialize (IH x d').
  destruct (run_trace h (k x) d') as [[a d''] tr]. eauto.
Qed.

Lemma run_trace_run {Σ D A} (h : handler Σ D) (p : prog Σ A) d :
  run h p d = (run_trace h p d).1.
Proof.
  revert d. induction p as [a|o k IH]; intros d; simpl; [reflexivity|].
  destruct (h d o) as [x d']. rewrite IH.
  destruct (run_trace h (k x) d') as [[a d''] tr]. reflexivity.
Qed.

(** Every program has an execution whatever answers are chosen: it terminates. *)
Lemma exec_total {Σ A} (p : prog Σ A) (answer : forall o : Op Σ, Ans Σ o) :
  exists tr a, exec p tr a.
Proof.
  induction p as [a|o k IH]; simpl; [eauto|].
  destruct (IH (answer o)) as (tr & a & H). eauto 7.
Qed.

(** ** Protocols and weakest preconditions

    A protocol is an automaton over calls: [may g o] says that calling [o] is
    allowed in state [g], [assume g o x] what the client relies on of the
    answer, [next g o x] the state after it. *)

Record protocol (Σ : sig) (G : Type) := Protocol {
  may : G -> Op Σ -> Prop;
  assume : G -> forall o : Op Σ, Ans Σ o -> Prop;
  next : G -> forall o : Op Σ, Ans Σ o -> G
}.
Arguments Protocol {Σ G} may assume next.
Arguments may {Σ G} p g o.
Arguments assume {Σ G} p g o x.
Arguments next {Σ G} p g o x.

Section wp.
Context {Σ : sig} {G : Type} (P : protocol Σ G).

Fixpoint wp {A} (p : prog Σ A) (g : G) (Q : A -> G -> Prop) : Prop :=
  match p with
  | Ret a => Q a g
  | Act o k => may P g o /\ forall x, assume P g o x -> wp (k x) (next P g o x) Q
  end.

(** The calls of a trace are all allowed, in order. *)
Fixpoint accepts (g : G) (tr : list (event Σ)) : Prop :=
  match tr with
  | [] => True
  | e :: tr => may P g (ev_op e) /\ accepts (next P g (ev_op e) (ev_ans e)) tr
  end.

Fixpoint relies (g : G) (tr : list (event Σ)) : Prop :=
  match tr with
  | [] => True
  | e :: tr => assume P g (ev_op e) (ev_ans e) /\ relies (next P g (ev_op e) (ev_ans e)) tr
  end.

Fixpoint after (g : G) (tr : list (event Σ)) : G :=
  match tr with [] => g | e :: tr => after (next P g (ev_op e) (ev_ans e)) tr end.

Lemma wp_mono {A} (p : prog Σ A) g (Q Q' : A -> G -> Prop) :
  (forall a g, Q a g -> Q' a g) -> wp p g Q -> wp p g Q'.
Proof.
  intros HQ. revert g. induction p as [a|o k IH]; intros g; simpl; [auto|].
  intros [Hm Hk]. split; [exact Hm|]. intros x Hx. apply IH. auto.
Qed.

Lemma wp_bind {A B} (p : prog Σ A) (f : A -> prog Σ B) g Q :
  wp p g (fun a g' => wp (f a) g' Q) -> wp (bindP p f) g Q.
Proof.
  revert g. induction p as [a|o k IH]; intros g; simpl; [auto|].
  intros [Hm Hk]. split; [exact Hm|]. intros x Hx. apply IH. auto.
Qed.

Theorem wp_sound {A} (p : prog Σ A) g Q tr a :
  wp p g Q -> exec p tr a -> relies g tr -> accepts g tr /\ Q a (after g tr).
Proof.
  revert g tr. induction p as [a'|o k IH]; intros g tr; simpl.
  - intros HQ [-> ->]. simpl. auto.
  - intros [Hm Hk] (x & t & -> & He). simpl. intros [Hx Ht].
    destruct (IH x _ t (Hk x Hx) He Ht). auto.
Qed.

End wp.

Lemma accepts_app {Σ G} (P : protocol Σ G) g t1 t2 :
  accepts P g (t1 ++ t2) <-> accepts P g t1 /\ accepts P (after P g t1) t2.
Proof. revert g. induction t1; intros g; simpl; [tauto|]. rewrite IHt1. tauto. Qed.

Lemma after_app {Σ G} (P : protocol Σ G) g t1 t2 :
  after P g (t1 ++ t2) = after P (after P g t1) t2.
Proof. revert g. induction t1; intros g; simpl; auto. Qed.

Lemma relies_trivial {Σ G} (P : protocol Σ G) g tr :
  (forall g o x, assume P g o x) -> relies P g tr.
Proof. intros H. revert g. induction tr; simpl; auto. Qed.

(** ** Methods: local state and early exit

    [M Σ S A] is a method body over the object state [S].  [None] is a
    [break] or an early [return] of the enclosing block. *)

Definition M (Σ : sig) (S A : Type) : Type := S -> prog Σ (option A * S).

#[export] Instance M_ret {Σ S} : MRet (M Σ S) := fun A a s => Ret (Some a, s).
#[export] Instance M_bind {Σ S} : MBind (M Σ S) := fun A B f m s =>
  bindP (m s) (fun r => match r.1 with Some a => f a r.2 | None => Ret (None, r.2) end).

Section methods.
Context {Σ : sig} {S : Type}.

Definition brk {A} : M Σ S A := fun s => Ret (None, s).
Definition get : M Σ S S := fun s => Ret (Some s, s).
Definition gets {A} (f : S -> A) : M Σ S A := fun s => Ret (Some (f s), s).
Definition modify (f : S -> S) : M Σ S unit := fun s => Ret (Some tt, f s).
Definition call (o : Op Σ) : M Σ S (Ans Σ o) := fun s => Act o (fun x => Ret (Some x, s)).

(** [do { ... } while (false)]: a [break] inside ends the block only. *)
Definition block (m : M Σ S unit) : M Σ S unit := fun s =>
  bindP (m s) (fun r => Ret (Some tt, r.2)).

(** [if (b) m] and [if (!b) m]. *)
Definition when (b : bool) (m : M Σ S unit) : M Σ S unit := if b then m else mret tt.
Definition unless (b : bool) (m : M Σ S unit) : M Σ S unit := if b then mret tt else m.

(** [a && b] and [a || b], evaluated left to right. *)
Definition andM (a b : M Σ S bool) : M Σ S bool := x ← a; if (x : bool) then b else mret false.
Definition orM (a b : M Σ S bool) : M Σ S bool := x ← a; if (x : bool) then mret true else b.

(** [if (!m) break;] *)
Definition must (m : M Σ S bool) : M Σ S unit := x ← m; if (x : bool) then mret tt else brk.

(** [for (i = lo; i < lo + n; ++i) body], where [body] yields [Some r] to
    leave the loop with [r]. *)
Fixpoint for_nat {R} (n : nat) (i : Z) (body : Z -> M Σ S (option R)) : M Σ S (option R) :=
  match n with
  | O => mret None
  | Datatypes.S n => r ← body i; match r with Some x => mret (Some x) | None => for_nat n (i + 1) body end
  end.

Definition for_loop {R} (lo hi : Z) (body : Z -> M Σ S (option R)) : M Σ S (option R) :=
  for_nat (Z.to_nat (hi - lo)) lo body.

(** A loop whose body only breaks out of the enclosing block. *)
Definition for_each (lo hi : Z) (body : Z -> M Σ S unit) : M Σ S unit :=
  _ ← for_loop lo hi (fun i => body i;; mret (@None unit)); mret tt.

End methods.

(** The result of a method: its final state. *)
Definition final_state {Σ S A} (m : M Σ S A) (s : S) : prog Σ S :=
  bindP (m s) (fun r => Ret r.2).

Declare Scope prog_scope.
Delimit Scope prog_scope with prog.
Infix "&&>" := andM (at level 41, right associativity) : prog_scope.
Infix "|||" := orM (at level 50, left associativity) : prog_scope.
Global Open Scope prog_scope.

(** ** Proof rules for methods *)

Section wpm.
Context {Σ : sig} {G S : Type} (P : protocol Σ G).

(** [wpm m s g Q]: from object state [s] and protocol state [g], method [m]
    respects the protocol and ends with [Q]. *)
Definition wpm {A} (m : M Σ S A) (s : S) (g : G) (Q : option A -> S -> G -> Prop) : Prop :=
  wp P (m s) g (fun r g' => Q r.1 r.2 g').

Lemma wpm_ret {A} (a : A) s g (Q : option A -> S -> G -> Prop) :
  Q (Some a) s g -> wpm (mret a) s g Q.
Proof. auto. Qed.

Lemma wpm_brk {A} s g (Q : option A -> S -> G -> Prop) : Q None s g -> wpm brk s g Q.
Proof. auto. Qed.

Lemma wpm_bind {A B} (m : M Σ S A) (f : A -> M Σ S B) s g Q :
  wpm m s g (fun r s' g' => match r with Some a => wpm (f a) s' g' Q | None => Q None s' g' end) ->
  wpm (m ≫= f) s g Q.
Proof.
  intros H. apply wp_bind. eapply wp_mono; [|exact H].
  intros [[a|] s'] g'; simpl; auto.
Qed.

Lemma wpm_gets {A} (f : S -> A) s g (Q : option A -> S -> G -> Prop) :
  Q (Some (f s)) s g -> wpm (gets f) s g Q.
Proof. auto. Qed.

Lemma wpm_get s g (Q : option S -> S -> G -> Prop) : Q (Some s) s g -> wpm get s g Q.
Proof. auto. Qed.

Lemma wpm_modify f s g (Q : option unit -> S -> G -> Prop) :
  Q (Some tt) (f s) g -> wpm (modify f) s g Q.
Proof. auto. Qed.

Lemma wpm_call o s g (Q : option (Ans Σ o) -> S -> G -> Prop) :
  may P g o -> (forall x, assume P g o x -> Q (Some x) s (next P g o x)) ->
  wpm (call o) s g Q.
Proof. intros Hm Hx. split; auto. Qed.

Lemma wpm_block m s g (Q : option unit -> S -> G -> Prop) :
  wpm m s g (fun _ s' g' => Q (Some tt) s' g') -> wpm (block m) s g Q.
Proof. intros H. apply wp_bind. eapply wp_mono; [|exact H]. auto. Qed.

Lemma wpm_mono {A} (m : M Σ S A) s g (Q Q' : option A -> S -> G -> Prop) :
  wpm m s g Q -> (forall r s' g', Q r s' g' -> Q' r s' g') -> wpm m s g Q'.
Proof. intros H HQ. eapply wp_mono; [|exact H]. auto. Qed.

Lemma wpm_for_nat {R} (I : Z -> S -> G -> Prop) n i (body : Z -> M Σ S (option R)) s g Q :
  I i s g ->
  (forall j s g, i <= j < i + Z.of_nat n -> I j s g ->
     wpm (body j) s g (fun r s' g' =>
       match r with
       | Some None => I (j + 1) s' g'
       | Some (Some x) => Q (Some (Some x)) s' g'
       | None => Q None s' g'
       end)) ->
  (forall s g, I (i + Z.of_nat n) s g -> Q (Some None) s g) ->
  wpm (for_nat n i body) s g Q.
Proof.
  revert i s g. induction n as [|n IH]; intros i s g HI Hb HQ; simpl.
  - apply wpm_ret. apply HQ. replace (i + Z.of_nat 0) with i by lia. exact HI.
  - apply wpm_bind. eapply wpm_mono; [apply Hb; [lia|exact HI]|].
    intros [[x|]|] s' g' H'; [exact H'| |exact H'].
    apply IH; [exact H'| |].
    + intros j s1 g1 Hj. apply Hb. lia.
    + intros s1 g1. replace (i + 1 + Z.of_nat n) with (i + Z.of_nat (Datatypes.S n)) by lia. apply HQ.
Qed.

Lemma wpm_for_loop {R} (I : Z -> S -> G -> Prop) lo hi (body : Z -> M Σ S (option R)) s g Q :
  lo <= hi -> I lo s g ->
  (forall j s g, lo <= j < hi -> I j s g ->
     wpm (body j) s g (fun r s' g' =>
       match r with
       | Some None => I (j + 1) s' g'
       | Some (Some x) => Q (Some (Some x)) s' g'
       | None => Q None s' g'
       end)) ->
  (forall s g, I hi s g -> Q (Some None) s g) ->
  wpm (for_loop lo hi body) s g Q.
Proof.
  intros Hle HI Hb HQ. unfold for_loop.
  apply (wpm_for_nat I); [exact HI| |].
  - intros j s' g' Hj. apply Hb. lia.
  - intros s' g'. replace (lo + Z.of_nat (Z.to_nat (hi - lo))) with hi by lia. apply HQ.
Qed.

Lemma wpm_for_each (I : Z -> S -> G -> Prop) lo hi (body : Z -> M Σ S unit) s g Q :
  lo <= hi -> I lo s g ->
  (forall j s g, lo <= j < hi -> I j s g ->
     wpm (body j) s g (fun r s' g' =>
       match r with Some _ => I (j + 1) s' g' | None => Q None s' g' end)) ->
  (forall s g, I hi s g -> Q (Some tt) s g) ->
  wpm (for_each lo hi body) s g Q.
Proof.
  intros Hle HI Hb HQ. unfold for_each. apply wpm_bind.
  apply (wpm_for_loop I); [exact Hle|exact HI| |].
  - intros j s' g' Hj HI'. apply wpm_bind. eapply wpm_mono; [apply Hb; eauto|].
    intros [[]|] s1 g1 H1; [apply wpm_ret; exact H1|exact H1].
  - intros s' g' HI'. apply wpm_ret. auto.
Qed.

Lemma wpm_andM a b s g (Q : option bool -> S -> G -> Prop) :
  wpm a s g (fun r s' g' => match r with
    | Some true => wpm b s' g' Q | Some false => Q (Some false) s' g' | None => Q None s' g' end) ->
  wpm (a &&> b) s g Q.
Proof.
  intros H. apply wpm_bind. eapply wpm_mono; [exact H|].
  intros [[|]|] s' g'; auto.
Qed.

Lemma wpm_orM a b s g (Q : option bool -> S -> G -> Prop) :
  wpm a s g (fun r s' g' => match r with
    | Some false => wpm b s' g' Q | Some true => Q (Some true) s' g' | None => Q None s' g' end) ->
  wpm (a ||| b) s g Q.
Proof.
  intros H. apply wpm_bind. eapply wpm_mono; [exact H|].
  intros [[|]|] s' g'; auto.
Qed.

Lemma wpm_must m s g (Q : option unit -> S -> G -> Prop) :
  wpm m s g (fun r s' g' => match r with
    | Some true => Q (Some tt) s' g' | _ => Q None s' g' end) ->
  wpm (must m) s g Q.
Proof.
  intros H. apply wpm_bind. eapply wpm_mono; [exact H|].
  intros [[|]|] s' g'; auto.
Qed.

(** From a proof rule to executions. *)
Theorem wpm_exec {A} (m : M Σ S A) s g (Q : S -> G -> Prop) tr r :
  wpm m s g (fun _ s' g' => Q s' g') -> exec (final_state m s) tr r -> relies P g tr ->
  accepts P g tr /\ Q r (after P g tr).
Proof.
  intros Hw He Hr. eapply wp_sound; [|exact He|exact Hr].
  apply wp_bind. eapply wp_mono; [|exact Hw]. auto.
Qed.

End wpm.

(** Symbolic execution of a method body. *)
Ltac wstep :=
  lazymatch goal with
  | |- wpm _ (mbind _ _) _ _ _ => apply wpm_bind
  | |- wpm _ (mret _) _ _ _ => apply wpm_ret
  | |- wpm _ brk _ _ _ => apply wpm_brk
  | |- wpm _ (gets _) _ _ _ => apply wpm_gets
  | |- wpm _ get _ _ _ => apply wpm_get
  | |- wpm _ (modify _) _ _ _ => apply wpm_modify
  | |- wpm _ (block _) _ _ _ => apply wpm_block
  | |- wpm _ (andM _ _) _ _ _ => apply wpm_andM
  | |- wpm _ (orM _ _) _ _ _ => apply wpm_orM
  | |- wpm _ (must _) _ _ _ => apply wpm_must
  | |- wpm _ (when ?b _) _ _ _ => unfold when; destruct b eqn:?
  | |- wpm _ (unless ?b _) _ _ _ => unfold unless; destruct b eqn:?
  | |- wpm _ (if ?b then _ else _) _ _ _ => destruct b eqn:?
  end.

(** A call: the permission first, then the continuation for every answer. *)
Ltac wcall :=
  lazymatch goal with
  | |- wpm ?P (call ?o) ?s ?g ?Q => refine (wpm_call P o s g Q _ _)
  end.

(** ** Bounds on the number of calls

    [cost p n]: no execution of [p] performs more than [n] calls. *)

Definition cost {Σ A} (p : prog Σ A) (n : Z) : Prop :=
  forall tr a, exec p tr a -> zlen tr <= n.

Lemma cost_le {Σ A} (p : prog Σ A) n n' : cost p n -> n <= n' -> cost p n'.
Proof. intros H Hn tr a He. pose proof (H tr a He). lia. Qed.

Lemma cost_ret {Σ A} (a : A) : cost (Σ:=Σ) (Ret a) 0.
Proof. intros tr a' [-> _]. reflexivity. Qed.

Lemma cost_bind {Σ A B} (p : prog Σ A) (f : A -> prog Σ B) n k :
  cost p n -> (forall a, cost (f a) k) -> cost (bindP p f) (n + k).
Proof.
  intros Hp Hf tr b He. apply exec_bind in He as (t1 & t2 & a & -> & H1 & H2).
  rewrite zlen_app. pose proof (Hp _ _ H1). pose proof (Hf _ _ _ H2). lia.
Qed.

Definition mcost {Σ S A} (m : M Σ S A) (n : Z) : Prop := 0 <= n /\ forall s, cost (m s) n.

Section mcost.
Context {Σ : sig} {S : Type}.
Implicit Types n : Z.

Lemma mcost_le {A} (m : M Σ S A) n n' : mcost m n -> n <= n' -> mcost m n'.
Proof. intros [H0 H] Hn. split; [lia|]. intros s. eapply cost_le; eauto. Qed.

Lemma mcost_ret {A} (a : A) : mcost (mret a : M Σ S A) 0.
Proof. split; [lia|]. intros s. apply cost_ret. Qed.
Lemma mcost_brk {A} : mcost (brk : M Σ S A) 0.
Proof. split; [lia|]. intros s. apply cost_ret. Qed.
Lemma mcost_get : mcost (get : M Σ S S) 0.
Proof. split; [lia|]. intros s. apply cost_ret. Qed.
Lemma mcost_gets {A} (f : S -> A) : mcost (gets f : M Σ S A) 0.
Proof. split; [lia|]. intros s. apply cost_ret. Qed.
Lemma mcost_modify f : mcost (modify f : M Σ S unit) 0.
Proof. split; [lia|]. intros s. apply cost_ret. Qed.
Lemma mcost_call o : mcost (call o : M Σ S (Ans Σ o)) 1.
Proof.
  split; [lia|]. intros s tr a (x & t & -> & -> & _). reflexivity.
Qed.
Lemma mcost_bind {A B} (m : M Σ S A) (f : A -> M Σ S B) n k :
  mcost m n -> (forall a, mcost (f a) k) -> 0 <= k -> mcost (m ≫= f) (n + k).
Proof.
  intros [H0 H] Hf Hk. split; [lia|]. intros s. apply cost_bind; [apply H|].
  intros [[a|] s']; simpl; [apply Hf|]. eapply cost_le; [apply cost_ret|exact Hk].
Qed.
Lemma mcost_block m n : mcost m n -> mcost (block m : M Σ S unit) n.
Proof.
  intros [H0 H]. split; [lia|]. intros s. rewrite <- (Z.add_0_r n).
  apply cost_bind; [apply H|]. intros a. apply cost_ret.
Qed.
Lemma mcost_if {A} (b : bool) (m1 m2 : M Σ S A) n k :
  mcost m1 n -> mcost m2 k -> mcost (if b then m1 else m2) (Z.max n k).
Proof. intros H1 H2. destruct b; eapply mcost_le; eauto; lia. Qed.
Lemma mcost_option {A B} (x : option A) (f : A -> M Σ S B) m n k :
  (forall a, mcost (f a) n) -> mcost m k ->
  mcost (match x with Some a => f a | None => m end) (Z.max n k).
Proof. intros H1 H2. destruct x; eapply mcost_le; eauto; lia. Qed.
Lemma mcost_pair {A B C} (x : A * B) (f : A -> B -> M Σ S C) n :
  (forall a b, mcost (f a b) n) -> mcost (let '(a, b) := x in f a b) n.
Proof. intros H. destruct x. apply H. Qed.
Lemma mcost_when (b : bool) (m : M Σ S unit) n : mcost m n -> mcost (when b m) n.
Proof. intros H. destruct b; [exact H|]. eapply mcost_le; [apply mcost_ret|apply H]. Qed.
Lemma mcost_unless (b : bool) (m : M Σ S unit) n : mcost m n -> mcost (unless b m) n.
Proof. intros H. destruct b; [|exact H]. eapply mcost_le; [apply mcost_ret|apply H]. Qed.
Lemma mcost_andM (a b : M Σ S bool) n k : mcost a n -> mcost b k -> mcost (a &&> b) (n + k).
Proof.
  intros Ha Hb. apply mcost_bind; [exact Ha| |apply Hb]. intros [|]; [exact Hb|].
  eapply mcost_le; [apply mcost_ret|apply Hb].
Qed.
Lemma mcost_orM (a b : M Σ S bool) n k : mcost a n -> mcost b k -> mcost (a ||| b) (n + k).
Proof.
  intros Ha Hb. apply mcost_bind; [exact Ha| |apply Hb]. intros [|]; [|exact Hb].
  eapply mcost_le; [apply mcost_ret|apply Hb].
Qed.
Lemma mcost_must (m : M Σ S bool) n : mcost m n -> mcost (must m) n.
Proof.
  intros H. rewrite <- (Z.add_0_r n). apply mcost_bind; [exact H| |lia].
  intros [|]; [apply mcost_ret|apply mcost_brk].
Qed.
Lemma mcost_for_loop {R} lo hi (body : Z -> M Σ S (option R)) n :
  (forall i, mcost (body i) n) -> mcost (for_loop lo hi body) (Z.max 0 (hi - lo) * n).
Proof.
  intros Hb. unfold for_loop. replace (Z.max 0 (hi - lo)) with (Z.of_nat (Z.to_nat (hi - lo))) by lia.
  generalize (Z.to_nat (hi - lo)). intros k. revert lo. induction k as [|k IH]; intros lo; simpl for_nat.
  - apply mcost_ret.
  - assert (Hn : 0 <= n) by apply (Hb 0).
    assert (Hk : 0 <= Z.of_nat k * n) by nia.
    eapply mcost_le; [apply mcost_bind; [apply Hb| |]|].
    + intros a. apply mcost_option; [intros x; apply mcost_ret|apply IH].
    + lia.
    + rewrite Nat2Z.inj_succ, Z.mul_succ_l. lia.
Qed.
Lemma mcost_for_each lo hi (body : Z -> M Σ S unit) n :
  (forall i, mcost (body i) n) -> mcost (for_each lo hi body) (Z.max 0 (hi - lo) * n).
Proof.
  intros Hb. unfold for_each. eapply mcost_le; [apply mcost_bind|].
  - apply mcost_for_loop. intros i. apply (mcost_bind _ _ n 0); [apply Hb| |lia].
    intros a. apply mcost_ret.
  - intros a. apply mcost_ret.
  - lia.
  - lia.
Qed.
End mcost.

Create HintDb cost.
#[export] Hint Resolve mcost_ret mcost_brk mcost_get mcost_gets mcost_modify mcost_call : cost.

(** Sum up the calls of a body; the side conditions are closed numerals. *)
Ltac mcost_step :=
  lazymatch goal with
  | |- mcost (mbind _ _) _ => eapply mcost_bind; [|intros ?|]
  | |- mcost (@call ?Σ ?S ?o) _ => refine (@mcost_call Σ S o)
  | |- mcost (block _) _ => eapply mcost_block
  | |- mcost (when _ _) _ => eapply mcost_when
  | |- mcost (unless _ _) _ => eapply mcost_unless
  | |- mcost (andM _ _) _ => eapply mcost_andM
  | |- mcost (orM _ _) _ => eapply mcost_orM
  | |- mcost (must _) _ => eapply mcost_must
  | |- mcost (for_each _ _ _) _ => eapply mcost_for_each; intros ?
  | |- mcost (for_loop _ _ _) _ => eapply mcost_for_loop; intros ?
  | |- mcost (if _ then _ else _) _ => eapply mcost_if
  | |- mcost (match _ with Some _ => _ | None => _ end) _ => eapply mcost_option; [intros ?|]
  | |- mcost (let '(_, _) := _ in _) _ => eapply mcost_pair; intros ? ?
  | |- mcost _ _ => solve [eauto with cost]
  end.
Ltac mcost := repeat (cbv zeta; mcost_step).

(** ** More combinators *)

(** A member function with [return false] exits: [brk] answers [false]. *)
Definition succeeds {Σ S} (m : M Σ S unit) : M Σ S bool := fun s =>
  bindP (m s) (fun r => Ret (Some (match r.1 with Some _ => true | None => false end), r.2)).

Lemma wpm_succeeds {Σ G S} (P : protocol Σ G) (m : M Σ S unit) s g Q :
  wpm P m s g (fun r s' g' => Q (Some (match r with Some _ => true | None => false end)) s' g') ->
  wpm P (succeeds m) s g Q.
Proof. intros H. apply wp_bind. eapply wp_mono; [|exact H]. auto. Qed.

Lemma mcost_succeeds {Σ S} (m : M Σ S unit) n : mcost m n -> mcost (succeeds m) n.
Proof.
  intros [H0 H]. split; [exact H0|]. intros s. rewrite <- (Z.add_0_r n).
  apply cost_bind; [apply H|]. intros a. apply cost_ret.
Qed.
Ltac mcost ::=
  repeat (cbv zeta; lazymatch goal with
    | |- mcost (succeeds _) _ => eapply mcost_succeeds
    | _ => mcost_step
    end).

(** [for (...) ok = body && ok;]: every turn runs. *)
Definition all_of {Σ S} (lo hi : Z) (body : Z -> M Σ S bool) (ok : bool) : M Σ S bool :=
  (fix go (n : nat) (i : Z) (ok : bool) : M Σ S bool :=
     match n with
     | O => mret ok
     | Datatypes.S n => b ← body i; go n (i + 1) (b && ok)
     end) (Z.to_nat (hi - lo)) lo ok.

(** ** Running a program on an implementation of its interface

    Every call of [p] is answered by the method of the implementation; the
    methods share the object state [S] and use the lower interface [Σ']. *)
Fixpoint interp {Σ Σ' S A} (h : forall o : Op Σ, S -> prog Σ' (Ans Σ o * S)) (p : prog Σ A) (s : S)
  : prog Σ' (A * S) :=
  match p with
  | Ret a => Ret (a, s)
  | Act o k => bindP (h o s) (fun r => interp h (k r.1) r.2)
  end.

(** Refinement: if every method, called when the client's protocol allows it,
    follows the lower protocol and re-establishes the relation, then so does
    every client that respects the protocol. *)
Theorem wp_interp {Σ Σ' S G G' A} (P : protocol Σ G) (P' : protocol Σ' G')
    (R : G -> S -> G' -> Prop) (h : forall o : Op Σ, S -> prog Σ' (Ans Σ o * S))
    (p : prog Σ A) g s g' Q :
  (forall o g s g', R g s g' -> may P g o ->
     wp P' (h o s) g' (fun r d => assume P g o r.1 /\ R (next P g o r.1) r.2 d)) ->
  R g s g' -> wp P p g Q ->
  wp P' (interp h p s) g' (fun r d => exists g1, R g1 r.2 d /\ Q r.1 g1).
Proof.
  intros Hh. revert g s g'. induction p as [a|o k IH]; intros g s g' HR; simpl.
  - intros HQ. eauto.
  - intros [Hm Hk]. apply wp_bind. eapply wp_mono; [|exact (Hh o g s g' HR Hm)].
    intros [x s1] d [Hx HR1]. simpl in *. apply (IH x _ s1 d HR1). apply Hk. exact Hx.
Qed.

(** ** Calling a program with a result *)

(** A program with a state of its own, called from a method. *)
Definition lift {Σ S A} (p : prog Σ A) : M Σ S A := fun s => bindP p (fun a => Ret (Some a, s)).

Lemma wpm_lift {Σ G S A} (P : protocol Σ G) (p : prog Σ A) (s : S) g (Q : option A -> S -> G -> Prop) :
  wp P p g (fun a g' => Q (Some a) s g') -> wpm P (lift p) s g Q.
Proof. intros H. apply wp_bind. eapply wp_mono; [|exact H]. auto. Qed.

Lemma wp_final {Σ G S A} (P : protocol Σ G) (m : M Σ S A) s g (Q : S -> G -> Prop) :
  wpm P m s g (fun _ s' g' => Q s' g') -> wp P (final_state m s) g Q.
Proof. intros H. apply wp_bind. eapply wp_mono; [|exact H]. auto. Qed.

Lemma mcost_lift {Σ S A} (p : prog Σ A) n : 0 <= n -> cost p n -> mcost (lift (S:=S) p) n.
Proof.
  intros H0 H. split; [exact H0|]. intros s. rewrite <- (Z.add_0_r n).
  apply cost_bind; [exact H|]. intros a. apply cost_ret.
Qed.

Lemma cost_final {Σ S A} (m : M Σ S A) n s : mcost m n -> cost (final_state m s) n.
Proof.
  intros [H0 H]. rewrite <- (Z.add_0_r n). apply cost_bind; [apply H|]. intros a. apply cost_ret.
Qed.

(** ** Invariants kept by a method

    [stays P I m]: whatever way [m] ends, the invariant [I] of the object and
    the protocol state is kept.  The rules make it compositional, so that a
    long straight-line body needs no symbolic execution. *)
Definition stays {Σ G S A} (P : protocol Σ G) (I : S -> G -> Prop) (m : M Σ S A) : Prop :=
  forall s g, I s g -> wpm P m s g (fun _ s' g' => I s' g').

Section stays.
Context {Σ : sig} {G S : Type} (P : protocol Σ G) (I : S -> G -> Prop).

Lemma stays_ret {A} (a : A) : stays P I (mret a : M Σ S A). Proof. intros s g H. exact H. Qed.
Lemma stays_brk {A} : stays P I (brk : M Σ S A). Proof. intros s g H. exact H. Qed.
Lemma stays_get : stays P I (get : M Σ S S). Proof. intros s g H. exact H. Qed.
Lemma stays_gets {A} (f : S -> A) : stays P I (gets f : M Σ S A). Proof. intros s g H. exact H. Qed.
Lemma stays_modify f : (forall s g, I s g -> I (f s) g) -> stays P I (modify f : M Σ S unit).
Proof. intros Hf s g H. apply Hf. exact H. Qed.
Lemma stays_call o :
  (forall s g, I s g -> may P g o /\ forall x, assume P g o x -> I s (next P g o x)) ->
  stays P I (call o : M Σ S (Ans Σ o)).
Proof. intros Hc s g H. destruct (Hc s g H) as [H1 H2]. apply wpm_call; assumption. Qed.
Lemma stays_bind {A B} (m : M Σ S A) (f : A -> M Σ S B) :
  stays P I m -> (forall a, stays P I (f a)) -> stays P I (m ≫= f).
Proof.
  intros Hm Hf s g H. apply wpm_bind. eapply wpm_mono; [apply Hm; exact H|].
  intros [a|] s' g' H'; [apply Hf; exact H'|exact H'].
Qed.
Lemma stays_block m : stays P I m -> stays P I (block m : M Σ S unit).
Proof. intros Hm s g H. apply wpm_block. apply Hm. exact H. Qed.
Lemma stays_when (b : bool) m : (b = true -> stays P I m) -> stays P I (when b m).
Proof. intros Hm. destruct b; [auto|apply stays_ret]. Qed.
Lemma stays_unless (b : bool) m : (b = false -> stays P I m) -> stays P I (unless b m).
Proof. intros Hm. destruct b; [apply stays_ret|auto]. Qed.
Lemma stays_if {A} (b : bool) (m1 m2 : M Σ S A) :
  (b = true -> stays P I m1) -> (b = false -> stays P I m2) -> stays P I (if b then m1 else m2).
Proof. destruct b; auto. Qed.
Lemma stays_option {A B} (x : option A) (f : A -> M Σ S B) m :
  (forall a, stays P I (f a)) -> stays P I m -> stays P I (match x with Some a => f a | None => m end).
Proof. destruct x; auto. Qed.
Lemma stays_andM a b : stays P I a -> stays P I b -> stays P I (a &&> b).
Proof. intros Ha Hb. apply stays_bind; [exact Ha|]. intros [|]; [exact Hb|apply stays_ret]. Qed.
Lemma stays_orM a b : stays P I a -> stays P I b -> stays P I (a ||| b).
Proof. intros Ha Hb. apply stays_bind; [exact Ha|]. intros [|]; [apply stays_ret|exact Hb]. Qed.
Lemma stays_must m : stays P I m -> stays P I (must m).
Proof. intros Hm. apply stays_bind; [exact Hm|]. intros [|]; [apply stays_ret|apply stays_brk]. Qed.
Lemma stays_succeeds m : stays P I m -> stays P I (succeeds m).
Proof. intros Hm s g H. apply wpm_succeeds. apply Hm. exact H. Qed.
Lemma stays_for_loop {R} lo hi (body : Z -> M Σ S (option R)) :
  (forall i, lo <= i < hi -> stays P I (body i)) -> stays P I (for_loop lo hi body).
Proof.
  intros Hb. unfold for_loop.
  assert (Hn : forall n i, lo <= i -> i + Z.of_nat n <= Z.max lo hi -> stays P I (for_nat n i body)).
  { induction n as [|n IH]; intros i H1 H2; simpl for_nat; [apply stays_ret|].
    apply stays_bind; [apply Hb; lia|]. intros [x|]; [apply stays_ret|apply IH; lia]. }
  apply Hn; lia.
Qed.
Lemma stays_for_each lo hi (body : Z -> M Σ S unit) :
  (forall i, lo <= i < hi -> stays P I (body i)) -> stays P I (for_each lo hi body).
Proof.
  intros Hb. apply stays_bind; [|intros a; apply stays_ret]. apply stays_for_loop. intros i Hi.
  apply stays_bind; [apply Hb; exact Hi|]. intros a. apply stays_ret.
Qed.
Lemma stays_lift {A} (p : prog Σ A) :
  (forall s g, I s g -> wp P p g (fun _ g' => I s g')) -> stays P I (lift p : M Σ S A).
Proof. intros Hp s g H. apply wpm_lift. apply Hp. exact H. Qed.
Lemma stays_wpm {A} (m : M Σ S A) s g (Q : option A -> S -> G -> Prop) :
  stays P I m -> I s g -> (forall r s' g', I s' g' -> Q r s' g') -> wpm P m s g Q.
Proof. intros Hm H HQ. eapply wpm_mono; [apply Hm; exact H|]. auto. Qed.
End stays.

Create HintDb stays.
#[export] Hint Resolve stays_ret stays_brk stays_get stays_gets : stays.

(** Walk a body; what is left are the calls and the updates of the object. *)
Ltac stays_step :=
  lazymatch goal with
  | |- stays _ _ (mbind _ _) => apply stays_bind; [|intros ?]
  | |- stays _ _ (block _) => apply stays_block
  | |- stays _ _ (when _ _) => apply stays_when; intros ?
  | |- stays _ _ (unless _ _) => apply stays_unless; intros ?
  | |- stays _ _ (andM _ _) => apply stays_andM
  | |- stays _ _ (orM _ _) => apply stays_orM
  | |- stays _ _ (must _) => apply stays_must
  | |- stays _ _ (succeeds _) => apply stays_succeeds
  | |- stays _ _ (for_each _ _ _) => apply stays_for_each; intros ? ?
  | |- stays _ _ (for_loop _ _ _) => apply stays_for_loop; intros ? ?
  | |- stays _ _ (if _ then _ else _) => apply stays_if; intros ?
  | |- stays _ _ (match _ with Some _ => _ | None => _ end) => apply stays_option; [intros ?|]
  | |- stays _ _ (let '(_, _) := ?x in _) => destruct x
  | |- stays _ _ _ => solve [eauto with stays]
  end.
Ltac stays := repeat (cbv zeta; stays_step).

(** Executions of a sequence, and facts of a method alone. *)
Definition anything {Σ : sig} : protocol Σ unit := Protocol (fun _ _ => True) (fun _ _ _ => True) (fun _ _ _ => tt).

Lemma stays_call_anything {Σ S} (I : S -> unit -> Prop) (o : Op Σ) :
  stays anything I (call (S:=S) o).
Proof. intros s [] H. apply wpm_call; [exact Logic.I|]. intros x _. exact H. Qed.

Lemma exec_mbind {Σ S A B} (m : M Σ S A) (f : A -> M Σ S B) s tr r :
  exec ((m ≫= f) s) tr r ->
  exists t1 t2 o s1, tr = t1 ++ t2 /\ exec (m s) t1 (o, s1) /\
    match o with Some a => exec (f a s1) t2 r | None => t2 = [] /\ r = (None, s1) end.
Proof.
  intros He. apply exec_bind in He as (t1 & t2 & [o s1] & -> & H1 & H2).
  exists t1, t2, o, s1. split; [reflexivity|]. split; [exact H1|]. destruct o; [exact H2|].
  destruct H2 as [-> <-]. auto.
Qed.

Lemma exec_lift {Σ S A} (p : prog Σ A) (s : S) tr r : exec (lift p s) tr r ->
  exists a, exec p tr a /\ r = (Some a, s).
Proof.
  intros He. apply exec_bind in He as (t1 & t2 & a & -> & H1 & -> & <-). exists a. rewrite app_nil_r. auto.
Qed.

(** ** The executions of a deterministic device *)

(** [h], from state [d] on, answers the calls of [tr] as they were answered and
    ends in [d']. *)
Fixpoint follows {Σ D} (h : handler Σ D) (d : D) (tr : list (event Σ)) (d' : D) : Prop :=
  match tr with [] => d' = d | e :: tr => ev_ans e = (h d (ev_op e)).1 /\ follows h (h d (ev_op e)).2 tr d' end.
Lemma run_executes {Σ D A} (h : handler Σ D) (p : prog Σ A) d :
  exists tr, exec p tr (run h p d).1 /\ follows h d tr (run h p d).2.
Proof.
  revert d. induction p as [a|o k IH]; intros d; cbn [run exec]; [exists []; cbn; auto|].
  destruct (h d o) as [x d'] eqn:E. destruct (IH x d') as (tr & H1 & H2). exists (Ev o x :: tr). split; [eauto|]. cbn. rewrite E. auto.
Qed.
