(* ===== verification/FirmwarePlan.v ===== *)
(** * Firmware container layout (src/FirmwarePlan.hpp)

    The parser of the multi-image firmware container, which selects the image
    for an exact chip cut and lays out its sections, and [chunkAt], the
    payload segmentation.  Reads are checked: an access outside the caller's
    buffer is [MOob]. *)

From S2P Require Import Prelude.

Definition maxImages : Z := 64.
Definition maxSections : Z := 10.
Definition packetBytes : Z := 2020.

Inductive Status :=
| ok | truncated | badContainer | tooManyImages | imageBounds | imageOverlap
| ambiguousImage | noMatchingImage | unsupportedHeader | wrongFamily
| sectionCountError | dynamicHeader | unsupportedSection | sectionBounds
| addressOverflow | trailingData.

#[export] Instance Status_eq_dec : EqDecision Status.
Proof. solve_decision. Defined.

Definition statusName (s : Status) : string :=
  match s with
  | ok => "LAYOUT_VALIDATED"
  | truncated => "TRUNCATED"
  | badContainer => "BAD_CONTAINER"
  | tooManyImages => "TOO_MANY_IMAGES"
  | imageBounds => "IMAGE_BOUNDS"
  | imageOverlap => "IMAGE_OVERLAP"
  | ambiguousImage => "AMBIGUOUS_IMAGE"
  | noMatchingImage => "NO_MATCHING_IMAGE"
  | unsupportedHeader => "UNSUPPORTED_HEADER"
  | wrongFamily => "WRONG_CHIP_FAMILY"
  | sectionCountError => "SECTION_COUNT"
  | dynamicHeader => "DYNAMIC_HEADER"
  | unsupportedSection => "UNSUPPORTED_SECTION"
  | sectionBounds => "SECTION_BOUNDS"
  | addressOverflow => "ADDRESS_OVERFLOW"
  | trailingData => "TRAILING_DATA"
  end.

Definition le32 (b : buf) (p : Z) : mres Status Z := rd32 b p.

Definition fits (offset bytes total : Z) : bool :=
  (offset <=? total) && (bytes <=? total - offset).

Record Section_ := mkSection {
  s_offset : Z;
  payloadBytes : Z; transferBytes : Z; address : Z; metadata : Z;
  s_type : Z;
  checksumTrailer : bool; redownload : bool
}.
#[export] Instance Section_rebuild : Rebuild Section_ := fun s =>
  mkSection (s_offset s) (payloadBytes s) (transferBytes s) (address s) (metadata s)
    (s_type s) (checksumTrailer s) (redownload s).
Definition emptySection : Section_ := mkSection 0 0 0 0 0 0 false false.

Record Plan := mkPlan {
  imageOffset : Z; imageBytes : Z; headerBytes : Z; baseHeaderBytes : Z;
  version : Z; commit : Z; packetCount : Z;
  cut : Z; p_type : Z; sectionCount : Z;
  sections : list Section_;
  valid : bool
}.
#[export] Instance Plan_rebuild : Rebuild Plan := fun p =>
  mkPlan (imageOffset p) (imageBytes p) (headerBytes p) (baseHeaderBytes p)
    (version p) (commit p) (packetCount p) (cut p) (p_type p) (sectionCount p)
    (sections p) (valid p).
Definition emptyPlan : Plan :=
  mkPlan 0 0 0 0 0 0 0 0 0 0 (replicate (Z.to_nat maxSections) emptySection) false.

(** ** The image table *)

(** [start] and [length] of table entry [i]. *)
Definition imageRange (data : buf) (i : Z) : mres Status (Z * Z) :=
  start ← le32 data (16 + i * 16 + 4);
  length ← le32 data (16 + i * 16 + 8);
  mret (start, length).

(** The subtraction form of the overlap test of two ranges. *)
Definition overlaps (start length p n : Z) : bool :=
  if p <=? start then start - p <? n else p - start <? length.

Definition checkPrior (data : buf) (start length : Z) (j : Z) (_ : unit) : mres Status unit :=
  '(p, n) ← imageRange data j;
  fail_if (overlaps start length p n) imageOverlap.

(** One turn of the image loop; the state is [(normal, ce)], -1 when unset. *)
Definition scanImage (data : buf) (bytes cut tableEnd : Z) (i : Z) (s : Z * Z) : mres Status (Z * Z) :=
  let '(normal, ce) := s in
  '(start, length) ← imageRange data i;
  fail_if ((length =? 0) || (start <? tableEnd) || negb (fits start length bytes)) imageBounds;;
  for_m (Z.to_nat i) 0 (checkPrior data start length) tt;;
  e0 ← rd8 data (16 + i * 16);
  if negb (e0 =? cut) then mret (normal, ce) else
  e2 ← rd8 data (16 + i * 16 + 2);
  if negb (e2 =? 0) then mret (normal, ce) else
  e1 ← rd8 data (16 + i * 16 + 1);
  if e1 =? 5 then fail_if (0 <=? ce) ambiguousImage;; mret (normal, i)
  else if e1 =? 1 then fail_if (0 <=? normal) ambiguousImage;; mret (i, ce)
  else mret (normal, ce).

(** ** The selected image *)

(** One turn of the section loop; the state is [(cursor, plan)]. *)
Definition parseSection (data : buf) (fw : Z) (i : Z) (s : Z * Plan) : mres Status (Z * Plan) :=
  let '(cursor, plan) := s in
  let h := fw + 32 + i * 16 in
  metadata ← le32 data (h + 4);
  let type := Z.land (Z.shiftr metadata 24) 15 in
  fail_if (negb (type =? 1) && negb (type =? 2) && negb (type =? 9)) unsupportedSection;;
  (if type =? 9 then
     w8 ← le32 data (h + 8); fail_if (negb (w8 =? 0)) unsupportedSection
   else mret tt);;
  let payload := Z.land metadata 0xffffff in
  fail_if (payload =? 0) sectionBounds;;
  let trailer := flag metadata (Z.shiftl 1 28) in
  let redownload := flag metadata (Z.shiftl 1 29) in
  let transfer := u32 (payload + (if trailer then 8 else 0)) in
  w0 ← le32 data h;
  let address := Z.land w0 0x1fffffff in
  fail_if (u32 (0x20000000 - address) <? transfer) addressOverflow;;
  fail_if (negb (fits cursor transfer (imageBytes plan))) sectionBounds;;
  let section := mkSection (u64 (imageOffset plan + cursor)) payload transfer address metadata
                   type trailer redownload in
  mret (u64 (cursor + transfer),
        plan <| sections := <[Z.to_nat i := section]> (sections plan) |>
             <| packetCount := u32 (packetCount plan +
                  u32 (transfer + packetBytes - 1) / packetBytes) |>).

(** The container header and the image table: the index of the image for chip
    cut [cutArg], CE firmware preferred. *)
Definition selectImage (data : buf) (bytes cutArg : Z) : mres Status Z :=
  fail_if (bytes <? 16) truncated;;
  d0 ← rd8 data 0; count ← rd8 data 1;
  fail_if (negb (d0 =? 0xff) || (count =? 0)) badContainer;;
  fail_if (maxImages <? count) tooManyImages;;
  fail_if (negb (fits 0 (16 + count * 16) bytes)) truncated;;
  '(normal, ce) ← for_m (Z.to_nat count) 0 (scanImage data bytes cutArg (16 + count * 16)) (-1, -1);
  fail_if ((if 0 <=? ce then ce else normal) <? 0) noMatchingImage;;
  mret (if 0 <=? ce then ce else normal).

(** The dynamic header, present when bit 16 of header word 7 is set: the
    header length it declares. *)
Definition dynamicHeaderBytes (data : buf) (fw length base : Z) : mres Status Z :=
  w28 ← le32 data (fw + 28);
  if flag w28 (Z.shiftl 1 16) then
    b14 ← rd8 data (fw + 14);
    fail_if ((b14 <? base + 8) || negb (fits 0 b14 length)) dynamicHeader;;
    dyn ← le32 data (fw + base);
    fail_if (negb (dyn =? b14 - base)) dynamicHeader;;
    mret b14
  else mret base.

(** The header of the selected image: a plan without its sections. *)
Definition parseHeader (data : buf) (cutArg selected : Z) : mres Status Plan :=
  type ← rd8 data (16 + selected * 16 + 1);
  '(start, length) ← imageRange data selected;
  fail_if (length <? 32) truncated;;
  b15 ← rd8 data (start + 15);
  fail_if (negb (b15 =? 0)) unsupportedHeader;;
  w0 ← le32 data start;
  fail_if (negb (Z.shiftr w0 16 =? 0x8852)) wrongFamily;;
  version ← le32 data (start + 4); commit ← le32 data (start + 8);
  n ← rd8 data (start + 25);
  fail_if ((n =? 0) || (maxSections <? n)) sectionCountError;;
  fail_if (negb (fits 0 (32 + n * 16) length)) truncated;;
  header ← dynamicHeaderBytes data start length (32 + n * 16);
  mret (mkPlan start length header (32 + n * 16) version commit 0 cutArg type n
          (replicate (Z.to_nat maxSections) emptySection) false).

Definition parse (data : option buf) (bytes cutArg : Z) : mres Status Plan :=
  match data with
  | None => MErr truncated
  | Some data =>
      selected ← selectImage data bytes cutArg;
      plan ← parseHeader data cutArg selected;
      '(cursor, plan) ← for_m (Z.to_nat (sectionCount plan)) 0
                          (parseSection data (imageOffset plan)) (headerBytes plan, plan);
      fail_if (negb (cursor =? imageBytes plan)) trailingData;;
      mret (plan <| valid := true |>)
  end.

(** The status and the output parameter, as the caller sees them. *)
Definition parseOut (data : option buf) (bytes cutArg : Z) : option (Status * Plan) :=
  match parse data bytes cutArg with
  | MVal p => Some (ok, p)
  | MErr e => Some (e, emptyPlan)
  | MOob => None
  end.

(** ** Payload segmentation *)

Record Chunk := mkChunk { c_offset : Z; c_bytes : Z; sectionOffset : Z; c_section : Z }.
Definition emptyChunk : Chunk := mkChunk 0 0 0 0.

Definition sectionAt (p : Plan) (i : Z) : Section_ := nth (Z.to_nat i) (sections p) emptySection.

Definition chunkCount (s : Section_) : Z :=
  transferBytes s / packetBytes + (if negb (transferBytes s mod packetBytes =? 0) then 1 else 0).

Fixpoint chunkLoop (n : nat) (i : Z) (plan : Plan) (index : Z) : option Chunk :=
  match n with
  | O => None
  | S n =>
      let s := sectionAt plan i in
      if chunkCount s <=? index then chunkLoop n (i + 1) plan (index - chunkCount s)
      else
        let offset := u32 (index * packetBytes) in
        let left := u32 (transferBytes s - offset) in
        Some (mkChunk (u64 (s_offset s + offset))
                (if left <? packetBytes then left else packetBytes) offset i)
  end.

Definition chunkAt (plan : Plan) (index : Z) : option Chunk :=
  if negb (valid plan) || (maxSections <? sectionCount plan) || (packetCount plan <=? index)
  then None
  else chunkLoop (Z.to_nat (sectionCount plan)) 0 plan index.

(** ** Properties of the parser *)

Lemma fits_spec offset bytes total :
  fits offset bytes total = true <-> offset <= total /\ bytes <= total - offset.
Proof. unfold fits. rewrite andb_true_iff, !Z.leb_le. reflexivity. Qed.

Lemma imageRange_in b i :
  0 <= i -> 16 + i * 16 + 16 <= zlen b ->
  imageRange b i = MVal (le32_at b (16 + i * 16 + 4), le32_at b (16 + i * 16 + 8)).
Proof. intros. unfold imageRange, le32. rewrite !rd32_in by lia. reflexivity. Qed.

(** The byte range of image [i], as the table of [b] gives it. *)
Definition imageStart (b : buf) (i : Z) : Z := le32_at b (16 + i * 16 + 4).
Definition imageLength (b : buf) (i : Z) : Z := le32_at b (16 + i * 16 + 8).

(** Entry [i] is a normal-firmware image of kind [kind] for chip cut [cut]. *)
Definition entryIs (b : buf) (cut kind i : Z) : Prop :=
  byte_at b (16 + i * 16) = cut /\ byte_at b (16 + i * 16 + 2) = 0 /\
  byte_at b (16 + i * 16 + 1) = kind.

(** [v] is the only entry below [n] of that kind, or -1 and there is none. *)
Definition onlyEntry (b : buf) (cut kind n v : Z) : Prop :=
  (0 <= v < n /\ entryIs b cut kind v /\ forall k, 0 <= k < n -> entryIs b cut kind k -> k = v) \/
  (v = -1 /\ forall k, 0 <= k < n -> ~ entryIs b cut kind k).

(** The images below [n] lie inside the container, behind its table, and are
    pairwise disjoint. *)
Definition imagesLaidOut (b : buf) (bytes tableEnd n : Z) : Prop :=
  forall k, 0 <= k < n ->
    (tableEnd <= imageStart b k /\ 0 < imageLength b k /\
     imageStart b k + imageLength b k <= bytes) /\
    forall j, 0 <= j < k ->
      imageStart b j + imageLength b j <= imageStart b k \/
      imageStart b k + imageLength b k <= imageStart b j.

Lemma onlyEntry_skip b cut kind n v :
  onlyEntry b cut kind n v -> ~ entryIs b cut kind n -> onlyEntry b cut kind (n + 1) v.
Proof.
  intros [(Hv & He & Hu)|(-> & Hn)] Hne; [left|right].
  - repeat split; try lia; try apply He. intros k Hk Hek.
    destruct (Z.eq_dec k n) as [->|]; [contradiction|]. apply Hu; [lia|auto].
  - split; [reflexivity|]. intros k Hk Hek.
    destruct (Z.eq_dec k n) as [->|]; [contradiction|]. apply (Hn k); [lia|auto].
Qed.

Lemma onlyEntry_found b cut kind n :
  0 <= n -> onlyEntry b cut kind n (-1) -> entryIs b cut kind n -> onlyEntry b cut kind (n + 1) n.
Proof.
  intros Hn [(Hv & _)|(_ & Hnone)] He; [lia|]. left. repeat split; try lia; try apply He.
  intros k Hk Hek. destruct (Z.eq_dec k n) as [|]; [auto|].
  exfalso. apply (Hnone k); [lia|auto].
Qed.

Section safety.
Variables (b : buf) (bytes : Z).
Hypothesis Hbytes : 0 <= bytes <= zlen b.

Definition imagesInv (cut tableEnd i : Z) (s : Z * Z) : Prop :=
  onlyEntry b cut 1 i s.1 /\ onlyEntry b cut 5 i s.2 /\ imagesLaidOut b bytes tableEnd i.

Lemma checkPrior_spec start len n :
  0 <= n -> 16 + n * 16 <= bytes ->
  mspec (for_m (Z.to_nat n) 0 (checkPrior b start len) tt) (fun _ =>
    forall j, 0 <= j < n ->
      imageStart b j + imageLength b j <= start \/ start + len <= imageStart b j).
Proof.
  intros Hn Ht.
  apply (mspec_for_m (fun n _ => forall j, 0 <= j < n ->
    imageStart b j + imageLength b j <= start \/ start + len <= imageStart b j));
    [lia|intros j Hj; lia| |auto].
  intros j [] Hj HI. unfold checkPrior. rewrite imageRange_in by lia. mwalk.
  intros j' Hj'. destruct (Z.eq_dec j' j) as [->|]; [|apply HI; lia].
  unfold overlaps in Hg. unfold imageStart, imageLength.
  destruct (Z.leb_spec (le32_at b (16 + j * 16 + 4)) start); lia.
Qed.

Lemma scanImage_spec cutArg count i s :
  0 <= i < count -> 16 + count * 16 <= bytes -> imagesInv cutArg (16 + count * 16) i s ->
  mspec (scanImage b bytes cutArg (16 + count * 16) i s) (imagesInv cutArg (16 + count * 16) (i + 1)).
Proof.
  intros Hi Ht (Hn1 & Hn5 & Hlay). destruct s as [normal ce]. simpl in Hn1, Hn5.
  unfold scanImage. rewrite imageRange_in by lia.
  fold (imageStart b i) (imageLength b i).
  do 5 mstep.
  eapply mspec_mono; [apply checkPrior_spec; lia|]. intros u Hdis. cbv beta. cbv beta in Hdis. clear u.
  assert (Hlay' : imagesLaidOut b bytes (16 + count * 16) (i + 1)).
  { intros k Hk. destruct (Z.eq_dec k i) as [->|]; [|apply Hlay; lia].
    pose proof (le32_at_range b (16 + i * 16 + 8)) as Hr.
    fold (imageLength b i) in Hr. split; [unfold fits, in_u32 in *; lia|exact Hdis]. }
  mwalk; unfold imagesInv; simpl.
  all: split; [|split; [|exact Hlay']].
  all: first
    [ apply onlyEntry_skip; [assumption|]; intros (E1 & E2 & E3); lia
    | apply onlyEntry_found; [lia| |repeat split; lia];
      match goal with H : onlyEntry _ _ _ _ ?v |- _ =>
        assert (v = -1) as <- by (destruct H as [(? & _)|(? & _)]; lia); exact H end ].
Qed.
End safety.

(** ** The layout of a plan *)

(** [tiled base cur l fin]: the sections of [l] follow each other without gap
    or overlap, from [cur] to [fin] (offsets relative to [base]), each with a
    payload and a load address range inside the 29-bit address space. *)
Fixpoint tiled (base cur : Z) (l : list Section_) (fin : Z) : Prop :=
  match l with
  | [] => cur = fin
  | s :: l =>
      s_offset s = base + cur /\
      0 < payloadBytes s /\
      transferBytes s = payloadBytes s + (if checksumTrailer s then 8 else 0) /\
      transferBytes s < 0x1000008 /\
      0 <= address s /\ address s + transferBytes s <= 0x20000000 /\
      (s_type s = 1 \/ s_type s = 2 \/ s_type s = 9) /\
      tiled base (cur + transferBytes s) l fin
  end.

Definition sumChunks (l : list Section_) : Z := foldr (fun s acc => chunkCount s + acc) 0 l.

(** The sections in use. *)
Definition used (p : Plan) : list Section_ := take (Z.to_nat (sectionCount p)) (sections p).

Record wf_plan (bytes : Z) (p : Plan) : Prop := {
  wf_valid : valid p = true;
  wf_count : 1 <= sectionCount p <= maxSections;
  wf_sections : zlen (sections p) = maxSections;
  wf_image : 16 <= imageOffset p /\ imageOffset p + imageBytes p <= bytes;
  wf_range : imageOffset p < 2^32 /\ imageBytes p < 2^32;
  wf_base : baseHeaderBytes p = 32 + sectionCount p * 16;
  wf_header : baseHeaderBytes p <= headerBytes p <= imageBytes p;
  wf_tiled : tiled (imageOffset p) (headerBytes p) (used p) (imageBytes p);
  wf_packets : packetCount p = sumChunks (used p)
}.

Lemma tiled_app base cur l1 l2 mid fin :
  tiled base cur l1 mid -> tiled base mid l2 fin -> tiled base cur (l1 ++ l2) fin.
Proof.
  revert cur. induction l1 as [|s l1 IH]; intros cur; simpl.
  - intros ->. auto.
  - intros (? & ? & ? & ? & ? & ? & ? & Ht) Hm. auto 10.
Qed.

Lemma sumChunks_app l1 l2 : sumChunks (l1 ++ l2) = sumChunks l1 + sumChunks l2.
Proof. unfold sumChunks. rewrite foldr_app. induction l1; simpl; lia. Qed.

(** The rounded-up division of the packet count. *)
Lemma chunkCount_ceil s :
  0 < transferBytes s < 0x1000008 ->
  u32 (transferBytes s + packetBytes - 1) / packetBytes = chunkCount s.
Proof.
  intros H. unfold chunkCount, packetBytes. rewrite u32_small by zlia.
  destruct (Z.eqb_spec (transferBytes s mod 2020) 0); simpl; zlia.
Qed.

Lemma chunkCount_bounds s :
  0 < transferBytes s -> 0 < chunkCount s /\
  (chunkCount s - 1) * packetBytes < transferBytes s <= chunkCount s * packetBytes.
Proof.
  intros H. unfold chunkCount, packetBytes.
  destruct (Z.eqb_spec (transferBytes s mod 2020) 0); simpl; zlia.
Qed.

Lemma tiled_transfer s : 0 < payloadBytes s ->
  transferBytes s = payloadBytes s + (if checksumTrailer s then 8 else 0) -> 0 < transferBytes s.
Proof. destruct (checksumTrailer s); lia. Qed.

Lemma tiled_sumChunks base cur l fin : tiled base cur l fin -> 0 <= sumChunks l.
Proof.
  revert cur. induction l as [|s l IH]; intros cur; simpl; [lia|].
  intros (_ & Hp & Ht & _ & _ & _ & _ & Hr). apply IH in Hr.
  pose proof (chunkCount_bounds s (tiled_transfer s Hp Ht)). lia.
Qed.

Lemma take_insert_next {A} (l : list A) n (x : A) :
  (n < length l)%nat -> take (S n) (<[n := x]> l) = take n l ++ [x].
Proof.
  intros H. erewrite take_S_r by (apply list_lookup_insert_eq; exact H).
  rewrite take_insert_ge by lia. reflexivity.
Qed.

Section sections.
Variables (b : buf) (p0 : Plan).

(** What the section loop keeps at index [i]. *)
Definition sectionsInv (i : Z) (s : Z * Plan) : Prop :=
  let '(cursor, p) := s in
  p = p0 <| sections := sections p |> <| packetCount := packetCount p |> /\
  zlen (sections p) = maxSections /\
  headerBytes p0 <= cursor <= imageBytes p0 /\
  tiled (imageOffset p0) (headerBytes p0) (take (Z.to_nat i) (sections p)) cursor /\
  packetCount p = sumChunks (take (Z.to_nat i) (sections p)) /\
  packetCount p <= i * 0x2100.

Lemma parseSection_spec i s :
  0 <= i < maxSections -> 0 <= headerBytes p0 ->
  16 <= imageOffset p0 < 2^32 -> imageBytes p0 < 2^32 ->
  imageOffset p0 + imageBytes p0 <= zlen b ->
  32 + (i + 1) * 16 <= imageBytes p0 ->
  sectionsInv i s ->
  mspec (parseSection b (imageOffset p0) i s) (sectionsInv (i + 1)).
Proof.
  intros Hi Hh Ho Hb Hfit Hhdr HI. destruct s as [cursor p].
  destruct HI as (Hp & Hlen & Hcur & Htile & Hpk & Hpkb).
  unfold parseSection, le32.
  assert (Him : imageBytes p = imageBytes p0 /\ imageOffset p = imageOffset p0)
    by (rewrite Hp; auto). destruct Him as [Him Hio].
  mstep. apply rd32_spec; [lia|lia|].
  mstep. mstep. mstep.
  apply mspec_mono with (fun _ => True); [destruct (_ =? 9); mwalk; auto|]. intros _ _.
  do 3 mstep. apply rd32_spec; [lia|lia|]. do 5 mstep.
  set (m := le32_at b (imageOffset p0 + 32 + i * 16 + 4)) in *.
  set (w0 := le32_at b (imageOffset p0 + 32 + i * 16)) in *.
  set (pay := Z.land m 16777215) in *.
  set (addr := Z.land w0 536870911) in *.
  assert (0 <= pay <= 16777215) by (apply land_bounds; lia).
  assert (0 <= addr <= 536870911) by (apply land_bounds; lia).
  set (tr := u32 (pay + (if flag m (Z.shiftl 1 28) then 8 else 0))) in *.
  assert (Htr : tr = pay + (if flag m (Z.shiftl 1 28) then 8 else 0)).
  { unfold tr. apply u32_small. destruct (flag m _); zlia. }
  assert (Htr2 : 0 < tr < 0x1000008) by (destruct (flag m (Z.shiftl 1 28)); lia).
  rewrite u32_small in Hg1 by zlia.
  assert (Hfits : cursor <= imageBytes p0 /\ tr <= imageBytes p0 - cursor).
  { apply fits_spec. rewrite <- Him. destruct (fits _ _ _); [reflexivity|discriminate]. }
  rewrite !u64_small by zlia. rewrite Hio.
  set (sec := mkSection _ _ _ _ _ _ _ _).
  assert (Hn : Z.to_nat (i + 1) = S (Z.to_nat i)) by lia.
  unfold zlen in *. unfold maxSections in *.
  assert (Hcc : u32 (tr + packetBytes - 1) / packetBytes = chunkCount sec)
    by (apply (chunkCount_ceil sec); exact Htr2).
  rewrite Hcc.
  assert (Hcb : 0 < chunkCount sec <= 0x2100).
  { pose proof (chunkCount_bounds sec) as Hc. unfold packetBytes in Hc. simpl in Hc. lia. }
  assert (0 <= packetCount p) .
  { rewrite Hpk. eapply tiled_sumChunks; exact Htile. }
  rewrite u32_small by zlia.
  unfold sectionsInv. simpl. rewrite Hn, !take_insert_next by (unfold zlen in *; lia).
  rewrite sumChunks_app. simpl.
  refine (conj _ (conj _ (conj _ (conj _ (conj _ _))))).
  - rewrite Hp. reflexivity.
  - unfold zlen. rewrite length_insert. exact Hlen.
  - lia.
  - eapply tiled_app; [exact Htile|]. simpl.
    refine (conj _ (conj _ (conj _ (conj _ (conj _ (conj _ (conj _ _))))))); lia.
  - lia.
  - lia.
Qed.
End sections.

(** What [parse] promises of the plan it returns for chip cut [cutArg]. *)
Definition planFor (b : buf) (bytes cutArg : Z) (p : Plan) : Prop :=
  wf_plan bytes p /\ cut p = cutArg /\
  imagesLaidOut b bytes (16 + byte_at b 1 * 16) (byte_at b 1) /\
  exists i, 0 <= i < byte_at b 1 /\
    imageOffset p = imageStart b i /\ imageBytes p = imageLength b i /\
    ((p_type p = 5 /\ onlyEntry b cutArg 5 (byte_at b 1) i) \/
     (p_type p = 1 /\ onlyEntry b cutArg 1 (byte_at b 1) i /\
      onlyEntry b cutArg 5 (byte_at b 1) (-1))).

Lemma imagesInv_start b bytes cutArg tableEnd : imagesInv b bytes cutArg tableEnd 0 (-1, -1).
Proof.
  split; [|split]; [right|right|intros k Hk; lia]; (split; [reflexivity|intros k Hk; lia]).
Qed.

Lemma sectionsInv_start p0 :
  zlen (sections p0) = maxSections -> headerBytes p0 <= imageBytes p0 -> packetCount p0 = 0 ->
  sectionsInv p0 0 (headerBytes p0, p0).
Proof.
  intros Hl Hh Hp. unfold sectionsInv. simpl.
  destruct p0; simpl in *. subst. repeat split; try lia; auto.
Qed.

Section parse.
Variables (b : buf) (bytes cutArg : Z).
Hypothesis Hbytes : 0 <= bytes <= zlen b.

Lemma parse_images :
  let count := byte_at b 1 in
  16 + count * 16 <= bytes ->
  mspec (for_m (Z.to_nat count) 0 (scanImage b bytes cutArg (16 + count * 16)) (-1, -1))
    (imagesInv b bytes cutArg (16 + count * 16) count).
Proof.
  intros count Ht. pose proof (byte_at_range b 1) as Hc. fold count in Hc.
  apply (mspec_for_m (imagesInv b bytes cutArg (16 + count * 16)));
    [zlia|apply imagesInv_start| |auto].
  intros j t Hj. apply scanImage_spec; [exact Hbytes|lia|exact Ht].
Qed.

Lemma parse_sections p0 :
  0 <= sectionCount p0 <= maxSections -> 0 <= headerBytes p0 <= imageBytes p0 ->
  16 <= imageOffset p0 < 2^32 -> imageBytes p0 < 2^32 ->
  imageOffset p0 + imageBytes p0 <= zlen b ->
  32 + sectionCount p0 * 16 <= imageBytes p0 ->
  zlen (sections p0) = maxSections -> packetCount p0 = 0 ->
  mspec (for_m (Z.to_nat (sectionCount p0)) 0 (parseSection b (imageOffset p0)) (headerBytes p0, p0))
    (sectionsInv p0 (sectionCount p0)).
Proof.
  intros Hc Hh Ho Hi Hfit Hhdr Hl Hp.
  apply (mspec_for_m (sectionsInv p0)); [lia|apply sectionsInv_start; auto; lia| |auto].
  intros j t Hj HI. apply parseSection_spec; unfold maxSections in *; auto; lia.
Qed.

(** The image [selectImage] picks: in range, laid out with the others. *)
Definition selectedImage (i : Z) : Prop :=
  16 <= 16 + byte_at b 1 * 16 <= bytes /\
  imagesLaidOut b bytes (16 + byte_at b 1 * 16) (byte_at b 1) /\
  0 <= i < byte_at b 1 /\
  ((byte_at b (16 + i * 16 + 1) = 5 /\ onlyEntry b cutArg 5 (byte_at b 1) i) \/
   (byte_at b (16 + i * 16 + 1) = 1 /\ onlyEntry b cutArg 1 (byte_at b 1) i /\
    onlyEntry b cutArg 5 (byte_at b 1) (-1))).

Lemma selectImage_spec : mspec (selectImage b bytes cutArg) selectedImage.
Proof.
  unfold selectImage. do 3 mstep. mwalk. pose proof (byte_at_range b 1) as Hr.
  assert (Ht : 16 + byte_at b 1 * 16 <= bytes) by (unfold fits in *; lia).
  eapply mspec_mono; [apply parse_images; exact Ht|].
  intros [normal ce] (Hn & Hc & Hlay). mwalk. simpl in Hn, Hc.
  split; [unfold in_u8 in Hr; lia|]. split; [exact Hlay|].
  destruct (Z.leb_spec 0 ce).
  - destruct Hc as [(Hv & He & Hu)|(-> & _)]; [|lia].
    split; [exact Hv|]. left. split; [apply He|]. left. auto.
  - assert (ce = -1) as -> by (destruct Hc as [(? & _)|(? & _)]; lia).
    apply Z.ltb_ge in Hg3.
    destruct Hn as [(Hv & He & Hu)|(-> & _)]; [|lia].
    split; [exact Hv|]. right. split; [apply He|]. split; [left; auto|exact Hc].
Qed.

(** The plan of the header alone, for the image [i]. *)
Definition headerPlan (i : Z) (p : Plan) : Prop :=
  imageOffset p = imageStart b i /\ imageBytes p = imageLength b i /\
  p_type p = byte_at b (16 + i * 16 + 1) /\ cut p = cutArg /\
  1 <= sectionCount p <= maxSections /\ zlen (sections p) = maxSections /\
  packetCount p = 0 /\ baseHeaderBytes p = 32 + sectionCount p * 16 /\
  baseHeaderBytes p <= headerBytes p <= imageBytes p.

Lemma dynamicHeaderBytes_spec fw length base :
  0 <= fw -> 32 <= base <= length -> fw + length <= zlen b ->
  mspec (dynamicHeaderBytes b fw length base) (fun h => base <= h <= length).
Proof.
  intros. unfold dynamicHeaderBytes, le32. mstep. apply rd32_spec; [lia|lia|].
  mstep; [|mstep; lia]. mstep. apply rd8_spec; [lia|]. mstep. mstep.
  unfold fits in *. mstep. apply rd32_spec; [lia|lia|]. mwalk. lia.
Qed.

Lemma parseHeader_spec i : selectedImage i -> mspec (parseHeader b cutArg i) (headerPlan i).
Proof.
  intros (Ht & Hlay & Hi & _). destruct (Hlay i Hi) as [(Hs1 & Hs2 & Hs3) _].
  unfold parseHeader, le32, maxSections. mstep. apply rd8_spec; [lia|].
  rewrite imageRange_in by lia. fold (imageStart b i) (imageLength b i).
  do 4 mstep. mwalk. pose proof (byte_at_range b (imageStart b i + 25)) as Hr.
  unfold in_u8 in Hr. assert (Hf : 32 + byte_at b (imageStart b i + 25) * 16 <= imageLength b i)
    by (unfold fits in *; lia).
  eapply mspec_mono; [apply dynamicHeaderBytes_spec; lia|].
  cbv beta. intros h Hh. mwalk. unfold headerPlan, maxSections. simpl. repeat split; first [reflexivity|lia].
Qed.
End parse.

Lemma parse_spec b bytes cutArg :
  0 <= bytes <= zlen b -> mspec (parse (Some b) bytes cutArg) (planFor b bytes cutArg).
Proof.
  intros Hb. unfold parse. mstep. eapply mspec_mono; [exact (selectImage_spec b bytes cutArg Hb)|].
  intros i Hsel. mstep. eapply mspec_mono; [exact (parseHeader_spec b bytes cutArg Hb i Hsel)|].
  intros p0 (Ho & Hl & Hty & Hcut & Hn & Hsec & Hpk & Hbase & Hhdr).
  destruct Hsel as (Ht & Hlay & Hi & Hkind). destruct (Hlay i Hi) as [(Hs1 & Hs2 & Hs3) _].
  pose proof (le32_at_range b (16 + i * 16 + 4)) as Hr1. fold (imageStart b i) in Hr1.
  pose proof (le32_at_range b (16 + i * 16 + 8)) as Hr2. fold (imageLength b i) in Hr2.
  mstep. eapply mspec_mono; [apply parse_sections; zlia|].
  intros [cursor p] (Hp & Hlen & Hcur & Htile & Hpc & _).
  mwalk. apply negb_false_iff, Z.eqb_eq in Hg. rewrite Hp in Hg. simpl in Hg.
  split; [|split; [|split]].
  - rewrite Hp. split; simpl; rewrite ?Ho, ?Hl; unfold in_u32, maxSections in *;
      change (2^32) with 4294967296; try first [assumption|lia].
    rewrite <- Ho, <- Hl, <- Hg. exact Htile.
  - rewrite Hp. exact Hcut.
  - exact Hlay.
  - exists i. rewrite Hp. simpl. rewrite Hty. auto.
Qed.

(** The parser's error codes are proper errors. *)
Lemma parse_not_ok b bytes cutArg : never ok (parse b bytes cutArg).
Proof.
  unfold parse. destruct b as [b|]; [|discriminate].
  unfold selectImage, parseHeader, dynamicHeaderBytes, scanImage, checkPrior, parseSection,
    imageRange, le32. mnever.
Qed.

(** C1: whatever the bytes of the container are, the parser reads only inside
    the buffer the caller described. *)
Theorem parse_memory_safe b bytes cutArg :
  0 <= bytes <= zlen b -> safe (parse (Some b) bytes cutArg).
Proof. intros Hb. eapply mspec_safe, parse_spec, Hb. Qed.

(** C2: a plan returned for a chip cut is well formed: the images of the table
    are disjoint and inside the container, the plan's image is the only CE
    image for that cut (or, when there is none, the only normal one), its
    sections tile the image behind the header without gap or overlap, each
    load range lies in the 29-bit address space, and the packet count is the
    sum of the sections' chunk counts. *)
Theorem parse_sound b bytes cutArg p :
  0 <= bytes <= zlen b -> parse (Some b) bytes cutArg = MVal p -> planFor b bytes cutArg p.
Proof. intros Hb Hp. exact (mspec_val _ _ _ (parse_spec b bytes cutArg Hb) Hp). Qed.

(** ** Properties of the segmentation *)

(** [chunkAt] on the list of sections in use. *)
Fixpoint chunkIn (l : list Section_) (i index : Z) : option Chunk :=
  match l with
  | [] => None
  | s :: l =>
      if chunkCount s <=? index then chunkIn l (i + 1) (index - chunkCount s)
      else
        let offset := u32 (index * packetBytes) in
        let left := u32 (transferBytes s - offset) in
        Some (mkChunk (u64 (s_offset s + offset))
                (if left <? packetBytes then left else packetBytes) offset i)
  end.

Lemma chunkLoop_chunkIn n i p index :
  (Z.to_nat i + n <= length (sections p))%nat -> 0 <= i ->
  chunkLoop n i p index = chunkIn (take n (drop (Z.to_nat i) (sections p))) i index.
Proof.
  revert i index. induction n as [|n IH]; intros i index Hl Hi; [reflexivity|].
  assert (Hs : drop (Z.to_nat i) (sections p) =
               sectionAt p i :: drop (Z.to_nat (i + 1)) (sections p)).
  { unfold sectionAt. destruct (sections p !! Z.to_nat i) as [s|] eqn:Hs.
    - rewrite (nth_lookup_Some _ _ emptySection s Hs), (drop_S _ s (Z.to_nat i) Hs).
      do 2 f_equal. lia.
    - apply lookup_ge_None in Hs. lia. }
  rewrite Hs. simpl. destruct (chunkCount (sectionAt p i) <=? index); [|reflexivity].
  apply IH; lia.
Qed.

(** The bytes of a chunk. *)
Definition chunkSlice (b : buf) (c : Chunk) : buf := slice b (c_offset c) (c_bytes c).

Definition chunkBytes (b : buf) (o : option Chunk) : buf :=
  match o with Some c => chunkSlice b c | None => [] end.

(** What one section contributes. *)
Definition sectionChunk (s : Section_) (i index : Z) : Chunk :=
  mkChunk (s_offset s + index * packetBytes)
    (Z.min packetBytes (transferBytes s - index * packetBytes)) (index * packetBytes) i.

Lemma chunkIn_head s l i index :
  0 <= s_offset s < 2^33 -> 0 < transferBytes s < 0x1000008 -> 0 <= index < chunkCount s ->
  chunkIn (s :: l) i index = Some (sectionChunk s i index).
Proof.
  intros Ho Ht Hi. pose proof (chunkCount_bounds s) as Hc. unfold packetBytes in *.
  simpl. destruct (Z.leb_spec (chunkCount s) index); [lia|].
  rewrite (u32_small (index * packetBytes)) by (unfold packetBytes; zlia).
  rewrite u32_small by (unfold packetBytes; zlia).
  rewrite u64_small by (unfold packetBytes; change (2^33) with 8589934592 in Ho; zlia).
  unfold sectionChunk, packetBytes. do 2 f_equal.
  destruct (Z.ltb_spec (transferBytes s - index * 2020) 2020); lia.
Qed.

Lemma chunkIn_skip s l i index :
  0 < transferBytes s -> 0 <= index ->
  chunkIn (s :: l) i (chunkCount s + index) = chunkIn l (i + 1) index.
Proof.
  intros Ht Hi. simpl. destruct (Z.leb_spec (chunkCount s) (chunkCount s + index)); [|lia].
  f_equal. lia.
Qed.

(** The chunks of one section, in order, are its bytes. *)
Lemma section_chunks b s i k :
  0 <= s_offset s -> 0 < transferBytes s -> (Z.of_nat k <= chunkCount s) ->
  concat (map (fun j => chunkSlice b (sectionChunk s i j)) (seqZ 0 (Z.of_nat k))) =
  slice b (s_offset s) (Z.min (Z.of_nat k * packetBytes) (transferBytes s)).
Proof.
  intros Ho Ht. pose proof (chunkCount_bounds s Ht) as [_ Hc]. unfold packetBytes in *.
  induction k as [|k IH]; intros Hk.
  - replace (Z.min _ _) with 0 by lia. reflexivity.
  - rewrite seqZ_S, map_app, concat_app, IH by lia.
    simpl. rewrite app_nil_r. unfold chunkSlice. simpl.
    assert (Z.of_nat k <= chunkCount s - 1) by lia.
    assert (Z.of_nat k * 2020 < transferBytes s) by lia.
    rewrite (Z.min_l (Z.of_nat k * 2020)) by lia.
    unfold packetBytes. rewrite Z.add_0_l, <- slice_app by lia. f_equal. lia.
Qed.

Lemma tiled_cons base cur s l fin :
  tiled base cur (s :: l) fin ->
  s_offset s = base + cur /\ 0 < transferBytes s < 0x1000008 /\
  tiled base (cur + transferBytes s) l fin.
Proof.
  simpl. intros (Ho & Hp & Ht & Hb & _ & _ & _ & Hr).
  pose proof (tiled_transfer s Hp Ht). auto.
Qed.

Lemma tiled_le base cur l fin : tiled base cur l fin -> cur <= fin.
Proof.
  revert cur. induction l as [|s l IH]; intros cur H; [simpl in H; lia|].
  apply tiled_cons in H as (_ & Ht & Hr). apply IH in Hr. lia.
Qed.

Lemma tiled_chunks b base cur l fin i :
  0 <= base < 2^32 -> 0 <= cur -> fin < 2^32 -> tiled base cur l fin ->
  concat (map (fun k => chunkBytes b (chunkIn l i k)) (seqZ 0 (sumChunks l))) =
  slice b (base + cur) (fin - cur).
Proof.
  intros Hb. revert cur i. induction l as [|s l IH]; intros cur i Hc Hf Ht.
  - simpl in *. subst. rewrite Z.sub_diag. reflexivity.
  - apply tiled_cons in Ht as (Ho & Htr & Hr).
    pose proof (tiled_le _ _ _ _ Hr). pose proof (tiled_sumChunks _ _ _ _ Hr) as Hn.
    pose proof (chunkCount_bounds s (proj1 Htr)) as [Hcc Hcb]. unfold packetBytes in Hcb.
    simpl sumChunks. rewrite seqZ_app by lia. rewrite map_app, concat_app.
    replace (fin - cur) with (transferBytes s + (fin - (cur + transferBytes s))) by lia.
    rewrite slice_app by lia. f_equal.
    + transitivity (concat (map (fun j => chunkSlice b (sectionChunk s i j))
                              (seqZ 0 (Z.of_nat (Z.to_nat (chunkCount s)))))).
      * rewrite Z2Nat.id by lia. f_equal. apply map_ext_in. intros k Hk.
        apply list_elem_of_In, elem_of_seqZ in Hk.
        rewrite chunkIn_head; [reflexivity| |lia|lia].
        change (2^33) with 8589934592. change (2^32) with 4294967296 in *. lia.
      * rewrite section_chunks by lia. rewrite Z2Nat.id by lia. rewrite Ho.
        unfold packetBytes. f_equal. lia.
    + rewrite <- Z.add_assoc, <- (IH (cur + transferBytes s) (i + 1)) by (auto; lia).
      f_equal. rewrite Z.add_0_l, map_seqZ_shift. apply map_ext_in. intros k Hk.
      apply list_elem_of_In, elem_of_seqZ in Hk. rewrite chunkIn_skip by lia. reflexivity.
Qed.

Lemma chunkAt_used bytes p index :
  wf_plan bytes p -> 0 <= index < packetCount p -> chunkAt p index = chunkIn (used p) 0 index.
Proof.
  intros [Hv Hc Hs _ _ _ _ _ _] Hi. unfold chunkAt, maxSections, zlen in *.
  rewrite Hv. simpl.
  destruct (Z.ltb_spec 10 (sectionCount p)); [lia|].
  destruct (Z.leb_spec (packetCount p) index); [lia|]. simpl.
  rewrite chunkLoop_chunkIn by lia. reflexivity.
Qed.

Lemma plan_chunks b bytes p :
  wf_plan bytes p ->
  concat (map (fun k => chunkBytes b (chunkAt p k)) (seqZ 0 (packetCount p))) =
    slice b (imageOffset p + headerBytes p) (imageBytes p - headerBytes p).
Proof.
  intros Hwf. pose proof Hwf as [Hv Hc Hs [Ho Hf] [Hr1 Hr2] Hb Hh Ht Hp].
  rewrite <- (tiled_chunks b (imageOffset p) (headerBytes p) (used p) (imageBytes p) 0);
    [|lia|lia|exact Hr2|exact Ht].
  rewrite <- Hp. f_equal. apply map_ext_in. intros k Hk.
  apply list_elem_of_In, elem_of_seqZ in Hk.
  rewrite (chunkAt_used bytes) by (auto; lia). reflexivity.
Qed.

(** C3: for a well-formed plan, the chunks 0, 1, ..., packetCount-1 put one
    after the other are exactly the bytes of the image behind its header: no
    byte is lost, repeated or reordered, and indices past the end give none. *)
Theorem chunks_reassemble b bytes p :
  wf_plan bytes p ->
  concat (map (fun k => chunkBytes b (chunkAt p k)) (seqZ 0 (packetCount p))) =
    slice b (imageOffset p + headerBytes p) (imageBytes p - headerBytes p) /\
  forall k, packetCount p <= k -> chunkAt p k = None.
Proof.
  intros Hwf. split; [exact (plan_chunks b bytes p Hwf)|].
  intros k Hk. unfold chunkAt. destruct (Z.leb_spec (packetCount p) k); [|lia].
  rewrite !orb_true_r. reflexivity.
Qed.

Lemma chunkIn_bounds base cur l fin i k :
  0 <= base < 2^32 -> 0 <= cur -> fin < 2^32 -> tiled base cur l fin -> 0 <= k < sumChunks l ->
  exists c, chunkIn l i k = Some c /\ 0 < c_bytes c <= packetBytes /\
    base + cur <= c_offset c /\ c_offset c + c_bytes c <= base + fin.
Proof.
  intros Hb. revert cur i k. induction l as [|s l IH]; intros cur i k Hc Hf Ht Hk;
    [simpl in Hk; lia|].
  apply tiled_cons in Ht as (Ho & Htr & Hr). pose proof (tiled_le _ _ _ _ Hr).
  pose proof (chunkCount_bounds s (proj1 Htr)) as [Hcc Hcb]. unfold packetBytes in Hcb.
  simpl sumChunks in Hk. destruct (Z.lt_ge_cases k (chunkCount s)).
  - exists (sectionChunk s i k). rewrite chunkIn_head; [|
      change (2^33) with 8589934592; change (2^32) with 4294967296 in *; lia|lia|lia].
    split; [reflexivity|]. simpl. unfold packetBytes. lia.
  - destruct (IH (cur + transferBytes s) (i + 1) (k - chunkCount s))
      as (c & E & Hb1 & Hb2 & Hb3); [lia|lia|exact Hr|lia|].
    exists c. split; [|repeat split; lia].
    rewrite <- E, <- (chunkIn_skip s l i) by lia. f_equal. lia.
Qed.

(** Every chunk of a plan fits one packet and lies inside the image. *)
Lemma chunkAt_bounds bytes p index :
  wf_plan bytes p -> 0 <= index < packetCount p ->
  exists c, chunkAt p index = Some c /\ 0 < c_bytes c <= packetBytes /\
    imageOffset p + headerBytes p <= c_offset c /\
    c_offset c + c_bytes c <= imageOffset p + imageBytes p.
Proof.
  intros Hwf Hi. pose proof Hwf as [Hv Hc Hs [Ho Hf] [Hr1 Hr2] Hb Hh Ht Hp].
  rewrite (chunkAt_used bytes) by auto.
  apply chunkIn_bounds; lia || assumption.
Qed.

(** ** A concrete container

    One CE image for cut 1 with one section of 2021 bytes, that is two chunks. *)

Definition putLe32 (v : Z) : buf :=
  [v mod 256; (v / 256) mod 256; (v / 65536) mod 256; (v / 16777216) mod 256].

Definition sampleImage : buf :=
  [0xff; 1] ++ replicate 14 0 ++
  [1; 5; 0; 0] ++ putLe32 32 ++ putLe32 2069 ++ putLe32 0 ++
  putLe32 0x88520000 ++ putLe32 7 ++ putLe32 9 ++ putLe32 0 ++
  putLe32 0 ++ putLe32 0 ++ [0; 1; 0; 0] ++ putLe32 0 ++
  putLe32 0x100000 ++ putLe32 0x020007e5 ++ putLe32 0 ++ putLe32 0 ++
  map (fun i => Z.of_nat i mod 251) (seq 0 2021).

Definition samplePlan : Plan :=
  match parse (Some sampleImage) (zlen sampleImage) 1 with MVal p => p | _ => emptyPlan end.

Example samplePlan_packets : packetCount samplePlan = 2 /\ sectionCount samplePlan = 1.
Proof. vm_compute. auto. Qed.

Lemma parse_memory_safe_witness : safe (parse (Some sampleImage) (zlen sampleImage) 1).
Proof. apply parse_memory_safe. vm_compute. split; discriminate. Defined.

Lemma parse_sound_witness : planFor sampleImage (zlen sampleImage) 1 samplePlan.
Proof.
  apply parse_sound; [vm_compute; split; discriminate|vm_compute; reflexivity].
Defined.

Lemma samplePlan_wf : wf_plan (zlen sampleImage) samplePlan.
Proof.
  pose proof (parse_spec sampleImage (zlen sampleImage) 1) as H.
  destruct (mspec_val _ _ samplePlan (H ltac:(vm_compute; split; discriminate))
              ltac:(vm_compute; reflexivity)) as [Hwf _]. exact Hwf.
Qed.

Lemma chunks_reassemble_witness :
  concat (map (fun k => chunkBytes sampleImage (chunkAt samplePlan k))
            (seqZ 0 (packetCount samplePlan))) =
    slice sampleImage (imageOffset samplePlan + headerBytes samplePlan)
      (imageBytes samplePlan - headerBytes samplePlan) /\
  forall k, packetCount samplePlan <= k -> chunkAt samplePlan k = None.
Proof. exact (chunks_reassemble sampleImage _ samplePlan samplePlan_wf). Defined.
