(* ===== verification/FirmwarePackets.v ===== *)
(** * Firmware download packets (src/FirmwarePackets.hpp)

    [Packets] parses a container and encodes the header command and the
    section packets: a 24-byte TXWD followed by the payload. *)

From S2P Require Import Prelude FirmwarePlan.

Definition txwdBytes : Z := 24.
Definition h2cBytes : Z := 8.
Definition maxPacketBytes : Z := txwdBytes + packetBytes.
Definition ringSize : Z := 256.
Definition maxPackets : Z := ringSize - 1.

Definition put32 {E} (b : buf) (p v : Z) : mres E buf := store b p (le32_bytes v).

Inductive PacketStatus :=
| pOk | layoutError | tooManyPackets | notInitialized | badIndex | smallBuffer | overlap.

Record PacketInfo := mkPacketInfo {
  i_bytes : Z; i_payloadBytes : Z; sourceOffset : Z; i_section : Z; i_header : bool
}.

(** The object: the source container and its address, its size, its layout. *)
Record Packets := mkPackets {
  pk_data : option buf; pk_addr : Z; pk_size : Z; layout : Plan; layoutStatus : Status
}.
#[export] Instance Packets_rebuild : Rebuild Packets := fun p =>
  mkPackets (pk_data p) (pk_addr p) (pk_size p) (layout p) (layoutStatus p).
Definition newPackets : Packets := mkPackets None 0 0 emptyPlan truncated.

(** [None] is an access outside the source, see [initialize_total]. *)
Definition initialize (source : option buf) (addr bytes cutArg : Z) (p : Packets)
  : option (PacketStatus * Packets) :=
  let p := p <| pk_data := None |> <| pk_size := 0 |> <| layout := emptyPlan |> in
  '(st, plan) ← parseOut source bytes cutArg;
  let p := p <| layoutStatus := st |> <| layout := plan |> in
  if negb (bool_decide (st = ok)) then Some (layoutError, p)
  else if (packetCount plan =? 0) || (maxPackets <=? packetCount plan)
  then Some (tooManyPackets, p <| layout := emptyPlan |>)
  else Some (pOk, p <| pk_data := source |> <| pk_addr := addr |> <| pk_size := bytes |>).

Definition count (p : Packets) : Z :=
  match pk_data p with Some _ => u32 (packetCount (layout p) + 1) | None => 0 end.

(** The loop copying [n] bytes of the source. *)
Definition copyBytes {E} (data : buf) (from n : Z) : mres E buf :=
  for_m (Z.to_nat n) 0 (fun i acc => b ← rd8 data (from + i); mret (acc ++ [b])) [].

(** The body of the header packet, from byte 24 on. *)
Definition headerBody (data : buf) (plan : Plan) (payload sequence : Z) (out : buf)
  : mres PacketStatus buf :=
  out ← put32 out txwdBytes (Z.lor 0x0d (u32 (Z.shiftl sequence 24)));
  out ← put32 out (txwdBytes + 4) (u32 payload);
  hdr ← copyBytes data (imageOffset plan) (baseHeaderBytes plan);
  out ← store out (txwdBytes + h2cBytes) hdr;
  w7 ← rd32 out (txwdBytes + h2cBytes + 28);
  put32 out (txwdBytes + h2cBytes + 28) (Z.lor (Z.land w7 0xffff0000) packetBytes).

(** [SW_SEQ] from payload bytes 22 and 23, zero for tails shorter than that. *)
Definition swSequence (out : buf) (payload : Z) : mres PacketStatus Z :=
  if 24 <=? payload then
    b22 ← rd8 out (txwdBytes + 22); b23 ← rd8 out (txwdBytes + 23);
    mret (Z.shiftr (Z.lor b22 (Z.shiftl b23 8)) 4)
  else mret 0.

(** Filling in the descriptor in front of a payload. *)
Definition describe (out : buf) (fwdl payload : Z) : mres PacketStatus buf :=
  out ← put32 out 0 (Z.lor (Z.shiftl 12 16) fwdl);
  out ← put32 out 8 (u32 payload);
  swseq ← swSequence out payload;
  put32 out 12 swseq.

(** Encode packet [ordinal] into the buffer at address [dst] (0 is null) of
    [capacity] bytes: the bytes written from its start, and the info. *)
Definition encode (p : Packets) (ordinal dst capacity sequence : Z) : mres PacketStatus (buf * PacketInfo) :=
  match pk_data p with
  | None => MErr notInitialized
  | Some data =>
      fail_if (count p <=? ordinal) badIndex;;
      let header := ordinal =? 0 in
      let plan := layout p in
      let chunk := if header then Some emptyChunk else chunkAt plan (ordinal - 1) in
      match chunk with
      | None => MErr badIndex
      | Some chunk =>
          let payload := if header then h2cBytes + baseHeaderBytes plan else c_bytes chunk in
          let length := txwdBytes + payload in
          fail_if ((dst =? 0) || (capacity <? length) || (maxPacketBytes <? length)) smallBuffer;;
          let src := pk_addr p in
          fail_if (if src <=? dst then dst - src <? pk_size p else src - dst <? length) overlap;;
          let out := zeros length in
          out ← (if header then headerBody data plan payload sequence out
                 else body ← copyBytes data (c_offset chunk) (c_bytes chunk);
                      store out txwdBytes body);
          out ← describe out (if header then 0 else Z.shiftl 1 20) payload;
          mret (out, mkPacketInfo length payload
                       (if header then imageOffset plan else c_offset chunk)
                       (if header then 0 else c_section chunk) header)
      end
  end.

(** ** Properties *)

Lemma copyBytes_in {E} data from n :
  0 <= from -> 0 <= n -> from + n <= zlen data ->
  copyBytes (E:=E) data from n = MVal (bytesOf data from n).
Proof.
  intros Hf Hn Hl. unfold copyBytes.
  set (body := fun i acc => _).
  assert (Hbody : forall i acc, 0 <= i < n -> body i acc = MVal (acc ++ [byte_at data (from + i)])).
  { intros i acc Hi. unfold body. rewrite rd8_in by lia. reflexivity. }
  clearbody body.
  assert (H : forall k, 0 <= k <= n ->
    for_m (E:=E) (Z.to_nat k) (n - k) body (bytesOf data from (n - k)) = MVal (bytesOf data from n)).
  { intros k Hk. rewrite <- (Z2Nat.id k) in Hk |- * by lia. revert Hk.
    generalize (Z.to_nat k). clear k. intros k. rewrite Nat2Z.id.
    induction k as [|k IH]; intros Hk.
    - simpl. do 2 f_equal. lia.
    - cbn [for_m]. rewrite Hbody by lia. cbn [mbind mres_bind].
      specialize (IH ltac:(lia)).
      replace (n - Z.of_nat (S k) + 1) with (n - Z.of_nat k) by lia.
      replace (n - Z.of_nat k) with (n - Z.of_nat (S k) + 1) in IH by lia.
      rewrite slice_last in IH by lia.
      replace (n - Z.of_nat (S k) + 1) with (n - Z.of_nat k) in IH by lia. exact IH. }
  specialize (H n ltac:(lia)). rewrite Z.sub_diag in H. exact H.
Qed.

(** The six words of a download TXWD. *)
Definition txwd (fwdl payload swseq : Z) : buf :=
  le32_bytes (Z.lor (Z.shiftl 12 16) fwdl) ++ zeros 4 ++ le32_bytes (u32 payload) ++
  le32_bytes swseq ++ zeros 8.

Lemma put32_in {E} b p v : 0 <= p -> p + 4 <= zlen b -> put32 (E:=E) b p v = MVal (blit b p (le32_bytes v)).
Proof. intros. unfold put32. apply store_in; auto. Qed.

(** Filling in the descriptor in front of a body. *)
Lemma fill_words (a0 a1 a2 a3 b0 b1 b2 b3 c0 c1 c2 c3 : Z) (body : buf) :
  blit (blit (blit (zeros 24 ++ body) 0 [a0; a1; a2; a3]) 8 [b0; b1; b2; b3]) 12 [c0; c1; c2; c3] =
  [a0; a1; a2; a3] ++ zeros 4 ++ [b0; b1; b2; b3] ++ [c0; c1; c2; c3] ++ zeros 8 ++ body.
Proof. reflexivity. Qed.

Lemma fill_txwd fwdl payload swseq (body : buf) :
  blit (blit (blit (zeros 24 ++ body) 0 (le32_bytes (Z.lor (Z.shiftl 12 16) fwdl))) 8
    (le32_bytes (u32 payload))) 12 (le32_bytes swseq) = txwd fwdl payload swseq ++ body.
Proof.
  unfold txwd, le32_bytes. rewrite fill_words, <- !app_assoc. reflexivity.
Qed.

(** What [initialize] establishes when it answers [pOk]. *)
Definition ready (p : Packets) (data : buf) : Prop :=
  pk_data p = Some data /\ 0 <= pk_size p <= zlen data /\
  wf_plan (pk_size p) (layout p) /\ 1 <= packetCount (layout p) < maxPackets.

Lemma wf_packetCount bytes p : wf_plan bytes p -> 0 <= packetCount p.
Proof. intros [_ _ _ _ _ _ _ Ht ->]. exact (tiled_sumChunks _ _ _ _ Ht). Qed.

(** What a caller sees of [initialize]: on success the object is ready for the
    source, on any failure it holds no source and counts no packet. *)
Definition initialized (source : option buf) (addr bytes : Z) (st : PacketStatus) (p' : Packets) : Prop :=
  match st with
  | pOk => exists b, source = Some b /\ ready p' b /\ pk_addr p' = addr /\ pk_size p' = bytes
  | layoutError => layoutStatus p' <> ok /\ count p' = 0
  | tooManyPackets => layoutStatus p' = ok /\ count p' = 0
  | _ => False
  end.

Lemma initialize_spec source addr bytes cutArg p :
  match source with Some b => 0 <= bytes <= zlen b | None => True end ->
  exists st p', initialize source addr bytes cutArg p = Some (st, p') /\
    initialized source addr bytes st p'.
Proof.
  intros Hb. unfold initialize, parseOut.
  assert (Hs : mspec (parse source bytes cutArg) (fun r => exists b, source = Some b /\ wf_plan bytes r)).
  { destruct source as [b|]; [|exact I]. eapply mspec_mono; [apply parse_spec; exact Hb|].
    intros r [Hwf _]. eauto. }
  pose proof (parse_not_ok source bytes cutArg) as Hn.
  destruct (parse source bytes cutArg) as [r|e|]; [| |contradiction].
  - destruct Hs as (b & -> & Hwf). pose proof (wf_packetCount _ _ Hwf). simpl.
    destruct (Z.eqb_spec (packetCount r) 0); simpl; [eexists _, _; split; [reflexivity|split; reflexivity]|].
    destruct (Z.leb_spec maxPackets (packetCount r)); simpl;
      (eexists _, _; split; [reflexivity|]); [split; reflexivity|].
    exists b. repeat split; simpl; first [apply Hwf|lia|reflexivity].
  - simpl. destruct e; [congruence|..]; simpl;
      (eexists _, _; split; [reflexivity|]; split; [discriminate|reflexivity]).
Qed.

(** The payload of each packet. *)
Definition headerPayload (data : buf) (plan : Plan) (sequence : Z) : buf :=
  let hdr := bytesOf data (imageOffset plan) (baseHeaderBytes plan) in
  let payload := h2cBytes + baseHeaderBytes plan in
  le32_bytes (Z.lor 0x0d (u32 (Z.shiftl sequence 24))) ++ le32_bytes (u32 payload) ++
  blit hdr 28 (le32_bytes (Z.lor (Z.land (le32_at hdr 28) 0xffff0000) packetBytes)).

Definition packetChunk (p : Packets) (ordinal : Z) : Chunk :=
  default emptyChunk (chunkAt (layout p) (ordinal - 1)).

Definition packetPayload (p : Packets) (data : buf) (sequence ordinal : Z) : buf :=
  if ordinal =? 0 then headerPayload data (layout p) sequence
  else let c := packetChunk p ordinal in bytesOf data (c_offset c) (c_bytes c).

Lemma ready_hdr p data : ready p data ->
  let plan := layout p in
  0 <= imageOffset plan /\ 32 <= baseHeaderBytes plan <= 192 /\
  imageOffset plan + baseHeaderBytes plan <= zlen data.
Proof.
  intros (_ & Hs & [Hv Hc _ [Ho Hf] _ Hb Hh _ _] & _). unfold maxSections in *.
  cbv zeta. lia.
Qed.

Lemma zlen_le32_bytes v : zlen (le32_bytes v) = 4. Proof. reflexivity. Qed.

Lemma headerPayload_len p data sequence : ready p data ->
  zlen (headerPayload data (layout p) sequence) = h2cBytes + baseHeaderBytes (layout p).
Proof.
  intros Hr. apply ready_hdr in Hr as (Ho & Hb & Hf).
  unfold headerPayload, h2cBytes. rewrite !zlen_app, !zlen_le32_bytes, zlen_blit.
  - rewrite zlen_bytesOf by lia. lia.
  - lia.
  - rewrite zlen_le32_bytes, zlen_bytesOf by lia. lia.
Qed.

Lemma packetChunk_bounds p data ordinal : ready p data -> 0 < ordinal < count p ->
  let c := packetChunk p ordinal in
  chunkAt (layout p) (ordinal - 1) = Some c /\ 0 < c_bytes c <= packetBytes /\
  0 <= c_offset c /\ c_offset c + c_bytes c <= zlen data.
Proof.
  intros (Hd & Hs & Hwf & Hc) Ho. cbv zeta. unfold count in Ho. rewrite Hd in Ho.
  unfold maxPackets, ringSize in Hc. rewrite u32_small in Ho by zlia.
  destruct (chunkAt_bounds _ _ (ordinal - 1) Hwf) as (c & Hk & Hb & Hl & Hh); [lia|].
  unfold packetChunk. rewrite Hk. simpl.
  destruct Hwf as [_ Hcnt _ [? ?] _ Hbase Hhd _ _]. repeat split; lia.
Qed.

Lemma packetPayload_len p data sequence ordinal : ready p data -> 0 <= ordinal < count p ->
  let n := zlen (packetPayload p data sequence ordinal) in
  n = (if ordinal =? 0 then h2cBytes + baseHeaderBytes (layout p) else c_bytes (packetChunk p ordinal)) /\
  0 < n <= packetBytes.
Proof.
  intros Hr Ho. cbv zeta. unfold packetPayload, packetBytes. destruct (Z.eqb_spec ordinal 0).
  - rewrite headerPayload_len by exact Hr. apply ready_hdr in Hr as (? & Hb & ?).
    unfold h2cBytes. lia.
  - destruct (packetChunk_bounds p data ordinal Hr) as (_ & Hb & Hl & Hh); [lia|].
    unfold packetBytes in Hb. rewrite zlen_bytesOf by lia. lia.
Qed.

(** The descriptor and the body of packet [ordinal]. *)
Definition packetImage (p : Packets) (data : buf) (sequence ordinal : Z) : buf :=
  let body := packetPayload p data sequence ordinal in
  txwd (if ordinal =? 0 then 0 else Z.shiftl 1 20) (zlen body)
    (if 24 <=? zlen body then Z.shiftr (le16_at body 22) 4 else 0) ++ body.

Definition packetInfo (p : Packets) (data : buf) (ordinal : Z) : PacketInfo :=
  let n := zlen (packetPayload p data 0 ordinal) in
  if ordinal =? 0 then mkPacketInfo (txwdBytes + n) n (imageOffset (layout p)) 0 true
  else let c := packetChunk p ordinal in
       mkPacketInfo (txwdBytes + n) n (c_offset c) (c_section c) false.

Lemma headerBody_in p data sequence : ready p data ->
  let plan := layout p in
  let payload := h2cBytes + baseHeaderBytes plan in
  headerBody data plan payload sequence (zeros (txwdBytes + payload)) =
    MVal (zeros 24 ++ headerPayload data plan sequence).
Proof.
  intros Hr. apply ready_hdr in Hr as (Ho & Hb & Hf). cbv zeta.
  set (plan := layout p) in *. unfold headerBody, txwdBytes, h2cBytes.
  set (hdr := bytesOf data (imageOffset plan) (baseHeaderBytes plan)).
  assert (Hh : zlen hdr = baseHeaderBytes plan) by (apply zlen_bytesOf; lia).
  replace (24 + (8 + baseHeaderBytes plan)) with (24 + (4 + (4 + baseHeaderBytes plan))) by lia.
  rewrite !zeros_app by lia. set (z := zeros (baseHeaderBytes plan)).
  assert (Hz : zlen z = baseHeaderBytes plan) by (apply zlen_zeros; lia).
  unfold put32. set (h0 := le32_bytes (Z.lor 0x0d _)). set (h1 := le32_bytes (u32 _)).
  rewrite (store_mid (zeros 24) (zeros 4)) by reflexivity. cbn [mbind mres_bind].
  rewrite (app_assoc (zeros 24)), (store_mid (zeros 24 ++ h0) (zeros 4)) by reflexivity.
  cbn [mbind mres_bind]. rewrite copyBytes_in by lia. cbn [mbind mres_bind]. fold hdr.
  rewrite (app_assoc (zeros 24 ++ h0)). set (pre := (zeros 24 ++ h0) ++ h1).
  assert (Hp : zlen pre = 32) by reflexivity.
  rewrite <- (app_nil_r z), (store_mid pre z) by (unfold z; rewrite ?zlen_zeros; lia || reflexivity).
  cbn [mbind mres_bind]. rewrite app_nil_r.
  rewrite rd32_in by (rewrite ?zlen_app; lia). cbn [mbind mres_bind].
  unfold le32_at at 1. rewrite !byte_at_app_r, Hp by lia.
  rewrite store_in by (rewrite ?zlen_app, ?zlen_le32_bytes; lia).
  rewrite blit_app_r, Hp by lia. unfold headerPayload, pre, h0, h1, h2cBytes.
  rewrite <- !app_assoc. reflexivity.
Qed.

Lemma zlen_zeros24 (body : buf) : zlen (zeros 24 ++ body) = 24 + zlen body.
Proof. rewrite zlen_app. reflexivity. Qed.

Lemma byte_at_words (v w : Z) (body : buf) i : 24 <= i ->
  byte_at (blit (blit (zeros 24 ++ body) 0 (le32_bytes v)) 8 (le32_bytes w)) i = byte_at body (i - 24).
Proof.
  intros Hi. change (blit _ 8 _) with (le32_bytes v ++ zeros 4 ++ le32_bytes w ++ zeros 12 ++ body).
  rewrite !app_assoc. rewrite byte_at_app_r; [reflexivity|]. exact Hi.
Qed.

Lemma describe_in fwdl (body : buf) :
  describe (zeros 24 ++ body) fwdl (zlen body) =
    MVal (txwd fwdl (zlen body) (if 24 <=? zlen body then Z.shiftr (le16_at body 22) 4 else 0) ++ body).
Proof.
  pose proof (zlen_nonneg body). unfold describe, swSequence, txwdBytes.
  set (w0 := le32_bytes (Z.lor (Z.shiftl 12 16) fwdl)). set (w2 := le32_bytes (u32 (zlen body))).
  assert (H1 : zlen (blit (zeros 24 ++ body) 0 w0) = 24 + zlen body)
    by (rewrite zlen_blit, zlen_zeros24; [lia|lia|rewrite zlen_zeros24; change (zlen w0) with 4; lia]).
  assert (H2 : zlen (blit (blit (zeros 24 ++ body) 0 w0) 8 w2) = 24 + zlen body)
    by (rewrite zlen_blit, H1; [lia|lia|rewrite H1; change (zlen w2) with 4; lia]).
  rewrite put32_in by (rewrite ?zlen_zeros24; lia). cbn [mbind mres_bind]. fold w0.
  rewrite put32_in by lia. cbn [mbind mres_bind]. fold w2.
  destruct (Z.leb_spec 24 (zlen body)).
  - rewrite !rd8_in by lia. cbn [mbind mres_bind mret mres_ret].
    rewrite put32_in by lia. unfold w0, w2. rewrite !byte_at_words by lia. simpl (_ + _ - _).
    rewrite <- fill_txwd. reflexivity.
  - cbn [mbind mres_bind mret mres_ret]. rewrite put32_in by lia. unfold w0, w2.
    rewrite <- fill_txwd. reflexivity.
Qed.

(** [encode] on a ready object: it succeeds for every packet index in range and
    a non-null, large enough destination apart from the source. *)
Lemma encode_in p data ordinal dst capacity sequence :
  ready p data -> 0 <= ordinal < count p -> dst <> 0 -> maxPacketBytes <= capacity ->
  (pk_addr p + pk_size p <= dst \/ dst + maxPacketBytes <= pk_addr p) ->
  encode p ordinal dst capacity sequence =
    MVal (packetImage p data sequence ordinal, packetInfo p data ordinal).
Proof.
  intros Hr Ho Hd Hc Hov. pose proof (packetPayload_len p data sequence ordinal Hr Ho) as [Hn Hb].
  pose proof (packetPayload_len p data 0 ordinal Hr Ho) as [Hn0 _].
  unfold packetImage, packetInfo. rewrite Hn0. rewrite Hn in Hb.
  unfold encode, maxPacketBytes, packetBytes, txwdBytes in *. pose proof Hr as (Hdat & Hs & Hwf & Hk).
  rewrite Hdat. replace (count p <=? ordinal) with false by lia. cbn [mbind mres_bind fail_if].
  set (len := if ordinal =? 0 then _ else _) in *.
  assert (Hchunk : (if ordinal =? 0 then Some emptyChunk else chunkAt (layout p) (ordinal - 1)) =
    Some (if ordinal =? 0 then emptyChunk else packetChunk p ordinal)).
  { destruct (Z.eqb_spec ordinal 0); [reflexivity|].
    apply (packetChunk_bounds p data); [exact Hr|lia]. }
  rewrite Hchunk. cbv zeta.
  replace (if ordinal =? 0 then h2cBytes + baseHeaderBytes (layout p)
           else c_bytes (if ordinal =? 0 then emptyChunk else packetChunk p ordinal)) with len
    by (unfold len; destruct (ordinal =? 0); reflexivity).
  replace ((dst =? 0) || (capacity <? 24 + len) || (24 + 2020 <? 24 + len)) with false by lia.
  cbn [mbind mres_bind fail_if].
  replace (if pk_addr p <=? dst then dst - pk_addr p <? pk_size p else pk_addr p - dst <? 24 + len)
    with false by (destruct (Z.leb_spec (pk_addr p) dst); lia).
  cbn [mbind mres_bind fail_if].
  assert (Hbody : (if ordinal =? 0 then headerBody data (layout p) len sequence (zeros (24 + len))
     else body ← copyBytes data (c_offset (if ordinal =? 0 then emptyChunk else packetChunk p ordinal))
                   (c_bytes (if ordinal =? 0 then emptyChunk else packetChunk p ordinal));
          store (zeros (24 + len)) 24 body) = MVal (zeros 24 ++ packetPayload p data sequence ordinal)).
  { unfold packetPayload, len in *. destruct (Z.eqb_spec ordinal 0).
    - exact (headerBody_in p data sequence Hr).
    - destruct (packetChunk_bounds p data ordinal Hr) as (_ & _ & Hl & Hh); [lia|].
      rewrite copyBytes_in by lia. cbn [mbind mres_bind].
      rewrite zeros_app by lia.
      rewrite <- (app_nil_r (zeros (c_bytes _))), (store_mid (zeros 24));
        [rewrite app_nil_r; reflexivity|reflexivity|].
      rewrite zlen_bytesOf, zlen_zeros by lia. reflexivity. }
  rewrite Hbody. cbn [mbind mres_bind].
  rewrite <- Hn, describe_in. cbn [mbind mres_bind mret mres_ret].
  destruct (ordinal =? 0); reflexivity.
Qed.

(** The destination is a usable packet buffer: non-null, of the maximal packet
    size, apart from the source. *)
Definition usableBuffer (p : Packets) (dst capacity : Z) : Prop :=
  dst <> 0 /\ maxPacketBytes <= capacity /\
  (pk_addr p + pk_size p <= dst \/ dst + maxPacketBytes <= pk_addr p).

(** The bytes [encode] writes behind the descriptor. *)
Definition encodedPayload (r : mres PacketStatus (buf * PacketInfo)) : buf :=
  match r with MVal (out, _) => drop (Z.to_nat txwdBytes) out | _ => [] end.

Lemma drop_txwd fwdl payload swseq (body : buf) :
  drop (Z.to_nat txwdBytes) (txwd fwdl payload swseq ++ body) = body.
Proof. reflexivity. Qed.

Lemma ready_count p data : ready p data -> count p = packetCount (layout p) + 1.
Proof.
  intros (Hd & _ & _ & Hc). unfold count. rewrite Hd. unfold maxPackets, ringSize in Hc.
  apply u32_small. zlia.
Qed.

(** [initialize] never reads outside the container it is given and never
    leaves a half-initialised object: it answers [pOk] only for a container
    whose plan fits the descriptor ring, and after any other answer the object
    counts no packets, so that [encode] refuses every index. *)
Theorem initialize_total source addr bytes cutArg p :
  match source with Some b => 0 <= bytes <= zlen b | None => True end ->
  exists st p', initialize source addr bytes cutArg p = Some (st, p') /\
    initialized source addr bytes st p' /\
    (st <> pOk -> forall k dst cap seq, encode p' k dst cap seq = MErr notInitialized).
Proof.
  intros Hb. destruct (initialize_spec source addr bytes cutArg p Hb) as (st & p' & Hi & Hs).
  exists st, p'. split; [exact Hi|]. split; [exact Hs|].
  intros Hst k dst cap seq. unfold encode.
  enough (pk_data p' = None) as -> by reflexivity.
  revert Hi. clear Hs. unfold initialize. destruct (parseOut source bytes cutArg) as [[st0 plan]|];
    [|discriminate].
  simpl. destruct (bool_decide (st0 = ok)); simpl; [|intros [= <- <-]; reflexivity].
  destruct (_ || _); intros [= <- <-]; [reflexivity|congruence].
Qed.

(** C4: on a ready object every packet of the transfer encodes into a usable
    buffer: at most 2044 bytes made of the download descriptor and the payload,
    with all reads and writes in bounds; the payloads of packets 1, 2, ... in
    order are the image behind its header, byte for byte; and no other index is
    encoded. *)
Theorem encode_stream p data sequence :
  ready p data ->
  (forall ordinal dst capacity, usableBuffer p dst capacity -> 0 <= ordinal < count p ->
     encode p ordinal dst capacity sequence =
       MVal (packetImage p data sequence ordinal, packetInfo p data ordinal) /\
     zlen (packetImage p data sequence ordinal) = i_bytes (packetInfo p data ordinal) /\
     i_bytes (packetInfo p data ordinal) <= maxPacketBytes) /\
  (forall dst capacity, usableBuffer p dst capacity ->
     concat (map (fun k => encodedPayload (encode p k dst capacity sequence))
               (seqZ 1 (count p - 1))) =
     bytesOf data (imageOffset (layout p) + headerBytes (layout p))
       (imageBytes (layout p) - headerBytes (layout p))) /\
  (forall ordinal dst capacity, count p <= ordinal ->
     encode p ordinal dst capacity sequence = MErr badIndex).
Proof.
  intros Hr. split; [|split].
  - intros k dst cap (Hd & Hc & Ho) Hk. split; [apply encode_in; auto|].
    destruct (packetPayload_len p data sequence k Hr Hk) as [Hn Hb].
    destruct (packetPayload_len p data 0 k Hr Hk) as [Hn0 _].
    unfold packetImage, packetInfo. rewrite zlen_app, Hn, Hn0. rewrite Hn in Hb.
    change (zlen (txwd _ _ _)) with 24. unfold maxPacketBytes, txwdBytes in *.
    destruct (k =? 0); simpl; lia.
  - intros dst cap (Hd & Hc & Ho). pose proof (ready_count p data Hr) as Hcnt.
    pose proof Hr as (_ & _ & Hwf & Hk).
    unfold bytesOf. rewrite <- (plan_chunks data _ _ Hwf), concat_map, map_map.
    rewrite map_seqZ_shift. replace (count p - 1) with (packetCount (layout p)) by lia.
    f_equal. apply map_ext_in. intros k Hin. apply list_elem_of_In, elem_of_seqZ in Hin.
    rewrite (encode_in p data) by (auto; lia). unfold encodedPayload, packetImage.
    rewrite drop_txwd. unfold packetPayload. replace (1 + k =? 0) with false by lia.
    destruct (packetChunk_bounds p data (1 + k) Hr) as (Hch & _); [lia|].
    replace (1 + k - 1) with k in Hch by lia. rewrite Hch. reflexivity.
  - intros k dst cap Hk. unfold encode. destruct Hr as (-> & _).
    replace (count p <=? k) with true by lia. reflexivity.
Qed.

(** ** A concrete transfer *)

Definition samplePackets : Packets :=
  match initialize (Some sampleImage) 0x100000 (zlen sampleImage) 1 newPackets with
  | Some (_, p) => p | None => newPackets end.

Example samplePackets_count : count samplePackets = 3. Proof. vm_compute. reflexivity. Qed.

Lemma samplePackets_ready : ready samplePackets sampleImage.
Proof.
  pose proof samplePlan_wf as H.
  replace samplePackets with (mkPackets (Some sampleImage) 0x100000 (zlen sampleImage) samplePlan ok)
    by (vm_compute; reflexivity).
  split; [reflexivity|]. split; [split; vm_compute; discriminate|].
  split; [exact H|]. split; vm_compute; congruence.
Qed.

Lemma initialize_total_witness :
  exists st p', initialize (Some (zeros 20)) 0x100000 20 1 newPackets = Some (st, p') /\
    initialized (Some (zeros 20)) 0x100000 20 st p' /\
    (st <> pOk -> forall k dst cap seq, encode p' k dst cap seq = MErr notInitialized).
Proof. apply initialize_total. split; vm_compute; discriminate. Defined.

Lemma encode_stream_witness :
  concat (map (fun k => encodedPayload (encode samplePackets k 0x200000 4096 0))
            (seqZ 1 (count samplePackets - 1))) =
  bytesOf sampleImage (imageOffset (layout samplePackets) + headerBytes (layout samplePackets))
    (imageBytes (layout samplePackets) - headerBytes (layout samplePackets)).
Proof.
  apply (encode_stream samplePackets sampleImage 0 samplePackets_ready).
  split; [discriminate|]. split; [vm_compute; discriminate|]. left. vm_compute. discriminate.
Defined.
