(* ===== verification/FirmwareTransfer.v ===== *)
(** * Firmware transfer orchestration (src/FirmwareTransfer.hpp)

    [transfer] over an abstract back end, whose contract is stated as a
    protocol and proved to be respected whatever the back end answers. *)

From S2P Require Import Prelude Prog FirmwarePlan FirmwarePackets.

Inductive Phase :=
| idle | waitH2c | header | waitDownload | clearHalt | sectionsPhase | waitReady | drain | quiesce | done.

Inductive TransferStatus :=
| notRun | complete | invalidPlan | prepareFailed | startFailed
| clockInvalid | timeout | cancelled | registerInvalid | checksumFailed | securityFailed
| cutMismatch | submitFailed | clearFailed | indexInvalid | staleReady | quiesceFailed | releaseFailed.
#[export] Instance TransferStatus_eq_dec : EqDecision TransferStatus.
Proof. solve_decision. Defined.

Record TransferResult := mkResult {
  status : TransferStatus; operationStatus : TransferStatus;
  phase : Phase; failedPhase : Phase;
  submitted : Z; attempted : Z; polls : Z;
  lastControl : Z; lastIndex : Z; elapsedUs : Z;
  cleanupAttempted : bool; quiesced : bool; buffersReleased : bool; retainBuffers : bool
}.
#[export] Instance TransferResult_rebuild : Rebuild TransferResult := fun r =>
  mkResult (status r) (operationStatus r) (phase r) (failedPhase r) (submitted r) (attempted r)
    (polls r) (lastControl r) (lastIndex r) (elapsedUs r) (cleanupAttempted r) (quiesced r)
    (buffersReleased r) (retainBuffers r).
Definition newResult : TransferResult :=
  mkResult notRun notRun idle idle 0 0 0 0 0 0 false false false false.

(** ** The back end *)

Inductive backendOp :=
| BNowUs | BCancelled | BReadControl | BReadIndex | BDelayUs (us : Z)
| BPrepare (p : Packets) | BStartDownload | BPublish (producer : Z) | BClearHaltControls
| BQuiesceAndProveIdle | BReleaseAll.

Definition backendAns (o : backendOp) : Type :=
  match o with
  | BNowUs | BReadControl | BReadIndex => Z
  | BDelayUs _ => unit
  | _ => bool
  end.
Definition Backend : sig := Sig backendOp backendAns.

(** ** The transfer *)

(** The locals of [transfer] besides the result. *)
Record TState := mkT {
  res : TransferResult; start : Z; previous : Z; prepared : bool; startAttempted : bool
}.
#[export] Instance TState_rebuild : Rebuild TState := fun s =>
  mkT (res s) (start s) (previous s) (prepared s) (startAttempted s).
Definition newT : TState := mkT newResult 0 0 false false.

Definition T (A : Type) : Type := M Backend TState A.

Definition onRes (f : TransferResult -> TransferResult) : T unit :=
  modify (fun s => s <| res := f (res s) |>).
(** [r.status = st]. *)
Definition fail (st : TransferStatus) : T unit := onRes (fun r => r <| status := st |>).
Definition setPhase (p : Phase) : T unit := onRes (fun r => r <| phase := p |>).
Definition nowUs : T Z := t ← call (Σ:=Backend) BNowUs; mret (u64 t).
(** [if (!c) { r.status = st; break; }] *)
Definition orFail (c : T bool) (st : TransferStatus) : T unit :=
  b ← c; if (b : bool) then mret tt else fail st;; brk.

Definition controlError (c : Z) : TransferStatus :=
  if c =? 0xff then registerInvalid else
  match Z.land (Z.shiftr c 5) 7 with
  | 2 => checksumFailed
  | 3 => securityFailed
  | 4 => cutMismatch
  | _ => notRun
  end.

Definition check : T bool :=
  now ← nowUs;
  prev ← gets previous;
  if now <? prev then fail clockInvalid;; mret false else
  modify (fun s => s <| previous := now |> <| res := (res s) <| elapsedUs := u64 (now - start s) |> |>);;
  c ← call (Σ:=Backend) BCancelled;
  if (c : bool) then fail cancelled;; mret false else
  elapsed ← gets (fun s => elapsedUs (res s));
  if 5000000 <=? elapsed then fail timeout;; mret false else
  mret true.

(** [previous < begin || previous - begin >= 400000] *)
Definition late (begin : Z) : T bool :=
  prev ← gets previous;
  mret ((prev <? begin) || (400000 <=? u64 (prev - begin))).

Definition readControl : T Z :=
  c ← call (Σ:=Backend) BReadControl;
  onRes (fun r => r <| lastControl := u8 c |> <| polls := u32 (polls r + 1) |>);;
  mret (u8 c).

(** One turn of the polling loop of [wait]. *)
Definition waitTurn (path : bool) (bit begin i : Z) : T (option bool) :=
  c ← check; if negb c then mret (Some false) else
  l ← late begin; if (l : bool) then fail timeout;; mret (Some false) else
  control ← readControl;
  c ← check; if negb c then mret (Some false) else
  l ← late begin; if (l : bool) then fail timeout;; mret (Some false) else
  if negb (bool_decide (controlError control = notRun))
  then fail (controlError control);; mret (Some false) else
  let state := Z.land (Z.shiftr control 5) 7 in
  if path && (state =? 7) then fail staleReady;; mret (Some false) else
  if (if path then flag control bit else state =? 7) then mret (Some true) else
  when (i <? 8000) (call (Σ:=Backend) (BDelayUs 50));;
  mret None.

Definition wait (path : bool) (bit : Z) : T bool :=
  begin ← nowUs;
  r ← for_loop 0 8001 (waitTurn path bit begin);
  match r with
  | Some b => mret b
  | None => fail timeout;; mret false
  end.

(** [if (!b.publish(n)) {...} ++r.submitted;], with [++r.attempted] before. *)
Definition publishNext (n : Z) : T unit :=
  onRes (fun r => r <| attempted := u32 (attempted r + 1) |>);;
  orFail (call (Σ:=Backend) (BPublish n)) submitFailed;;
  onRes (fun r => r <| submitted := u32 (submitted r + 1) |>).

Definition isNotRun : T bool := gets (fun s => bool_decide (status (res s) = notRun)).

(** The section loop: a [break] inside it leaves the loop only. *)
Definition sendSections (n : Z) : T unit :=
  setPhase sectionsPhase;;
  block (for_each 1 n (fun i => must check;; publishNext (i + 1)));;
  must isNotRun.

(** The settling delay and the readiness poll. *)
Definition waitForReady : T unit :=
  setPhase waitReady;;
  block (for_each 0 100 (fun _ => must check;; call (Σ:=Backend) (BDelayUs 50)));;
  must isNotRun;; must (wait false 0).

Definition indexBad (n index : Z) : bool :=
  (index =? 0xffffffff) || (index =? 0xdeadbeef) ||
  negb (Z.land index 0xfff =? n) || (n <? Z.land (Z.shiftr index 16) 0xfff).

(** One turn of the drain loop: [Some drained] leaves it. *)
Definition drainTurn (n begin i : Z) : T (option bool) :=
  c ← check; if negb c then mret (Some false) else
  l ← late begin; if (l : bool) then fail timeout;; mret (Some false) else
  index ← call (Σ:=Backend) BReadIndex;
  let index := u32 index in
  onRes (fun r => r <| lastIndex := index |> <| polls := u32 (polls r + 1) |>);;
  c ← check; if negb c then mret (Some false) else
  l ← late begin; if (l : bool) then fail timeout;; mret (Some false) else
  if indexBad n index then fail indexInvalid;; mret (Some false) else
  if Z.land (Z.shiftr index 16) 0xfff =? n then mret (Some true) else
  when (i <? 8000) (call (Σ:=Backend) (BDelayUs 50));;
  mret None.

Definition drainQueue (n : Z) : T unit :=
  setPhase drain;;
  begin ← nowUs;
  drained ← for_loop 0 8001 (drainTurn n begin);
  if default false drained then mret tt
  else st ← isNotRun; when st (fail timeout);; brk.

(** The [do { ... } while (false)] block. *)
Definition attempt (packets : Packets) : T unit :=
  let n := count packets in
  must check;;
  modify (fun s => s <| prepared := true |>);;
  orFail (call (Σ:=Backend) (BPrepare packets)) prepareFailed;;
  must check;;
  modify (fun s => s <| startAttempted := true |>);;
  orFail (call (Σ:=Backend) BStartDownload) startFailed;;
  setPhase waitH2c;; must (wait true 2);;
  setPhase header;; publishNext 1;;
  setPhase waitDownload;; must (wait true 4);;
  setPhase clearHalt;; must check;;
  orFail (call (Σ:=Backend) BClearHaltControls) clearFailed;;
  sendSections n;;
  waitForReady;;
  drainQueue n;;
  fail complete.

(** What follows the block when [prepared] is set. *)
Definition cleanup : T unit :=
  onRes (fun r => r <| cleanupAttempted := true |> <| phase := quiesce |>);;
  started ← gets startAttempted;
  q ← (mret (negb started) ||| call (Σ:=Backend) BQuiesceAndProveIdle);
  onRes (fun r => r <| quiesced := q |>);;
  if (q : bool) then
    rel ← call (Σ:=Backend) BReleaseAll;
    onRes (fun r => r <| buffersReleased := rel |>);;
    unless rel (onRes (fun r => r <| retainBuffers := true |> <| status := releaseFailed |>))
  else onRes (fun r => r <| retainBuffers := true |> <| status := quiesceFailed |>).

Definition transferBody (packets : Packets) : T unit :=
  if (count packets =? 0) || (maxPackets <? count packets) then fail invalidPlan else
  t ← nowUs;
  modify (fun s => s <| start := t |> <| previous := t |>);;
  block (attempt packets);;
  onRes (fun r => r <| failedPhase := if bool_decide (status r = complete) then idle else phase r |>
                    <| operationStatus := status r |>);;
  p ← gets prepared;
  when p cleanup;;
  setPhase done.

Definition transfer (packets : Packets) : prog Backend TransferResult :=
  bindP (transferBody packets newT) (fun r => Ret (res r.2)).

(** ** The contract with the back end *)

(** What the transfer has done so far: the answers of [prepare], [startDownload],
    [clearHaltControls], [quiesceAndProveIdle] and [releaseAll] if called, the
    number of accepted packets, whether a submission was refused, and the last
    control byte and index register read. *)
Record Ledger := mkLedger {
  l_prep : option bool; l_start : option bool; l_pub : Z; l_refused : bool;
  l_clear : option bool; l_control : Z; l_index : Z;
  l_quiet : option bool; l_rel : option bool
}.
#[export] Instance Ledger_rebuild : Rebuild Ledger := fun g =>
  mkLedger (l_prep g) (l_start g) (l_pub g) (l_refused g) (l_clear g) (l_control g) (l_index g)
    (l_quiet g) (l_rel g).
Definition newLedger : Ledger := mkLedger None None 0 false None 0 0 None None.

(** The boot ROM accepts data on a path: no error state, not yet running, and
    the path's ready bit set. *)
Definition pathReady (control bit : Z) : Prop :=
  controlError control = notRun /\ Z.land (Z.shiftr control 5) 7 <> 7 /\ flag control bit = true.

(** The calls allowed, for [n] packets. *)
Definition backendMay (n : Z) (g : Ledger) (o : backendOp) : Prop :=
  l_rel g = None /\
  match o with
  | BNowUs | BCancelled | BDelayUs _ => l_quiet g = None
  | BReadControl => l_start g = Some true /\ l_quiet g = None
  | BReadIndex => l_pub g = n /\ Z.land (Z.shiftr (l_control g) 5) 7 = 7 /\ l_quiet g = None
  | BPrepare p => count p = n /\ l_prep g = None
  | BStartDownload => l_prep g = Some true /\ l_start g = None
  | BPublish k =>
      l_start g = Some true /\ l_quiet g = None /\ l_refused g = false /\
      k = l_pub g + 1 /\ k <= n /\
      (k = 1 -> pathReady (l_control g) 2) /\ (k <> 1 -> l_clear g = Some true)
  | BClearHaltControls =>
      l_pub g = 1 /\ l_clear g = None /\ pathReady (l_control g) 4 /\ l_quiet g = None
  | BQuiesceAndProveIdle => l_start g <> None /\ l_quiet g = None
  | BReleaseAll =>
      l_prep g <> None /\ (l_start g = None \/ l_quiet g = Some true)
  end.

Definition backendNext (g : Ledger) (o : backendOp) : backendAns o -> Ledger :=
  match o with
  | BNowUs | BCancelled | BDelayUs _ => fun _ => g
  | BReadControl => fun c => g <| l_control := u8 c |>
  | BReadIndex => fun v => g <| l_index := u32 v |>
  | BPrepare _ => fun b => g <| l_prep := Some b |>
  | BStartDownload => fun b => g <| l_start := Some b |>
  | BPublish k => fun b => if b then g <| l_pub := k |> else g <| l_refused := true |>
  | BClearHaltControls => fun b => g <| l_clear := Some b |>
  | BQuiesceAndProveIdle => fun b => g <| l_quiet := Some b |>
  | BReleaseAll => fun b => g <| l_rel := Some b |>
  end.

Definition contract (n : Z) : protocol Backend Ledger :=
  Protocol (Σ:=Backend) (backendMay n) (fun _ _ _ => True) backendNext.

(** What the result says of what was done. *)
Definition faithfulResult (n : Z) (r : TransferResult) (g : Ledger) : Prop :=
  status r <> notRun /\
  (status r = invalidPlan -> g = newLedger) /\
  (cleanupAttempted r = true <-> l_prep g <> None) /\
  (l_start g = None <-> l_quiet g = None) /\
  (quiesced r = true <-> l_prep g <> None /\ (l_start g = None \/ l_quiet g = Some true)) /\
  (buffersReleased r = true <-> l_rel g = Some true) /\
  (retainBuffers r = true <-> l_prep g <> None /\ buffersReleased r = false) /\
  submitted r = l_pub g /\
  (operationStatus r = complete ->
     l_pub g = n /\ l_refused g = false /\ indexBad n (l_index g) = false /\
     Z.land (Z.shiftr (l_index g) 16) 0xfff = n) /\
  (status r = complete -> operationStatus r = complete /\ l_quiet g = Some true /\ buffersReleased r = true).

(** ** Proof of the contract *)

(** The part of the state [check] and the waits leave alone. *)
Definition core (s : TState) :=
  (prepared s, startAttempted s, submitted (res s), cleanupAttempted (res s), quiesced (res s),
   buffersReleased (res s), retainBuffers (res s)).

(** State and ledger agree, before the cleanup. *)
Definition agree (s : TState) (g : Ledger) : Prop :=
  (l_prep g = None <-> prepared s = false) /\ (l_start g = None <-> startAttempted s = false) /\
  submitted (res s) = l_pub g /\
  cleanupAttempted (res s) = false /\ quiesced (res s) = false /\
  buffersReleased (res s) = false /\ retainBuffers (res s) = false /\
  l_quiet g = None /\ l_rel g = None /\ (l_prep g = None -> l_start g = None).

Lemma agree_core s s' g : core s' = core s -> agree s g -> agree s' g.
Proof. unfold core, agree. intros [= -> -> -> -> -> -> ->]. auto. Qed.

Definition going (s : TState) (g : Ledger) : Prop := status (res s) = notRun /\ agree s g.
Definition failed (s : TState) (g : Ledger) : Prop :=
  status (res s) <> notRun /\ status (res s) <> complete /\ status (res s) <> invalidPlan /\ agree s g.

(** A step that ends in [Some true] keeps going, and fails otherwise. *)
Definition okOrFailed (s : TState) (b : bool) (s' : TState) : Prop :=
  core s' = core s /\ if b then status (res s') = notRun
                      else status (res s') <> notRun /\ status (res s') <> complete /\ status (res s') <> invalidPlan.

Section contract.
Variable packets : Packets.
Let n := count packets.
Let P := contract n.

Lemma wpm_fail st s g Q : Q (Some tt) (s <| res := (res s) <| status := st |> |>) g -> wpm P (fail st) s g Q.
Proof. auto. Qed.

(** A failure answered as [false]. *)
Lemma fail_false (st : TransferStatus) (s s0 : TState) :
  core s = core s0 -> st <> notRun -> st <> complete -> st <> invalidPlan ->
  okOrFailed s0 false (s <| res := (res s) <| status := st |> |>).
Proof. intros Hc H1 H2 H3. split; [exact Hc|]. simpl. auto. Qed.

Lemma transfer_nowUs_wp s g (Q : option Z -> TState -> Ledger -> Prop) :
  l_rel g = None -> l_quiet g = None -> (forall t, Q (Some t) s g) -> wpm P nowUs s g Q.
Proof.
  intros H1 H2 HQ. unfold nowUs. wstep. wcall; [split; assumption|].
  intros t _. wstep. apply HQ.
Qed.

Lemma check_wp s g (Q : option bool -> TState -> Ledger -> Prop) :
  status (res s) = notRun -> l_rel g = None -> l_quiet g = None ->
  (forall b s', okOrFailed s b s' -> Q (Some b) s' g) -> wpm P check s g Q.
Proof.
  intros Hs Hr Hq HQ. unfold check. wstep. apply transfer_nowUs_wp; [assumption..|]. intros now.
  wstep. wstep. wstep; [apply HQ, fail_false; [reflexivity|discriminate..]|].
  wstep. wstep. wstep. wcall; [split; assumption|]. intros c _. cbn [next contract P backendNext].
  wstep; [apply HQ, fail_false; [reflexivity|discriminate..]|].
  wstep. wstep. wstep; [apply HQ, fail_false; [reflexivity|discriminate..]|].
  wstep. apply HQ. split; [reflexivity|exact Hs].
Qed.

Ltac tstep :=
  lazymatch goal with
  | |- wpm _ (onRes _) _ _ _ => apply wpm_modify
  | |- wpm _ (setPhase _) _ _ _ => apply wpm_modify
  | |- wpm _ (fail _) _ _ _ => apply wpm_fail
  | _ => wstep
  end.

Lemma late_wp b s g (Q : option bool -> TState -> Ledger -> Prop) :
  (forall l, Q (Some l) s g) -> wpm P (late b) s g Q.
Proof. intros HQ. unfold late. wstep. wstep. wstep. apply HQ. Qed.

(** [check], then the deadline test: both leave the loop with [false]. *)
Lemma guard_wp begin {A} (k : T (option A)) (ff : A) s0 s g Q :
  core s = core s0 -> status (res s) = notRun -> l_rel g = None -> l_quiet g = None ->
  (forall s', okOrFailed s0 false s' -> Q (Some (Some ff)) s' g) ->
  (forall s', okOrFailed s0 true s' -> wpm P k s' g Q) ->
  wpm P (c ← check; if negb c then mret (Some ff) else
         l ← late begin; if (l : bool) then fail timeout;; mret (Some ff) else k) s g Q.
Proof.
  intros Hc Hs Hr Hq HF HK. wstep. apply check_wp; [assumption..|].
  intros b s1 [H1 H2]. destruct b; simpl.
  - wstep. apply late_wp. intros l. destruct l.
    + wstep. apply wpm_fail. wstep. apply HF, fail_false; [congruence|discriminate..].
    + apply HK. split; [congruence|exact H2].
  - wstep. apply HF. split; [congruence|exact H2].
Qed.

(** What a successful wait has seen. *)
Definition waited (path : bool) (bit c : Z) : Prop :=
  if path then pathReady c bit else Z.land (Z.shiftr c 5) 7 = 7.

Lemma negb_decide_false (Q : Prop) `{!Decision Q} : negb (bool_decide Q) = false -> Q.
Proof. rewrite negb_false_iff. apply bool_decide_eq_true_1. Qed.

Lemma controlError_proper c st : controlError c = st -> st <> complete /\ st <> invalidPlan.
Proof.
  intros <-. unfold controlError. destruct (c =? 0xff); [split; discriminate|].
  destruct (Z.land _ 7) as [|[[p|p|]|[[p|p|]|[p|p|]|]|]|]; split; discriminate.
Qed.

Definition withControl (g : Ledger) (c : Z) : Ledger := g <| l_control := c |>.

Lemma waitTurn_wp path bit begin i s0 g0 s c (Q : option (option bool) -> TState -> Ledger -> Prop) :
  core s = core s0 -> status (res s) = notRun ->
  l_start g0 = Some true -> l_rel g0 = None -> l_quiet g0 = None ->
  (forall s' c', okOrFailed s0 false s' -> Q (Some (Some false)) s' (withControl g0 c')) ->
  (forall s' c', okOrFailed s0 true s' -> waited path bit c' -> Q (Some (Some true)) s' (withControl g0 c')) ->
  (forall s' c', okOrFailed s0 true s' -> Q (Some None) s' (withControl g0 c')) ->
  wpm P (waitTurn path bit begin i) s (withControl g0 c) Q.
Proof.
  intros Hc Hs Hst Hr Hq HF HT HN. unfold waitTurn.
  apply guard_wp with (s0 := s0); [assumption..|auto|]. intros s1 [Hc1 Hs1].
  wstep. unfold readControl. wstep. wcall; [repeat split; assumption|]. intros ctl _.
  wstep. change (next _ _ _ _) with (withControl g0 (u8 ctl)).
  tstep. wstep. apply guard_wp with (s0 := s0); [assumption..|auto|]. intros s2 [Hc2 Hs2].
  wstep.
  { wstep. apply wpm_fail. wstep. apply negb_true_iff, bool_decide_eq_false in Heqb.
    destruct (controlError_proper (u8 ctl) _ eq_refl). apply HF, fail_false; assumption. }
  cbv zeta. wstep; [wstep; apply wpm_fail; wstep; apply HF, fail_false; [assumption|discriminate..]|].
  apply negb_decide_false in Heqb. wstep.
  - wstep. apply HT; [split; assumption|]. unfold waited. destruct path; simpl in *.
    + split; [exact Heqb|]. split; [lia|assumption].
    + lia.
  - wstep. wstep.
    + wcall; [split; assumption|]. intros [] _. cbn [next contract P backendNext]. wstep. apply HN. split; assumption.
    + wstep. wstep. apply HN. split; assumption.
Qed.

Lemma wait_wp path bit s g (Q : option bool -> TState -> Ledger -> Prop) :
  status (res s) = notRun -> l_start g = Some true -> l_rel g = None -> l_quiet g = None ->
  (forall b s' c, okOrFailed s b s' -> (b = true -> waited path bit c) -> Q (Some b) s' (withControl g c)) ->
  wpm P (wait path bit) s g Q.
Proof.
  intros Hs Hst Hr Hq HQ. unfold wait. wstep. apply transfer_nowUs_wp; [assumption..|]. intros begin.
  wstep. apply (wpm_for_loop P (fun _ s' g' => core s' = core s /\ status (res s') = notRun /\
    exists c, g' = withControl g c)); [lia| | |].
  - split; [reflexivity|]. split; [exact Hs|]. exists (l_control g). destruct g; reflexivity.
  - intros j s1 g1 _ (Hc1 & Hs1 & c & ->). eapply waitTurn_wp; [eassumption..| | |].
    + intros s2 c2 H2. wstep. apply HQ; [exact H2|discriminate].
    + intros s2 c2 H2 Hw. wstep. apply HQ; [exact H2|auto].
    + intros s2 c2 [H2 H3]. eauto.
  - intros s1 g1 (Hc1 & Hs1 & c & ->). wstep. apply wpm_fail. wstep. apply HQ; [|discriminate].
    apply fail_false; [exact Hc1|discriminate..].
Qed.

(** How the block ends. *)
Definition drained (s : TState) (g : Ledger) : Prop :=
  l_start g = Some true /\ l_pub g = n /\ l_refused g = false /\ indexBad n (l_index g) = false /\
  Z.land (Z.shiftr (l_index g) 16) 0xfff = n.
Definition ended (s : TState) (g : Ledger) : Prop :=
  status (res s) <> notRun /\ status (res s) <> invalidPlan /\ agree s g /\
  (status (res s) = complete -> drained s g).

Lemma failed_ended s g : failed s g -> ended s g.
Proof.
  intros (H1 & H2 & H3 & H4). split; [exact H1|]. split; [exact H3|]. split; [exact H4|].
  intros H. contradiction.
Qed.

Lemma okOrFailed_going s s' g' : okOrFailed s true s' -> agree s g' -> going s' g'.
Proof. intros [H1 H2] H. split; [exact H2|]. exact (agree_core s s' g' H1 H). Qed.
Lemma okOrFailed_ended s s' g' : okOrFailed s false s' -> agree s g' -> ended s' g'.
Proof.
  intros [H1 (H2 & H3 & H4)] H. apply failed_ended.
  repeat split; auto; apply (agree_core s s' g' H1 H).
Qed.

(** Being in the middle of the download with [k] packets accepted. *)
Definition downloading (k : Z) (s : TState) (g : Ledger) : Prop :=
  going s g /\ l_start g = Some true /\ l_pub g = k /\ l_refused g = false.

Lemma going_live s g : going s g -> l_rel g = None /\ l_quiet g = None.
Proof. intros [_ H]. unfold agree in H. tauto. Qed.

Lemma agree_control s g c : agree s g -> agree s (withControl g c).
Proof. auto. Qed.

(** [if (!check()) break;] *)
Lemma must_check_wp s g (Q : option unit -> TState -> Ledger -> Prop) :
  going s g -> (forall s', ended s' g -> Q None s' g) ->
  (forall s', going s' g -> startAttempted s' = startAttempted s -> core s' = core s -> Q (Some tt) s' g) ->
  wpm P (must check) s g Q.
Proof.
  intros Hg HF HT. pose proof (going_live s g Hg) as [Hr Hq]. pose proof Hg as [Hs Ha].
  wstep. apply check_wp; [assumption..|]. intros [|] s' H.
  - apply HT; [exact (okOrFailed_going s s' g H Ha)| |apply H].
    destruct H as [H _]. unfold core in H. congruence.
  - apply HF. exact (okOrFailed_ended s s' g H Ha).
Qed.

(** [if (!wait(path, bit)) break;] *)
Lemma must_wait_wp path bit k s g (Q : option unit -> TState -> Ledger -> Prop) :
  downloading k s g -> (forall s' g', ended s' g' -> Q None s' g') ->
  (forall s' g', downloading k s' g' -> waited path bit (l_control g') -> l_clear g' = l_clear g -> Q (Some tt) s' g') ->
  wpm P (must (wait path bit)) s g Q.
Proof.
  intros (Hg & Hst & Hk & Hrf) HF HT. pose proof (going_live s g Hg) as [Hr Hq]. pose proof Hg as [Hs Ha].
  wstep. apply wait_wp; [assumption..|]. intros [|] s' c H Hw.
  - apply HT; [|apply Hw; reflexivity|reflexivity]. split; [|auto].
    exact (okOrFailed_going s s' _ H Ha).
  - apply HF. exact (okOrFailed_ended s s' _ H Ha).
Qed.

Lemma ended_fail st s g : agree s g -> st <> notRun -> st <> complete -> st <> invalidPlan ->
  ended (s <| res := (res s) <| status := st |> |>) g.
Proof. intros Ha H1 H2 H3. apply failed_ended. repeat split; simpl; auto; apply Ha. Qed.

Lemma publishNext_wp k s g (Q : option unit -> TState -> Ledger -> Prop) :
  downloading k s g -> 0 <= k < n -> n <= maxPackets ->
  (k = 0 -> pathReady (l_control g) 2) -> (k <> 0 -> l_clear g = Some true) ->
  (forall s' g', ended s' g' -> Q None s' g') ->
  (forall s' g', downloading (k + 1) s' g' -> l_clear g' = l_clear g -> Q (Some tt) s' g') ->
  wpm P (publishNext (k + 1)) s g Q.
Proof.
  intros (Hg & Hst & Hk & Hrf) Hn Hm Hp Hcl HF HT. pose proof (going_live s g Hg) as [Hr Hq].
  pose proof Hg as [Hs Ha].
  unfold publishNext, orFail. tstep. tstep. tstep. tstep. wcall.
  { split; [exact Hr|]. do 3 (split; [assumption|]). split; [lia|]. split; [lia|].
    split; intros; [apply Hp|apply Hcl]; lia. }
  intros b _. cbn [next contract P backendNext]. destruct b.
  - tstep. tstep. apply HT; [|reflexivity]. split; [|auto]. split; [exact Hs|].
    unfold agree in *. simpl. destruct Ha as (H1 & H2 & H3 & H4).
    split; [exact H1|]. split; [exact H2|]. split; [|exact H4].
    rewrite H3, Hk. apply u32_small. unfold maxPackets, ringSize in Hm. zlia.
  - tstep. tstep. tstep. apply HF. apply ended_fail; [exact Ha|discriminate..].
Qed.

Lemma isNotRun_wp s g (Q : option unit -> TState -> Ledger -> Prop) :
  (status (res s) = notRun -> Q (Some tt) s g) -> (status (res s) <> notRun -> Q None s g) ->
  wpm P (must isNotRun) s g Q.
Proof.
  intros HT HF. tstep. unfold isNotRun. tstep. destruct (bool_decide_reflect (status (res s) = notRun)); auto.
Qed.

Lemma sendSections_wp s g (Q : option unit -> TState -> Ledger -> Prop) :
  downloading 1 s g -> l_clear g = Some true -> 1 <= n <= maxPackets ->
  (forall s' g', ended s' g' -> Q None s' g') ->
  (forall s' g', downloading n s' g' -> Q (Some tt) s' g') ->
  wpm P (sendSections n) s g Q.
Proof.
  intros Hd Hcl Hn HF HT. unfold sendSections. tstep. tstep. tstep. tstep.
  apply (wpm_for_each P (fun i s' g' => downloading i s' g' /\ l_clear g' = Some true)).
  - lia.
  - split; [exact Hd|exact Hcl].
  - intros j s1 g1 Hj [Hd1 Hcl1]. tstep. apply must_check_wp; [apply Hd1| |].
    { intros s2 H2. apply isNotRun_wp; [intros ?; destruct H2 as [H2 _]; contradiction|auto]. }
    intros s2 Hg2 _ _. apply publishNext_wp; [|lia|lia|lia|auto| |].
    + split; [exact Hg2|apply Hd1].
    + intros s3 g3 H3. apply isNotRun_wp; [intros ?; destruct H3 as [H3 _]; contradiction|auto].
    + intros s3 g3 H3 Hc3. split; [exact H3|congruence].
  - intros s1 g1 [Hd1 _]. apply isNotRun_wp; [auto|intros H; destruct Hd1 as [[H' _] _]; contradiction].
Qed.

Lemma waitForReady_wp s g (Q : option unit -> TState -> Ledger -> Prop) :
  downloading n s g ->
  (forall s' g', ended s' g' -> Q None s' g') ->
  (forall s' g', downloading n s' g' -> Z.land (Z.shiftr (l_control g') 5) 7 = 7 -> Q (Some tt) s' g') ->
  wpm P waitForReady s g Q.
Proof.
  intros Hd HF HT. unfold waitForReady. tstep. tstep. tstep. tstep.
  apply (wpm_for_each P (fun i s' g' => downloading n s' g')).
  - lia.
  - exact Hd.
  - intros j s1 g1 Hj Hd1. tstep. apply must_check_wp; [apply Hd1| |].
    { intros s2 H2. tstep. apply isNotRun_wp; [intros ?; destruct H2 as [H2 _]; contradiction|auto]. }
    intros s2 Hg2 _ _. pose proof (going_live _ _ Hg2). wcall; [split; apply H|].
    intros [] _. split; [exact Hg2|apply Hd1].
  - intros s1 g1 Hd1. tstep. apply isNotRun_wp; [intros _|intros H; destruct Hd1 as [[H' _] _]; contradiction].
    apply must_wait_wp with (k := n); [exact Hd1|exact HF|]. intros s2 g2 H2 Hw _. apply HT; assumption.
Qed.

(** The ledger after an index read. *)
Lemma drainTurn_wp begin i s g (Q : option (option bool) -> TState -> Ledger -> Prop) :
  downloading n s g -> Z.land (Z.shiftr (l_control g) 5) 7 = 7 ->
  (forall s' g', ended s' g' -> Q (Some (Some false)) s' g') ->
  (forall s' g', going s' g' -> drained s' g' -> Q (Some (Some true)) s' g') ->
  (forall s' g', downloading n s' g' -> Z.land (Z.shiftr (l_control g') 5) 7 = 7 -> Q (Some None) s' g') ->
  wpm P (drainTurn n begin i) s g Q.
Proof.
  intros (Hg & Hst & Hk & Hrf) Hctl HF HT HN. pose proof (going_live s g Hg) as [Hr Hq].
  pose proof Hg as [Hs Ha]. unfold drainTurn.
  apply guard_wp with (s0 := s); [reflexivity|assumption..| |].
  { intros s1 H1. apply HF. exact (okOrFailed_ended s s1 g H1 Ha). }
  intros s1 H1. pose proof (okOrFailed_going s s1 g H1 Ha) as Hg1. tstep. wcall; [repeat split; assumption|].
  intros v _. cbn [next contract P backendNext]. set (g1 := g <| l_index := u32 v |>).
  cbv zeta. tstep. tstep. apply guard_wp with (s0 := s1); [reflexivity|apply H1|assumption|assumption| |].
  { intros s2 H2. apply HF. exact (okOrFailed_ended s1 s2 g1 H2 (proj2 Hg1)). }
  intros s2 H2. pose proof (okOrFailed_going s1 s2 g1 H2 (proj2 Hg1)) as Hg2.
  tstep; [tstep; tstep; tstep; apply HF, ended_fail; [apply Hg2|discriminate..]|].
  tstep.
  - tstep. apply HT; [exact Hg2|]. split; [exact Hst|]. repeat split; simpl; auto. lia.
  - tstep. tstep.
    + wcall; [split; apply (going_live s2 g1 Hg2)|]. intros [] _. tstep. apply HN; [|exact Hctl]. split; auto.
    + tstep. tstep. apply HN; [|exact Hctl]. split; auto.
Qed.

Lemma drainQueue_wp s g (Q : option unit -> TState -> Ledger -> Prop) :
  downloading n s g -> Z.land (Z.shiftr (l_control g) 5) 7 = 7 ->
  (forall s' g', ended s' g' -> Q None s' g') ->
  (forall s' g', going s' g' -> drained s' g' -> Q (Some tt) s' g') ->
  wpm P (drainQueue n) s g Q.
Proof.
  intros Hd Hctl HF HT. unfold drainQueue. tstep. tstep. tstep.
  pose proof (going_live s g (proj1 Hd)) as [Hr Hq].
  apply transfer_nowUs_wp; [assumption..|]. intros begin. tstep.
  assert (Hnot : forall s' g', (ended s' g' \/ going s' g') ->
    wpm P (st ← isNotRun; when st (fail timeout);; brk) s' g' Q).
  { intros s' g' H. tstep. unfold isNotRun. tstep. tstep.
    destruct (bool_decide_reflect (status (res s') = notRun)); simpl.
    - tstep. tstep. apply HF, ended_fail; [destruct H as [H|H]; apply H|discriminate..].
    - tstep. tstep. apply HF. destruct H as [H|[H _]]; [exact H|contradiction]. }
  apply (wpm_for_loop P (fun _ s' g' => downloading n s' g' /\ Z.land (Z.shiftr (l_control g') 5) 7 = 7)).
  - lia.
  - split; [exact Hd|exact Hctl].
  - intros j s1 g1 Hj [Hd1 Hc1]. apply drainTurn_wp; [exact Hd1|exact Hc1| | |auto].
    + intros s2 g2 H2. apply Hnot. auto.
    + intros s2 g2 H2 H3. simpl. tstep. apply HT; assumption.
  - intros s1 g1 [Hd1 _]. apply Hnot. right. apply Hd1.
Qed.

(** The [do]-block from a fresh start. *)
Lemma attempt_wp s (Q : option unit -> TState -> Ledger -> Prop) :
  going s newLedger -> 1 <= n <= maxPackets ->
  (forall r s' g', ended s' g' -> Q r s' g') ->
  wpm P (attempt packets) s newLedger Q.
Proof.
  intros Hg Hn HQ. unfold attempt. fold n. cbv zeta.
  tstep. apply must_check_wp; [exact Hg|intros s1 H1; apply HQ, H1|].
  intros s1 Hg1 _ _. tstep. tstep. tstep. unfold orFail at 1. tstep. wcall; [repeat split|].
  intros b _. cbn [next contract P backendNext].
  destruct (going_live _ _ Hg1) as [_ _]. pose proof (proj2 Hg1) as Ha. pose proof (proj1 Hg1) as Hs.
  assert (Hagree : agree (s1 <| prepared := true |>) (newLedger <| l_prep := Some b |>)).
  { unfold agree in *. simpl in *. repeat split; try tauto; try discriminate. }
  destruct b; [|tstep; tstep; tstep; apply HQ, ended_fail; [exact Hagree|discriminate..]].
  tstep. tstep. apply must_check_wp; [split; [exact Hs|exact Hagree]|intros s2 H2; apply HQ, H2|].
  intros s2 Hg2 Hst2 _. tstep. tstep. tstep. unfold orFail at 1. tstep. wcall; [repeat split|].
  intros b _. cbn [next contract P backendNext].
  set (s3 := s2 <| startAttempted := true |>). set (g3 := (newLedger <| l_prep := Some true |>) <| l_start := Some b |>).
  assert (Hagree3 : agree s3 g3).
  { pose proof (proj2 Hg2) as H2. unfold agree, s3, g3 in *. simpl in *.
    repeat split; try tauto; try discriminate. }
  destruct b; [|tstep; tstep; tstep; apply HQ, ended_fail; [exact Hagree3|discriminate..]].
  assert (Hd : downloading 0 s3 g3) by (split; [split; [apply Hg2|exact Hagree3]|repeat split]).
  assert (Hc3 : l_clear g3 = None) by reflexivity.

  tstep. tstep. tstep. tstep. apply must_wait_wp with (k := 0); [exact Hd|intros s' g' H'; apply HQ, H'|].
  intros s4 g4 Hd4 Hw4 Hc4. simpl in Hw4, Hc4. tstep. tstep. tstep.
  apply (publishNext_wp 0); [exact Hd4|lia|lia|intros _; exact Hw4|lia|intros s' g' H'; apply HQ, H'|].
  intros s5 g5 Hd5 Hc5. rewrite Hc4 in Hc5. tstep. tstep. tstep.
  apply must_wait_wp with (k := 1); [exact Hd5|intros s' g' H'; apply HQ, H'|].
  intros s6 g6 Hd6 Hw6 Hc6. rewrite Hc5 in Hc6. simpl in Hw6. tstep. tstep. tstep.
  apply must_check_wp; [apply Hd6|intros s' H'; apply HQ, H'|].
  intros s7 Hg7 _ _. destruct (going_live _ _ Hg7) as [Hr7 Hq7].
  tstep. unfold orFail. tstep. wcall; [repeat split; try assumption; apply Hd6 || apply Hw6|].
  intros b _. cbn [next contract P backendNext].
  destruct b; [|tstep; tstep; tstep; apply HQ, ended_fail; [apply Hg7|discriminate..]].
  tstep. tstep. apply sendSections_wp;
    [split; [exact Hg7|apply Hd6]|reflexivity|exact Hn|intros s' g' H'; apply HQ, H'|].
  intros s8 g8 Hd8. tstep. apply waitForReady_wp; [exact Hd8|intros s' g' H'; apply HQ, H'|].
  intros s9 g9 Hd9 Hw9. tstep. apply drainQueue_wp; [exact Hd9|exact Hw9|intros s' g' H'; apply HQ, H'|].
  intros s10 g10 Hg10 Hdr. tstep. apply HQ. split; [discriminate|]. split; [discriminate|].
  split; [apply Hg10|]. intros _. exact Hdr.
Qed.

(** The cleanup of a prepared transfer. *)
Lemma cleanup_wp s g (Q : option unit -> TState -> Ledger -> Prop) :
  agree s g -> prepared s = true ->
  status (res s) <> notRun -> operationStatus (res s) = status (res s) ->
  (status (res s) = complete -> drained s g) -> status (res s) <> invalidPlan ->
  (forall s' g', faithfulResult n (res s') g' -> Q (Some tt) s' g') ->
  wpm P cleanup s g Q.
Proof.
  intros Ha Hp Hs Hop Hc Hi HQ. unfold cleanup.
  destruct Ha as (Ha1 & Ha2 & Ha3 & Ha4 & Ha5 & Ha6 & Ha7 & Ha8 & Ha9 & Ha10).
  assert (Hprep : l_prep g <> None) by (rewrite Ha1, Hp; discriminate).
  assert (Hdr : status (res s) = complete -> l_start g <> None /\ l_pub g = n /\ l_refused g = false /\
    indexBad n (l_index g) = false /\ Z.land (Z.shiftr (l_index g) 16) 0xfff = n).
  { intros H. destruct (Hc H) as (D1 & D). split; [congruence|exact D]. }
  tstep. tstep. tstep. tstep. tstep. tstep. tstep. simpl. destruct (startAttempted s) eqn:Hst; simpl.
  - assert (Hstart : l_start g <> None) by (intros H; apply Ha2 in H; discriminate).
    wcall; [repeat split; assumption|]. intros q _. cbn [next contract P backendNext].
    tstep. tstep. destruct q.
    + tstep. wcall; [repeat split; [assumption|exact Hprep|auto]|]. intros b _.
      cbn [next contract P backendNext]. tstep. tstep.
      destruct b; repeat tstep; apply HQ; unfold faithfulResult; simpl; rewrite ?Hop;
        intuition (congruence || discriminate).
    + tstep. apply HQ. unfold faithfulResult; simpl; rewrite ?Hop, ?Ha6, ?Ha9. intuition (congruence || discriminate).
  - assert (Hstart : l_start g = None) by (apply Ha2; reflexivity).
    tstep. tstep. tstep. wcall; [repeat split; [assumption|exact Hprep|auto]|]. intros b _.
    cbn [next contract P backendNext]. tstep. tstep.
    destruct b; repeat tstep; apply HQ; unfold faithfulResult; simpl; rewrite ?Hop;
        intuition (congruence || discriminate).
Qed.

Lemma transferBody_wp :
  wpm P (transferBody packets) newT newLedger (fun _ s g => faithfulResult n (res s) g).
Proof.
  unfold transferBody. fold n. tstep.
  { tstep. unfold faithfulResult. simpl. intuition (congruence || discriminate). }
  assert (Hn : 1 <= n <= maxPackets).
  { pose proof (u32_range (packetCount (layout packets) + 1)) as Hr. unfold n, count in *.
    destruct (pk_data packets); zlia. }
  tstep. apply transfer_nowUs_wp; [reflexivity..|]. intros t. tstep. tstep. tstep. tstep. apply attempt_wp.
  - split; [reflexivity|]. unfold agree. simpl. intuition (congruence || discriminate).
  - exact Hn.
  - intros _ s g (H1 & H2 & Ha & Hc). tstep. tstep. tstep. tstep. tstep. tstep.
    + apply cleanup_wp; try assumption; try reflexivity.
      intros s' g' H. exact H.
    + tstep. tstep. unfold agree in Ha. unfold faithfulResult, drained in *. simpl in *.
      assert (l_start g = None) by tauto. assert (l_prep g = None) by tauto.
      destruct Ha as (_ & _ & H3 & H4 & H5 & H6 & H7 & H8 & H9 & _).
      rewrite H, H0, H3, H4, H5, H6, H7, H8, H9 in *. intuition (congruence || discriminate).
Qed.
End contract.

(** ** The number of back-end calls *)

Lemma check_cost : mcost check 2.
Proof. eapply mcost_le; [unfold check, nowUs, fail, onRes; mcost|]. all: lia. Qed.
#[export] Hint Resolve check_cost : cost.

Lemma wait_cost path bit : mcost (wait path bit) 48007.
Proof.
  eapply mcost_le; [unfold wait, waitTurn, readControl, late, fail, onRes, nowUs; mcost|]; lia.
Qed.
#[export] Hint Resolve wait_cost : cost.

Lemma attempt_cost packets : count packets <= maxPackets -> mcost (attempt packets) 193100.
Proof.
  intros Hn. unfold maxPackets, ringSize in Hn. eapply mcost_le.
  - unfold attempt, drainQueue, drainTurn, waitForReady, sendSections, publishNext, orFail, late,
      isNotRun, fail, setPhase, onRes, nowUs. mcost; try lia.
  - lia.
Qed.

(** ** Theorems *)

(** C5: whatever the back end answers, [transfer] uses it by its contract:
    buffers are prepared once and before the engine starts; packets are
    published in order 1, 2, ..., n, each once, none after a refusal, the first
    only when the boot ROM's command path is ready and the sections only after
    the download path was ready and the halt controls were cleared; the engine
    is quiesced exactly when a start was attempted, and the buffers are released
    only if the engine never started or is proved idle, after which the back end
    is not used again.  The result is truthful: every return path has a status,
    [complete] means that all packets were accepted, the hardware index drained
    them all and the buffers are back, and [retainBuffers] is set exactly when
    prepared buffers were not released. *)
Theorem transfer_contract packets tr r :
  exec (transfer packets) tr r ->
  accepts (contract (count packets)) newLedger tr /\
  faithfulResult (count packets) r (after (contract (count packets)) newLedger tr).
Proof.
  intros He. eapply wp_sound; [|exact He|apply relies_trivial; exact (fun _ _ _ => I)].
  apply wp_bind. eapply wp_mono; [|exact (transferBody_wp packets)].
  intros [o s] g H. exact H.
Qed.

(** C6: a transfer always comes to an end: there is an execution for every way
    of answering its calls, and none performs more than 193,200 calls, however
    the clock and the device behave. *)
Theorem transfer_terminates packets :
  (forall answer : (forall o : Op Backend, Ans Backend o), exists tr r, exec (transfer packets) tr r) /\
  cost (transfer packets) 193200.
Proof.
  split; [intros answer; apply exec_total; exact answer|].
  unfold transfer. rewrite <- (Z.add_0_r 193200). apply cost_bind; [|intros; apply cost_ret].
  destruct (Z.ltb_spec maxPackets (count packets)) as [H|H].
  - unfold transferBody. replace (maxPackets <? count packets) with true by lia. rewrite orb_true_r.
    intros tr a He. apply mcost_modify in He. lia.
  - pose proof (attempt_cost packets H). unfold transferBody.
    eapply mcost_le; [unfold fail, setPhase, onRes, nowUs, cleanup; mcost; try eassumption|]; unfold onRes; lia.
Qed.

(** ** A concrete transfer *)

(** A device that accepts everything: the clock advances 10 us per reading and
    the control byte follows the number of packets published. *)
Definition goodBackend (n : Z) : handler Backend (Z * Z) := fun d o =>
  let '(t, p) := d in
  match o as o return Ans Backend o * (Z * Z) with
  | BNowUs => (t, (t + 10, p))
  | BCancelled => (false, d)
  | BReadControl => ((if p =? n then 0xe0 else if p =? 0 then 0x02 else 0x04), d)
  | BReadIndex => (Z.lor n (Z.shiftl n 16), d)
  | BDelayUs us => (tt, (t + us, p))
  | BPrepare _ => (true, d)
  | BStartDownload => (true, d)
  | BPublish k => (true, (t, k))
  | BClearHaltControls => (true, d)
  | BQuiesceAndProveIdle => (true, d)
  | BReleaseAll => (true, d)
  end.

Definition sampleTransfer := run_trace (goodBackend 3) (transfer samplePackets) (0, 0).

Example sampleTransfer_complete :
  let r := sampleTransfer.1.1 in
  status r = complete /\ submitted r = 3 /\ buffersReleased r = true /\ retainBuffers r = false.
Proof. vm_compute. auto. Qed.

(** The same device refusing the idle proof: the buffers are retained. *)
Example busy_transfer :
  let busy : handler Backend (Z * Z) := fun d o =>
    match o as o return Ans Backend o * (Z * Z) with
    | BQuiesceAndProveIdle => (false, d) | o => goodBackend 3 d o end in
  let r := (run busy (transfer samplePackets) (0, 0)).1 in
  status r = quiesceFailed /\ operationStatus r = complete /\ retainBuffers r = true.
Proof. vm_compute. auto. Qed.

Lemma transfer_contract_witness :
  accepts (contract (count samplePackets)) newLedger sampleTransfer.2 /\
  faithfulResult (count samplePackets) sampleTransfer.1.1
    (after (contract (count samplePackets)) newLedger sampleTransfer.2).
Proof.
  apply transfer_contract. exact (run_trace_exec (goodBackend 3) (transfer samplePackets) (0, 0)).
Defined.
