(* ===== verification/Device.v ===== *)
(** * The device interface

    What the sources of the boot and download path call on their [Device]
    template parameter: register reads and writes, PCI configuration accesses
    and time.  Write operations name the gate they go through ([powerWrite32],
    [ringWrite32], [bootWrite32], [uploadWrite32]); [pause50Us] is [PauseUs 50]. *)

From S2P Require Import Prelude Prog.

Inductive gate := powerW | ringW | bootW | uploadW.

Inductive devOp :=
| Read8 (a : Z) | Read16 (a : Z) | Read32 (a : Z)
| Write8 (w : gate) (a v : Z) | Write16 (w : gate) (a v : Z) | Write32 (w : gate) (a v : Z)
| Command | WriteCommand (v : Z) | BusMaster (on : bool) | InterruptsSafe | Barrier
| NowUs | PauseUs (us : Z)
| StartXtalCvRead | ReadXtalData
| Length | Physical | Map | Unmap
| ReleaseHook.

Definition devAns (o : devOp) : Type :=
  match o with
  | Read8 _ | Read16 _ | Read32 _ | Command | NowUs | Length | Physical | ReadXtalData => Z
  | WriteCommand _ | Barrier | PauseUs _ | Unmap => unit
  | _ => bool
  end.
Definition Device : sig := Sig devOp devAns.

Section calls.
Context {S : Type}.
Definition dcall (o : devOp) : M Device S (devAns o) := call (Σ:=Device) o.
Definition read8 (a : Z) : M Device S Z := v ← dcall (Read8 a); mret (u8 v).
Definition read16 (a : Z) : M Device S Z := v ← dcall (Read16 a); mret (u16 v).
Definition read32 (a : Z) : M Device S Z := v ← dcall (Read32 a); mret (u32 v).
Definition command : M Device S Z := v ← dcall Command; mret (u16 v).
Definition nowUs : M Device S Z := v ← dcall NowUs; mret (u64 v).
Definition pauseUs (us : Z) : M Device S unit := dcall (PauseUs us).
End calls.

Definition invalidRegister (v : Z) : bool := (v =? 0xffffffff) || (v =? 0xdeadbeef).

(** Rules for the normalised reads. *)
Section rules.
Context {G S : Type} (P : protocol Device G).
Lemma read32_wp a (s : S) g (Q : option Z -> S -> G -> Prop) :
  may P g (Read32 a) ->
  (forall v, assume P g (Read32 a) v -> Q (Some (u32 v)) s (next P g (Read32 a) v)) ->
  wpm P (read32 a) s g Q.
Proof. intros H1 H2. split; [exact H1|exact H2]. Qed.
Lemma read16_wp a (s : S) g (Q : option Z -> S -> G -> Prop) :
  may P g (Read16 a) ->
  (forall v, assume P g (Read16 a) v -> Q (Some (u16 v)) s (next P g (Read16 a) v)) ->
  wpm P (read16 a) s g Q.
Proof. intros H1 H2. split; [exact H1|exact H2]. Qed.
Lemma read8_wp a (s : S) g (Q : option Z -> S -> G -> Prop) :
  may P g (Read8 a) ->
  (forall v, assume P g (Read8 a) v -> Q (Some (u8 v)) s (next P g (Read8 a) v)) ->
  wpm P (read8 a) s g Q.
Proof. intros H1 H2. split; [exact H1|exact H2]. Qed.
Lemma command_wp (s : S) g (Q : option Z -> S -> G -> Prop) :
  may P g Command ->
  (forall v, assume P g Command v -> Q (Some (u16 v)) s (next P g Command v)) ->
  wpm P command s g Q.
Proof. intros H1 H2. split; [exact H1|exact H2]. Qed.
Lemma nowUs_wp (s : S) g (Q : option Z -> S -> G -> Prop) :
  may P g NowUs ->
  (forall v, assume P g NowUs v -> Q (Some (u64 v)) s (next P g NowUs v)) ->
  wpm P nowUs s g Q.
Proof. intros H1 H2. split; [exact H1|exact H2]. Qed.
Lemma dcall_wp o (s : S) g (Q : option (devAns o) -> S -> G -> Prop) :
  may P g o -> (forall x, assume P g o x -> Q (Some x) s (next P g o x)) ->
  wpm P (dcall o) s g Q.
Proof. intros H1 H2. split; [exact H1|exact H2]. Qed.
End rules.

Section costs.
Context {S : Type}.
Lemma dcall_cost o : mcost (dcall (S:=S) o) 1.
Proof. exact (@mcost_call Device S o). Qed.
Lemma read8_cost a : mcost (read8 (S:=S) a) 1.
Proof. exact (mcost_bind _ _ 1 0 (dcall_cost (Read8 a)) (fun _ => mcost_ret _) ltac:(lia)). Qed.
Lemma read16_cost a : mcost (read16 (S:=S) a) 1.
Proof. exact (mcost_bind _ _ 1 0 (dcall_cost (Read16 a)) (fun _ => mcost_ret _) ltac:(lia)). Qed.
Lemma read32_cost a : mcost (read32 (S:=S) a) 1.
Proof. exact (mcost_bind _ _ 1 0 (dcall_cost (Read32 a)) (fun _ => mcost_ret _) ltac:(lia)). Qed.
Lemma command_cost : mcost (command (S:=S)) 1.
Proof. exact (mcost_bind _ _ 1 0 (dcall_cost (Command)) (fun _ => mcost_ret _) ltac:(lia)). Qed.
Lemma nowUs_cost : mcost (nowUs (S:=S)) 1.
Proof. exact (mcost_bind _ _ 1 0 (dcall_cost (NowUs)) (fun _ => mcost_ret _) ltac:(lia)). Qed.
Lemma pauseUs_cost us : mcost (pauseUs (S:=S) us) 1.
Proof. exact (dcall_cost (PauseUs us)). Qed.
End costs.
#[export] Hint Resolve read8_cost read16_cost read32_cost command_cost nowUs_cost pauseUs_cost : cost.
#[export] Hint Extern 1 (mcost (dcall ?o) _) => exact (dcall_cost o) : cost.

(** Symbolic execution over the device; [tac] proves that a call is allowed. *)
Ltac dev_step tac :=
  lazymatch goal with
  | |- wpm _ (read32 _) _ _ _ => apply read32_wp; [solve [tac]|intros ? _; cbn beta iota]
  | |- wpm _ (read16 _) _ _ _ => apply read16_wp; [solve [tac]|intros ? _; cbn beta iota]
  | |- wpm _ (read8 _) _ _ _ => apply read8_wp; [solve [tac]|intros ? _; cbn beta iota]
  | |- wpm _ command _ _ _ => apply command_wp; [solve [tac]|intros ? _; cbn beta iota]
  | |- wpm _ nowUs _ _ _ => apply nowUs_wp; [solve [tac]|intros ? _; cbn beta iota]
  | |- wpm ?P (dcall ?o) ?s ?g ?Q => refine (dcall_wp P o s g Q _ _); [solve [tac]|intros ? _; cbn beta iota]
  | |- wpm ?P (pauseUs ?us) ?s ?g ?Q =>
      refine (dcall_wp P (PauseUs us) s g Q _ _); [solve [tac]|intros ? _; cbn beta iota]
  | |- wpm _ (succeeds _) _ _ _ => apply wpm_succeeds
  | _ => wstep
  end.

(** ** A simulated board, for concrete runs

    Registers keep what is written to them, unless [view] gives a reading; the
    clock advances by one per reading and by the pauses. *)
Record Board := mkBoard { b_regs : list (Z * Z); b_time : Z; b_command : Z }.
Definition regGet (a : Z) (d : Board) : Z :=
  match List.find (fun p => p.1 =? a) (b_regs d) with Some p => p.2 | None => 0 end.
Definition regPut (a v : Z) (d : Board) : Board := mkBoard ((a, v) :: b_regs d) (b_time d) (b_command d).
Definition setTime (t : Z) (d : Board) : Board := mkBoard (b_regs d) t (b_command d).
Definition setCommand (c : Z) (d : Board) : Board := mkBoard (b_regs d) (b_time d) c.
Definition board (view : Z -> Board -> option Z) : handler Device Board := fun d o =>
  let get a := default (regGet a d) (view a d) in
  match o as o return Ans Device o * Board with
  | Read8 a => (get a, d) | Read16 a => (get a, d) | Read32 a => (get a, d)
  | Write8 _ a v => (true, regPut a v d)
  | Write16 _ a v => (true, regPut a v d)
  | Write32 _ a v => (true, regPut a v d)
  | Command => (b_command d, d)
  | WriteCommand v => (tt, setCommand v d)
  | BusMaster on => (true, setCommand (if on then 6 else 2) d)
  | InterruptsSafe => (true, d)
  | Barrier => (tt, d)
  | NowUs => (b_time d, setTime (b_time d + 1) d)
  | PauseUs us => (tt, setTime (b_time d + us) d)
  | StartXtalCvRead => (true, d)
  | ReadXtalData => (0x11, d)
  | Length => (0x100000, d)
  | Physical => (0xa0000000, d)
  | Map => (true, d)
  | Unmap => (tt, d)
  | ReleaseHook => (true, d)
  end.
