(* ===== verification/DmaProbe.v ===== *)
(** * DMA pages and buffer descriptors (src/DmaProbe.hpp)

    The memory interface shared with the firmware bank, the validity of a
    mapping, the buffer descriptor, and the probe that checks two pages and
    always closes them. *)

From S2P Require Import Prelude Prog.

Definition pageBytes : Z := 4096.
Definition ringEntries : Z := 256.
Definition bdBytes : Z := 8.
Definition probePacketBytes : Z := 2044.

Record Mapping := mkMapping { m_address : Z; m_length : Z; m_offset : Z; m_segments : Z }.
Definition emptyMapping : Mapping := mkMapping 0 0 0 0.
#[export] Instance Mapping_eq_dec : EqDecision Mapping.
Proof. solve_decision. Defined.

Definition validMapping (m : Mapping) : bool :=
  (m_segments m =? 1) && (m_length m =? pageBytes) && (m_offset m =? pageBytes) &&
  negb (m_address m =? 0) && (Z.land (m_address m) 4095 =? 0) &&
  (m_address m <=? 0x100000000 - pageBytes).

(** The eight bytes written to [out], [None] when it is too small or null; the
    boolean is the answer. *)
Definition encodeBd (out : bool) (capacity address length : Z) : option buf * bool :=
  if negb out || (capacity <? 8) then (None, false) else
  if (length =? 0) || (0xffff <? length) || (address =? 0) || (0xffffffff <? address) ||
     (0x100000000 - address <? length)
  then (Some (zeros 8), false)
  else (Some ([u8 length; u8 (Z.shiftr length 8); 0; 0x40] ++
              map (fun i => u8 (Z.shiftr address (8 * i))) [0; 1; 2; 3]), true).

(** ** The memory interface *)

Inductive memOp :=
| Allocate (i : Z) | PrepareBuffer (i : Z) | MappingOf (i : Z) | Bytes (i : Z)
| StoreByte (i j v : Z) | LoadByte (i j : Z) | Synchronize (i : Z) | Close (i : Z)
| MemCommand | LastError | Extension.

Definition memAns (o : memOp) : Type :=
  match o with
  | MappingOf _ => Mapping
  | LoadByte _ _ | MemCommand | LastError => Z
  | StoreByte _ _ _ | Extension => unit
  | _ => bool
  end.
Definition Memory : sig := Sig memOp memAns.
Definition mcall {S} (o : memOp) : M Memory S (memAns o) := call (Σ:=Memory) o.

(** ** The probe *)

Inductive DmaStatus :=
| dNotRun | dSkipped | dAllocateFailed | dPrepareFailed | dMapInvalid | dOverlap
| dEncodeFailed | dSyncFailed | dVerifyFailed | dValidated | dCleanupFailed | dBusMasterChanged.
#[export] Instance DmaStatus_eq_dec : EqDecision DmaStatus.
Proof. solve_decision. Defined.

Definition dmaStatusName (s : DmaStatus) : string :=
  match s with
  | dNotRun => "NOT_RUN"
  | dSkipped => "SKIPPED_BUS_MASTER_ACTIVE"
  | dAllocateFailed => "DMA_ALLOCATE_FAILED"
  | dPrepareFailed => "DMA_PREPARE_FAILED"
  | dMapInvalid => "DMA_MAPPING_INVALID"
  | dOverlap => "DMA_MAPPINGS_OVERLAP"
  | dEncodeFailed => "DMA_DESCRIPTOR_INVALID"
  | dSyncFailed => "DMA_SYNCHRONIZE_FAILED"
  | dVerifyFailed => "DMA_CPU_VERIFY_FAILED"
  | dValidated => "DMA_MEMORY_VALIDATED"
  | dCleanupFailed => "DMA_CLEANUP_FAILED"
  | dBusMasterChanged => "BUS_MASTER_CHANGED"
  end.

Record DmaResult := mkDma {
  d_status : DmaStatus; d_operationStatus : DmaStatus; d_ring : Mapping; d_packet : Mapping;
  failedBuffer : Z; allocations : Z; d_prepared : Z; synchronized : Z; osError : Z;
  cleanupOk : bool; cpuVerified : bool; busMasterBefore : bool; busMasterAfter : bool
}.
#[export] Instance DmaResult_rebuild : Rebuild DmaResult := fun r =>
  mkDma (d_status r) (d_operationStatus r) (d_ring r) (d_packet r) (failedBuffer r)
    (allocations r) (d_prepared r) (synchronized r) (osError r) (cleanupOk r) (cpuVerified r)
    (busMasterBefore r) (busMasterAfter r).
Definition newDma : DmaResult :=
  mkDma dNotRun dNotRun emptyMapping emptyMapping 0 0 0 0 0 false false false false.

Definition D (A : Type) : Type := M Memory DmaResult A.
Definition setStatus (st : DmaStatus) : D unit := modify (fun r => r <| d_status := st |>).
(** [if (!c) { r.status = st; break; }] *)
Definition orElse (c : D bool) (st : DmaStatus) : D unit :=
  b ← c; if (b : bool) then mret tt else setStatus st;; brk.

Definition pattern (i : Z) : Z := u8 (Z.land (i * 17 + 0x5a) 255).

(** One slot of the acquisition loop. *)
Definition acquire (i : Z) : D unit :=
  modify (fun r => r <| failedBuffer := i |>);;
  orElse (mcall (Allocate i)) dAllocateFailed;;
  modify (fun r => r <| allocations := allocations r + 1 |>);;
  orElse (mcall (PrepareBuffer i)) dPrepareFailed;;
  modify (fun r => r <| d_prepared := d_prepared r + 1 |>);;
  m ← mcall (MappingOf i);
  modify (fun r => if i =? 0 then r <| d_ring := m |> else r <| d_packet := m |>);;
  orElse (mret (validMapping m)) dMapInvalid.

(** The comparison of both pages; a mismatch ends it. *)
Definition verifyPages (expected : buf) : D unit :=
  block (for_each 0 pageBytes (fun i =>
    a ← mcall (LoadByte 0 i);
    bad ← (if negb (u8 a =? (if i <? 8 then byte_at expected i else 0)) then mret true
           else b ← mcall (LoadByte 1 i); mret (negb (u8 b =? pattern i)));
    when bad (modify (fun r => r <| cpuVerified := false |>);; brk))).

Definition fillPages : D unit :=
  for_each 0 pageBytes (fun i => mcall (StoreByte 0 i 0);; mcall (StoreByte 1 i (pattern i))).

Definition storeBd (slot : Z) (b : buf) : D unit :=
  for_each 0 8 (fun i => mcall (StoreByte 0 (slot + i) (byte_at b i))).

Definition probeBlock : D unit :=
  for_each 0 2 acquire;;
  r ← get;
  (if m_address (d_ring r) =? m_address (d_packet r) then setStatus dOverlap;; brk else mret tt);;
  ring ← mcall (Bytes 0); packet ← mcall (Bytes 1);
  (if negb ring || negb packet then setStatus dEncodeFailed;; brk else mret tt);;
  fillPages;;
  let '(bd, ok) := encodeBd true pageBytes (m_address (d_packet r)) probePacketBytes in
  storeBd 0 (default [] bd);;
  orElse (mret ok) dEncodeFailed;;
  for_each 0 2 (fun i =>
    modify (fun r => r <| failedBuffer := i |>);;
    orElse (mcall (Synchronize i)) dSyncFailed;;
    modify (fun r => r <| synchronized := synchronized r + 1 |>));;
  modify (fun r => r <| cpuVerified := true |>);;
  verifyPages (default [] bd);;
  modify (fun r => r <| d_status := if cpuVerified r then dValidated else dVerifyFailed |>).

Definition probe : D unit :=
  c ← mcall MemCommand;
  modify (fun r => r <| busMasterBefore := flag (u16 c) 4 |>);;
  (if flag (u16 c) 4 then setStatus dSkipped;; brk else mret tt);;
  block probeBlock;;
  ok ← gets (fun r => bool_decide (d_status r = dValidated));
  when ok (mcall Extension);;
  e ← mcall LastError;
  modify (fun r => r <| osError := e |> <| d_operationStatus := d_status r |>);;
  packetClosed ← mcall (Close 1);
  ringClosed ← mcall (Close 0);
  c ← mcall MemCommand;
  modify (fun r => r <| cleanupOk := (packetClosed : bool) && ringClosed |> <| busMasterAfter := flag (u16 c) 4 |>);;
  modify (fun r => if negb (cleanupOk r) then r <| d_status := dCleanupFailed |> else r);;
  modify (fun r => if busMasterAfter r then r <| d_status := dBusMasterChanged |> else r).

Definition runProbe : prog Memory DmaResult := final_state probe newDma.

(** ** What the probe guarantees *)

Module Probe.

(** ** The discipline of the two buffers

    What has been done with them: the buffers allocated, prepared and
    synchronised, the bytes stored, the bytes read back and whether they all
    were the ones stored, whether the extension ran, how many buffers were
    closed, and the first reading of the bus-master bit. *)
Record Seen := mkSeen {
  g_alloc : Z; g_prep : Z; g_sync : Z; g_cell : Z -> Z -> Z; g_loads : Z; g_agree : bool;
  g_ext : bool; g_closed : Z; g_master : option bool
}.
#[export] Instance Seen_rebuild : Rebuild Seen := fun g =>
  mkSeen (g_alloc g) (g_prep g) (g_sync g) (g_cell g) (g_loads g) (g_agree g) (g_ext g) (g_closed g) (g_master g).
Definition newSeen : Seen := mkSeen 0 0 0 (fun _ _ => 0) 0 true false 0 None.

Definition cellRange (i j : Z) : Prop := 0 <= i < 2 /\ 0 <= j < pageBytes.

(** Buffers in order, bytes inside the pages, stores before and loads after
    the synchronisation, the extension only on pages verified to the last
    byte, nothing after the closing, the packet closed before the ring. *)
Definition memMay (g : Seen) (o : memOp) : Prop :=
  match o with
  | Close 1 => g_closed g = 0
  | Close 0 => g_closed g = 1
  | Close _ => False
  | MemCommand => g_closed g = 0 \/ g_closed g = 2
  | Allocate i => g_closed g = 0 /\ i = g_alloc g /\ i < 2 /\ g_master g = Some false
  | PrepareBuffer i => g_closed g = 0 /\ i = g_prep g /\ g_alloc g = i + 1
  | MappingOf i => g_closed g = 0 /\ g_prep g = i + 1
  | Bytes i => g_closed g = 0 /\ g_prep g = 2 /\ 0 <= i < 2
  | StoreByte i j v => g_closed g = 0 /\ g_prep g = 2 /\ cellRange i j /\ in_u8 v /\ g_sync g = 0
  | LoadByte i j => g_closed g = 0 /\ cellRange i j /\ g_sync g = 2
  | Synchronize i => g_closed g = 0 /\ g_prep g = 2 /\ i = g_sync g /\ i < 2
  | Extension => g_closed g = 0 /\ g_sync g = 2 /\ g_agree g = true /\ g_loads g = 2 * pageBytes
  | LastError => g_closed g = 0
  end.
Definition memNext (g : Seen) (o : memOp) : memAns o -> Seen :=
  match o with
  | Allocate i => fun ok => if ok then g <| g_alloc := i + 1 |> else g
  | PrepareBuffer i => fun ok => if ok then g <| g_prep := i + 1 |> else g
  | Synchronize i => fun ok => if ok then g <| g_sync := i + 1 |> else g
  | StoreByte i j v => fun _ => g <| g_cell := fun a b => if (a =? i) && (b =? j) then v else g_cell g a b |>
  | LoadByte i j => fun v => g <| g_loads := g_loads g + 1 |> <| g_agree := g_agree g && (u8 v =? g_cell g i j) |>
  | Extension => fun _ => g <| g_ext := true |>
  | Close _ => fun _ => g <| g_closed := g_closed g + 1 |>
  | MemCommand => fun v => match g_master g with Some _ => g | None => g <| g_master := Some (flag (u16 v) 4) |> end
  | _ => fun _ => g
  end.
Definition buffers : protocol Memory Seen := Protocol (Σ:=Memory) memMay (fun _ _ _ => True) memNext.

Definition probeOk (r : DmaResult) (g : Seen) : Prop :=
  (g_master g = Some true /\ d_status r = dSkipped /\ g_alloc g = 0 /\ g_closed g = 0 \/
   g_master g = Some false /\ g_closed g = 2) /\
  (g_ext g = true <-> d_operationStatus r = dValidated) /\
  (d_status r = dValidated ->
     g_ext g = true /\ g_agree g = true /\ g_loads g = 2 * pageBytes /\ cleanupOk r = true /\ busMasterAfter r = false) /\
  (cpuVerified r = true -> d_operationStatus r = dValidated).

Section probe.
Implicit Types (r : DmaResult) (g : Seen).

Definition base r g : Prop := g_closed g = 0 /\ g_master g = Some false /\ g_ext g = false.
Definition broken r g : Prop := base r g /\ d_status r <> dValidated /\ cpuVerified r = false.
Definition verified r g : Prop :=
  base r g /\ d_status r = dValidated /\ cpuVerified r = true /\ g_sync g = 2 /\ g_agree g = true /\ g_loads g = 2 * pageBytes.

(** Before the synchronisation: [n] buffers acquired, nothing stored back. *)
Definition acquired n r g : Prop :=
  base r g /\ d_status r = dNotRun /\ cpuVerified r = false /\ g_alloc g = n /\ g_prep g = n /\ g_sync g = 0 /\
  g_loads g = 0 /\ g_agree g = true.

Lemma orElse_wp (c : D bool) st r g (Q : option unit -> DmaResult -> Seen -> Prop) :
  wpm buffers c r g (fun b r' g' => match b with
    | Some true => Q (Some tt) r' g' | Some false => Q None (r' <| d_status := st |>) g' | None => Q None r' g' end) ->
  wpm buffers (orElse c st) r g Q.
Proof.
  intros H. unfold orElse, setStatus. apply wpm_bind. eapply wpm_mono; [exact H|].
  intros [[|]|] r' g' H'; [wstep; exact H'| |exact H']. wstep. wstep. wstep. exact H'.
Qed.

Lemma acquire_wp i r g : 0 <= i < 2 -> acquired i r g ->
  wpm buffers (acquire i) r g (fun x r' g' => match x with Some _ => acquired (i + 1) r' g' | None => broken r' g' end).
Proof.
  intros Hi ((B1 & B2 & B3) & A1 & A2 & A3 & A4 & A5 & A6 & A7). unfold acquire, mcall. do 2 wstep.
  wstep. apply orElse_wp. wcall; [cbn; auto with lia|]. intros [|] _; [|repeat split; auto; discriminate].
  do 2 wstep. wstep. apply orElse_wp. wcall; [cbn; repeat split; auto|]. intros [|] _; [|repeat split; auto; discriminate].
  do 2 wstep. wstep. wcall; [cbn; auto|]. intros mp _. do 2 wstep.
  apply orElse_wp. wstep. destruct (validMapping mp), (i =? 0); repeat split; cbn; auto; discriminate.
Qed.

(** The stored pages. *)
Definition filled i g : Prop := forall j, 0 <= j < i -> g_cell g 0 j = 0 /\ g_cell g 1 j = pattern j.
Definition ready r g : Prop := acquired 2 r g.

Lemma pattern_range i : in_u8 (pattern i). Proof. apply u8_range. Qed.

Lemma fillPages_wp r g : ready r g -> wpm buffers fillPages r g (fun x r' g' =>
  x <> None /\ r' = r /\ ready r' g' /\ filled pageBytes g').
Proof.
  intros Hr. unfold fillPages, mcall.
  apply (wpm_for_each _ (fun i r' g' => r' = r /\ ready r' g' /\ filled i g')); [unfold pageBytes; lia| | |].
  - repeat split; try apply Hr; lia.
  - intros j r1 g1 Hj (-> & H1 & H2). pose proof H1 as ((B1 & B2 & B3) & A1 & A2 & A3 & A4 & A5 & A6 & A7).
    wstep. wcall; [cbn; unfold cellRange, in_u8; auto with lia|]. intros [] _.
    wcall; [cbn; pose proof (pattern_range j); unfold cellRange; auto with lia|]. intros [] _.
    split; [reflexivity|]. split; [repeat split; assumption|]. intros k Hk. cbn.
    destruct (Z.eqb_spec k j) as [->|]; cbn; [auto|]. apply H2. lia.
  - intros r1 g1 (-> & H1 & H2). split; [discriminate|auto].
Qed.

Lemma storeBd_wp b r g : ready r g -> filled pageBytes g -> zlen b = 8 ->
  wpm buffers (storeBd 0 b) r g (fun x r' g' => x <> None /\ r' = r /\ ready r' g' /\
    forall j, 0 <= j < pageBytes -> g_cell g' 0 j = (if j <? 8 then byte_at b j else 0) /\ g_cell g' 1 j = pattern j).
Proof.
  intros Hr Hf Hb. unfold storeBd, mcall.
  apply (wpm_for_each _ (fun i r' g' => r' = r /\ ready r' g' /\
    forall j, 0 <= j < pageBytes -> g_cell g' 0 j = (if j <? i then byte_at b j else 0) /\ g_cell g' 1 j = pattern j)); [lia| | |].
  - split; [reflexivity|]. split; [exact Hr|]. intros j Hj. destruct (Z.ltb_spec j 0); [lia|]. apply Hf. exact Hj.
  - intros j r1 g1 Hj (-> & H1 & H2). pose proof H1 as ((B1 & B2 & B3) & A1 & A2 & A3 & A4 & A5 & A6 & A7).
    wcall; [cbn; pose proof (byte_at_range b j); unfold cellRange, pageBytes; auto with lia|]. intros [] _.
    split; [reflexivity|]. split; [repeat split; assumption|]. intros k Hk. cbn. rewrite Z.add_0_l.
    destruct (Z.eqb_spec k j) as [->|]; cbn.
    + replace (j <? j + 1) with true by lia. split; [reflexivity|]. apply H2. exact Hk.
    + replace (k <? j + 1) with (k <? j) by lia. apply H2. exact Hk.
  - intros r1 g1 (-> & H1 & H2). split; [discriminate|auto].
Qed.

Lemma verifyPages_wp b r g : base r g -> cpuVerified r = true -> g_sync g = 2 -> g_agree g = true -> g_loads g = 0 ->
  (forall j, 0 <= j < pageBytes -> g_cell g 0 j = (if j <? 8 then byte_at b j else 0) /\ g_cell g 1 j = pattern j) ->
  wpm buffers (verifyPages b) r g (fun x r' g' => x <> None /\ base r' g' /\ d_status r' = d_status r /\
    (cpuVerified r' = true -> g_sync g' = 2 /\ g_agree g' = true /\ g_loads g' = 2 * pageBytes)).
Proof.
  intros (B1 & B2 & B3) Hv Hs Ha Hl Hc. unfold verifyPages, mcall. wstep.
  apply (wpm_for_each _ (fun i r' g' => r' = r /\ base r' g' /\ g_sync g' = 2 /\ g_agree g' = true /\ g_loads g' = 2 * i /\
    g_cell g' = g_cell g)); [unfold pageBytes; lia| | |].
  - repeat split; auto.
  - intros j r1 g1 Hj (-> & (C1 & C2 & C3) & H2 & H3 & H4 & H5).
    wstep. wcall; [cbn; unfold cellRange; auto with lia|]. intros x _. destruct (Hc j Hj) as [Hc0 Hc1].
    wstep. wstep.
    + wstep. wstep; [|discriminate]. do 2 wstep. wstep. split; [discriminate|]. split; [repeat split; assumption|].
      split; [reflexivity|discriminate].
    + wstep. wcall; [cbn; unfold cellRange; auto with lia|]. intros y _. wstep. wstep.
      * do 2 wstep. wstep. split; [discriminate|]. split; [repeat split; assumption|]. split; [reflexivity|discriminate].
      * wstep. split; [reflexivity|]. split; [repeat split; assumption|]. split; [exact H2|]. cbn. rewrite H3, H4, H5, Hc0, Hc1.
        apply negb_false_iff in Heqb0, Heqb1. rewrite Heqb0, Heqb1. split; [reflexivity|]. split; [lia|reflexivity].
  - intros r1 g1 (-> & H1 & H2 & H3 & H4 & H5). split; [discriminate|]. split; [exact H1|]. split; [reflexivity|auto].
Qed.

Lemma encodeBd_len a n : zlen (default [] (encodeBd true pageBytes a n).1) = 8.
Proof. unfold encodeBd. cbn [negb orb]. change (pageBytes <? 8) with false. cbv iota. destruct (_ || _); reflexivity. Qed.

Lemma probeBlock_wp r g : acquired 0 r g ->
  wpm buffers probeBlock r g (fun _ r' g' => broken r' g' \/ verified r' g').
Proof.
  intros H. unfold probeBlock, mcall.
  assert (Hbrk : forall st r g, ready r g -> st <> dValidated -> broken (r <| d_status := st |>) g).
  { intros st r1 g1 (B & A1 & A2 & _) Hst. split; [exact B|]. split; [exact Hst|exact A2]. }
  wstep. apply (wpm_for_each _ acquired); [lia|exact H| |].
  { intros j r1 g1 Hj H1. eapply wpm_mono; [apply acquire_wp; assumption|]. intros [[]|] r2 g2 H2; auto. }
  clear r g H. intros r g H. change (ready r g) in H. do 2 wstep. wstep. unfold setStatus at 1.
  wstep; [do 2 wstep; wstep; left; apply Hbrk; [exact H|discriminate]|]. wstep.
  pose proof H as ((B1 & B2 & B3) & A1 & A2 & A3 & A4 & A5 & A6 & A7).
  wstep. wcall; [cbn; auto with lia|]. intros ring _. wstep. wcall; [cbn; auto with lia|]. intros packet _.
  cbn [next buffers memNext]. unfold setStatus at 1.
  do 2 wstep; [do 2 wstep; wstep; left; apply Hbrk; [exact H|discriminate]|]. wstep.
  wstep. eapply wpm_mono; [apply fillPages_wp; exact H|]. intros [[]|] r1 g1 (Hn & -> & H1 & H2); [|congruence]. clear H B1 B2 B3 A3 A4 A5 A6 A7.
  pose proof (encodeBd_len (m_address (d_packet r)) probePacketBytes) as Hlen.
  destruct (encodeBd true pageBytes (m_address (d_packet r)) probePacketBytes) as [bd ok]. cbn [fst] in Hlen.
  wstep. eapply wpm_mono; [apply storeBd_wp; [exact H1|exact H2|exact Hlen]|].
  intros [[]|] r2 g2 (Hn2 & -> & H3 & H4); [|congruence].
  wstep. apply orElse_wp. wstep. destruct ok; [|left; apply Hbrk; [exact H3|discriminate]].
  pose proof H3 as ((B1 & B2 & B3) & A3 & A4 & A5 & A6 & A7 & A8 & A9).
  wstep. apply (wpm_for_each _ (fun i r' g' => base r' g' /\ d_status r' = dNotRun /\ cpuVerified r' = false /\ g_prep g' = 2 /\ g_sync g' = i /\
    g_agree g' = true /\ g_loads g' = 0 /\ g_cell g' = g_cell g2)); [lia|repeat split; assumption| |].
  { intros j r1 g3 Hj ((C1 & C2 & C3) & D1 & D2 & D3 & D4 & D5 & D6 & D7). do 2 wstep. wstep. apply orElse_wp.
    wcall; [cbn; auto with lia|]. intros [|] _; [|left; repeat split; auto; discriminate]. wstep. repeat split; auto. }
  intros r1 g3 ((C1 & C2 & C3) & D1 & D2 & D3 & D4 & D5 & D6 & D7). do 2 wstep. wstep.
  eapply wpm_mono; [apply (verifyPages_wp (default [] bd)); [repeat split; assumption|reflexivity|exact D4|exact D5|exact D6|]|].
  { rewrite D7. exact H4. }
  intros [[]|] r3 g4 (Hn4 & (E1 & E2 & E3) & E4 & E5); [|congruence]. wstep.
  destruct (cpuVerified r3) eqn:Ev.
  - right. destruct (E5 eq_refl) as (F1 & F2 & F3). split; [repeat split; assumption|]. cbn. rewrite Ev. auto 10.
  - left. split; [repeat split; assumption|]. cbn. rewrite Ev. split; [discriminate|reflexivity].
Qed.

Lemma probe_wp : wpm buffers probe newDma newSeen (fun _ r g => probeOk r g).
Proof.
  unfold probe, setStatus, mcall. wstep. wcall; [left; reflexivity|]. intros c _.
  set (g0 := next buffers newSeen MemCommand c).
  do 2 wstep. wstep. wstep.
  { do 2 wstep. wstep. unfold probeOk, g0. cbn. rewrite Heqb. split; [left; auto|].
    split; [split; discriminate|]. split; discriminate. }
  wstep. wstep. wstep.
  eapply wpm_mono; [apply probeBlock_wp; unfold g0; cbn; rewrite Heqb; repeat split|].
  intros ob r g Hr. cbv beta in Hr. do 2 wstep.
  assert (Hend : forall r g, (broken r g \/ g_closed g = 0 /\ g_master g = Some false /\ g_ext g = true /\ d_status r = dValidated /\
      g_agree g = true /\ g_loads g = 2 * pageBytes) ->
    wpm buffers (e ← call (Σ:=Memory) LastError;
      modify (fun r => r <| osError := e |> <| d_operationStatus := d_status r |>);;
      packetClosed ← call (Σ:=Memory) (Close 1);
      ringClosed ← call (Σ:=Memory) (Close 0);
      c ← call (Σ:=Memory) MemCommand;
      modify (fun r => r <| cleanupOk := (packetClosed : bool) && ringClosed |> <| busMasterAfter := flag (u16 c) 4 |>);;
      modify (fun r => if negb (cleanupOk r) then r <| d_status := dCleanupFailed |> else r);;
      modify (fun r => if busMasterAfter r then r <| d_status := dBusMasterChanged |> else r)) r g
    (fun _ r g => probeOk r g)).
  { clear Hr r g. intros r g H.
    assert (Hc : g_closed g = 0 /\ g_master g = Some false) by (destruct H as [((B1 & B2 & B3) & _)|(H1 & H2 & _)]; auto).
    destruct Hc as [Hc Hm]. wstep. wcall; [exact Hc|]. intros e _. do 2 wstep.
    wstep. wcall; [exact Hc|]. intros pc _. wstep. wcall; [cbn; rewrite Hc; reflexivity|]. intros rc _.
    wstep. wcall; [cbn; rewrite Hc; right; reflexivity|]. intros c2 _. do 2 wstep. do 2 wstep. wstep.
    unfold probeOk. cbn. rewrite Hm. cbn. rewrite Hc.
    assert (Hst : forall b b2 : bool, let r1 := if negb b then dCleanupFailed else d_status r in
      (if b2 then dBusMasterChanged else r1) = dValidated -> b = true /\ b2 = false /\ d_status r = dValidated).
    { intros [|] [|]; cbn; intros; try discriminate; auto. }
    split; [right; auto|].
    destruct H as [((B1 & B2 & B3) & N & V)|(_ & _ & E & S & A & L)].
    - rewrite B3. destruct (pc && rc), (flag (u16 c2) 4); cbn; (split; [split; [discriminate|congruence]|]);
        (split; [intros; first [discriminate | contradiction]|congruence]).
    - rewrite E, S. destruct (pc && rc), (flag (u16 c2) 4); cbn; (split; [auto|]); (split; [intros; first [discriminate | auto]|auto]). }
  destruct Hr as [Hr|Hr].
  - wstep. unfold when. rewrite bool_decide_false by apply Hr. wstep. apply Hend. left. exact Hr.
  - destruct Hr as ((B1 & B2 & B3) & S & V & Y & A & L). wstep. unfold when. rewrite bool_decide_true by exact S.
    wcall; [cbn; auto|]. intros [] _. apply Hend. right. repeat split; assumption.
Qed.
End probe.

(** whatever the memory objects and the pages do, the probe acquires the
    two buffers in order and only with bus mastering off, stores and loads only
    inside the pages, before and after the synchronisation, and runs its
    extension exactly when every one of the 8,192 bytes was read back as it
    was stored.  Unless it was skipped, both buffers are closed at the end,
    the packet before the ring, whatever failed before; the memory is reported
    validated only when in addition both closings succeeded and bus mastering
    is still off. *)
Theorem probe_discipline tr r : exec runProbe tr r ->
  accepts buffers newSeen tr /\ probeOk r (after buffers newSeen tr).
Proof.
  intros He. apply (wpm_exec buffers probe newDma newSeen probeOk); [exact probe_wp|exact He|].
  apply relies_trivial. intros; exact I.
Qed.

(** ** Concrete runs *)

(** Pages that read back what the probe stores, except at [bad]. *)
Definition samplePages (bad : Z) : handler Memory unit := fun d o =>
  match o as o return Ans Memory o * unit with
  | MappingOf i => (mkMapping (0x100000 * (i + 1)) 4096 4096 1, d)
  | LoadByte i j => ((if j =? bad then 255 else if i =? 1 then pattern j
      else byte_at (default [] (encodeBd true pageBytes 0x200000 probePacketBytes).1) j), d)
  | MemCommand => (2, d) | LastError => (0, d)
  | StoreByte _ _ _ => (tt, d) | Extension => (tt, d)
  | Allocate _ => (true, d) | PrepareBuffer _ => (true, d) | Bytes _ => (true, d) | Synchronize _ => (true, d)
  | Close _ => (true, d)
  end.
Definition sampleProbe (bad : Z) := run_trace (samplePages bad) runProbe tt.

Example sampleProbe_ok : d_status (sampleProbe (-1)).1.1 = dValidated /\ d_status (sampleProbe 4000).1.1 = dVerifyFailed.
Proof. vm_compute. auto. Qed.

Lemma probe_discipline_witness :
  accepts buffers newSeen (sampleProbe (-1)).2 /\
  probeOk (sampleProbe (-1)).1.1 (after buffers newSeen (sampleProbe (-1)).2).
Proof. apply probe_discipline. exact (run_trace_exec (samplePages (-1)) runProbe tt). Defined.
End Probe.
