(* ===== verification/PciDownload.v ===== *)
(** * The PCI download transport (src/PciFirmwareTransport.hpp)

    [PciDownload] implements the back end of [FirmwareTransfer] with register
    accesses on channel 12.  The class members are the state record, every
    member function is a method over the device. *)

From S2P Require Import Prelude Prog FirmwarePlan FirmwarePackets FirmwareTransfer Device DmaProbe.

Definition uploadAddress32 (a : Z) : bool :=
  existsb (Z.eqb a)
    [0x160; 0x164; 0x1a0; 0x1000; 0x1004; 0x1010; 0x1014; 0x10b0; 0x1160; 0x1164; 0x1228;
     0x13b0; 0x13f0; 0x8380; 0x8810; 0x9a00].
Definition uploadAddress16 (a : Z) : bool := (a =? 0x1038) || (a =? 0x1080).

Record PciDownloadResult := mkPdr {
  stage : Z; writes : Z; dPolls : Z; published : Z; failureAddress : Z; gateCode : Z;
  failureExpected : Z; failureActual : Z; busyValue : Z; indexValue : Z; initValue : Z; stopValue : Z; hciValue : Z;
  pollFailureAddress : Z; pollFailureMask : Z; pollFailureExpected : Z; pollFailureActual : Z;
  resetHci : Z; resetControl : Z; pollFailureReason : Z;
  dAttempted : bool; busMasterEnabled : bool; doorbellAttempted : bool; dIdle : bool;
  busMasterOff : bool; restored : bool
}.
#[export] Instance Pdr_rebuild : Rebuild PciDownloadResult := fun r =>
  mkPdr (stage r) (writes r) (dPolls r) (published r) (failureAddress r) (gateCode r)
    (failureExpected r) (failureActual r) (busyValue r) (indexValue r) (initValue r) (stopValue r)
    (hciValue r) (pollFailureAddress r) (pollFailureMask r) (pollFailureExpected r)
    (pollFailureActual r) (resetHci r) (resetControl r) (pollFailureReason r) (dAttempted r)
    (busMasterEnabled r) (doorbellAttempted r) (dIdle r) (busMasterOff r) (restored r).
Definition newPdr : PciDownloadResult :=
  mkPdr 0 0 0 0 0 0 0 0 0 0 0 0 0 0 0 0 0 0 0 0 false false false false false false.

(** The members: the mapping of the ring, the packet count, the readiness of
    the bank, whether a release hook is set, the flags, the saved registers. *)
Record PciState := mkPci {
  ring : Mapping; packetsN : Z; bankReady : bool; hasHook : bool;
  snapshot : bool; started : bool; saved : list Z; savedCount : Z; dres : PciDownloadResult
}.
#[export] Instance PciState_rebuild : Rebuild PciState := fun s =>
  mkPci (ring s) (packetsN s) (bankReady s) (hasHook s) (snapshot s) (started s) (saved s)
    (savedCount s) (dres s).

Definition addresses : list Z :=
  [0x1000; 0x1004; 0x1010; 0x1160; 0x1164; 0x1228; 0x13f0; 0x8380; 0x8810; 0x9a00; 0x1a0; 0x10b0; 0x13b0; 0x101c].

(** The constructor. *)
Definition newPci (mapping : Mapping) (count : Z) (ready hook : bool) : PciState :=
  mkPci mapping count ready hook false false (replicate 14 0) 0 newPdr.

Definition P (A : Type) : Type := M Device PciState A.
Definition onPdr (f : PciDownloadResult -> PciDownloadResult) : P unit :=
  modify (fun s => s <| dres := f (dres s) |>).
Definition savedAt (s : PciState) (i : Z) : Z := nth (Z.to_nat i) (saved s) 0.
Definition addressAt (i : Z) : Z := nth (Z.to_nat i) addresses 0.
Definition setStage (n : Z) : P unit := onPdr (fun r => r <| stage := n |>).

(** [if (!result.failureAddress) {...}] *)
Definition noteFailure (a expected actual : Z) : P unit :=
  onPdr (fun r => if failureAddress r =? 0
                  then r <| failureAddress := a |> <| failureExpected := expected |> <| failureActual := actual |>
                  else r).
Definition noFailure : P bool := gets (fun s => failureAddress (dres s) =? 0).

(** [equal]. *)
Definition equal (a mask expected : Z) : P bool :=
  v ← read32 a;
  if negb (invalidRegister v) && (Z.land v mask =? expected) then mret true else
  noteFailure a expected v;; mret false.

Definition countWrite : P unit := onPdr (fun r => r <| writes := u32 (writes r + 1) |>).

(** [w] and [w16]: only listed addresses are ever written. *)
Definition w (a v : Z) : P bool :=
  countWrite;;
  ok ← (mret (uploadAddress32 a) &&> dcall (Write32 uploadW a v));
  (if (ok : bool) then mret tt else
   first ← noFailure;
   when first (actual ← read32 a; noteFailure a v actual));;
  mret ok.
Definition w16 (a v : Z) : P bool :=
  countWrite;;
  ok ← (mret (uploadAddress16 a) &&> dcall (Write16 uploadW a v));
  (if (ok : bool) then mret tt else
   first ← noFailure;
   when first (actual ← read16 a; noteFailure a v actual));;
  mret ok.

(** The output parameter of [poll]: a field of the result. *)
Record outField := mkOut {
  getOut : PciDownloadResult -> Z; setOut : Z -> PciDownloadResult -> PciDownloadResult
}.
Definition busyOut : outField := mkOut busyValue (fun v r => r <| busyValue := v |>).
Definition controlOut : outField := mkOut resetControl (fun v r => r <| resetControl := v |>).

(** The lambda [failed] of [poll]. *)
Definition notePoll (a mask expected : Z) (out : outField) (reason : Z) (r : PciDownloadResult)
  : PciDownloadResult :=
  if pollFailureReason r =? 0
  then r <| pollFailureReason := reason |> <| pollFailureAddress := a |>
         <| pollFailureMask := mask |> <| pollFailureExpected := expected |>
         <| pollFailureActual := getOut out r |>
  else r.
Definition pollFailed (a mask expected : Z) (out : outField) (reason : Z) : P (option bool) :=
  onPdr (notePoll a mask expected out reason);;
  mret (Some false).

Definition pollTurn (a mask expected timeout begin : Z) (out : outField) : P (option bool) :=
  now ← nowUs;
  if now <? begin then pollFailed a mask expected out 2 else
  if timeout <=? now - begin then pollFailed a mask expected out 1 else
  v ← read32 a;
  onPdr (setOut out v);;
  onPdr (fun r => r <| dPolls := u32 (dPolls r + 1) |>);;
  if invalidRegister v then pollFailed a mask expected out 3 else
  after ← nowUs;
  if after <? now then pollFailed a mask expected out 2 else
  if timeout <=? after - begin then pollFailed a mask expected out 1 else
  if Z.land v mask =? expected then mret (Some true) else
  pauseUs 50;; mret None.

Definition poll (a mask expected timeout : Z) (out : outField) : P bool :=
  begin ← nowUs;
  r ← for_loop 0 (timeout / 50 + 1) (fun _ => pollTurn a mask expected timeout begin out);
  match r with
  | Some b => mret b
  | None => pollFailed a mask expected out 4;; mret false
  end.

(** ** The member functions of the back end *)

Definition readControl : P Z :=
  v ← read32 0x1e0; mret (if invalidRegister v then 0xff else u8 v).
Definition readIndex : P Z := read32 0x1080.

Definition memoryOnly : P bool := c ← command; mret (Z.land c 6 =? 2).

Definition prepare (p : Packets) : P bool :=
  s ← get;
  mret (bankReady s && validMapping (ring s) && (packetsN s =? count p) &&
        (1 <? packetsN s) && (packetsN s <? 256)) &&> memoryOnly.

(** [{result.gate = g; return false;}] *)
Definition gateFail {A} (g : Z) : P A := onPdr (fun r => r <| gateCode := g |>);; brk.

(** Read and check the registers [startDownload] will change. *)
Definition takeSnapshot : P unit :=
  for_each 0 14 (fun i =>
    v ← read32 (addressAt i);
    modify (fun s => s <| saved := <[Z.to_nat i := v]> (saved s) |>);;
    when (invalidRegister v)
      (onPdr (fun r => r <| gateCode := 3 |> <| failureAddress := addressAt i |> <| failureActual := v |>);; brk));;
  c ← read16 0x1038;
  modify (fun s => s <| savedCount := c |>);;
  s ← get;
  dirty ← (mret ((c =? 0xffff) || negb (savedAt s 3 =? 0) || negb (savedAt s 4 =? 0)) |||
           (i ← readIndex; mret (flag i 0x0fff0fff)) |||
           mret (flag (savedAt s 13) 0x7f0f03));
  (if (dirty : bool) then gateFail 4 else mret tt);;
  modify (fun s => s <| snapshot := true |>).

(** The values written to 0x1000 and 0x1010. *)
Definition initFor (s : PciState) : Z :=
  Z.lor (Z.lor (Z.lor (Z.ldiff (savedAt s 0) (Z.lor (Z.lor (Z.lor (Z.lor 0x2800 0x40000) 0x1c000) 0x700) 8)) 0x1000) 0x700) 0xc000.
Definition stopFor (s : PciState) : Z := Z.lor (savedAt s 2) 0x1f0f00.
Definition runningStop (s : PciState) : Z := Z.ldiff (stopFor s) (Z.lor 0x100000 0x40000).

(** Stop the engine and mask the interrupts (stages 1 and 2). *)
Definition stopEngine : P unit :=
  s ← get;
  must (w 0x1000 (initFor s) &&> w 0x1010 (stopFor s) &&> poll 0x101c 0x7f0f03 0 10000 busyOut);;
  must (equal 0x1000 0x2800 0 &&> equal 0x1010 0x1f0f00 0x1f0f00);;
  setStage 2;;
  must (w 0x1a0 0 &&> w 0x10b0 0 &&> w 0x13b0 0);;
  must (equal 0x1a0 0xffffffff 0 &&> equal 0x10b0 0xffffffff 0 &&> equal 0x13b0 0xffffffff 0).

(** Configure the ring of channel 12. *)
Definition configureRing : P unit :=
  s ← get;
  must (w 0x1004 (Z.lor (Z.ldiff (savedAt s 1) 0x0f0f0000) 0x01010000) &&>
        w 0x13f0 (Z.lor (Z.ldiff (savedAt s 6) 0x70000) 0x70000));;
  must (w 0x8810 (Z.lor (savedAt s 8) 1) &&> w 0x9a00 (Z.ldiff (savedAt s 9) 2));;
  must (equal 0x1000 0x5ff08 (Z.land (initFor s) 0x5ff08) &&> equal 0x1004 0x0f0f0000 0x01010000 &&>
        equal 0x13f0 0x70000 0x70000 &&> equal 0x8810 1 1 &&> equal 0x9a00 2 0);;
  must (w 0x1164 0 &&> w 0x1160 (u32 (m_address (ring s))) &&>
        w16 0x1038 (u16 (Z.lor (Z.land (savedCount s) 0xf000) 256)) &&>
        w 0x1228 (Z.lor (Z.ldiff (savedAt s 5) 0x00ffffff) 0x01041c));;
  must (equal 0x1160 0xffffffff (u32 (m_address (ring s))) &&> equal 0x1164 0xffffffff 0 &&>
        (c ← read16 0x1038; mret (Z.land c 0xfff =? 256)) &&> equal 0x1228 0xffffff 0x01041c);;
  setStage 3.

(** Reset the engine's pointers and close everything but channel 12. *)
Definition resetEngine : P unit :=
  s ← get;
  must (w 0x8380 (Z.lor (Z.ldiff (savedAt s 7) 3) 3) &&> equal 0x8380 3 3);;
  h ← read32 0x8380; onPdr (fun r => r <| resetHci := h |>);;
  must (w 0x1014 0x400 &&> equal 0x1080 0x0fff0fff 0);;
  must (w 0x1000 (Z.lor (initFor s) 8) &&> poll 0x1000 8 0 10000 controlOut);;
  must (w 0x8380 (Z.lor (Z.ldiff (savedAt s 7) 3) 1) &&> equal 0x8380 3 1);;
  must (w 0x1010 (runningStop s) &&> equal 0x1010 0x1f0f00 (Z.land (runningStop s) 0x1f0f00));;
  must (equal 0x1000 0x2800 0 &&> equal 0x1080 0x0fff0fff 0).

(** Bus mastering, then the engine. *)
Definition enableEngine : P unit :=
  s ← get;
  setStage 4;; modify (fun s => s <| started := true |>);;
  must (dcall (BusMaster true));;
  onPdr (fun r => r <| busMasterEnabled := true |>);;
  must (w 0x1000 (Z.lor (initFor s) 0x800) &&> equal 0x1000 0x2800 0x800);;
  i ← read32 0x1000; o ← read32 0x1010; h ← read32 0x8380;
  onPdr (fun r => r <| initValue := i |> <| stopValue := o |> <| hciValue := h |>).

Definition startDownload : P bool := succeeds (
  onPdr (fun r => r <| dAttempted := true |> <| stage := 1 |>);;
  c ← memoryOnly; (if (c : bool) then mret tt else gateFail 1);;
  i ← dcall InterruptsSafe; (if (i : bool) then mret tt else gateFail 2);;
  takeSnapshot;;
  stopEngine;; configureRing;; resetEngine;; enableEngine).

Definition publish (producer : Z) : P bool := succeeds (
  s ← get;
  must (mret (started s) &&> (c ← command; mret (Z.land c 6 =? 6)) &&>
        mret ((producer =? u32 (published (dres s) + 1)) && (producer <=? packetsN s)));;
  onPdr (fun r => r <| doorbellAttempted := true |>);;
  dcall Barrier;;
  must (w16 0x1080 (u16 producer));;
  i ← readIndex; onPdr (fun r => r <| indexValue := i |>);;
  (if invalidRegister i || negb (Z.land i 0xfff =? producer) || (producer <? Z.land (Z.shiftr i 16) 0xfff)
   then brk else mret tt);;
  onPdr (fun r => r <| published := producer |>)).

Definition clearHaltControls : P bool := w 0x160 0 &&> w 0x164 0.

(** Stop the engine; the conjunction of the three writes is the first [ok]. *)
Definition quiesceEngine : P bool :=
  init ← read32 0x1000; stop ← read32 0x1010; hci ← read32 0x8380;
  a ← (mret (negb (invalidRegister init)) &&> w 0x1000 (Z.ldiff init 0x2800));
  b ← (mret (negb (invalidRegister stop)) &&> w 0x1010 (Z.lor stop 0x1f0f00));
  c ← (mret (negb (invalidRegister hci)) &&> w 0x8380 (Z.ldiff hci 3));
  i ← (poll 0x101c 0x7f0f03 0 10000 busyOut &&> equal 0x1000 0x2800 0 &&> equal 0x8380 3 0);
  onPdr (fun r => r <| dIdle := i |>);;
  mret (a && b && c).

(** Restore the saved registers, all of them whatever fails. *)
Definition restoreRegisters (ok : bool) : P bool :=
  s ← get;
  ok ← all_of 10 13 (fun i => w (addressAt i) 0) ok;
  ok ← all_of 10 13 (fun i => equal (addressAt i) 0xffffffff 0) ok;
  clear ← (w 0x1014 0x400 &&> equal 0x1080 0x0fff0fff 0);
  ok ← all_of 1 10 (fun i => w (addressAt i) (savedAt s i)) (clear && ok);
  n ← w16 0x1038 (savedCount s);
  i ← w 0x1000 (savedAt s 0);
  ok ← all_of 0 10 (fun i => equal (addressAt i) 0xffffffff (savedAt s i)) (i && (n && ok));
  c ← read16 0x1038;
  mret ((c =? savedCount s) && ok).

Definition quiesceAndProveIdle : P bool := succeeds (
  s ← get;
  ok ← (if snapshot s then quiesceEngine
        else onPdr (fun r => r <| dIdle := negb (started s) |>);; mret true);
  bm ← (dcall (BusMaster false) &&> memoryOnly);
  onPdr (fun r => r <| busMasterOff := bm |>);;
  r ← gets dres;
  (if negb (dIdle r) || negb bm then brk else mret tt);;
  ok ← (if snapshot s then restoreRegisters ok else mret ok);
  onPdr (fun r => r <| restored := ok |>);;
  must (mret ok)).

Definition releaseAll : P bool :=
  s ← get;
  mret ((negb (started s) || (dIdle (dres s) && busMasterOff (dres s))) && hasHook s) &&>
  dcall ReleaseHook.

(** ** The implementation of the back end *)

(** A method as an implementation of an operation. *)
Definition method {A} (m : P A) (d : A) (s : PciState) : prog Device (A * PciState) :=
  bindP (m s) (fun r => Ret (default d r.1, r.2)).

Definition implementation (o : Op Backend) : PciState -> prog Device (Ans Backend o * PciState) :=
  match o with
  | BNowUs => method nowUs 0
  | BCancelled => method (mret false) false
  | BReadControl => method readControl 0
  | BReadIndex => method readIndex 0
  | BDelayUs us => method (pauseUs us) tt
  | BPrepare p => method (prepare p) false
  | BStartDownload => method startDownload false
  | BPublish k => method (publish k) false
  | BClearHaltControls => method clearHaltControls false
  | BQuiesceAndProveIdle => method quiesceAndProveIdle false
  | BReleaseAll => method releaseAll false
  end.

(** The transfer on the device. *)
Definition download (packets : Packets) (s : PciState) : prog Device (TransferResult * PciState) :=
  interp implementation (transfer packets) s.

(** ** The device policy

    What the download may do to the device, as an automaton over its calls: the
    answers to the two bus-master requests, whether the engine was seen idle
    when bus mastering was taken away, the last command word, the last doorbell
    value, the answers of the interrupt check and of the release hook, and the
    last value read from every register. *)
Record Dev := mkDev {
  v_on : option bool; v_off : option bool; v_offIdle : bool; v_cmd : Z; v_door : Z;
  v_irq : bool; v_rel : option bool; v_busy : Z; v_regs : Z -> Z
}.
#[export] Instance Dev_rebuild : Rebuild Dev := fun d =>
  mkDev (v_on d) (v_off d) (v_offIdle d) (v_cmd d) (v_door d) (v_irq d) (v_rel d) (v_busy d) (v_regs d).
Definition newDev : Dev := mkDev None None false 0 0 false None 0 (fun _ => 0).

Definition engineIdle (d : Dev) : bool :=
  (Z.land (v_busy d) 0x7f0f03 =? 0) && (Z.land (v_regs d 0x1000) 0x2800 =? 0) &&
  (Z.land (v_regs d 0x8380) 3 =? 0).

(** DMA is impossible: it was never enabled, or it was taken away with the
    engine idle and the command register shows it. *)
Definition dmaOff (d : Dev) : Prop :=
  v_on d = None \/ (v_off d = Some true /\ v_offIdle d = true /\ Z.land (v_cmd d) 6 = 2).

Definition devMay (d : Dev) (o : devOp) : Prop :=
  v_rel d = None /\
  match o with
  | Write8 _ _ _ | WriteCommand _ | Map | Unmap | Length | Physical | StartXtalCvRead | ReadXtalData => False
  | Write32 w a _ => w = uploadW /\ uploadAddress32 a = true
  | Write16 w a v =>
      w = uploadW /\
      (a = 0x1038 \/
       (* the doorbell: bus mastering granted and visible, in order *)
       (a = 0x1080 /\ v_on d = Some true /\ v_off d = None /\ Z.land (v_cmd d) 6 = 6 /\ v = v_door d + 1))
  | BusMaster true =>
      (* once, with interrupts safe, the engine stopped and idle, every other
         channel stopped, and no index outstanding *)
      v_on d = None /\ v_off d = None /\ v_irq d = true /\
      Z.land (v_busy d) 0x7f0f03 = 0 /\
      Z.land (v_regs d 0x1000) 0x2800 = 0 /\ Z.land (v_regs d 0x1010) 0x0b0f00 = 0x0b0f00 /\
      Z.land (v_regs d 0x1080) 0x0fff0fff = 0 /\ v_door d = 0
  | ReleaseHook => dmaOff d
  | _ => True
  end.

Definition devNext (d : Dev) (o : devOp) : devAns o -> Dev :=
  match o with
  | Read32 a => fun v =>
      if a =? 0x101c then d <| v_busy := u32 v |>
      else d <| v_regs := fun b => if b =? a then u32 v else v_regs d b |>
  | Write16 _ a v => fun _ => if a =? 0x1080 then d <| v_door := v |> else d
  | Command => fun v => d <| v_cmd := u16 v |>
  | BusMaster true => fun b => d <| v_on := Some b |>
  | BusMaster false => fun b => d <| v_off := Some b |> <| v_offIdle := engineIdle d |>
  | InterruptsSafe => fun b => d <| v_irq := b |>
  | ReleaseHook => fun b => d <| v_rel := Some b |>
  | _ => fun _ => d
  end.

Definition policy : protocol Device Dev := Protocol (Σ:=Device) devMay (fun _ _ _ => True) devNext.

(** ** Steps that leave the essentials alone *)

Definition coreD (d : Dev) :=
  (v_on d, v_off d, v_offIdle d, v_cmd d, v_door d, v_irq d, v_rel d, v_busy d).
Definition coreS (s : PciState) :=
  (ring s, packetsN s, hasHook s, started s, published (dres s), dIdle (dres s), busMasterOff (dres s)).

Definition same (s0 : PciState) (d0 : Dev) (s : PciState) (d : Dev) : Prop :=
  coreS s = coreS s0 /\ coreD d = coreD d0 /\ v_rel d0 = None.

Lemma same_refl s d : v_rel d = None -> same s d s d.
Proof. intros H. repeat split. exact H. Qed.

Lemma same_rel s0 d0 s d : same s0 d0 s d -> v_rel d = None.
Proof. unfold same, coreD. intros (_ & [= _ _ _ _ _ _ -> _] & H). exact H. Qed.

Ltac may_ok := split; [eassumption || (eapply same_rel; eassumption)|first [exact I|auto]].

(** Device steps of a method; calls must be allowed by the policy at once. *)
Ltac pstep :=
  lazymatch goal with
  | |- wpm _ (onPdr _) _ _ _ => apply wpm_modify
  | |- wpm _ (setStage _) _ _ _ => apply wpm_modify
  | |- wpm _ (noteFailure _ _ _) _ _ _ => apply wpm_modify
  | |- wpm _ countWrite _ _ _ => apply wpm_modify
  | |- wpm _ noFailure _ _ _ => apply wpm_gets
  | _ => dev_step ltac:(may_ok)
  end.

Section steps.
Variables (s0 : PciState) (d0 : Dev).

Lemma regs_same a v d : a <> 0x101c -> coreD (devNext d (Read32 a) v) = coreD d.
Proof. intros Ha. simpl. replace (a =? 0x101c) with false by lia. reflexivity. Qed.

Lemma read_same a s d (Q : option Z -> PciState -> Dev -> Prop) :
  same s0 d0 s d -> a <> 0x101c ->
  (forall v d', same s0 d0 s d' -> v_regs d' a = v -> Q (Some v) s d') -> wpm policy (read32 a) s d Q.
Proof.
  intros H Ha HQ. pose proof (same_rel _ _ _ _ H). apply read32_wp; [may_ok|]. intros v _.
  apply HQ.
  - destruct H as (H1 & H2 & H3). split; [exact H1|]. split; [|exact H3].
    simpl. rewrite <- H2. exact (regs_same a v d Ha).
  - simpl. replace (a =? 0x101c) with false by lia. simpl. rewrite Z.eqb_refl. reflexivity.
Qed.

Lemma note_same (f : PciDownloadResult -> PciDownloadResult) s d :
  (forall r, published (f r) = published r /\ dIdle (f r) = dIdle r /\ busMasterOff (f r) = busMasterOff r) ->
  same s0 d0 s d -> same s0 d0 (s <| dres := f (dres s) |>) d.
Proof.
  intros Hf (H1 & H2). split; [|exact H2]. rewrite <- H1. unfold coreS. simpl.
  destruct (Hf (dres s)) as (-> & -> & ->). reflexivity.
Qed.

Lemma noteFailure_same a e v s d : same s0 d0 s d ->
  same s0 d0 (s <| dres := (if failureAddress (dres s) =? 0
     then (dres s) <| failureAddress := a |> <| failureExpected := e |> <| failureActual := v |>
     else dres s) |>) d.
Proof.
  apply (note_same (fun r => if failureAddress r =? 0
     then r <| failureAddress := a |> <| failureExpected := e |> <| failureActual := v |> else r)).
  intros r. destruct (_ =? 0); auto.
Qed.

Lemma equal_same a mask e s d (Q : option bool -> PciState -> Dev -> Prop) :
  same s0 d0 s d -> a <> 0x101c ->
  (forall b s' d', same s0 d0 s' d' -> (b = true -> Z.land (v_regs d' a) mask = e) ->
     (forall a', a' <> a -> v_regs d' a' = v_regs d a') -> Q (Some b) s' d') ->
  wpm policy (equal a mask e) s d Q.
Proof.
  intros H Ha HQ. unfold equal. pstep. pose proof (same_rel _ _ _ _ H). apply read32_wp; [may_ok|].
  intros v _. assert (Hd : same s0 d0 s (devNext d (Read32 a) v)).
  { destruct H as (H1 & H2 & H3). split; [exact H1|]. split; [|exact H3].
    rewrite <- H2. exact (regs_same a v d Ha). }
  assert (Hv : v_regs (devNext d (Read32 a) v) a = u32 v).
  { simpl. replace (a =? 0x101c) with false by lia. simpl. rewrite Z.eqb_refl. reflexivity. }
  assert (Ho : forall a', a' <> a -> v_regs (devNext d (Read32 a) v) a' = v_regs d a').
  { intros a' Ha'. simpl. replace (a =? 0x101c) with false by lia. simpl.
    replace (a' =? a) with false by lia. reflexivity. }
  change (next policy d (Read32 a) v) with (devNext d (Read32 a) v).
  set (d' := devNext _ _ _) in *. clearbody d'.
  pstep.
  - pstep. apply HQ; [exact Hd| |exact Ho]. intros _. rewrite Hv. lia.
  - pstep. pstep. pstep. apply HQ; [|discriminate|exact Ho]. apply noteFailure_same. exact Hd.
Qed.

Lemma count_same s d : same s0 d0 s d ->
  same s0 d0 (s <| dres := (dres s) <| writes := u32 (writes (dres s) + 1) |> |>) d.
Proof. apply (note_same (fun r => r <| writes := u32 (writes r + 1) |>)). auto. Qed.

Lemma w_same a v s d (Q : option bool -> PciState -> Dev -> Prop) :
  same s0 d0 s d -> a <> 0x101c ->
  (forall b s' d', same s0 d0 s' d' -> Q (Some b) s' d') ->
  wpm policy (w a v) s d Q.
Proof.
  intros H Ha HQ. pose proof (same_rel _ _ _ _ H) as Hr. unfold w. pstep. pstep.
  apply count_same in H. set (s1 := s <| dres := _ |>) in *. clearbody s1.
  assert (Hfail : wpm policy (first ← noFailure; when first (actual ← read32 a; noteFailure a v actual)) s1 d
    (fun r s' d' => match r with Some _ => Q (Some false) s' d' | None => Q None s' d' end)).
  { pstep. pstep. pstep; [|pstep; apply HQ; exact H].
    pstep. apply (read_same a s1 d); [exact H|exact Ha|]. intros x d' H' _. pstep.
    apply HQ. exact (noteFailure_same _ _ _ _ _ H'). }
  pstep. pstep. pstep. destruct (uploadAddress32 a) eqn:Hu.
  - refine (dcall_wp policy (Write32 uploadW a v) s1 d _ _ _); [split; [exact Hr|auto]|].
    intros b _. cbn beta iota. change (next policy d (Write32 uploadW a v) b) with d.
    destruct b.
    + pstep. pstep. pstep. apply HQ. exact H.
    + pstep. eapply wpm_mono; [exact Hfail|]. intros [[]|] s' d' H'; [pstep; exact H'|exact H'].
  - pstep. eapply wpm_mono; [exact Hfail|]. intros [[]|] s' d' H'; [pstep; exact H'|exact H'].
Qed.

Lemma w16_same v s d (Q : option bool -> PciState -> Dev -> Prop) :
  same s0 d0 s d ->
  (forall b s' d', same s0 d0 s' d' -> Q (Some b) s' d') ->
  wpm policy (w16 0x1038 v) s d Q.
Proof.
  intros H HQ. pose proof (same_rel _ _ _ _ H) as Hr. unfold w16. pstep. pstep.
  apply count_same in H. set (s1 := s <| dres := _ |>) in *. clearbody s1.
  pstep. pstep. pstep. change (uploadAddress16 4152) with true. cbn beta iota.
  refine (dcall_wp policy (Write16 uploadW 0x1038 v) s1 d _ _ _); [split; [exact Hr|auto]|].
  intros b _. cbn beta iota. change (next policy d (Write16 uploadW 4152 v) b) with d.
  destruct b; pstep.
  - pstep. pstep. apply HQ. exact H.
  - pstep. pstep. pstep; [|pstep; pstep; apply HQ; exact H].
    pstep. pstep. pstep. pstep. apply HQ. exact (noteFailure_same _ _ _ _ _ H).
Qed.

End steps.

(** [poll] of the busy register and of others. *)
Definition keepsCore (out : outField) : Prop :=
  forall v r, published (setOut out v r) = published r /\ dIdle (setOut out v r) = dIdle r /\
              busMasterOff (setOut out v r) = busMasterOff r.

(** Only the busy value may differ. *)
Definition same' (s0 : PciState) (d0 : Dev) (s : PciState) (d : Dev) : Prop :=
  same s0 (d0 <| v_busy := v_busy d |>) s d.

Section polls.
Variables (s0 : PciState) (d0 : Dev).

Lemma same_same' s d : same s0 d0 s d -> same' s0 d0 s d.
Proof.
  intros (H1 & H2 & H3). split; [exact H1|]. split; [|exact H3]. unfold coreD in *. simpl.
  injection H2 as -> -> -> -> -> -> -> _. reflexivity.
Qed.

Lemma same'_note (f : PciDownloadResult -> PciDownloadResult) s d :
  (forall r, published (f r) = published r /\ dIdle (f r) = dIdle r /\ busMasterOff (f r) = busMasterOff r) ->
  same' s0 d0 s d -> same' s0 d0 (s <| dres := f (dres s) |>) d.
Proof. intros Hf H. exact (note_same _ _ f s d Hf H). Qed.

Lemma same'_read a v s d : same' s0 d0 s d ->
  same' s0 d0 s (devNext d (Read32 a) v) /\ (a = 0x101c -> v_busy (devNext d (Read32 a) v) = u32 v) /\
  (a <> 0x101c -> v_busy (devNext d (Read32 a) v) = v_busy d).
Proof.
  intros (H1 & H2 & H3). unfold same', same, coreD in *. simpl in *.
  destruct (Z.eqb_spec a 0x101c); simpl; (split; [|split; [congruence|congruence]]);
    (split; [exact H1|]); (split; [|exact H3]); congruence.
Qed.

Lemma pollFailed_wp a mask e out reason s d (Q : option (option bool) -> PciState -> Dev -> Prop) :
  same' s0 d0 s d ->
  (forall s', same' s0 d0 s' d -> Q (Some (Some false)) s' d) ->
  wpm policy (pollFailed a mask e out reason) s d Q.
Proof.
  intros H HQ. unfold pollFailed. pstep. pstep. pstep. apply HQ.
  apply (same'_note (notePoll a mask e out reason)); [|exact H].
  intros r. unfold notePoll. destruct (pollFailureReason r =? 0); auto.
Qed.

Lemma same'_rel s d : same' s0 d0 s d -> v_rel d = None.
Proof. intros H. exact (same_rel _ _ _ _ H). Qed.
Ltac may_ok' := split; [eapply same'_rel; eassumption|exact I].

Lemma poll_wp a mask e timeout out s d (Q : option bool -> PciState -> Dev -> Prop) :
  same s0 d0 s d -> keepsCore out -> 0 <= timeout ->
  (forall b s' d', same' s0 d0 s' d' -> (a <> 0x101c -> v_busy d' = v_busy d) ->
     (b = true -> a = 0x101c -> Z.land (v_busy d') mask = e) -> Q (Some b) s' d') ->
  wpm policy (poll a mask e timeout out) s d Q.
Proof.
  intros H Hout Ht HQ. unfold poll. pstep. pstep.
  pose (I := fun (i : Z) (s' : PciState) (d' : Dev) =>
    same' s0 d0 s' d' /\ (a <> 0x101c -> v_busy d' = v_busy d)).
  pstep. apply (wpm_for_loop policy I); [pose proof (Z.div_pos timeout 50); lia| | |].
  - split; [apply same_same'; exact H|auto].
  - intros j s1 d1 _ [H1 Hb1]. unfold pollTurn. pstep.
    apply nowUs_wp; [may_ok'|]. intros now _. cbn beta iota. change (next policy d1 NowUs now) with d1.
    pstep; [apply pollFailed_wp; [exact H1|]; intros s2 H2; pstep; apply HQ; [exact H2|exact Hb1|discriminate]|].
    pstep; [apply pollFailed_wp; [exact H1|]; intros s2 H2; pstep; apply HQ; [exact H2|exact Hb1|discriminate]|].
    pstep. apply read32_wp; [may_ok'|]. intros vv _. cbn beta iota.
    destruct (same'_read a vv s1 d1 H1) as (H2 & Hbv & Hbo).
    change (next policy d1 (Read32 a) vv) with (devNext d1 (Read32 a) vv).
    set (d2 := devNext d1 (Read32 a) vv) in *. clearbody d2.
    assert (Hb2 : a <> 0x101c -> v_busy d2 = v_busy d) by (intros Ha; rewrite Hbo, Hb1; auto).
    pstep. pstep. pstep. pstep.
    assert (H3 : same' s0 d0 (s1 <| dres := (setOut out (u32 vv) (dres s1))
        <| dPolls := u32 (dPolls (setOut out (u32 vv) (dres s1)) + 1) |> |>) d2).
    { apply (same'_note (fun r => (setOut out (u32 vv) r) <| dPolls := u32 (dPolls (setOut out (u32 vv) r) + 1) |>));
        [|exact H2]. intros r. exact (Hout (u32 vv) r). }
    set (s3 := s1 <| dres := _ |>) in *.
    match goal with |- wpm _ _ ?s' _ _ => change s' with s3 end. clearbody s3.
    pstep; [apply pollFailed_wp; [exact H3|]; intros s4 H4; pstep; apply HQ; [exact H4|exact Hb2|discriminate]|].
    pstep. apply nowUs_wp; [may_ok'|]. intros after _. cbn beta iota. change (next policy d2 NowUs after) with d2.
    pstep; [apply pollFailed_wp; [exact H3|]; intros s4 H4; pstep; apply HQ; [exact H4|exact Hb2|discriminate]|].
    pstep; [apply pollFailed_wp; [exact H3|]; intros s4 H4; pstep; apply HQ; [exact H4|exact Hb2|discriminate]|].
    pstep.
    + pstep. pstep. apply HQ; [exact H3|exact Hb2|]. intros _ Ha. rewrite Hbv by exact Ha. lia.
    + pstep. refine (dcall_wp policy (PauseUs 50) s3 d2 _ _ _); [may_ok'|]. intros [] _. pstep.
      split; [exact H3|exact Hb2].
  - intros s1 d1 [H1 Hb1]. pstep. apply pollFailed_wp; [exact H1|]. intros s2 H2. pstep.
    apply HQ; [exact H2|exact Hb1|discriminate].
Qed.
End polls.

Lemma same'_same s0 d0 s d : same' s0 d0 s d -> v_busy d = v_busy d0 -> same s0 d0 s d.
Proof.
  intros (H1 & H2 & H3) Hb. split; [exact H1|]. split; [|exact H3].
  rewrite H2. unfold coreD. simpl. rewrite Hb. reflexivity.
Qed.

Lemma same_busy s0 d0 s d : same s0 d0 s d -> v_busy d = v_busy d0.
Proof. unfold same, coreD. intros (_ & H & _). congruence. Qed.

Lemma poll_same s0 d0 a mask e timeout out s d (Q : option bool -> PciState -> Dev -> Prop) :
  same s0 d0 s d -> keepsCore out -> 0 <= timeout -> a <> 0x101c ->
  (forall b s' d', same s0 d0 s' d' -> Q (Some b) s' d') ->
  wpm policy (poll a mask e timeout out) s d Q.
Proof.
  intros H Ho Ht Ha HQ. apply (poll_wp s0 d0); [exact H|exact Ho|exact Ht|].
  intros b s' d' H' Hb _. apply HQ. apply same'_same; [exact H'|].
  rewrite Hb by exact Ha. exact (same_busy _ _ _ _ H).
Qed.

Lemma busyOut_keeps : keepsCore busyOut. Proof. intros v r. auto. Qed.
Lemma controlOut_keeps : keepsCore controlOut. Proof. intros v r. auto. Qed.

(** The stop bits kept while channel 12 runs. *)
Lemma running_stop_bits x v :
  Z.land v 0x1f0f00 = Z.land (Z.ldiff (Z.lor x 0x1f0f00) (Z.lor 0x100000 0x40000)) 0x1f0f00 ->
  Z.land v 0x0b0f00 = 0x0b0f00.
Proof.
  intros H. apply (f_equal (fun z => Z.land z 0x0b0f00)) in H.
  rewrite <- !Z.land_assoc in H. change (Z.land 0x1f0f00 0x0b0f00) with 0x0b0f00 in H. rewrite H.
  apply Z.bits_inj'. intros n Hn. rewrite Z.land_spec, Z.ldiff_spec, Z.lor_spec.
  assert (Hc : Z.testbit 0x0b0f00 n = true -> Z.testbit 0x1f0f00 n = true /\
               Z.testbit (Z.lor 0x100000 0x40000) n = false).
  { assert (H1 : Z.land 0x0b0f00 0x1f0f00 = 0x0b0f00) by reflexivity.
    assert (H2 : Z.land 0x0b0f00 (Z.lor 0x100000 0x40000) = 0) by reflexivity.
    apply (f_equal (fun z => Z.testbit z n)) in H1, H2. rewrite Z.land_spec in H1, H2.
    rewrite Z.bits_0 in H2. intros Ht. rewrite Ht in H1, H2. simpl in *. auto. }
  destruct (Z.testbit 0x0b0f00 n) eqn:E.
  - destruct (Hc eq_refl) as [-> ->]. rewrite orb_true_r. reflexivity.
  - rewrite andb_false_r. reflexivity.
Qed.

(** Walk a method, keeping one [same] fact up to date. *)
Ltac walk1 :=
  lazymatch goal with
  | H : same ?s0 ?d0 ?s ?d |- wpm _ (w ?a ?v) ?s ?d _ =>
      apply (w_same s0 d0 a v s d); [exact H|discriminate|clear H; intros [|] ? ? H; cbn beta iota]
  | H : same ?s0 ?d0 ?s ?d |- wpm _ (w16 0x1038 ?v) ?s ?d _ =>
      apply (w16_same s0 d0 v s d); [exact H|clear H; intros [|] ? ? H; cbn beta iota]
  | H : same ?s0 ?d0 ?s ?d |- wpm _ (equal ?a ?m ?e) ?s ?d _ =>
      apply (equal_same s0 d0 a m e s d); [exact H|discriminate|clear H; intros [|] ? ? H ? ?; cbn beta iota]
  | H : same ?s0 ?d0 ?s ?d |- wpm _ (read32 ?a) ?s ?d _ =>
      apply (read_same s0 d0 a s d); [exact H|discriminate|clear H; intros ? ? H ?; cbn beta iota]
  | H : same ?s0 ?d0 ?s ?d |- wpm _ (poll 0x1000 ?m ?e ?t ?o) ?s ?d _ =>
      apply (poll_same s0 d0 0x1000 m e t o s d);
        [exact H|exact controlOut_keeps|lia|discriminate|clear H; intros [|] ? ? H; cbn beta iota]
  | H : same ?s0 ?d0 ?s ?d |- wpm _ (read16 ?a) ?s ?d _ =>
      apply read16_wp; [may_ok|intros ? _; cbn beta iota; change (next policy d (Read16 a) _) with d]
  | |- (if ?b then _ else _) => destruct b eqn:?
  | |- match ?b with true => _ | false => _ end => destruct b eqn:?
  | H : same ?s0 ?d0 ?s ?d |- wpm _ (onPdr ?f) ?s ?d _ =>
      apply wpm_modify; apply (note_same s0 d0 f s d (fun _ => conj eq_refl (conj eq_refl eq_refl))) in H;
      let s' := fresh "s" in set (s' := s <| dres := _ |>) in *; clearbody s'; cbn beta iota
  | H : same ?s0 ?d0 ?s ?d |- wpm _ (setStage ?n) ?s ?d _ => unfold setStage
  | _ => pstep
  end.
Ltac walk := repeat walk1.

(** Find a fact about a register, across later reads of other registers. *)
Ltac look :=
  first
    [ assumption
    | eapply running_stop_bits; eassumption
    | match goal with
      | H : forall a', _ -> v_regs ?d a' = _ |- context [v_regs ?d ?a] =>
          rewrite (H a) by discriminate; look
      end ].

Section start.
Variables (s0 : PciState) (d0 : Dev).

(** The result of a stage: the essentials are unchanged on every exit. *)
Lemma configureRing_wp s d (Q : option unit -> PciState -> Dev -> Prop) :
  same s0 d0 s d -> (forall r s' d', same s0 d0 s' d' -> Q r s' d') -> wpm policy configureRing s d Q.
Proof. intros H HQ. unfold configureRing. walk; try (apply HQ; exact H). Qed.

Lemma resetEngine_wp s d (Q : option unit -> PciState -> Dev -> Prop) :
  same s0 d0 s d ->
  (forall r s' d', same s0 d0 s' d' ->
     (r = Some tt -> Z.land (v_regs d' 0x1000) 0x2800 = 0 /\
                     Z.land (v_regs d' 0x1010) 0x0b0f00 = 0x0b0f00 /\
                     Z.land (v_regs d' 0x1080) 0x0fff0fff = 0) -> Q r s' d') ->
  wpm policy resetEngine s d Q.
Proof.
  intros H HQ. unfold resetEngine. walk; try (apply HQ; [exact H|discriminate]).
  apply HQ; [exact H|]. intros _.
  repeat match goal with Hm : true = true -> _ |- _ => specialize (Hm eq_refl) end.
  repeat split; look.
Qed.
End start.

Lemma same'_base s0 d0 s d : same' s0 d0 s d -> v_rel d0 = None.
Proof. intros (_ & _ & H). exact H. Qed.

Lemma addressAt_snapshot i : 0 <= i < 13 -> addressAt i <> 0x101c.
Proof.
  intros H. z_cases i 0 13; discriminate.
Qed.

Lemma takeSnapshot_wp s0 d0 s d (Q : option unit -> PciState -> Dev -> Prop) :
  same' s0 d0 s d -> (forall r s' d', same' s0 d0 s' d' -> Q r s' d') ->
  wpm policy takeSnapshot s d Q.
Proof.
  intros H HQ. unfold takeSnapshot. pstep.
  apply (wpm_for_each policy (fun _ s' d' => same' s0 d0 s' d')); [lia|exact H| |].
  - intros j s1 d1 _ H1. pstep. apply read32_wp; [split; [exact (same'_rel _ _ _ _ H1)|exact I]|].
    intros v _. destruct (same'_read s0 d0 (addressAt j) v s1 d1 H1) as [H2 _].
    change (next policy d1 (Read32 (addressAt j)) v) with (devNext d1 (Read32 (addressAt j)) v).
    set (d2 := devNext _ _ _) in *. clearbody d2. cbn beta iota. pstep. pstep. pstep.
    + pstep. pstep. pstep. apply HQ.
      apply (same'_note s0 d0 (fun r => r <| gateCode := 3 |> <| failureAddress := addressAt j |> <| failureActual := u32 v |>)
               _ d2); [auto|exact H2].
    + pstep. exact H2.
  - intros s1 d1 H1. pstep. apply read16_wp; [split; [exact (same'_rel _ _ _ _ H1)|exact I]|].
    intros c _. change (next policy d1 (Read16 4152) c) with d1. cbn beta iota.
    pstep. pstep. pstep. pstep. pstep.
    set (s2 := s1 <| savedCount := u16 c |>). change (same' s0 d0 s2 d1) in H1. clearbody s2.
    assert (Hend : forall (b : bool) d', same' s0 d0 s2 d' ->
      wpm policy ((if b then gateFail 4 else mret tt);; modify (fun s => s <| snapshot := true |>)) s2 d' Q).
    { intros b d' H'. pstep. pstep.
      - unfold gateFail. pstep. pstep. pstep. apply HQ.
        apply (same'_note s0 d0 (fun r => r <| gateCode := 4 |>) _ d'); [auto|exact H'].
      - pstep. pstep. apply HQ. exact H'. }
    unfold readIndex. pstep.
    apply wpm_mono with (Q := fun r s' d' => exists b, r = Some b /\ s' = s2 /\ same' s0 d0 s' d').
    + pstep. pstep. destruct (_ || _ || _); [eexists; auto|].
      pstep. apply read32_wp; [split; [exact (same'_rel _ _ _ _ H1)|exact I]|].
      intros v _. destruct (same'_read s0 d0 0x1080 v s2 d1 H1) as [H2 _]. cbn beta iota.
      pstep. destruct (flag (u32 v) 268374015); (eexists; split; [reflexivity|split; [reflexivity|exact H2]]).
    + intros r s' d' (b & -> & -> & H'). destruct b; [exact (Hend true d' H')|pstep; exact (Hend _ d' H')].
Qed.

Lemma stopEngine_wp s0 d0 s d (Q : option unit -> PciState -> Dev -> Prop) :
  same' s0 d0 s d ->
  (forall r s' d', same' s0 d0 s' d' -> (r = Some tt -> Z.land (v_busy d') 0x7f0f03 = 0) -> Q r s' d') ->
  wpm policy stopEngine s d Q.
Proof.
  intros H' HQ. pose proof H' as H. unfold stopEngine, same' in H.
  set (d1 := d0 <| v_busy := v_busy d |>) in *.
  assert (Hd1 : forall s2 d2, same s0 d1 s2 d2 -> same' s0 d0 s2 d2).
  { intros s2 d2 Hs. pose proof (same_busy _ _ _ _ Hs) as Hb. destruct Hs as (A & B & C).
    split; [exact A|]. split; [|exact C]. rewrite B, Hb. reflexivity. }
  clearbody d1. unfold stopEngine. walk; try (apply HQ; [apply Hd1; exact H|discriminate]).
  apply (poll_wp s0 d1); [exact H|exact busyOut_keeps|lia|].
  intros b s2 d2 H2 _ Hb. clear H. cbn beta iota.
  assert (Hd2 : forall s3 d3, same s0 (d1 <| v_busy := v_busy d2 |>) s3 d3 ->
    same' s0 d0 s3 d3 /\ v_busy d3 = v_busy d2).
  { intros s3 d3 Hs. pose proof (same_busy _ _ _ _ Hs) as Hb3. simpl in Hb3. split; [|exact Hb3].
    assert (Hrel : same s0 d1 s0 d1) by (repeat split; apply Hs).
    specialize (Hd1 _ _ Hrel). destruct Hd1 as (_ & Hc & Hr). destruct Hs as (A & B & C).
    split; [exact A|]. split; [|exact Hr]. rewrite B, Hb3. unfold coreD in *. simpl in *.
    injection Hc as -> -> -> -> -> -> ->. reflexivity. }
  unfold same' in H2. set (d1' := d1 <| v_busy := v_busy d2 |>) in *. clearbody d1'.
  assert (Hres : forall s3 d3, same s0 d1' s3 d3 -> b = true -> Z.land (v_busy d3) 0x7f0f03 = 0).
  { intros s3 d3 Hs Hbt. rewrite (proj2 (Hd2 _ _ Hs)). apply Hb; [exact Hbt|reflexivity]. }
  destruct b; walk; try (apply HQ; [apply (Hd2 _ _ H2)|discriminate]);
    try (apply HQ; [match goal with Hs : same s0 d1' ?s ?d |- same' _ _ ?s ?d => exact (proj1 (Hd2 _ _ Hs)) end|];
         try discriminate; intros _; eapply Hres; [eassumption|reflexivity]).
Qed.

(** ** The methods against the policy *)

(** Before any DMA. *)
Definition fresh (s : PciState) (d : Dev) : Prop :=
  v_rel d = None /\ v_on d = None /\ v_off d = None /\ v_door d = 0 /\ started s = false /\
  published (dres s) = 0 /\ dIdle (dres s) = false.

(** How [startDownload] leaves things. *)
Definition startedOr (s0 s : PciState) (d : Dev) (b : bool) : Prop :=
  ring s = ring s0 /\ packetsN s = packetsN s0 /\ hasHook s = hasHook s0 /\
  v_rel d = None /\ v_off d = None /\ v_door d = 0 /\ published (dres s) = 0 /\
  dIdle (dres s) = false /\ (started s = false -> v_on d = None) /\
  (b = true -> v_on d = Some true /\ started s = true).

Lemma fresh_startedOr s d : fresh s d -> startedOr s s d false.
Proof. unfold fresh, startedOr. intuition congruence. Qed.

Lemma same'_startedOr s0 d0 s d : fresh s0 d0 -> same' s0 d0 s d -> startedOr s0 s d false.
Proof.
  intros (F1 & F2 & F3 & F4 & F5 & F6 & F7) (A & B & C). unfold coreS, coreD in *. simpl in *.
  injection A as A1 A2 A3 A4 A5 A6 _. injection B as B1 B2 B3 B4 B5 B6 B7. unfold startedOr.
  repeat split; try congruence; try discriminate.
Qed.

Lemma startDownload_wp s d (Q : option bool -> PciState -> Dev -> Prop) :
  fresh s d -> (forall b s' d', startedOr s s' d' b -> Q (Some b) s' d') ->
  wpm policy startDownload s d Q.
Proof.
  intros HF HQ. pose proof HF as (F1 & F2 & F3 & F4 & F5 & F6 & F7).
  unfold startDownload. pstep. pstep. pstep.
  set (s1 := s <| dres := _ |>). assert (HF1 : fresh s1 d) by exact HF.
  assert (HQ1 : forall b s' d', startedOr s1 s' d' b -> Q (Some b) s' d') by exact HQ.
  clearbody s1. clear HQ HF. rename HQ1 into HQ.
  assert (Hgate : forall n s2 d2, startedOr s1 s2 d2 false -> wpm policy (gateFail (A:=unit) n) s2 d2
    (fun r s' d' => match r with Some _ => False | None => Q (Some false) s' d' end)).
  { intros n s2 d2 H. unfold gateFail. pstep. pstep. pstep. apply HQ. exact H. }
  unfold memoryOnly. pstep. pstep. apply command_wp; [split; [exact F1|exact I]|]. intros c _. cbn beta iota.
  pstep. set (d1 := next policy d Command c). assert (HF2 : fresh s1 d1) by exact HF1. clearbody d1.
  clear F1 F2 F3 F4 F5 F6 F7. pstep. pstep.
  2: { eapply wpm_mono; [apply Hgate; apply fresh_startedOr; exact HF2|]. intros [[]|] s' d' H; [contradiction|exact H]. }
  pstep. pstep. refine (dcall_wp policy InterruptsSafe s1 d1 _ _ _); [split; [apply HF2|exact I]|].
  intros irq _. cbn beta iota. set (d2 := next policy d1 InterruptsSafe irq).
  assert (HF3 : fresh s1 d2) by exact HF2. assert (Hirq : v_irq d2 = irq) by reflexivity. clearbody d2.
  pstep. destruct irq.
  2: { eapply wpm_mono; [apply Hgate; apply fresh_startedOr; exact HF3|]. intros [[]|] s' d' H; [contradiction|exact H]. }
  pstep. pstep. apply (takeSnapshot_wp s1 d2); [apply same_same', same_refl, HF3|].
  intros r s3 d3 H3. destruct r as [[]|]; [|apply HQ, same'_startedOr with (d0 := d2); assumption].
  pstep. apply (stopEngine_wp s1 d2); [exact H3|].
  intros r s4 d4 H4 Hb4. destruct r as [[]|]; [|apply HQ, same'_startedOr with (d0 := d2); assumption].
  specialize (Hb4 eq_refl). pstep. unfold same' in H4.
  set (d2' := d2 <| v_busy := v_busy d4 |>) in *.
  assert (HF4 : fresh s1 d2') by exact HF3. assert (Hbusy : Z.land (v_busy d2') 0x7f0f03 = 0) by exact Hb4.
  assert (Hirq' : v_irq d2' = true) by exact Hirq. clearbody d2'.
  apply (configureRing_wp s1 d2'); [exact H4|]. intros r s5 d5 H5.
  destruct r as [[]|]; [|apply HQ, same'_startedOr with (d0 := d2'); [assumption|apply same_same'; assumption]].
  pstep. apply (resetEngine_wp s1 d2'); [exact H5|]. intros r s6 d6 H6 Hr.
  destruct r as [[]|]; [|apply HQ, same'_startedOr with (d0 := d2'); [assumption|apply same_same'; assumption]].
  specialize (Hr eq_refl). unfold enableEngine. pstep. pstep. pstep. pstep. pstep. pstep. pstep. pstep.
  pose proof HF4 as (F1 & F2 & F3 & F4 & F5 & F6 & F7).
  pose proof H6 as (A & B & C). unfold coreS, coreD in A, B. simpl in A.
  injection A as A1 A2 A3 A4 A5 A6 A7. injection B as B1 B2 B3 B4 B5 B6 B7 B8.
  match goal with |- wpm _ _ ?s' _ _ => set (s7 := s') end.
  refine (dcall_wp policy (BusMaster true) s7 d6 _ _ _).
  { split; [congruence|]. repeat split; try congruence; try apply Hr. }
  intros b _. cbn beta iota. set (d7 := next policy d6 (BusMaster true) b).
  assert (Hbase : forall s8 d8 b', same s7 d7 s8 d8 -> (b' = true -> b = true) -> startedOr s1 s8 d8 b').
  { intros s8 d8 b' (A' & B' & C') Hb. unfold coreS, coreD, s7, d7 in A', B'. simpl in A', B'.
    injection A' as E1 E2 E3 E4 E5 E6 E7. injection B' as G1 G2 G3 G4 G5 G6 G7 G8.
    unfold startedOr. repeat split; try congruence; rewrite G1; f_equal; auto. }
  assert (H7 : same s7 d7 s7 d7) by (apply same_refl; unfold d7; simpl; congruence).
  destruct b; [|apply HQ; apply Hbase; [exact H7|auto]].
  clearbody s7 d7. clear - H7 Hbase HQ.
  assert (H : same s7 d7 s7 d7) by exact H7.
  walk; apply HQ; (apply Hbase; [|auto]); try exact H.
Qed.

(** ** The refinement relation *)

Record related (g : Ledger) (s : PciState) (d : Dev) : Prop := {
  rel_hook : forall b, v_rel d = Some b -> l_rel g = Some b;
  rel_freed : l_rel g = Some true -> v_rel d = Some true;
  rel_fresh : l_start g = None -> v_on d = None /\ started s = false /\ v_door d = 0 /\ published (dres s) = 0;
  rel_started : started s = false -> v_on d = None;
  rel_live : l_quiet g = None -> dIdle (dres s) = false /\ v_off d = None;
  rel_on : l_quiet g = None -> l_start g = Some true -> v_on d = Some true /\ started s = true;
  rel_pub : l_quiet g = None -> l_refused g = false -> published (dres s) = l_pub g /\ v_door d = l_pub g;
  rel_count : 0 <= l_pub g;
  rel_prep : l_quiet g = None -> l_prep g = Some true -> packetsN s < 256;
  rel_idle : dIdle (dres s) && busMasterOff (dres s) = true -> dmaOff d;
  rel_quiet : l_quiet g = Some true -> dmaOff d;
  rel_safe : v_rel d <> None -> dmaOff d;
  rel_door : l_refused g = false -> v_door d = l_pub g
}.

Lemma rel_none g s d : related g s d -> l_rel g = None -> v_rel d = None.
Proof. intros H Hg. destruct (v_rel d) eqn:E; [|reflexivity]. apply (rel_hook _ _ _ H) in E. congruence. Qed.

Lemma same_related g s d s' d' : related g s d -> same s d s' d' -> related g s' d'.
Proof.
  intros H (A & B & C). unfold coreS, coreD in *.
  injection A as A1 A2 A3 A4 A5 A6 A7. injection B as B1 B2 B3 B4 B5 B6 B7 B8.
  destruct H. split; unfold dmaOff in *; rewrite ?A1, ?A2, ?A4, ?A5, ?A6, ?A7, ?B1, ?B2, ?B3, ?B4, ?B5, ?B7; assumption.
Qed.

(** A method that changes nothing the relation looks at. *)
Lemma read_method {A} (m : P A) def g s d Q :
  (forall Q, (forall a s' d', same s d s' d' -> Q (Some a) s' d') -> wpm policy m s d Q) ->
  related g s d -> (forall a s' d', related g s' d' -> Q (a, s') d') ->
  wp policy (method m def s) d Q.
Proof.
  intros Hm H HQ. unfold method. apply wp_bind.
  apply (Hm (fun r s' d' => wp policy (Ret (default def r, s')) d' Q)).
  intros a s' d' Hs. apply HQ. exact (same_related _ _ _ _ _ H Hs).
Qed.

Lemma publish_wp g k n s d (Q : option bool -> PciState -> Dev -> Prop) :
  related g s d -> backendMay n g (BPublish k) -> l_prep g = Some true ->
  (forall b s' d', related (backendNext g (BPublish k) b) s' d' -> Q (Some b) s' d') ->
  wpm policy (publish k) s d Q.
Proof.
  intros H (Hrel & Hst & Hq & Hrf & Hk & Hkn & _) Hp HQ. pose proof (rel_none _ _ _ H Hrel) as Hr.
  destruct (rel_on _ _ _ H Hq Hst) as [Hon Hsd]. destruct (rel_pub _ _ _ H Hq Hrf) as [Hpub Hdoor].
  pose proof (rel_count _ _ _ H) as Hc. pose proof (rel_prep _ _ _ H Hq Hp) as Hn.
  destruct (rel_live _ _ _ H Hq) as [Hidle Hoff].
  assert (Hfail : forall s' d', v_on d' = v_on d -> v_off d' = v_off d -> v_rel d' = v_rel d ->
    started s' = started s -> packetsN s' = packetsN s -> dIdle (dres s') = dIdle (dres s) ->
    related (backendNext g (BPublish k) false) s' d').
  { intros s' d' E1 E2 E3 E4 E5 E6. destruct H. split; simpl; rewrite ?E1, ?E2, ?E3, ?E4, ?E5, ?E6; try assumption;
      intros; try congruence; try tauto; try (rewrite E3 in *; congruence).
    rewrite Hidle in *. discriminate. }
  unfold publish. pstep. pstep. pstep. pstep. pstep. pstep. pstep. rewrite Hsd.
  pstep. pstep. apply command_wp; [split; [exact Hr|exact I]|]. intros c _. cbn beta iota.
  pstep. destruct (Z.eqb_spec (Z.land (u16 c) 6) 6) as [Hcmd|]; [|apply HQ, Hfail; reflexivity].
  pstep. destruct (_ && _) eqn:Hg; [|apply HQ, Hfail; reflexivity].
  pstep. pstep. pstep. set (s1 := s <| dres := _ |>). set (d1 := next policy d Command c).
  refine (dcall_wp policy Barrier s1 d1 _ _ _); [split; [exact Hr|exact I]|]. intros [] _. cbn beta iota.
  change (next policy d1 Barrier ()) with d1. pstep. pstep. unfold w16. pstep. pstep. pstep. pstep. pstep.
  change (uploadAddress16 4224) with true. cbn beta iota.
  assert (Hu : u16 k = v_door d1 + 1).
  { rewrite u16_small by zlia. change (v_door d1) with (v_door d). lia. }
  set (s2 := s1 <| dres := _ |>).
  refine (dcall_wp policy (Write16 uploadW 0x1080 (u16 k)) s2 d1 _ _ _).
  { split; [exact Hr|]. split; [reflexivity|]. right. split; [reflexivity|]. split; [exact Hon|].
    split; [exact Hoff|]. split; [exact Hcmd|exact Hu]. }
  intros b _. cbn beta iota. set (d2 := next policy d1 (Write16 uploadW 0x1080 (u16 k)) b).
  assert (Hr2 : v_rel d2 = None) by exact Hr.
  destruct b.
  - pstep. pstep. pstep. pstep. unfold readIndex.
    apply (read_same s2 d2 0x1080 s2 d2); [apply same_refl; exact Hr2|discriminate|].
    intros v d3 (_ & B & _) _. unfold coreD in B. injection B as B1 B2 B3 B4 B5 B6 B7 B8.
    pstep. pstep. pstep. pstep; [apply HQ, Hfail; simpl; congruence|].
    pstep. pstep. apply HQ. destruct H. split; unfold dmaOff in *; simpl; rewrite ?B1, ?B2, ?B3, ?B4, ?B5, ?B7; simpl;
      try assumption; intros; try congruence; try tauto; try lia.
    + split; [reflexivity|]. apply u16_small. zlia.
    + unfold s2, s1 in *; simpl in *. rewrite Hidle in *. discriminate.
    + apply u16_small. zlia.
  - pstep. pstep. pstep. pstep.
    + pstep. unfold s2. pstep. pstep. pstep. apply HQ, Hfail; simpl; try reflexivity.
      * destruct (_ =? 0); reflexivity.
    + pstep. pstep. apply HQ, Hfail; reflexivity.
Qed.

Lemma all_of_same s0 d0 lo hi (body : Z -> P bool) ok s d (Q : option bool -> PciState -> Dev -> Prop) :
  same s0 d0 s d ->
  (forall i s d Q, lo <= i < hi -> same s0 d0 s d ->
     (forall b s' d', same s0 d0 s' d' -> Q (Some b) s' d') -> wpm policy (body i) s d Q) ->
  (forall b s' d', same s0 d0 s' d' -> Q (Some b) s' d') ->
  wpm policy (all_of lo hi body ok) s d Q.
Proof.
  intros H Hb HQ. unfold all_of.
  remember (Z.to_nat (hi - lo)) as k eqn:Hk. remember lo as i eqn:Hi.
  assert (Hle : lo <= i /\ i + Z.of_nat k <= Z.max i hi) by lia. clear Hk.
  assert (Hbody : forall j s d Q, i <= j < Z.max i hi -> same s0 d0 s d ->
     (forall b s' d', same s0 d0 s' d' -> Q (Some b) s' d') -> wpm policy (body j) s d Q).
  { intros j s1 d1 Q1 Hj. apply Hb. lia. }
  clear Hb. revert Hle Hbody. generalize (Z.max i hi). intros top Hle Hbody.
  assert (Hstart : forall j s d Q, i <= j < top -> same s0 d0 s d ->
     (forall b s' d', same s0 d0 s' d' -> Q (Some b) s' d') -> wpm policy (body j) s d Q) by exact Hbody.
  clear Hbody. destruct Hle as [_ Hle]. clear Hi.
  revert i ok s d H Hle Hstart. induction k as [|k IH]; intros i ok s d H Hle Hstart.
  - pstep. apply HQ. exact H.
  - pstep. apply Hstart; [lia|exact H|]. intros b s1 d1 H1. apply IH; [exact H1|lia|].
    intros j s2 d2 Q2 Hj. apply Hstart. lia.
Qed.

Lemma restoreRegisters_wp s0 d0 ok s d (Q : option bool -> PciState -> Dev -> Prop) :
  same s0 d0 s d -> (forall b s' d', same s0 d0 s' d' -> Q (Some b) s' d') ->
  wpm policy (restoreRegisters ok) s d Q.
Proof.
  intros H HQ. unfold restoreRegisters. pstep. pstep. pstep.
  assert (Hw : forall (v : Z -> Z) i s d Q, 0 <= i < 13 -> same s0 d0 s d ->
    (forall b s' d', same s0 d0 s' d' -> Q (Some b) s' d') -> wpm policy (w (addressAt i) (v i)) s d Q).
  { intros v i s1 d1 Q1 Hi H1 HQ1. apply (w_same s0 d0); [exact H1|apply addressAt_snapshot; exact Hi|exact HQ1]. }
  assert (He : forall (v : Z -> Z) i s d Q, 0 <= i < 13 -> same s0 d0 s d ->
    (forall b s' d', same s0 d0 s' d' -> Q (Some b) s' d') ->
    wpm policy (equal (addressAt i) 0xffffffff (v i)) s d Q).
  { intros v i s1 d1 Q1 Hi H1 HQ1. apply (equal_same s0 d0); [exact H1|apply addressAt_snapshot; exact Hi|].
    intros b s2 d2 H2 _ _. apply HQ1, H2. }
  apply (all_of_same s0 d0); [exact H|intros i s1 d1 Q1 Hi; apply (Hw (fun _ => 0)); lia|].
  clear H. intros ok1 s1 d1 H. pstep.
  apply (all_of_same s0 d0); [exact H|intros i s2 d2 Q2 Hi; apply (He (fun _ => 0)); lia|].
  clear H. intros ok2 s2 d2 H. pstep.
  assert (Hrest : forall clear s3 d3, same s0 d0 s3 d3 -> wpm policy
    (ok ← all_of 1 10 (λ i : Z, w (addressAt i) (savedAt s i)) (clear && ok2);
     n ← w16 0x1038 (savedCount s); i ← w 0x1000 (savedAt s 0);
     ok ← all_of 0 10 (λ i : Z, equal (addressAt i) 0xffffffff (savedAt s i)) (i && (n && ok));
     c ← read16 0x1038; mret ((c =? savedCount s) && ok)) s3 d3 Q).
  { intros clear s3 d3 H3. pstep.
    apply (all_of_same s0 d0); [exact H3|intros i s4 d4 Q4 Hi; apply (Hw (savedAt s)); lia|].
    intros ok4 s4 d4 H4. pstep. apply (w16_same s0 d0); [exact H4|]. intros b5 s5 d5 H5. pstep.
    apply (w_same s0 d0); [exact H5|discriminate|]. intros b6 s6 d6 H6. pstep.
    apply (all_of_same s0 d0); [exact H6|intros i s7 d7 Q7 Hi; apply (He (savedAt s)); lia|].
    intros b7 s7 d7 H7. pstep. apply read16_wp; [may_ok|]. intros c _. cbn beta iota.
    pstep. apply HQ. exact H7. }
  pstep. walk1; [walk1|]; apply Hrest; exact H.
Qed.


(** What [quiesceAndProveIdle] leaves: the proof of idleness, when claimed. *)
Record quieted (s d0s : PciState) (door : Z) (d : Dev) : Prop := {
  qt_rel : v_rel d = None;
  qt_started : started s = started d0s;
  qt_door : v_door d = door;
  qt_safe : dIdle (dres s) && busMasterOff (dres s) = true -> dmaOff d
}.

(** Only the engine proof and the busy value may have changed. *)
Definition engineStep (s0 : PciState) (d0 : Dev) (s : PciState) (d : Dev) : Prop :=
  v_rel d = None /\ (v_on d = v_on d0 /\ v_door d = v_door d0) /\ started s = started s0 /\
  (dIdle (dres s) = true -> started s = true -> engineIdle d = true).

Lemma same_engine s0 d0 s d : same s0 d0 s d ->
  v_rel d = None /\ (v_on d = v_on d0 /\ v_door d = v_door d0) /\ started s = started s0.
Proof.
  intros (A & B & C). unfold coreS, coreD in *. injection A as A1 A2 A3 A4 A5 A6 A7.
  injection B as B1 B2 B3 B4 B5 B6 B7 B8. repeat split; congruence.
Qed.

Lemma quiesceEngine_wp s d (Q : option bool -> PciState -> Dev -> Prop) :
  v_rel d = None ->
  (forall b s' d', engineStep s d s' d' -> Q (Some b) s' d') ->
  wpm policy quiesceEngine s d Q.
Proof.
  intros Hr HQ. unfold quiesceEngine. assert (H : same s d s d) by (apply same_refl; exact Hr).
  pstep. walk1. pstep. walk1. pstep. walk1. pstep.
  repeat match goal with E : v_regs _ _ = _ |- _ => clear E end.
  assert (Hrest : forall (b1 b2 b3 : bool) s1 d1, same s d s1 d1 ->
    wpm policy (i ← (poll 0x101c 0x7f0f03 0 10000 busyOut &&> equal 0x1000 0x2800 0 &&> equal 0x8380 3 0);
      onPdr (fun r => r <| dIdle := i |>);; mret (b1 && b2 && b3)) s1 d1 Q).
  { intros b1 b2 b3 s1 d1 H1.
    assert (Hend : forall (i : bool) s2 d2, v_rel d2 = None /\ (v_on d2 = v_on d /\ v_door d2 = v_door d) /\ started s2 = started s ->
      (i = true -> engineIdle d2 = true) ->
      wpm policy (onPdr (fun r => r <| dIdle := i |>);; mret (b1 && b2 && b3)) s2 d2 Q).
    { intros i s2 d2 (E1 & (E2 & E2') & E3) Hi. pstep. pstep. pstep. apply HQ. repeat split; auto. }
    pstep. pstep. apply (poll_wp s d); [exact H1|exact busyOut_keeps|lia|].
    intros b s2 d2 H2 _ Hb. cbn beta iota. unfold same' in H2.
    set (dd := d <| v_busy := v_busy d2 |>) in *. assert (Hd' : v_on dd = v_on d) by reflexivity. assert (Hd2 : v_door dd = v_door d) by reflexivity.
    assert (Hbusy : v_busy dd = v_busy d2) by reflexivity. clearbody dd.
    destruct b; [|apply Hend; [rewrite <- Hd', <- Hd2; exact (same_engine _ _ _ _ H2)|discriminate]].
    specialize (Hb eq_refl eq_refl). clear H H1. rename H2 into H. rewrite <- Hbusy in Hb.
    pstep. walk1; [|apply Hend; [rewrite <- Hd', <- Hd2; exact (same_engine _ _ _ _ H)|discriminate]].
    walk1; [|apply Hend; [rewrite <- Hd', <- Hd2; exact (same_engine _ _ _ _ H)|discriminate]].
    apply Hend; [rewrite <- Hd', <- Hd2; exact (same_engine _ _ _ _ H)|]. intros _. unfold engineIdle.
    pose proof (same_busy _ _ _ _ H) as Hb'. rewrite Hb', Hb.
    repeat match goal with Hm : true = true -> _ |- _ => specialize (Hm eq_refl) end.
    match goal with |- context [v_regs ?d3 0x1000] =>
      replace (Z.land (v_regs d3 0x1000) 0x2800) with 0 by (symmetry; look);
      replace (Z.land (v_regs d3 0x8380) 3) with 0 by (symmetry; look) end.
    reflexivity. }
  assert (Hgate : forall (c : bool) a v s1 d1 (Q' : option bool -> PciState -> Dev -> Prop),
    a <> 0x101c -> same s d s1 d1 -> (forall b s2 d2, same s d s2 d2 -> Q' (Some b) s2 d2) ->
    wpm policy (mret c &&> w a v) s1 d1 Q').
  { intros c a vv s1 d1 Q' Ha H1 HK. pstep. pstep. destruct c; [|apply HK; exact H1].
    apply (w_same s d); [exact H1|exact Ha|exact HK]. }
  apply Hgate; [discriminate|exact H|]. intros b1 s1 d1 H1. pstep.
  apply Hgate; [discriminate|exact H1|]. intros b2 s2 d2 H2'. pstep.
  apply Hgate; [discriminate|exact H2'|]. intros b3 s3 d3 H3'. apply Hrest. exact H3'.
Qed.

Lemma quiesce_wp s d (Q : option bool -> PciState -> Dev -> Prop) :
  v_rel d = None -> (started s = false -> v_on d = None) ->
  (forall b s' d', quieted s' s (v_door d) d' -> (started s' = false -> v_on d' = None) ->
     (b = true -> dIdle (dres s') && busMasterOff (dres s') = true) -> Q (Some b) s' d') ->
  wpm policy quiesceAndProveIdle s d Q.
Proof.
  intros Hr Hon HQ. unfold quiesceAndProveIdle. pstep. pstep. pstep.
  assert (Hrest : forall (ok0 : bool) s1 d1, engineStep s d s1 d1 -> wpm policy
    (bm ← (dcall (BusMaster false) &&> memoryOnly);
     onPdr (fun r => r <| busMasterOff := bm |>);;
     r ← gets dres;
     (if negb (dIdle r) || negb bm then brk else mret tt);;
     ok ← (if snapshot s then restoreRegisters ok0 else mret ok0);
     onPdr (fun r => r <| restored := ok |>);;
     must (mret ok)) s1 d1
     (fun r s' d' => Q (Some (match r with Some _ => true | None => false end)) s' d')).
  { intros ok0 s1 d1 (E1 & (E2 & E2') & E3 & E4). pstep. pstep.
    refine (dcall_wp policy (BusMaster false) s1 d1 _ _ _); [split; [exact E1|exact I]|].
    intros b _. cbn beta iota. set (d2 := next policy d1 (BusMaster false) b).
    assert (Hout : forall s2 d3 (bm : bool), started s2 = started s1 -> dIdle (dres s2) = dIdle (dres s1) ->
      coreD d3 = coreD (d2 <| v_cmd := v_cmd d3 |>) -> busMasterOff (dres s2) = bm ->
      (bm = true -> b = true /\ Z.land (v_cmd d3) 6 = 2) ->
      quieted s2 s (v_door d) d3 /\ (started s2 = false -> v_on d3 = None)).
    { intros s2 d3 bm S1 S2 D1 S3 Hbm. unfold coreD in D1. simpl in D1.
      injection D1 as D1 D2 D3 D4 D5 D6 D7.
      assert (Hon3 : started s2 = false -> v_on d3 = None) by (rewrite S1, E3, D1, E2; exact Hon).
      split; [|exact Hon3]. split; [congruence|congruence|rewrite D4; exact E2'|].
      intros Hb. apply andb_true_iff in Hb as [Hb1 Hb2]. rewrite S3 in Hb2.
      destruct (started s2) eqn:Hst; [|left; apply Hon3; reflexivity].
      destruct (Hbm Hb2) as [-> Hc]. right. rewrite D2, D3. split; [reflexivity|]. split; [|exact Hc].
      apply E4; congruence. }
    assert (Hfalse : forall s2, started s2 = started s1 -> dIdle (dres s2) = dIdle (dres s1) ->
      busMasterOff (dres s2) = false -> forall d3, coreD d3 = coreD (d2 <| v_cmd := v_cmd d3 |>) ->
      Q (Some false) s2 d3).
    { intros s2 S1 S2 S3 d3 D1. destruct (Hout s2 d3 false S1 S2 D1 S3) as [O1 O2]; [discriminate|].
      apply HQ; [exact O1|exact O2|discriminate]. }
    destruct b.
    2: { pstep. pstep. pstep. pstep. pstep. replace (negb _ || negb false) with true by (rewrite orb_true_r; reflexivity).
         pstep. apply Hfalse; reflexivity. }
    unfold memoryOnly. pstep. apply command_wp; [split; [exact E1|exact I]|]. intros c _. cbn beta iota.
    set (d3 := next policy d2 Command c). assert (D3 : coreD d3 = coreD (d2 <| v_cmd := v_cmd d3 |>)) by reflexivity.
    pstep. set (bm := Z.land (u16 c) 6 =? 2). assert (Hbm : bm = true -> true = true /\ Z.land (v_cmd d3) 6 = 2).
    { intros Hb. split; [reflexivity|]. unfold bm in Hb. apply Z.eqb_eq in Hb. exact Hb. }
    assert (Hr3 : v_rel d3 = None) by exact E1. clearbody d3 bm.
    pstep. pstep. pstep. pstep. pstep. set (s2 := s1 <| dres := _ |>).
    assert (O : quieted s2 s (v_door d) d3 /\ (started s2 = false -> v_on d3 = None))
      by (apply (Hout s2 d3 bm); auto). destruct O as [O1 O2].
    pstep.
    - pstep. apply HQ; [exact O1|exact O2|discriminate].
    - pstep. pstep.
      assert (Hok : dIdle (dres s2) && busMasterOff (dres s2) = true).
      { change (busMasterOff (dres s2)) with bm. destruct (dIdle (dres s2)), bm; auto. }
      assert (Hlast : forall (ok : bool) s4 d4, same s2 d3 s4 d4 -> wpm policy
        (onPdr (fun r => r <| restored := ok |>);; must (mret ok)) s4 d4
        (fun r s' d' => Q (Some (match r with Some _ => true | None => false end)) s' d')).
      { intros ok s4 d4 H4. pstep. pstep. pstep. pstep.
        assert (H5 : same s2 d3 (s4 <| dres := (dres s4) <| restored := ok |> |>) d4) by exact H4.
        set (s5 := s4 <| dres := _ |>) in *. clearbody s5. destruct H5 as (A & B & _).
        unfold coreS, coreD in *. injection A as A1 A2 A3 A4 A5 A6 A7. injection B as B1 B2 B3 B4 B5 B6 B7 B8.
        assert (G : quieted s5 s (v_door d) d4 /\ (started s5 = false -> v_on d4 = None)).
        { destruct O1. split; [|rewrite A4, B1; exact O2]. split; [congruence|congruence|congruence|].
          rewrite A6, A7. unfold dmaOff in *. rewrite B1, B2, B3, B4. assumption. }
        destruct ok; apply HQ; try apply G; try discriminate. intros _. rewrite A6, A7. exact Hok. }
      destruct (snapshot s).
      + apply (restoreRegisters_wp s2 d3); [apply same_refl; exact Hr3|]. intros b4 s4 d4 H4. apply Hlast. exact H4.
      + pstep. apply Hlast. apply same_refl. exact Hr3. }
  destruct (snapshot s) eqn:Hsn.
  - pstep. apply quiesceEngine_wp; [exact Hr|]. intros b s1 d1 H1. apply Hrest. exact H1.
  - pstep. pstep. pstep. pstep. apply Hrest. repeat split; simpl; auto.
    intros H1 H2. rewrite H2 in H1. discriminate.
Qed.

(** ** Refinement of the back-end contract *)

Lemma method_wp {A} (m : P A) def s d (Q : A * PciState -> Dev -> Prop) :
  wpm policy m s d (fun r s' d' => Q (default def r, s') d') -> wp policy (method m def s) d Q.
Proof. intros H. unfold method. apply wp_bind. exact H. Qed.

(** The state a contract-abiding transfer can be in when it publishes. *)
Definition contractual (g : Ledger) : Prop :=
  (l_start g <> None -> l_prep g = Some true) /\ (l_start g = None -> l_quiet g = None).

Definition linked (g : Ledger) (s : PciState) (d : Dev) : Prop := contractual g /\ related g s d.

Lemma clearHalt_wp s d (Q : option bool -> PciState -> Dev -> Prop) :
  v_rel d = None -> (forall b s' d', same s d s' d' -> Q (Some b) s' d') ->
  wpm policy clearHaltControls s d Q.
Proof.
  intros Hr HQ. unfold clearHaltControls. pose proof (same_refl s d Hr) as H. walk; apply HQ; exact H.
Qed.

Lemma implementation_wp n o g s d :
  linked g s d -> backendMay n g o ->
  wp policy (implementation o s) d (fun r d' => True /\ linked (backendNext g o r.1) r.2 d').
Proof.
  intros [Hc H] Hmay. pose proof Hmay as [Hrel Ho]. pose proof (rel_none _ _ _ H Hrel) as Hr.
  assert (Hsame : forall s' d' g', contractual g' -> related g' s d -> same s d s' d' ->
    True /\ linked g' s' d').
  { intros s' d' g' Hc' H' Hs. split; [exact I|]. split; [exact Hc'|]. exact (same_related _ _ _ _ _ H' Hs). }
  pose proof (same_refl s d Hr) as Hs. unfold implementation. destruct o; apply method_wp.
  - apply nowUs_wp; [split; [exact Hr|exact I]|]. intros t _. apply Hsame; assumption.
  - pstep. apply Hsame; assumption.
  - unfold readControl. pstep. walk1. pstep. apply Hsame; try assumption.
    destruct H. split; simpl; assumption.
  - apply (read_same s d); [exact Hs|discriminate|]. intros v d' Hs' _. apply Hsame; try assumption.
    destruct H. split; simpl; assumption.
  - unfold pauseUs. refine (dcall_wp policy (PauseUs us) s d _ _ _); [split; [exact Hr|exact I]|].
    intros [] _. apply Hsame; assumption.
  - destruct Ho as [_ Hp]. unfold prepare. pstep. pstep. pstep. pstep.
    assert (Hst : l_start g = None).
    { destruct (l_start g) eqn:E; [|reflexivity]. rewrite (proj1 Hc) in Hp; congruence. }
    assert (Hany : forall b d', coreD d' = coreD (d <| v_cmd := v_cmd d' |>) ->
      (b = true -> packetsN s < 256) -> True /\ linked (g <| l_prep := Some b |>) s d').
    { intros b d' D Hb. split; [exact I|]. unfold coreD in D. simpl in D. injection D as D1 D2 D3 D4 D5 D6 D7.
      destruct (rel_fresh _ _ _ H Hst) as (F1 & F2 & F3 & F4).
      split; [split; [simpl; congruence|exact (proj2 Hc)]|].
      assert (Hoff : dmaOff d') by (left; congruence).
      destruct H. split; simpl; rewrite ?D1, ?D2, ?D3, ?D4, ?D5, ?D6; try assumption; auto.
      intros _ [= ->]. auto. }
    destruct (_ && _) eqn:Hb.
    + unfold memoryOnly. pstep. apply command_wp; [split; [exact Hr|exact I]|]. intros c _. cbn beta iota.
      pstep. apply Hany; [reflexivity|]. intros _. apply andb_true_iff in Hb as [_ Hb]. lia.
    + apply Hany; [reflexivity|discriminate].
  - destruct Ho as [Hp Hst]. destruct (rel_fresh _ _ _ H Hst) as (F1 & F2 & F3 & F4).
    pose proof (proj2 Hc Hst) as Hq. destruct (rel_live _ _ _ H Hq) as [Hi Hoff].
    apply startDownload_wp; [repeat split; assumption|].
    intros b s' d' (S1 & S2 & S3 & S4 & S5 & S6 & S7 & S8 & S9 & S10).
    split; [exact I|]. split; [split; [intros _; exact Hp|simpl; congruence]|].
    destruct H. split; simpl; rewrite ?S2, ?S4, ?S5, ?S6, ?S7, ?S8; try assumption; auto; try congruence.
    + intros _ [= ->]. auto.
    + intros _ Hrf. destruct (rel_pub0 Hq Hrf). split; congruence.
    + discriminate.
    + intros Hrf. destruct (rel_pub0 Hq Hrf). congruence.
  - assert (Hp : l_prep g = Some true).
    { apply (proj1 Hc). destruct Ho as [Ho _]. congruence. }
    apply (publish_wp g _ n); [exact H|exact Hmay|exact Hp|]. intros b s' d' H'.
    split; [exact I|]. split; [|exact H']. simpl. destruct b; exact Hc.
  - apply clearHalt_wp; [exact Hr|]. intros b s' d' Hs'. apply Hsame; try assumption.
    destruct H. split; simpl; assumption.
  - destruct Ho as [Hst Hq]. apply quiesce_wp; [exact Hr|apply (rel_started _ _ _ H)|].
    intros b s' d' [Q1 Q2 Q4 Q3] Hon Hb. split; [exact I|]. split; [split; [apply Hc|simpl; congruence]|].
    destruct H. split; simpl; try assumption; try congruence.
    + intros [= ->]. apply Q3, Hb. reflexivity.
    + rewrite Q4. assumption.
  - destruct Ho as [Hp Hoff]. unfold releaseAll. pstep. pstep. pstep. pstep.
    assert (Hrefused : related (g <| l_rel := Some false |>) s d).
    { destruct H. split; simpl; try assumption; try congruence. }
    destruct (_ && _) eqn:Hb; [|split; [exact I|split; [exact Hc|exact Hrefused]]].
    apply andb_true_iff in Hb as [Hb _].
    assert (Hdma : dmaOff d).
    { apply orb_true_iff in Hb as [Hb|Hb].
      - left. apply (rel_started _ _ _ H). destruct (started s); [discriminate|reflexivity].
      - exact (rel_idle _ _ _ H Hb). }
    refine (dcall_wp policy ReleaseHook s d _ _ _); [split; [exact Hr|exact Hdma]|].
    intros b _. split; [exact I|]. split; [exact Hc|]. destruct H.
    split; simpl; try assumption; auto; congruence.
Qed.

(** ** Theorems *)


Lemma newPci_linked mapping n ready hook : linked newLedger (newPci mapping n ready hook) newDev.
Proof.
  split; [split; [intros H; contradiction|reflexivity]|].
  split; simpl; try discriminate; try congruence; auto; try lia.
Qed.


(** ** A simulated device

    A register file, a clock that advances with every reading, the doorbell and
    the command word.  The engine is always idle and drains at once; the boot
    ROM's control byte follows the doorbell. *)
Record Sim := mkSim { sim_regs : list (Z * Z); sim_time : Z; sim_door : Z; sim_cmd : Z }.

Definition simGet (a : Z) (d : Sim) : Z :=
  match find (fun p => fst p =? a) (sim_regs d) with Some (_, v) => v | None => 0 end.
Definition simPut (a v : Z) (d : Sim) : Sim :=
  mkSim ((a, if a =? 0x1000 then Z.ldiff v 8 else v) :: sim_regs d) (sim_time d)
    (if a =? 0x1014 then 0 else sim_door d) (sim_cmd d).

Definition simDevice (n : Z) (hook : bool) : handler Device Sim := fun d o =>
  match o as o return Ans Device o * Sim with
  | Read8 a => (simGet a d, d)
  | Read16 a => (simGet a d, d)
  | Read32 a =>
      (if a =? 0x1e0 then (if sim_door d =? 0 then 2 else if sim_door d =? n then 0xe0 else 4)
       else if a =? 0x1080 then Z.lor (sim_door d) (Z.shiftl (sim_door d) 16)
       else if a =? 0x101c then 0 else simGet a d, d)
  | Write8 _ a v => (true, simPut a v d)
  | Write16 _ a v =>
      (true, if a =? 0x1080 then mkSim (sim_regs d) (sim_time d) v (sim_cmd d) else simPut a v d)
  | Write32 _ a v => (true, simPut a v d)
  | Command => (sim_cmd d, d)
  | WriteCommand _ => (tt, d)
  | BusMaster on => (true, mkSim (sim_regs d) (sim_time d) (sim_door d) (if on then 6 else 2))
  | InterruptsSafe => (true, d)
  | Barrier => (tt, d)
  | NowUs => (sim_time d, mkSim (sim_regs d) (sim_time d + 1) (sim_door d) (sim_cmd d))
  | PauseUs us => (tt, mkSim (sim_regs d) (sim_time d + us) (sim_door d) (sim_cmd d))
  | Length => (0, d)
  | Physical => (0, d)
  | Map => (true, d)
  | Unmap => (tt, d)
  | StartXtalCvRead => (false, d)
  | ReadXtalData => (0, d)
  | ReleaseHook => (hook, d)
  end.

Definition sampleMapping : Mapping := mkMapping 0x200000 4096 4096 1.
Definition sampleDownload (hook : bool) :=
  run_trace (simDevice 3 hook) (download samplePackets (newPci sampleMapping 3 true true)) (mkSim [] 0 0 2).

Example sampleDownload_complete :
  let r := (sampleDownload true).1.1.1 in
  status r = complete /\ buffersReleased r = true /\ status (sampleDownload false).1.1.1 = releaseFailed.
Proof. vm_compute. auto. Qed.


