(* ===== verification/Descriptors.v ===== *)
(** * Packet descriptors (src/network/Rtw89DescriptorCore.hpp, NetworkDescriptors.hpp)

    The TX descriptor builder and the RX descriptor parser, on the register
    field macros of the sources. *)

From S2P Require Import Prelude.

(** ** Register fields *)

Fixpoint pos_ctz (p : positive) : Z :=
  match p with xO p => 1 + pos_ctz p | _ => 0 end.
(** [__builtin_ctz]. *)
Definition shift32 (n : Z) : Z := match n with Zpos p => pos_ctz p | _ => 0 end.

Definition BIT (n : Z) : Z := u32 (Z.shiftl 1 n).
Definition GENMASK (h l : Z) : Z :=
  Z.land (Z.shiftr 0xffffffff (31 - h)) (u32 (Z.shiftl 0xffffffff l)).
Definition FIELD_PREP (mask n : Z) : Z := Z.land (u32 (Z.shiftl (u32 n) (shift32 mask))) mask.
Definition le32_get_bits (n mask : Z) : Z := Z.shiftr (Z.land n mask) (shift32 mask).

(** ** The transmit descriptor *)

Record TxInfo := mkTxInfo {
  pkt_size : Z; wp_offset : Z; mac_id : Z; qsel : Z; ch_dma : Z; hdr_llc_len : Z;
  is_bmc : bool; en_wd_info : bool; wd_page : bool; use_rate : bool; dis_data_fb : bool;
  tid_indicate : bool; agg_en : bool; bk : bool; ampdu_density : Z; ampdu_num : Z;
  sec_en : bool; addr_info_nr : Z; sec_type : Z; sec_cam_idx : Z; data_rate : Z;
  data_retry_lowest_rate : Z; fw_dl : bool; seqno : Z; a_ctrl_bsr : bool; hw_ssn_sel : Z;
  hw_seq_mode : Z; port : Z;
  sec_keyid : Z; sec_seq : list Z; hiq : bool; er_cap : bool
}.
#[export] Instance TxInfo_rebuild : Rebuild TxInfo := fun p =>
  mkTxInfo (pkt_size p) (wp_offset p) (mac_id p) (qsel p) (ch_dma p) (hdr_llc_len p) (is_bmc p)
    (en_wd_info p) (wd_page p) (use_rate p) (dis_data_fb p) (tid_indicate p) (agg_en p) (bk p)
    (ampdu_density p) (ampdu_num p) (sec_en p) (addr_info_nr p) (sec_type p) (sec_cam_idx p)
    (data_rate p) (data_retry_lowest_rate p) (fw_dl p) (seqno p) (a_ctrl_bsr p) (hw_ssn_sel p)
    (hw_seq_mode p) (port p) (sec_keyid p) (sec_seq p) (hiq p) (er_cap p).
Definition emptyTxInfo : TxInfo :=
  mkTxInfo 0 0 0 0 0 0 false false false false false false false false 0 0 false 0 0 0 0 0
    false 0 false 0 0 0 0 (zeros 6) false false.

(** The words of the descriptor as field lists: mask and value. *)
Definition pack (fields : list (Z * Z)) : Z :=
  foldr (fun f w => Z.lor (FIELD_PREP (fst f) (snd f)) w) 0 fields.

Definition body0_fields (p : TxInfo) : list (Z * Z) :=
  [(GENMASK 31 24, wp_offset p); (BIT 22, Z.b2z (en_wd_info p)); (GENMASK 19 16, ch_dma p);
   (GENMASK 15 11, hdr_llc_len p); (BIT 7, Z.b2z (wd_page p)); (BIT 20, Z.b2z (fw_dl p));
   (GENMASK 3 2, hw_ssn_sel p); (GENMASK 1 0, hw_seq_mode p)].
Definition body2_fields (p : TxInfo) : list (Z * Z) :=
  [(BIT 23, Z.b2z (tid_indicate p)); (GENMASK 22 17, qsel p); (GENMASK 13 0, pkt_size p);
   (GENMASK 30 24, mac_id p)].
Definition body3_fields (p : TxInfo) : list (Z * Z) :=
  [(GENMASK 11 0, seqno p); (BIT 12, Z.b2z (agg_en p)); (BIT 13, Z.b2z (bk p))].
Definition info0_fields (p : TxInfo) : list (Z * Z) :=
  [(BIT 30, Z.b2z (use_rate p)); (GENMASK 24 16, data_rate p); (BIT 10, Z.b2z (dis_data_fb p));
   (GENMASK 6 4, port p)].
Definition info1_fields (p : TxInfo) : list (Z * Z) :=
  [(GENMASK 7 0, ampdu_num p); (BIT 14, Z.b2z (a_ctrl_bsr p)); (GENMASK 24 16, data_retry_lowest_rate p)].
Definition info2_fields (p : TxInfo) : list (Z * Z) :=
  [(GENMASK 20 18, ampdu_density p); (GENMASK 12 9, sec_type p); (BIT 8, Z.b2z (sec_en p));
   (GENMASK 7 0, sec_cam_idx p)].
Definition info4_fields (p : TxInfo) : list (Z * Z) :=
  [(BIT 27, Z.b2z (negb (is_bmc p))); (BIT 31, 1)].

Definition rtw89_build_txwd_body0 (p : TxInfo) : Z := pack (body0_fields p).
Definition rtw89_build_txwd_body2 (p : TxInfo) : Z := pack (body2_fields p).
Definition rtw89_build_txwd_body3 (p : TxInfo) : Z := pack (body3_fields p).
Definition rtw89_build_txwd_info0 (p : TxInfo) : Z := pack (info0_fields p).
Definition rtw89_build_txwd_info1 (p : TxInfo) : Z := pack (info1_fields p).
Definition rtw89_build_txwd_info2 (p : TxInfo) : Z := pack (info2_fields p).
Definition rtw89_build_txwd_info4 (p : TxInfo) : Z := pack (info4_fields p).

(** The words written into the zeroed descriptor, in memory order. *)
Definition rtw89_core_fill_txdesc (p : TxInfo) : list Z :=
  [rtw89_build_txwd_body0 p; 0; rtw89_build_txwd_body2 p; rtw89_build_txwd_body3 p; 0; 0] ++
  (if en_wd_info p
   then [rtw89_build_txwd_info0 p; rtw89_build_txwd_info1 p; rtw89_build_txwd_info2 p; 0;
         rtw89_build_txwd_info4 p; 0]
   else [0; 0; 0; 0; 0; 0]).

Inductive DescriptorStatus := ok | nullPointer | truncated | invalidLength | unrepresentable | corruptFrame.
#[export] Instance DescriptorStatus_eq_dec : EqDecision DescriptorStatus.
Proof. solve_decision. Defined.

(** [little32], and the limits of DescriptorLimits.inc. *)
Definition little32 {E} (b : buf) (p : Z) : mres E Z := rd32 b p.

Definition txFieldsFit (p : TxInfo) : bool :=
  (ch_dma p <=? 15) && (hdr_llc_len p <=? 31) && (hw_ssn_sel p <=? 3) && (hw_seq_mode p <=? 3) &&
  (qsel p <=? 63) && (pkt_size p <=? 16383) && (mac_id p <=? 127) && (seqno p <=? 4095) &&
  (data_rate p <=? 511) && (port p <=? 7) && (data_retry_lowest_rate p <=? 511) &&
  (ampdu_density p <=? 7) && (sec_type p <=? 15).

(** The bytes written from [out]'s start; their number is [length]. *)
Definition encodeTx (p : TxInfo) (out : bool) (capacity : Z) : mres DescriptorStatus buf :=
  fail_if (negb out) nullPointer;;
  fail_if (pkt_size p =? 0) invalidLength;;
  fail_if (negb (txFieldsFit p)) unrepresentable;;
  let needed := if en_wd_info p then 48 else 24 in
  fail_if (capacity <? needed) truncated;;
  mret (take (Z.to_nat needed) (concat (map le32_bytes (rtw89_core_fill_txdesc p)))).

(** ** The receive descriptor *)

Record RxInfo := mkRxInfo {
  r_pkt_size : Z; pkt_type : Z; drv_info_size : Z; shift : Z; long_rxdesc : bool;
  mac_info_valid : bool; r_data_rate : Z; gi_ltf : Z; bw : Z; free_run_cnt : Z; user_id : Z;
  sr_en : bool; ppdu_cnt : Z; ppdu_type : Z; icv_err : bool; crc32_err : bool; hw_dec : bool;
  sw_dec : bool; addr1_match : bool; frame_type : Z; rx_pl_id : Z; addr_cam_valid : bool;
  addr_cam_id : Z; sec_cam_id : Z; r_mac_id : Z; r_offset : Z; rxd_len : Z; r_ready : bool;
  phy_rpt_size : Z; hdr_cnv_size : Z; wl_hd_iv_len : Z; bb_sel : bool; frag : Z; r_seq : Z
}.

(** The words only a long descriptor has. *)
Definition long_words {E} (long : bool) (d : buf) (data_offset : Z) : mres E (Z * Z) :=
  if long then
    w4 ← rd32 d (data_offset + 16); w5 ← rd32 d (data_offset + 20); mret (w4, w5)
  else mret (0, 0).

(** Reading the words of a descriptor whose parser already has [shift]; the
    chip is the 8852B. *)
Definition rtw89_core_query_rxdesc {E} (sh : Z) (d : buf) (data_offset : Z) : mres E RxInfo :=
  w0 ← rd32 d data_offset; w1 ← rd32 d (data_offset + 4);
  w2 ← rd32 d (data_offset + 8); w3 ← rd32 d (data_offset + 12);
  let b w m := negb (le32_get_bits w m =? 0) in
  let drv := le32_get_bits w0 (GENMASK 30 28) in
  let long := b w0 (BIT 31) in
  '(w4, w5) ← long_words long d data_offset;
  mret (mkRxInfo (u16 (le32_get_bits w0 (GENMASK 13 0))) (le32_get_bits w0 (GENMASK 27 24)) drv sh
          long (b w0 (BIT 23)) (u16 (le32_get_bits w1 (GENMASK 24 16)))
          (le32_get_bits w1 (GENMASK 27 25)) (le32_get_bits w1 (GENMASK 31 30))
          (le32_get_bits w2 (GENMASK 31 0)) (u8 (le32_get_bits w1 (GENMASK 15 8)))
          (b w1 (BIT 7)) (le32_get_bits w1 (GENMASK 6 4)) (le32_get_bits w1 (GENMASK 3 0))
          (b w3 (BIT 10)) (b w3 (BIT 9)) (b w3 (BIT 2)) (b w3 (BIT 1)) (b w3 (BIT 0))
          (le32_get_bits w4 (GENMASK 1 0)) (le32_get_bits w5 (GENMASK 27 24)) (b w5 (BIT 28))
          (u8 (le32_get_bits w5 (GENMASK 15 8))) (u8 (le32_get_bits w5 (GENMASK 7 0)))
          (u8 (le32_get_bits w5 (GENMASK 23 16)))
          (u16 (data_offset + u8 (Z.shiftl sh 1) + u8 (Z.shiftl drv 3)))
          (if long then 32 else 16) true 0 0 0 false 0 0).

Record RxPacket := mkRxPacket { rx_info : RxInfo; payload : option Z; rx_length : Z; rx_offset : Z }.

(** [payload] is the offset of the payload in [data], if exposed. *)
Definition decodeRxHeader (data : option buf) (size descriptorOffset : Z) : mres DescriptorStatus RxPacket :=
  match data with
  | None => MErr nullPointer
  | Some data =>
      fail_if ((size <? descriptorOffset) || (size - descriptorOffset <? 16)) truncated;;
      word ← little32 data descriptorOffset;
      let descriptorBytes := if flag word 0x80000000 then 32 else 16 in
      fail_if (size - descriptorOffset <? descriptorBytes) truncated;;
      bytes ← for_m (Z.to_nat descriptorBytes) 0
                (fun i acc => b ← rd8 data (descriptorOffset + i); mret (acc ++ [b])) [];
      let descriptor := bytes ++ zeros (32 - descriptorBytes) in
      info ← rtw89_core_query_rxdesc (Z.land (Z.shiftr word 14) 3) descriptor 0;
      let overhead := r_offset info + rxd_len info in
      fail_if ((r_pkt_size info =? 0) || (pkt_type info =? 15)) invalidLength;;
      fail_if (size - descriptorOffset <? overhead) truncated;;
      fail_if (icv_err info || crc32_err info) corruptFrame;;
      mret (mkRxPacket info None (r_pkt_size info) (descriptorOffset + overhead))
  end.

Definition decodeRx (data : option buf) (size descriptorOffset : Z) : mres DescriptorStatus RxPacket :=
  p ← decodeRxHeader data size descriptorOffset;
  fail_if (size - rx_offset p <? rx_length p) truncated;;
  mret (mkRxPacket (rx_info p) (Some (rx_offset p)) (rx_length p) (rx_offset p)).

Definition hardwareDecrypted (i : RxInfo) : bool := hw_dec i && negb (sw_dec i) && negb (icv_err i).

(** ** Fields as bit ranges *)

Lemma testbit_ones_range h l i : 0 <= l <= h -> h < 32 ->
  Z.testbit (GENMASK h l) i = (l <=? i) && (i <=? h).
Proof.
  intros Hl Hh. unfold GENMASK, u32. destruct (Z.ltb_spec i 0).
  { rewrite Z.testbit_neg_r by lia. lia. }
  rewrite Z.land_spec, Z.shiftr_spec by lia.
  change 0xffffffff with (Z.ones 32). rewrite Z.testbit_ones by lia.
  destruct (Z.ltb_spec i 32).
  - rewrite Z.mod_pow2_bits_low, Z.shiftl_spec, Z.testbit_ones by lia. lia.
  - rewrite Z.mod_pow2_bits_high by lia. lia.
Qed.

(** The mask of bits [l] to [h], with its trailing zero count: closed facts. *)
Definition is_mask (m h l : Z) : Prop :=
  0 <= l <= h /\ h < 32 /\ m = GENMASK h l /\ shift32 m = l.

Lemma is_mask_bits m h l i : is_mask m h l -> Z.testbit m i = (l <=? i) && (i <=? h).
Proof. intros (H1 & H2 & -> & _). apply testbit_ones_range; lia. Qed.

(** What a packed field shows through a mask. *)
Lemma prep_bits m h l n i : is_mask m h l -> in_u32 n ->
  Z.testbit (FIELD_PREP m n) i = (l <=? i) && (i <=? h) && Z.testbit n (i - l).
Proof.
  intros Hm Hn. pose proof (is_mask_bits m h l i Hm) as Hb. destruct Hm as (H1 & H2 & _ & Hs).
  unfold FIELD_PREP. rewrite Z.land_spec, Hb, Hs. rewrite (u32_small n) by exact Hn. unfold u32.
  destruct (Z.leb_spec l i); [|rewrite andb_false_r; reflexivity].
  destruct (Z.leb_spec i h); [|rewrite andb_false_r; reflexivity].
  rewrite Z.mod_pow2_bits_low, Z.shiftl_spec by lia. simpl. apply andb_true_r.
Qed.

Lemma get_bits w m h l i : is_mask m h l -> 0 <= i ->
  Z.testbit (le32_get_bits w m) i = (i <=? h - l) && Z.testbit w (i + l).
Proof.
  intros Hm Hi. unfold le32_get_bits. pose proof Hm as (H1 & H2 & _ & ->).
  rewrite Z.shiftr_spec, Z.land_spec, (is_mask_bits m h l) by (auto; lia).
  destruct (Z.leb_spec i (h - l)); destruct (Z.leb_spec l (i + l)); destruct (Z.leb_spec (i + l) h); try lia;
    rewrite ?andb_true_r, ?andb_false_r; reflexivity.
Qed.

(** Two masks without a common bit. *)
Definition apart (m m' : Z) : bool := Z.land m m' =? 0.

Lemma get_prep_same m h l n : is_mask m h l -> 0 <= n < 2 ^ (h - l + 1) -> in_u32 n ->
  le32_get_bits (FIELD_PREP m n) m = n.
Proof.
  intros Hm Hn Hu. apply Z.bits_inj'. intros i Hi. rewrite (get_bits _ m h l) by auto.
  rewrite (prep_bits m h l) by auto. replace (i + l - l) with i by lia. pose proof Hm as (H1 & H2 & _).
  destruct (Z.leb_spec i (h - l)).
  - replace (l <=? i + l) with true by lia. replace (i + l <=? h) with true by lia. reflexivity.
  - symmetry. revert i Hi H. cut (forall i, h - l + 1 <= i -> Z.testbit n i = false).
    { intros Hc i Hi H. apply Hc. lia. }
    apply Z.bounded_iff_bits_nonneg'; lia.
Qed.

Lemma get_prep_other m h l m' n : is_mask m h l -> apart m m' = true ->
  le32_get_bits (FIELD_PREP m' n) m = 0.
Proof.
  intros Hm Ha. unfold le32_get_bits, FIELD_PREP, apart in *. rewrite <- Z.land_assoc, (Z.land_comm m').
  apply Z.eqb_eq in Ha. rewrite Ha, Z.land_0_r. apply Z.shiftr_0_l.
Qed.

Lemma get_lor m a b : le32_get_bits (Z.lor a b) m = Z.lor (le32_get_bits a m) (le32_get_bits b m).
Proof. unfold le32_get_bits. rewrite Z.land_lor_distr_l, Z.shiftr_lor. reflexivity. Qed.

Lemma get_pack_other m h l fs : is_mask m h l -> forallb (fun f => apart m (fst f)) fs = true ->
  le32_get_bits (pack fs) m = 0.
Proof.
  intros Hm. induction fs as [|[m' n] fs IH]; intros Hf.
  - unfold le32_get_bits. simpl. rewrite Z.land_0_l. apply Z.shiftr_0_l.
  - simpl in Hf. apply andb_true_iff in Hf as [H1 H2]. simpl. rewrite get_lor, IH by exact H2.
    rewrite (get_prep_other m h l) by auto. reflexivity.
Qed.

(** A word built of disjoint fields: every field reads back. *)
Fixpoint disjoint_fields (fs : list (Z * Z)) : bool :=
  match fs with
  | [] => true
  | (m, _) :: fs => forallb (fun f => apart m (fst f)) fs && disjoint_fields fs
  end.

Lemma get_pack_head m h l n fs : is_mask m h l -> forallb (fun f => apart m (fst f)) fs = true ->
  0 <= n < 2 ^ (h - l + 1) -> in_u32 n -> le32_get_bits (pack ((m, n) :: fs)) m = n.
Proof.
  intros Hm Hf Hn Hu. simpl. rewrite get_lor, (get_prep_same m h l), (get_pack_other m h l) by auto.
  apply Z.lor_0_r.
Qed.

Lemma get_pack_tail m h l m' n fs : is_mask m h l -> apart m m' = true ->
  le32_get_bits (pack ((m', n) :: fs)) m = le32_get_bits (pack fs) m.
Proof. intros Hm Ha. simpl. rewrite get_lor, (get_prep_other m h l) by auto. reflexivity. Qed.

(** [field_value fs m h l v] : the list gives field [m] the value [v]. *)
Lemma is_mask_genmask h l : (0 <=? l) && (l <=? h) && (h <? 32) && (shift32 (GENMASK h l) =? l) = true ->
  is_mask (GENMASK h l) h l.
Proof. intros H. repeat split; try lia. Qed.
Lemma is_mask_bit n : (0 <=? n) && (n <? 32) && (shift32 (BIT n) =? n) && (BIT n =? GENMASK n n) = true ->
  is_mask (BIT n) n n.
Proof. intros H. repeat split; lia. Qed.

Ltac ismask :=
  lazymatch goal with
  | |- is_mask (GENMASK ?h ?l) _ _ => exact (is_mask_genmask h l eq_refl)
  | |- is_mask (BIT ?n) _ _ => exact (is_mask_bit n eq_refl)
  end.

(** Read back one field of a concrete field list. *)
Ltac getfield :=
  lazymatch goal with
  | |- le32_get_bits (pack ((?m, ?n) :: ?fs)) ?m = ?n =>
      eapply get_pack_head; [ismask|reflexivity| |]
  | |- le32_get_bits (pack ((?m', ?n') :: ?fs)) ?m = _ =>
      etransitivity; [eapply get_pack_tail; [ismask|reflexivity]|getfield]
  end.

(** ** The transmit descriptor in memory *)

(** The members have their C++ types. *)
Definition typed (p : TxInfo) : Prop :=
  in_u16 (pkt_size p) /\ in_u8 (wp_offset p) /\ in_u8 (mac_id p) /\ in_u8 (qsel p) /\
  in_u8 (ch_dma p) /\ in_u8 (hdr_llc_len p) /\ in_u8 (ampdu_density p) /\ in_u8 (ampdu_num p) /\
  in_u8 (sec_type p) /\ in_u8 (sec_cam_idx p) /\ in_u16 (data_rate p) /\
  in_u16 (data_retry_lowest_rate p) /\ in_u16 (seqno p) /\ in_u8 (hw_ssn_sel p) /\
  in_u8 (hw_seq_mode p) /\ in_u8 (port p).

Lemma FIELD_PREP_u32 m n : in_u32 (FIELD_PREP m n).
Proof.
  unfold FIELD_PREP. pose proof (u32_range (Z.shiftl (u32 n) (shift32 m))) as H.
  apply land_u32. exact H.
Qed.
Lemma pack_u32 fs : in_u32 (pack fs).
Proof. induction fs as [|f fs IH]; simpl; [zlia|]. apply lor_u32; [apply FIELD_PREP_u32|exact IH]. Qed.

Lemma le32_at_app (pre post : buf) w : le32_at (pre ++ le32_bytes w ++ post) (zlen pre) = u32 w.
Proof.
  unfold le32_at. pose proof (zlen_nonneg pre).
  rewrite !(byte_at_app_r pre) by lia. rewrite Z.sub_diag.
  replace (zlen pre + 1 - zlen pre) with 1 by lia. replace (zlen pre + 2 - zlen pre) with 2 by lia.
  replace (zlen pre + 3 - zlen pre) with 3 by lia.
  change (byte_at (le32_bytes w ++ post) 0) with (u8 (u8 w)).
  change (byte_at (le32_bytes w ++ post) 1) with (u8 (u8 (Z.shiftr w 8))).
  change (byte_at (le32_bytes w ++ post) 2) with (u8 (u8 (Z.shiftr w 16))).
  change (byte_at (le32_bytes w ++ post) 3) with (u8 (u8 (Z.shiftr w 24))).
  rewrite !u8_u8. apply le32_of_bytes.
Qed.

Definition words_bytes (ws : list Z) : buf := concat (map le32_bytes ws).

Lemma words_bytes_len ws : zlen (words_bytes ws) = 4 * zlen ws.
Proof.
  unfold words_bytes. induction ws as [|w ws IH]; [reflexivity|].
  cbn [map concat]. rewrite zlen_app, IH. unfold zlen. simpl length. lia.
Qed.

Lemma words_bytes_at ws k : (k < length ws)%nat -> le32_at (words_bytes ws) (4 * Z.of_nat k) = u32 (nth k ws 0).
Proof.
  intros Hk. rewrite <- (firstn_skipn k ws) at 1. unfold words_bytes. rewrite map_app, concat_app.
  assert (Hs : skipn k ws = nth k ws 0 :: skipn (S k) ws).
  { revert k Hk. induction ws as [|w ws IH]; intros [|k] Hk; simpl in *; try lia; [reflexivity|].
    apply IH. lia. }
  rewrite Hs. cbn [map concat].
  replace (4 * Z.of_nat k) with (zlen (concat (map le32_bytes (firstn k ws)))).
  - apply le32_at_app.
  - fold (words_bytes (firstn k ws)). rewrite words_bytes_len. unfold zlen. rewrite length_firstn. lia.
Qed.

Lemma words_bytes_take ws n : take (4 * n) (words_bytes ws) = words_bytes (take n ws).
Proof.
  revert ws. induction n as [|n IH]; intros ws; [reflexivity|].
  destruct ws as [|w ws]; [rewrite take_nil; apply take_nil|].
  replace (4 * S n)%nat with (S (S (S (S (4 * n)))))%nat by lia.
  unfold words_bytes in *. cbn [map concat firstn le32_bytes app]. rewrite IH. reflexivity.
Qed.

(** The words as the hardware reads them. *)
Definition txWord (out : buf) (i : nat) : Z := le32_at out (4 * Z.of_nat i).

Definition bodyFields (p : TxInfo) (out : buf) : Prop :=
  let f i m := le32_get_bits (txWord out i) m in
  f 0%nat (GENMASK 31 24) = wp_offset p /\ f 0%nat (BIT 22) = Z.b2z (en_wd_info p) /\
  f 0%nat (BIT 20) = Z.b2z (fw_dl p) /\ f 0%nat (GENMASK 19 16) = ch_dma p /\
  f 0%nat (GENMASK 15 11) = hdr_llc_len p /\ f 0%nat (BIT 7) = Z.b2z (wd_page p) /\
  f 0%nat (GENMASK 3 2) = hw_ssn_sel p /\ f 0%nat (GENMASK 1 0) = hw_seq_mode p /\
  txWord out 1 = 0 /\
  f 2%nat (GENMASK 30 24) = mac_id p /\ f 2%nat (BIT 23) = Z.b2z (tid_indicate p) /\
  f 2%nat (GENMASK 22 17) = qsel p /\ f 2%nat (GENMASK 13 0) = pkt_size p /\
  f 3%nat (BIT 13) = Z.b2z (bk p) /\ f 3%nat (BIT 12) = Z.b2z (agg_en p) /\
  f 3%nat (GENMASK 11 0) = seqno p /\ txWord out 4 = 0 /\ txWord out 5 = 0.

Definition infoFields (p : TxInfo) (out : buf) : Prop :=
  let f i m := le32_get_bits (txWord out i) m in
  f 6%nat (BIT 30) = Z.b2z (use_rate p) /\ f 6%nat (GENMASK 24 16) = data_rate p /\
  f 6%nat (BIT 10) = Z.b2z (dis_data_fb p) /\ f 6%nat (GENMASK 6 4) = port p /\
  f 7%nat (GENMASK 24 16) = data_retry_lowest_rate p /\ f 7%nat (BIT 14) = Z.b2z (a_ctrl_bsr p) /\
  f 7%nat (GENMASK 7 0) = ampdu_num p /\
  f 8%nat (GENMASK 20 18) = ampdu_density p /\ f 8%nat (GENMASK 12 9) = sec_type p /\
  f 8%nat (BIT 8) = Z.b2z (sec_en p) /\ f 8%nat (GENMASK 7 0) = sec_cam_idx p /\
  txWord out 9 = 0 /\
  f 10%nat (BIT 27) = Z.b2z (negb (is_bmc p)) /\ f 10%nat (BIT 31) = 1 /\ txWord out 11 = 0.

Definition encodedWords (p : TxInfo) : list Z :=
  take (if en_wd_info p then 12 else 6) (rtw89_core_fill_txdesc p).

Lemma encodeTx_words p capacity out :
  encodeTx p true capacity = MVal out ->
  out = words_bytes (encodedWords p) /\ txFieldsFit p = true /\ 0 <> pkt_size p /\
  zlen out = (if en_wd_info p then 48 else 24) /\ zlen out <= capacity.
Proof.
  assert (Hl : zlen (words_bytes (encodedWords p)) = (if en_wd_info p then 48 else 24)).
  { rewrite words_bytes_len. unfold zlen, encodedWords, rtw89_core_fill_txdesc. destruct (en_wd_info p); reflexivity. }
  assert (Ht : take (Z.to_nat (if en_wd_info p then 48 else 24)) (concat (map le32_bytes (rtw89_core_fill_txdesc p))) =
               words_bytes (encodedWords p)).
  { fold (words_bytes (rtw89_core_fill_txdesc p)). unfold encodedWords. rewrite <- words_bytes_take.
    destruct (en_wd_info p); reflexivity. }
  unfold encodeTx. intros H. cbv zeta in H. rewrite Ht in H.
  set (bytes := words_bytes (encodedWords p)) in *. clearbody bytes. minv H. subst out. apply Z.eqb_neq in Hg0.
  repeat split; [destruct (txFieldsFit p); [reflexivity|discriminate]|auto|exact Hl|rewrite Hl; lia].
Qed.

Lemma b2z_range b h l : 0 <= l <= h -> 0 <= Z.b2z b < 2 ^ (h - l + 1).
Proof.
  intros H. assert (2 ^ 1 <= 2 ^ (h - l + 1)) by (apply Z.pow_le_mono_r; lia). change (2 ^ 1) with 2 in *.
  destruct b; simpl; lia.
Qed.
Lemma b2z_u32 b : in_u32 (Z.b2z b). Proof. destruct b; simpl; zlia. Qed.

Ltac fieldbound :=
  first [ apply b2z_range; lia | apply b2z_u32 | zlia
        | match goal with |- _ <= _ < 2 ^ ?e => let v := eval vm_compute in (2 ^ e) in
            change (2 ^ e) with v; zlia end ].

(** [encodeTx] answers with a descriptor exactly for a non-empty packet
    whose fields fit and a large enough buffer; the descriptor has 24 bytes, or
    48 with the info part, and the hardware reads back every field of the
    request from its place, with the unused words zero. *)
Theorem encodeTx_fields p capacity :
  typed p ->
  match encodeTx p true capacity with
  | MVal out =>
      zlen out = (if en_wd_info p then 48 else 24) /\ zlen out <= capacity /\
      bodyFields p out /\ (en_wd_info p = true -> infoFields p out)
  | MErr e =>
      (e = invalidLength /\ pkt_size p = 0) \/ (e = unrepresentable /\ txFieldsFit p = false) \/
      (e = truncated /\ capacity < (if en_wd_info p then 48 else 24))
  | MOob => False
  end.
Proof.
  intros Ht. destruct (encodeTx p true capacity) as [out|e|] eqn:E.
  - destruct (encodeTx_words p capacity out E) as (-> & Hf & Hz & Hl & Hc).
    split; [exact Hl|]. split; [exact Hc|]. unfold txFieldsFit in Hf. unfold typed in Ht.
    assert (Hw : forall k, (k < length (encodedWords p))%nat ->
      txWord (words_bytes (encodedWords p)) k = u32 (nth k (rtw89_core_fill_txdesc p) 0)).
    { intros k Hk. unfold txWord. rewrite words_bytes_at by exact Hk. f_equal. unfold encodedWords in *.
      rewrite length_take in Hk. rewrite <- (firstn_skipn (if en_wd_info p then 12 else 6) (rtw89_core_fill_txdesc p)) at 2.
      rewrite app_nth1; [reflexivity|]. rewrite length_take. lia. }
    assert (Hlen : (length (encodedWords p) = if en_wd_info p then 12 else 6)%nat)
      by (unfold encodedWords, rtw89_core_fill_txdesc; destruct (en_wd_info p); reflexivity).
    split.
    + unfold bodyFields. rewrite !Hw by (rewrite Hlen; destruct (en_wd_info p); lia).
      cbn [rtw89_core_fill_txdesc app nth]. rewrite !u32_small by (apply pack_u32 || zlia).
      unfold rtw89_build_txwd_body0, rtw89_build_txwd_body2, rtw89_build_txwd_body3, body0_fields, body2_fields, body3_fields.
      repeat split; try reflexivity; getfield; fieldbound.
    + intros Hi. unfold infoFields. rewrite !Hw by (rewrite Hlen, Hi; lia).
      unfold rtw89_core_fill_txdesc. rewrite Hi. cbn [app nth]. rewrite !u32_small by (apply pack_u32 || zlia).
      unfold rtw89_build_txwd_info0, rtw89_build_txwd_info1, rtw89_build_txwd_info2, rtw89_build_txwd_info4,
        info0_fields, info1_fields, info2_fields, info4_fields.
      repeat split; try reflexivity; getfield; fieldbound.
  - unfold encodeTx in E. simpl in E. destruct (Z.eqb_spec (pkt_size p) 0); simpl in E; [injection E as <-; auto|].
    destruct (txFieldsFit p); simpl in E; [|injection E as <-; auto].
    destruct (Z.ltb_spec capacity (if en_wd_info p then 48 else 24)); simpl in E; [injection E as <-; auto|discriminate].
  - unfold encodeTx in E. simpl in E. destruct (pkt_size p =? 0); simpl in E; [discriminate|].
    destruct (txFieldsFit p); simpl in E; [|discriminate].
    destruct (capacity <? _); simpl in E; discriminate.
Qed.

Definition sampleTx : TxInfo :=
  emptyTxInfo <| pkt_size := 1500 |> <| qsel := 3 |> <| ch_dma := 3 |> <| mac_id := 5 |>
    <| en_wd_info := true |> <| data_rate := 0x10b |> <| seqno := 0xabc |>.

Lemma sampleTx_typed : typed sampleTx.
Proof. unfold typed, sampleTx, emptyTxInfo. simpl. zlia. Qed.

Lemma encodeTx_fields_witness : typed sampleTx /\
  match encodeTx sampleTx true 64 with
  | MVal out =>
      zlen out = (if en_wd_info sampleTx then 48 else 24) /\ zlen out <= 64 /\
      bodyFields sampleTx out /\ (en_wd_info sampleTx = true -> infoFields sampleTx out)
  | MErr e =>
      (e = invalidLength /\ pkt_size sampleTx = 0) \/ (e = unrepresentable /\ txFieldsFit sampleTx = false) \/
      (e = truncated /\ 64 < (if en_wd_info sampleTx then 48 else 24))
  | MOob => False
  end.
Proof. split; [exact sampleTx_typed|]. exact (encodeTx_fields sampleTx 64 sampleTx_typed). Defined.

(** ** The receive parser *)

(** What a caller may rely on for a decoded header: the payload starts behind
    the descriptor, the shift and the driver info, inside the buffer. *)
Definition headerOk (size off : Z) (p : RxPacket) : Prop :=
  payload p = None /\ rx_length p = r_pkt_size (rx_info p) /\ 0 < rx_length p <= 16383 /\
  rx_offset p = off + r_offset (rx_info p) + rxd_len (rx_info p) /\
  off + 16 <= rx_offset p <= size /\ icv_err (rx_info p) = false /\ crc32_err (rx_info p) = false /\
  pkt_type (rx_info p) <> 15.

Lemma get_bits_range w m h l : is_mask m h l -> 0 <= le32_get_bits w m < 2 ^ (h - l + 1).
Proof.
  intros Hm. pose proof Hm as (H1 & H2 & _).
  assert (Hn : 0 <= le32_get_bits w m).
  { unfold le32_get_bits. apply Z.shiftr_nonneg, Z.land_nonneg. right.
    destruct Hm as (_ & _ & -> & _). unfold GENMASK. apply Z.land_nonneg. left. apply Z.shiftr_nonneg. lia. }
  apply Z.bounded_iff_bits_nonneg'; [lia|lia|].
  intros i Hi. rewrite (get_bits w m h l) by (auto; lia). replace (i <=? h - l) with false by lia. reflexivity.
Qed.

Lemma long_words_spec long d Q : 32 <= zlen d -> (forall w, Q w) ->
  mspec (E:=DescriptorStatus) (long_words long d 0) Q.
Proof.
  intros Hd HQ. unfold long_words. destruct long; [|apply HQ].
  rewrite !rd32_in by lia. apply HQ.
Qed.

Lemma query_spec sh d Q :
  0 <= sh < 4 -> 32 <= zlen d ->
  (forall i, 0 <= r_pkt_size i <= 16383 -> 0 <= r_offset i <= 62 -> (rxd_len i = 16 \/ rxd_len i = 32) -> Q i) ->
  mspec (E:=DescriptorStatus) (rtw89_core_query_rxdesc sh d 0) Q.
Proof.
  intros Hs Hd HQ. unfold rtw89_core_query_rxdesc.
  rewrite !rd32_in by lia. cbn [mbind mres_bind]. cbv zeta.
  set (long := negb _). generalize (long_words_spec long d (fun _ => True) Hd (fun _ => I)).
  destruct (long_words long d 0) as [[w4 w5]|e|]; [intros _|intros _; exact I|contradiction].
  cbn [mbind mres_bind mret mres_ret mspec]. apply HQ; cbn [r_pkt_size r_offset rxd_len].
  - pose proof (get_bits_range (le32_at d 0) (GENMASK 13 0) 13 0 (is_mask_genmask 13 0 eq_refl)) as Hr.
    change (2 ^ (13 - 0 + 1)) with 16384 in Hr. rewrite u16_small by zlia. lia.
  - pose proof (get_bits_range (le32_at d 0) (GENMASK 30 28) 30 28 (is_mask_genmask 30 28 eq_refl)) as Hr.
    change (2 ^ (30 - 28 + 1)) with 8 in Hr. rewrite !Z.shiftl_mul_pow2 by lia.
    change (2 ^ 1) with 2. change (2 ^ 3) with 8. zlia.
  - destruct long; auto.
Qed.

Lemma decodeRxHeader_spec data size off :
  0 <= size <= zlen data -> 0 <= off -> mspec (decodeRxHeader (Some data) size off) (headerOk size off).
Proof.
  intros Hs Ho. unfold decodeRxHeader, little32. do 3 mstep. apply rd32_spec; [lia|lia|].
  cbv zeta. set (n := if flag _ _ then 32 else 16).
  assert (Hn : n = 16 \/ n = 32) by (unfold n; destruct (flag _ _); auto).
  mstep. mstep. mstep.
  apply (mspec_for_m (fun j acc => zlen acc = j)); [lia|reflexivity| |].
  { intros j acc Hj Ha. mstep. apply rd8_spec; [lia|]. mstep. rewrite zlen_app, Ha. reflexivity. }
  intros bytes Hb. mstep. apply query_spec.
  - pose proof (land_bounds (Z.shiftr (le32_at data off) 14) 3). lia.
  - rewrite zlen_app, zlen_zeros by lia. lia.
  - intros i Hp Hof Hl. repeat mstep. unfold headerOk. cbn [rx_info payload rx_length rx_offset].
    apply orb_false_iff in Hg1 as [G1 G2]. apply orb_false_iff in Hg3 as [G3 G4].
    repeat split; try assumption; lia.
Qed.

(** C9: decoding a received buffer reads only inside it, whatever the
    hardware wrote; the payload it exposes lies entirely inside the buffer,
    behind the descriptor, has the length the descriptor advertises, and is
    never that of a frame with an ICV or CRC error. *)
Theorem decodeRx_safe data size off :
  0 <= size <= zlen data -> 0 <= off ->
  safe (decodeRx (Some data) size off) /\
  forall p, decodeRx (Some data) size off = MVal p ->
    payload p = Some (rx_offset p) /\ off + 16 <= rx_offset p /\ 0 < rx_length p <= 16383 /\
    rx_offset p + rx_length p <= size /\ rx_length p = r_pkt_size (rx_info p) /\
    icv_err (rx_info p) = false /\ crc32_err (rx_info p) = false.
Proof.
  intros Hs Ho. apply mspec_iff. unfold decodeRx. mstep.
  eapply mspec_mono; [exact (decodeRxHeader_spec data size off Hs Ho)|].
  intros p (H1 & H2 & H3 & H4 & H5 & H6 & H7 & H8). mstep. mstep. mstep. simpl.
  repeat split; try assumption; lia.
Qed.

(** A frame of 4 bytes behind a short descriptor with one unit of driver info. *)
Definition sampleRx : buf :=
  le32_bytes (4 + Z.shiftl 1 28) ++ zeros 12 ++ zeros 8 ++ [0xde; 0xad; 0xbe; 0xef].

Example sampleRx_decodes :
  match decodeRx (Some sampleRx) 28 0 with MVal p => payload p = Some 24 /\ rx_length p = 4 | _ => False end.
Proof. vm_compute. auto. Qed.

Lemma decodeRx_safe_witness :
  safe (decodeRx (Some sampleRx) 28 0) /\
  forall p, decodeRx (Some sampleRx) 28 0 = MVal p ->
    payload p = Some (rx_offset p) /\ 0 + 16 <= rx_offset p /\ 0 < rx_length p <= 16383 /\
    rx_offset p + rx_length p <= 28 /\ rx_length p = r_pkt_size (rx_info p) /\
    icv_err (rx_info p) = false /\ crc32_err (rx_info p) = false.
Proof. apply decodeRx_safe; [vm_compute; split; discriminate|lia]. Defined.
