(* ===== verification/DataPath.v ===== *)
(** * PCI data path: wire formats and transmit ownership (src/network/PciDataPath.hpp)

    The transmit and receive buffer descriptors, the release report, and the
    ledger that decides when a transmit page may be reused. *)

From stdpp Require Import sets.
From S2P Require Import Prelude Descriptors.

Definition store16 {E} (b : buf) (p v : Z) : mres E buf := store b p (le16_bytes v).
Definition store32 {E} (b : buf) (p v : Z) : mres E buf :=
  b ← store16 b p (u16 v); store16 b (p + 2) (u16 (Z.shiftr v 16)).

Definition dma32Range (address length : Z) : bool :=
  negb (length =? 0) && (address <=? 0xffffffff) && (length - 1 <=? 0xffffffff - address).

Definition dataChannel (qsel : Z) : Z :=
  if qsel =? 0 then 0 else if qsel =? 1 then 1 else if qsel =? 2 then 2 else if qsel =? 3 then 3
  else if qsel =? 0x12 then 8 else if qsel =? 0x11 then 9 else -1.

Record TxWire := mkTxWire { wire_wd : buf; wire_bd : buf; wdBytes : Z }.

Definition encodePciTx (info : TxInfo) (page wdDma frameDma : Z) : mres DescriptorStatus TxWire :=
  fail_if ((0x7fff <? page) || (dataChannel (qsel info) <? 0) ||
           negb (ch_dma info =? dataChannel (qsel info))) unrepresentable;;
  let wdBytes := (if en_wd_info info then 48 else 24) + 16 in
  fail_if (negb (dma32Range wdDma wdBytes) || negb (dma32Range frameDma (pkt_size info))) invalidLength;;
  let info := info <| addr_info_nr := 1 |> in
  desc ← encodeTx info true 64;
  let body := zlen desc in
  wd ← store (zeros 64) 0 desc;
  wd ← store16 wd body (u16 (Z.lor page 0x8000));
  wd ← store16 wd (body + 8) (pkt_size info);
  wd ← store16 wd (body + 10) 0x8001;
  wd ← store32 wd (body + 12) (u32 frameDma);
  bd ← store16 (zeros 8) 0 (u16 wdBytes);
  bd ← store16 bd 2 0x4000;
  bd ← store32 bd 4 (u32 wdDma);
  mret (mkTxWire wd bd wdBytes).

Definition encodeRxBd (address bytes : Z) : option buf :=
  if (bytes <? 20) || (0x3fff <? bytes) || negb (dma32Range address bytes) then None
  else Some (le16_bytes (u16 bytes) ++ le16_bytes 0 ++ le32_bytes (u32 address)).

Record ReleaseReport := mkReport {
  rp_page : Z; rp_qsel : Z; rp_macid : Z; rp_status : Z; rp_polluted : bool
}.

Definition decodeRelease (data : option buf) (bytes : Z) : mres unit ReleaseReport :=
  match data with
  | None => MErr tt
  | Some data =>
      fail_if (bytes <? 4) tt;;
      word ← little32 data 0;
      let r := mkReport (u16 (Z.land (Z.shiftr word 16) 0x7fff)) (u8 (Z.land (Z.shiftr word 8) 31))
                 (u8 word) (u8 (Z.land (Z.shiftr word 13) 7)) (negb (Z.shiftr word 31 =? 0)) in
      fail_if ((dataChannel (rp_qsel r) <? 0) || (3 <? rp_status r)) tt;;
      mret r
  end.

(** ** The ownership ledger *)

Inductive QueueStatus := qOk | qFull | qInvalid | qDuplicate | qNotReady.
#[export] Instance QueueStatus_eq_dec : EqDecision QueueStatus.
Proof. solve_decision. Defined.

Record Slot := mkSlot {
  s_used : bool; s_consumed : bool; s_reported : bool; s_qsel : Z; s_macid : Z; s_status : Z;
  s_cookie : Z
}.
#[export] Instance Slot_rebuild : Rebuild Slot := fun s =>
  mkSlot (s_used s) (s_consumed s) (s_reported s) (s_qsel s) (s_macid s) (s_status s) (s_cookie s).
Definition emptySlot : Slot := mkSlot false false false 0 0 0 0.

Record Ticket := mkTicket { t_page : Z; t_bd : Z; t_next : Z }.
Record Completion := mkCompletion { c_cookie : Z; c_status : Z; c_polluted : bool }.

Record TxOwnership := mkTx {
  pages : list Slot; bdRing : list Z; producer : Z; consumer : Z; pendingBd : Z; outstanding : Z;
  nextPage : Z; polluted : list bool
}.
#[export] Instance TxOwnership_rebuild : Rebuild TxOwnership := fun t =>
  mkTx (pages t) (bdRing t) (producer t) (consumer t) (pendingBd t) (outstanding t) (nextPage t)
    (polluted t).

Section ownership.
Variable Count : Z.

Definition newTx : TxOwnership :=
  mkTx (replicate (Z.to_nat Count) emptySlot) (zeros Count) 0 0 0 0 0 (replicate (Z.to_nat Count) false).

Definition slotAt (t : TxOwnership) (p : Z) : Slot := nth (Z.to_nat p) (pages t) emptySlot.
Definition setSlot (p : Z) (s : Slot) (t : TxOwnership) : TxOwnership :=
  t <| pages := <[Z.to_nat p := s]> (pages t) |>.
Definition ringAt (t : TxOwnership) (i : Z) : Z := nth (Z.to_nat i) (bdRing t) 0.

(** The search of [peek], from offset [n] on. *)
Fixpoint peekLoop (fuel : nat) (n : Z) (t : TxOwnership) : option Z :=
  match fuel with
  | O => None
  | S fuel =>
      let p := (nextPage t + n) mod Count in
      if s_used (slotAt t p) then peekLoop fuel (n + 1) t else Some p
  end.

Definition peek (t : TxOwnership) : QueueStatus * Ticket :=
  if (pendingBd t =? Count - 1) || (outstanding t =? Count) then (qFull, mkTicket 0 0 0) else
  match peekLoop (Z.to_nat Count) 0 t with
  | Some p => (qOk, mkTicket (u16 p) (u16 (producer t)) (u16 ((producer t + 1) mod Count)))
  | None => (qFull, mkTicket 0 0 0)
  end.

(** [cookie] 0 is the null pointer. *)
Definition commit (ticket : Ticket) (qsel macid cookie : Z) (t : TxOwnership) : QueueStatus * TxOwnership :=
  let (st, current) := peek t in
  if (cookie =? 0) || (dataChannel qsel <? 0) || negb (bool_decide (st = qOk)) ||
     negb (t_page ticket =? t_page current) || negb (t_bd ticket =? t_bd current) ||
     negb (t_next ticket =? t_next current)
  then (qInvalid, t)
  else
    let t' := setSlot (t_page ticket) (mkSlot true false false qsel macid 0 cookie) t in
    (qOk, t' <| polluted := <[Z.to_nat (t_page ticket) := false]> (polluted t) |>
             <| bdRing := <[Z.to_nat (producer t) := t_page ticket]> (bdRing t) |>
             <| producer := t_next ticket |> <| pendingBd := pendingBd t + 1 |>
             <| outstanding := outstanding t + 1 |> <| nextPage := (t_page ticket + 1) mod Count |>).

(** One turn of the loop of [consumedTo]. *)
Definition consumeOne (t : TxOwnership) : TxOwnership :=
  let p := ringAt t (consumer t) in
  (setSlot p ((slotAt t p) <| s_consumed := true |>) t) <| consumer := (consumer t + 1) mod Count |>.

Definition consumedTo (hardwareConsumer : Z) (t : TxOwnership) : QueueStatus * TxOwnership :=
  if Count <=? hardwareConsumer then (qInvalid, t) else
  let advance := (hardwareConsumer + Count - consumer t) mod Count in
  if pendingBd t <? advance then (qInvalid, t) else
  let t' := Nat.iter (Z.to_nat advance) consumeOne t in
  (qOk, t' <| pendingBd := pendingBd t - advance |>).

Definition report (r : ReleaseReport) (t : TxOwnership) : QueueStatus * TxOwnership :=
  if (Count <=? rp_page r) || (3 <? rp_status r) then (qInvalid, t) else
  let p := slotAt t (rp_page r) in
  if negb (s_used p) || negb (s_qsel p =? rp_qsel r) || negb (s_macid p =? rp_macid r) then (qInvalid, t) else
  if s_reported p then (qDuplicate, t) else
  let t' := setSlot (rp_page r) (p <| s_reported := true |> <| s_status := rp_status r |>) t in
  (qOk, t' <| polluted := <[Z.to_nat (rp_page r) := rp_polluted r]> (polluted t) |>).

Definition takeLease (page : Z) (t : TxOwnership) : QueueStatus * Completion * TxOwnership :=
  let none := mkCompletion 0 0 false in
  if Count <=? page then (qInvalid, none, t) else
  let p := slotAt t page in
  if negb (s_used p) || negb (s_consumed p) || negb (s_reported p) then (qNotReady, none, t) else
  (qOk, mkCompletion (s_cookie p) (s_status p) (nth (Z.to_nat page) (polluted t) false),
   (setSlot page emptySlot t) <| polluted := <[Z.to_nat page := false]> (polluted t) |>
     <| outstanding := outstanding t - 1 |>).

(** The cookies released, in page order, and the reset ledger. *)
Definition reclaimAfterDmaStopped (t : TxOwnership) : list Z * TxOwnership :=
  (map s_cookie (filter (fun s => s_used s = true) (pages t)),
   (((((t <| pages := replicate (Z.to_nat Count) emptySlot |>)
       <| polluted := replicate (Z.to_nat Count) false |>) <| producer := 0 |>) <| consumer := 0 |>)
     <| pendingBd := 0 |>) <| outstanding := 0 |> <| nextPage := 0 |>).

(** ** What the ledger promises *)

(** The specification sees the leases by page and the pages whose descriptors
    the hardware has not consumed yet, oldest first. *)
Record Lease := mkLease {
  ls_cookie : Z; ls_qsel : Z; ls_macid : Z; ls_consumed : bool; ls_report : option (Z * bool)
}.
Definition leaseOf (t : TxOwnership) (p : Z) : option Lease :=
  let s := slotAt t p in
  if s_used s then
    Some (mkLease (s_cookie s) (s_qsel s) (s_macid s) (s_consumed s)
            (if s_reported s then Some (s_status s, nth (Z.to_nat p) (polluted t) false) else None))
  else None.
Definition fifo (t : TxOwnership) : list Z :=
  map (fun k => ringAt t ((consumer t + k) mod Count)) (seqZ 0 (pendingBd t)).

Inductive ledgerOp :=
| OpCommit (ticket : Ticket) (qsel macid cookie : Z)
| OpConsumed (index : Z) | OpReport (r : ReleaseReport) | OpTake (page : Z).

Definition applyOp (o : ledgerOp) (t : TxOwnership) : QueueStatus * option Completion * TxOwnership :=
  match o with
  | OpCommit k q m c => let (st, t') := commit k q m c t in (st, None, t')
  | OpConsumed i => let (st, t') := consumedTo i t in (st, None, t')
  | OpReport r => let (st, t') := report r t in (st, None, t')
  | OpTake p => let '(st, c, t') := takeLease p t in (st, Some c, t')
  end.

(** The specification of the operations that succeed. *)
Definition ledgerStep (t : TxOwnership) (o : ledgerOp) (c : option Completion) (t' : TxOwnership) : Prop :=
  match o with
  | OpCommit k q m cookie =>
      (* an unused page, behind all others *)
      let p := t_page k in
      0 <= p < Count /\ leaseOf t p = None /\ cookie <> 0 /\ fifo t' = fifo t ++ [p] /\
      forall p', 0 <= p' < Count -> leaseOf t' p' =
        if p' =? p then Some (mkLease cookie q m false None) else leaseOf t p'
  | OpConsumed _ =>
      (* the oldest pages are consumed, in order *)
      exists gone, fifo t = gone ++ fifo t' /\
      forall p', 0 <= p' < Count -> leaseOf t' p' =
        if bool_decide (p' ∈ gone)
        then (fun l => mkLease (ls_cookie l) (ls_qsel l) (ls_macid l) true (ls_report l)) <$> leaseOf t p'
        else leaseOf t p'
  | OpReport r =>
      (* the page of the report gets it, once, if the queue and the MAC id agree *)
      fifo t' = fifo t /\ (exists l, leaseOf t (rp_page r) = Some l /\ ls_report l = None /\
        ls_qsel l = rp_qsel r /\ ls_macid l = rp_macid r) /\
      forall p', 0 <= p' < Count -> leaseOf t' p' =
        if p' =? rp_page r
        then (fun l => mkLease (ls_cookie l) (ls_qsel l) (ls_macid l) (ls_consumed l)
                         (Some (rp_status r, rp_polluted r))) <$> leaseOf t p'
        else leaseOf t p'
  | OpTake p =>
      (* only a page both consumed and reported is given back, with its cookie *)
      fifo t' = fifo t /\ (exists l st po, leaseOf t p = Some l /\ ls_consumed l = true /\
        ls_report l = Some (st, po) /\ c = Some (mkCompletion (ls_cookie l) st po)) /\
      forall p', 0 <= p' < Count -> leaseOf t' p' = if p' =? p then None else leaseOf t p'
  end.

Definition usedCount (t : TxOwnership) : Z :=
  zlen (filter (fun s => s_used s = true) (pages t)).

Record ledgerInv (t : TxOwnership) : Prop := {
  iv_pages : length (pages t) = Z.to_nat Count;
  iv_ring : length (bdRing t) = Z.to_nat Count;
  iv_pol : length (polluted t) = Z.to_nat Count;
  iv_consumer : 0 <= consumer t < Count;
  iv_pending : 0 <= pendingBd t <= Count - 1;
  iv_producer : producer t = (consumer t + pendingBd t) mod Count;
  iv_next : 0 <= nextPage t < Count;
  iv_out : outstanding t = usedCount t;
  iv_nodup : NoDup (fifo t);
  iv_fifo : forall p, p ∈ fifo t <-> (0 <= p < Count /\ s_used (slotAt t p) = true /\ s_consumed (slotAt t p) = false)
}.

Hypothesis HCount : 2 <= Count <= 0x8000.

Lemma slotAt_setSlot p s t p' : length (pages t) = Z.to_nat Count -> 0 <= p < Count -> 0 <= p' ->
  slotAt (setSlot p s t) p' = if p' =? p then s else slotAt t p'.
Proof. intros Hl Hp Hp'. apply nth_insert_Z; [unfold zlen; lia|exact Hp']. Qed.

Lemma ringAt_insert {A} (l : list A) i v j d : length l = Z.to_nat Count -> 0 <= i < Count -> 0 <= j ->
  nth (Z.to_nat j) (<[Z.to_nat i := v]> l) d = if j =? i then v else nth (Z.to_nat j) l d.
Proof. intros Hl Hi Hj. apply nth_insert_Z; [unfold zlen; lia|exact Hj]. Qed.

Lemma filter_insert_count (l : list Slot) (i : nat) s : (i < length l)%nat ->
  zlen (filter (fun s => s_used s = true) (<[i := s]> l)) =
  zlen (filter (fun s => s_used s = true) l) - (if s_used (nth i l emptySlot) then 1 else 0) +
  (if s_used s then 1 else 0).
Proof.
  revert i. induction l as [|x l IH]; intros i Hi; [simpl in Hi; lia|].
  destruct i as [|i]; simpl.
  - rewrite !filter_cons. simpl. destruct (decide (s_used s = true)) as [Es|Es], (decide (s_used x = true)) as [Ex|Ex];
      rewrite ?Es, ?Ex; try (apply not_true_is_false in Es; rewrite ?Es); try (apply not_true_is_false in Ex; rewrite ?Ex);
      unfold zlen; simpl; lia.
  - rewrite !filter_cons. simpl in Hi. specialize (IH i ltac:(lia)).
    destruct (decide (s_used x = true)); unfold zlen in *; simpl length; lia.
Qed.

Lemma usedCount_set p s t : length (pages t) = Z.to_nat Count -> 0 <= p < Count ->
  usedCount (setSlot p s t) =
  usedCount t - (if s_used (slotAt t p) then 1 else 0) + (if s_used s then 1 else 0).
Proof. intros Hl Hp. unfold usedCount, setSlot, slotAt. simpl. apply filter_insert_count. lia. Qed.

Lemma mod_inj c j k : 0 <= j < Count -> 0 <= k < Count -> (c + j) mod Count = (c + k) mod Count -> j = k.
Proof. intros Hj Hk. apply mod_add_inj; lia. Qed.

Lemma fifo_in t p : p ∈ fifo t <-> exists k, 0 <= k < pendingBd t /\ p = ringAt t ((consumer t + k) mod Count).
Proof.
  unfold fifo. rewrite list_elem_of_In, in_map_iff. setoid_rewrite <- list_elem_of_In.
  setoid_rewrite elem_of_seqZ. split.
  - intros (k & <- & Hk). exists k. split; [lia|reflexivity].
  - intros (k & Hk & ->). exists k. split; [reflexivity|lia].
Qed.

Lemma fifo_range t p : ledgerInv t -> p ∈ fifo t -> 0 <= p < Count.
Proof. intros H Hp. apply (iv_fifo t H) in Hp. tauto. Qed.

Lemma peekLoop_spec fuel n t p : peekLoop fuel n t = Some p -> ledgerInv t ->
  0 <= p < Count /\ s_used (slotAt t p) = false.
Proof.
  intros Hp Hinv. revert n Hp. induction fuel as [|fuel IH]; intros n; simpl; [discriminate|].
  destruct (s_used (slotAt t ((nextPage t + n) mod Count))) eqn:E; [apply IH|]. intros [= <-]. split; [apply Z.mod_pos_bound; lia|exact E].
Qed.

Lemma peek_spec t k : ledgerInv t -> peek t = (qOk, k) ->
  0 <= t_page k < Count /\ s_used (slotAt t (t_page k)) = false /\ t_bd k = producer t /\
  t_next k = (producer t + 1) mod Count /\ pendingBd t < Count - 1.
Proof.
  intros Hinv. unfold peek. destruct (_ || _) eqn:Hf; [discriminate|].
  destruct (peekLoop _ 0 t) as [p|] eqn:E; [|discriminate]. intros [= <-]. simpl.
  destruct (peekLoop_spec _ _ _ _ E Hinv) as [Hp Hu]. pose proof (iv_producer t Hinv).
  pose proof (iv_pending t Hinv).
  assert (0 <= producer t < Count) by (rewrite H; apply Z.mod_pos_bound; lia).
  assert (0 <= (producer t + 1) mod Count < Count) by (apply Z.mod_pos_bound; lia).
  rewrite !u16_small by zlia. repeat split; auto; lia.
Qed.

Lemma slot_of_lease t p : leaseOf t p = None <-> s_used (slotAt t p) = false.
Proof. unfold leaseOf. destruct (s_used (slotAt t p)); split; congruence. Qed.

Lemma ledger_commit_spec k q m c t t' : ledgerInv t -> commit k q m c t = (qOk, t') ->
  ledgerInv t' /\ ledgerStep t (OpCommit k q m c) None t'.
Proof.
  intros Hinv. unfold commit. destruct (peek t) as [st cur] eqn:Hpk.
  destruct (_ || _) eqn:Hg; [discriminate|]. repeat apply orb_false_iff in Hg as [Hg ?].
  assert (st = qOk) as -> by (destruct (bool_decide_reflect (st = qOk)); [assumption|discriminate]).
  destruct (peek_spec t cur Hinv Hpk) as (Hp & Hu & Hbd & Hnx & Hroom).
  replace (t_page cur) with (t_page k) in * by lia. replace (t_next cur) with (t_next k) in * by lia.
  intros [= <-]. set (p := t_page k) in *. set (s := mkSlot true false false q m 0 c).
  destruct Hinv as [I1 I2 I3 I4 I5 I6 I7 I8 I9 I10].
  match goal with |- ledgerInv ?x /\ _ => set (t' := x) end.
  assert (Hprod : 0 <= producer t < Count) by (rewrite I6; apply Z.mod_pos_bound; lia).
  assert (Hslot : forall p', 0 <= p' -> slotAt t' p' = if p' =? p then s else slotAt t p').
  { intros p' Hp'. exact (slotAt_setSlot p s t p' I1 Hp Hp'). }
  assert (Hfifo : fifo t' = fifo t ++ [p]).
  { unfold fifo. change (pendingBd t') with (pendingBd t + 1).
    rewrite seqZ_app by lia. rewrite map_app. f_equal.
    - apply map_ext_in. intros j Hj. apply list_elem_of_In, elem_of_seqZ in Hj.
      unfold ringAt, t'. simpl.
      assert (0 <= (consumer t + j) mod Count < Count) by (apply Z.mod_pos_bound; lia).
      rewrite ringAt_insert by (auto; lia). destruct (Z.eqb_spec ((consumer t + j) mod Count) (producer t)) as [E|_]; [|reflexivity].
      rewrite I6 in E. apply mod_inj in E; lia.
    - change (seqZ (0 + pendingBd t) 1) with [0 + pendingBd t]. simpl. unfold ringAt, t'. simpl.
      rewrite ringAt_insert; [|exact I2|exact Hprod|apply Z.mod_pos_bound; lia].
      rewrite ?Z.add_0_l, <- I6, Z.eqb_refl. reflexivity. }
  assert (Hnotin : p ∉ fifo t) by (rewrite I10; intros (_ & E & _); congruence).
  split.
  - split; try assumption.
    + unfold t', setSlot. simpl. rewrite length_insert. exact I1.
    + unfold t'. simpl. rewrite length_insert. exact I2.
    + unfold t'. simpl. rewrite length_insert. exact I3.
    + change (pendingBd t') with (pendingBd t + 1). lia.
    + change (producer t') with (t_next k). change (consumer t') with (consumer t).
      change (pendingBd t') with (pendingBd t + 1). rewrite Hnx, I6.
      rewrite Z.add_mod_idemp_l by lia. f_equal. lia.
    + change (nextPage t') with ((p + 1) mod Count). apply Z.mod_pos_bound. lia.
    + change (usedCount t') with (usedCount (setSlot p s t)). rewrite usedCount_set by auto.
      rewrite Hu. change (outstanding t') with (outstanding t + 1). simpl. lia.
    + rewrite Hfifo. apply NoDup_app. split; [exact I9|]. split; [|apply NoDup_singleton].
      intros x Hx E. apply list_elem_of_singleton in E. subst. contradiction.
    + intros p'. rewrite Hfifo, elem_of_app, list_elem_of_singleton, I10. split.
      * intros [(A & B & C)| ->]; (split; [lia|]); rewrite Hslot by lia.
        -- destruct (Z.eqb_spec p' p) as [->|_]; [congruence|auto].
        -- rewrite Z.eqb_refl. auto.
      * intros (A & B & C). rewrite Hslot in B, C by lia. destruct (Z.eqb_spec p' p); auto.
  - split; [exact Hp|]. split; [apply slot_of_lease; exact Hu|]. split; [lia|]. split; [exact Hfifo|].
    intros p' Hp'. change (t_page k) with p. unfold leaseOf. rewrite Hslot by lia. unfold t'. simpl polluted.
    destruct (Z.eqb_spec p' p) as [->|Hne]; [rewrite ?Z.eqb_refl; reflexivity|].
    rewrite ringAt_insert by (auto; lia). replace (p' =? p) with false by lia. reflexivity.
Qed.

(** The state after [n] turns of the consumption loop. *)
Definition consumedBy (t : TxOwnership) (n : Z) (t' : TxOwnership) : Prop :=
  consumer t' = (consumer t + n) mod Count /\ bdRing t' = bdRing t /\ polluted t' = polluted t /\
  nextPage t' = nextPage t /\ producer t' = producer t /\ pendingBd t' = pendingBd t /\
  outstanding t' = outstanding t /\ length (pages t') = Z.to_nat Count /\ usedCount t' = usedCount t /\
  forall p, 0 <= p < Count -> slotAt t' p =
    if bool_decide (p ∈ map (fun k => ringAt t ((consumer t + k) mod Count)) (seqZ 0 n))
    then (slotAt t p) <| s_consumed := true |> else slotAt t p.

Lemma consume_iter t n : ledgerInv t -> (Z.of_nat n <= pendingBd t) ->
  consumedBy t (Z.of_nat n) (Nat.iter n consumeOne t).
Proof.
  intros Hinv. induction n as [|n IH]; intros Hn.
  - pose proof (iv_consumer t Hinv). repeat split; try reflexivity; [|apply (iv_pages t Hinv)].
    simpl. rewrite Z.add_0_r, Z.mod_small by lia. reflexivity.
  - destruct (IH ltac:(lia)) as (A1 & A2 & A3 & A4 & A5 & A6 & A7 & A8 & A9 & A10).
    change (Nat.iter (S n) consumeOne t) with (consumeOne (Nat.iter n consumeOne t)).
    set (u := Nat.iter n consumeOne t) in *. clearbody u. unfold consumeOne.
    set (p := ringAt u (consumer u)).
    assert (Hp : p = ringAt t ((consumer t + Z.of_nat n) mod Count)) by (unfold p, ringAt; rewrite A1, A2; reflexivity).
    assert (Hpin : p ∈ fifo t) by (apply fifo_in; exists (Z.of_nat n); split; [lia|exact Hp]).
    pose proof (fifo_range t p Hinv Hpin) as Hr.
    split.
    { simpl. rewrite A1, Nat2Z.inj_succ, Z.add_mod_idemp_l by lia. f_equal. lia. }
    do 6 (split; [assumption|]). split; [simpl; rewrite length_insert; exact A8|].
    split.
    { change (usedCount (setSlot p ((slotAt u p) <| s_consumed := true |>) u) = usedCount t).
      rewrite usedCount_set by auto. simpl. rewrite A9. lia. }
    intros p' Hp'. change (slotAt (setSlot p ((slotAt u p) <| s_consumed := true |>) u) p' =
      if bool_decide (p' ∈ map (fun k => ringAt t ((consumer t + k) mod Count)) (seqZ 0 (Z.of_nat (S n))))
      then (slotAt t p') <| s_consumed := true |> else slotAt t p').
    rewrite slotAt_setSlot, !A10 by (auto; lia).
    rewrite seqZ_S, map_app. simpl map. rewrite Z.add_0_l, <- Hp.
    set (l := map _ (seqZ 0 (Z.of_nat n))). destruct (Z.eqb_spec p' p) as [->|Hne].
    + rewrite (bool_decide_true (p ∈ l ++ [p])) by (apply elem_of_app; right; apply list_elem_of_singleton; reflexivity). destruct (bool_decide (p ∈ l)); reflexivity.
    + destruct (bool_decide_reflect (p' ∈ l)).
      * rewrite bool_decide_true by (apply elem_of_app; auto). reflexivity.
      * rewrite bool_decide_false; [reflexivity|]. rewrite elem_of_app, list_elem_of_singleton. tauto.
Qed.

Lemma consumedTo_spec i t t' : ledgerInv t -> 0 <= i -> consumedTo i t = (qOk, t') ->
  ledgerInv t' /\ ledgerStep t (OpConsumed i) None t'.
Proof.
  intros Hinv Hi. unfold consumedTo. destruct (Z.leb_spec Count i); [discriminate|].
  set (a := (i + Count - consumer t) mod Count).
  assert (Ha : 0 <= a < Count) by (apply Z.mod_pos_bound; lia).
  destruct (Z.ltb_spec (pendingBd t) a); [discriminate|]. intros [= <-].
  pose proof (consume_iter t (Z.to_nat a) Hinv ltac:(lia)) as Hc. rewrite Z2Nat.id in Hc by lia.
  set (u := Nat.iter _ _ t) in *. clearbody u. destruct Hc as (A1 & A2 & A3 & A4 & A5 & A6 & A7 & A8 & A9 & A10).
  set (gone := map (fun k => ringAt t ((consumer t + k) mod Count)) (seqZ 0 a)) in *.
  match goal with |- ledgerInv ?x /\ _ => set (t' := x) end.
  assert (Hsplit : fifo t = gone ++ fifo t').
  { unfold fifo, gone. replace (pendingBd t) with (a + (pendingBd t - a)) by lia.
    rewrite seqZ_app, map_app by lia. f_equal. rewrite Z.add_0_l, map_seqZ_shift.
    change (pendingBd t') with (pendingBd t - a). apply map_ext. intros k. unfold ringAt, t'. simpl.
    rewrite A1, A2, Z.add_mod_idemp_l by lia. do 3 f_equal. lia. }
  destruct Hinv as [I1 I2 I3 I4 I5 I6 I7 I8 I9 I10].
  pose proof I9 as Hnd. rewrite Hsplit in Hnd. apply NoDup_app in Hnd as (Hnd1 & Hdisj & Hnd2).
  split.
  - split; simpl.
    + exact A8.
    + rewrite A2. exact I2.
    + rewrite A3. exact I3.
    + rewrite A1. apply Z.mod_pos_bound. lia.
    + lia.
    + rewrite A5, A1, I6, Z.add_mod_idemp_l by lia. f_equal. lia.
    + rewrite A4. exact I7.
    + transitivity (usedCount u); [rewrite A7, A9; exact I8|reflexivity].
    + exact Hnd2.
    + intros p. cut (p ∈ fifo t' <-> 0 <= p < Count /\ s_used (slotAt u p) = true /\ s_consumed (slotAt u p) = false);
        [auto|]. split.
      * intros Hp. assert (Hp' : p ∈ fifo t) by (rewrite Hsplit; apply elem_of_app; auto).
        apply I10 in Hp' as (R & B & C). split; [exact R|]. rewrite A10 by exact R.
        rewrite bool_decide_false by (intros E; exact (Hdisj p E Hp)). auto.
      * intros (R & B & C). rewrite A10 in B, C by exact R.
        destruct (bool_decide_reflect (p ∈ gone)) as [Hg|Hg]; [discriminate|].
        assert (Hp : p ∈ fifo t) by (apply I10; auto). rewrite Hsplit in Hp. apply elem_of_app in Hp as [Hp|Hp]; [contradiction|exact Hp].
  - exists gone. split; [exact Hsplit|]. intros p Hp. unfold leaseOf.
    change (slotAt t' p) with (slotAt u p). change (polluted t') with (polluted u). rewrite A10, A3 by exact Hp.
    destruct (bool_decide (p ∈ gone)); [|reflexivity]. simpl. destruct (s_used (slotAt t p)); reflexivity.
Qed.

(** Changing a slot and its pollution mark. *)
Definition withSlot (p : Z) (s : Slot) (b : bool) (t : TxOwnership) : TxOwnership :=
  (setSlot p s t) <| polluted := <[Z.to_nat p := b]> (polluted t) |>.

Lemma withSlot_at p s b t p' : ledgerInv t -> 0 <= p < Count -> 0 <= p' ->
  slotAt (withSlot p s b t) p' = (if p' =? p then s else slotAt t p') /\
  nth (Z.to_nat p') (polluted (withSlot p s b t)) false =
    (if p' =? p then b else nth (Z.to_nat p') (polluted t) false).
Proof.
  intros Hinv Hp Hp'. split; [exact (slotAt_setSlot p s t p' (iv_pages t Hinv) Hp Hp')|].
  exact (ringAt_insert (polluted t) p b p' false (iv_pol t Hinv) Hp Hp').
Qed.

Lemma withSlot_inv t t' p s b : ledgerInv t -> 0 <= p < Count ->
  pages t' = pages (withSlot p s b t) -> polluted t' = polluted (withSlot p s b t) ->
  bdRing t' = bdRing t -> producer t' = producer t -> consumer t' = consumer t ->
  pendingBd t' = pendingBd t -> nextPage t' = nextPage t ->
  outstanding t' = outstanding t - (if s_used (slotAt t p) then 1 else 0) + (if s_used s then 1 else 0) ->
  s_used s && negb (s_consumed s) = s_used (slotAt t p) && negb (s_consumed (slotAt t p)) ->
  ledgerInv t'.
Proof.
  intros Hinv Hp E1 E2 E3 E4 E5 E6 E7 E8 Hw. pose proof Hinv as [I1 I2 I3 I4 I5 I6 I7 I8 I9 I10].
  assert (Hf : fifo t' = fifo t) by (unfold fifo, ringAt; rewrite E3, E5, E6; reflexivity).
  assert (Hs : forall p', 0 <= p' -> slotAt t' p' = if p' =? p then s else slotAt t p').
  { intros p' Hp'. transitivity (slotAt (withSlot p s b t) p'); [unfold slotAt; rewrite E1; reflexivity|].
    apply (withSlot_at p s b t p' Hinv Hp Hp'). }
  split.
  - rewrite E1. simpl. rewrite length_insert. exact I1.
  - rewrite E3. exact I2.
  - rewrite E2. simpl. rewrite length_insert. exact I3.
  - rewrite E5. exact I4.
  - rewrite E6. exact I5.
  - rewrite E4, E5, E6. exact I6.
  - rewrite E7. exact I7.
  - rewrite E8, I8. unfold usedCount at 2. rewrite E1. symmetry. exact (usedCount_set p s t I1 Hp).
  - rewrite Hf. exact I9.
  - intros p'. rewrite Hf, I10. split; intros (R & B & C); (split; [exact R|]); rewrite Hs in * by lia;
      destruct (Z.eqb_spec p' p) as [->|]; auto.
    + rewrite B, C in Hw. destruct (s_used s), (s_consumed s); auto; discriminate.
    + rewrite B, C in Hw. destruct (s_used (slotAt t p)), (s_consumed (slotAt t p)); auto; discriminate.
Qed.

Lemma report_spec r t t' : ledgerInv t -> 0 <= rp_page r -> report r t = (qOk, t') ->
  ledgerInv t' /\ ledgerStep t (OpReport r) None t'.
Proof.
  intros Hinv Hr. unfold report. set (p := rp_page r) in *. destruct (_ || _) eqn:Hg1; [discriminate|].
  destruct (_ || _) eqn:Hg2 in |- *; [discriminate|].
  destruct (s_reported _) eqn:Hrep; [discriminate|]. intros [= <-].
  apply orb_false_iff in Hg1 as [Hg1 _]. apply orb_false_iff in Hg2 as [Hg2 Hm]. apply orb_false_iff in Hg2 as [Hu Hq].
  apply negb_false_iff in Hu. assert (Hp : 0 <= p < Count) by lia.
  set (s := ((slotAt t p) <| s_reported := true |>) <| s_status := rp_status r |>).
  change (ledgerInv (withSlot p s (rp_polluted r) t) /\ ledgerStep t (OpReport r) None (withSlot p s (rp_polluted r) t)).
  split.
  - apply (withSlot_inv t _ p s (rp_polluted r)); try reflexivity; auto. unfold s. simpl. lia.
  - split; [reflexivity|]. split.
    + unfold leaseOf. change (rp_page r) with p. rewrite Hu, Hrep. eexists. split; [reflexivity|]. simpl. repeat split; lia.
    + intros p' Hp'. change (rp_page r) with p. unfold leaseOf.
      destruct (withSlot_at p s (rp_polluted r) t p' Hinv Hp ltac:(lia)) as [-> ->].
      destruct (Z.eqb_spec p' p) as [->|Hne]; [|reflexivity]. unfold s. simpl. rewrite Hu. reflexivity.
Qed.

Lemma takeLease_spec p t c t' : ledgerInv t -> 0 <= p -> takeLease p t = (qOk, c, t') ->
  ledgerInv t' /\ ledgerStep t (OpTake p) (Some c) t'.
Proof.
  intros Hinv Hp0. unfold takeLease. destruct (Z.leb_spec Count p); [discriminate|].
  destruct (_ || _) eqn:Hg; [discriminate|]. intros [= <- <-].
  apply orb_false_iff in Hg as [Hg Hr]. apply orb_false_iff in Hg as [Hu Hc].
  apply negb_false_iff in Hu, Hc, Hr. assert (Hp : 0 <= p < Count) by lia.
  match goal with |- ledgerInv ?x /\ _ => set (t' := x) end. split; [|split; [reflexivity|split]].
  - apply (withSlot_inv t t' p emptySlot false); try reflexivity; auto.
    + rewrite Hu. simpl. lia.
    + rewrite Hu, Hc. reflexivity.
  - unfold leaseOf. rewrite Hu, Hr. do 3 eexists. split; [reflexivity|]. split; [exact Hc|]. split; reflexivity.
  - intros p' Hp'. unfold leaseOf.
    change (slotAt t' p') with (slotAt (withSlot p emptySlot false t) p').
    change (polluted t') with (polluted (withSlot p emptySlot false t)).
    destruct (withSlot_at p emptySlot false t p' Hinv Hp ltac:(lia)) as [-> ->].
    destruct (Z.eqb_spec p' p) as [->|Hne]; reflexivity.
Qed.

(** The arguments are of unsigned types. *)
Definition opArgs (o : ledgerOp) : Prop :=
  match o with
  | OpCommit _ _ _ _ => True
  | OpConsumed i => 0 <= i
  | OpReport r => 0 <= rp_page r
  | OpTake p => 0 <= p
  end.

Lemma applyOp_spec t o st c t' : ledgerInv t -> opArgs o -> applyOp o t = (st, c, t') ->
  ledgerInv t' /\ (st <> qOk -> t' = t) /\ (st = qOk -> ledgerStep t o c t').
Proof.
  intros Hinv Ha Happ. destruct (decide (st = qOk)) as [->|Hne].
  - enough (ledgerInv t' /\ ledgerStep t o c t') as [H1 H2] by (split; [exact H1|split; [congruence|auto]]).
    destruct o; simpl in Happ, Ha.
    + destruct (commit _ _ _ _ t) as [st1 t1] eqn:E. injection Happ as -> <- ->. exact (ledger_commit_spec _ _ _ _ _ _ Hinv E).
    + destruct (consumedTo _ t) as [st1 t1] eqn:E. injection Happ as -> <- ->. exact (consumedTo_spec _ _ _ Hinv Ha E).
    + destruct (report _ t) as [st1 t1] eqn:E. injection Happ as -> <- ->. exact (report_spec _ _ _ Hinv Ha E).
    + destruct (takeLease _ t) as [[st1 c1] t1] eqn:E. injection Happ as -> <- ->. exact (takeLease_spec _ _ _ _ Hinv Ha E).
  - enough (t' = t) as -> by (split; [exact Hinv|split; [reflexivity|congruence]]).
    destruct o; simpl in Happ.
    + unfold commit in Happ. destruct (peek t). destruct (_ || _) in Happ; congruence.
    + unfold consumedTo in Happ. destruct (Count <=? index); [congruence|]. destruct (_ <? _) in Happ; congruence.
    + unfold report in Happ. destruct (_ || _) in Happ; [congruence|]. destruct (_ || _) in Happ; [congruence|].
      destruct (s_reported _) in Happ; congruence.
    + unfold takeLease in Happ. destruct (Count <=? page); [congruence|]. destruct (_ || _) in Happ; congruence.
Qed.

Lemma newTx_inv : ledgerInv newTx.
Proof.
  assert (Hs : forall p, slotAt newTx p = emptySlot).
  { intros p. unfold slotAt. simpl. destruct (replicate (Z.to_nat Count) emptySlot !! Z.to_nat p) as [x|] eqn:E.
    - rewrite (nth_lookup_Some _ _ _ x E). apply lookup_replicate in E. tauto.
    - rewrite nth_lookup, E. reflexivity. }
  assert (Hz : usedCount newTx = 0).
  { unfold usedCount. simpl. induction (Z.to_nat Count) as [|k IH]; [reflexivity|].
    simpl replicate. rewrite filter_cons. simpl. exact IH. }
  split; simpl; try lia.
  - apply length_replicate.
  - unfold zeros. apply length_replicate.
  - apply length_replicate.
  - reflexivity.
  - constructor.
  - intros p. rewrite Hs. split; [intros E; inversion E|simpl; intros (_ & E & _); discriminate].
Qed.

(** The ledgers reachable by the operations. *)
Inductive reachable : TxOwnership -> Prop :=
| reach_new : reachable newTx
| reach_step t o st c t' : reachable t -> opArgs o -> applyOp o t = (st, c, t') -> reachable t'.

Lemma ledger_reachable_inv t : reachable t -> ledgerInv t.
Proof.
  induction 1 as [|t o st c t' _ IH Ha Happ]; [exact newTx_inv|].
  apply (applyOp_spec t o st c t' IH Ha Happ).
Qed.


Lemma peekLoop_complete fuel n t : peekLoop fuel n t = None ->
  forall k, n <= k < n + Z.of_nat fuel -> s_used (slotAt t ((nextPage t + k) mod Count)) = true.
Proof.
  revert n. induction fuel as [|fuel IH]; intros n H k Hk; [lia|]. simpl in H.
  destruct (s_used (slotAt t ((nextPage t + n) mod Count))) eqn:E; [|discriminate].
  destruct (Z.eq_dec k n) as [->|]; [exact E|]. apply (IH (n + 1) H). lia.
Qed.

Lemma all_used_count t : ledgerInv t -> (forall p, 0 <= p < Count -> s_used (slotAt t p) = true) ->
  usedCount t = Count.
Proof.
  intros Hinv Hall. unfold usedCount. pose proof (iv_pages t Hinv) as Hl.
  assert (Hf : forall l : list Slot, (forall i s, l !! i = Some s -> s_used s = true) ->
    filter (fun s => s_used s = true) l = l).
  { induction l as [|x l IH]; intros H; [reflexivity|]. rewrite filter_cons.
    rewrite decide_True by (apply (H O x); reflexivity). f_equal. apply IH. intros i s Hi. apply (H (S i) s Hi). }
  rewrite Hf; [unfold zlen; lia|]. intros i s Hi. pose proof (lookup_lt_Some _ _ _ Hi).
  specialize (Hall (Z.of_nat i) ltac:(lia)). unfold slotAt in Hall. rewrite Nat2Z.id in Hall.
  rewrite (nth_lookup_Some _ _ _ s Hi) in Hall. exact Hall.
Qed.


End ownership.

(** ** A concrete ledger of four pages *)

Definition sampleLedger : TxOwnership := (commit 4 (peek 4 (newTx 4)).2 3 5 77 (newTx 4)).2.

Lemma sampleLedger_reachable : reachable 4 sampleLedger.
Proof.
  apply (reach_step 4 (newTx 4) (OpCommit (peek 4 (newTx 4)).2 3 5 77) qOk None); [constructor|exact I|reflexivity].
Qed.

(** Reported before consumed: the page comes back after both. *)
Example sampleLedger_order :
  let r := mkReport 0 3 5 1 false in
  let t1 := (report 4 r sampleLedger).2 in
  (takeLease 4 0 t1).1.1 = qNotReady /\
  (takeLease 4 0 (consumedTo 4 1 t1).2).1 = (qOk, mkCompletion 77 1 false) /\
  (report 4 r t1).1 = qDuplicate.
Proof. vm_compute. auto. Qed.



(** ** The wire formats *)

Lemma le32_bytes_split v : le16_bytes (u16 v) ++ le16_bytes (u16 (Z.shiftr v 16)) = le32_bytes v.
Proof.
  unfold le16_bytes, le32_bytes. cbn [app]. rewrite !Z.shiftr_div_pow2 by lia.
  change (2^8) with 256. change (2^16) with 65536. change (2^24) with 16777216.
  f_equal; [zlia|]. f_equal; [zlia|]. f_equal; [zlia|]. f_equal. zlia.
Qed.

Lemma store32_in {E} b p v : 0 <= p -> p + 4 <= zlen b -> store32 (E:=E) b p v = MVal (blit b p (le32_bytes v)).
Proof.
  intros Hp Hl. unfold store32, store16. rewrite store_in by (change (zlen (le16_bytes _)) with 2; lia).
  cbn [mbind mres_bind].
  rewrite store_in by (rewrite ?zlen_blit; change (zlen (le16_bytes (u16 v))) with 2; change (zlen (le16_bytes (u16 (Z.shiftr v 16)))) with 2; lia).
  f_equal. rewrite <- le32_bytes_split. unfold blit at 1 3. set (x := le16_bytes (u16 v)).
  set (y := le16_bytes (u16 (Z.shiftr v 16))).
  assert (Hlx : length x = 2%nat) by reflexivity. assert (Hly : length y = 2%nat) by reflexivity.
  clearbody x y. unfold zlen in Hl. unfold blit. rewrite length_app, Hlx, Hly.
  replace (Z.to_nat (p + 2)) with (Z.to_nat p + 2)%nat by lia.
  assert (Ht : length (take (Z.to_nat p) b) = Z.to_nat p) by (rewrite length_take; lia).
  rewrite (take_app_ge _ _ (Z.to_nat p + 2)) by lia. rewrite Ht.
  replace (Z.to_nat p + 2 - Z.to_nat p)%nat with 2%nat by lia.
  rewrite (take_app_le x) by lia. rewrite (take_ge x) by lia. rewrite <- !app_assoc. do 2 f_equal.
  f_equal. rewrite drop_app_ge by lia. rewrite Ht.
  replace (Z.to_nat p + 2 + 2 - Z.to_nat p)%nat with 4%nat by lia.
  rewrite drop_app_ge by lia. rewrite Hlx, drop_drop. f_equal. lia.
Qed.

Lemma store32_spec {E} b p v Q : 0 <= p -> p + 4 <= zlen b -> Q (blit b p (le32_bytes v)) ->
  mspec (store32 (E:=E) b p v) Q.
Proof. intros. rewrite store32_in by auto. auto. Qed.
Lemma store16_spec {E} b p v Q : 0 <= p -> p + 2 <= zlen b -> Q (blit b p (le16_bytes v)) ->
  mspec (store16 (E:=E) b p v) Q.
Proof. intros. apply store_spec; auto. Qed.

Lemma le32_at_blit b p v q : 0 <= p -> p + 4 <= zlen b -> 0 <= q -> q = p \/ q + 4 <= p \/ p + 4 <= q ->
  le32_at (blit b p (le32_bytes v)) q = if q =? p then u32 v else le32_at b q.
Proof.
  intros Hp Hl Hq Hd. unfold le32_at.
  assert (H4 : zlen (le32_bytes v) = 4) by reflexivity.
  rewrite !byte_at_blit by lia. rewrite H4. destruct (Z.eqb_spec q p) as [->|Hne].
  - replace ((p <=? p) && (p <? p + 4)) with true by lia.
    replace ((p <=? p + 1) && (p + 1 <? p + 4)) with true by lia.
    replace ((p <=? p + 2) && (p + 2 <? p + 4)) with true by lia.
    replace ((p <=? p + 3) && (p + 3 <? p + 4)) with true by lia.
    replace (p - p) with 0 by lia. replace (p + 1 - p) with 1 by lia. replace (p + 2 - p) with 2 by lia.
    replace (p + 3 - p) with 3 by lia. unfold byte_at, le32_bytes.
    change (Z.to_nat 0) with 0%nat. change (Z.to_nat 1) with 1%nat. change (Z.to_nat 2) with 2%nat.
    change (Z.to_nat 3) with 3%nat. cbn [nth]. rewrite !u8_u8. apply le32_of_bytes.
  - replace ((p <=? q) && (q <? p + 4)) with false by lia.
    replace ((p <=? q + 1) && (q + 1 <? p + 4)) with false by lia.
    replace ((p <=? q + 2) && (q + 2 <? p + 4)) with false by lia.
    replace ((p <=? q + 3) && (q + 3 <? p + 4)) with false by lia. reflexivity.
Qed.

Lemma zlen_blit16 b p v : 0 <= p -> p + 2 <= zlen b -> zlen (blit b p (le16_bytes v)) = zlen b.
Proof. intros. apply zlen_blit; auto. Qed.

Lemma blit_zeros_head n (src : buf) : zlen src <= n -> blit (zeros n) 0 src = src ++ zeros (n - zlen src).
Proof.
  intros H. pose proof (zlen_nonneg src). replace n with (zlen src + (n - zlen src)) at 1 by lia.
  rewrite zeros_app by lia. rewrite blit_app_l by (rewrite ?zlen_zeros; lia).
  rewrite blit_all; [reflexivity|]. rewrite zlen_zeros; lia.
Qed.

Lemma dma32Range_spec a n : 0 <= a -> 0 <= n -> dma32Range a n = true -> 0 < n /\ a + n <= 4294967296.
Proof. unfold dma32Range. lia. Qed.

(** The page a descriptor points at, behind the [body] bytes of the
    descriptor proper. *)
Definition pciInfo (page size frameDma : Z) : buf :=
  le16_bytes (u16 (Z.lor page 0x8000)) ++ zeros 6 ++ le16_bytes size ++ le16_bytes 0x8001 ++
  le32_bytes (u32 frameDma).

Lemma pci_wd_bytes (body : Z) page size frameDma : body = 24 \/ body = 48 ->
  blit (blit (blit (blit (zeros (64 - body)) 0 (le16_bytes (u16 (Z.lor page 0x8000)))) 8 (le16_bytes size))
    10 (le16_bytes 0x8001)) 12 (le32_bytes (u32 frameDma)) = pciInfo page size frameDma ++ zeros (48 - body).
Proof. intros [-> | ->]; reflexivity. Qed.

(** a transmit frame is handed to the hardware in a consistent form: for
    every request that [encodePciTx] accepts, the page holds the 24- or 48-byte
    descriptor of the request with the address count set, then the page's
    sequence number, the frame's length and DMA address; the ring entry holds
    the length and the DMA address of exactly that page; both address ranges
    are below 4 GiB, and no store leaves the 64-byte page. *)
Theorem encodePciTx_layout info page wdDma frameDma :
  typed info -> 0 <= wdDma -> 0 <= frameDma ->
  match encodePciTx info page wdDma frameDma with
  | MVal w =>
      let body := if en_wd_info info then 48 else 24 in
      exists desc, encodeTx (info <| addr_info_nr := 1 |>) true 64 = MVal desc /\ zlen desc = body /\
        wire_wd w = desc ++ pciInfo page (pkt_size info) frameDma ++ zeros (48 - body) /\
        wire_bd w = le16_bytes (body + 16) ++ le16_bytes 0x4000 ++ le32_bytes wdDma /\
        wdBytes w = body + 16 /\ wdDma + wdBytes w <= 2^32 /\ frameDma + pkt_size info <= 2^32 /\
        dataChannel (qsel info) = ch_dma info /\ page <= 0x7fff
  | MErr _ => True
  | MOob => False
  end.
Proof.
  intros Ht Hwd Hfr.
  cut (mspec (encodePciTx info page wdDma frameDma) (fun w =>
      let body := if en_wd_info info then 48 else 24 in
      exists desc, encodeTx (info <| addr_info_nr := 1 |>) true 64 = MVal desc /\ zlen desc = body /\
        wire_wd w = desc ++ pciInfo page (pkt_size info) frameDma ++ zeros (48 - body) /\
        wire_bd w = le16_bytes (body + 16) ++ le16_bytes 0x4000 ++ le32_bytes wdDma /\
        wdBytes w = body + 16 /\ wdDma + wdBytes w <= 2^32 /\ frameDma + pkt_size info <= 2^32 /\
        dataChannel (qsel info) = ch_dma info /\ page <= 0x7fff)); [intros H; exact H|].
  unfold encodePciTx. do 2 mstep. cbv zeta. set (body := if en_wd_info info then 48 else 24).
  assert (Hb : body = 24 \/ body = 48) by (unfold body; destruct (en_wd_info info); auto).
  mstep. mstep. apply orb_false_iff in Hg0 as [G1 G2]. apply negb_false_iff in G1, G2.
  apply dma32Range_spec in G1, G2; [|lia|unfold typed in Ht; zlia|lia|lia].
  destruct (encodeTx _ true 64) as [desc|e|] eqn:E; [|exact I|].
  2:{ unfold encodeTx in E. simpl in E. destruct (pkt_size info =? 0); simpl in E; [discriminate|].
      destruct (txFieldsFit _); simpl in E; [|discriminate].
      destruct (64 <? _); simpl in E; discriminate. }
  pose proof (encodeTx_words _ _ _ E) as (_ & _ & _ & Hl & _). change (en_wd_info _) with (en_wd_info info) in Hl.
  fold body in Hl. cbn [mbind mres_bind]. mstep. apply store_spec; [lia|rewrite zlen_zeros; lia|].
  rewrite blit_zeros_head, Hl by lia.
  assert (Hz : zlen (desc ++ zeros (64 - body)) = 64) by (rewrite zlen_app, zlen_zeros; lia).
  change (pkt_size (info <| addr_info_nr := 1 |>)) with (pkt_size info).
  mstep. apply store16_spec; [lia|lia|]. mstep. apply store16_spec; [lia|rewrite zlen_blit16; lia|].
  mstep. apply store16_spec; [lia|rewrite !zlen_blit16 by (rewrite ?zlen_blit16 by (rewrite ?zlen_blit16 by lia; lia); lia); lia|].
  mstep. apply store32_spec; [lia|rewrite !zlen_blit16 by (rewrite ?zlen_blit16 by (rewrite ?zlen_blit16 by lia; lia); lia); lia|].
  rewrite !blit_app_r by lia. rewrite Hl, Z.sub_diag.
  replace (body + 8 - body) with 8 by lia. replace (body + 10 - body) with 10 by lia.
  replace (body + 12 - body) with 12 by lia. rewrite pci_wd_bytes by exact Hb.
  mstep. apply store16_spec; [lia|vm_compute; discriminate|]. mstep.
  apply store16_spec; [lia|vm_compute; discriminate|]. mstep.
  apply store32_spec; [lia|vm_compute; discriminate|]. mstep. cbn [wire_wd wire_bd wdBytes].
  exists desc. split; [reflexivity|]. split; [exact Hl|]. split; [reflexivity|]. split; [|change (2 ^ 32) with 4294967296; repeat split; lia].
  rewrite !u16_small by zlia. rewrite u32_small by zlia. reflexivity.
Qed.

Lemma encodePciTx_layout_witness :
  match encodePciTx sampleTx 7 0x1000 0x2000 with
  | MVal w =>
      let body := if en_wd_info sampleTx then 48 else 24 in
      exists desc, encodeTx (sampleTx <| addr_info_nr := 1 |>) true 64 = MVal desc /\ zlen desc = body /\
        wire_wd w = desc ++ pciInfo 7 (pkt_size sampleTx) 0x2000 ++ zeros (48 - body) /\
        wire_bd w = le16_bytes (body + 16) ++ le16_bytes 0x4000 ++ le32_bytes 0x1000 /\
        wdBytes w = body + 16 /\ 0x1000 + wdBytes w <= 2^32 /\ 0x2000 + pkt_size sampleTx <= 2^32 /\
        dataChannel (qsel sampleTx) = ch_dma sampleTx /\ 7 <= 0x7fff
  | MErr _ => True
  | MOob => False
  end.
Proof. exact (encodePciTx_layout sampleTx 7 0x1000 0x2000 sampleTx_typed ltac:(lia) ltac:(lia)). Defined.

Example encodePciTx_sample :
  match encodePciTx sampleTx 7 0x1000 0x2000 with MVal w => take 4 (wire_bd w) = [64; 0; 0; 64] | _ => False end.
Proof. vm_compute. reflexivity. Qed.
