(* ===== verification/Protocol.v ===== *)
(** * Firmware messages (src/network/FirmwareProtocol.hpp)

    Host-to-card commands, card-to-host events and acknowledgements, and the
    role and join commands. *)

From S2P Require Import Prelude Descriptors DataPath.

Record CommandId := mkCommandId { category : Z; commandClass : Z; function : Z }.
Definition sameCommand (a b : CommandId) : bool :=
  (category a =? category b) && (commandClass a =? commandClass b) && (function a =? function b).

(** The payload pointer of [encodeH2c]: null, the output buffer itself, or
    another buffer. *)
Inductive Source := NullPtr | SameAsOut | Payload (b : buf).

(** [i = length - k] counts down. *)
Definition prependStep (length k : Z) (out : buf) : mres unit buf :=
  let i := length - k in
  v ← rd8 out (i - 1); store out (i + 7) [v].
Definition copyStep (p : buf) (i : Z) (out : buf) : mres unit buf :=
  v ← rd8 p i; store out (8 + i) [v].

(** [MErr] is the answer false: nothing is written and [written] is 0. *)
Definition encodeH2c (id : CommandId) (sequence : Z) (receiveAck doneAck : bool)
    (payload : Source) (length : Z) (out : option buf) (capacity : Z) : mres unit (buf * Z) :=
  match out with
  | None => MErr tt
  | Some out =>
      fail_if ((match payload with NullPtr => negb (length =? 0) | _ => false end) ||
               (3 <? category id) || (63 <? commandClass id) || (0x3fff - 8 <? length) ||
               (capacity <? length + 8)) tt;;
      out ← match payload with
            | NullPtr => mret out
            | SameAsOut => for_m (Z.to_nat length) 0 (prependStep length) out
            | Payload p => for_m (Z.to_nat length) 0 (copyStep p) out
            end;
      out ← store32 out 0 (Z.lor (Z.lor (Z.lor (category id) (Z.shiftl (commandClass id) 2))
                             (Z.shiftl (function id) 8)) (Z.shiftl sequence 24));
      let receiveAck := receiveAck || (sequence mod 4 =? 0) in
      out ← store32 out 4 (Z.lor (Z.lor (u32 (length + 8)) (if receiveAck then 0x4000 else 0))
                             (if doneAck then 0x8000 else 0));
      mret (out, length + 8)
  end.

(** The payload pointer is the buffer from the payload on. *)
Record FirmwareEvent := mkEvent { ev_id : CommandId; ev_payload : option buf; ev_length : Z }.

Definition decodeC2h (packet : option buf) (bytes : Z) : mres unit FirmwareEvent :=
  match packet with
  | None => MErr tt
  | Some packet =>
      fail_if (bytes <? 8) tt;;
      w0 ← little32 packet 0;
      w1 ← little32 packet 4;
      let total := Z.land w1 0x3fff in
      fail_if ((total <? 8) || (bytes <? total)) tt;;
      mret (mkEvent (mkCommandId (u8 (Z.land w0 3)) (u8 (Z.land (Z.shiftr w0 2) 63))
                       (u8 (Z.land (Z.shiftr w0 8) 255)))
              (Some (drop 8 packet)) (total - 8))
  end.

Record FirmwareAck := mkAck { command : CommandId; ack_sequence : Z; returnCode : Z; done : bool }.

Definition decodeAck (event : FirmwareEvent) : mres unit FirmwareAck :=
  fail_if (negb (category (ev_id event) =? 1) || negb (commandClass (ev_id event) =? 0) ||
           (1 <? function (ev_id event))) tt;;
  match ev_payload event with
  | None => MErr tt
  | Some payload =>
      fail_if (ev_length event <? 4) tt;;
      word ← little32 payload 0;
      let done := function (ev_id event) =? 1 in
      mret (mkAck (mkCommandId (u8 (Z.land word 3)) (u8 (Z.land (Z.shiftr word 2) 63))
                     (u8 (Z.land (Z.shiftr word 8) 255)))
              (u8 (Z.shiftr word (if done then 24 else 16)))
              (if done then u8 (Z.shiftr word 16) else 0) done)
  end.

Record RoleCommand := mkRole { r_macid : Z; r_selfRole : Z; r_updateMode : Z; r_wifiRole : Z }.
Definition roleWord (p : RoleCommand) : Z :=
  Z.lor (Z.lor (Z.lor (r_macid p) (Z.shiftl (r_selfRole p) 8)) (Z.shiftl (r_updateMode p) 10))
    (Z.shiftl (r_wifiRole p) 13).
Definition encodeRole (p : RoleCommand) (sequence : Z) (out : option buf) (capacity : Z) : mres unit (buf * Z) :=
  fail_if ((3 <? r_selfRole p) || (7 <? r_updateMode p) || (15 <? r_wifiRole p)) tt;;
  payload ← store32 (zeros 4) 0 (roleWord p);
  encodeH2c (mkCommandId 1 8 4) sequence false true (Payload payload) 4 out capacity.

Record JoinCommand := mkJoin {
  j_macid : Z; j_band : Z; j_wmm : Z; j_port : Z; j_netType : Z; j_wifiRole : Z; j_selfRole : Z;
  j_disconnect : bool; j_trigger : bool
}.
Definition joinWord (p : JoinCommand) : Z :=
  Z.lor (Z.lor (Z.lor (Z.lor (Z.lor (Z.lor (Z.lor (Z.lor (j_macid p)
    (Z.shiftl (Z.b2z (j_disconnect p)) 8)) (Z.shiftl (j_band p) 9)) (Z.shiftl (j_wmm p) 10))
    (Z.shiftl (Z.b2z (j_trigger p)) 12)) (Z.shiftl (j_port p) 21)) (Z.shiftl (j_netType p) 24))
    (Z.shiftl (j_wifiRole p) 26)) (Z.shiftl (j_selfRole p) 30).
Definition encodeJoin (p : JoinCommand) (sequence : Z) (out : option buf) (capacity : Z) : mres unit (buf * Z) :=
  fail_if ((1 <? j_band p) || (3 <? j_wmm p) || (7 <? j_port p) || (3 <? j_netType p) ||
           (15 <? j_wifiRole p) || (3 <? j_selfRole p)) tt;;
  payload ← store32 (zeros 4) 0 (joinWord p);
  encodeH2c (mkCommandId 1 8 0) sequence false true (Payload payload) 4 out capacity.

(** ** Headers *)

Lemma land3_mod w : Z.land w 3 = w mod 4. Proof. exact (Z.land_ones w 2 ltac:(lia)). Qed.
Lemma land63_mod w : Z.land w 63 = w mod 64. Proof. exact (Z.land_ones w 6 ltac:(lia)). Qed.
Lemma land255_mod w : Z.land w 255 = w mod 256. Proof. exact (Z.land_ones w 8 ltac:(lia)). Qed.
Lemma land3fff_mod w : Z.land w 0x3fff = w mod 16384. Proof. exact (Z.land_ones w 14 ltac:(lia)). Qed.

Ltac shift_sums :=
  repeat rewrite Z.shiftr_div_pow2 by lia; rewrite ?land3_mod, ?land63_mod, ?land255_mod, ?land3fff_mod;
  change (2^2) with 4 in *; change (2^8) with 256 in *; change (2^16) with 65536 in *;
  change (2^24) with 16777216 in *; change (2^13) with 8192 in *; change (2^10) with 1024 in *;
  change (2^14) with 16384 in *; change (2^15) with 32768 in *.

Definition idOk (id : CommandId) : Prop := 0 <= category id < 4 /\ 0 <= commandClass id < 64 /\ in_u8 (function id).

Definition headerWord (id : CommandId) (sequence : Z) : Z :=
  Z.lor (Z.lor (Z.lor (category id) (Z.shiftl (commandClass id) 2)) (Z.shiftl (function id) 8)) (Z.shiftl sequence 24).

Lemma headerWord_sum id q : idOk id -> in_u8 q ->
  headerWord id q = category id + commandClass id * 4 + function id * 256 + q * 16777216.
Proof.
  intros (H1 & H2 & H3) Hq. unfold headerWord. rewrite (lor_disjoint_add 2) by lia.
  rewrite (lor_disjoint_add 8) by zlia. rewrite (lor_disjoint_add 24) by zlia. shift_sums. lia.
Qed.

Definition lengthWord (n : Z) (r d : bool) : Z :=
  Z.lor (Z.lor (u32 n) (if r then 0x4000 else 0)) (if d then 0x8000 else 0).

Lemma lengthWord_sum n r d : 0 <= n < 16384 ->
  lengthWord n r d = n + (if r then 16384 else 0) + (if d then 32768 else 0).
Proof.
  intros Hn. unfold lengthWord. rewrite u32_small by zlia.
  change (if r then 0x4000 else 0) with (if r then Z.shiftl 1 14 else 0) at 1.
  change (if d then 0x8000 else 0) with (if d then Z.shiftl 1 15 else 0) at 1.
  destruct r, d; rewrite ?Z.lor_0_r.
  - rewrite (lor_disjoint_add 14), (lor_disjoint_add 15) by (change (2^14) with 16384; change (2^15) with 32768; lia). reflexivity.
  - rewrite (lor_disjoint_add 14) by (change (2^14) with 16384; lia). change (2^14) with 16384. lia.
  - rewrite (lor_disjoint_add 15) by (change (2^15) with 32768; lia). change (2^15) with 32768. lia.
  - lia.
Qed.

(** The identity of a command, as the receivers take it from a header word. *)
Definition wordId (w : Z) : CommandId :=
  mkCommandId (u8 (Z.land w 3)) (u8 (Z.land (Z.shiftr w 2) 63)) (u8 (Z.land (Z.shiftr w 8) 255)).

Lemma wordId_fields id w : idOk id ->
  w mod 65536 = category id + commandClass id * 4 + function id * 256 -> wordId w = id.
Proof.
  intros (H1 & H2 & H3) Hw. unfold wordId. shift_sums. destruct id as [a b c]. simpl in *. f_equal; zlia.
Qed.

(** ** The payload copies *)

Lemma prepend_spec length out (Q : buf -> Prop) :
  0 <= length -> length + 8 <= zlen out ->
  (forall out', zlen out' = zlen out ->
     (forall j, 0 <= j -> byte_at out' j =
        if (8 <=? j) && (j <? length + 8) then byte_at out (j - 8) else byte_at out j) -> Q out') ->
  mspec (for_m (Z.to_nat length) 0 (prependStep length) out) Q.
Proof.
  intros Hl Hc HQ.
  apply (mspec_for_m (fun k o => zlen o = zlen out /\ forall j, 0 <= j -> byte_at o j =
    if (length + 8 - k <=? j) && (j <? length + 8) then byte_at out (j - 8) else byte_at out j)).
  - exact Hl.
  - split; [reflexivity|]. intros j Hj. replace ((length + 8 - 0 <=? j) && (j <? length + 8)) with false by lia. reflexivity.
  - intros k o Hk [Hz Ho]. unfold prependStep. mstep. apply rd8_spec; [lia|].
    apply store_spec; [lia|change (zlen [_]) with 1; lia|]. split.
    + rewrite zlen_blit; [exact Hz|lia|change (zlen [_]) with 1; lia].
    + intros j Hj. rewrite byte_at_blit; [|lia|change (zlen [_]) with 1; lia|lia]. change (zlen [_]) with 1.
      destruct (Z.eq_dec j (length - k + 7)) as [->|Hne].
      * replace ((length - k + 7 <=? length - k + 7) && (length - k + 7 <? length - k + 7 + 1)) with true by lia.
        replace (length - k + 7 - (length - k + 7)) with 0 by lia.
        change (byte_at [?v] 0) with (u8 v). unfold byte_at at 1. change (Z.to_nat 0) with 0%nat. cbn [nth].
        unfold byte_at at 1. rewrite u8_u8. fold (byte_at o (length - k - 1)). rewrite Ho by lia.
        replace ((length + 8 - k <=? length - k - 1) && (length - k - 1 <? length + 8)) with false by lia.
        replace ((length + 8 - (k + 1) <=? length - k + 7) && (length - k + 7 <? length + 8)) with true by lia.
        replace (length - k + 7 - 8) with (length - k - 1) by lia. reflexivity.
      * replace ((length - k + 7 <=? j) && (j <? length - k + 7 + 1)) with false by lia.
        rewrite Ho by exact Hj.
        replace ((length + 8 - (k + 1) <=? j) && (j <? length + 8)) with ((length + 8 - k <=? j) && (j <? length + 8)) by lia.
        reflexivity.
  - intros o [Hz Ho]. apply HQ; [exact Hz|]. intros j Hj. rewrite Ho by exact Hj.
    replace (length + 8 - length) with 8 by lia. reflexivity.
Qed.

Lemma copy_spec base p length out (Q : buf -> Prop) :
  0 <= base -> 0 <= length <= zlen p -> base + length <= zlen out ->
  (forall out', zlen out' = zlen out ->
     (forall j, 0 <= j -> byte_at out' j =
        if (base <=? j) && (j <? base + length) then byte_at p (j - base) else byte_at out j) -> Q out') ->
  mspec (for_m (Z.to_nat length) 0 (fun i o => v ← rd8 (E:=unit) p i; store o (base + i) [v]) out) Q.
Proof.
  intros Hb Hl Hc HQ.
  apply (mspec_for_m (fun k o => zlen o = zlen out /\ forall j, 0 <= j -> byte_at o j =
    if (base <=? j) && (j <? base + k) then byte_at p (j - base) else byte_at out j)).
  - lia.
  - split; [reflexivity|]. intros j Hj. replace ((base <=? j) && (j <? base + 0)) with false by lia. reflexivity.
  - intros k o Hk [Hz Ho]. mstep. apply rd8_spec; [lia|].
    apply store_spec; [lia|change (zlen [_]) with 1; lia|]. split.
    + rewrite zlen_blit; [exact Hz|lia|change (zlen [_]) with 1; lia].
    + intros j Hj. rewrite byte_at_blit; [|lia|change (zlen [_]) with 1; lia|lia]. change (zlen [_]) with 1.
      destruct (Z.eq_dec j (base + k)) as [->|Hne].
      * replace ((base + k <=? base + k) && (base + k <? base + k + 1)) with true by lia.
        replace ((base <=? base + k) && (base + k <? base + (k + 1))) with true by lia.
        replace (base + k - (base + k)) with 0 by lia. unfold byte_at at 1. change (Z.to_nat 0) with 0%nat. cbn [nth].
        unfold byte_at at 1. rewrite u8_u8. fold (byte_at p k). replace (base + k - base) with k by lia. reflexivity.
      * replace ((base + k <=? j) && (j <? base + k + 1)) with false by lia. rewrite Ho by exact Hj.
        replace ((base <=? j) && (j <? base + (k + 1))) with ((base <=? j) && (j <? base + k)) by lia. reflexivity.
  - intros o [Hz Ho]. apply HQ; auto.
Qed.

(** ** Commands *)

Definition sourceOk (s : Source) (length : Z) : Prop :=
  match s with Payload p => length <= zlen p | _ => True end.
(** The bytes the caller passes as payload. *)
Definition sourceByte (s : Source) (out : buf) (i : Z) : Z :=
  match s with NullPtr => 0 | SameAsOut => byte_at out i | Payload p => byte_at p i end.

(** A complete command in [out]: header, acknowledgement bits and payload. *)
Definition commandIn (out : buf) (id : CommandId) (sequence : Z) (r d : bool) (length : Z) (byte : Z -> Z) : Prop :=
  le32_at out 0 = headerWord id sequence /\ le32_at out 4 = lengthWord (length + 8) r d /\
  forall i, 0 <= i < length -> byte_at out (8 + i) = byte i.

Lemma encodeH2c_spec id q r d s length out capacity :
  idOk id -> in_u8 q -> 0 <= length -> sourceOk s length -> capacity <= zlen out ->
  mspec (encodeH2c id q r d s length (Some out) capacity) (fun x =>
    x.2 = length + 8 /\ length + 8 <= capacity /\ length + 8 <= 0x3fff /\ zlen x.1 = zlen out /\
    (forall j, length + 8 <= j -> byte_at x.1 j = byte_at out j) /\
    commandIn x.1 id q (r || (q mod 4 =? 0)) d length (sourceByte s out)).
Proof.
  intros Hid Hq Hl Hs Hc. unfold encodeH2c. mstep. mstep. mstep.
  assert (Hn : length <= 0x3fff - 8 /\ length + 8 <= capacity /\ (s = NullPtr -> length = 0)).
  { destruct s; split; try lia; split; try lia; intros; try discriminate; lia. }
  destruct Hn as (Hn1 & Hn2 & Hn3).
  assert (HQ : forall o, zlen o = zlen out ->
    (forall j, 0 <= j -> byte_at o j = if (8 <=? j) && (j <? 8 + length) then sourceByte s out (j - 8) else byte_at out j) ->
    mspec (E:=unit) (out ← store32 o 0 (headerWord id q);
           out ← store32 out 4 (lengthWord (length + 8) (r || (q mod 4 =? 0)) d); mret (out, length + 8))
      (fun x => x.2 = length + 8 /\ length + 8 <= capacity /\ length + 8 <= 0x3fff /\ zlen x.1 = zlen out /\
        (forall j, length + 8 <= j -> byte_at x.1 j = byte_at out j) /\
        commandIn x.1 id q (r || (q mod 4 =? 0)) d length (sourceByte s out))).
  { intros o Hz Ho. assert (H4 : forall v, zlen (le32_bytes v) = 4) by reflexivity.
    mstep. apply store32_spec; [lia|lia|]. mstep. apply store32_spec; [lia|rewrite zlen_blit; rewrite ?H4; lia|].
    mstep. cbn [fst snd]. split; [reflexivity|]. split; [lia|]. split; [lia|].
    assert (Hz1 : zlen (blit o 0 (le32_bytes (headerWord id q))) = zlen o) by (apply zlen_blit; rewrite ?H4; lia).
    split; [rewrite !zlen_blit; rewrite ?H4; lia|]. split; [|split; [|split]].
    - intros j Hj. rewrite !byte_at_blit; rewrite ?H4; try lia.
      replace ((4 <=? j) && (j <? 4 + 4)) with false by lia. replace ((0 <=? j) && (j <? 0 + 4)) with false by lia.
      rewrite Ho by lia. replace ((8 <=? j) && (j <? 8 + length)) with false by lia. reflexivity.
    - rewrite !le32_at_blit by lia. cbn [Z.eqb]. pose proof (headerWord_sum id q Hid Hq) as E.
      destruct Hid as (I1 & I2 & I3). apply u32_small. rewrite E. zlia.
    - rewrite !le32_at_blit by lia. apply u32_small. rewrite lengthWord_sum by lia.
      destruct (r || (q mod 4 =? 0)), d; zlia.
    - intros i Hi. rewrite !byte_at_blit; rewrite ?H4; try lia.
      replace ((4 <=? 8 + i) && (8 + i <? 4 + 4)) with false by lia. replace ((0 <=? 8 + i) && (8 + i <? 0 + 4)) with false by lia.
      rewrite Ho by lia. replace ((8 <=? 8 + i) && (8 + i <? 8 + length)) with true by lia.
      replace (8 + i - 8) with i by lia. reflexivity. }
  destruct s as [| |p].
  - mstep. apply HQ; [reflexivity|]. intros j Hj. rewrite Hn3 by reflexivity.
    replace ((8 <=? j) && (j <? 8 + 0)) with false by lia. reflexivity.
  - apply prepend_spec; [lia|lia|]. intros o Hz Ho. apply HQ; [exact Hz|].
    intros j Hj. rewrite Ho by exact Hj. replace (j <? length + 8) with (j <? 8 + length) by lia. reflexivity.
  - simpl in Hs. apply (copy_spec 8 p); [lia|lia|lia|]. intros o Hz Ho. apply HQ; [exact Hz|exact Ho].
Qed.

Lemma decodeC2h_spec packet bytes : bytes <= zlen packet ->
  mspec (decodeC2h (Some packet) bytes) (fun e =>
    let total := le32_at packet 4 mod 16384 in
    8 <= total <= bytes /\ e = mkEvent (wordId (le32_at packet 0)) (Some (drop 8 packet)) (total - 8)).
Proof.
  intros Hb. unfold decodeC2h, little32. mwalk. apply orb_false_iff in Hg0 as [G1 G2].
  rewrite land3fff_mod in *. split; [lia|reflexivity].
Qed.

Lemma encodeH2c_err id q r d s length out capacity e : idOk id ->
  encodeH2c id q r d s length (Some out) capacity = MErr e ->
  (s = NullPtr /\ length <> 0) \/ 0x3fff < length + 8 \/ capacity < length + 8.
Proof.
  intros (I1 & I2 & I3) E. unfold encodeH2c in E.
  match type of E with context [fail_if ?b _] => destruct b eqn:Hg end.
  - destruct s; [destruct (Z.eq_dec length 0) as [->|]; [right; lia|left; auto]|right; lia|right; lia].
  - exfalso. destruct e. match type of E with ?m = _ => cut (never tt m); [intros Hn; exact (Hn E)|] end. clear E.
    apply never_bind; [discriminate|intros _].
    destruct s; mnever; unfold prependStep, copyStep, store32, store16; mnever.
Qed.

(** A receiver gets back a complete command. *)
Lemma commandIn_decodes o id q r d length byte : idOk id -> in_u8 q -> 0 <= length -> length + 8 <= 0x3fff -> length + 8 <= zlen o ->
  commandIn o id q r d length byte ->
  decodeC2h (Some o) (length + 8) = MVal (mkEvent id (Some (drop 8 o)) length) /\ forall i, 0 <= i < length -> byte_at (drop 8 o) i = byte i.
Proof.
  intros Hid Hq Hl H3f Hz (Hh & Hlen & Hpay).
  assert (Hw1 : le32_at o 4 mod 16384 = length + 8) by (rewrite Hlen, lengthWord_sum by lia; destruct r, d; zlia).
  split; [|intros i Hi; rewrite <- Hpay by exact Hi; unfold byte_at; rewrite !nth_lookup, lookup_drop; do 3 f_equal; lia].
  pose proof (decodeC2h_spec o (length + 8) ltac:(lia)) as Hdec. rewrite Hw1 in Hdec.
  assert (Hd : wordId (le32_at o 0) = id).
  { apply wordId_fields; [exact Hid|]. rewrite Hh, headerWord_sum by auto. destruct Hid as (? & ? & ?). zlia. }
  rewrite Hd in Hdec. destruct (decodeC2h (Some o) (length + 8)) as [e|e|] eqn:Ed; cbn [mspec] in Hdec; [|exfalso|contradiction].
  - destruct Hdec as [_ ->]. do 2 f_equal. lia.
  - unfold decodeC2h, little32 in Ed. replace (length + 8 <? 8) with false in Ed by lia.
    cbn [fail_if mbind mres_bind] in Ed. rewrite !rd32_in in Ed by lia. cbn [mbind mres_bind] in Ed.
    rewrite land3fff_mod, Hw1 in Ed. replace ((length + 8 <? 8) || (length + 8 <? length + 8)) with false in Ed by lia. discriminate.
Qed.

(** C12: a command is encoded faithfully and in bounds, wherever the payload
    lies: in another buffer, or at the start of the output buffer itself, in
    which case it is moved behind the header without being overwritten.  A
    receiver that decodes the result gets back the identity, the length and the
    payload; the sequence number and the acknowledgement bits stand at their
    places, every fourth sequence number asking for a receive acknowledgement;
    bytes behind the command keep their value. *)
Theorem h2c_roundtrip id q r d s length out capacity :
  idOk id -> in_u8 q -> 0 <= length -> sourceOk s length -> capacity <= zlen out ->
  match encodeH2c id q r d s length (Some out) capacity with
  | MVal (out', n) =>
      decodeC2h (Some out') n = MVal (mkEvent id (Some (drop 8 out')) length) /\
      (forall i, 0 <= i < length -> byte_at (drop 8 out') i = sourceByte s out i) /\
      byte_at out' 3 = q /\ Z.testbit (le32_at out' 4) 14 = r || (q mod 4 =? 0) /\
      Z.testbit (le32_at out' 4) 15 = d /\
      zlen out' = zlen out /\ forall j, n <= j -> byte_at out' j = byte_at out j
  | MErr _ => (s = NullPtr /\ length <> 0) \/ 0x3fff < length + 8 \/ capacity < length + 8
  | MOob => False
  end.
Proof.
  intros Hid Hq Hl Hs Hc. pose proof (encodeH2c_spec id q r d s length out capacity Hid Hq Hl Hs Hc) as Hw.
  destruct (encodeH2c id q r d s length (Some out) capacity) as [[o n]|e|] eqn:E; cbn [mspec fst snd] in Hw; [| |exact Hw].
  - destruct Hw as (-> & Hcap & H3f & Hz & Hbeyond & Hcmd). destruct (commandIn_decodes o id q _ d length _ Hid Hq Hl H3f ltac:(lia) Hcmd) as [Hdec Hbytes].
    destruct Hcmd as (Hh & Hlen & _).
    assert (Hbit : forall k b, (k = 14 \/ k = 15) -> (Z.b2z b = le32_at o 4 / 2 ^ k mod 2) -> Z.testbit (le32_at o 4) k = b).
    { intros k b Hk Hb. rewrite Z.testbit_odd, Z.shiftr_div_pow2 by lia. rewrite <- Z.bit0_odd.
      apply Z.b2z_inj. rewrite Z.bit0_mod. auto. }
    split; [exact Hdec|]. split; [exact Hbytes|]. split; [|split; [|split; [|split; [exact Hz|exact Hbeyond]]]].
    + pose proof (headerWord_sum id q Hid Hq) as Es. rewrite <- Hh in Es. unfold le32_at in Es.
      rewrite le32_of_sum in Es by auto with words. destruct Hid as (? & ? & ?).
      pose proof (byte_at_range o 0). pose proof (byte_at_range o (0 + 1)). pose proof (byte_at_range o (0 + 2)).
      pose proof (byte_at_range o (0 + 3)). change (0 + 3) with 3 in *. zlia.
    + apply Hbit; [auto|]. rewrite Hlen, lengthWord_sum by lia. change (2 ^ 14) with 16384.
      destruct (r || (q mod 4 =? 0)), d; simpl Z.b2z; zlia.
    + apply Hbit; [auto|]. rewrite Hlen, lengthWord_sum by lia. change (2 ^ 15) with 32768.
      destruct (r || (q mod 4 =? 0)), d; simpl Z.b2z; zlia.
  - exact (encodeH2c_err id q r d s length out capacity e Hid E).
Qed.

Definition sampleSource : buf := [0xaa; 0xbb; 0xcc].

(** In place and from another buffer, the result is the same. *)
Example encodeH2c_in_place :
  encodeH2c (mkCommandId 1 8 4) 7 false true SameAsOut 3 (Some (sampleSource ++ zeros 9)) 11 =
  encodeH2c (mkCommandId 1 8 4) 7 false true (Payload sampleSource) 3 (Some (zeros 12)) 11.
Proof. vm_compute. reflexivity. Qed.

Lemma h2c_roundtrip_witness :
  match encodeH2c (mkCommandId 1 8 4) 7 false true SameAsOut 3 (Some (sampleSource ++ zeros 9)) 11 with
  | MVal (out', n) =>
      decodeC2h (Some out') n = MVal (mkEvent (mkCommandId 1 8 4) (Some (drop 8 out')) 3) /\
      (forall i, 0 <= i < 3 -> byte_at (drop 8 out') i = sourceByte SameAsOut (sampleSource ++ zeros 9) i) /\
      byte_at out' 3 = 7 /\ Z.testbit (le32_at out' 4) 14 = false || (7 mod 4 =? 0) /\
      Z.testbit (le32_at out' 4) 15 = true /\
      zlen out' = zlen (sampleSource ++ zeros 9) /\
      forall j, n <= j -> byte_at out' j = byte_at (sampleSource ++ zeros 9) j
  | MErr _ => (SameAsOut = NullPtr /\ 3 <> 0) \/ 0x3fff < 3 + 8 \/ 11 < 3 + 8
  | MOob => False
  end.
Proof.
  apply (h2c_roundtrip (mkCommandId 1 8 4) 7 false true SameAsOut 3 (sampleSource ++ zeros 9) 11).
  - unfold idOk. cbn. zlia.
  - zlia.
  - lia.
  - exact I.
  - vm_compute. discriminate.
Defined.

(** ** Acknowledgements *)

(** The event's payload pointer covers its length. *)
Definition eventOk (e : FirmwareEvent) : Prop :=
  match ev_payload e with Some b => ev_length e <= zlen b | None => True end.

(** What the firmware writes to acknowledge command [id] with sequence [q]. *)
Definition ackWord (id : CommandId) (q code : Z) (done : bool) : Z :=
  if done then Z.lor (Z.lor (headerWord id 0) (Z.shiftl code 16)) (Z.shiftl q 24)
  else Z.lor (headerWord id 0) (Z.shiftl q 16).

Definition ackOf (e : FirmwareEvent) (w : Z) : FirmwareAck :=
  let done := function (ev_id e) =? 1 in
  mkAck (wordId w) (u8 (Z.shiftr w (if done then 24 else 16)))
    (if done then u8 (Z.shiftr w 16) else 0) done.

Lemma decodeAck_spec e : eventOk e ->
  mspec (decodeAck e) (fun a => exists b, ev_payload e = Some b /\ 4 <= ev_length e /\
    category (ev_id e) = 1 /\ commandClass (ev_id e) = 0 /\ function (ev_id e) <= 1 /\
    a = ackOf e (le32_at b 0)).
Proof.
  intros He. unfold decodeAck, little32. mstep. mstep. unfold eventOk in He.
  destruct (ev_payload e) as [b|] eqn:Hb; [|exact I]. mwalk.
  apply orb_false_iff in Hg as [Hg G3]. apply orb_false_iff in Hg as [G1 G2].
  exists b. repeat split; lia.
Qed.

Lemma ackWord_range id q code done : idOk id -> in_u8 q -> in_u8 code -> in_u32 (ackWord id q code done).
Proof.
  intros Hid Hq Hc. pose proof (headerWord_sum id 0 Hid ltac:(zlia)) as Es.
  destruct Hid as (? & ? & ?). unfold ackWord.
  destruct done; rewrite (lor_disjoint_add 16) by (rewrite ?Es; zlia); [rewrite (lor_disjoint_add 24) by (rewrite ?Es; zlia)|];
    rewrite Es; zlia.
Qed.

(** C13: decoding what arrives on the command channel stays inside the
    received packet, whatever it holds; and an acknowledgement of command [id]
    with sequence number [q], in either form, is recognised as exactly that:
    only the done form carries a return code. *)
Theorem ack_decoding packet bytes id q code isDone :
  bytes <= zlen packet -> idOk id -> in_u8 q -> in_u8 code ->
  (forall e, decodeC2h (Some packet) bytes = MVal e -> safe (decodeAck e)) /\
  safe (decodeC2h (Some packet) bytes) /\
  (12 <= bytes -> le32_at packet 0 = headerWord (mkCommandId 1 0 (Z.b2z isDone)) 0 ->
   le32_at packet 4 mod 16384 = 12 -> le32_at packet 8 = ackWord id q code isDone ->
   exists e, decodeC2h (Some packet) bytes = MVal e /\
     decodeAck e = MVal (mkAck id q (if isDone then code else 0) isDone)).
Proof.
  intros Hb Hid Hq Hc. pose proof (decodeC2h_spec packet bytes Hb) as Hdec. cbv zeta in Hdec.
  split; [|split].
  - intros e He. rewrite He in Hdec. simpl in Hdec. destruct Hdec as [Ht ->].
    eapply mspec_safe, decodeAck_spec. unfold eventOk. cbn [ev_payload ev_length].
    unfold zlen in *. rewrite length_drop. lia.
  - exact (mspec_safe _ _ Hdec).
  - intros H12 Hw0 Hw1 Hw2.
    assert (E : decodeC2h (Some packet) bytes =
      MVal (mkEvent (mkCommandId 1 0 (Z.b2z isDone)) (Some (drop 8 packet)) 4)).
    { unfold decodeC2h, little32. replace (bytes <? 8) with false by lia. rewrite !rd32_in by lia.
      cbn [fail_if mbind mres_bind]. rewrite land3fff_mod, Hw1.
      replace ((12 <? 8) || (bytes <? 12)) with false by lia. cbn [fail_if mbind mres_bind mret mres_ret].
      rewrite Hw0. destruct isDone; reflexivity. }
    exists (mkEvent (mkCommandId 1 0 (Z.b2z isDone)) (Some (drop 8 packet)) 4). split; [exact E|].
    assert (Hr : le32_at (drop 8 packet) 0 = ackWord id q code isDone).
    { rewrite <- Hw2. unfold le32_at, byte_at. rewrite !nth_lookup, !lookup_drop. reflexivity. }
    assert (Hrd : rd32 (E:=unit) (drop 8 packet) 0 = MVal (ackWord id q code isDone)).
    { rewrite rd32_in, Hr by (unfold zlen in *; rewrite ?length_drop; lia). reflexivity. }
    unfold decodeAck, little32. cbn [ev_payload ev_length ev_id category commandClass function].
    rewrite Hrd. pose proof (headerWord_sum id 0 Hid ltac:(zlia)) as Es.
    fold (wordId (ackWord id q code isDone)).
    assert (Hid' : wordId (ackWord id q code isDone) = id).
    { apply wordId_fields; [exact Hid|]. destruct Hid as (? & ? & ?). unfold ackWord.
      destruct isDone; rewrite (lor_disjoint_add 16) by (rewrite ?Es; zlia); [rewrite (lor_disjoint_add 24) by (rewrite ?Es; zlia)|];
        rewrite Es; shift_sums; zlia. }
    destruct isDone; cbn [Z.b2z Z.eqb Pos.eqb negb orb Z.ltb Z.compare Pos.compare Pos.compare_cont fail_if mbind mres_bind mret mres_ret] in *;
      change (mkCommandId (u8 (Z.land ?w 3)) (u8 (Z.land (Z.shiftr ?w 2) 63)) (u8 (Z.land (Z.shiftr ?w 8) 255))) with (wordId w);
      rewrite Hid'; repeat f_equal; unfold ackWord; destruct Hid as (? & ? & ?);
      rewrite (lor_disjoint_add 16) by (rewrite ?Es; zlia); try (rewrite (lor_disjoint_add 24) by (rewrite ?Es; zlia));
      rewrite Es; shift_sums; zlia.
Qed.

(** A done acknowledgement of command 1/8/4, sequence 5, code 0. *)
Definition sampleAck : buf :=
  le32_bytes (headerWord (mkCommandId 1 0 1) 0) ++ le32_bytes 12 ++ le32_bytes (ackWord (mkCommandId 1 8 4) 5 0 true).

Lemma ack_decoding_witness :
  exists e, decodeC2h (Some sampleAck) 12 = MVal e /\ decodeAck e = MVal (mkAck (mkCommandId 1 8 4) 5 0 true).
Proof.
  apply (ack_decoding sampleAck 12 (mkCommandId 1 8 4) 5 0 true); try reflexivity; try lia.
  - unfold idOk. cbn. zlia.
  - zlia.
  - zlia.
Defined.

(** ** Role and join *)

Definition roleOk (p : RoleCommand) : Prop :=
  in_u8 (r_macid p) /\ 0 <= r_selfRole p <= 3 /\ 0 <= r_updateMode p <= 7 /\ 0 <= r_wifiRole p <= 15.
Definition joinOk (p : JoinCommand) : Prop :=
  in_u8 (j_macid p) /\ 0 <= j_band p <= 1 /\ 0 <= j_wmm p <= 3 /\ 0 <= j_port p <= 7 /\
  0 <= j_netType p <= 3 /\ 0 <= j_wifiRole p <= 15 /\ 0 <= j_selfRole p <= 3.

(** Bits [l .. l + n - 1] of a word. *)
Definition bitField (w l n : Z) : Z := w / 2 ^ l mod 2 ^ n.

Lemma roleWord_sum p : roleOk p ->
  roleWord p = r_macid p + r_selfRole p * 256 + r_updateMode p * 1024 + r_wifiRole p * 8192.
Proof.
  intros (H1 & H2 & H3 & H4). unfold roleWord.
  rewrite (lor_disjoint_add 8), (lor_disjoint_add 10), (lor_disjoint_add 13); shift_sums; zlia.
Qed.

Lemma joinWord_sum p : joinOk p ->
  joinWord p = j_macid p + Z.b2z (j_disconnect p) * 256 + j_band p * 512 + j_wmm p * 1024 +
    Z.b2z (j_trigger p) * 4096 + j_port p * 2097152 + j_netType p * 16777216 +
    j_wifiRole p * 67108864 + j_selfRole p * 1073741824.
Proof.
  intros (H1 & H2 & H3 & H4 & H5 & H6 & H7). unfold joinWord.
  assert (0 <= Z.b2z (j_disconnect p) <= 1 /\ 0 <= Z.b2z (j_trigger p) <= 1) as [? ?] by (destruct (j_disconnect p), (j_trigger p); simpl; lia).
  generalize dependent (Z.b2z (j_disconnect p)). generalize dependent (Z.b2z (j_trigger p)). intros t Ht d Hd.
  rewrite (lor_disjoint_add 8) by (change (2^8) with 256; zlia). change (2^8) with 256.
  rewrite (lor_disjoint_add 9) by (change (2^9) with 512; zlia). change (2^9) with 512.
  rewrite (lor_disjoint_add 10) by (change (2^10) with 1024; zlia). change (2^10) with 1024.
  rewrite (lor_disjoint_add 12) by (change (2^12) with 4096; zlia). change (2^12) with 4096.
  rewrite (lor_disjoint_add 21) by (change (2^21) with 2097152; zlia). change (2^21) with 2097152.
  rewrite (lor_disjoint_add 24) by (change (2^24) with 16777216; zlia). change (2^24) with 16777216.
  rewrite (lor_disjoint_add 26) by (change (2^26) with 67108864; zlia). change (2^26) with 67108864.
  rewrite (lor_disjoint_add 30) by (change (2^30) with 1073741824; zlia). change (2^30) with 1073741824. lia.
Qed.

Lemma word_payload_spec id w q out capacity : idOk id -> in_u32 w -> in_u8 q -> 12 <= capacity <= zlen out ->
  exists out', (payload ← store32 (zeros 4) 0 w;
    encodeH2c id q false true (Payload payload) 4 (Some out) capacity) = MVal (out', 12) /\
    zlen out' = zlen out /\ le32_at out' 0 = headerWord id q /\ le32_at out' 8 = w.
Proof.
  intros Hid Hw Hq Hc. rewrite store32_in by (change (zlen (zeros 4)) with 4; lia). cbn [mbind mres_bind].
  change (blit (zeros 4) 0 (le32_bytes w)) with (le32_bytes w).
  pose proof (encodeH2c_spec id q false true (Payload (le32_bytes w)) 4 out capacity Hid Hq ltac:(lia)
    ltac:(change (4 <= 4); lia) ltac:(lia)) as Hs.
  destruct (encodeH2c _ _ _ _ _ _ _ _) as [[o n]|e|] eqn:E; simpl in Hs.
  - destruct Hs as (-> & _ & _ & Hz & _ & Hh & _ & Hp). exists o. split; [reflexivity|]. split; [exact Hz|]. split; [exact Hh|].
    unfold le32_at. change (byte_at o 8) with (byte_at o (8 + 0)).
    rewrite (Hp 0), (Hp 1), (Hp 2), (Hp 3) by lia. cbn [sourceByte].
    transitivity (le32_of (u8 w) (u8 (Z.shiftr w 8)) (u8 (Z.shiftr w 16)) (u8 (Z.shiftr w 24))).
    + change (le32_of (u8 (u8 w)) (u8 (u8 (Z.shiftr w 8))) (u8 (u8 (Z.shiftr w 16))) (u8 (u8 (Z.shiftr w 24))) =
        le32_of (u8 w) (u8 (Z.shiftr w 8)) (u8 (Z.shiftr w 16)) (u8 (Z.shiftr w 24))). rewrite !u8_u8. reflexivity.
    + rewrite le32_of_bytes. apply u32_small. exact Hw.
  - apply encodeH2c_err in E; [|exact Hid]. destruct E as [[E _]|E]; [discriminate|lia].
  - contradiction.
Qed.

Lemma encodeRole_spec p q out capacity : roleOk p -> in_u8 q -> 12 <= capacity <= zlen out ->
  exists out', encodeRole p q (Some out) capacity = MVal (out', 12) /\ zlen out' = zlen out /\
    le32_at out' 0 = headerWord (mkCommandId 1 8 4) q /\ le32_at out' 8 = roleWord p.
Proof.
  intros Hp Hq Hc. unfold encodeRole. pose proof (roleWord_sum p Hp) as Es. destruct Hp as (H1 & H2 & H3 & H4).
  replace (_ || _ || _) with false by lia. apply word_payload_spec; [unfold idOk; cbn; zlia| |exact Hq|exact Hc].
  rewrite Es. zlia.
Qed.

Lemma encodeJoin_spec p q out capacity : joinOk p -> in_u8 q -> 12 <= capacity <= zlen out ->
  exists out', encodeJoin p q (Some out) capacity = MVal (out', 12) /\ zlen out' = zlen out /\
    le32_at out' 0 = headerWord (mkCommandId 1 8 0) q /\ le32_at out' 8 = joinWord p.
Proof.
  intros Hp Hq Hc. unfold encodeJoin. pose proof (joinWord_sum p Hp) as Es. destruct Hp as (H1 & H2 & H3 & H4 & H5 & H6 & H7).
  replace (_ || _ || _ || _ || _ || _) with false by lia. apply word_payload_spec; [unfold idOk; cbn; zlia| |exact Hq|exact Hc].
  rewrite Es. destruct (j_disconnect p), (j_trigger p); simpl Z.b2z; zlia.
Qed.


Definition sampleRole : RoleCommand := mkRole 3 0 1 1.
Definition sampleJoin : JoinCommand := mkJoin 3 0 2 4 2 1 0 true false.

