(* ===== verification/FirmwareDmaQueue.v ===== *)
(** * The firmware command channel (src/network/FirmwareDmaQueue.hpp)

    Framing of a command for the channel, and the ledger of its DMA buffers:
    the hardware may still read the eight packets it consumed last, so a buffer
    is released only when eight newer ones have been consumed. *)

From S2P Require Import Prelude Descriptors DataPath Protocol.

(** ** Framing for the firmware channel

    [source] and [target] are the addresses of the two buffers; [out] and [bd]
    are the frame and its buffer descriptor. *)
Definition encodeCommandDma (command : option buf) (source : Z) (length physical : Z)
    (out : option buf) (target : Z) (capacity : Z) (bd : buf) : mres unit (buf * buf * Z) :=
  match command, out with
  | Some command, Some out =>
      fail_if ((length <? 8) || (16383 <? length) || (capacity <? length + 24) ||
               negb (dma32Range physical (length + 24))) tt;;
      w1 ← little32 command 4;
      fail_if (negb (Z.land w1 0x3fff =? length)) tt;;
      fail_if (if source <=? target then target - source <? length else source - target <? length + 24) tt;;
      seq ← (if 24 <=? length
             then b22 ← rd8 command 22; b23 ← rd8 command 23;
                  mret (u16 (Z.shiftr (Z.lor b22 (Z.shiftl b23 8)) 4))
             else mret 0);
      let info := emptyTxInfo <| ch_dma := 12 |> <| pkt_size := u16 length |> <| seqno := seq |> in
      match encodeTx info true capacity with
      | MOob => MOob
      | MErr _ => MErr tt
      | MVal desc =>
          fail_if (negb (zlen desc =? 24)) tt;;
          out ← store out 0 desc;
          out ← for_m (Z.to_nat length) 0 (fun i o => v ← rd8 command i; store o (24 + i) [v]) out;
          bd ← store16 bd 0 (u16 (length + 24));
          bd ← store16 bd 2 0x4000;
          bd ← store32 bd 4 (u32 physical);
          mret (out, bd, length + 24)
      end
  | _, _ => MErr tt
  end.

(** ** The ledger *)

Record FirmwareDma := mkDma {
  cookies : list Z; retainedSlots : list Z; dprod : Z; dcons : Z; pending : Z; holdHead : Z; holdTail : Z; held : Z
}.
#[export] Instance FirmwareDma_rebuild : Rebuild FirmwareDma := fun q =>
  mkDma (cookies q) (retainedSlots q) (dprod q) (dcons q) (pending q) (holdHead q) (holdTail q) (held q).

Section ledger.
Variable Count : Z.

Definition newDma : FirmwareDma := mkDma (zeros Count) (zeros Count) 0 0 0 0 0 0.
Definition cookieAt (q : FirmwareDma) (i : Z) : Z := nth (Z.to_nat i) (cookies q) 0.
Definition slotRetained (q : FirmwareDma) (i : Z) : Z := nth (Z.to_nat i) (retainedSlots q) 0.

Definition full (q : FirmwareDma) : bool := (pending q =? Count - 1) || negb (cookieAt q (dprod q) =? 0).

(** Cookie 0 is the null pointer. *)
Definition commit (slot cookie : Z) (q : FirmwareDma) : bool * FirmwareDma :=
  if (cookie =? 0) || full q || negb (slot =? dprod q) then (false, q) else
  (true, ((q <| cookies := <[Z.to_nat (dprod q) := cookie]> (cookies q) |>)
            <| dprod := (dprod q + 1) mod Count |>) <| pending := pending q + 1 |>).

(** One turn of [consumeTo], with the cookies released. *)
Definition consumeOne (q : FirmwareDma) : list Z * FirmwareDma :=
  let q := ((((q <| retainedSlots := <[Z.to_nat (holdTail q) := u16 (dcons q)]> (retainedSlots q) |>)
               <| holdTail := (holdTail q + 1) mod Count |>) <| held := held q + 1 |>)
               <| dcons := (dcons q + 1) mod Count |>) <| pending := pending q - 1 |> in
  if 8 <? held q then
    let slot := slotRetained q (holdHead q) in
    ([cookieAt q slot],
     ((q <| holdHead := (holdHead q + 1) mod Count |>) <| held := held q - 1 |>)
       <| cookies := <[Z.to_nat slot := 0]> (cookies q) |>)
  else ([], q).

Fixpoint consumeLoop (n : nat) (q : FirmwareDma) : list Z * FirmwareDma :=
  match n with
  | O => ([], q)
  | S n => let (r1, q1) := consumeOne q in let (r2, q2) := consumeLoop n q1 in (r1 ++ r2, q2)
  end.

Definition consumeTo (index : Z) (q : FirmwareDma) : bool * list Z * FirmwareDma :=
  if Count <=? index then (false, [], q) else
  let advance := (index + Count - dcons q) mod Count in
  if pending q <? advance then (false, [], q) else
  let (r, q') := consumeLoop (Z.to_nat advance) q in (true, r, q').

Definition reclaimAfterDmaStopped (q : FirmwareDma) : list Z * FirmwareDma :=
  (filter (fun c => c ≠ 0) (cookies q), mkDma (map (fun _ => 0) (cookies q)) (retainedSlots q) 0 0 0 0 0 0).

(** ** What the ledger promises *)

(** The cookies held back after consumption and those not yet consumed, oldest
    first. *)
Record Channel := mkChannel { kept : list Z; inflight : list Z }.

(** The slot of the oldest buffer. *)
Definition base (q : FirmwareDma) : Z := (dcons q - held q) mod Count.
Definition window (q : FirmwareDma) (from n : Z) : list Z :=
  map (fun k => cookieAt q ((base q + k) mod Count)) (seqZ from n).
Definition channelOf (q : FirmwareDma) : Channel :=
  mkChannel (window q 0 (held q)) (window q (held q) (pending q)).

(** Consuming [n] buffers of a channel: the oldest above eight are released. *)
Definition consumeSpec (n : Z) (c : Channel) : list Z * Channel :=
  let done := kept c ++ take (Z.to_nat n) (inflight c) in
  let excess := Z.to_nat (zlen done - 8) in
  (take excess done, mkChannel (drop excess done) (drop (Z.to_nat n) (inflight c))).

Record dmaInv (q : FirmwareDma) : Prop := {
  di_cookies : length (cookies q) = Z.to_nat Count;
  di_retained : length (retainedSlots q) = Z.to_nat Count;
  di_held : 0 <= held q <= 8;
  di_pending : 0 <= pending q <= Count - 1;
  di_total : held q + pending q <= Count;
  di_cons : 0 <= dcons q < Count;
  di_prod : dprod q = (dcons q + pending q) mod Count;
  di_head : 0 <= holdHead q < Count;
  di_tail : holdTail q = (holdHead q + held q) mod Count;
  di_hold : forall k, 0 <= k < held q -> slotRetained q ((holdHead q + k) mod Count) = (base q + k) mod Count;
  di_used : forall k, 0 <= k < Count ->
    (cookieAt q ((base q + k) mod Count) <> 0 <-> k < held q + pending q)
}.

Hypothesis HCount : 9 < Count <= 4095.

(** Offsets of a ring are sums modulo its size. *)
Ltac ring_offset := rewrite ?Zplus_mod_idemp_l, ?Zplus_mod_idemp_r, ?Zminus_mod_idemp_l, ?Zminus_mod_idemp_r; f_equal; lia.

Lemma offset_range x : 0 <= x mod Count < Count.
Proof. apply Z.mod_pos_bound. lia. Qed.

Lemma cons_base q : dmaInv q -> dcons q = (base q + held q) mod Count.
Proof.
  intros H. unfold base. rewrite Zplus_mod_idemp_l. replace (dcons q - held q + held q) with (dcons q) by lia.
  symmetry. apply Z.mod_small. apply (di_cons q H).
Qed.

Lemma offset_neq b j k : 0 <= j < Count -> 0 <= k < Count -> j <> k -> ((b + j) mod Count =? (b + k) mod Count) = false.
Proof. intros Hj Hk Hne. apply Z.eqb_neq. intros E. apply Hne. apply (mod_add_inj Count b); auto; lia. Qed.

(** All cookies of the channel, oldest first. *)
Definition everything (q : FirmwareDma) : list Z := window q 0 (held q + pending q).

Lemma window_split q a n m : 0 <= n -> 0 <= m -> window q a (n + m) = window q a n ++ window q (a + n) m.
Proof. intros. unfold window. rewrite seqZ_app, map_app by lia. reflexivity. Qed.

Lemma zlen_window q a n : 0 <= n -> zlen (window q a n) = n.
Proof. intros. unfold window. rewrite zlen_map. unfold zlen. rewrite length_seqZ. lia. Qed.

Lemma window_ext q q' a a' n : (forall k, 0 <= k < n ->
  cookieAt q ((base q + (a + k)) mod Count) = cookieAt q' ((base q' + (a' + k)) mod Count)) ->
  window q a n = window q' a' n.
Proof.
  intros H. unfold window. rewrite (map_seqZ_shift _ a), (map_seqZ_shift _ a'). apply map_ext_in.
  intros k Hk. apply list_elem_of_In, elem_of_seqZ in Hk. apply H. lia.
Qed.

(** The part of a turn before the release. *)
Definition holdOne (q : FirmwareDma) : FirmwareDma :=
  ((((q <| retainedSlots := <[Z.to_nat (holdTail q) := u16 (dcons q)]> (retainedSlots q) |>)
     <| holdTail := (holdTail q + 1) mod Count |>) <| held := held q + 1 |>)
     <| dcons := (dcons q + 1) mod Count |>) <| pending := pending q - 1 |>.

Lemma holdOne_facts q : dmaInv q -> 0 < pending q ->
  base (holdOne q) = base q /\ everything (holdOne q) = everything q /\
  (forall k, 0 <= k < held q + 1 -> slotRetained (holdOne q) ((holdHead q + k) mod Count) = (base q + k) mod Count).
Proof.
  intros H Hp. pose proof H as [D1 D2 D3 D4 D5 D6 D7 D8 D9 D10 D11].
  assert (Hb : base (holdOne q) = base q).
  { unfold base, holdOne. simpl. ring_offset. }
  split; [exact Hb|]. split.
  - unfold everything. change (held (holdOne q)) with (held q + 1). change (pending (holdOne q)) with (pending q - 1).
    replace (held q + 1 + (pending q - 1)) with (held q + pending q) by lia.
    apply window_ext. intros k Hk. rewrite Hb. reflexivity.
  - intros k Hk. unfold slotRetained, holdOne. simpl. pose proof (offset_range (holdHead q + k)).
    rewrite D9, nth_insert_Z by (try (unfold zlen; rewrite D2); pose proof (offset_range (holdHead q + held q)); lia).
    destruct (Z.eq_dec k (held q)) as [->|Hne].
    + rewrite Z.eqb_refl, (cons_base q H). apply u16_small. pose proof (offset_range (base q + held q)). zlia.
    + rewrite offset_neq by lia. apply D10. lia.
Qed.

Lemma consumeOne_spec q r q' : dmaInv q -> 0 < pending q -> consumeOne q = (r, q') ->
  dmaInv q' /\ everything q = r ++ everything q' /\ pending q' = pending q - 1 /\ held q' = Z.min 8 (held q + 1).
Proof.
  intros H Hp. pose proof (holdOne_facts q H Hp) as (Hb & He & Hr).
  unfold consumeOne. fold (holdOne q). cbv zeta. set (u := holdOne q) in *.
  change (held u) with (held q + 1). change (holdHead u) with (holdHead q).
  pose proof (cons_base q H) as Hcb. pose proof H as [D1 D2 D3 D4 D5 D6 D7 D8 D9 D10 D11].
  assert (Hl : length (retainedSlots u) = Z.to_nat Count) by (unfold u, holdOne; simpl; rewrite length_insert; exact D2).
  destruct (Z.ltb_spec 8 (held q + 1)) as [H8|H8]; intros [= <- <-].
  - assert (Hh : held q = 8) by lia.
    assert (Hslot : slotRetained u (holdHead q) = base q).
    { specialize (Hr 0 ltac:(lia)). rewrite !Z.add_0_r, Z.mod_small in Hr by lia. rewrite Hr.
      apply Z.mod_small, offset_range. }
    rewrite Hslot. match goal with |- dmaInv ?x /\ _ => set (v := x) end.
    assert (Hbv : base v = (base q + 1) mod Count).
    { unfold base, v, u, holdOne. simpl. ring_offset. }
    assert (Hc : forall k, 0 <= k < Count -> cookieAt v ((base v + k) mod Count) =
              if k =? Count - 1 then 0 else cookieAt q ((base q + (k + 1)) mod Count)).
    { intros k Hk. transitivity (nth (Z.to_nat ((base v + k) mod Count)) (<[Z.to_nat (base q) := 0]> (cookies q)) 0); [reflexivity|].
      rewrite nth_insert_Z by
        (try (unfold zlen; rewrite D1; pose proof (offset_range (dcons q - held q)); unfold base; lia); apply offset_range).
      replace ((base v + k) mod Count) with ((base q + (k + 1)) mod Count) by (rewrite Hbv; ring_offset).
      assert (E0 : base q = (base q + 0) mod Count) by (rewrite Z.add_0_r; symmetry; apply Z.mod_small, offset_range).
      destruct (Z.eqb_spec ((base q + (k + 1)) mod Count) (base q)) as [E|E], (Z.eqb_spec k (Count - 1)) as [Hk1|Hk1];
        try reflexivity; exfalso.
      - pose proof (eq_trans E E0) as E1. apply mod_add_inj in E1; lia.
      - apply E. subst k. transitivity ((base q + 0) mod Count); [|symmetry; exact E0].
        replace (base q + (Count - 1 + 1)) with (base q + 0 + 1 * Count) by lia.
        apply Z.mod_add. lia. }
    split; [|split; [|split; [reflexivity|unfold v; simpl; lia]]].
    + split; try assumption.
      * unfold v. simpl. rewrite length_insert. exact D1.
      * unfold v. simpl. lia.
      * unfold v. simpl. lia.
      * unfold v. simpl. lia.
      * unfold v. simpl. apply offset_range.
      * unfold v. simpl. rewrite D7. ring_offset.
      * unfold v. simpl. apply offset_range.
      * unfold v. simpl. rewrite D9. ring_offset.
      * intros k Hk. change (held v) with (held q + 1 - 1) in Hk. change (holdHead v) with ((holdHead q + 1) mod Count).
        change (slotRetained v) with (slotRetained u). rewrite Hbv, !Zplus_mod_idemp_l, <- !Z.add_assoc.
        apply Hr. lia.
      * intros k Hk. rewrite Hc by exact Hk. change (held v) with (held q + 1 - 1). change (pending v) with (pending q - 1).
        destruct (Z.eqb_spec k (Count - 1)); [lia|]. rewrite D11 by lia. lia.
    + rewrite <- He. unfold everything. change (held v) with (held q + 1 - 1). change (pending v) with (pending q - 1).
      change (held u + pending u) with (held q + 1 + (pending q - 1)).
      replace (held q + 1 + (pending q - 1)) with (1 + (held q + 1 - 1 + (pending q - 1))) by lia.
      rewrite window_split by lia. f_equal.
      * unfold window. change (seqZ 0 1) with [0]. simpl. rewrite Hb, Z.add_0_r, (Z.mod_small (base q)) by apply offset_range. reflexivity.
      * apply window_ext. intros k Hk. rewrite (Z.add_0_l k). rewrite Hc by lia.
        destruct (Z.eqb_spec k (Count - 1)); [lia|]. rewrite Hb. change (cookieAt u) with (cookieAt q). do 2 f_equal. lia.
  - split; [|split; [exact (eq_sym He)|split; [reflexivity|unfold u, holdOne; simpl; lia]]].
    split; try assumption.
    + change (held u) with (held q + 1). lia.
    + change (pending u) with (pending q - 1). lia.
    + change (held u + pending u) with (held q + 1 + (pending q - 1)). lia.
    + unfold u, holdOne. simpl. apply offset_range.
    + unfold u, holdOne. simpl. rewrite D7. ring_offset.
    + unfold u, holdOne. simpl. rewrite D9. ring_offset.
    + intros k Hk. rewrite Hb. apply Hr. exact Hk.
    + intros k Hk. rewrite Hb. change (held u + pending u) with (held q + 1 + (pending q - 1)).
      replace (held q + 1 + (pending q - 1)) with (held q + pending q) by lia. apply D11. exact Hk.
Qed.

Lemma consumeLoop_spec n q r q' : dmaInv q -> Z.of_nat n <= pending q -> consumeLoop n q = (r, q') ->
  dmaInv q' /\ everything q = r ++ everything q' /\ pending q' = pending q - Z.of_nat n /\
  held q' = Z.min 8 (held q + Z.of_nat n).
Proof.
  revert q r q'. induction n as [|n IH]; intros q r q' H Hn.
  - intros [= <- <-]. pose proof (di_held q H). repeat split; try apply H; lia.
  - simpl. destruct (consumeOne q) as [r1 q1] eqn:E1. destruct (consumeLoop n q1) as [r2 q2] eqn:E2. intros [= <- <-].
    destruct (consumeOne_spec q r1 q1 H ltac:(lia) E1) as (H1 & He1 & Hp1 & Hh1).
    destruct (IH q1 r2 q2 H1 ltac:(lia) E2) as (H2 & He2 & Hp2 & Hh2).
    split; [exact H2|]. split; [rewrite He1, He2, app_assoc; reflexivity|]. lia.
Qed.

Lemma everything_channel q : dmaInv q -> everything q = kept (channelOf q) ++ inflight (channelOf q).
Proof. intros H. pose proof (di_held q H). pose proof (di_pending q H). apply window_split; lia. Qed.

Lemma dma_commit_spec slot c q b q' : dmaInv q -> commit slot c q = (b, q') ->
  dmaInv q' /\
  (b = true -> c <> 0 /\ slot = dprod q /\ channelOf q' = mkChannel (kept (channelOf q)) (inflight (channelOf q) ++ [c])) /\
  (b = false -> q' = q /\ (c = 0 \/ slot <> dprod q \/ pending q = Count - 1 \/ held q + pending q = Count)).
Proof.
  intros H. pose proof H as [D1 D2 D3 D4 D5 D6 D7 D8 D9 D10 D11]. unfold commit.
  assert (Hpr : dprod q = (base q + (held q + pending q)) mod Count).
  { rewrite D7, (cons_base q H) at 1. ring_offset. }
  assert (Hfull : full q = true <-> pending q = Count - 1 \/ held q + pending q = Count).
  { unfold full. destruct (Z.eq_dec (held q + pending q) Count) as [E|E].
    - split; [auto|intros _]. replace (dprod q) with ((base q + 0) mod Count).
      + pose proof (proj2 (D11 0 ltac:(lia)) ltac:(lia)). lia.
      + rewrite Hpr, E. replace (base q + Count) with (base q + 0 + 1 * Count) by lia. symmetry. apply Z.mod_add. lia.
    - rewrite Hpr. assert (cookieAt q ((base q + (held q + pending q)) mod Count) = 0).
      { destruct (Z.eq_dec (cookieAt q ((base q + (held q + pending q)) mod Count)) 0) as [|Hne]; [assumption|].
        apply D11 in Hne; lia. }
      lia. }
  destruct ((c =? 0) || full q || negb (slot =? dprod q)) eqn:Hg; intros [= <- <-].
  - split; [exact H|]. split; [discriminate|]. intros _. split; [reflexivity|].
    destruct (full q); [right; right; apply Hfull; reflexivity|lia].
  - match goal with |- dmaInv ?x /\ _ => set (v := x) end.
    assert (Hroom : pending q < Count - 1 /\ held q + pending q < Count).
    { assert (full q = false) by (destruct (full q); [|reflexivity]; destruct (c =? 0); discriminate).
      destruct (Z.eq_dec (pending q) (Count - 1)); [exfalso; assert (full q = true) by tauto; congruence|].
      destruct (Z.eq_dec (held q + pending q) Count); [exfalso; assert (full q = true) by tauto; congruence|]. lia. }
    assert (Hbv : base v = base q) by reflexivity.
    assert (Hc : forall k, 0 <= k < Count -> cookieAt v ((base q + k) mod Count) =
              if k =? held q + pending q then c else cookieAt q ((base q + k) mod Count)).
    { intros k Hk. transitivity (nth (Z.to_nat ((base q + k) mod Count)) (<[Z.to_nat (dprod q) := c]> (cookies q)) 0); [reflexivity|].
      rewrite Hpr, nth_insert_Z by (try (unfold zlen; rewrite D1); pose proof (offset_range (base q + (held q + pending q))); pose proof (offset_range (base q + k)); lia).
      destruct (Z.eqb_spec k (held q + pending q)) as [->|Hne]; [rewrite Z.eqb_refl; reflexivity|].
      rewrite offset_neq by lia. reflexivity. }
    split; [|split].
    + split; try assumption.
      * unfold v. simpl. rewrite length_insert. exact D1.
      * unfold v. simpl. lia.
      * unfold v. simpl. lia.
      * unfold v. simpl. rewrite D7. ring_offset.
      * intros k Hk. rewrite Hbv, Hc by exact Hk. change (held v) with (held q). change (pending v) with (pending q + 1).
        destruct (Z.eqb_spec k (held q + pending q)); [lia|]. rewrite D11 by exact Hk. lia.
    + intros _. split; [lia|]. split; [lia|]. unfold channelOf. cbn [kept inflight].
      change (held v) with (held q). change (pending v) with (pending q + 1).
      assert (Hw : forall a n, 0 <= a -> a + n <= held q + pending q -> window v a n = window q a n).
      { intros a n Ha Hn. apply window_ext. intros k Hk. rewrite Hbv, Hc by lia.
        replace (a + k =? held q + pending q) with false by lia. reflexivity. }
      f_equal; [apply Hw; lia|]. rewrite window_split by lia. rewrite Hw by lia. f_equal.
      unfold window. rewrite map_seqZ_shift. change (seqZ 0 1) with [0]. cbn [map].
      rewrite Z.add_0_r, Hbv, Hc, Z.eqb_refl by lia. reflexivity.
    + discriminate.
Qed.

Lemma consumeTo_spec i q b r q' : dmaInv q -> 0 <= i -> consumeTo i q = (b, r, q') ->
  dmaInv q' /\ (b = false -> q' = q /\ r = []) /\
  (b = true -> let n := (i + Count - dcons q) mod Count in
     n <= pending q /\ (r, channelOf q') = consumeSpec n (channelOf q)).
Proof.
  intros H Hi. unfold consumeTo. destruct (Z.leb_spec Count i).
  { intros [= <- <- <-]. split; [exact H|]. split; [auto|discriminate]. }
  cbv zeta. set (n := (i + Count - dcons q) mod Count). pose proof (offset_range (i + Count - dcons q)) as Hn. fold n in Hn.
  destruct (Z.ltb_spec (pending q) n).
  { intros [= <- <- <-]. split; [exact H|]. split; [auto|discriminate]. }
  destruct (consumeLoop (Z.to_nat n) q) as [r1 q1] eqn:E. intros [= <- <- <-].
  destruct (consumeLoop_spec (Z.to_nat n) q r1 q1 H ltac:(lia) E) as (Hi1 & He & Hp & Hh). rewrite Z2Nat.id in Hp, Hh by lia.
  split; [exact Hi1|]. split; [discriminate|]. intros _. split; [lia|].
  pose proof (everything_channel q H) as Eq. pose proof (everything_channel q1 Hi1) as Eq1.
  unfold consumeSpec. pose proof (di_held q H). pose proof (di_held q1 Hi1). pose proof (di_pending q H).
  assert (Hlk : zlen (kept (channelOf q)) = held q) by (apply zlen_window; lia).
  assert (Hli : zlen (inflight (channelOf q)) = pending q) by (apply zlen_window; lia).
  assert (Hlk1 : zlen (kept (channelOf q1)) = held q1) by (apply zlen_window; lia).
  assert (Hli1 : zlen (inflight (channelOf q1)) = pending q1) by (apply zlen_window; lia).
  set (K := kept (channelOf q)) in *. set (F := inflight (channelOf q)) in *.
  assert (Hall : (K ++ take (Z.to_nat n) F) ++ drop (Z.to_nat n) F = (r1 ++ kept (channelOf q1)) ++ inflight (channelOf q1)).
  { rewrite <- !app_assoc, take_drop, <- Eq1, <- He, Eq. reflexivity. }
  assert (Hr : zlen r1 + held q1 + pending q1 = held q + pending q).
  { apply (f_equal zlen) in He. rewrite zlen_app, Eq, Eq1, !zlen_app in He. lia. }
  assert (Hlen : length (K ++ take (Z.to_nat n) F) = length (r1 ++ kept (channelOf q1))).
  { rewrite !length_app, length_take. unfold zlen in *. lia. }
  apply app_inj_1 in Hall as [Hd Hf]; [|exact Hlen].
  assert (Hx : Z.to_nat (zlen (K ++ take (Z.to_nat n) F) - 8) = length r1).
  { rewrite Hd, zlen_app. unfold zlen in *. lia. }
  rewrite Hx, Hd, take_app_length, drop_app_length, Hf. destruct (channelOf q1). reflexivity.
Qed.

Lemma newDma_inv : dmaInv newDma.
Proof.
  assert (Hz : forall i, cookieAt newDma i = 0).
  { intros i. unfold cookieAt, newDma. simpl. unfold zeros. rewrite nth_lookup.
    destruct (replicate (Z.to_nat Count) 0 !! Z.to_nat i) eqn:E; [|reflexivity]. apply lookup_replicate in E as [-> _]. reflexivity. }
  split; simpl; try lia.
  - unfold zeros. apply length_replicate.
  - unfold zeros. apply length_replicate.
  - reflexivity.
  - reflexivity.
  - intros k Hk. rewrite Hz. lia.
Qed.

(** The ledgers reachable by the operations. *)
Inductive reachable : FirmwareDma -> Prop :=
| reach_new : reachable newDma
| reach_commit slot c q b q' : reachable q -> commit slot c q = (b, q') -> reachable q'
| reach_consume i q b r q' : reachable q -> 0 <= i -> consumeTo i q = (b, r, q') -> reachable q'
| reach_reclaim q r q' : reachable q -> reclaimAfterDmaStopped q = (r, q') -> reachable q'.

Lemma reclaim_inv q r q' : dmaInv q -> reclaimAfterDmaStopped q = (r, q') ->
  dmaInv q' /\ channelOf q' = mkChannel [] [].
Proof.
  intros H [= _ <-]. split; [|reflexivity]. pose proof newDma_inv as N.
  split; simpl; try lia.
  - rewrite length_map. apply H.
  - apply H.
  - reflexivity.
  - reflexivity.
  - intros k Hk. unfold cookieAt. simpl. 
    pose proof (map_nth (fun _ : Z => 0) (cookies q) 0) as E. cbv beta in E. rewrite E. lia.
Qed.

Lemma dma_reachable_inv q : reachable q -> dmaInv q.
Proof.
  induction 1 as [|slot c q b q' _ IH E|i q b r q' _ IH Hi E|q r q' _ IH E].
  - exact newDma_inv.
  - apply (dma_commit_spec slot c q b q' IH E).
  - apply (consumeTo_spec i q b r q' IH Hi E).
  - apply (reclaim_inv q r q' IH E).
Qed.

(** C15: the command channel is a queue with a lag of exactly eight: from every
    reachable ledger, a commit is accepted at the producer slot only, puts the
    buffer behind all others, and is refused only for a null buffer, a wrong
    slot or a full ring; consumption of [n] buffers releases, in their order of
    commit, precisely those with eight newer consumed buffers, and keeps the
    others; a refused operation changes nothing and releases nothing. *)
Theorem channel_refines q :
  reachable q ->
  (forall slot c b q', commit slot c q = (b, q') ->
     (b = true -> c <> 0 /\ slot = dprod q /\
        channelOf q' = mkChannel (kept (channelOf q)) (inflight (channelOf q) ++ [c])) /\
     (b = false -> q' = q /\ (c = 0 \/ slot <> dprod q \/ zlen (inflight (channelOf q)) = Count - 1 \/
        zlen (kept (channelOf q)) + zlen (inflight (channelOf q)) = Count))) /\
  (forall i b r q', 0 <= i -> consumeTo i q = (b, r, q') ->
     (b = false -> q' = q /\ r = []) /\
     (b = true -> let n := (i + Count - dcons q) mod Count in
        n <= zlen (inflight (channelOf q)) /\ (r, channelOf q') = consumeSpec n (channelOf q))) /\
  zlen (kept (channelOf q)) <= 8.
Proof.
  intros Hr. pose proof (dma_reachable_inv q Hr) as H. pose proof (di_held q H). pose proof (di_pending q H).
  assert (Hlk : zlen (kept (channelOf q)) = held q) by (apply zlen_window; lia).
  assert (Hli : zlen (inflight (channelOf q)) = pending q) by (apply zlen_window; lia).
  rewrite Hlk, Hli. split; [|split; [|lia]].
  - intros slot c b q' E. apply (dma_commit_spec slot c q b q' H E).
  - intros i b r q' Hi E. apply (consumeTo_spec i q b r q' H Hi E).
Qed.

Lemma window_wrap q : dmaInv q -> window q 0 Count ≡ₚ cookies q.
Proof.
  intros H. pose proof (offset_range (dcons q - held q)) as Hb. fold (base q) in Hb.
  assert (Hs : forall k, cookieAt q k = nth (Z.to_nat k) (cookies q) 0) by reflexivity.
  assert (Hw : window q 0 Count = drop (Z.to_nat (base q)) (cookies q) ++ take (Z.to_nat (base q)) (cookies q)).
  { pose proof (di_cookies q H) as Hl. apply list_eq. intros i. unfold window.
    change (map ?f (seqZ 0 Count)) with (f <$> seqZ 0 Count). rewrite list_lookup_fmap.
    destruct (decide (i < Z.to_nat Count)%nat) as [Hi|Hi].
    - rewrite lookup_seqZ_lt by lia. simpl. rewrite Z.add_0_l, Hs, nth_lookup.
      destruct (decide (i < Z.to_nat Count - Z.to_nat (base q))%nat) as [Hd|Hd].
      + rewrite lookup_app_l by (rewrite length_drop; lia). rewrite lookup_drop, Z.mod_small by lia.
        replace (Z.to_nat (base q + Z.of_nat i)) with (Z.to_nat (base q) + i)%nat by lia.
        destruct (cookies q !! (Z.to_nat (base q) + i)%nat) eqn:E; [reflexivity|]. apply lookup_ge_None in E. lia.
      + rewrite lookup_app_r by (rewrite length_drop; lia). rewrite length_drop, Hl.
        replace (base q + Z.of_nat i) with (base q + Z.of_nat i - Count + 1 * Count) by lia.
        rewrite Z.mod_add, Z.mod_small, lookup_take_lt by lia.
        replace (Z.to_nat (base q + Z.of_nat i - Count)) with (i - (Z.to_nat Count - Z.to_nat (base q)))%nat by lia.
        destruct (cookies q !! (i - (Z.to_nat Count - Z.to_nat (base q)))%nat) eqn:E; [reflexivity|]. apply lookup_ge_None in E. lia.
    - rewrite lookup_seqZ_ge by lia. symmetry. apply lookup_ge_None. rewrite length_app, length_drop, length_take. lia. }
  rewrite Hw, Permutation_app_comm, take_drop. reflexivity.
Qed.

(** the reclaim that follows a DMA stop returns every buffer the ledger
    still holds, those kept back and those in flight, each exactly once, and
    leaves an empty channel. *)
Theorem reclaim_returns_all q r q' :
  reachable q -> reclaimAfterDmaStopped q = (r, q') ->
  r ≡ₚ kept (channelOf q) ++ inflight (channelOf q) /\ channelOf q' = mkChannel [] [].
Proof.
  intros Hr E. pose proof (dma_reachable_inv q Hr) as H. split; [|apply (reclaim_inv q r q' H E)].
  injection E as <- _. rewrite <- (everything_channel q H). pose proof (window_wrap q H) as Hw.
  pose proof H as [D1 D2 D3 D4 D5 D6 D7 D8 D9 D10 D11].
  rewrite <- Hw. replace Count with (held q + pending q + (Count - (held q + pending q))) at 1 by lia.
  rewrite window_split, filter_app by lia. fold (everything q).
  assert (Hall : forall l : list Z, Forall (fun c => c <> 0) l -> filter (fun c => c <> 0) l = l).
  { induction 1 as [|x l Hx _ IH]; [reflexivity|]. rewrite filter_cons_True by exact Hx. f_equal. exact IH. }
  assert (Hnone : forall l : list Z, Forall (fun c => c = 0) l -> filter (fun c => c <> 0) l = []).
  { induction 1 as [|x l Hx _ IH]; [reflexivity|]. rewrite filter_cons_False by (intros E; auto). exact IH. }
  rewrite Hall, Hnone; [rewrite app_nil_r; reflexivity| |].
  - apply Forall_forall. intros x Hx. unfold window in Hx. apply list_elem_of_In, in_map_iff in Hx as (k & <- & Hk).
    apply list_elem_of_In, elem_of_seqZ in Hk.
    destruct (Z.eq_dec (cookieAt q ((base q + k) mod Count)) 0) as [|Hne]; [assumption|]. apply D11 in Hne; lia.
  - apply Forall_forall. intros x Hx. unfold everything, window in Hx. apply list_elem_of_In, in_map_iff in Hx as (k & <- & Hk).
    apply list_elem_of_In, elem_of_seqZ in Hk. apply D11; lia.
Qed.

End ledger.

(** Ten buffers of a ring of 12, all consumed: the first two are released. *)
Definition sampleDma : FirmwareDma :=
  Nat.iter 10 (fun q => (commit 12 (dprod q) (100 + dprod q) q).2) (newDma 12).

Example sampleDma_lag : (consumeTo 12 10 sampleDma).1 = (true, [100; 101]).
Proof. vm_compute. reflexivity. Qed.

Lemma sampleDma_reachable : reachable 12 sampleDma.
Proof.
  assert (H : forall n, reachable 12 (Nat.iter n (fun q => (commit 12 (dprod q) (100 + dprod q) q).2) (newDma 12))).
  { induction n as [|n IH]; [constructor|]. simpl.
    eapply (reach_commit 12 _ _ _ _ _ IH). apply surjective_pairing. }
  apply H.
Qed.

Lemma channel_refines_witness :
  (consumeTo 12 9 sampleDma).1 = (true, [100]) /\
  ([100], channelOf 12 (consumeTo 12 9 sampleDma).2) = consumeSpec ((9 + 12 - dcons sampleDma) mod 12) (channelOf 12 sampleDma).
Proof.
  split; [vm_compute; reflexivity|].
  apply (channel_refines 12 ltac:(lia) sampleDma sampleDma_reachable) with (i := 9) (b := true); [lia|vm_compute; reflexivity|reflexivity].
Defined.

Lemma reclaim_returns_all_witness :
  (reclaimAfterDmaStopped sampleDma).1 ≡ₚ kept (channelOf 12 sampleDma) ++ inflight (channelOf 12 sampleDma) /\
  channelOf 12 (reclaimAfterDmaStopped sampleDma).2 = mkChannel [] [].
Proof.
  apply (reclaim_returns_all 12 ltac:(lia) sampleDma _ _ sampleDma_reachable). apply surjective_pairing.
Defined.

(** ** The frame of a command *)

Lemma encodeTx_command n seq capacity :
  mspec (encodeTx (emptyTxInfo <| ch_dma := 12 |> <| pkt_size := n |> <| seqno := seq |>) true capacity)
    (fun desc => zlen desc = 24 /\ 24 <= capacity).
Proof.
  set (info := emptyTxInfo <| ch_dma := 12 |> <| pkt_size := n |> <| seqno := seq |>).
  destruct (encodeTx info true capacity) as [d|e|] eqn:E; [|exact I|].
  - pose proof (encodeTx_words _ _ _ E) as (_ & _ & _ & H1 & H2). simpl in *. lia.
  - unfold encodeTx in E. simpl in E. destruct (n =? 0); simpl in E; [discriminate|].
    destruct (txFieldsFit _); simpl in E; [|discriminate]. destruct (capacity <? _); simpl in E; discriminate.
Qed.

(** the frame a command is sent in is laid out in bounds: the 24-byte
    descriptor, then a copy of the command, in a buffer that does not overlap
    it; the ring entry holds the frame's length and DMA address, which lie
    below 4 GiB; bytes behind the frame keep their value. *)
Theorem encodeCommandDma_layout command source length physical out target capacity bd :
  0 <= length <= zlen command -> capacity <= zlen out -> zlen bd = 8 -> 0 <= physical ->
  match encodeCommandDma (Some command) source length physical (Some out) target capacity bd with
  | MVal (o, d, n) =>
      n = length + 24 /\ n <= capacity /\ 8 <= length <= 16383 /\ le32_at command 4 mod 16384 = length /\
      physical + n <= 2^32 /\ (target + n <= source \/ source + length <= target) /\
      d = le16_bytes n ++ le16_bytes 0x4000 ++ le32_bytes physical /\
      zlen o = zlen out /\ (forall i, 0 <= i < length -> byte_at o (24 + i) = byte_at command i) /\
      (forall j, n <= j -> byte_at o j = byte_at out j)
  | MErr _ => True
  | MOob => False
  end.
Proof.
  intros Hl Hc Hbd Hph.
  cut (mspec (encodeCommandDma (Some command) source length physical (Some out) target capacity bd) (fun x =>
    let '(o, d, n) := x in
      n = length + 24 /\ n <= capacity /\ 8 <= length <= 16383 /\ le32_at command 4 mod 16384 = length /\
      physical + n <= 2^32 /\ (target + n <= source \/ source + length <= target) /\
      d = le16_bytes n ++ le16_bytes 0x4000 ++ le32_bytes physical /\
      zlen o = zlen out /\ (forall i, 0 <= i < length -> byte_at o (24 + i) = byte_at command i) /\
      (forall j, n <= j -> byte_at o j = byte_at out j))).
  { destruct (encodeCommandDma _ _ _ _ _ _ _ _) as [[[o d] n]|e|]; auto. }
  unfold encodeCommandDma, little32. mstep. mstep.
  apply orb_false_iff in Hg as [Hg Hrange]. apply negb_false_iff in Hrange.
  apply dma32Range_spec in Hrange; [|lia|lia].
  mstep. apply rd32_spec; [lia|lia|]. mstep. mstep. mstep. mstep.
  assert (Hlen : le32_at command 4 mod 16384 = length) by (rewrite <- land3fff_mod; lia).
  assert (Hfree : target + (length + 24) <= source \/ source + length <= target) by (destruct (source <=? target) eqn:?; lia).
  mstep. apply (mspec_mono _ (fun _ => True)); [mwalk; exact I|]. intros q _. cbv zeta.
  generalize (encodeTx_command (u16 length) q capacity).
  destruct (encodeTx _ true capacity) as [desc|e|]; [intros [Hd Hcap]|intros _; exact I|contradiction].
  mstep. mstep. mstep. apply store_spec; [lia|lia|].
  assert (Hz : zlen (blit out 0 desc) = zlen out) by (apply zlen_blit; lia).
  mstep. apply (copy_spec 24 command); [lia|lia|lia|]. intros o Ho Hb. mstep.
  assert (Hbd4 : exists x0 x1 x2 x3 x4 x5 x6 x7, bd = [x0; x1; x2; x3; x4; x5; x6; x7]).
  { do 8 (destruct bd as [|? bd]; [discriminate|]). destruct bd; [repeat eexists|unfold zlen in Hbd; simpl in Hbd; lia]. }
  destruct Hbd4 as (x0 & x1 & x2 & x3 & x4 & x5 & x6 & x7 & ->).
  apply store16_spec; [lia|vm_compute; discriminate|]. mstep. apply store16_spec; [lia|vm_compute; discriminate|]. mstep.
  apply store32_spec; [lia|vm_compute; discriminate|]. mstep.
  split; [reflexivity|]. split; [lia|]. split; [lia|]. split; [exact Hlen|].
  change (2 ^ 32) with 4294967296. split; [lia|]. split; [lia|].
  split; [rewrite u16_small, u32_small by zlia; reflexivity|]. split; [lia|]. split.
  - intros i Hi. rewrite Hb by lia. replace ((24 <=? 24 + i) && (24 + i <? 24 + length)) with true by lia. f_equal. lia.
  - intros j Hj. rewrite Hb by lia. replace ((24 <=? j) && (j <? 24 + length)) with false by lia.
    rewrite byte_at_blit by lia. replace ((0 <=? j) && (j <? 0 + zlen desc)) with false by lia. reflexivity.
Qed.

Definition sampleCommand : buf :=
  le32_bytes (headerWord (mkCommandId 1 8 4) 7) ++ le32_bytes 12 ++ [1; 2; 3; 4].

Lemma encodeCommandDma_layout_witness :
  match encodeCommandDma (Some sampleCommand) 0x9000 12 0x10000 (Some (zeros 64)) 0x8000 64 (zeros 8) with
  | MVal (o, d, n) => n = 36 /\ d = le16_bytes n ++ le16_bytes 0x4000 ++ le32_bytes 0x10000
  | MErr _ => False
  | MOob => False
  end.
Proof.
  generalize (encodeCommandDma_layout sampleCommand 0x9000 12 0x10000 (zeros 64) 0x8000 64 (zeros 8)
    ltac:(vm_compute; split; discriminate) ltac:(vm_compute; discriminate) eq_refl ltac:(lia)).
  vm_compute. tauto.
Defined.
