(* ===== verification/Station.v ===== *)
(** * The station controller (src/network/StationController.hpp)

    Scanning, authentication, association and teardown as a state machine over
    an asynchronous back end, with the channel geometry of ChannelGeometry.hpp
    and RfkInitialization.hpp.  Its public methods run one at a time under a
    gate; hardware actions and firmware commands complete by later calls. *)

From S2P Require Import Prelude Prog Protocol.

(** ** Channels *)

Record Channel := mkChannel { band : Z; width : Z; center : Z; primary : Z }.

(** [rfk::validChannel]. *)
Definition validCenter (b w c : Z) : bool :=
  if b =? 0 then
    if w =? 0 then (1 <=? c) && (c <=? 14) else (w =? 1) && (3 <=? c) && (c <=? 11)
  else if negb (b =? 1) then false
  else if w =? 0 then
    ((36 <=? c) && (c <=? 64) && (c mod 4 =? 0)) || ((100 <=? c) && (c <=? 144) && (c mod 4 =? 0)) ||
    ((149 <=? c) && (c <=? 177) && ((c - 149) mod 4 =? 0))
  else if w =? 1 then existsb (Z.eqb c) [38; 46; 54; 62; 102; 110; 118; 126; 134; 142; 151; 159; 167; 175]
  else if w =? 2 then existsb (Z.eqb c) [42; 58; 106; 122; 138; 155; 171]
  else false.

Definition validChannel (c : Channel) : bool :=
  if negb (validCenter (band c) (width c) (center c)) || negb (validCenter (band c) 0 (primary c)) then false else
  let distance := primary c - center c in
  if width c =? 0 then distance =? 0 else
  if (band c =? 0) && (primary c =? 14) then false else
  if width c =? 1 then (distance =? 2) || (distance =? -2)
  else (distance =? 2) || (distance =? -2) || (distance =? 6) || (distance =? -6).

Definition sameChannel (a b : Channel) : bool :=
  (band a =? band b) && (width a =? width b) && (center a =? center b) && (primary a =? primary b).

(** ** Data *)

Record Token := mkToken { epoch : Z; operation : Z }.
Definition same (a b : Token) : bool := (epoch a =? epoch b) && (operation a =? operation b).
Definition noToken : Token := mkToken 0 0.

(** Six bytes. *)
Abbreviation Address := (list Z).
Definition sameAddress (a b : Address) : bool := bool_decide (a = b).
Definition unicast (a : Address) : bool :=
  negb (foldl Z.lor 0 a =? 0) && (Z.land (nth 0 a 0) 1 =? 0).

Definition noChannel : Channel := mkChannel 0 0 0 0.
Record Interface := mkInterface {
  macid : Z; macIndex : Z; wmm : Z; port : Z; address : Address; home : Channel
}.
#[export] Instance Interface_rebuild : Rebuild Interface := fun i =>
  mkInterface (macid i) (macIndex i) (wmm i) (port i) (address i) (home i).
Definition noInterface : Interface := mkInterface 0 0 0 0 (zeros 6) noChannel.
Record Peer := mkPeer { bssid : Address; pchannel : Channel; ssid : list Z; ssidLength : Z; protectedNetwork : bool }.
Definition noPeer : Peer := mkPeer (zeros 6) noChannel (zeros 32) 0 false.
Record Association := mkAssoc { abssid : Address; achannel : Channel; aid : Z }.
Definition noAssociation : Association := mkAssoc (zeros 6) noChannel 0.
Record ScanChannel := mkScan { schannel : Channel; dwellMs : Z; active : bool }.
Definition noScanChannel : ScanChannel := mkScan noChannel 0 false.

Inductive Traffic := none | management | scanProbe | controlledPort | tauthorized.
Inductive Action := prepareInterface | idleTables | scanBegin | scanTune | scanRestore | scanEnd
| prepareAuthentication | associationCmac | associationCam | disconnectCmac | disconnectCam | removeCam.
Inductive State := stopped | preparing | creatingRole | initialNoLink | installingIdle | idle
| scanningBegin | scanningTune | scanningDwell | scanningRestore | scanningEnd
| preparingAuthentication | authenticating | installingAssociationCmac | joining
| installingAssociationCam | associated | authorized | disconnectingCmac | disconnecting
| disconnectingCam | removingRole | removingCam | faulted.
Inductive Error := noError | backend | clock | timeout | firmwareRejected | sequenceExhausted
| authentication | association | cancelled | invalidProtocol.
#[export] Instance Traffic_eq_dec : EqDecision Traffic. Proof. solve_decision. Defined.
#[export] Instance Action_eq_dec : EqDecision Action. Proof. solve_decision. Defined.
#[export] Instance State_eq_dec : EqDecision State. Proof. solve_decision. Defined.
#[export] Instance Channel_eq_dec : EqDecision Channel. Proof. solve_decision. Defined.

(** The order of the enumerators. *)
Definition stateIndex (s : State) : Z :=
  match s with
  | stopped => 0 | preparing => 1 | creatingRole => 2 | initialNoLink => 3 | installingIdle => 4 | idle => 5
  | scanningBegin => 6 | scanningTune => 7 | scanningDwell => 8 | scanningRestore => 9 | scanningEnd => 10
  | preparingAuthentication => 11 | authenticating => 12 | installingAssociationCmac => 13 | joining => 14
  | installingAssociationCam => 15 | associated => 16 | authorized => 17 | disconnectingCmac => 18
  | disconnecting => 19 | disconnectingCam => 20 | removingRole => 21 | removingCam => 22 | faulted => 23
  end.

Record ActionRequest := mkRequest {
  q_action : Action; q_token : Token; q_association : Token; q_interface : Interface; q_peer : Peer;
  q_channel : Channel; q_aid : Z; q_activeScan : bool
}.

(** ** The back end *)

(** [OutOfRange] stands for undefined behaviour: a read outside [channels_] or
    outside a received event. *)
Inductive backendOp :=
| InGate | SetTraffic (t : Traffic) | ReserveH2cSequence | PublishH2c (bytes : buf) (length : Z) (t : Token)
| BeginAction (r : ActionRequest) | BeginAuthentication (t : Token) (p : Peer)
| SendProbe (t : Token) (p : option Peer) (c : ScanChannel) | CancelProtocol (t : Token)
| ScanFinished (t : Token) (cancelled : bool) | RecoveryRequired (t : Token) (e : Error)
| FirmwareRestartVerified (newEpoch : Z) | OutOfRange.
Definition backendAns (o : backendOp) : Type :=
  match o with
  | ReserveH2cSequence => bool * Z
  | ScanFinished _ _ | RecoveryRequired _ _ | OutOfRange => unit
  | _ => bool
  end.
Definition Backend : sig := Sig backendOp backendAns.

(** ** The controller *)

Record Controller := mkController {
  state : State; scanResume : State; error : Error; interface : Interface; peer : Peer;
  assoc : Association; channels : list ScanChannel; channelCount : Z; channelIndex : Z;
  ctlEpoch : Token; associationToken : Token; scanToken : Token; pendingToken : Token;
  pendingAction : Action; pendingCommand : CommandId; pendingSequence : Z; serial : Z; lastNow : Z;
  deadline : Z; scanDeadline : Z; clockStarted : bool; waitingAction : bool; waitingCommand : bool;
  roleCreated : bool; authenticated_ : bool; scanCancelled : bool; disconnectRequested : bool
}.
#[export] Instance Controller_rebuild : Rebuild Controller := fun s =>
  mkController (state s) (scanResume s) (error s) (interface s) (peer s) (assoc s) (channels s)
    (channelCount s) (channelIndex s) (ctlEpoch s) (associationToken s) (scanToken s) (pendingToken s)
    (pendingAction s) (pendingCommand s) (pendingSequence s) (serial s) (lastNow s) (deadline s)
    (scanDeadline s) (clockStarted s) (waitingAction s) (waitingCommand s) (roleCreated s)
    (authenticated_ s) (scanCancelled s) (disconnectRequested s).

Definition newController : Controller :=
  mkController stopped idle noError noInterface noPeer noAssociation (replicate 64 noScanChannel) 0 0
    noToken noToken noToken noToken prepareInterface (mkCommandId 0 0 0) 0 0 0 0 0
    false false false false false false false.

Abbreviation C := (M Backend Controller).
Definition bcall (o : backendOp) : C (backendAns o) := call (Σ:=Backend) o.
Definition update (f : Controller -> Controller) : C unit := modify f.

(** [if (!b) return false;] *)
Definition check (b : bool) : C bool := mret b.

Definition U64MAX : Z := 2^64 - 1.

Definition fail (e : Error) : C bool :=
  s ← get;
  if bool_decide (state s = faulted) then mret false else
  update (fun s => s <| error := e |> <| state := faulted |> <| waitingAction := false |> <| waitingCommand := false |>);;
  _ ← bcall (SetTraffic none);
  bcall (RecoveryRequired (ctlEpoch s) e);;
  mret false.

Definition time (now : Z) : C bool :=
  gate ← bcall InGate;
  s ← get;
  if negb gate || bool_decide (state s = faulted) then mret false else
  if clockStarted s && (now <? lastNow s) then fail clock else
  update (fun s => s <| lastNow := now |> <| clockStarted := true |>);;
  mret true.

Definition arm (duration : Z) : C bool :=
  s ← get;
  if U64MAX - lastNow s <? duration then fail clock else
  update (fun s => s <| deadline := lastNow s + duration |>);;
  mret true.

Definition token : C Token :=
  s ← get;
  if serial s =? U64MAX then fail sequenceExhausted;; mret noToken else
  update (fun s => s <| serial := serial s + 1 |>);;
  mret (mkToken (epoch (ctlEpoch s)) (serial s + 1)).

Definition traffic (t : Traffic) : C bool := bcall (SetTraffic t) ||| fail backend.

Definition isFaulted : C bool := gets (fun s => bool_decide (state s = faulted)).

Definition actionTimeout : Z := 12000000.
Definition commandTimeout : Z := 2000000.
Definition authenticationTimeout : Z := 10000000.

(** [channels_[channelIndex_]]. *)
Definition currentChannel : C ScanChannel :=
  s ← get;
  if (0 <=? channelIndex s) && (channelIndex s <? 64) then mret (nth (Z.to_nat (channelIndex s)) (channels s) noScanChannel)
  else bcall OutOfRange;; mret noScanChannel.

Definition action (kind : Action) (st : State) (target : Channel) : C bool :=
  s ← get;
  if waitingAction s || waitingCommand s then fail backend else
  t ← token;
  update (fun s => s <| pendingToken := t |>);;
  f ← isFaulted;
  if (f : bool) then mret false else
  update (fun s => s <| pendingAction := kind |> <| waitingAction := true |> <| state := st |>);;
  ok ← arm actionTimeout;
  if negb ok then mret false else
  act ← (if bool_decide (kind = scanTune) then c ← currentChannel; mret (active c) else mret false);
  s ← get;
  bcall (BeginAction (mkRequest kind (pendingToken s) (associationToken s) (interface s) (peer s) target (aid (assoc s)) act))
    ||| fail backend.

Definition command (role removeOrDisconnect : bool) (st : State) : C bool :=
  s ← get;
  if waitingAction s || waitingCommand s then fail backend else
  r ← bcall ReserveH2cSequence;
  if negb (fst r) then fail sequenceExhausted else
  let sequence := u8 (snd r) in
  let bytes := Some (zeros 12) in
  let encoded :=
    if role
    then encodeRole (mkRole (macid (interface s)) 0 (if removeOrDisconnect then 1 else 0) 1) sequence bytes 12
    else encodeJoin (mkJoin (macid (interface s)) (macIndex (interface s)) (wmm (interface s)) (port (interface s))
                       (if removeOrDisconnect then 0 else 2) 1 0 removeOrDisconnect false) sequence bytes 12 in
  update (fun s => s <| pendingCommand := if role then mkCommandId 1 8 4 else mkCommandId 1 8 0 |>);;
  match encoded with
  | MErr _ => fail backend
  | MOob => bcall OutOfRange;; mret false
  | MVal (bytes, length) =>
      t ← token;
      update (fun s => s <| pendingToken := t |>);;
      f ← isFaulted;
      if (f : bool) then mret false else
      update (fun s => s <| pendingSequence := sequence |> <| waitingCommand := true |> <| state := st |>);;
      ok ← arm commandTimeout;
      if negb ok then mret false else
      s ← get;
      bcall (PublishH2c bytes length (pendingToken s)) ||| fail backend
  end.

Definition scanning (s : Controller) : bool := (6 <=? stateIndex (state s)) && (stateIndex (state s) <=? 10).
Definition linked (s : Controller) : bool := bool_decide (state s = associated) || bool_decide (state s = authorized).

Definition beginDisconnect : C bool :=
  traffic none &&>
  (s ← get; bcall (CancelProtocol (associationToken s)) ||| fail backend) &&>
  action disconnectCmac disconnectingCmac noChannel.

Definition tuneScan : C bool :=
  traffic none &&> (c ← currentChannel; action scanTune scanningTune (schannel c)).

Definition restoreScan : C bool :=
  traffic none &&>
  (s ← get; action scanRestore scanningRestore
     (if bool_decide (scanResume s = idle) then home (interface s) else pchannel (peer s))).

Definition completeScan : C bool :=
  update (fun s => s <| state := scanResume s |>);;
  s ← get;
  let mode := match state s with authorized => tauthorized | associated => controlledPort | _ => management end in
  traffic (if disconnectRequested s then none else mode) &&>
  (s ← get; bcall (ScanFinished (scanToken s) (scanCancelled s));;
   update (fun s => s <| scanToken := noToken |>);;
   if disconnectRequested s then beginDisconnect else mret true).

Definition expire : C bool :=
  s ← get;
  if scanning s && (scanDeadline s <=? lastNow s) then fail timeout else
  if waitingAction s || waitingCommand s then (if deadline s <=? lastNow s then fail timeout else mret true)
  else if bool_decide (state s = authenticating) && (deadline s <=? lastNow s) then
    update (fun s => s <| error := timeout |> <| disconnectRequested := true |>);; beginDisconnect
  else mret true.

(** ** The public methods *)

(** The assignments of [restart]: everything but the scan's resumption state,
    the pending command and the deadlines is reset. *)
Definition epochReset (newEpoch now : Z) (s : Controller) : Controller :=
  mkController stopped (scanResume s) noError noInterface noPeer noAssociation (channels s) 0 0
    (mkToken newEpoch 0) noToken noToken noToken (pendingAction s) (pendingCommand s) (pendingSequence s)
    0 now (deadline s) (scanDeadline s) true false false false false false false.

Definition restart (newEpoch now : Z) : C bool :=
  bcall InGate &&> (s ← get; check (negb (newEpoch =? 0) && (epoch (ctlEpoch s) <? newEpoch))) &&>
  bcall (FirmwareRestartVerified newEpoch) &&>
  bcall (SetTraffic none) &&>
  (update (epochReset newEpoch now);;
   mret true).

Definition start (config : Interface) (now : Z) : C bool :=
  time now &&>
  (s ← get; check (bool_decide (state s = stopped) && negb (epoch (ctlEpoch s) =? 0) && unicast (address config) &&
     (macIndex config =? 0) && (macid config <? 128) && (wmm config <=? 3) && (port config <=? 4) &&
     validChannel (home config))) &&>
  (update (fun s => s <| interface := config |> <| error := noError |>);;
   traffic none &&> action prepareInterface preparing (home config)).

Definition scanChannelOk (c : ScanChannel) : bool :=
  validChannel (schannel c) && (width (schannel c) =? 0) && (10 <=? dwellMs c) && (dwellMs c <=? 1000).
Definition dwellBudget (l : list ScanChannel) : Z := foldr (fun c n => dwellMs c * 1000 + n) 0 l.

(** [list]: the array, or [None] for a null pointer; its length is [count]. *)
Definition scan (list : option (list ScanChannel)) (now : Z) : C bool :=
  time now &&>
  (s ← get; check (bool_decide (state s = idle) || bool_decide (state s = authorized))) &&>
  match list with
  | None => check false
  | Some l =>
      let count := zlen l in
      check (negb (count =? 0) && (count <=? 64)) &&> check (forallb scanChannelOk l) &&>
      (let budget := dwellBudget l + (count + 4) * actionTimeout in
       if U64MAX - now <? budget then fail clock else
       update (fun s => s <| channels := l ++ drop (length l) (channels s) |> <| channelCount := count |>
         <| channelIndex := 0 |> <| scanResume := state s |> <| scanCancelled := false |>);;
       t ← token;
       update (fun s => s <| scanToken := t |>);;
       f ← isFaulted;
       if (f : bool) then mret false else
       update (fun s => s <| scanDeadline := now + budget |>);;
       traffic none &&> action scanBegin scanningBegin noChannel)
  end.

Definition cancelScan (original : Token) (now : Z) : C bool :=
  time now &&> (s ← get; check (scanning s && same original (scanToken s))) &&> expire &&>
  (update (fun s => s <| scanCancelled := true |>);;
   s ← get;
   if bool_decide (state s = scanningDwell) then restoreScan else mret true).

Definition connect (p : Peer) (now : Z) : C bool :=
  time now &&>
  (s ← get; check (bool_decide (state s = idle) && unicast (bssid p) && (ssidLength p <=? 32) && validChannel (pchannel p))) &&>
  (update (fun s => s <| peer := p |> <| assoc := noAssociation |> <| authenticated_ := false |> <| error := noError |>);;
   t ← token;
   update (fun s => s <| associationToken := t |>);;
   f ← isFaulted;
   if (f : bool) then mret false else
   traffic none &&> action prepareAuthentication preparingAuthentication (pchannel p)).

(** [error_ = e; disconnectRequested_ = true; return beginDisconnect();] *)
Definition giveUp (e : Error) : C bool :=
  update (fun s => s <| error := e |> <| disconnectRequested := true |>);; beginDisconnect.

Definition authenticated (original : Token) (from : Address) (success : bool) (now : Z) : C bool :=
  time now &&>
  (s ← get; check (bool_decide (state s = authenticating) && same original (associationToken s) &&
     sameAddress from (bssid (peer s)))) &&> expire &&>
  (if negb success then giveUp authentication else
   update (fun s => s <| authenticated_ := true |>);; mret true).

Definition associationReceived (original : Token) (a : Association) (now : Z) : C bool :=
  time now &&>
  (s ← get; check (bool_decide (state s = authenticating) && authenticated_ s && same original (associationToken s) &&
     sameAddress (abssid a) (bssid (peer s)) && sameChannel (achannel a) (pchannel (peer s)) &&
     negb (aid a =? 0) && (aid a <=? 2007))) &&> expire &&>
  (update (fun s => s <| assoc := a |>);; action associationCmac installingAssociationCmac noChannel).

Definition associationRejected (original : Token) (from : Address) (status now : Z) : C bool :=
  time now &&>
  (s ← get; check (bool_decide (state s = authenticating) && authenticated_ s && same original (associationToken s) &&
     sameAddress from (bssid (peer s)) && negb (status =? 0))) &&> expire &&>
  giveUp association.

Definition authorizePort (original : Token) (now : Z) : C bool :=
  time now &&>
  (s ← get; check (bool_decide (state s = associated) && same original (associationToken s))) &&>
  traffic tauthorized &&>
  (update (fun s => s <| state := authorized |>);; mret true).

Definition revokePort (original : Token) (now : Z) : C bool :=
  time now &&> (s ← get; check (same original (associationToken s))) &&> expire &&>
  (s ← get;
   if scanning s && bool_decide (scanResume s <> idle) then
     update (fun s => s <| scanResume := associated |>);; mret true
   else if negb (linked s) then mret false
   else traffic controlledPort &&> (update (fun s => s <| state := associated |>);; mret true)).

Definition disconnect (now : Z) : C bool :=
  time now &&> expire &&>
  (s ← get;
   if bool_decide (state s = idle) then mret true
   else if scanning s then
     update (fun s => if bool_decide (scanResume s <> idle) then s <| disconnectRequested := true |> else s);;
     cancelScan (scanToken s) now
   else if (stateIndex (state s) <? stateIndex preparingAuthentication) ||
           (stateIndex disconnectingCam <? stateIndex (state s)) then mret false
   else
     update (fun s => s <| disconnectRequested := true |>);;
     traffic none &&>
     (s ← get; if waitingAction s || waitingCommand s then mret true else beginDisconnect)).

Definition stop (now : Z) : C bool :=
  time now &&> (s ← get; check (bool_decide (state s = idle))) &&>
  traffic none &&> command true true removingRole.

Definition tick (now : Z) : C bool :=
  time now &&> expire &&>
  (s ← get;
   if bool_decide (state s = scanningDwell) && (deadline s <=? now) then
     if scanCancelled s then restoreScan else
     update (fun s => s <| channelIndex := channelIndex s + 1 |>);;
     s ← get;
     if channelIndex s =? channelCount s then restoreScan else tuneScan
   else mret true).

(** The switch of [actionComplete]. *)
Definition completed (kind : Action) : C bool :=
  s ← get;
  match kind with
  | prepareInterface => command true false creatingRole
  | idleTables => update (fun s => s <| state := idle |>);; traffic management
  | scanBegin => if scanCancelled s then restoreScan else tuneScan
  | scanTune =>
      if scanCancelled s then restoreScan else
      update (fun s => s <| state := scanningDwell |>);;
      c ← currentChannel;
      arm (dwellMs c * 1000) &&> traffic (if active c then scanProbe else none) &&>
      (if active c then
         s ← get;
         bcall (SendProbe (scanToken s) (if bool_decide (scanResume s = idle) then None else Some (peer s)) c) ||| fail backend
       else mret true)
  | scanRestore => action scanEnd scanningEnd noChannel
  | scanEnd => completeScan
  | prepareAuthentication =>
      update (fun s => s <| interface := (interface s) <| home := pchannel (peer s) |> |>);;
      if disconnectRequested s then beginDisconnect else
      update (fun s => s <| state := authenticating |>);;
      arm authenticationTimeout &&> traffic management &&>
      (s ← get; bcall (BeginAuthentication (associationToken s) (peer s)) ||| fail backend)
  | associationCmac => if disconnectRequested s then beginDisconnect else command false false joining
  | associationCam =>
      if disconnectRequested s then beginDisconnect else
      update (fun s => s <| state := associated |>);; traffic controlledPort
  | disconnectCmac => command false true disconnecting
  | disconnectCam =>
      update (fun s => s <| state := idle |> <| associationToken := noToken |> <| assoc := noAssociation |>
        <| peer := noPeer |> <| authenticated_ := false |> <| disconnectRequested := false |>);;
      traffic management
  | removeCam => update (fun s => s <| roleCreated := false |> <| state := stopped |>);; mret true
  end.

Definition actionComplete (original : Token) (kind : Action) (success : bool) (now : Z) : C bool :=
  time now &&>
  (s ← get; check (waitingAction s && same original (pendingToken s) && bool_decide (kind = pendingAction s))) &&> expire &&>
  (update (fun s => s <| waitingAction := false |>);;
   if negb success then fail backend else completed kind).

(** The switch of [firmwareEvent]. *)
Definition acknowledged : C bool :=
  s ← get;
  match state s with
  | creatingRole => update (fun s => s <| roleCreated := true |>);; command false true initialNoLink
  | initialNoLink => action idleTables installingIdle noChannel
  | joining => if disconnectRequested s then beginDisconnect else action associationCam installingAssociationCam noChannel
  | disconnecting => action disconnectCam disconnectingCam noChannel
  | removingRole => action removeCam removingCam noChannel
  | _ => fail backend
  end.

Definition firmwareEvent (event : FirmwareEvent) (receiveEpoch now : Z) : C bool :=
  time now &&>
  (s ← get; check (waitingCommand s && (receiveEpoch =? epoch (ctlEpoch s)))) &&> expire &&>
  match decodeAck event with
  | MOob => bcall OutOfRange;; mret false
  | MErr _ => mret false
  | MVal ack =>
      (s ← get; check (done ack && (ack_sequence ack =? pendingSequence s) &&
         sameCommand (Protocol.command ack) (pendingCommand s))) &&>
      (update (fun s => s <| waitingCommand := false |>);;
       if negb (returnCode ack =? 0) then fail firmwareRejected else acknowledged)
  end.

Inductive api :=
| Restart (newEpoch now : Z) | Start (config : Interface) (now : Z)
| Scan (l : option (list ScanChannel)) (now : Z) | CancelScan (original : Token) (now : Z)
| Connect (p : Peer) (now : Z) | Authenticated (original : Token) (from : Address) (success : bool) (now : Z)
| AssociationReceived (original : Token) (a : Association) (now : Z)
| AssociationRejected (original : Token) (from : Address) (status now : Z)
| AuthorizePort (original : Token) (now : Z) | RevokePort (original : Token) (now : Z)
| Disconnect (now : Z) | Stop (now : Z) | Tick (now : Z)
| ActionComplete (original : Token) (kind : Action) (success : bool) (now : Z)
| FirmwareEvent_ (event : FirmwareEvent) (receiveEpoch now : Z).

Definition runApi (a : api) : C bool :=
  match a with
  | Restart e now => restart e now
  | Start c now => start c now
  | Scan l now => scan l now
  | CancelScan t now => cancelScan t now
  | Connect p now => connect p now
  | Authenticated t b ok now => authenticated t b ok now
  | AssociationReceived t a now => associationReceived t a now
  | AssociationRejected t b st now => associationRejected t b st now
  | AuthorizePort t now => authorizePort t now
  | RevokePort t now => revokePort t now
  | Disconnect now => disconnect now
  | Stop now => stop now
  | Tick now => tick now
  | ActionComplete t k ok now => actionComplete t k ok now
  | FirmwareEvent_ e ep now => firmwareEvent e ep now
  end.

(** A controller driven by a sequence of calls. *)
Fixpoint session (l : list api) : C unit :=
  match l with [] => mret tt | a :: l => runApi a;; session l end.

(** ** The rules the back end can rely on *)

(** What a back end sees: the traffic mode in force and the last token it was
    given with an action or a command. *)
Record Seen := mkSeen { mode : Traffic; last : Token }.

Definition before (a b : Token) : Prop := epoch a < epoch b \/ (epoch a = epoch b /\ operation a < operation b).
Definition upTo (a b : Token) : Prop := epoch a < epoch b \/ (epoch a = epoch b /\ operation a <= operation b).

(** Data is never let through while the hardware is reconfigured; tokens never
    repeat; [allow] says whether the call may open the port to data. *)
Definition policy (allow : bool) : protocol Backend Seen := Protocol (Σ:=Backend) (G:=Seen)
  (fun g o => match o with
    | SetTraffic tauthorized => allow = true
    | BeginAction r => before (last g) (q_token r) /\ (mode g = none \/ mode g = management) /\
        (q_action r = scanTune -> validChannel (q_channel r) = true /\ width (q_channel r) = 0)
    | PublishH2c _ length t => length = 12 /\ before (last g) t /\ (mode g = none \/ mode g = management)
    | BeginAuthentication _ _ => mode g = management
    | SendProbe _ _ c => mode g = scanProbe /\ active c = true
    | OutOfRange => False
    | _ => True
    end)
  (fun _ _ _ => True)
  (fun g o _ => match o with
    | SetTraffic t => mkSeen t (last g)
    | BeginAction r => mkSeen (mode g) (q_token r)
    | PublishH2c _ _ t => mkSeen (mode g) t
    | _ => g
    end).

(** ** The invariant *)

(** What a state waits for: an action, a command, or nothing. *)
Definition pendingOf (st : State) : option (option Action) :=
  match st with
  | preparing => Some (Some prepareInterface) | installingIdle => Some (Some idleTables)
  | scanningBegin => Some (Some scanBegin) | scanningTune => Some (Some scanTune)
  | scanningRestore => Some (Some scanRestore) | scanningEnd => Some (Some scanEnd)
  | preparingAuthentication => Some (Some prepareAuthentication)
  | installingAssociationCmac => Some (Some associationCmac)
  | installingAssociationCam => Some (Some associationCam)
  | disconnectingCmac => Some (Some disconnectCmac) | disconnectingCam => Some (Some disconnectCam)
  | removingCam => Some (Some removeCam)
  | creatingRole | initialNoLink | joining | disconnecting | removingRole => Some None
  | stopped | idle | scanningDwell | authenticating | associated | authorized | faulted => None
  end.
Definition pendingOk (s : Controller) : Prop :=
  match pendingOf (state s) with
  | Some (Some a) => waitingAction s = true /\ waitingCommand s = false /\ pendingAction s = a
  | Some None => waitingAction s = false /\ waitingCommand s = true
  | None => waitingAction s = false /\ waitingCommand s = false
  end.

(** The peer the link is to has authenticated and accepted the association. *)
Definition bonded (s : Controller) : Prop :=
  authenticated_ s = true /\ abssid (assoc s) = bssid (peer s) /\
  sameChannel (achannel (assoc s)) (pchannel (peer s)) = true /\ 0 < aid (assoc s) <= 2007.

Definition isScanning (st : State) : bool :=
  match st with scanningBegin | scanningTune | scanningDwell | scanningRestore | scanningEnd => true | _ => false end.
Definition needsBond (st : State) (s : Controller) : bool :=
  match st with
  | installingAssociationCmac | joining | installingAssociationCam | associated | authorized => true
  | _ => isScanning st && bool_decide (scanResume s <> idle)
  end.
Definition mayDisconnect (st : State) (s : Controller) : bool :=
  match st with
  | preparingAuthentication | installingAssociationCmac | joining | installingAssociationCam
  | disconnectingCmac | disconnecting | disconnectingCam | faulted => true
  | _ => isScanning st && bool_decide (scanResume s <> idle)
  end.
(** The traffic mode is the state's, or none. *)
Definition modeFor (st : State) (s : Controller) (m : Traffic) : Prop :=
  m = none \/
  match st with
  | idle | authenticating => m = management
  | installingAssociationCmac | joining | installingAssociationCam =>
      disconnectRequested s = false /\ m = management
  | scanningDwell => m = scanProbe
  | associated => m = controlledPort
  | authorized => m = tauthorized
  | _ => False
  end.
Definition configured (st : State) : bool := negb (bool_decide (st = stopped)) && negb (bool_decide (st = faulted)).
Definition roleIn (st : State) : option bool :=
  match st with stopped | preparing | creatingRole => Some false | faulted => None | _ => Some true end.
Definition ifaceOk (i : Interface) : Prop :=
  0 <= macid i < 128 /\ macIndex i = 0 /\ 0 <= wmm i <= 3 /\ 0 <= port i <= 4.
Definition scanReady (s : Controller) : Prop :=
  0 <= channelIndex s < channelCount s /\ channelCount s <= 64 /\
  forall i, 0 <= i < channelCount s -> scanChannelOk (nth (Z.to_nat i) (channels s) noScanChannel) = true.

Record Core (st : State) (s : Controller) (m : Traffic) : Prop := {
  co_mode : modeFor st s m;
  co_bond : needsBond st s = true -> bonded s;
  co_disc : disconnectRequested s = true -> mayDisconnect st s = true;
  co_role : forall b, roleIn st = Some b -> roleCreated s = b;
  co_iface : configured st = true -> ifaceOk (interface s);
  co_scan : match st with scanningBegin | scanningTune | scanningDwell => scanReady s | _ => True end;
  co_resume : isScanning st = true -> scanResume s = idle \/ scanResume s = associated \/ scanResume s = authorized
}.
Record Base (s : Controller) (g : Seen) : Prop := {
  ba_channels : length (channels s) = 64%nat;
  ba_serial : in_u64 (serial s);
  ba_now : in_u64 (lastNow s);
  ba_deadline : in_u64 (deadline s);
  ba_scanDeadline : in_u64 (scanDeadline s);
  ba_last : upTo (last g) (mkToken (epoch (ctlEpoch s)) (serial s))
}.
Record Inv (s : Controller) (g : Seen) : Prop := {
  in_base : Base s g;
  in_core : Core (state s) s (mode g);
  in_pending : pendingOk s
}.

(** The arguments have their C++ types, and pointers cover their lengths. *)
Definition apiOk (a : api) : Prop :=
  match a with
  | Restart _ now | CancelScan _ now | Connect _ now | Authenticated _ _ _ now | AssociationReceived _ _ now
  | AssociationRejected _ _ _ now | AuthorizePort _ now | RevokePort _ now | Disconnect now | Stop now
  | Tick now | ActionComplete _ _ _ now => in_u64 now
  | Start c now => in_u64 now /\ 0 <= macid c /\ 0 <= wmm c /\ 0 <= port c
  | Scan l now => in_u64 now
  | FirmwareEvent_ e _ now => in_u64 now /\ eventOk e
  end /\
  match a with AssociationReceived _ a _ => 0 <= aid a | _ => True end.

(** The calls that may open the port: [authorizePort] for the current
    association, and the end of a scan that interrupted an authorized link. *)
Definition mayOpen (s : Controller) (a : api) : bool :=
  match a with
  | AuthorizePort t _ => bool_decide (state s = associated) && same t (associationToken s)
  | ActionComplete t scanEnd true _ =>
      bool_decide (state s = scanningEnd) && bool_decide (scanResume s = authorized) &&
      negb (disconnectRequested s) && same t (pendingToken s)
  | _ => false
  end.

Ltac bstep :=
  lazymatch goal with
  | |- wpm ?P (bcall ?o) ?s ?g ?Q => refine (wpm_call P o s g Q _ _)
  | |- wpm _ (update _) _ _ _ => apply wpm_modify
  | |- wpm _ (check _) _ _ _ => apply wpm_ret
  | |- wpm _ isFaulted _ _ _ => apply wpm_gets
  | _ => wstep
  end; cbn beta iota.

Section rules.
Variable allow : bool.
Abbreviation P := (policy allow).

(** Any continuation that accepts what [fail] leaves. *)
Definition failed (Q : option bool -> Controller -> Seen -> Prop) : Prop :=
  forall s' g', Inv s' g' -> state s' = faulted -> Q (Some false) s' g'.

Lemma fail_wp e s g Q : Base s g -> (state s = faulted -> Inv s g) -> failed Q -> wpm P (fail e) s g Q.
Proof.
  intros Hb Hf HQ. unfold fail. do 2 bstep. destruct (bool_decide_reflect (state s = faulted)) as [E|E].
  - bstep. apply HQ; auto.
  - do 4 bstep; [exact I|]. intros x _. do 2 bstep; [exact I|]. intros x1 _. bstep. destruct Hb.
    apply HQ; [|reflexivity]. split; [split; auto| |split; reflexivity].
    split; try discriminate; [left; reflexivity|reflexivity|exact I].
Qed.

Lemma traffic_wp t s g Q : Base s g -> state s <> faulted -> (t = tauthorized -> allow = true) ->
  failed Q -> Q (Some true) s (mkSeen t (last g)) -> wpm P (traffic t) s g Q.
Proof.
  intros Hb Hf Ht HF HQ. unfold traffic. do 2 bstep; [destruct t; try exact I; apply Ht; reflexivity|].
  intros [|] _; [exact HQ|]. apply fail_wp; [destruct Hb; split; auto|intros E; contradiction|exact HF].
Qed.

(** Updates of members the facts do not mention. *)
Definition sameCore (s s' : Controller) : Prop :=
  authenticated_ s' = authenticated_ s /\ assoc s' = assoc s /\ peer s' = peer s /\
  disconnectRequested s' = disconnectRequested s /\ roleCreated s' = roleCreated s /\
  interface s' = interface s /\ channels s' = channels s /\ channelIndex s' = channelIndex s /\
  channelCount s' = channelCount s /\ scanResume s' = scanResume s.
Definition sameTimes (s s' : Controller) : Prop :=
  lastNow s' = lastNow s /\ deadline s' = deadline s /\ scanDeadline s' = scanDeadline s.
Ltac same_fields := unfold sameCore, sameTimes; repeat apply conj; reflexivity.

Lemma Core_same st s s' m : sameCore s s' -> Core st s m -> Core st s' m.
Proof.
  intros (E1 & E2 & E3 & E4 & E5 & E6 & E7 & E8 & E9 & E10) [H1 H2 H3 H4 H5 H6 H7].
  split; unfold modeFor, needsBond, mayDisconnect, bonded, scanReady in *; rewrite ?E1, ?E2, ?E3, ?E4, ?E5, ?E6, ?E7, ?E8, ?E9, ?E10; assumption.
Qed.
Lemma Base_same s s' g t : sameTimes s s' -> channels s' = channels s -> ctlEpoch s' = ctlEpoch s ->
  in_u64 (serial s') -> serial s <= serial s' -> t = last g \/ t = mkToken (epoch (ctlEpoch s)) (serial s') ->
  Base s g -> Base s' (mkSeen (mode g) t).
Proof.
  intros (E1 & E2 & E3) E4 E5 H1 H2 Ht []. split; rewrite ?E1, ?E2, ?E3, ?E4, ?E5; try assumption.
  destruct Ht as [-> | ->]; unfold upTo in *; simpl in *; lia.
Qed.
Lemma Base_ext s s' g : sameTimes s s' -> channels s' = channels s -> ctlEpoch s' = ctlEpoch s ->
  serial s' = serial s -> Base s g -> Base s' g.
Proof.
  intros H1 H2 H3 H4 Hb. destruct g as [m l]. apply (Base_same s s' (mkSeen m l) l H1 H2 H3); auto; rewrite H4; [apply (ba_serial _ _ Hb)|lia].
Qed.
Definition sameBase (s s' : Controller) : Prop :=
  sameTimes s s' /\ channels s' = channels s /\ ctlEpoch s' = ctlEpoch s /\ serial s' = serial s.
Definition samePending (s s' : Controller) : Prop :=
  state s' = state s /\ waitingAction s' = waitingAction s /\ waitingCommand s' = waitingCommand s /\
  pendingAction s' = pendingAction s.
Ltac same_all := unfold sameBase, samePending, sameCore, sameTimes; repeat apply conj; reflexivity.

Lemma Inv_same s s' g : sameBase s s' -> sameCore s s' -> samePending s s' -> Inv s g -> Inv s' g.
Proof.
  intros (H1 & H2 & H3 & H4) Hc (E1 & E2 & E3 & E4) [Hb Hco Hp]. split.
  - apply (Base_ext s); assumption.
  - rewrite E1. apply (Core_same _ s); assumption.
  - unfold pendingOk. rewrite E1, E2, E3, E4. exact Hp.
Qed.
Lemma Inv_pendingToken s g t : Inv s g -> Inv (s <| pendingToken := t |>) g.
Proof. apply Inv_same; same_all. Qed.
Lemma Inv_scanToken s g t : Inv s g -> Inv (s <| scanToken := t |>) g.
Proof. apply Inv_same; same_all. Qed.
Lemma Inv_associationToken s g t : Inv s g -> Inv (s <| associationToken := t |>) g.
Proof. apply Inv_same; same_all. Qed.
Lemma Base_now s g n : in_u64 n -> Base s g -> Base (s <| lastNow := n |> <| clockStarted := true |>) g.
Proof. intros Hn []. split; assumption. Qed.
Lemma Base_deadline s g d : in_u64 d -> Base s g -> Base (s <| deadline := d |>) g.
Proof. intros Hn []. split; assumption. Qed.
Lemma Inv_deadline s g d : in_u64 d -> Inv s g -> Inv (s <| deadline := d |>) g.
Proof.
  intros Hd [Hb Hc Hp]. split; [apply Base_deadline; assumption|apply (Core_same _ s); [same_all|exact Hc]|exact Hp].
Qed.
Lemma Inv_now s g n : in_u64 n -> Inv s g -> Inv (s <| lastNow := n |> <| clockStarted := true |>) g.
Proof.
  intros Hd [Hb Hc Hp]. split; [apply Base_now; assumption|apply (Core_same _ s); [same_all|exact Hc]|exact Hp].
Qed.

Lemma time_wp now s g Q : Inv s g -> in_u64 now ->
  (forall s' g', Inv s' g' -> Q (Some false) s' g') ->
  (state s <> faulted -> Q (Some true) (s <| lastNow := now |> <| clockStarted := true |>) g) ->
  wpm P (time now) s g Q.
Proof.
  intros H Hn HF HQ. unfold time. do 2 bstep; [exact I|]. intros gate _. do 2 bstep.
  destruct (negb gate || _) eqn:E; [bstep; auto|]. apply orb_false_iff in E as [_ E]. apply bool_decide_eq_false in E.
  destruct (_ && _); [apply fail_wp; [apply H|contradiction|intros s' g' Hi _; auto]|].
  do 3 bstep. auto.
Qed.

Lemma arm_wp d s g Q : Base s g -> 0 <= d -> state s <> faulted -> failed Q ->
  (in_u64 (lastNow s + d) -> Q (Some true) (s <| deadline := lastNow s + d |>) g) -> wpm P (arm d) s g Q.
Proof.
  intros Hb Hd Hf HF HQ. unfold arm. do 2 bstep. destruct (Z.ltb_spec (U64MAX - lastNow s) d).
  - apply fail_wp; [exact Hb|contradiction|exact HF].
  - do 3 bstep. apply HQ. pose proof (ba_now s g Hb). unfold U64MAX in *. zlia.
Qed.

Definition nextToken (s : Controller) : Token := mkToken (epoch (ctlEpoch s)) (serial s + 1).

Lemma token_wp s g (Q : option Token -> Controller -> Seen -> Prop) : Base s g -> state s <> faulted ->
  (forall s' g', Inv s' g' -> state s' = faulted -> Q (Some noToken) s' g') ->
  (in_u64 (serial s + 1) -> Q (Some (nextToken s)) (s <| serial := serial s + 1 |>) g) ->
  wpm P token s g Q.
Proof.
  intros Hb Hf HF HQ. unfold token. do 2 bstep. destruct (Z.eqb_spec (serial s) U64MAX).
  - bstep. apply fail_wp; [exact Hb|contradiction|]. intros s' g' Hi Hs. bstep. apply HF; assumption.
  - do 3 bstep. apply HQ. pose proof (ba_serial s g Hb). unfold U64MAX in *. zlia.
Qed.

Lemma currentChannel_wp s g (Q : option ScanChannel -> Controller -> Seen -> Prop) : scanReady s ->
  (forall c, c = nth (Z.to_nat (channelIndex s)) (channels s) noScanChannel -> scanChannelOk c = true -> Q (Some c) s g) ->
  wpm P currentChannel s g Q.
Proof.
  intros (Hi & Hc & Hok) HQ. unfold currentChannel. do 2 bstep.
  replace ((0 <=? channelIndex s) && (channelIndex s <? 64)) with true by lia. bstep. apply HQ; auto.
Qed.

Lemma upTo_before s g : Base s g -> before (last g) (nextToken s).
Proof. intros H. pose proof (ba_last s g H) as L. unfold upTo, before, nextToken in *. simpl in *. lia. Qed.

Lemma scanChannelOk_valid c : scanChannelOk c = true -> validChannel (schannel c) = true /\ width (schannel c) = 0 /\ 10 <= dwellMs c <= 1000.
Proof. unfold scanChannelOk. rewrite !andb_true_iff. intros [[[H1 H2] H3] H4]. split; [exact H1|lia]. Qed.

(** Posting an action: either nothing may be pending and the new state's facts
    hold, or something is pending and the controller gives up. *)
Lemma action_wp k st tgt s g Q : Base s g -> state s <> faulted -> pendingOf st = Some (Some k) ->
  (waitingAction s || waitingCommand s = false ->
     Core st s (mode g) /\ (mode g = none \/ mode g = management) /\
     (k = scanTune -> validChannel tgt = true /\ width tgt = 0 /\ scanReady s)) ->
  (forall b s' g', Inv s' g' -> (b = true -> state s' = st /\ waitingAction s = false /\ waitingCommand s = false) -> Q (Some b) s' g') ->
  wpm P (action k st tgt) s g Q.
Proof.
  intros Hb Hf Hk Hc HQ.
  assert (HF : failed Q) by (intros s' g' Hi _; apply HQ; [exact Hi|discriminate]).
  unfold action. do 2 bstep. destruct (waitingAction s || waitingCommand s) eqn:Hw; [apply fail_wp; [exact Hb|contradiction|exact HF]|].
  destruct (Hc eq_refl) as (Hcore & Hmode & Htune). apply orb_false_iff in Hw as [Hwa Hwc]. clear Hc.
  pose proof (upTo_before s g Hb) as Hbef. bstep.
  apply token_wp; [exact Hb|exact Hf| |].
  { intros s' g' Hi Hs. do 4 bstep. rewrite bool_decide_true by exact Hs. bstep. apply HF; [apply Inv_pendingToken; exact Hi|exact Hs]. }
  intros Hser. do 4 bstep. rewrite bool_decide_false by exact Hf. do 3 bstep.
  set (s1 := _ <| state := st |>).
  assert (Hs1 : lastNow s1 = lastNow s) by reflexivity.
  assert (Hi1 : Inv s1 (mkSeen (mode g) (last g)) /\ Inv s1 (mkSeen (mode g) (nextToken s))).
  { split; (split; [apply (Base_same s); try same_all; try exact Hser; try exact Hb; [unfold s1; simpl; lia|auto]|
      apply (Core_same _ s); [same_all|exact Hcore]|unfold pendingOk; simpl; rewrite Hk; auto]). }
  destruct Hi1 as [Hi1 Hi1']. replace (mkSeen (mode g) (last g)) with g in Hi1 by (destruct g; reflexivity).
  apply arm_wp; [apply Hi1|unfold actionTimeout; lia|intros E; simpl in E; subst st; discriminate|intros s' g' Hi Hs; cbn [negb]; bstep; apply HF; assumption|].
  intros Hd. cbn [negb]. set (s2 := s1 <| deadline := _ |>).
  pose proof (Inv_deadline s1 _ _ Hd Hi1') as Hi3. fold s2 in Hi3.
  assert (Htail : forall act, wpm P (s ← get; bcall (BeginAction (mkRequest k (pendingToken s) (associationToken s)
      (interface s) (peer s) tgt (aid (assoc s)) act)) ||| fail backend) s2 g Q).
  { intros act. do 4 bstep.
    - split; [exact Hbef|]. split; [exact Hmode|]. intros E. destruct (Htune E) as (T1 & T2 & _). auto.
    - intros [|] _; [apply HQ; [exact Hi3|auto]|]. apply fail_wp; [apply Hi3|intros _; exact Hi3|exact HF]. }
  bstep. destruct (bool_decide_reflect (k = scanTune)) as [E|E]; [|bstep; apply Htail].
  destruct (Htune E) as (_ & _ & Hr). bstep. apply currentChannel_wp; [exact Hr|]. intros c _ _. bstep. apply Htail.
Qed.

Lemma encode_ok (role rd : bool) s q : ifaceOk (interface s) ->
  exists bytes, (if role
    then encodeRole (mkRole (macid (interface s)) 0 (if rd then 1 else 0) 1) (u8 q) (Some (zeros 12)) 12
    else encodeJoin (mkJoin (macid (interface s)) (macIndex (interface s)) (wmm (interface s)) (port (interface s))
                       (if rd then 0 else 2) 1 0 rd false) (u8 q) (Some (zeros 12)) 12) = MVal (bytes, 12).
Proof.
  intros (H1 & H2 & H3 & H4). destruct role.
  - destruct (encodeRole_spec (mkRole (macid (interface s)) 0 (if rd then 1 else 0) 1) (u8 q) (zeros 12) 12) as (o & E & _).
    + unfold roleOk. cbn. destruct rd; zlia.
    + apply u8_range.
    + vm_compute. split; discriminate.
    + eauto.
  - destruct (encodeJoin_spec (mkJoin (macid (interface s)) (macIndex (interface s)) (wmm (interface s)) (port (interface s))
                       (if rd then 0 else 2) 1 0 rd false) (u8 q) (zeros 12) 12) as (o & E & _).
    + unfold joinOk. cbn. destruct rd; zlia.
    + apply u8_range.
    + vm_compute. split; discriminate.
    + eauto.
Qed.

Lemma station_command_wp role rd st s g Q : Base s g -> state s <> faulted -> pendingOf st = Some None ->
  waitingAction s = false -> waitingCommand s = false -> ifaceOk (interface s) ->
  Core st s (mode g) -> (mode g = none \/ mode g = management) ->
  (forall b s' g', Inv s' g' -> (b = true -> state s' = st) -> Q (Some b) s' g') ->
  wpm P (command role rd st) s g Q.
Proof.
  intros Hb Hf Hk Hwa Hwc Hif Hcore Hmode HQ.
  assert (HF : failed Q) by (intros s' g' Hi _; apply HQ; [exact Hi|discriminate]).
  pose proof (upTo_before s g Hb) as Hbef.
  unfold command. do 2 bstep. rewrite Hwa, Hwc. cbn [orb]. do 2 bstep; [exact I|]. intros [ok q] _. cbn [fst snd].
  destruct ok; cbn [negb]; [|apply fail_wp; [exact Hb|contradiction|exact HF]].
  destruct (encode_ok role rd s q Hif) as [bytes E]. cbv zeta. rewrite E. clear E. do 3 bstep.
  assert (Hb0 : forall c, Base (s <| pendingCommand := c |>) g) by (intros c; apply (Base_ext s); try same_all; exact Hb).
  apply token_wp; [apply Hb0|exact Hf| |].
  { intros s' g' Hi Hs. do 4 bstep. rewrite bool_decide_true by exact Hs. bstep. apply HF; [apply Inv_pendingToken; exact Hi|exact Hs]. }
  intros Hser. do 4 bstep. rewrite bool_decide_false by exact Hf. do 3 bstep.
  set (s1 := _ <| state := st |>).
  assert (Hs1 : lastNow s1 = lastNow s) by reflexivity.
  assert (Hi1 : Inv s1 (mkSeen (mode g) (last g)) /\ Inv s1 (mkSeen (mode g) (nextToken s))).
  { split; (split; [apply (Base_same s); try same_all; try exact Hser; try exact Hb; [unfold s1; simpl; lia|auto]|
      apply (Core_same _ s); [same_all|exact Hcore]|unfold pendingOk; simpl; rewrite Hk; auto]). }
  destruct Hi1 as [Hi1 Hi1']. replace (mkSeen (mode g) (last g)) with g in Hi1 by (destruct g; reflexivity).
  apply arm_wp; [apply Hi1|unfold commandTimeout; lia|intros E; simpl in E; subst st; discriminate|intros s' g' Hi Hs; cbn [negb]; bstep; apply HF; assumption|].
  intros Hd. cbn [negb]. set (s2 := s1 <| deadline := _ |>).
  pose proof (Inv_deadline s1 _ _ Hd Hi1') as Hi2. fold s2 in Hi2.
  do 4 bstep; [split; [reflexivity|split; [exact Hbef|exact Hmode]]|].
  intros [|] _; [apply HQ; [exact Hi2|reflexivity]|]. apply fail_wp; [apply Hi2|intros _; exact Hi2|exact HF].
Qed.

(** Facts of a state carried over to another state, the mode now being [none]. *)
Lemma Core_change st st' s m m' : Core st s m -> modeFor st' s m' ->
  (needsBond st' s = true -> bonded s) ->
  (disconnectRequested s = true -> mayDisconnect st' s = true) ->
  (forall b, roleIn st' = Some b -> roleCreated s = b) ->
  ifaceOk (interface s) ->
  match st' with scanningBegin | scanningTune | scanningDwell => scanReady s | _ => True end ->
  (isScanning st' = true -> scanResume s = idle \/ scanResume s = associated \/ scanResume s = authorized) ->
  Core st' s m'.
Proof. intros H1. intros. split; auto. Qed.

(** Posting, after the traffic was stopped. *)
Definition posted (st : State) (Q : option bool -> Controller -> Seen -> Prop) : Prop :=
  forall b s' g', Inv s' g' -> (b = true -> state s' = st) -> Q (Some b) s' g'.

Lemma posted_failed st Q : posted st Q -> failed Q.
Proof. intros H s' g' Hi _. apply H; [exact Hi|discriminate]. Qed.

Lemma Base_mode s g m : Base s g -> Base s (mkSeen m (last g)).
Proof. intros []. split; assumption. Qed.

Lemma beginDisconnect_wp s g Q : Base s g -> state s <> faulted -> roleCreated s = true -> ifaceOk (interface s) ->
  posted disconnectingCmac Q -> wpm P beginDisconnect s g Q.
Proof.
  intros Hb Hf Hr Hi HQ. pose proof (posted_failed _ _ HQ) as HF. unfold beginDisconnect.
  pose proof (Base_mode s g none Hb) as Hb'. bstep.
  apply traffic_wp; [exact Hb|exact Hf|discriminate|exact HF|]. do 5 bstep; [exact I|]. intros x _.
  assert (Hact : wpm P (action disconnectCmac disconnectingCmac noChannel) s (mkSeen none (last g)) Q).
  { apply action_wp; [exact Hb'|exact Hf|reflexivity| |].
    - intros _. split; [|split; [left; reflexivity|discriminate]].
      split; try discriminate; [left; reflexivity|intros _; reflexivity|intros b [= <-]; exact Hr|intros _; exact Hi|exact I].
    - intros b s' g' Hi' E. apply HQ; [exact Hi'|]. intros ->. apply E. reflexivity. }
  destruct x; [exact Hact|].
  apply fail_wp; [exact Hb'|contradiction|]. intros s' g' Hi' Hs. apply HF; assumption.
Qed.

Lemma restoreScan_wp s g Q : Base s g -> state s <> faulted -> Core scanningRestore s none ->
  waitingAction s || waitingCommand s = false -> posted scanningRestore Q -> wpm P restoreScan s g Q.
Proof.
  intros Hb Hf Hc Hw HQ. pose proof (posted_failed _ _ HQ) as HF. unfold restoreScan. bstep.
  apply traffic_wp; [exact Hb|exact Hf|discriminate|exact HF|]. do 2 bstep.
  apply action_wp; [apply Base_mode; exact Hb|exact Hf|reflexivity| |].
  - intros _. split; [exact Hc|]. split; [left; reflexivity|discriminate].
  - intros b s' g' Hi' E. apply HQ; [exact Hi'|]. intros ->. apply E. reflexivity.
Qed.

Lemma tuneScan_wp s g Q : Base s g -> state s <> faulted -> Core scanningTune s none ->
  waitingAction s || waitingCommand s = false -> posted scanningTune Q -> wpm P tuneScan s g Q.
Proof.
  intros Hb Hf Hc Hw HQ. pose proof (posted_failed _ _ HQ) as HF. unfold tuneScan. bstep.
  apply traffic_wp; [exact Hb|exact Hf|discriminate|exact HF|]. bstep.
  pose proof (co_scan _ _ _ Hc) as Hr. apply currentChannel_wp; [exact Hr|].
  intros c Ec Hok. apply scanChannelOk_valid in Hok as (V1 & V2 & _).
  apply action_wp; [apply Base_mode; exact Hb|exact Hf|reflexivity| |].
  - intros _. split; [exact Hc|]. split; [left; reflexivity|auto].
  - intros b s' g' Hi' E. apply HQ; [exact Hi'|]. intros ->. apply E. reflexivity.
Qed.

Lemma authenticating_facts s g : Inv s g -> state s = authenticating -> roleCreated s = true /\ ifaceOk (interface s).
Proof.
  intros [_ C' _] E. rewrite E in C'. split; [apply (co_role _ _ _ C' true eq_refl)|apply (co_iface _ _ _ C' eq_refl)].
Qed.

(** [expire] answers true and changes nothing, or has begun to disconnect. *)
Lemma expire_wp s g Q : Inv s g -> state s <> faulted ->
  (forall s' g', Inv s' g' -> Q (Some false) s' g') -> Q (Some true) s g ->
  (forall s' g', Inv s' g' -> state s = authenticating -> state s' = disconnectingCmac -> Q (Some true) s' g') ->
  wpm P expire s g Q.
Proof.
  intros Hi Hf HF HQ HD. assert (HF' : failed Q) by (intros s' g' H _; auto).
  assert (Hfail : wpm P (fail timeout) s g Q) by (apply fail_wp; [apply Hi|contradiction|exact HF']).
  unfold expire. do 2 bstep. destruct (scanning s && _); [exact Hfail|].
  destruct (waitingAction s || waitingCommand s) eqn:Hw; [destruct (deadline s <=? lastNow s); [exact Hfail|bstep; exact HQ]|].
  destruct (bool_decide_reflect (state s = authenticating)) as [E|E]; cbn [andb]; [|bstep; exact HQ].
  destruct (deadline s <=? lastNow s); [|bstep; exact HQ]. do 2 bstep.
  destruct (authenticating_facts s g Hi E) as [Hr Hif].
  apply beginDisconnect_wp; [apply (Base_ext s); try same_all; apply Hi|exact Hf|exact Hr|exact Hif|].
  intros [|] s' g' Hi' Es; [apply HD; auto|apply HF; exact Hi'].
Qed.

(** ** Every method preserves the invariant *)

Definition keeps (_ : option bool) (s : Controller) (g : Seen) : Prop := Inv s g.

Lemma keeps_failed : failed keeps. Proof. intros s g Hi _. exact Hi. Qed.
Lemma keeps_posted st : posted st keeps. Proof. intros b s g Hi _. exact Hi. Qed.
Hint Resolve keeps_failed keeps_posted : core.

(** The guards every method starts with. *)
Lemma time_keeps now (m : C bool) s g : Inv s g -> in_u64 now ->
  (forall s1, Inv s1 g -> state s1 <> faulted -> sameCore s s1 -> state s1 = state s -> ctlEpoch s1 = ctlEpoch s ->
     associationToken s1 = associationToken s -> pendingToken s1 = pendingToken s ->
     waitingAction s1 = waitingAction s -> waitingCommand s1 = waitingCommand s -> lastNow s1 = now ->
     wpm P m s1 g keeps) ->
  wpm P (time now &&> m) s g keeps.
Proof.
  intros Hi Hn Hm. bstep. apply time_wp; [exact Hi|exact Hn|auto|]. intros Hf.
  apply Hm; try reflexivity; [apply Inv_now; assumption|exact Hf|same_all].
Qed.

Lemma check_keeps (f : Controller -> bool) (m : C bool) s g : Inv s g ->
  (f s = true -> wpm P m s g keeps) -> wpm P ((s ← get; check (f s)) &&> m) s g keeps.
Proof.
  intros Hi Hm. do 4 bstep. destruct (f s) eqn:E; [apply Hm; reflexivity|exact Hi].
Qed.

Lemma expire_keeps (m : C bool) s g : Inv s g -> state s <> faulted ->
  wpm P m s g keeps ->
  (forall s1 g1, Inv s1 g1 -> state s = authenticating -> state s1 = disconnectingCmac -> wpm P m s1 g1 keeps) ->
  wpm P (expire &&> m) s g keeps.
Proof. intros Hi Hf H1 H2. bstep. apply expire_wp; auto. Qed.

Lemma state_role s g : Inv s g -> roleIn (state s) = Some true -> roleCreated s = true.
Proof. intros [_ C' _] E. apply (co_role _ _ _ C'). exact E. Qed.
Lemma state_iface s g : Inv s g -> configured (state s) = true -> ifaceOk (interface s).
Proof. intros [_ C' _] E. apply (co_iface _ _ _ C'). exact E. Qed.

(** Nothing is pending in a resting state. *)
Lemma resting s g : Inv s g -> pendingOf (state s) = None -> waitingAction s = false /\ waitingCommand s = false.
Proof. intros [_ _ Hp] E. unfold pendingOk in Hp. rewrite E in Hp. exact Hp. Qed.
Lemma resting_or s g : Inv s g -> pendingOf (state s) = None -> waitingAction s || waitingCommand s = false.
Proof. intros Hi E. destruct (resting s g Hi E) as [-> ->]. reflexivity. Qed.

Lemma station_check_wp b s g (Q : option bool -> Controller -> Seen -> Prop) : Q (Some b) s g -> wpm P (check b) s g Q.
Proof. auto. Qed.

Ltac splitb H :=
  repeat match type of H with _ && _ = true =>
    let H2 := fresh "H" in apply andb_true_iff in H as [H H2] end;
  repeat match goal with K : bool_decide _ = true |- _ => apply bool_decide_eq_true in K end.

Ltac begin_api s Hi :=
  apply time_keeps; [eassumption|assumption|];
  let s1 := fresh "s" in let Hi1 := fresh "Hi" in let Hf := fresh "Hf" in
  intros s1 Hi1 Hf _ _ _ _ _ _ _ _; clear dependent s; rename s1 into s, Hi1 into Hi;
  try (apply check_keeps; [exact Hi|]; let E := fresh "E" in intros E; splitb E).

Lemma restart_keeps e now s g : Inv s g -> in_u64 now -> wpm P (restart e now) s g keeps.
Proof.
  intros Hi Hn. unfold restart. do 2 bstep; [exact I|]. intros [|] _; [|exact Hi]. do 4 bstep.
  destruct (negb (e =? 0) && (epoch (ctlEpoch s) <? e)) eqn:E; [|exact Hi].
  do 2 bstep; [exact I|]. intros [|] _; [|exact Hi]. do 2 bstep; [exact I|]. intros ok _.
  destruct Hi as [Hb Hc Hp]. destruct ok.
  - do 3 bstep. split.
    + pose proof (ba_last _ _ Hb) as L. destruct Hb. split; try assumption; try (cbn; zlia).
      unfold upTo in *. simpl. simpl in L. lia.
    + split; try discriminate; [left; reflexivity|intros b [= <-]; reflexivity|exact I].
    + split; reflexivity.
  - split; [apply Base_mode; exact Hb|destruct Hc; split; try assumption; left; reflexivity|exact Hp].
Qed.

Lemma start_keeps c now s g : Inv s g -> apiOk (Start c now) -> wpm P (start c now) s g keeps.
Proof.
  intros Hi [(Hn & Hm & Hw & Hp) _]. unfold start.
  begin_api s Hi. do 2 bstep. set (s1 := s <| interface := c |> <| error := noError |>).
  assert (Hb : Base s1 g) by (apply (Base_ext s); try same_all; apply Hi).
  bstep. apply traffic_wp; [exact Hb|exact Hf|discriminate|auto|].
  apply action_wp; [apply Base_mode; exact Hb|exact Hf|reflexivity| |intros b s' g' H' _; exact H'].
  intros _. split; [|split; [left; reflexivity|discriminate]]. destruct Hi as [_ C' _]. rewrite E in C'.
  split; try discriminate; [left; reflexivity| | |intros _; unfold ifaceOk; cbn; lia|exact I].
  - intros D. pose proof (co_disc _ _ _ C' D). discriminate.
  - intros b [= <-]. apply (co_role _ _ _ C' false eq_refl).
Qed.

Lemma dwellBudget_range l : forallb scanChannelOk l = true -> 0 <= dwellBudget l <= zlen l * 1000000.
Proof.
  induction l as [|c l IH]; [unfold zlen; simpl; lia|]. intros H. apply andb_true_iff in H as [Hc Hl].
  apply scanChannelOk_valid in Hc as (_ & _ & Hd). specialize (IH Hl).
  change (dwellBudget (c :: l)) with (dwellMs c * 1000 + dwellBudget l).
  change (c :: l) with ([c] ++ l). rewrite zlen_app. change (zlen [c]) with 1. lia.
Qed.

Lemma bond_authorized s m : Core authorized s m -> bonded s.
Proof. intros C'. apply (co_bond _ _ _ C' eq_refl). Qed.

Lemma scan_keeps l now s g : Inv s g -> in_u64 now -> wpm P (scan l now) s g keeps.
Proof.
  intros Hi Hn. unfold scan. begin_api s Hi. destruct l as [l|]; [|exact Hi].
  bstep. apply station_check_wp. destruct (negb (zlen l =? 0) && (zlen l <=? 64)) eqn:El; [|exact Hi].
  bstep. apply station_check_wp. destruct (forallb scanChannelOk l) eqn:Eall; [|exact Hi].
  cbv zeta. pose proof (dwellBudget_range l Eall) as Hd. set (budget := dwellBudget l + _).
  assert (Hbud : 0 <= budget) by (unfold budget, actionTimeout; lia).
  destruct (Z.ltb_spec (U64MAX - now) budget); [apply fail_wp; [apply Hi|contradiction|auto]|].
  do 3 bstep. set (s1 := s <| channels := _ |> <| channelCount := _ |> <| channelIndex := _ |> <| scanResume := _ |> <| scanCancelled := _ |>).
  destruct Hi as [Hb Hc Hp]. pose proof (ba_channels _ _ Hb) as Hch.
  assert (Hlen : length (channels s1) = 64%nat).
  { unfold s1. simpl. rewrite length_app, length_drop, Hch. unfold zlen in El. lia. }
  assert (Hb1 : Base s1 g) by (destruct Hb; split; assumption).
  assert (Hst : state s = idle \/ state s = authorized).
  { apply orb_true_iff in E. destruct E as [E|E]; apply bool_decide_eq_true in E; auto. }
  assert (Hc1 : Core scanningBegin s1 none).
  { split; try discriminate.
    - left; reflexivity.
    - intros Hnb. change (scanResume s1) with (state s) in *. simpl in Hnb. apply bool_decide_eq_true in Hnb.
      destruct Hst as [Hst|Hst]; [contradiction|]. rewrite Hst in Hc. exact (bond_authorized _ _ Hc).
    - intros D. pose proof (co_disc _ _ _ Hc D) as Hm. destruct Hst as [Hst|Hst]; rewrite Hst in Hm; discriminate.
    - intros b [= <-]. apply (co_role _ _ _ Hc true). destruct Hst as [-> | ->]; reflexivity.
    - intros _. apply (co_iface _ _ _ Hc). destruct Hst as [-> | ->]; reflexivity.
    - unfold scanReady, s1. simpl. split; [lia|]. split; [lia|]. intros i Hl. rewrite app_nth1 by (unfold zlen in *; lia).
      rewrite forallb_forall in Eall. apply Eall, nth_In. unfold zlen in *. lia.
    - intros _. change (scanResume s1) with (state s). tauto. }
  assert (Hf1 : state s1 <> faulted) by exact Hf.
  apply token_wp; [exact Hb1|exact Hf1| |].
  { intros s' g' Hi' Hs. do 4 bstep. rewrite bool_decide_true by exact Hs. bstep. apply Inv_scanToken. exact Hi'. }
  intros Hser. do 4 bstep. rewrite bool_decide_false by exact Hf. do 2 bstep.
  match goal with |- wpm _ _ ?x _ _ => set (s2 := x) end.
  assert (Hb2 : Base s2 g).
  { pose proof (ba_last _ _ Hb1) as L. destruct Hb1. split; try assumption.
    - change (in_u64 (now + budget)). unfold U64MAX in *. zlia.
    - unfold upTo in *. simpl in *. lia. }
  bstep. apply traffic_wp; [exact Hb2|exact Hf|discriminate|auto|].
  apply action_wp; [apply Base_mode; exact Hb2|exact Hf|reflexivity| |intros b s' g' H' _; exact H'].
  intros _. split; [|split; [left; reflexivity|discriminate]]. apply (Core_same _ s1); [same_all|exact Hc1].
Qed.

Lemma restore_core s m : Core (state s) s m -> isScanning (state s) = true -> Core scanningRestore s none.
Proof.
  intros [H1 H2 H3 H4 H5 H6 H7] E. split.
  - left; reflexivity.
  - intros N. apply H2. destruct (state s); try discriminate; exact N.
  - intros D. specialize (H3 D). destruct (state s); try discriminate; exact H3.
  - intros b Hb. apply H4. destruct (state s); try discriminate; exact Hb.
  - intros _. apply H5. destruct (state s); try discriminate; reflexivity.
  - exact I.
  - intros _. apply H7. exact E.
Qed.

Lemma scanning_state s : scanning s = isScanning (state s).
Proof. unfold scanning. destruct (state s); reflexivity. Qed.

Lemma cancelScan_keeps t now s g : Inv s g -> in_u64 now -> wpm P (cancelScan t now) s g keeps.
Proof.
  intros Hi Hn. unfold cancelScan. begin_api s Hi. rewrite scanning_state in E.
  apply expire_keeps; [exact Hi|exact Hf| |].
  2:{ intros s1 g1 _ Ea. rewrite Ea in E. discriminate. }
  do 4 bstep. set (s1 := s <| scanCancelled := true |>).
  assert (Hi1 : Inv s1 g) by (apply (Inv_same s); try same_all; exact Hi).
  destruct (bool_decide_reflect (state s1 = scanningDwell)) as [Ed|Ed]; [|exact Hi1].
  apply restoreScan_wp; [apply Hi1|exact Hf| |apply (resting_or s1 g Hi1); rewrite Ed; reflexivity|auto].
  apply (restore_core s1 (mode g)); [apply Hi1|]. rewrite Ed. reflexivity.
Qed.

Lemma connect_keeps p now s g : Inv s g -> in_u64 now -> wpm P (connect p now) s g keeps.
Proof.
  intros Hi Hn. unfold connect. begin_api s Hi.
  do 2 bstep. set (s1 := s <| peer := p |> <| assoc := _ |> <| authenticated_ := _ |> <| error := _ |>).
  destruct Hi as [Hb Hc Hp]. rewrite E in Hc.
  assert (Hb1 : Base s1 g) by (apply (Base_ext s); try same_all; exact Hb).
  assert (Hc1 : Core preparingAuthentication s1 none).
  { split; try discriminate; [left; reflexivity|reflexivity| | |exact I].
    - intros b [= <-]. apply (co_role _ _ _ Hc true eq_refl).
    - intros _. apply (co_iface _ _ _ Hc eq_refl). }
  bstep. apply token_wp; [exact Hb1|exact Hf| |].
  { intros s' g' Hi' Hs. do 4 bstep. rewrite bool_decide_true by exact Hs. bstep. apply Inv_associationToken. exact Hi'. }
  intros Hser. do 4 bstep. rewrite bool_decide_false by exact Hf.
  set (s2 := s1 <| serial := _ |> <| associationToken := _ |>).
  assert (Hb2 : Base s2 g).
  { pose proof (ba_last _ _ Hb1) as L. destruct Hb1. split; try assumption. unfold upTo in *. simpl in *. lia. }
  bstep. apply traffic_wp; [exact Hb2|exact Hf|discriminate|auto|].
  apply action_wp; [apply Base_mode; exact Hb2|exact Hf|reflexivity| |intros b s' g' H' _; exact H'].
  intros _. split; [|split; [left; reflexivity|discriminate]]. apply (Core_same _ s1); [same_all|exact Hc1].
Qed.

Lemma role_live s : roleIn (state s) = Some true -> state s <> faulted /\ configured (state s) = true.
Proof. destruct (state s); try discriminate; (split; [discriminate|reflexivity]). Qed.

(** Facts of a state that is left for a disconnection. *)
Lemma leave_keeps f s g : sameBase s (f s) -> roleCreated (f s) = roleCreated s -> interface (f s) = interface s ->
  state (f s) = state s -> Inv s g -> roleIn (state s) = Some true -> wpm P beginDisconnect (f s) g keeps.
Proof.
  intros (B1 & B2 & B3 & B4) Hr Hif Hst Hi Hrole. destruct (role_live s Hrole) as [Hf Hc].
  apply beginDisconnect_wp; [apply (Base_ext s); try assumption; apply Hi|congruence| | |auto].
  - rewrite Hr. exact (state_role s g Hi Hrole).
  - rewrite Hif. exact (state_iface s g Hi Hc).
Qed.

Lemma giveUp_keeps e s g : Inv s g -> roleIn (state s) = Some true -> wpm P (giveUp e) s g keeps.
Proof.
  intros Hi Hr. unfold giveUp. do 2 bstep.
  apply (leave_keeps (fun s => s <| error := e |> <| disconnectRequested := true |>)); try reflexivity; [same_all|exact Hi|exact Hr].
Qed.

(** A resting state whose traffic was just set. *)
Lemma settle st s g : Base s g -> state s = st -> pendingOf st = None ->
  waitingAction s = false -> waitingCommand s = false -> (forall m, modeFor st s m -> Core st s m) ->
  forall t, modeFor st s t -> Inv s (mkSeen t (last g)).
Proof.
  intros Hb <- Hp Ha Hc Hcore t Hm. split; [apply Base_mode; exact Hb|apply Hcore; exact Hm|].
  unfold pendingOk. rewrite Hp. auto.
Qed.

Lemma authenticated_keeps t from ok now s g : Inv s g -> in_u64 now -> wpm P (authenticated t from ok now) s g keeps.
Proof.
  intros Hi Hn. unfold authenticated. begin_api s Hi.
  assert (Hm : forall s1 g1, Inv s1 g1 -> roleIn (state s1) = Some true ->
    (state s1 = authenticating \/ state s1 = disconnectingCmac) ->
    wpm P (if negb ok then giveUp authentication else update (fun s => s <| authenticated_ := true |>);; mret true) s1 g1 keeps).
  { intros s1 g1 Hi1 Hr Hs. destruct ok; cbn [negb]; [|apply giveUp_keeps; assumption].
    do 3 bstep. unfold keeps. destruct Hi1 as [Hb Hc Hp]. split; [apply (Base_ext s1); try same_all; exact Hb| |exact Hp].
    change (state (s1 <| authenticated_ := true |>)) with (state s1).
    destruct Hc as [C1 C2 C3 C4 C5 C6 C7]. split; try assumption. destruct Hs as [-> | ->]; discriminate. }
  apply expire_keeps; [exact Hi|exact Hf|apply Hm; [exact Hi|rewrite E; reflexivity|auto]|].
  intros s1 g1 Hi1 _ E1. apply Hm; [exact Hi1|rewrite E1; reflexivity|auto].
Qed.

Lemma waiting_disconnect s g : Inv s g -> state s = disconnectingCmac -> waitingAction s = true.
Proof. intros [_ _ Hp] E. unfold pendingOk in Hp. rewrite E in Hp. apply Hp. Qed.

Lemma associationReceived_keeps t a now s g : Inv s g -> in_u64 now -> 0 <= aid a ->
  wpm P (associationReceived t a now) s g keeps.
Proof.
  intros Hi Hn Ha. unfold associationReceived. begin_api s Hi. unfold sameAddress in *.
  repeat match goal with K : bool_decide _ = true |- _ => apply bool_decide_eq_true in K end.
  apply expire_keeps; [exact Hi|exact Hf| |].
  - do 2 bstep. set (s1 := s <| assoc := a |>). destruct Hi as [Hb Hc Hp]. rewrite E in Hc.
    assert (Hd : disconnectRequested s = false).
    { destruct (disconnectRequested s) eqn:D; [|reflexivity]. discriminate (co_disc _ _ _ Hc D). }
    assert (Hm : mode g = none \/ mode g = management) by exact (co_mode _ _ _ Hc).
    apply action_wp; [apply (Base_ext s); try same_all; exact Hb|exact Hf|reflexivity| |intros b s' g' H' _; exact H'].
    intros _. split; [|split; [exact Hm|discriminate]].
    split; try discriminate; [destruct Hm; [left; assumption|right; split; assumption]| |reflexivity| | |exact I].
    + intros _. unfold bonded, s1. simpl. repeat split; try assumption; lia.
    + intros b [= <-]. apply (co_role _ _ _ Hc true eq_refl).
    + intros _. apply (co_iface _ _ _ Hc eq_refl).
  - intros s1 g1 Hi1 _ E1. do 2 bstep.
    apply action_wp; [apply (Base_ext s1); try same_all; apply Hi1|simpl; congruence|reflexivity| |intros b s' g' H' _; exact H'].
    change (waitingAction (s1 <| assoc := a |>)) with (waitingAction s1). rewrite (waiting_disconnect s1 g1 Hi1 E1). discriminate.
Qed.

Lemma associationRejected_keeps t from st now s g : Inv s g -> in_u64 now -> wpm P (associationRejected t from st now) s g keeps.
Proof.
  intros Hi Hn. unfold associationRejected. begin_api s Hi.
  apply expire_keeps; [exact Hi|exact Hf|apply giveUp_keeps; [exact Hi|rewrite E; reflexivity]|].
  intros s1 g1 Hi1 _ E1. apply giveUp_keeps; [exact Hi1|rewrite E1; reflexivity].
Qed.

Lemma authorizePort_keeps t now s g : Inv s g -> in_u64 now ->
  (bool_decide (state s = associated) && same t (associationToken s) = true -> allow = true) ->
  wpm P (authorizePort t now) s g keeps.
Proof.
  intros Hi Hn Hal. unfold authorizePort. apply time_keeps; [exact Hi|exact Hn|].
  intros s1 Hi1 Hf _ Es _ Et _ _ _ _. rewrite <- Es, <- Et in Hal. clear s Hi Es Et. rename s1 into s, Hi1 into Hi.
  apply check_keeps; [exact Hi|]. intros E. pose proof (Hal E) as Ha. splitb E.
  destruct (resting s g Hi ltac:(rewrite E; reflexivity)) as [Hwa Hwc]. destruct Hi as [Hb Hc Hp]. rewrite E in Hc.
  bstep. apply traffic_wp; [exact Hb|exact Hf|intros _; exact Ha|auto|]. do 3 bstep. unfold keeps.
  apply (settle authorized _ g); try reflexivity; try assumption; [apply (Base_ext s); try same_all; exact Hb| |right; reflexivity].
  destruct Hc as [C1 C2 C3 C4 C5 C6 C7]. intros m Hm. split; try assumption; discriminate.
Qed.

Lemma linked_state s : linked s = true -> state s = associated \/ state s = authorized.
Proof. unfold linked. rewrite orb_true_iff, !bool_decide_eq_true. auto. Qed.

Lemma revokePort_keeps t now s g : Inv s g -> in_u64 now -> wpm P (revokePort t now) s g keeps.
Proof.
  intros Hi Hn. unfold revokePort. begin_api s Hi.
  assert (Hm : forall s1 g1, Inv s1 g1 -> state s1 <> faulted -> wpm P (s ← get;
    if scanning s && bool_decide (scanResume s <> idle) then update (fun s => s <| scanResume := associated |>);; mret true
    else if negb (linked s) then mret false
    else traffic controlledPort &&> (update (fun s => s <| state := associated |>);; mret true)) s1 g1 keeps).
  { clear s Hi Hf E. intros s g1 Hi Hf. do 2 bstep. rewrite scanning_state.
    destruct (isScanning (state s) && bool_decide (scanResume s <> idle)) eqn:Es.
    - do 3 bstep. unfold keeps. splitb Es. destruct Hi as [Hb [C1 C2 C3 C4 C5 C6 C7] Hp].
      split; [apply (Base_ext s); try same_all; exact Hb| |exact Hp].
      change (state (s <| scanResume := associated |>)) with (state s).
      assert (Hnb : needsBond (state s) s = true).
      { unfold needsBond. rewrite Es, bool_decide_true by exact H. destruct (state s); try discriminate; reflexivity. }
      split; try assumption.
      + intros _. exact (C2 Hnb).
      + intros _. unfold mayDisconnect. rewrite Es. destruct (state s); try discriminate; reflexivity.
      + intros _. auto.
    - destruct (linked s) eqn:El; [|exact Hi]. cbn [negb]. apply linked_state in El.
      destruct (resting s g1 Hi ltac:(destruct El as [-> | ->]; reflexivity)) as [Hwa Hwc].
      destruct Hi as [Hb [C1 C2 C3 C4 C5 C6 C7] Hp].
      bstep. apply traffic_wp; [exact Hb|exact Hf|discriminate|auto|]. do 3 bstep. unfold keeps.
      apply (settle associated _ g1); try reflexivity; try assumption; [apply (Base_ext s); try same_all; exact Hb| |right; reflexivity].
      intros m Hm. destruct El as [El|El]; rewrite El in *; (split; try assumption; discriminate). }
  apply expire_keeps; [exact Hi|exact Hf|apply Hm; assumption|].
  intros s1 g1 Hi1 _ E1. apply Hm; [exact Hi1|congruence].
Qed.

Lemma disconnect_keeps now s g : Inv s g -> in_u64 now -> wpm P (disconnect now) s g keeps.
Proof.
  intros Hi Hn. unfold disconnect. begin_api s Hi.
  assert (Hm : forall s1 g1, Inv s1 g1 -> state s1 <> faulted -> wpm P (s ← get;
   if bool_decide (state s = idle) then mret true
   else if scanning s then
     update (fun s => if bool_decide (scanResume s <> idle) then s <| disconnectRequested := true |> else s);;
     cancelScan (scanToken s) now
   else if (stateIndex (state s) <? stateIndex preparingAuthentication) ||
           (stateIndex disconnectingCam <? stateIndex (state s)) then mret false
   else
     update (fun s => s <| disconnectRequested := true |>);;
     traffic none &&>
     (s ← get; if waitingAction s || waitingCommand s then mret true else beginDisconnect)) s1 g1 keeps).
  2:{ apply expire_keeps; [exact Hi|exact Hf|apply Hm; assumption|]. intros s1 g1 Hi1 _ E1. apply Hm; [exact Hi1|congruence]. }
  clear s Hi Hf. intros s g1 Hi Hf. do 2 bstep. destruct (bool_decide_reflect (state s = idle)) as [Ei|Ei]; [exact Hi|].
  rewrite scanning_state. destruct (isScanning (state s)) eqn:Es.
  - do 2 bstep. apply cancelScan_keeps; [|exact Hn]. destruct (bool_decide_reflect (scanResume s <> idle)) as [Er|Er]; [|exact Hi].
    destruct Hi as [Hb [C1 C2 C3 C4 C5 C6 C7] Hp].
    split; [apply (Base_ext s); try same_all; exact Hb| |exact Hp].
    change (state (s <| disconnectRequested := true |>)) with (state s).
    split; try assumption.
    + destruct (state s); try discriminate; exact C1.
    + intros _. unfold mayDisconnect. change (scanResume (s <| disconnectRequested := true |>)) with (scanResume s).
      rewrite Es, bool_decide_true by exact Er. destruct (state s); try discriminate; reflexivity.
  - destruct (_ || _) eqn:Ex; [exact Hi|]. do 2 bstep. set (s1 := s <| disconnectRequested := true |>).
    assert (Hb1 : Base s1 g1) by (apply (Base_ext s); try same_all; apply Hi).
    assert (Hr : roleIn (state s) = Some true) by (destruct (state s); try discriminate; reflexivity).
    bstep. apply traffic_wp; [exact Hb1|exact Hf|discriminate|auto|]. do 2 bstep.
    destruct (waitingAction s1 || waitingCommand s1) eqn:Hw.
    + bstep. unfold keeps. destruct Hi as [Hb [C1 C2 C3 C4 C5 C6 C7] Hp]. split; [apply Base_mode; exact Hb1| |exact Hp].
      change (state s1) with (state s). split; try assumption; [left; reflexivity|]. intros _.
      destruct (state s) eqn:E; try discriminate; try reflexivity; exfalso;
        unfold pendingOk in Hp; rewrite E in Hp; destruct Hp as [P1 P2];
        change (waitingAction s || waitingCommand s = true) in Hw; rewrite P1, P2 in Hw; discriminate.
    + destruct (role_live s Hr) as [_ Hcf].
      apply beginDisconnect_wp; [apply Base_mode; exact Hb1|exact Hf|exact (state_role s g1 Hi Hr)|exact (state_iface s g1 Hi Hcf)|auto].
Qed.

(** No disconnection is requested in the states that do not allow one. *)
Lemma not_requested st s m : Core st s m -> mayDisconnect st s = false -> disconnectRequested s = false.
Proof. intros Hc Hm. destruct (disconnectRequested s) eqn:D; [|reflexivity]. rewrite (co_disc _ _ _ Hc D) in Hm. discriminate. Qed.

(** A state reached by a command, from one that has the role. *)
Lemma command_core st s : (st = initialNoLink \/ st = disconnecting \/ st = removingRole) -> roleCreated s = true ->
  ifaceOk (interface s) -> (disconnectRequested s = true -> mayDisconnect st s = true) -> Core st s none.
Proof.
  intros H Hr Hi Hd. destruct H as [->|[->| ->]]; (split; try discriminate; try exact I; try exact Hd;
    [left; reflexivity|intros b [= <-]; exact Hr|intros _; exact Hi]).
Qed.

Lemma stop_keeps now s g : Inv s g -> in_u64 now -> wpm P (stop now) s g keeps.
Proof.
  intros Hi Hn. unfold stop. begin_api s Hi. destruct (resting s g Hi ltac:(rewrite E; reflexivity)) as [Hwa Hwc].
  bstep. apply traffic_wp; [apply Hi|exact Hf|discriminate|auto|].
  assert (Hr : roleCreated s = true) by (apply (state_role s g Hi); rewrite E; reflexivity).
  assert (Hif : ifaceOk (interface s)) by (apply (state_iface s g Hi); rewrite E; reflexivity).
  apply station_command_wp; try assumption; [apply Base_mode; apply Hi|reflexivity| |left; reflexivity|intros b s' g' H' _; exact H'].
  apply command_core; auto. intros D. destruct Hi as [_ C' _]. rewrite E in C'. discriminate (co_disc _ _ _ C' D).
Qed.

Lemma tune_core st s m : Core st s m -> isScanning st = true ->
  scanReady s -> Core scanningTune s none.
Proof.
  intros [C1 C2 C3 C4 C5 C6 C7] E Hr. split.
  - left; reflexivity.
  - intros H. apply C2. destruct st; try discriminate; exact H.
  - intros D. specialize (C3 D). destruct st; try discriminate; exact C3.
  - intros b Hb. apply C4. destruct st; try discriminate; exact Hb.
  - intros _. apply C5. destruct st; try discriminate; reflexivity.
  - exact Hr.
  - intros _. exact (C7 E).
Qed.

Lemma tick_keeps now s g : Inv s g -> in_u64 now -> wpm P (tick now) s g keeps.
Proof.
  intros Hi Hn. unfold tick. begin_api s Hi.
  apply expire_keeps; [exact Hi|exact Hf| |intros s1 g1 Hi1 _ E1; do 2 bstep; rewrite E1; exact Hi1].
  do 2 bstep. destruct (bool_decide_reflect (state s = scanningDwell)) as [E|E]; cbn [andb]; [|exact Hi].
  destruct (deadline s <=? now); [|exact Hi].
  pose proof (resting_or s g Hi ltac:(rewrite E; reflexivity)) as Hw.
  assert (Hrest : forall s1, sameBase s s1 -> (roleCreated s1 = roleCreated s /\ scanResume s1 = scanResume s) ->
     Core scanningRestore s1 none -> waitingAction s1 || waitingCommand s1 = false -> state s1 = state s ->
     wpm P restoreScan s1 g keeps).
  { intros s1 (B1 & B2 & B3 & B4) _ Hc1 Hw1 Es1. apply restoreScan_wp; [apply (Base_ext s); try assumption; apply Hi|congruence|exact Hc1|exact Hw1|auto]. }
  pose proof (in_core _ _ Hi) as Hc. pose proof Hc as Hc0. rewrite E in Hc.
  assert (Hcr : Core scanningRestore s none) by (apply (restore_core s (mode g)); [exact Hc0|rewrite E; reflexivity]).
  destruct (scanCancelled s); [apply Hrest; auto; same_all|].
  do 4 bstep. set (s1 := s <| channelIndex := channelIndex s + 1 |>).
  assert (Hc1 : Core scanningRestore s1 none) by (destruct Hcr; split; assumption).
  destruct (Z.eqb_spec (channelIndex s1) (channelCount s1)) as [El|El].
  - apply Hrest; auto. same_all.
  - apply tuneScan_wp; [apply (Base_ext s); try same_all; apply Hi|exact Hf| |exact Hw|auto].
    apply (tune_core scanningRestore s1 none Hc1 eq_refl).
    destruct (co_scan _ _ _ Hc) as (R1 & R2 & R3). unfold scanReady, s1 in *. simpl in *. split; [lia|]. split; [lia|exact R3].
Qed.

(** The state waiting for an action, the action done. *)
Record Done (k : Action) (s : Controller) (g : Seen) : Prop := {
  dn_base : Base s g;
  dn_core : Core (state s) s (mode g);
  dn_pend : pendingOf (state s) = Some (Some k);
  dn_wa : waitingAction s = false;
  dn_wc : waitingCommand s = false
}.

Lemma Done_live k s g : Done k s g -> state s <> faulted.
Proof. intros H E. pose proof (dn_pend _ _ _ H) as P'. rewrite E in P'. discriminate. Qed.

Ltac done_state H st :=
  match type of H with Done _ ?s _ =>
    assert (Est : state s = st) by
      (let P' := fresh in pose proof (dn_pend _ _ _ H) as P'; destruct (state s); try discriminate; reflexivity)
  end.

Lemma done_waiting k s g : Done k s g -> waitingAction s || waitingCommand s = false.
Proof. intros [_ _ _ -> ->]. reflexivity. Qed.

(** [disconnectRequested_] makes the completion of an action turn round. *)
Lemma turn_round k s g : Done k s g -> roleIn (state s) = Some true -> wpm P beginDisconnect s g keeps.
Proof.
  intros [Hb Hc _ _ _] Hr. destruct (role_live s Hr) as [Hf Hcf].
  apply beginDisconnect_wp; [exact Hb|exact Hf|apply (co_role _ _ _ Hc true Hr)|apply (co_iface _ _ _ Hc Hcf)|auto].
Qed.

Lemma prepareInterface_keeps s g : Done prepareInterface s g -> wpm P (completed prepareInterface) s g keeps.
Proof.
  intros H. done_state H preparing. destruct H as [Hb Hc Hp Hwa Hwc]. rewrite Est in Hc.
  unfold completed. do 2 bstep.
  assert (Hm : mode g = none) by (destruct (co_mode _ _ _ Hc) as [|[]]; assumption).
  apply station_command_wp; try assumption; [congruence|reflexivity|apply (co_iface _ _ _ Hc eq_refl)| |auto|intros b s' g' H' _; exact H'].
  rewrite Hm. split; try discriminate; [left; reflexivity| | |intros _; apply (co_iface _ _ _ Hc eq_refl)|exact I].
  - intros D. discriminate (co_disc _ _ _ Hc D).
  - intros b [= <-]. apply (co_role _ _ _ Hc false eq_refl).
Qed.

Lemma idleTables_keeps s g : Done idleTables s g -> wpm P (completed idleTables) s g keeps.
Proof.
  intros H. done_state H installingIdle. destruct H as [Hb Hc Hp Hwa Hwc]. rewrite Est in Hc.
  unfold completed. do 4 bstep. set (s1 := s <| state := idle |>).
  assert (Hb1 : Base s1 g) by (apply (Base_ext s); try same_all; exact Hb).
  apply traffic_wp; [exact Hb1|discriminate|discriminate|auto|]. unfold keeps.
  apply (settle idle s1 g); try reflexivity; try assumption; [|right; reflexivity].
  destruct Hc as [C1 C2 C3 C4 C5 C6 C7]. intros m Hm. split; try assumption; discriminate.
Qed.

Lemma scanBegin_keeps s g : Done scanBegin s g -> wpm P (completed scanBegin) s g keeps.
Proof.
  intros H. done_state H scanningBegin. pose proof (Done_live _ _ _ H) as Hf. pose proof (done_waiting _ _ _ H) as Hw.
  destruct H as [Hb Hc Hp Hwa Hwc]. unfold completed. do 2 bstep. destruct (scanCancelled s).
  - apply restoreScan_wp; [exact Hb|exact Hf| |exact Hw|auto]. apply (restore_core s (mode g) Hc). rewrite Est. reflexivity.
  - rewrite Est in Hc. apply tuneScan_wp; [exact Hb|exact Hf| |exact Hw|auto].
    exact (tune_core scanningBegin s _ Hc eq_refl (co_scan _ _ _ Hc)).
Qed.

Lemma scanTune_keeps s g : Done scanTune s g -> wpm P (completed scanTune) s g keeps.
Proof.
  intros H. done_state H scanningTune. pose proof (Done_live _ _ _ H) as Hf. pose proof (done_waiting _ _ _ H) as Hw.
  destruct H as [Hb Hc Hp Hwa Hwc]. unfold completed. do 2 bstep. destruct (scanCancelled s).
  - apply restoreScan_wp; [exact Hb|exact Hf| |exact Hw|auto]. apply (restore_core s (mode g) Hc). rewrite Est. reflexivity.
  - rewrite Est in Hc. do 3 bstep. set (s1 := s <| state := scanningDwell |>).
    assert (Hb1 : Base s1 g) by (apply (Base_ext s); try same_all; exact Hb).
    apply currentChannel_wp; [exact (co_scan _ _ _ Hc)|]. intros c _ Hok.
    apply scanChannelOk_valid in Hok as (_ & _ & Hdw).
    bstep. apply arm_wp; [exact Hb1|lia|discriminate|auto|]. intros Hd. set (s2 := s1 <| deadline := _ |>).
    assert (Hb2 : Base s2 g) by (apply Base_deadline; assumption).
    assert (Hset : forall t, t = none \/ t = scanProbe -> Inv s2 (mkSeen t (last g))).
    { intros t Ht. apply (settle scanningDwell s2 g); try reflexivity; try assumption.
      destruct Hc as [C1 C2 C3 C4 C5 C6 C7]. intros m Hm. split; assumption. }
    bstep. apply traffic_wp; [exact Hb2|discriminate|destruct (active c); discriminate|auto|].
    destruct (active c) eqn:Ea.
    + do 4 bstep; [split; [reflexivity|exact Ea]|]. intros [|] _; [apply Hset; auto|].
      apply fail_wp; [apply Base_mode; exact Hb2|intros _; apply Hset; auto|auto].
    + bstep. apply Hset; auto.
Qed.

Lemma scanRestore_keeps s g : Done scanRestore s g -> wpm P (completed scanRestore) s g keeps.
Proof.
  intros H. done_state H scanningRestore. pose proof (Done_live _ _ _ H) as Hf.
  destruct H as [Hb Hc Hp Hwa Hwc]. rewrite Est in Hc. unfold completed. do 2 bstep.
  assert (Hm : mode g = none) by (destruct (co_mode _ _ _ Hc) as [|[]]; assumption).
  apply action_wp; [exact Hb|exact Hf|reflexivity| |intros b s' g' H' _; exact H'].
  intros _. split; [destruct Hc; split; assumption|split; [left; exact Hm|discriminate]].
Qed.

Lemma scanEnd_keeps s g : Done scanEnd s g ->
  (scanResume s = authorized -> disconnectRequested s = false -> allow = true) ->
  wpm P (completed scanEnd) s g keeps.
Proof.
  intros H Hal. done_state H scanningEnd. destruct H as [Hb Hc Hp Hwa Hwc]. rewrite Est in Hc.
  destruct Hc as [C1 C2 C3 C4 C5 C6 C7]. specialize (C7 eq_refl).
  assert (Hr : roleCreated s = true) by (apply C4; reflexivity).
  assert (Hif : ifaceOk (interface s)) by (apply C5; reflexivity).
  unfold completed, completeScan. do 6 bstep. set (s1 := s <| state := scanResume s |>).
  assert (Hb1 : Base s1 g) by (apply (Base_ext s); try same_all; exact Hb).
  assert (Hf1 : state s1 <> faulted) by (change (scanResume s <> faulted); destruct C7 as [-> |[-> | ->]]; discriminate).
  change (disconnectRequested s1) with (disconnectRequested s).
  change (state s1) with (scanResume s). set (mode1 := match scanResume s with authorized => _ | _ => _ end).
  assert (Hopen : (if disconnectRequested s then none else mode1) = tauthorized -> allow = true).
  { destruct (disconnectRequested s); [discriminate|]. unfold mode1. intros E. apply Hal; [|reflexivity].
    destruct C7 as [C7|[C7|C7]]; rewrite C7 in E; try discriminate. exact C7. }
  bstep. apply traffic_wp; [exact Hb1|exact Hf1|exact Hopen|auto|]. do 4 bstep; [exact I|]. intros x _. do 2 bstep.
  set (s2 := s1 <| scanToken := noToken |>).
  assert (Hb2 : Base s2 (mkSeen (if disconnectRequested s then none else mode1) (last g))).
  { apply Base_mode. apply (Base_ext s1); try same_all. exact Hb1. }
  destruct (disconnectRequested s) eqn:D.
  - change (disconnectRequested s1) with (disconnectRequested s). rewrite D.
    apply beginDisconnect_wp; [exact Hb2|exact Hf1|exact Hr|exact Hif|auto].
  - change (disconnectRequested s1) with (disconnectRequested s). rewrite D. bstep. unfold keeps.
    apply (settle (scanResume s) s2 g); try assumption; [apply (Base_ext s1); try same_all; exact Hb1|reflexivity|
      destruct C7 as [-> |[-> | ->]]; reflexivity| |].
    + intros m Hm. split; try assumption.
      * intros Hn. change (bonded s). apply C2. unfold needsBond in *. simpl.
        destruct C7 as [E|[E|E]]; rewrite E in Hn |- *; try discriminate; reflexivity.
      * change (disconnectRequested s2) with (disconnectRequested s). rewrite D. discriminate.
      * intros b Hb'. destruct C7 as [E|[E|E]]; rewrite E in Hb'; injection Hb' as <-; exact Hr.
      * intros _. exact Hif.
      * destruct C7 as [-> |[-> | ->]]; exact I.
      * destruct C7 as [-> |[-> | ->]]; discriminate.
    + right. unfold mode1. destruct C7 as [-> |[-> | ->]]; reflexivity.
Qed.

Lemma prepareAuthentication_keeps s g : Done prepareAuthentication s g -> wpm P (completed prepareAuthentication) s g keeps.
Proof.
  intros H. done_state H preparingAuthentication. pose proof (Done_live _ _ _ H) as Hf.
  destruct H as [Hb Hc Hp Hwa Hwc]. rewrite Est in Hc.
  assert (Hr : roleCreated s = true) by (apply (co_role _ _ _ Hc); reflexivity).
  assert (Hif : ifaceOk (interface s)) by (apply (co_iface _ _ _ Hc); reflexivity).
  unfold completed. do 4 bstep. set (s1 := s <| interface := _ |>).
  assert (Hb1 : Base s1 g) by (apply (Base_ext s); try same_all; exact Hb).
  destruct (disconnectRequested s) eqn:D; [apply beginDisconnect_wp; auto|].
  do 3 bstep. set (s2 := s1 <| state := authenticating |>).
  assert (Hb2 : Base s2 g) by (apply (Base_ext s1); try same_all; exact Hb1).
  apply arm_wp; [exact Hb2|unfold authenticationTimeout; lia|discriminate|auto|]. intros Hd. set (s3 := s2 <| deadline := _ |>).
  assert (Hb3 : Base s3 g) by (apply Base_deadline; assumption).
  assert (Hset : Inv s3 (mkSeen management (last g))).
  { apply (settle authenticating s3 g); try reflexivity; try assumption; [|right; reflexivity].
    destruct Hc as [C1 C2 C3 C4 C5 C6 C7]. intros m Hm. split; try assumption; try discriminate.
    change (disconnectRequested s3) with (disconnectRequested s). rewrite D. discriminate. }
  bstep. apply traffic_wp; [exact Hb3|discriminate|discriminate|auto|]. do 4 bstep; [reflexivity|].
  intros [|] _; [exact Hset|]. apply fail_wp; [apply Hset|intros _; exact Hset|auto].
Qed.

Lemma associationCmac_keeps s g : Done associationCmac s g -> wpm P (completed associationCmac) s g keeps.
Proof.
  intros H. done_state H installingAssociationCmac. pose proof (Done_live _ _ _ H) as Hf.
  assert (Hrole : roleIn (state s) = Some true) by (rewrite Est; reflexivity).
  unfold completed. do 2 bstep. destruct (disconnectRequested s) eqn:D; [exact (turn_round _ s g H Hrole)|].
  destruct H as [Hb Hc Hp Hwa Hwc]. rewrite Est in Hc.
  apply station_command_wp; try assumption; [reflexivity|apply (co_iface _ _ _ Hc eq_refl)| | |intros b s' g' H' _; exact H'].
  - destruct Hc; split; assumption.
  - destruct (co_mode _ _ _ Hc) as [|[_ ?]]; auto.
Qed.

Lemma associationCam_keeps s g : Done associationCam s g -> wpm P (completed associationCam) s g keeps.
Proof.
  intros H. done_state H installingAssociationCam.
  assert (Hrole : roleIn (state s) = Some true) by (rewrite Est; reflexivity).
  unfold completed. do 2 bstep. destruct (disconnectRequested s) eqn:D; [exact (turn_round _ s g H Hrole)|].
  destruct H as [Hb Hc Hp Hwa Hwc]. rewrite Est in Hc. do 2 bstep. set (s1 := s <| state := associated |>).
  assert (Hb1 : Base s1 g) by (apply (Base_ext s); try same_all; exact Hb).
  apply traffic_wp; [exact Hb1|discriminate|discriminate|auto|].
  apply (settle associated s1 g); try reflexivity; try assumption; [|right; reflexivity].
  destruct Hc as [C1 C2 C3 C4 C5 C6 C7]. intros m Hm. split; try assumption; try discriminate.
  change (disconnectRequested s1) with (disconnectRequested s). rewrite D. discriminate.
Qed.

Lemma disconnectCmac_keeps s g : Done disconnectCmac s g -> wpm P (completed disconnectCmac) s g keeps.
Proof.
  intros H. done_state H disconnectingCmac. pose proof (Done_live _ _ _ H) as Hf.
  destruct H as [Hb Hc Hp Hwa Hwc]. rewrite Est in Hc. unfold completed. do 2 bstep.
  assert (Hm : mode g = none) by (destruct (co_mode _ _ _ Hc) as [|[]]; assumption).
  apply station_command_wp; try assumption; [reflexivity|apply (co_iface _ _ _ Hc eq_refl)| |auto|intros b s' g' H' _; exact H'].
  rewrite Hm. apply command_core; auto; [apply (co_role _ _ _ Hc true eq_refl)|apply (co_iface _ _ _ Hc eq_refl)].
Qed.

Lemma disconnectCam_keeps s g : Done disconnectCam s g -> wpm P (completed disconnectCam) s g keeps.
Proof.
  intros H. done_state H disconnectingCam. destruct H as [Hb Hc Hp Hwa Hwc]. rewrite Est in Hc.
  unfold completed. do 4 bstep.
  match goal with |- wpm _ _ ?x _ _ => set (s1 := x) end.
  assert (Hb1 : Base s1 g) by (apply (Base_ext s); try same_all; exact Hb).
  apply traffic_wp; [exact Hb1|discriminate|discriminate|auto|].
  apply (settle idle s1 g); try reflexivity; try assumption; [|right; reflexivity].
  destruct Hc as [C1 C2 C3 C4 C5 C6 C7]. intros m Hm. split; try assumption; discriminate.
Qed.

Lemma removeCam_keeps s g : Done removeCam s g -> wpm P (completed removeCam) s g keeps.
Proof.
  intros H. done_state H removingCam. destruct H as [Hb Hc Hp Hwa Hwc]. rewrite Est in Hc.
  assert (Hm : mode g = none) by (destruct (co_mode _ _ _ Hc) as [|[]]; assumption).
  assert (D : disconnectRequested s = false) by (exact (not_requested _ _ _ Hc eq_refl)).
  unfold completed. do 5 bstep. unfold keeps. split.
  - apply (Base_ext s); try same_all. exact Hb.
  - split; try discriminate; [left; exact Hm| |intros b [= <-]; reflexivity|exact I].
    intros D'. change (disconnectRequested s = true) in D'. congruence.
  - split; assumption.
Qed.

Lemma completed_keeps k s g : Done k s g ->
  (k = scanEnd -> scanResume s = authorized -> disconnectRequested s = false -> allow = true) ->
  wpm P (completed k) s g keeps.
Proof.
  intros H Hal. destruct k.
  - apply prepareInterface_keeps; exact H.
  - apply idleTables_keeps; exact H.
  - apply scanBegin_keeps; exact H.
  - apply scanTune_keeps; exact H.
  - apply scanRestore_keeps; exact H.
  - apply scanEnd_keeps; [exact H|apply Hal; reflexivity].
  - apply prepareAuthentication_keeps; exact H.
  - apply associationCmac_keeps; exact H.
  - apply associationCam_keeps; exact H.
  - apply disconnectCmac_keeps; exact H.
  - apply disconnectCam_keeps; exact H.
  - apply removeCam_keeps; exact H.
Qed.

Lemma actionComplete_keeps t k ok now s g : Inv s g -> in_u64 now ->
  (mayOpen s (ActionComplete t k ok now) = true -> allow = true) ->
  wpm P (actionComplete t k ok now) s g keeps.
Proof.
  intros Hi Hn Hal. unfold actionComplete. apply time_keeps; [exact Hi|exact Hn|].
  intros s1 Hi1 Hf (_ & _ & _ & Ed & _ & _ & _ & _ & _ & Er) Es _ _ Ep _ _ _.
  assert (Hal' : mayOpen s1 (ActionComplete t k ok now) = true -> allow = true).
  { intros H. apply Hal. unfold mayOpen in *. rewrite <- Es, <- Er, <- Ed, <- Ep. exact H. }
  clear Hal Hi s Ed Er Es Ep. rename s1 into s, Hi1 into Hi, Hal' into Hal.
  apply check_keeps; [exact Hi|]. intros E. splitb E.
  apply expire_keeps; [exact Hi|exact Hf| |].
  2:{ intros s1 g1 _ Ea. destruct (resting s g Hi ltac:(rewrite Ea; reflexivity)). congruence. }
  do 2 bstep. set (s1 := s <| waitingAction := false |>).
  assert (Hb1 : Base s1 g) by (apply (Base_ext s); try same_all; apply Hi).
  destruct ok; cbn [negb]; [|apply fail_wp; [exact Hb1|intros Hx; contradiction|auto]].
  assert (Hp : pendingOf (state s) = Some (Some k) /\ waitingCommand s = false).
  { pose proof (in_pending _ _ Hi) as Hp. unfold pendingOk in Hp.
    destruct (pendingOf (state s)) as [[a|]|]; [|destruct Hp; congruence|destruct Hp; congruence].
    destruct Hp as (_ & P2 & P3). split; [congruence|exact P2]. }
  apply completed_keeps.
  - split; [exact Hb1| |apply Hp|reflexivity|apply Hp].
    change (state s1) with (state s). apply (Core_same _ s); [same_all|apply Hi].
  - intros -> Hr Hd. apply Hal. unfold mayOpen. change (scanResume s1) with (scanResume s) in Hr.
    change (disconnectRequested s1) with (disconnectRequested s) in Hd.
    assert (Est : state s = scanningEnd) by (destruct Hp as [Hp _]; destruct (state s); try discriminate; reflexivity).
    rewrite Est, Hr, Hd, !bool_decide_true by reflexivity. cbn [negb andb].
    repeat match goal with K : same _ _ = true |- _ => rewrite K end. reflexivity.
Qed.

(** What a state waiting for a command does when it is acknowledged. *)
Lemma acknowledged_keeps s g : Base s g -> Core (state s) s (mode g) -> pendingOf (state s) = Some None ->
  waitingAction s = false -> waitingCommand s = false -> wpm P acknowledged s g keeps.
Proof.
  intros Hb Hc Hp Hwa Hwc. assert (Hf : state s <> faulted) by (intros E; rewrite E in Hp; discriminate).
  assert (Hact : forall k st, pendingOf st = Some (Some k) -> k <> scanTune ->
    Core st s (mode g) -> (mode g = none \/ mode g = management) -> wpm P (action k st noChannel) s g keeps).
  { intros k st Hk Hnk Hcs Hm. apply action_wp; [exact Hb|exact Hf|exact Hk| |intros b s' g' H' _; exact H'].
    intros _. split; [exact Hcs|]. split; [exact Hm|intros E; contradiction]. }
  unfold acknowledged. do 2 bstep. destruct (state s) eqn:Est; try discriminate Hp.
  - assert (Hm : mode g = none) by (destruct (co_mode _ _ _ Hc) as [|[]]; assumption).
    do 2 bstep. set (s1 := s <| roleCreated := true |>).
    assert (Hif : ifaceOk (interface s)) by (apply (co_iface _ _ _ Hc eq_refl)).
    apply station_command_wp; try assumption; [apply (Base_ext s); try same_all; exact Hb|change (state s <> faulted); rewrite Est; exact Hf| |auto|intros b s' g' H' _; exact H'].
    rewrite Hm. apply command_core; auto. intros D. discriminate (co_disc _ _ _ Hc D).
  - assert (Hm : mode g = none) by (destruct (co_mode _ _ _ Hc) as [|[]]; assumption).
    apply Hact; [reflexivity|discriminate|destruct Hc; split; assumption|auto].
  - destruct (disconnectRequested s) eqn:D.
    + apply beginDisconnect_wp; [exact Hb|rewrite Est; exact Hf|apply (co_role _ _ _ Hc true eq_refl)|apply (co_iface _ _ _ Hc eq_refl)|auto].
    + apply Hact; [reflexivity|discriminate|destruct Hc; split; assumption|destruct (co_mode _ _ _ Hc) as [|[_ ?]]; auto].
  - assert (Hm : mode g = none) by (destruct (co_mode _ _ _ Hc) as [|[]]; assumption).
    apply Hact; [reflexivity|discriminate|destruct Hc; split; assumption|auto].
  - assert (Hm : mode g = none) by (destruct (co_mode _ _ _ Hc) as [|[]]; assumption).
    apply Hact; [reflexivity|discriminate|destruct Hc; split; assumption|auto].
Qed.

Lemma firmwareEvent_keeps e ep now s g : Inv s g -> in_u64 now -> eventOk e -> wpm P (firmwareEvent e ep now) s g keeps.
Proof.
  intros Hi Hn He. unfold firmwareEvent. begin_api s Hi.
  apply expire_keeps; [exact Hi|exact Hf| |].
  2:{ intros s1 g1 _ Ea. destruct (resting s g Hi ltac:(rewrite Ea; reflexivity)). congruence. }
  pose proof (decodeAck_spec e He) as Ha. destruct (decodeAck e) as [a|x|]; [|exact Hi|contradiction].
  apply check_keeps; [exact Hi|]. intros Ec.
  do 2 bstep. set (s1 := s <| waitingCommand := false |>).
  assert (Hb1 : Base s1 g) by (apply (Base_ext s); try same_all; apply Hi).
  destruct (negb (returnCode a =? 0)); [apply fail_wp; [exact Hb1|intros Hx; contradiction|auto]|].
  assert (Hp : pendingOf (state s) = Some None /\ waitingAction s = false).
  { pose proof (in_pending _ _ Hi) as Hp. unfold pendingOk in Hp.
    destruct (pendingOf (state s)) as [[b|]|]; [destruct Hp as (? & ? & ?); congruence|split; [reflexivity|apply Hp]|destruct Hp; congruence]. }
  apply acknowledged_keeps; [exact Hb1| |apply Hp|apply Hp|reflexivity].
  change (state s1) with (state s). apply (Core_same _ s); [same_all|apply Hi].
Qed.

Lemma api_keeps a s g : Inv s g -> apiOk a -> (mayOpen s a = true -> allow = true) -> wpm P (runApi a) s g keeps.
Proof.
  intros Hi [Ha Ha2] Hal. destruct a; simpl runApi.
  - apply restart_keeps; assumption.
  - apply start_keeps; [assumption|split; assumption].
  - apply scan_keeps; assumption.
  - apply cancelScan_keeps; assumption.
  - apply connect_keeps; assumption.
  - apply authenticated_keeps; assumption.
  - apply associationReceived_keeps; assumption.
  - apply associationRejected_keeps; assumption.
  - apply authorizePort_keeps; assumption.
  - apply revokePort_keeps; assumption.
  - apply disconnect_keeps; assumption.
  - apply stop_keeps; assumption.
  - apply tick_keeps; assumption.
  - apply actionComplete_keeps; assumption.
  - destruct Ha. apply firmwareEvent_keeps; assumption.
Qed.

End rules.

(** ** Reachable controllers *)

(** A controller and what its back end has seen, after any calls with any
    answers. *)
Inductive reachable : Controller -> Seen -> Prop :=
| reach_new : reachable newController (mkSeen none noToken)
| reach_call s g a tr r s' : reachable s g -> apiOk a -> exec (runApi a s) tr (r, s') ->
    reachable s' (after (policy true) g tr).

Lemma after_allow b g tr : after (policy b) g tr = after (policy true) g tr.
Proof. revert g. induction tr as [|e tr IH]; intros g; [reflexivity|]. exact (IH _). Qed.

Lemma new_inv : Inv newController (mkSeen none noToken).
Proof.
  split; [split; try reflexivity; try (cbn; zlia); right; cbn; lia| |split; reflexivity].
  split; try discriminate; [left; reflexivity|intros b [= <-]; reflexivity|exact I].
Qed.

Lemma call_sound s g a tr r s' : Inv s g -> apiOk a -> exec (runApi a s) tr (r, s') ->
  accepts (policy (mayOpen s a)) g tr /\ Inv s' (after (policy true) g tr).
Proof.
  intros Hi Ha He. rewrite <- (after_allow (mayOpen s a)).
  apply (wp_sound (policy (mayOpen s a)) (runApi a s) g (fun x g' => Inv x.2 g') tr (r, s'));
    [exact (api_keeps (mayOpen s a) a s g Hi Ha (fun H => H))|exact He|apply relies_trivial; intros; exact I].
Qed.

Lemma station_reachable_inv s g : reachable s g -> Inv s g.
Proof.
  induction 1 as [|s g a tr r s' _ IH Ha He]; [exact new_inv|]. apply (call_sound s g a tr r s' IH Ha He).
Qed.



(** ** Faults *)

(** The calls of a faulted controller: the gate only. *)
Definition gateOnly (tr : list (event Backend)) : Prop := forall e, In e tr -> ev_op e = InGate.

Definition gateProtocol : protocol Backend unit :=
  Protocol (Σ:=Backend) (G:=unit) (fun _ o => o = InGate) (fun _ _ _ => True) (fun g _ _ => g).

Lemma gate_accepts tr : accepts gateProtocol tt tr -> gateOnly tr.
Proof. induction tr as [|e tr IH]; intros H x []; destruct H as [H1 H2]; [congruence|]. apply IH; assumption. Qed.

Lemma faulted_time now (m : C bool) s tr r s' : state s = faulted ->
  exec ((time now &&> m) s) tr (r, s') -> r = Some false /\ s' = s /\ gateOnly tr.
Proof.
  intros Hf He.
  assert (Hw : wp gateProtocol ((time now &&> m) s) tt (fun x _ => x = (Some false, s))).
  { apply (wp_mono gateProtocol _ _ (fun x _ => (x.1, x.2) = (Some false, s))); [intros [] ? E; exact E|].
    change (wpm gateProtocol (time now &&> m) s tt (fun r s' _ => (r, s') = (Some false, s))).
    bstep. unfold time. do 2 bstep; [reflexivity|]. intros x _. do 2 bstep.
    rewrite bool_decide_true, orb_true_r by exact Hf. reflexivity. }
  destruct (wp_sound gateProtocol _ tt _ tr (r, s') Hw He (relies_trivial gateProtocol tt tr (fun _ _ _ => I))) as [Ha E].
  injection E as -> ->. split; [reflexivity|]. split; [reflexivity|]. apply gate_accepts. exact Ha.
Qed.

(** a fault is final for the firmware epoch: in a faulted controller every
    call but [restart] is refused, changes nothing and only asks for the gate;
    and a restart that is refused leaves the controller as it is. *)
Theorem fault_absorbing s a tr r s' : state s = faulted -> exec (runApi a s) tr (r, s') ->
  match a with
  | Restart e now =>
      r = Some false /\ s' = s \/
      r = Some true /\ epoch (ctlEpoch s) < e /\ s' = epochReset e now s /\
      In (Ev (Σ:=Backend) (FirmwareRestartVerified e) true) tr
  | _ => r = Some false /\ s' = s /\ gateOnly tr
  end.
Proof.
  intros Hf He. destruct a; try exact (faulted_time _ _ s tr r s' Hf He).
  simpl runApi in He. destruct He as (g & t & -> & He). simpl in He.
  destruct g; simpl in He; [|destruct He as [-> [= <- <-]]; auto].
  change (exec ((if negb (newEpoch =? 0) && (epoch (ctlEpoch s) <? newEpoch) then
    bcall (FirmwareRestartVerified newEpoch) &&> bcall (SetTraffic none) &&>
    (update (epochReset newEpoch now);; mret true) else mret false) s) t (r, s')) in He.
  destruct (negb (newEpoch =? 0) && (epoch (ctlEpoch s) <? newEpoch)) eqn:E; simpl in He; [|destruct He as [-> [= <- <-]]; auto].
  destruct He as (v & t1 & -> & He). destruct v; simpl in He; [|destruct He as [-> [= <- <-]]; auto].
  destruct He as (k & t2 & -> & He). destruct k; simpl in He; destruct He as [-> [= <- <-]]; [right|auto].
  split; [reflexivity|]. split; [lia|]. split; [reflexivity|]. right. left. reflexivity.
Qed.

(** ** A disconnection completes *)

Section progress.
Variable seq : Z.

(** A back end that accepts everything it is asked, issuing sequence [seq]. *)
Definition accepted (o : backendOp) : backendAns o -> Prop :=
  match o return backendAns o -> Prop with
  | ReserveH2cSequence => fun x : bool * Z => x = (true, seq)
  | ScanFinished _ _ | RecoveryRequired _ _ | OutOfRange => fun _ : unit => True
  | InGate | SetTraffic _ | PublishH2c _ _ _ | BeginAction _ | BeginAuthentication _ _ | SendProbe _ _ _
  | CancelProtocol _ | FirmwareRestartVerified _ => fun x : bool => x = true
  end.
Definition cooperative : protocol Backend unit := Protocol (Σ:=Backend) (G:=unit)
  (fun _ _ => True) (fun _ o => accepted o) (fun g _ _ => g).
Abbreviation P := cooperative.

(** What an operation that was posted leaves. *)
Record Posted (st : State) (s s' : Controller) : Prop := {
  po_state : state s' = st;
  po_token : pendingToken s' = nextToken s;
  po_serial : serial s' = serial s + 1;
  po_now : lastNow s' = lastNow s;
  po_same : clockStarted s' = clockStarted s /\ ctlEpoch s' = ctlEpoch s /\ interface s' = interface s
}.

Lemma time_ok now s (Q : option bool -> Controller -> unit -> Prop) : state s <> faulted -> lastNow s <= now ->
  Q (Some true) (s <| lastNow := now |> <| clockStarted := true |>) tt -> wpm P (time now) s tt Q.
Proof.
  intros Hf Hn HQ. unfold time. do 2 bstep; [exact I|]. intros x Hx. simpl in Hx. subst x. do 2 bstep.
  rewrite bool_decide_false by exact Hf. cbn [negb orb]. replace (now <? lastNow s) with false by lia.
  rewrite andb_false_r. do 3 bstep. exact HQ.
Qed.

Lemma action_ok k st tgt s (Q : option bool -> Controller -> unit -> Prop) :
  waitingAction s || waitingCommand s = false -> state s <> faulted -> serial s < U64MAX ->
  lastNow s + actionTimeout <= U64MAX -> k <> scanTune ->
  (forall s', Posted st s s' -> waitingAction s' = true -> waitingCommand s' = waitingCommand s -> pendingAction s' = k ->
     deadline s' = lastNow s + actionTimeout -> Q (Some true) s' tt) ->
  wpm P (action k st tgt) s tt Q.
Proof.
  intros Hw Hf Hs Hn Hk HQ. unfold action. do 2 bstep. rewrite Hw. bstep.
  unfold token. do 2 bstep. replace (serial s =? U64MAX) with false by lia. do 7 bstep.
  rewrite bool_decide_false by exact Hf. do 3 bstep. unfold arm. do 2 bstep.
  match goal with |- wpm _ (if ?b then _ else _) _ _ _ => replace b with false by (cbn; lia) end.
  do 3 bstep. cbn [negb]. bstep. rewrite bool_decide_false by exact Hk. do 5 bstep; [exact I|].
  intros x Hx. simpl in Hx. subst x. cbn beta iota. apply HQ; try reflexivity. split; try reflexivity. repeat split; reflexivity.
Qed.

Lemma command_ok (role rd : bool) st s (Q : option bool -> Controller -> unit -> Prop) :
  waitingAction s || waitingCommand s = false -> state s <> faulted -> serial s < U64MAX ->
  lastNow s + commandTimeout <= U64MAX -> ifaceOk (interface s) ->
  (forall s', Posted st s s' -> waitingCommand s' = true -> waitingAction s' = waitingAction s ->
     pendingCommand s' = (if role then mkCommandId 1 8 4 else mkCommandId 1 8 0) -> pendingSequence s' = u8 seq ->
     deadline s' = lastNow s + commandTimeout -> Q (Some true) s' tt) ->
  wpm P (command role rd st) s tt Q.
Proof.
  intros Hw Hf Hs Hn Hif HQ. unfold command. do 2 bstep. rewrite Hw. do 2 bstep; [exact I|].
  intros x Hx. simpl in Hx. subst x. cbn [fst snd negb]. cbv zeta.
  destruct (encode_ok role rd s seq Hif) as [bytes E]. rewrite E. clear E. do 3 bstep.
  unfold token. do 2 bstep.
  match goal with |- wpm _ (if ?b then _ else _) _ _ _ => replace b with false by (cbn; lia) end. do 7 bstep.
  rewrite bool_decide_false by exact Hf. do 3 bstep. unfold arm. do 2 bstep.
  match goal with |- wpm _ (if ?b then _ else _) _ _ _ => replace b with false by (cbn; lia) end.
  do 3 bstep. cbn [negb]. do 4 bstep; [exact I|].
  intros x Hx. simpl in Hx. subst x. cbn beta iota. apply HQ; try reflexivity. split; try reflexivity. repeat split; reflexivity.
Qed.

Lemma expire_ok s (Q : option bool -> Controller -> unit -> Prop) : scanning s = false -> state s <> authenticating ->
  (waitingAction s || waitingCommand s = true -> lastNow s < deadline s) -> Q (Some true) s tt -> wpm P expire s tt Q.
Proof.
  intros Hs Ha Hw HQ. unfold expire. do 2 bstep. rewrite Hs. cbn [andb].
  destruct (waitingAction s || waitingCommand s).
  - replace (deadline s <=? lastNow s) with false by (specialize (Hw eq_refl); lia). exact HQ.
  - rewrite bool_decide_false by exact Ha. exact HQ.
Qed.

(** What the steps below need to know of the controller. *)
Record At (st : State) (s : Controller) (wa wc : bool) (n tm dl : Z) (ep : Token) : Prop := {
  at_state : state s = st; at_wa : waitingAction s = wa; at_wc : waitingCommand s = wc;
  at_serial : serial s = n; at_now : lastNow s = tm; at_deadline : deadline s = dl; at_epoch : ctlEpoch s = ep;
  at_iface : ifaceOk (interface s)
}.

Lemma At_now st s wa wc n tm dl ep now : At st s wa wc n tm dl ep ->
  At st (s <| lastNow := now |> <| clockStarted := true |>) wa wc n now dl ep.
Proof. intros []. split; auto. Qed.

Lemma andM_ok (a b : C bool) s (Q : option bool -> Controller -> unit -> Prop) :
  wpm P a s tt (fun r s' _ => r = Some true /\ wpm P b s' tt Q) -> wpm P (a &&> b) s tt Q.
Proof. intros H. bstep. eapply wpm_mono; [exact H|]. intros r s' [] [-> Hb]. exact Hb. Qed.

Lemma disconnect_step st s n tm dl ep now : At st s false false n tm dl ep -> (st = associated \/ st = authorized) ->
  tm <= now -> n < U64MAX -> now + actionTimeout <= U64MAX ->
  wpm P (disconnect now) s tt (fun r s' _ => r = Some true /\ pendingAction s' = disconnectCmac /\
    pendingToken s' = mkToken (epoch ep) (n + 1) /\
    At disconnectingCmac s' true false (n + 1) now (now + actionTimeout) ep).
Proof.
  intros H Hst Hn Hs Ht. pose proof (At_now _ _ _ _ _ _ _ _ now H) as H1. set (s1 := s <| lastNow := now |> <| clockStarted := true |>) in *.
  assert (Hf : state s1 <> faulted) by (rewrite (at_state _ _ _ _ _ _ _ _ H1); destruct Hst as [-> | ->]; discriminate).
  assert (Hsc : scanning s1 = false) by (rewrite scanning_state, (at_state _ _ _ _ _ _ _ _ H1); destruct Hst as [-> | ->]; reflexivity).
  unfold disconnect. apply andM_ok. apply time_ok; [exact Hf|rewrite (at_now _ _ _ _ _ _ _ _ H); exact Hn|].
  split; [reflexivity|]. fold s1. apply andM_ok. apply expire_ok; [exact Hsc| | |].
  { rewrite (at_state _ _ _ _ _ _ _ _ H1). destruct Hst as [-> | ->]; discriminate. }
  { rewrite (at_wa _ _ _ _ _ _ _ _ H1), (at_wc _ _ _ _ _ _ _ _ H1). discriminate. }
  split; [reflexivity|]. do 2 bstep. rewrite bool_decide_false by (rewrite (at_state _ _ _ _ _ _ _ _ H1); destruct Hst as [-> | ->]; discriminate).
  rewrite Hsc. match goal with |- wpm _ (if ?b then _ else _) _ _ _ => replace b with false by
    (rewrite (at_state _ _ _ _ _ _ _ _ H1); destruct Hst as [-> | ->]; reflexivity) end.
  do 2 bstep. set (s2 := s1 <| disconnectRequested := true |>).
  assert (H2 : At st s2 false false n now dl ep) by (destruct H1; split; auto).
  assert (Hw2 : waitingAction s2 || waitingCommand s2 = false) by (rewrite (at_wa _ _ _ _ _ _ _ _ H2), (at_wc _ _ _ _ _ _ _ _ H2); reflexivity).
  apply andM_ok. unfold traffic. do 2 bstep; [exact I|]. intros x Hx. simpl in Hx. subst x. cbn beta iota. split; [reflexivity|].
  do 2 bstep. rewrite Hw2. unfold beginDisconnect. apply andM_ok. unfold traffic. do 2 bstep; [exact I|].
  intros x Hx. simpl in Hx. subst x. cbn beta iota. split; [reflexivity|]. apply andM_ok. do 4 bstep; [exact I|].
  intros x Hx. simpl in Hx. subst x. cbn beta iota. split; [reflexivity|].
  apply action_ok; [exact Hw2|exact Hf|rewrite (at_serial _ _ _ _ _ _ _ _ H2); exact Hs|rewrite (at_now _ _ _ _ _ _ _ _ H2); exact Ht|discriminate|].
  intros s' [P1 P2 P3 P4 (P5 & P6 & P7)] W1 W2 W3 W4. split; [reflexivity|]. split; [exact W3|].
  destruct H2 as [A1 A2 A3 A4 A5 A6 A7 A8]. split; [rewrite P2; unfold nextToken; rewrite A4, A7; reflexivity|].
  split; congruence.
Qed.

(** The common start of a completion. *)
Lemma completion_start st s wa wc n tm dl ep now (f : Controller -> bool) (m : C bool) (Q : option bool -> Controller -> unit -> Prop) :
  At st s wa wc n tm dl ep -> st <> faulted -> isScanning st = false -> st <> authenticating ->
  tm <= now -> now < dl -> f (s <| lastNow := now |> <| clockStarted := true |>) = true ->
  wpm P m (s <| lastNow := now |> <| clockStarted := true |>) tt Q ->
  wpm P (time now &&> (s ← get; check (f s)) &&> expire &&> m) s tt Q.
Proof.
  intros H Hf Hsc Ha Hn Hd Hfs Hm. pose proof (At_now _ _ _ _ _ _ _ _ now H) as H1. set (s1 := s <| lastNow := now |> <| clockStarted := true |>) in *.
  apply andM_ok. apply time_ok; [rewrite (at_state _ _ _ _ _ _ _ _ H); exact Hf|rewrite (at_now _ _ _ _ _ _ _ _ H); exact Hn|].
  split; [reflexivity|]. fold s1. apply andM_ok. do 3 bstep. rewrite Hfs. split; [reflexivity|].
  apply andM_ok. apply expire_ok.
  - rewrite scanning_state, (at_state _ _ _ _ _ _ _ _ H1). exact Hsc.
  - rewrite (at_state _ _ _ _ _ _ _ _ H1). exact Ha.
  - intros _. rewrite (at_now _ _ _ _ _ _ _ _ H1), (at_deadline _ _ _ _ _ _ _ _ H1). exact Hd.
  - split; [reflexivity|exact Hm].
Qed.

Lemma token_same_refl t : same t t = true.
Proof. unfold same. rewrite !Z.eqb_refl. reflexivity. Qed.

Lemma cmac_step s n tm dl ep now : At disconnectingCmac s true false n tm dl ep ->
  pendingAction s = disconnectCmac -> pendingToken s = mkToken (epoch ep) n -> tm <= now -> now < dl ->
  n < U64MAX -> now + commandTimeout <= U64MAX ->
  wpm P (actionComplete (mkToken (epoch ep) n) disconnectCmac true now) s tt (fun r s' _ => r = Some true /\
    pendingCommand s' = mkCommandId 1 8 0 /\ pendingSequence s' = u8 seq /\
    At disconnecting s' false true (n + 1) now (now + commandTimeout) ep).
Proof.
  intros H Ha Ht Hn Hd Hs Hm. unfold actionComplete.
  apply (completion_start _ _ _ _ _ _ _ _ _ _ _ _ H); [discriminate|reflexivity|discriminate|exact Hn|exact Hd| |].
  { cbn. rewrite (at_wa _ _ _ _ _ _ _ _ H), Ht, Ha, token_same_refl. reflexivity. }
  pose proof (At_now _ _ _ _ _ _ _ _ now H) as H1. set (s1 := s <| lastNow := now |> <| clockStarted := true |>) in *.
  do 2 bstep. cbn [negb]. set (s2 := s1 <| waitingAction := false |>).
  assert (H2 : At disconnectingCmac s2 false false n now dl ep) by (destruct H1; split; auto).
  destruct H2 as [A1 A2 A3 A4 A5 A6 A7 A8]. unfold completed. do 2 bstep.
  apply command_ok; [rewrite A2, A3; reflexivity|rewrite A1; discriminate|rewrite A4; exact Hs|rewrite A5; exact Hm|exact A8|].
  intros s' [P1 P2 P3 P4 (P5 & P6 & P7)] W1 W2 W3 W4 W5. split; [reflexivity|]. split; [exact W3|]. split; [exact W4|].
  split; congruence.
Qed.

Lemma ack_step s n tm dl ep e now : At disconnecting s false true n tm dl ep ->
  pendingCommand s = mkCommandId 1 8 0 -> pendingSequence s = u8 seq -> tm <= now -> now < dl ->
  decodeAck e = MVal (mkAck (mkCommandId 1 8 0) (u8 seq) 0 true) -> n < U64MAX -> now + actionTimeout <= U64MAX ->
  wpm P (firmwareEvent e (epoch ep) now) s tt (fun r s' _ => r = Some true /\ pendingAction s' = disconnectCam /\
    pendingToken s' = mkToken (epoch ep) (n + 1) /\
    At disconnectingCam s' true false (n + 1) now (now + actionTimeout) ep).
Proof.
  intros H Hc Hq Hn Hd He Hs Hm. unfold firmwareEvent.
  apply (completion_start _ _ _ _ _ _ _ _ _ _ _ _ H); [discriminate|reflexivity|discriminate|exact Hn|exact Hd| |].
  { cbn. rewrite (at_wc _ _ _ _ _ _ _ _ H), (at_epoch _ _ _ _ _ _ _ _ H), Z.eqb_refl. reflexivity. }
  pose proof (At_now _ _ _ _ _ _ _ _ now H) as H1. set (s1 := s <| lastNow := now |> <| clockStarted := true |>) in *.
  rewrite He. apply andM_ok. do 3 bstep. change (pendingSequence s1) with (pendingSequence s).
  change (pendingCommand s1) with (pendingCommand s). rewrite Hq, Hc. cbn [done ack_sequence Protocol.command]. rewrite Z.eqb_refl.
  split; [reflexivity|]. do 2 bstep. cbn [returnCode Z.eqb negb]. set (s2 := s1 <| waitingCommand := false |>).
  assert (H2 : At disconnecting s2 false false n now dl ep) by (destruct H1; split; auto).
  destruct H2 as [A1 A2 A3 A4 A5 A6 A7 A8]. unfold acknowledged. do 2 bstep. rewrite A1.
  apply action_ok; [rewrite A2, A3; reflexivity|rewrite A1; discriminate|rewrite A4; exact Hs|rewrite A5; exact Hm|discriminate|].
  intros s' [P1 P2 P3 P4 (P5 & P6 & P7)] W1 W2 W3 W4. split; [reflexivity|]. split; [exact W3|].
  split; [rewrite P2; unfold nextToken; rewrite A4, A7; reflexivity|]. split; congruence.
Qed.

Lemma cam_step s n tm dl ep now : At disconnectingCam s true false n tm dl ep ->
  pendingAction s = disconnectCam -> pendingToken s = mkToken (epoch ep) n -> tm <= now -> now < dl ->
  wpm P (actionComplete (mkToken (epoch ep) n) disconnectCam true now) s tt (fun r s' _ => r = Some true /\
    state s' = idle /\ disconnectRequested s' = false /\ associationToken s' = noToken /\ peer s' = noPeer).
Proof.
  intros H Ha Ht Hn Hd. unfold actionComplete.
  apply (completion_start _ _ _ _ _ _ _ _ _ _ _ _ H); [discriminate|reflexivity|discriminate|exact Hn|exact Hd| |].
  { cbn. rewrite (at_wa _ _ _ _ _ _ _ _ H), Ht, Ha, token_same_refl. reflexivity. }
  do 2 bstep. cbn [negb]. unfold completed. do 4 bstep. unfold traffic. do 2 bstep; [exact I|].
  intros x Hx. simpl in Hx. subst x. cbn beta iota. repeat split; reflexivity.
Qed.

End progress.

(** C18: a disconnection completes: from any reachable controller with a link,
    if the back end accepts what it is asked and the two actions and the
    firmware's acknowledgement arrive within their deadlines, then [disconnect]
    and the three completions all succeed and the controller is idle, with the
    peer and the association forgotten. *)
Theorem disconnect_completes s g seq e t0 t1 t2 t3 tr r s' :
  reachable s g -> (state s = associated \/ state s = authorized) ->
  lastNow s <= t0 -> t0 <= t1 < t0 + actionTimeout -> t1 <= t2 < t1 + commandTimeout -> t2 <= t3 < t2 + actionTimeout ->
  t2 + actionTimeout <= U64MAX -> serial s + 3 <= U64MAX ->
  decodeAck e = MVal (mkAck (mkCommandId 1 8 0) (u8 seq) 0 true) ->
  let ep := epoch (ctlEpoch s) in
  exec ((disconnect t0 &&>
         actionComplete (mkToken ep (serial s + 1)) disconnectCmac true t1 &&>
         firmwareEvent e ep t2 &&>
         actionComplete (mkToken ep (serial s + 3)) disconnectCam true t3) s) tr (r, s') ->
  relies (cooperative seq) tt tr ->
  r = Some true /\ state s' = idle /\ disconnectRequested s' = false /\ associationToken s' = noToken /\ peer s' = noPeer.
Proof.
  intros Hr Hst H0 H1 H2 H3 Hm Hs He ep Hx Hrel. pose proof (station_reachable_inv s g Hr) as Hi.
  assert (Hat : At (state s) s false false (serial s) (lastNow s) (deadline s) (ctlEpoch s)).
  { destruct (resting s g Hi ltac:(destruct Hst as [-> | ->]; reflexivity)).
    split; auto. apply (state_iface s g Hi). destruct Hst as [-> | ->]; reflexivity. }
  cut (wp (cooperative seq) ((disconnect t0 &&>
         actionComplete (mkToken ep (serial s + 1)) disconnectCmac true t1 &&>
         firmwareEvent e ep t2 &&>
         actionComplete (mkToken ep (serial s + 3)) disconnectCam true t3) s) tt (fun x _ => x.1 = Some true /\
    state x.2 = idle /\ disconnectRequested x.2 = false /\ associationToken x.2 = noToken /\ peer x.2 = noPeer)).
  { intros Hw. exact (proj2 (wp_sound _ _ _ _ _ _ Hw Hx Hrel)). }
  change (wpm (cooperative seq) (disconnect t0 &&>
         actionComplete (mkToken ep (serial s + 1)) disconnectCmac true t1 &&>
         firmwareEvent e ep t2 &&>
         actionComplete (mkToken ep (serial s + 3)) disconnectCam true t3) s tt (fun r s' _ => r = Some true /\
    state s' = idle /\ disconnectRequested s' = false /\ associationToken s' = noToken /\ peer s' = noPeer)).
  unfold actionTimeout, commandTimeout in *.
  apply andM_ok. eapply wpm_mono; [apply (disconnect_step seq (state s) s _ _ _ _ t0 Hat Hst); unfold actionTimeout; lia|].
  intros r1 s1 [] (-> & A1 & A2 & A3). split; [reflexivity|].
  apply andM_ok. eapply wpm_mono; [apply (cmac_step seq s1 _ _ _ _ t1 A3 A1 A2); unfold actionTimeout, commandTimeout; lia|].
  intros r2 s2 [] (-> & B1 & B2 & B3). split; [reflexivity|].
  apply andM_ok. eapply wpm_mono; [apply (ack_step seq s2 _ _ _ _ e t2 B3 B1 B2); try exact He; unfold actionTimeout, commandTimeout; lia|].
  intros r3 s3 [] (-> & C1 & C2 & C3). split; [reflexivity|].
  replace (serial s + 1 + 1 + 1) with (serial s + 3) in * by lia.
  apply (cam_step seq s3 _ _ _ _ t3 C3 C1 C2); unfold actionTimeout; lia.
Qed.

(** ** Concrete runs *)

Definition accepting : handler Backend unit := fun d o =>
  (match o return backendAns o with
   | ReserveH2cSequence => (true, 7)
   | ScanFinished _ _ | RecoveryRequired _ _ | OutOfRange => tt
   | InGate | SetTraffic _ | PublishH2c _ _ _ | BeginAction _ | BeginAuthentication _ _ | SendProbe _ _ _
   | CancelProtocol _ | FirmwareRestartVerified _ => true
   end, d).
Definition callOn (s : Controller) (a : api) : Controller := (run accepting (runApi a s) tt).1.2.
Definition drive (l : list api) : Controller := fold_left callOn l newController.

Lemma drive_reachable l : Forall apiOk l -> exists g, reachable (drive l) g.
Proof.
  unfold drive. generalize (ex_intro (reachable newController) _ reach_new). generalize newController.
  induction l as [|a l IH]; intros s [g Hr] Hl; [exists g; exact Hr|]. inversion Hl as [|? ? Ha Hl']; subst.
  apply IH; [|exact Hl']. unfold callOn. rewrite run_trace_run.
  pose proof (run_trace_exec accepting (runApi a s) tt) as He.
  destruct (run_trace accepting (runApi a s) tt) as [[[r s1] d] tr]. cbn [fst snd] in *. eauto using reach_call.
Qed.

Definition sampleAddress (n : Z) : Address := [2; 0; 0; 0; 0; n].
Definition sampleChannel : Channel := mkChannel 0 0 6 6.
Definition sampleInterface : Interface := mkInterface 3 0 0 0 (sampleAddress 1) sampleChannel.
Definition samplePeer : Peer := mkPeer (sampleAddress 9) sampleChannel (zeros 32) 0 true.
Definition ackEvent (f : Z) : FirmwareEvent :=
  mkEvent (mkCommandId 1 0 1) (Some (le32_bytes (ackWord (mkCommandId 1 8 f) 7 0 true))) 4.
Definition tok (n : Z) : Token := mkToken 1 n.

Definition toAuthenticating : list api :=
  [Restart 1 100; Start sampleInterface 200; ActionComplete (tok 1) prepareInterface true 300;
   FirmwareEvent_ (ackEvent 4) 1 400; FirmwareEvent_ (ackEvent 0) 1 500;
   ActionComplete (tok 4) idleTables true 600; Connect samplePeer 700;
   ActionComplete (tok 6) prepareAuthentication true 800].
Definition toLinked : list api :=
  toAuthenticating ++
  [Authenticated (tok 5) (sampleAddress 9) true 900;
   AssociationReceived (tok 5) (mkAssoc (sampleAddress 9) sampleChannel 17) 1000;
   ActionComplete (tok 7) associationCmac true 1100; FirmwareEvent_ (ackEvent 0) 1 1200;
   ActionComplete (tok 9) associationCam true 1300].

Example linked_sample : state (drive toLinked) = associated /\ state (drive (toLinked ++ [AuthorizePort (tok 5) 1400])) = authorized.
Proof. vm_compute. auto. Qed.

Lemma toLinked_ok : Forall apiOk toLinked.
Proof. repeat (apply Forall_cons; split; [vm_compute; repeat split; discriminate|]). apply Forall_nil. exact I. Qed.

Lemma sample_call : exists g tr r s', reachable (drive toLinked) g /\ apiOk (AuthorizePort (tok 5) 1400) /\
  exec (runApi (AuthorizePort (tok 5) 1400) (drive toLinked)) tr (r, s').
Proof.
  destruct (drive_reachable toLinked toLinked_ok) as [g Hg].
  pose proof (run_trace_exec accepting (runApi (AuthorizePort (tok 5) 1400) (drive toLinked)) tt) as He.
  destruct (run_trace accepting _ tt) as [[[r s1] d] tr]. exists g, tr, r, s1. split; [exact Hg|]. split; [|exact He].
  vm_compute. repeat split; discriminate.
Qed.



Definition faultedSample : Controller := drive [Restart 1 100; Tick 50].

Lemma fault_absorbing_witness : exists tr r s', r = Some false /\ s' = faultedSample /\ gateOnly tr.
Proof.
  pose proof (run_trace_exec accepting (runApi (Tick 200) faultedSample) tt) as He.
  destruct (run_trace accepting _ tt) as [[[r s1] d] tr]. exists tr, r, s1.
  apply (fault_absorbing faultedSample (Tick 200) tr r s1); [vm_compute; reflexivity|exact He].
Defined.

Lemma disconnect_completes_witness : exists tr r s', r = Some true /\ state s' = idle /\
  relies (cooperative 7) tt tr.
Proof.
  destruct (drive_reachable toLinked toLinked_ok) as [g Hg].
  set (m := disconnect 2000 &&> actionComplete (mkToken (epoch (ctlEpoch (drive toLinked))) (serial (drive toLinked) + 1)) disconnectCmac true 2100 &&>
     firmwareEvent (ackEvent 0) (epoch (ctlEpoch (drive toLinked))) 2200 &&>
     actionComplete (mkToken (epoch (ctlEpoch (drive toLinked))) (serial (drive toLinked) + 3)) disconnectCam true 2300).
  pose proof (run_trace_exec accepting (m (drive toLinked)) tt) as He.
  assert (Hc : relies (cooperative 7) tt (run_trace accepting (m (drive toLinked)) tt).2) by (vm_compute; repeat split).
  destruct (run_trace accepting (m (drive toLinked)) tt) as [[[r s1] d] tr]. exists tr, r, s1.
  assert (Hst : state (drive toLinked) = associated) by (vm_compute; reflexivity).
  assert (Hln : lastNow (drive toLinked) = 1300) by (vm_compute; reflexivity).
  assert (Hsn : serial (drive toLinked) = 9) by (vm_compute; reflexivity).
  assert (Hak : decodeAck (ackEvent 0) = MVal (mkAck (mkCommandId 1 8 0) (u8 7) 0 true)) by (vm_compute; reflexivity).
  assert (L0 : lastNow (drive toLinked) <= 2000) by lia.
  assert (Ls : serial (drive toLinked) + 3 <= U64MAX) by (rewrite Hsn; unfold U64MAX; lia).
  clear Hln Hsn.
  destruct (disconnect_completes (drive toLinked) g 7 (ackEvent 0) 2000 2100 2200 2300 tr r s1 Hg (or_introl Hst) L0
    ltac:(unfold actionTimeout; lia) ltac:(unfold commandTimeout; lia) ltac:(unfold actionTimeout; lia)
    ltac:(unfold actionTimeout, U64MAX; lia) Ls Hak He Hc) as (H1 & H2 & _). auto.
Defined.

(** The deadline of an authentication is checked again when its result arrives;
    [expire] then begins the disconnection and answers true, so that a refusal
    that arrives late begins a second one: the controller faults, where a timer
    tick at the same time would have led to an orderly disconnection. *)
Example late_refusal_faults :
  let s := drive (toAuthenticating ++ [Authenticated (tok 5) (sampleAddress 9) false 10001000]) in
  let s' := drive (toAuthenticating ++ [Tick 10001000]) in
  state s = faulted /\ error s = backend /\ state s' = disconnectingCmac /\ error s' = timeout.
Proof. vm_compute. auto. Qed.
