(* ===== verification/PciConfig.v ===== *)
(** * PCI configuration space and the report text (src/PciConfig.hpp, src/ReportBuffer.hpp)

    The decoder of a configuration-space dump with its walk of the capability
    list, and the bounded text buffer the reports are written in. *)

From S2P Require Import Prelude.

Definition vendor : Z := 0x10ec.
Definition device : Z := 0xb852.
Definition configSize : Z := 256.

Definition read16 (b : buf) (p : Z) : mres unit Z := rd16 b p.
Definition read32 (b : buf) (p : Z) : mres unit Z :=
  lo ← read16 b p; hi ← read16 b (p + 2); mret (Z.lor lo (Z.shiftl hi 16)).

Inductive CapStatus := none | valid | truncated | malformed | cycle.
#[export] Instance CapStatus_eq_dec : EqDecision CapStatus. Proof. solve_decision. Defined.

Record Snapshot := mkSnapshot {
  vendorID : Z; deviceID : Z; subsystemVendor : Z; subsystemDevice : Z; s_command : Z;
  revision : Z; headerType : Z; pmOffset : Z; pmControlStatus : Z; pmControlReadable : bool;
  bars : list Z; capabilities : Z; capabilityCount : Z; capStatus : CapStatus
}.
#[export] Instance Snapshot_rebuild : Rebuild Snapshot := fun s =>
  mkSnapshot (vendorID s) (deviceID s) (subsystemVendor s) (subsystemDevice s) (s_command s)
    (revision s) (headerType s) (pmOffset s) (pmControlStatus s) (pmControlReadable s)
    (bars s) (capabilities s) (capabilityCount s) (capStatus s).
Definition newSnapshot : Snapshot := mkSnapshot 0 0 0 0 0 0 0 0 0 false (zeros 6) 0 0 none.

Definition isTarget (s : Snapshot) : bool := (vendorID s =? vendor) && (deviceID s =? device).
Definition hasCapability (s : Snapshot) (id : Z) : bool :=
  (id <? 64) && flag (capabilities s) (u64 (Z.shiftl 1 id)).

(** The power-management capability, the first one only. *)
Definition notePm (b : buf) (length offset id : Z) (out : Snapshot) : mres unit Snapshot :=
  if (id =? 1) && (pmOffset out =? 0) then
    let out := out <| pmOffset := offset |> in
    if offset + 6 <=? length then
      v ← read16 b (offset + 4);
      mret (out <| pmControlStatus := v |> <| pmControlReadable := true |>)
    else mret out
  else mret out.

(** The [while (offset)] loop; [MErr] is the fuel running out. *)
Fixpoint walk (fuel : nat) (b : buf) (length offset visited : Z) (out : Snapshot) : mres unit Snapshot :=
  match fuel with
  | O => MErr tt
  | S fuel =>
      if offset =? 0 then mret out else
      if (offset <? 0x40) || (0xfc <? offset) || flag offset 3
      then mret (out <| capStatus := malformed |>) else
      if length <? offset + 2 then mret (out <| capStatus := truncated |>) else
      let bit := u64 (Z.shiftl 1 (offset / 4)) in
      if flag visited bit then mret (out <| capStatus := cycle |>) else
      id ← rd8 b offset;
      out ← notePm b length offset id out;
      next ← rd8 b (offset + 1);
      walk fuel b length next (Z.lor visited bit)
        (out <| capabilities := if id <? 64 then Z.lor (capabilities out) (u64 (Z.shiftl 1 id))
                                else capabilities out |>
             <| capabilityCount := u32 (capabilityCount out + 1) |>)
  end.

(** At most 48 offsets pass the checks; 64 is the width of [visited]. *)
Definition walkFuel : nat := 64.

(** The answer and what [out] holds afterwards. *)
Definition decode (bytes : option buf) (length : Z) : mres unit (bool * Snapshot) :=
  match bytes with
  | None => mret (false, newSnapshot)
  | Some b =>
      if length <? 0x40 then mret (false, newSnapshot) else
      v ← read16 b 0; d ← read16 b 2; c ← read16 b 4; r ← rd8 b 8; h ← rd8 b 0x0e;
      let t := Z.land h 0x7f in
      if negb (t =? 0) then mret (false, mkSnapshot v d 0 0 c r t 0 0 false (zeros 6) 0 0 none) else
      sv ← read16 b 0x2c; sd ← read16 b 0x2e;
      bs ← for_m 6 0 (fun i l => w ← read32 b (0x10 + i * 4); mret (l ++ [w])) [];
      st ← read16 b 6;
      if negb (flag st 0x10) then mret (true, mkSnapshot v d sv sd c r t 0 0 false bs 0 0 none) else
      o ← rd8 b 0x34;
      out ← walk walkFuel b length o 0 (mkSnapshot v d sv sd c r t 0 0 false bs 0 0 valid);
      mret (true, out)
  end.

(** ** The report buffer *)

Section report.
(** The template parameter. *)
Context (N : Z).

Record ReportBuffer := mkReport { bytes : buf; used : Z; clipped : bool }.
#[export] Instance ReportBuffer_rebuild : Rebuild ReportBuffer := fun r =>
  mkReport (bytes r) (used r) (clipped r).
Definition newReport : ReportBuffer := mkReport (zeros N) 0 false.

(** [append] of a C string, given by its characters before the terminator;
    [None] is the null pointer. *)
Fixpoint appendLoop (s : buf) (r : ReportBuffer) : mres unit ReportBuffer :=
  match s with
  | [] => mret r
  | c :: s =>
      if N <=? used r + 1 then mret (r <| clipped := true |>) else
      b ← store (bytes r) (used r) [c];
      appendLoop s (r <| bytes := b |> <| used := used r + 1 |>)
  end.
Definition append (s : option buf) (r : ReportBuffer) : mres unit ReportBuffer :=
  match s with
  | None => mret r
  | Some s => r ← appendLoop s r; b ← store (bytes r) (used r) [0]; mret (r <| bytes := b |>)
  end.

(** The characters of "0123456789abcdef". *)
Definition digit (n : Z) : Z := if n <? 10 then 48 + n else 87 + n.
Definition hexDigits (v : Z) : buf := [digit (Z.shiftr v 4); digit (Z.land v 15)].
Definition hex (data : buf) (count : Z) (r : ReportBuffer) : mres unit ReportBuffer :=
  for_m (Z.to_nat count) 0 (fun i r => v ← rd8 data i; append (Some (hexDigits v)) r) r.
End report.

(** ** The capability list *)

(** A place the walk accepts as an entry. *)
Definition entryOk (length o : Z) : Prop := 0x40 <= o <= 0xfc /\ o mod 4 = 0 /\ o + 2 <= length.

(** The entries [l] linked from [o], up to the link [e]. *)
Fixpoint follows (b : buf) (length o : Z) (l : list Z) (e : Z) : Prop :=
  match l with
  | [] => e = o
  | x :: l => x = o /\ entryOk length o /\ follows b length (byte_at b (o + 1)) l e
  end.

(** Why the walk of [l] stops at [e]. *)
Definition ended (length : Z) (l : list Z) (e : Z) (st : CapStatus) : Prop :=
  match st with
  | none => False
  | valid => e = 0
  | malformed => e <> 0 /\ ~ (0x40 <= e <= 0xfc /\ e mod 4 = 0)
  | truncated => 0x40 <= e <= 0xfc /\ e mod 4 = 0 /\ length < e + 2
  | cycle => e ∈ l
  end.

(** The first power-management entry, 0 without one. *)
Definition firstPm (b : buf) (l : list Z) : Z := default 0 (List.find (fun o => byte_at b o =? 1) l).

(** What the entries [l] leave in the snapshot. *)
Record recorded (b : buf) (length : Z) (l : list Z) (out : Snapshot) : Prop := {
  rec_count : capabilityCount out = zlen l;
  rec_caps : forall id, 0 <= id -> Z.testbit (capabilities out) id = true <->
    id < 64 /\ exists o, o ∈ l /\ byte_at b o = id;
  rec_pm : pmOffset out = firstPm b l;
  rec_pmReadable : pmControlReadable out = negb (firstPm b l =? 0) && (firstPm b l + 6 <=? length);
  rec_pmControl : pmControlStatus out =
    if pmControlReadable out then le16_at b (firstPm b l + 4) else 0
}.

(** The members the walk does not write. *)
Definition header (s : Snapshot) : Z * Z * Z * Z * Z * (Z * Z * list Z) :=
  (vendorID s, deviceID s, subsystemVendor s, subsystemDevice s, s_command s,
   (revision s, headerType s, bars s)).

Record walked (b : buf) (length : Z) (l : list Z) (visited : Z) (out : Snapshot) : Prop := {
  wk_nodup : NoDup l;
  wk_ok : Forall (entryOk length) l;
  wk_visited : forall k, 0 <= k -> Z.testbit visited k = true <-> exists o, o ∈ l /\ o / 4 = k;
  wk_rec : recorded b length l out;
  wk_status : capStatus out = valid
}.

Lemma aligned_flag o : 0 <= o < 256 -> flag o 3 = negb (o mod 4 =? 0).
Proof. intros Ho. unfold flag. change 3 with (Z.ones 2). rewrite Z.land_ones by lia. reflexivity. Qed.

(** There is room for 48 entries only. *)
Lemma entries_bound length l : NoDup l -> Forall (entryOk length) l -> (List.length l <= 48)%nat.
Proof.
  intros Hn Hf. assert (Hd : NoDup (map (fun o => o / 4) l)).
  { apply NoDup_fmap_2_strong; [|exact Hn]. intros x y Hx Hy Hxy.
    rewrite Forall_forall in Hf. destruct (Hf x Hx) as (?&?&?), (Hf y Hy) as (?&?&?).
    Z.div_mod_to_equations. lia. }
  assert (Hi : forall x, x ∈ map (fun o => o / 4) l -> x ∈ seqZ 16 48).
  { intros x Hx. apply list_elem_of_fmap in Hx as (o & -> & Ho). apply elem_of_seqZ.
    rewrite Forall_forall in Hf. destruct (Hf o Ho) as (?&?&?). Z.div_mod_to_equations. lia. }
  pose proof (submseteq_length _ _ (NoDup_submseteq _ _ Hd Hi)) as Hl.
  rewrite length_map, length_seqZ in Hl. lia.
Qed.

Lemma firstPm_snoc b l o :
  firstPm b (l ++ [o]) = if existsb (fun o => byte_at b o =? 1) l then firstPm b l
                         else if byte_at b o =? 1 then o else 0.
Proof.
  unfold firstPm. induction l as [|x l IH]; simpl; [destruct (byte_at b o =? 1); reflexivity|].
  destruct (byte_at b x =? 1); [reflexivity|exact IH].
Qed.

Lemma firstPm_none b length l : Forall (entryOk length) l ->
  (firstPm b l =? 0) = negb (existsb (fun o => byte_at b o =? 1) l).
Proof.
  unfold firstPm. induction l as [|x l IH]; intros Hf; [reflexivity|].
  inversion_clear Hf as [|? ? Hx Hl]. simpl. destruct (byte_at b x =? 1); simpl; [|apply IH; exact Hl].
  destruct Hx. lia.
Qed.

Lemma firstPm_range b length l : Forall (entryOk length) l -> firstPm b l <> 0 -> entryOk length (firstPm b l).
Proof.
  unfold firstPm. induction l as [|x l IH]; simpl; intros Hf Hn; [congruence|].
  inversion_clear Hf. destruct (byte_at b x =? 1); simpl in *; [assumption|auto].
Qed.

(** One entry. *)
Lemma notePm_spec b length l visited out o : length <= zlen b -> walked b length l visited out -> entryOk length o ->
  exists out', notePm b length o (byte_at b o) out = MVal out' /\ header out' = header out /\
    capStatus out' = valid /\ capabilityCount out' = capabilityCount out /\ capabilities out' = capabilities out /\
    pmOffset out' = firstPm b (l ++ [o]) /\
    pmControlReadable out' = negb (firstPm b (l ++ [o]) =? 0) && (firstPm b (l ++ [o]) + 6 <=? length) /\
    pmControlStatus out' = if pmControlReadable out' then le16_at b (firstPm b (l ++ [o]) + 4) else 0.
Proof.
  intros Hl [Hn Hf Hv [Rc Rcap Rp Rr Rs] Hst] Ho. unfold notePm. rewrite firstPm_snoc.
  pose proof (firstPm_none b length l Hf) as Hp. rewrite Rp, Hp.
  destruct (existsb _ l) eqn:E; simpl negb in *; rewrite ?andb_false_r, ?andb_true_r.
  { exists out. rewrite <- Rr, <- Rp. rewrite Rs, Rp. auto 10. }
  destruct (byte_at b o =? 1) eqn:E1.
  - destruct Ho as (Ho & Ha & Hb). replace (o =? 0) with false by lia. simpl negb. rewrite andb_true_l.
    destruct (o + 6 <=? length) eqn:E6.
    + unfold read16. rewrite rd16_in by lia. cbn [mbind mres_bind mret mres_ret]. eexists. split; [reflexivity|].
      cbn. auto 10.
    + eexists. split; [reflexivity|]. cbn.
      rewrite Hp in Rr. cbn in Rr. rewrite Rr in Rs. rewrite Rr. auto 10.
  - exists out. rewrite Hp in Rr. cbn in Rr. rewrite Rr in Rs. rewrite Rr. cbn.
    apply Z.eqb_eq in Hp. rewrite Rp, Hp. auto 10.
Qed.

(** The snapshot after one more entry. *)
Definition nextSnapshot (id : Z) (out : Snapshot) : Snapshot :=
  out <| capabilities := if id <? 64 then Z.lor (capabilities out) (u64 (Z.shiftl 1 id)) else capabilities out |>
      <| capabilityCount := u32 (capabilityCount out + 1) |>.

Lemma mem_snoc (P : Z -> Prop) l o : (exists x, x ∈ l ++ [o] /\ P x) <-> (exists x, x ∈ l /\ P x) \/ P o.
Proof.
  split.
  - intros (x & [Hx| ->%list_elem_of_singleton]%elem_of_app & HP); [left; eauto|right; exact HP].
  - intros [(x & Hx & HP)|HP]; [exists x|exists o]; (split; [|exact HP]); apply elem_of_app; [left; exact Hx|].
    right. apply list_elem_of_singleton. reflexivity.
Qed.

Lemma caps_snoc b l caps o : 0 <= byte_at b o ->
  (forall id, 0 <= id -> Z.testbit caps id = true <-> id < 64 /\ exists o, o ∈ l /\ byte_at b o = id) ->
  forall id, 0 <= id ->
    Z.testbit (if byte_at b o <? 64 then Z.lor caps (u64 (Z.shiftl 1 (byte_at b o))) else caps) id = true <->
    id < 64 /\ exists x, x ∈ l ++ [o] /\ byte_at b x = id.
Proof.
  intros Hr Hc id Hid.
  rewrite (mem_snoc (fun x => byte_at b x = id)). destruct (Z.ltb_spec (byte_at b o) 64).
  - rewrite lor_bit by lia. rewrite Hc by lia. intuition lia.
  - rewrite Hc by lia. intuition lia.
Qed.

Lemma walked_step b length l visited out o : length <= zlen b -> walked b length l visited out -> entryOk length o ->
  flag visited (u64 (Z.shiftl 1 (o / 4))) = false ->
  exists out', notePm b length o (byte_at b o) out = MVal out' /\
    header (nextSnapshot (byte_at b o) out') = header out /\
    walked b length (l ++ [o]) (Z.lor visited (u64 (Z.shiftl 1 (o / 4)))) (nextSnapshot (byte_at b o) out').
Proof.
  intros Hl Hw Ho Hf. destruct (notePm_spec b length l visited out o Hl Hw Ho)
    as (out' & E & Hh & Hst & Hc & Hcap & Hpm & Hr & Hs).
  destruct Hw as [Wn Wf Wv [Rc Rcap Rp Rr Rs] Wst]. exists out'. split; [exact E|]. split; [exact Hh|].
  assert (Hk : 0 <= o / 4 < 64) by (destruct Ho as (?&?&?); Z.div_mod_to_equations; lia).
  pose proof (entries_bound length l Wn Wf) as Hlen.
  split.
  - apply NoDup_app. split; [exact Wn|]. split; [|apply NoDup_singleton].
    intros x Hx ->%list_elem_of_singleton. rewrite flag_bit in Hf by lia.
    rewrite (proj2 (Wv (o / 4) ltac:(lia))) in Hf; [discriminate|eauto].
  - apply Forall_app. split; [exact Wf|]. constructor; [exact Ho|constructor].
  - intros k Hk'. rewrite lor_bit by lia. rewrite Wv by lia.
    rewrite (mem_snoc (fun x => x / 4 = k)). reflexivity.
  - split.
    + cbn. rewrite Hc, Rc, zlen_app. apply u32_small. unfold in_u32, zlen in *. simpl. lia.
    + cbn [nextSnapshot capabilities update_field]. cbn. rewrite Hcap. apply caps_snoc; [|exact Rcap].
      pose proof (byte_at_range b o) as H; unfold in_u8 in H; lia.
    + exact Hpm.
    + exact Hr.
    + exact Hs.
  - exact Hst.
Qed.

Lemma walk_S fuel b length o visited out :
  walk (S fuel) b length o visited out =
  if o =? 0 then MVal out else
  if (o <? 0x40) || (0xfc <? o) || flag o 3 then MVal (out <| capStatus := malformed |>) else
  if length <? o + 2 then MVal (out <| capStatus := truncated |>) else
  if flag visited (u64 (Z.shiftl 1 (o / 4))) then MVal (out <| capStatus := cycle |>) else
  id ← rd8 b o; out ← notePm b length o id out; next ← rd8 b (o + 1);
  walk fuel b length next (Z.lor visited (u64 (Z.shiftl 1 (o / 4)))) (nextSnapshot id out).
Proof. reflexivity. Qed.

Lemma walk_spec b length fuel o l visited out : length <= zlen b -> 0 <= o < 256 -> walked b length l visited out ->
  (48 < fuel + List.length l)%nat ->
  exists l' e out', walk fuel b length o visited out = MVal out' /\ follows b length o l' e /\
    NoDup (l ++ l') /\ ended length (l ++ l') e (capStatus out') /\ recorded b length (l ++ l') out' /\
    header out' = header out.
Proof.
  intros Hb. revert o l visited out. induction fuel as [|fuel IH]; intros o l visited out Ho Hw Hfuel.
  { pose proof (entries_bound length l (wk_nodup _ _ _ _ _ Hw) (wk_ok _ _ _ _ _ Hw)). lia. }
  rewrite walk_S, (aligned_flag o Ho).
  assert (Hstop : forall st, ended length l o st ->
    exists l' e out', MVal (E:=unit) (out <| capStatus := st |>) = MVal out' /\ follows b length o l' e /\
      NoDup (l ++ l') /\ ended length (l ++ l') e (capStatus out') /\ recorded b length (l ++ l') out' /\
      header out' = header out).
  { intros st He. exists [], o, (out <| capStatus := st |>). rewrite app_nil_r.
    split; [reflexivity|]. split; [reflexivity|]. split; [apply Hw|]. split; [exact He|].
    split; [|reflexivity]. destruct Hw as [_ _ _ [Rc Rcap Rp Rr Rs] _]. split; assumption. }
  destruct (Z.eqb_spec o 0) as [->|H0].
  { destruct (Hstop valid eq_refl) as (l' & e & out' & E & H). exists l', e, out'.
    replace (out <| capStatus := valid |>) with out in E; [split; [exact E|exact H]|].
    pose proof (wk_status _ _ _ _ _ Hw) as Hs. destruct out; cbn in *. congruence. }
  destruct ((o <? 64) || (252 <? o) || negb (o mod 4 =? 0)) eqn:E1.
  { apply Hstop. split; [exact H0|]. lia. }
  destruct (Z.ltb_spec length (o + 2)).
  { apply Hstop. cbn. lia. }
  assert (Hok : entryOk length o) by (unfold entryOk; lia).
  assert (Hk : 0 <= o / 4 < 64) by (Z.div_mod_to_equations; lia).
  destruct (flag visited (u64 (Z.shiftl 1 (o / 4)))) eqn:Ef.
  { apply Hstop. cbn. rewrite flag_bit in Ef by lia.
    apply (wk_visited _ _ _ _ _ Hw) in Ef as (x & Hx & Hxo); [|lia].
    pose proof (wk_ok _ _ _ _ _ Hw) as Hf. rewrite Forall_forall in Hf. destruct (Hf x Hx) as (?&?&?).
    replace o with x; [exact Hx|]. destruct Hok as (?&?&?). Z.div_mod_to_equations. lia. }
  destruct (walked_step b length l visited out o Hb Hw Hok Ef) as (out1 & E & Hh & Hw1).
  destruct Hok as (?&?&?). rewrite (rd8_in b o) by lia. simpl mbind.
  rewrite E. simpl mbind. rewrite rd8_in by lia. simpl mbind.
  destruct (IH (byte_at b (o + 1)) (l ++ [o]) _ _ (byte_at_range b (o + 1)) Hw1) as (l' & e & out' & E2 & Hf & Hn & He & Hr & Hh2).
  { rewrite length_app. simpl. lia. }
  rewrite <- app_assoc in Hn, He, Hr.
  exists (o :: l'), e, out'. split; [exact E2|]. split; [simpl; unfold entryOk; auto|].
  split; [exact Hn|]. split; [exact He|]. split; [exact Hr|]. congruence.
Qed.

Lemma read16_in b p : 0 <= p -> p + 2 <= zlen b -> read16 b p = MVal (le16_at b p).
Proof. apply rd16_in. Qed.

Lemma read32_in b p : 0 <= p -> p + 4 <= zlen b -> read32 b p = MVal (le32_at b p).
Proof.
  intros. unfold read32. rewrite !read16_in by lia. simpl. f_equal. unfold le16_at, le32_at.
  pose proof (byte_at_range b p). pose proof (byte_at_range b (p + 1)).
  pose proof (byte_at_range b (p + 2)). pose proof (byte_at_range b (p + 3)).
  rewrite le32_of_sum, !le16_of_sum by assumption.
  rewrite (lor_disjoint_add 16) by zlia. replace (p + 2 + 1) with (p + 3) by lia. change (2 ^ 16) with 65536. lia.
Qed.

Lemma bars_in b : 64 <= zlen b ->
  for_m 6 0 (fun i l => w ← read32 b (0x10 + i * 4); mret (l ++ [w])) [] =
  MVal (map (fun i => le32_at b (0x10 + i * 4)) (seqZ 0 6)).
Proof. intros. simpl. rewrite !read32_in by lia. reflexivity. Qed.

Lemma recorded_start b length out : capabilities out = 0 -> capabilityCount out = 0 ->
  pmOffset out = 0 -> pmControlStatus out = 0 -> pmControlReadable out = false -> recorded b length [] out.
Proof.
  intros H2 H3 H4 H5 H6. split; [exact H3| |exact H4|exact H6|rewrite H6; exact H5].
  intros id Hid. rewrite H2, Z.testbit_0_l. split; [discriminate|]. intros (_ & o & Ho & _). inversion Ho.
Qed.

Lemma walked_start b length out : capStatus out = valid -> recorded b length [] out -> walked b length [] 0 out.
Proof.
  intros H1 H2. split; [constructor|constructor| |exact H2|exact H1].
  intros k Hk. rewrite Z.testbit_0_l. split; [discriminate|]. intros (o & Ho & _). inversion Ho.
Qed.

(** What a dump says of the device, apart from its capabilities. *)
Definition headerOf (b : buf) : Z * Z * Z * Z * Z * (Z * Z * list Z) :=
  (le16_at b 0, le16_at b 2, le16_at b 0x2c, le16_at b 0x2e, le16_at b 4,
   (byte_at b 8, Z.land (byte_at b 0x0e) 0x7f, map (fun i => le32_at b (0x10 + i * 4)) (seqZ 0 6))).

Definition decoded (b : buf) (length : Z) (r : bool * Snapshot) : Prop :=
  r.1 = (64 <=? length) && (Z.land (byte_at b 0x0e) 0x7f =? 0) /\
  (r.1 = false -> capStatus r.2 = none) /\
  (r.1 = true -> header r.2 = headerOf b /\
    if flag (le16_at b 6) 0x10
    then exists l e, follows b length (byte_at b 0x34) l e /\ NoDup l /\ ended length l e (capStatus r.2) /\
      recorded b length l r.2
    else capStatus r.2 = none /\ recorded b length [] r.2).

Lemma decode_spec b length : 0 <= length <= zlen b ->
  exists r, decode (Some b) length = MVal r /\ decoded b length r.
Proof.
  intros Hl. unfold decode. destruct (Z.ltb_spec length 64).
  { eexists. split; [reflexivity|]. unfold decoded. replace (64 <=? length) with false by lia. cbn. split; [reflexivity|]. split; [reflexivity|discriminate]. }
  rewrite !read16_in by lia. rewrite (rd8_in b 8), (rd8_in b 14), (rd8_in b 52) by lia. cbn [mbind mres_bind]. cbv zeta.
  unfold decoded. replace (64 <=? length) with true by lia. rewrite andb_true_l.
  destruct (Z.eqb_spec (Z.land (byte_at b 0x0e) 0x7f) 0) as [E|E]; cbn [negb].
  2: { eexists. split; [reflexivity|]. cbn. split; [reflexivity|]. split; [reflexivity|discriminate]. }
  rewrite bars_in by lia. cbn [mbind mres_bind]. destruct (flag (le16_at b 6) 16); cbn [negb].
  2: { eexists. split; [reflexivity|]. cbn [fst snd].
       split; [reflexivity|]. split; [discriminate|]. intros _. split; [unfold header, headerOf; cbn; rewrite E; reflexivity|]. split; [reflexivity|].
       apply recorded_start; reflexivity. }
  match goal with |- context [walk _ _ _ _ _ ?s] => set (out := s) end.
  destruct (walk_spec b length walkFuel (byte_at b 52) [] 0 out) as (l & e & out' & -> & Hf & Hn & He & Hr & Hh).
  { lia. }
  { apply byte_at_range. }
  { apply walked_start; [reflexivity|]. apply recorded_start; reflexivity. }
  { cbn. lia. }
  exists (true, out'). split; [reflexivity|]. cbn [fst snd].
  split; [reflexivity|]. split; [discriminate|]. intros _. split; [rewrite Hh; unfold header, headerOf; cbn; rewrite E; reflexivity|]. exists l, e. auto.
Qed.

(** decoding a configuration-space dump always ends and never reads past
    the bytes it was given, for every content and every length within the
    buffer.  A dump is accepted exactly when it holds a whole endpoint header;
    then the identity and the six base registers are the ones of the header,
    and the capability walk has followed the links from the list head without
    taking any entry twice, has stopped for the reason it reports (end of
    list, a link outside the allowed offsets, an entry past the end, a loop),
    has counted the entries, recorded exactly their identifiers, and kept the
    power-management state of the first entry of that kind. *)
Theorem decode_total b length : 0 <= length <= zlen b ->
  exists r, decode (Some b) length = MVal r /\ decoded b length r.
Proof. exact (decode_spec b length). Qed.

(** ** The report buffer *)

Section reports.
Context (N : Z) (HN : 0 < N).

(** The buffer after the characters [t], apart from the terminator. *)
Record holds (t : buf) (r : ReportBuffer) : Prop := {
  h_size : zlen (bytes r) = N;
  h_used : used r = Z.min (zlen t) (N - 1);
  h_text : take (Z.to_nat (used r)) (bytes r) = take (Z.to_nat (N - 1)) t;
  h_clipped : clipped r = (N - 1 <? zlen t)
}.
Definition terminated (r : ReportBuffer) : Prop := byte_at (bytes r) (used r) = 0.

Lemma take_blit_last (b : buf) p c : 0 <= p < zlen b ->
  take (Z.to_nat (p + 1)) (blit b p [c]) = take (Z.to_nat p) b ++ [c].
Proof.
  intros Hp. unfold blit, zlen in *.
  assert (Ht : List.length (take (Z.to_nat p) b) = Z.to_nat p) by (rewrite length_take; lia).
  rewrite take_app, (take_ge (take (Z.to_nat p) b)) by lia. f_equal. rewrite Ht. replace (Z.to_nat (p + 1) - Z.to_nat p)%nat with 1%nat by lia.
  reflexivity.
Qed.

Lemma take_blit_before (b : buf) p c : 0 <= p < zlen b -> take (Z.to_nat p) (blit b p [c]) = take (Z.to_nat p) b.
Proof.
  intros Hp. unfold blit, zlen in *. rewrite take_app_length'; [reflexivity|]. rewrite length_take. lia.
Qed.

Lemma appendLoop_spec s t r : holds t r -> mspec (appendLoop N s r) (holds (t ++ s)).
Proof.
  revert t r. induction s as [|c s IH]; intros t r [H1 H2 H3 H4]; simpl appendLoop.
  { rewrite app_nil_r. apply mspec_ret. split; assumption. }
  pose proof (zlen_nonneg t) as Ht. destruct (Z.leb_spec N (used r + 1)).
  - apply mspec_ret. assert (HN1 : N - 1 <= zlen t) by lia.
    split; cbn [bytes used clipped update_field]; rewrite ?zlen_app.
    + exact H1.
    + pose proof (zlen_nonneg (c :: s)). cbn. lia.
    + cbn. rewrite H3, take_app_le; [reflexivity|]. unfold zlen in *. lia.
    + cbn [clipped update_field]. symmetry. apply Z.ltb_lt. unfold zlen in *. cbn [List.length]. lia.
  - mstep. apply store_spec; [lia|change (zlen [c]) with 1; lia|].
    replace (t ++ c :: s) with ((t ++ [c]) ++ s) by (rewrite <- app_assoc; reflexivity).
    apply IH. assert (HN1 : used r = zlen t) by lia. split; cbn.
    + rewrite zlen_blit; [exact H1|lia|change (zlen [c]) with 1; lia].
    + rewrite zlen_app. change (zlen [c]) with 1. lia.
    + rewrite take_blit_last by lia. rewrite H3, !take_ge; [reflexivity| |].
      * unfold zlen in *. rewrite length_app. simpl. lia.
      * unfold zlen in *. lia.
    + rewrite H4, zlen_app. change (zlen [c]) with 1. lia.
Qed.

Lemma append_spec s t r : holds t r -> terminated r ->
  mspec (append N s r) (fun r' => holds (t ++ default [] s) r' /\ terminated r').
Proof.
  intros Hh Ht. destruct s as [s|]; simpl append.
  2: { apply mspec_ret. cbn. rewrite app_nil_r. auto. }
  mstep. eapply mspec_mono; [apply appendLoop_spec; exact Hh|]. intros r1 [H1 H2 H3 H4].
  pose proof (zlen_nonneg (t ++ s)). mstep. apply store_spec; [lia|change (zlen [0]) with 1; lia|].
  apply mspec_ret. split.
  - split; cbn; [|exact H2| |exact H4].
    + rewrite zlen_blit; [exact H1|lia|change (zlen [0]) with 1; lia].
    + rewrite take_blit_before by lia. exact H3.
  - unfold terminated. cbn. rewrite byte_at_blit by (try (change (zlen [0]) with 1); lia).
    change (zlen [0]) with 1. rewrite Z.leb_refl, (proj2 (Z.ltb_lt (used r1) (used r1 + 1))) by lia. cbn [andb].
    rewrite Z.sub_diag. reflexivity.
Qed.

(** The text of [hex] for the first [n] bytes of [data]. *)
Definition hexText (data : buf) (n : Z) : buf := concat (map (fun i => hexDigits (byte_at data i)) (seqZ 0 n)).

Lemma hexText_S data n : 0 <= n -> hexText data (n + 1) = hexText data n ++ hexDigits (byte_at data n).
Proof.
  intros Hn. unfold hexText. rewrite seqZ_app, map_app, concat_app by lia. f_equal.
Qed.

Lemma hex_spec data n t r : 0 <= n <= zlen data -> holds t r -> terminated r ->
  mspec (hex N data n r) (fun r' => holds (t ++ hexText data n) r' /\ terminated r').
Proof.
  intros Hn Hh Ht. unfold hex.
  apply (mspec_for_m (fun i r => holds (t ++ hexText data i) r /\ terminated r)); [lia| | |auto].
  { unfold hexText. simpl. rewrite app_nil_r. auto. }
  intros j r1 Hj [H1 H2]. mstep. apply rd8_spec; [lia|].
  rewrite hexText_S, app_assoc by lia. apply (append_spec (Some _)); assumption.
Qed.

(** What a report is built with. *)
Inductive reportOp := Text (s : option buf) | Hex (data : buf) (count : Z).
Definition runOp (o : reportOp) : ReportBuffer -> mres unit ReportBuffer :=
  match o with Text s => append N s | Hex data n => hex N data n end.
Definition opText (o : reportOp) : buf :=
  match o with Text s => default [] s | Hex data n => hexText data n end.
Definition opOk (o : reportOp) : Prop :=
  match o with Text _ => True | Hex data n => 0 <= n <= zlen data end.
Fixpoint write (l : list reportOp) (r : ReportBuffer) : mres unit ReportBuffer :=
  match l with [] => mret r | o :: l => r ← runOp o r; write l r end.

Lemma write_spec l t r : Forall opOk l -> holds t r -> terminated r ->
  mspec (write l r) (fun r' => holds (t ++ concat (map opText l)) r' /\ terminated r').
Proof.
  intros Hl. revert t r. induction Hl as [|o l Ho Hl IH]; intros t r Hh Ht; simpl.
  { rewrite app_nil_r. auto. }
  apply mspec_bind. rewrite app_assoc.
  apply (mspec_mono _ (fun r' => holds (t ++ opText o) r' /\ terminated r')).
  - destruct o as [s|data n]; [apply append_spec|apply hex_spec]; assumption.
  - intros r1 [H1 H2]. apply IH; assumption.
Qed.

Lemma never_appendLoop s r : never tt (appendLoop N s r).
Proof. revert r. induction s as [|c s IH]; intros r; simpl appendLoop; mnever; apply IH. Qed.
Lemma never_append s r : never tt (append N s r).
Proof. destruct s; simpl append; mnever. apply never_appendLoop. Qed.
Lemma never_write l r : never tt (write l r).
Proof.
  revert r. induction l as [|o l IH]; intros r; simpl write; [mnever|].
  apply never_bind; [|intros r1; apply IH]. destruct o; simpl runOp; [apply never_append|].
  unfold hex. mnever. apply never_append.
Qed.

Lemma newReport_holds : holds [] (newReport N) /\ terminated (newReport N).
Proof.
  split; [split; cbn|].
  - apply zlen_zeros. lia.
  - symmetry. apply Z.min_l. change (zlen (@nil Z)) with 0. lia.
  - rewrite take_nil. reflexivity.
  - symmetry. apply Z.ltb_ge. change (zlen (@nil Z)) with 0. lia.
  - unfold terminated, byte_at. cbn. unfold zeros. rewrite nth_lookup. destruct (_ !! _) eqn:E; [|reflexivity].
    apply lookup_replicate in E as [-> _]. reflexivity.
Qed.

(** a report is always a string of the buffer's size: whatever texts and
    hex dumps are written, in any number, no write leaves the buffer, the text
    is the longest prefix of all that was written that leaves room for the
    terminator, the terminator follows it, and the clipping mark is set
    exactly when something was left out. *)
Theorem report_bounded l : Forall opOk l ->
  exists r, write l (newReport N) = MVal r /\ holds (concat (map opText l)) r /\ terminated r.
Proof.
  intros Hl. destruct newReport_holds as [H1 H2]. pose proof (write_spec l [] _ Hl H1 H2) as Hw.
  pose proof (never_write l (newReport N)) as Hn.
  destruct (write l (newReport N)) as [r|[]|]; [exists r; auto|contradiction Hn; reflexivity|contradiction].
Qed.
End reports.

(** ** Concrete runs *)

(** A dump with a power-management entry at 0x40 and a second entry that links
    back to the first. *)
Definition sampleDump : buf :=
  le16_bytes 0x10ec ++ le16_bytes 0xb852 ++ [7; 0; 0x10; 0; 0] ++ zeros 0x2b ++ [0x40] ++ zeros 11 ++
  [1; 0x50; 0; 0; 8; 0] ++ zeros 10 ++ [5; 0x40] ++ zeros 0xae.

Example sampleDump_cycle :
  exists s, decode (Some sampleDump) 256 = MVal (true, s) /\ isTarget s = true /\ capStatus s = cycle /\
    capabilityCount s = 2 /\ pmOffset s = 0x40 /\ pmControlStatus s = 8 /\ hasCapability s 5 = true.
Proof. eexists. vm_compute. repeat split; reflexivity. Qed.

Lemma decode_total_witness : exists r, decode (Some sampleDump) 256 = MVal r /\ decoded sampleDump 256 r.
Proof. apply (decode_total sampleDump 256). vm_compute. split; discriminate. Defined.

Lemma report_bounded_witness :
  exists r, write 8 [Text (Some [72; 105]); Text None; Hex [0xab; 0x01] 2; Text (Some [33; 33])] (newReport 8) = MVal r /\
    holds 8 [72; 105; 97; 98; 48; 49; 33; 33] r /\ terminated r.
Proof.
  apply (report_bounded 8 eq_refl [Text (Some [72; 105]); Text None; Hex [0xab; 0x01] 2; Text (Some [33; 33])]).
  repeat constructor; vm_compute; discriminate.
Defined.
