(* ===== verification/MmioTransaction.v ===== *)
(** * The register-window transaction and the crystal probe
    (src/MmioProbe.hpp, src/XtalProbe.hpp)

    [sampleMmio] opens the register window of a validated device, samples it,
    runs an extension inside, and closes the window on every path.
    [sampleXtal] is the first extension: one indirect read command. *)

From S2P Require Import Prelude Prog.
From S2P Require Import PciConfig.
From S2P Require Import Device.

Definition sysCfg1 : Z := 0x00f0.
Definition sysStatus1 : Z := 0x00f4.
Definition memoryEnable : Z := 2.
Definition busMasterEnable : Z := 4.

Inductive MmioStatus :=
| wrongTarget | unsafeConfig | notD0 | busMasterActive | badBar
| resourceMismatch | mapFailed | enableFailed | sampled | restoreFailed.
#[export] Instance MmioStatus_eq_dec : EqDecision MmioStatus. Proof. solve_decision. Defined.

Definition statusName (s : MmioStatus) : string :=
  match s with
  | wrongTarget => "SKIPPED_WRONG_TARGET"
  | unsafeConfig => "SKIPPED_INVALID_PM_CAPABILITY"
  | notD0 => "SKIPPED_NOT_D0"
  | busMasterActive => "SKIPPED_BUS_MASTER_ACTIVE"
  | badBar => "SKIPPED_INVALID_BAR2"
  | resourceMismatch => "SKIPPED_RESOURCE_MISMATCH"
  | mapFailed => "MAP_FAILED"
  | enableFailed => "MEMORY_ENABLE_FAILED"
  | sampled => "SAMPLED"
  | restoreFailed => "COMMAND_RESTORE_FAILED"
  end.

Record MmioResult := mkMmio {
  status : MmioStatus; commandBefore : Z; commandDuring : Z; commandAfter : Z;
  base : Z; windowLength : Z; cfgFirst : Z; cfgSecond : Z; sysStatus : Z; reads : Z;
  memoryBitChanged : bool; commandRestored : bool
}.
#[export] Instance MmioResult_rebuild : Rebuild MmioResult := fun r =>
  mkMmio (status r) (commandBefore r) (commandDuring r) (commandAfter r) (base r) (windowLength r)
    (cfgFirst r) (cfgSecond r) (sysStatus r) (reads r) (memoryBitChanged r) (commandRestored r).
Definition newMmio : MmioResult := mkMmio wrongTarget 0 0 0 0 0 0 0 0 0 false false.

Definition stableValue (r : MmioResult) : bool :=
  (reads r =? 3) && (cfgFirst r =? cfgSecond r) && negb (cfgFirst r =? 0) &&
  negb (cfgFirst r =? 0xffffffff) && negb (cfgFirst r =? 0xdeadbeef).

Section sample.
(** What the extension produces. *)
Context {X : Type}.

(** The transaction's locals: its result and what the extension returned. *)
Record MState := mkM { m_res : MmioResult; m_ext : option X }.
Definition T (A : Type) : Type := M Device MState A.
Definition onM (f : MmioResult -> MmioResult) : T unit := modify (fun s => mkM (f (m_res s)) (m_ext s)).
Definition getR : T MmioResult := gets m_res.
Definition setSt (st : MmioStatus) : T unit := onM (fun r => r <| status := st |>).
(** [r.status = st; if (bad) return r;] *)
Definition gateOn (st : MmioStatus) (bad : bool) : T unit := setSt st;; when bad brk.

(** The three register samples and the extension. *)
Definition sampleRegisters (extension : MmioResult -> prog Device X) : T unit :=
  a ← read32 sysCfg1; onM (fun r => r <| cfgFirst := a |> <| reads := u32 (reads r + 1) |>);;
  b ← read32 sysStatus1; onM (fun r => r <| sysStatus := b |> <| reads := u32 (reads r + 1) |>);;
  c ← read32 sysCfg1; onM (fun r => r <| cfgSecond := c |> <| reads := u32 (reads r + 1) |>);;
  setSt sampled;;
  r ← getR;
  x ← lift (extension r);
  modify (fun s => mkM (m_res s) (Some x)).

(** Everything that may still leave without a mapping. *)
Definition openWindow (s : Snapshot) : T unit :=
  when (negb (PciConfig.isTarget s) || negb (subsystemVendor s =? 0x1a3b) ||
        negb (subsystemDevice s =? 0x5470)) brk;;
  gateOn unsafeConfig (negb (bool_decide (capStatus s = PciConfig.valid)) ||
                       negb (pmControlReadable s));;
  gateOn notD0 (negb (Z.land (pmControlStatus s) 3 =? 0));;
  c ← command;
  onM (fun r => r <| commandBefore := c |> <| commandDuring := c |> <| commandAfter := c |>
                  <| commandRestored := true |>);;
  gateOn busMasterActive (flag c busMasterEnable);;
  let bar2 := nth 2 (bars s) 0 in
  let bar3 := nth 3 (bars s) 0 in
  gateOn badBar (negb (Z.land bar2 7 =? 4));;
  let addr := Z.lor (Z.shiftl bar3 32) (Z.ldiff bar2 15) in
  onM (fun r => r <| base := addr |>);;
  when ((addr =? 0) || (addr =? 0xfffffffffffffff0)) brk;;
  len ← dcall Length;
  onM (fun r => r <| windowLength := u64 len |>);;
  setSt resourceMismatch;;
  phys ← dcall Physical;
  when (negb (u64 phys =? addr) || negb (u64 len =? 0x100000)) brk;;
  setSt mapFailed;;
  ok ← dcall Map;
  unless ok brk.

Definition enableMemory : T unit :=
  r ← getR;
  unless (flag (commandBefore r) memoryEnable) (
    onM (fun r => r <| memoryBitChanged := true |>);;
    dcall (WriteCommand (Z.lor (commandBefore r) memoryEnable)));;
  c ← command;
  onM (fun r => r <| commandDuring := c |>).

(** Only the memory bit is put back, into whatever the command is now. *)
Definition closeWindow : T unit :=
  dcall Unmap;;
  r ← getR;
  when (memoryBitChanged r) (
    now ← command;
    unless (now =? 0xffff)
      (dcall (WriteCommand (u16 (Z.lor (Z.ldiff now memoryEnable) (Z.land (commandBefore r) memoryEnable))))));;
  c ← command;
  onM (fun r => r <| commandAfter := c |> <| commandRestored := c =? commandBefore r |>);;
  r ← getR;
  unless (commandRestored r) (setSt restoreFailed).

Definition transaction (s : Snapshot) (extension : MmioResult -> prog Device X) : T unit :=
  openWindow s;;
  enableMemory;;
  setSt enableFailed;;
  r ← getR;
  when (commandDuring r =? u16 (Z.lor (commandBefore r) memoryEnable)) (sampleRegisters extension);;
  closeWindow.

Definition sampleMmio (s : Snapshot) (extension : MmioResult -> prog Device X)
  : prog Device MState := final_state (transaction s extension) (mkM newMmio None).
End sample.
Arguments MState X : clear implicits.

(** ** The crystal-oscillator probe *)

Definition xtalControl : Z := 0x270.
Definition xtalCvReadCommand : Z := 0x81000041.
Definition sysPower : Z := 0x4.
Definition sysClock : Z := 0x8.
Definition firmwareControl : Z := 0x1e0.

Inductive XtalStatus :=
| notRun | unstableChip | wrongCut | invalidPower | powerNotReady
| invalidControl | busy | commandRejected | timeout | invalidData | complete.
#[export] Instance XtalStatus_eq_dec : EqDecision XtalStatus. Proof. solve_decision. Defined.

Definition xtalStatusName (s : XtalStatus) : string :=
  match s with
  | notRun => "NOT_RUN"
  | unstableChip => "SKIPPED_UNSTABLE_CHIP"
  | wrongCut => "SKIPPED_UNTESTED_DIGITAL_CUT"
  | invalidPower => "INVALID_POWER_READ"
  | powerNotReady => "SKIPPED_SYSTEM_POWER_NOT_READY"
  | invalidControl => "INVALID_XTAL_CONTROL"
  | busy => "SKIPPED_XTAL_BUSY"
  | commandRejected => "READ_COMMAND_REJECTED"
  | timeout => "XTAL_READ_TIMEOUT"
  | invalidData => "INVALID_XTAL_DATA"
  | complete => "XTAL_READ_COMPLETE"
  end.

Record XtalResult := mkXtal {
  xstatus : XtalStatus; isolation : Z; powerBefore : Z; powerAfter : Z; clock : Z; firmware : Z;
  controlBefore : Z; controlAfter : Z; elapsedUs : Z;
  reads32 : Z; reads8 : Z; xwrites : Z; polls : Z; rawRevision : Z;
  powerSampled : bool; powerAfterSampled : bool; revisionValid : bool
}.
#[export] Instance XtalResult_rebuild : Rebuild XtalResult := fun r =>
  mkXtal (xstatus r) (isolation r) (powerBefore r) (powerAfter r) (clock r) (firmware r)
    (controlBefore r) (controlAfter r) (elapsedUs r) (reads32 r) (reads8 r) (xwrites r) (polls r)
    (rawRevision r) (powerSampled r) (powerAfterSampled r) (revisionValid r).
Definition newXtal : XtalResult := mkXtal notRun 0 0 0 0 0 0 0 0 0 0 0 0 0 false false false.

Definition Xt (A : Type) : Type := M Device XtalResult A.
Definition setX (st : XtalStatus) : Xt unit := modify (fun r => r <| xstatus := st |>).
(** [if (bad) { r.status = st; return r; }] *)
Definition stopIf (bad : bool) (st : XtalStatus) : Xt unit := when bad (setX st;; brk).

(** One turn of the polling loop; [Some tt] leaves it. *)
Definition xtalTurn (start i : Z) : Xt (option unit) :=
  now ← nowUs;
  if 50000 <=? u64 (now - start) then mret (Some tt) else
  c ← read32 xtalControl;
  modify (fun r => r <| controlAfter := c |> <| reads32 := u32 (reads32 r + 1) |> <| polls := u32 (polls r + 1) |>);;
  if invalidRegister c then setX invalidControl;; mret (Some tt) else
  if negb (flag c 0x80000000) then
    v ← dcall ReadXtalData;
    modify (fun r => r <| rawRevision := u8 v |> <| reads8 := u32 (reads8 r + 1) |>
                       <| revisionValid := negb (u8 v =? 0xff) |>
                       <| xstatus := if negb (u8 v =? 0xff) then complete else invalidData |>);;
    mret (Some tt)
  else
    (if i <? 1000 then
       now ← nowUs;
       when (u64 (now - start) <? 50000) (pauseUs 50)
     else mret tt);;
    mret None.

Definition xtalBody (baseline : MmioResult) : Xt unit :=
  stopIf (negb (stableValue baseline)) unstableChip;;
  stopIf (negb (Z.land (Z.shiftr (cfgFirst baseline) 12) 15 =? 1)) wrongCut;;
  iso ← read32 0; pw ← read32 sysPower; ck ← read32 sysClock; fw ← read32 firmwareControl;
  modify (fun r => r <| isolation := iso |> <| powerBefore := pw |> <| clock := ck |> <| firmware := fw |>
                     <| reads32 := 4 |> <| powerSampled := true |>);;
  stopIf (invalidRegister pw) invalidPower;;
  stopIf (negb (flag pw (Z.shiftl 1 17)) || flag pw (Z.shiftl 1 22)) powerNotReady;;
  c ← read32 xtalControl;
  modify (fun r => r <| controlBefore := c |> <| reads32 := u32 (reads32 r + 1) |>);;
  stopIf (invalidRegister c) invalidControl;;
  stopIf (flag c 0x80000000) busy;;
  start ← nowUs;
  ok ← dcall StartXtalCvRead;
  stopIf (negb ok) commandRejected;;
  modify (fun r => r <| xwrites := 1 |>);;
  setX timeout;;
  _ ← for_loop 0 1001 (xtalTurn start);
  now ← nowUs;
  modify (fun r => r <| elapsedUs := u64 (now - start) |>);;
  r ← get;
  when (bool_decide (xstatus r = complete) || bool_decide (xstatus r = invalidData)) (
    p ← read32 sysPower;
    modify (fun r => r <| powerAfter := p |> <| reads32 := u32 (reads32 r + 1) |> <| powerAfterSampled := true |>)).

Definition sampleXtal (baseline : MmioResult) : prog Device XtalResult := final_state (xtalBody baseline) newXtal.

(** ** The discipline of the window

    What has been seen of the bus: whether the window is mapped, the last
    command reading, the last command written, and whether the device ever
    answered like one that is gone. *)
Record Bench := mkBench { b_mapped : bool; b_cmd : option Z; b_wrote : option Z; b_gone : bool }.
Definition newBench : Bench := mkBench false None None false.

(** Registers are touched only through the mapping; a mapping is made only
    when bus mastering was seen off; a command write changes nothing but the
    memory bit of the last reading. *)
Definition benchMay (g : Bench) (o : devOp) : Prop :=
  match o with
  | Map => b_mapped g = false /\ exists c, b_cmd g = Some c /\ flag c busMasterEnable = false
  | WriteCommand v => exists c, b_cmd g = Some c /\ c <> 0xffff /\ Z.ldiff v memoryEnable = Z.ldiff c memoryEnable
  | Length | Physical | Command | NowUs | PauseUs _ => True
  | _ => b_mapped g = true
  end.

Definition benchNext (g : Bench) (o : devOp) : devAns o -> Bench :=
  match o with
  | Map => fun b => mkBench b (b_cmd g) (b_wrote g) (b_gone g)
  | Unmap => fun _ => mkBench false (b_cmd g) (b_wrote g) (b_gone g)
  | Command => fun v => mkBench (b_mapped g) (Some (u16 v)) (b_wrote g) (b_gone g || (u16 v =? 0xffff))
  | WriteCommand v => fun _ => mkBench (b_mapped g) (b_cmd g) (Some v) (b_gone g)
  | _ => fun _ => g
  end.

Definition bench : protocol Device Bench := Protocol (Σ:=Device) benchMay (fun _ _ _ => True) benchNext.

(** An extension works inside the window: it leaves it mapped and writes no
    command word. *)
Definition inside (wrote : option Z) (g : Bench) : Prop := b_mapped g = true /\ b_wrote g = wrote.
Definition wellBehaved {X} (e : MmioResult -> prog Device X) : Prop :=
  forall r g, b_mapped g = true -> reads r = 3 -> flag (commandBefore r) busMasterEnable = false ->
    wp bench (e r) g (fun _ g' => inside (b_wrote g) g' /\ (b_gone g = true -> b_gone g' = true)).

(** What the result says at the end. *)
Definition closed {X} (s : MState X) (g : Bench) : Prop :=
  let r := m_res s in
  b_mapped g = false /\
  (if memoryBitChanged r
   then exists v, b_wrote g = Some v /\ (flag v memoryEnable = false \/ b_gone g = true)
   else b_wrote g = None) /\
  ((exists x, m_ext s = Some x) <-> reads r = 3) /\
  (status r = sampled -> reads r = 3 /\ commandAfter r = commandBefore r /\
     flag (commandBefore r) busMasterEnable = false /\ commandDuring r = u16 (Z.lor (commandBefore r) memoryEnable) /\
     windowLength r = 0x100000 /\ base r <> 0) /\
  (reads r = 3 -> status r = sampled \/ status r = restoreFailed) /\
  (commandRestored r = true -> commandAfter r = commandBefore r).

Section window.
Context {X : Type} (extension : MmioResult -> prog Device X) (Hext : wellBehaved extension).
Implicit Types (s : MState X) (g : Bench).

(** No window yet. *)
Definition shut s g : Prop :=
  b_mapped g = false /\ b_wrote g = None /\ memoryBitChanged (m_res s) = false /\ reads (m_res s) = 0 /\
  m_ext s = None /\ status (m_res s) <> sampled /\
  (commandRestored (m_res s) = true -> commandAfter (m_res s) = commandBefore (m_res s)).

Lemma shut_closed s g : shut s g -> closed s g.
Proof.
  intros (H1 & H2 & H3 & H4 & H5 & H6 & H7). unfold closed. rewrite H3, H4, H5.
  split; [exact H1|]. split; [exact H2|]. split; [split; [intros [x Hx]; discriminate|discriminate]|].
  split; [intros H; contradiction|]. split; [discriminate|exact H7].
Qed.

(** The command was read, with bus mastering off. *)
Definition quiet s g : Prop :=
  shut s g /\ b_cmd g = Some (commandBefore (m_res s)) /\ in_u16 (commandBefore (m_res s)) /\
  flag (commandBefore (m_res s)) busMasterEnable = false.

(** The window is open, nothing sampled yet. *)
Record opened s g : Prop := {
  o_mapped : b_mapped g = true;
  o_wrote : b_wrote g = None;
  o_cmd : b_cmd g = Some (commandBefore (m_res s));
  o_u16 : in_u16 (commandBefore (m_res s));
  o_bm : flag (commandBefore (m_res s)) busMasterEnable = false;
  o_bit : memoryBitChanged (m_res s) = false;
  o_reads : reads (m_res s) = 0;
  o_ext : m_ext s = None;
  o_length : windowLength (m_res s) = 0x100000;
  o_base : base (m_res s) <> 0
}.

Definition updated (f : MmioResult -> MmioResult) s : MState X := mkM (f (m_res s)) (m_ext s).

Lemma gateOn_wp (I : MState X -> Bench -> Prop) st bad s g Q :
  (I s g -> I (updated (fun r => r <| status := st |>) s) g) -> I s g ->
  (forall s', I s' g -> bad = true -> Q None s' g) ->
  (forall s', I s' g -> bad = false -> Q (Some tt) s' g) ->
  wpm bench (gateOn (X:=X) st bad) s g Q.
Proof.
  intros HI Hs HT HF. unfold gateOn, setSt, onM. do 3 wstep; [wstep; apply HT|wstep; apply HF]; auto.
Qed.

Lemma onM_wp (I I' : MState X -> Bench -> Prop) f s g Q :
  (I s g -> I' (updated f s) g) -> I s g -> (forall s', I' s' g -> Q (Some tt) s' g) ->
  wpm bench (onM (X:=X) f) s g Q.
Proof. intros HI Hs HQ. unfold onM. wstep. apply HQ. apply HI. exact Hs. Qed.

Lemma shut_status st s g : st <> sampled -> shut s g -> shut (updated (fun r => r <| status := st |>) s) g.
Proof. intros Hst (H1 & H2 & H3 & H4 & H5 & H6 & H7). repeat split; assumption. Qed.
Lemma quiet_status st s g : st <> sampled -> quiet s g -> quiet (updated (fun r => r <| status := st |>) s) g.
Proof. intros Hst [H1 H2]. split; [apply shut_status; assumption|exact H2]. Qed.

Lemma openWindow_wp cfg s g : shut s g ->
  wpm bench (openWindow cfg) s g (fun r s' g' => match r with Some _ => opened s' g' | None => shut s' g' end).
Proof.
  intros Hs. unfold openWindow. wstep. wstep; [wstep; exact Hs|wstep].
  wstep. apply (gateOn_wp shut); [apply shut_status; discriminate|exact Hs|auto|]. clear s Hs. intros s Hs _.
  wstep. apply (gateOn_wp shut); [apply shut_status; discriminate|exact Hs|auto|]. clear s Hs. intros s Hs _.
  wstep. apply command_wp; [exact I|intros x _; cbn beta iota]. set (c := u16 x).
  change (next bench g Command x) with (benchNext g Command x).
  wstep. eapply (onM_wp (fun s g => shut s g) (fun s g' => shut s g' /\ commandBefore (m_res s) = c)).
  { intros (H1 & H2 & H3 & H4 & H5 & H6 & H7). repeat split; assumption. }
  { destruct Hs as (H1 & H2 & H3 & H4 & H5 & H6 & H7). repeat split; assumption. }
  clear s Hs. intros s Hs.
  wstep. apply (gateOn_wp (fun s g => shut s g /\ commandBefore (m_res s) = c)); [|exact Hs|intros s' [H _] _; exact H|].
  { intros [H1 H2]. split; [apply shut_status; [discriminate|exact H1]|exact H2]. }
  clear s Hs. intros s [Hs Hc] Hbm. assert (Hq : quiet s (benchNext g Command x)).
  { split; [exact Hs|]. rewrite Hc. split; [reflexivity|]. split; [apply u16_range|exact Hbm]. }
  clear Hs Hc Hbm. revert Hq. generalize (benchNext g Command x). clear c g x. intros g Hq.
  wstep. apply (gateOn_wp quiet); [apply quiet_status; discriminate|exact Hq|intros s' [H _] _; exact H|].
  clear s Hq. intros s Hq _. cbv zeta.
  set (addr := Z.lor _ _).
  wstep. apply (onM_wp quiet (fun s g => quiet s g /\ base (m_res s) = addr)); [|exact Hq|].
  { intros [(H1 & H2 & H3 & H4 & H5 & H6 & H7) H8]. repeat split; assumption || apply H8. }
  clear s Hq. intros s [Hq Hb]. wstep. wstep; [wstep; apply Hq|wstep].
  assert (Hb0 : addr <> 0) by lia.
  wstep. apply dcall_wp; [exact I|intros x _; cbn beta iota]. change (next bench g Length x) with g.
  wstep. apply (onM_wp (fun s g => quiet s g /\ base (m_res s) = addr)
    (fun s g => quiet s g /\ base (m_res s) = addr /\ windowLength (m_res s) = u64 x)); [|auto|].
  { intros [[(H1 & H2 & H3 & H4 & H5 & H6 & H7) H8] H9]. repeat split; assumption || apply H8. }
  clear s Hq Hb. intros s (Hq & Hb & Hl).
  wstep. apply (onM_wp (fun s g => quiet s g /\ base (m_res s) = addr /\ windowLength (m_res s) = u64 x)
     (fun s g => quiet s g /\ base (m_res s) = addr /\ windowLength (m_res s) = u64 x)); [|auto|].
  { intros (H1 & H2 & H3). split; [apply quiet_status; [discriminate|exact H1]|auto]. }
  clear s Hq Hb Hl. intros s (Hq & Hb & Hl).
  wstep. apply dcall_wp; [exact I|intros x0 _; cbn beta iota]. change (next bench g Physical x0) with g.
  wstep. wstep; [wstep; apply Hq|wstep].
  wstep. apply (onM_wp (fun s g => quiet s g /\ base (m_res s) = addr /\ windowLength (m_res s) = u64 x)
     (fun s g => quiet s g /\ base (m_res s) = addr /\ windowLength (m_res s) = u64 x)); [|auto|].
  { intros (H1 & H2 & H3). split; [apply quiet_status; [discriminate|exact H1]|auto]. }
  clear s Hq Hb Hl. intros s (Hq & Hb & Hl). destruct Hq as [(H1 & H2 & H3 & H4 & H5 & H6 & H7) (H8 & H9 & H10)].
  wstep. apply dcall_wp; [split; [exact H1|eauto]|intros x1 _; cbn beta iota]. unfold unless. destruct x1.
  - wstep. split; try assumption; [reflexivity| |]; [|rewrite Hb; assumption].
    rewrite Hl. match goal with E : _ || negb (u64 x =? _) = false |- _ => apply orb_false_iff in E as [_ E] end.
    lia.
  - wstep. repeat split; assumption.
Qed.

Lemma ldiff_lor c m : Z.ldiff (Z.lor c m) m = Z.ldiff c m.
Proof.
  apply Z.bits_inj'. intros n Hn. rewrite !Z.ldiff_spec, Z.lor_spec.
  destruct (Z.testbit c n), (Z.testbit m n); reflexivity.
Qed.
Lemma ldiff_ldiff c m : Z.ldiff (Z.ldiff c m) m = Z.ldiff c m.
Proof.
  apply Z.bits_inj'. intros n Hn. rewrite !Z.ldiff_spec. destruct (Z.testbit c n), (Z.testbit m n); reflexivity.
Qed.
Lemma flag_ldiff c m : flag (Z.ldiff c m) m = false.
Proof.
  unfold flag. apply negb_false_iff, Z.eqb_eq, Z.bits_inj'. intros n Hn.
  rewrite Z.land_spec, Z.ldiff_spec, Z.testbit_0_l. destruct (Z.testbit c n), (Z.testbit m n); reflexivity.
Qed.

(** The window after the attempt to enable memory decoding. *)
Record enabled s g : Prop := {
  e_mapped : b_mapped g = true;
  e_wrote : b_wrote g = if memoryBitChanged (m_res s) then Some (Z.lor (commandBefore (m_res s)) memoryEnable) else None;
  e_bit : memoryBitChanged (m_res s) = true -> flag (commandBefore (m_res s)) memoryEnable = false;
  e_bm : flag (commandBefore (m_res s)) busMasterEnable = false;
  e_length : windowLength (m_res s) = 0x100000;
  e_base : base (m_res s) <> 0
}.
Definition unsampled s : Prop := reads (m_res s) = 0 /\ m_ext s = None.
Definition complete_ s : Prop :=
  reads (m_res s) = 3 /\ status (m_res s) = sampled /\ (exists x, m_ext s = Some x) /\
  commandDuring (m_res s) = u16 (Z.lor (commandBefore (m_res s)) memoryEnable).

Lemma enabled_same f s g :
  (forall r, memoryBitChanged (f r) = memoryBitChanged r /\ commandBefore (f r) = commandBefore r /\
     windowLength (f r) = windowLength r /\ base (f r) = base r) ->
  enabled s g -> enabled (updated f s) g.
Proof.
  intros Hf [H1 H2 H3 H4 H5 H6]. destruct (Hf (m_res s)) as (F1 & F2 & F3 & F4).
  split; cbn [updated m_res]; rewrite ?F1, ?F2, ?F3, ?F4; assumption.
Qed.

Lemma enableMemory_wp s g : opened s g ->
  wpm bench (enableMemory (X:=X)) s g (fun r s' g' => r <> None /\ enabled s' g' /\ unsampled s').
Proof.
  intros [H1 H2 H3 H4 H5 H6 H7 H8 H9 H10]. unfold enableMemory, getR, onM. do 3 wstep.
  wstep.
  - wstep. wstep. apply command_wp; [exact I|intros x _; cbn beta iota]. wstep.
    split; [discriminate|]. split; [split; cbn; rewrite ?H6; try assumption; discriminate|split; assumption].
  - wstep. wstep. apply dcall_wp; cbn.
    { exists (commandBefore (m_res s)). split; [exact H3|]. split; [|apply ldiff_lor].
      intros E. rewrite E in H5. discriminate. }
    intros [] _. wstep. apply command_wp; [exact I|intros x _; cbn beta iota]. wstep.
    split; [discriminate|]. split; [split; cbn; try assumption; reflexivity || (intros _; assumption)|split; assumption].
Qed.

Lemma sampleRegisters_wp s g : enabled s g -> unsampled s ->
  commandDuring (m_res s) = u16 (Z.lor (commandBefore (m_res s)) memoryEnable) ->
  wpm bench (sampleRegisters extension) s g (fun r s' g' => r <> None /\ enabled s' g' /\ complete_ s').
Proof.
  intros He [Hr Hx] Hd. pose proof (e_mapped _ _ He) as Hm. unfold sampleRegisters, setSt, getR, onM.
  wstep. apply read32_wp; [exact Hm|intros a _; cbn beta iota]. do 2 wstep.
  wstep. apply read32_wp; [exact Hm|intros b _; cbn beta iota]. do 2 wstep.
  wstep. apply read32_wp; [exact Hm|intros c _; cbn beta iota]. do 2 wstep. do 3 wstep. wstep. wstep.
  destruct He as [H1 H2 H3 H4 H5 H6]. apply wpm_lift. eapply wp_mono; [|apply Hext].
  - intros y g' [[G1 G2] G3]. wstep. split; [discriminate|]. split.
    + split; cbn; try assumption. rewrite G2. exact H2.
    + split; [cbn; rewrite Hr; reflexivity|]. split; [reflexivity|]. split; [exists y; reflexivity|exact Hd].
  - exact H1.
  - cbn. rewrite Hr. reflexivity.
  - exact H4.
Qed.

Lemma closeWindow_wp s g : enabled s g ->
  (complete_ s \/ unsampled s /\ status (m_res s) = enableFailed) ->
  wpm bench (closeWindow (X:=X)) s g (fun _ s' g' => closed s' g').
Proof.
  intros [H1 H2 H3 H4 H5 H6] Hc. unfold closeWindow, getR, setSt, onM. wstep.
  apply dcall_wp; [exact H1|intros [] _; cbn beta iota]. set (g1 := next bench g Unmap tt). do 3 wstep.
  assert (Hlast : forall g2, b_mapped g2 = false ->
    (if memoryBitChanged (m_res s) then exists v, b_wrote g2 = Some v /\ (flag v memoryEnable = false \/ b_gone g2 = true)
     else b_wrote g2 = None) ->
    wpm bench (c ← command;
      modify (fun s => mkM ((m_res s) <| commandAfter := c |> <| commandRestored := c =? commandBefore (m_res s) |>) (m_ext s));;
      r ← gets m_res;
      unless (commandRestored r) (modify (fun s => mkM ((m_res s) <| status := restoreFailed |>) (m_ext s)))) s g2
      (fun _ s' g' => closed s' g')).
  { intros g2 Hm Hw. wstep. apply command_wp; [exact I|intros x _; cbn beta iota]. do 2 wstep. do 2 wstep.
    assert (Hw' : if memoryBitChanged (m_res s) then exists v, b_wrote g2 = Some v /\
      (flag v memoryEnable = false \/ b_gone g2 || (u16 x =? 0xffff) = true) else b_wrote g2 = None).
    { destruct (memoryBitChanged (m_res s)); [|exact Hw]. destruct Hw as (v & Hv & [E|E]); exists v; split; auto.
      right. rewrite E. reflexivity. }
    wstep; wstep; unfold closed; cbn in *; (split; [exact Hm|]); (split; [exact Hw'|]).
    - destruct Hc as [(C1 & C2 & C3 & C4)|[[C1 C2] C3]]; rewrite C1.
      + split; [tauto|]. split; [|split; [left; exact C2|intros E; lia]]. intros _. repeat split; try assumption. lia.
      + rewrite C2. split; [split; [intros [y Hy]; discriminate|discriminate]|]. rewrite C3.
        split; [discriminate|]. split; [discriminate|intros E; lia].
    - destruct Hc as [(C1 & C2 & C3 & C4)|[[C1 C2] C3]]; rewrite C1.
      + split; [tauto|]. split; [discriminate|]. split; [right; reflexivity|congruence].
      + rewrite C2. split; [split; [intros [y Hy]; discriminate|discriminate]|].
        split; [discriminate|]. split; [discriminate|congruence]. }
  do 2 wstep.
  - apply command_wp; [exact I|intros now _; cbn beta iota].
    assert (Hz : Z.land (commandBefore (m_res s)) memoryEnable = 0).
    { specialize (H3 eq_refl). unfold flag in H3. lia. }
    wstep.
    + wstep. apply Hlast; [reflexivity|]. exists (Z.lor (commandBefore (m_res s)) memoryEnable).
      split; [exact H2|]. right. cbn. rewrite Heqb0. apply orb_true_r.
    + rewrite Hz, Z.lor_0_r.
      assert (Hr : u16 (Z.ldiff (u16 now) memoryEnable) = Z.ldiff (u16 now) memoryEnable).
      { apply u16_small. pose proof (u16_range now). pose proof (ldiff_bounds (u16 now) memoryEnable).
        unfold in_u16 in *. lia. }
      rewrite Hr. apply dcall_wp.
      * exists (u16 now). split; [reflexivity|]. split; [lia|apply ldiff_ldiff].
      * intros [] _. apply Hlast; [reflexivity|]. exists (Z.ldiff (u16 now) memoryEnable).
        split; [reflexivity|]. left. apply flag_ldiff.
  - wstep. apply Hlast; [reflexivity|exact H2].
Qed.

Lemma transaction_wp cfg s g : shut s g -> wpm bench (transaction cfg extension) s g (fun _ s' g' => closed s' g').
Proof.
  intros Hs. unfold transaction. wstep. eapply wpm_mono; [apply openWindow_wp; exact Hs|].
  intros [[]|] s1 g1 H1; [|apply shut_closed; exact H1].
  wstep. eapply wpm_mono; [apply enableMemory_wp; exact H1|].
  intros [[]|] s2 g2 (Hn & H2 & Hu); [|congruence]. unfold setSt, getR, onM at 1. do 2 wstep. do 2 wstep.
  assert (He : enabled (updated (fun r => r <| status := enableFailed |>) s2) g2).
  { apply enabled_same; [|exact H2]. intros r. repeat split. }
  wstep. unfold when. destruct (_ =? _) eqn:E.
  - eapply wpm_mono; [apply sampleRegisters_wp; [exact He|exact Hu|apply Z.eqb_eq; exact E]|].
    intros [[]|] s3 g3 (Hn3 & H3 & H4); [apply closeWindow_wp; auto|congruence].
  - wstep. apply closeWindow_wp; [exact He|]. right. split; [exact Hu|reflexivity].
Qed.
End window.


(** ** The crystal probe *)

(** What is seen of the bus: the commands started and accepted, the words and
    bytes read, the last readings of the control and power registers and of
    the data. *)
Record XSeen := mkSeen {
  started : Z; accepted : Z; words : Z; octets : Z; ctl : option Z; pwr : option Z; datum : option Z
}.
Definition newSeen : XSeen := mkSeen 0 0 0 0 None None None.
Definition idleControl (o : option Z) : Prop :=
  exists c, o = Some c /\ invalidRegister c = false /\ flag c 0x80000000 = false.

(** One command, only with the power good and the interface idle; the data
    only after that command, once the interface is idle again. *)
Definition xtalMay (g : XSeen) (o : devOp) : Prop :=
  match o with
  | Read32 _ | NowUs => True
  | PauseUs us => us = 50
  | StartXtalCvRead => started g = 0 /\ idleControl (ctl g) /\
      exists p, pwr g = Some p /\ invalidRegister p = false /\ flag p (Z.shiftl 1 17) = true /\ flag p (Z.shiftl 1 22) = false
  | ReadXtalData => accepted g = 1 /\ idleControl (ctl g)
  | _ => False
  end.
Definition xtalNext (g : XSeen) (o : devOp) : devAns o -> XSeen :=
  match o with
  | Read32 a => fun v => mkSeen (started g) (accepted g) (words g + 1) (octets g)
      (if a =? xtalControl then Some (u32 v) else ctl g) (if a =? sysPower then Some (u32 v) else pwr g) (datum g)
  | StartXtalCvRead => fun b => mkSeen (started g + 1) (if b then accepted g + 1 else accepted g) (words g) (octets g)
      (ctl g) (pwr g) (datum g)
  | ReadXtalData => fun v => mkSeen (started g) (accepted g) (words g) (octets g + 1) (ctl g) (pwr g) (Some (u8 v))
  | _ => fun _ => g
  end.
Definition xtalRules : protocol Device XSeen := Protocol (Σ:=Device) xtalMay (fun _ _ _ => True) xtalNext.

(** The counters of the result are those of the bus. *)
Definition counted (r : XtalResult) (g : XSeen) : Prop :=
  reads32 r = words g /\ reads8 r = octets g /\ xwrites r = accepted g.
Definition xtalResultOk (r : XtalResult) (g : XSeen) : Prop :=
  counted r g /\ 0 <= polls r <= 1001 /\
  (xstatus r = complete \/ xstatus r = invalidData ->
     xwrites r = 1 /\ datum g = Some (rawRevision r) /\ powerAfterSampled r = true /\
     (revisionValid r = true <-> rawRevision r <> 0xff)) /\
  (xstatus r = complete <-> revisionValid r = true).

Section xtal.
Implicit Types (r : XtalResult) (g : XSeen).

Definition before r g : Prop :=
  counted r g /\ polls r = 0 /\ revisionValid r = false /\ accepted g = 0 /\
  xstatus r <> complete /\ xstatus r <> invalidData.

Lemma before_ok r g : before r g -> xtalResultOk r g.
Proof.
  intros (H1 & H2 & H3 & H4 & H6 & H7). split; [exact H1|]. rewrite H2, H3. split; [lia|].
  split; [intros [H|H]; contradiction|]. split; [intros H; contradiction|discriminate].
Qed.

Lemma stopIf_wp bad st r g Q : st <> complete -> st <> invalidData -> before r g ->
  (bad = true -> forall r', before r' g -> Q None r' g) -> (bad = false -> Q (Some tt) r g) ->
  wpm xtalRules (stopIf bad st) r g Q.
Proof.
  intros H1 H2 (B1 & B2 & B3 & B4 & B6 & B7) HT HF. unfold stopIf, setX. wstep.
  - do 2 wstep. wstep. apply HT; [reflexivity|]. repeat split; try assumption; apply B1.
  - wstep. apply HF. reflexivity.
Qed.

(** While polling: [i] turns done. *)
Definition polling i r g : Prop :=
  reads32 r = words g /\ reads8 r = 0 /\ octets g = 0 /\ xwrites r = 1 /\ accepted g = 1 /\ revisionValid r = false /\
  xstatus r = timeout /\ polls r = i /\ words g = 5 + i.
Definition polled r g : Prop :=
  reads32 r = words g /\ reads8 r = octets g /\ xwrites r = 1 /\ accepted g = 1 /\ 0 <= polls r <= 1001 /\ 0 <= words g <= 1006 /\
  ((xstatus r = timeout \/ xstatus r = invalidControl) /\ revisionValid r = false \/
   (xstatus r = if revisionValid r then complete else invalidData) /\ datum g = Some (rawRevision r) /\
   (revisionValid r = true <-> rawRevision r <> 0xff)).

Lemma xtalTurn_wp start i r g : 0 <= i < 1001 -> polling i r g ->
  wpm xtalRules (xtalTurn start i) r g (fun x r' g' => match x with
    | Some None => polling (i + 1) r' g' | Some (Some _) => polled r' g' | None => False end).
Proof.
  intros Hi (P1 & P2 & P3 & P4 & P5 & P6 & P7 & P8 & P9). unfold xtalTurn, setX. wstep.
  apply nowUs_wp; [exact I|intros now _; cbn beta iota]. change (next xtalRules g NowUs now) with g.
  wstep; [wstep; unfold polled; rewrite P1, P2, P3, P7; repeat split; auto; lia|].
  wstep. apply read32_wp; [exact I|intros v _; cbn beta iota]. set (c := u32 v).
  do 2 wstep. wstep.
  { do 2 wstep. wstep. unfold polled. cbn. rewrite P1, P2, P3, P8, P9, !u32_small by (unfold in_u32; lia).
    repeat split; auto; lia. }
  wstep.
  { wstep. apply dcall_wp.
    { split; [exact P5|]. exists c. split; [reflexivity|]. split; [assumption|]. apply negb_true_iff. assumption. }
    intros d _. do 2 wstep. wstep. unfold polled. cbn. rewrite P1, P2, P3, P8, P9, !u32_small by (unfold in_u32; lia).
    repeat split; auto; try lia. right. split; [reflexivity|]. split; [reflexivity|].
    rewrite negb_true_iff, Z.eqb_neq. reflexivity. }
  assert (HP : forall g', g' = next xtalRules g (Read32 xtalControl) v ->
    polling (i + 1) (r <| controlAfter := c |> <| reads32 := u32 (reads32 r + 1) |> <| polls := u32 (polls r + 1) |>) g').
  { intros g' ->. unfold polling. cbn. rewrite P1, P8, P9, !u32_small by (unfold in_u32; lia). repeat split; auto; lia. }
  wstep. wstep.
  - wstep. apply nowUs_wp; [exact I|intros now' _; cbn beta iota]. wstep.
    + unfold pauseUs. apply dcall_wp; [reflexivity|intros [] _; cbn beta iota]. wstep. apply HP. reflexivity.
    + wstep. wstep. apply HP. reflexivity.
  - wstep. wstep. apply HP. reflexivity.
Qed.

Lemma xtalEnd_wp start r g : polled r g ->
  wpm xtalRules (now ← nowUs;
    modify (fun r => r <| elapsedUs := u64 (now - start) |>);;
    r ← get;
    when (bool_decide (xstatus r = complete) || bool_decide (xstatus r = invalidData)) (
      p ← read32 sysPower;
      modify (fun r => r <| powerAfter := p |> <| reads32 := u32 (reads32 r + 1) |> <| powerAfterSampled := true |>)))
    r g (fun _ r g => xtalResultOk r g).
Proof.
  intros (P1 & P2 & P3 & P4 & P5 & P6 & P7). wstep.
  apply nowUs_wp; [exact I|intros now _; cbn beta iota]. do 2 wstep. do 2 wstep. wstep.
  - wstep. apply read32_wp; [exact I|intros v _; cbn beta iota]. wstep. unfold xtalResultOk, counted. cbn in *.
    rewrite P1 in *. rewrite u32_small by (unfold in_u32; lia).
    destruct P7 as [[[E|E] _]|(E & D & R)]; [rewrite E in Heqb; discriminate..|].
    rewrite P4. repeat split; auto; try apply P5; try apply R; rewrite E; destruct (revisionValid r); try discriminate; auto.
  - wstep. unfold xtalResultOk, counted. cbn in *.
    destruct P7 as [[[E|E] V]|(E & D & R)].
    3: { rewrite E in Heqb. destruct (revisionValid r); discriminate. }
    all: split; [lia|]; split; [exact P5|]; rewrite V, E.
    all: split; [intros [|]; discriminate|split; discriminate].
Qed.

(** The whole probe. *)
Lemma xtalBody_wp b : wpm xtalRules (xtalBody b) newXtal newSeen (fun _ r g => xtalResultOk r g).
Proof.
  assert (B0 : before newXtal newSeen) by (repeat split; discriminate).
  unfold xtalBody. wstep. apply stopIf_wp; [discriminate|discriminate|exact B0|intros _ r; apply before_ok|intros _].
  wstep. apply stopIf_wp; [discriminate|discriminate|exact B0|intros _ r; apply before_ok|intros _].
  wstep. apply read32_wp; [exact I|intros v0 _; cbn beta iota].
  wstep. apply read32_wp; [exact I|intros v1 _; cbn beta iota].
  wstep. apply read32_wp; [exact I|intros v2 _; cbn beta iota].
  wstep. apply read32_wp; [exact I|intros v3 _; cbn beta iota]. do 2 wstep.
  match goal with |- wpm _ _ ?r ?g _ => assert (B1 : before r g) by (repeat split; discriminate) end.
  wstep. apply stopIf_wp; [discriminate|discriminate|exact B1|intros _ r; apply before_ok|intros Hp1].
  wstep. apply stopIf_wp; [discriminate|discriminate|exact B1|intros _ r; apply before_ok|intros Hp2]. clear B1.
  wstep. apply read32_wp; [exact I|intros c _; cbn beta iota]. do 2 wstep.
  match goal with |- wpm _ _ ?r ?g _ => assert (B2 : before r g) by (repeat split; discriminate) end.
  wstep. apply stopIf_wp; [discriminate|discriminate|exact B2|intros _ r; apply before_ok|intros Hc1].
  wstep. apply stopIf_wp; [discriminate|discriminate|exact B2|intros _ r; apply before_ok|intros Hc2].
  wstep. apply nowUs_wp; [exact I|intros start _; cbn beta iota].
  apply orb_false_iff in Hp2 as [Hp2 Hp3]. apply negb_false_iff in Hp2.
  wstep. apply dcall_wp.
  { split; [reflexivity|]. split; [exists (u32 c); auto|]. exists (u32 v1). auto. }
  intros okc _. cbn beta iota.
  destruct okc; cbn [negb].
  2: { wstep. apply stopIf_wp; [discriminate|discriminate| |intros _ r; apply before_ok|discriminate].
       destruct B2 as (B & _). repeat split; try discriminate; apply B. }
  wstep. apply wpm_ret. do 2 wstep. wstep. unfold setX. wstep.
  match goal with |- wpm _ _ ?r ?g _ => assert (B3 : polling 0 r g) by (repeat split) end.
  clear B2. revert B3. match goal with |- polling 0 ?r ?g -> _ => generalize r g end. intros r g B3.
  wstep. apply (wpm_for_loop _ polling); [lia|exact B3| |].
  - intros j s' g' Hj Hs. eapply wpm_mono; [apply xtalTurn_wp; assumption|].
    intros [[x|]|] s1 g1 H1; [apply xtalEnd_wp; exact H1|exact H1|contradiction].
  - intros s' g' (P1 & P2 & P3 & P4 & P5 & P6 & P7 & P8 & P9). apply xtalEnd_wp. unfold polled.
    rewrite P1, P2, P3, P6, P7, P8. repeat split; auto; lia.
Qed.
End xtal.

(** At most 1001 turns of five calls, nine calls before and two after. *)
Lemma xtal_cost b : mcost (xtalBody b) 5016.
Proof.
  eapply mcost_le; [unfold xtalBody, xtalTurn, stopIf, setX; mcost|]; try lia.
Qed.

(** whatever the device and the clock do, the crystal probe starts at
    most one command, only with the supply reported good and the indirect
    interface idle, reads the data only after that command was accepted and
    the interface went idle again, and writes nothing else; its counters are
    the accesses that took place, it polls at most 1001 times and ends within
    5,016 calls, and it reports a revision only when one was read that is not
    all ones. *)
Theorem xtal_contract baseline tr r : exec (sampleXtal baseline) tr r ->
  accepts xtalRules newSeen tr /\ xtalResultOk r (after xtalRules newSeen tr) /\ zlen tr <= 5016.
Proof.
  intros He. pose proof (cost_final _ _ newXtal (xtal_cost baseline) tr r He) as Hc.
  destruct (wpm_exec xtalRules (xtalBody baseline) newXtal newSeen xtalResultOk tr r) as [Ha Hr].
  - apply xtalBody_wp.
  - exact He.
  - apply relies_trivial. intros; exact I.
  - auto.
Qed.

(** The probe is an extension of the transaction. *)
Lemma bench_call {S} o (I : S -> Prop) g : b_mapped g = true ->
  match o with Map | Unmap | WriteCommand _ | Command => False | _ => True end ->
  stays bench (fun s g' => I s /\ g' = g) (dcall (S:=S) o).
Proof.
  intros Hm Ho s g' [Hs ->]. apply dcall_wp; destruct o; try contradiction; cbn; auto.
Qed.
Lemma bench_read32 {S} a (I : S -> Prop) g : b_mapped g = true ->
  stays bench (fun s g' => I s /\ g' = g) (read32 (S:=S) a).
Proof. intros Hm s g' [Hs ->]. apply read32_wp; cbn; auto. Qed.
Lemma bench_nowUs {S} (I : S -> Prop) g : stays bench (fun s g' => I s /\ g' = g) (nowUs (S:=S)).
Proof. intros s g' [Hs ->]. apply nowUs_wp; cbn; auto. Qed.

Lemma sampleXtal_bench b g : b_mapped g = true -> wp bench (sampleXtal b) g (fun _ g' => g' = g).
Proof.
  intros Hm. apply wp_final.
  assert (Hs : stays bench (fun (_ : XtalResult) g' => True /\ g' = g) (xtalBody b)).
  { unfold xtalBody, xtalTurn, stopIf, setX, pauseUs. stays.
    all: first [apply bench_read32; exact Hm | apply bench_nowUs | apply bench_call; [exact Hm|exact I]
               | apply stays_modify; auto]. }
  eapply wpm_mono; [apply Hs; auto|]. intros r s' g' [_ E]. exact E.
Qed.

Lemma sampleXtal_wellBehaved : wellBehaved sampleXtal.
Proof.
  intros r g Hm _ _. eapply wp_mono; [|apply sampleXtal_bench; exact Hm].
  intros x g' ->. split; [split; auto|auto].
Qed.

(** ** Concrete runs *)

Definition sampleConfig : Snapshot :=
  mkSnapshot 0x10ec 0xb852 0x1a3b 0x5470 0 0 0 0x40 0 true [0; 0; 0xa0000004; 0; 0; 0] 2 1 PciConfig.valid.
(** The interface stays busy for the readings before time 60. *)
Definition xtalView (a : Z) (d : Board) : option Z :=
  if a =? 0xf0 then Some 0x1234 else if a =? 4 then Some 0x20000
  else if a =? 0x270 then Some (if (1 <=? b_time d) && (b_time d <? 60) then 0x80000000 else 0) else None.
Definition sampleWindow := run_trace (board xtalView) (sampleMmio sampleConfig sampleXtal) (mkBoard [] 0 0x400).
Definition sampleBaseline : MmioResult := m_res sampleWindow.1.1.
Definition sampleXtalRun := run_trace (board xtalView) (sampleXtal sampleBaseline) (mkBoard [] 0 0).

Example sampleWindow_ok :
  let s := sampleWindow.1.1 in
  status (m_res s) = sampled /\ b_command sampleWindow.1.2 = 0x400 /\ commandDuring (m_res s) = 0x402 /\
  option_map xstatus (m_ext s) = Some complete /\ option_map rawRevision (m_ext s) = Some 0x11.
Proof. vm_compute. auto. Qed.


Lemma xtal_contract_witness :
  accepts xtalRules newSeen sampleXtalRun.2 /\
  xtalResultOk sampleXtalRun.1.1 (after xtalRules newSeen sampleXtalRun.2) /\ zlen sampleXtalRun.2 <= 5016.
Proof.
  apply (xtal_contract sampleBaseline).
  exact (run_trace_exec (board xtalView) (sampleXtal sampleBaseline) (mkBoard [] 0 0)).
Defined.
