(* ===== verification/PowerSequence.v ===== *)
(** * The supply sequences (src/PowerSequence.hpp)

    The power-on and power-off tables, the interpreter [run] of a table, and
    [cycle]: the checks, the power-on, an extension while the device is
    active, and the shutdown that follows every attempt. *)

From S2P Require Import Prelude Prog.
From S2P Require Import Device.
From S2P Require Import MmioTransaction.

Definition stateRegister : Z := 0x3f0.

Inductive Kind := rmw32 | rmw8 | write32 | poll32 | delay | xtalK.
#[export] Instance Kind_eq_dec : EqDecision Kind. Proof. solve_decision. Defined.

Record Step := mkStep { kind : Kind; address : Z; mask : Z; value : Z; intervalUs : Z; timeoutUs : Z }.
Definition r32 (a m v : Z) : Step := mkStep rmw32 a m v 0 0.
Definition r8 (a m v : Z) : Step := mkStep rmw8 a m v 0 0.
Definition wait32 (a m v : Z) : Step := mkStep poll32 a m v 1000 20000.
Definition xtal (a m v : Z) : Step := mkStep xtalK a m v 50 50000.

Definition on : list Step := [
  r32 0x4 0x1800 0; r32 0x4 0x40000 0x40000; r32 0x90 2 2;
  r32 0x4 0x8000 0; r32 0x4 0x400 0; wait32 0x4 0x20000 0x20000;
  r32 0x20 0x800000 0x800000; wait32 0x20 0x800000 0x800000;
  r32 0x400 3 1; r32 0x400 0x30 0x30; r32 0x4 0x10000 0x10000;
  r32 0x4 0x100 0x100; wait32 0x4 0x100 0;
  r8 0x88 1 1; r8 0x88 1 0; r8 0x88 1 1; r8 0x88 1 0; r8 0x88 1 1;
  r32 0x70 0x1000 0; r32 0x18 0x40 0x40; xtal 0x90 0x40 0x40;
  r32 0x18 0x20 0x20; xtal 0x90 0x20 0x20; xtal 0x90 4 4;
  xtal 0x90 8 8; xtal 0x90 0x10 0; xtal 0x90 1 1; xtal 0x90 2 2;
  xtal 0x90 0x80 0; xtal 0xa1 2 0; xtal 0x24 0x70 0; xtal 0x26 0xf 0;
  r32 0xcc 4 4; r32 0x0 0x100 0x100; r32 0x0 0x8000 0;
  mkStep delay 0 0 0 1000 0; r32 0x0 0x4000 0; r32 0xcc 4 0 ].

Definition off : list Step := [
  xtal 0x90 0x10 0x10; xtal 0x90 8 0; xtal 0x90 4 0; xtal 0x80 1 0;
  xtal 0x81 1 0; xtal 0x90 0x80 0x80; xtal 0x90 2 0; xtal 0x90 1 0;
  r32 0x4 0x10000 0x10000; r32 0x2f0 0x20000 0; r8 0x2 3 0;
  r32 0x18 0x20 0; xtal 0x90 0x20 0; r32 0x18 0x40 0; xtal 0x90 0x40 0;
  r32 0x4 0x200 0x200; wait32 0x4 0x200 0;
  mkStep write32 0x90 0xffffffff 0x1a0b2 0 0;
  r32 0x10 0x400 0x400; r32 0x200 0x60000 0x60000; r32 0x4 0x400 0x400 ].

Inductive Error := noError | invalidRead | rejectedWrite | ebusy | etimeout | deadline.
#[export] Instance Error_eq_dec : EqDecision Error. Proof. solve_decision. Defined.

Record SequenceResult := mkSeq { error : Error; stepIndex : Z; writes : Z; spolls : Z; lastRead : Z }.
#[export] Instance SequenceResult_rebuild : Rebuild SequenceResult := fun r =>
  mkSeq (error r) (stepIndex r) (writes r) (spolls r) (lastRead r).
Definition newSeq : SequenceResult := mkSeq noError 0 0 0 0.

Definition allowed32 (a : Z) : bool :=
  bool_decide (a ∈ [0x0; 0x4; 0x10; 0x18; 0x20; 0x70; 0x90; 0xcc; 0x200; 0x270; 0x2f0; 0x400]).
Definition allowed8 (a : Z) : bool := (a =? 0x2) || (a =? 0x88).

Definition Sq (A : Type) : Type := M Device SequenceResult A.
Definition setLast (v : Z) : Sq unit := modify (fun r => r <| lastRead := v |>).

(** One turn of the wait, [Some e] to leave it with [e]. *)
Definition pollTurn (a m v interval timeout seqStart start limit i : Z) : Sq (option Error) :=
  now ← nowUs;
  if 1000000 <=? u64 (now - seqStart) then mret (Some deadline) else
  now ← nowUs;
  if timeout <=? u64 (now - start) then mret (Some etimeout) else
  x ← read32 a;
  modify (fun r => r <| lastRead := x |> <| spolls := u32 (spolls r + 1) |>);;
  if invalidRegister x then mret (Some invalidRead) else
  if Z.land x m =? v then mret (Some noError) else
  when (i + 1 <? limit) (pauseUs interval);;
  mret None.

Definition poll (a m v interval timeout seqStart : Z) : Sq Error :=
  start ← nowUs;
  let limit := timeout / interval + 1 in
  e ← for_loop 0 limit (pollTurn a m v interval timeout seqStart start limit);
  mret (default etimeout e).

(** The three kinds of steps that touch the device; the answer is [r.error]. *)
Definition xtalStep (s : Step) (seqStart : Z) : Sq Error :=
  x ← read32 xtalControl; setLast x;;
  if invalidRegister x then mret invalidRead else
  if flag x 0x80000000 then mret ebusy else
  let command := Z.lor (Z.lor (Z.lor 0x80000000 (u32 (Z.shiftl (mask s) 16))) (u32 (Z.shiftl (value s) 8))) (address s) in
  ok ← dcall (Write32 powerW xtalControl command);
  if negb ok then mret rejectedWrite else
  modify (fun r => r <| writes := u32 (writes r + 1) |>);;
  poll xtalControl 0x80000000 0 50 50000 seqStart.

Definition isRmw8 (s : Step) : bool := bool_decide (kind s = rmw8).

(** The word to write, [None] when the reading is unusable. *)
Definition newValue (s : Step) : Sq (option Z) :=
  if isRmw8 s || bool_decide (kind s = rmw32) then
    x ← (if isRmw8 s then read8 (address s) else read32 (address s)); setLast x;;
    if invalidRegister x || (isRmw8 s && (x =? 0xff)) then mret None
    else mret (Some (Z.lor (Z.ldiff x (mask s)) (value s)))
  else mret (Some (value s)).

Definition writeStep (s : Step) : Sq Error :=
  v ← newValue s;
  match v with
  | None => mret invalidRead
  | Some v =>
      ok ← (if isRmw8 s then
              if allowed8 (address s) then dcall (Write8 powerW (address s) (u8 v)) else mret false
            else if allowed32 (address s) then dcall (Write32 powerW (address s) v) else mret false);
      if negb (ok : bool) then mret rejectedWrite else
      modify (fun r => r <| writes := u32 (writes r + 1) |>);; mret noError
  end.

Definition runStep (s : Step) (start : Z) : Sq Error :=
  match kind s with
  | poll32 => poll (address s) (mask s) (value s) (intervalUs s) (timeoutUs s) start
  | xtalK => xtalStep s start
  | _ => writeStep s
  end.

(** One turn of the table; [Some tt] returns from [run]. *)
Definition runTurn (steps : list Step) (start i : Z) : Sq (option unit) :=
  modify (fun r => r <| stepIndex := i |>);;
  now ← nowUs;
  if 1000000 <=? u64 (now - start) then modify (fun r => r <| error := deadline |>);; mret (Some tt) else
  let s := nth (Z.to_nat i) steps (mkStep delay 0 0 0 0 0) in
  if bool_decide (kind s = delay) then pauseUs (intervalUs s);; mret None else
  e ← runStep s start;
  modify (fun r => r <| error := e |>);;
  mret (if bool_decide (e = noError) then None else Some tt).

Definition runBody (steps : list Step) : Sq unit :=
  start ← nowUs;
  out ← for_loop 0 (zlen steps) (runTurn steps start);
  match out with Some _ => mret tt | None => modify (fun r => r <| stepIndex := zlen steps |>) end.
Definition run (steps : list Step) : prog Device SequenceResult := final_state (runBody steps) newSeq.

(** ** The cycle *)

Inductive Status :=
| snotRun | preflightFailed | invalidState | initiallyOn | dirtyWriteMask
| completed | onFailedOff | cleanupFailed | activeNotObserved.
#[export] Instance Status_eq_dec : EqDecision Status. Proof. solve_decision. Defined.

Definition statusName (s : Status) : string :=
  match s with
  | snotRun => "NOT_RUN"
  | preflightFailed => "SKIPPED_PREFLIGHT"
  | invalidState => "INVALID_INITIAL_STATE"
  | initiallyOn => "SKIPPED_MAC_NOT_OFF"
  | dirtyWriteMask => "SKIPPED_PMC_WRITE_MASK"
  | completed => "SUPPLY_CYCLE_COMPLETE"
  | onFailedOff => "POWER_ON_FAILED_CLEANUP_OFF"
  | cleanupFailed => "CLEANUP_NOT_CONFIRMED"
  | activeNotObserved => "MAC_ACTIVE_NOT_OBSERVED"
  end.

Record Result := mkResult {
  r_status : Status; r_on : SequenceResult; r_off : SequenceResult;
  initialState : Z; activeState : Z; finalState : Z; initialPower : Z; finalPower : Z;
  attempted : bool; cleanupAttempted : bool; returnedOff : bool; activeObserved : bool
}.
#[export] Instance Result_rebuild : Rebuild Result := fun r =>
  mkResult (r_status r) (r_on r) (r_off r) (initialState r) (activeState r) (finalState r)
    (initialPower r) (finalPower r) (attempted r) (cleanupAttempted r) (returnedOff r) (activeObserved r).
Definition newResult : Result := mkResult snotRun newSeq newSeq 0 0 0 0 0 false false false false.

(** [(state >> 8) & 3], the state of the MAC. *)
Definition macState (v : Z) : Z := Z.land (Z.shiftr v 8) 3.

Section cycle.
Context {X : Type}.
Record CState := mkC { c_res : Result; c_ext : option X }.
Definition C (A : Type) : Type := M Device CState A.
Definition onR (f : Result -> Result) : C unit := modify (fun s => mkC (f (c_res s)) (c_ext s)).
(** [if (bad) { r.status = st; return r; }] *)
Definition leaveIf (bad : bool) (st : Status) : C unit := when bad (onR (fun r => r <| r_status := st |>);; brk).

Definition preflight (mmio : MmioResult) (x : XtalResult) : C unit :=
  bad ← (if negb (stableValue mmio) || negb (Z.land (Z.shiftr (cfgFirst mmio) 12) 15 =? 1) ||
            negb (bool_decide (xstatus x = complete)) || negb (revisionValid x) || negb (rawRevision x =? 0x11)
         then mret true
         else c ← command; mret (negb (Z.land c 6 =? 2)));
  leaveIf bad preflightFailed;;
  st ← read32 stateRegister; pw ← read32 sysPower;
  onR (fun r => r <| initialState := st |> <| initialPower := pw |>);;
  pmc ← read32 0xcc;
  leaveIf (invalidRegister st || invalidRegister pw || invalidRegister pmc) invalidState;;
  leaveIf (negb (macState st =? 0)) initiallyOn;;
  leaveIf (flag pmc 4) dirtyWriteMask.

(** The power-on and, when the MAC is seen active, the extension. *)
Definition powerOn (extension : prog Device X) : C unit :=
  onR (fun r => r <| attempted := true |>);;
  res ← lift (run on);
  onR (fun r => r <| r_on := res |>);;
  when (bool_decide (error res = noError)) (
    st ← read32 stateRegister;
    onR (fun r => r <| activeState := st |> <| activeObserved := negb (invalidRegister st) && (macState st =? 1) |>));;
  s ← get;
  when (activeObserved (c_res s)) (
    x ← lift extension;
    modify (fun s => mkC (c_res s) (Some x))).

(** The shutdown: the table, the write mask, and the confirming reads. *)
Definition powerOff : C unit :=
  onR (fun r => r <| cleanupAttempted := true |>);;
  res ← lift (run off);
  onR (fun r => r <| r_off := res |>);;
  m ← read32 0xcc;
  maskClosed ← (if invalidRegister m then mret false
                else if negb (flag m 4) then mret true else dcall (Write32 powerW 0xcc (Z.ldiff m 4)));
  after ← read32 0xcc;
  st ← read32 stateRegister; pw ← read32 sysPower;
  let back := bool_decide (error res = noError) && (maskClosed : bool) && negb (invalidRegister after) && negb (flag after 4) &&
    negb (invalidRegister st) && (macState st =? 0) && negb (invalidRegister pw) && flag pw 0x400 in
  onR (fun r => r <| finalState := st |> <| finalPower := pw |> <| returnedOff := back |>);;
  onR (fun r => r <| r_status :=
    if negb back then cleanupFailed
    else if negb (bool_decide (error (r_on r) = noError)) then onFailedOff
    else if negb (activeObserved r) then activeNotObserved
    else completed |>).

Definition cycleBody (mmio : MmioResult) (x : XtalResult) (extension : prog Device X) : C unit :=
  preflight mmio x;; powerOn extension;; powerOff.
Definition cycle (mmio : MmioResult) (x : XtalResult) (extension : prog Device X) : prog Device CState :=
  final_state (cycleBody mmio x extension) (mkC newResult None).
End cycle.
Arguments CState X : clear implicits.

(** ** What a table asks for

    The actions of a table on the device, in order: a step of the crystal
    interface is a command and the wait for its end. *)
Inductive TableAct :=
| aRmw32 (a m v : Z) | aRmw8 (a m v : Z) | aPut (a v : Z) | aWait (a m v : Z) | aPause (us : Z).

Definition actsOf (s : Step) : list TableAct :=
  match kind s with
  | rmw32 => [aRmw32 (address s) (mask s) (value s)]
  | rmw8 => [aRmw8 (address s) (mask s) (value s)]
  | write32 => [aPut (address s) (value s)]
  | poll32 => [aWait (address s) (mask s) (value s)]
  | delay => [aPause (intervalUs s)]
  | xtalK => [aPut xtalControl (Z.lor (Z.lor (Z.lor 0x80000000 (u32 (Z.shiftl (mask s) 16)))
                (u32 (Z.shiftl (value s) 8))) (address s));
              aWait xtalControl 0x80000000 0]
  end.
Definition actsFor (steps : list Step) : list TableAct := concat (map actsOf steps).
Definition isWrite (x : TableAct) : bool :=
  match x with aRmw32 _ _ _ | aRmw8 _ _ _ | aPut _ _ => true | _ => false end.
Definition writeCount (l : list TableAct) : Z := zlen (filter (fun x => isWrite x = true) l).

(** The actions still to do, and the last reading of every register. *)
Record Sequencer := mkSequencer { todo : list TableAct; seen32 : Z -> option Z; seen8 : Z -> option Z }.
Definition sequencerFor (l : list TableAct) : Sequencer := mkSequencer l (fun _ => None) (fun _ => None).

Definition usable (o : option Z) (x : Z) : Prop := o = Some x /\ invalidRegister x = false.

(** The next action only: a read-modify-write of the last, usable reading; a
    write; a command on the crystal interface when it was read idle; a pause
    of the table or between two readings of a wait.  Only listed registers. *)
Definition seqMay (g : Sequencer) (o : devOp) : Prop :=
  match o with
  | Read32 _ | Read8 _ | NowUs => True
  | PauseUs us => match todo g with aPause u :: _ => us = u | aWait _ _ _ :: _ => True | _ => False end
  | Write32 powerW a v => allowed32 a = true /\
      match todo g with
      | aRmw32 b m w :: _ => a = b /\ exists x, usable (seen32 g a) x /\ v = Z.lor (Z.ldiff x m) w
      | aPut b w :: _ => a = b /\ v = w /\
          (a = xtalControl -> exists x, usable (seen32 g a) x /\ flag x 0x80000000 = false)
      | _ => False
      end
  | Write8 powerW a v => allowed8 a = true /\
      match todo g with
      | aRmw8 b m w :: _ => a = b /\ exists x, usable (seen8 g a) x /\ x <> 0xff /\ v = u8 (Z.lor (Z.ldiff x m) w)
      | _ => False
      end
  | _ => False
  end.

Definition pop (g : Sequencer) : Sequencer := mkSequencer (List.tl (todo g)) (seen32 g) (seen8 g).
Definition fulfils (x : TableAct) (a v : Z) : bool :=
  match x with
  | aWait b m w => (a =? b) && negb (invalidRegister v) && (Z.land v m =? w)
  | _ => false
  end.
Definition seqNext (g : Sequencer) (o : devOp) : devAns o -> Sequencer :=
  match o with
  | Read32 a => fun v =>
      let g' := mkSequencer (todo g) (fun b => if b =? a then Some (u32 v) else seen32 g b) (seen8 g) in
      match todo g with x :: _ => if fulfils x a (u32 v) then pop g' else g' | [] => g' end
  | Read8 a => fun v => mkSequencer (todo g) (seen32 g) (fun b => if b =? a then Some (u8 v) else seen8 g b)
  | Write32 _ _ _ | Write8 _ _ _ => fun ok => if (ok : bool) then pop g else g
  | PauseUs _ => fun _ => match todo g with aPause _ :: _ => pop g | _ => g end
  | _ => fun _ => g
  end.
Definition sequencer : protocol Device Sequencer := Protocol (Σ:=Device) seqMay (fun _ _ _ => True) seqNext.

(** The result against what is left. *)
Definition ranAs (steps : list Step) (r : SequenceResult) (g : Sequencer) : Prop :=
  writes r = writeCount (actsFor steps) - writeCount (todo g) /\
  if bool_decide (error r = noError)
  then todo g = [] /\ stepIndex r = zlen steps
  else 0 <= stepIndex r < zlen steps /\
    exists did left, left <> [] /\ actsOf (nth (Z.to_nat (stepIndex r)) steps (mkStep delay 0 0 0 0 0)) = did ++ left /\
      todo g = left ++ actsFor (drop (Z.to_nat (stepIndex r) + 1) steps).

Section sequencer.
Implicit Types (r : SequenceResult) (g : Sequencer).

(** The part of the result the steps do not write. *)
Definition frame r r' : Prop := error r' = error r /\ stepIndex r' = stepIndex r.

Lemma pollTurn_wp a m v interval timeout seqStart start limit i rest r g : todo g = aWait a m v :: rest ->
  wpm sequencer (pollTurn a m v interval timeout seqStart start limit i) r g (fun x r' g' =>
    frame r r' /\ writes r' = writes r /\
    match x with
    | Some (Some noError) => todo g' = rest
    | Some _ => todo g' = aWait a m v :: rest
    | None => False
    end).
Proof.
  intros Ht. unfold pollTurn. wstep. apply nowUs_wp; [exact I|intros now _; cbn beta iota].
  change (next sequencer g NowUs now) with g.
  wstep; [wstep; repeat split; exact Ht|]. wstep. apply nowUs_wp; [exact I|intros now2 _; cbn beta iota].
  change (next sequencer g NowUs now2) with g.
  wstep; [wstep; repeat split; exact Ht|]. wstep. apply read32_wp; [exact I|intros x _; cbn beta iota].
  do 2 wstep. set (y := u32 x).
  assert (Hn : todo (next sequencer g (Read32 a) x) =
    if negb (invalidRegister y) && (Z.land y m =? v) then rest else aWait a m v :: rest).
  { cbn [next sequencer seqNext]. rewrite Ht. cbn [fulfils]. rewrite Z.eqb_refl. cbn [andb]. fold y.
    destruct (negb (invalidRegister y) && (Z.land y m =? v)); reflexivity. }
  cbn [next sequencer] in Hn |- *. revert Hn. generalize (seqNext g (Read32 a) x). intros g1 Hn.
  wstep; [wstep; split; [split; reflexivity|split; [reflexivity|exact Hn]]|].
  wstep; [wstep; split; [split; reflexivity|split; [reflexivity|exact Hn]]|]. cbn [negb andb] in Hn.
  wstep. wstep.
  - apply dcall_wp; [cbn; rewrite Hn; exact I|intros [] _; cbn beta iota]. wstep.
    split; [split; reflexivity|]. split; [reflexivity|]. cbn. rewrite Hn. exact Hn.
  - wstep. wstep. split; [split; reflexivity|]. split; [reflexivity|exact Hn].
Qed.

(** What a step leaves. *)
Definition stepped (s : Step) (rest : list TableAct) r g (x : option Error) r' g' : Prop :=
  frame r r' /\ writes r' - writes r = writeCount (todo g) - writeCount (todo g') /\
  match x with
  | Some noError => todo g' = rest
  | Some _ => exists did left, left <> [] /\ actsOf s = did ++ left /\ todo g' = left ++ rest
  | None => False
  end.

Lemma poll_seq a m v interval timeout seqStart rest r g : todo g = aWait a m v :: rest ->
  wpm sequencer (poll a m v interval timeout seqStart) r g (fun x r' g' =>
    frame r r' /\ writes r' = writes r /\
    match x with
    | Some noError => todo g' = rest
    | Some _ => todo g' = aWait a m v :: rest
    | None => False
    end).
Proof.
  intros Ht. unfold poll. wstep. apply nowUs_wp; [exact I|intros start _; cbn beta iota]. cbv zeta.
  change (next sequencer g NowUs start) with g.
  wstep. destruct (Z.le_gt_cases 0 (timeout / interval + 1)) as [Hl|Hl].
  2: { unfold for_loop. rewrite Z2Nat.nonpos by lia. cbn [for_nat]. do 2 wstep.
       split; [split; reflexivity|]. split; [reflexivity|exact Ht]. }
  apply (wpm_for_loop _ (fun _ r' g' => frame r r' /\ writes r' = writes r /\ todo g' = aWait a m v :: rest)); [exact Hl| | |].
  - repeat split. exact Ht.
  - intros j r1 g1 Hj ((F1 & F2) & F3 & H1). eapply wpm_mono; [apply pollTurn_wp; exact H1|].
    intros [[e|]|] r2 g2 ((E1 & E2) & E3 & H2); [|repeat split; congruence|contradiction].
    wstep. split; [split; congruence|]. split; [congruence|]. destruct e; exact H2.
  - intros r1 g1 (F1 & F2 & F3). wstep. split; [exact F1|]. split; [exact F2|exact F3].
Qed.

Lemma writeCount_cons x l : writeCount (x :: l) = (if isWrite x then 1 else 0) + writeCount l.
Proof.
  unfold writeCount, zlen. rewrite filter_cons. destruct (isWrite x); rewrite ?decide_True, ?decide_False by congruence; simpl; lia.
Qed.
Lemma writeCount_nonneg l : 0 <= writeCount l. Proof. apply zlen_nonneg. Qed.

(** Nothing happened: every action of the step is left. *)
Lemma stuck s rest r g e : e <> noError -> actsOf s <> [] -> todo g = actsOf s ++ rest ->
  forall r', frame r r' -> writes r' = writes r -> stepped s rest r g (Some e) r' g.
Proof.
  intros He Ha Ht r' Hf Hw. split; [exact Hf|]. split; [lia|]. destruct e; [congruence|..];
    exists [], (actsOf s); auto.
Qed.

Lemma actsOf_nonempty s : actsOf s <> []. Proof. unfold actsOf. destruct (kind s); discriminate. Qed.

Lemma xtalStep_wp s seqStart rest r g : kind s = xtalK -> todo g = actsOf s ++ rest -> 0 <= writes r < 2^31 ->
  wpm sequencer (xtalStep s seqStart) r g (stepped s rest r g).
Proof.
  intros Hk Ht Hw. unfold xtalStep, setLast. wstep. apply read32_wp; [exact I|intros x _; cbn beta iota].
  pose proof (actsOf_nonempty s) as Hne.
  assert (Ht1 : todo (next sequencer g (Read32 xtalControl) x) = actsOf s ++ rest).
  { cbn [next sequencer seqNext]. rewrite Ht. unfold actsOf. rewrite Hk. reflexivity. }
  assert (Hs1 : seen32 (next sequencer g (Read32 xtalControl) x) xtalControl = Some (u32 x)).
  { cbn [next sequencer seqNext]. rewrite Ht. unfold actsOf. rewrite Hk. reflexivity. }
  revert Ht1 Hs1. generalize (next sequencer g (Read32 xtalControl) x). intros g1 Ht1 Hs1.
  assert (Hsame : forall e r', e <> noError -> frame r r' -> writes r' = writes r -> stepped s rest r g (Some e) r' g1).
  { intros e r' He Hf Hwr. destruct (stuck s rest r g1 e He Hne Ht1 r' Hf Hwr) as (A & B & C).
    split; [exact A|]. split; [rewrite Ht, Ht1 in *; exact B|exact C]. }
  do 2 wstep. wstep; [wstep; apply Hsame; [discriminate|split; reflexivity|reflexivity]|].
  wstep; [wstep; apply Hsame; [discriminate|split; reflexivity|reflexivity]|]. cbv zeta.
  wstep. apply dcall_wp.
  { cbn. rewrite Ht1. unfold actsOf. rewrite Hk. cbn. split; [reflexivity|]. split; [reflexivity|]. split; [reflexivity|].
    intros _. exists (u32 x). split; [split; assumption|assumption]. }
  intros okw _. destruct okw; cbn [negb].
  2: { wstep. apply Hsame; [discriminate|split; reflexivity|reflexivity]. }
  do 2 wstep. match goal with |- wpm _ _ _ ?x _ => set (g2 := x) end.
  assert (Ht2 : todo g2 = aWait xtalControl 0x80000000 0 :: rest).
  { unfold g2. cbn. rewrite Ht1. unfold actsOf. rewrite Hk. reflexivity. }
  assert (Hcnt : writeCount (todo g) - writeCount (todo g2) = 1).
  { rewrite Ht, Ht2. unfold actsOf. rewrite Hk. cbn [app]. rewrite !writeCount_cons. cbn [isWrite]. lia. }
  eapply wpm_mono; [apply poll_seq; exact Ht2|].
  intros x' r2 g3 ((F1 & F2) & F3 & H3). cbn in F1, F2, F3.
  assert (Hw2 : writes r2 = writes r + 1) by (rewrite F3; apply u32_small; unfold in_u32; lia).
  split; [split; assumption|].
  destruct x' as [e|]; [|contradiction].
  assert (Hg3 : writeCount (todo g3) = writeCount (todo g2)).
  { rewrite Ht2. destruct e; rewrite H3, ?writeCount_cons; reflexivity. }
  split; [lia|]. destruct e; [exact H3|..];
    exists [aPut xtalControl (Z.lor (Z.lor (Z.lor 0x80000000 (u32 (Z.shiftl (mask s) 16))) (u32 (Z.shiftl (value s) 8))) (address s))],
      [aWait xtalControl 0x80000000 0]; (split; [discriminate|]); unfold actsOf; rewrite Hk; (split; [reflexivity|exact H3]).
Qed.

Lemma writeStep_wp s rest r g : kind s = rmw32 \/ kind s = rmw8 \/ kind s = write32 ->
  (kind s = write32 -> address s <> xtalControl) ->
  todo g = actsOf s ++ rest -> 0 <= writes r < 2^31 ->
  wpm sequencer (writeStep s) r g (stepped s rest r g).
Proof.
  intros Hk Hx Ht Hw. pose proof (actsOf_nonempty s) as Hne.
  assert (Hok : forall g1 r', todo g1 = actsOf s ++ rest -> frame r r' -> writes r' = writes r ->
    stepped s rest r g (Some noError) (r' <| writes := u32 (writes r' + 1) |>) (pop g1)).
  { intros g1 r' H1 [F1 F2] H2. split; [split; [exact F1|exact F2]|]. cbn. rewrite H2, Ht, H1.
    rewrite u32_small by (unfold in_u32; lia).
    unfold actsOf. destruct Hk as [Hk|[Hk|Hk]]; rewrite Hk; cbn [app List.tl]; rewrite writeCount_cons; cbn [isWrite]; split; auto; lia. }
  assert (Hbad : forall e g1 r', e <> noError -> todo g1 = actsOf s ++ rest -> frame r r' -> writes r' = writes r ->
    stepped s rest r g (Some e) r' g1).
  { intros e g1 r' He H1 Hf H2. destruct (stuck s rest r g1 e He Hne H1 r' Hf H2) as (A & B & C).
    split; [exact A|]. split; [rewrite Ht, H1 in *; exact B|exact C]. }
  assert (Hfin : forall g1 r1 (ok : bool), todo g1 = actsOf s ++ rest -> frame r r1 -> writes r1 = writes r ->
    wpm sequencer (if negb ok then mret rejectedWrite else modify (fun r => r <| writes := u32 (writes r + 1) |>);; mret noError)
      r1 (if ok then pop g1 else g1) (stepped s rest r g)).
  { intros g1 r1 ok H1 Hf H2. destruct ok; cbn [negb].
    - do 2 wstep. wstep. apply Hok; assumption.
    - wstep. apply Hbad; [discriminate|assumption..]. }
  unfold writeStep, newValue, setLast, isRmw8.
  destruct Hk as [Hk|[Hk|Hk]]; rewrite Hk.
  - change (bool_decide (rmw32 = rmw8)) with false. change (bool_decide (rmw32 = rmw32)) with true. cbn [orb andb].
    do 2 wstep. apply read32_wp; [exact I|intros x _; cbn beta iota].
    assert (Ht1 : todo (next sequencer g (Read32 (address s)) x) = actsOf s ++ rest).
    { cbn [next sequencer seqNext]. rewrite Ht. unfold actsOf. rewrite Hk. reflexivity. }
    assert (Hs1 : seen32 (next sequencer g (Read32 (address s)) x) (address s) = Some (u32 x)).
    { cbn [next sequencer seqNext]. rewrite Ht. unfold actsOf. rewrite Hk. cbn. rewrite Z.eqb_refl. reflexivity. }
    revert Ht1 Hs1. generalize (next sequencer g (Read32 (address s)) x). intros g1 Ht1 Hs1.
    do 2 wstep. rewrite orb_false_r. wstep; [wstep; wstep; apply Hbad; [discriminate|exact Ht1|split; reflexivity|reflexivity]|].
    wstep. wstep. wstep.
    + apply dcall_wp.
      { cbn. rewrite Ht1. unfold actsOf. rewrite Hk. cbn. split; [assumption|]. split; [reflexivity|].
        exists (u32 x). split; [split; assumption|reflexivity]. }
      intros ok _. apply Hfin; [exact Ht1|split; reflexivity|reflexivity].
    + wstep. apply (Hfin g1 _ false Ht1); [split; reflexivity|reflexivity].
  - change (bool_decide (rmw8 = rmw8)) with true. cbn [orb andb].
    do 2 wstep. apply read8_wp; [exact I|intros x _; cbn beta iota].
    assert (Ht1 : todo (next sequencer g (Read8 (address s)) x) = actsOf s ++ rest) by exact Ht.
    assert (Hs1 : seen8 (next sequencer g (Read8 (address s)) x) (address s) = Some (u8 x)).
    { cbn. rewrite Z.eqb_refl. reflexivity. }
    revert Ht1 Hs1. generalize (next sequencer g (Read8 (address s)) x). intros g1 Ht1 Hs1.
    do 2 wstep. wstep; [wstep; wstep; apply Hbad; [discriminate|exact Ht1|split; reflexivity|reflexivity]|].
    apply orb_false_iff in Heqb as [E1 E2].
    wstep. wstep. wstep.
    + apply dcall_wp.
      { cbn. rewrite Ht1. unfold actsOf. rewrite Hk. cbn. split; [assumption|]. split; [reflexivity|].
        exists (u8 x). split; [split; assumption|]. split; [lia|reflexivity]. }
      intros ok _. apply Hfin; [exact Ht1|split; reflexivity|reflexivity].
    + wstep. apply (Hfin g1 _ false Ht1); [split; reflexivity|reflexivity].
  - change (bool_decide (write32 = rmw8)) with false. change (bool_decide (write32 = rmw32)) with false. cbn [orb].
    wstep. wstep. wstep. wstep.
    + apply dcall_wp.
      { cbn. rewrite Ht. unfold actsOf. rewrite Hk. cbn. split; [assumption|]. split; [reflexivity|]. split; [reflexivity|].
        intros E. contradiction (Hx Hk E). }
      intros ok _. apply Hfin; [exact Ht|split; reflexivity|reflexivity].
    + wstep. apply (Hfin g _ false Ht); [split; reflexivity|reflexivity].
Qed.

(** A table that leaves the crystal interface to its own steps. *)
Definition tableOk (steps : list Step) : Prop :=
  zlen steps < 2 ^ 30 /\ Forall (fun s => kind s = write32 -> address s <> xtalControl) steps.

Lemma runStep_wp s start rest r g : kind s <> delay -> (kind s = write32 -> address s <> xtalControl) ->
  todo g = actsOf s ++ rest -> 0 <= writes r < 2 ^ 31 ->
  wpm sequencer (runStep s start) r g (stepped s rest r g).
Proof.
  intros Hk Hx Ht Hw. unfold runStep. destruct (kind s) eqn:E; [| | | |congruence|apply xtalStep_wp; assumption].
  1-3: apply writeStep_wp; rewrite ?E; auto.
  assert (Ha : actsOf s = [aWait (address s) (mask s) (value s)]) by (unfold actsOf; rewrite E; reflexivity).
  rewrite Ha in Ht. eapply wpm_mono; [apply poll_seq; exact Ht|].
  intros [e|] r' g' (Hf & H2 & H3); [|contradiction]. split; [exact Hf|].
  assert (Hg : writeCount (todo g') = writeCount (todo g)).
  { rewrite Ht. destruct e; rewrite H3; cbn [app]; rewrite ?writeCount_cons; reflexivity. }
  split; [lia|]. destruct e; [exact H3|..]; exists [], (actsOf s); rewrite Ha;
    (split; [discriminate|split; [reflexivity|exact H3]]).
Qed.

Lemma actsFor_drop steps i : 0 <= i < zlen steps ->
  actsFor (drop (Z.to_nat i) steps) =
  actsOf (nth (Z.to_nat i) steps (mkStep delay 0 0 0 0 0)) ++ actsFor (drop (Z.to_nat i + 1) steps).
Proof.
  intros Hi. unfold zlen in Hi. destruct (lookup_lt_is_Some_2 steps (Z.to_nat i)) as [x Hx]; [lia|].
  rewrite (drop_S steps x (Z.to_nat i) Hx), Nat.add_1_r. rewrite nth_lookup, Hx. reflexivity.
Qed.

Lemma writeCount_app l1 l2 : writeCount (l1 ++ l2) = writeCount l1 + writeCount l2.
Proof. unfold writeCount. rewrite filter_app. apply zlen_app. Qed.
Lemma writeCount_acts s : 0 <= writeCount (actsOf s) <= 1.
Proof. unfold actsOf. destruct (kind s); vm_compute; split; discriminate. Qed.
Lemma writeCount_for steps : 0 <= writeCount (actsFor steps) <= zlen steps.
Proof.
  induction steps as [|s l IH]; [vm_compute; split; discriminate|]. unfold actsFor in *. cbn [map concat].
  rewrite writeCount_app. pose proof (writeCount_acts s). unfold zlen in *. cbn [List.length]. lia.
Qed.

Lemma writeCount_drop n steps : writeCount (actsFor (drop n steps)) <= writeCount (actsFor steps).
Proof.
  rewrite <- (take_drop n steps) at 2. unfold actsFor. rewrite map_app, concat_app, writeCount_app.
  pose proof (writeCount_nonneg (concat (map actsOf (take n steps)))). lia.
Qed.

(** Between two steps. *)
Definition between steps i r g : Prop :=
  todo g = actsFor (drop (Z.to_nat i) steps) /\ error r = noError /\
  writes r = writeCount (actsFor steps) - writeCount (todo g).

Lemma runTurn_wp steps start i r g : tableOk steps -> 0 <= i < zlen steps -> between steps i r g ->
  wpm sequencer (runTurn steps start i) r g (fun x r' g' => match x with
    | Some None => between steps (i + 1) r' g'
    | Some (Some _) => ranAs steps r' g' /\ error r' <> noError
    | None => False end).
Proof.
  intros [Hn Hs] Hi (Ht & He & Hw). unfold runTurn, pauseUs. set (s := nth (Z.to_nat i) steps _).
  pose proof (actsFor_drop steps i Hi) as Hd. fold s in Hd. rewrite Hd in Ht.
  pose proof (writeCount_for steps) as Hb. pose proof (writeCount_nonneg (todo g)) as Hb2.
  pose proof (writeCount_drop (Z.to_nat i) steps) as Hb3. rewrite Hd, <- Ht in Hb3.
  do 2 wstep. wstep. apply nowUs_wp; [exact I|intros now _; cbn beta iota]. change (next sequencer g NowUs now) with g.
  wstep.
  { do 2 wstep. wstep. split; [|discriminate]. split; [exact Hw|]. cbn. split; [exact Hi|].
    exists [], (actsOf s). split; [apply actsOf_nonempty|]. split; [reflexivity|exact Ht]. }
  wstep.
  { apply bool_decide_eq_true in Heqb0. wstep. apply dcall_wp.
    { cbn. rewrite Ht. unfold actsOf. rewrite Heqb0. reflexivity. }
    intros [] _. wstep.
    assert (Hg : todo (next sequencer g (PauseUs (intervalUs s)) tt) = actsFor (drop (Z.to_nat i + 1) steps)).
    { cbn. rewrite Ht. unfold actsOf. rewrite Heqb0. cbn. rewrite Ht. unfold actsOf. rewrite Heqb0. reflexivity. }
    split; [rewrite Hg; do 2 f_equal; lia|]. split; [exact He|]. rewrite Hg. cbn [writes update_field]. rewrite Ht in Hw.
    rewrite writeCount_app in Hw. unfold actsOf in Hw. rewrite Heqb0 in Hw. exact Hw. }
  apply bool_decide_eq_false in Heqb0.
  wstep. eapply wpm_mono; [apply (runStep_wp s start (actsFor (drop (Z.to_nat i + 1) steps))); [exact Heqb0| |exact Ht|]|].
  2: { cbn. change (2 ^ 30) with 1073741824 in Hn. change (2 ^ 31) with 2147483648. lia. }
  { rewrite Forall_forall in Hs. apply Hs. unfold s. unfold zlen in Hi.
    destruct (lookup_lt_is_Some_2 steps (Z.to_nat i)) as [x Hx]; [lia|]. rewrite nth_lookup, Hx. cbn.
    eapply list_elem_of_lookup_2. exact Hx. }
  intros [e|] r1 g1 (Hf & H1 & H2); [|contradiction]. cbn in Hf, H1. destruct Hf as [F1 F2]. cbn in F1, F2.
  do 2 wstep. wstep. destruct (decide (e = noError)) as [->|Hne].
  - rewrite bool_decide_true by reflexivity. split; [rewrite H2; do 2 f_equal; lia|]. split; [reflexivity|]. cbn. lia.
  - rewrite bool_decide_false by exact Hne. split; [|exact Hne]. split; [cbn; lia|]. cbn.
    rewrite bool_decide_false by exact Hne. rewrite F2. split; [exact Hi|].
    destruct e; [congruence|..]; destruct H2 as (did & left & L1 & L2 & L3); exists did, left; auto.
Qed.

Lemma runBody_wp steps : tableOk steps ->
  wpm sequencer (runBody steps) newSeq (sequencerFor (actsFor steps)) (fun _ r g => ranAs steps r g).
Proof.
  intros Hok. unfold runBody. wstep. apply nowUs_wp; [exact I|intros start _; cbn beta iota]. wstep.
  apply (wpm_for_loop _ (between steps)); [apply zlen_nonneg| | |].
  - split; [reflexivity|]. split; [reflexivity|]. cbn. lia.
  - intros j r g Hj Hb. eapply wpm_mono; [apply runTurn_wp; eassumption|].
    intros [[[]|]|] r' g' H; [apply wpm_ret; apply H|exact H|contradiction].
  - intros r g (H1 & H2 & H3). wstep.
    assert (Ht : todo g = []) by (rewrite H1; unfold zlen; rewrite Nat2Z.id, drop_all; reflexivity).
    split; [exact H3|]. cbn [error stepIndex update_field]. cbn. rewrite H2, bool_decide_true by reflexivity. auto.
Qed.
End sequencer.

(** The calls of a table: at most 1001 readings for a wait. *)
Definition waitsBounded (steps : list Step) : Prop :=
  Forall (fun s => timeoutUs s / intervalUs s <= 1000) steps.

Lemma poll_cost a m v interval timeout seqStart : timeout / interval <= 1000 ->
  mcost (poll a m v interval timeout seqStart) 4005.
Proof.
  intros Hl. eapply mcost_le; [unfold poll, pollTurn, pauseUs; cbv zeta; mcost|]; try lia.
Qed.

Lemma run_cost steps : waitsBounded steps -> cost (run steps) (1 + zlen steps * 4009).
Proof.
  intros Hb. unfold run. apply (cost_final (runBody steps)). unfold runBody.
  assert (Ht : forall start i, mcost (runTurn steps start i) 4009).
  { intros start i. unfold runTurn, pauseUs. set (s := nth _ _ _).
    assert (Hs : timeoutUs s / intervalUs s <= 1000).
    { unfold s. rewrite nth_lookup. destruct (steps !! Z.to_nat i) eqn:E; [|vm_compute; discriminate].
      cbn. eapply Forall_lookup_1 in Hb; [|exact E]. exact Hb. }
    pose proof (poll_cost (address s) (mask s) (value s) (intervalUs s) (timeoutUs s) start Hs) as Hp.
    pose proof (poll_cost xtalControl 0x80000000 0 50 50000 start ltac:(vm_compute; discriminate)) as Hp2.
    assert (Hr : mcost (runStep s start) 4007).
    { unfold runStep. destruct (kind s).
      4: { eapply mcost_le; [exact Hp|lia]. }
      5: { unfold xtalStep, setLast. eapply mcost_le; [cbv zeta; mcost|]; lia. }
      all: unfold writeStep, newValue, setLast; eapply mcost_le; [mcost|]; lia. }
    eapply mcost_le; [mcost; try (destruct a0; [apply mcost_ret|apply mcost_modify])|]; lia. }
  pose proof (zlen_nonneg steps).
  eapply mcost_le; [mcost; try (destruct a0; [apply mcost_ret|apply mcost_modify])|]; lia.
Qed.

(** whatever the device and the clock do, running a table performs its
    actions in order and nothing else: each write goes to a listed register
    and is the step's own, computed from the last usable reading of that
    register; a command goes to the crystal interface only when it was read
    idle, and the next action waits for it to end; a wait is left only when
    its bits were read.  The result tells how far it came: without an error
    every action is done; with one, the actions up to the reported step are
    done, that step is not complete and nothing after it has begun; the
    number of writes is the number the device accepted.  With waits of at
    most 1001 readings a table of [n] steps makes at most [1 + 4009 n] calls. *)
Theorem run_follows steps tr r : tableOk steps -> waitsBounded steps -> exec (run steps) tr r ->
  let g := after sequencer (sequencerFor (actsFor steps)) tr in
  accepts sequencer (sequencerFor (actsFor steps)) tr /\ ranAs steps r g /\ zlen tr <= 1 + zlen steps * 4009.
Proof.
  intros Hok Hb He. pose proof (run_cost steps Hb tr r He) as Hc.
  destruct (wpm_exec sequencer (runBody steps) newSeq (sequencerFor (actsFor steps)) (ranAs steps) tr r) as [Ha Hr].
  - apply runBody_wp. exact Hok.
  - exact He.
  - apply relies_trivial. intros; exact I.
  - auto.
Qed.

(** ** The cycle *)

(** What is known of the supply: the first readings of the state and of the
    write mask, the last readings of the state, power and mask registers, and
    whether a power write was issued. *)
Record Supply := mkSupply {
  firstState : option Z; firstMask : option Z; lastState : option Z; lastPower : option Z; lastMask : option Z;
  touched : bool
}.
Definition newSupply : Supply := mkSupply None None None None None false.
Definition first (o : option Z) (v : Z) : option Z := match o with Some _ => o | None => Some v end.

(** The device was found off, with the write mask closed. *)
Definition foundOff (g : Supply) : Prop :=
  (exists v, firstState g = Some v /\ invalidRegister v = false /\ macState v = 0) /\
  (exists m, firstMask g = Some m /\ invalidRegister m = false /\ flag m 4 = false).
(** The MAC was last seen active. *)
Definition active (g : Supply) : Prop :=
  exists v, lastState g = Some v /\ invalidRegister v = false /\ macState v = 1.

(** Supply writes go to listed registers of a device found off; other writes
    and bus mastering are for an extension, which runs on an active MAC. *)
Definition supplyMay (g : Supply) (o : devOp) : Prop :=
  match o with
  | Read8 _ | Read16 _ | Read32 _ | Command | NowUs | PauseUs _ | Length | Physical => True
  | Write32 powerW a _ => allowed32 a = true /\ foundOff g
  | Write8 powerW a _ => allowed8 a = true /\ foundOff g
  | Map | Unmap | WriteCommand _ | StartXtalCvRead | ReadXtalData => False
  | _ => foundOff g
  end.
Definition supplyNext (g : Supply) (o : devOp) : devAns o -> Supply :=
  match o with
  | Read32 a => fun v =>
      mkSupply (if a =? stateRegister then first (firstState g) (u32 v) else firstState g)
        (if a =? 0xcc then first (firstMask g) (u32 v) else firstMask g)
        (if a =? stateRegister then Some (u32 v) else lastState g)
        (if a =? sysPower then Some (u32 v) else lastPower g)
        (if a =? 0xcc then Some (u32 v) else lastMask g) (touched g)
  | Write32 powerW _ _ | Write8 powerW _ _ => fun _ =>
      mkSupply (firstState g) (firstMask g) (lastState g) (lastPower g) (lastMask g) true
  | _ => fun _ => g
  end.
Definition supply : protocol Device Supply := Protocol (Σ:=Device) supplyMay (fun _ _ _ => True) supplyNext.

(** An extension that keeps the rules on an active MAC. *)
Definition suppliedExtension {X} (e : prog Device X) : Prop :=
  forall g, foundOff g -> active g -> wp supply e g (fun _ _ => True).

Definition cycleOk {X} (s : CState X) (g : Supply) : Prop :=
  let r := c_res s in
  (if attempted r
   then foundOff g /\ cleanupAttempted r = true /\
     r_status r = (if negb (returnedOff r) then cleanupFailed
                   else if negb (bool_decide (error (r_on r) = noError)) then onFailedOff
                   else if negb (activeObserved r) then activeNotObserved else completed)
   else touched g = false /\ cleanupAttempted r = false /\ activeObserved r = false /\ returnedOff r = false /\
     (r_status r = preflightFailed \/ r_status r = invalidState \/ r_status r = initiallyOn \/ r_status r = dirtyWriteMask)) /\
  ((exists x, c_ext s = Some x) <-> activeObserved r = true) /\
  (returnedOff r = true -> error (r_off r) = noError /\
     (exists v, lastState g = Some v /\ invalidRegister v = false /\ macState v = 0) /\
     (exists v, lastPower g = Some v /\ invalidRegister v = false /\ flag v 0x400 = true) /\
     (exists v, lastMask g = Some v /\ invalidRegister v = false /\ flag v 4 = false)).

Lemma foundOff_next g o x : foundOff g -> foundOff (supplyNext g o x).
Proof.
  intros [(v & V1 & V2) (m & M1 & M2)].
  destruct o as [| |a|[]|[]|[]| | | | | | | | | | | | | |]; try (split; eauto; fail).
  split; cbn; [exists v|exists m]; rewrite ?V1, ?M1; destruct (_ =? _); auto.
Qed.

Section cycle.
Context {X : Type} (extension : prog Device X) (Hext : suppliedExtension extension).
Implicit Types (s : CState X) (g : Supply).

Lemma run_supply steps g : foundOff g -> wp supply (run steps) g (fun _ g' => foundOff g').
Proof.
  intros Hg. unfold run. apply wp_final.
  assert (Hs : stays supply (fun (_ : SequenceResult) g' => foundOff g') (runBody steps)).
  { assert (Hc : forall S o, (forall g, foundOff g -> supplyMay g o) ->
      stays supply (fun (_ : S) g' => foundOff g') (dcall o)).
    { intros S o Hm s g' H. apply dcall_wp; [apply Hm; exact H|]. intros x _. apply foundOff_next. exact H. }
    assert (H32 : forall a, stays supply (fun (_ : SequenceResult) g' => foundOff g') (read32 a)).
    { intros a s g' H. apply read32_wp; [exact I|]. intros x _. apply foundOff_next. exact H. }
    assert (H8 : forall a, stays supply (fun (_ : SequenceResult) g' => foundOff g') (read8 a)).
    { intros a s g' H. apply read8_wp; [exact I|]. intros x _. apply foundOff_next. exact H. }
    assert (Ht : stays supply (fun (_ : SequenceResult) g' => foundOff g') nowUs).
    { intros s g' H. apply nowUs_wp; [exact I|]. intros x _. exact H. }
    assert (Hp : forall a m v i t q, stays supply (fun (_ : SequenceResult) g' => foundOff g') (poll a m v i t q)).
    { intros. unfold poll, pollTurn, pauseUs. stays; try apply stays_modify; auto. apply Hc. intros; exact I. }
    unfold runBody, runTurn, pauseUs. stays; try apply stays_modify; auto.
    - apply Hc. intros; exact I.
    - unfold runStep, writeStep, newValue, xtalStep, setLast. destruct (kind _); stays; try apply stays_modify; auto;
        try (apply Hc; intros; split; assumption).
      apply Hc. intros; split; [reflexivity|assumption].
    - destruct a0; [apply stays_ret|apply stays_modify; auto]. }
  apply Hs. exact Hg.
Qed.

(** Before the power-on. *)
Definition idleSupply s g : Prop :=
  touched g = false /\ attempted (c_res s) = false /\ cleanupAttempted (c_res s) = false /\
  activeObserved (c_res s) = false /\ returnedOff (c_res s) = false /\ c_ext s = None.
Definition refused s g : Prop :=
  idleSupply s g /\ (r_status (c_res s) = preflightFailed \/ r_status (c_res s) = invalidState \/
    r_status (c_res s) = initiallyOn \/ r_status (c_res s) = dirtyWriteMask).

Lemma leaveIf_wp bad st s g Q : idleSupply s g ->
  (st = preflightFailed \/ st = invalidState \/ st = initiallyOn \/ st = dirtyWriteMask) ->
  (forall s', refused s' g -> Q None s' g) -> (bad = false -> Q (Some tt) s g) ->
  wpm supply (leaveIf bad st) s g Q.
Proof.
  intros Hi Hst HT HF. unfold leaveIf, onR. wstep.
  - do 2 wstep. wstep. apply HT. split; [exact Hi|exact Hst].
  - wstep. apply HF. reflexivity.
Qed.

Lemma preflight_wp mmio x s g : idleSupply s g -> firstState g = None -> firstMask g = None ->
  wpm supply (preflight mmio x) s g (fun r s' g' =>
    match r with Some _ => idleSupply s' g' /\ foundOff g' | None => refused s' g' end).
Proof.
  intros Hi Hs0 Hm0. unfold preflight.
  assert (Hk : forall bad, wpm supply
    (leaveIf bad preflightFailed;;
     st ← read32 stateRegister; pw ← read32 sysPower;
     onR (fun r => r <| initialState := st |> <| initialPower := pw |>);;
     pmc ← read32 0xcc;
     leaveIf (invalidRegister st || invalidRegister pw || invalidRegister pmc) invalidState;;
     leaveIf (negb (macState st =? 0)) initiallyOn;;
     leaveIf (flag pmc 4) dirtyWriteMask) s g (fun r s' g' =>
       match r with Some _ => idleSupply s' g' /\ foundOff g' | None => refused s' g' end)).
  { intros bad. wstep. apply leaveIf_wp; [exact Hi|tauto|auto|intros _].
    wstep. apply read32_wp; [exact I|intros v _; cbn beta iota]. wstep. apply read32_wp; [exact I|intros p _; cbn beta iota].
    unfold onR. do 2 wstep. wstep. apply read32_wp; [exact I|intros m _; cbn beta iota].
    set (s1 := mkC _ _). set (g1 := next supply _ _ m).
    assert (H1 : idleSupply s1 g1) by (repeat split; apply Hi).
    assert (Hf : firstState g1 = Some (u32 v) /\ firstMask g1 = Some (u32 m)) by (cbn; rewrite Hs0, Hm0; auto).
    clearbody s1 g1. wstep. apply leaveIf_wp; [exact H1|tauto|auto|intros E1].
    wstep. apply leaveIf_wp; [exact H1|tauto|auto|intros E2]. apply leaveIf_wp; [exact H1|tauto|auto|intros E3].
    split; [exact H1|]. destruct Hf as [F1 F2]. apply orb_false_iff in E1 as [E1 E5]. apply orb_false_iff in E1 as [E1 E4].
    split; [exists (u32 v)|exists (u32 m)]; repeat split; auto. lia. }
  wstep. wstep; [wstep; apply Hk|]. wstep. apply command_wp; [exact I|intros c _; cbn beta iota]. wstep. apply Hk.
Qed.

(** After the power-on and the extension. *)
Definition poweredOn s g : Prop :=
  foundOff g /\ attempted (c_res s) = true /\ returnedOff (c_res s) = false /\
  ((exists x, c_ext s = Some x) <-> activeObserved (c_res s) = true).

Lemma wp_foundOff {A} (p : prog Device A) g Q : foundOff g -> wp supply p g Q ->
  wp supply p g (fun a g' => Q a g' /\ foundOff g').
Proof.
  revert g. induction p as [a|o k IH]; intros g Hg; simpl; [auto|].
  intros [Hm Hk]. split; [exact Hm|]. intros x Hx. apply IH; [apply foundOff_next; exact Hg|auto].
Qed.

Lemma powerOn_wp s g : idleSupply s g -> foundOff g ->
  wpm supply (powerOn extension) s g (fun r s' g' => r <> None /\ poweredOn s' g').
Proof.
  intros (I1 & I2 & I3 & I4 & I5 & I6) Hf. unfold powerOn, onR. do 2 wstep. wstep. apply wpm_lift.
  eapply wp_mono; [|apply run_supply; exact Hf]. intros res g1 H1. do 2 wstep. do 2 wstep.
  - wstep. apply read32_wp; [exact I|intros v _; cbn beta iota]. pose proof (foundOff_next g1 (Read32 stateRegister) v H1) as H2.
    do 3 wstep. cbn [c_res activeObserved update_field]. cbn. unfold when.
    destruct (negb (invalidRegister (u32 v)) && (macState (u32 v) =? 1)) eqn:E.
    + wstep. apply wpm_lift. apply andb_true_iff in E as [E1 E2].
      eapply wp_mono; [|apply wp_foundOff; [exact H2|apply Hext; [exact H2|]]].
      * intros y g2 [_ H3]. wstep. split; [discriminate|]. split; [exact H3|]. split; [reflexivity|]. split; [exact I5|].
        cbn. split; [reflexivity|eauto].
      * exists (u32 v). cbn. split; [reflexivity|]. split; [apply negb_true_iff; exact E1|lia].
    + wstep. split; [discriminate|]. split; [exact H2|]. split; [reflexivity|]. split; [exact I5|].
      cbn. rewrite I6. split; [intros [y Hy]|]; discriminate.
  - wstep. do 2 wstep. match goal with |- wpm _ (if ?b then _ else _) _ _ _ => change b with (activeObserved (c_res s)) end.
    rewrite I4. wstep. split; [discriminate|]. split; [exact H1|].
    split; [reflexivity|]. split; [exact I5|]. cbn. rewrite I6, I4. split; [intros [y Hy]|]; discriminate.
Qed.

Lemma powerOff_wp s g : poweredOn s g -> wpm supply (powerOff (X:=X)) s g (fun _ s' g' => cycleOk s' g').
Proof.
  intros (P1 & P2 & P3 & P4). unfold powerOff, onR. do 2 wstep. wstep. apply wpm_lift.
  eapply wp_mono; [|apply run_supply; exact P1]. intros res g1 H1. do 2 wstep.
  wstep. apply read32_wp; [exact I|intros m _; cbn beta iota]. pose proof (foundOff_next g1 (Read32 0xcc) m H1) as H2.
  cbn [next supply]. revert H2. generalize (supplyNext g1 (Read32 0xcc) m). intros g2 H2.
  assert (Hk : forall closed g3, foundOff g3 -> wpm supply
    (after ← read32 0xcc; st ← read32 stateRegister; pw ← read32 sysPower;
     let back := bool_decide (error res = noError) && closed && negb (invalidRegister after) && negb (flag after 4) &&
       negb (invalidRegister st) && (macState st =? 0) && negb (invalidRegister pw) && flag pw 0x400 in
     modify (fun s => mkC ((c_res s) <| finalState := st |> <| finalPower := pw |> <| returnedOff := back |>) (c_ext s));;
     modify (fun s => mkC ((c_res s) <| r_status :=
       if negb back then cleanupFailed
       else if negb (bool_decide (error (r_on (c_res s)) = noError)) then onFailedOff
       else if negb (activeObserved (c_res s)) then activeNotObserved
       else completed |>) (c_ext s))) (mkC ((c_res s) <| cleanupAttempted := true |> <| r_off := res |>) (c_ext s)) g3
    (fun _ s' g' => cycleOk s' g')).
  { intros cl g3 H3. wstep. apply read32_wp; [exact I|intros a _; cbn beta iota].
    wstep. apply read32_wp; [exact I|intros v _; cbn beta iota]. wstep. apply read32_wp; [exact I|intros p _; cbn beta iota].
    cbv zeta. do 2 wstep. wstep. unfold cycleOk. cbn. rewrite P2.
    pose proof (foundOff_next _ (Read32 sysPower) p (foundOff_next _ (Read32 stateRegister) v (foundOff_next _ (Read32 0xcc) a H3))) as H4.
    split; [split; [exact H4|split; reflexivity]|]. split; [exact P4|]. rewrite !andb_true_iff, !negb_true_iff.
    intros (((((((B1 & B2) & B3) & B4) & B5) & B6) & B7) & B8). apply bool_decide_eq_true in B1. split; [exact B1|].
    split; [exists (u32 v)|split; [exists (u32 p)|exists (u32 a)]]; repeat split; auto. lia. }
  wstep. wstep; [wstep; apply Hk; exact H2|]. wstep; [wstep; apply Hk; exact H2|].
  apply dcall_wp; [split; [reflexivity|exact H2]|]. intros ok _. apply Hk. apply (foundOff_next g2 (Write32 powerW 0xcc _) ok H2).
Qed.

Lemma cycleBody_wp mmio x : wpm supply (cycleBody mmio x extension) (mkC newResult None) newSupply (fun _ s' g' => cycleOk s' g').
Proof.
  unfold cycleBody. wstep. eapply wpm_mono; [apply preflight_wp; [repeat split|reflexivity|reflexivity]|].
  intros [[]|] s1 g1.
  - intros [H1 H2]. wstep. eapply wpm_mono; [apply powerOn_wp; [exact H1|exact H2]|].
    intros [[]|] s2 g2 [Hn H3]; [apply powerOff_wp; exact H3|congruence].
  - intros [(I1 & I2 & I3 & I4 & I5 & I6) Hst]. unfold cycleOk. rewrite I2, I4, I5, I6.
    split; [auto|]. split; [split; [intros [y Hy]|]; discriminate|discriminate].
Qed.
End cycle.

(** Every attempt runs the shutdown table to the end. *)
Lemma powerOff_exec {X} (s : CState X) tr r s' : exec (powerOff s) tr (r, s') ->
  exists t2 t3, tr = t2 ++ t3 /\ exec (run off) t2 (r_off (c_res s')) /\ zlen t3 <= 5.
Proof.
  intros He. unfold powerOff in He. apply exec_mbind in He as (t0 & t & o & s0 & -> & H0 & He).
  destruct H0 as [-> [= <- <-]]. apply exec_mbind in He as (t2 & t3 & o & s1 & -> & H2 & He).
  apply exec_lift in H2 as (res & H2 & [= -> ->]). exists t2, t3. split; [reflexivity|].
  apply exec_mbind in He as (t & t' & o & s1 & -> & H3 & He). destruct H3 as [-> [= <- <-]].
  match type of He with exec (?m ?s) _ _ => set (tail := m) in He; set (s2 := s) in He end.
  assert (Hc : mcost tail 5) by (eapply mcost_le; [unfold tail, onR; cbv zeta; mcost|]; lia).
  assert (Hs : stays anything (fun (s : CState X) _ => r_off (c_res s) = res) tail).
  { unfold tail, onR. stays; first [apply stays_modify; auto | intros q [] Hq; split; [exact I|intros v _; exact Hq]]. }
  split; [|exact (proj2 Hc s2 _ _ He)].
  destruct (wp_sound anything (tail s2) tt _ t' (r, s') (Hs s2 tt eq_refl) He) as [_ E].
  - apply relies_trivial. intros; exact I.
  - cbn in E. rewrite E. exact H2.
Qed.

Lemma cycle_shutdown {X} mmio x (extension : prog Device X) tr s : suppliedExtension extension ->
  exec (cycle mmio x extension) tr s -> attempted (c_res s) = true ->
  exists t1 t2 t3, tr = t1 ++ t2 ++ t3 /\ exec (run off) t2 (r_off (c_res s)) /\ zlen t3 <= 5.
Proof.
  intros Hext He Ha. apply exec_bind in He as (t & t' & [o s'] & -> & He & -> & <-). rewrite app_nil_r. cbn in Ha |- *.
  unfold cycleBody in He. apply exec_mbind in He as (t1 & t2 & o1 & s1 & -> & H1 & He).
  assert (Hp := preflight_wp (X:=X) mmio x (mkC newResult None) newSupply ltac:(repeat split) eq_refl eq_refl).
  destruct (wp_sound _ _ _ _ _ _ Hp H1 ltac:(apply relies_trivial; intros; exact I)) as [_ Q1]. cbn in Q1.
  destruct o1 as [u|].
  2: { destruct He as [_ [= _ ->]]. destruct Q1 as [(_ & E & _) _]. congruence. }
  apply exec_mbind in He as (t3 & t4 & o2 & s2 & -> & H2 & He). destruct Q1 as [Q1 Q2].
  destruct (wp_sound _ _ _ _ _ _ (powerOn_wp extension Hext _ _ Q1 Q2) H2 ltac:(apply relies_trivial; intros; exact I)) as [_ [Hn _]].
  destruct o2 as [u2|]; [|contradiction Hn; reflexivity].
  apply powerOff_exec in He as (t5 & t6 & -> & H5 & H6). exists (t1 ++ t3), t5, t6. rewrite !app_assoc. auto.
Qed.


(** ** Concrete runs *)

(** A board that reports the MAC off until the power-on table is through, and
    whose polled bits read as asked. *)
Definition powerView (a : Z) (d : Board) : option Z :=
  if a =? 0x3f0 then Some (if b_time d <? 100 then 0 else if b_time d <? 1100 then 0x100 else 0)
  else if a =? 0x270 then Some 0
  else if a =? 4 then Some (if Z.testbit (regGet 4 d) 10 then 0x400 else 0x20000)
  else if a =? 0x20 then Some 0x800000 else None.
Definition sampleRun := run_trace (board powerView) (run on) (mkBoard [] 0 2).

Lemma tables_ok : (tableOk on /\ waitsBounded on) /\ (tableOk off /\ waitsBounded off).
Proof.
  split; (split; [split; [reflexivity|]|]); repeat constructor; try discriminate; intros _; discriminate.
Qed.

Example sampleRun_complete : error sampleRun.1.1 = noError /\ stepIndex sampleRun.1.1 = 38 /\ writes sampleRun.1.1 = 34.
Proof. vm_compute. auto. Qed.

Lemma run_follows_witness :
  accepts sequencer (sequencerFor (actsFor on)) sampleRun.2 /\
  ranAs on sampleRun.1.1 (after sequencer (sequencerFor (actsFor on)) sampleRun.2) /\ zlen sampleRun.2 <= 1 + zlen on * 4009.
Proof.
  apply (run_follows on); [apply tables_ok|apply tables_ok|].
  exact (run_trace_exec (board powerView) (run on) (mkBoard [] 0 2)).
Defined.

Definition sampleMmio : MmioResult := mkMmio sampled 2 2 2 0xa0000000 0x100000 0x1234 0x1234 0 3 false true.
Definition goodXtal : XtalResult := newXtal <| xstatus := complete |> <| rawRevision := 0x11 |> <| revisionValid := true |>.
Definition touchExtension : prog Device bool := @Act Device bool (Write32 bootW 0x8400 1) (fun b => Ret b).
Definition sampleCycle := run_trace (board powerView) (cycle sampleMmio goodXtal touchExtension) (mkBoard [] 0 2).

Example sampleCycle_complete :
  let r := c_res sampleCycle.1.1 in
  r_status r = completed /\ returnedOff r = true /\ c_ext sampleCycle.1.1 = Some true.
Proof. vm_compute. auto. Qed.

Lemma touchExtension_ok : suppliedExtension touchExtension.
Proof. intros g Hg _. split; [exact Hg|]. intros x _. exact I. Qed.

