(* ===== verification/RingProbe.v ===== *)
(** * The ring-register probe (src/RingProbe.hpp)

    [probe] writes the command ring's registers while the engine is stopped
    and bus mastering is off, reads them back, and restores every one. *)

From S2P Require Import Prelude Prog.
From S2P Require Import Device.
From S2P Require Import DmaProbe.

Definition init : Z := 0x1000.
Definition stop : Z := 0x1010.
Definition busy : Z := 0x101c.
Definition num : Z := 0x1038.
Definition index : Z := 0x1080.
Definition low : Z := 0x1160.
Definition high : Z := 0x1164.
Definition ram : Z := 0x1228.
Definition hciEnable : Z := 0x2800.
Definition stopCh12 : Z := 0x40000.
Definition busyMask : Z := 0x7fff03.
Definition indexMask : Z := 0x0fff0fff.
Definition ramMask : Z := 0x00ffffff.
Definition ramLayout : Z := 0x01041c.
Definition countMask : Z := 0x0fff.
Definition count : Z := 256.

Definition allowed32 (a : Z) : bool := (a =? init) || (a =? stop) || (a =? low) || (a =? high) || (a =? ram).
Definition allowed16 (a : Z) : bool := a =? num.
Definition invalid (v : Z) : bool := (v =? 0xffffffff) || (v =? 0xdeadbeef).

Inductive Status :=
| notRun | badMapping | badCommand | rInvalidRead | rBusy | dirtyIndex
| writeFailed | readbackFailed | validated | restoreFailed.
#[export] Instance Status_eq_dec : EqDecision Status. Proof. solve_decision. Defined.

Definition statusName (s : Status) : string :=
  match s with
  | notRun => "NOT_RUN"
  | badMapping => "RING_INVALID_MAPPING"
  | badCommand => "RING_UNSAFE_PCI_COMMAND"
  | rInvalidRead => "RING_INVALID_READ"
  | rBusy => "RING_SKIPPED_BUSY"
  | dirtyIndex => "RING_SKIPPED_NONZERO_INDEX"
  | writeFailed => "RING_WRITE_FAILED"
  | readbackFailed => "RING_READBACK_FAILED"
  | validated => "RING_CONFIG_VALIDATED"
  | restoreFailed => "RING_RESTORE_FAILED"
  end.

Record Snapshot := mkRing {
  s_init : Z; s_stop : Z; s_busy : Z; s_index : Z; s_low : Z; s_high : Z; s_ram : Z; s_num : Z
}.
Definition newSnapshot : Snapshot := mkRing 0 0 0 0 0 0 0 0.

Record Result := mkResult {
  status : Status; operationStatus : Status; before : Snapshot; configured : Snapshot; after_ : Snapshot;
  writeAttempts : Z; restoreAttempts : Z;
  attempted : bool; readbackOK : bool; restored : bool; busMasterAfter : bool
}.
#[export] Instance Result_rebuild : Rebuild Result := fun r =>
  mkResult (status r) (operationStatus r) (before r) (configured r) (after_ r) (writeAttempts r) (restoreAttempts r)
    (attempted r) (readbackOK r) (restored r) (busMasterAfter r).
Definition newResult : Result :=
  mkResult notRun notRun newSnapshot newSnapshot newSnapshot 0 0 false false false false.

Definition R (A : Type) : Type := M Device Result A.

Definition read : R Snapshot :=
  i ← read32 init; s ← read32 stop; b ← read32 busy; x ← read32 index;
  l ← read32 low; h ← read32 high; m ← read32 ram; n ← read16 num;
  mret (mkRing i s b x l h m n).

Definition valid (s : Snapshot) : bool :=
  negb (invalid (s_init s)) && negb (invalid (s_stop s)) && negb (invalid (s_busy s)) && negb (invalid (s_index s)) &&
  negb (invalid (s_low s)) && negb (invalid (s_high s)) && negb (invalid (s_ram s)) && negb (s_num s =? 0xffff).

Definition equalConfig (a b : Snapshot) : bool :=
  (s_init a =? s_init b) && (s_stop a =? s_stop b) && (s_index a =? s_index b) && (s_low a =? s_low b) &&
  (s_high a =? s_high b) && (s_ram a =? s_ram b) && (s_num a =? s_num b).

(** The configuration tried, from the one found. *)
Definition wantedFor (b : Snapshot) (m : Mapping) : Snapshot :=
  mkRing (Z.ldiff (s_init b) hciEnable) (Z.lor (s_stop b) stopCh12) (s_busy b) (s_index b)
    (u32 (m_address m)) 0 (Z.lor (Z.ldiff (s_ram b) ramMask) ramLayout) (u16 (Z.lor (Z.ldiff (s_num b) countMask) count)).

Definition setSt (st : Status) : R unit := modify (fun r => r <| status := st |>).
Definition stopIf (bad : bool) (st : Status) : R unit := when bad (setSt st;; brk).

Definition tryWrite32 (a v : Z) : R bool :=
  modify (fun r => r <| writeAttempts := u32 (writeAttempts r + 1) |>);; dcall (Write32 ringW a v).
Definition tryWrite16 (a v : Z) : R bool :=
  modify (fun r => r <| writeAttempts := u32 (writeAttempts r + 1) |>);; dcall (Write16 ringW a v).

(** [if (!c) { r.status = st; break; }] *)
Definition orElse (c : R bool) (st : Status) : R unit := b ← c; stopIf (negb b) st.

Definition configure (b wanted : Snapshot) : R unit :=
  orElse (tryWrite32 init (s_init wanted) &&> tryWrite32 stop (s_stop wanted)) writeFailed;;
  q ← read;
  orElse (if negb (valid q) || negb (s_init q =? s_init wanted) || negb (s_stop q =? s_stop wanted) ||
             flag (s_busy q) busyMask || negb (s_index q =? s_index b) then mret false
          else c ← command; mret (Z.land c 6 =? 2)) readbackFailed;;
  orElse (tryWrite32 high 0 &&> tryWrite32 low (s_low wanted) &&> tryWrite16 num (s_num wanted) &&>
          tryWrite32 ram (s_ram wanted)) writeFailed;;
  s ← read;
  modify (fun r => r <| configured := s |>);;
  ok ← (if negb (valid s) || negb (equalConfig s wanted) || flag (s_busy s) busyMask then mret false
        else c ← command; mret (Z.land c 6 =? 2));
  modify (fun r => r <| readbackOK := ok |> <| status := if (ok : bool) then validated else readbackFailed |>).

(** One restoring write; the answer is accumulated. *)
Definition restore (write : R bool) (restored : bool) : R bool :=
  modify (fun r => r <| restoreAttempts := u32 (restoreAttempts r + 1) |>);;
  ok ← write; mret (ok && restored).
Definition restore32 (a v : Z) (acc : bool) : R bool := restore (dcall (Write32 ringW a v)) acc.
Definition restore16 (a v : Z) (acc : bool) : R bool := restore (dcall (Write16 ringW a v)) acc.

Definition restoreAll (b : Snapshot) : R unit :=
  ok ← restore32 ram (s_ram b) true; ok ← restore16 num (s_num b) ok;
  ok ← restore32 low (s_low b) ok; ok ← restore32 high (s_high b) ok;
  ok ← restore32 stop (s_stop b) ok; ok ← restore32 init (s_init b) ok;
  s ← read; c ← command;
  modify (fun r => r <| after_ := s |> <| busMasterAfter := flag c 4 |>);;
  modify (fun r => r <| restored := ok && valid s && equalConfig s b && negb (flag c 4) |>);;
  modify (fun r => if negb (restored r) then r <| status := restoreFailed |> else r).

Definition probeBody (m : Mapping) : R unit :=
  stopIf (negb (validMapping m)) badMapping;;
  c ← command; stopIf (negb (Z.land c 6 =? 2)) badCommand;;
  b ← read;
  modify (fun r => r <| before := b |>);;
  stopIf (negb (valid b)) rInvalidRead;;
  stopIf (flag (s_busy b) busyMask) rBusy;;
  stopIf (flag (s_index b) indexMask) dirtyIndex;;
  modify (fun r => r <| attempted := true |>);;
  block (configure b (wantedFor b m));;
  modify (fun r => r <| operationStatus := status r |>);;
  restoreAll b.
Definition probe (m : Mapping) : prog Device Result := final_state (probeBody m) newResult.

(** ** What the probe guarantees *)

(** The writes issued, the latest first, with their answers, and the first
    reading of the command word. *)
Record Seen := mkSeen { g_log : list (Z * Z * bool); g_command : option Z }.
Definition newSeen : Seen := mkSeen [] None.

(** Writes go to the listed registers, which leave out the index and every
    trigger, and only after the command was read with memory decoding on and
    bus mastering off. *)
Definition ringMay (g : Seen) (o : devOp) : Prop :=
  match o with
  | Read32 _ | Read16 _ | Command => True
  | Write32 ringW a _ => allowed32 a = true /\ exists c, g_command g = Some c /\ Z.land c 6 = 2
  | Write16 ringW a _ => allowed16 a = true /\ exists c, g_command g = Some c /\ Z.land c 6 = 2
  | _ => False
  end.
Definition ringNext (g : Seen) (o : devOp) : devAns o -> Seen :=
  match o with
  | Write32 _ a v | Write16 _ a v => fun ok => mkSeen ((a, v, ok) :: g_log g) (g_command g)
  | Command => fun c => match g_command g with Some _ => g | None => mkSeen (g_log g) (Some (u16 c)) end
  | _ => fun _ => g
  end.
Definition rules : protocol Device Seen := Protocol (Σ:=Device) ringMay (fun _ _ _ => True) ringNext.

(** The six restoring writes, the latest first. *)
Definition restoring (b : Snapshot) : list (Z * Z) :=
  [(init, s_init b); (stop, s_stop b); (high, s_high b); (low, s_low b); (num, s_num b); (ram, s_ram b)].

Definition probeOk (m : Mapping) (r : Result) (g : Seen) : Prop :=
  (if attempted r
   then exists oks old, zlen oks = 6 /\ g_log g = map (fun p => (p.1, p.2)) (zip (restoring (before r)) oks) ++ old /\
          writeAttempts r = u32 (zlen old) /\ restoreAttempts r = 6 /\
          (restored r = true -> Forall (eq true) oks)
   else g_log g = [] /\ status r <> validated /\ restored r = false) /\
  (restored r = true -> equalConfig (after_ r) (before r) = true /\ valid (after_ r) = true /\ busMasterAfter r = false) /\
  (status r = validated -> restored r = true /\ operationStatus r = validated) /\
  (operationStatus r = validated -> valid (configured r) = true /\
     equalConfig (configured r) (wantedFor (before r) m) = true /\ flag (s_busy (configured r)) busyMask = false).

Section probe.
Implicit Types (r : Result) (g : Seen).

Definition allowedNow g : Prop := exists c, g_command g = Some c /\ Z.land c 6 = 2.

(** While configuring. *)
Definition working b r g : Prop :=
  allowedNow g /\ attempted r = true /\ before r = b /\ restoreAttempts r = 0 /\ writeAttempts r = u32 (zlen (g_log g)) /\
  operationStatus r = notRun /\ restored r = false.
Definition trying b r g : Prop := working b r g /\ status r <> validated.

Lemma u32_succ n : u32 (u32 n + 1) = u32 (n + 1).
Proof. unfold u32. apply Z.add_mod_idemp_l. discriminate. Qed.

Lemma command_allowed g c : allowedNow g -> ringNext g Command c = g.
Proof. intros (x & Hx & _). cbn. rewrite Hx. reflexivity. Qed.

Lemma read32_trying b a : stays rules (trying b) (read32 a).
Proof. intros r g H. apply read32_wp; [exact I|intros; exact H]. Qed.
Lemma read16_trying b a : stays rules (trying b) (read16 a).
Proof. intros r g H. apply read16_wp; [exact I|intros; exact H]. Qed.
Lemma command_trying b : stays rules (trying b) command.
Proof.
  intros r g H. apply command_wp; [exact I|]. intros v _. cbn [next rules].
  rewrite command_allowed by apply H. exact H.
Qed.
Lemma read_trying b : stays rules (trying b) read.
Proof. unfold read. stays; apply read32_trying || apply read16_trying. Qed.
Lemma tryWrite_trying b (o : devOp) :
  match o with Write32 ringW a _ => allowed32 a = true | Write16 ringW a _ => allowed16 a = true | _ => False end ->
  stays rules (trying b) (modify (fun r => r <| writeAttempts := u32 (writeAttempts r + 1) |>);; dcall o).
Proof.
  intros Ho r g ((A1 & A2 & A3 & A4 & A5 & A6 & A7) & A8). do 2 wstep.
  assert (Hl : forall a v ok, trying b (r <| writeAttempts := u32 (writeAttempts r + 1) |>) (mkSeen ((a, v, ok) :: g_log g) (g_command g))).
  { intros a v ok. repeat split; auto. cbn. rewrite A5, u32_succ. f_equal. unfold zlen. cbn [List.length]. lia. }
  apply dcall_wp; destruct o as [| | |[] a v|[] a v|[] a v| | | | | | | | | | | | | |]; try contradiction; try (split; [exact Ho|exact A1]);
    intros ok _; apply Hl.
Qed.
Lemma tryWrite32_trying b a v : allowed32 a = true -> stays rules (trying b) (tryWrite32 a v).
Proof. exact (tryWrite_trying b (Write32 ringW a v)). Qed.
Lemma tryWrite16_trying b a v : allowed16 a = true -> stays rules (trying b) (tryWrite16 a v).
Proof. exact (tryWrite_trying b (Write16 ringW a v)). Qed.
Lemma orElse_trying b c st : st <> validated -> stays rules (trying b) c -> stays rules (trying b) (orElse c st).
Proof.
  intros Hst Hc. unfold orElse, stopIf, setSt. stays. apply stays_modify. intros r g [Hw _]. split; [exact Hw|exact Hst].
Qed.

(** The outcome of the configuration. *)
Definition tried b m r g : Prop :=
  working b r g /\ (status r = validated -> valid (configured r) = true /\
    equalConfig (configured r) (wantedFor b m) = true /\ flag (s_busy (configured r)) busyMask = false).

Lemma trying_tried b m r g : trying b r g -> tried b m r g.
Proof. intros [H1 H2]. split; [exact H1|contradiction]. Qed.

Lemma configure_wp b m r g : trying b r g -> wpm rules (configure b (wantedFor b m)) r g (fun _ r' g' => tried b m r' g').
Proof.
  intros H. unfold configure.
  wstep. apply (stays_wpm rules (trying b)); [|exact H|].
  { apply orElse_trying; [discriminate|]. stays; first [apply tryWrite32_trying|apply tryWrite16_trying]; reflexivity. }
  clear r g H. intros [[]|] r g H; [|apply trying_tried; exact H].
  wstep. apply (stays_wpm rules (trying b)); [apply read_trying|exact H|].
  clear r g H. intros [q|] r g H; [|apply trying_tried; exact H].
  wstep. apply (stays_wpm rules (trying b)); [|exact H|].
  { apply orElse_trying; [discriminate|]. stays. apply command_trying. }
  clear r g H. intros [[]|] r g H; [|apply trying_tried; exact H].
  wstep. apply (stays_wpm rules (trying b)); [|exact H|].
  { apply orElse_trying; [discriminate|]. stays; first [apply tryWrite32_trying|apply tryWrite16_trying]; reflexivity. }
  clear r g H. intros [[]|] r g H; [|apply trying_tried; exact H].
  wstep. apply (stays_wpm rules (trying b)); [apply read_trying|exact H|].
  clear r g H. intros [s|] r g H; [|apply trying_tried; exact H].
  do 2 wstep. assert (H1 : trying b (r <| configured := s |>) g) by exact H. clear H. wstep. wstep.
  - do 2 wstep. split; [apply H1|discriminate].
  - wstep. apply command_wp; [exact I|intros c _; cbn beta iota]. cbn [next rules].
    rewrite command_allowed by apply H1. do 2 wstep. split; [apply H1|]. intros _.
    apply orb_false_iff in Heqb0 as [E E3]. apply orb_false_iff in E as [E1 E2]. apply negb_false_iff in E1, E2. auto.
Qed.

(** Restoring: the writes of [done], the latest first, on top of [old]. *)
Definition restoringNow b m old n done acc r g : Prop :=
  allowedNow g /\ attempted r = true /\ before r = b /\ restored r = false /\ writeAttempts r = u32 (zlen old) /\
  restoreAttempts r = n /\ (operationStatus r = status r) /\
  (status r = validated -> valid (configured r) = true /\
    equalConfig (configured r) (wantedFor b m) = true /\ flag (s_busy (configured r)) busyMask = false) /\
  exists oks, zlen oks = n /\ List.length done = List.length oks /\ g_log g = map (fun p => (p.1, p.2)) (zip done oks) ++ old /\
    (acc = true -> Forall (eq true) oks).

Lemma restore_wp (o : devOp) a v b m old n done acc r g :
  0 <= n < 6 -> restoringNow b m old n done acc r g ->
  match o with
  | Write32 ringW a' v' => a' = a /\ v' = v /\ allowed32 a = true
  | Write16 ringW a' v' => a' = a /\ v' = v /\ allowed16 a = true
  | _ => False end ->
  forall (w : R bool), (forall r g Q, may rules g o -> (forall ok : bool, Q (Some ok) r (mkSeen ((a, v, ok) :: g_log g) (g_command g))) ->
     wpm rules w r g Q) ->
  wpm rules (restore w acc) r g (fun x r' g' => match x with
    | Some acc' => restoringNow b m old (n + 1) ((a, v) :: done) acc' r' g' | None => False end).
Proof.
  intros Hn (A1 & A2 & A3 & A4 & A5 & A6 & A7 & A8 & oks & O1 & O2 & O3 & O4) Ho w Hw. unfold restore. do 2 wstep. wstep.
  apply Hw.
  { destruct o as [| | |[] a' v'|[] a' v'|[] a' v'| | | | | | | | | | | | | |]; try contradiction; destruct Ho as (-> & -> & Ho);
      (split; [exact Ho|exact A1]). }
  intros ok. wstep. split; [exact A1|]. split; [exact A2|]. split; [exact A3|]. split; [exact A4|]. split; [exact A5|].
  split; [cbn; rewrite A6; apply u32_small; unfold in_u32; lia|]. split; [exact A7|]. split; [exact A8|].
  exists (ok :: oks). split; [unfold zlen in *; cbn [List.length]; lia|]. split; [cbn; congruence|].
  split; [cbn; rewrite O3; reflexivity|]. intros [-> Ha]%andb_true_iff. constructor; auto.
Qed.

Lemma restore32_wp a v b m old n done acc r g : 0 <= n < 6 -> allowed32 a = true -> restoringNow b m old n done acc r g ->
  wpm rules (restore32 a v acc) r g (fun x r' g' => match x with
    | Some acc' => restoringNow b m old (n + 1) ((a, v) :: done) acc' r' g' | None => False end).
Proof.
  intros Hn Ha H. apply (restore_wp (Write32 ringW a v)); [exact Hn|exact H|auto|].
  intros r' g' Q Hm HQ. apply dcall_wp; [exact Hm|]. intros ok _. apply HQ.
Qed.
Lemma restore16_wp a v b m old n done acc r g : 0 <= n < 6 -> allowed16 a = true -> restoringNow b m old n done acc r g ->
  wpm rules (restore16 a v acc) r g (fun x r' g' => match x with
    | Some acc' => restoringNow b m old (n + 1) ((a, v) :: done) acc' r' g' | None => False end).
Proof.
  intros Hn Ha H. apply (restore_wp (Write16 ringW a v)); [exact Hn|exact H|auto|].
  intros r' g' Q Hm HQ. apply dcall_wp; [exact Hm|]. intros ok _. apply HQ.
Qed.

Lemma read_silent r g (Q : option Snapshot -> Result -> Seen -> Prop) : (forall s, Q (Some s) r g) -> wpm rules read r g Q.
Proof.
  intros HQ. unfold read. do 7 (wstep; apply read32_wp; [exact I|intros ? _; cbn beta iota]).
  wstep. apply read16_wp; [exact I|intros ? _; cbn beta iota]. wstep. apply HQ.
Qed.

Lemma restoreAll_wp b m old r g : restoringNow b m old 0 [] true r g ->
  wpm rules (restoreAll b) r g (fun _ r' g' => probeOk m r' g').
Proof.
  intros H. unfold restoreAll.
  wstep. eapply wpm_mono; [apply restore32_wp; [|reflexivity|exact H]; lia|]. clear r g H. intros [o1|] r g H; [|contradiction].
  wstep. eapply wpm_mono; [apply restore16_wp; [|reflexivity|exact H]; lia|]. clear r g H. intros [o2|] r g H; [|contradiction].
  wstep. eapply wpm_mono; [apply restore32_wp; [|reflexivity|exact H]; lia|]. clear r g H. intros [o3|] r g H; [|contradiction].
  wstep. eapply wpm_mono; [apply restore32_wp; [|reflexivity|exact H]; lia|]. clear r g H. intros [o4|] r g H; [|contradiction].
  wstep. eapply wpm_mono; [apply restore32_wp; [|reflexivity|exact H]; lia|]. clear r g H. intros [o5|] r g H; [|contradiction].
  wstep. eapply wpm_mono; [apply restore32_wp; [|reflexivity|exact H]; lia|]. clear r g H. intros [ok|] r g H; [|contradiction].
  destruct H as (A1 & A2 & A3 & A4 & A5 & A6 & A7 & A8 & oks & O1 & O2 & O3 & O4).
  wstep. apply read_silent. intros s. wstep. apply command_wp; [exact I|intros c _; cbn beta iota].
  cbn [next rules]. rewrite command_allowed by exact A1. do 2 wstep. do 2 wstep. wstep.
  unfold probeOk. cbn. rewrite <- A3 in *.
  destruct (ok && valid s && equalConfig s (before r) && negb (flag (u16 c) 4)) eqn:E; cbn; rewrite A2.
  - apply andb_true_iff in E as [E E4]. apply andb_true_iff in E as [E E3]. apply andb_true_iff in E as [E1 E2].
    apply negb_true_iff in E4. split; [exists oks, old; auto 10|]. split; [auto|]. split; [intros E5; rewrite A7; auto|].
    rewrite A7. exact A8.
  - split; [exists oks, old; repeat split; auto; discriminate|]. split; [discriminate|]. split; [discriminate|].
    rewrite A7. exact A8.
Qed.

(** Nothing written yet. *)
Definition untouched r g : Prop :=
  g_log g = [] /\ attempted r = false /\ status r <> validated /\ operationStatus r = notRun /\ restored r = false /\
  restoreAttempts r = 0 /\ writeAttempts r = 0.

Lemma untouched_ok m r g : untouched r g -> probeOk m r g.
Proof.
  intros (H1 & H2 & H3 & H4 & H5 & H6 & H7). unfold probeOk. rewrite H2, H4, H5.
  split; [auto|]. split; [discriminate|]. split; [contradiction|discriminate].
Qed.

Lemma ringStopIf_wp bad st m r g Q : st <> validated -> untouched r g -> (forall r', probeOk m r' g -> Q None r' g) ->
  (bad = false -> Q (Some tt) r g) -> wpm rules (stopIf bad st) r g Q.
Proof.
  intros Hst Hu HT HF. unfold stopIf, setSt. wstep.
  - do 2 wstep. wstep. apply HT. apply untouched_ok. destruct Hu as (H1 & H2 & H3 & H4). repeat split; auto; apply H4.
  - wstep. apply HF. reflexivity.
Qed.

Lemma probeBody_wp m : wpm rules (probeBody m) newResult newSeen (fun _ r g => probeOk m r g).
Proof.
  assert (H0 : untouched newResult newSeen) by (repeat split; discriminate).
  unfold probeBody. wstep. apply (ringStopIf_wp _ _ m); [discriminate|exact H0|auto|intros E1].
  wstep. apply command_wp; [exact I|intros c _; cbn beta iota]. cbn [next rules].
  assert (H1 : untouched newResult (ringNext newSeen Command c)) by (repeat split; discriminate).
  assert (Hc : Z.land (u16 c) 6 = 2 -> allowedNow (ringNext newSeen Command c)) by (intros Hc; exists (u16 c); auto).
  revert H1 Hc. generalize (ringNext newSeen Command c). intros g H1 Hc.
  wstep. apply (ringStopIf_wp _ _ m); [discriminate|exact H1|auto|intros E2]. specialize (Hc ltac:(lia)).
  wstep. apply read_silent. intros b. do 2 wstep.
  assert (H2 : untouched (newResult <| before := b |>) g) by (repeat split; try discriminate; apply H1).
  wstep. apply (ringStopIf_wp _ _ m); [discriminate|exact H2|auto|intros E3].
  wstep. apply (ringStopIf_wp _ _ m); [discriminate|exact H2|auto|intros E4].
  wstep. apply (ringStopIf_wp _ _ m); [discriminate|exact H2|auto|intros E5].
  do 2 wstep. wstep. wstep. eapply wpm_mono; [apply (configure_wp b m)|].
  { split; [|discriminate]. destruct H2 as (L & _). repeat split; auto. rewrite L. reflexivity. }
  intros _ r g1 [(W1 & W2 & W3 & W4 & W5 & W6 & W7) W8]. do 2 wstep. apply (restoreAll_wp b m (g_log g1)).
  split; [exact W1|]. split; [exact W2|]. split; [exact W3|]. split; [exact W7|]. split; [exact W5|]. split; [exact W4|].
  split; [reflexivity|]. split; [exact W8|]. exists []. split; [reflexivity|]. split; [reflexivity|]. split; [reflexivity|constructor].
Qed.
End probe.

(** whatever the device answers, the ring probe writes only the five
    words and the count of the stopped command ring, and only after the
    command word was read with bus mastering off; the index, which is the
    doorbell, and every trigger are never written.  Once a write was
    attempted, the last six writes put back the values found, in the order
    layout, count, addresses, stop, enable, each attempted whatever happened
    to the others; the ring is reported restored only when all six were
    accepted and the registers read back as found with bus mastering still
    off, and validated only when in addition the tried configuration was read
    back exactly, with the engine idle. *)
Theorem ring_restored m tr r : exec (probe m) tr r ->
  accepts rules newSeen tr /\ probeOk m r (after rules newSeen tr).
Proof.
  intros He. apply (wpm_exec rules (probeBody m) newResult newSeen (probeOk m)); [apply probeBody_wp|exact He|].
  apply relies_trivial. intros; exact I.
Qed.

(** ** Concrete runs *)

Definition ringMapping : Mapping := mkMapping 0x200000 4096 4096 1.
Definition sampleRing := run_trace (board (fun _ _ => None)) (probe ringMapping) (mkBoard [(0x1000, 0x2801); (0x1228, 7)] 0 2).

Example sampleRing_ok :
  let r := sampleRing.1.1 in
  status r = validated /\ restored r = true /\ s_low (configured r) = 0x200000 /\ regGet 0x1000 sampleRing.1.2 = 0x2801.
Proof. vm_compute. auto. Qed.

Lemma ring_restored_witness :
  accepts rules newSeen sampleRing.2 /\ probeOk ringMapping sampleRing.1.1 (after rules newSeen sampleRing.2).
Proof.
  apply ring_restored. exact (run_trace_exec (board (fun _ _ => None)) (probe ringMapping) (mkBoard [(0x1000, 0x2801); (0x1228, 7)] 0 2)).
Defined.
