(* ===== verification/FirmwareBoot.v ===== *)
(** * The ROM boot probe (src/FirmwareBoot.hpp)

    [probeWithAction] opens the register window of the MAC, stops the host
    interface, lays out the firmware-download queues, starts the embedded
    processor, runs an action when its ROM reports ready, and undoes every
    stage it reached. *)

From stdpp Require Import gmap.
From S2P Require Import Prelude Prog.
From S2P Require Import Device.

Inductive Status :=
| notRun | unsafeCommand | invalidRead | writeFailed | timeout | staleReady | romError | ready | cleanupFailed.
#[export] Instance Status_eq_dec : EqDecision Status. Proof. solve_decision. Defined.

Definition statusName (s : Status) : string :=
  match s with
  | notRun => "NOT_RUN" | unsafeCommand => "BOOT_UNSAFE_COMMAND"
  | invalidRead => "BOOT_INVALID_READ" | writeFailed => "BOOT_WRITE_FAILED"
  | timeout => "BOOT_TIMEOUT" | staleReady => "BOOT_STALE_READY" | romError => "ROM_REPORTED_ERROR"
  | ready => "ROM_H2C_READY" | cleanupFailed => "BOOT_CLEANUP_FAILED"
  end.

Definition allowed32 (a : Z) : bool :=
  ((0x9040 <=? a) && (a <=? 0x9068) && (Z.land a 3 =? 0)) ||
  bool_decide (a ∈ [8; 0x88; 0x160; 0x164; 0x168; 0x16c; 0x1e0;
    0x1f4; 0x1f8; 0xc00; 0x1000; 0x1010; 0x8400; 0x8404;
    0x8a00; 0x8a04; 0x8c08; 0x9008; 0x8c40; 0x8c44; 0x8c4c; 0x8c50]).
Definition invalid (v : Z) : bool := (v =? 0xffffffff) || (v =? 0xdeadbeef).
Definition txChannels : Z := 0x00070f00.
Definition stopChannels : Z := txChannels.
Definition busyChannels : Z := Z.lor txChannels 0x00780003.

Record Result := mkResult {
  status : Status; operationStatus : Status; phase : Z; writes : Z; polls : Z;
  wde : Z; ple : Z; control : Z; dmac : Z; clock : Z; wdeConfig : Z; pleConfig : Z; hfcControl : Z; hfcPages : Z;
  hciBefore : Z; stopBefore : Z; hciPaused : Z; stopPaused : Z; hciAfter : Z; stopAfter : Z; cleanupFailures : Z;
  cleanupClock : Z; cleanupDmac : Z; cleanupClockChecked : bool;
  initialDmac : Z; initialHci : Z; accessDmac : Z; accessClock : Z;
  accessAttempted : bool; accessReady : bool; hciCaptured : bool;
  failureAddress : Z; failureMask : Z; failureExpected : Z; failureActual : Z;
  failureRecorded : bool; attempted : bool; cleanupOK : bool; cpuStopped : bool
}.
#[export] Instance Result_rebuild : Rebuild Result := fun r =>
  mkResult (status r) (operationStatus r) (phase r) (writes r) (polls r) (wde r) (ple r) (control r) (dmac r) (clock r)
    (wdeConfig r) (pleConfig r) (hfcControl r) (hfcPages r) (hciBefore r) (stopBefore r) (hciPaused r) (stopPaused r)
    (hciAfter r) (stopAfter r) (cleanupFailures r) (cleanupClock r) (cleanupDmac r) (cleanupClockChecked r)
    (initialDmac r) (initialHci r) (accessDmac r) (accessClock r) (accessAttempted r) (accessReady r) (hciCaptured r)
    (failureAddress r) (failureMask r) (failureExpected r) (failureActual r) (failureRecorded r) (attempted r)
    (cleanupOK r) (cpuStopped r).
Definition newResult : Result :=
  mkResult notRun notRun 0 0 0 0 0 0 0 0 0 0 0 0 0 0 0 0 0 0 0 0 0 false 0 0 0 0 false false false 0 0 0 0 false false false false.

Section boot.
Context {X : Type}.
(** The result, the locals [hci] and [stop], and what the action returned. *)
Record BState := mkB { res : Result; hciWord : Z; stopWord : Z; acted : option X }.
Definition B (A : Type) : Type := M Device BState A.
Definition onR (f : Result -> Result) : B unit :=
  modify (fun s => mkB (f (res s)) (hciWord s) (stopWord s) (acted s)).
Definition setSt (st : Status) : B unit := onR (fun r => r <| status := st |>).
Definition setPhase (n : Z) : B unit := onR (fun r => r <| phase := n |>).
Definition getR : B Result := gets res.
(** [if (!c) { r.status = st; break; }] *)
Definition orStop (c : B bool) (st : Status) : B unit :=
  b ← c; if (b : bool) then mret tt else setSt st;; brk.

(** [matches]: the first mismatch is recorded. *)
Definition recordMismatch (a v m e : Z) (r : Result) : Result :=
  r <| failureRecorded := true |> <| failureAddress := a |> <| failureMask := m |> <| failureExpected := e |>
    <| failureActual := v |>.
Definition matches (a v m e : Z) : B bool :=
  if negb (invalid v) && (Z.land v m =? e) then mret true
  else onR (fun r => if failureRecorded r then r else recordMismatch a v m e r);; mret false.

Definition countWrite : B unit := onR (fun r => r <| writes := u32 (writes r + 1) |>).
Definition wr (a v : Z) : B bool :=
  countWrite;;
  ok ← dcall (Write32 bootW a v);
  if negb ok then setSt writeFailed;; mret false else mret true.
Definition rm (a m v : Z) : B bool :=
  old ← read32 a;
  if invalid old then setSt invalidRead;; mret false else wr a (Z.lor (Z.ldiff old m) v).

(** [poll]; [store] is the member [last] refers to. *)
Definition pollTurn (a m wanted limit start : Z) (store : Z -> Result -> Result) : B (option bool) :=
  now ← nowUs;
  if (now <? start) || (limit <=? now - start) then setSt timeout;; mret (Some false) else
  last ← read32 a;
  onR (fun r => (store last r) <| polls := u32 (polls r + 1) |>);;
  if invalid last then setSt invalidRead;; mret (Some false) else
  if Z.land last m =? wanted then mret (Some true) else
  pauseUs 50;; mret None.
Definition poll (a m wanted limit : Z) (store : Z -> Result -> Result) : B bool :=
  start ← nowUs;
  out ← for_loop 0 (limit / 50 + 1) (fun _ => pollTurn a m wanted limit start store);
  match out with Some b => mret b | None => setSt timeout;; mret false end.

(** ** The stages, lines of the [do ... while(false)] block *)

Definition openAccess : B unit :=
  onR (fun r => r <| accessAttempted := true |>);;
  must (wr 0x8400 0x60440000);;
  d ← read32 0x8400; onR (fun r => r <| accessDmac := d |>);;
  orStop (matches 0x8400 d 0xffffffff 0x60440000) writeFailed;;
  must (wr 0x8404 0x00040000);;
  c ← read32 0x8404; onR (fun r => r <| accessClock := c |>);;
  orStop (matches 0x8404 c 0xffffffff 0x00040000) writeFailed;;
  onR (fun r => r <| accessReady := true |>);;
  h ← read32 0x1000; st ← read32 0x1010;
  modify (fun s => mkB (res s) h st (acted s));;
  orStop (mret (negb (invalid h || invalid st))) invalidRead;;
  onR (fun r => r <| hciBefore := h |> <| stopBefore := st |> <| hciCaptured := true |>).

Definition pauseHost : B unit :=
  setPhase 1;;
  s ← get;
  must (wr 0x1000 (Z.ldiff (hciWord s) 0x2800) &&> wr 0x1010 (Z.lor (stopWord s) stopChannels));;
  must (poll 0x101c busyChannels 0 2000 (fun _ r => r));;
  h ← read32 0x1000; st ← read32 0x1010;
  onR (fun r => r <| hciPaused := h |> <| stopPaused := st |>);;
  orStop (matches 0x1000 h 0x2800 0 &&> matches 0x1010 st stopChannels stopChannels) writeFailed.

Definition quotaFor (i : Z) : Z := if i =? 2 then 16 else if i =? 3 then 48 else 0.

Definition layOut : B unit :=
  setPhase 2;;
  must (rm 0x8400 0x04800000 0 &&> rm 0x8404 0x04800000 0x04800000);;
  must (rm 0x8c08 0x1fff3f03 0 &&> rm 0x9008 0x1fff3f03 0x00400801);;
  must (wr 0x8c40 0 &&> wr 0x8c44 48 &&> wr 0x8c4c 0 &&> wr 0x8c50 0);;
  for_each 0 11 (fun i => let q := quotaFor i in must (wr (0x9040 + i * 4) (Z.lor q (Z.shiftl q 16))));;
  must (rm 0x8400 0x04800000 0x04800000).

Definition startEngines : B unit :=
  setPhase 3;;
  must (poll 0x8d00 3 3 2000 (fun v r => r <| wde := v |>) &&> poll 0x9100 3 3 2000 (fun v r => r <| ple := v |>));;
  setPhase 4;;
  must (rm 0x8a00 9 0 &&> wr 0x8a04 (Z.shiftl 40 16) &&> rm 0x8a00 0xc00 0 &&> rm 0x8a00 9 8);;
  a ← read32 0x8c08; b ← read32 0x9008; c ← read32 0x8a00; d ← read32 0x8a04;
  onR (fun r => r <| wdeConfig := a |> <| pleConfig := b |> <| hfcControl := c |> <| hfcPages := d |>);;
  orStop (matches 0x8c08 a 0x1fff3f03 0 &&> matches 0x9008 b 0x1fff3f03 0x00400801 &&>
          matches 0x8a00 c 0xc09 8 &&> matches 0x8a04 d 0xffffffff (Z.shiftl 40 16)) invalidRead.

Definition clearProcessor : B unit :=
  setPhase 5;;
  must (rm 0x88 2 0 &&> rm 0x1e0 7 0 &&> rm 8 0x4000 0 &&> rm 0x88 4 0 &&> rm 0x88 4 4 &&> rm 0x88 1 0 &&> rm 0x88 1 1);;
  must (wr 0x1f4 0 &&> wr 0x1f8 0 &&> wr 0x160 0 &&> wr 0x164 0 &&> wr 0x168 0 &&> wr 0x16c 0);;
  must (rm 8 0x4000 0x4000 &&> rm 0x1e0 0xe7 1 &&> rm 0xc00 0x30000 0x20000).

(** The reset word is confirmed before the processor is enabled. *)
Definition enableProcessor : B unit :=
  reset ← read32 0x1e0;
  orStop (matches 0x1e0 reset 0xe7 1) staleReady;;
  must (rm 0x88 2 2).

Definition startProcessor (reason : Z) : B unit :=
  countWrite;;
  orStop (dcall (Write16 bootW 0x1e6 (u16 (Z.ldiff reason 7)))) writeFailed;;
  enableProcessor;;
  setPhase 6;;
  must (poll 0x1e0 2 2 400000 (fun v r => r <| control := v |>));;
  r ← getR;
  orStop (mret (negb (Z.land (control r) 0xe0 =? 0xe0))) staleReady;;
  let state := Z.land (Z.shiftr (control r) 5) 7 in
  orStop (mret (negb ((2 <=? state) && (state <=? 4)))) romError;;
  d ← read32 0x8400; c ← read32 0x8404;
  onR (fun r => r <| dmac := d |> <| clock := c |>);;
  orStop (matches 0x8400 d 0xffffffff 0x64c40000 &&> matches 0x8404 c 0xffffffff 0x04840000) invalidRead;;
  setSt ready.

Definition bootBlock (reason : Z) : B unit :=
  openAccess;; pauseHost;; layOut;; startEngines;; clearProcessor;; startProcessor reason.

(** ** The clean-up; [ok] is threaded, every operation runs *)

Definition fault (bit : Z) : B unit := onR (fun r => r <| cleanupFailures := Z.lor (cleanupFailures r) bit |>).
Definition faultUnless (b : bool) (bit : Z) : B unit := unless b (fault bit).
Definition clean (a m v : Z) (ok : bool) : B bool := b ← rm a m v; mret (b && ok).

Definition stopProcessor (ok : bool) : B bool :=
  r ← getR;
  if 5 <=? phase r then
    ok ← clean 0x88 2 0 ok; ok ← clean 0x1e0 7 0 ok; ok ← clean 8 0x4000 0 ok;
    ok ← clean 0x88 4 0 ok; ok ← clean 0x88 4 4 ok; ok ← clean 0x88 1 0 ok; clean 0x88 1 1 ok
  else mret ok.

Definition stopFlow (ok : bool) : B bool :=
  r ← getR;
  if 4 <=? phase r then
    ok ← clean 0x8a00 9 0 ok;
    v ← read32 0x8a00;
    m ← matches 0x8a00 v 9 0; faultUnless m 1;;
    mret ok
  else mret ok.

Definition restoreHost (ok : bool) : B bool :=
  s ← get;
  if hciCaptured (res s) then
    st ← wr 0x1010 (stopWord s); h ← wr 0x1000 (hciWord s);
    let ok := st && h && ok in
    a ← read32 0x1000; b ← read32 0x1010;
    onR (fun r => r <| hciAfter := a |> <| stopAfter := b |>);;
    m ← matches 0x1000 a 0xffffffff (hciWord s); faultUnless m 16;;
    m ← matches 0x1010 b 0xffffffff (stopWord s); faultUnless m 32;;
    mret ok
  else mret ok.

Definition closeAccess (ok : bool) : B bool :=
  r ← getR;
  if accessAttempted r then
    function ← read32 0x8400;
    ok ← (if negb (invalid function) && flag function 0x40000000 then
            c ← wr 0x8404 0;
            v ← read32 0x8404;
            onR (fun r => r <| cleanupClock := v |> <| cleanupClockChecked := true |>);;
            m ← matches 0x8404 v 0xffffffff 0; faultUnless m 4;;
            mret (c && ok)
          else fault 4;; mret ok);
    f ← wr 0x8400 0;
    v ← read32 0x8400;
    onR (fun r => r <| cleanupDmac := v |>);;
    m ← matches 0x8400 v 0xffffffff 0; faultUnless m 2;;
    mret (f && ok)
  else mret ok.

Definition restoreSecurity (sec reason : Z) (ok : bool) : B bool :=
  r ← getR;
  if 5 <=? phase r then
    s ← wr 0xc00 sec; countWrite;; b ← dcall (Write16 bootW 0x1e6 reason); mret (s && b && ok)
  else mret ok.

Definition verdict (sec reason : Z) (ok : bool) : B unit :=
  platform ← read32 0x88; clk ← read32 8; ctl ← read32 0x1e0;
  let stopped := negb (invalid platform) && negb (flag platform 2) && negb (invalid clk) && negb (flag clk 0x4000) &&
                 negb (invalid ctl) && (Z.land ctl 7 =? 0) in
  onR (fun r => r <| cpuStopped := stopped |>);;
  r ← getR;
  when (5 <=? phase r) (
    c ← read32 0xc00;
    bad ← (if negb (c =? sec) then mret true else w ← read16 0x1e6; mret (negb (w =? reason)));
    when bad (fault 8));;
  faultUnless ok 64;;
  faultUnless stopped 128;;
  c ← command;
  faultUnless (Z.land c 6 =? 2) 256;;
  onR (fun r => r <| cleanupOK := cleanupFailures r =? 0 |>);;
  onR (fun r => r <| status := if cleanupOK r then operationStatus r else cleanupFailed |>).

Definition cleanup (sec reason : Z) : B unit :=
  ok ← stopProcessor true; ok ← stopFlow ok; ok ← restoreHost ok; ok ← closeAccess ok;
  ok ← restoreSecurity sec reason ok; verdict sec reason ok.

(** Up to the end of the block; what was found in the two security words is
    kept for the clean-up. *)
Definition attempt : B (Z * Z) :=
  c ← command;
  (if negb (Z.land c 6 =? 2) then setSt unsafeCommand;; brk else mret tt);;
  sec ← read32 0xc00; reason ← read16 0x1e6;
  d ← read32 0x8400; h ← read32 0x1000;
  onR (fun r => r <| initialDmac := d |> <| initialHci := h |>);;
  (if invalid d || invalid sec || (reason =? 0xffff) then setSt invalidRead;; brk else mret tt);;
  onR (fun r => r <| attempted := true |>);;
  block (bootBlock reason);;
  mret (sec, reason).

Definition act (action : prog Device X) : B unit :=
  r ← getR;
  when (bool_decide (status r = ready)) (
    x ← lift action; modify (fun s => mkB (res s) (hciWord s) (stopWord s) (Some x))).

Definition finish (sec reason : Z) : B unit :=
  onR (fun r => r <| operationStatus := status r |>);;
  cleanup sec reason.

Definition bootBody (action : prog Device X) : B unit :=
  found ← attempt; act action;; finish found.1 found.2.
Definition probeWithAction (action : prog Device X) : prog Device BState :=
  final_state (bootBody action) (mkB newResult 0 0 None).
End boot.
Arguments BState X : clear implicits.

Definition NoAction : prog Device unit := Ret tt.
Definition probe : prog Device (BState unit) := probeWithAction NoAction.

Record RepeatedResult := mkRepeated { first : Result; second : Result; secondAttempted : bool }.
Definition probeRepeated : prog Device RepeatedResult :=
  bindP probe (fun a =>
    if bool_decide (status (res a) = ready) && cleanupOK (res a)
    then bindP probe (fun b => Ret (mkRepeated (res a) (res b) true))
    else Ret (mkRepeated (res a) newResult false)).

(** ** What the probe guarantees *)

(** The latest value written to every register, the latest and the first
    reading of each, and the latest reading of the command word. *)
Record Trail := mkTrail {
  g_wrote : gmap Z Z; g_read : gmap Z Z; g_first : gmap Z Z; g_command : option Z
}.
Definition newTrail : Trail := mkTrail ∅ ∅ ∅ None.
Definition noteRead (a v : Z) (g : Trail) : Trail :=
  mkTrail (g_wrote g) (<[a := v]> (g_read g))
    (match g_first g !! a with Some _ => g_first g | None => <[a := v]> (g_first g) end) (g_command g).
Definition noteWrite (a v : Z) (g : Trail) : Trail :=
  mkTrail (<[a := v]> (g_wrote g)) (g_read g) (g_first g) (g_command g).

(** Memory decoding on and bus mastering off. *)
Definition quiet (g : Trail) : Prop := exists c, g_command g = Some c /\ Z.land c 6 = 2.
(** The processor-enable bit of 0x88 is raised only while the reset word reads
    as programmed. *)
Definition enableOk (g : Trail) (a v : Z) : Prop :=
  a = 0x88 -> flag v 2 = true ->
  (exists old, g_read g !! 0x88 = Some old /\ flag old 2 = true) \/
  (exists w, g_read g !! 0x1e0 = Some w /\ Z.land w 0xe7 = 1).

Definition bootMay (g : Trail) (o : devOp) : Prop :=
  match o with
  | Read32 _ | Read16 _ | Command | NowUs | PauseUs _ => True
  | Write32 bootW a v => allowed32 a = true /\ quiet g /\ enableOk g a v
  | Write16 bootW a _ => a = 0x1e6 /\ quiet g
  | _ => False
  end.
Definition bootNext (g : Trail) (o : devOp) : devAns o -> Trail :=
  match o with
  | Read32 a => fun v => noteRead a (u32 v) g
  | Read16 a => fun v => noteRead a (u16 v) g
  | Write32 _ a v | Write16 _ a v => fun _ => noteWrite a v g
  | Command => fun c => mkTrail (g_wrote g) (g_read g) (g_first g) (Some (u16 c))
  | _ => fun _ => g
  end.
Definition rules : protocol Device Trail := Protocol (Σ:=Device) bootMay (fun _ _ _ => True) bootNext.

(** The ROM accepted the download path: what [ready] stands for. *)
Definition romReady (r : Result) : Prop :=
  phase r = 6 /\ accessReady r = true /\ hciCaptured r = true /\ flag (control r) 2 = true /\
  Z.land (control r) 0xe0 <> 0xe0 /\ ~ (2 <= Z.land (Z.shiftr (control r) 5) 7 <= 4) /\
  dmac r = 0x64c40000 /\ clock r = 0x04840000.

(** The registers as the clean-up leaves them. *)
Definition undone (r : Result) (g : Trail) : Prop :=
  g_wrote g !! 0x8400 = Some 0 /\
  (hciCaptured r = true -> g_wrote g !! 0x1010 = Some (stopBefore r) /\ g_wrote g !! 0x1000 = Some (hciBefore r)) /\
  (5 <= phase r -> g_wrote g !! 0xc00 = g_first g !! 0xc00 /\ g_wrote g !! 0x1e6 = g_first g !! 0x1e6).
Definition confirmed (r : Result) (g : Trail) : Prop :=
  g_read g !! 0x8400 = Some 0 /\ g_read g !! 0x8404 = Some 0 /\
  (hciCaptured r = true -> g_read g !! 0x1000 = Some (hciBefore r) /\ g_read g !! 0x1010 = Some (stopBefore r)) /\
  (5 <= phase r -> g_read g !! 0xc00 = g_first g !! 0xc00 /\ g_read g !! 0x1e6 = g_first g !! 0x1e6) /\
  (exists p c w, g_read g !! 0x88 = Some p /\ flag p 2 = false /\ g_read g !! 8 = Some c /\ flag c 0x4000 = false /\
     g_read g !! 0x1e0 = Some w /\ Z.land w 7 = 0) /\
  quiet g.

Definition bootOk {X} (s : BState X) (g : Trail) : Prop :=
  let r := res s in
  if attempted r then
    undone r g /\ (cleanupOK r = true -> confirmed r g) /\ (operationStatus r = ready -> romReady r) /\
    (acted s <> None <-> operationStatus r = ready) /\
    status r = (if cleanupOK r then operationStatus r else cleanupFailed)
  else g_wrote g = ∅ /\ acted s = None /\ (status r = unsafeCommand \/ status r = invalidRead).

Module Proofs.
Section proofs.
Context {X : Type}.
Implicit Types (s : BState X) (g : Trail).

Lemma land_ff v : in_u32 v -> Z.land v 0xffffffff = v.
Proof. intros H. change 0xffffffff with (Z.ones 32). rewrite Z.land_ones by lia. apply Z.mod_small. exact H. Qed.

Lemma rm_bit old m w : flag w 2 = false -> flag (Z.lor (Z.ldiff old m) w) 2 = true -> flag old 2 = true.
Proof.
  unfold flag. rewrite negb_false_iff, !negb_true_iff, Z.eqb_eq, !Z.eqb_neq. intros Hw H Ho. apply H.
  apply Z.bits_inj'. intros n Hn.
  assert (Ho' := f_equal (fun z => Z.testbit z n) Ho). assert (Hw' := f_equal (fun z => Z.testbit z n) Hw). cbv beta in *.
  rewrite Z.land_spec, Z.testbit_0_l in *. rewrite Z.lor_spec, Z.ldiff_spec.
  destruct (Z.testbit old n), (Z.testbit w n), (Z.testbit 2 n), (Z.testbit m n); auto.
Qed.

Lemma lor_zero a b : Z.lor a b = 0 -> a = 0 /\ b = 0.
Proof. apply Z.lor_eq_0_iff. Qed.

(** *** The attempt *)

Definition firsts (sec reason : Z) g : Prop :=
  g_first g !! 0xc00 = Some sec /\ g_first g !! 0x1e6 = Some reason.
Lemma firsts_read sec reason a v g : firsts sec reason g -> firsts sec reason (noteRead a v g).
Proof.
  intros [H1 H2]. unfold firsts, noteRead; cbn [g_first].
  destruct (g_first g !! a) eqn:E; [auto|]. split; rewrite lookup_insert_ne; auto; intros ->; congruence.
Qed.

(** While the block runs; [cap] tells whether the host words were captured. *)
Definition trying sec reason (cap : bool) s g : Prop :=
  quiet g /\ firsts sec reason g /\ attempted (res s) = true /\ accessAttempted (res s) = true /\
  operationStatus (res s) = notRun /\ cleanupFailures (res s) = 0 /\ acted s = None /\ hciCaptured (res s) = cap /\
  (cap = true -> accessReady (res s) = true /\ hciBefore (res s) = hciWord s /\ stopBefore (res s) = stopWord s /\
    in_u32 (hciWord s) /\ in_u32 (stopWord s)) /\
  status (res s) <> ready.

Section trying.
Context (sec reason : Z) (cap : bool).
Lemma trying_read a v s g : trying sec reason cap s g -> trying sec reason cap s (noteRead a v g).
Proof. intros (H1 & H2 & H). split; [exact H1|]. split; [apply firsts_read; exact H2|exact H]. Qed.
Lemma trying_write (a v : Z) s g : trying sec reason cap s g -> trying sec reason cap s (noteWrite a v g).
Proof. intros H. exact H. Qed.
Lemma bootRead_trying a : stays rules (trying sec reason cap) (read32 a).
Proof. intros s g H. apply read32_wp; [exact I|]. intros v _. apply trying_read. exact H. Qed.
Lemma nowUs_trying : stays rules (trying sec reason cap) nowUs.
Proof. intros s g H. apply nowUs_wp; [exact I|]. intros v _. exact H. Qed.
Lemma pauseUs_trying n : stays rules (trying sec reason cap) (pauseUs n).
Proof. intros s g H. apply dcall_wp; [exact I|]. intros v _. exact H. Qed.
(** Updates of fields the invariant does not speak of. *)
Definition idle (f : Result -> Result) : Prop := forall r,
  attempted (f r) = attempted r /\ accessAttempted (f r) = accessAttempted r /\ operationStatus (f r) = operationStatus r /\
  cleanupFailures (f r) = cleanupFailures r /\ hciCaptured (f r) = hciCaptured r /\ accessReady (f r) = accessReady r /\
  hciBefore (f r) = hciBefore r /\ stopBefore (f r) = stopBefore r /\ (status (f r) = ready -> status r = ready).
Lemma idle_trying f s g : idle f -> trying sec reason cap s g -> trying sec reason cap (mkB (f (res s)) (hciWord s) (stopWord s) (acted s)) g.
Proof.
  intros Hf H. destruct (Hf (res s)) as (E1 & E2 & E3 & E4 & E5 & E6 & E7 & E8 & E9).
  unfold trying in *. cbn [res hciWord stopWord acted]. rewrite E1, E2, E3, E4, E5, E6, E7, E8. tauto.
Qed.
Lemma onR_trying f : idle f -> stays rules (trying sec reason cap) (onR f).
Proof. intros Hf. apply stays_modify. intros s g. apply idle_trying. exact Hf. Qed.
Lemma setSt_trying st : st <> ready -> stays rules (trying sec reason cap) (setSt st).
Proof. intros Hst. apply onR_trying. intros r. repeat split. intros E. destruct (Hst E). Qed.
Lemma matches_trying a v m e : stays rules (trying sec reason cap) (matches a v m e).
Proof. unfold matches. stays. apply onR_trying. intros r. destruct (failureRecorded r); repeat split; auto. Qed.
Lemma wr_wp a v s g : allowed32 a = true -> enableOk g a v -> trying sec reason cap s g -> wpm rules (wr a v) s g (fun _ => trying sec reason cap).
Proof.
  intros Ha He H. unfold wr, countWrite. wstep. apply wpm_modify. wstep.
  apply dcall_wp; [|intros ok _; cbn beta iota].
  { split; [exact Ha|]. split; [apply H|exact He]. }
  apply (stays_wpm rules (trying sec reason cap)); [stays; apply setSt_trying; discriminate| |auto].
  apply (idle_trying (fun r => r <| writes := u32 (writes r + 1) |>)); [intros r; repeat split; auto|exact H].
Qed.
Lemma wr_trying a v : allowed32 a = true -> a <> 0x88 -> stays rules (trying sec reason cap) (wr a v).
Proof. intros Ha Hn s g H. apply wr_wp; [exact Ha| |exact H]. intros E. contradiction. Qed.
(** A read-modify-write, the readings before it being those of [g]. *)
Lemma rm_wp a m w s g : allowed32 a = true -> (a = 0x88 -> flag w 2 = true -> exists r, g_read g !! 0x1e0 = Some r /\ Z.land r 0xe7 = 1) ->
  trying sec reason cap s g -> wpm rules (rm a m w) s g (fun _ => trying sec reason cap).
Proof.
  intros Ha Hw H. unfold rm. wstep. apply read32_wp; [exact I|]. intros v _. cbn [next rules bootNext]. wstep.
  { eapply stays_wpm; [stays; apply setSt_trying; discriminate|apply trying_read; exact H|auto]. }
  apply wr_wp; [exact Ha| |apply trying_read; exact H]. intros -> Hf. cbn [noteRead g_read].
  destruct (flag w 2) eqn:E.
  - right. destruct (Hw eq_refl eq_refl) as (r & Hr & Hm). exists r. split; [|exact Hm]. rewrite lookup_insert_ne by discriminate. exact Hr.
  - left. exists (u32 v). split; [apply lookup_insert_eq|]. exact (rm_bit _ m _ E Hf).
Qed.
Lemma rm_trying a m w : allowed32 a = true -> flag w 2 = false \/ a <> 0x88 -> stays rules (trying sec reason cap) (rm a m w).
Proof. intros Ha Hw s g H. apply rm_wp; [exact Ha| |exact H]. intros E1 E2. destruct Hw; congruence. Qed.
Lemma poll_trying a m wanted limit f : (forall v, idle (f v)) -> stays rules (trying sec reason cap) (poll a m wanted limit f).
Proof.
  intros Hf. unfold poll, pollTurn. stays; auto using nowUs_trying, bootRead_trying, pauseUs_trying;
    try (apply setSt_trying; discriminate).
  apply onR_trying. intros r. apply (Hf _ r).
Qed.
Lemma orStop_trying c st : st <> ready -> stays rules (trying sec reason cap) c -> stays rules (trying sec reason cap) (orStop c st).
Proof. intros Hst Hc. unfold orStop. stays; first [exact Hc|apply setSt_trying; exact Hst]. Qed.
End trying.
#[local] Hint Resolve bootRead_trying matches_trying : stays.
#[local] Hint Extern 1 (stays rules (trying _ _ _) (wr _ _)) => apply wr_trying; [reflexivity|discriminate] : stays.
#[local] Hint Extern 1 (stays rules (trying _ _ _) (rm _ _ _)) => apply rm_trying; [reflexivity|solve [left; reflexivity|right; discriminate]] : stays.
#[local] Hint Extern 1 (stays rules (trying _ _ _) (onR _)) => apply onR_trying; intros ?; repeat split; auto : stays.
#[local] Hint Extern 1 (stays rules (trying _ _ _) (setPhase _)) => apply onR_trying; intros ?; repeat split; auto : stays.
#[local] Hint Extern 1 (stays rules (trying _ _ _) (poll _ _ _ _ _)) => apply poll_trying; intros ? ?; repeat split; auto : stays.
#[local] Hint Extern 1 (stays rules (trying _ _ _) (orStop _ _)) => apply orStop_trying; [discriminate|stays] : stays.

Lemma pauseHost_trying sec reason : stays rules (trying sec reason true) pauseHost.
Proof. unfold pauseHost. stays. Qed.
Lemma layOut_trying sec reason : stays rules (trying sec reason true) layOut.
Proof.
  unfold layOut. stays. apply wr_trying; [|lia]. unfold allowed32.
  replace (Z.land (0x9040 + i * 4) 3) with 0; [|symmetry; change 3 with (Z.ones 2); rewrite Z.land_ones by lia; apply Z.mod_divide; [lia|exists (0x2410 + i); lia]].
  rewrite (proj2 (Z.leb_le _ _)), (proj2 (Z.leb_le _ _)) by lia. reflexivity.
Qed.
Lemma startEngines_trying sec reason : stays rules (trying sec reason true) startEngines.
Proof. unfold startEngines. stays. Qed.
Lemma clearProcessor_trying sec reason : stays rules (trying sec reason true) clearProcessor.
Proof. unfold clearProcessor. stays. Qed.

Lemma openAccess_wp sec reason s g :
  trying sec reason false (mkB ((res s) <| accessAttempted := true |>) (hciWord s) (stopWord s) (acted s)) g ->
  wpm rules openAccess s g (fun o s' g' => match o with
    | Some _ => trying sec reason true s' g' | None => exists cap, trying sec reason cap s' g' end).
Proof.
  intros H. unfold openAccess. wstep. apply wpm_modify. revert H. generalize (mkB ((res s) <| accessAttempted := true |>) (hciWord s) (stopWord s) (acted s)).
  clear s. intros s H.
  do 8 (wstep; eapply (stays_wpm rules (trying sec reason false)); [solve [stays]|exact H|clear s g H];
    intros [?|] s g H; [|eauto]).
  wstep. apply wpm_modify.
  assert (Hr : accessReady ((res s) <| accessReady := true |>) = true) by reflexivity.
  assert (H1 : trying sec reason false (mkB ((res s) <| accessReady := true |>) (hciWord s) (stopWord s) (acted s)) g).
  { destruct H as (A1 & A2 & A3 & A4 & A5 & A6 & A7 & A8 & A9 & A10). repeat split; auto; try discriminate; apply A2. }
  revert Hr H1. generalize ((res s) <| accessReady := true |>). intros r Hr H1. clear H.
  wstep. apply read32_wp; [exact I|]. intros h _. cbn [next rules bootNext]. apply trying_read with (a := 0x1000) (v := u32 h) in H1.
  wstep. apply read32_wp; [exact I|]. intros st _. cbn [next rules bootNext]. apply trying_read with (a := 0x1010) (v := u32 st) in H1.
  revert H1. generalize (noteRead 0x1010 (u32 st) (noteRead 0x1000 (u32 h) g)). clear g. intros g H1.
  do 2 wstep. cbn [res acted]. unfold orStop, setSt. wstep. wstep. wstep. wstep; [wstep|wstep; apply wpm_modify; wstep].
  - apply wpm_modify. cbn [res hciWord stopWord acted].
    destruct H1 as (A1 & A2 & A3 & A4 & A5 & A6 & A7 & A8 & A9 & A10). repeat split; auto; try apply u32_range; apply A2.
  - exists false. cbn [res hciWord stopWord acted].
    destruct H1 as (A1 & A2 & A3 & A4 & A5 & A6 & A7 & A8 & A9 & A10). repeat split; auto; try discriminate; apply A2.
Qed.

(** The processor starts only after the reset word was confirmed. *)
Lemma enableProcessor_trying sec reason : stays rules (trying sec reason true) enableProcessor.
Proof.
  intros s g H. unfold enableProcessor. wstep. apply read32_wp; [exact I|]. intros v _. cbn [next rules bootNext].
  apply trying_read with (a := 0x1e0) (v := u32 v) in H.
  assert (Hv : g_read (noteRead 0x1e0 (u32 v) g) !! 0x1e0 = Some (u32 v)) by (cbn; apply lookup_insert_eq).
  revert H Hv. generalize (noteRead 0x1e0 (u32 v) g). clear g. intros g H Hv. wstep. unfold orStop, matches. wstep. wstep.
  - wstep. cbn. apply wpm_must. eapply wpm_mono; [apply rm_wp; [reflexivity| |exact H]|intros [[|]|]; auto].
    intros _ _. exists (u32 v). split; [exact Hv|lia].
  - wstep. apply (stays_wpm rules (trying sec reason true)); [stays; apply onR_trying; intros r; destruct (failureRecorded r); repeat split; auto|exact H|].
    clear s g H Hv. intros o s g H.
    destruct o; [|exact H]. wstep. wstep. apply wpm_modify. wstep.
    apply (idle_trying sec reason true (fun r => r <| status := staleReady |>)); [intros r; repeat split; discriminate|exact H].
Qed.

(** What the poll of the processor's status leaves. *)
Definition waiting sec reason s g : Prop := trying sec reason true s g /\ phase (res s) = 6.
Lemma poll_control sec reason s g : waiting sec reason s g ->
  wpm rules (poll 0x1e0 2 2 400000 (fun v r => r <| control := v |>)) s g (fun o s' g' =>
    trying sec reason true s' g' /\ (o = Some true -> phase (res s') = 6 /\ flag (control (res s')) 2 = true)).
Proof.
  intros [H Hp]. unfold poll. wstep. apply nowUs_wp; [exact I|]. intros start _. cbn [next rules bootNext]. wstep.
  apply (wpm_for_loop rules (fun _ => waiting sec reason)); [vm_compute; discriminate|split; assumption| |].
  2:{ intros s1 g1 [H1 _]. wstep. apply wpm_modify. wstep. split; [|discriminate].
      apply (idle_trying sec reason true (fun r => r <| status := timeout |>)); [intros r; repeat split; discriminate|exact H1]. }
  clear s g H Hp. intros _ s g _ [H Hp]. unfold pollTurn. wstep. apply nowUs_wp; [exact I|]. intros now _. cbn [next rules bootNext].
  wstep.
  { wstep. apply wpm_modify. wstep. wstep. split; [|discriminate].
    apply (idle_trying sec reason true (fun r => r <| status := timeout |>)); [intros r; repeat split; discriminate|exact H]. }
  wstep. apply read32_wp; [exact I|]. intros v _. cbn [next rules bootNext]. apply trying_read with (a := 0x1e0) (v := u32 v) in H.
  revert H. generalize (noteRead 0x1e0 (u32 v) g). clear g. intros g H. wstep. apply wpm_modify.
  apply (idle_trying sec reason true (fun r => (r <| control := u32 v |>) <| polls := u32 (polls r + 1) |>)) in H; [|intros r; repeat split; auto].
  match goal with |- wpm _ _ ?x _ _ => assert (Hc : control (res x) = u32 v /\ phase (res x) = 6) by (split; [reflexivity|exact Hp]); revert H Hc; generalize x end.
  clear s Hp. intros s H [Hc Hp]. wstep.
  { wstep. apply wpm_modify. wstep. wstep. split; [|discriminate].
    apply (idle_trying sec reason true (fun r => r <| status := invalidRead |>)); [intros r; repeat split; discriminate|exact H]. }
  wstep.
  { wstep. wstep. split; [exact H|]. intros _. split; [exact Hp|]. rewrite Hc. unfold flag. rewrite (proj1 (Z.eqb_eq _ _) Heqb1). reflexivity. }
  wstep. apply dcall_wp; [exact I|]. intros [] _. wstep. split; assumption.
Qed.

(** The end of the attempt. *)
Definition tried sec reason s g : Prop := exists cap,
  trying sec reason cap (mkB ((res s) <| status := notRun |>) (hciWord s) (stopWord s) (acted s)) g /\
  (status (res s) = ready -> cap = true /\ romReady (res s)).
Lemma bootTrying_tried sec reason cap s g : trying sec reason cap s g -> tried sec reason s g.
Proof.
  intros H. exists cap. split; [|intros E; destruct H as (_ & _ & _ & _ & _ & _ & _ & _ & _ & H); contradiction].
  apply (idle_trying sec reason cap (fun r => r <| status := notRun |>)); [intros r; repeat split; discriminate|exact H].
Qed.

Definition withStatus st s : BState X := mkB ((res s) <| status := st |>) (hciWord s) (stopWord s) (acted s).
Lemma status_trying sec reason cap st s g : st <> ready -> trying sec reason cap s g -> trying sec reason cap (withStatus st s) g.
Proof. intros Hst. apply (idle_trying sec reason cap (fun r => r <| status := st |>)). intros r. repeat split. intros E. destruct (Hst E). Qed.
Lemma orStop_mret b st s g (Q : option unit -> BState X -> Trail -> Prop) :
  (b = true -> Q (Some tt) s g) -> (b = false -> Q None (withStatus st s) g) -> wpm rules (orStop (mret b) st) s g Q.
Proof. intros HT HF. unfold orStop. destruct b; [exact (HT eq_refl)|exact (HF eq_refl)]. Qed.

Lemma matches_wp a v m e s g (Q : option bool -> BState X -> Trail -> Prop) :
  (negb (invalid v) && (Z.land v m =? e) = true -> Q (Some true) s g) ->
  (forall s', (forall sec reason cap g, trying sec reason cap s g -> trying sec reason cap s' g) -> Q (Some false) s' g) ->
  wpm rules (matches a v m e) s g Q.
Proof.
  intros HT HF. unfold matches. wstep; [wstep; auto|]. wstep. apply wpm_modify. wstep. apply HF.
  intros sec reason cap g' H.
  apply (idle_trying sec reason cap (fun r => if failureRecorded r then r else recordMismatch a v m e r)); [|exact H].
  intros r. destruct (failureRecorded r); repeat split; auto.
Qed.

Lemma startProcessor_wp sec reason s g : trying sec reason true s g ->
  wpm rules (startProcessor reason) s g (fun _ s' g' => tried sec reason s' g').
Proof.
  intros H. unfold startProcessor, countWrite.
  wstep. eapply (stays_wpm rules (trying sec reason true)); [solve [stays]|exact H|clear s g H]; intros [[]|] s g H; [|eapply bootTrying_tried; exact H].
  wstep. eapply (stays_wpm rules (trying sec reason true)); [|exact H|clear s g H].
  { apply orStop_trying; [discriminate|]. intros s1 g1 H1. apply dcall_wp; [|intros ok _; exact H1]. split; [reflexivity|apply H1]. }
  intros [[]|] s g H; [|eapply bootTrying_tried; exact H].
  wstep. eapply (stays_wpm rules (trying sec reason true)); [apply enableProcessor_trying|exact H|clear s g H].
  intros [[]|] s g H; [|eapply bootTrying_tried; exact H].
  wstep. apply wpm_modify. apply (idle_trying sec reason true (fun r => r <| phase := 6 |>)) in H; [|intros r; repeat split; auto].
  wstep. wstep. eapply wpm_mono; [apply (poll_control sec reason); split; [exact H|reflexivity]|]. clear s g H. intros o s g [H Ho].
  destruct o as [[|]|]; [destruct (Ho eq_refl) as [Hp Hc]; clear Ho|eapply bootTrying_tried; exact H..].
  wstep. apply wpm_gets.
  wstep. apply orStop_mret; intros E1; [|apply (bootTrying_tried _ _ true), status_trying; [discriminate|exact H]]. cbv zeta.
  wstep. apply orStop_mret; intros E2; [|apply (bootTrying_tried _ _ true), status_trying; [discriminate|exact H]].
  wstep. apply read32_wp; [exact I|]. intros v _. cbn [next rules bootNext]. apply trying_read with (a := 0x8400) (v := u32 v) in H.
  wstep. apply read32_wp; [exact I|]. intros w _. cbn [next rules bootNext]. apply trying_read with (a := 0x8404) (v := u32 w) in H.
  revert H. generalize (noteRead 0x8404 (u32 w) (noteRead 0x8400 (u32 v) g)). clear g. intros g H.
  wstep. apply wpm_modify.
  apply (idle_trying sec reason true (fun r => (r <| dmac := u32 v |>) <| clock := u32 w |>)) in H; [|intros r; repeat split; auto].
  match goal with |- wpm _ _ ?x _ _ => assert (Hx : control (res x) = control (res s) /\ phase (res x) = 6 /\ dmac (res x) = u32 v /\ clock (res x) = u32 w)
    by (repeat split; exact Hp); revert H Hx; generalize x end.
  intros s1 H (F1 & F2 & F3 & F4). wstep. unfold orStop. wstep. wstep.
  apply matches_wp; [intros M1|intros s2 H2; wstep; apply wpm_modify; wstep; apply (bootTrying_tried _ _ true), (status_trying sec reason true invalidRead); [discriminate|apply H2, H]].
  apply matches_wp; [intros M2|intros s2 H2; wstep; apply wpm_modify; wstep; apply (bootTrying_tried _ _ true), (status_trying sec reason true invalidRead); [discriminate|apply H2, H]].
  wstep. apply wpm_modify. exists true. split.
  { refine (idle_trying sec reason true (fun r => (r <| status := ready |>) <| status := notRun |>) s1 g _ H).
    intros r. repeat split. discriminate. }
  intros _. split; [reflexivity|]. destruct H as (_ & _ & _ & _ & _ & _ & _ & Hcap & Hacc & _). destruct (Hacc eq_refl) as [Ha _].
  cbn [withStatus res]. unfold romReady. cbn. rewrite F1, F2, F3, F4. rewrite land_ff in M1, M2 by apply u32_range.
  repeat split; auto; lia.
Qed.

Lemma bootBlock_wp sec reason s g :
  trying sec reason false (mkB ((res s) <| accessAttempted := true |>) (hciWord s) (stopWord s) (acted s)) g ->
  wpm rules (bootBlock reason) s g (fun _ s' g' => tried sec reason s' g').
Proof.
  intros H. unfold bootBlock. wstep. eapply wpm_mono; [apply (openAccess_wp sec reason); exact H|]. clear s g H.
  intros [[]|] s g H; [|destruct H as [cap H]; eapply bootTrying_tried, H].
  wstep. apply (stays_wpm rules (trying sec reason true)); [apply pauseHost_trying|exact H|clear s g H; intros [[]|] s g H; [|eapply bootTrying_tried, H]].
  wstep. apply (stays_wpm rules (trying sec reason true)); [apply layOut_trying|exact H|clear s g H; intros [[]|] s g H; [|eapply bootTrying_tried, H]].
  wstep. apply (stays_wpm rules (trying sec reason true)); [apply startEngines_trying|exact H|clear s g H; intros [[]|] s g H; [|eapply bootTrying_tried, H]].
  wstep. apply (stays_wpm rules (trying sec reason true)); [apply clearProcessor_trying|exact H|clear s g H; intros [[]|] s g H; [|eapply bootTrying_tried, H]].
  apply startProcessor_wp. exact H.
Qed.

(** Nothing was written: the attempt was refused. *)
Definition refused s g : Prop := g_wrote g = ∅ /\ acted s = None /\ attempted (res s) = false /\
  (status (res s) = unsafeCommand \/ status (res s) = invalidRead).

Lemma bootAttempt_wp : wpm rules attempt (mkB newResult 0 0 None) newTrail (fun o s g => match o with
  | Some (sec, reason) => tried sec reason s g | None => refused s g end).
Proof.
  unfold attempt. wstep. apply command_wp; [exact I|]. intros c _. cbn [next rules bootNext]. wstep. wstep.
  { wstep. apply wpm_modify. wstep. repeat split. auto. }
  wstep. wstep. apply read32_wp; [exact I|]. intros sec _. cbn [next rules bootNext].
  wstep. apply read16_wp; [exact I|]. intros why _. cbn [next rules bootNext].
  wstep. apply read32_wp; [exact I|]. intros d _. cbn [next rules bootNext].
  wstep. apply read32_wp; [exact I|]. intros h _. cbn [next rules bootNext].
  wstep. apply wpm_modify. wstep. wstep.
  { wstep. apply wpm_modify. wstep. repeat split. auto. }
  wstep. wstep. apply wpm_modify. wstep. apply wpm_block. eapply wpm_mono; [apply (bootBlock_wp (u32 sec) (u16 why))|].
  - split; [exists (u16 c); split; [reflexivity|lia]|]. repeat split; discriminate.
  - intros o s g H. wstep. exact H.
Qed.

(** *** The clean-up *)

(** What the clean-up does not change. *)
Definition core s :=
  let r := res s in
  (attempted r, operationStatus r, phase r, hciCaptured r, (accessAttempted r, accessReady r, hciBefore r, stopBefore r),
   (control r, dmac r, clock r), (hciWord s, stopWord s, acted s)).

(** The facts settled so far: values last written, and, unless a failure was
    noted, values last read and further facts [F].  A fact whose guard is
    false is void. *)
Definition facts (m : gmap Z Z) (l : list (bool * Z * Z)) : Prop :=
  Forall (fun p => p.1.1 = true -> m !! p.1.2 = Some p.2) l.
Definition settled sec reason s0 (ws rs : list (bool * Z * Z)) (F : Prop) s g : Prop :=
  quiet g /\ firsts sec reason g /\ core s = core s0 /\ facts (g_wrote g) ws /\
  (cleanupFailures (res s) = 0 -> facts (g_read g) rs /\ F).
Definition others (a : Z) (l : list (bool * Z * Z)) : bool := forallb (fun p => negb (p.1.2 =? a)) l.

Lemma facts_other m l a v : others a l = true -> facts m l -> facts (<[a := v]> m) l.
Proof.
  intros Ho H. unfold facts, others in *. rewrite forallb_forall in Ho. rewrite Forall_forall in *. intros p Hp Hb.
  specialize (Ho p ltac:(apply list_elem_of_In; exact Hp)). rewrite lookup_insert_ne by lia. auto.
Qed.
Lemma facts_cons m l b a v : others a l = true -> facts m l -> facts (<[a := v]> m) ((b, a, v) :: l).
Proof. intros Ho H. constructor; [intros _; apply lookup_insert_eq|apply facts_other; assumption]. Qed.

Section clean.
Context (sec reason : Z) (s0 : BState X).
Lemma settled_read ws rs F a v s g : others a rs = true -> settled sec reason s0 ws rs F s g -> settled sec reason s0 ws ((true, a, v) :: rs) F s (noteRead a v g).
Proof.
  intros Ho (H1 & H2 & H3 & H4 & H5). split; [exact H1|]. split; [apply firsts_read; exact H2|]. split; [exact H3|].
  split; [exact H4|]. intros E. destruct (H5 E). split; [apply facts_cons; assumption|assumption].
Qed.
Lemma settled_skim ws b a v rs F s g : settled sec reason s0 ws ((b, a, v) :: rs) F s g -> settled sec reason s0 ws rs F s g.
Proof.
  intros (H1 & H2 & H3 & H4 & H5). do 4 (split; [assumption|]). intros E. destruct (H5 E) as [Hf HF]. split; [|exact HF].
  apply Forall_cons in Hf. apply Hf.
Qed.
Lemma settled_write ws rs F a v s g : others a ws = true -> settled sec reason s0 ws rs F s g -> settled sec reason s0 ((true, a, v) :: ws) rs F s (noteWrite a v g).
Proof.
  intros Ho (H1 & H2 & H3 & H4 & H5). do 3 (split; [assumption|]). split; [apply facts_cons; assumption|exact H5].
Qed.
Lemma settled_keep ws rs F a v s g : others a ws = true -> settled sec reason s0 ws rs F s g -> settled sec reason s0 ws rs F s (noteWrite a v g).
Proof.
  intros Ho (H1 & H2 & H3 & H4 & H5). do 3 (split; [assumption|]). split; [apply facts_other; assumption|exact H5].
Qed.
Lemma settled_weaken ws rs ws' rs' (F F' : Prop) s g : settled sec reason s0 ws rs F s g ->
  (forall m, facts m ws -> facts m ws') -> (F -> forall m, facts m rs -> facts m rs' /\ F') -> settled sec reason s0 ws' rs' F' s g.
Proof.
  intros (H1 & H2 & H3 & H4 & H5) Hw Hr. do 3 (split; [assumption|]). split; [auto|]. intros E.
  destruct (H5 E). apply Hr; assumption.
Qed.

(** Updates of the fields that are free. *)
Definition free (f : Result -> Result) : Prop := forall s,
  core (mkB (f (res s)) (hciWord s) (stopWord s) (acted s)) = core s /\ cleanupFailures (f (res s)) = cleanupFailures (res s).
Lemma free_settled f ws rs F s g : free f -> settled sec reason s0 ws rs F s g -> settled sec reason s0 ws rs F (mkB (f (res s)) (hciWord s) (stopWord s) (acted s)) g.
Proof. intros Hf. destruct (Hf s) as [E1 E2]. unfold settled. cbn [res]. rewrite E1, E2. auto. Qed.
Lemma onR_settled ws rs F f : free f -> stays rules (settled sec reason s0 ws rs F) (onR f).
Proof. intros Hf. apply stays_modify. intros s g. apply free_settled. exact Hf. Qed.

Lemma matches_settled ws rs F a v m e s g : settled sec reason s0 ws rs F s g ->
  wpm rules (matches a v m e) s g (fun o s' g' => settled sec reason s0 ws rs F s' g' /\
    exists x, o = Some x /\ (x = true -> Z.land v m = e)).
Proof.
  intros H. unfold matches. wstep; [wstep; split; [exact H|]; exists true; split; [reflexivity|lia]|].
  wstep. apply wpm_modify. wstep. split; [|exists false; split; [reflexivity|discriminate]].
  apply (free_settled (fun r => if failureRecorded r then r else recordMismatch a v m e r)); [|exact H].
  intros s1. destruct (failureRecorded (res s1)); split; reflexivity.
Qed.
Lemma fault_settled ws rs F bit s g (Q : option unit -> BState X -> Trail -> Prop) : bit <> 0 -> settled sec reason s0 ws rs F s g ->
  (forall s', settled sec reason s0 ws rs False s' g -> Q (Some tt) s' g) -> wpm rules (fault bit) s g Q.
Proof.
  intros Hb (H1 & H2 & H3 & H4 & H5) HQ. apply wpm_modify. apply HQ. do 4 (split; [assumption|]).
  cbn. intros [_ E]%Z.lor_eq_0_iff. contradiction.
Qed.
Lemma faultUnless_settled ws rs (F : Prop) b bit s g : bit <> 0 -> settled sec reason s0 ws rs F s g ->
  wpm rules (faultUnless b bit) s g (fun o s' g' => o = Some tt /\ settled sec reason s0 ws rs (F /\ b = true) s' g').
Proof.
  intros Hb H. unfold faultUnless. wstep.
  - wstep. split; [reflexivity|]. eapply settled_weaken; [exact H|auto|auto].
  - apply (fault_settled ws rs F); [exact Hb|exact H|]. intros s' H'. split; [reflexivity|].
    eapply settled_weaken; [exact H'|auto|intros []].
Qed.
Lemma wr_settled ws rs F a v s g : allowed32 a = true -> enableOk g a v -> settled sec reason s0 ws rs F s g ->
  others a ws = true ->
  wpm rules (wr a v) s g (fun o s' g' => o <> None /\ settled sec reason s0 ((true, a, v) :: ws) rs F s' g').
Proof.
  intros Ha He H Ho. unfold wr, countWrite. wstep. apply wpm_modify. wstep.
  apply (free_settled (fun r => r <| writes := u32 (writes r + 1) |>)) in H; [|intros s1; split; reflexivity].
  apply dcall_wp; [split; [exact Ha|split; [apply H|exact He]]|]. intros ok _. cbn [next rules bootNext].
  apply (settled_write ws rs F a v) in H; [|exact Ho]. wstep; [wstep; apply wpm_modify; wstep|wstep]; (split; [discriminate|]); [|exact H].
  apply (free_settled (fun r => r <| status := writeFailed |>)) in H; [exact H|intros s1; split; reflexivity].
Qed.
Lemma wr_adds ws rs F a v s g : allowed32 a = true -> a <> 0x88 -> others a ws = true -> settled sec reason s0 ws rs F s g ->
  wpm rules (wr a v) s g (fun o s' g' => o <> None /\ settled sec reason s0 ((true, a, v) :: ws) rs F s' g').
Proof. intros Ha Hn Ho H. apply wr_settled; auto. intros E. contradiction. Qed.
Lemma clean_settled ws rs F a m w ok s g : allowed32 a = true -> flag w 2 = false -> others a ws = true -> others a rs = true ->
  settled sec reason s0 ws rs F s g -> wpm rules (clean a m w ok) s g (fun o s' g' => o <> None /\ settled sec reason s0 ws rs F s' g').
Proof.
  intros Ha Hw Ho Hr H. unfold clean, rm. wstep. wstep. apply read32_wp; [exact I|]. intros v _. cbn [next rules bootNext].
  apply (settled_read ws rs F a (u32 v) s g Hr) in H. wstep.
  - wstep. apply wpm_modify. do 2 wstep. split; [discriminate|]. apply settled_skim in H.
    apply (free_settled (fun r => r <| status := invalidRead |>)) in H; [exact H|intros s1; split; reflexivity].
  - eapply wpm_mono; [apply (wr_settled ws ((true, a, u32 v) :: rs) F); [exact Ha| |exact H|exact Ho]|].
    { intros -> Hf. left. exists (u32 v). split; [apply lookup_insert_eq|exact (rm_bit _ m _ Hw Hf)]. }
    intros [x|] s' g' [Hn H']; [|destruct (Hn eq_refl)]. wstep. split; [discriminate|].
    apply settled_skim in H'. eapply settled_weaken; [exact H'| |auto]. intros l Hl. apply Forall_cons in Hl. apply Hl.
Qed.

Lemma stopProcessor_settled ok s g : settled sec reason s0 [] [] True s g ->
  wpm rules (stopProcessor ok) s g (fun o s' g' => o <> None /\ settled sec reason s0 [] [] True s' g').
Proof.
  intros H. unfold stopProcessor. wstep. apply wpm_gets. wstep; [|wstep; split; [discriminate|exact H]].
  clear Heqb. do 6 (wstep; eapply wpm_mono; [apply clean_settled; [reflexivity|reflexivity| | |exact H]; reflexivity|];
    clear ok s g H; intros [ok|] s g [Hn H]; [clear Hn|destruct (Hn eq_refl)]).
  apply clean_settled; [reflexivity|reflexivity| | |exact H]; reflexivity.
Qed.
Lemma stopFlow_settled ok s g : settled sec reason s0 [] [] True s g ->
  wpm rules (stopFlow ok) s g (fun o s' g' => o <> None /\ settled sec reason s0 [] [] True s' g').
Proof.
  intros H. unfold stopFlow. wstep. apply wpm_gets. wstep; [|wstep; split; [discriminate|exact H]].
  wstep; eapply wpm_mono; [apply clean_settled; [reflexivity|reflexivity| | |exact H]; reflexivity|].
  clear ok H; intros [ok|] s1 g1 [Hn H]; [clear Hn|destruct (Hn eq_refl)].
  wstep. apply read32_wp; [exact I|]. intros v _. cbn [next rules bootNext].
  apply (settled_read [] [] True 0x8a00 (u32 v)) in H; [|reflexivity]. apply settled_skim in H.
  wstep. eapply wpm_mono; [apply matches_settled; exact H|]. clear H. intros o s2 g2 [H (x & -> & _)].
  wstep. eapply wpm_mono; [apply (faultUnless_settled [] [] True x 1); [discriminate|exact H]|].
  clear H. intros o s3 g3 [-> H]. wstep. split; [discriminate|]. eapply settled_weaken; [exact H|auto|auto].
Qed.

(** The host words, when they were captured. *)
Definition hostCap := hciCaptured (res s0).
Definition hostFacts : list (bool * Z * Z) := [(hostCap, 0x1000, hciWord s0); (hostCap, 0x1010, stopWord s0)].
Lemma core_s0 ws rs F s g : settled sec reason s0 ws rs F s g ->
  hciCaptured (res s) = hostCap /\ hciWord s = hciWord s0 /\ stopWord s = stopWord s0 /\
  accessAttempted (res s) = accessAttempted (res s0) /\ phase (res s) = phase (res s0).
Proof. intros (_ & _ & H & _). unfold core in H. cbv zeta in H. injection H. auto 10. Qed.

Lemma facts_void l m : forallb (fun p => negb p.1.1) l = true -> facts m l.
Proof.
  intros H. rewrite forallb_forall in H. apply Forall_forall. intros p Hp Hb.
  specialize (H p ltac:(apply list_elem_of_In; exact Hp)). rewrite Hb in H. discriminate.
Qed.

Lemma restoreHost_settled ok s g : settled sec reason s0 [] [] True s g ->
  wpm rules (restoreHost ok) s g (fun o s' g' => o <> None /\ settled sec reason s0 hostFacts hostFacts True s' g').
Proof.
  intros H. pose proof (core_s0 _ _ _ _ _ H) as (C1 & C2 & C3 & _). unfold restoreHost. wstep. wstep. rewrite C1, C2, C3. wstep.
  2:{ wstep. split; [discriminate|]. eapply settled_weaken; [exact H| |]; intros; try split; auto; apply facts_void;
      cbn; rewrite Heqb; reflexivity. }
  wstep. eapply wpm_mono; [apply (wr_adds [] [] True 0x1010); [reflexivity|discriminate|reflexivity|exact H]|].
  clear H. intros [st|] s1 g1 [Hn H]; [clear Hn|destruct (Hn eq_refl)].
  wstep. eapply wpm_mono; [apply (wr_adds [(true, 0x1010, stopWord s0)] [] True 0x1000); [reflexivity|discriminate|reflexivity|exact H]|].
  clear H. intros [h|] s2 g2 [Hn H]; [clear Hn|destruct (Hn eq_refl)]. cbv zeta.
  wstep. apply read32_wp; [exact I|]. intros v _. cbn [next rules bootNext]. eapply (settled_read _ _ _ 0x1000 (u32 v)) in H; [|reflexivity].
  wstep. apply read32_wp; [exact I|]. intros w _. cbn [next rules bootNext]. eapply (settled_read _ _ _ 0x1010 (u32 w)) in H; [|reflexivity].
  wstep. apply wpm_modify.
  apply (free_settled (fun r => (r <| hciAfter := u32 v |>) <| stopAfter := u32 w |>)) in H; [|intros s3; split; reflexivity].
  wstep. eapply wpm_mono; [apply matches_settled; exact H|]. clear H. intros o s3 g3 [H (x & -> & Hx)].
  wstep. eapply wpm_mono; [apply faultUnless_settled; [|exact H]; discriminate|]. clear H. intros o s4 g4 [-> H].
  wstep. eapply wpm_mono; [apply matches_settled; exact H|]. clear H. intros o s5 g5 [H (y & -> & Hy)].
  wstep. eapply wpm_mono; [apply faultUnless_settled; [|exact H]; discriminate|]. clear H. intros o s6 g6 [-> H].
  wstep. split; [discriminate|]. rewrite land_ff in Hx, Hy by apply u32_range.
  eapply settled_weaken; [exact H| |].
  - intros m Hm. unfold hostFacts. rewrite Heqb. exact Hm.
  - intros [[_ ->] ->] m Hm. specialize (Hx eq_refl). specialize (Hy eq_refl). rewrite Hx, Hy in Hm. split; [|exact I].
    unfold hostFacts. rewrite Heqb. apply Forall_cons in Hm as [M1 M2]. apply Forall_cons in M2 as [M2 _]. repeat constructor; assumption.
Qed.

Definition accessFacts : list (bool * Z * Z) := (true, 0x8400, 0) :: (true, 0x8404, 0) :: hostFacts.
Definition closedFacts : list (bool * Z * Z) := (true, 0x8400, 0) :: hostFacts.

Lemma closeClock_settled ok s g : settled sec reason s0 hostFacts hostFacts True s g ->
  wpm rules (c ← wr 0x8404 0;
             v ← read32 0x8404;
             onR (fun r => r <| cleanupClock := v |> <| cleanupClockChecked := true |>);;
             m ← matches 0x8404 v 0xffffffff 0; faultUnless m 4;;
             mret (c && ok)) s g
    (fun o s' g' => o <> None /\ settled sec reason s0 hostFacts ((true, 0x8404, 0) :: hostFacts) True s' g').
Proof.
  intros H. wstep. eapply wpm_mono; [apply (wr_adds hostFacts hostFacts True 0x8404); [reflexivity|discriminate|reflexivity|exact H]|].
  clear H. intros [c|] s1 g1 [Hn H]; [clear Hn|destruct (Hn eq_refl)].
  wstep. apply read32_wp; [exact I|]. intros v _. cbn [next rules bootNext]. eapply (settled_read _ _ _ 0x8404 (u32 v)) in H; [|reflexivity].
  wstep. apply wpm_modify.
  apply (free_settled (fun r => (r <| cleanupClock := u32 v |>) <| cleanupClockChecked := true |>)) in H; [|intros s3; split; reflexivity].
  wstep. eapply wpm_mono; [apply matches_settled; exact H|]. clear H. intros o s3 g3 [H (x & -> & Hx)].
  wstep. eapply wpm_mono; [apply faultUnless_settled; [|exact H]; discriminate|]. clear H. intros o s4 g4 [-> H].
  wstep. split; [discriminate|]. rewrite land_ff in Hx by apply u32_range. eapply settled_weaken; [exact H| |].
  - intros m Hm. apply Forall_cons in Hm. apply Hm.
  - intros [_ ->] m Hm. rewrite (Hx eq_refl) in Hm. auto.
Qed.

Lemma closeAccess_settled ok s g : accessAttempted (res s0) = true -> settled sec reason s0 hostFacts hostFacts True s g ->
  wpm rules (closeAccess ok) s g (fun o s' g' => o <> None /\ settled sec reason s0 closedFacts accessFacts True s' g').
Proof.
  intros Ha H. pose proof (core_s0 _ _ _ _ _ H) as (_ & _ & _ & C4 & _). unfold closeAccess. wstep. apply wpm_gets. rewrite C4, Ha.
  wstep. apply read32_wp; [exact I|]. intros f _. cbn [next rules bootNext]. eapply (settled_read _ _ _ 0x8400 (u32 f)) in H; [|reflexivity].
  apply settled_skim in H. wstep.
  apply (wpm_mono rules _ _ _ (fun o s' g' => o <> None /\ settled sec reason s0 hostFacts ((true, 0x8404, 0) :: hostFacts) True s' g')).
  { wstep; [apply closeClock_settled; exact H|]. wstep. eapply fault_settled; [|exact H|]; [discriminate|]. intros s1 H1. wstep.
    split; [discriminate|]. eapply settled_weaken; [exact H1|auto|intros []]. }
  clear H C4. intros [o|] s1 g1 [Hn H]; [clear Hn|destruct (Hn eq_refl)].
  wstep. eapply wpm_mono; [apply (wr_adds hostFacts ((true, 0x8404, 0) :: hostFacts) True 0x8400); [reflexivity|discriminate|reflexivity|exact H]|].
  clear H. intros [c|] s2 g2 [Hn H]; [clear Hn|destruct (Hn eq_refl)].
  wstep. apply read32_wp; [exact I|]. intros v _. cbn [next rules bootNext]. eapply (settled_read _ _ _ 0x8400 (u32 v)) in H; [|reflexivity].
  wstep. apply wpm_modify.
  apply (free_settled (fun r => (r <| cleanupDmac := u32 v |>))) in H; [|intros s3; split; reflexivity].
  wstep. eapply wpm_mono; [apply matches_settled; exact H|]. clear H. intros o' s3 g3 [H (x & -> & Hx)].
  wstep. eapply wpm_mono; [apply faultUnless_settled; [|exact H]; discriminate|]. clear H. intros o'' s4 g4 [-> H].
  wstep. split; [discriminate|]. rewrite land_ff in Hx by apply u32_range. eapply settled_weaken; [exact H|auto|].
  intros [_ ->] m Hm. rewrite (Hx eq_refl) in Hm. auto.
Qed.

Definition late := 5 <=? phase (res s0).
Definition secureFacts : list (bool * Z * Z) := (late, 0x1e6, reason) :: (late, 0xc00, sec) :: closedFacts.
Lemma restoreSecurity_settled ok s g : settled sec reason s0 closedFacts accessFacts True s g ->
  wpm rules (restoreSecurity sec reason ok) s g (fun o s' g' => o <> None /\ settled sec reason s0 secureFacts accessFacts True s' g').
Proof.
  intros H. pose proof (core_s0 _ _ _ _ _ H) as (_ & _ & _ & _ & C5). unfold restoreSecurity, secureFacts. wstep. apply wpm_gets. rewrite C5.
  fold late. wstep.
  2:{ wstep. split; [discriminate|]. eapply settled_weaken; [exact H| |auto]. intros m Hm. do 2 (apply Forall_cons; split; [discriminate|]). exact Hm. }
  wstep. eapply wpm_mono; [apply (wr_adds closedFacts accessFacts True 0xc00 sec); [reflexivity|discriminate|reflexivity|exact H]|].
  clear H C5. intros [c|] s2 g2 [Hn H]; [clear Hn|destruct (Hn eq_refl)].
  wstep. apply wpm_modify. apply (free_settled (fun r => r <| writes := u32 (writes r + 1) |>)) in H; [|intros s3; split; reflexivity].
  wstep. apply dcall_wp; [split; [reflexivity|apply H]|]. intros ok' _. cbn [next rules bootNext]. wstep. split; [discriminate|].
  apply settled_write; [reflexivity|exact H].
Qed.

(** The state the clean-up ends in. *)
Definition finished s g : Prop :=
  core s = core s0 /\ facts (g_wrote g) secureFacts /\ firsts sec reason g /\
  (cleanupOK (res s) = true -> facts (g_read g) ((late, 0x1e6, reason) :: (late, 0xc00, sec) :: accessFacts) /\ quiet g /\
    exists p c w, g_read g !! 0x88 = Some p /\ flag p 2 = false /\ g_read g !! 8 = Some c /\ flag c 0x4000 = false /\
     g_read g !! 0x1e0 = Some w /\ Z.land w 7 = 0) /\
  status (res s) = (if cleanupOK (res s) then operationStatus (res s) else cleanupFailed).

Definition stoppedReads p c w : bool :=
  negb (invalid p) && negb (flag p 2) && negb (invalid c) && negb (flag c 0x4000) && negb (invalid w) && (Z.land w 7 =? 0).

Lemma verdict_finished ok s g : settled sec reason s0 secureFacts accessFacts True s g ->
  wpm rules (verdict sec reason ok) s g (fun _ s' g' => finished s' g').
Proof.
  intros H. pose proof (core_s0 _ _ _ _ _ H) as (_ & _ & _ & _ & C5). unfold verdict.
  wstep. apply read32_wp; [exact I|]. intros p _. cbn [next rules bootNext]. eapply (settled_read _ _ _ 0x88 (u32 p)) in H; [|reflexivity].
  wstep. apply read32_wp; [exact I|]. intros c _. cbn [next rules bootNext]. eapply (settled_read _ _ _ 8 (u32 c)) in H; [|reflexivity].
  wstep. apply read32_wp; [exact I|]. intros w _. cbn [next rules bootNext]. eapply (settled_read _ _ _ 0x1e0 (u32 w)) in H; [|reflexivity].
  cbv zeta. fold (stoppedReads (u32 p) (u32 c) (u32 w)).
  wstep. apply wpm_modify. apply (free_settled (fun r => r <| cpuStopped := stoppedReads (u32 p) (u32 c) (u32 w) |>)) in H; [|intros s3; split; reflexivity].
  wstep. apply wpm_gets. cbn [res]. change (phase ((res s) <| cpuStopped := stoppedReads (u32 p) (u32 c) (u32 w) |>)) with (phase (res s)). rewrite C5. fold late.
  clear C5. revert H. generalize (mkB ((res s) <| cpuStopped := stoppedReads (u32 p) (u32 c) (u32 w) |>) (hciWord s) (stopWord s) (acted s)). clear s.
  match goal with |- context [settled sec reason s0 _ ?l] => set (cpu := l) end. intros s H.
  wstep. apply (wpm_mono rules _ _ _ (fun o s' g' => o <> None /\
    settled sec reason s0 secureFacts ((late, 0x1e6, reason) :: (late, 0xc00, sec) :: cpu) True s' g')).
  { wstep. 2:{ wstep. split; [discriminate|]. eapply settled_weaken; [exact H|auto|]. intros _ m Hm. split; [|exact I].
      do 2 (apply Forall_cons; split; [discriminate|]). exact Hm. }
    wstep. apply read32_wp; [exact I|]. intros v _. cbn [next rules bootNext]. eapply (settled_read _ _ _ 0xc00 (u32 v)) in H; [|reflexivity].
    wstep. wstep.
    - wstep. eapply fault_settled; [|exact H|]; [discriminate|]. intros s1 H1. split; [discriminate|].
      eapply settled_weaken; [exact H1|auto|intros []].
    - wstep. apply read16_wp; [exact I|]. intros r _. cbn [next rules bootNext]. eapply (settled_read _ _ _ 0x1e6 (u16 r)) in H; [|reflexivity].
      wstep. wstep.
      + eapply fault_settled; [|exact H|]; [discriminate|]. intros s1 H1. split; [discriminate|].
        eapply settled_weaken; [exact H1|auto|intros []].
      + wstep. split; [discriminate|]. eapply settled_weaken; [exact H|auto|]. intros _ m Hm. split; [|exact I].
        replace (u32 v) with sec in Hm by lia. replace (u16 r) with reason in Hm by lia. exact Hm. }
  clear H. intros [[]|] s1 g1 [Hn H]; [clear Hn|destruct (Hn eq_refl)].
  wstep. eapply wpm_mono; [apply faultUnless_settled; [|exact H]; discriminate|]. clear H. intros o s4 g4 [-> H].
  wstep. eapply wpm_mono; [apply faultUnless_settled; [|exact H]; discriminate|]. clear H. intros o s5 g5 [-> H].
  wstep. apply command_wp; [exact I|]. intros cmd _. cbn [next rules bootNext].
  destruct H as (H1 & H2 & H3 & H4 & H5). wstep.
  unfold faultUnless. apply (wpm_mono rules _ _ _ (fun o s' g' => o <> None /\ core s' = core s0 /\
      (cleanupFailures (res s') = 0 -> cleanupFailures (res s5) = 0 /\ Z.land (u16 cmd) 6 = 2) /\
      g' = mkTrail (g_wrote g5) (g_read g5) (g_first g5) (Some (u16 cmd)))).
  { wstep; [wstep|apply wpm_modify]; (split; [discriminate|]); (split; [exact H3|]); (split; [|reflexivity]).
    - intros E. split; [exact E|lia].
    - cbn. intros [_ E]%Z.lor_eq_0_iff. discriminate. }
  clear H3. intros [[]|] s6 g6 [Hn (H3 & H6 & ->)]; [clear Hn|destruct (Hn eq_refl)].
  wstep. apply wpm_modify. apply wpm_modify. unfold finished. cbn [res].
  split; [exact H3|]. split; [exact H4|]. split; [exact H2|]. split; [|reflexivity].
  intros E. change ((cleanupFailures (res s6) =? 0) = true) in E.
  destruct (H6 ltac:(lia)) as [E5 Hq]. destruct (H5 E5) as (Hf & _ & Hst). unfold cpu in Hf.
  apply Forall_cons in Hf as [F1 Hf]. apply Forall_cons in Hf as [F2 Hf]. apply Forall_cons in Hf as [F3 Hf].
  apply Forall_cons in Hf as [F4 Hf]. apply Forall_cons in Hf as [F5 Hf]. cbn in F1, F2, F3, F4, F5.
  split; [do 2 (apply Forall_cons; split; [assumption|]); exact Hf|].
  split; [exists (u16 cmd); split; [reflexivity|exact Hq]|].
  unfold stoppedReads in Hst. rewrite !andb_true_iff, !negb_true_iff, Z.eqb_eq in Hst.
  exists (u32 p), (u32 c), (u32 w). cbn [g_read]. tauto.
Qed.

Lemma cleanup_finished s g : accessAttempted (res s0) = true -> settled sec reason s0 [] [] True s g ->
  wpm rules (cleanup sec reason) s g (fun _ s' g' => finished s' g').
Proof.
  intros Ha H. unfold cleanup.
  wstep. eapply wpm_mono; [apply stopProcessor_settled; exact H|]. clear H. intros [o1|] s1 g1 [Hn H]; [clear Hn|destruct (Hn eq_refl)].
  wstep. eapply wpm_mono; [apply stopFlow_settled; exact H|]. clear H. intros [o2|] s2 g2 [Hn H]; [clear Hn|destruct (Hn eq_refl)].
  wstep. eapply wpm_mono; [apply restoreHost_settled; exact H|]. clear H. intros [o3|] s3 g3 [Hn H]; [clear Hn|destruct (Hn eq_refl)].
  wstep. eapply wpm_mono; [apply closeAccess_settled; [exact Ha|exact H]|]. clear H. intros [o4|] s4 g4 [Hn H]; [clear Hn|destruct (Hn eq_refl)].
  wstep. eapply wpm_mono; [apply restoreSecurity_settled; exact H|]. clear H. intros [o5|] s5 g5 [Hn H]; [clear Hn|destruct (Hn eq_refl)].
  apply verdict_finished. exact H.
Qed.
End clean.

Lemma facts_cons_iff m b a v l : facts m ((b, a, v) :: l) <-> (b = true -> m !! a = Some v) /\ facts m l.
Proof. apply Forall_cons. Qed.

(** After the attempt and the action. *)
Lemma finish_wp sec reason s x g : tried sec reason s g -> (x <> None <-> status (res s) = ready) ->
  wpm rules (finish sec reason) (mkB (res s) (hciWord s) (stopWord s) x) g (fun _ s' g' => acted s' = x /\ bootOk s' g').
Proof.
  intros (cap & (T1 & T2 & T3 & T4 & T5 & T6 & T7 & T8 & T9 & T10) & T11) Hx. unfold finish. wstep. apply wpm_modify. cbn [res hciWord stopWord acted] in *.
  set (s1 := mkB ((res s) <| operationStatus := status (res s) |>) (hciWord s) (stopWord s) x).
  eapply wpm_mono; [apply (cleanup_finished sec reason s1); [exact T4|]|].
  { split; [exact T1|]. split; [exact T2|]. split; [reflexivity|]. split; [constructor|]. intros _. split; [constructor|exact I]. }
  intros o s2 g2 (F1 & F2 & [F3 F4] & F5 & F6). clear o.
  unfold core in F1. cbv zeta in F1. injection F1 as E1 E2 E3 E4 E5 E6 E7 E8 E9 E10 E11 E12 E13 E14. cbn in E1, E2, E3, E4, E5, E6, E7, E8, E9, E10, E11, E12, E13, E14.
  cbn in T3, T4, T5, T6, T7, T8, T9.
  unfold secureFacts, closedFacts, accessFacts, hostFacts, late, hostCap in F2, F5. cbn [res s1 hciWord stopWord] in F2, F5.
  change (phase ((res s) <| operationStatus := status (res s) |>)) with (phase (res s)) in F2, F5.
  change (hciCaptured ((res s) <| operationStatus := status (res s) |>)) with (hciCaptured (res s)) in F2, F5.
  rewrite !facts_cons_iff in F2. destruct F2 as (W1 & W2 & W3 & W4 & W5 & _).
  split; [exact E14|]. unfold bootOk. rewrite E1, T3. split; [|split; [|split; [|split; [|exact F6]]]].
  - unfold undone. rewrite E3, E4, E7, E8, F3, F4. split; [auto|]. split.
    + intros Hc. destruct T9 as (_ & -> & -> & _); [congruence|auto].
    + intros Hp. split; [apply W2|apply W1]; lia.
  - intros Hc. destruct (F5 Hc) as (Hr & Hq & Hcpu). rewrite !facts_cons_iff in Hr. destruct Hr as (R1 & R2 & R3 & R4 & R5 & R6 & _).
    unfold confirmed. rewrite E3, E4, E7, E8, F3, F4. split; [auto|]. split; [auto|]. split.
    + intros Hc1. destruct T9 as (_ & -> & -> & _); [congruence|auto].
    + split; [intros Hp; split; [apply R2|apply R1]; lia|]. split; [exact Hcpu|exact Hq].
  - rewrite E2. intros Hs. destruct (T11 Hs) as [_ Hr]. unfold romReady in *. rewrite E3, E4, E6, E9, E10, E11. exact Hr.
  - rewrite E2, E14. exact Hx.
Qed.

Lemma exec_act action s tr out : exec (act action s) tr out -> exists x,
  out = (Some tt, mkB (res s) (hciWord s) (stopWord s) x) /\
  (status (res s) = ready -> exists a, x = Some a /\ exec action tr a) /\
  (status (res s) <> ready -> x = acted s /\ tr = []).
Proof.
  intros He. apply exec_mbind in He as (t1 & t2 & o & s1 & -> & [-> Hg] & He). injection Hg as <- <-.
  cbn [app] in *. unfold when in He. case_bool_decide as Hs.
  - apply exec_mbind in He as (t1 & t3 & o & s1 & -> & H1 & He). apply exec_lift in H1 as (a & Ha & [= -> ->]).
    destruct He as [-> <-]. rewrite app_nil_r. exists (Some a). split; [reflexivity|]. split; [eauto|]. intros Hn. contradiction.
  - destruct He as [-> <-]. exists (acted s). destruct s. split; [reflexivity|]. split; [contradiction|auto].
Qed.
End proofs.
End Proofs.
Import Proofs.


(** ** Concrete runs *)

(** A board whose engines report ready and whose ROM raises the download bit
    once the processor is enabled. *)
Definition bootView (a : Z) (d : Board) : option Z :=
  if a =? 0x8d00 then Some 3 else if a =? 0x9100 then Some 3
  else if a =? 0x1e0 then
    if flag (regGet 0x88 d) 2 then Some (Z.lor (regGet 0x1e0 d) 2) else Some (regGet 0x1e0 d)
  else None.
Definition sampleBoot := run_trace (board bootView) probe (mkBoard [(0x1000, 0x2801)] 0 2).

Example sampleBoot_ready :
  status (res sampleBoot.1.1) = ready /\ regGet 0x8400 sampleBoot.1.2 = 0 /\ regGet 0x1000 sampleBoot.1.2 = 0x2801.
Proof. vm_compute. auto. Qed.

(** Without a ready ROM the attempt times out and is undone. *)
Definition silentBoot := run_trace (board (fun _ _ => None)) probe (mkBoard [(0x1000, 0x2801)] 0 2).
Example silentBoot_timeout :
  status (res silentBoot.1.1) = timeout /\ acted silentBoot.1.1 = None /\ regGet 0x1000 silentBoot.1.2 = 0x2801.
Proof. vm_compute. auto. Qed.

