(* ===== verification/StationFields.v ===== *)
(** * The fields of the station table commands

    The setters of src/network/Rtw8852bStationTableFields.hpp and [replace] of
    StationTables.hpp: each puts a value into one masked field of a 32-bit
    little-endian word, and the CMAC setters raise the matching bits of the
    mask half as well.  The second part gives the words of a buffer built by
    such edits in closed form. *)

From S2P Require Import Prelude Descriptors DataPath.

(** [while (!(mask & (1 << shift))) ++shift;], from [shift] on; a mask is not
    zero and has 32 bits. *)
Fixpoint firstBit (fuel : nat) (mask shift : Z) : Z :=
  match fuel with
  | O => shift
  | S fuel => if flag mask (u32 (Z.shiftl 1 shift)) then shift else firstBit fuel mask (shift + 1)
  end.
Definition shiftOf (mask : Z) : Z := firstBit 32 mask 0.

Definition replace (bytes : buf) (word value mask : Z) : mres unit buf :=
  old ← little32 bytes (word * 4);
  store32 bytes (word * 4) (Z.lor (Z.ldiff old mask) (Z.land (u32 (Z.shiftl value (shiftOf mask))) mask)).

Definition SET_CTRL_INFO_MACID (v : Z) (out : buf) : mres unit buf :=
  replace out 0 v 0x7f.
Definition SET_CTRL_INFO_OPERATION (v : Z) (out : buf) : mres unit buf :=
  replace out 0 v 0x80.
Definition SET_CMC_TBL_TXPWR_MODE (v : Z) (out : buf) : mres unit buf :=
  out ← replace out 5 v 0xe00; replace out 13 7 0xe00.
Definition SET_CMC_TBL_NTX_PATH_EN (v : Z) (out : buf) : mres unit buf :=
  out ← replace out 6 v 0xf0000; replace out 14 15 0xf0000.
Definition SET_CMC_TBL_PATH_MAP_A (v : Z) (out : buf) : mres unit buf :=
  out ← replace out 6 v 0x300000; replace out 14 3 0x300000.
Definition SET_CMC_TBL_PATH_MAP_B (v : Z) (out : buf) : mres unit buf :=
  out ← replace out 6 v 0xc00000; replace out 14 3 0xc00000.
Definition SET_CMC_TBL_PATH_MAP_C (v : Z) (out : buf) : mres unit buf :=
  out ← replace out 6 v 0x3000000; replace out 14 3 0x3000000.
Definition SET_CMC_TBL_PATH_MAP_D (v : Z) (out : buf) : mres unit buf :=
  out ← replace out 6 v 0xc000000; replace out 14 3 0xc000000.
Definition SET_CMC_TBL_ANTSEL_A (v : Z) (out : buf) : mres unit buf :=
  out ← replace out 6 v 0x10000000; replace out 14 1 0x10000000.
Definition SET_CMC_TBL_ANTSEL_B (v : Z) (out : buf) : mres unit buf :=
  out ← replace out 6 v 0x20000000; replace out 14 1 0x20000000.
Definition SET_CMC_TBL_ANTSEL_C (v : Z) (out : buf) : mres unit buf :=
  out ← replace out 6 v 0x40000000; replace out 14 1 0x40000000.
Definition SET_CMC_TBL_ANTSEL_D (v : Z) (out : buf) : mres unit buf :=
  out ← replace out 6 v 0x80000000; replace out 14 1 0x80000000.
Definition SET_CMC_TBL_DOPPLER_CTRL (v : Z) (out : buf) : mres unit buf :=
  out ← replace out 7 v 0xc0000; replace out 15 3 0xc0000.
Definition SET_CMC_TBL_TXPWR_TOLERENCE (v : Z) (out : buf) : mres unit buf :=
  out ← replace out 7 v 0xf000000; replace out 15 15 0xf000000.
Definition SET_CMC_TBL_DISRTSFB (v : Z) (out : buf) : mres unit buf :=
  out ← replace out 1 v 0x2000000; replace out 9 1 0x2000000.
Definition SET_CMC_TBL_DISDATAFB (v : Z) (out : buf) : mres unit buf :=
  out ← replace out 1 v 0x4000000; replace out 9 1 0x4000000.
Definition SET_CMC_TBL_RTS_RTY_LOWEST_RATE (v : Z) (out : buf) : mres unit buf :=
  out ← replace out 2 v 0xf0000000; replace out 10 15 0xf0000000.
Definition SET_CMC_TBL_RTS_TXCNT_LMT_SEL (v : Z) (out : buf) : mres unit buf :=
  out ← replace out 2 v 0x800; replace out 10 1 0x800.
Definition SET_CMC_TBL_DATA_TXCNT_LMT_SEL (v : Z) (out : buf) : mres unit buf :=
  out ← replace out 3 v 0x40; replace out 11 1 0x40.
Definition SET_CMC_TBL_ULDL (v : Z) (out : buf) : mres unit buf :=
  out ← replace out 7 v 0x20000; replace out 15 1 0x20000.
Definition SET_CMC_TBL_MULTI_PORT_ID (v : Z) (out : buf) : mres unit buf :=
  out ← replace out 5 v 0x7; replace out 13 7 0x7.
Definition SET_CMC_TBL_NOMINAL_PKT_PADDING (v : Z) (out : buf) : mres unit buf :=
  out ← replace out 7 v 0x300000; replace out 15 3 0x300000.
Definition SET_CMC_TBL_NOMINAL_PKT_PADDING40 (v : Z) (out : buf) : mres unit buf :=
  out ← replace out 7 v 0xc00000; replace out 15 3 0xc00000.
Definition SET_CMC_TBL_NOMINAL_PKT_PADDING80 (v : Z) (out : buf) : mres unit buf :=
  out ← replace out 7 v 0xc0000000; replace out 15 3 0xc0000000.
Definition SET_CMC_TBL_NOMINAL_PKT_PADDING160 (v : Z) (out : buf) : mres unit buf :=
  out ← replace out 8 v 0x30000000; replace out 16 3 0x30000000.
Definition SET_CMC_TBL_BSR_QUEUE_SIZE_FORMAT (v : Z) (out : buf) : mres unit buf :=
  out ← replace out 6 v 0x2000; replace out 14 1 0x2000.
Definition FWCMD_SET_ADDR_IDX (v : Z) (out : buf) : mres unit buf :=
  replace out 1 v 0xff.
Definition FWCMD_SET_ADDR_OFFSET (v : Z) (out : buf) : mres unit buf :=
  replace out 1 v 0xff00.
Definition FWCMD_SET_ADDR_LEN (v : Z) (out : buf) : mres unit buf :=
  replace out 1 v 0xff0000.
Definition FWCMD_SET_ADDR_VALID (v : Z) (out : buf) : mres unit buf :=
  replace out 2 v 0x1.
Definition FWCMD_SET_ADDR_NET_TYPE (v : Z) (out : buf) : mres unit buf :=
  replace out 2 v 0x6.
Definition FWCMD_SET_ADDR_BCN_HIT_COND (v : Z) (out : buf) : mres unit buf :=
  replace out 2 v 0x18.
Definition FWCMD_SET_ADDR_HIT_RULE (v : Z) (out : buf) : mres unit buf :=
  replace out 2 v 0x60.
Definition FWCMD_SET_ADDR_BB_SEL (v : Z) (out : buf) : mres unit buf :=
  replace out 2 v 0x80.
Definition FWCMD_SET_ADDR_ADDR_MASK (v : Z) (out : buf) : mres unit buf :=
  replace out 2 v 0x3f00.
Definition FWCMD_SET_ADDR_MASK_SEL (v : Z) (out : buf) : mres unit buf :=
  replace out 2 v 0xc000.
Definition FWCMD_SET_ADDR_SMA_HASH (v : Z) (out : buf) : mres unit buf :=
  replace out 2 v 0xff0000.
Definition FWCMD_SET_ADDR_TMA_HASH (v : Z) (out : buf) : mres unit buf :=
  replace out 2 v 0xff000000.
Definition FWCMD_SET_ADDR_BSSID_CAM_IDX (v : Z) (out : buf) : mres unit buf :=
  replace out 3 v 0x3f.
Definition FWCMD_SET_ADDR_SMA0 (v : Z) (out : buf) : mres unit buf :=
  replace out 4 v 0xff.
Definition FWCMD_SET_ADDR_SMA1 (v : Z) (out : buf) : mres unit buf :=
  replace out 4 v 0xff00.
Definition FWCMD_SET_ADDR_SMA2 (v : Z) (out : buf) : mres unit buf :=
  replace out 4 v 0xff0000.
Definition FWCMD_SET_ADDR_SMA3 (v : Z) (out : buf) : mres unit buf :=
  replace out 4 v 0xff000000.
Definition FWCMD_SET_ADDR_SMA4 (v : Z) (out : buf) : mres unit buf :=
  replace out 5 v 0xff.
Definition FWCMD_SET_ADDR_SMA5 (v : Z) (out : buf) : mres unit buf :=
  replace out 5 v 0xff00.
Definition FWCMD_SET_ADDR_TMA0 (v : Z) (out : buf) : mres unit buf :=
  replace out 5 v 0xff0000.
Definition FWCMD_SET_ADDR_TMA1 (v : Z) (out : buf) : mres unit buf :=
  replace out 5 v 0xff000000.
Definition FWCMD_SET_ADDR_TMA2 (v : Z) (out : buf) : mres unit buf :=
  replace out 6 v 0xff.
Definition FWCMD_SET_ADDR_TMA3 (v : Z) (out : buf) : mres unit buf :=
  replace out 6 v 0xff00.
Definition FWCMD_SET_ADDR_TMA4 (v : Z) (out : buf) : mres unit buf :=
  replace out 6 v 0xff0000.
Definition FWCMD_SET_ADDR_TMA5 (v : Z) (out : buf) : mres unit buf :=
  replace out 6 v 0xff000000.
Definition FWCMD_SET_ADDR_MACID (v : Z) (out : buf) : mres unit buf :=
  replace out 8 v 0xff.
Definition FWCMD_SET_ADDR_PORT_INT (v : Z) (out : buf) : mres unit buf :=
  replace out 8 v 0x700.
Definition FWCMD_SET_ADDR_TSF_SYNC (v : Z) (out : buf) : mres unit buf :=
  replace out 8 v 0x3800.
Definition FWCMD_SET_ADDR_TF_TRS (v : Z) (out : buf) : mres unit buf :=
  replace out 8 v 0x4000.
Definition FWCMD_SET_ADDR_LSIG_TXOP (v : Z) (out : buf) : mres unit buf :=
  replace out 8 v 0x8000.
Definition FWCMD_SET_ADDR_TGT_IND (v : Z) (out : buf) : mres unit buf :=
  replace out 8 v 0x7000000.
Definition FWCMD_SET_ADDR_FRM_TGT_IND (v : Z) (out : buf) : mres unit buf :=
  replace out 8 v 0x38000000.
Definition FWCMD_SET_ADDR_AID12 (v : Z) (out : buf) : mres unit buf :=
  replace out 9 v 0xfff.
Definition FWCMD_SET_ADDR_AID12_0 (v : Z) (out : buf) : mres unit buf :=
  replace out 9 v 0xff.
Definition FWCMD_SET_ADDR_AID12_1 (v : Z) (out : buf) : mres unit buf :=
  replace out 9 v 0xf00.
Definition FWCMD_SET_ADDR_WOL_PATTERN (v : Z) (out : buf) : mres unit buf :=
  replace out 9 v 0x1000.
Definition FWCMD_SET_ADDR_WOL_UC (v : Z) (out : buf) : mres unit buf :=
  replace out 9 v 0x2000.
Definition FWCMD_SET_ADDR_WOL_MAGIC (v : Z) (out : buf) : mres unit buf :=
  replace out 9 v 0x4000.
Definition FWCMD_SET_ADDR_WAPI (v : Z) (out : buf) : mres unit buf :=
  replace out 9 v 0x8000.
Definition FWCMD_SET_ADDR_SEC_ENT_MODE (v : Z) (out : buf) : mres unit buf :=
  replace out 9 v 0x30000.
Definition FWCMD_SET_ADDR_SEC_ENT0_KEYID (v : Z) (out : buf) : mres unit buf :=
  replace out 9 v 0xc0000.
Definition FWCMD_SET_ADDR_SEC_ENT1_KEYID (v : Z) (out : buf) : mres unit buf :=
  replace out 9 v 0x300000.
Definition FWCMD_SET_ADDR_SEC_ENT2_KEYID (v : Z) (out : buf) : mres unit buf :=
  replace out 9 v 0xc00000.
Definition FWCMD_SET_ADDR_SEC_ENT3_KEYID (v : Z) (out : buf) : mres unit buf :=
  replace out 9 v 0x3000000.
Definition FWCMD_SET_ADDR_SEC_ENT4_KEYID (v : Z) (out : buf) : mres unit buf :=
  replace out 9 v 0xc000000.
Definition FWCMD_SET_ADDR_SEC_ENT5_KEYID (v : Z) (out : buf) : mres unit buf :=
  replace out 9 v 0x30000000.
Definition FWCMD_SET_ADDR_SEC_ENT6_KEYID (v : Z) (out : buf) : mres unit buf :=
  replace out 9 v 0xc0000000.
Definition FWCMD_SET_ADDR_SEC_ENT_VALID (v : Z) (out : buf) : mres unit buf :=
  replace out 10 v 0xff.
Definition FWCMD_SET_ADDR_SEC_ENT0 (v : Z) (out : buf) : mres unit buf :=
  replace out 10 v 0xff00.
Definition FWCMD_SET_ADDR_SEC_ENT1 (v : Z) (out : buf) : mres unit buf :=
  replace out 10 v 0xff0000.
Definition FWCMD_SET_ADDR_SEC_ENT2 (v : Z) (out : buf) : mres unit buf :=
  replace out 10 v 0xff000000.
Definition FWCMD_SET_ADDR_SEC_ENT3 (v : Z) (out : buf) : mres unit buf :=
  replace out 11 v 0xff.
Definition FWCMD_SET_ADDR_SEC_ENT4 (v : Z) (out : buf) : mres unit buf :=
  replace out 11 v 0xff00.
Definition FWCMD_SET_ADDR_SEC_ENT5 (v : Z) (out : buf) : mres unit buf :=
  replace out 11 v 0xff0000.
Definition FWCMD_SET_ADDR_SEC_ENT6 (v : Z) (out : buf) : mres unit buf :=
  replace out 11 v 0xff000000.
Definition FWCMD_SET_ADDR_BSSID_IDX (v : Z) (out : buf) : mres unit buf :=
  replace out 12 v 0xff.
Definition FWCMD_SET_ADDR_BSSID_OFFSET (v : Z) (out : buf) : mres unit buf :=
  replace out 12 v 0xff00.
Definition FWCMD_SET_ADDR_BSSID_LEN (v : Z) (out : buf) : mres unit buf :=
  replace out 12 v 0xff0000.
Definition FWCMD_SET_ADDR_BSSID_VALID (v : Z) (out : buf) : mres unit buf :=
  replace out 13 v 0x1.
Definition FWCMD_SET_ADDR_BSSID_BB_SEL (v : Z) (out : buf) : mres unit buf :=
  replace out 13 v 0x2.
Definition FWCMD_SET_ADDR_BSSID_MASK (v : Z) (out : buf) : mres unit buf :=
  replace out 13 v 0xfc.
Definition FWCMD_SET_ADDR_BSSID_BSS_COLOR (v : Z) (out : buf) : mres unit buf :=
  replace out 13 v 0x3f00.
Definition FWCMD_SET_ADDR_BSSID_BSSID0 (v : Z) (out : buf) : mres unit buf :=
  replace out 13 v 0xff0000.
Definition FWCMD_SET_ADDR_BSSID_BSSID1 (v : Z) (out : buf) : mres unit buf :=
  replace out 13 v 0xff000000.
Definition FWCMD_SET_ADDR_BSSID_BSSID2 (v : Z) (out : buf) : mres unit buf :=
  replace out 14 v 0xff.
Definition FWCMD_SET_ADDR_BSSID_BSSID3 (v : Z) (out : buf) : mres unit buf :=
  replace out 14 v 0xff00.
Definition FWCMD_SET_ADDR_BSSID_BSSID4 (v : Z) (out : buf) : mres unit buf :=
  replace out 14 v 0xff0000.
Definition FWCMD_SET_ADDR_BSSID_BSSID5 (v : Z) (out : buf) : mres unit buf :=
  replace out 14 v 0xff000000.
Definition R_AX_FILTER_MODEL_ADDR : Z := 0xc04.
Definition R_AX_INDIR_ACCESS_ENTRY : Z := 0x40000.
Definition CMAC_TBL_BASE_ADDR : Z := 0x18840000.
Definition DMAC_TBL_BASE_ADDR : Z := 0x18800000.
Definition CCTL_INFO_SIZE : Z := 0x20.
Definition ADDR_CAM_ENT_SIZE : Z := 0x40.
Definition BSSID_CAM_ENT_SIZE : Z := 0x8.

(** ** Buffers built by edits *)

(** One edit of a word: the value goes under the mask. *)
Record Edit := mkEdit { e_word : Z; e_value : Z; e_mask : Z }.
Definition under (v mask : Z) : Z := Z.land (u32 (Z.shiftl v (shiftOf mask))) mask.

(** The words after a list of edits, the latest first, of a zeroed buffer. *)
Fixpoint wordOf (edits : list Edit) (k : Z) : Z :=
  match edits with
  | [] => 0
  | e :: rest => let old := wordOf rest k in
                 if e_word e =? k then Z.lor (Z.ldiff old (e_mask e)) (under (e_value e) (e_mask e)) else old
  end.
Definition built (n : Z) (edits : list Edit) (p : buf) : Prop :=
  zlen p = 4 * n /\ (forall k, 0 <= k < n -> le32_at p (k * 4) = wordOf edits k) /\
  Forall (fun e => in_u32 (e_mask e)) edits.

(** The value of a field. *)
Definition field (p : buf) (word mask : Z) : Z := Z.shiftr (Z.land (le32_at p (word * 4)) mask) (shiftOf mask).

(** The latest edit of a field, if no later edit overlaps it. *)
Fixpoint latest (edits : list Edit) (word mask : Z) : option Z :=
  match edits with
  | [] => Some 0
  | e :: rest =>
      if negb (e_word e =? word) || (Z.land (e_mask e) mask =? 0) then latest rest word mask
      else if e_mask e =? mask then Some (e_value e) else None
  end.

(** A field of [n] adjacent bits. *)
Definition fits (v mask : Z) : bool := (0 <=? v) && (v <=? Z.shiftr mask (shiftOf mask)).
Definition adjacent (mask : Z) : bool :=
  (0 <? mask) && (mask <? 2^32) &&
  let s := shiftOf mask in let n := Z.log2 (Z.shiftr mask s) + 1 in
  (0 <=? s) && (0 <=? n) && (mask =? Z.shiftl (Z.ones n) s).

Lemma adjacent_spec mask : adjacent mask = true -> exists n, let s := shiftOf mask in
  0 <= s /\ 0 <= n /\ mask = Z.shiftl (Z.ones n) s /\ in_u32 mask.
Proof.
  unfold adjacent. cbv zeta. intros H. exists (Z.log2 (Z.shiftr mask (shiftOf mask)) + 1).
  rewrite !andb_true_iff in H. destruct H as ((H1 & H2) & (H3 & H4) & H5). repeat split; zlia.
Qed.

Lemma latest_spec edits word mask v : latest edits word mask = Some v ->
  Z.land (wordOf edits word) mask = under v mask.
Proof.
  induction edits as [|e rest IH]; cbn [latest wordOf].
  - intros [= <-]. unfold under. rewrite Z.shiftl_0_l. reflexivity.
  - destruct (e_word e =? word) eqn:Ew; cbn [negb orb]; [|exact IH].
    destruct (Z.land (e_mask e) mask =? 0) eqn:Em.
    + intros H. rewrite <- (IH H). apply rmw_other; [lia|]. unfold under.
      rewrite <- Z.land_assoc, (proj1 (Z.eqb_eq _ _) Em), Z.land_0_r. reflexivity.
    + destruct (e_mask e =? mask) eqn:E; [|discriminate]. intros [= <-].
      replace (e_mask e) with mask by lia. apply rmw_masked. unfold under.
      rewrite <- Z.land_assoc, Z.land_diag. reflexivity.
Qed.

Lemma under_small v mask : adjacent mask = true -> fits v mask = true -> Z.shiftr (under v mask) (shiftOf mask) = v.
Proof.
  intros (n & Hs & Hn & Hm & Hr)%adjacent_spec Hf. cbv zeta in *. unfold fits in Hf.
  unfold under. revert Hs Hm Hf. generalize (shiftOf mask). intros s Hs Hm Hf.
  assert (Hv : 0 <= v < 2^n).
  { apply andb_true_iff in Hf as [H1%Z.leb_le H2%Z.leb_le].
    rewrite Hm, Z.shiftr_shiftl_l, Z.sub_diag, Z.shiftl_0_r, Z.ones_equiv in H2 by lia. lia. }
  assert (Hsm : 0 <= Z.shiftl v s <= mask).
  { rewrite Hm, !Z.shiftl_mul_pow2 by lia. rewrite Z.ones_equiv. pose proof (Z.pow_pos_nonneg 2 s). nia. }
  rewrite u32_small by zlia. rewrite Hm. apply Z.bits_inj'. intros i Hi.
  rewrite Z.shiftr_spec, Z.land_spec, !Z.shiftl_spec by lia. replace (i + s - s) with i by lia.
  destruct (Z.ltb_spec i n) as [Hlt|Hge].
  - rewrite Z.ones_spec_low by lia. apply andb_true_r.
  - rewrite Z.ones_spec_high, andb_false_r by lia. symmetry. apply (proj1 (Z.bounded_iff_bits_nonneg' n v ltac:(lia) ltac:(lia))); lia.
Qed.

(** What a buffer holds in a field, from its edits alone. *)
Lemma field_built n edits p word mask v : built n edits p -> 0 <= word < n -> latest edits word mask = Some v ->
  adjacent mask = true -> fits v mask = true -> field p word mask = v.
Proof.
  intros (_ & Hw & _) Hk Hl Ha Hf. unfold field. rewrite Hw by exact Hk. rewrite (latest_spec _ _ _ _ Hl). apply under_small; assumption.
Qed.

Lemma wordOf_range edits k : Forall (fun e => in_u32 (e_mask e)) edits -> in_u32 (wordOf edits k).
Proof.
  induction 1 as [|e rest He _ IH]; cbn [wordOf]; [zlia|]. destruct (e_word e =? k); [|exact IH].
  apply lor_u32; [apply ldiff_u32; exact IH|]. unfold under. rewrite Z.land_comm. apply land_u32. exact He.
Qed.

(** ** The setters, as edits *)

Lemma built_zeros n : 0 <= n -> built n [] (zeros (4 * n)).
Proof.
  intros Hn. split; [apply zlen_zeros; lia|]. split; [|constructor]. intros k Hk. cbn [wordOf]. unfold le32_at.
  assert (Hz : forall i, byte_at (zeros (4 * n)) i = 0).
  { intros i. unfold byte_at, zeros. destruct (nth_in_or_default (Z.to_nat i) (replicate (Z.to_nat (4 * n)) 0) 0) as [H| ->]; [|reflexivity].
    apply list_elem_of_In, elem_of_replicate in H as [-> _]. reflexivity. }
  rewrite !Hz. reflexivity.
Qed.

Lemma replace_spec n edits p word v mask (Q : buf -> Prop) : built n edits p -> 0 <= word < n -> in_u32 mask ->
  (forall p', built n (mkEdit word v mask :: edits) p' -> Q p') -> mspec (replace p word v mask) Q.
Proof.
  intros (Hz & Hw & Hf) Hk Hm HQ. unfold replace, little32. mstep. apply rd32_spec; [lia|lia|]. apply store32_spec; [lia|lia|].
  apply HQ. split; [rewrite zlen_blit; [exact Hz|lia|change (zlen (le32_bytes _)) with 4; lia]|].
  split; [|constructor; [exact Hm|exact Hf]]. intros k Hk'. rewrite le32_at_blit by lia. cbn [wordOf e_word e_mask e_value]. rewrite Hw by exact Hk.
  destruct (Z.eqb_spec (k * 4) (word * 4)) as [E|E].
  - replace word with k by lia. rewrite Z.eqb_refl. apply u32_small. apply lor_u32; [apply ldiff_u32, wordOf_range; exact Hf|].
    unfold under. rewrite Z.land_comm. apply land_u32. exact Hm.
  - rewrite (proj2 (Z.eqb_neq _ _)) by lia. apply Hw. exact Hk'.
Qed.

(** A byte store is an edit of its byte of the word. *)
Definition byteMask (i : Z) : Z := Z.shiftl 255 (8 * (i mod 4)).
Lemma byteMask_range i : in_u32 (byteMask i).
Proof.
  unfold byteMask. assert (H : i mod 4 = 0 \/ i mod 4 = 1 \/ i mod 4 = 2 \/ i mod 4 = 3) by zlia.
  destruct H as [->|[->|[->| ->]]]; vm_compute; auto; split; congruence.
Qed.
Lemma u8_high b i : in_u8 b -> 8 <= i -> Z.testbit b i = false.
Proof. intros Hb Hi. apply (proj1 (Z.bounded_iff_bits_nonneg' 8 b ltac:(lia) ltac:(zlia))); zlia. Qed.
Lemma byteMask_bit i k : 0 <= k -> Z.testbit (byteMask i) k = (8 * (i mod 4) <=? k) && (k <? 8 * (i mod 4) + 8).
Proof.
  intros Hk. unfold byteMask. change 255 with (Z.ones 8). assert (0 <= i mod 4) by zlia.
  destruct (Z.ltb_spec k (8 * (i mod 4))) as [H1|H1].
  - rewrite Z.shiftl_spec_low by lia. lia.
  - rewrite Z.shiftl_spec by lia. destruct (Z.ltb_spec (k - 8 * (i mod 4)) 8) as [H2|H2].
    + rewrite Z.ones_spec_low by lia. lia.
    + rewrite Z.ones_spec_high by lia. lia.
Qed.
Lemma shiftOf_byteMask i : shiftOf (byteMask i) = 8 * (i mod 4).
Proof.
  unfold byteMask. assert (H : i mod 4 = 0 \/ i mod 4 = 1 \/ i mod 4 = 2 \/ i mod 4 = 3) by zlia.
  destruct H as [->|[->|[->| ->]]]; reflexivity.
Qed.
Lemma le32_bit b0 b1 b2 b3 k : in_u8 b0 -> in_u8 b1 -> in_u8 b2 -> in_u8 b3 -> 0 <= k ->
  Z.testbit (le32_of b0 b1 b2 b3) k =
  if k <? 8 then Z.testbit b0 k else if k <? 16 then Z.testbit b1 (k - 8)
  else if k <? 24 then Z.testbit b2 (k - 16) else Z.testbit b3 (k - 24).
Proof.
  intros H0 H1 H2 H3 Hk. unfold le32_of. rewrite !Z.lor_spec, !Z.shiftl_spec by lia.
  destruct (Z.ltb_spec k 8); [rewrite !(Z.testbit_neg_r _ (k - _)) by lia; rewrite !orb_false_r; reflexivity|].
  rewrite (u8_high b0) by (auto; lia). cbn [orb].
  destruct (Z.ltb_spec k 16); [rewrite !(Z.testbit_neg_r _ (k - 16)), !(Z.testbit_neg_r _ (k - 24)) by lia; rewrite !orb_false_r; reflexivity|].
  rewrite (u8_high b1) by (auto; lia). cbn [orb].
  destruct (Z.ltb_spec k 24); [rewrite !(Z.testbit_neg_r _ (k - 24)) by lia; rewrite !orb_false_r; reflexivity|].
  rewrite (u8_high b2) by (auto; lia). reflexivity.
Qed.

Lemma under_byteMask i b : in_u8 b -> under b (byteMask i) = Z.shiftl b (8 * (i mod 4)).
Proof.
  intros Hb. unfold under. rewrite shiftOf_byteMask.
  assert (H : i mod 4 = 0 \/ i mod 4 = 1 \/ i mod 4 = 2 \/ i mod 4 = 3) by zlia.
  rewrite u32_small by (destruct H as [->|[->|[->| ->]]]; rewrite Z.shiftl_mul_pow2 by lia; zlia).
  apply Z.bits_inj'. intros k Hk. rewrite Z.land_spec, byteMask_bit by exact Hk.
  destruct (Z.ltb_spec k (8 * (i mod 4))).
  - rewrite Z.shiftl_spec_low by lia. reflexivity.
  - rewrite Z.shiftl_spec by lia. destruct (Z.ltb_spec k (8 * (i mod 4) + 8)).
    + replace (8 * (i mod 4) <=? k) with true by lia. apply andb_true_r.
    + rewrite (u8_high b) by (auto; lia). reflexivity.
Qed.

Lemma byte_edit p i b : 0 <= i < zlen p -> i / 4 * 4 + 4 <= zlen p -> in_u8 b ->
  le32_at (blit p i [b]) (i / 4 * 4) = Z.lor (Z.ldiff (le32_at p (i / 4 * 4)) (byteMask i)) (under b (byteMask i)).
Proof.
  intros Hi Hl Hb. rewrite under_byteMask by exact Hb. unfold le32_at. set (k := i / 4 * 4) in *.
  assert (Hk : i = k + i mod 4) by (unfold k; zlia). assert (H0 : 0 <= k) by (unfold k; zlia). clearbody k.
  rewrite !byte_at_blit by (change (zlen [b]) with 1; lia). change (zlen [b]) with 1.
  assert (Hm : i mod 4 = 0 \/ i mod 4 = 1 \/ i mod 4 = 2 \/ i mod 4 = 3) by zlia.
  assert (Hbb : byte_at [b] 0 = b) by (unfold byte_at; cbn; apply u8_small; exact Hb).
  apply Z.bits_inj'. intros j Hj. rewrite Z.lor_spec, Z.ldiff_spec, byteMask_bit by exact Hj.
  pose proof (byte_at_range p k). pose proof (byte_at_range p (k + 1)). pose proof (byte_at_range p (k + 2)). pose proof (byte_at_range p (k + 3)).
  rewrite (le32_bit (byte_at p k)) by assumption.
  assert (Hs : Z.testbit (Z.shiftl b (8 * (i mod 4))) j =
    (8 * (i mod 4) <=? j) && (j <? 8 * (i mod 4) + 8) && Z.testbit b (j - 8 * (i mod 4))).
  { rewrite Z.shiftl_spec by exact Hj. destruct (Z.leb_spec (8 * (i mod 4)) j); [|rewrite Z.testbit_neg_r by lia; reflexivity].
    destruct (Z.ltb_spec j (8 * (i mod 4) + 8)); [reflexivity|]. rewrite (u8_high b) by (auto; lia). reflexivity. }
  rewrite Hs. clear Hs.
  destruct Hm as [E|[E|[E|E]]]; rewrite E in Hk |- *; subst i;
    repeat match goal with |- context [(?a <=? ?c) && (?c <? ?d)] =>
      lazymatch c with j => fail | _ => first [replace ((a <=? c) && (c <? d)) with true by lia | replace ((a <=? c) && (c <? d)) with false by lia] end end;
    rewrite ?Z.add_0_r, ?Z.sub_diag, Hbb, le32_bit by assumption;
    destruct (Z.ltb_spec j 8), (Z.ltb_spec j 16), (Z.ltb_spec j 24); try lia;
    repeat match goal with |- context [?a <=? j] => first [replace (a <=? j) with true by lia | replace (a <=? j) with false by lia] end;
    repeat match goal with |- context [j <? ?a] => first [replace (j <? a) with true by lia | replace (j <? a) with false by lia] end;
    cbn [andb negb orb]; rewrite ?andb_true_r, ?andb_false_r, ?orb_false_r; cbn [orb]; try reflexivity; try (f_equal; lia).
  destruct (Z.ltb_spec j (8 * 3 + 8)); cbn [andb negb orb]; rewrite ?andb_false_r; cbn [orb]; [f_equal; lia|].
  rewrite !u8_high by (auto; lia). reflexivity.
Qed.

Lemma byte_at_single b : in_u8 b -> byte_at [b] 0 = b.
Proof. intros Hb. unfold byte_at. cbn. apply u8_small. exact Hb. Qed.

Lemma store_byte_spec n edits p i b (Q : buf -> Prop) : built n edits p -> 0 <= i < 4 * n -> in_u8 b ->
  (forall p', built n (mkEdit (i / 4) b (byteMask i) :: edits) p' -> Q p') -> mspec (E:=unit) (store p i [b]) Q.
Proof.
  intros (Hz & Hw & Hf) Hi Hb HQ. apply store_spec; [lia|change (zlen [b]) with 1; lia|]. apply HQ.
  split; [rewrite zlen_blit; [exact Hz|lia|change (zlen [b]) with 1; lia]|]. split; [|constructor; [apply byteMask_range|exact Hf]].
  intros k Hk. cbn [wordOf e_word e_mask e_value]. destruct (Z.eqb_spec (i / 4) k) as [<-|Hne].
  - rewrite <- Hw by zlia. apply byte_edit; [lia|zlia|exact Hb].
  - rewrite <- Hw by exact Hk. unfold le32_at. rewrite !byte_at_blit by (change (zlen [b]) with 1; lia). change (zlen [b]) with 1.
    replace ((i <=? k * 4) && (k * 4 <? i + 1)) with false by zlia.
    replace ((i <=? k * 4 + 1) && (k * 4 + 1 <? i + 1)) with false by zlia.
    replace ((i <=? k * 4 + 2) && (k * 4 + 2 <? i + 1)) with false by zlia.
    replace ((i <=? k * 4 + 3) && (k * 4 + 3 <? i + 1)) with false by zlia. reflexivity.
Qed.

Lemma field_byte p i : 0 <= i -> field p (i / 4) (byteMask i) = byte_at p i.
Proof.
  intros Hi. unfold field. rewrite shiftOf_byteMask. unfold byteMask. rewrite Z.shiftr_land, Z.shiftr_shiftl_l by zlia.
  rewrite Z.sub_diag, Z.shiftl_0_r. change 255 with (Z.ones 8). rewrite Z.land_ones, Z.shiftr_div_pow2 by zlia.
  unfold le32_at. rewrite le32_of_sum by apply byte_at_range.
  pose proof (byte_at_range p (i / 4 * 4)). pose proof (byte_at_range p (i / 4 * 4 + 1)).
  pose proof (byte_at_range p (i / 4 * 4 + 2)). pose proof (byte_at_range p (i / 4 * 4 + 3)).
  assert (Hk : i = i / 4 * 4 + i mod 4) by zlia.
  assert (H4 : i mod 4 = 0 \/ i mod 4 = 1 \/ i mod 4 = 2 \/ i mod 4 = 3) by zlia.
  generalize dependent (i / 4 * 4). intros k H1 H2 H3 H5 Hk. rewrite Hk at 2.
  destruct H4 as [E|[E|[E|E]]]; rewrite E; rewrite ?Z.add_0_r;
    change (2 ^ (8 * 0)) with 1; change (2 ^ (8 * 1)) with 256; change (2 ^ (8 * 2)) with 65536; change (2 ^ (8 * 3)) with 16777216; zlia.
Qed.

(** One setter after the other; [HB] is the buffer built so far. *)
Ltac edit_one HB :=
  eapply replace_spec; [exact HB|lia|split; vm_compute; congruence|clear HB; intros ? HB].
Ltac edit HB :=
  mstep; match goal with |- mspec (?f _ _) _ => unfold f end; try mstep; edit_one HB; try edit_one HB.
