(* ===== verification/StationTables.v ===== *)
(** * The station tables of the firmware (src/network/StationTables.hpp)

    The payloads of the CMAC-table and address-CAM commands, the plans of one
    or two of them, and the initial writes of the MAC tables.  A builder
    answers [MErr] where the source empties its output and returns false. *)

From S2P Require Import Prelude Prog Descriptors DataPath Protocol.
From S2P Require Station.
From S2P Require Import StationFields.

Definition cmacCommand : CommandId := mkCommandId 1 5 2.
Definition camCommand : CommandId := mkCommandId 1 6 0.
Record Payload := mkPayload { id : CommandId; length : Z; bytes : buf }.
Record DefaultCmac := mkDefaultCmac { d_macid : Z; d_antennaTx : Z }.
Record HeCapabilities := mkHe { he_present : bool; rxNss : Z; txNss : Z; phy : buf; ppe : buf; ppeLength : Z }.
Record AssociationCmac := mkAssociationCmac {
  a_macid : Z; a_port : Z; a_band : Z; a_stationPresent : bool; a_he : HeCapabilities
}.
Record Cam := mkCam {
  macid : Z; port : Z; addressIndex : Z; bssidIndex : Z; local : buf; bssid : buf;
  valid : bool; connected : bool; nontransmitted : bool; trigger : bool; lsigTxop : bool;
  aid : Z; bssColor : Z; beaconHit : Z; hitRule : Z; addressMask : Z; maskSelect : Z; target : Z; frameTarget : Z
}.

Definition defaultCmac (config : DefaultCmac) : mres unit Payload :=
  fail_if ((128 <=? d_macid config) || (3 <? d_antennaTx config)) tt;;
  p ← SET_CTRL_INFO_MACID (d_macid config) (zeros 68); p ← SET_CTRL_INFO_OPERATION 1 p;
  p ← SET_CMC_TBL_TXPWR_MODE 0 p;
  p ← SET_CMC_TBL_NTX_PATH_EN (if negb (d_antennaTx config =? 0) then d_antennaTx config else 2) p;
  p ← SET_CMC_TBL_PATH_MAP_A 0 p; p ← SET_CMC_TBL_PATH_MAP_B (if d_antennaTx config =? 3 then 1 else 0) p;
  p ← SET_CMC_TBL_PATH_MAP_C 0 p; p ← SET_CMC_TBL_PATH_MAP_D 0 p;
  p ← SET_CMC_TBL_ANTSEL_A 0 p; p ← SET_CMC_TBL_ANTSEL_B 0 p;
  p ← SET_CMC_TBL_ANTSEL_C 0 p; p ← SET_CMC_TBL_ANTSEL_D 0 p;
  p ← SET_CMC_TBL_DOPPLER_CTRL 0 p; p ← SET_CMC_TBL_TXPWR_TOLERENCE 0 p;
  mret (mkPayload cmacCommand 68 p).

(** ** Packet padding *)

Definition bitCount (bitmap : Z) : Z :=
  fold_left (fun count i => count + Z.land (Z.shiftr bitmap i) 1) [0; 1; 2; 3] 0.

(** The six bits of a PPE pair, from [bit] on. *)
Definition pairStep (ppe : buf) (bit : Z) (j pair : Z) : mres unit Z :=
  b ← rd8 ppe ((bit + j) / 8);
  mret (u8 (Z.lor pair (Z.shiftl (Z.land (Z.shiftr b ((bit + j) mod 8)) 1) j))).
Definition slotFor (ppe16 ppe8 : Z) : Z :=
  if negb (ppe16 =? 7) && (ppe8 =? 7) then 2 else if negb (ppe8 =? 7) then 1 else 0.
Definition padStep (ppe : buf) (bitmap : Z) (i : Z) (s : list Z * Z) : mres unit (list Z * Z) :=
  let '(pads, bit) := s in
  if negb (flag bitmap (Z.shiftl 1 i)) then mret (<[Z.to_nat i := 1]> pads, bit)
  else
    pair ← for_m 6 0 (pairStep ppe bit) 0;
    mret (<[Z.to_nat i := slotFor (Z.land pair 7) (Z.land (Z.shiftr pair 3) 7)]> pads, bit + 6).

Definition packetPadding (he : HeCapabilities) : mres unit (list Z) :=
  if negb (he_present he) then mret [0; 0; 0; 0] else
  fail_if ((rxNss he =? 0) || (8 <? rxNss he) || (txNss he =? 0) || (2 <? txNss he) || (25 <? ppeLength he)) tt;;
  p6 ← rd8 (phy he) 6;
  if negb (flag p6 0x80) then
    p9 ← rd8 (phy he) 9;
    let pad := u8 (Z.land (Z.shiftr p9 6) 3) in mret [pad; pad; pad; pad]
  else
  fail_if (ppeLength he =? 0) tt;;
  p0 ← rd8 (ppe he) 0;
  let bitmap := Z.land (Z.shiftr p0 3) 15 in
  let streams := Z.land p0 7 + 1 in
  let selected := (if rxNss he <? txNss he then rxNss he else txNss he) - 1 in
  let count := bitCount bitmap in
  fail_if ((count =? 0) || (streams <=? selected) || (ppeLength he <? (7 + streams * count * 6 + 7) / 8)) tt;;
  s ← for_m 4 0 (padStep (ppe he) bitmap) ([0; 0; 0; 0], 7 + selected * count * 6);
  mret (fst s).

Definition associationRefused (config : AssociationCmac) : bool :=
  (128 <=? a_macid config) || (4 <? a_port config) || (1 <? a_band config) ||
  (negb (a_stationPresent config) && he_present (a_he config)).
Definition associationCmac (config : AssociationCmac) : mres unit Payload :=
  fail_if (associationRefused config) tt;;
  pads ← packetPadding (a_he config);
  p ← SET_CTRL_INFO_MACID (a_macid config) (zeros 68); p ← SET_CTRL_INFO_OPERATION 1 p;
  p ← SET_CMC_TBL_DISRTSFB 1 p; p ← SET_CMC_TBL_DISDATAFB 1 p;
  p ← SET_CMC_TBL_RTS_RTY_LOWEST_RATE (if negb (a_band config =? 0) then 4 else 0) p;
  p ← SET_CMC_TBL_RTS_TXCNT_LMT_SEL 0 p; p ← SET_CMC_TBL_DATA_TXCNT_LMT_SEL 0 p;
  p ← SET_CMC_TBL_ULDL 1 p; p ← SET_CMC_TBL_MULTI_PORT_ID (a_port config) p;
  p ← SET_CMC_TBL_NOMINAL_PKT_PADDING (nth 0 pads 0) p; p ← SET_CMC_TBL_NOMINAL_PKT_PADDING40 (nth 1 pads 0) p;
  p ← SET_CMC_TBL_NOMINAL_PKT_PADDING80 (nth 2 pads 0) p; p ← SET_CMC_TBL_NOMINAL_PKT_PADDING160 (nth 3 pads 0) p;
  p ← (if a_stationPresent config then SET_CMC_TBL_BSR_QUEUE_SIZE_FORMAT (Z.b2z (he_present (a_he config))) p else mret p);
  mret (mkPayload cmacCommand 68 p).

(** ** The address CAM *)

Definition addressHash (address : buf) (start : Z) : Z :=
  foldl (fun hash i => Z.lxor hash (byte_at address i)) 0 (seqZ start (6 - start)).

Definition addressStep (config : Cam) (i : Z) (p : buf) : mres unit buf :=
  a ← rd8 (local config) i; p ← store p (16 + i) [a]; b ← rd8 (bssid config) i; store p (22 + i) [b].
Definition bssidStep (config : Cam) (i : Z) (p : buf) : mres unit buf :=
  b ← rd8 (bssid config) i; store p (54 + i) [b].

Definition camRefused (config : Cam) : bool :=
  (128 <=? macid config) || (4 <? port config) || (128 <=? addressIndex config) || (10 <=? bssidIndex config) ||
  negb (Station.unicast (local config)) || (63 <? bssColor config) || (3 <? beaconHit config) || (3 <? hitRule config) ||
  (63 <? addressMask config) || (2 <? maskSelect config) || (7 <? target config) || (7 <? frameTarget config) ||
  (connected config && (negb (Station.unicast (bssid config)) || (aid config =? 0) || (2007 <? aid config))) ||
  (negb (connected config) && negb (aid config =? 0)).

Definition addressCam (config : Cam) : mres unit Payload :=
  fail_if (camRefused config) tt;;
  let start := if negb (addressMask config =? 0) then shiftOf (addressMask config) else 0 in
  p ← FWCMD_SET_ADDR_IDX (addressIndex config) (zeros 68); p ← FWCMD_SET_ADDR_OFFSET 0 p;
  p ← FWCMD_SET_ADDR_LEN ADDR_CAM_ENT_SIZE p; p ← FWCMD_SET_ADDR_VALID (Z.b2z (valid config)) p;
  p ← FWCMD_SET_ADDR_NET_TYPE (if connected config then 2 else 0) p; p ← FWCMD_SET_ADDR_BCN_HIT_COND (beaconHit config) p;
  p ← FWCMD_SET_ADDR_HIT_RULE (hitRule config) p; p ← FWCMD_SET_ADDR_BB_SEL 0 p;
  p ← FWCMD_SET_ADDR_ADDR_MASK (addressMask config) p; p ← FWCMD_SET_ADDR_MASK_SEL (maskSelect config) p;
  p ← FWCMD_SET_ADDR_SMA_HASH (addressHash (local config) (if maskSelect config =? 1 then start else 0)) p;
  p ← FWCMD_SET_ADDR_TMA_HASH (addressHash (bssid config) (if maskSelect config =? 2 then start else 0)) p;
  p ← FWCMD_SET_ADDR_BSSID_CAM_IDX (bssidIndex config) p;
  p ← for_m 6 0 (addressStep config) p;
  p ← FWCMD_SET_ADDR_PORT_INT (port config) p; p ← FWCMD_SET_ADDR_TSF_SYNC (port config) p;
  p ← FWCMD_SET_ADDR_TF_TRS (Z.b2z (trigger config)) p; p ← FWCMD_SET_ADDR_LSIG_TXOP (Z.b2z (lsigTxop config)) p;
  p ← FWCMD_SET_ADDR_TGT_IND (target config) p; p ← FWCMD_SET_ADDR_FRM_TGT_IND (frameTarget config) p;
  p ← FWCMD_SET_ADDR_MACID (macid config) p; p ← FWCMD_SET_ADDR_AID12 (if connected config then aid config else 0) p;
  p ← FWCMD_SET_ADDR_SEC_ENT_MODE 2 p;
  p ← FWCMD_SET_ADDR_BSSID_IDX (bssidIndex config) p; p ← FWCMD_SET_ADDR_BSSID_OFFSET 0 p;
  p ← FWCMD_SET_ADDR_BSSID_LEN BSSID_CAM_ENT_SIZE p; p ← FWCMD_SET_ADDR_BSSID_VALID (Z.b2z (valid config)) p;
  p ← FWCMD_SET_ADDR_BSSID_MASK (if nontransmitted config then 0x1f else 0x3f) p;
  p ← FWCMD_SET_ADDR_BSSID_BB_SEL 0 p; p ← FWCMD_SET_ADDR_BSSID_BSS_COLOR (bssColor config) p;
  p ← for_m 6 0 (bssidStep config) p;
  mret (mkPayload camCommand 60 p).

(** ** Plans *)

(** The [count] first commands of the array. *)
Definition Plan : Type := list Payload.
Definition idlePlan (cam : Cam) (cmac : DefaultCmac) : mres unit Plan :=
  fail_if (negb (valid cam) || connected cam || negb (macid cam =? d_macid cmac)) tt;;
  a ← addressCam cam; b ← defaultCmac cmac; mret [a; b].
Definition cmacPlan (cmac : AssociationCmac) : mres unit Plan := a ← associationCmac cmac; mret [a].
Definition camPlan (cam : Cam) : mres unit Plan := a ← addressCam cam; mret [a].

(** ** What the address CAM holds *)

(** The configuration, read back from the fields of a payload. *)
Definition bytes6 (p : buf) (o : Z) : buf := map (fun i => byte_at p (o + i)) [0; 1; 2; 3; 4; 5].
Definition decodeCam (p : buf) : Cam := mkCam
  (field p 8 0xff) (field p 8 0x700) (field p 1 0xff) (field p 3 0x3f) (bytes6 p 16) (bytes6 p 22)
  (field p 2 1 =? 1) (field p 2 6 =? 2) (field p 13 0xfc =? 0x1f) (field p 8 0x4000 =? 1) (field p 8 0x8000 =? 1)
  (field p 9 0xfff) (field p 13 0x3f00) (field p 2 0x18) (field p 2 0x60) (field p 2 0x3f00) (field p 2 0xc000)
  (field p 8 0x7000000) (field p 8 0x38000000).

(** The C++ types of the configuration. *)
Definition camTyped (c : Cam) : Prop :=
  zlen (local c) = 6 /\ zlen (bssid c) = 6 /\ Forall in_u8 (local c) /\ Forall in_u8 (bssid c) /\
  Forall in_u8 [macid c; port c; addressIndex c; bssidIndex c; bssColor c; beaconHit c; hitRule c; addressMask c; maskSelect c; target c; frameTarget c] /\
  in_u16 (aid c).

(** The fields that do not come from one value of the configuration. *)
Definition hashStart (c : Cam) (side : Z) : Z :=
  if maskSelect c =? side then (if negb (addressMask c =? 0) then shiftOf (addressMask c) else 0) else 0.
Definition camRest (c : Cam) (p : buf) : Prop :=
  field p 2 0xff0000 = addressHash (local c) (hashStart c 1) /\
  field p 2 0xff000000 = addressHash (bssid c) (hashStart c 2) /\
  field p 1 0xff0000 = 0x40 /\ field p 12 0xff0000 = 8 /\ field p 12 0xff = bssidIndex c /\ bytes6 p 54 = bssid c /\
  field p 8 0x3800 = port c /\ field p 13 1 = field p 2 1 /\
  (** no key slot *)
  field p 9 0x30000 = 2 /\ le32_at p 40 = 0 /\ le32_at p 44 = 0.

Lemma built_byte n edits p i b : built n edits p -> 0 <= i < 4 * n -> latest edits (i / 4) (byteMask i) = Some b ->
  in_u8 b -> byte_at p i = b.
Proof.
  intros HB Hi Hl Hb. rewrite <- field_byte by lia. destruct HB as (_ & Hw & _). unfold field. rewrite Hw by zlia.
  rewrite (latest_spec _ _ _ _ Hl), under_byteMask, shiftOf_byteMask by exact Hb.
  rewrite Z.shiftr_shiftl_l by zlia. rewrite Z.sub_diag. apply Z.shiftl_0_r.
Qed.

Lemma addressHash_range a s : in_u8 (addressHash a s).
Proof.
  unfold addressHash. assert (H : forall l h, in_u8 h -> in_u8 (foldl (fun hash i => Z.lxor hash (byte_at a i)) h l)).
  { induction l as [|i l IH]; intros h Hh; [exact Hh|]. apply IH. pose proof (byte_at_range a i).
    assert (0 <= Z.lxor h (byte_at a i) < 2^8); [|zlia]. split; [apply Z.lxor_nonneg; zlia|].
    destruct (Z.eq_dec (Z.lxor h (byte_at a i)) 0) as [->|Hz]; [lia|].
    apply Z.log2_lt_pow2; [pose proof (Z.lxor_nonneg h (byte_at a i)); zlia|].
    eapply Z.le_lt_trans; [apply Z.log2_lxor; zlia|].
    assert (Hlg : forall x, in_u8 x -> Z.log2 x < 8).
    { intros x Hx. destruct (Z.eq_dec x 0) as [->|]; [reflexivity|]. apply Z.log2_lt_pow2; zlia. }
    apply Z.max_lub_lt; apply Hlg; assumption. }
  apply H. zlia.
Qed.

Lemma hash_bound a s : 0 <= addressHash a s <= 255.
Proof. pose proof (addressHash_range a s). zlia. Qed.

Lemma bytes6_of b : zlen b = 6 -> Forall in_u8 b ->
  b = [byte_at b 0; byte_at b 1; byte_at b 2; byte_at b 3; byte_at b 4; byte_at b 5].
Proof.
  intros Hl Hf. unfold zlen in Hl. do 7 (destruct b as [|? b]; cbn [List.length] in Hl; try lia).
  rewrite !Forall_cons in Hf. unfold byte_at. cbn [Z.to_nat Pos.to_nat Pos.iter_op nth Nat.add].
  destruct Hf as (H0 & H1 & H2 & H3 & H4 & H5 & _). rewrite !u8_small by assumption. reflexivity.
Qed.

Lemma addressStep_spec c edits p i (Q : buf -> Prop) : zlen (local c) = 6 -> zlen (bssid c) = 6 -> 0 <= i < 6 -> built 17 edits p ->
  (forall p', built 17 (mkEdit ((22 + i) / 4) (byte_at (bssid c) i) (byteMask (22 + i)) ::
                        mkEdit ((16 + i) / 4) (byte_at (local c) i) (byteMask (16 + i)) :: edits) p' -> Q p') ->
  mspec (addressStep c i p) Q.
Proof.
  intros HL HS Hi HB HQ. unfold addressStep. mstep. apply rd8_spec; [lia|]. mstep.
  eapply store_byte_spec; [exact HB|lia|apply byte_at_range|clear HB; intros p1 HB]. mstep. apply rd8_spec; [lia|].
  eapply store_byte_spec; [exact HB|lia|apply byte_at_range|exact HQ].
Qed.
Lemma bssidStep_spec c edits p i (Q : buf -> Prop) : zlen (bssid c) = 6 -> 0 <= i < 6 -> built 17 edits p ->
  (forall p', built 17 (mkEdit ((54 + i) / 4) (byte_at (bssid c) i) (byteMask (54 + i)) :: edits) p' -> Q p') ->
  mspec (bssidStep c i p) Q.
Proof.
  intros HS Hi HB HQ. unfold bssidStep. mstep. apply rd8_spec; [lia|].
  eapply store_byte_spec; [exact HB|lia|apply byte_at_range|exact HQ].
Qed.

Definition camOk (c : Cam) (r : Payload) : Prop :=
  id r = camCommand /\ length r = 60 /\ zlen (bytes r) = 68 /\ decodeCam (bytes r) = c /\ camRest c (bytes r).

Lemma camRanges c : Forall in_u8 [macid c; port c; addressIndex c; bssidIndex c; bssColor c; beaconHit c; hitRule c; addressMask c;
    maskSelect c; target c; frameTarget c] -> in_u16 (aid c) -> camRefused c = false ->
  0 <= macid c < 128 /\ 0 <= port c <= 4 /\ 0 <= addressIndex c < 128 /\ 0 <= bssidIndex c < 10 /\ 0 <= bssColor c <= 63 /\
  0 <= beaconHit c <= 3 /\ 0 <= hitRule c <= 3 /\ 0 <= addressMask c <= 63 /\ 0 <= maskSelect c <= 2 /\
  0 <= target c <= 7 /\ 0 <= frameTarget c <= 7 /\ 0 <= aid c <= 2007 /\ (if connected c then aid c else 0) = aid c.
Proof.
  rewrite !Forall_cons. intros (H1 & H2 & H3 & H4 & H5 & H6 & H7 & H8 & H9 & H10 & H11 & _) HA HC. unfold camRefused in HC.
  rewrite !orb_false_iff in HC. unfold_words. destruct (connected c); cbn [andb negb] in HC; rewrite ?orb_false_iff in HC; lia.
Qed.

(** The six bytes at [o]. *)
Lemma byte6 edits p o a : built 17 edits p -> zlen a = 6 -> Forall in_u8 a -> 0 <= o <= 62 ->
  Forall (fun i => latest edits ((o + i) / 4) (byteMask (o + i)) = Some (byte_at a i)) [0; 1; 2; 3; 4; 5] -> bytes6 p o = a.
Proof.
  intros HB Hl Ha Ho H. rewrite (bytes6_of a Hl Ha). unfold bytes6. cbn [map]. rewrite !Forall_cons in H.
  destruct H as (H0 & H1 & H2 & H3 & H4 & H5 & _).
  rewrite (built_byte 17 edits p (o + 0) _ HB ltac:(lia) H0), (built_byte 17 edits p (o + 1) _ HB ltac:(lia) H1), (built_byte 17 edits p (o + 2) _ HB ltac:(lia) H2),
    (built_byte 17 edits p (o + 3) _ HB ltac:(lia) H3), (built_byte 17 edits p (o + 4) _ HB ltac:(lia) H4), (built_byte 17 edits p (o + 5) _ HB ltac:(lia) H5)
    by apply byte_at_range. reflexivity.
Qed.

Lemma bit_field (v w : Z) (b : bool) x y : v = (if b then x else y) -> ((if b then x else y) =? w) = b -> (v =? w) = b.
Proof. intros -> H. exact H. Qed.

Ltac solve_field :=
  lazymatch goal with
  | |- 0 <= ?v <= Z.shiftr ?m ?s => let y := eval vm_compute in (Z.shiftr m s) in change (0 <= v <= y);
      repeat match goal with |- context [if ?b then _ else _] => destruct b | |- context [Z.b2z ?b] => destruct b; cbn [Z.b2z] end; lia
  | |- _ <= _ < _ => lia
  | |- _ => reflexivity
  end.

Lemma addressCam_built c : camTyped c -> camRefused c = false ->
  mspec (addressCam c) (camOk c).
Proof.
  intros HT HC. unfold addressCam. rewrite HC. mstep. mstep.
  pose proof (built_zeros 17 ltac:(lia)) as HB. change (4 * 17) with 68 in HB. cbv zeta.
  destruct HT as (HL & HS & FL & FS & HT & HA).
  fold (hashStart c 1). fold (hashStart c 2).
  pose proof (hash_bound (local c) (hashStart c 1)) as B1. pose proof (hash_bound (bssid c) (hashStart c 2)) as B2.
  remember (addressHash (local c) (hashStart c 1)) as h1 eqn:E1. remember (addressHash (bssid c) (hashStart c 2)) as h2 eqn:E2.
  do 13 edit HB.
  mstep. cbn [for_m]. do 6 (mstep; eapply addressStep_spec; [exact HL|exact HS|lia|exact HB|clear HB; intros ? HB]). mstep.
  do 16 edit HB.
  mstep. cbn [for_m]. do 6 (mstep; eapply bssidStep_spec; [exact HS|lia|exact HB|clear HB; intros ? HB]). mstep. mstep.
  match type of HB with built _ ?l ?q => set (edits := l) in HB; generalize dependent q end. intros p HB.
  assert (HR := camRanges c HT HA HC). destruct HR as (R1 & R2 & R3 & R4 & R5 & R6 & R7 & R8 & R9 & R10 & R11 & R12 & R13).
  split; [reflexivity|]. split; [reflexivity|]. split; [apply HB|]. cbn [bytes].
  assert (F : forall w m v, 0 <= w < 17 -> adjacent m = true -> latest edits w m = Some v -> 0 <= v <= Z.shiftr m (shiftOf m) -> field p w m = v).
  { intros w m v Hw Ha Hl Hv. apply (field_built 17 edits); try assumption. unfold fits. lia. }
  split.
  - unfold decodeCam. rewrite (byte6 edits p 16 (local c)), (byte6 edits p 22 (bssid c)) by (solve [assumption|lia|repeat constructor]).
    transitivity (mkCam (macid c) (port c) (addressIndex c) (bssidIndex c) (local c) (bssid c) (valid c) (connected c) (nontransmitted c)
      (trigger c) (lsigTxop c) (aid c) (bssColor c) (beaconHit c) (hitRule c) (addressMask c) (maskSelect c) (target c) (frameTarget c));
      [f_equal|destruct c; reflexivity]; try (apply F; solve_field).
    + apply (bit_field _ _ (valid c) 1 0); [|destruct (valid c); reflexivity]. apply F; solve_field.
    + apply (bit_field _ _ (connected c) 2 0); [|destruct (connected c); reflexivity]. apply F; solve_field.
    + apply (bit_field _ _ (nontransmitted c) 0x1f 0x3f); [|destruct (nontransmitted c); reflexivity]. apply F; solve_field.
    + apply (bit_field _ _ (trigger c) 1 0); [|destruct (trigger c); reflexivity]. apply F; solve_field.
    + apply (bit_field _ _ (lsigTxop c) 1 0); [|destruct (lsigTxop c); reflexivity]. apply F; solve_field.
    + rewrite <- R13. apply F; solve_field.
  - unfold camRest. rewrite <- E1, <- E2.
    split; [apply F; solve_field|]. split; [apply F; solve_field|].
    split; [apply F; solve_field|]. split; [apply F; solve_field|].
    split; [apply F; solve_field|].
    split; [apply (byte6 edits); [assumption|assumption|assumption|lia|repeat constructor]|].
    split; [apply F; solve_field|].
    split; [transitivity (Z.b2z (valid c)); [|symmetry]; apply F; solve_field|].
    split; [apply F; solve_field|].
    destruct HB as (_ & Hw & _). split; [apply (Hw 10)|apply (Hw 11)]; lia.
Qed.

(** ** Packet padding and the association command *)

Definition heTyped (he : HeCapabilities) : Prop :=
  in_u8 (rxNss he) /\ in_u8 (txNss he) /\ zlen (phy he) = 11 /\ 0 <= ppeLength he <= zlen (ppe he).
Definition padsOk (pads : list Z) : Prop := List.length pads = 4%nat /\ Forall (fun x => 0 <= x <= 3) pads.

Lemma padsOk_insert pads i v : padsOk pads -> 0 <= v <= 3 -> padsOk (<[i := v]> pads).
Proof.
  intros [Hl Hf] Hv. split; [rewrite length_insert; exact Hl|]. apply Forall_insert; assumption.
Qed.

(** The bits of the pairs before index [i]. *)
Definition countTo (bitmap i : Z) : Z := foldl (fun c j => c + Z.land (Z.shiftr bitmap j) 1) 0 (seqZ 0 i).
Lemma countTo_S bitmap i : 0 <= i -> countTo bitmap (i + 1) = countTo bitmap i + Z.land (Z.shiftr bitmap i) 1.
Proof. intros Hi. unfold countTo. rewrite seqZ_app by lia. rewrite foldl_app. cbn. rewrite Z.add_0_l. reflexivity. Qed.
Lemma countTo_bit bitmap i : 0 <= i -> Z.land (Z.shiftr bitmap i) 1 = Z.b2z (flag bitmap (Z.shiftl 1 i)).
Proof.
  intros Hi. change 1 with (Z.ones 1) at 1. rewrite Z.land_ones by lia. change (2 ^ 1) with 2.
  rewrite <- Z.bit0_mod, Z.shiftr_spec, Z.add_0_l by lia. f_equal. unfold flag.
  rewrite Z.shiftl_1_l. destruct (Z.testbit bitmap i) eqn:E.
  - destruct (Z.eqb_spec (Z.land bitmap (2 ^ i)) 0) as [H|]; [|reflexivity].
    apply (f_equal (fun z => Z.testbit z i)) in H. rewrite Z.land_spec, Z.pow2_bits_true, E, Z.testbit_0_l in H by lia. discriminate.
  - replace (Z.land bitmap (2 ^ i)) with 0; [reflexivity|]. symmetry. apply Z.bits_inj'. intros n Hn.
    rewrite Z.land_spec, Z.testbit_0_l. destruct (Z.eq_dec n i) as [->|]; [rewrite E; reflexivity|].
    rewrite Z.pow2_bits_false by lia. apply andb_false_r.
Qed.
Lemma countTo_le bitmap i j : 0 <= i <= j -> countTo bitmap i <= countTo bitmap j.
Proof.
  intros H. assert (Hd : 0 <= j - i) by lia. replace j with (i + (j - i)) by lia. revert Hd. generalize (j - i).
  intros d Hd. replace d with (Z.of_nat (Z.to_nat d)) by lia. induction (Z.to_nat d) as [|n IH]; [rewrite Z.add_0_r; lia|].
  rewrite Nat2Z.inj_succ. replace (i + Z.succ (Z.of_nat n)) with (i + Z.of_nat n + 1) by lia.
  rewrite countTo_S, countTo_bit by lia. destruct (flag bitmap _); cbn [Z.b2z]; lia.
Qed.

Lemma pair_spec ppe bit (Q : Z -> Prop) : 0 <= bit -> bit + 6 <= 8 * zlen ppe -> (forall v, in_u8 v -> Q v) ->
  mspec (for_m 6 0 (pairStep ppe bit) 0) Q.
Proof.
  intros Hb Hl HQ. apply (mspec_for_m (fun _ v => in_u8 v) 6); [lia|zlia| |exact HQ].
  intros j v Hj Hv. unfold pairStep. mstep. apply rd8_spec; [zlia|]. mstep. apply u8_range.
Qed.

Lemma padStep_spec ppe bitmap i pads bit (Q : list Z * Z -> Prop) : 0 <= i ->
  0 <= bit -> (flag bitmap (Z.shiftl 1 i) = true -> bit + 6 <= 8 * zlen ppe) -> padsOk pads ->
  (forall pads', padsOk pads' -> Q (pads', bit + 6 * Z.b2z (flag bitmap (Z.shiftl 1 i)))) -> mspec (padStep ppe bitmap i (pads, bit)) Q.
Proof.
  intros Hi Hb Hl Hp HQ. unfold padStep. mstep.
  - mstep. specialize (HQ (<[Z.to_nat i := 1]> pads)). replace (flag bitmap (Z.shiftl 1 i)) with false in HQ by (destruct (flag _ _); auto).
    rewrite Z.add_0_r in HQ. apply HQ, padsOk_insert; [exact Hp|lia].
  - destruct (flag bitmap (Z.shiftl 1 i)) eqn:E; [|discriminate]. mstep. apply pair_spec; [exact Hb|auto|]. intros v Hv. mstep.
    apply HQ, padsOk_insert; [exact Hp|]. unfold slotFor. repeat case_match; lia.
Qed.

Lemma land_small v m : 0 <= m -> 0 <= Z.land v m <= m.
Proof. apply land_bounds. Qed.

Lemma packetPadding_spec he : heTyped he -> mspec (packetPadding he) padsOk.
Proof.
  intros (H1 & H2 & H3 & H4). unfold packetPadding. mstep; [mstep; split; [reflexivity|]; repeat constructor; lia|].
  mstep. mstep. mstep. apply rd8_spec; [lia|]. mstep.
  { mstep. apply rd8_spec; [lia|]. cbv zeta. mstep. pose proof (land_small (Z.shiftr (byte_at (phy he) 9) 6) 3 ltac:(lia)).
    rewrite u8_small by zlia. split; [reflexivity|]. repeat constructor; lia. }
  mstep. mstep. mstep. apply rd8_spec; [lia|]. cbv zeta. mstep. mstep. mstep.
  set (bitmap := Z.land (Z.shiftr (byte_at (ppe he) 0) 3) 15) in *.
  set (streams := Z.land (byte_at (ppe he) 0) 7 + 1) in *.
  set (selected := (if rxNss he <? txNss he then rxNss he else txNss he) - 1) in *.
  apply orb_false_iff in Hg as [G G5]. apply orb_false_iff in G as [G G4]. apply orb_false_iff in G as [G G3].
  apply orb_false_iff in G as [G1 G2]. apply orb_false_iff in Hg1 as [G G8]. apply orb_false_iff in G as [G6 G7].
  assert (Hsel : 0 <= selected < streams) by (unfold selected; destruct (rxNss he <? txNss he); unfold_words; lia).
  assert (Hc : bitCount bitmap = countTo bitmap 4) by reflexivity. rewrite Hc in *.
  assert (Hc0 : 0 <= countTo bitmap 4) by (apply (countTo_le bitmap 0 4); lia).
  apply (mspec_for_m (fun i s => padsOk s.1 /\ s.2 = 7 + selected * countTo bitmap 4 * 6 + 6 * countTo bitmap i) 4).
  - lia.
  - split; [split; [reflexivity|repeat constructor; lia]|]. cbn. change (countTo bitmap 0) with 0. lia.
  - intros i [pads bit] Hi [Hp Hb]. cbn [fst snd] in Hp, Hb.
    pose proof (countTo_le bitmap 0 i ltac:(lia)) as L0. change (countTo bitmap 0) with 0 in L0.
    pose proof (countTo_le bitmap (i + 1) 4 ltac:(lia)) as L1. pose proof (countTo_S bitmap i ltac:(lia)) as LS.
    rewrite countTo_bit in LS by lia.
    apply padStep_spec; [lia|nia| |exact Hp|].
    + intros E. rewrite E in LS. cbn [Z.b2z] in LS. subst bit.
      assert (Hle : selected * countTo bitmap 4 + countTo bitmap 4 <= streams * countTo bitmap 4) by nia.
      assert (H5 : (7 + streams * countTo bitmap 4 * 6 + 7) / 8 <= ppeLength he) by lia. zlia.
    + intros pads' Hp'. split; [exact Hp'|]. cbn [snd]. rewrite LS, Hb. lia.
  - intros s [Hp _]. mstep. exact Hp.
Qed.

(** A CMAC command: the values, and the mask half that names the fields the
    firmware is to take. *)
Definition cmacWords (p : buf) : list Z := map (fun k => le32_at p (4 * k)) [9; 10; 11; 12; 13; 14; 15; 16].
Definition associationOk (c : AssociationCmac) (pads : list Z) (r : Payload) : Prop :=
  let p := bytes r in
  id r = cmacCommand /\ length r = 68 /\ zlen p = 68 /\ padsOk pads /\
  field p 0 0x7f = a_macid c /\ field p 0 0x80 = 1 /\ field p 5 7 = a_port c /\
  field p 2 0xf0000000 = (if a_band c =? 0 then 0 else 4) /\
  field p 7 0x300000 = nth 0 pads 0 /\ field p 7 0xc00000 = nth 1 pads 0 /\ field p 7 0xc0000000 = nth 2 pads 0 /\
  field p 8 0x30000000 = nth 3 pads 0 /\
  field p 6 0x2000 = Z.b2z (a_stationPresent c && he_present (a_he c)) /\
  cmacWords p = [0x06000000; 0xf0000800; 0x40; 0; 7; if a_stationPresent c then 0x2000 else 0; 0xc0f20000; 0x30000000].
Lemma pads_at pads i : padsOk pads -> (i < 4)%nat -> 0 <= nth i pads 0 <= 3.
Proof.
  intros [Hl Hf] Hi. rewrite Forall_forall in Hf. apply Hf. apply list_elem_of_In, nth_In. lia.
Qed.

Lemma association_built c pads : heTyped (a_he c) -> in_u8 (a_macid c) -> in_u8 (a_port c) -> in_u8 (a_band c) ->
  associationRefused c = false -> packetPadding (a_he c) = MVal pads ->
  mspec (associationCmac c) (associationOk c pads).
Proof.
  intros HT HA HP HBd HC Hpads. assert (Hok := packetPadding_spec _ HT). rewrite Hpads in Hok. cbn in Hok.
  unfold associationCmac. rewrite HC, Hpads. mstep. mstep. mstep.
  pose proof (pads_at pads 0 Hok ltac:(lia)) as P0. pose proof (pads_at pads 1 Hok ltac:(lia)) as P1.
  pose proof (pads_at pads 2 Hok ltac:(lia)) as P2. pose proof (pads_at pads 3 Hok ltac:(lia)) as P3.
  pose proof (built_zeros 17 ltac:(lia)) as HB. change (4 * 17) with 68 in HB.
  unfold associationRefused in HC. rewrite !orb_false_iff in HC. destruct HC as (((C1 & C2) & C3) & C4). unfold_words.
  do 13 edit HB. mstep.
  assert (Hfin : forall edits p, built 17 edits p ->
    (forall w m v, 0 <= w < 17 -> adjacent m = true -> latest edits w m = Some v -> 0 <= v <= Z.shiftr m (shiftOf m) -> field p w m = v)).
  { intros edits p Hb w m v Hw Ha Hl Hv. apply (field_built 17 edits); try assumption. unfold fits. lia. }
  assert (Hmask : forall edits p, built 17 edits p -> cmacWords p = map (wordOf edits) [9; 10; 11; 12; 13; 14; 15; 16]).
  { intros edits p (_ & Hw & _). unfold cmacWords. apply map_ext_in. intros k Hk. rewrite (Z.mul_comm 4). apply Hw. cbn in Hk. lia. }
  assert (Hdone : forall edits p, built 17 edits p ->
    latest edits 6 0x2000 = Some (Z.b2z (a_stationPresent c && he_present (a_he c))) ->
    map (wordOf edits) [9; 10; 11; 12; 13; 14; 15; 16] =
      [0x06000000; 0xf0000800; 0x40; 0; 7; if a_stationPresent c then 0x2000 else 0; 0xc0f20000; 0x30000000] ->
    latest edits 0 0x7f = Some (a_macid c) /\ latest edits 0 0x80 = Some 1 /\ latest edits 5 7 = Some (a_port c) /\
    latest edits 2 0xf0000000 = Some (if negb (a_band c =? 0) then 4 else 0) /\ latest edits 7 0x300000 = Some (nth 0 pads 0) /\
    latest edits 7 0xc00000 = Some (nth 1 pads 0) /\ latest edits 7 0xc0000000 = Some (nth 2 pads 0) /\
    latest edits 8 0x30000000 = Some (nth 3 pads 0) -> associationOk c pads (mkPayload cmacCommand 68 p)).
  { intros edits p Hb L9 Lm (L1 & L2 & L3 & L4 & L5 & L6 & L7 & L8). pose proof (Hfin edits p Hb) as F. cbv zeta.
    split; [reflexivity|]. split; [reflexivity|]. split; [apply Hb|]. split; [exact Hok|].
    split; [apply F; [lia|reflexivity|exact L1|solve_field]|]. split; [apply F; [lia|reflexivity|exact L2|solve_field]|].
    split; [apply F; [lia|reflexivity|exact L3|solve_field]|].
    split; [apply F; [lia|reflexivity|rewrite L4; destruct (a_band c =? 0); reflexivity|solve_field]|].
    split; [apply F; [lia|reflexivity|exact L5|solve_field]|]. split; [apply F; [lia|reflexivity|exact L6|solve_field]|].
    split; [apply F; [lia|reflexivity|exact L7|solve_field]|]. split; [apply F; [lia|reflexivity|exact L8|solve_field]|].
    split; [apply F; [lia|reflexivity|exact L9|solve_field]|]. cbn [bytes]. rewrite (Hmask edits p Hb). exact Lm. }
  destruct (a_stationPresent c) eqn:Es.
  - unfold SET_CMC_TBL_BSR_QUEUE_SIZE_FORMAT. mstep. edit_one HB. edit_one HB. mstep. apply (Hdone _ _ HB); [reflexivity|reflexivity|repeat split; reflexivity].
  - mstep. apply (Hdone _ _ HB); [reflexivity|reflexivity|repeat split; reflexivity].
Qed.

(** The command that prepares an idle station. *)
Definition defaultOk (c : DefaultCmac) (r : Payload) : Prop :=
  let p := bytes r in
  id r = cmacCommand /\ length r = 68 /\ zlen p = 68 /\ field p 0 0x7f = d_macid c /\ field p 0 0x80 = 1 /\
  field p 6 0xf0000 = (if d_antennaTx c =? 0 then 2 else d_antennaTx c) /\
  field p 6 0xc00000 = (if d_antennaTx c =? 3 then 1 else 0) /\
  cmacWords p = [0; 0; 0; 0; 0xe00; 0xffff0000; 0x0f0c0000; 0].
Lemma default_built c : 0 <= d_macid c < 128 -> 0 <= d_antennaTx c <= 3 -> mspec (defaultCmac c) (defaultOk c).
Proof.
  intros H1 H2. unfold defaultCmac. mstep. mstep. pose proof (built_zeros 17 ltac:(lia)) as HB. change (4 * 17) with 68 in HB.
  do 14 edit HB. mstep.
  match type of HB with built _ ?l ?q => set (edits := l) in HB; generalize dependent q end. intros p HB.
  assert (F : forall w m v, 0 <= w < 17 -> adjacent m = true -> latest edits w m = Some v -> 0 <= v <= Z.shiftr m (shiftOf m) -> field p w m = v).
  { intros w m v Hw Ha Hl Hv. apply (field_built 17 edits); try assumption. unfold fits. lia. }
  cbv zeta. split; [reflexivity|]. split; [reflexivity|]. split; [apply HB|]. cbn [bytes].
  split; [apply F; solve_field|]. split; [apply F; solve_field|].
  split; [apply F; [lia|reflexivity| |solve_field]; cbn; destruct (d_antennaTx c =? 0); reflexivity|].
  split; [apply F; solve_field|].
  destruct HB as (_ & Hw & _). unfold cmacWords. rewrite (map_ext_in _ (wordOf edits)); [reflexivity|].
  intros k Hk. rewrite (Z.mul_comm 4). apply Hw. cbn in Hk. lia.
Qed.

(** An accepted command is always built. *)
Lemma never_replace p w v m : never tt (replace p w v m).
Proof. unfold replace, little32, store32, store16. mnever. Qed.
Ltac nsetters :=
  repeat (mnever; try lazymatch goal with
    | |- never _ (replace _ _ _ _) => apply never_replace
    | |- never _ (addressStep _ _ _) => unfold addressStep
    | |- never _ (bssidStep _ _ _) => unfold bssidStep
    | |- never _ (?f _ _) => unfold f
    end).
Lemma mspec_built {A} (m : mres unit A) Q : mspec m Q -> never tt m -> exists a, m = MVal a /\ Q a.
Proof. intros H Hn. destruct m as [a|[]|]; [eauto|destruct (Hn eq_refl)|destruct H]. Qed.
Lemma addressCam_never c : camRefused c = false -> never tt (addressCam c).
Proof. intros E. unfold addressCam. rewrite E. cbn [fail_if]. cbv zeta. nsetters. Qed.
Lemma association_never c pads : associationRefused c = false -> packetPadding (a_he c) = MVal pads -> never tt (associationCmac c).
Proof. intros E Hp. unfold associationCmac. rewrite E, Hp. cbn [fail_if]. nsetters. Qed.

(** C22: the address-CAM command is a faithful encoding.  A configuration
    outside the ranges the firmware accepts is refused, and otherwise the
    payload is 60 bytes of a zeroed buffer from which every field of the
    configuration reads back unchanged, with the hashes of the two addresses,
    the entry sizes and the second copy of the BSSID in their places and no
    hardware key slot enabled. *)
Theorem cam_roundtrip c : camTyped c ->
  if camRefused c then addressCam c = MErr tt
  else exists r, addressCam c = MVal r /\ camOk c r.
Proof.
  intros HT. destruct (camRefused c) eqn:E.
  - unfold addressCam. rewrite E. reflexivity.
  - apply mspec_built; [apply addressCam_built; assumption|apply addressCam_never; exact E].
Qed.

(** building the association command never reads outside the advertised
    PPE bytes, whatever they hold.  It is refused exactly when the
    configuration is out of range or the padding cannot be determined; else
    each of the four padding values fits its two bits and is read back from
    its field, with the port, the lowest retry rate of the band, and the mask
    half naming exactly the fields set. *)
Theorem association_encoded c : heTyped (a_he c) -> in_u8 (a_macid c) -> in_u8 (a_port c) -> in_u8 (a_band c) ->
  if associationRefused c then associationCmac c = MErr tt
  else match packetPadding (a_he c) with
       | MVal pads => exists r, associationCmac c = MVal r /\ associationOk c pads r
       | MErr _ => associationCmac c = MErr tt
       | MOob => False
       end.
Proof.
  intros HT HA HP HB. destruct (associationRefused c) eqn:E; [unfold associationCmac; rewrite E; reflexivity|].
  pose proof (packetPadding_spec (a_he c) HT) as Hp. destruct (packetPadding (a_he c)) as [pads|[]|] eqn:Ep.
  - apply mspec_built; [apply association_built; assumption|eapply association_never; eassumption].
  - unfold associationCmac. rewrite E, Ep. reflexivity.
  - exact Hp.
Qed.

(** ** Concrete commands *)

Definition sampleCam : Cam := mkCam 3 1 3 2 [2; 0x11; 0x22; 0x33; 0x44; 0x55] [6; 1; 2; 3; 4; 5]
  true true false true false 1007 17 1 2 0x30 1 3 5.
Example sampleCam_decodes : exists r, addressCam sampleCam = MVal r /\ decodeCam (bytes r) = sampleCam.
Proof. eexists. split; [vm_compute; reflexivity|vm_compute; reflexivity]. Qed.

Lemma cam_roundtrip_witness : exists r, addressCam sampleCam = MVal r /\ camOk sampleCam r.
Proof.
  apply (cam_roundtrip sampleCam). unfold camTyped, in_u8, in_u16. cbn. repeat split; repeat constructor; lia.
Defined.

(** A peer whose PPE thresholds name two bandwidths for two streams. *)
Definition sampleHe : HeCapabilities :=
  mkHe true 2 2 [0; 0; 0; 0; 0; 0; 0x80; 0; 0; 0; 0] [0x19; 0x38; 0xc7; 0x1f; 0] 5.
Definition sampleAssociation : AssociationCmac := mkAssociationCmac 3 1 1 true sampleHe.
Example samplePads : packetPadding sampleHe = MVal [2; 1; 1; 1].
Proof. vm_compute. reflexivity. Qed.
Lemma association_encoded_witness :
  exists r, associationCmac sampleAssociation = MVal r /\ associationOk sampleAssociation [2; 1; 1; 1] r.
Proof.
  apply (association_encoded sampleAssociation); vm_compute; repeat split; discriminate.
Defined.

(** ** The initial writes of the MAC tables *)

(** What [seedMacTables] needs of its [Io]. *)
Inductive seedOp := InGate | WindowOwned | SchedulerPaused | SeedNowUs | SeedWrite32 (reg value : Z) | DrainWrites.
Definition seedAns (o : seedOp) : Type := match o with SeedNowUs => Z | _ => bool end.
Definition SeedIo : sig := Sig seedOp seedAns.
Inductive SeedError := seedNone | seedPrecondition | seedClock | seedTimeout | seedWriteFailed | seedDrain.
#[export] Instance SeedError_eq_dec : EqDecision SeedError. Proof. solve_decision. Defined.
Record SeedResult := mkSeedResult {
  s_error : SeedError; s_attempted : Z; s_written : Z; s_requiresReset : bool; s_complete : bool; s_last : Z; s_deadline : Z
}.
#[export] Instance SeedResult_rebuild : Rebuild SeedResult := fun r =>
  mkSeedResult (s_error r) (s_attempted r) (s_written r) (s_requiresReset r) (s_complete r) (s_last r) (s_deadline r).

Definition SM (A : Type) : Type := M SeedIo SeedResult A.
Definition scall (o : seedOp) : SM (seedAns o) := call (Σ:=SeedIo) o.
Definition seedNow : SM Z := v ← scall SeedNowUs; mret (u64 v).
Definition seedFail (e : SeedError) : SM unit := modify (fun r => r <| s_error := e |>).
Definition seedOwned : SM bool := scall InGate &&> scall WindowOwned &&> scall SchedulerPaused.

Definition seedCheck : SM bool :=
  now ← seedNow; r ← get;
  (if now <? s_last r then seedFail seedClock
   else if s_deadline r <=? now then seedFail seedTimeout
   else ok ← seedOwned; unless ok (seedFail seedPrecondition));;
  modify (fun r => r <| s_last := now |>);;
  r ← get; mret (bool_decide (s_error r = seedNone)).

Definition seedWrite (reg value : Z) : SM bool :=
  ok ← seedCheck;
  if negb ok then mret false else
  modify (fun r => r <| s_attempted := u32 (s_attempted r + 1) |> <| s_requiresReset := true |>);;
  w ← scall (SeedWrite32 reg value);
  if negb w then seedFail seedWriteFailed;; mret false else
  modify (fun r => r <| s_written := u32 (s_written r + 1) |>);; seedCheck.

Definition cmacSeed : list Z := [0x4; 0x400a0004; 0; 0; 0; 0x0e43000b; 0; 0x000b8109].
Definition seedBody (macid : Z) : SM unit :=
  ok ← (if 128 <=? macid then mret false else seedOwned);
  (if negb ok then seedFail seedPrecondition;; brk else mret tt);;
  last ← seedNow;
  modify (fun r => r <| s_last := last |>);;
  (if 0xffffffffffffffff - last <? 100000 then seedFail seedClock;; brk else mret tt);;
  modify (fun r => r <| s_deadline := last + 100000 |>);;
  for_each 0 4 (fun i =>
    must (seedWrite R_AX_FILTER_MODEL_ADDR (u32 (DMAC_TBL_BASE_ADDR + Z.shiftl macid 4 + Z.shiftl i 2)) &&>
          seedWrite R_AX_INDIR_ACCESS_ENTRY 0));;
  must (seedWrite R_AX_FILTER_MODEL_ADDR (u32 (CMAC_TBL_BASE_ADDR + macid * CCTL_INFO_SIZE)));;
  for_each 0 8 (fun i => must (seedWrite (R_AX_INDIR_ACCESS_ENTRY + 4 * i) (nth (Z.to_nat i) cmacSeed 0)));;
  d ← scall DrainWrites;
  (if negb d then seedFail seedDrain;; brk else mret tt);;
  must seedCheck;;
  modify (fun r => r <| s_complete := true |> <| s_requiresReset := false |>).
Definition seedMacTables (macid : Z) : prog SeedIo SeedResult :=
  final_state (seedBody macid) (mkSeedResult seedNone 0 0 false false 0 0).

(** The writes in their order. *)
Definition dmacSeed (macid : Z) : list (Z * Z) :=
  concat (map (fun i => [(R_AX_FILTER_MODEL_ADDR, u32 (DMAC_TBL_BASE_ADDR + Z.shiftl macid 4 + Z.shiftl i 2)); (R_AX_INDIR_ACCESS_ENTRY, 0)])
    [0; 1; 2; 3]).
Definition seedPlan (macid : Z) : list (Z * Z) :=
  dmacSeed macid ++ (R_AX_FILTER_MODEL_ADDR, u32 (CMAC_TBL_BASE_ADDR + macid * CCTL_INFO_SIZE)) ::
  map (fun i => (R_AX_INDIR_ACCESS_ENTRY + 4 * i, nth (Z.to_nat i) cmacSeed 0)) [0; 1; 2; 3; 4; 5; 6; 7].

(** The writes made, and how much of the ownership check was passed since the
    clock was last read. *)
Record SeedTrail := mkSeedTrail { g_done : Z; g_stage : Z }.
Definition seedMay macid (g : SeedTrail) (o : seedOp) : Prop :=
  match o with
  | SeedWrite32 reg v => g_stage g = 3 /\ 0 <= g_done g /\ nth_error (seedPlan macid) (Z.to_nat (g_done g)) = Some (reg, v)
  | _ => True
  end.
Definition seedNext (g : SeedTrail) (o : seedOp) : seedAns o -> SeedTrail :=
  match o with
  | SeedNowUs => fun _ => mkSeedTrail (g_done g) 0
  | InGate => fun x => mkSeedTrail (g_done g) (if x : bool then 1 else 0)
  | WindowOwned => fun x => mkSeedTrail (g_done g) (if (x : bool) && (g_stage g =? 1) then 2 else 0)
  | SchedulerPaused => fun x => mkSeedTrail (g_done g) (if (x : bool) && (g_stage g =? 2) then 3 else 0)
  | SeedWrite32 _ _ => fun _ => mkSeedTrail (g_done g + 1) (g_stage g)
  | DrainWrites => fun _ => g
  end.
Definition seedRules macid : protocol SeedIo SeedTrail := Protocol (Σ:=SeedIo) (seedMay macid) (fun _ _ _ => True) seedNext.

Section seed.
Context (macid : Z).
Implicit Types (r : SeedResult) (g : SeedTrail).

(** [k] writes were made and accepted. *)
Definition seeded k r g : Prop :=
  g_done g = k /\ s_written r = k /\ s_attempted r = k /\ s_requiresReset r = (0 <? k) /\ s_complete r = false.
(** The run ends early. *)
Definition seedStopped r g : Prop := s_complete r = false /\ (s_requiresReset r = true \/ g_done g = 0).

Lemma seeded_stopped k r g : 0 <= k -> seeded k r g -> seedStopped r g.
Proof.
  intros H0 (H1 & H2 & H3 & H4 & H5). split; [exact H5|]. rewrite H4. destruct (Z.ltb_spec 0 k); [auto|right; lia].
Qed.

Lemma seedOwned_wp r g (Q : option bool -> SeedResult -> SeedTrail -> Prop) :
  (forall b st, (b = true -> st = 3) -> Q (Some b) r (mkSeedTrail (g_done g) st)) ->
  wpm (seedRules macid) seedOwned r g Q.
Proof.
  intros HQ. unfold seedOwned. wstep. refine (wpm_call (seedRules macid) InGate _ _ _ I _). intros a _.
  destruct a; [|apply HQ; discriminate].
  wstep. refine (wpm_call (seedRules macid) WindowOwned _ _ _ I _). intros b _. destruct b; [|apply HQ; discriminate].
  refine (wpm_call (seedRules macid) SchedulerPaused _ _ _ I _). intros c _. apply HQ. intros ->. reflexivity.
Qed.

Lemma seedCheck_wp k r g : 0 <= k -> seeded k r g -> wpm (seedRules macid) seedCheck r g (fun o r' g' =>
  exists b, o = Some b /\ seeded k r' g' /\ (b = true -> g_stage g' = 3)).
Proof.
  intros H0 H. unfold seedCheck, seedNow, seedFail. wstep. wstep.
  refine (wpm_call (seedRules macid) SeedNowUs r g _ I _). intros v _. wstep. wstep. wstep. cbn [next seedRules seedNext].
  assert (Hend : forall e st (b : bool), (b = true -> st = 3) -> (bool_decide (e = seedNone) = true -> b = true) ->
    wpm (seedRules macid) (modify (fun r => r <| s_last := u64 v |>);; r ← get; mret (bool_decide (s_error r = seedNone)))
      (r <| s_error := e |>) (mkSeedTrail (g_done g) st)
      (fun o r' g' => exists b, o = Some b /\ seeded k r' g' /\ (b = true -> g_stage g' = 3))).
  { intros e st b Hb He. do 2 wstep. do 2 wstep. wstep. eexists. split; [reflexivity|]. split; [exact H|].
    intros E. apply Hb, He. exact E. }
  wstep. wstep; [wstep; apply (Hend seedClock 0 false); discriminate|].
  wstep; [wstep; apply (Hend seedTimeout 0 false); discriminate|].
  wstep.
  apply seedOwned_wp. intros b st Hb. unfold unless. destruct b.
  - wstep. destruct r as [e ? ? ? ? ? ?]. apply (Hend e st true); auto.
  - wstep. apply (Hend seedPrecondition st false); discriminate.
Qed.

Lemma seedWrite_wp k reg v r g : 0 <= k < 17 -> seeded k r g -> nth_error (seedPlan macid) (Z.to_nat k) = Some (reg, v) ->
  wpm (seedRules macid) (seedWrite reg v) r g (fun o r' g' =>
    (o = Some true /\ seeded (k + 1) r' g') \/ (o = Some false /\ seedStopped r' g')).
Proof.
  intros Hk H Hn. unfold seedWrite, seedFail. wstep. eapply wpm_mono; [apply seedCheck_wp; [|exact H]; lia|].
  clear r g H. intros o r g (b & -> & H & Hb). wstep.
  { wstep. right. split; [reflexivity|]. eapply seeded_stopped; [|exact H]. lia. }
  destruct b; [|discriminate]. specialize (Hb eq_refl). destruct H as (H1 & H2 & H3 & H4 & H5). wstep. wstep. wstep.
  refine (wpm_call (seedRules macid) (SeedWrite32 reg v) _ _ _ _ _).
  { split; [exact Hb|]. rewrite H1. split; [lia|exact Hn]. }
  intros w _. cbn [next seedRules seedNext]. wstep.
  - do 2 wstep. wstep. right. split; [reflexivity|]. split; [exact H5|]. left. reflexivity.
  - wstep. wstep. eapply wpm_mono; [apply (seedCheck_wp (k + 1)); [lia|]|].
    + split; [cbn; lia|]. split; [cbn; rewrite H2; apply u32_small; zlia|]. split; [cbn; rewrite H3; apply u32_small; zlia|].
      split; [cbn; lia|exact H5].
    + intros o r' g' (b & -> & H & _). destruct b; [auto|]. right. split; [reflexivity|]. eapply seeded_stopped; [|exact H]. lia.
Qed.

Lemma seed_must k reg v r g Q : 0 <= k < 17 -> seeded k r g -> nth_error (seedPlan macid) (Z.to_nat k) = Some (reg, v) ->
  (forall r' g', seeded (k + 1) r' g' -> Q (Some true) r' g') -> (forall r' g', seedStopped r' g' -> Q (Some false) r' g') ->
  wpm (seedRules macid) (seedWrite reg v) r g Q.
Proof.
  intros Hk H Hn HT HF. eapply wpm_mono; [apply seedWrite_wp; eassumption|].
  intros o r' g' [[-> H']|[-> H']]; [apply HT|apply HF]; exact H'.
Qed.

Definition seedDone r g : Prop :=
  seedStopped r g \/
  (s_complete r = true /\ s_requiresReset r = false /\ g_done g = 17 /\ s_written r = 17 /\ s_attempted r = 17).

Lemma dmac_nth i : 0 <= i < 4 ->
  nth_error (seedPlan macid) (Z.to_nat (2 * i)) =
    Some (R_AX_FILTER_MODEL_ADDR, u32 (DMAC_TBL_BASE_ADDR + Z.shiftl macid 4 + Z.shiftl i 2)) /\
  nth_error (seedPlan macid) (Z.to_nat (2 * i + 1)) = Some (R_AX_INDIR_ACCESS_ENTRY, 0).
Proof.
  intros Hi. z_cases i 0 4; split; reflexivity.
Qed.
Lemma cmac_nth i : 0 <= i < 8 ->
  nth_error (seedPlan macid) (Z.to_nat (9 + i)) = Some (R_AX_INDIR_ACCESS_ENTRY + 4 * i, nth (Z.to_nat i) cmacSeed 0).
Proof.
  intros Hi. z_cases i 0 8; reflexivity.
Qed.

Lemma seedBody_wp :
  wpm (seedRules macid) (seedBody macid) (mkSeedResult seedNone 0 0 false false 0 0) (mkSeedTrail 0 0) (fun _ r g => seedDone r g).
Proof.
  assert (Hstop : forall e a w l d st, seedDone (mkSeedResult e a w false false l d) (mkSeedTrail 0 st)) by (left; split; [reflexivity|right; reflexivity]).
  unfold seedBody, seedFail, seedNow. wstep.
  apply (wpm_mono _ _ _ _ (fun o r g => o <> None /\ r = mkSeedResult seedNone 0 0 false false 0 0 /\ g_done g = 0)).
  { wstep; [wstep; repeat split; discriminate|]. apply seedOwned_wp. intros b st _. repeat split; discriminate. }
  intros [ok|] r g (Hn & -> & Hg); [clear Hn|destruct (Hn eq_refl)]. destruct g as [? st]. cbn in Hg. subst.
  wstep. wstep; [do 3 wstep; apply Hstop|]. do 2 wstep. wstep. refine (wpm_call (seedRules macid) SeedNowUs _ _ _ I _). intros v _.
  cbn [next seedRules seedNext g_done]. wstep. do 2 wstep. wstep. wstep; [do 3 wstep; apply Hstop|]. do 2 wstep. wstep.
  match goal with |- wpm _ _ ?r ?g _ => assert (H : seeded 0 r g) by (repeat split); revert H; generalize g; generalize r end.
  intros r g H. wstep. apply (wpm_for_each _ (fun i => seeded (2 * i))); [lia|exact H| |].
  { clear r g H. intros i r g Hi H. destruct (dmac_nth i Hi) as [N1 N2]. wstep. wstep.
    eapply (seed_must (2 * i)); [lia|exact H|exact N1| |intros; left; assumption]. clear r g H. intros r g H.
    eapply (seed_must (2 * i + 1)); [lia|exact H|exact N2| |intros; left; assumption]. clear r g H. intros r g H.
    replace (2 * (i + 1)) with (2 * i + 1 + 1) by lia. exact H. }
  clear r g H. intros r g H. wstep. wstep.
  eapply (seed_must 8); [lia|exact H|reflexivity| |intros; left; assumption]. clear r g H. intros r g H. wstep.
  apply (wpm_for_each _ (fun i => seeded (9 + i))); [lia|exact H| |].
  { clear r g H. intros i r g Hi H. wstep. eapply (seed_must (9 + i)); [lia|exact H|apply cmac_nth; exact Hi| |intros; left; assumption].
    clear r g H. intros r g H. replace (9 + (i + 1)) with (9 + i + 1) by lia. exact H. }
  clear r g H. intros r g H. wstep. refine (wpm_call (seedRules macid) DrainWrites _ _ _ I _). intros d _. cbn [next seedRules seedNext].
  wstep. wstep; [do 3 wstep; left; apply (seeded_stopped 17); [lia|exact H]|]. do 2 wstep. wstep.
  eapply wpm_mono; [apply (seedCheck_wp 17); [lia|exact H]|]. clear r g H. intros o r g (b & -> & H & _).
  destruct b; [|left; apply (seeded_stopped 17); [lia|exact H]]. wstep. right. destruct H as (H1 & H2 & H3 & H4 & H5). repeat split; assumption.
Qed.
End seed.

(** Every write of the MAC table seed is made in its place in the plan, right
    after the gate, the table window and the paused scheduler were confirmed;
    complete means that all seventeen were accepted and drained, and a run
    that ends early after a write asks for a reset. *)
Lemma seed_ordered macid tr r : exec (seedMacTables macid) tr r ->
  accepts (seedRules macid) (mkSeedTrail 0 0) tr /\ seedDone r (after (seedRules macid) (mkSeedTrail 0 0) tr).
Proof.
  intros He. apply (wpm_exec (seedRules macid) (seedBody macid) _ _ seedDone tr r (seedBody_wp macid) He).
  apply relies_trivial. intros; exact I.
Qed.
