(* ===== verification/FirmwareCommands.v ===== *)
(** * The command bus of the firmware (src/network/FirmwareCommands.hpp)

    One allocator of the 256 command sequence numbers and one router of the
    acknowledgements, shared by every producer of commands.  The receivers of
    acknowledgements are callbacks which may call the bus again: what one
    invocation does, the bus calls it makes and the value it returns, is the
    answer to the operation that invokes it, so that statements about all
    answers cover every reentrant client. *)

From stdpp Require Import gmap.
From S2P Require Import Prelude Prog Descriptors DataPath Protocol.

(** ** Data *)

(** Owner and function pointer, 0 is null. *)
Record CommandReceiver := mkReceiver { r_owner : Z; r_event : Z }.
Definition noReceiver : CommandReceiver := mkReceiver 0 0.

Inductive CommandError :=
| noError | clockError | timeoutError | transportError | receiverError | firmwareRejected | exhausted | invalidated.
#[export] Instance CommandError_eq_dec : EqDecision CommandError. Proof. solve_decision. Defined.
Inductive CommandEvent := unrelated | received | completed | fault.
Inductive CommandState := unused | reserved | pending | complete.
#[export] Instance CommandState_eq_dec : EqDecision CommandState. Proof. solve_decision. Defined.

Record CommandRecord := mkRecord {
  state : CommandState; id : CommandId; receiver : CommandReceiver; token : Z; deadline : Z;
  receiveAck : bool; doneAck : bool; wasReceived : bool
}.
Definition newRecord : CommandRecord := mkRecord unused (mkCommandId 0 0 0) noReceiver 0 0 false false false.

(** [packet_] only holds the bytes between [submit] and [publish]. *)
Record Bus := mkBus {
  epoch : Z; records : list CommandRecord; next_ : Z; lastTime : Z; clockStarted : bool;
  publishing : bool; delivering : bool; error : CommandError
}.
#[export] Instance Bus_rebuild : Rebuild Bus := fun b =>
  mkBus (epoch b) (records b) (next_ b) (lastTime b) (clockStarted b) (publishing b) (delivering b) (error b).
Definition newBus (verifiedEpoch : Z) : Bus := mkBus verifiedEpoch (replicate 256 newRecord) 0 0 false false false noError.
Definition packetSize : Z := 16383.

(** ** The interface *)

Inductive BusCall :=
| CReserve (r : CommandReceiver) (token timeoutUs : Z)
| CPublish (bytes : option buf)
| CSubmit (id : CommandId) (receiveAck doneAck : bool) (payload : option buf) (r : CommandReceiver) (token timeoutUs : Z)
| CAccept (event : FirmwareEvent) (receiveEpoch : Z)
| CService | CInvalidate.

Inductive busOp :=
| InGate | BusNowUs | Publish (bytes : buf)
| Notify (r : CommandReceiver) (event : FirmwareEvent) (epoch token : Z).
Definition busAns (o : busOp) : Type :=
  match o with
  | InGate => bool | BusNowUs => Z | Publish _ => bool
  | Notify _ _ _ _ => list BusCall * bool
  end.
Definition BusIo : sig := Sig busOp busAns.
Definition C (A : Type) : Type := M BusIo Bus A.
Definition bcall (o : busOp) : C (busAns o) := call (Σ:=BusIo) o.

Definition recordAt (b : Bus) (i : Z) : CommandRecord := nth (Z.to_nat i) (records b) newRecord.
Definition setRecord (i : Z) (r : CommandRecord) (b : Bus) : Bus :=
  mkBus (epoch b) (<[Z.to_nat i := r]> (records b)) (next_ b) (lastTime b) (clockStarted b) (publishing b) (delivering b) (error b).

(** ** Operations *)

Definition fail (e : CommandError) : C unit :=
  modify (fun b => if bool_decide (error b = noError) then b <| error := e |> else b).

Definition outstanding (r : CommandRecord) : bool := bool_decide (state r = reserved) || bool_decide (state r = pending).
Definition check : C bool :=
  b ← get;
  if (epoch b =? 0) || bool_decide (error b <> noError) then mret false else
  g ← bcall InGate;
  if negb g then mret false else
  v ← bcall BusNowUs;
  let now := u64 v in
  if clockStarted b && (now <? lastTime b) then fail clockError;; mret false else
  modify (fun b => b <| lastTime := now |> <| clockStarted := true |>);;
  if existsb (fun r => outstanding r && (deadline r <=? now)) (records b) then fail timeoutError;; mret false
  else mret true.

Definition invalidate : C unit := fail invalidated.
Definition service : C bool := check.

(** The sequence is 0 when the answer is false before one is allocated. *)
Definition reserve (r : CommandReceiver) (token timeoutUs : Z) : C (bool * Z) :=
  b ← get;
  ok ← (if publishing b then mret false else check);
  b ← get;
  if negb ok || (timeoutUs =? 0) || (10000000 <? timeoutUs) || negb (Bool.eqb (negb (r_owner r =? 0)) (negb (r_event r =? 0))) ||
     (0xffffffffffffffff - lastTime b <? timeoutUs) then mret (false, 0) else
  if next_ b =? 0xffffffff then fail exhausted;; mret (false, 0) else
  if outstanding (recordAt b (u8 (next_ b))) then fail exhausted;; mret (false, 0) else
  let sequence := u8 (next_ b) in
  modify (fun b => setRecord sequence
    (mkRecord reserved (mkCommandId 0 0 0) r token (lastTime b + timeoutUs) false false false) (b <| next_ := u32 (next_ b + 1) |>));;
  mret (true, sequence).

(** The identity in a header word; [publish] takes it from the bytes. *)
Definition headerId (w0 : Z) : CommandId :=
  mkCommandId (Z.land w0 3) (Z.land (Z.shiftr w0 2) 63) (u8 (Z.shiftr w0 8)).

Definition publishRecord (sequence w0 w1 : Z) (r : CommandRecord) : CommandRecord :=
  mkRecord (state r) (headerId w0) (receiver r) (token r) (deadline r) (flag w1 0x4000) (flag w1 0x8000) (wasReceived r).
Definition withState (st : CommandState) (r : CommandRecord) : CommandRecord :=
  mkRecord st (id r) (receiver r) (token r) (deadline r) (receiveAck r) (doneAck r) (wasReceived r).
Definition markReceived (r : CommandRecord) : CommandRecord :=
  mkRecord (state r) (id r) (receiver r) (token r) (deadline r) (receiveAck r) (doneAck r) true.

Definition publish (bytes : option buf) : C bool :=
  b ← get;
  ok ← (if publishing b then mret false else check);
  match bytes with
  | None => mret false
  | Some bytes =>
    if negb ok || (zlen bytes <? 8) || (packetSize <? zlen bytes) then mret false else
    let w0 := le32_at bytes 0 in let w1 := le32_at bytes 4 in
    let sequence := u8 (Z.shiftr w0 24) in
    if flag w0 0x00ff0000 || flag w1 0xffff0000 || negb (Z.land w1 0x3fff =? zlen bytes) then mret false else
    b ← get;
    let r := recordAt b sequence in
    if negb (bool_decide (state r = reserved)) then mret false else
    let r := publishRecord sequence w0 w1 r in
    modify (setRecord sequence r);;
    if negb (r_event (receiver r) =? 0) && negb (receiveAck r) && negb (doneAck r) then mret false else
    modify (fun b => (setRecord sequence (withState pending r) b) <| publishing := true |>);;
    ok ← bcall (Publish bytes);
    modify (fun b => b <| publishing := false |>);;
    if negb ok then fail transportError;; mret false else
    ok ← check;
    if negb ok then mret false else
    (if negb (receiveAck r) && negb (doneAck r)
     then modify (fun b => setRecord sequence (withState complete (recordAt b sequence)) b) else mret tt);;
    mret true
  end.

Definition submit (id : CommandId) (receiveAck doneAck : bool) (payload : option buf) (r : CommandReceiver)
    (token timeoutUs : Z) : C (bool * Z) :=
  b ← get;
  let length := match payload with Some p => zlen p | None => 0 end in
  if publishing b || (3 <? category id) || (63 <? commandClass id) || (packetSize - 8 <? length) then mret (false, 0) else
  if negb (r_event r =? 0) && negb receiveAck && negb doneAck then mret (false, 0) else
  s ← reserve r token timeoutUs;
  if negb s.1 then mret (false, s.2) else
  match encodeH2c id s.2 receiveAck doneAck (match payload with Some p => Payload p | None => NullPtr end) length
          (Some (zeros packetSize)) packetSize with
  | MVal (packet, encoded) => ok ← publish (Some (take (Z.to_nat encoded) packet)); mret (ok, s.2)
  | _ => mret (false, s.2)
  end.

(** ** Acknowledgements *)

(** [callback] runs the calls a receiver makes. *)
Definition deliver (callback : list BusCall -> C unit) (sequence : Z) (event : FirmwareEvent) : C bool :=
  b ← get;
  let r := recordAt b sequence in
  if r_event (receiver r) =? 0 then mret true else
  modify (fun b => b <| delivering := true |>);;
  x ← bcall (Notify (receiver r) event (epoch b) (token r));
  callback x.1;;
  modify (fun b => b <| delivering := false |>);;
  (if (x.2 : bool) then mret true else fail receiverError;; mret false) &&> check.

Definition completion (callback : list BusCall -> C unit) (sequence : Z) (event : FirmwareEvent) : C CommandEvent :=
  ok ← deliver callback sequence event; mret (if (ok : bool) then completed else fault).

(** An event whose payload holds fewer bytes than its length is outside the model. *)
Definition accept (callback : list BusCall -> C unit) (event : FirmwareEvent) (receiveEpoch : Z) : C CommandEvent :=
  b ← get;
  if negb (receiveEpoch =? epoch b) then mret unrelated else
  if publishing b || delivering b then fail receiverError;; mret fault else
  ok ← check;
  if negb ok then mret fault else
  match decodeAck event with
  | MVal ack =>
    b ← get;
    let sequence := ack_sequence ack in
    let r := recordAt b sequence in
    if negb (bool_decide (state r = pending)) || negb (sameCommand (command ack) (id r)) then mret unrelated else
    if done ack then
      if negb (doneAck r) then mret unrelated else
      modify (setRecord sequence (withState complete r));;
      if negb (returnCode ack =? 0) then fail firmwareRejected;; _ ← deliver callback sequence event; mret fault
      else completion callback sequence event
    else
      if negb (receiveAck r) || wasReceived r then mret unrelated else
      if doneAck r then modify (setRecord sequence (markReceived r));; mret received
      else modify (setRecord sequence (withState complete (markReceived r)));; completion callback sequence event
  | _ => mret unrelated
  end.

(** One call of a client. *)
Definition doCall (callback : list BusCall -> C unit) (c : BusCall) : C unit :=
  match c with
  | CReserve r token timeoutUs => _ ← reserve r token timeoutUs; mret tt
  | CPublish bytes => _ ← publish bytes; mret tt
  | CSubmit id receiveAck doneAck payload r token timeoutUs => _ ← submit id receiveAck doneAck payload r token timeoutUs; mret tt
  | CAccept event receiveEpoch => _ ← accept callback event receiveEpoch; mret tt
  | CService => _ ← service; mret tt
  | CInvalidate => invalidate
  end.
Fixpoint doCalls (callback : list BusCall -> C unit) (l : list BusCall) : C unit :=
  match l with [] => mret tt | c :: l => doCall callback c;; doCalls callback l end.

(** Inside a callback [delivering] is set, so that a nested [accept] faults
    before it would deliver: its own callback never runs. *)
Definition nested : list BusCall -> C unit := doCalls (fun _ => mret tt).
Definition session (l : list BusCall) : C unit := doCalls nested l.

(** ** The binding of one client *)

Record CommandClient := mkClient { cl_receiver : CommandReceiver; cl_token : Z; cl_timeout : Z }.
Definition clientAvailable : C bool := service.
Definition clientSubmit (c : CommandClient) (id : CommandId) (done : bool) (data : option buf) : C (bool * Z) :=
  submit id false done data (if done then cl_receiver c else noReceiver) (cl_token c) (cl_timeout c).
Definition clientInvalidate : C unit := invalidate.

(** ** What the bus guarantees *)

(** The sequences published whose acknowledgement was not delivered yet, the
    identity and the requested acknowledgements of the latest publication of
    each, the last answer of the gate, the last reading of the clock, and
    whether a failure was seen. *)
Record Trail := mkTrail {
  live : gset Z; header : gmap Z (CommandId * bool * bool); gate : bool; time : option Z; dead : bool
}.
Definition newTrail : Trail := mkTrail ∅ ∅ false None false.

Definition sequenceOf (bytes : buf) : Z := u8 (Z.shiftr (le32_at bytes 0) 24).
Definition wellFormed (bytes : buf) : Prop :=
  8 <= zlen bytes <= packetSize /\ Z.land (le32_at bytes 4) 0x3fff = zlen bytes /\
  flag (le32_at bytes 0) 0x00ff0000 = false /\ flag (le32_at bytes 4) 0xffff0000 = false.
(** The acknowledgement a delivery carries was asked for by the publication it answers. *)
Definition answers (g : Trail) (ack : FirmwareAck) : Prop :=
  exists i r d, header g !! ack_sequence ack = Some (i, r, d) /\ ack_sequence ack ∈ live g /\
    sameCommand (command ack) i = true /\ (if done ack then d = true else r = true /\ d = false).

Definition busMay (verified : Z) (g : Trail) (o : busOp) : Prop :=
  match o with
  | InGate => True
  | BusNowUs => gate g = true /\ dead g = false
  | Publish bytes => gate g = true /\ dead g = false /\ wellFormed bytes
  | Notify r event epoch _ => gate g = true /\ dead g = false /\ epoch = verified /\ r_event r <> 0 /\
      exists ack, decodeAck event = MVal ack /\ answers g ack
  end.
Definition busNext (g : Trail) (o : busOp) : busAns o -> Trail :=
  match o with
  | InGate => fun x => mkTrail (live g) (header g) x (time g) (dead g)
  | BusNowUs => fun v => mkTrail (live g) (header g) (gate g) (Some (u64 v))
      (dead g || match time g with Some t => u64 v <? t | None => false end)
  | Publish bytes => fun ok =>
      let s := sequenceOf bytes in let w1 := le32_at bytes 4 in
      mkTrail ({[s]} ∪ live g) (<[s := (headerId (le32_at bytes 0), flag w1 0x4000, flag w1 0x8000)]> (header g)) (gate g) (time g)
        (dead g || negb ok)
  | Notify _ event _ _ => fun _ =>
      match decodeAck event with
      | MVal ack => mkTrail (live g ∖ {[ack_sequence ack]}) (header g) (gate g) (time g) (dead g || (done ack && negb (returnCode ack =? 0)))
      | _ => g
      end
  end.
Definition rules (verified : Z) : protocol BusIo Trail := Protocol (Σ:=BusIo) (busMay verified) (fun _ _ _ => True) busNext.

Section bus.
Context (verified : Z).
Implicit Types (b : Bus) (g : Trail).

Definition tied b g : Prop := forall s, 0 <= s < 256 -> state (recordAt b s) = pending ->
  s ∈ live g /\ header g !! s = Some (id (recordAt b s), receiveAck (recordAt b s), doneAck (recordAt b s)).
Definition good b g : Prop :=
  epoch b = verified /\ List.length (records b) = 256%nat /\ tied b g /\ publishing b = false /\
  (dead g = true -> error b <> noError) /\
  (error b = noError -> time g = if clockStarted b then Some (lastTime b) else None).
(** Right after a successful [check]. *)
Definition checked b g : Prop := good b g /\ error b = noError /\ gate g = true.

Lemma checked_alive b g : checked b g -> dead g = false.
Proof. intros (H & He & _). destruct (dead g) eqn:E; [|reflexivity]. exfalso. apply H in E. contradiction. Qed.

Lemma recordAt_set b i j r : List.length (records b) = 256%nat -> 0 <= i < 256 -> 0 <= j ->
  recordAt (setRecord i r b) j = if j =? i then r else recordAt b j.
Proof.
  intros Hl Hi Hj. unfold recordAt, setRecord. cbn [records]. rewrite nth_insert_Z by (unfold zlen; lia). reflexivity.
Qed.

Ltac good H1 H2 H3 H4 := refine (conj H1 (conj H2 (conj H3 (conj H4 (conj _ _))))).

Lemma fail_good e : e <> noError -> stays (rules verified) good (fail e).
Proof.
  intros He. apply stays_modify. intros b g (H1 & H2 & H3 & H4 & H5 & H6). case_bool_decide as E.
  - good H1 H2 H3 H4; intros H; [exact He|destruct (He H)].
  - good H1 H2 H3 H4; assumption.
Qed.

Lemma busFail_wp e b g (Q : option unit -> Bus -> Trail -> Prop) : e <> noError -> good b g ->
  (forall b', good b' g -> error b' <> noError -> records b' = records b -> Q (Some tt) b' g) ->
  wpm (rules verified) (fail e) b g Q.
Proof.
  intros He H HQ. pose proof (fail_good e He b g H) as Hf. unfold fail in *. apply wpm_modify.
  apply HQ; [exact Hf| |case_bool_decide; reflexivity]. case_bool_decide as E; [exact He|exact E].
Qed.

Lemma busCheck_wp b g : good b g -> wpm (rules verified) check b g (fun o b' g' =>
  exists x : bool, o = Some x /\ good b' g' /\ records b' = records b /\ next_ b' = next_ b /\ epoch b' = epoch b /\
    live g' = live g /\ header g' = header g /\ (x = true -> checked b' g')).
Proof.
  intros H. unfold check. wstep. wstep. wstep.
  { wstep. exists false. split; [reflexivity|]. split; [exact H|]. repeat split; discriminate. }
  apply orb_false_iff in Heqb0 as [_ He]. apply bool_decide_eq_false in He. assert (He' : error b = noError) by (destruct (decide (error b = noError)); [assumption|contradiction]).
  wstep. refine (wpm_call (rules verified) InGate b g _ I _). intros x _. cbn [next rules busNext].
  assert (H1 : good b (mkTrail (live g) (header g) x (time g) (dead g))) by exact H. wstep.
  { wstep. exists false. split; [reflexivity|]. split; [exact H1|]. repeat split; discriminate. }
  destruct x; [|discriminate]. wstep.
  refine (wpm_call (rules verified) BusNowUs b _ _ _ _).
  { split; [reflexivity|]. cbn. destruct (dead g) eqn:E; [|reflexivity]. exfalso. apply H in E. contradiction. }
  intros v _. cbn [next rules busNext live header gate time dead]. destruct H as (G1 & G2 & G3 & G4 & G5 & G6). rewrite (G6 He'). wstep.
  - apply andb_true_iff in Heqb1 as [Hc Hv]. rewrite Hc. unfold fail. do 2 wstep. wstep. exists false. split; [reflexivity|].
    rewrite bool_decide_true by exact He'. split; [|repeat split; discriminate]. good G1 G2 G3 G4; cbn; discriminate.
  - assert (Hd : dead g || match (if clockStarted b then Some (lastTime b) else None) with Some t => u64 v <? t | None => false end = false).
    { destruct (dead g) eqn:E; [destruct (G5 eq_refl He')|]. destruct (clockStarted b); [exact Heqb1|reflexivity]. }
    rewrite Hd. do 2 wstep. wstep.
    + unfold fail. do 2 wstep. wstep. exists false. split; [reflexivity|].
      split; [|repeat split; try discriminate; cbn; case_bool_decide; reflexivity].
      cbn [error]. rewrite bool_decide_true by exact He'. good G1 G2 G3 G4; cbn; discriminate.
    + wstep. exists true. split; [reflexivity|].
      assert (Hg : good ((b <| lastTime := u64 v |>) <| clockStarted := true |>) (mkTrail (live g) (header g) true (Some (u64 v)) false)).
      { good G1 G2 G3 G4; cbn; [discriminate|reflexivity]. }
      split; [exact Hg|]. do 5 (split; [reflexivity|]). intros _. split; [exact Hg|]. split; [exact He'|reflexivity].
Qed.
Lemma check_good : stays (rules verified) good check.
Proof. intros b g H. eapply wpm_mono; [apply busCheck_wp; exact H|]. intros o b' g' (x & -> & H' & _). exact H'. Qed.

Lemma good_set s r b g : 0 <= s < 256 -> good b g ->
  (state r = pending -> s ∈ live g /\ header g !! s = Some (id r, receiveAck r, doneAck r)) -> good (setRecord s r b) g.
Proof.
  intros Hs (H1 & H2 & H3 & H4 & H5 & H6) Hr. refine (conj H1 (conj _ (conj _ (conj H4 (conj H5 H6))))).
  - cbn. rewrite length_insert. exact H2.
  - intros j Hj Hp. rewrite recordAt_set in Hp |- * by (auto; lia). destruct (Z.eqb_spec j s) as [->|]; [apply Hr; exact Hp|apply H3; assumption].
Qed.

(** A new command takes a record nobody waits for. *)
Lemma reserve_wp r token timeoutUs b g : good b g -> wpm (rules verified) (reserve r token timeoutUs) b g (fun o b' g' =>
  good b' g' /\ exists (ok : bool) s, o = Some (ok, s) /\ in_u8 s /\
    (ok = true -> checked b' g' /\ outstanding (recordAt b s) = false /\
       recordAt b' s = mkRecord reserved (mkCommandId 0 0 0) r token (lastTime b' + timeoutUs) false false false)).
Proof.
  intros H. unfold reserve. wstep. wstep. wstep.
  apply (wpm_mono _ _ _ _ (fun o b' g' => exists ok : bool, o = Some ok /\ good b' g' /\ records b' = records b /\ (ok = true -> checked b' g'))).
  { wstep; [wstep; exists false; split; [reflexivity|]; split; [exact H|]; split; [reflexivity|discriminate]|].
    eapply wpm_mono; [apply busCheck_wp; exact H|]. intros o b' g' (x & -> & H' & E & _ & _ & _ & _ & Hc). eauto 10. }
  intros o b1 g1 (ok & -> & H1 & Hr & Hc). wstep. wstep. wstep.
  { wstep. split; [exact H1|]. exists false, 0. split; [reflexivity|]. split; [zlia|discriminate]. }
  destruct ok; [|discriminate]. specialize (Hc eq_refl). clear Heqb0.
  assert (Hex : forall (Q : option (bool * Z) -> Bus -> Trail -> Prop), (forall b' g', good b' g' -> Q (Some (false, 0)) b' g') ->
    wpm (rules verified) (fail exhausted;; mret (false, 0)) b1 g1 Q).
  { intros Q HQ. wstep. apply busFail_wp; [discriminate|exact H1|]. intros b2 H2 _ _. wstep. apply HQ. exact H2. }
  assert (Hno : forall b' g', good b' g' -> good b' g' /\ exists (ok : bool) s, Some (false, 0) = Some (ok, s) /\ in_u8 s /\
    (ok = true -> checked b' g' /\ outstanding (recordAt b s) = false /\
       recordAt b' s = mkRecord reserved (mkCommandId 0 0 0) r token (lastTime b' + timeoutUs) false false false)).
  { intros b' g' Hg. split; [exact Hg|]. exists false, 0. split; [reflexivity|]. split; [zlia|discriminate]. }
  wstep; [apply Hex; exact Hno|]. wstep; [apply Hex; exact Hno|]. cbv zeta. do 2 wstep. wstep.
  pose proof (u8_range (next_ b1)) as Hs.
  destruct H1 as (A1 & A2 & A3 & A4 & A5 & A6).
  assert (H2 : good (b1 <| next_ := u32 (next_ b1 + 1) |>) g1) by (good A1 A2 A3 A4; assumption).
  match goal with |- good (setRecord _ ?rec ?b0) _ /\ _ => assert (H3 : good (setRecord (u8 (next_ b1)) rec b0) g1) by (apply good_set; [exact Hs|exact H2|discriminate]) end.
  split; [exact H3|]. exists true, (u8 (next_ b1)). split; [reflexivity|]. split; [exact Hs|]. intros _.
  split; [split; [exact H3|apply Hc]|]. split; [unfold recordAt in *; rewrite <- Hr; assumption|].
  rewrite recordAt_set by (auto; unfold in_u8 in *; lia). rewrite Z.eqb_refl. reflexivity.
Qed.
Lemma reserve_good r token timeoutUs : stays (rules verified) good (reserve r token timeoutUs).
Proof. intros b g H. eapply wpm_mono; [apply reserve_wp; exact H|]. intros o b' g' [H' _]. exact H'. Qed.

Lemma publish_good bytes : stays (rules verified) good (publish bytes).
Proof.
  intros b g H. unfold publish. wstep. wstep. wstep.
  apply (wpm_mono _ _ _ _ (fun o b' g' => exists ok : bool, o = Some ok /\ good b' g' /\ (ok = true -> checked b' g'))).
  { wstep; [wstep; exists false; split; [reflexivity|]; split; [exact H|discriminate]|].
    eapply wpm_mono; [apply busCheck_wp; exact H|]. intros o b' g' (x & -> & H' & E & _ & _ & _ & _ & Hc). eauto 10. }
  clear b g H. intros o b g (ok & -> & H & Hc). destruct bytes as [bytes|]; [|wstep; exact H]. wstep; [wstep; exact H|].
  destruct ok; [|discriminate]. specialize (Hc eq_refl). apply orb_false_iff in Heqb0 as [L1 L2]. apply orb_false_iff in L1 as [_ L1].
  cbv zeta. wstep; [wstep; exact H|]. apply orb_false_iff in Heqb0 as [W1 W3]. apply orb_false_iff in W1 as [W1 W2].
  assert (Hw : wellFormed bytes) by (repeat split; try assumption; lia).
  wstep. wstep. set (w0 := le32_at bytes 0) in *. set (w1 := le32_at bytes 4) in *.
  pose proof (u8_range (Z.shiftr w0 24)) as Hs. set (s := u8 (Z.shiftr w0 24)) in *.
  wstep; [wstep; exact H|]. apply negb_false_iff, bool_decide_eq_true in Heqb0. wstep. wstep.
  set (r := publishRecord s w0 w1 (recordAt b s)). cbv zeta in *.
  assert (H1 : good (setRecord s r b) g) by (apply good_set; [exact Hs|exact H|cbn; congruence]).
  wstep; [wstep; exact H1|]. do 2 wstep.
  assert (Hd : dead g = false) by (eapply checked_alive; exact Hc). wstep.
  refine (wpm_call (rules verified) (Publish bytes) _ _ _ _ _).
  { split; [apply Hc|]. split; [exact Hd|exact Hw]. }
  intros ok _. cbn [next rules busNext]. cbv zeta. fold w0 w1. change (sequenceOf bytes) with s. do 2 wstep.
  match goal with |- wpm _ _ ?b0 _ _ => set (b2 := b0) end.
  assert (H2 : forall d, (d = true -> error b2 <> noError) ->
    good b2 (mkTrail ({[s]} ∪ live g) (<[s:=(headerId w0, flag w1 0x4000, flag w1 0x8000)]> (header g)) (gate g) (time g) d)).
  { intros d Hde. destruct H1 as (A1 & A2 & A3 & A4 & A5 & A6). refine (conj A1 (conj _ (conj _ (conj eq_refl (conj Hde A6))))).
    - cbn. rewrite !length_insert. apply H.
    - intros j Hj. change (recordAt b2 j) with (recordAt (setRecord s (withState pending r) (setRecord s r b)) j).
      rewrite recordAt_set by (try exact A2; unfold in_u8 in Hs; lia).
      destruct (Z.eqb_spec j s) as [->|Hne]; cbn [live header].
      + intros _. split; [apply elem_of_union; left; apply elem_of_singleton; reflexivity|]. rewrite lookup_insert_eq. reflexivity.
      + intros Hp. destruct (A3 j Hj Hp) as [L M]. split; [apply elem_of_union; right; exact L|]. rewrite lookup_insert_ne by congruence. exact M. }
  rewrite Hd. wstep.
  - destruct ok; [discriminate|]. cbn [negb orb]. wstep. unfold fail. wstep. wstep.
    assert (H3 := H2 false ltac:(discriminate)). destruct H3 as (A1 & A2 & A3 & A4 & A5 & A6).
    case_bool_decide as E; [good A1 A2 A3 A4; cbn; discriminate|]. refine (conj A1 (conj A2 (conj A3 (conj A4 (conj _ A6))))). intros _. exact E.
  - destruct ok; [|discriminate]. cbn [negb orb]. wstep. eapply wpm_mono; [apply busCheck_wp; apply H2; discriminate|].
    intros o b3 g3 (x & -> & H3 & R1 & _ & _ & L1' & L2' & _). wstep; [wstep; exact H3|]. wstep. wstep.
    + wstep. wstep. apply good_set; [exact Hs|exact H3|discriminate].
    + do 2 wstep. exact H3.
Qed.

Lemma submit_good i ra da payload r token timeoutUs : stays (rules verified) good (submit i ra da payload r token timeoutUs).
Proof.
  unfold submit. stays; [apply reserve_good|]. destruct (encodeH2c _ _ _ _ _ _ _ _) as [[packet n]|e|]; [|stays..].
  stays. apply publish_good.
Qed.

(** ** Deliveries *)

Lemma decodeAck_sequence event ack : decodeAck event = MVal ack -> in_u8 (ack_sequence ack).
Proof. unfold decodeAck. intros H. minv H. destruct (ev_payload event); [|discriminate]. minv H. subst ack. apply u8_range. Qed.

Section callback.
Context (callback : list BusCall -> C unit) (Hcall : forall l, stays (rules verified) good (callback l)).

Lemma deliver_good event ack b g : decodeAck event = MVal ack -> good b g -> gate g = true -> dead g = false -> answers g ack ->
  state (recordAt b (ack_sequence ack)) = complete -> (done ack && negb (returnCode ack =? 0) = true -> error b <> noError) ->
  wpm (rules verified) (deliver callback (ack_sequence ack) event) b g (fun _ => good).
Proof.
  intros Ha H Hg Hd Hans Hst Her. unfold deliver. wstep. wstep. cbv zeta. wstep; [wstep; exact H|]. do 2 wstep. wstep.
  refine (wpm_call (rules verified) (Notify _ _ _ _) _ _ _ _ _).
  { split; [exact Hg|]. split; [exact Hd|]. split; [apply H|]. split; [lia|]. eauto. }
  intros x _. change (list BusCall * bool)%type in x. cbn [next rules busNext]. rewrite Ha, Hd. cbn [orb].
  assert (H1 : good (b <| delivering := true |>) (mkTrail (live g ∖ {[ack_sequence ack]}) (header g) (gate g) (time g) (done ack && negb (returnCode ack =? 0)))).
  { destruct H as (A1 & A2 & A3 & A4 & A5 & A6). refine (conj A1 (conj A2 (conj _ (conj A4 (conj Her A6))))).
    intros j Hj Hp. destruct (A3 j Hj Hp) as [L M]. split; [|exact M]. cbn [live]. apply elem_of_difference. split; [exact L|].
    intros E%elem_of_singleton. subst j. change (state (recordAt b (ack_sequence ack)) = pending) in Hp. congruence. }
  clear H Hg Hd Hans Hst Her Heqb0. revert H1. match goal with |- good ?b0 ?g0 -> _ => generalize g0; generalize b0 end. clear b g. intros b g H.
  wstep. apply (stays_wpm (rules verified) good); [apply Hcall|exact H|]. clear b g H. intros [[]|] b g H; [|exact H].
  do 2 wstep. wstep.
  assert (H1 : good (b <| delivering := false |>) g) by exact H.
  wstep; [wstep; apply check_good; exact H1|].
  wstep. apply busFail_wp; [discriminate|exact H1|]. intros b' H' _ _. wstep. exact H'.
Qed.

Lemma accept_good event receiveEpoch : stays (rules verified) good (accept callback event receiveEpoch).
Proof.
  intros b g H. unfold accept. wstep. wstep. wstep; [wstep; exact H|]. wstep.
  { wstep. apply busFail_wp; [discriminate|exact H|]. intros b' H' _ _. wstep. exact H'. }
  wstep. eapply wpm_mono; [apply busCheck_wp; exact H|]. clear H. intros o b' g' (x & -> & H & _ & _ & _ & _ & _ & Hc).
  wstep; [wstep; exact H|]. destruct x; [|discriminate]. specialize (Hc eq_refl).
  clear Heqb0 Heqb1. destruct (decodeAck event) as [ack|e|] eqn:Ha; [|wstep; exact H..]. pose proof (decodeAck_sequence _ _ Ha) as Hs.
  wstep. wstep. cbv zeta. wstep; [wstep; exact H|].
  apply orb_false_iff in Heqb0 as [E1 E2]. apply negb_false_iff, bool_decide_eq_true in E1. apply negb_false_iff in E2.
  destruct Hc as (_ & He & Hg). pose proof (checked_alive b' g' (conj H (conj He Hg))) as Hd.
  assert (Ht : ack_sequence ack ∈ live g' /\ header g' !! ack_sequence ack =
     Some (id (recordAt b' (ack_sequence ack)), receiveAck (recordAt b' (ack_sequence ack)), doneAck (recordAt b' (ack_sequence ack))))
    by (apply H; [exact Hs|exact E1]).
  destruct Ht as [Hl Hh]. set (s := ack_sequence ack) in *. set (r := recordAt b' s) in *.
  assert (Hans : (if done ack then doneAck r = true else receiveAck r = true /\ doneAck r = false) -> answers g' ack).
  { intros Hx. exists (id r), (receiveAck r), (doneAck r). auto. }
  assert (Hset : forall r', state r' = complete -> good (setRecord s r' b') g') by (intros r' Hr'; apply good_set; [exact Hs|exact H|congruence]).
  assert (Hat : forall r', recordAt (setRecord s r' b') s = r').
  { intros r'. rewrite recordAt_set; [rewrite Z.eqb_refl; reflexivity|apply H|exact Hs|apply Hs]. }
  destruct (done ack) eqn:Ed.
  - wstep; [wstep; exact H|]. apply negb_false_iff in Heqb0. do 2 wstep. wstep.
    + wstep. apply busFail_wp; [discriminate|apply Hset; reflexivity|]. intros b2 H2 Hne Hr2. wstep.
      eapply wpm_mono; [apply (deliver_good event ack b2 g' Ha H2 Hg Hd (Hans Heqb0)); [|intros _; exact Hne]|].
      * unfold recordAt. rewrite Hr2. fold (recordAt (setRecord s (withState complete r) b') (ack_sequence ack)). fold s. rewrite Hat. reflexivity.
      * intros [z|] b3 g3 H3; [wstep; exact H3|exact H3].
    + unfold completion. wstep. eapply wpm_mono; [apply (deliver_good event ack _ _ Ha (Hset (withState complete r) eq_refl) Hg Hd (Hans Heqb0))|].
      * fold s. rewrite Hat. reflexivity.
      * rewrite Ed, Heqb1. discriminate.
      * intros [z|] b3 g3 H3; [wstep; exact H3|exact H3].
  - wstep; [wstep; exact H|]. apply orb_false_iff in Heqb0 as [F1 F2]. apply negb_false_iff in F1. wstep.
    + do 2 wstep. wstep. apply good_set; [exact Hs|exact H|]. intros _. cbn. split; [exact Hl|rewrite Heqb0; exact Hh].
    + do 2 wstep. unfold completion. wstep. eapply wpm_mono; [apply (deliver_good event ack _ _ Ha (Hset (withState complete (markReceived r)) eq_refl) Hg Hd (Hans (conj F1 eq_refl)))|].
      * fold s. rewrite Hat. reflexivity.
      * rewrite Ed. discriminate.
      * intros [z|] b3 g3 H3; [wstep; exact H3|exact H3].
Qed.

Lemma doCalls_good l : stays (rules verified) good (doCalls callback l).
Proof.
  induction l as [|c l IH]; cbn [doCalls]; stays.
  destruct c; cbn [doCall]; stays; auto using reserve_good, publish_good, submit_good, accept_good.
  - apply check_good.
  - apply fail_good. discriminate.
Qed.
End callback.

Lemma session_good l : stays (rules verified) good (session l).
Proof.
  apply doCalls_good. intros l'. apply doCalls_good. intros l''. stays.
Qed.

Lemma new_good : good (newBus verified) newTrail.
Proof.
  refine (conj eq_refl (conj _ (conj _ (conj eq_refl (conj _ _))))).
  - reflexivity.
  - intros s Hs Hp. exfalso. unfold recordAt, newBus in Hp. cbn [records] in Hp.
    destruct (nth_in_or_default (Z.to_nat s) (replicate 256 newRecord) newRecord) as [Hin|E]; [|rewrite E in Hp; discriminate].
    apply list_elem_of_In, elem_of_replicate in Hin as [E _]. rewrite E in Hp. discriminate.
  - discriminate.
  - reflexivity.
Qed.
End bus.


(** ** A concrete session *)

(** A transport that accepts everything; the receiver of the first
    acknowledgement submits a second command. *)
Definition secondCommand : BusCall := CSubmit (mkCommandId 1 6 0) false true (Some [7; 7; 7; 7]) (mkReceiver 1 1) 9 1000.
Definition host : handler BusIo Z := fun d o =>
  match o as o return Ans BusIo o * Z with
  | InGate => (true, d)
  | BusNowUs => (d, d + 1)
  | Publish _ => (true, d)
  | Notify _ _ _ token => ((if token =? 8 then [secondCommand] else [], true), d)
  end.
Definition ackOf (category cls func sequence : Z) : FirmwareEvent :=
  mkEvent (mkCommandId 1 0 1) (Some [Z.lor category (Z.shiftl cls 2); func; 0; sequence]) 4.
Definition sampleCalls : list BusCall :=
  [CSubmit (mkCommandId 1 5 2) false true (Some [1; 2; 3; 4]) (mkReceiver 1 1) 8 1000;
   CAccept (ackOf 1 5 2 0) 77; CAccept (ackOf 1 6 0 1) 77; CAccept (ackOf 1 6 0 1) 77].
Definition sampleSession := run_trace host (final_state (session sampleCalls) (newBus 77)) 100.
Example sampleSession_ok :
  let b := sampleSession.1.1 in
  error b = noError /\ next_ b = 2 /\ state (recordAt b 0) = complete /\ state (recordAt b 1) = complete.
Proof. vm_compute. auto. Qed.

