(* ===== verification/Programmer.v ===== *)
(** * Programming the station tables (class Programmer of src/network/StationTables.hpp)

    The programmer submits the commands of a plan one after the other through
    the shared command bus and tells its owner how the plan ended.  The bus is
    an interface here; what the programmer relies on of it, one delivery per
    accepted submission, is what FirmwareCommands.v proves. *)

From S2P Require Import Prelude Prog Descriptors DataPath Protocol.
From S2P Require Station.
From S2P Require Import StationFields StationTables.

Inductive ProgramState := pIdle | pPending | pComplete | pFailed.
#[export] Instance ProgramState_eq_dec : EqDecision ProgramState. Proof. solve_decision. Defined.
Inductive ProgramError := pNone | pBus | pFirmware | pCompletion | pCancelled.
(** Owner and function pointer, 0 is null. *)
Record Completion := mkCompletion { co_owner : Z; co_finished : Z }.

Record Programmer := mkProgrammer {
  plan_ : Plan; index_ : Z; token_ : Station.Token; completion_ : Completion; sequence_ : Z; notifying_ : bool;
  state_ : ProgramState; error_ : ProgramError
}.
#[export] Instance Programmer_rebuild : Rebuild Programmer := fun p =>
  mkProgrammer (plan_ p) (index_ p) (token_ p) (completion_ p) (sequence_ p) (notifying_ p) (state_ p) (error_ p).
Definition newProgrammer : Programmer := mkProgrammer [] 0 Station.noToken (mkCompletion 0 0) 0 false pIdle pNone.

(** What reaches the programmer while a plan is pending. *)
Inductive ProgramCall := PEvent (event : FirmwareEvent) (epoch operation : Z) | PService | PCancel.

(** The bus, the completion callback, and the next call from outside.  The
    callback finds [notifying_] set and the plan no longer pending, so that
    whatever it calls on the programmer is refused. *)
Inductive progOp :=
| BusSubmit (id : CommandId) (receiveAck doneAck : bool) (payload : buf) (operation timeoutUs : Z)
| BusService | BusInvalidate
| Finished (t : Station.Token) (success : bool)
| NextCall.
Definition progAns (o : progOp) : Type :=
  match o with
  | BusSubmit _ _ _ _ _ _ => bool * Z | BusService => bool | BusInvalidate => unit | Finished _ _ => bool
  | NextCall => ProgramCall
  end.
Definition ProgIo : sig := Sig progOp progAns.
Definition PM (A : Type) : Type := M ProgIo Programmer A.
Definition pcall (o : progOp) : PM (progAns o) := call (Σ:=ProgIo) o.

Definition notify (success : bool) : PM bool :=
  modify (fun p => p <| notifying_ := true |>);;
  p ← get;
  ok ← pcall (Finished (token_ p) success);
  modify (fun p => p <| notifying_ := false |>);;
  (if (ok : bool) then mret tt
   else modify (fun p => p <| error_ := pCompletion |> <| state_ := pFailed |>);; pcall BusInvalidate);;
  mret ok.

Definition fail (e : ProgramError) (deliver : bool) : PM bool :=
  p ← get;
  if bool_decide (state_ p = pFailed) then mret false else
  modify (fun p => p <| error_ := e |> <| state_ := pFailed |>);;
  pcall BusInvalidate;;
  when deliver (_ ← notify false; mret tt);;
  mret false.

Definition emptyPayload : Payload := mkPayload (mkCommandId 0 0 0) 0 (zeros 68).
Definition current (p : Programmer) : Payload := nth (Z.to_nat (index_ p)) (plan_ p) emptyPayload.

Definition submit : PM bool :=
  p ← get;
  let c := current p in
  r ← pcall (BusSubmit (id c) false true (take (Z.to_nat (length c)) (bytes c)) (Station.operation (token_ p)) 2000000);
  modify (fun p => p <| sequence_ := snd r |>);;
  mret (fst r).

Definition event (e : FirmwareEvent) (epoch operation : Z) : PM bool :=
  p ← get;
  if negb (bool_decide (state_ p = pPending)) || negb (epoch =? Station.epoch (token_ p)) ||
     negb (operation =? Station.operation (token_ p)) then fail pBus true else
  match decodeAck e with
  | MVal ack =>
      if negb (done ack) || negb (ack_sequence ack =? sequence_ p) || negb (sameCommand (command ack) (id (current p)))
      then fail pBus true else
      if negb (returnCode ack =? 0) then fail pFirmware true else
      modify (fun p => p <| index_ := u32 (index_ p + 1) |>);;
      p ← get;
      if index_ p <? zlen (plan_ p) then submit ||| fail pBus true
      else modify (fun p => p <| state_ := pComplete |>);; notify true
  | _ => fail pBus true
  end.

Definition knownCommand (p : Payload) : bool :=
  (sameCommand (id p) camCommand && (length p =? 60)) || (sameCommand (id p) cmacCommand && (length p =? 68)).
Definition begin (busEpoch : Z) (plan : Plan) (token : Station.Token) (completion : Completion) : PM bool :=
  p ← get;
  if notifying_ p || bool_decide (state_ p = pPending) || bool_decide (state_ p = pFailed) ||
     (Station.operation token =? 0) || negb (Station.epoch token =? busEpoch) || (co_owner completion =? 0) ||
     (co_finished completion =? 0) || (zlen plan =? 0) || (2 <? zlen plan) then mret false else
  if negb (forallb knownCommand plan) then mret false else
  ok ← pcall BusService;
  if negb ok then fail pBus false else
  modify (fun p => mkProgrammer plan 0 token completion (sequence_ p) (notifying_ p) pPending pNone);;
  submit ||| fail pBus false.

Definition service : PM bool :=
  p ← get;
  if negb (bool_decide (state_ p = pPending)) then mret (negb (bool_decide (state_ p = pFailed)))
  else pcall BusService ||| fail pBus true.

Definition cancel : PM bool :=
  p ← get; if bool_decide (state_ p = pPending) then fail pCancelled true else mret false.

Definition programCall (c : ProgramCall) : PM unit :=
  match c with
  | PEvent e epoch operation => _ ← event e epoch operation; mret tt
  | PService => _ ← service; mret tt
  | PCancel => _ ← cancel; mret tt
  end.

(** A plan and the [n] calls that follow it. *)
Definition program (n : Z) (busEpoch : Z) (plan : Plan) (token : Station.Token) (completion : Completion) : PM unit :=
  ok ← begin busEpoch plan token completion;
  when ok (for_each 0 n (fun _ => c ← pcall NextCall; programCall c)).

(** ** What programming a plan guarantees *)

(** How many commands were submitted, the sequence of the latest and whether
    its acknowledgement is still to come, the latest event, how the owner was
    told, and whether the bus was invalidated. *)
Record Trail := mkTrail {
  g_sent : Z; g_seq : Z; g_live : bool; g_event : option (FirmwareEvent * Z * Z); g_told : option bool; g_stopped : bool
}.
Definition newTrail : Trail := mkTrail 0 0 false None None false.

Section rules.
Context (plan : Plan) (tok : Station.Token).

(** The latest event completes the latest command. *)
Definition acked (g : Trail) : Prop := exists e ack,
  g_event g = Some (e, Station.epoch tok, Station.operation tok) /\ decodeAck e = MVal ack /\ done ack = true /\
  returnCode ack = 0 /\ ack_sequence ack = g_seq g /\
  sameCommand (command ack) (id (nth (Z.to_nat (g_sent g - 1)) plan emptyPayload)) = true.

Definition progMay (g : Trail) (o : progOp) : Prop :=
  match o with
  | BusSubmit i receiveAck doneAck payload operation _ =>
      g_stopped g = false /\ g_told g = None /\ operation = Station.operation tok /\ receiveAck = false /\ doneAck = true /\
      0 <= g_sent g < zlen plan /\ (g_sent g = 0 \/ acked g) /\
      let c := nth (Z.to_nat (g_sent g)) plan emptyPayload in i = id c /\ payload = take (Z.to_nat (length c)) (bytes c)
  | Finished t success =>
      t = tok /\ g_told g = None /\ 0 < g_sent g /\
      if success then g_stopped g = false /\ g_sent g = zlen plan /\ acked g else g_stopped g = true
  | _ => True
  end.
Definition progAssume (g : Trail) (o : progOp) : progAns o -> Prop :=
  match o with
  | NextCall => fun c => match c with PEvent _ _ _ => g_live g = true | _ => True end
  | _ => fun _ => True
  end.
Definition progNext (g : Trail) (o : progOp) : progAns o -> Trail :=
  match o with
  | BusSubmit _ _ _ _ _ _ => fun r => mkTrail (g_sent g + 1) (snd r) (fst r) None (g_told g) (g_stopped g)
  | BusInvalidate => fun _ => mkTrail (g_sent g) (g_seq g) (g_live g) (g_event g) (g_told g) true
  | Finished _ success => fun _ => mkTrail (g_sent g) (g_seq g) (g_live g) (g_event g) (Some success) (g_stopped g)
  | NextCall => fun c =>
      match c with
      | PEvent e ep op => mkTrail (g_sent g) (g_seq g) false (Some (e, ep, op)) (g_told g) (g_stopped g)
      | _ => mkTrail (g_sent g) (g_seq g) (g_live g) None (g_told g) (g_stopped g)
      end
  | BusService => fun _ => g
  end.
Definition rules : protocol ProgIo Trail := Protocol (Σ:=ProgIo) progMay progAssume progNext.

Implicit Types (p : Programmer) (g : Trail).
(** [live] holds except while an event is handled. *)
Definition going (sent : Z) p g : Prop :=
  plan_ p = plan /\ token_ p = tok /\ notifying_ p = false /\ state_ p = pPending /\ g_stopped g = false /\ g_told g = None /\
  g_sent g = sent /\ 1 <= sent <= zlen plan /\ index_ p = sent - 1 /\ sequence_ p = g_seq g.
Definition ended p g : Prop :=
  notifying_ p = false /\ ((state_ p = pFailed /\ g_stopped g = true /\ g_told g <> Some true \/
    state_ p = pFailed /\ g_stopped g = true /\ error_ p = pCompletion) \/
   (state_ p = pComplete /\ g_stopped g = false /\ g_told g = Some true /\ g_sent g = zlen plan /\ g_live g = false)).
Definition kept p g : Prop := (exists sent, going sent p g) \/ ended p g.

Context (Hlen : zlen plan <= 2).

Lemma notify_wp success p g (Q : option bool -> Programmer -> Trail -> Prop) : notifying_ p = false ->
  may rules g (Finished (token_ p) success) ->
  (let g' := mkTrail (g_sent g) (g_seq g) (g_live g) (g_event g) (Some success) (g_stopped g) in
   Q (Some true) p g' /\
   Q (Some false) (mkProgrammer (plan_ p) (index_ p) (token_ p) (completion_ p) (sequence_ p) false pFailed pCompletion)
     (mkTrail (g_sent g) (g_seq g) (g_live g) (g_event g) (Some success) true)) ->
  wpm rules (notify success) p g Q.
Proof.
  intros Hn Hm [HT HF]. unfold notify. wstep. wstep. do 2 wstep. wstep.
  refine (wpm_call rules (Finished _ success) _ _ _ Hm _). intros ok _. cbn [next rules progNext].
  destruct p as [a b c d e n s er]. cbn in Hn. subst n. do 2 wstep. destruct ok.
  - do 3 wstep. exact HT.
  - wstep. wstep. wstep. refine (wpm_call rules BusInvalidate _ _ _ I _). intros [] _. wstep. exact HF.
Qed.

Lemma programFail_wp e deliver sent p g : going sent p g -> wpm rules (fail e deliver) p g (fun o p' g' => o = Some false /\ ended p' g').
Proof.
  intros (H1 & H2 & H3 & H4 & H5 & H6 & H7 & H8 & H9 & H10). unfold fail. wstep. wstep. rewrite bool_decide_false by congruence.
  do 2 wstep. wstep. refine (wpm_call rules BusInvalidate _ _ _ I _). intros [] _. cbn [next rules progNext]. wstep. wstep.
  - wstep. apply notify_wp; [exact H3| |].
    { cbn. rewrite H2, H6, H7. repeat split; lia. }
    cbv zeta. split; do 2 wstep; (split; [reflexivity|]).
    + split; [exact H3|]. left. left. cbn. repeat split; congruence.
    + split; [reflexivity|]. left. right. repeat split.
  - do 2 wstep. split; [reflexivity|]. split; [exact H3|]. left. left. cbn. repeat split; congruence.
Qed.

(** Submitting the command whose turn it is. *)
Definition turn (sent : Z) p g : Prop :=
  plan_ p = plan /\ token_ p = tok /\ notifying_ p = false /\ state_ p = pPending /\ g_stopped g = false /\ g_told g = None /\
  g_sent g = sent /\ 0 <= sent < zlen plan /\ index_ p = sent /\ (sent = 0 \/ acked g).
Lemma submit_wp e deliver sent p g : turn sent p g -> wpm rules (submit ||| fail e deliver) p g (fun o p' g' =>
  (o = Some true /\ going (sent + 1) p' g' /\ g_live g' = true) \/ (o = Some false /\ ended p' g')).
Proof.
  intros (H1 & H2 & H3 & H4 & H5 & H6 & H7 & H8 & H9 & H10). unfold submit. wstep. wstep. wstep. cbv zeta. wstep.
  refine (wpm_call rules (BusSubmit _ _ _ _ _ _) _ _ _ _ _).
  { cbn. unfold current. rewrite H9, H1, H2, H7. repeat split; auto; lia. }
  intros r _. cbn [next rules progNext]. do 2 wstep. wstep. change (bool * Z)%type in r. destruct r as [[|] s]; cbn [fst snd].
  - left. split; [reflexivity|]. split; [|reflexivity]. refine (conj H1 (conj H2 (conj H3 (conj H4 (conj H5 (conj H6 _)))))).
    cbn. repeat split; lia.
  - eapply wpm_mono; [apply (programFail_wp e deliver (sent + 1))|].
    + refine (conj H1 (conj H2 (conj H3 (conj H4 (conj H5 (conj H6 _)))))). cbn. repeat split; lia.
    + auto.
Qed.

Lemma event_wp e epoch operation sent p g : going sent p g -> g_event g = Some (e, epoch, operation) -> g_live g = false ->
  wpm rules (event e epoch operation) p g (fun _ => kept).
Proof.
  intros H He Hl. assert (Hf : forall err, wpm rules (fail err true) p g (fun _ => kept)).
  { intros err. eapply wpm_mono; [apply (programFail_wp err true sent); exact H|]. intros o p' g' [_ Hd]. right. exact Hd. }
  destruct H as (H1 & H2 & H3 & H4 & H5 & H6 & H7 & H8 & H9 & H10).
  unfold event. wstep. wstep. wstep; [apply Hf|]. rewrite H2 in Heqb. apply orb_false_iff in Heqb as [B1 B3]. apply orb_false_iff in B1 as [_ B2].
  destruct (decodeAck e) as [ack|x|] eqn:Ha; [|apply Hf..]. wstep; [apply Hf|].
  apply orb_false_iff in Heqb as [A1 A3]. apply orb_false_iff in A1 as [A1 A2]. wstep; [apply Hf|]. do 2 wstep. wstep. wstep.
  assert (Hack : acked g).
  { exists e, ack. replace (Station.epoch tok) with epoch by lia. replace (Station.operation tok) with operation by lia.
    split; [exact He|]. split; [exact Ha|]. split; [apply negb_false_iff; exact A1|]. split; [lia|]. split; [lia|].
    apply negb_false_iff in A3. unfold current in A3. rewrite H1, H9 in A3. rewrite H7. exact A3. }
  assert (Hi : index_ (p <| index_ := u32 (index_ p + 1) |>) = sent).
  { cbn. rewrite H9. replace (sent - 1 + 1) with sent by lia. apply u32_small. zlia. }
  set (p1 := p <| index_ := u32 (index_ p + 1) |>) in *. change (plan_ p1) with (plan_ p) in *. rewrite Hi, H1 in *.
  wstep.
  - eapply wpm_mono; [apply (submit_wp pBus true sent)|].
    + refine (conj H1 (conj H2 (conj H3 (conj H4 (conj H5 (conj H6 (conj H7 _))))))). repeat split; auto; lia.
    + intros o p' g' [(_ & Hg & _)|(_ & Hd)]; [left; eauto|right; exact Hd].
  - do 2 wstep. apply notify_wp; [exact H3| |].
    { cbn. rewrite H2. repeat split; auto; lia. }
    cbv zeta. split; right.
    + split; [exact H3|]. right. cbn. repeat split; auto; lia.
    + split; [reflexivity|]. left. right. repeat split.
Qed.

Lemma keep_call : stays rules kept (c ← pcall NextCall; programCall c).
Proof.
  intros p g H. wstep. refine (wpm_call rules NextCall _ _ _ I _). intros c Hc. change ProgramCall in c. cbn [next rules progNext].
  destruct H as [[sent H]|H].
  - destruct c as [e ep op| |]; cbn [programCall].
    + wstep. eapply wpm_mono; [apply (event_wp e ep op sent)|intros [b|] p' g' H'; [wstep|]; exact H'].
      * exact H.
      * reflexivity.
      * reflexivity.
    + unfold service. wstep. wstep. wstep. rewrite bool_decide_true by apply H. cbn [negb]. wstep.
      refine (wpm_call rules BusService _ _ _ I _). intros [|] _; cbn [next rules progNext negb].
      * wstep. left. exists sent. exact H.
      * eapply wpm_mono; [apply (programFail_wp pBus true sent); exact H|]. intros o p' g' [-> Hd]. wstep. right. exact Hd.
    + unfold cancel. wstep. wstep. wstep. rewrite bool_decide_true by apply H.
      eapply wpm_mono; [apply (programFail_wp pCancelled true sent); exact H|]. intros o p' g' [-> Hd]. wstep. right. exact Hd.
  - assert (Hst : state_ p <> pPending) by (destruct H as [_ [[[-> _]|[-> _]]|[-> _]]]; discriminate).
    destruct c as [e ep op| |]; cbn [programCall].
    + assert (Hf : state_ p = pFailed).
      { destruct H as [_ [[[H _]|[H _]]|H]]; [exact H..|]. cbn in Hc. destruct H as (_ & _ & _ & _ & H). congruence. }
      unfold event, fail. wstep. wstep. wstep. rewrite bool_decide_false by exact Hst. cbn [negb orb].
      wstep. wstep. rewrite bool_decide_true by exact Hf. do 2 wstep. right. destruct H as [H0 [H|H]]; [|destruct H; congruence].
      split; [exact H0|]. left. exact H.
    + unfold service. wstep. wstep. wstep. rewrite bool_decide_false by exact Hst. cbn [negb]. do 2 wstep. right. exact H.
    + unfold cancel. wstep. wstep. wstep. rewrite bool_decide_false by exact Hst. do 2 wstep. right. exact H.
Qed.
End rules.

(** How a programming run stands. *)
Definition outcome (plan : Plan) (r : Programmer) (g : Trail) : Prop :=
  (state_ r = pComplete -> g_sent g = 0 \/ (g_told g = Some true /\ g_sent g = zlen plan /\ g_stopped g = false)) /\
  (state_ r = pPending -> g_told g = None /\ g_stopped g = false /\ 1 <= g_sent g <= zlen plan) /\
  (state_ r = pFailed -> g_sent g = 0 \/ (g_stopped g = true /\ (g_told g = Some true -> error_ r = pCompletion))).

Lemma ended_outcome plan p g : ended plan p g -> outcome plan p g.
Proof.
  intros [_ [[(H1 & H2 & H3)|(H1 & H2 & H3)]|(H1 & H2 & H3 & H4 & H5)]]; unfold outcome; rewrite H1;
    (split; [|split]); try discriminate; auto.
  intros _. right. split; [exact H2|]. intros E. contradiction.
Qed.
Lemma going_outcome plan tok sent p g : going plan tok sent p g -> outcome plan p g.
Proof.
  intros (H1 & H2 & H3 & H4 & H5 & H6 & H7 & H8 & H9 & H10). unfold outcome. rewrite H4. split; [discriminate|]. split; [|discriminate].
  intros _. rewrite H7. auto.
Qed.

Lemma program_wp n busEpoch plan tok completion p : 0 <= n -> state_ p <> pPending ->
  wpm (rules plan tok) (program n busEpoch plan tok completion) p newTrail (fun _ => outcome plan).
Proof.
  intros Hn Hp. unfold program, begin.
  assert (Hno : outcome plan p newTrail) by (split; [auto|split; [intros; contradiction|auto]]).
  wstep. wstep. wstep. wstep; [do 3 wstep; exact Hno|]. wstep; [do 3 wstep; exact Hno|].
  rewrite !orb_false_iff in Heqb. destruct Heqb as ((((((((N1 & N2) & N3) & N4) & N5) & N6) & N7) & N8) & N9).
  apply bool_decide_eq_false in N3. pose proof (zlen_nonneg plan). assert (HL : zlen plan <= 2) by lia. wstep. refine (wpm_call (rules plan tok) BusService _ _ _ I _). intros [|] _; cbn [next rules progNext negb].
  - cbn [negb]. do 2 wstep.
    match goal with |- wpm _ _ ?q _ _ => assert (H0 : turn plan tok 0 q newTrail) by (repeat split; auto; lia); revert H0; generalize q end.
    clear p Hp Hno N1 N2 N3. intros p H0.
    eapply wpm_mono; [apply (submit_wp plan tok pBus false 0); exact H0|].
    intros o p' g' [(-> & Hg & Hl)|(-> & Hd)].
    + unfold when. apply (wpm_for_each _ (fun _ => kept plan tok)); [exact Hn|left; eauto| |].
      * intros j p1 g1 _ Hk. eapply wpm_mono; [apply (keep_call plan tok HL); exact Hk|]. intros [[]|] p2 g2 H2; [exact H2|].
        destruct H2 as [[sent H2]|H2]; [eapply going_outcome; exact H2|apply ended_outcome; exact H2].
      * intros p1 g1 [[sent H2]|H2]; [eapply going_outcome; exact H2|apply ended_outcome; exact H2].
    + unfold when. wstep. apply ended_outcome. exact Hd.
  - unfold fail. cbn [negb]. wstep. wstep. rewrite bool_decide_false by exact N3. do 2 wstep. wstep.
    refine (wpm_call (rules plan tok) BusInvalidate _ _ _ I _). intros [] _. unfold when. do 2 wstep. wstep. wstep.
    unfold outcome. cbn. split; [discriminate|]. split; [discriminate|auto].
Qed.

(** C24: a plan begun on an idle programmer is submitted command by command
    to the bus, each done acknowledgement being requested and the next command
    waiting for the acknowledgement of the one before, of its sequence and
    identity, for this operation and with return code 0; the owner is told at
    most once, success only after the last acknowledgement and failure only
    after the bus was invalidated, and after that nothing is submitted.
    Relied on of the bus: at most one event per accepted submission. *)
Theorem plan_programmed n busEpoch plan tok completion p tr r : 0 <= n ->
  state_ p <> pPending -> exec (final_state (program n busEpoch plan tok completion) p) tr r -> relies (rules plan tok) newTrail tr ->
  accepts (rules plan tok) newTrail tr /\ outcome plan r (after (rules plan tok) newTrail tr).
Proof.
  intros Hn Hp He Hr. refine (wpm_exec (rules plan tok) _ p newTrail (outcome plan) tr r _ He Hr). apply program_wp; assumption.
Qed.

(** ** A concrete run *)

(** A bus that acknowledges every command when asked for the next call. *)
Record Peer := mkPeer { k_next : Z; k_id : CommandId }.
Definition ackEvent (i : CommandId) (sequence : Z) : FirmwareEvent :=
  mkEvent (mkCommandId 1 0 1) (Some [Z.lor (category i) (Z.shiftl (commandClass i) 2); function i; 0; sequence]) 4.
Definition peer : handler ProgIo Peer := fun d o =>
  match o as o return Ans ProgIo o * Peer with
  | BusSubmit i _ _ _ _ _ => ((true, k_next d), mkPeer (k_next d + 1) i)
  | BusService => (true, d)
  | BusInvalidate => (tt, d)
  | Finished _ _ => (true, d)
  | NextCall => (PEvent (ackEvent (k_id d) (k_next d - 1)) 5 9, d)
  end.
Definition samplePlan : Plan :=
  [mkPayload camCommand 60 (zeros 68); mkPayload cmacCommand 68 (zeros 68)].
Definition sampleToken : Station.Token := Station.mkToken 5 9.
Definition sampleProgram := run_trace peer (final_state (program 2 5 samplePlan sampleToken (mkCompletion 1 1)) newProgrammer) (mkPeer 40 camCommand).
Example sampleProgram_ok : state_ sampleProgram.1.1 = pComplete /\ index_ sampleProgram.1.1 = 2.
Proof. vm_compute. auto. Qed.

Lemma plan_programmed_witness :
  accepts (rules samplePlan sampleToken) newTrail sampleProgram.2 /\
  outcome samplePlan sampleProgram.1.1 (after (rules samplePlan sampleToken) newTrail sampleProgram.2).
Proof.
  apply (plan_programmed 2 5 samplePlan sampleToken (mkCompletion 1 1) newProgrammer); [lia|discriminate| |].
  - exact (run_trace_exec peer (final_state (program 2 5 samplePlan sampleToken (mkCompletion 1 1)) newProgrammer) (mkPeer 40 camCommand)).
  - vm_compute. repeat split.
Defined.
