(* ===== verification/ScanCache.v ===== *)
(** * The cache of native scans (src/network/NativeScanCache.hpp)

    [Store] keeps two banks of observations: one that a scan fills, and the
    latest complete one, which is published whole or not at all.  The file
    models the store with its arrays, relates it to a specification where an
    observation is a value and a scan a finite map, and proves that every
    sequence of calls answers like the specification. *)

From S2P Require Import Prelude.
From stdpp Require Import gmap sorting.
Open Scope Z_scope.

(** ** Data *)

Definition maxNetworks : Z := 64.
Definition maxChannels : Z := 64.
Definition maxIeBytes : Z := 2304.

Record Token := mkToken { generation : Z; epoch : Z }.
Definition sameToken (a b : Token) : bool := (generation a =? generation b) && (epoch a =? epoch b).

(** [enum class Band : uint8_t]: any byte may be passed. *)
Definition ghz2 : Z := 0.
Definition ghz5 : Z := 1.
Record Channel := mkChannel { band : Z; number : Z }.
Definition sameChannel (a b : Channel) : bool := (band a =? band b) && (number a =? number b).
Definition validChannel (c : Channel) : bool :=
  if band c =? ghz2 then (1 <=? number c) && (number c <=? 14) else
  if negb (band c =? ghz5) then false else
  ((36 <=? number c) && (number c <=? 64) && (Z.rem (number c) 4 =? 0)) ||
  ((100 <=? number c) && (number c <=? 144) && (Z.rem (number c) 4 =? 0)) ||
  ((149 <=? number c) && (number c <=? 177) && (Z.rem (number c - 149) 4 =? 0)).

(** [enum class SignalUnit : uint8_t] *)
Definition unit_unknown : Z := 0.
Definition unit_percent : Z := 1.
Definition unit_dbm : Z := 2.
Record Signal := mkSignal { unit_ : Z; value : Z }.
Definition validSignal (s : Signal) : bool :=
  if unit_ s =? unit_unknown then value s =? 0 else
  if unit_ s =? unit_percent then (0 <=? value s) && (value s <=? 100) else
  if unit_ s =? unit_dbm then (-127 <=? value s) && (value s <=? 0) else false.

(** Pointers are [None] when null. *)
Record Input := mkInput {
  bssid : option buf; ssid : option buf; ies : option buf;
  ssidLength : Z; ieLength : Z; originalIeLength : Z;
  channel : Channel; signal : Signal; observedAtUs : Z; capability : Z; beaconInterval : Z
}.
Record Entry := mkEntry {
  e_observedAtUs : Z; e_capability : Z; e_beaconInterval : Z; e_ieLength : Z;
  e_channel : Channel; e_signal : Signal; e_bssid : buf; e_ssid : buf; e_ssidLength : Z; e_ies : buf
}.
Record Summary := mkSummary {
  m_token : Token; m_completedAtUs : Z; m_count : Z; m_channelCount : Z; m_rejected : Z
}.
Record Status := mkStatus {
  token : Token; count : Z; plannedChannels : Z; completedChannels : Z; rejected : Z;
  active : bool; planned : bool; cancelled : bool; overflow : bool; truncatedInput : bool
}.
#[export] Instance Status_rebuild : Rebuild Status := fun s =>
  mkStatus (token s) (count s) (plannedChannels s) (completedChannels s) (rejected s)
    (active s) (planned s) (cancelled s) (overflow s) (truncatedInput s).

Inductive AddResult := added | replaced | unchanged | add_stale | unplanned | invalid | add_overflow | truncated.
Inductive Completion := channelScan | fullScan.
Inductive FinishResult := published | finish_stale | incomplete | loss | invalidTime.
#[export] Instance Completion_eq_dec : EqDecision Completion. Proof. solve_decision. Defined.

Record Bank := mkBank { summary : Summary; channels : list Channel; order : list Z; entries : list Entry }.
#[export] Instance Bank_rebuild : Rebuild Bank := fun b => mkBank (summary b) (channels b) (order b) (entries b).
Record Store := mkStore {
  banks_ : list Bank; status_ : Status; completedMask_ : Z; working_ : Z; published_ : Z; hasPublished_ : bool
}.
#[export] Instance Store_rebuild : Rebuild Store := fun s =>
  mkStore (banks_ s) (status_ s) (completedMask_ s) (working_ s) (published_ s) (hasPublished_ s).

(** [clear] of a value of each type. *)
Definition noToken : Token := mkToken 0 0.
Definition noChannel : Channel := mkChannel 0 0.
Definition noStatus : Status := mkStatus noToken 0 0 0 0 false false false false false.
Definition emptyEntry : Entry :=
  mkEntry 0 0 0 0 noChannel (mkSignal 0 0) (zeros 6) (zeros 32) 0 (zeros maxIeBytes).
Definition emptyBank : Bank :=
  mkBank (mkSummary noToken 0 0 0 0) (replicate (Z.to_nat maxChannels) noChannel)
    (replicate (Z.to_nat maxNetworks) 0) (replicate (Z.to_nat maxNetworks) emptyEntry).
Definition newStore : Store := mkStore [emptyBank; emptyBank] noStatus 0 0 1 false.

(** ** Arrays and pointers

    Out of bounds is [MOob]; the one error value says that a loop ran out of
    the turns given to it, which the theorems exclude. *)
Abbreviation R A := (mres unit A).

Definition rdp (p : option buf) (i : Z) : R Z := match p with Some b => rd8 b i | None => MOob end.
Definition ofOption {A} (x : option A) : R A := match x with Some a => MVal a | None => MOob end.
Definition at_ {A} (l : list A) (i : Z) : R A := if i <? 0 then MOob else ofOption (l !! Z.to_nat i).
Definition put {A} (l : list A) (i : Z) (x : A) : R (list A) :=
  if (0 <=? i) && (i <? zlen l) then MVal (<[Z.to_nat i := x]> l) else MOob.

(** ** The private helpers *)

Definition copy (to : buf) (from : option buf) (n : Z) : R buf :=
  for_m (Z.to_nat n) 0 (fun i t => v ← rdp from i; store t i [v]) to.

Fixpoint equalFrom (n : nat) (i : Z) (a b : option buf) (ao bo : Z) : R bool :=
  match n with
  | O => MVal true
  | S n => x ← rdp a (ao + i); y ← rdp b (bo + i);
           if negb (x =? y) then MVal false else equalFrom n (i + 1) a b ao bo
  end.
Definition equal (a b : option buf) (ao bo n : Z) : R bool := equalFrom (Z.to_nat n) 0 a b ao bo.

Definition unicast (address : option buf) : R bool :=
  match address with
  | None => MVal false
  | Some _ =>
      any ← for_m 6 0 (fun i any => v ← rdp address i; MVal (Z.lor any v)) 0;
      if any =? 0 then MVal false else v ← rdp address 0; MVal (negb (flag v 1))
  end.

Fixpoint elementsFrom (in_ : Input) (fuel : nat) (offset : Z) (ssidSeen : bool) : R bool :=
  match fuel with
  | O => MErr tt
  | S fuel =>
      if negb (offset <? ieLength in_) then MVal (ssidSeen || (ssidLength in_ =? 0)) else
      if ieLength in_ - offset <? 2 then MVal false else
      tag ← rdp (ies in_) offset;
      length ← rdp (ies in_) (offset + 1);
      let offset := offset + 2 in
      if ieLength in_ - offset <? length then MVal false else
      if tag =? 0 then
        if ssidSeen || (32 <? length) || negb (length =? ssidLength in_) then MVal false else
        ok ← (if length =? 0 then MVal true else equal (ies in_) (ssid in_) offset 0 length);
        if negb ok then MVal false else elementsFrom in_ fuel (offset + length) true
      else elementsFrom in_ fuel (offset + length) ssidSeen
  end.
(** Every turn advances by two bytes at least. *)
Definition informationElements (in_ : Input) : R bool :=
  elementsFrom in_ (Datatypes.S (Z.to_nat (ieLength in_))) 0 false.

Definition current (s : Store) (t : Token) : bool := active (status_ s) && sameToken t (token (status_ s)).

Fixpoint channelFrom (n : nat) (i : Z) (l : list Channel) (c : Channel) : R Z :=
  match n with
  | O => MVal maxChannels
  | S n => x ← at_ l i; if sameChannel c x then MVal i else channelFrom n (i + 1) l c
  end.
Definition channelIndex (s : Store) (c : Channel) : R Z :=
  bank ← at_ (banks_ s) (working_ s);
  channelFrom (Z.to_nat (plannedChannels (status_ s))) 0 (channels bank) c.

Definition reject (s : Status) : Status :=
  if negb (rejected s =? 0xffffffff) then s <| rejected := rejected s + 1 |> else s.

Fixpoint precedesFrom (n : nat) (i : Z) (a b : buf) : R bool :=
  match n with
  | O => MVal false
  | S n => x ← rd8 a i; y ← rd8 b i;
           if negb (x =? y) then MVal (x <? y) else precedesFrom n (i + 1) a b
  end.
Definition precedes (a b : Entry) : R bool :=
  if negb (band (e_channel a) =? band (e_channel b)) then MVal (band (e_channel a) <? band (e_channel b)) else
  if negb (number (e_channel a) =? number (e_channel b)) then MVal (number (e_channel a) <? number (e_channel b))
  else precedesFrom 6 0 (e_bssid a) (e_bssid b).

(** ** Reading the published bank *)

Definition completed (s : Store) : R (option Summary) :=
  if hasPublished_ s then bank ← at_ (banks_ s) (published_ s); MVal (Some (summary bank)) else MVal None.
Definition completedEntry (s : Store) (index : Z) : R (option Entry) :=
  if negb (hasPublished_ s) then MVal None else
  bank ← at_ (banks_ s) (published_ s);
  if m_count (summary bank) <=? index then MVal None else
  i ← at_ (order bank) index; e ← at_ (entries bank) i; MVal (Some e).
Definition completedChannel (s : Store) (index : Z) : R (option Channel) :=
  if negb (hasPublished_ s) then MVal None else
  bank ← at_ (banks_ s) (published_ s);
  if index <? m_channelCount (summary bank) then c ← at_ (channels bank) index; MVal (Some c) else MVal None.

(** ** The operations *)

(** [banks_[working_]] is replaced by [b]. *)
Definition setWorking (s : Store) (b : Bank) : R Store :=
  l ← put (banks_ s) (working_ s) b; MVal (s <| banks_ := l |>).

Definition begin (s : Store) (g e : Z) : R (bool * Store) :=
  let last := token (status_ s) in
  if active (status_ s) || (g =? 0) || (e =? 0) || (e <? epoch last) ||
     ((e =? epoch last) && (g <=? generation last)) then MVal (false, s) else
  s ← setWorking s emptyBank;
  MVal (true, s <| status_ := mkStatus (mkToken g e) 0 0 0 0 true false false false false |> <| completedMask_ := 0 |>).

(** The complete list is valid and without duplicates. *)
Fixpoint repeatedFrom (n : nat) (j : Z) (l : list Channel) (c : Channel) : R bool :=
  match n with
  | O => MVal false
  | S n => d ← at_ l j; if sameChannel c d then MVal true else repeatedFrom n (j + 1) l c
  end.
Fixpoint planFrom (n : nat) (i : Z) (l : list Channel) : R bool :=
  match n with
  | O => MVal true
  | S n =>
      c ← at_ l i;
      if negb (validChannel c) then MVal false else
      again ← repeatedFrom (Z.to_nat i) 0 l c;
      if (again : bool) then MVal false else planFrom n (i + 1) l
  end.

Definition plan (s : Store) (t : Token) (l : option (list Channel)) (n : Z) : R (bool * Store) :=
  match l with
  | None => MVal (false, s)
  | Some l =>
      if negb (current s t) || planned (status_ s) || (n =? 0) || (maxChannels <? n) then MVal (false, s) else
      ok ← planFrom (Z.to_nat n) 0 l;
      if negb ok then MVal (false, s) else
      bank ← at_ (banks_ s) (working_ s);
      cs ← for_m (Z.to_nat n) 0 (fun i cs => c ← at_ l i; put cs i c) (channels bank);
      s ← setWorking s (bank <| channels := cs |>);
      MVal (true, s <| status_ := (status_ s) <| plannedChannels := n |> <| planned := true |> |>)
  end.

(** The entry with the key of the input; [None] when the input is not newer. *)
Fixpoint findEntry (in_ : Input) (l : list Entry) (n : nat) (index : Z) : R (option Z) :=
  match n with
  | O => MVal (Some index)
  | S n =>
      e ← at_ l index;
      same ← (if sameChannel (channel in_) (e_channel e) then equal (bssid in_) (Some (e_bssid e)) 0 0 6 else MVal false);
      if (same : bool) then
        if observedAtUs in_ <=? e_observedAtUs e then MVal None else MVal (Some index)
      else findEntry in_ l n (index + 1)
  end.

Definition fill (in_ : Input) : R Entry :=
  b ← copy (zeros 6) (bssid in_) 6;
  n ← copy (zeros 32) (ssid in_) (ssidLength in_);
  i ← copy (zeros maxIeBytes) (ies in_) (ieLength in_);
  MVal (mkEntry (observedAtUs in_) (capability in_) (beaconInterval in_) (u16 (ieLength in_))
          (channel in_) (signal in_) b n (u8 (ssidLength in_)) i).

Definition isNull (p : option buf) : bool := match p with None => true | Some _ => false end.
Definition acceptable (in_ : Input) : R bool :=
  u ← unicast (bssid in_);
  if negb u || (32 <? ssidLength in_) || (negb (ssidLength in_ =? 0) && isNull (ssid in_)) ||
     (negb (ieLength in_ =? 0) && isNull (ies in_)) || negb (validSignal (signal in_)) then MVal false
  else informationElements in_.

Definition add (s : Store) (t : Token) (in_ : Input) : R (AddResult * Store) :=
  if negb (current s t) then MVal (add_stale, s) else
  i ← (if planned (status_ s) then channelIndex s (channel in_) else MVal maxChannels);
  if negb (planned (status_ s)) || (i =? maxChannels) then MVal (unplanned, s) else
  if overflow (status_ s) then MVal (add_overflow, s) else
  if truncatedInput (status_ s) then MVal (truncated, s) else
  if negb (ieLength in_ =? originalIeLength in_)
  then MVal (truncated, s <| status_ := reject ((status_ s) <| truncatedInput := true |>) |>) else
  if maxIeBytes <? ieLength in_
  then MVal (add_overflow, s <| status_ := reject ((status_ s) <| overflow := true |>) |>) else
  ok ← acceptable in_;
  if negb ok then MVal (invalid, s <| status_ := reject (status_ s) |>) else
  bank ← at_ (banks_ s) (working_ s);
  found ← findEntry in_ (entries bank) (Z.to_nat (count (status_ s))) 0;
  match found with
  | None => MVal (unchanged, s)
  | Some index =>
      if index =? maxNetworks then MVal (add_overflow, s <| status_ := reject ((status_ s) <| overflow := true |>) |>) else
      out ← fill in_;
      l ← put (entries bank) index out;
      s' ← setWorking s (bank <| entries := l |>);
      if index <? count (status_ s) then MVal (replaced, s')
      else MVal (added, s' <| status_ := (status_ s) <| count := count (status_ s) + 1 |> |>)
  end.

Definition channelFinished (s : Store) (t : Token) (c : Channel) : R (bool * Store) :=
  if negb (current s t) || negb (planned (status_ s)) then MVal (false, s) else
  index ← channelIndex s c;
  if index =? maxChannels then MVal (false, s) else
  let bit := u64 (Z.shiftl 1 index) in
  if flag (completedMask_ s) bit then MVal (true, s)
  else MVal (true, s <| completedMask_ := Z.lor (completedMask_ s) bit |>
                     <| status_ := (status_ s) <| completedChannels := completedChannels (status_ s) + 1 |> |>).

(** One step of the insertion: indices that follow entry [e] move up. *)
Fixpoint sink (es : list Entry) (e : Entry) (l : list Z) (j : nat) : R (list Z * Z) :=
  match j with
  | O => MVal (l, 0)
  | S k =>
      o ← at_ l (Z.of_nat k);
      x ← at_ es o;
      before ← precedes e x;
      if (before : bool) then l ← put l (Z.of_nat (S k)) o; sink es e l k else MVal (l, Z.of_nat (S k))
  end.
Definition sortOrder (es : list Entry) (l : list Z) (n : Z) : R (list Z) :=
  for_m (Z.to_nat n) 0 (fun i l =>
    e ← at_ es i; r ← sink es e l (Z.to_nat i); put (fst r) (snd r) (u8 i)) l.

(** No observation is later than the completion. *)
Fixpoint inTimeFrom (n : nat) (i : Z) (es : list Entry) (limit : Z) : R bool :=
  match n with
  | O => MVal true
  | S n => e ← at_ es i; if limit <? e_observedAtUs e then MVal false else inTimeFrom n (i + 1) es limit
  end.

Definition finish (s : Store) (t : Token) (scope : Completion) (completedAtUs : Z) : R (FinishResult * Store) :=
  let st := status_ s in
  if negb (current s t) then MVal (finish_stale, s) else
  if negb (bool_decide (scope = fullScan)) || negb (planned st) ||
     negb (completedChannels st =? plannedChannels st) then MVal (incomplete, s) else
  if overflow st || truncatedInput st then MVal (loss, s <| status_ := st <| active := false |> |>) else
  bank ← at_ (banks_ s) (working_ s);
  back ← (if hasPublished_ s then p ← at_ (banks_ s) (published_ s); MVal (completedAtUs <? m_completedAtUs (summary p))
          else MVal false);
  if (back : bool) then MVal (invalidTime, s) else
  ok ← inTimeFrom (Z.to_nat (count st)) 0 (entries bank) completedAtUs;
  if negb ok then MVal (invalidTime, s) else
  o ← sortOrder (entries bank) (order bank) (count st);
  let sum := mkSummary t completedAtUs (count st) (plannedChannels st) (rejected st) in
  s' ← setWorking s (bank <| order := o |> <| summary := sum |>);
  MVal (published, mkStore (banks_ s') (st <| active := false |>) (completedMask_ s)
                     (Z.lxor (working_ s) 1) (working_ s) true).

Definition cancel (s : Store) (t : Token) : R (bool * Store) :=
  if negb (current s t) then MVal (false, s) else
  s' ← setWorking s emptyBank;
  MVal (true, s' <| status_ := (status_ s) <| active := false |> <| cancelled := true |> |>).

(** ** Sequences of calls *)

Inductive Call :=
| Begin (g e : Z)
| Plan (t : Token) (l : option (list Channel)) (n : Z)
| Add (t : Token) (in_ : Input)
| ChannelFinished (t : Token) (c : Channel)
| Finish (t : Token) (scope : Completion) (completedAtUs : Z)
| Cancel (t : Token).
Inductive Answer := ABool (b : bool) | AAdd (r : AddResult) | AFinish (r : FinishResult).

Definition call (s : Store) (c : Call) : R (Answer * Store) :=
  match c with
  | Begin g e => r ← begin s g e; MVal (ABool (fst r), snd r)
  | Plan t l n => r ← plan s t l n; MVal (ABool (fst r), snd r)
  | Add t in_ => r ← add s t in_; MVal (AAdd (fst r), snd r)
  | ChannelFinished t c => r ← channelFinished s t c; MVal (ABool (fst r), snd r)
  | Finish t scope at_us => r ← finish s t scope at_us; MVal (AFinish (fst r), snd r)
  | Cancel t => r ← cancel s t; MVal (ABool (fst r), snd r)
  end.
Fixpoint calls (s : Store) (l : list Call) : R (list Answer * Store) :=
  match l with
  | [] => MVal ([], s)
  | c :: l => r ← call s c; rest ← calls (snd r) l; MVal (fst r :: fst rest, snd rest)
  end.

(** ** What the store promises

    An observation is a value; a scan in progress maps channel and address to
    the latest observation; the snapshot is what the latest complete scan saw. *)

#[export] Instance Channel_eq_dec : EqDecision Channel. Proof. solve_decision. Defined.
#[export] Instance Channel_countable : Countable Channel.
Proof. apply (inj_countable' (fun c => (band c, number c)) (fun p => mkChannel (fst p) (snd p))). intros []. reflexivity. Defined.

Record Obs := mkObs {
  o_at : Z; o_capability : Z; o_interval : Z; o_channel : Channel; o_signal : Signal;
  o_bssid : buf; o_ssid : buf; o_ies : buf
}.
Definition Key : Type := Channel * list Z.
Definition key (o : Obs) : Key := (o_channel o, o_bssid o).

Record Snapshot := mkSnapshot {
  n_token : Token; n_at : Z; n_rejected : Z; n_plan : list Channel; n_seen : gmap Key Obs
}.
Record Abs := mkAbs {
  a_token : Token; a_active : bool; a_planned : bool; a_cancelled : bool;
  a_plan : list Channel; a_done : gset Channel; a_seen : gmap Key Obs;
  a_rejected : Z; a_overflow : bool; a_truncated : bool; a_snapshot : option Snapshot
}.
#[export] Instance Abs_rebuild : Rebuild Abs := fun a =>
  mkAbs (a_token a) (a_active a) (a_planned a) (a_cancelled a) (a_plan a) (a_done a) (a_seen a)
    (a_rejected a) (a_overflow a) (a_truncated a) (a_snapshot a).
Definition newAbs : Abs := mkAbs noToken false false false [] ∅ ∅ 0 false false None.

Definition ptrBytes (p : option buf) (n : Z) : buf := match p with Some b => bytesOf b 0 n | None => [] end.
Definition observed (i : Input) : Obs :=
  mkObs (observedAtUs i) (capability i) (beaconInterval i) (channel i) (signal i)
    (ptrBytes (bssid i) 6) (ptrBytes (ssid i) (ssidLength i)) (ptrBytes (ies i) (ieLength i)).

(** Information elements: tag, length, body. *)
Definition element : Type := Z * list Z.
Definition encodeElement (e : element) : list Z := fst e :: zlen (snd e) :: snd e.
Definition encodeElements (l : list element) : list Z := concat (map encodeElement l).
Fixpoint parseFrom (n : nat) (l : list Z) : option (list element) :=
  match n, l with
  | _, [] => Some []
  | S n, tag :: len :: l =>
      if zlen l <? len then None
      else cons (tag, take (Z.to_nat len) l) <$> parseFrom n (drop (Z.to_nat len) l)
  | _, _ => None
  end.
Definition parseElements (l : list Z) : option (list element) := parseFrom (length l) l.
Definition names (l : list element) : list (list Z) := map snd (filter (fun e : element => fst e = 0) l).

(** The frame names its network at most once, and by the name given. *)
Definition namesOk (seen : bool) (name : list Z) (l : option (list element)) : bool :=
  match l with
  | None => false
  | Some l =>
      match names l with
      | [] => seen || bool_decide (name = [])
      | [n] => negb seen && bool_decide (n = name)
      | _ => false
      end
  end.
Definition admissible (o : Obs) : bool := namesOk false (o_ssid o) (parseElements (o_ies o)).

(** An individual address that is not zero. *)
Definition unicastAddress (a : buf) : bool := existsb (fun x => negb (x =? 0)) a && negb (Z.odd (byte_at a 0)).
Definition inputOk (i : Input) : bool :=
  negb (isNull (bssid i)) && unicastAddress (o_bssid (observed i)) && (ssidLength i <=? 32) &&
  ((ssidLength i =? 0) || negb (isNull (ssid i))) && ((ieLength i =? 0) || negb (isNull (ies i))) &&
  validSignal (signal i) && admissible (observed i).

Definition a_current (a : Abs) (t : Token) : bool := a_active a && sameToken t (a_token a).
Definition inPlan (a : Abs) (c : Channel) : bool := a_planned a && bool_decide (c ∈ a_plan a).
Definition newer (t last : Token) : bool :=
  negb (generation t =? 0) && negb (epoch t =? 0) &&
  ((epoch last <? epoch t) || ((epoch t =? epoch last) && (generation last <? generation t))).
Definition a_reject (a : Abs) : Abs := if a_rejected a =? 0xffffffff then a else a <| a_rejected := a_rejected a + 1 |>.

Definition a_begin (a : Abs) (g e : Z) : bool * Abs :=
  if negb (a_active a) && newer (mkToken g e) (a_token a)
  then (true, mkAbs (mkToken g e) true false false [] ∅ ∅ 0 false false (a_snapshot a)) else (false, a).

Definition planOk (l : list Channel) : bool :=
  (1 <=? zlen l) && (zlen l <=? 64) && forallb validChannel l && bool_decide (NoDup l).
Definition doPlan (a : Abs) (t : Token) (l : option (list Channel)) (n : Z) : bool * Abs :=
  match l with
  | None => (false, a)
  | Some l =>
      let l := take (Z.to_nat n) l in
      if a_current a t && negb (a_planned a) && planOk l
      then (true, a <| a_planned := true |> <| a_plan := l |>) else (false, a)
  end.

Definition observe (a : Abs) (o : Obs) : AddResult * Abs :=
  let put := a <| a_seen := <[key o := o]> (a_seen a) |> in
  match a_seen a !! key o with
  | Some p => if o_at p <? o_at o then (replaced, put) else (unchanged, a)
  | None => if Z.of_nat (size (a_seen a)) =? 64 then (add_overflow, a_reject (a <| a_overflow := true |>)) else (added, put)
  end.
Definition a_add (a : Abs) (t : Token) (i : Input) : AddResult * Abs :=
  if negb (a_current a t) then (add_stale, a) else
  if negb (inPlan a (channel i)) then (unplanned, a) else
  if a_overflow a then (add_overflow, a) else
  if a_truncated a then (truncated, a) else
  if negb (ieLength i =? originalIeLength i) then (truncated, a_reject (a <| a_truncated := true |>)) else
  if 2304 <? ieLength i then (add_overflow, a_reject (a <| a_overflow := true |>)) else
  if negb (inputOk i) then (invalid, a_reject a) else observe a (observed i).

Definition a_channelFinished (a : Abs) (t : Token) (c : Channel) : bool * Abs :=
  if a_current a t && inPlan a c then (true, a <| a_done := {[c]} ∪ a_done a |>) else (false, a).

(** Complete: planned, and every channel of the plan finished. *)
Definition allDone (a : Abs) : bool := a_planned a && forallb (fun c => bool_decide (c ∈ a_done a)) (a_plan a).
(** Not before the previous snapshot, nor before any observation. *)
Definition clockOk (a : Abs) (now : Z) : bool :=
  match a_snapshot a with Some n => n_at n <=? now | None => true end &&
  bool_decide (map_Forall (fun _ o => o_at o <= now) (a_seen a)).
Definition a_finish (a : Abs) (t : Token) (scope : Completion) (now : Z) : FinishResult * Abs :=
  if negb (a_current a t) then (finish_stale, a) else
  if negb (bool_decide (scope = fullScan) && allDone a) then (incomplete, a) else
  if a_overflow a || a_truncated a then (loss, a <| a_active := false |>) else
  if negb (clockOk a now) then (invalidTime, a) else
  (published, a <| a_active := false |>
                <| a_snapshot := Some (mkSnapshot t now (a_rejected a) (a_plan a) (a_seen a)) |>).

Definition a_cancel (a : Abs) (t : Token) : bool * Abs :=
  if a_current a t then (true, a <| a_active := false |> <| a_cancelled := true |>) else (false, a).

Definition a_call (a : Abs) (c : Call) : Answer * Abs :=
  match c with
  | Begin g e => let r := a_begin a g e in (ABool (fst r), snd r)
  | Plan t l n => let r := doPlan a t l n in (ABool (fst r), snd r)
  | Add t i => let r := a_add a t i in (AAdd (fst r), snd r)
  | ChannelFinished t c => let r := a_channelFinished a t c in (ABool (fst r), snd r)
  | Finish t scope now => let r := a_finish a t scope now in (AFinish (fst r), snd r)
  | Cancel t => let r := a_cancel a t in (ABool (fst r), snd r)
  end.
Fixpoint a_calls (a : Abs) (l : list Call) : list Answer * Abs :=
  match l with
  | [] => ([], a)
  | c :: l => let r := a_call a c in let rest := a_calls (snd r) l in (fst r :: fst rest, snd rest)
  end.

(** What the caller owes: buffers at least as long as their lengths say. *)
Definition holds (p : option buf) (n : Z) : Prop := 0 <= n /\ match p with Some b => n <= zlen b | None => True end.
Definition callOk (c : Call) : Prop :=
  match c with
  | Plan _ l n => 0 <= n /\ match l with Some l => n <= zlen l | None => True end
  | Add _ i => holds (bssid i) 6 /\ holds (ssid i) (ssidLength i) /\ holds (ies i) (ieLength i)
  | _ => True
  end.

(** What the accessors of the store show. *)
Definition statusOf (a : Abs) : Status :=
  mkStatus (a_token a) (Z.of_nat (size (a_seen a))) (zlen (a_plan a)) (Z.of_nat (size (a_done a))) (a_rejected a)
    (a_active a) (a_planned a) (a_cancelled a) (a_overflow a) (a_truncated a).
Definition view (e : Entry) : Obs :=
  mkObs (e_observedAtUs e) (e_capability e) (e_beaconInterval e) (e_channel e) (e_signal e)
    (e_bssid e) (take (Z.to_nat (e_ssidLength e)) (e_ssid e)) (take (Z.to_nat (e_ieLength e)) (e_ies e)).

(** Band, then channel, then address. *)
Fixpoint lexb (a b : list Z) : bool :=
  match a, b with x :: a, y :: b => (x <? y) || ((x =? y) && lexb a b) | _, _ => false end.
Definition rankOf (o : Obs) : list Z := band (o_channel o) :: number (o_channel o) :: o_bssid o.
Definition before (a b : Obs) : Prop := lexb (rankOf a) (rankOf b) = true.

Definition summaryOf (n : Snapshot) : Summary :=
  mkSummary (n_token n) (n_at n) (Z.of_nat (size (n_seen n))) (zlen (n_plan n)) (n_rejected n).
Definition shows (s : Store) (a : Abs) : Prop :=
  status_ s = statusOf a /\
  match a_snapshot a with
  | None => completed s = MVal None /\ forall i, 0 <= i -> completedEntry s i = MVal None /\ completedChannel s i = MVal None
  | Some n =>
      completed s = MVal (Some (summaryOf n)) /\
      (forall i, 0 <= i -> completedChannel s i = MVal (n_plan n !! Z.to_nat i)) /\
      exists es, (forall i, 0 <= i -> completedEntry s i = MVal (es !! Z.to_nat i)) /\
        StronglySorted before (map view es) /\ (forall o, o ∈ map view es <-> n_seen n !! key o = Some o)
  end.

(** ** Helpers *)

Lemma at_in {A} (l : list A) i x : 0 <= i -> l !! Z.to_nat i = Some x -> at_ l i = MVal x.
Proof. intros Hi H. unfold at_. destruct (Z.ltb_spec i 0); [lia|]. rewrite H. reflexivity. Qed.
Lemma at_nat {A} (l : list A) i x : l !! i = Some x -> at_ l (Z.of_nat i) = MVal x.
Proof. intros H. apply at_in; [lia|]. rewrite Nat2Z.id. exact H. Qed.
Lemma put_in {A} (l : list A) i x : 0 <= i < zlen l -> put l i x = MVal (<[Z.to_nat i := x]> l).
Proof. intros H. unfold put. destruct (Z.leb_spec 0 i); [|lia]. destruct (Z.ltb_spec i (zlen l)); [|lia]. reflexivity. Qed.
Lemma put_nat {A} (l : list A) i x : (i < length l)%nat -> put l (Z.of_nat i) x = MVal (<[i := x]> l).
Proof. intros H. rewrite put_in by (unfold zlen; lia). rewrite Nat2Z.id. reflexivity. Qed.

Lemma sameChannel_spec a b : sameChannel a b = bool_decide (a = b).
Proof.
  destruct a as [x y], b as [z w]. unfold sameChannel. cbn. apply Bool.eq_true_iff_eq.
  rewrite bool_decide_eq_true, andb_true_iff, !Z.eqb_eq. split; [intros [-> ->]; reflexivity|intros [= -> ->]; auto].
Qed.

Lemma rdp_in b i : 0 <= i < zlen b -> rdp (Some b) i = MVal (byte_at b i).
Proof. apply rd8_in. Qed.

Lemma copy_fills to from n : holds from n -> n <= zlen to -> (from = None -> n = 0) ->
  copy to from n = MVal (blit to 0 (ptrBytes from n)).
Proof.
  intros [Hn Hf] Ht Hz. unfold copy, ptrBytes. destruct from as [b|].
  2:{ rewrite Hz by reflexivity. unfold blit. reflexivity. }
  apply (for_m_copy _ to 0 b 0 n); try lia. intros i t Hi. rewrite rdp_in by lia. reflexivity.
Qed.

Lemma equalFrom_spec a b ao bo n i : 0 <= ao -> 0 <= bo -> 0 <= i ->
  ao + i + Z.of_nat n <= zlen a -> bo + i + Z.of_nat n <= zlen b ->
  equalFrom n i (Some a) (Some b) ao bo =
  MVal (bool_decide (bytesOf a (ao + i) (Z.of_nat n) = bytesOf b (bo + i) (Z.of_nat n))).
Proof.
  intros Ha Hb. revert i. induction n as [|n IH]; intros i Hi H1 H2; [reflexivity|].
  cbn [equalFrom]. rewrite !rdp_in by lia. cbn [mbind mres_bind].
  replace (Z.of_nat (Datatypes.S n)) with (1 + Z.of_nat n) in * by lia. rewrite !bytesOf_cons by lia.
  destruct (Z.eqb_spec (byte_at a (ao + i)) (byte_at b (bo + i))) as [E|E]; cbn [negb].
  - rewrite IH by lia. rewrite E, !Z.add_assoc. f_equal. apply bool_decide_ext. split; [intros ->; reflexivity|intros [= ->]; reflexivity].
  - rewrite bool_decide_false; [reflexivity|]. intros [= E' _]. contradiction.
Qed.
Lemma equal_spec a b ao bo n : 0 <= ao -> 0 <= bo -> 0 <= n -> ao + n <= zlen a -> bo + n <= zlen b ->
  equal (Some a) (Some b) ao bo n = MVal (bool_decide (bytesOf a ao n = bytesOf b bo n)).
Proof.
  intros. unfold equal. rewrite equalFrom_spec by lia. rewrite !Z.add_0_r, Z2Nat.id by lia. reflexivity.
Qed.

Lemma lor_eqb a b : (Z.lor a b =? 0) = (a =? 0) && (b =? 0).
Proof. apply Bool.eq_true_iff_eq. rewrite andb_true_iff, !Z.eqb_eq. apply Z.lor_eq_0_iff. Qed.
Lemma flag_odd v : flag v 1 = Z.odd v.
Proof.
  unfold flag. change 1 with (Z.ones 1) at 1. rewrite Z.land_ones, Z.pow_1_r, Zmod_odd by lia. destruct (Z.odd v); reflexivity.
Qed.
Lemma bytes6 b : 6 <= zlen b -> bytesOf b 0 6 = [byte_at b 0; byte_at b 1; byte_at b 2; byte_at b 3; byte_at b 4; byte_at b 5].
Proof.
  intros H. change 6 with (1 + (1 + (1 + (1 + (1 + (1 + 0)))))). rewrite !bytesOf_cons by lia. reflexivity.
Qed.
Lemma unicast_spec a : holds a 6 -> unicast a = MVal (negb (isNull a) && unicastAddress (ptrBytes a 6)).
Proof.
  intros [_ H]. destruct a as [b|]; [|reflexivity]. cbn [isNull negb andb ptrBytes]. rewrite bytes6 by exact H.
  unfold unicast, unicastAddress. cbn [for_m mbind mres_bind]. rewrite !rdp_in by lia. cbn [mbind mres_bind].
  change (0 + 1) with 1. change (1 + 1) with 2. change (2 + 1) with 3. change (3 + 1) with 4. change (4 + 1) with 5. cbn [existsb]. rewrite flag_odd, !lor_eqb.
  change (byte_at [_; _; _; _; _; _] 0) with (u8 (byte_at b 0)). rewrite (u8_small (byte_at b 0)) by auto with words.
  destruct (byte_at b 0 =? 0), (byte_at b 1 =? 0), (byte_at b 2 =? 0), (byte_at b 3 =? 0), (byte_at b 4 =? 0), (byte_at b 5 =? 0); reflexivity.
Qed.

(** ** Information elements *)

Lemma bytesOf_nil b o : bytesOf b o 0 = []. Proof. reflexivity. Qed.
Lemma bytesOf_split b o n1 n2 : 0 <= o -> 0 <= n1 -> 0 <= n2 -> bytesOf b o (n1 + n2) = bytesOf b o n1 ++ bytesOf b (o + n1) n2.
Proof. intros. unfold bytesOf. rewrite slice_app, map_app by lia. reflexivity. Qed.

(** The walk accepts what the parser accepts, names included. *)
Lemma elementsFrom_spec in_ bytes name :
  ies in_ = Some bytes -> holds (ies in_) (ieLength in_) -> holds (ssid in_) (ssidLength in_) -> ssidLength in_ <= 32 ->
  (ssid in_ = None -> ssidLength in_ = 0) -> name = ptrBytes (ssid in_) (ssidLength in_) ->
  forall fuel offset seen n, 0 <= offset <= ieLength in_ -> ieLength in_ - offset < Z.of_nat fuel ->
  ieLength in_ - offset <= Z.of_nat n ->
  elementsFrom in_ fuel offset seen =
  MVal (namesOk seen name (parseFrom n (bytesOf bytes offset (ieLength in_ - offset)))).
Proof.
  intros Hb Hi Hs H32 Hn ->. rewrite Hb in Hi. destruct Hi as [Hi0 Hi]. destruct Hs as [Hs0 Hs].
  assert (Hname : zlen (ptrBytes (ssid in_) (ssidLength in_)) = ssidLength in_).
  { destruct (ssid in_) as [s|]; cbn; [apply zlen_bytesOf; lia|]. rewrite Hn by reflexivity. reflexivity. }
  induction fuel as [|fuel IH]; intros offset seen n Ho Hf Hk; [lia|]. cbn [elementsFrom].
  destruct (Z.ltb_spec offset (ieLength in_)) as [Hlt|Hge]; cbn [negb].
  2:{ replace (ieLength in_ - offset) with 0 by lia. rewrite bytesOf_nil.
      destruct n; cbn [parseFrom namesOk names filter list_filter map]; do 2 f_equal;
        (apply Bool.eq_true_iff_eq; rewrite Z.eqb_eq, bool_decide_eq_true, <- (nil_zlen (ptrBytes _ _)), Hname; reflexivity). }
  destruct n as [|n]; [lia|].
  destruct (Z.ltb_spec (ieLength in_ - offset) 2) as [H2|H2].
  { replace (ieLength in_ - offset) with (1 + 0) by lia. rewrite bytesOf_cons by lia. reflexivity. }
  rewrite Hb, !rdp_in by lia. cbn [mbind mres_bind].
  replace (ieLength in_ - offset) with (1 + (1 + (ieLength in_ - (offset + 2)))) by lia. rewrite !bytesOf_cons by lia.
  replace (offset + 1 + 1) with (offset + 2) by lia. cbn [parseFrom]. rewrite zlen_bytesOf by lia.
  set (tag := byte_at bytes offset). set (len := byte_at bytes (offset + 1)).
  assert (Hlen : in_u8 len) by (unfold len; auto with words). unfold in_u8 in Hlen.
  destruct (Z.ltb_spec (ieLength in_ - (offset + 2)) len) as [Hl|Hl]; [reflexivity|].
  replace (ieLength in_ - (offset + 2)) with (len + (ieLength in_ - (offset + 2 + len))) by lia.
  rewrite bytesOf_split by lia.
  assert (Hbl : zlen (bytesOf bytes (offset + 2) len) = len) by (apply zlen_bytesOf; lia).
  rewrite take_app_length', drop_app_length' by (unfold zlen in Hbl; lia).
  assert (IHn := fun seen => IH (offset + 2 + len) seen n ltac:(lia) ltac:(lia) ltac:(lia)).
  destruct (Z.eqb_spec tag 0) as [Ht|Ht].
  2:{ rewrite IHn. f_equal. destruct (parseFrom _ _) as [els|]; [|reflexivity]. cbn [fmap option_fmap option_map namesOk].
      unfold names. rewrite filter_cons_False by exact Ht. reflexivity. }
  set (els := parseFrom n (bytesOf bytes (offset + 2 + len) (ieLength in_ - (offset + 2 + len)))) in *.
  assert (Hcons : namesOk seen (ptrBytes (ssid in_) (ssidLength in_)) (cons (tag, bytesOf bytes (offset + 2) len) <$> els) =
    negb seen && bool_decide (bytesOf bytes (offset + 2) len = ptrBytes (ssid in_) (ssidLength in_)) &&
    namesOk true (ptrBytes (ssid in_) (ssidLength in_)) els).
  { destruct els as [els|]; cbn [fmap option_fmap option_map namesOk]; [|rewrite andb_false_r; reflexivity].
    unfold names. rewrite filter_cons_True by exact Ht. cbn [map snd].
    destruct (map snd (filter _ els)) as [|x [|y l]]; cbn [orb negb andb]; rewrite ?andb_true_r, ?andb_false_r; reflexivity. }
  rewrite Hcons. destruct seen; [reflexivity|]. cbn [negb andb orb].
  destruct (Z.ltb_spec 32 len) as [Hm|Hm]; cbn [orb].
  { rewrite bool_decide_false; [reflexivity|]. intros E. apply (f_equal zlen) in E. rewrite zlen_bytesOf, Hname in E by lia. lia. }
  destruct (Z.eqb_spec len (ssidLength in_)) as [El|El]; cbn [negb].
  2:{ rewrite bool_decide_false; [reflexivity|]. intros E. apply (f_equal zlen) in E. rewrite zlen_bytesOf, Hname in E by lia. lia. }
  assert (Heq : (if len =? 0 then MVal true else equal (Some bytes) (ssid in_) (offset + 2) 0 len) =
    MVal (bool_decide (bytesOf bytes (offset + 2) len = ptrBytes (ssid in_) (ssidLength in_))) :> R bool).
  { rewrite <- El. destruct (Z.eqb_spec len 0) as [E0|E0].
    - rewrite bool_decide_true; [reflexivity|]. transitivity (@nil Z); [apply nil_zlen; lia|].
      symmetry. apply nil_zlen. rewrite El. lia.
    - destruct (ssid in_) as [s|]; [|rewrite Hn in El by reflexivity; contradiction]. rewrite equal_spec by lia. reflexivity. }
  rewrite Heq. cbn [mbind mres_bind]. destruct (bool_decide _); cbn [negb andb]; [apply IHn|reflexivity].
Qed.

Lemma bytesOf_u8 b o n : Forall in_u8 (bytesOf b o n).
Proof. unfold bytesOf. apply Forall_forall. intros x (y & -> & _)%list_elem_of_fmap. apply u8_range. Qed.

Lemma informationElements_spec in_ : holds (ies in_) (ieLength in_) -> holds (ssid in_) (ssidLength in_) -> ssidLength in_ <= 32 ->
  (ssid in_ = None -> ssidLength in_ = 0) -> (ies in_ = None -> ieLength in_ = 0) ->
  informationElements in_ = MVal (admissible (observed in_)).
Proof.
  intros Hi Hs H32 Hn Hni. pose proof Hi as [Hi0 Hil]. unfold informationElements, admissible, parseElements, observed. cbn [o_ies o_ssid].
  destruct (ies in_) as [b|] eqn:Eb.
  - rewrite <- Eb in Hi. rewrite (elementsFrom_spec in_ b _ Eb Hi Hs H32 Hn eq_refl _ _ _ (length (bytesOf b 0 (ieLength in_)))).
    + rewrite Z.sub_0_r. reflexivity.
    + lia.
    + rewrite Nat2Z.inj_succ, Z2Nat.id by lia. lia.
    + pose proof (zlen_bytesOf b 0 (ieLength in_)) as H. unfold zlen at 2 in H. lia.
  - rewrite Hni by reflexivity. cbn [ptrBytes length parseFrom Z.to_nat elementsFrom]. rewrite Hni by reflexivity.
    cbn [Z.ltb Z.compare negb orb namesOk names filter list_filter map]. do 2 f_equal.
    destruct (ssid in_) as [s|]; cbn [ptrBytes]; [|rewrite Hn by reflexivity; reflexivity].
    apply Bool.eq_true_iff_eq. rewrite Z.eqb_eq, bool_decide_eq_true, <- nil_zlen, zlen_bytesOf by (destruct Hs; lia). reflexivity.
Qed.

Lemma parse_encode els n : (length els <= n)%nat -> parseFrom n (encodeElements els) = Some els.
Proof.
  revert n. induction els as [|[tag body] els IH]; intros n Hn; [destruct n; reflexivity|].
  destruct n as [|n]; [cbn in Hn; lia|]. unfold encodeElements in *. cbn [map concat encodeElement fst snd app parseFrom].
  destruct (Z.ltb_spec (zlen (body ++ concat (map encodeElement els))) (zlen body)) as [H|_].
  { rewrite zlen_app in H. pose proof (zlen_nonneg (concat (map encodeElement els))). lia. }
  unfold zlen. rewrite Nat2Z.id, take_app_length, drop_app_length. rewrite IH by (cbn in Hn; lia). reflexivity.
Qed.
Lemma encode_parse n l els : Forall in_u8 l -> parseFrom n l = Some els -> encodeElements els = l.
Proof.
  revert l els. induction n as [|n IH]; intros l els Hl H.
  { destruct l; [|discriminate]. injection H as <-. reflexivity. }
  destruct l as [|tag [|len l]]; [injection H as <-; reflexivity|discriminate|]. cbn [parseFrom] in H.
  destruct (Z.ltb_spec (zlen l) len) as [|Hlen]; [discriminate|].
  apply fmap_Some in H as (els' & H & ->). apply Forall_cons in Hl as [_ Hl]. apply Forall_cons in Hl as [Hu Hl].
  unfold in_u8 in Hu. unfold encodeElements. cbn [map concat encodeElement fst snd app].
  fold (encodeElements els'). rewrite (IH _ _ (Forall_drop _ _ _ Hl) H).
  unfold zlen in *. rewrite length_take, take_drop. f_equal. f_equal. lia.
Qed.
Lemma encode_length els : (length els <= length (encodeElements els))%nat.
Proof.
  induction els as [|[tag body] els IH]; [reflexivity|]. unfold encodeElements in *. cbn [map concat encodeElement fst snd app length].
  rewrite length_app. lia.
Qed.
Lemma admissible_spec o : Forall in_u8 (o_ies o) -> admissible o = true <->
  exists els, encodeElements els = o_ies o /\ (names els = [] /\ o_ssid o = [] \/ names els = [o_ssid o]).
Proof.
  intros Hu. unfold admissible, parseElements. split.
  - destruct (parseFrom _ _) as [els|] eqn:E; [|discriminate]. intros H. exists els. split; [eapply encode_parse; eauto|].
    cbn [namesOk orb negb andb] in H. destruct (names els) as [|x [|y l]]; [left|right|discriminate].
    + apply bool_decide_eq_true in H. auto.
    + apply bool_decide_eq_true in H. subst x. reflexivity.
  - intros (els & <- & H). rewrite parse_encode by apply encode_length. cbn [namesOk orb negb andb].
    destruct H as [[-> ->]| ->]; apply bool_decide_eq_true; reflexivity.
Qed.

Lemma acceptable_spec in_ : callOk (Add noToken in_) -> acceptable in_ = MVal (inputOk in_).
Proof.
  intros (H6 & Hs & Hi). unfold acceptable, inputOk. rewrite unicast_spec by exact H6. cbn [mbind mres_bind]. cbn [observed o_bssid].
  destruct (negb (isNull (bssid in_)) && unicastAddress (ptrBytes (bssid in_) 6)) eqn:U; cbn [negb orb andb]; [|reflexivity].
  rewrite (Z.leb_antisym 32). destruct (32 <? ssidLength in_) eqn:L; cbn [negb orb andb]; [reflexivity|].
  destruct (negb (ssidLength in_ =? 0) && isNull (ssid in_)) eqn:N1; cbn [orb].
  { apply andb_true_iff in N1 as [N1 ->]. apply negb_true_iff in N1. rewrite N1. reflexivity. }
  destruct (negb (ieLength in_ =? 0) && isNull (ies in_)) eqn:N2; cbn [orb].
  { apply andb_true_iff in N2 as [N2 ->]. apply negb_true_iff in N2. rewrite N2. cbn [orb negb]. rewrite andb_false_r. reflexivity. }
  destruct (validSignal (signal in_)) eqn:V; cbn [negb orb andb].
  2:{ rewrite andb_false_r. reflexivity. }
  rewrite informationElements_spec; [|exact Hi|exact Hs|lia| |].
  - rewrite andb_true_r. destruct (ssidLength in_ =? 0), (isNull (ssid in_)), (ieLength in_ =? 0), (isNull (ies in_)); try discriminate; reflexivity.
  - intros E. rewrite E in N1. cbn in N1. rewrite andb_true_r in N1. apply negb_false_iff in N1. lia.
  - intros E. rewrite E in N2. cbn in N2. rewrite andb_true_r in N2. apply negb_false_iff in N2. lia.
Qed.

(** ** One record *)

Record entryOk (e : Entry) : Prop := {
  eo_bssid : zlen (e_bssid e) = 6 /\ Forall in_u8 (e_bssid e);
  eo_ssid : 0 <= e_ssidLength e <= 32 /\ zlen (e_ssid e) = 32;
  eo_ies : 0 <= e_ieLength e <= 2304 /\ zlen (e_ies e) = 2304
}.
Lemma take_blit (n : Z) (l : buf) p : 0 <= n -> zlen p = n -> take (Z.to_nat n) (blit l 0 p) = p.
Proof. intros Hn Hp. change (blit l 0 p) with (p ++ drop (length p) l). apply take_app_length'. unfold zlen in Hp. lia. Qed.
Lemma ptrBytes_len p n : holds p n -> (p = None -> n = 0) -> zlen (ptrBytes p n) = n.
Proof. intros [H0 H] Hn. destruct p; cbn; [apply zlen_bytesOf; lia|]. rewrite Hn by reflexivity. reflexivity. Qed.

Lemma fill_spec in_ : callOk (Add noToken in_) -> inputOk in_ = true -> ieLength in_ <= 2304 ->
  exists e, fill in_ = MVal e /\ view e = observed in_ /\ entryOk e.
Proof.
  intros (H6 & Hs & Hi) Hok Hl. unfold inputOk in Hok. rewrite !andb_true_iff, !orb_true_iff, !negb_true_iff in Hok.
  destruct Hok as ((((((A & _) & B) & C) & D) & _) & _).
  assert (E6 : bssid in_ = None -> 6 = 0) by (intros E; rewrite E in A; discriminate).
  assert (Es : ssid in_ = None -> ssidLength in_ = 0) by (intros E; rewrite E in C; destruct C; [lia|discriminate]).
  assert (Ei : ies in_ = None -> ieLength in_ = 0) by (intros E; rewrite E in D; destruct D; [lia|discriminate]).
  pose proof (ptrBytes_len _ _ H6 E6) as L6. pose proof (ptrBytes_len _ _ Hs Es) as Ls. pose proof (ptrBytes_len _ _ Hi Ei) as Li.
  destruct Hs as [Hs0 Hs], Hi as [Hi0 Hi]. unfold fill.
  rewrite (copy_fills _ (bssid in_)); [|split; [lia|destruct H6; assumption]|rewrite zlen_zeros by lia; lia|assumption]. cbn [mbind mres_bind].
  rewrite (copy_fills _ (ssid in_)); [|split; assumption|rewrite zlen_zeros by lia; lia|assumption]. cbn [mbind mres_bind].
  rewrite (copy_fills _ (ies in_)); [|split; assumption|unfold maxIeBytes; rewrite zlen_zeros by lia; lia|assumption]. cbn [mbind mres_bind].
  eexists. split; [reflexivity|]. rewrite u16_small, u8_small by (unfold in_u16, in_u8; lia).
  assert (E0 : blit (zeros 6) 0 (ptrBytes (bssid in_) 6) = ptrBytes (bssid in_) 6) by (apply blit_all; rewrite L6; reflexivity).
  split.
  - unfold view, observed. cbn. rewrite E0, !take_blit by assumption. reflexivity.
  - split; cbn [e_bssid e_ssid e_ssidLength e_ies e_ieLength].
    + rewrite E0. split; [exact L6|]. destruct (bssid in_); [apply bytesOf_u8|constructor].
    + split; [lia|]. rewrite zlen_blit; [reflexivity|lia|rewrite zlen_zeros by lia; lia].
    + split; [lia|]. unfold maxIeBytes. rewrite zlen_blit; [apply zlen_zeros; lia|lia|rewrite zlen_zeros by lia; lia].
Qed.

(** ** The order of the snapshot *)

Lemma lexb_trans a b c : lexb a b = true -> lexb b c = true -> lexb a c = true.
Proof.
  revert b c. induction a as [|x a IH]; intros [|y b] [|z c]; cbn [lexb]; try discriminate.
  rewrite !orb_true_iff, !andb_true_iff, !Z.ltb_lt, !Z.eqb_eq. intros [H|[-> H]] [K|[-> K]]; [left; lia..|right; eauto].
Qed.
Lemma lexb_total a b : length a = length b -> a <> b -> lexb a b = false -> lexb b a = true.
Proof.
  revert b. induction a as [|x a IH]; intros [|y b]; cbn [lexb length]; try discriminate; [intros _ H; contradiction|].
  intros [= Hl] Hne. rewrite orb_false_iff, orb_true_iff, andb_false_iff, andb_true_iff, !Z.ltb_lt, Z.ltb_ge, Z.eqb_neq, Z.eqb_eq.
  intros [H [K|K]]; [left; lia|]. destruct (decide (x = y)) as [->|]; [|left; lia]. right. split; [reflexivity|].
  apply IH; [exact Hl| |exact K]. intros ->. contradiction.
Qed.

Lemma precedesFrom_spec a b n i : 0 <= i -> i + Z.of_nat n <= zlen a -> i + Z.of_nat n <= zlen b ->
  precedesFrom n i a b = MVal (lexb (bytesOf a i (Z.of_nat n)) (bytesOf b i (Z.of_nat n))).
Proof.
  revert i. induction n as [|n IH]; intros i Hi Ha Hb; [reflexivity|]. cbn [precedesFrom]. rewrite !rd8_in by lia. cbn [mbind mres_bind].
  replace (Z.of_nat (Datatypes.S n)) with (1 + Z.of_nat n) in * by lia. rewrite !bytesOf_cons by lia. cbn [lexb].
  destruct (Z.eqb_spec (byte_at a i) (byte_at b i)) as [E|E]; cbn [negb andb].
  - rewrite IH by lia. rewrite E, Z.ltb_irrefl. reflexivity.
  - rewrite orb_false_r. reflexivity.
Qed.
Lemma bytesOf_all b n : zlen b = n -> Forall in_u8 b -> bytesOf b 0 n = b.
Proof.
  intros Hn Hb. unfold bytesOf, slice. change (Z.to_nat 0) with 0%nat. rewrite drop_0, take_ge by (unfold zlen in Hn; lia). apply map_u8_id, Hb.
Qed.
Definition rank (e : Entry) : list Z := rankOf (view e).
Lemma precedes_spec a b : entryOk a -> entryOk b -> precedes a b = MVal (lexb (rank a) (rank b)).
Proof.
  intros [[A1 A2] _ _] [[B1 B2] _ _]. unfold precedes, rank, rankOf. cbn [view o_channel o_bssid lexb].
  destruct (Z.eqb_spec (band (e_channel a)) (band (e_channel b))) as [E|E]; cbn [negb andb].
  2:{ rewrite orb_false_r. reflexivity. }
  rewrite E, Z.ltb_irrefl. cbn [orb].
  destruct (Z.eqb_spec (number (e_channel a)) (number (e_channel b))) as [E'|E']; cbn [negb andb].
  2:{ rewrite orb_false_r. reflexivity. }
  rewrite E', Z.ltb_irrefl, precedesFrom_spec by lia. cbn [orb]. change (Z.of_nat 6) with 6. rewrite !bytesOf_all by assumption. reflexivity.
Qed.

(** What an index of the order stands for. *)
Definition entryOf (es : list Entry) (x : Z) : Entry := nth (Z.to_nat x) es emptyEntry.
Definition less (es : list Entry) (x y : Z) : Prop := lexb (rank (entryOf es x)) (rank (entryOf es y)) = true.

Section sort.
Context (es : list Entry) (n : Z) (Hn : n <= zlen es) (Hes : forall x, 0 <= x < n -> entryOk (entryOf es x)).

Lemma entry_at x : 0 <= x < n -> at_ es x = MVal (entryOf es x).
Proof.
  intros Hx. unfold entryOf. destruct (es !! Z.to_nat x) as [e|] eqn:E.
  - rewrite (nth_lookup_Some _ _ _ _ E). apply at_in; [lia|exact E].
  - apply lookup_ge_None in E. unfold zlen in Hn. lia.
Qed.

Lemma sink_spec e P junk Q : entryOk e -> Forall (fun x => 0 <= x < n) P ->
  exists P1 P2 junk', P = P1 ++ P2 /\
    sink es e (P ++ junk :: Q) (length P) = MVal (P1 ++ junk' :: P2 ++ Q, zlen P1) /\
    Forall (fun x => lexb (rank e) (rank (entryOf es x)) = true) P2 /\
    (forall x P0, P1 = P0 ++ [x] -> lexb (rank e) (rank (entryOf es x)) = false).
Proof.
  intros He HP. revert junk Q. induction P as [|x P IH] using rev_ind; intros junk Q.
  { exists [], [], junk. repeat split; [constructor|]. intros x [|] E; discriminate. }
  apply Forall_app in HP as [HP Hx]. apply Forall_cons in Hx as [Hx _]. rewrite length_app, Nat.add_1_r. cbn [sink].
  rewrite <- app_assoc. cbn [app]. rewrite (at_nat _ _ x) by (rewrite lookup_app_r, Nat.sub_diag by lia; reflexivity).
  cbn [mbind mres_bind]. rewrite entry_at by exact Hx. cbn [mbind mres_bind]. rewrite precedes_spec by (try apply Hes; assumption).
  cbn [mbind mres_bind]. destruct (lexb (rank e) (rank (entryOf es x))) eqn:E.
  - rewrite put_nat by (rewrite length_app; cbn; lia). cbn [mbind mres_bind].
    assert (Ep : <[Datatypes.S (length P) := x]> (P ++ x :: junk :: Q) = P ++ x :: x :: Q).
    { rewrite insert_app_r_alt by lia. replace (Datatypes.S (length P) - length P)%nat with 1%nat by lia. reflexivity. }
    rewrite Ep. destruct (IH HP x (x :: Q)) as (P1 & P2 & j & -> & -> & H1 & H2).
    exists P1, (P2 ++ [x]), j. rewrite <- !app_assoc. cbn [app]. repeat split; [|exact H2].
    apply Forall_app. split; [exact H1|]. constructor; [exact E|constructor].
  - exists (P ++ [x]), [], junk. rewrite app_nil_r, zlen_app, <- app_assoc. cbn [app]. repeat split.
    + do 2 f_equal. unfold zlen. cbn. lia.
    + constructor.
    + intros y P0 Ey. apply app_inj_tail in Ey as [_ ->]. exact E.
Qed.

(** Distinct ranks make the order total. *)
Context (Hdis : forall x y, 0 <= x < n -> 0 <= y < n -> x <> y -> rank (entryOf es x) <> rank (entryOf es y)).

Lemma rank_len x : 0 <= x < n -> length (rank (entryOf es x)) = 8%nat.
Proof. intros Hx. destruct (Hes x Hx) as [[H _] _ _]. unfold rank, rankOf. cbn. unfold zlen in H. lia. Qed.

Lemma sortOrder_spec l k : 0 <= n <= 256 -> n <= zlen l -> (Z.of_nat k <= n) -> exists P rest,
  for_m k 0 (fun i l => e ← at_ es i; r ← sink es e l (Z.to_nat i); put (fst r) (snd r) (u8 i)) l = MVal (P ++ rest) /\
  length (P ++ rest) = length l /\ Permutation P (seqZ 0 (Z.of_nat k)) /\ StronglySorted (less es) P.
Proof.
  intros Hn0 Hl. induction k as [|k IH]; intros Hk.
  { exists [], l. split; [reflexivity|]. split; [reflexivity|]. split; constructor. }
  destruct IH as (P & rest & H1 & H2 & H3 & H4); [lia|]. rewrite for_m_last, H1. cbn [mbind mres_bind].
  rewrite Z.add_0_l. rewrite entry_at by lia. cbn [mbind mres_bind]. rewrite Nat2Z.id.
  assert (HPl : length P = k) by (rewrite (Permutation_length H3), length_seqZ; lia).
  assert (HP : Forall (fun x => 0 <= x < Z.of_nat k) P).
  { rewrite H3. apply Forall_forall. intros x Hx%elem_of_seqZ. lia. }
  destruct rest as [|junk Q]; [rewrite app_nil_r in H2; unfold zlen in Hl; lia|].
  assert (He : entryOk (entryOf es (Z.of_nat k))) by (apply Hes; lia).
  destruct (sink_spec (entryOf es (Z.of_nat k)) P junk Q He) as (P1 & P2 & j & EP & Hs & Hb & Ha).
  { eapply Forall_impl; [exact HP|]. cbn. lia. }
  rewrite HPl in Hs. rewrite Hs. cbn [mbind mres_bind fst snd].
  assert (Elen : length (P1 ++ j :: P2 ++ Q) = length l) by (rewrite <- H2, EP, !length_app; cbn; rewrite length_app; cbn; lia).
  unfold zlen at 1. rewrite put_nat by (rewrite length_app; cbn; lia). rewrite insert_app_r_alt, Nat.sub_diag by lia. cbn [insert list_insert].
  rewrite u8_small by (unfold in_u8; lia).
  exists (P1 ++ Z.of_nat k :: P2), Q. rewrite <- app_assoc. cbn [app]. split; [reflexivity|]. split.
  { rewrite <- Elen, !length_app. cbn. lia. }
  assert (Hseq : seqZ 0 (Z.of_nat (Datatypes.S k)) = seqZ 0 (Z.of_nat k) ++ [Z.of_nat k]).
  { replace (Z.of_nat (Datatypes.S k)) with (Z.of_nat k + 1) by lia. rewrite seqZ_app by lia. reflexivity. }
  split.
  { rewrite Hseq, <- H3, EP, <- Permutation_middle. apply Permutation_cons_append. }
  rewrite EP in HP, H4. apply Forall_app in HP as [HP1 HP2]. rewrite Forall_forall in HP1, HP2, Hb.
  assert (Hlast : forall x, x ∈ P1 -> less es x (Z.of_nat k)).
  { intros x Hx. destruct P1 as [|y P0 _] using rev_ind; [inversion Hx|].
    assert (Hy : less es y (Z.of_nat k)).
    { assert (0 <= y < Z.of_nat k) by (apply HP1, elem_of_app; right; apply list_elem_of_singleton; reflexivity).
      apply lexb_total; [rewrite !rank_len by lia; reflexivity|apply Hdis; lia|]. exact (Ha y P0 eq_refl). }
    apply elem_of_app in Hx as [Hx|Hx]; [|apply list_elem_of_singleton in Hx; subst x; exact Hy].
    apply StronglySorted_app_1_l in H4. unfold less. eapply lexb_trans; [|exact Hy].
    eapply (StronglySorted_app_1_elem_of _ _ _ _ _ H4); [exact Hx|apply list_elem_of_singleton; reflexivity]. }
  apply StronglySorted_app_2.
  - intros x y Hx Hy. apply elem_of_cons in Hy as [->|Hy]; [apply Hlast; exact Hx|].
    exact (StronglySorted_app_1_elem_of _ _ _ _ _ H4 Hx Hy).
  - exact (StronglySorted_app_1_l _ _ _ H4).
  - constructor; [exact (StronglySorted_app_1_r _ _ _ H4)|]. apply List.Forall_forall. intros x Hx. apply Hb. apply list_elem_of_In. exact Hx.
Qed.
End sort.

(** ** The searches *)

Lemma take_snoc {A} (l : list A) i x : l !! i = Some x -> take (Datatypes.S i) l = take i l ++ [x].
Proof. intros H. apply take_S_r. exact H. Qed.
Lemma in_range {A} (l : list A) i n : (i + Datatypes.S n <= length l)%nat -> exists x, l !! i = Some x.
Proof. intros H. apply lookup_lt_is_Some_2. lia. Qed.

Lemma channelFrom_spec l c n i : (i + n <= length l)%nat ->
  (exists k, (i <= k < i + n)%nat /\ l !! k = Some c /\ channelFrom n (Z.of_nat i) l c = MVal (Z.of_nat k)) \/
  ((forall k, (i <= k < i + n)%nat -> l !! k <> Some c) /\ channelFrom n (Z.of_nat i) l c = MVal maxChannels).
Proof.
  revert i. induction n as [|n IH]; intros i Hi; [right; split; [intros k Hk; lia|reflexivity]|].
  destruct (in_range l i n Hi) as [x Hx]. cbn [channelFrom]. rewrite (at_nat _ _ _ Hx). cbn [mbind mres_bind].
  rewrite sameChannel_spec. destruct (bool_decide_reflect (c = x)) as [->|Hne].
  { left. exists i. split; [lia|auto]. }
  replace (Z.of_nat i + 1) with (Z.of_nat (Datatypes.S i)) by lia.
  destruct (IH (Datatypes.S i)) as [(k & Hk & H1 & H2)|[H1 H2]]; [lia| |].
  - left. exists k. split; [lia|auto].
  - right. split; [|exact H2]. intros k Hk. destruct (decide (k = i)) as [->|]; [congruence|apply H1; lia].
Qed.

Lemma repeatedFrom_spec l c n i : (i + n <= length l)%nat ->
  repeatedFrom n (Z.of_nat i) l c = MVal (bool_decide (c ∈ take n (drop i l))).
Proof.
  revert i. induction n as [|n IH]; intros i Hi; [reflexivity|].
  destruct (in_range l i n Hi) as [x Hx]. cbn [repeatedFrom]. rewrite (at_nat _ _ _ Hx), (drop_S _ _ _ Hx). cbn [mbind mres_bind take].
  rewrite sameChannel_spec. replace (Z.of_nat i + 1) with (Z.of_nat (Datatypes.S i)) by lia.
  destruct (bool_decide_reflect (c = x)) as [->|Hne].
  - rewrite bool_decide_true by left. reflexivity.
  - rewrite IH by lia. f_equal. apply bool_decide_ext. rewrite elem_of_cons. split; [auto|intros [E|E]; [contradiction|exact E]].
Qed.

Lemma planFrom_spec l n i : (i + n <= length l)%nat -> NoDup (take i l) -> forallb validChannel (take i l) = true ->
  planFrom n (Z.of_nat i) l = MVal (forallb validChannel (take (i + n) l) && bool_decide (NoDup (take (i + n) l))).
Proof.
  revert i. induction n as [|n IH]; intros i Hi Hd Hv.
  { rewrite Nat.add_0_r, Hv, bool_decide_true by exact Hd. reflexivity. }
  destruct (in_range l i n Hi) as [c Hc]. cbn [planFrom]. rewrite (at_nat _ _ _ Hc). cbn [mbind mres_bind].
  assert (Hall : take (i + Datatypes.S n) l = take i l ++ c :: take n (drop (Datatypes.S i) l)).
  { rewrite <- take_take_drop. f_equal. rewrite (drop_S _ _ _ Hc). reflexivity. }
  destruct (validChannel c) eqn:Ev; cbn [negb].
  2:{ rewrite Hall, forallb_app. cbn [forallb]. rewrite Ev. cbn [andb]. rewrite andb_false_r. reflexivity. }
  rewrite Nat2Z.id. change 0 with (Z.of_nat 0) at 1. rewrite repeatedFrom_spec by lia. cbn [mbind mres_bind]. rewrite drop_0.
  destruct (bool_decide_reflect (c ∈ take i l)) as [Hin|Hnot].
  - rewrite (bool_decide_false (NoDup _)), andb_false_r; [reflexivity|]. rewrite Hall. intros H.
    apply NoDup_app in H as (_ & H & _). exact (H c Hin ltac:(left)).
  - replace (Z.of_nat i + 1) with (Z.of_nat (Datatypes.S i)) by lia. rewrite IH.
    + replace (Datatypes.S i + n)%nat with (i + Datatypes.S n)%nat by lia. reflexivity.
    + lia.
    + rewrite (take_snoc _ _ _ Hc). apply NoDup_app. split; [exact Hd|]. split; [|apply NoDup_singleton].
      intros x Hx ->%list_elem_of_singleton. contradiction.
    + rewrite (take_snoc _ _ _ Hc), forallb_app, Hv. cbn [forallb]. rewrite Ev. reflexivity.
Qed.

Lemma planFrom_all l n : (n <= length l)%nat ->
  planFrom n 0 l = MVal (forallb validChannel (take n l) && bool_decide (NoDup (take n l))).
Proof. intros H. apply (planFrom_spec l n 0); [lia|constructor|reflexivity]. Qed.

Lemma inTimeFrom_spec l limit n i : (i + n <= length l)%nat ->
  inTimeFrom n (Z.of_nat i) l limit = MVal (forallb (fun e => e_observedAtUs e <=? limit) (take n (drop i l))).
Proof.
  revert i. induction n as [|n IH]; intros i Hi; [reflexivity|].
  destruct (in_range l i n Hi) as [x Hx]. cbn [inTimeFrom]. rewrite (at_nat _ _ _ Hx), (drop_S _ _ _ Hx). cbn [mbind mres_bind take forallb].
  rewrite Z.leb_antisym. destruct (limit <? e_observedAtUs x); [reflexivity|]. cbn [negb andb].
  replace (Z.of_nat i + 1) with (Z.of_nat (Datatypes.S i)) by lia. apply IH. lia.
Qed.

Definition sameKey (in_ : Input) (e : Entry) : Prop := key (view e) = key (observed in_).
#[local] Instance sameKey_dec in_ e : Decision (sameKey in_ e). Proof. unfold sameKey. apply _. Defined.
Lemma findEntry_spec in_ l n i : holds (bssid in_) 6 -> bssid in_ <> None -> Forall entryOk (take (i + n) l) -> (i + n <= length l)%nat ->
  (exists k e, (i <= k < i + n)%nat /\ l !! k = Some e /\ sameKey in_ e /\
     findEntry in_ l n (Z.of_nat i) = MVal (if observedAtUs in_ <=? e_observedAtUs e then None else Some (Z.of_nat k))) \/
  ((forall k e, (i <= k < i + n)%nat -> l !! k = Some e -> ~ sameKey in_ e) /\
     findEntry in_ l n (Z.of_nat i) = MVal (Some (Z.of_nat (i + n)))).
Proof.
  intros [_ Hb] Hnn. destruct (bssid in_) as [b|] eqn:Eb; [clear Hnn|contradiction].
  revert i. induction n as [|n IH]; intros i Hok Hi; [right; split; [intros k e Hk; lia|rewrite Nat.add_0_r; reflexivity]|].
  destruct (in_range l i n Hi) as [e He]. cbn [findEntry]. rewrite (at_nat _ _ _ He). cbn [mbind mres_bind].
  assert (Heo : entryOk e).
  { rewrite Forall_forall in Hok. apply Hok. apply (list_elem_of_lookup_2 _ i). rewrite lookup_take_lt by lia. exact He. }
  assert (Hs : (if sameChannel (channel in_) (e_channel e) then equal (bssid in_) (Some (e_bssid e)) 0 0 6 else MVal false)
    = MVal (bool_decide (sameKey in_ e)) :> R bool).
  { assert (Hiff : sameKey in_ e <-> channel in_ = e_channel e /\ bytesOf b 0 6 = e_bssid e).
    { unfold sameKey, key, view, observed. cbn [o_channel o_bssid]. rewrite Eb. cbn [ptrBytes].
      split; [intros [= -> ->]; auto|intros [-> ->]; reflexivity]. }
    rewrite sameChannel_spec, Eb. destruct Heo as [[H6 Hu] _ _].
    destruct (bool_decide_reflect (channel in_ = e_channel e)) as [E|Hne].
    - rewrite equal_spec by lia. rewrite (bytesOf_all (e_bssid e)) by assumption. f_equal. apply bool_decide_ext. rewrite Hiff. tauto.
    - rewrite bool_decide_false; [reflexivity|]. rewrite Hiff. tauto. }
  rewrite Hs. cbn [mbind mres_bind]. destruct (bool_decide_reflect (sameKey in_ e)) as [Hk|Hk].
  { left. exists i, e. split; [lia|]. split; [exact He|]. split; [exact Hk|]. destruct (_ <=? _); reflexivity. }
  replace (Z.of_nat i + 1) with (Z.of_nat (Datatypes.S i)) by lia.
  destruct (IH (Datatypes.S i)) as [(k & e' & Hr & H1 & H2 & H3)|[H1 H2]].
  - replace (Datatypes.S i + n)%nat with (i + Datatypes.S n)%nat by lia. exact Hok.
  - lia.
  - left. exists k, e'. split; [lia|auto].
  - right. split.
    + intros k e' Hr H. destruct (decide (k = i)) as [->|]; [congruence|apply (H1 k); [lia|exact H]].
    + rewrite H2. do 3 f_equal. lia.
Qed.

(** ** Observations by key *)

Definition kmap (l : list Obs) : gmap Key Obs := list_to_map ((fun o => (key o, o)) <$> l).
Lemma kmap_fst l : ((fun o => (key o, o)) <$> l).*1 = key <$> l.
Proof. rewrite <- list_fmap_compose. reflexivity. Qed.
Lemma kmap_lookup l k o : NoDup (key <$> l) -> kmap l !! k = Some o <-> o ∈ l /\ key o = k.
Proof.
  intros Hd. unfold kmap. rewrite <- elem_of_list_to_map by (rewrite kmap_fst; exact Hd). rewrite list_elem_of_fmap.
  split; [intros (y & [= -> ->] & H); auto|]. intros [H <-]. eauto.
Qed.
Lemma kmap_none l k : kmap l !! k = None <-> k ∉ key <$> l.
Proof. unfold kmap. rewrite <- not_elem_of_list_to_map, kmap_fst. reflexivity. Qed.
Lemma kmap_size l : NoDup (key <$> l) -> size (kmap l) = length l.
Proof. intros Hd. unfold kmap. rewrite map_size_list_to_map by (rewrite kmap_fst; exact Hd). apply length_fmap. Qed.
Lemma kmap_perm l1 l2 : NoDup (key <$> l1) -> Permutation l1 l2 -> kmap l1 = kmap l2.
Proof.
  intros Hd Hp. unfold kmap. apply list_to_map_proper; [rewrite kmap_fst; exact Hd|]. apply fmap_Permutation. exact Hp.
Qed.
Lemma kmap_snoc l o : key o ∉ key <$> l -> NoDup (key <$> l) -> kmap (l ++ [o]) = <[key o := o]> (kmap l).
Proof.
  intros Hn Hd. rewrite (kmap_perm _ (o :: l)); [reflexivity| |].
  - rewrite fmap_app. apply NoDup_app. split; [exact Hd|]. split; [|apply NoDup_singleton].
    intros k Hk ->%list_elem_of_singleton. contradiction.
  - symmetry. apply Permutation_cons_append.
Qed.
Lemma kmap_replace l i p o : l !! i = Some p -> key p = key o -> NoDup (key <$> l) ->
  kmap (<[i := o]> l) = <[key o := o]> (kmap l).
Proof.
  intros Hi Hk Hd. apply map_eq. intros k. apply option_eq. intros x.
  assert (Hsame : key <$> <[i := o]> l = key <$> l).
  { rewrite list_fmap_insert. apply list_insert_id. rewrite list_lookup_fmap, Hi. cbn. congruence. }
  rewrite kmap_lookup by (rewrite Hsame; exact Hd). rewrite lookup_insert_Some, kmap_lookup by exact Hd.
  assert (Hx : forall y, y ∈ l -> key y = key o -> y = p).
  { intros y [j Hj]%list_elem_of_lookup E. assert (j = i); [|congruence].
    eapply (NoDup_lookup _ j i (key o) Hd); rewrite list_lookup_fmap; [rewrite Hj|rewrite Hi]; cbn; congruence. }
  split.
  - intros [[j Hj]%list_elem_of_lookup <-]. destruct (decide (i = j)) as [<-|Hne].
    + rewrite list_lookup_insert_eq in Hj by (eapply lookup_lt_Some; exact Hi). injection Hj as <-. auto.
    + rewrite list_lookup_insert_ne in Hj by exact Hne. right. assert (x ∈ l) by (eapply list_elem_of_lookup_2; exact Hj).
      split; [|auto]. intros E. assert (x = p) by auto. subst x. apply Hne.
      eapply (NoDup_lookup _ i j (key p) Hd); rewrite list_lookup_fmap; [rewrite Hi|rewrite Hj]; reflexivity.
  - intros [[<- <-]|[Hne [Hin <-]]].
    + split; [|reflexivity]. apply (list_elem_of_lookup_2 _ i). apply list_lookup_insert_eq. eapply lookup_lt_Some; exact Hi.
    + split; [|reflexivity]. apply list_elem_of_lookup in Hin as [j Hj]. apply (list_elem_of_lookup_2 _ j).
      rewrite list_lookup_insert_ne; [exact Hj|]. intros ->. congruence.
Qed.

(** ** The relation between the store and the specification *)

Record bankOk (b : Bank) : Prop := {
  bk_channels : length (channels b) = 64%nat; bk_order : length (order b) = 64%nat; bk_entries : length (entries b) = 64%nat
}.

(** The bank being filled holds the scan in progress. *)
Record live (w : Bank) (mask : Z) (isPlanned : bool) (p : list Channel) (done : gset Channel) (seen : gmap Key Obs) : Prop := {
  lv_plan : p = take (length p) (channels w);
  lv_plan_len : (length p <= 64)%nat;
  lv_nodup : NoDup p;
  lv_planned : isPlanned = false -> p = [] /\ mask = 0;
  lv_done : forall c, c ∈ done -> c ∈ p;
  lv_mask : forall k c, p !! k = Some c -> Z.testbit mask (Z.of_nat k) = bool_decide (c ∈ done);
  lv_count : (size seen <= 64)%nat;
  lv_seen : seen = kmap (view <$> take (size seen) (entries w));
  lv_keys : NoDup (key <$> (view <$> take (size seen) (entries w)));
  lv_entries : Forall entryOk (take (size seen) (entries w))
}.

(** The other bank holds the snapshot. *)
Definition shown (p : Bank) (has : bool) (sn : option Snapshot) : Prop :=
  match sn with
  | None => has = false
  | Some n =>
      has = true /\ summary p = summaryOf n /\ n_plan n = take (length (n_plan n)) (channels p) /\ (size (n_seen n) <= 64)%nat /\
      let es := entryOf (entries p) <$> take (size (n_seen n)) (order p) in
      Forall (fun x => 0 <= x < 64) (take (size (n_seen n)) (order p)) /\
      StronglySorted before (view <$> es) /\ forall o, o ∈ view <$> es <-> n_seen n !! key o = Some o
  end.

Record inv (w p : Bank) (s : Store) (a : Abs) : Prop := {
  iv_w : bankOk w; iv_p : bankOk p;
  iv_banks : banks_ s = if working_ s =? 0 then [w; p] else [p; w];
  iv_working : working_ s = 0 \/ working_ s = 1;
  iv_published : published_ s = 1 - working_ s;
  iv_status : status_ s = statusOf a;
  iv_live : a_active a = true -> live w (completedMask_ s) (a_planned a) (a_plan a) (a_done a) (a_seen a);
  iv_shown : shown p (hasPublished_ s) (a_snapshot a)
}.
Definition Inv (s : Store) (a : Abs) : Prop := exists w p, inv w p s a.
(** A call answers like the specification, and the relation is kept. *)
Definition follows {X} (r : R (X * Store)) (x : X * Abs) : Prop := exists s', r = MVal (fst x, s') /\ Inv s' (snd x).

Lemma at_working w p s a : inv w p s a -> at_ (banks_ s) (working_ s) = MVal w.
Proof. intros []. rewrite iv_banks0. destruct iv_working0 as [-> | ->]; reflexivity. Qed.
Lemma at_published w p s a : inv w p s a -> at_ (banks_ s) (published_ s) = MVal p.
Proof. intros []. rewrite iv_banks0, iv_published0. destruct iv_working0 as [-> | ->]; reflexivity. Qed.
Definition withBank (s : Store) (b p : Bank) : list Bank := if working_ s =? 0 then [b; p] else [p; b].
Lemma setWorking_spec w p s a b : inv w p s a -> setWorking s b = MVal (s <| banks_ := withBank s b p |>).
Proof. intros []. unfold setWorking, withBank. rewrite iv_banks0. destruct iv_working0 as [-> | ->]; reflexivity. Qed.
Lemma current_spec w p s a t : inv w p s a -> current s t = a_current a t.
Proof. intros []. unfold current, a_current. rewrite iv_status0. reflexivity. Qed.
Lemma reject_spec a : reject (statusOf a) = statusOf (a_reject a).
Proof. unfold reject, a_reject. cbn [statusOf rejected]. destruct (a_rejected a =? 4294967295); reflexivity. Qed.

Lemma inv_status w p s a a' : inv w p s a -> a_snapshot a' = a_snapshot a ->
  (a_active a' = true -> a_active a = true /\ a_planned a' = a_planned a /\ a_plan a' = a_plan a /\ a_done a' = a_done a /\ a_seen a' = a_seen a) ->
  inv w p (s <| status_ := statusOf a' |>) a'.
Proof.
  intros [] Hs Ha. split; try assumption.
  - reflexivity.
  - intros H. destruct (Ha H) as (H1 & -> & -> & -> & ->). apply iv_live0. exact H1.
  - rewrite Hs. exact iv_shown0.
Qed.
(** ... of flags and counters only. *)
Lemma inv_reject w p s a a' : inv w p s a -> a_snapshot a' = a_snapshot a -> a_active a' = a_active a -> a_planned a' = a_planned a ->
  a_plan a' = a_plan a -> a_done a' = a_done a -> a_seen a' = a_seen a ->
  Inv (s <| status_ := reject (statusOf a') |>) (a_reject a').
Proof.
  intros H H1 H2 H3 H4 H5 H6. exists w, p. rewrite reject_spec. apply (inv_status w p s a); [exact H| |].
  - unfold a_reject. destruct (_ =? _); exact H1.
  - unfold a_reject. destruct (_ =? _); cbn; intros Hc; (split; [congruence|auto]).
Qed.

Lemma emptyBank_ok : bankOk emptyBank. Proof. split; reflexivity. Qed.
Lemma live_fresh w : live w 0 false [] ∅ ∅.
Proof.
  split.
  - reflexivity.
  - cbn. lia.
  - constructor.
  - auto.
  - intros c Hc. set_solver.
  - intros k c Hk. discriminate.
  - rewrite map_size_empty. lia.
  - rewrite map_size_empty. reflexivity.
  - rewrite map_size_empty. constructor.
  - rewrite map_size_empty. constructor.
Qed.

Lemma begin_follows s a g e : Inv s a -> follows (begin s g e) (a_begin a g e).
Proof.
  intros (w & p & H). pose proof H as []. unfold begin, a_begin, follows. rewrite iv_status0. cbn [statusOf token active epoch generation].
  assert (E : a_active a || (g =? 0) || (e =? 0) || (e <? epoch (a_token a)) ||
    ((e =? epoch (a_token a)) && (g <=? generation (a_token a))) = negb (negb (a_active a) && newer (mkToken g e) (a_token a))).
  { unfold newer. cbn [generation epoch]. destruct (a_active a), (g =? 0), (e =? 0); try reflexivity. cbn [orb negb andb].
    destruct (Z.ltb_spec e (epoch (a_token a))), (Z.ltb_spec (epoch (a_token a)) e), (Z.eqb_spec e (epoch (a_token a))); try lia; reflexivity. }
  rewrite E. destruct (negb (a_active a) && _); cbn [negb].
  - rewrite (setWorking_spec w p s a) by exact H. cbn [mbind mres_bind fst snd]. eexists. split; [reflexivity|].
    exists emptyBank, p. split; cbn; try assumption.
    + apply emptyBank_ok.
    + reflexivity.
    + reflexivity.
    + intros _. apply live_fresh.
  - exists s. split; [reflexivity|]. exists w, p. exact H.
Qed.

Lemma cancel_follows s a t : Inv s a -> follows (cancel s t) (a_cancel a t).
Proof.
  intros (w & p & H). pose proof H as []. unfold cancel, a_cancel, follows. rewrite (current_spec w p s a) by exact H.
  destruct (a_current a t); cbn [negb].
  - rewrite (setWorking_spec w p s a) by exact H. cbn [mbind mres_bind fst snd]. eexists. split; [reflexivity|].
    exists emptyBank, p. split; cbn; try assumption; try discriminate.
    + apply emptyBank_ok.
    + reflexivity.
    + rewrite iv_status0. reflexivity.
  - exists s. split; [reflexivity|]. exists w, p. exact H.
Qed.

Lemma copyChannels (l cs : list Channel) n : (n <= length l)%nat -> (n <= length cs)%nat ->
  for_m n 0 (fun i cs => c ← at_ l i; put cs i c) cs = MVal (take n l ++ drop n cs) :> R (list Channel).
Proof.
  induction n as [|n IH]; intros Hl Hc; [reflexivity|]. rewrite for_m_last, IH by lia. cbn [mbind mres_bind].
  rewrite Z.add_0_l. destruct (in_range l n 0) as [c Hx]; [lia|]. rewrite (at_nat _ _ _ Hx). cbn [mbind mres_bind].
  rewrite put_nat by (rewrite length_app, length_take, length_drop; lia). rewrite (take_snoc _ _ _ Hx), <- app_assoc. f_equal.
  assert (Ht : length (take n l) = n) by (rewrite length_take; lia).
  rewrite insert_app_r_alt, Ht, Nat.sub_diag by lia. f_equal.
  destruct (in_range cs n 0) as [d Hd]; [lia|]. rewrite (drop_S _ _ _ Hd). reflexivity.
Qed.

Lemma plan_follows s a t l n : Inv s a -> callOk (Plan t l n) -> follows (plan s t l n) (doPlan a t l n).
Proof.
  intros (w & p & H) [Hn Hl]. pose proof H as []. unfold plan, doPlan, follows.
  assert (Hsame : Inv s a) by (exists w, p; exact H).
  destruct l as [l|]; [|exists s; split; [reflexivity|exact Hsame]]. rewrite (current_spec w p s a) by exact H. rewrite iv_status0.
  cbn [statusOf planned]. destruct (a_current a t) eqn:Ec; cbn [negb orb andb]; [|exists s; split; [reflexivity|exact Hsame]].
  destruct (a_planned a) eqn:Ep; cbn [negb orb andb]; [exists s; split; [reflexivity|exact Hsame]|].
  assert (Ht : length (take (Z.to_nat n) l) = Z.to_nat n) by (rewrite length_take; unfold zlen in Hl; lia).
  assert (EL : zlen (take (Z.to_nat n) l) = n) by (unfold zlen; lia).
  unfold planOk. rewrite EL. unfold maxChannels.
  assert (E : (n =? 0) || (64 <? n) = negb ((1 <=? n) && (n <=? 64))).
  { destruct (Z.eqb_spec n 0), (Z.ltb_spec 64 n), (Z.leb_spec 1 n), (Z.leb_spec n 64); try lia; reflexivity. }
  rewrite E. destruct ((1 <=? n) && (n <=? 64)) eqn:En; cbn [negb andb]; [|exists s; split; [reflexivity|exact Hsame]].
  apply andb_true_iff in En as [En1 En2].
  rewrite planFrom_all by (unfold zlen in Hl; lia). cbn [mbind mres_bind].
  destruct (forallb validChannel (take (Z.to_nat n) l) && bool_decide (NoDup (take (Z.to_nat n) l))) eqn:Eok; cbn [negb];
    [|exists s; split; [reflexivity|exact Hsame]].
  apply andb_true_iff in Eok as [_ Hd%bool_decide_eq_true]. rewrite (at_working w p s a) by exact H. cbn [mbind mres_bind].
  destruct iv_w0. rewrite copyChannels by (unfold zlen in Hl; lia). cbn [mbind mres_bind].
  rewrite (setWorking_spec w p s a) by exact H. cbn [mbind mres_bind fst snd]. eexists. split; [reflexivity|].
  unfold a_current in Ec. apply andb_true_iff in Ec as [Ea _]. destruct (iv_live0 Ea). destruct (lv_planned0 eq_refl) as [Hp0 Hm0].
  exists (w <| channels := take (Z.to_nat n) l ++ drop (Z.to_nat n) (channels w) |>), p. split; cbn; try assumption.
  - split; cbn; [rewrite length_app, Ht, length_drop; lia|assumption..].
  - reflexivity.
  - rewrite iv_status0. unfold statusOf, zlen. cbn. rewrite Ht, Z2Nat.id by exact Hn. reflexivity.
  - intros _. assert (Hdone : forall c, c ∉ a_done a).
    { intros c Hc. apply lv_done0 in Hc. rewrite Hp0 in Hc. inversion Hc. }
    split; cbn; try assumption.
    + rewrite take_app_length. reflexivity.
    + rewrite Ht. lia.
    + discriminate.
    + intros c Hc. exfalso. exact (Hdone c Hc).
    + intros k c _. rewrite Hm0, Z.testbit_0_l. symmetry. apply bool_decide_false. apply Hdone.
Qed.

Lemma plan_lookup w mask b p done seen k : live w mask b p done seen -> (k < length p)%nat -> p !! k = channels w !! k.
Proof. intros [] Hk. rewrite lv_plan0. rewrite lookup_take_lt by exact Hk. reflexivity. Qed.

Lemma channelIndex_spec w p s a c : inv w p s a -> a_active a = true -> a_planned a = true ->
  (exists k, a_plan a !! k = Some c /\ (k < 64)%nat /\ channelIndex s c = MVal (Z.of_nat k)) \/
  (~ (c ∈ a_plan a) /\ channelIndex s c = MVal maxChannels).
Proof.
  intros H Ha Hp. pose proof H as []. unfold channelIndex. rewrite (at_working w p s a), iv_status0 by exact H. cbn [mbind mres_bind statusOf plannedChannels].
  pose proof (iv_live0 Ha) as Hl. pose proof Hl as []. destruct iv_w0. unfold zlen. rewrite Nat2Z.id.
  destruct (channelFrom_spec (channels w) c (length (a_plan a)) 0) as [(k & Hk & H1 & H2)|[H1 H2]]; [lia|left|right].
  - exists k. rewrite (plan_lookup _ _ _ _ _ _ _ Hl) by lia. split; [exact H1|]. split; [lia|exact H2].
  - split; [|exact H2]. intros [k Hk]%list_elem_of_lookup. apply (H1 k).
    + apply lookup_lt_Some in Hk. lia.
    + rewrite <- (plan_lookup _ _ _ _ _ _ _ Hl) by (eapply lookup_lt_Some; exact Hk). exact Hk.
Qed.
Lemma a_current_active a t : a_current a t = true -> a_active a = true.
Proof. intros [H _]%andb_true_iff. exact H. Qed.

Lemma channelFinished_follows s a t c : Inv s a -> follows (channelFinished s t c) (a_channelFinished a t c).
Proof.
  intros (w & p & H). pose proof H as []. unfold channelFinished, a_channelFinished, inPlan, follows.
  assert (Hsame : Inv s a) by (exists w, p; exact H).
  rewrite (current_spec w p s a), iv_status0 by exact H. cbn [statusOf planned].
  destruct (a_current a t) eqn:Ec; cbn [negb orb andb]; [|exists s; auto]. apply a_current_active in Ec.
  destruct (a_planned a) eqn:Ep; cbn [negb orb andb]; [|exists s; auto].
  destruct (channelIndex_spec w p s a c H Ec Ep) as [(k & Hk & H64 & ->)|[Hn ->]]; cbn [mbind mres_bind].
  2:{ rewrite bool_decide_false by exact Hn. exists s. auto. }
  assert (Hin : c ∈ a_plan a) by (eapply list_elem_of_lookup_2; exact Hk).
  rewrite bool_decide_true by exact Hin. unfold maxChannels. destruct (Z.eqb_spec (Z.of_nat k) 64) as [|_]; [lia|].
  rewrite flag_bit by lia. destruct (iv_live0 Ec). rewrite (lv_mask0 _ _ Hk). cbn [fst snd].
  destruct (bool_decide_reflect (c ∈ a_done a)) as [Hd|Hd].
  - exists s. split; [reflexivity|]. exists w, p.
    assert (E : a <| a_done := {[c]} ∪ a_done a |> = a).
    { assert (Ed : {[c]} ∪ a_done a = a_done a) by set_solver. rewrite Ed. destruct a. reflexivity. }
    rewrite E. exact H.
  - eexists. split; [reflexivity|]. exists w, p. split; cbn; try assumption.
    + unfold statusOf. cbn. rewrite Ep. f_equal. rewrite size_union by set_solver. rewrite size_singleton. lia.
    + intros _. rewrite Ep. split; try assumption.
      * discriminate.
      * intros d [->%elem_of_singleton|Hd']%elem_of_union; auto.
      * intros j d Hj. apply Bool.eq_true_iff_eq. rewrite lor_bit by lia. rewrite (lv_mask0 _ _ Hj), !bool_decide_eq_true.
        rewrite elem_of_union, elem_of_singleton.
        split; [intros [Hx|Hx]; [auto|left]|intros [->|Hx]; [right|auto]].
        -- assert (k = j) by lia. subst j. congruence.
        -- assert (k = j) by (eapply (NoDup_lookup _ _ _ _ lv_nodup0 Hk Hj)). lia.
Qed.

(** ** Adding an observation *)

Lemma lookup_some_take {A} (l : list A) n i x : (i < n)%nat -> l !! i = Some x -> take n l !! i = Some x.
Proof. intros Hi H. rewrite lookup_take_lt by exact Hi. exact H. Qed.

Lemma entries_inv w p s s' a es seen : inv w p s a -> a_active a = true ->
  banks_ s' = withBank s (w <| entries := es |>) p -> status_ s' = statusOf (a <| a_seen := seen |>) ->
  completedMask_ s' = completedMask_ s -> working_ s' = working_ s -> published_ s' = published_ s -> hasPublished_ s' = hasPublished_ s ->
  length es = 64%nat -> (size seen <= 64)%nat -> seen = kmap (view <$> take (size seen) es) ->
  NoDup (key <$> (view <$> take (size seen) es)) -> Forall entryOk (take (size seen) es) -> Inv s' (a <| a_seen := seen |>).
Proof.
  intros [] Ha Hb Hst Hm Hw Hp Hh Hes Hsz Hseen Hk Hok. destruct iv_w0. destruct (iv_live0 Ha). exists (w <| entries := es |>), p.
  split; cbn; rewrite ?Hm, ?Hw, ?Hp, ?Hh; try assumption; [split; assumption|]. intros _. split; assumption.
Qed.

(** A newer observation takes the place of the one with its key ... *)
Lemma replaced_entries es n k e e' o : view e = o -> entryOk e -> (k < n)%nat -> (n <= length es)%nat -> es !! k = Some e' -> key (view e') = key o ->
  let L := view <$> take n es in let es' := <[k := e]> es in
  NoDup (key <$> L) -> Forall entryOk (take n es) ->
  <[key o := o]> (kmap L) = kmap (view <$> take n es') /\ NoDup (key <$> (view <$> take n es')) /\ Forall entryOk (take n es').
Proof.
  intros Hv Ho Hk Hn He Hkey L es' Hd Hok.
  assert (HL : L !! k = Some (view e')) by (unfold L; rewrite list_lookup_fmap, (lookup_some_take _ n k e') by assumption; reflexivity).
  unfold es'. rewrite take_insert_lt, list_fmap_insert, Hv by exact Hk. split; [|split].
  - symmetry. exact (kmap_replace L k (view e') o HL Hkey Hd).
  - fold L. rewrite list_fmap_insert, list_insert_id; [exact Hd|]. rewrite list_lookup_fmap, HL. cbn. f_equal. exact Hkey.
  - apply Forall_insert; [exact Hok|exact Ho].
Qed.
(** ... and one with a key of its own goes to the end. *)
Lemma added_entries es n e o : view e = o -> entryOk e -> (n < length es)%nat ->
  let L := view <$> take n es in let es' := <[n := e]> es in
  key o ∉ key <$> L -> NoDup (key <$> L) -> Forall entryOk (take n es) ->
  <[key o := o]> (kmap L) = kmap (view <$> take (Datatypes.S n) es') /\
  NoDup (key <$> (view <$> take (Datatypes.S n) es')) /\ Forall entryOk (take (Datatypes.S n) es').
Proof.
  intros Hv Ho Hn L es' Hfree Hd Hok. unfold es'.
  rewrite (take_S_r _ _ e) by (apply list_lookup_insert_eq; exact Hn). rewrite take_insert_ge, fmap_app by lia.
  cbn [fmap list_fmap]. rewrite Hv. split; [|split].
  - symmetry. apply kmap_snoc; assumption.
  - fold L. change (key <$> L ++ [o]) with (key <$> (L ++ [o])). rewrite fmap_app. apply NoDup_app. split; [exact Hd|]. split; [|apply NoDup_singleton].
    intros k Hk ->%list_elem_of_singleton. contradiction.
  - apply Forall_app. split; [exact Hok|]. constructor; [exact Ho|constructor].
Qed.

(** The part of [add] behind its guards. *)
Definition record (s : Store) (w : Bank) (i : Input) (found : option Z) : R (AddResult * Store) :=
  match found with
  | None => MVal (unchanged, s)
  | Some index =>
      if index =? maxNetworks then MVal (add_overflow, s <| status_ := reject ((status_ s) <| overflow := true |>) |>) else
      out ← fill i;
      l ← put (entries w) index out;
      s' ← setWorking s (w <| entries := l |>);
      if index <? count (status_ s) then MVal (replaced, s')
      else MVal (added, s' <| status_ := (status_ s) <| count := count (status_ s) + 1 |> |>)
  end.

Section record.
Context (w p : Bank) (s : Store) (a : Abs) (i : Input) (H : inv w p s a) (Ha : a_active a = true).
Context (Hc : callOk (Add noToken i)) (Hok : inputOk i = true) (Hle : ieLength i <= 2304).
Let Hl : live w (completedMask_ s) (a_planned a) (a_plan a) (a_done a) (a_seen a) := iv_live _ _ _ _ H Ha.

Lemma count_seen : count (status_ s) = Z.of_nat (size (a_seen a)).
Proof. rewrite (iv_status _ _ _ _ H). reflexivity. Qed.

Lemma record_known k e' : (k < size (a_seen a))%nat -> entries w !! k = Some e' -> sameKey i e' ->
  follows (record s w i (if observedAtUs i <=? e_observedAtUs e' then None else Some (Z.of_nat k))) (observe a (observed i)).
Proof.
  intros Hk He Hsk. destruct Hl. pose proof (iv_w _ _ _ _ H) as [].
  destruct (fill_spec i Hc Hok Hle) as (e & Hfill & Hview & Heok). unfold observe, follows.
  assert (Hold : a_seen a !! key (observed i) = Some (view e')).
  { rewrite lv_seen0. apply kmap_lookup; [exact lv_keys0|]. split; [|exact Hsk]. apply (list_elem_of_lookup_2 _ k).
    rewrite list_lookup_fmap, (lookup_some_take _ _ k e') by assumption. reflexivity. }
  rewrite Hold. change (o_at (view e')) with (e_observedAtUs e'). change (o_at (observed i)) with (observedAtUs i).
  rewrite Z.leb_antisym. destruct (e_observedAtUs e' <? observedAtUs i); cbn [negb].
  2:{ exists s. split; [reflexivity|]. exists w, p. exact H. }
  unfold record, maxNetworks. destruct (Z.eqb_spec (Z.of_nat k) 64) as [|_]; [lia|]. rewrite Hfill. cbn [mbind mres_bind].
  rewrite put_nat by lia. cbn [mbind mres_bind]. rewrite (setWorking_spec w p s a) by exact H. cbn [mbind mres_bind].
  rewrite count_seen. destruct (Z.ltb_spec (Z.of_nat k) (Z.of_nat (size (a_seen a)))) as [_|]; [|lia]. cbn [fst snd]. eexists. split; [reflexivity|].
  assert (Hsz : size (<[key (observed i) := observed i]> (a_seen a)) = size (a_seen a)) by (rewrite map_size_insert, Hold; reflexivity).
  destruct (replaced_entries (entries w) (size (a_seen a)) k e e' (observed i)) as (R1 & R2 & R3); try assumption; [lia|].
  apply (entries_inv w p s _ a (<[k := e]> (entries w)) _ H Ha); try reflexivity; rewrite ?Hsz; try assumption.
  - cbn. rewrite (iv_status _ _ _ _ H). unfold statusOf. cbn. rewrite Hsz. reflexivity.
  - rewrite length_insert. assumption.
  - rewrite lv_seen0 at 1. exact R1.
Qed.

Lemma record_fresh : (forall k e', (k < size (a_seen a))%nat -> entries w !! k = Some e' -> ~ sameKey i e') ->
  follows (record s w i (Some (Z.of_nat (size (a_seen a))))) (observe a (observed i)).
Proof.
  intros Hno. destruct Hl. pose proof (iv_w _ _ _ _ H) as []. set (n := size (a_seen a)) in *.
  destruct (fill_spec i Hc Hok Hle) as (e & Hfill & Hview & Heok). unfold observe, follows, record.
  assert (Hnone : key (observed i) ∉ key <$> (view <$> take n (entries w))).
  { intros (o & Hko & Hin)%list_elem_of_fmap. apply list_elem_of_fmap in Hin as (e' & -> & Hin).
    apply list_elem_of_lookup in Hin as [k Hk]. apply lookup_take_Some in Hk as [Hk Hkn]. apply (Hno k e'); [lia|exact Hk|].
    symmetry. exact Hko. }
  assert (Hold : a_seen a !! key (observed i) = None) by (rewrite lv_seen0; apply kmap_none; exact Hnone).
  rewrite Hold. unfold maxNetworks. fold n. destruct (Z.eqb_spec (Z.of_nat n) 64) as [E|E].
  { cbn [fst snd]. rewrite (iv_status _ _ _ _ H). eexists. split; [reflexivity|].
    refine (inv_reject w p s a (a <| a_overflow := true |>) H _ _ _ _ _ _); reflexivity. }
  rewrite Hfill. cbn [mbind mres_bind].
  rewrite put_nat by lia. cbn [mbind mres_bind]. rewrite (setWorking_spec w p s a) by exact H. cbn [mbind mres_bind].
  rewrite count_seen. fold n. rewrite Z.ltb_irrefl. cbn [fst snd]. eexists. split; [reflexivity|].
  assert (Hsz : size (<[key (observed i) := observed i]> (a_seen a)) = Datatypes.S n) by (rewrite map_size_insert, Hold; reflexivity).
  destruct (added_entries (entries w) n e (observed i)) as (R1 & R2 & R3); try assumption; [lia|].
  apply (entries_inv w p s _ a (<[n := e]> (entries w)) _ H Ha); try reflexivity; rewrite ?Hsz; try assumption.
  - cbn. rewrite (iv_status _ _ _ _ H). unfold statusOf. cbn. rewrite Hsz. fold n. f_equal. lia.
  - rewrite length_insert. assumption.
  - lia.
  - rewrite lv_seen0 at 1. exact R1.
Qed.

Lemma observe_follows :
  follows (found ← findEntry i (entries w) (size (a_seen a)) 0; record s w i found) (observe a (observed i)).
Proof.
  destruct Hl. pose proof (iv_w _ _ _ _ H) as [].
  assert (Hnn : bssid i <> None) by (intros E; unfold inputOk in Hok; rewrite E in Hok; discriminate).
  destruct (findEntry_spec i (entries w) (size (a_seen a)) 0) as [(k & e' & Hk & He & Hsk & Hf)|[Hno Hf]]; try assumption; [apply Hc|lia|..];
    change (Z.of_nat 0) with 0 in Hf; rewrite Hf; cbn [mbind mres_bind].
  - apply (record_known k e'); [lia|assumption..].
  - apply record_fresh. intros k e' Hk. apply Hno. lia.
Qed.
End record.

Lemma add_follows s a t i : Inv s a -> callOk (Add t i) -> follows (add s t i) (a_add a t i).
Proof.
  intros (w & p & H) Hc. pose proof H as []. unfold add, a_add, inPlan.
  assert (Hsame : forall r : AddResult, follows (MVal (r, s)) (r, a)) by (intros r; exists s; split; [reflexivity|exists w, p; exact H]).
  rewrite (current_spec w p s a), iv_status0 by exact H. cbn [statusOf planned overflow truncatedInput].
  destruct (a_current a t) eqn:Ec; cbn [negb]; [|apply Hsame]. apply a_current_active in Ec.
  destruct (a_planned a) eqn:Ep; cbn [negb orb andb mbind mres_bind]; [|apply Hsame].
  assert (Hin : exists k, channelIndex s (channel i) = MVal k /\ (k =? maxChannels) = negb (bool_decide (channel i ∈ a_plan a))).
  { destruct (channelIndex_spec w p s a (channel i) H Ec Ep) as [(k & Hk & H64 & ->)|[Hn ->]].
    - exists (Z.of_nat k). split; [reflexivity|]. rewrite bool_decide_true by (eapply list_elem_of_lookup_2; exact Hk).
      apply Z.eqb_neq. unfold maxChannels. lia.
    - exists maxChannels. split; [reflexivity|]. rewrite bool_decide_false by exact Hn. reflexivity. }
  destruct Hin as (k & -> & Hk). cbn [mbind mres_bind]. rewrite Hk.
  destruct (bool_decide (channel i ∈ a_plan a)); cbn [negb]; [|apply Hsame].
  destruct (a_overflow a); [apply Hsame|]. destruct (a_truncated a) eqn:Et; [apply Hsame|].
  destruct (ieLength i =? originalIeLength i); cbn [negb].
  2:{ eexists. split; [reflexivity|]. refine (inv_reject w p s a (a <| a_truncated := true |>) H _ _ _ _ _ _); reflexivity. }
  unfold maxIeBytes. destruct (Z.ltb_spec 2304 (ieLength i)).
  { eexists. split; [reflexivity|]. refine (inv_reject w p s a (a <| a_overflow := true |>) H _ _ _ _ _ _); reflexivity. }
  rewrite acceptable_spec by exact Hc. cbn [mbind mres_bind]. destruct (inputOk i) eqn:Eok; cbn [negb].
  2:{ eexists. split; [reflexivity|]. refine (inv_reject w p s a a H _ _ _ _ _ _); reflexivity. }
  rewrite (at_working w p s a) by exact H. cbn [mbind mres_bind]. rewrite <- iv_status0.
  replace (Z.to_nat (count (status_ s))) with (size (a_seen a)) by (rewrite iv_status0; cbn; lia).
  exact (observe_follows w p s a i H Ec Hc Eok ltac:(lia)).
Qed.

(** ** Publishing *)

Lemma StronglySorted_fmap {A B} (f : A -> B) (r : B -> B -> Prop) l :
  StronglySorted (fun x y => r (f x) (f y)) l -> StronglySorted r (f <$> l).
Proof.
  induction 1 as [|x l Hs IH Hx]; [constructor|]. cbn [fmap list_fmap]. constructor; [exact IH|].
  apply List.Forall_forall. intros y (z & -> & Hz)%list_elem_of_In%list_elem_of_fmap. rewrite List.Forall_forall in Hx.
  apply Hx. apply list_elem_of_In. exact Hz.
Qed.

Lemma entryOf_lookup es k e : es !! k = Some e -> entryOf es (Z.of_nat k) = e.
Proof. intros H. unfold entryOf. rewrite Nat2Z.id. apply nth_lookup_Some. exact H. Qed.

Lemma rank_key a b : rank a = rank b -> key (view a) = key (view b).
Proof.
  unfold rank, rankOf, key, view. cbn [o_channel o_bssid]. destruct (e_channel a), (e_channel b). cbn [band number].
  intros [= -> -> ->]. reflexivity.
Qed.

(** The complete order of a live bank. *)
Lemma live_sorted w mask b p done seen : bankOk w -> live w mask b p done seen ->
  exists o, sortOrder (entries w) (order w) (Z.of_nat (size seen)) = MVal o /\ length o = 64%nat /\
    let P := take (size seen) o in
    let es := entryOf (entries w) <$> P in
    Forall (fun x => 0 <= x < 64) P /\ StronglySorted before (view <$> es) /\ (forall x, x ∈ view <$> es <-> seen !! key x = Some x).
Proof.
  intros [Wc Wo We] []. set (n := size seen) in *.
  assert (Hok : forall x, 0 <= x < Z.of_nat n -> exists e, entries w !! Z.to_nat x = Some e /\ entryOf (entries w) x = e /\
    take n (entries w) !! Z.to_nat x = Some e /\ entryOk e).
  { intros x Hx. destruct (lookup_lt_is_Some_2 (entries w) (Z.to_nat x)) as [e He]; [lia|]. exists e. split; [exact He|].
    split; [unfold entryOf; apply nth_lookup_Some; exact He|]. assert (Ht : take n (entries w) !! Z.to_nat x = Some e) by (apply lookup_some_take; [lia|exact He]). split; [exact Ht|].
    rewrite Forall_forall in lv_entries0. apply lv_entries0. eapply list_elem_of_lookup_2. exact Ht. }
  destruct (sortOrder_spec (entries w) (Z.of_nat n)) with (l := order w) (k := n) as (P & rest & H1 & H2 & H3 & H4).
  { unfold zlen. lia. }
  { intros x Hx. destruct (Hok x Hx) as (e & _ & -> & _ & Ho). exact Ho. }
  { intros x y Hx Hy Hne Er. destruct (Hok x Hx) as (e1 & _ & E1 & T1 & _), (Hok y Hy) as (e2 & _ & E2 & T2 & _).
    rewrite E1, E2 in Er. apply Hne. apply Z2Nat.inj; [lia..|].
    eapply (NoDup_lookup _ _ _ (key (view e1)) lv_keys0); rewrite !list_lookup_fmap; [rewrite T1; reflexivity|rewrite T2].
    cbn [fmap option_fmap option_map]. f_equal. symmetry. apply rank_key. exact Er. }
  { lia. }
  { unfold zlen. lia. }
  { lia. }
  exists (P ++ rest). split; [unfold sortOrder; rewrite Nat2Z.id; exact H1|]. split; [lia|].
  assert (HP : length P = n) by (rewrite (Permutation_length H3), length_seqZ; lia). cbv zeta.
  rewrite take_app_length' by (symmetry; exact HP). split; [|split].
  - rewrite H3. apply Forall_forall. intros x Hx%elem_of_seqZ. lia.
  - apply (StronglySorted_fmap view). apply (StronglySorted_fmap (entryOf (entries w))). exact H4.
  - intros x. rewrite lv_seen0, kmap_lookup by exact lv_keys0. split.
    + intros (e & -> & (i & -> & Hi)%list_elem_of_fmap)%list_elem_of_fmap. split; [|reflexivity].
      rewrite H3 in Hi. apply elem_of_seqZ in Hi. destruct (Hok i) as (e & _ & -> & Ht & _); [lia|].
      apply list_elem_of_fmap. exists e. split; [reflexivity|]. eapply list_elem_of_lookup_2. exact Ht.
    + intros [(e & -> & Hin)%list_elem_of_fmap _]. apply list_elem_of_fmap. exists e. split; [reflexivity|].
      apply list_elem_of_lookup in Hin as [k Hk]. apply lookup_take_Some in Hk as [Hk Hkn].
      apply list_elem_of_fmap. exists (Z.of_nat k). split; [symmetry; apply entryOf_lookup; exact Hk|]. rewrite H3. apply elem_of_seqZ. lia.
Qed.

(** Counting finished channels is finishing them all. *)
Lemma allDone_spec w mask p done seen a : a_plan a = p -> a_done a = done -> a_planned a = true -> live w mask true p done seen ->
  (Z.of_nat (size done) =? zlen p) = allDone a.
Proof.
  intros <- <- Hp []. unfold allDone. rewrite Hp. cbn [andb]. apply Bool.eq_true_iff_eq. rewrite Z.eqb_eq, forallb_forall.
  assert (Hsub : a_done a ⊆ list_to_set (a_plan a)) by (intros c Hc; apply elem_of_list_to_set; auto).
  pose proof (size_list_to_set (C:=gset Channel) (a_plan a) lv_nodup0) as Hs. unfold zlen. split.
  - intros E c Hc. apply bool_decide_eq_true. apply list_elem_of_In in Hc.
    rewrite (set_subseteq_size_eq _ _ Hsub) by lia. apply elem_of_list_to_set. exact Hc.
  - intros Hall. f_equal. rewrite <- Hs. f_equal. apply set_eq. intros c. rewrite elem_of_list_to_set. split; [auto|].
    intros Hc. apply list_elem_of_In in Hc. apply Hall in Hc. apply bool_decide_eq_true in Hc. exact Hc.
Qed.

Lemma inTime_spec w mask b p done seen now : bankOk w -> live w mask b p done seen ->
  inTimeFrom (size seen) 0 (entries w) now = MVal (bool_decide (map_Forall (fun _ o => o_at o <= now) seen)).
Proof.
  intros [] []. rewrite (inTimeFrom_spec (entries w) now (size seen) 0) by lia. rewrite drop_0. f_equal.
  apply Bool.eq_true_iff_eq. rewrite bool_decide_eq_true, forallb_forall. split.
  - intros H k o Hk. rewrite lv_seen0 in Hk. apply kmap_lookup in Hk as [Hin _]; [|exact lv_keys0].
    apply list_elem_of_fmap in Hin as (e & -> & Hin). apply list_elem_of_In, H in Hin. apply Z.leb_le. exact Hin.
  - intros H e Hin%list_elem_of_In. apply Z.leb_le. apply (H (key (view e)) (view e)). rewrite lv_seen0. apply kmap_lookup; [exact lv_keys0|].
    split; [|reflexivity]. apply list_elem_of_fmap. eauto.
Qed.

Lemma finish_follows s a t scope now : Inv s a -> follows (finish s t scope now) (a_finish a t scope now).
Proof.
  intros (w & p & H). pose proof H as []. unfold finish, a_finish.
  assert (Hsame : forall r : FinishResult, follows (MVal (r, s)) (r, a)) by (intros r; exists s; split; [reflexivity|exists w, p; exact H]).
  rewrite (current_spec w p s a), iv_status0 by exact H. cbn [statusOf planned overflow truncatedInput completedChannels plannedChannels count rejected].
  destruct (a_current a t) eqn:Ec; cbn [negb]; [|apply Hsame]. apply a_current_active in Ec. pose proof (iv_live0 Ec) as Hl.
  destruct (bool_decide (scope = fullScan)); cbn [negb andb orb]; [|apply Hsame].
  destruct (a_planned a) eqn:Ep; cbn [negb orb]; [|unfold allDone; rewrite Ep; apply Hsame].
  rewrite (allDone_spec w _ _ _ _ a eq_refl eq_refl Ep Hl). destruct (allDone a); cbn [negb]; [|apply Hsame].
  destruct (a_overflow a || a_truncated a).
  { eexists. split; [reflexivity|]. exists w, p.
    refine (inv_status w p s a (a <| a_active := false |>) H _ _); [reflexivity|discriminate]. }
  rewrite (at_working w p s a) by exact H. cbn [mbind mres_bind].
  assert (Hback : (if hasPublished_ s then p ← at_ (banks_ s) (published_ s); MVal (now <? m_completedAtUs (summary p)) else MVal false)
    = MVal (negb (match a_snapshot a with Some n => n_at n <=? now | None => true end)) :> R bool).
  { unfold shown in iv_shown0. destruct (a_snapshot a) as [n|].
    - destruct iv_shown0 as (-> & Hs & _). rewrite (at_published w p s a) by exact H. cbn [mbind mres_bind]. rewrite Hs. cbn [summaryOf m_completedAtUs].
      rewrite Z.leb_antisym, negb_involutive. reflexivity.
    - rewrite iv_shown0. reflexivity. }
  rewrite Hback. cbn [mbind mres_bind]. unfold clockOk. destruct (match a_snapshot a with Some n => n_at n <=? now | None => true end); cbn [negb andb]; [|apply Hsame].
  rewrite Nat2Z.id, (inTime_spec w _ _ _ _ _ now iv_w0 Hl). cbn [mbind mres_bind].
  destruct (bool_decide (map_Forall _ (a_seen a))); cbn [negb]; [|apply Hsame].
  destruct (live_sorted w _ _ _ _ _ iv_w0 Hl) as (o & -> & Ho & Hidx & Hsorted & Hset). cbn [mbind mres_bind].
  rewrite (setWorking_spec w p s a) by exact H. cbn [mbind mres_bind fst snd]. eexists. split; [reflexivity|].
  destruct iv_w0. pose proof Hl as []. eexists p, _. split; cbn.
  - assumption.
  - instantiate (1 := mkBank (mkSummary t now (Z.of_nat (size (a_seen a))) (zlen (a_plan a)) (a_rejected a)) (channels w) o (entries w)). split; cbn; assumption.
  - unfold withBank. destruct iv_working0 as [-> | ->]; reflexivity.
  - destruct iv_working0 as [-> | ->]; [right|left]; reflexivity.
  - destruct iv_working0 as [-> | ->]; reflexivity.
  - reflexivity.
  - discriminate.
  - split; [reflexivity|]. split; [reflexivity|]. split; [exact lv_plan0|]. split; [exact lv_count0|]. auto.
Qed.

(** ** Every sequence of calls *)

Lemma call_follows s a c : Inv s a -> callOk c -> follows (call s c) (a_call a c).
Proof.
  intros H Hc. unfold follows. destruct c; cbn [call a_call]; cbv zeta; cbn [fst snd].
  - destruct (begin_follows s a g e H) as (s' & -> & H'). exists s'. auto.
  - destruct (plan_follows s a t l n H Hc) as (s' & -> & H'). exists s'. auto.
  - destruct (add_follows s a t in_ H Hc) as (s' & -> & H'). exists s'. auto.
  - destruct (channelFinished_follows s a t c H) as (s' & -> & H'). exists s'. auto.
  - destruct (finish_follows s a t scope completedAtUs H) as (s' & -> & H'). exists s'. auto.
  - destruct (cancel_follows s a t H) as (s' & -> & H'). exists s'. auto.
Qed.
Lemma calls_follow l : forall s a, Inv s a -> Forall callOk l -> follows (calls s l) (a_calls a l).
Proof.
  induction l as [|c l IH]; intros s a H Hl; [exists s; auto|]. apply Forall_cons in Hl as [Hc Hl].
  destruct (call_follows s a c H Hc) as (s1 & E1 & H1). destruct (IH s1 _ H1 Hl) as (s2 & E2 & H2).
  exists s2. cbn [calls a_calls]. rewrite E1. cbn [mbind mres_bind fst snd]. rewrite E2. auto.
Qed.
Lemma newStore_inv : Inv newStore newAbs.
Proof.
  exists emptyBank, emptyBank. split; cbn; try (apply emptyBank_ok || reflexivity || discriminate || auto).
Qed.

Lemma inv_shows s a : Inv s a -> shows s a.
Proof.
  intros (w & p & H). pose proof H as []. split; [exact iv_status0|]. unfold shown in iv_shown0. unfold completed, completedEntry, completedChannel.
  destruct (a_snapshot a) as [n|].
  2:{ rewrite iv_shown0. split; [reflexivity|]. auto. }
  destruct iv_shown0 as (-> & Hs & Hp & Hn & Hidx & Hsort & Hset). rewrite (at_published w p s a) by exact H. cbn [mbind mres_bind negb].
  destruct iv_p0. rewrite Hs. split; [reflexivity|]. cbn [summaryOf m_channelCount m_count]. split.
  - intros i Hi. assert (Hlen : (length (n_plan n) <= 64)%nat) by (rewrite Hp, length_take; lia).
    destruct (Z.ltb_spec i (zlen (n_plan n))) as [Hlt|Hge]; unfold zlen in *.
    + destruct (lookup_lt_is_Some_2 (n_plan n) (Z.to_nat i)) as [c Hc]; [lia|]. rewrite Hc. rewrite Hp in Hc.
      apply lookup_take_Some in Hc as [Hc _]. rewrite (at_in _ _ c) by assumption. reflexivity.
    + rewrite lookup_ge_None_2 by lia. reflexivity.
  - eexists. split; [|split; [exact Hsort|exact Hset]]. intros i Hi.
    assert (Hlen : length (take (size (n_seen n)) (order p)) = size (n_seen n)) by (rewrite length_take; lia).
    destruct (Z.leb_spec (Z.of_nat (size (n_seen n))) i) as [Hge|Hlt].
    + rewrite lookup_ge_None_2 by (rewrite length_fmap; lia). reflexivity.
    + destruct (lookup_lt_is_Some_2 (take (size (n_seen n)) (order p)) (Z.to_nat i)) as [x Hx]; [lia|].
      rewrite list_lookup_fmap, Hx. rewrite Forall_lookup in Hidx. pose proof (Hidx _ _ Hx) as Hr. cbn beta in Hr.
      apply lookup_take_Some in Hx as [Hx _]. rewrite (at_in (order p) _ x) by assumption. cbn [mbind mres_bind].
      destruct (lookup_lt_is_Some_2 (entries p) (Z.to_nat x)) as [e He]; [lia|]. rewrite (at_in _ _ e) by (lia || exact He). cbn [mbind mres_bind fmap option_fmap option_map].
      unfold entryOf. rewrite (nth_lookup_Some _ _ _ _ He). reflexivity.
Qed.

(** ** What a snapshot holds *)

Definition recorded (chans : list Channel) (seen : gmap Key Obs) : Prop :=
  forall k o, seen !! k = Some o -> k = key o /\ o_channel o ∈ chans /\ unicastAddress (o_bssid o) = true /\ admissible o = true.
Definition snapshotOk (n : Snapshot) : Prop :=
  planOk (n_plan n) = true /\ recorded (n_plan n) (n_seen n) /\ (size (n_seen n) <= 64)%nat /\
  forall k o, n_seen n !! k = Some o -> o_at o <= n_at n.

Record sound (a : Abs) : Prop := {
  sd_plan : if a_planned a then planOk (a_plan a) = true else a_seen a = ∅;
  sd_recorded : recorded (a_plan a) (a_seen a);
  sd_size : (size (a_seen a) <= 64)%nat;
  sd_snapshot : forall n, a_snapshot a = Some n -> snapshotOk n
}.

Lemma a_reject_sound a : sound a -> sound (a_reject a).
Proof. intros []. unfold a_reject. destruct (_ =? _); split; assumption. Qed.
Lemma inputOk_obs i : inputOk i = true -> unicastAddress (o_bssid (observed i)) = true /\ admissible (observed i) = true.
Proof. unfold inputOk. rewrite !andb_true_iff. tauto. Qed.

Lemma observe_sound a o : sound a -> a_planned a = true -> o_channel o ∈ a_plan a -> unicastAddress (o_bssid o) = true -> admissible o = true ->
  sound (snd (observe a o)).
Proof.
  intros H Hp Hin Hu Had. pose proof H as []. rewrite Hp in sd_plan0.
  assert (Hput : (size (<[key o := o]> (a_seen a)) <= 64)%nat -> sound (a <| a_seen := <[key o := o]> (a_seen a) |>)).
  { intros Hs. split; cbn; [rewrite Hp; exact sd_plan0| |exact Hs|exact sd_snapshot0].
    intros k x [[<- <-]|[_ Hx]]%lookup_insert_Some; [auto|exact (sd_recorded0 _ _ Hx)]. }
  unfold observe. cbv zeta. destruct (a_seen a !! key o) as [p|] eqn:E.
  - destruct (_ <? _); cbn [snd]; [|exact H]. apply Hput. rewrite map_size_insert, E. exact sd_size0.
  - destruct (Z.eqb_spec (Z.of_nat (size (a_seen a))) 64); cbn [snd].
    + apply a_reject_sound. split; cbn; rewrite ?Hp; assumption.
    + apply Hput. rewrite map_size_insert, E. cbn. lia.
Qed.

Lemma a_call_sound a c : sound a -> sound (snd (a_call a c)).
Proof.
  intros H. pose proof H as []. destruct c; cbn [a_call]; cbv zeta; cbn [snd].
  - unfold a_begin. destruct (_ && _); cbn [snd]; [|exact H]. split; cbn [a_planned a_plan a_seen a_snapshot]; [reflexivity| |rewrite map_size_empty; lia|exact sd_snapshot0].
    intros k o Hk. rewrite lookup_empty in Hk. discriminate.
  - unfold doPlan. destruct l as [l|]; [|exact H]. destruct (a_current a t && _ && _) eqn:E; [|exact H].
    rewrite !andb_true_iff, negb_true_iff in E. destruct E as [[_ Ep] Eok]. rewrite Ep in sd_plan0.
    split; cbn; [exact Eok| |exact sd_size0|exact sd_snapshot0]. rewrite sd_plan0. intros k o Hk. rewrite lookup_empty in Hk. discriminate.
  - unfold a_add. destruct (a_current a t); cbn [negb]; [|exact H]. destruct (inPlan a (channel in_)) eqn:E; cbn [negb]; [|exact H].
    apply andb_true_iff in E as [Ep Ein%bool_decide_eq_true]. destruct (a_overflow a); [exact H|]. destruct (a_truncated a); [exact H|].
    destruct (_ =? _); cbn [negb]; [|apply a_reject_sound; split; assumption]. destruct (_ <? _); [apply a_reject_sound; split; assumption|].
    destruct (inputOk in_) eqn:Eok; cbn [negb]; [|apply a_reject_sound; exact H].
    apply inputOk_obs in Eok as [H1 H2]. apply observe_sound; assumption.
  - unfold a_channelFinished. destruct (_ && _); cbn [snd]; [|exact H]. split; assumption.
  - unfold a_finish. destruct (a_current a t); cbn [negb]; [|exact H]. destruct (bool_decide (scope = fullScan) && allDone a) eqn:E; cbn [negb]; [|exact H].
    destruct (_ || _); [split; assumption|]. destruct (clockOk a completedAtUs) eqn:Ec; cbn [negb]; [|exact H].
    split; cbn; try assumption. intros n [= <-]. apply andb_true_iff in E as [_ E]. unfold allDone in E. apply andb_true_iff in E as [Ep _].
    rewrite Ep in sd_plan0. apply andb_true_iff in Ec as [_ Ec%bool_decide_eq_true]. unfold snapshotOk. cbn. auto.
  - unfold a_cancel. destruct (a_current a t); cbn [snd]; [|exact H]. split; assumption.
Qed.
Lemma a_calls_sound l : forall a, sound a -> sound (snd (a_calls a l)).
Proof. induction l as [|c l IH]; intros a H; [exact H|]. cbn [a_calls]. cbv zeta. cbn [snd]. apply IH, a_call_sound, H. Qed.
Lemma new_sound : sound newAbs.
Proof. split; cbn [newAbs a_planned a_plan a_seen a_snapshot]; [reflexivity| |rewrite map_size_empty; lia|discriminate]. intros k o Hk. rewrite lookup_empty in Hk. discriminate. Qed.

(** C25: whatever sequence of calls a scan store sees, provided the buffers
    handed over are as long as their lengths say, no access leaves an array
    or a buffer, every call answers as the specification does and the
    accessors show the specification's status and snapshot: the entries in
    strict order of band, channel and address, one for each key the complete
    scan saw and with the latest observation of that key.  A snapshot is
    always whole: its plan is valid, every observation is of a planned
    channel, well formed and no later than the completion. *)
Theorem store_refines l : Forall callOk l ->
  exists s, calls newStore l = MVal (fst (a_calls newAbs l), s) /\ shows s (snd (a_calls newAbs l)) /\
    forall n, a_snapshot (snd (a_calls newAbs l)) = Some n -> snapshotOk n.
Proof.
  intros Hl. destruct (calls_follow l newStore newAbs newStore_inv Hl) as (s & E & H). exists s. split; [exact E|].
  split; [apply inv_shows; exact H|]. apply sd_snapshot. apply a_calls_sound, new_sound.
Qed.

(** C26: the walk over the information elements of a frame always ends, and
    accepts exactly the byte strings that are a sequence of elements (tag,
    length, body) in which the name element occurs at most once and carries
    the name passed beside them, or does not occur and no name is passed. *)
Theorem elements_accepted in_ : holds (ies in_) (ieLength in_) -> holds (ssid in_) (ssidLength in_) -> ssidLength in_ <= 32 ->
  (ssid in_ = None -> ssidLength in_ = 0) -> (ies in_ = None -> ieLength in_ = 0) ->
  let name := ptrBytes (ssid in_) (ssidLength in_) in
  exists b, informationElements in_ = MVal b /\
    (b = true <-> exists els, encodeElements els = ptrBytes (ies in_) (ieLength in_) /\ (names els = [] /\ name = [] \/ names els = [name])).
Proof.
  intros Hi Hs H32 Hn Hni name. exists (admissible (observed in_)). split; [apply informationElements_spec; assumption|].
  apply (admissible_spec (observed in_)). cbn. destruct (ies in_); [apply bytesOf_u8|constructor].
Qed.

(** ** A concrete scan *)

Definition chan (n : Z) : Channel := mkChannel ghz2 n.
Definition sampleInput (c at_us last : Z) : Input :=
  mkInput (Some [2; 0; 0; 0; 0; last]) (Some [65; 66]) (Some [0; 2; 65; 66; 3; 1; c]) 2 7 7 (chan c) (mkSignal unit_dbm (-40)) at_us 1 100.
Definition sampleToken : Token := mkToken 1 7.
Definition sampleCalls : list Call :=
  [Begin 1 7; Plan sampleToken (Some [chan 6; chan 1]) 2; Add sampleToken (sampleInput 6 50 9); Add sampleToken (sampleInput 1 40 9);
   Add sampleToken (sampleInput 6 45 3); Add sampleToken (sampleInput 6 60 9); ChannelFinished sampleToken (chan 6);
   Finish sampleToken fullScan 70; ChannelFinished sampleToken (chan 1); Finish sampleToken fullScan 55; Finish sampleToken fullScan 70;
   Begin 2 7; Cancel (mkToken 2 7)].
Definition summaryLine (r : R (list Answer * Store)) :=
  match r with
  | MVal (answers, s) =>
      match completedEntry s 0, completedEntry s 1, completedEntry s 2, completedEntry s 3 with
      | MVal (Some a), MVal (Some b), MVal (Some c), MVal None =>
          Some (answers, map (fun e => (number (e_channel e), e_observedAtUs e, nth 5 (e_bssid e) 0)) [a; b; c])
      | _, _, _, _ => None
      end
  | _ => None
  end.
Example sampleCalls_shown : summaryLine (calls newStore sampleCalls) =
  Some ([ABool true; ABool true; AAdd added; AAdd added; AAdd added; AAdd replaced; ABool true; AFinish incomplete; ABool true;
         AFinish invalidTime; AFinish published; ABool true; ABool true],
        [(1, 40, 9); (6, 45, 3); (6, 60, 9)]).
Proof. vm_compute. reflexivity. Qed.

Lemma store_refines_witness :
  exists s, calls newStore sampleCalls = MVal (fst (a_calls newAbs sampleCalls), s) /\ shows s (snd (a_calls newAbs sampleCalls)) /\
    forall n, a_snapshot (snd (a_calls newAbs sampleCalls)) = Some n -> snapshotOk n.
Proof. apply (store_refines sampleCalls). unfold sampleCalls. repeat (apply Forall_cons_2; [vm_compute; intuition congruence|]). apply Forall_nil_2. Defined.

Lemma elements_accepted_witness :
  let i := sampleInput 6 50 9 in
  exists b, informationElements i = MVal b /\
    (b = true <-> exists els, encodeElements els = [0; 2; 65; 66; 3; 1; 6] /\ (names els = [] /\ [65; 66] = [] \/ names els = [[65; 66]])).
Proof. apply (elements_accepted (sampleInput 6 50 9)); vm_compute; intuition congruence. Defined.
