(* ===== verification/ForegroundScan.v ===== *)
(** * Foreground scans (class Controller of src/network/NativeForegroundScan.hpp)

    The controller walks a request through its channels: a dwell per channel,
    accepted and finished by the station, a probe inside each dwell of an
    active scan, cancellation that waits for the dwell that is out, and
    failures that keep it until the hardware is known to have stopped.  The
    code keeps this in a phase, a dwell and flags; the specification below is a
    state with one constructor per situation. *)

From S2P Require Import Prelude.
From S2P Require Import ScanCache.

(** ** Data *)

Definition dwellMs : Z := 120.
Definition timeoutUs : Z := 120000000.
Record Request := mkRequest { r_epoch : Z; request : Z }.
Record Dwell := mkDwell { d_epoch : Z; operation : Z }.
Definition sameRequest (a b : Request) : bool := (r_epoch a =? r_epoch b) && (request a =? request b).
Definition sameDwell (a b : Dwell) : bool := (d_epoch a =? d_epoch b) && (operation a =? operation b).

Inductive Phase := none | queued | scanning | draining | complete | cancelled | timedOut | failed.
Inductive Reason :=
| noReason | caller | selection | disabled | shutdown | timeout | backend | observation | protocol_ | clock | probe.
Inductive Admission := accepted | busy | notReady | unsupported | invalid.
#[export] Instance Phase_eq_dec : EqDecision Phase. Proof. solve_decision. Defined.
#[export] Instance Reason_eq_dec : EqDecision Reason. Proof. solve_decision. Defined.
Record Readiness := mkReadiness {
  ready : bool; stationIdle : bool; protocolIdle : bool; connected : bool; pendingJoin : bool;
  legacyCredentials : bool; otherWork : bool; activeAllowed : bool
}.
Record Status := mkStatus {
  token : Request; snapshot : ScanCache.Token; startedAtUs : Z; deadlineUs : Z; finishedAtUs : Z;
  plannedChannels : Z; completedChannels : Z; probesSubmitted : Z; s_dwellMs : Z; activeScan : bool;
  phase : Phase; reason : Reason; drained : bool
}.
#[export] Instance Status_rebuild : Rebuild Status := fun s =>
  mkStatus (token s) (snapshot s) (startedAtUs s) (deadlineUs s) (finishedAtUs s) (plannedChannels s) (completedChannels s)
    (probesSubmitted s) (s_dwellMs s) (activeScan s) (phase s) (reason s) (drained s).

Record Controller := mkController {
  channels_ : list Channel; status_ : Status; dwell_ : Dwell; serial_ : Z; epoch_ : Z; lastOperation_ : Z;
  probeRequested_ : bool; probeSubmitted_ : bool; probeCompleted_ : bool
}.
#[export] Instance Controller_rebuild : Rebuild Controller := fun c =>
  mkController (channels_ c) (status_ c) (dwell_ c) (serial_ c) (epoch_ c) (lastOperation_ c)
    (probeRequested_ c) (probeSubmitted_ c) (probeCompleted_ c).

Definition noRequest : Request := mkRequest 0 0.
Definition noDwell : Dwell := mkDwell 0 0.
Definition noStatus : Status := mkStatus noRequest noToken 0 0 0 0 0 0 0 false none noReason false.
Definition newController : Controller :=
  mkController (replicate (Z.to_nat maxChannels) noChannel) noStatus noDwell 0 0 0 false false false.

(** ** Operations *)

Implicit Types (c : Controller).

Definition phaseIs c (p : Phase) : bool := bool_decide (phase (status_ c) = p).
Definition cancelledPhase c : Phase := if bool_decide (reason (status_ c) = timeout) then timedOut else cancelled.
Definition endCancellation c (now : Z) : Controller :=
  c <| status_ := (status_ c) <| phase := cancelledPhase c |> <| drained := true |> <| finishedAtUs := now |> |> <| dwell_ := noDwell |>.

Definition active c : bool := phaseIs c queued || phaseIs c scanning || phaseIs c draining.
Definition isDraining c : bool := phaseIs c draining.
Definition owns c (d : Dwell) : bool := active c && negb (operation (dwell_ c) =? 0) && sameDwell (dwell_ c) d.
Definition observing c (d : Dwell) : bool := phaseIs c scanning && owns c d.

Definition begin c (r : Readiness) (isActive : bool) (epoch now : Z) (plan : option (list Channel)) (count requestedDwellMs : Z)
  : R (Admission * Status * Controller) :=
  if isActive && negb (activeAllowed r) then MVal (unsupported, noStatus, c) else
  if negb (ready r) then MVal (notReady, noStatus, c) else
  if active c || negb (operation (dwell_ c) =? 0) || connected r || pendingJoin r || legacyCredentials r || otherWork r ||
     negb (stationIdle r) || negb (protocolIdle r) then MVal (busy, noStatus, c) else
  match plan with
  | None => MVal (invalid, noStatus, c)
  | Some plan =>
      if (epoch =? 0) || (epoch <? epoch_ c) || (serial_ c =? 2^64 - 1) || (count =? 0) ||
         (requestedDwellMs <? 10) || (1000 <? requestedDwellMs) || (maxChannels <? count) || (2^64 - 1 - now <? timeoutUs)
      then MVal (invalid, noStatus, c) else
      ok ← planFrom (Z.to_nat count) 0 plan;
      if negb ok then MVal (invalid, noStatus, c) else
      let last := if epoch =? epoch_ c then lastOperation_ c else 0 in
      let serial := u64 (serial_ c + 1) in
      let st := mkStatus (mkRequest epoch serial) noToken now (u64 (now + timeoutUs)) 0 count 0 0 requestedDwellMs isActive queued noReason true in
      cs ← for_m (Z.to_nat count) 0 (fun i cs => x ← at_ plan i; put cs i x) (channels_ c);
      MVal (accepted, st, mkController cs st noDwell serial epoch last false false false)
  end.
Definition beginDefault c (r : Readiness) (isActive : bool) (epoch now : Z) (plan : option (list Channel)) (count : Z) :=
  begin c r isActive epoch now plan count dwellMs.

Definition next c : R (bool * Channel) :=
  if negb (phaseIs c queued) || negb (operation (dwell_ c) =? 0) || (plannedChannels (status_ c) <=? completedChannels (status_ c))
  then MVal (false, noChannel) else x ← at_ (channels_ c) (completedChannels (status_ c)); MVal (true, x).
Definition accept c (d : Dwell) : R (bool * Controller) :=
  n ← next c;
  if negb (fst n) || negb (d_epoch d =? r_epoch (token (status_ c))) || (operation d =? 0) || (operation d <=? lastOperation_ c)
  then MVal (false, c) else
  MVal (true, mkController (channels_ c) ((status_ c) <| phase := scanning |> <| drained := false |>) d (serial_ c) (epoch_ c) (operation d) false false false).

Definition requestProbe c (d : Dwell) (x : Channel) : R (bool * Controller) :=
  if negb (observing c d) || negb (activeScan (status_ c)) || probeRequested_ c then MVal (false, c) else
  y ← at_ (channels_ c) (completedChannels (status_ c));
  if negb (sameChannel x y) then MVal (false, c) else MVal (true, c <| probeRequested_ := true |>).
Definition pendingProbe c (d : Dwell) : R (bool * Channel) :=
  if negb (observing c d) || negb (activeScan (status_ c)) || negb (probeRequested_ c) || probeSubmitted_ c then MVal (false, noChannel) else
  y ← at_ (channels_ c) (completedChannels (status_ c)); MVal (true, y).
Definition submittedProbe c (d : Dwell) : R (bool * Controller) :=
  p ← pendingProbe c d;
  if negb (fst p) then MVal (false, c) else
  MVal (true, c <| probeSubmitted_ := true |> <| status_ := (status_ c) <| probesSubmitted := u64 (probesSubmitted (status_ c) + 1) |> |>).
Definition completedProbe c (d : Dwell) : bool * Controller :=
  if negb (observing c d) || negb (activeScan (status_ c)) || negb (probeSubmitted_ c) || probeCompleted_ c then (false, c)
  else (true, c <| probeCompleted_ := true |>).

Definition cancel c (t : Request) (why : Reason) (now : Z) : bool * Controller :=
  if negb (active c) || negb (sameRequest t (token (status_ c))) || bool_decide (why = noReason) then (false, c) else
  if phaseIs c draining then (true, c) else
  let c := c <| status_ := (status_ c) <| reason := why |> <| snapshot := noToken |> |> in
  (true, if negb (operation (dwell_ c) =? 0) then c <| status_ := (status_ c) <| phase := draining |> |> else endCancellation c now).
Definition expired c (now : Z) : bool * Controller :=
  if negb (active c) || isDraining c || (now <? deadlineUs (status_ c)) then (false, c)
  else cancel c (token (status_ c)) timeout now.
Definition clockValid c (now : Z) : bool := negb (active c) || (startedAtUs (status_ c) <=? now).

Definition fail c (why : Reason) (now : Z) : Controller :=
  if negb (active c) then c else
  c <| status_ := (status_ c) <| reason := why |> <| phase := failed |> <| snapshot := noToken |>
         <| drained := (operation (dwell_ c) =? 0) |> <| finishedAtUs := now |> |>.

Definition channelFinished c (d : Dwell) (isCancelled : bool) (now : Z) : bool * Controller :=
  if negb (owns c d) then (false, c) else
  if negb (clockValid c now) then (true, fail c clock now) else
  let c := snd (expired c now) in
  let c := c <| dwell_ := noDwell |> <| status_ := (status_ c) <| drained := true |> |> in
  if isDraining c then (true, endCancellation c now) else
  if isCancelled then (true, endCancellation (c <| status_ := (status_ c) <| reason := backend |> |>) now) else
  if activeScan (status_ c) && negb (probeCompleted_ c) then (true, fail c probe now) else
  (true, c <| status_ := (status_ c) <| completedChannels := u64 (completedChannels (status_ c) + 1) |> <| phase := queued |> |>).

Definition readyToFinish c : bool :=
  phaseIs c queued && negb (plannedChannels (status_ c) =? 0) &&
  (completedChannels (status_ c) =? plannedChannels (status_ c)) && (operation (dwell_ c) =? 0).
Definition finish c (sn : ScanCache.Token) (now : Z) : bool * Controller :=
  if negb (readyToFinish c) || (generation sn =? 0) || negb (ScanCache.epoch sn =? r_epoch (token (status_ c))) ||
     negb (clockValid c now) || (deadlineUs (status_ c) <=? now) then (false, c) else
  (true, c <| status_ := (status_ c) <| snapshot := sn |> <| phase := complete |> <| drained := true |> <| finishedAtUs := now |> |>).

Definition hardwareStopped c (now : Z) : Controller :=
  if request (token (status_ c)) =? 0 then c else
  if active c then
    endCancellation (if bool_decide (reason (status_ c) = noReason) then c <| status_ := (status_ c) <| reason := shutdown |> |> else c) now
  else if phaseIs c failed then c <| dwell_ := noDwell |> <| status_ := (status_ c) <| drained := true |> |> else c.

Definition copy c (t : Request) : bool * Status :=
  if (request t =? 0) || negb (sameRequest t (token (status_ c))) then (false, noStatus) else (true, status_ c).

(** ** Sequences of calls *)

Inductive Call :=
| Begin (r : Readiness) (isActive : bool) (epoch now : Z) (plan : option (list Channel)) (count requestedDwellMs : Z)
| Next
| Accept (d : Dwell)
| RequestProbe (d : Dwell) (x : Channel)
| PendingProbe (d : Dwell)
| SubmittedProbe (d : Dwell)
| CompletedProbe (d : Dwell)
| Cancel (t : Request) (why : Reason) (now : Z)
| Expired (now : Z)
| ChannelFinished (d : Dwell) (isCancelled : bool) (now : Z)
| Complete (sn : ScanCache.Token) (now : Z)
| Failed (why : Reason) (now : Z)
| HardwareStopped (now : Z)
| Copy (t : Request).
Inductive Answer :=
| AAdmission (a : Admission) (out : Status) | AChannel (ok : bool) (x : Channel) | ABool (b : bool) | ADone | ACopy (ok : bool) (out : Status).

Definition call c (l : Call) : R (Answer * Controller) :=
  match l with
  | Begin r isActive epoch now plan count dwell =>
      x ← begin c r isActive epoch now plan count dwell; MVal (AAdmission (fst (fst x)) (snd (fst x)), snd x)
  | Next => x ← next c; MVal (AChannel (fst x) (snd x), c)
  | Accept d => x ← accept c d; MVal (ABool (fst x), snd x)
  | RequestProbe d y => x ← requestProbe c d y; MVal (ABool (fst x), snd x)
  | PendingProbe d => x ← pendingProbe c d; MVal (AChannel (fst x) (snd x), c)
  | SubmittedProbe d => x ← submittedProbe c d; MVal (ABool (fst x), snd x)
  | CompletedProbe d => let x := completedProbe c d in MVal (ABool (fst x), snd x)
  | Cancel t why now => let x := cancel c t why now in MVal (ABool (fst x), snd x)
  | Expired now => let x := expired c now in MVal (ABool (fst x), snd x)
  | ChannelFinished d isCancelled now => let x := channelFinished c d isCancelled now in MVal (ABool (fst x), snd x)
  | Complete sn now => let x := finish c sn now in MVal (ABool (fst x), snd x)
  | Failed why now => MVal (ADone, fail c why now)
  | HardwareStopped now => MVal (ADone, hardwareStopped c now)
  | Copy t => let x := copy c t in MVal (ACopy (fst x) (snd x), c)
  end.
Fixpoint calls c (l : list Call) : R (list Answer * Controller) :=
  match l with
  | [] => MVal ([], c)
  | x :: l => r ← call c x; rest ← calls (snd r) l; MVal (fst r :: fst rest, snd rest)
  end.

(** ** The specification: one constructor per situation *)

Record Req := mkReq { q_token : Request; q_started : Z; q_dwellMs : Z; q_active : bool; q_plan : list Channel }.
Inductive Progress := PNone | PRequested | PSubmitted | PCompleted.
#[export] Instance Progress_eq_dec : EqDecision Progress. Proof. solve_decision. Defined.

(** [done] channels are finished, [n] probes were submitted. *)
Inductive State :=
| Never
| Queued (q : Req) (done : nat) (n : Z)
| Dwelling (q : Req) (done : nat) (n : Z) (d : Dwell) (p : Progress)
| Draining (q : Req) (done : nat) (n : Z) (d : Dwell) (why : Reason)
| Published (q : Req) (n : Z) (sn : ScanCache.Token) (since : Z)
| Cancelled (q : Req) (done : nat) (n : Z) (why : Reason) (since : Z)
| Broken (q : Req) (done : nat) (n : Z) (out : option Dwell) (why : Reason) (since : Z).
(** ... and what outlives a request. *)
Record Abs := mkAbs { a_state : State; a_serial : Z; a_epoch : Z; a_last : Z }.
Definition newAbs : Abs := mkAbs Never 0 0 0.

Definition mkStatusOf (q : Req) (sn : ScanCache.Token) (since : Z) (done : nat) (n : Z) (p : Phase) (why : Reason) (isDrained : bool) : Status :=
  mkStatus (q_token q) sn (q_started q) (q_started q + timeoutUs) since (zlen (q_plan q)) (Z.of_nat done) n (q_dwellMs q) (q_active q) p why isDrained.
Definition endPhase (why : Reason) : Phase := if bool_decide (why = timeout) then timedOut else cancelled.
Definition statusOf (s : State) : Status :=
  match s with
  | Never => noStatus
  | Queued q done n => mkStatusOf q noToken 0 done n queued noReason true
  | Dwelling q done n _ _ => mkStatusOf q noToken 0 done n scanning noReason false
  | Draining q done n _ why => mkStatusOf q noToken 0 done n draining why false
  | Published q n sn since => mkStatusOf q sn since (length (q_plan q)) n complete noReason true
  | Cancelled q done n why since => mkStatusOf q noToken since done n (endPhase why) why true
  | Broken q done n out why since => mkStatusOf q noToken since done n failed why (match out with None => true | Some _ => false end)
  end.
(** The operation of the hardware that is still out. *)
Definition outstanding (s : State) : option Dwell :=
  match s with Dwelling _ _ _ d _ => Some d | Draining _ _ _ d _ => Some d | Broken _ _ _ out _ _ => out | _ => None end.
(** Request, channels finished and probes of a state that is under way. *)
Definition underWay (s : State) : option (Req * nat * Z) :=
  match s with Queued q k n => Some (q, k, n) | Dwelling q k n _ _ => Some (q, k, n) | Draining q k n _ _ => Some (q, k, n) | _ => None end.
Definition isUnderWay (s : State) : bool := match underWay s with Some _ => true | None => false end.

Definition idle (r : Readiness) : bool :=
  negb (connected r) && negb (pendingJoin r) && negb (legacyCredentials r) && negb (otherWork r) && stationIdle r && protocolIdle r.
(** A list of channels that can be requested. *)
Definition requestable (l : list Channel) : bool :=
  (1 <=? zlen l) && (zlen l <=? 64) && forallb validChannel l && bool_decide (NoDup l).
Definition a_begin (a : Abs) (r : Readiness) (isActive : bool) (epoch now : Z) (plan : option (list Channel)) (count dwell : Z)
  : Admission * Status * Abs :=
  let no x := (x, noStatus, a) in
  if isActive && negb (activeAllowed r) then no unsupported else
  if negb (ready r) then no notReady else
  if isUnderWay (a_state a) || negb (bool_decide (outstanding (a_state a) = None)) || negb (idle r) then no busy else
  match plan with
  | None => no invalid
  | Some l =>
      let l := take (Z.to_nat count) l in
      if (epoch =? 0) || (epoch <? a_epoch a) || (a_serial a =? 2^64 - 1) || (dwell <? 10) || (1000 <? dwell) ||
         (2^64 <=? now + timeoutUs) || negb (requestable l) then no invalid else
      let s := Queued (mkReq (mkRequest epoch (a_serial a + 1)) now dwell isActive l) 0 0 in
      (accepted, statusOf s, mkAbs s (a_serial a + 1) epoch (if epoch =? a_epoch a then a_last a else 0))
  end.

Definition a_accept (a : Abs) (d : Dwell) : bool * Abs :=
  match a_state a with
  | Queued q k n =>
      if (Z.of_nat k <? zlen (q_plan q)) && (d_epoch d =? r_epoch (q_token q)) && negb (operation d =? 0) && (a_last a <? operation d)
      then (true, mkAbs (Dwelling q k n d PNone) (a_serial a) (a_epoch a) (operation d)) else (false, a)
  | _ => (false, a)
  end.
Definition withState (a : Abs) (s : State) : Abs := mkAbs s (a_serial a) (a_epoch a) (a_last a).

(** A probe moves through its stages inside the dwell it belongs to. *)
Definition a_probe (a : Abs) (d : Dwell) (from to : Progress) (ok : Channel -> bool) (sent : Z) : bool * Abs :=
  match a_state a with
  | Dwelling q k n d' p =>
      if sameDwell d' d && q_active q && bool_decide (p = from) && match q_plan q !! k with Some x => ok x | None => false end
      then (true, withState a (Dwelling q k (n + sent) d' to)) else (false, a)
  | _ => (false, a)
  end.
Definition a_next (a : Abs) : bool * Channel :=
  match a_state a with
  | Queued q k _ => match q_plan q !! k with Some x => (true, x) | None => (false, noChannel) end
  | _ => (false, noChannel)
  end.
Definition a_pending (a : Abs) (d : Dwell) : bool * Channel :=
  match a_state a with
  | Dwelling q k _ d' PRequested =>
      if sameDwell d' d && q_active q then match q_plan q !! k with Some x => (true, x) | None => (false, noChannel) end else (false, noChannel)
  | _ => (false, noChannel)
  end.

Definition a_cancel (s : State) (why : Reason) (now : Z) : State :=
  match s with
  | Queued q k n => Cancelled q k n why now
  | Dwelling q k n d _ => Draining q k n d why
  | s => s
  end.
Definition a_cancelCall (a : Abs) (t : Request) (why : Reason) (now : Z) : bool * Abs :=
  match underWay (a_state a) with
  | Some (q, _, _) =>
      if sameRequest t (q_token q) && negb (bool_decide (why = noReason)) then (true, withState a (a_cancel (a_state a) why now)) else (false, a)
  | None => (false, a)
  end.
Definition late (q : Req) (now : Z) : bool := q_started q + timeoutUs <=? now.
Definition a_expired (a : Abs) (now : Z) : bool * Abs :=
  match a_state a with
  | Queued q _ _ | Dwelling q _ _ _ _ => if late q now then (true, withState a (a_cancel (a_state a) timeout now)) else (false, a)
  | _ => (false, a)
  end.
Definition a_fail (s : State) (why : Reason) (now : Z) : State :=
  match underWay s with Some (q, k, n) => Broken q k n (outstanding s) why now | None => s end.

(** The dwell that is out ends. *)
Definition a_finished (s : State) (isCancelled : bool) (now : Z) : State :=
  match s with
  | Draining q k n _ why => if now <? q_started q then a_fail s clock now else Cancelled q k n why now
  | Dwelling q k n _ p =>
      if now <? q_started q then a_fail s clock now else
      if late q now then Cancelled q k n timeout now else
      if isCancelled then Cancelled q k n backend now else
      if q_active q && negb (bool_decide (p = PCompleted)) then Broken q k n None probe now else Queued q (Datatypes.S k) n
  | s => s
  end.
Definition a_channelFinished (a : Abs) (d : Dwell) (isCancelled : bool) (now : Z) : bool * Abs :=
  match a_state a with
  | Dwelling _ _ _ d' _ | Draining _ _ _ d' _ =>
      if sameDwell d' d then (true, withState a (a_finished (a_state a) isCancelled now)) else (false, a)
  | _ => (false, a)
  end.
Definition a_complete (a : Abs) (sn : ScanCache.Token) (now : Z) : bool * Abs :=
  match a_state a with
  | Queued q k n =>
      if (Z.of_nat k =? zlen (q_plan q)) && negb (generation sn =? 0) && (ScanCache.epoch sn =? r_epoch (q_token q)) &&
         (q_started q <=? now) && negb (late q now) then (true, withState a (Published q n sn now)) else (false, a)
  | _ => (false, a)
  end.
Definition a_stopped (s : State) (now : Z) : State :=
  match s with
  | Queued q k n => Cancelled q k n shutdown now
  | Dwelling q k n _ _ => Cancelled q k n shutdown now
  | Draining q k n _ why => Cancelled q k n why now
  | Broken q k n _ why since => Broken q k n None why since
  | s => s
  end.
Definition a_copy (s : State) (t : Request) : bool * Status :=
  if (request t =? 0) || negb (sameRequest t (token (statusOf s))) then (false, noStatus) else (true, statusOf s).

Definition a_call (a : Abs) (l : Call) : Answer * Abs :=
  match l with
  | Begin r isActive epoch now plan count dwell =>
      let x := a_begin a r isActive epoch now plan count dwell in (AAdmission (fst (fst x)) (snd (fst x)), snd x)
  | Next => let x := a_next a in (AChannel (fst x) (snd x), a)
  | Accept d => let x := a_accept a d in (ABool (fst x), snd x)
  | RequestProbe d y => let x := a_probe a d PNone PRequested (fun z => bool_decide (y = z)) 0 in (ABool (fst x), snd x)
  | PendingProbe d => let x := a_pending a d in (AChannel (fst x) (snd x), a)
  | SubmittedProbe d => let x := a_probe a d PRequested PSubmitted (fun _ => true) 1 in (ABool (fst x), snd x)
  | CompletedProbe d => let x := a_probe a d PSubmitted PCompleted (fun _ => true) 0 in (ABool (fst x), snd x)
  | Cancel t why now => let x := a_cancelCall a t why now in (ABool (fst x), snd x)
  | Expired now => let x := a_expired a now in (ABool (fst x), snd x)
  | ChannelFinished d isCancelled now => let x := a_channelFinished a d isCancelled now in (ABool (fst x), snd x)
  | Complete sn now => let x := a_complete a sn now in (ABool (fst x), snd x)
  | Failed why now => (ADone, withState a (a_fail (a_state a) why now))
  | HardwareStopped now => (ADone, withState a (a_stopped (a_state a) now))
  | Copy t => let x := a_copy (a_state a) t in (ACopy (fst x) (snd x), a)
  end.
Fixpoint a_calls (a : Abs) (l : list Call) : list Answer * Abs :=
  match l with
  | [] => ([], a)
  | x :: l => let r := a_call a x in let rest := a_calls (snd r) l in (fst r :: fst rest, snd rest)
  end.

(** What the caller owes: the plan is as long as its count says, and the
    numbers are 64-bit. *)
Definition callOk (l : Call) : Prop :=
  match l with
  | Begin _ _ epoch now plan count _ => 0 <= count /\ 0 <= now /\ 0 <= epoch /\ match plan with Some l => count <= zlen l | None => True end
  | _ => True
  end.

(** ** The relation *)

Definition reqOf (s : State) : option Req :=
  match s with
  | Never => None
  | Queued q _ _ | Dwelling q _ _ _ _ | Draining q _ _ _ _ | Published q _ _ _ | Cancelled q _ _ _ _ | Broken q _ _ _ _ _ => Some q
  end.
Definition sent (p : Progress) : Z := match p with PSubmitted | PCompleted => 1 | _ => 0 end.

(** Well-formed requests and states. *)
Record reqOk (a : Abs) (q : Req) : Prop := {
  rq_token : q_token q = mkRequest (a_epoch a) (a_serial a);
  rq_serial : 0 < a_serial a;
  rq_clock : 0 <= q_started q /\ q_started q + timeoutUs < 2^64;
  rq_plan : requestable (q_plan q) = true
}.
Definition situationOk (s : State) : Prop :=
  match s with
  | Never | Published _ _ _ _ | Cancelled _ _ _ _ _ => True
  | Queued q k n => (k <= length (q_plan q))%nat /\ 0 <= n <= Z.of_nat k
  | Dwelling q k n d p => (k < length (q_plan q))%nat /\ 0 <= n <= Z.of_nat k + sent p /\ operation d <> 0
  | Draining q k n d why => operation d <> 0 /\ why <> noReason
  | Broken q k n out why since => match out with Some d => operation d <> 0 | None => True end
  end.
Record wf (a : Abs) : Prop := {
  wf_serial : 0 <= a_serial a < 2^64;
  wf_epoch : 0 <= a_epoch a;
  wf_req : forall q, reqOf (a_state a) = Some q -> reqOk a q;
  wf_situation : situationOk (a_state a)
}.

Definition dwellOf (s : State) : Dwell := match outstanding s with Some d => d | None => noDwell end.
Definition flagsOk (s : State) (f1 f2 f3 : bool) : Prop :=
  match s with
  | Dwelling _ _ _ _ p =>
      f1 = negb (bool_decide (p = PNone)) /\ f2 = bool_decide (p = PSubmitted \/ p = PCompleted) /\ f3 = bool_decide (p = PCompleted)
  | _ => True
  end.
Definition holdsPlan (s : State) (cs : list Channel) : Prop :=
  length cs = 64%nat /\ forall q, reqOf s = Some q -> q_plan q = take (length (q_plan q)) cs.
Definition Inv c (a : Abs) : Prop :=
  wf a /\ exists cs f1 f2 f3,
    c = mkController cs (statusOf (a_state a)) (dwellOf (a_state a)) (a_serial a) (a_epoch a) (a_last a) f1 f2 f3 /\
    holdsPlan (a_state a) cs /\ flagsOk (a_state a) f1 f2 f3.
Definition follows {X} (r : R (X * Controller)) (x : X * Abs) : Prop := exists c, r = MVal (fst x, c) /\ Inv c (snd x).

Lemma sameDwell_sym a b : sameDwell a b = sameDwell b a.
Proof. unfold sameDwell. rewrite (Z.eqb_sym (d_epoch a)), (Z.eqb_sym (operation a)). reflexivity. Qed.
Lemma requestable_len l : requestable l = true -> (1 <= length l <= 64)%nat.
Proof. unfold requestable. rewrite !andb_true_iff. unfold zlen. lia. Qed.
Lemma plan_at q cs k : (k < length (q_plan q))%nat -> q_plan q = take (length (q_plan q)) cs ->
  exists x, q_plan q !! k = Some x /\ forall i, i = Z.of_nat k -> at_ cs i = MVal x.
Proof.
  intros Hk Hp. destruct (lookup_lt_is_Some_2 _ _ Hk) as [x Hx]. exists x. split; [exact Hx|]. intros i ->.
  rewrite Hp in Hx. apply lookup_take_Some in Hx as [Hx _]. apply at_nat. exact Hx.
Qed.
Lemma endPhase_spec c : cancelledPhase c = endPhase (reason (status_ c)).
Proof. reflexivity. Qed.
Lemma op_neq d : operation d <> 0 -> (operation d =? 0) = false.
Proof. apply Z.eqb_neq. Qed.

(** A change of the state that keeps the request. *)
Lemma wf_change a s : wf a -> reqOf s = reqOf (a_state a) -> situationOk s -> wf (withState a s).
Proof.
  intros [] Hr Hs. split; try assumption. intros q Hq. cbn in Hq. rewrite Hr in Hq. destruct (wf_req0 q Hq). split; assumption.
Qed.
Lemma inv_change a s cs f1 f2 f3 f1' f2' f3' : wf a -> reqOf s = reqOf (a_state a) -> situationOk s ->
  holdsPlan (a_state a) cs -> (flagsOk (a_state a) f1 f2 f3 -> flagsOk s f1' f2' f3') -> flagsOk (a_state a) f1 f2 f3 ->
  Inv (mkController cs (statusOf s) (dwellOf s) (a_serial a) (a_epoch a) (a_last a) f1' f2' f3') (withState a s).
Proof.
  intros Hw Hr Hs [Hc Hp] Hf Hfl. split; [apply wf_change; assumption|]. exists cs, f1', f2', f3'. split; [reflexivity|].
  split; [|apply Hf; exact Hfl]. split; [exact Hc|]. intros q Hq. apply Hp. rewrite <- Hr. exact Hq.
Qed.

Ltac situation H :=
  let Hw := fresh "Hw" in let cs := fresh "cs" in let f1 := fresh "f1" in let f2 := fresh "f2" in let f3 := fresh "f3" in
  let Hp := fresh "Hp" in let Hf := fresh "Hf" in
  destruct H as (Hw & cs & f1 & f2 & f3 & -> & Hp & Hf).
Lemma follows_same {X} (x : X) c a : Inv c a -> follows (MVal (x, c)) (x, a).
Proof. intros H. exists c. auto. Qed.

Lemma active_spec s cs ser ep la f1 f2 f3 : active (mkController cs (statusOf s) (dwellOf s) ser ep la f1 f2 f3) = isUnderWay s.
Proof. destruct s; try reflexivity. unfold active, phaseIs. cbn. unfold endPhase. destruct (bool_decide (why = timeout)); reflexivity. Qed.
Lemma underWay_req s q k n : underWay s = Some (q, k, n) -> reqOf s = Some q.
Proof. destruct s; cbn; try discriminate; intros [= -> _ _]; reflexivity. Qed.

(** ** Call by call *)

Lemma outstanding_op s : situationOk s -> negb (operation (dwellOf s) =? 0) = negb (bool_decide (outstanding s = None)).
Proof.
  intros H. unfold dwellOf. destruct s; cbn in *; try reflexivity.
  - rewrite op_neq by apply H. reflexivity.
  - rewrite op_neq by apply H. reflexivity.
  - destruct out; [|reflexivity]. rewrite op_neq by exact H. reflexivity.
Qed.

Lemma begin_guard r u o : u || o || connected r || pendingJoin r || legacyCredentials r || otherWork r ||
  negb (stationIdle r) || negb (protocolIdle r) = u || o || negb (idle r).
Proof. unfold idle. destruct u, o, (connected r), (pendingJoin r), (legacyCredentials r), (otherWork r), (stationIdle r), (protocolIdle r); reflexivity. Qed.

Lemma begin_refines c a r isActive epoch now plan count dwell : Inv c a -> callOk (Begin r isActive epoch now plan count dwell) ->
  follows (begin c r isActive epoch now plan count dwell) (a_begin a r isActive epoch now plan count dwell).
Proof.
  intros H (H0 & Hnow & Hep & Hl). pose proof H as Hsame. situation H. pose proof Hw as [[Hs1 Hs2] Hae Hreq Hsit]. unfold begin, a_begin.
  destruct (isActive && negb (activeAllowed r)); [apply follows_same; exact Hsame|].
  destruct (negb (ready r)); [apply follows_same; exact Hsame|].
  rewrite active_spec. cbn [dwell_ epoch_ serial_ channels_ lastOperation_]. rewrite outstanding_op by exact Hsit. rewrite begin_guard.
  destruct (_ || _ || negb (idle r)); [apply follows_same; exact Hsame|].
  destruct plan as [l|]; [|apply follows_same; exact Hsame]. unfold maxChannels, timeoutUs in *.
  assert (Ht : length (take (Z.to_nat count) l) = Z.to_nat count) by (rewrite length_take; unfold zlen in Hl; lia).
  unfold requestable. assert (EL : zlen (take (Z.to_nat count) l) = count) by (unfold zlen; lia). rewrite EL.
  set (okList := forallb validChannel (take (Z.to_nat count) l) && bool_decide (NoDup (take (Z.to_nat count) l))).
  assert (EG : (epoch =? 0) || (epoch <? a_epoch a) || (a_serial a =? 2 ^ 64 - 1) || (dwell <? 10) || (1000 <? dwell) ||
      (2 ^ 64 <=? now + 120000000) || negb ((1 <=? count) && (count <=? 64) && forallb validChannel (take (Z.to_nat count) l) && bool_decide (NoDup (take (Z.to_nat count) l)))
    = ((epoch =? 0) || (epoch <? a_epoch a) || (a_serial a =? 2 ^ 64 - 1) || (count =? 0) || (dwell <? 10) || (1000 <? dwell) ||
      (64 <? count) || (2 ^ 64 - 1 - now <? 120000000)) || negb okList).
  { assert (E1 : (1 <=? count) && (count <=? 64) = negb ((count =? 0) || (64 <? count))) by lia.
    assert (E2 : (2 ^ 64 <=? now + 120000000) = (2 ^ 64 - 1 - now <? 120000000)) by lia.
    rewrite E1, E2, <- andb_assoc. fold okList.
    destruct (epoch =? 0), (epoch <? a_epoch a), (a_serial a =? 2 ^ 64 - 1), (count =? 0), (dwell <? 10), (1000 <? dwell), (64 <? count),
      (2 ^ 64 - 1 - now <? 120000000), okList; reflexivity. }
  rewrite EG. destruct (_ || (2 ^ 64 - 1 - now <? 120000000)) eqn:G; cbn [orb]; [apply follows_same; exact Hsame|].
  rewrite !orb_false_iff in G. destruct G as (((((((G1 & G2) & G3) & G4) & _) & _) & G5) & G6).
  rewrite planFrom_all by (unfold zlen in Hl; lia). cbn [mbind mres_bind]. fold okList. destruct okList eqn:Eok; cbn [negb]; [|apply follows_same; exact Hsame].
  destruct Hp as [Hcs _]. rewrite copyChannels by (unfold zlen in Hl; lia). cbn [mbind mres_bind].
  rewrite !u64_small by (unfold in_u64; lia). eexists. split.
  { cbn [fst snd statusOf]. unfold mkStatusOf. cbn [q_token q_started q_plan q_dwellMs q_active]. rewrite EL. reflexivity. }
  cbn [snd]. split.
  - split; cbn; [lia|lia| |lia]. intros q [= <-]. split; cbn; [reflexivity|lia|unfold timeoutUs; lia|].
    unfold requestable. rewrite EL, <- andb_assoc. fold okList. rewrite Eok. lia.
  - eexists _, false, false, false. split.
    { cbn [a_state a_serial a_epoch a_last statusOf]. unfold mkStatusOf. cbn [q_token q_started q_plan q_dwellMs q_active]. rewrite EL.
      destruct (epoch =? a_epoch a); reflexivity. }
    cbn. split; [|exact I]. split; [rewrite length_app, Ht, length_drop; lia|]. intros q [= <-]. cbn. rewrite take_app_length. reflexivity.
Qed.

Lemma next_spec c a : Inv c a -> next c = MVal (a_next a).
Proof.
  intros H. situation H. destruct Hw as [_ _ Hreq Hsit], Hp as [_ Hp]. unfold next, a_next, phaseIs. cbn [status_ dwell_ channels_].
  destruct (a_state a) as [|q k n|q k n d p|q k n d why|q n sn at_us|q k n why at_us|q k n out why at_us]; cbn; try reflexivity.
  2:{ unfold endPhase. destruct (bool_decide (why = timeout)); reflexivity. }
  destruct (Z.leb_spec (zlen (q_plan q)) (Z.of_nat k)) as [Hk|Hk]; unfold zlen in Hk.
  - rewrite lookup_ge_None_2 by lia. reflexivity.
  - destruct (plan_at q cs k) as (x & Hx & Hat); [lia|apply Hp; reflexivity|]. rewrite Hx, (Hat _ eq_refl). reflexivity.
Qed.

Lemma accept_follows c a d : Inv c a -> follows (accept c d) (a_accept a d).
Proof.
  intros H. unfold accept. rewrite (next_spec c a H). cbn [mbind mres_bind]. pose proof H as Hsame. situation H.
  unfold a_next, a_accept. destruct (a_state a) as [|q k n|q k n d' p|q k n d' why|q n sn at_us|q k n why at_us|q k n out why at_us] eqn:Es;
    try (apply follows_same; exact Hsame).
  destruct Hw as [? ? ? Hsit]. rewrite Es in Hsit. destruct (q_plan q !! k) as [x|] eqn:Ex; cbn [fst negb orb].
  2:{ apply lookup_ge_None in Ex. destruct (Z.ltb_spec (Z.of_nat k) (zlen (q_plan q))) as [Hlt|_]; [unfold zlen in Hlt; lia|]. apply follows_same; exact Hsame. }
  apply lookup_lt_Some in Ex. destruct (Z.ltb_spec (Z.of_nat k) (zlen (q_plan q))) as [_|Hge]; [|unfold zlen in Hge; lia].
  cbn [status_ statusOf mkStatusOf token lastOperation_ andb].
  assert (EG : negb (d_epoch d =? r_epoch (q_token q)) || (operation d =? 0) || (operation d <=? a_last a) =
    negb ((d_epoch d =? r_epoch (q_token q)) && negb (operation d =? 0) && (a_last a <? operation d))).
  { rewrite Z.leb_antisym. destruct (d_epoch d =? r_epoch (q_token q)), (operation d =? 0), (a_last a <? operation d); reflexivity. }
  rewrite EG. destruct (_ && _ && _) eqn:G; cbn [negb]; [|apply follows_same; exact Hsame].
  rewrite !andb_true_iff, negb_true_iff, Z.eqb_neq in G. destruct G as [[_ G2] _]. eexists. split; [reflexivity|]. cbn [snd]. split.
  - split; cbn; [assumption|assumption| |split; [exact Ex|split; [cbn in Hsit; lia|exact G2]]].
    intros q' [= <-]. destruct (wf_req0 q) as [T1 T2 T3 T4]; [rewrite Es; reflexivity|]. split; assumption.
  - exists cs, false, false, false. split; [reflexivity|]. cbn. split; [|repeat split].
    destruct Hp as [Hc Hp]. split; [exact Hc|]. intros q' [= <-]. apply Hp. reflexivity.
Qed.

(** Where a dwell is observed, and by whom an operation is owned. *)
Definition dwellIs (s : State) (d : Dwell) : bool :=
  match s with Dwelling _ _ _ d' _ | Draining _ _ _ d' _ => sameDwell d' d | _ => false end.
Lemma owns_spec s cs ser ep la f1 f2 f3 d : situationOk s ->
  owns (mkController cs (statusOf s) (dwellOf s) ser ep la f1 f2 f3) d = dwellIs s d.
Proof.
  intros H. unfold owns. rewrite active_spec. destruct s; cbn in *; try reflexivity; rewrite op_neq by apply H; reflexivity.
Qed.
Lemma observing_spec s cs ser ep la f1 f2 f3 d : situationOk s ->
  observing (mkController cs (statusOf s) (dwellOf s) ser ep la f1 f2 f3) d = match s with Dwelling _ _ _ d' _ => sameDwell d' d | _ => false end.
Proof.
  intros H. unfold observing. rewrite owns_spec by exact H. unfold phaseIs. destruct s; try reflexivity.
  cbn [dwellIs]. apply andb_false_r.
Qed.

Lemma probe_follows c a d from to ok sent_ g :
  (forall q k n d' p, a_state a = Dwelling q k n d' p -> sameDwell d' d = true -> Inv c a ->
     follows g (if q_active q && bool_decide (p = from) && match q_plan q !! k with Some x => ok x | None => false end
                then (true, withState a (Dwelling q k (n + sent_) d' to)) else (false, a))) ->
  ((forall q k n d' p, a_state a = Dwelling q k n d' p -> sameDwell d' d = false) -> g = MVal (false, c)) -> Inv c a ->
  follows g (a_probe a d from to ok sent_).
Proof.
  intros Hin Hout H. unfold a_probe. destruct (a_state a) as [|q k n|q k n d' p|q k n d' why|q n sn since|q k n why since|q k n out why since];
    try (rewrite Hout by discriminate; apply follows_same; exact H).
  destruct (sameDwell d' d) eqn:E; cbn [andb]; [exact (Hin q k n d' p eq_refl E H)|].
  rewrite Hout; [apply follows_same; exact H|]. intros ? ? ? ? ? [= <- <- <- <- <-]. exact E.
Qed.
Lemma not_observing c a d : Inv c a -> (forall q k n d' p, a_state a = Dwelling q k n d' p -> sameDwell d' d = false) -> observing c d = false.
Proof.
  intros H Hd. situation H. rewrite observing_spec by apply Hw. destruct (a_state a); try reflexivity. eapply Hd. reflexivity.
Qed.

Lemma dwelling_inv c a d q k n p : Inv c a -> a_state a = Dwelling q k n d p ->
  exists cs x, c = mkController cs (statusOf (a_state a)) d (a_serial a) (a_epoch a) (a_last a)
      (negb (bool_decide (p = PNone))) (bool_decide (p = PSubmitted \/ p = PCompleted)) (bool_decide (p = PCompleted)) /\
    operation d <> 0 /\ q_plan q !! k = Some x /\ at_ cs (Z.of_nat k) = MVal x /\ 0 <= n <= Z.of_nat k + sent p /\ (k < 64)%nat /\
    (forall p' n', 0 <= n' <= Z.of_nat k + sent p' ->
      Inv (mkController cs (statusOf (Dwelling q k n' d p')) d (a_serial a) (a_epoch a) (a_last a)
             (negb (bool_decide (p' = PNone))) (bool_decide (p' = PSubmitted \/ p' = PCompleted)) (bool_decide (p' = PCompleted)))
          (withState a (Dwelling q k n' d p'))).
Proof.
  intros H Es. situation H. pose proof (wf_situation a Hw) as Hsit. rewrite Es in Hsit, Hf. destruct Hsit as (Hk & Hn & Hd), Hf as (-> & -> & ->).
  pose proof Hp as [Hc Hp0]. destruct (plan_at q cs k Hk) as (x & Hx & Hat); [apply Hp0; rewrite Es; reflexivity|].
  exists cs, x. split; [rewrite Es; reflexivity|]. split; [exact Hd|]. split; [exact Hx|]. split; [apply Hat; reflexivity|]. split.
  { exact Hn. }
  split.
  { destruct (wf_req a Hw q) as [_ _ _ Hl]; [rewrite Es; reflexivity|]. apply requestable_len in Hl. lia. }
  intros p' n' Hn'. apply (inv_change a (Dwelling q k n' d p') cs (negb (bool_decide (p = PNone))) (bool_decide (p = PSubmitted \/ p = PCompleted)) (bool_decide (p = PCompleted))).
  - exact Hw.
  - rewrite Es. reflexivity.
  - cbn. auto.
  - exact Hp.
  - cbn. auto.
  - rewrite Es. cbn. auto.
Qed.

Lemma observing_dwelling cs q k n d p ser ep la f1 f2 f3 d0 : operation d <> 0 -> sameDwell d d0 = true ->
  observing (mkController cs (statusOf (Dwelling q k n d p)) d ser ep la f1 f2 f3) d0 = true.
Proof. intros H1 H2. unfold observing, owns. cbn. rewrite op_neq by exact H1. rewrite H2. reflexivity. Qed.

Lemma requestProbe_follows c a d y : Inv c a -> follows (requestProbe c d y) (a_probe a d PNone PRequested (fun z => bool_decide (y = z)) 0).
Proof.
  intros H. apply (probe_follows c); [|intros Hd; unfold requestProbe; rewrite (not_observing c a d H Hd); reflexivity|exact H].
  intros q k n d' p Es Ed _. destruct (dwelling_inv c a d' q k n p H Es) as (cs & x & -> & Ho & Hx & Hat & Hn & Hk & Hnew).
  unfold requestProbe. rewrite Es in H |- *. rewrite observing_dwelling by assumption.
  cbn [status_ statusOf mkStatusOf activeScan negb orb probeRequested_ channels_ completedChannels].
  destruct (q_active q); cbn [negb orb andb]; [|apply follows_same; exact H].
  destruct (bool_decide_reflect (p = PNone)) as [->|Hp]; cbn [negb andb]; [|apply follows_same; exact H].
  rewrite Hat, Hx. cbn [mbind mres_bind]. rewrite sameChannel_spec. destruct (bool_decide (y = x)); cbn [negb]; [|apply follows_same; exact H].
  eexists. split; [reflexivity|]. rewrite Z.add_0_r. exact (Hnew PRequested n Hn).
Qed.

Lemma pendingProbe_spec c a d : Inv c a -> pendingProbe c d = MVal (a_pending a d).
Proof.
  intros H. unfold a_pending, pendingProbe.
  destruct (a_state a) as [|q k n|q k n d' p|q k n d' why|q n sn since|q k n why since|q k n out why since] eqn:Es;
    try (rewrite (not_observing c a d H) by (rewrite Es; discriminate); reflexivity).
  destruct (sameDwell d' d) eqn:Ed.
  2:{ rewrite (not_observing c a d H) by (rewrite Es; intros ? ? ? ? ? [= <- <- <- <- <-]; exact Ed). destruct p; reflexivity. }
  destruct (dwelling_inv c a d' q k n p H Es) as (cs & x & -> & Ho & Hx & Hat & Hn & Hk & _).
  rewrite Es, observing_dwelling by assumption. cbn [status_ statusOf mkStatusOf activeScan negb orb probeRequested_ probeSubmitted_ channels_ completedChannels].
  rewrite Hx, Hat. destruct (q_active q), p; reflexivity.
Qed.

Lemma submittedProbe_follows c a d : Inv c a -> follows (submittedProbe c d) (a_probe a d PRequested PSubmitted (fun _ => true) 1).
Proof.
  intros H. unfold submittedProbe. rewrite (pendingProbe_spec c a d H). cbn [mbind mres_bind]. unfold a_pending. apply (probe_follows c); [| |exact H].
  - intros q k n d' p Es Ed _. destruct (dwelling_inv c a d' q k n p H Es) as (cs & x & -> & Ho & Hx & Hat & Hn & Hk & Hnew).
    rewrite Es in H |- *. rewrite Ed, Hx. destruct p, (q_active q); try (apply follows_same; exact H).
    change (bool_decide (PRequested = PRequested)) with true. eexists. split; [reflexivity|]. cbn [sent] in Hn.
    cbn [status_ statusOf mkStatusOf probesSubmitted]. rewrite u64_small by (unfold in_u64; lia). apply (Hnew PSubmitted (n + 1)). cbn [sent]. lia.
  - intros Hd. destruct (a_state a) as [| |q k n d' p| | | |]; try reflexivity. rewrite (Hd _ _ _ _ _ eq_refl). destruct p; reflexivity.
Qed.

Lemma completedProbe_follows c a d : Inv c a -> follows (MVal (completedProbe c d)) (a_probe a d PSubmitted PCompleted (fun _ => true) 0).
Proof.
  intros H. apply (probe_follows c); [|intros Hd; unfold completedProbe; rewrite (not_observing c a d H Hd); reflexivity|exact H].
  intros q k n d' p Es Ed _. destruct (dwelling_inv c a d' q k n p H Es) as (cs & x & -> & Ho & Hx & Hat & Hn & Hk & Hnew).
  unfold completedProbe. rewrite Es in H |- *. rewrite observing_dwelling by assumption. rewrite Hx.
  cbn [status_ statusOf mkStatusOf activeScan negb orb probeSubmitted_ probeCompleted_].
  destruct (q_active q), p; try (apply follows_same; exact H).
  change (bool_decide (PSubmitted = PSubmitted)) with true. eexists. split; [reflexivity|]. rewrite Z.add_0_r. exact (Hnew PCompleted n Hn).
Qed.

(** The controller of a state, with some channels and flags. *)
Definition ctl (a : Abs) (cs : list Channel) (f1 f2 f3 : bool) : Controller :=
  mkController cs (statusOf (a_state a)) (dwellOf (a_state a)) (a_serial a) (a_epoch a) (a_last a) f1 f2 f3.
(** Leaving a dwell: the flags are no longer looked at. *)
Lemma inv_leave a s cs f1 f2 f3 g1 g2 g3 : Inv (ctl a cs g1 g2 g3) a -> reqOf s = reqOf (a_state a) -> situationOk s ->
  (forall q k n d p, s <> Dwelling q k n d p) -> Inv (ctl (withState a s) cs f1 f2 f3) (withState a s).
Proof.
  intros (Hw & cs' & g1' & g2' & g3' & [= <- <- <- <-] & Hp & Hf) Hr Hs Hn. apply (inv_change a s cs g1 g2 g3); try assumption.
  intros _. destruct s; try exact I. exfalso. eapply Hn. reflexivity.
Qed.
Ltac leave H :=
  eexists; split; [reflexivity|]; refine (inv_leave _ _ _ _ _ _ _ _ _ H _ _ _); [reflexivity| |intros; discriminate].

(** The cases of [Inv c a], with the parts of [a] explicit. *)
Ltac by_state H :=
  let c := lazymatch type of H with Inv ?c _ => c end in
  let a := lazymatch type of H with Inv _ ?a => a end in
  let Hw := fresh "Hw" in let Hp := fresh "Hp" in let Hf := fresh "Hf" in let E := fresh "E" in
  pose proof H as (Hw & cs & f1 & f2 & f3 & E & Hp & Hf); subst c; pose proof (wf_situation _ Hw) as Hsit; clear Hp;
  destruct a as [s ser ep la]; cbn [a_state a_serial a_epoch a_last] in H, Hsit, Hf |- *; fold (ctl (mkAbs s ser ep la) cs f1 f2 f3) in H |- *;
  destruct s as [|q k n|q k n d' p|q k n d' why'|q n sn' since|q k n why' since|q k n out why' since];
  change (mkController cs (statusOf ?x) (dwellOf ?x) ser ep la f1 f2 f3) with (ctl (mkAbs x ser ep la) cs f1 f2 f3) in *.

Lemma sameRequest_refl t : sameRequest t t = true.
Proof. unfold sameRequest. rewrite !Z.eqb_refl. reflexivity. Qed.
Lemma active_ctl a cs f1 f2 f3 : active (ctl a cs f1 f2 f3) = isUnderWay (a_state a).
Proof. apply active_spec. Qed.
Lemma owns_ctl a cs f1 f2 f3 d : situationOk (a_state a) -> owns (ctl a cs f1 f2 f3) d = dwellIs (a_state a) d.
Proof. apply owns_spec. Qed.
Lemma phaseIs_ended q k n why since ser ep la cs f1 f2 f3 p : p <> timedOut -> p <> cancelled ->
  phaseIs (ctl (mkAbs (Cancelled q k n why since) ser ep la) cs f1 f2 f3) p = false.
Proof.
  intros H1 H2. unfold phaseIs, ctl. cbn. unfold endPhase. destruct (bool_decide (why = timeout)); apply bool_decide_false; congruence.
Qed.

Lemma isDraining_ctl a cs f1 f2 f3 :
  isDraining (ctl a cs f1 f2 f3) = match a_state a with Draining _ _ _ _ _ => true | _ => false end.
Proof.
  destruct a as [s ser ep la]. destruct s; try reflexivity. apply phaseIs_ended; discriminate.
Qed.

Lemma cancel_refines c a t why now : Inv c a -> follows (MVal (cancel c t why now)) (a_cancelCall a t why now).
Proof.
  intros H. by_state H; unfold cancel, a_cancelCall; rewrite active_ctl; cbn [a_state isUnderWay underWay negb orb]; try (apply follows_same; exact H);
    cbn [ctl status_ a_state statusOf mkStatusOf token]; fold (ctl (mkAbs (Queued q k n) ser ep la) cs f1 f2 f3).
  all: destruct (sameRequest t (q_token q)); cbn [negb orb andb]; [|apply follows_same; exact H].
  all: destruct (bool_decide_reflect (why = noReason)) as [|Hwhy]; cbn [negb]; [apply follows_same; exact H|].
  - leave H. exact I.
  - unfold phaseIs. cbn. rewrite op_neq by apply Hsit. leave H. cbn. split; [apply Hsit|exact Hwhy].
  - apply (follows_same true _ _ H).
Qed.

Lemma expired_follows c a now : Inv c a -> follows (MVal (expired c now)) (a_expired a now).
Proof.
  intros H. by_state H; unfold expired, a_expired; rewrite active_ctl; cbn [a_state isUnderWay underWay negb orb]; try (apply follows_same; exact H).
  all: rewrite isDraining_ctl; cbn [a_state orb]; try (apply follows_same; exact H).
  all: unfold late; cbn [ctl status_ a_state statusOf mkStatusOf deadlineUs token]; rewrite Z.ltb_antisym;
    destruct (q_started q + timeoutUs <=? now); cbn [negb]; [|apply follows_same; exact H].
  all: try (destruct (cancel_refines _ _ (q_token q) timeout now H) as (c' & E & H');
    unfold a_cancelCall in E, H'; cbn [a_state underWay] in E, H'; rewrite sameRequest_refl in E, H';
    rewrite bool_decide_false in E, H' by discriminate; exists c'; auto).
Qed.

Lemma fail_follows c a why now : Inv c a -> Inv (fail c why now) (withState a (a_fail (a_state a) why now)).
Proof.
  intros H. by_state H; unfold fail; rewrite active_ctl; cbn [a_state isUnderWay underWay negb a_fail outstanding]; try exact H.
  - refine (inv_leave _ _ _ _ _ _ _ _ _ H _ _ _); [reflexivity|exact I|discriminate].
  - cbn. rewrite op_neq by apply Hsit. refine (inv_leave _ (Broken q k n (Some d') why now) cs f1 f2 f3 _ _ _ H _ _ _); [reflexivity|apply Hsit|discriminate].
  - cbn. rewrite op_neq by apply Hsit. refine (inv_leave _ (Broken q k n (Some d') why now) cs f1 f2 f3 _ _ _ H _ _ _); [reflexivity|apply Hsit|discriminate].
Qed.

Lemma clockValid_ctl a cs f1 f2 f3 q k n now : underWay (a_state a) = Some (q, k, n) ->
  clockValid (ctl a cs f1 f2 f3) now = negb (now <? q_started q).
Proof.
  intros Hu. unfold clockValid. rewrite active_ctl. unfold isUnderWay. rewrite Hu. cbn [negb orb]. rewrite <- Z.leb_antisym.
  unfold ctl. cbn [status_]. destruct (a_state a); try discriminate; injection Hu as -> _ _; reflexivity.
Qed.
(** A dwell past the deadline is being cancelled when it ends. *)
Lemma expired_dwelling q k n d p ser ep la cs f1 f2 f3 now : operation d <> 0 ->
  snd (expired (ctl (mkAbs (Dwelling q k n d p) ser ep la) cs f1 f2 f3) now) =
  ctl (mkAbs (if late q now then Draining q k n d timeout else Dwelling q k n d p) ser ep la) cs f1 f2 f3.
Proof.
  intros Hd. unfold expired, late. rewrite isDraining_ctl, active_ctl. cbn [a_state isUnderWay underWay negb orb ctl status_ statusOf mkStatusOf deadlineUs token].
  rewrite Z.ltb_antisym. destruct (q_started q + timeoutUs <=? now); cbn [negb]; [|reflexivity].
  unfold cancel. fold (ctl (mkAbs (Dwelling q k n d p) ser ep la) cs f1 f2 f3). rewrite active_ctl. cbn [a_state isUnderWay underWay negb orb ctl status_ statusOf mkStatusOf token].
  rewrite sameRequest_refl. cbn. rewrite op_neq by exact Hd. reflexivity.
Qed.
Lemma draining_ends a q k n d why cs f1 f2 f3 now : Inv (ctl a cs f1 f2 f3) a -> reqOf (a_state a) = Some q ->
  Inv (endCancellation ((ctl (withState a (Draining q k n d why)) cs f1 f2 f3) <| dwell_ := noDwell |>
         <| status_ := (statusOf (Draining q k n d why)) <| drained := true |> |>) now) (withState a (Cancelled q k n why now)).
Proof. intros H Hr. refine (inv_leave a (Cancelled q k n why now) cs f1 f2 f3 _ _ _ H _ _ _); [symmetry; exact Hr|exact I|discriminate]. Qed.

Lemma channelFinished_refines c a d isCancelled now : Inv c a ->
  follows (MVal (channelFinished c d isCancelled now)) (a_channelFinished a d isCancelled now).
Proof.
  intros H. by_state H; unfold channelFinished, a_channelFinished; rewrite owns_ctl by exact Hsit; cbn [a_state dwellIs negb]; try (apply follows_same; exact H).
  - destruct Hsit as (Hk & Hn & Hd). destruct (sameDwell d' d); cbn [negb]; [|apply follows_same; exact H].
    rewrite (clockValid_ctl _ _ _ _ _ q k n) by reflexivity. unfold a_finished, follows. cbn [fst snd].
    destruct (now <? q_started q); cbn [negb]; [eexists; split; [reflexivity|]; exact (fail_follows _ _ clock now H)|].
    rewrite expired_dwelling by exact Hd. destruct (late q now).
    { eexists. split; [reflexivity|]. exact (draining_ends _ q k n d' timeout cs f1 f2 f3 now H eq_refl). }
    cbn. destruct isCancelled; cbn.
    { eexists. split; [reflexivity|]. refine (inv_leave _ (Cancelled q k n backend now) cs f1 f2 f3 _ _ _ H _ _ _); [reflexivity|exact I|discriminate]. }
    destruct Hf as (-> & -> & ->). destruct (q_active q && negb (bool_decide (p = PCompleted))) eqn:Ep.
    { eexists. split; [reflexivity|]. refine (inv_leave _ (Broken q k n None probe now) cs _ _ _ _ _ _ H _ _ _); [reflexivity|exact I|discriminate]. }
    assert (Hl : (length (q_plan q) <= 64)%nat).
    { destruct (wf_req _ Hw q eq_refl) as [_ _ _ Hl]. apply requestable_len in Hl. lia. }
    rewrite u64_small by (unfold in_u64; lia). replace (Z.of_nat k + 1) with (Z.of_nat (Datatypes.S k)) by lia.
    eexists. split; [reflexivity|]. refine (inv_leave _ (Queued q (Datatypes.S k) n) cs _ _ _ _ _ _ H _ _ _); [reflexivity| |discriminate].
    cbn. destruct p; cbn in Hn; lia.
  - destruct Hsit as (Hd & Hwhy). destruct (sameDwell d' d); cbn [negb]; [|apply follows_same; exact H].
    rewrite (clockValid_ctl _ _ _ _ _ q k n) by reflexivity. unfold a_finished, follows. cbn [fst snd].
    destruct (now <? q_started q); cbn [negb]; [eexists; split; [reflexivity|]; exact (fail_follows _ _ clock now H)|].
    unfold expired. rewrite isDraining_ctl, active_ctl. cbn [a_state isUnderWay underWay negb orb snd].
    eexists. split; [reflexivity|]. exact (draining_ends _ q k n d' why' cs f1 f2 f3 now H eq_refl).
Qed.

Lemma finish_refines c a sn now : Inv c a -> follows (MVal (finish c sn now)) (a_complete a sn now).
Proof.
  intros H. unfold finish, a_complete, readyToFinish. by_state H; try (apply follows_same; exact H).
  2:{ rewrite phaseIs_ended by discriminate. apply follows_same. exact H. }
  rewrite (clockValid_ctl _ _ _ _ _ q k n) by reflexivity. destruct (wf_req _ Hw q eq_refl) as [_ _ _ Hl]. apply requestable_len in Hl.
  unfold late. cbn [a_state ctl phaseIs status_ statusOf mkStatusOf phase plannedChannels completedChannels token deadlineUs dwell_ dwellOf outstanding].
  destruct (Z.eqb_spec (zlen (q_plan q)) 0) as [E0|_]; [unfold zlen in E0; lia|].
  assert (EG : negb ((Z.of_nat k =? zlen (q_plan q)) && true) || (generation sn =? 0) || negb (ScanCache.epoch sn =? r_epoch (q_token q)) ||
      negb (negb (now <? q_started q)) || (q_started q + timeoutUs <=? now) =
    negb ((Z.of_nat k =? zlen (q_plan q)) && negb (generation sn =? 0) && (ScanCache.epoch sn =? r_epoch (q_token q)) && (q_started q <=? now) &&
      negb (q_started q + timeoutUs <=? now))).
  { rewrite (Z.leb_antisym now (q_started q)).
    destruct (Z.of_nat k =? _), (generation sn =? 0), (ScanCache.epoch sn =? _), (now <? q_started q), (_ <=? now); reflexivity. }
  change (phaseIs _ queued) with true. change (operation noDwell =? 0) with true. cbn [andb negb].
  rewrite EG. destruct (_ && negb (q_started q + timeoutUs <=? now)) eqn:G; cbn [negb]; [|apply follows_same; exact H].
  rewrite !andb_true_iff in G. destruct G as [[[[G _] _] _] _]. apply Z.eqb_eq in G.
  assert (Ek : k = length (q_plan q)) by (unfold zlen in G; lia). subst k.
  eexists. split; [reflexivity|]. refine (inv_leave _ (Published q n sn now) cs f1 f2 f3 _ _ _ H _ _ _); [reflexivity|exact I|discriminate].
Qed.

Lemma hardwareStopped_follows c a now : Inv c a -> Inv (hardwareStopped c now) (withState a (a_stopped (a_state a) now)).
Proof.
  intros H. unfold hardwareStopped. by_state H; try exact H.
  all: destruct (wf_req _ Hw q eq_refl) as [Ht Hs _ _]; cbn [a_epoch a_serial] in Ht, Hs.
  all: assert (Er : (request (q_token q) =? 0) = false) by (rewrite Ht; cbn; lia).
  all: change (token (status_ (ctl _ cs f1 f2 f3))) with (q_token q); rewrite Er, active_ctl; cbn [a_state isUnderWay underWay].
  - refine (inv_leave _ (Cancelled q k n shutdown now) cs f1 f2 f3 _ _ _ H _ _ _); [reflexivity|exact I|discriminate].
  - refine (inv_leave _ (Cancelled q k n shutdown now) cs f1 f2 f3 _ _ _ H _ _ _); [reflexivity|exact I|discriminate].
  - destruct Hsit as [_ Hwhy]. change (reason (status_ (ctl _ cs f1 f2 f3))) with why'. rewrite bool_decide_false by exact Hwhy.
    refine (inv_leave _ (Cancelled q k n why' now) cs f1 f2 f3 _ _ _ H _ _ _); [reflexivity|exact I|discriminate].
  - exact H.
  - rewrite phaseIs_ended by discriminate. exact H.
  - refine (inv_leave _ (Broken q k n None why' since) cs f1 f2 f3 _ _ _ H _ _ _); [reflexivity|exact I|discriminate].
Qed.

Lemma copyOut_spec c a t : Inv c a -> copy c t = a_copy (a_state a) t.
Proof. intros H. situation H. reflexivity. Qed.

(** ** Every sequence of calls *)

Lemma call_refines c a l : Inv c a -> callOk l -> follows (call c l) (a_call a l).
Proof.
  intros H Hl. unfold follows. destruct l; cbn [call a_call]; cbv zeta; cbn [fst snd].
  - destruct (begin_refines c a r isActive epoch now plan count requestedDwellMs H Hl) as (c' & -> & H'). exists c'. auto.
  - rewrite (next_spec c a H). exists c. auto.
  - destruct (accept_follows c a d H) as (c' & -> & H'). exists c'. auto.
  - destruct (requestProbe_follows c a d x H) as (c' & -> & H'). exists c'. auto.
  - rewrite (pendingProbe_spec c a d H). exists c. auto.
  - destruct (submittedProbe_follows c a d H) as (c' & -> & H'). exists c'. auto.
  - destruct (completedProbe_follows c a d H) as (c' & [= ->] & H'). exists c'. auto.
  - destruct (cancel_refines c a t why now H) as (c' & [= ->] & H'). exists c'. auto.
  - destruct (expired_follows c a now H) as (c' & [= ->] & H'). exists c'. auto.
  - destruct (channelFinished_refines c a d isCancelled now H) as (c' & [= ->] & H'). exists c'. auto.
  - destruct (finish_refines c a sn now H) as (c' & [= ->] & H'). exists c'. auto.
  - eexists. split; [reflexivity|]. apply fail_follows. exact H.
  - eexists. split; [reflexivity|]. apply hardwareStopped_follows. exact H.
  - rewrite (copyOut_spec c a t H). exists c. auto.
Qed.
Lemma calls_refine l : forall c a, Inv c a -> Forall callOk l -> follows (calls c l) (a_calls a l).
Proof.
  induction l as [|x l IH]; intros c a H Hl; [exists c; auto|]. apply Forall_cons in Hl as [Hx Hl].
  destruct (call_refines c a x H Hx) as (c1 & E1 & H1). destruct (IH c1 _ H1 Hl) as (c2 & E2 & H2).
  exists c2. cbn [calls a_calls]. rewrite E1. cbn [mbind mres_bind fst snd]. rewrite E2. auto.
Qed.
Lemma newController_inv : Inv newController newAbs.
Proof.
  split.
  - split; cbn; try lia. intros q Hq. discriminate.
  - exists (replicate (Z.to_nat maxChannels) noChannel), false, false, false. split; [reflexivity|]. split; [|exact I].
    split; [reflexivity|discriminate].
Qed.

(** ** What a completed request has done

    The journey of the latest request, read off the calls and their answers:
    the channels of the dwells that ended without being cancelled, each with
    whether its probe was completed. *)
Record Journey := mkJourney { j_plan : list Channel; j_dwell : option Dwell; j_probed : bool; j_visited : list (Channel * bool) }.
Definition newJourney : Journey := mkJourney [] None false [].
Definition j_step (j : Journey) (x : Call * Answer) : Journey :=
  match x with
  | (Begin _ _ _ _ (Some l) count _, AAdmission accepted _) => mkJourney (take (Z.to_nat count) l) None false []
  | (Accept d, ABool true) => mkJourney (j_plan j) (Some d) false (j_visited j)
  | (CompletedProbe d, ABool true) => mkJourney (j_plan j) (j_dwell j) true (j_visited j)
  | (ChannelFinished d false _, ABool true) =>
      match j_dwell j, j_plan j !! length (j_visited j) with
      | Some d', Some x => if sameDwell d' d then mkJourney (j_plan j) None false (j_visited j ++ [(x, j_probed j)]) else j
      | _, _ => j
      end
  | _ => j
  end.
Definition journey (l : list (Call * Answer)) : Journey := fold_left j_step l newJourney.

(** Every planned channel visited, in the order of the plan. *)
Definition visitedAll (j : Journey) (isActive : bool) : Prop :=
  map fst (j_visited j) = j_plan j /\ (isActive = true -> Forall (fun x => snd x = true) (j_visited j)).

Definition onTheWay (j : Journey) (q : Req) (k : nat) : Prop :=
  j_plan j = q_plan q /\ map fst (j_visited j) = take k (q_plan q) /\ (k <= length (q_plan q))%nat /\
  (q_active q = true -> Forall (fun x => snd x = true) (j_visited j)).
Definition travels (s : State) (j : Journey) : Prop :=
  match s with
  | Queued q k n => onTheWay j q k
  | Dwelling q k n d p => onTheWay j q k /\ (k < length (q_plan q))%nat /\ j_dwell j = Some d /\ j_probed j = bool_decide (p = PCompleted)
  | Published q n sn since => visitedAll j (q_active q)
  | _ => True
  end.

Lemma visited_length j q k : onTheWay j q k -> length (j_visited j) = k.
Proof. intros (_ & H & Hk & _). apply (f_equal length) in H. rewrite length_map, length_take in H. lia. Qed.

Lemma begin_travels a j r isActive epoch now plan count dwell : travels (a_state a) j ->
  travels (a_state (a_call a (Begin r isActive epoch now plan count dwell)).2)
    (j_step j (Begin r isActive epoch now plan count dwell, (a_call a (Begin r isActive epoch now plan count dwell)).1)).
Proof.
  intros H. cbn [a_call]. cbv zeta. unfold a_begin. cbv zeta.
  destruct (isActive && _); [destruct plan; exact H|]. destruct (negb (ready r)); [destruct plan; exact H|].
  destruct (_ || negb (idle r)); [destruct plan; exact H|]. destruct plan as [l|]; [|exact H].
  destruct (_ || negb (requestable _)); [exact H|]. cbn. split; [reflexivity|]. split; [reflexivity|]. split; [lia|]. constructor.
Qed.

Lemma finished_travels q k n d p j d0 isCancelled now : travels (Dwelling q k n d p) j -> sameDwell d d0 = true ->
  travels (a_finished (Dwelling q k n d p) isCancelled now) (j_step j (ChannelFinished d0 isCancelled now, ABool true)).
Proof.
  intros (Hw & Hk & Hd & Hp) Es. pose proof (visited_length _ _ _ Hw) as Hl. destruct Hw as (H1 & H2 & H3 & H4). cbn [a_finished a_fail underWay].
  destruct (now <? q_started q); [exact I|]. destruct (late q now); [exact I|]. destruct isCancelled; [exact I|].
  destruct (q_active q && negb (bool_decide (p = PCompleted))) eqn:Ep; [exact I|]. cbn [j_step]. rewrite Hd, H1, Hl.
  destruct (lookup_lt_is_Some_2 _ _ Hk) as [x Hx]. rewrite Hx, Es. cbn [travels]. unfold onTheWay. cbn [j_plan j_visited].
  split; [reflexivity|]. split; [rewrite map_app, H2, (take_S_r _ _ _ Hx); reflexivity|]. split; [lia|].
  intros Ha. apply Forall_app. split; [exact (H4 Ha)|]. constructor; [|constructor]. cbn. rewrite Hp. rewrite Ha in Ep. cbn in Ep.
  apply negb_false_iff in Ep. exact Ep.
Qed.

Lemma a_call_travels a j l : travels (a_state a) j -> travels (a_state (a_call a l).2) (j_step j (l, (a_call a l).1)).
Proof.
  intros H. destruct l; try (apply begin_travels; exact H); cbn [a_call]; cbv zeta; cbn [fst snd]; try exact H.
  - unfold a_accept. destruct (a_state a) as [|q k n| | | | |] eqn:Es; cbn [fst snd]; rewrite ?Es; try exact H.
    destruct (_ && _ && _ && _) eqn:G; cbn [fst snd]; rewrite ?Es; [|exact H].
    rewrite !andb_true_iff in G. destruct G as [[[G _] _] _]. unfold zlen in G. split; [exact H|]. split; [lia|]. split; reflexivity.
  - unfold a_probe. destruct (a_state a) as [| |q k n d' p| | | |] eqn:Es; cbn [fst snd]; rewrite ?Es; try exact H.
    destruct (_ && _ && _ && _) eqn:G; cbn [fst snd]; rewrite ?Es; [|exact H]. rewrite !andb_true_iff in G. destruct G as [[[_ _] G%bool_decide_eq_true] _].
    subst p. exact H.
  - unfold a_probe. destruct (a_state a) as [| |q k n d' p| | | |] eqn:Es; cbn [fst snd]; rewrite ?Es; try exact H.
    destruct (_ && _ && _ && _) eqn:G; cbn [fst snd]; rewrite ?Es; [|exact H]. rewrite !andb_true_iff in G. destruct G as [[[_ _] G%bool_decide_eq_true] _].
    subst p. exact H.
  - unfold a_probe. destruct (a_state a) as [| |q k n d' p| | | |] eqn:Es; cbn [fst snd]; rewrite ?Es; try exact H.
    destruct (_ && _ && _ && _) eqn:G; cbn [fst snd]; rewrite ?Es; [|exact H]. destruct H as (H1 & H2 & H3 & _). split; [exact H1|]. split; [exact H2|]. split; [exact H3|reflexivity].
  - unfold a_cancelCall. destruct (underWay (a_state a)) as [[[q k] n]|] eqn:E; cbn [fst snd]; [|exact H].
    destruct (_ && _); cbn [fst snd withState a_state]; [|exact H]. destruct (a_state a); try discriminate; exact I.
  - unfold a_expired. destruct (a_state a) eqn:Es; cbn [fst snd]; rewrite ?Es; try exact H; destruct (late q now); cbn [fst snd withState a_state]; rewrite ?Es; try exact H; exact I.
  - unfold a_channelFinished. destruct (a_state a) as [| |q k n d' p|q k n d' why| | |] eqn:Es; cbn [fst snd]; rewrite ?Es.
    1,2,5,6,7: destruct isCancelled; exact H.
    + destruct (sameDwell d' d) eqn:Ed; cbn [fst snd withState a_state]; rewrite ?Es; [|destruct isCancelled; exact H]. apply finished_travels; assumption.
    + destruct (sameDwell d' d); cbn [fst snd withState a_state]; rewrite ?Es; [|exact I]. unfold a_finished, a_fail. cbn. destruct (now <? _); exact I.
  - unfold a_complete. destruct (a_state a) as [|q k n| | | | |] eqn:Es; cbn [fst snd]; rewrite ?Es; try exact H.
    destruct (_ && _ && _ && _ && _) eqn:G; cbn [fst snd]; rewrite ?Es; [|exact H]. rewrite !andb_true_iff in G. destruct G as [[[[G _] _] _] _].
    apply Z.eqb_eq in G. destruct H as (H1 & H2 & H3 & H4). cbn. split; [|exact H4]. rewrite H1, H2. apply take_ge. unfold zlen in G. lia.
  - unfold a_fail. destruct (underWay (a_state a)) as [[[q k] n]|]; [exact I|]. exact H.
  - destruct (a_state a); cbn; try exact I; exact H.
Qed.

Lemma a_calls_travel l : forall a j, travels (a_state a) j ->
  travels (a_state (a_calls a l).2) (fold_left j_step (combine l (a_calls a l).1) j).
Proof.
  induction l as [|x l IH]; intros a j H; [exact H|]. cbn [a_calls]. cbv zeta. cbn [fst snd combine fold_left].
  apply IH. apply a_call_travels. exact H.
Qed.

(** C27: whatever the calls, the controller stays inside its channel array and
    answers like the specification, whose state has one constructor per
    situation and so rules out every other combination of phase, dwell and
    probe flags; its status is the specification's.  When the status says
    drained no operation is out, and when it says complete every channel of
    the request had, in order, a dwell that ended uncancelled, and in an active
    scan with its probe completed. *)
Theorem controller_refines l : Forall callOk l ->
  exists c answers, calls newController l = MVal (answers, c) /\ answers = fst (a_calls newAbs l) /\
    status_ c = statusOf (a_state (snd (a_calls newAbs l))) /\ dwell_ c = dwellOf (a_state (snd (a_calls newAbs l))) /\
    (drained (status_ c) = true -> operation (dwell_ c) = 0) /\
    (phase (status_ c) = complete -> visitedAll (journey (combine l answers)) (activeScan (status_ c))).
Proof.
  intros Hl. destruct (calls_refine l newController newAbs newController_inv Hl) as (c & E & H).
  exists c, (fst (a_calls newAbs l)). split; [exact E|]. split; [reflexivity|]. situation H. cbn [status_ dwell_].
  pose proof (a_calls_travel l newAbs newJourney I) as Ht. fold (journey (combine l (a_calls newAbs l).1)) in Ht.
  split; [reflexivity|]. split; [reflexivity|]. destruct (a_state (snd (a_calls newAbs l))); cbn in *; (split; [|try discriminate]); try discriminate; try reflexivity.
  - intros _. exact Ht.
  - unfold endPhase. destruct (bool_decide _); discriminate.
  - destruct out; [discriminate|reflexivity].
Qed.

(** ** Concrete requests *)

Definition free : Readiness := mkReadiness true true true false false false false true.
Definition ch (n : Z) : Channel := mkChannel ghz2 n.
Definition op (n : Z) : Dwell := mkDwell 3 n.
Definition sampleScan : list Call :=
  [Begin free true 3 1000 (Some [ch 1; ch 6]) 2 120; Next; Accept (op 5); RequestProbe (op 5) (ch 1); PendingProbe (op 5);
   SubmittedProbe (op 5); CompletedProbe (op 5); ChannelFinished (op 4) false 1200; ChannelFinished (op 5) false 1300;
   Complete (mkToken 9 3) 1400; Accept (op 5); Accept (op 6); RequestProbe (op 6) (ch 6); SubmittedProbe (op 6); CompletedProbe (op 6);
   ChannelFinished (op 6) false 1500; Complete (mkToken 9 3) 1600].
Definition scanAnswers (l : list Call) : option (list bool) :=
  match calls newController l with
  | MVal (a, _) => Some (map (fun x => match x with ABool b => b | AChannel b _ => b | AAdmission accepted _ => true | ACopy b _ => b | _ => false end) a)
  | _ => None
  end.
Example sampleScan_answers : scanAnswers sampleScan =
  Some [true; true; true; true; true; true; true; false; true; false; false; true; true; true; true; true; true].
Proof. vm_compute. reflexivity. Qed.
Example sampleScan_complete : exists a c, calls newController sampleScan = MVal (a, c) /\ phase (status_ c) = complete /\ probesSubmitted (status_ c) = 2.
Proof. vm_compute. do 2 eexists. split; [reflexivity|]. split; reflexivity. Qed.

Lemma controller_refines_witness :
  exists c answers, calls newController sampleScan = MVal (answers, c) /\ answers = fst (a_calls newAbs sampleScan) /\
    status_ c = statusOf (a_state (snd (a_calls newAbs sampleScan))) /\ dwell_ c = dwellOf (a_state (snd (a_calls newAbs sampleScan))) /\
    (drained (status_ c) = true -> operation (dwell_ c) = 0) /\
    (phase (status_ c) = complete -> visitedAll (journey (combine sampleScan answers)) (activeScan (status_ c))).
Proof.
  apply (controller_refines sampleScan). unfold sampleScan. repeat (apply Forall_cons_2; [vm_compute; intuition congruence|]). apply Forall_nil_2.
Defined.
