(* ===== verification/RxAssembly.v ===== *)
(** * Reassembly of received packets (src/network/PciRxAssembly.hpp, RxTrace.hpp)

    The device delivers a packet in segments, each in a DMA buffer with a
    prefix word; the assembler copies them into one buffer and decodes the
    result.  The reference below does the same on lists of bytes, and any way
    of cutting a packet gives the packet back. *)

From S2P Require Import Prelude Descriptors.

(** ** The assembler *)

Inductive AssemblyStatus := incomplete | complete | invalid.
Record AssembledRx := mkAssembled { x_data : option buf; x_bytes : Z; x_packet : option RxPacket }.
Definition noPacket : AssembledRx := mkAssembled None 0 None.

(** [bytes_[4+32+6+56+16383]] *)
Definition storage : Z := 4 + 32 + 6 + 56 + 16383.
Record PciRxAssembly := mkAssembly { bytes_ : buf; used_ : Z; target_ : Z; active_ : bool }.
Definition newAssembly : PciRxAssembly := mkAssembly (zeros storage) 0 0 false.
Definition reset (s : PciRxAssembly) : PciRxAssembly := mkAssembly (bytes_ s) 0 0 false.
Definition pending (s : PciRxAssembly) : bool := active_ s.

Abbreviation R A := (mres unit A).
Definition result : Type := AssemblyStatus * AssembledRx * PciRxAssembly.
(** [reset();return AssemblyStatus::invalid;] *)
Definition refuse (s : PciRxAssembly) : R result := MVal (invalid, noPacket, reset s).
(** A decoder's status compared with [ok]. *)
Definition attempt {E A} (m : mres E A) : R (option A) :=
  match m with MVal a => MVal (Some a) | MErr _ => MVal None | MOob => MOob end.

(** [for(i=0;i<n;++i)to[at+i]=from[start+i];] *)
Definition copyInto (n : Z) (to : buf) (at_ : Z) (from : buf) (start : Z) : R buf :=
  for_m (Z.to_nat n) 0 (fun i to => v ← rd8 from (start + i); store to (at_ + i) [v]) to.

(** The part of [feed] behind the choice of the segment. *)
Definition append (first last : bool) (dma : buf) (start written : Z) (s : PciRxAssembly) : R result :=
  let room := target_ s - used_ s in
  let copy := written - start in
  if (room <? copy) && negb (first && last) then refuse s else
  let copy := if room <? copy then room else copy in
  if (copy =? 0) || (negb last && (copy =? room)) then refuse s else
  b ← copyInto copy (bytes_ s) (used_ s) dma start;
  let s := mkAssembly b (used_ s + copy) (target_ s) (active_ s) in
  if negb last then MVal (incomplete, noPacket, s) else
  if negb (used_ s =? target_ s) then refuse s else
  p ← attempt (decodeRx (Some (bytes_ s)) (used_ s) 4);
  match p with
  | None => refuse s
  | Some p => MVal (complete, mkAssembled (Some (bytes_ s)) (used_ s) (Some p), reset s)
  end.

Definition feed (dma : option buf) (capacity : Z) (s : PciRxAssembly) : R result :=
  match dma with
  | None => refuse s
  | Some dma =>
      if capacity <? 4 then refuse s else
      prefix ← rd32 dma 0;
      let written := Z.land prefix 0x3fff in
      let first := flag prefix 0x8000 in
      let last := flag prefix 0x4000 in
      if (written <? 4) || (capacity <? written) then refuse s else
      if first then
        if active_ s then refuse s else
        h ← attempt (decodeRxHeader (Some dma) written 4);
        match h with
        | None => refuse s
        | Some h =>
            let target := rx_offset h + rx_length h in
            if storage <? target then refuse (mkAssembly (bytes_ s) (used_ s) target (active_ s)) else
            b ← copyInto (rx_offset h) (bytes_ s) 0 dma 0;
            append first last dma (rx_offset h) written (mkAssembly b (rx_offset h) target true)
        end
      else if negb (active_ s) then refuse s else append first last dma 4 written s
  end.

(** A sequence of segments. *)
Fixpoint feeds (l : list (option buf * Z)) (s : PciRxAssembly) : R (list (AssemblyStatus * AssembledRx) * PciRxAssembly) :=
  match l with
  | [] => MVal ([], s)
  | (dma, capacity) :: l =>
      r ← feed dma capacity s; rest ← feeds l (snd r); MVal (fst r :: fst rest, snd rest)
  end.

(** ** Tracing a received frame (RxTrace.hpp) *)

Record RxTrace := mkRxTrace {
  tr_type : Z; eapol : bool; deauthReason : Z; deauth : bool; eapolType : Z; bodyLength : Z
}.
Definition newRxTrace : RxTrace := mkRxTrace 3 false 0 false 256 0.

(** [for(...&&addressed)addressed=p[4+i]==local[i];] *)
Fixpoint addressedFrom (n : nat) (i : Z) (p : buf) (o : Z) (local : buf) : R bool :=
  match n with
  | O => MVal true
  | S n => a ← rd8 p (o + 4 + i); b ← rd8 local i; if a =? b then addressedFrom n (i + 1) p o local else MVal false
  end.
Definition llc : buf := [0xaa; 0xaa; 3; 0; 0; 0; 0x88; 0x8e].
Fixpoint llcFrom (n : nat) (i : Z) (p : buf) (at_ : Z) : R bool :=
  match n with
  | O => MVal true
  | S n => a ← rd8 p (at_ + i); b ← rd8 llc i; if a =? b then llcFrom n (i + 1) p at_ else MVal false
  end.

(** [data] holds the frame; [payload rx] is where its payload starts. *)
Definition inspectRx (data : buf) (rx : RxPacket) (local : option buf) : R RxTrace :=
  let none := newRxTrace in
  match payload rx with
  | None => MVal none
  | Some o =>
      if negb (pkt_type (rx_info rx) =? 0) || (rx_length rx <? 2) then MVal none else
      p0 ← rd8 data o;
      if flag p0 3 then MVal none else
      let type := Z.land (Z.shiftr p0 2) 3 in
      let r := mkRxTrace type false 0 false 256 0 in
      if rx_length rx <? 28 then MVal r else
      addressed ← match local with None => MVal false | Some l => addressedFrom 6 0 data o l end;
      p1 ← rd8 data (o + 1);
      let clear := negb (flag p1 0x40) && negb (hardwareDecrypted (rx_info rx)) in
      r ← (if (type =? 0) && (Z.land p0 0xf0 =? 0xc0) && clear && (addressed : bool) && (30 <=? rx_length rx) then
             a ← rd8 data (o + 24); b ← rd8 data (o + 25);
             MVal (mkRxTrace type false (Z.lor a (Z.shiftl b 8)) true 256 0)
           else MVal r);
      if negb (type =? 2) || negb clear || negb addressed then MVal r else
      if flag p0 0x40 then MVal r else
      let header := 24 + (if Z.land p1 3 =? 3 then 6 else 0) in
      q ← (if flag p0 0x80 then
             if rx_length rx <? header + 2 + 4 then MVal None else
             ph ← rd8 data (o + header);
             if flag ph 0x80 then MVal None else MVal (Some (header + 2 + (if flag p1 0x80 then 4 else 0)))
           else MVal (Some header));
      match q with
      | None => MVal r
      | Some header =>
          if rx_length rx <? header + 8 + 4 then MVal r else
          same ← llcFrom 8 0 data (o + header);
          if negb same then MVal r else
          if rx_length rx <? header + 8 + 4 + 4 then MVal (mkRxTrace type true (deauthReason r) (deauth r) 256 0) else
          t ← rd8 data (o + header + 9); h ← rd8 data (o + header + 10); l ← rd8 data (o + header + 11);
          MVal (mkRxTrace type true (deauthReason r) (deauth r) t (Z.lor (Z.shiftl h 8) l))
      end
  end.

(** ** The decoder reads a prefix only *)

Definition agree (o k : Z) (a b : buf) : Prop := forall i, o <= i < k -> byte_at a i = byte_at b i.
Lemma bytesOf_ext a b o n : 0 <= o -> 0 <= n -> o + n <= zlen a -> o + n <= zlen b -> agree o (o + n) a b -> bytesOf a o n = bytesOf b o n.
Proof.
  intros Ho Hn Ha Hb H. rewrite <- (Z2Nat.id n Hn) in Ha, Hb, H |- *. clear Hn. revert o Ho Ha Hb H. induction (Z.to_nat n) as [|k IH]; intros o Ho Ha Hb H; [reflexivity|].
  replace (Z.of_nat (Datatypes.S k)) with (1 + Z.of_nat k) in * by lia. rewrite !bytesOf_cons by lia.
  rewrite (H o) by lia. f_equal. apply IH; [lia..|]. intros i Hi. apply H. lia.
Qed.
Lemma agree_le32 l k a b o : agree l k a b -> l <= o -> o + 4 <= k -> le32_at a o = le32_at b o.
Proof. intros H Ho Hk. unfold le32_at. rewrite !H by lia. reflexivity. Qed.
Lemma agree_bytesOf b l k n : 0 <= l -> 0 <= n <= zlen b -> k <= n -> agree l k (bytesOf b 0 n) b.
Proof.
  intros Hl Hn Hk i Hi. unfold bytesOf. rewrite byte_at_map_u8, byte_at_slice by lia. reflexivity.
Qed.

(** The header as a function of what was read. *)
Definition descriptorBytes (word : Z) : Z := if flag word 0x80000000 then 32 else 16.
Definition headerOf (size off word : Z) (D : buf) : mres DescriptorStatus RxPacket :=
  fail_if (size - off <? descriptorBytes word) truncated;;
  info ← rtw89_core_query_rxdesc (Z.land (Z.shiftr word 14) 3) (D ++ zeros (32 - descriptorBytes word)) 0;
  fail_if ((r_pkt_size info =? 0) || (pkt_type info =? 15)) invalidLength;;
  fail_if (size - off <? r_offset info + rxd_len info) truncated;;
  fail_if (icv_err info || crc32_err info) corruptFrame;;
  mret (mkRxPacket info None (r_pkt_size info) (off + (r_offset info + rxd_len info))).

Lemma collect_bytes {E} data o n : 0 <= o -> 0 <= n -> o + n <= zlen data ->
  for_m (E:=E) (Z.to_nat n) 0 (fun i acc => b ← rd8 data (o + i); mret (acc ++ [b])) [] = MVal (bytesOf data o n).
Proof.
  intros Ho Hn Hl. rewrite <- (Z2Nat.id n Hn) in Hl |- * at 2. clear Hn. induction (Z.to_nat n) as [|k IH]; [reflexivity|].
  rewrite for_m_last, IH by lia. cbn [mbind mres_bind]. rewrite Z.add_0_l, rd8_in by lia. cbn [mbind mres_bind].
  replace (Z.of_nat (Datatypes.S k)) with (Z.of_nat k + 1) by lia. rewrite slice_last by lia. reflexivity.
Qed.
Lemma decodeRxHeader_eq data size off : 0 <= off -> size <= zlen data ->
  decodeRxHeader (Some data) size off =
  if (size <? off) || (size - off <? 16) then MErr truncated
  else headerOf size off (le32_at data off) (bytesOf data off (descriptorBytes (le32_at data off))).
Proof.
  intros Ho Hs. unfold decodeRxHeader, headerOf, little32. destruct ((size <? off) || (size - off <? 16)) eqn:E; [reflexivity|].
  apply orb_false_iff in E as [E1 E2]. cbn [fail_if mbind mres_bind]. rewrite rd32_in by lia. cbn [mbind mres_bind].
  fold (descriptorBytes (le32_at data off)). assert (H16 : 16 <= descriptorBytes (le32_at data off)) by (unfold descriptorBytes; destruct (flag _ _); lia).
  destruct (size - off <? descriptorBytes (le32_at data off)) eqn:E3; [reflexivity|]. cbn [fail_if mbind mres_bind].
  rewrite collect_bytes by lia. cbn [mbind mres_bind]. destruct (rtw89_core_query_rxdesc _ _ _) as [info|e|]; cbn [mbind mres_bind]; reflexivity.
Qed.

(** Two buffers that agree on the bytes looked at decode alike. *)
Lemma header_same a b size off : 0 <= off -> size <= zlen a -> size <= zlen b -> agree off size a b ->
  decodeRxHeader (Some a) size off = decodeRxHeader (Some b) size off.
Proof.
  intros Ho Ha Hb H. rewrite !decodeRxHeader_eq by assumption. destruct ((size <? off) || (size - off <? 16)) eqn:E; [reflexivity|].
  apply orb_false_iff in E as [E1 E2]. rewrite (agree_le32 off size a b off H) by lia. set (w := le32_at b off). unfold headerOf.
  destruct (size - off <? descriptorBytes w) eqn:E3; [reflexivity|]. cbn [fail_if mbind mres_bind].
  assert (H16 : 16 <= descriptorBytes w) by (unfold descriptorBytes; destruct (flag _ _); lia).
  rewrite (bytesOf_ext a b) by (try lia; intros i Hi; apply H; lia). reflexivity.
Qed.

Lemma long_flag w : in_u32 w -> negb (le32_get_bits w (BIT 31) =? 0) = flag w 0x80000000.
Proof.
  intros Hw. unfold flag. f_equal. apply Bool.eq_true_iff_eq. rewrite !Z.eqb_eq.
  assert (Hb : Z.land w 0x80000000 = 0 \/ Z.land w 0x80000000 = 0x80000000).
  { change 0x80000000 with (2^31). destruct (Z.testbit w 31) eqn:T.
    - right. apply Z.bits_inj'. intros i Hi. rewrite Z.land_spec, Z.pow2_bits_eqb by lia. destruct (Z.eqb_spec 31 i) as [<-|]; [rewrite T; reflexivity|apply andb_false_r].
    - left. apply Z.bits_inj'. intros i Hi. rewrite Z.land_spec, Z.pow2_bits_eqb, Z.bits_0 by lia. destruct (Z.eqb_spec 31 i) as [<-|]; [rewrite T; reflexivity|apply andb_false_r]. }
  change 0x80000000 with 2147483648 in *. unfold le32_get_bits. change (BIT 31) with 2147483648. destruct Hb as [-> | ->]; vm_compute; split; congruence.
Qed.
Lemma query_len sh d i : 32 <= zlen d -> in_u32 (le32_at d 0) -> rtw89_core_query_rxdesc (E:=DescriptorStatus) sh d 0 = MVal i ->
  rxd_len i = descriptorBytes (le32_at d 0).
Proof.
  intros Hd Hw. unfold rtw89_core_query_rxdesc. rewrite !rd32_in by lia. cbn [mbind mres_bind]. cbv zeta.
  destruct (long_words _ d 0) as [[w4 w5]|e|]; cbn [mbind mres_bind mret mres_ret]; [|discriminate..].
  intros E. apply (f_equal (fun r => match r with MVal x => rxd_len x | _ => 0 end)) in E. cbn [rxd_len] in E. rewrite <- E.
  unfold descriptorBytes. rewrite long_flag by exact Hw. reflexivity.
Qed.

(** What a decoded header says about itself. *)
Lemma headerOf_val size off w D h : 0 <= off -> zlen D = descriptorBytes w -> le32_at D 0 = w -> headerOf size off w D = MVal h ->
  exists info, rtw89_core_query_rxdesc (E:=DescriptorStatus) (Z.land (Z.shiftr w 14) 3) (D ++ zeros (32 - descriptorBytes w)) 0 = MVal info /\
    h = mkRxPacket info None (r_pkt_size info) (off + (r_offset info + descriptorBytes w)) /\ 0 <= r_offset info <= 62 /\ 0 < r_pkt_size info <= 16383 /\
    off + (r_offset info + descriptorBytes w) <= size /\ pkt_type info <> 15 /\ icv_err info = false /\ crc32_err info = false.
Proof.
  intros Ho HD Hw. unfold headerOf. destruct (size - off <? descriptorBytes w); [discriminate|]. cbn [fail_if mbind mres_bind].
  assert (H32 : descriptorBytes w = 16 \/ descriptorBytes w = 32) by (unfold descriptorBytes; destruct (flag _ _); auto).
  assert (HL : zlen (D ++ zeros (32 - descriptorBytes w)) = 32) by (rewrite zlen_app, zlen_zeros by lia; lia).
  assert (Hw0 : le32_at (D ++ zeros (32 - descriptorBytes w)) 0 = w) by (rewrite <- Hw at 2; unfold le32_at; rewrite !byte_at_app_l by lia; reflexivity).
  pose proof (query_spec (Z.land (Z.shiftr w 14) 3) (D ++ zeros (32 - descriptorBytes w))
    (fun i => 0 <= r_pkt_size i <= 16383 /\ 0 <= r_offset i <= 62)) as Hq.
  destruct (rtw89_core_query_rxdesc _ _ _) as [info|e|] eqn:E; cbn [mbind mres_bind]; [|discriminate..].
  assert (Hlen : rxd_len info = descriptorBytes w) by (rewrite <- Hw0; apply (query_len _ _ _ ltac:(rewrite HL; lia) ltac:(auto with words) E)).
  assert (Hr : 0 <= r_pkt_size info <= 16383 /\ 0 <= r_offset info <= 62).
  { apply Hq; [pose proof (land_bounds (Z.shiftr w 14) 3); lia|lia|]. intros i H1 H2 _. auto. }
  clear Hq. intros H. minv H. exists info. split; [reflexivity|]. rewrite Hlen in *. split; [congruence|].
  rewrite !orb_false_iff in *. intuition lia.
Qed.

Lemma header_bytes data off : 0 <= off -> off + descriptorBytes (le32_at data off) <= zlen data ->
  let D := bytesOf data off (descriptorBytes (le32_at data off)) in
  zlen D = descriptorBytes (le32_at data off) /\ le32_at D 0 = le32_at data off.
Proof.
  intros Ho Hl D. assert (H16 : 16 <= descriptorBytes (le32_at data off)) by (unfold descriptorBytes; destruct (flag _ _); lia).
  split; [apply zlen_bytesOf; lia|]. unfold D, le32_at, bytesOf. set (k := descriptorBytes _) in *. rewrite !byte_at_map_u8, !byte_at_slice by lia.
  rewrite Z.add_0_r. reflexivity.
Qed.

(** The header of a packet is decoded from its own bytes: more data behind
    them, or other data, do not change it. *)
Lemma header_extends a b sa sb h : sa <= zlen a -> sb <= zlen b -> decodeRxHeader (Some a) sa 4 = MVal h ->
  rx_offset h <= sb -> agree 4 (rx_offset h) a b -> decodeRxHeader (Some b) sb 4 = MVal h.
Proof.
  intros Ha Hb. rewrite !decodeRxHeader_eq by lia. destruct ((sa <? 4) || (sa - 4 <? 16)) eqn:E; [discriminate|].
  apply orb_false_iff in E as [E1 E2]. intros H Hoff Hag. set (w := le32_at a 4) in *.
  assert (Hd : descriptorBytes w <= sa - 4).
  { unfold headerOf in H. destruct (Z.ltb_spec (sa - 4) (descriptorBytes w)); [discriminate|lia]. }
  assert (D12 := header_bytes a 4 ltac:(lia)). fold w in D12. destruct (D12 ltac:(lia)) as [D1 D2]. assert (H4 : 0 <= 4) by lia.
  destruct (headerOf_val _ _ _ _ _ H4 D1 D2 H) as (info & Hq & -> & Ho & Hp & Hfit & Ht & Hi & Hc). cbn [rx_offset] in *.
  assert (H16 : 16 <= descriptorBytes w) by (unfold descriptorBytes; destruct (flag _ _); lia).
  destruct (Z.ltb_spec sb 4); [lia|]. destruct (Z.ltb_spec (sb - 4) 16); [lia|]. cbn [orb].
  rewrite <- (agree_le32 _ _ a b 4 Hag) by lia. fold w. rewrite <- (bytesOf_ext a b 4 (descriptorBytes w)) by (try lia; intros i Hi'; apply Hag; lia).
  unfold headerOf. destruct (Z.ltb_spec (sb - 4) (descriptorBytes w)); [lia|]. cbn [fail_if mbind mres_bind]. rewrite Hq. cbn [mbind mres_bind].
  assert (Hlen : rxd_len info = descriptorBytes w).
  { unfold headerOf in H. destruct (sa - 4 <? _); [discriminate|]. cbn [fail_if mbind mres_bind] in H. rewrite Hq in H. cbn [mbind mres_bind] in H.
    minv H. lia. }
  rewrite Hlen, Hi, Hc. destruct (Z.eqb_spec (r_pkt_size info) 0); [lia|]. destruct (Z.eqb_spec (pkt_type info) 15); [contradiction|].
  destruct (Z.ltb_spec (sb - 4) (r_offset info + descriptorBytes w)); [lia|]. reflexivity.
Qed.
Lemma header_bounds a sa h : 0 <= sa <= zlen a -> decodeRxHeader (Some a) sa 4 = MVal h -> 20 <= rx_offset h <= sa /\ 0 < rx_length h <= 16383.
Proof.
  intros Ha H. pose proof (mspec_val _ _ _ (decodeRxHeader_spec a sa 4 Ha ltac:(lia)) H) as (_ & _ & Hl & _ & Ho & _). lia.
Qed.

(** ** The reference: gathering on lists *)

(** What a buffer delivers: first and last segment, the bytes written. *)
Definition segmentOf (dma : option buf) (capacity : Z) : option (bool * bool * buf) :=
  match dma with
  | None => None
  | Some dma =>
      let prefix := le32_at dma 0 in
      let written := Z.land prefix 0x3fff in
      if (capacity <? 4) || (written <? 4) || (capacity <? written) then None
      else Some (flag prefix 0x8000, flag prefix 0x4000, bytesOf dma 0 written)
  end.

Inductive outcome := Bad | More | Packet (g : buf) (p : RxPacket).
(** The bytes gathered and the size of the packet. *)
Definition gathering : Type := option (buf * Z).

Definition gather (first last : bool) (body g : buf) (target : Z) : outcome * gathering :=
  let room := target - zlen g in
  if (room <? zlen body) && negb (first && last) then (Bad, None) else
  let body := take (Z.to_nat room) body in
  if (zlen body =? 0) || (negb last && (zlen body =? room)) then (Bad, None) else
  if negb last then (More, Some (g ++ body, target)) else
  if negb (zlen body =? room) then (Bad, None) else
  match decodeRx (Some (g ++ body)) target 4 with MVal p => (Packet (g ++ body) p, None) | _ => (Bad, None) end.
Definition deliver (seg : option (bool * bool * buf)) (st : gathering) : outcome * gathering :=
  match seg, st with
  | Some (true, last, W), None =>
      match decodeRxHeader (Some W) (zlen W) 4 with
      | MVal h =>
          if storage <? rx_offset h + rx_length h then (Bad, None)
          else gather true last (drop (Z.to_nat (rx_offset h)) W) (take (Z.to_nat (rx_offset h)) W) (rx_offset h + rx_length h)
      | _ => (Bad, None)
      end
  | Some (false, last, W), Some (g, target) => gather false last (drop 4 W) g target
  | _, _ => (Bad, None)
  end.

(** ** The assembler and the reference *)

Definition Rep (s : PciRxAssembly) (st : gathering) : Prop :=
  zlen (bytes_ s) = storage /\
  match st with
  | None => active_ s = false
  | Some (g, target) =>
      active_ s = true /\ used_ s = zlen g /\ target_ s = target /\ bytesOf (bytes_ s) 0 (zlen g) = g /\ zlen g < target <= storage
  end.
Definition shows (o : outcome) (r : AssemblyStatus * AssembledRx) : Prop :=
  match o with
  | Bad => r = (invalid, noPacket)
  | More => r = (incomplete, noPacket)
  | Packet g p => exists b, r = (complete, mkAssembled (Some b) (zlen g) (Some p)) /\ zlen g <= zlen b /\ bytesOf b 0 (zlen g) = g
  end.
(** The model returns, and returns what the reference does. *)
Definition follows (m : R result) (os : outcome * gathering) : Prop :=
  exists r s, m = MVal (r, s) /\ shows (fst os) r /\ Rep s (snd os).

Lemma refuse_follows s : zlen (bytes_ s) = storage -> follows (refuse s) (Bad, None).
Proof. intros H. eexists _, _. split; [reflexivity|]. split; [reflexivity|]. split; [exact H|reflexivity]. Qed.
Lemma bytesOf_idem b o n : map u8 (bytesOf b o n) = bytesOf b o n.
Proof. unfold bytesOf. rewrite map_map. apply map_ext, u8_u8. Qed.
Lemma copyInto_eq n to at_ from start : 0 <= n -> 0 <= start -> start + n <= zlen from -> 0 <= at_ -> at_ + n <= zlen to ->
  copyInto n to at_ from start = MVal (blit to at_ (bytesOf from start n)).
Proof.
  intros. apply for_m_copy; try assumption. intros i t Hi. rewrite rd8_in by lia. reflexivity.
Qed.
Lemma bytesOf_blit b u w : 0 <= u -> u + zlen w <= zlen b -> bytesOf (blit b u w) 0 (u + zlen w) = bytesOf b 0 u ++ map u8 w.
Proof.
  intros Hu Hw. pose proof (zlen_nonneg w). unfold bytesOf, slice, blit. rewrite drop_0, app_assoc, take_app_le; unfold zlen in *.
  2: { rewrite length_app, length_take. lia. }
  rewrite take_ge by (rewrite length_app, length_take; lia). rewrite map_app. reflexivity.
Qed.
Lemma bytesOf_parts b o n k : 0 <= o -> 0 <= k <= n -> o + n <= zlen b ->
  take (Z.to_nat k) (bytesOf b o n) = bytesOf b o k /\ drop (Z.to_nat k) (bytesOf b o n) = bytesOf b (o + k) (n - k).
Proof.
  intros. unfold bytesOf, slice. rewrite <- !firstn_map, <- !skipn_map, take_take, skipn_firstn_comm, drop_drop.
  split; [f_equal; lia|]. f_equal; [lia|]. f_equal. lia.
Qed.

Lemma decodeRx_same a b size off : 0 <= off -> size <= zlen a -> size <= zlen b -> agree off size a b ->
  decodeRx (Some a) size off = decodeRx (Some b) size off.
Proof. intros Ho Ha Hb H. unfold decodeRx. rewrite (header_same a b) by assumption. reflexivity. Qed.
Lemma decodeRxHeader_safe b size off : 0 <= size <= zlen b -> 0 <= off -> decodeRxHeader (Some b) size off <> MOob.
Proof. intros Hs Ho E. pose proof (decodeRxHeader_spec b size off Hs Ho) as H. rewrite E in H. exact H. Qed.
Lemma decodeRx_attempt b size : 0 <= size <= zlen b ->
  attempt (decodeRx (Some b) size 4) = MVal (match decodeRx (Some b) size 4 with MVal p => Some p | _ => None end).
Proof.
  intros Hs. unfold decodeRx. pose proof (decodeRxHeader_safe b size 4 Hs ltac:(lia)) as H.
  destruct (decodeRxHeader _ _ _) as [p|e|]; cbn [mbind mres_bind attempt]; [|reflexivity|contradiction].
  destruct (_ <? _); reflexivity.
Qed.

Lemma append_follows first last dma start written s g target :
  Rep s (Some (g, target)) -> 0 <= start <= written -> written <= zlen dma ->
  follows (append first last dma start written s) (gather first last (bytesOf dma start (written - start)) g target).
Proof.
  intros Hrep Hst Hw. pose proof Hrep as (Hl & Ha & Hu & Ht & Hg & Hlen). pose proof (zlen_nonneg g) as Hg0.
  unfold append, gather. rewrite Hu, Ht, zlen_bytesOf by lia. set (room := target - zlen g). set (copy := written - start).
  destruct ((room <? copy) && negb (first && last)) eqn:E1; [apply refuse_follows, Hl|].
  set (n := if room <? copy then room else copy). assert (Hn : 0 <= n <= copy /\ n <= room) by (unfold n, room, copy; destruct (_ <? _) eqn:?; lia).
  assert (Hbody : take (Z.to_nat room) (bytesOf dma start copy) = bytesOf dma start n).
  { unfold n. destruct (Z.ltb_spec room copy) as [H|H].
    - apply (bytesOf_parts dma start copy room); unfold room, copy in *; lia.
    - apply take_ge. pose proof (zlen_bytesOf dma start copy ltac:(lia) ltac:(unfold copy; lia) ltac:(unfold copy; lia)) as Hz. unfold zlen in Hz. lia. }
  assert (Hzb : zlen (bytesOf dma start n) = n) by (apply zlen_bytesOf; unfold copy in *; lia).
  rewrite Hbody, Hzb. clearbody n.
  destruct ((n =? 0) || (negb last && (n =? room))) eqn:E2; [apply refuse_follows, Hl|].
  rewrite copyInto_eq by (rewrite ?Hl; unfold room, copy in *; lia). cbn [mbind mres_bind bytes_ used_ target_].
  set (b := blit _ _ _). assert (Hb : zlen b = storage) by (unfold b; rewrite zlen_blit; rewrite ?Hl, ?Hzb; unfold room in *; lia).
  assert (HG : bytesOf b 0 (zlen g + n) = g ++ bytesOf dma start n).
  { unfold b. rewrite <- Hzb at 2. rewrite bytesOf_blit by (rewrite ?Hl, ?Hzb; unfold room in *; lia). rewrite Hg, bytesOf_idem. reflexivity. }
  assert (HZ : zlen (g ++ bytesOf dma start n) = zlen g + n) by (rewrite zlen_app, Hzb; reflexivity).
  apply orb_false_iff in E2 as [E2 E3]. destruct last; cbn [negb andb] in *.
  - destruct (Z.eqb_spec (zlen g + n) target) as [E4|E4]; cbn [negb].
    2: { destruct (Z.eqb_spec n room); [unfold room in *; lia|]. apply refuse_follows, Hb. }
    destruct (Z.eqb_spec n room) as [_|]; [|unfold room in *; lia]. cbn [negb]. rewrite E4 in *.
    rewrite decodeRx_attempt by lia. cbn [mbind mres_bind].
    rewrite (decodeRx_same b (g ++ bytesOf dma start n)) by (try lia; rewrite <- HG; intros i Hi; symmetry; apply (agree_bytesOf b 4 target target); lia).
    destruct (decodeRx _ _ _) as [p|e|]; [|apply refuse_follows, Hb..].
    eexists _, _. split; [reflexivity|]. split; [|split; [exact Hb|reflexivity]]. exists b. rewrite HZ. auto with lia.
  - eexists _, _. split; [reflexivity|]. split; [reflexivity|]. split; [exact Hb|]. cbn [used_ active_ target_ bytes_ snd].
    rewrite HZ. repeat (split; [first [assumption|reflexivity|lia]|]). unfold room in *; lia.
Qed.

Definition fits (dma : option buf) (capacity : Z) : Prop := match dma with Some d => capacity <= zlen d | None => True end.

Lemma deliver_bad_first last W g t : deliver (Some (true, last, W)) (Some (g, t)) = (Bad, None).
Proof. reflexivity. Qed.

(** The assembler is memory safe and does what the reference does. *)
Lemma feed_follows dma capacity s st : Rep s st -> fits dma capacity ->
  follows (feed dma capacity s) (deliver (segmentOf dma capacity) st).
Proof.
  intros Hrep Hfit. pose proof (proj1 Hrep) as Hl. unfold feed, segmentOf. destruct dma as [d|]; [|apply refuse_follows, Hl]. cbn [fits] in Hfit.
  destruct (Z.ltb_spec capacity 4) as [|H4]; [apply refuse_follows, Hl|]. rewrite rd32_in by lia. cbn [mbind mres_bind orb].
  set (written := Z.land _ 0x3fff). destruct ((written <? 4) || (capacity <? written)) eqn:E; [apply refuse_follows, Hl|].
  assert (Hw : 4 <= written <= zlen d) by lia. set (W := bytesOf d 0 written).
  assert (HW : zlen W = written) by (apply zlen_bytesOf; lia). destruct (flag _ 0x8000).
  - destruct st as [[g t]|]; cbn [deliver]; [destruct Hrep as (_ & -> & _); apply refuse_follows, Hl|].
    rewrite (proj2 Hrep). cbn [negb]. rewrite HW, (header_same W d) by (try lia; apply agree_bytesOf; lia).
    pose proof (decodeRxHeader_safe d written 4 ltac:(lia) ltac:(lia)) as Hs.
    destruct (decodeRxHeader _ _ _) as [h|e|] eqn:Eh; cbn [attempt mbind mres_bind]; [|apply refuse_follows, Hl|contradiction].
    assert (Hwr : 0 <= written <= zlen d) by lia. destruct (header_bounds _ _ _ Hwr Eh) as [Ho Hp].
    destruct (Z.ltb_spec storage (rx_offset h + rx_length h)) as [|Hst]; [apply refuse_follows, Hl|].
    rewrite copyInto_eq by (rewrite ?Hl; lia). cbn [mbind mres_bind].
    destruct (bytesOf_parts d 0 written (rx_offset h)) as [E1 E2]; [lia..|]. unfold W. rewrite E1, E2.
    assert (Hz : zlen (bytesOf d 0 (rx_offset h)) = rx_offset h) by (apply zlen_bytesOf; lia).
    apply append_follows; [|lia..]. split; cbn [bytes_ used_ target_ active_]; [rewrite zlen_blit; rewrite ?Hl, ?Hz; lia|].
    rewrite Hz. repeat (split; [reflexivity|]). split; [|lia].
    pose proof (bytesOf_blit (bytes_ s) 0 (bytesOf d 0 (rx_offset h)) ltac:(lia)) as H0. rewrite Hz, Hl, Z.add_0_l in H0. rewrite H0 by lia. apply bytesOf_idem.
  - destruct st as [[g t]|]; cbn [deliver].
    + rewrite (proj1 (proj2 Hrep)). cbn [negb]. destruct (bytesOf_parts d 0 written 4) as [_ E2]; [lia..|].
      change (Z.to_nat 4) with 4%nat in E2. unfold W. rewrite E2. apply append_follows; [exact Hrep|lia..].
    + rewrite (proj2 Hrep). apply refuse_follows, Hl.
Qed.
Lemma newAssembly_rep : Rep newAssembly None.
Proof. split; [|reflexivity]. apply zlen_zeros. discriminate. Qed.

(** A run of the reference. *)
Fixpoint deliveries (l : list (option (bool * bool * buf))) (st : gathering) : list outcome * gathering :=
  match l with
  | [] => ([], st)
  | seg :: l => let os := deliver seg st in let rest := deliveries l (snd os) in (fst os :: fst rest, snd rest)
  end.
Lemma feeds_follow l s st : Rep s st -> Forall (fun x => fits (fst x) (snd x)) l ->
  exists rs s', feeds l s = MVal (rs, s') /\ Forall2 shows (fst (deliveries (map (fun x => segmentOf (fst x) (snd x)) l) st)) rs /\
    Rep s' (snd (deliveries (map (fun x => segmentOf (fst x) (snd x)) l) st)).
Proof.
  intros Hrep H. revert s st Hrep. induction H as [|[d c] l Hd _ IH]; intros s st Hrep; cbn [map deliveries feeds fst snd].
  { eexists _, _. split; [reflexivity|]. split; [constructor|exact Hrep]. }
  destruct (feed_follows d c s st Hrep Hd) as (r & s1 & E & Hs & Hr). rewrite E. cbn [mbind mres_bind snd fst].
  destruct (IH _ _ Hr) as (rs & s2 & E2 & Hs2 & Hr2). rewrite E2. cbn [mbind mres_bind snd fst].
  eexists _, _. split; [reflexivity|]. split; [constructor; assumption|exact Hr2].
Qed.

(** ** Cutting and reassembling *)

Definition fragmentWord (first last : bool) (written : Z) : Z :=
  Z.lor written (Z.lor (if first then 0x8000 else 0) (if last then 0x4000 else 0)).
(** One buffer as the device fills it: the prefix word, the bytes. *)
Definition fragment (first last : bool) (body : buf) : buf :=
  le32_bytes (fragmentWord first last (4 + zlen body)) ++ body.
Definition isNil {A} (l : list A) : bool := match l with [] => true | _ => false end.
Fixpoint cut (first : bool) (bodies : list buf) : list buf :=
  match bodies with [] => [] | b :: rest => fragment first (isNil rest) b :: cut false rest end.
Fixpoint segments (first : bool) (bodies : list buf) : list (option (bool * bool * buf)) :=
  match bodies with [] => [] | b :: rest => Some (first, isNil rest, fragment first (isNil rest) b) :: segments false rest end.
(** A body the 14-bit length can say. *)
Definition sized (b : buf) : Prop := 0 < zlen b <= 0x3fff - 4 /\ Forall in_u8 b.

Lemma fragmentWord_fields f l n : 0 <= n <= 0x3fff ->
  in_u32 (fragmentWord f l n) /\ Z.land (fragmentWord f l n) 0x3fff = n /\ flag (fragmentWord f l n) 0x8000 = f /\ flag (fragmentWord f l n) 0x4000 = l.
Proof.
  intros Hn.
  set (c := (if l then 1 else 0) + 2 * (if f then 1 else 0)). assert (Hc : 0 <= c <= 3) by (unfold c; destruct f, l; lia).
  assert (E : fragmentWord f l n = Z.lor n (Z.shiftl c 14)) by (unfold fragmentWord; f_equal; destruct f, l; reflexivity).
  assert (T : forall k, 0 <= k -> Z.testbit (fragmentWord f l n) k = if k <? 14 then Z.testbit n k else Z.testbit c (k - 14)).
  { intros k Hk. rewrite E, Z.lor_spec, Z.shiftl_spec by lia. destruct (Z.ltb_spec k 14).
    - rewrite (Z.testbit_neg_r c) by lia. apply orb_false_r.
    - rewrite <- (Z.mod_small n (2 ^ 14)) by (change (2 ^ 14) with 0x4000; lia). rewrite Z.mod_pow2_bits_high by lia. reflexivity. }
  split; [rewrite E, lor_disjoint_add by (change (2 ^ 14) with 0x4000; lia); change (2 ^ 14) with 0x4000; unfold in_u32; lia|].
  split.
  { rewrite E, lor_disjoint_add by (change (2 ^ 14) with 0x4000; lia). change 0x3fff with (Z.ones 14). rewrite Z.land_ones, Z.mod_add by lia.
    apply Z.mod_small. change (2 ^ 14) with 0x4000. lia. }
  change 0x8000 with (u64 (Z.shiftl 1 15)). change 0x4000 with (u64 (Z.shiftl 1 14)). rewrite !flag_bit, !T by lia.
  unfold c. destruct f, l; split; reflexivity.
Qed.

(** The buffer [x] holds the fragment [d]; what follows it is stale. *)
Definition holds (d : buf) (x : option buf * Z) : Prop :=
  exists pad, fst x = Some (d ++ pad) /\ zlen d <= snd x <= zlen (d ++ pad).

Lemma zlen_fragment f l b : zlen (fragment f l b) = 4 + zlen b.
Proof. unfold fragment. rewrite zlen_app. reflexivity. Qed.
Lemma le32_at_bytes v b : in_u32 v -> le32_at (le32_bytes v ++ b) 0 = v.
Proof.
  intros Hv. change (le32_at _ 0) with (le32_of (u8 (u8 v)) (u8 (u8 (Z.shiftr v 8))) (u8 (u8 (Z.shiftr v 16))) (u8 (u8 (Z.shiftr v 24)))).
  rewrite !u8_u8, le32_of_bytes. apply u32_small, Hv.
Qed.
Lemma holds_segment f l b x : sized b -> holds (fragment f l b) x ->
  fits (fst x) (snd x) /\ segmentOf (fst x) (snd x) = Some (f, l, fragment f l b).
Proof.
  intros [Hb Hu] (pad & E & Hc). destruct x as [d c]. cbn [fst snd] in *. subst d. rewrite zlen_fragment in Hc. split; [exact (proj2 Hc)|].
  destruct (fragmentWord_fields f l (4 + zlen b)) as (Hw & Hl & Hf & Hlast); [lia|].
  unfold segmentOf. set (D := fragment f l b ++ pad) in *.
  assert (E4 : le32_at D 0 = fragmentWord f l (4 + zlen b)) by (unfold D, fragment; rewrite <- app_assoc; apply le32_at_bytes, Hw).
  rewrite E4, Hl, Hf, Hlast. destruct (Z.ltb_spec c 4); [lia|]. destruct (Z.ltb_spec (4 + zlen b) 4); [lia|]. destruct (Z.ltb_spec c (4 + zlen b)); [lia|]. cbn [orb].
  do 2 f_equal. unfold bytesOf, slice, D. change (Z.to_nat 0) with 0%nat. rewrite drop_0, take_app_le, take_ge;
    [|pose proof (zlen_fragment f l b) as Hz; unfold zlen in *; lia..]. unfold fragment. rewrite map_app, (map_u8_id b Hu). f_equal.
  unfold le32_bytes. cbn [map]. rewrite !u8_u8. reflexivity.
Qed.
Lemma cut_segments first bodies xs : Forall sized bodies -> Forall2 holds (cut first bodies) xs ->
  Forall (fun x => fits (fst x) (snd x)) xs /\ map (fun x => segmentOf (fst x) (snd x)) xs = segments first bodies.
Proof.
  intros Hs. revert first xs. induction Hs as [|b rest Hb _ IH]; intros first xs H; inversion H as [|? x ? xs' Hx Hxs]; subst; [split; [constructor|reflexivity]|].
  destruct (holds_segment _ _ _ _ Hb Hx) as [H1 H2]. destruct (IH _ _ Hxs) as [H3 H4]. split; [constructor; assumption|].
  cbn [map segments]. rewrite H2, H4. reflexivity.
Qed.

(** One body added: the packet goes on, or is there. *)
Lemma gather_more first body g target : 0 < zlen body -> zlen g + zlen body < target ->
  gather first false body g target = (More, Some (g ++ body, target)).
Proof.
  intros H0 Ht. unfold gather. destruct (Z.ltb_spec (target - zlen g) (zlen body)); [lia|]. cbn [andb].
  rewrite take_ge by (unfold zlen in *; lia). destruct (Z.eqb_spec (zlen body) 0); [lia|]. destruct (Z.eqb_spec (zlen body) (target - zlen g)); [lia|]. reflexivity.
Qed.
Lemma gather_done first body g target p : 0 < zlen body -> zlen g + zlen body = target -> decodeRx (Some (g ++ body)) target 4 = MVal p ->
  gather first true body g target = (Packet (g ++ body) p, None).
Proof.
  intros H0 Ht Hp. unfold gather. destruct (Z.ltb_spec (target - zlen g) (zlen body)); [lia|]. cbn [andb].
  rewrite take_ge by (unfold zlen in *; lia). destruct (Z.eqb_spec (zlen body) 0); [lia|]. destruct (Z.eqb_spec (zlen body) (target - zlen g)); [|lia].
  cbn [orb andb negb]. rewrite Hp. reflexivity.
Qed.
Definition moreThen (n : nat) (o : outcome) : list outcome := replicate n More ++ [o].

Lemma segments_gather first body rest g target p :
  0 < zlen body -> Forall sized rest -> zlen g + zlen body + zlen (concat rest) = target ->
  decodeRx (Some (g ++ body ++ concat rest)) target 4 = MVal p ->
  let os := gather first (isNil rest) body g target in let more := deliveries (segments false rest) (snd os) in
  (fst os :: fst more, snd more) = (moreThen (length rest) (Packet (g ++ body ++ concat rest) p), None).
Proof.
  intros H0 Hs. revert first body g H0. induction Hs as [|b rest Hb Hs IH]; intros first body g H0 Ht Hp.
  { cbn [isNil concat] in *. rewrite app_nil_r in *. change (zlen []) with 0 in Ht. rewrite (gather_done first body g target p) by (lia || exact Hp). reflexivity. }
  pose proof (proj1 Hb) as Hb0. cbn [concat] in *. rewrite zlen_app in Ht. pose proof (zlen_nonneg (concat rest)).
  cbn [isNil]. rewrite gather_more by lia. cbn [fst snd segments deliveries deliver].
  change (drop 4 (fragment false (isNil rest) b)) with b.
  specialize (IH false b (g ++ body) ltac:(lia)). rewrite zlen_app, <- app_assoc in IH. specialize (IH ltac:(lia) Hp). cbv zeta in IH |- *.
  cbn [length]. unfold moreThen. cbn [replicate app]. injection IH as -> ->. reflexivity.
Qed.

(** What precedes the descriptor does not matter. *)
Lemma agree_app n pre1 pre2 F : zlen pre1 = n -> zlen pre2 = n -> agree n (n + zlen F) (pre1 ++ F) (pre2 ++ F).
Proof. intros H1 H2 i Hi. rewrite !byte_at_app_r by lia. rewrite H1, H2. reflexivity. Qed.
Lemma decodeRx_header data size off p : decodeRx (Some data) size off = MVal p ->
  exists h, decodeRxHeader (Some data) size off = MVal h /\ rx_offset h = rx_offset p /\ rx_length h = rx_length p /\ rx_offset p + rx_length p <= size.
Proof.
  unfold decodeRx. intros H. apply bind_val in H as (h & Hh & H). apply fail_if_bind_val in H as [Hg H]. injection H as <-.
  exists h. split; [exact Hh|]. cbn [rx_offset rx_length]. repeat split; lia.
Qed.

Section Reassembly.
Context (bodies : list buf) (p : RxPacket).
Context (Hsized : Forall sized bodies) (Hfirst : rx_offset p < 4 + zlen (hd [] bodies)).
Context (Hp : decodeRx (Some (zeros 4 ++ (concat bodies))) (4 + zlen (concat bodies)) 4 = MVal p) (Hsize : 4 + zlen (concat bodies) = rx_offset p + rx_length p) (Hst : rx_offset p + rx_length p <= storage).

Lemma segments_deliver : exists g, drop 4 g = concat bodies /\ zlen g = 4 + zlen (concat bodies) /\
  deliveries (segments true bodies) None = (moreThen (length bodies - 1) (Packet g p), None).
Proof.
  destruct (decodeRx_header _ _ _ _ Hp) as (h & Hh & Ho & Hl & _).
  assert (HzF : zlen (zeros 4 ++ (concat bodies)) = 4 + zlen (concat bodies)) by (rewrite zlen_app; reflexivity).
  assert (Hb20 : 20 <= rx_offset p /\ 0 < rx_length p) by (assert (Hr : 0 <= 4 + zlen (concat bodies) <= zlen (zeros 4 ++ (concat bodies))) by (pose proof (zlen_nonneg (concat bodies)); lia); pose proof (header_bounds _ _ _ Hr Hh); lia).
  destruct Hsized as [|b rest Hb Hrest]; cbn [hd concat] in *; [change (zlen []) with 0 in Hfirst; lia|].
  set (W := fragment true (isNil rest) b) in *. assert (HW : zlen W = 4 + zlen b) by apply zlen_fragment.
  assert (Hpre : exists pre, zlen pre = 4 /\ W = pre ++ b) by (eexists; split; [|reflexivity]; reflexivity). destruct Hpre as (pre & Hpre & EW).
  pose proof (zlen_nonneg (concat rest)) as Hr0. rewrite zlen_app in *.
  exists (W ++ concat rest). rewrite EW, <- app_assoc. split; [|split].
  - rewrite drop_app_ge by (unfold zlen in Hpre; lia). replace (4 - length pre)%nat with 0%nat by (unfold zlen in Hpre; lia). reflexivity.
  - rewrite !zlen_app. lia.
  - rewrite app_assoc, <- EW. cbn [segments deliveries deliver]. fold W.
    assert (Hag : agree 4 (4 + zlen (b ++ concat rest)) (zeros 4 ++ b ++ concat rest) (W ++ concat rest)).
    { rewrite EW, <- app_assoc. apply agree_app; [reflexivity|exact Hpre]. } rewrite zlen_app in Hag.
    assert (HzP : zlen (zeros 4 ++ b ++ concat rest) = 4 + (zlen b + zlen (concat rest))) by (rewrite !zlen_app; reflexivity).
    rewrite (header_extends (zeros 4 ++ b ++ concat rest) W (4 + (zlen b + zlen (concat rest))) (zlen W) h);
      [|lia..|exact Hh|lia|intros i Hi; rewrite (Hag i) by lia; apply byte_at_app_l; lia].
    rewrite Ho, Hl. destruct (Z.ltb_spec storage (rx_offset p + rx_length p)); [lia|].
    pose proof (take_drop (Z.to_nat (rx_offset p)) W) as Htd. set (g := take _ W) in *. set (body := drop _ W) in *.
    assert (Hg : zlen g = rx_offset p) by (unfold g; unfold zlen in *; rewrite length_take; lia).
    assert (Hbody : zlen body = zlen W - rx_offset p) by (unfold body; unfold zlen in *; rewrite length_drop; lia).
    replace (length (b :: rest) - 1)%nat with (length rest) by (cbn; lia).
    rewrite <- Htd, <- app_assoc. apply segments_gather; [lia|exact Hrest|lia|].
    rewrite app_assoc, Htd, <- (decodeRx_same (zeros 4 ++ b ++ concat rest)); [rewrite <- Hsize; exact Hp|lia|lia| |].
    { rewrite zlen_app; lia. } rewrite <- Hsize. exact Hag.
Qed.

End Reassembly.

(** A packet whose payload lies in its buffer. *)
Definition inBuffer (data : buf) (rx : RxPacket) : Prop := forall o, payload rx = Some o -> 0 <= o /\ o + rx_length rx <= zlen data.

Lemma addressedFrom_spec n i p o l : 0 <= i -> 0 <= o + 4 + i -> o + 4 + i + Z.of_nat n <= zlen p -> i + Z.of_nat n <= zlen l ->
  exists b, addressedFrom n i p o l = MVal b /\ (b = true -> forall k, i <= k < i + Z.of_nat n -> byte_at p (o + 4 + k) = byte_at l k).
Proof.
  revert i. induction n as [|n IH]; intros i Hi Ho Hp Hl; [exists true; split; [reflexivity|lia]|].
  cbn [addressedFrom]. rewrite !rd8_in by lia. cbn [mbind mres_bind]. destruct (Z.eqb_spec (byte_at p (o + 4 + i)) (byte_at l i)) as [E|E].
  - destruct (IH (i + 1)) as (b & -> & H); [lia..|]. exists b. split; [reflexivity|]. intros Hb k Hk.
    destruct (Z.eq_dec k i) as [->|]; [exact E|]. apply (H Hb). lia.
  - exists false. split; [reflexivity|discriminate].
Qed.
Lemma llcFrom_spec n i p a : 0 <= i -> i + Z.of_nat n <= 8 -> 0 <= a + i -> a + i + Z.of_nat n <= zlen p ->
  exists b, llcFrom n i p a = MVal b /\ (b = true -> forall k, i <= k < i + Z.of_nat n -> byte_at p (a + k) = byte_at llc k).
Proof.
  revert i. induction n as [|n IH]; intros i Hi H8 Ha Hp; [exists true; split; [reflexivity|lia]|].
  cbn [llcFrom]. rewrite !rd8_in by (try change (zlen llc) with 8; lia). cbn [mbind mres_bind]. destruct (Z.eqb_spec (byte_at p (a + i)) (byte_at llc i)) as [E|E].
  - destruct (IH (i + 1)) as (b & -> & H); [lia..|]. exists b. split; [reflexivity|]. intros Hb k Hk.
    destruct (Z.eq_dec k i) as [->|]; [exact E|]. apply (H Hb). lia.
  - exists false. split; [reflexivity|discriminate].
Qed.

(** Where a data frame's LLC header starts. *)
Definition llcOffset (p0 p1 : Z) : Z :=
  24 + (if Z.land p1 3 =? 3 then 6 else 0) + (if flag p0 0x80 then 2 + (if flag p1 0x80 then 4 else 0) else 0).
(** What a trace may claim of the frame at [o]. *)
Definition traced (data : buf) (rx : RxPacket) (local : option buf) (r : RxTrace) : Prop :=
  eapol r = true -> exists o l, payload rx = Some o /\ local = Some l /\ tr_type r = 2 /\ pkt_type (rx_info rx) = 0 /\
    hardwareDecrypted (rx_info rx) = false /\ flag (byte_at data (o + 1)) 0x40 = false /\
    (forall k, 0 <= k < 6 -> byte_at data (o + 4 + k) = byte_at l k) /\
    let h := llcOffset (byte_at data o) (byte_at data (o + 1)) in
    h + 12 <= rx_length rx /\ forall k, 0 <= k < 8 -> byte_at data (o + h + k) = byte_at llc k.

Lemma untraced data rx local r : eapol r = false -> traced data rx local r.
Proof. intros E H. congruence. Qed.
Lemma addressed_spec data o local : 0 <= o -> o + 10 <= zlen data -> (forall l, local = Some l -> 6 <= zlen l) ->
  exists b, match local with None => MVal false | Some l => addressedFrom 6 0 data o l end = MVal b :> R bool /\
    (b = true -> exists l, local = Some l /\ forall k, 0 <= k < 6 -> byte_at data (o + 4 + k) = byte_at l k).
Proof.
  intros Ho Hl Hlocal. destruct local as [l|]; [|exists false; split; [reflexivity|discriminate]]. specialize (Hlocal l eq_refl).
  destruct (addressedFrom_spec 6 0 data o l) as (b & E & H); [lia..|]. exists b. split; [exact E|]. intros Hb. exists l. split; [reflexivity|exact (H Hb)].
Qed.

(** The length of the header, or that the frame is not one to trace. *)
Definition header_rest (data : buf) (rx : RxPacket) (o type p0 p1 : Z) (r : RxTrace) : R RxTrace :=
  let header := 24 + (if Z.land p1 3 =? 3 then 6 else 0) in
  q ← (if flag p0 0x80 then
         if rx_length rx <? header + 2 + 4 then MVal None else
         ph ← rd8 data (o + header);
         if flag ph 0x80 then MVal None else MVal (Some (header + 2 + (if flag p1 0x80 then 4 else 0)))
       else MVal (Some header));
  match q with
  | None => MVal r
  | Some header =>
      if rx_length rx <? header + 8 + 4 then MVal r else
      same ← llcFrom 8 0 data (o + header);
      if negb same then MVal r else
      if rx_length rx <? header + 8 + 4 + 4 then MVal (mkRxTrace type true (deauthReason r) (deauth r) 256 0) else
      t ← rd8 data (o + header + 9); h ← rd8 data (o + header + 10); l ← rd8 data (o + header + 11);
      MVal (mkRxTrace type true (deauthReason r) (deauth r) t (Z.lor (Z.shiftl h 8) l))
  end.
Lemma header_rest_spec data rx o type p0 p1 r : 0 <= o -> o + rx_length rx <= zlen data -> 28 <= rx_length rx -> eapol r = false ->
  exists t, header_rest data rx o type p0 p1 r = MVal t /\
    (eapol t = true -> tr_type t = type /\ llcOffset p0 p1 + 12 <= rx_length rx /\ forall k, 0 <= k < 8 -> byte_at data (o + llcOffset p0 p1 + k) = byte_at llc k).
Proof.
  intros Ho Hd H28 Hr. unfold header_rest, llcOffset. set (h := 24 + (if Z.land p1 3 =? 3 then 6 else 0)).
  assert (Hh : 24 <= h <= 30) by (unfold h; destruct (_ =? _); lia).
  assert (Hno : forall m : R RxTrace, m = MVal r -> exists t, m = MVal t /\ (eapol t = true -> tr_type t = type /\ h + (if flag p0 0x80 then 2 + (if flag p1 0x80 then 4 else 0) else 0) + 12 <= rx_length rx /\
    forall k, 0 <= k < 8 -> byte_at data (o + (h + (if flag p0 0x80 then 2 + (if flag p1 0x80 then 4 else 0) else 0)) + k) = byte_at llc k)).
  { intros m ->. exists r. split; [reflexivity|congruence]. }
  set (q := if flag p0 0x80 then 2 + (if flag p1 0x80 then 4 else 0) else 0) in *. assert (Hq : 0 <= q) by (unfold q; destruct (flag p0 0x80), (flag p1 0x80); lia).
  match goal with |- exists t, mbind ?f ?m = _ /\ _ => assert (Hm : m = MVal None \/ m = MVal (Some (h + q))) end.
  { unfold q. destruct (flag p0 0x80); [|right; rewrite Z.add_0_r; reflexivity]. destruct (Z.ltb_spec (rx_length rx) (h + 2 + 4)); [left; reflexivity|].
    rewrite rd8_in by lia. cbn [mbind mres_bind]. destruct (flag (byte_at data (o + h)) 0x80); [left; reflexivity|right; rewrite Z.add_assoc; reflexivity]. }
  destruct Hm as [-> | ->]; [apply Hno; reflexivity|]. cbn [mbind mres_bind]. destruct (Z.ltb_spec (rx_length rx) (h + q + 8 + 4)); [apply Hno; reflexivity|].
  destruct (llcFrom_spec 8 0 data (o + (h + q))) as (b & -> & Hb); [lia..|]. cbn [mbind mres_bind]. destruct b; cbn [negb]; [|apply Hno; reflexivity].
  assert (Hall : h + q + 12 <= rx_length rx /\ forall k, 0 <= k < 8 -> byte_at data (o + (h + q) + k) = byte_at llc k) by (split; [lia|intros k Hk; apply (Hb eq_refl); lia]).
  destruct (Z.ltb_spec (rx_length rx) (h + q + 8 + 4 + 4)); [|rewrite !rd8_in by lia; cbn [mbind mres_bind]]; (eexists; split; [reflexivity|intros _; split; [reflexivity|exact Hall]]).
Qed.

(** Tracing reads only the frame, and what it calls EAPOL is an unprotected
    data frame for this station whose LLC header says so. *)
Theorem inspect_sound data rx local : inBuffer data rx -> (forall l, local = Some l -> 6 <= zlen l) ->
  exists r, inspectRx data rx local = MVal r /\ traced data rx local r.
Proof.
  intros Hin Hl. unfold inspectRx. destruct (payload rx) as [o|] eqn:Eo; [|eexists; split; [reflexivity|apply untraced; reflexivity]].
  destruct (Hin o Eo) as [Ho Hd]. cbv zeta.
  destruct (negb (pkt_type (rx_info rx) =? 0) || (rx_length rx <? 2)) eqn:E1; [eexists; split; [reflexivity|apply untraced; reflexivity]|].
  apply orb_false_iff in E1 as [E1 E2%Z.ltb_ge]. apply negb_false_iff in E1. rewrite (rd8_in data o) by lia. cbn [mbind mres_bind]. set (p0 := byte_at data o). destruct (flag p0 3); [eexists; split; [reflexivity|apply untraced; reflexivity]|].
  set (type := Z.land (Z.shiftr p0 2) 3). destruct (Z.ltb_spec (rx_length rx) 28) as [|H28]; [eexists; split; [reflexivity|apply untraced; reflexivity]|].
  destruct (addressed_spec data o local Ho ltac:(lia) Hl) as (ad & -> & Had). cbn [mbind mres_bind]. rewrite (rd8_in data (o + 1)) by lia. cbn [mbind mres_bind].
  set (p1 := byte_at data (o + 1)). set (clear := negb (flag p1 0x40) && negb (hardwareDecrypted (rx_info rx))).
  match goal with |- exists r, mbind ?f ?m = _ /\ _ => assert (Hm : exists r0, m = MVal r0 /\ eapol r0 = false) end.
  { destruct (_ && (30 <=? rx_length rx)) eqn:E7; [apply andb_true_iff in E7 as [_ E7%Z.leb_le]|eexists; split; reflexivity]. rewrite !rd8_in by lia. eexists; split; reflexivity. }
  destruct Hm as (r0 & -> & Hr0). cbn [mbind mres_bind].
  destruct (negb (type =? 2) || negb clear || negb ad) eqn:E3; [eexists; split; [reflexivity|apply untraced, Hr0]|].
  destruct (flag p0 0x40); [eexists; split; [reflexivity|apply untraced, Hr0]|].
  fold (header_rest data rx o type p0 p1 r0). destruct (header_rest_spec data rx o type p0 p1 r0 Ho Hd H28 Hr0) as (t & -> & Ht). exists t. split; [reflexivity|].
  intros He. destruct (Ht He) as (Hty & Hlen & Hllc). rewrite !orb_false_iff, !negb_false_iff in E3. destruct E3 as [[E3 E4] E5].
  destruct (Had E5) as (l & El & Haddr). unfold clear in E4. apply andb_true_iff in E4 as [E4 E6]. rewrite negb_true_iff in E4, E6.
  apply Z.eqb_eq in E1, E3. exists o, l. do 7 (split; [first [assumption | rewrite Hty; exact E3]|]). split; assumption.
Qed.

Lemma assembled_inBuffer data size p : 0 <= size <= zlen data -> decodeRx (Some data) size 4 = MVal p -> inBuffer data p.
Proof.
  intros Hs H o Eo. destruct (decodeRx_header _ _ _ _ H) as (h & Hh & Ho & Hl & Hfit). pose proof (header_bounds _ _ _ Hs Hh).
  assert (Ep : payload p = Some (rx_offset p)).
  { unfold decodeRx in H. apply bind_val in H as (h' & _ & H). apply fail_if_bind_val in H as [_ H]. injection H as <-. reflexivity. }
  rewrite Ep in Eo. injection Eo as <-. lia.
Qed.

Definition zeroInfo : RxInfo :=
  mkRxInfo 0 0 0 0 false false 0 0 0 0 0 false 0 0 false false false false false 0 0 false 0 0 0 0 0 false 0 0 0 false 0 0.
(** The sample packet of the descriptors, cut in two, in buffers of 40 bytes. *)
Definition sampleBodies : list buf := [take 26 sampleRx; drop 26 sampleRx].
Definition sampleBuffers : list (option buf * Z) :=
  map (fun d => (Some (d ++ replicate (40 - length d) 0x5a), 40)) (cut true sampleBodies).
Definition samplePacket : RxPacket :=
  match decodeRx (Some (zeros 4 ++ concat sampleBodies)) (4 + zlen (concat sampleBodies)) 4 with MVal p => p | _ => mkRxPacket zeroInfo None 0 0 end.

(** An EAPOL frame for the station 2:0:0:0:0:1. *)
Definition sampleFrame : buf :=
  [8; 2; 0; 0; 2; 0; 0; 0; 0; 1; 3; 0; 0; 0; 0; 1; 3; 0; 0; 0; 0; 1; 0; 0] ++ llc ++ [2; 3; 0; 95] ++ zeros 4.
Definition sampleTraced : RxPacket := mkRxPacket zeroInfo (Some 0) 40 0.
Example sample_eapol : inspectRx sampleFrame sampleTraced (Some [2; 0; 0; 0; 0; 1]) = MVal (mkRxTrace 2 true 0 false 3 95).
Proof. vm_compute. reflexivity. Qed.
Lemma inspect_sound_witness :
  exists r, inspectRx sampleFrame sampleTraced (Some [2; 0; 0; 0; 0; 1]) = MVal r /\ traced sampleFrame sampleTraced (Some [2; 0; 0; 0; 0; 1]) r.
Proof.
  apply inspect_sound.
  - intros o [= <-]. split; vm_compute; congruence.
  - intros l [= <-]. vm_compute. congruence.
Defined.
