(* ===== verification/PciRuntime.v ===== *)
(** * The running data path (src/network/PciRuntime.hpp)

    [PciRuntime] starts the DMA of the nine rings, moves their indices, masks
    and acknowledges interrupts, and stops everything again.  The register map
    of the rings is that of [PciRingSetup.hpp]. *)

From S2P Require Import Prelude Prog DataPath.

(** ** The rings (PciRingSetup.hpp) *)

Record RingRegisters := mkRegs { rr_count : Z; rr_index : Z; rr_low : Z; rr_high : Z; rr_bdram : Z; rr_allocation : Z }.
Definition ringRegisters : list RingRegisters := [
  mkRegs 0x1024 0x1058 0x1110 0x1114 0x1200 0x020500;
  mkRegs 0x1026 0x105c 0x1118 0x111c 0x1204 0x020505;
  mkRegs 0x1028 0x1060 0x1120 0x1124 0x1208 0x02050a;
  mkRegs 0x102a 0x1064 0x1128 0x112c 0x120c 0x02050f;
  mkRegs 0x1034 0x1078 0x1150 0x1154 0x1220 0x010414;
  mkRegs 0x1036 0x107c 0x1158 0x115c 0x1224 0x010418;
  mkRegs 0x1038 0x1080 0x1160 0x1164 0x1228 0x01041c;
  mkRegs 0x1020 0x1050 0x1100 0x1104 0 0;
  mkRegs 0x1022 0x1054 0x1108 0x110c 0 0].
Definition regsOf (ring : Z) : RingRegisters := nth (Z.to_nat ring) ringRegisters (mkRegs 0 0 0 0 0 0).
Record RingMemory := mkRing { address : Z; count : Z }.
Definition ringOf (rings : list RingMemory) (i : Z) : RingMemory := nth (Z.to_nat i) rings (mkRing 0 0).

(** ** What the class calls on its device *)

Inductive ioOp :=
| Read16 (a : Z) | Read32 (a : Z) | Write16 (a v : Z) | Write32 (a v : Z)
| Command | WriteCommand (v : Z) | Barrier | NowUs | PauseUs (us : Z).
Definition ioAns (o : ioOp) : Type :=
  match o with
  | Read16 _ | Read32 _ | Command | NowUs => Z
  | Barrier | PauseUs _ => unit
  | _ => bool
  end.
Definition Io : sig := Sig ioOp ioAns.

Section calls.
Context {S : Type}.
Definition iocall (o : ioOp) : M Io S (ioAns o) := call (Σ:=Io) o.
Definition read16 (a : Z) : M Io S Z := v ← iocall (Read16 a); mret (u16 v).
Definition read32 (a : Z) : M Io S Z := v ← iocall (Read32 a); mret (u32 v).
Definition command : M Io S Z := v ← iocall Command; mret (u16 v).
Definition nowUs : M Io S Z := v ← iocall NowUs; mret (u64 v).
End calls.

(** ** The object *)

Definition irqMasks : list Z := [0x1a0; 0x10b0; 0x13b0].
Definition irqStatus : list Z := [0x1a4; 0x10b4; 0x13b4].
Definition irqEnabled : list Z := [0x00200000; 0x011e0007; 0x10000000].
Definition irqMask (i : Z) : Z := nth (Z.to_nat i) irqMasks 0.
Definition irqStat (i : Z) : Z := nth (Z.to_nat i) irqStatus 0.
Definition irqOn (i : Z) : Z := nth (Z.to_nat i) irqEnabled 0.
Definition runtimeStopMask : Z := 0x001f0f00.
Definition runtimeBusyMask : Z := 0x007f0f03.

Record InterruptStatus := mkIrq { halt : Z; dma : Z; indirect : Z; valid : bool }.
Definition noIrq : InterruptStatus := mkIrq 0 0 0 false.
Definition pending (s : InterruptStatus) : bool :=
  valid s && (negb (halt s =? 0) || negb (dma s =? 0) || negb (indirect s =? 0)).
Definition fatal (s : InterruptStatus) : bool := flag (halt s) 0x00200000 || flag (dma s) 0x00060000.

Record RuntimeResult := mkRes {
  failureAddress : Z; expected : Z; actual : Z; lastBusy : Z; polls : Z;
  irqMasked : bool; masterOff : bool; idle : bool; stopped : bool
}.
#[export] Instance RuntimeResult_rebuild : Rebuild RuntimeResult := fun r =>
  mkRes (failureAddress r) (expected r) (actual r) (lastBusy r) (polls r) (irqMasked r) (masterOff r) (idle r) (stopped r).
Record PciRuntime := mkRuntime {
  attempted_ : bool; running_ : bool; faulted_ : bool; host_ : list Z; addresses_ : list Z; result : RuntimeResult
}.
#[export] Instance PciRuntime_rebuild : Rebuild PciRuntime := fun s =>
  mkRuntime (attempted_ s) (running_ s) (faulted_ s) (host_ s) (addresses_ s) (result s).
Definition newRuntime : PciRuntime :=
  mkRuntime false false false (replicate 9 0) (replicate 9 0) (mkRes 0 0 0 0 0 false false false false).

Definition D (A : Type) : Type := M Io PciRuntime A.
Definition onResult (f : RuntimeResult -> RuntimeResult) : D unit := modify (fun s => s <| result := f (result s) |>).

(** ** Checked register accesses *)

Definition bad (v : Z) : bool := (v =? 0xffffffff) || (v =? 0xdeadbeef).
(** [fail] answers false. *)
Definition fail (a expect got : Z) : D bool :=
  modify (fun s =>
    let s := s <| faulted_ := true |> in
    if failureAddress (result s) =? 0
    then s <| result := (result s) <| failureAddress := a |> <| expected := expect |> <| actual := got |> |> else s);;
  mret false.
Definition equal (a mask expect : Z) : D bool :=
  v ← read32 a; if negb (bad v) && (Z.land v mask =? expect) then mret true else fail a expect v.
Definition write (a value : Z) : D bool := iocall (Write32 a value) ||| fail a value 0xffffffff.
Definition modifyReg (a mask value : Z) : D bool :=
  old ← read32 a;
  if bad old then fail a value old else write a (Z.lor (Z.ldiff old mask) value) &&> equal a mask value.
Definition setCommand (value : Z) : D bool :=
  wrote ← iocall (WriteCommand value); got ← command;
  if (wrote : bool) && (got =? value) then mret true else fail 4 value got.

Definition running (s : PciRuntime) : bool := running_ s && negb (faulted_ s).
Definition ownsRing (ring addr : Z) (s : PciRuntime) : bool :=
  running s && (ring <? 9) && (nth (Z.to_nat ring) (addresses_ s) 0 =? addr).

(** ** Interrupts *)

(** [for (auto a : list) ok = f(a) && ok;] *)
Fixpoint sweep (l : list Z) (f : Z -> D bool) (ok : bool) : D bool :=
  match l with [] => mret ok | a :: l => x ← f a; sweep l f (x && ok) end.
Definition maskInterrupts : D bool :=
  ok ← sweep irqMasks (fun a => write a 0) true;
  ok ← sweep irqMasks (fun a => equal a 0xffffffff 0) ok;
  onResult (fun r => r <| irqMasked := ok |>);; mret ok.
Definition enableInterrupts : D bool :=
  s ← get;
  if negb (running s) then mret false else
  r ← for_loop 0 3 (fun i =>
        ok ← write (irqMask i) (irqOn i) &&> equal (irqMask i) 0xffffffff (irqOn i);
        if (ok : bool) then mret None else maskInterrupts;; mret (Some tt));
  match r with Some _ => mret false | None => onResult (fun r => r <| irqMasked := false |>);; mret true end.

(** The causes read, until a reading is bad. *)
Fixpoint readCauses (n : nat) (i : Z) (values : list Z) : D (option (list Z)) :=
  match n with
  | O => mret (Some values)
  | Datatypes.S n =>
      v ← read32 (irqStat i);
      if bad v then fail (irqStat i) 0 v;; mret None else readCauses n (i + 1) (values ++ [Z.land v (irqOn i)])
  end.
Definition acknowledgeInterrupts : D InterruptStatus :=
  s ← get;
  if negb (running s) || negb (irqMasked (result s)) then mret noIrq else
  r ← readCauses 3 0 [];
  match r with
  | None => mret noIrq
  | Some values =>
      let at_ i := nth (Z.to_nat i) values 0 in
      r ← for_loop 0 3 (fun i =>
            if at_ i =? 0 then mret None else
            ok ← write (irqStat i) (at_ i); mret (if ok : bool then None else Some tt));
      match r with Some _ => mret noIrq | None => mret (mkIrq (at_ 0) (at_ 1) (at_ 2) true) end
  end.

(** ** Start *)

(** [return fail(...);] from a method answering false. *)
Definition refuse (a expect got : Z) : D unit := fail a expect got;; brk.
Definition overlaps (a b : Z) : bool := (a <? u64 (b + 512)) && (b <? u64 (a + 512)).
(** Ring [i]: its memory against the others, its registers against its memory. *)
Definition checkRing (rings : list RingMemory) (i : Z) : D unit :=
  let m := ringOf rings i in
  let r := regsOf i in
  when (negb (count m =? 64) || flag (address m) 7 || negb (dma32Range (address m) 512)) (refuse (rr_low r) 0 (u32 (address m)));;
  when (existsb (fun j => overlaps (address m) (address (ringOf rings j))) (seqZ 0 i)) (refuse (rr_low r) 0 (u32 (address m)));;
  ok ← equal (rr_low r) 0xffffffff (u32 (address m)) &&> equal (rr_high r) 0xffffffff 0
         &&> (v ← read16 (rr_count r); mret (Z.land v 0xfff =? 64)) &&> equal (rr_index r) 0x0fff0fff 0;
  unless (ok : bool) (v ← read16 (rr_count r); refuse (rr_count r) 64 v);;
  modify (fun s => s <| addresses_ := <[Z.to_nat i := address m]> (addresses_ s) |>).
(** Causes left from before are cleared. *)
Definition clearCause (i : Z) : D unit :=
  value ← read32 (irqStat i);
  when (bad value) (refuse (irqStat i) 0 value);;
  unless (Z.land value (irqOn i) =? 0) (must (write (irqStat i) (Z.land value (irqOn i)))).
Definition start (rings : list RingMemory) : D bool :=
  s ← get;
  if attempted_ s || faulted_ s then mret false else
  succeeds (
    modify (fun s => s <| attempted_ := true |>);;
    c ← command;
    unless (Z.land c 6 =? 2) (c ← command; refuse 4 2 c);;
    must (maskInterrupts &&> equal 0x1000 0x2808 0 &&>
          equal 0x1010 runtimeStopMask runtimeStopMask &&> equal 0x101c runtimeBusyMask 0 &&>
          equal 0x8380 3 3 &&> equal 0x8400 0x60000000 0x60000000 &&>
          equal 0xc000 0x40000000 0x40000000 &&> equal 0x1e0 0xe0 0xe0);;
    for_each 0 9 (checkRing rings);;
    for_each 0 3 clearCause;;
    iocall Barrier;;
    cmd ← command;
    when (cmd =? 0xffff) (refuse 4 2 cmd);;
    must (setCommand (u16 (Z.lor cmd 0x404)));;
    onResult (fun r => r <| masterOff := false |> <| stopped := false |>);;
    must (modifyReg 0x1010 runtimeStopMask 0 &&> modifyReg 0x1000 0x2800 0x2800);;
    modify (fun s => s <| running_ := true |>)).

(** ** Indices *)

(** [None] for false; otherwise the host and hardware indices. *)
Definition hostOf (v : Z) : Z := Z.land v 0xfff.
Definition hardwareOf (v : Z) : Z := Z.land (Z.shiftr v 16) 0xfff.
Definition hostAt (s : PciRuntime) (ring : Z) : Z := nth (Z.to_nat ring) (host_ s) 0.
Definition readIndices (ring : Z) : D (option (Z * Z)) :=
  s ← get;
  if negb (running s) || (9 <=? ring) then mret None else
  let a := rr_index (regsOf ring) in
  v ← read32 a;
  if bad v || (64 <=? hostOf v) || (64 <=? hardwareOf v) || negb (hostOf v =? hostAt s ring)
  then fail a (hostAt s ring) v;; mret None
  else mret (Some (hostOf v, hardwareOf v)).
Definition publish (ring next : Z) : D bool :=
  s ← get;
  if negb (running s) || (9 <=? ring) || (64 <=? next) then mret false else
  r ← readIndices ring;
  match r with
  | None => mret false
  | Some (host, hardware) =>
      let advance := (next + 64 - host) mod 64 in
      let a := rr_index (regsOf ring) in
      if (ring <? 7) && (negb (advance =? 1) || (next =? hardware)) then fail a ((host + 1) mod 64) next else
      if negb (ring <? 7) && ((hardware + 64 - host) mod 64 <? advance) then fail a hardware next else
      if advance =? 0 then mret true else
      iocall Barrier;;
      ok ← iocall (Write16 a next);
      if negb ok then fail a next 0xffffffff else
      modify (fun s => s <| host_ := <[Z.to_nat ring := next]> (host_ s) |>);;
      value ← read32 a;
      if negb (bad value) && (Z.land value 0xfff =? next) then mret true else fail a next value
  end.

(** ** Stop *)

(** One turn of the wait; [Some tt] leaves it.  [previous] is the last time read. *)
Definition idleTurn (begin previous : Z) : D (option Z) :=
  now ← nowUs;
  if (now <? previous) || (10000 <=? u64 (now - begin)) then mret None else
  busy ← read32 0x101c;
  onResult (fun r => r <| lastBusy := busy |> <| polls := u32 (polls r + 1) |>);;
  if bad busy then mret None else
  if Z.land busy runtimeBusyMask =? 0 then onResult (fun r => r <| idle := true |>);; mret None else
  iocall (PauseUs 50);; mret (Some now).
Fixpoint awaitIdle (n : nat) (begin previous : Z) : D unit :=
  match n with
  | O => mret tt
  | Datatypes.S n => r ← idleTurn begin previous; match r with Some now => awaitIdle n begin now | None => mret tt end
  end.
(** Bus mastering is cut off, unless the device is gone. *)
Definition cutMaster : D unit :=
  cmd ← command;
  off ← (if cmd =? 0xffff then mret false else
         setCommand (u16 (Z.ldiff cmd 4)) &&> (c ← command; mret (negb (flag c 4))));
  onResult (fun r => r <| masterOff := off |>).
(** The last checks; [ok] is how the first writes went. *)
Definition finish (ok : bool) : D bool :=
  checked ← equal 0x1000 0x2800 0 &&> equal 0x1010 runtimeStopMask runtimeStopMask;
  let ok := (checked : bool) && ok in
  finalMasked ← maskInterrupts;
  let ok := finalMasked && ok in
  onResult (fun r => r <| stopped := ok && idle r && masterOff r && irqMasked r |>);;
  s ← get;
  (if stopped (result s) then mret tt else modify (fun s => s <| faulted_ := true |>));;
  mret (stopped (result s)).
Definition stop : D bool :=
  modify (fun s => s <| running_ := false |>);;
  onResult (fun r => r <| stopped := false |>);;
  ok ← maskInterrupts;
  hci ← modifyReg 0x1000 0x2800 0;
  channels ← modifyReg 0x1010 runtimeStopMask runtimeStopMask;
  let ok := (hci : bool) && channels && ok in
  begin ← nowUs;
  onResult (fun r => r <| idle := false |>);;
  awaitIdle 201 begin begin;;
  cutMaster;;
  finish ok.

(** The object after [fail]. *)
Definition failed (a expect got : Z) (s : PciRuntime) : PciRuntime :=
  let s := s <| faulted_ := true |> in
  if failureAddress (result s) =? 0
  then s <| result := (result s) <| failureAddress := a |> <| expected := expect |> <| actual := got |> |> else s.
Lemma failed_fields a e v s : faulted_ (failed a e v s) = true /\ running_ (failed a e v s) = running_ s /\ attempted_ (failed a e v s) = attempted_ s /\
  stopped (result (failed a e v s)) = stopped (result s) /\ irqMasked (result (failed a e v s)) = irqMasked (result s) /\
  masterOff (result (failed a e v s)) = masterOff (result s) /\ idle (result (failed a e v s)) = idle (result s).
Proof. unfold failed. cbv zeta. destruct (_ =? 0); repeat split. Qed.
Lemma failed_host a e v s : host_ (failed a e v s) = host_ s.
Proof. unfold failed. cbv zeta. destruct (_ =? 0); reflexivity. Qed.
Lemma failed_wp {G} (P : protocol Io G) a e v s g (Q : option bool -> PciRuntime -> G -> Prop) :
  Q (Some false) (failed a e v s) g -> wpm P (fail a e v) s g Q.
Proof. intros H. exact H. Qed.

(** ** Indices as counters

    Each half of an index register is a counter of descriptors modulo 64.  The
    ghost state keeps the counters themselves: what the host has handed over
    (or given back) and what the hardware has reached. *)

Record Counters := mkCounters { hostCount : Z -> Z; hwCount : Z -> Z }.
Definition setCount (f : Z -> Z) (i c : Z) : Z -> Z := fun j => if j =? i then c else f j.
(** The next value of a counter that shows as [idx]. *)
Definition forward (c idx : Z) : Z := c + (idx - c) mod 64.
(** Of a transmit ring the hardware trails the host, of a receive ring the
    host trails the hardware; one of the 64 slots stays empty. *)
Definition apart (i h w : Z) : Prop := if i <? 7 then 0 <= h - w <= 63 else 0 <= w - h <= 63.

(** The ring whose index register is at [a]. *)
Definition indexRing (a : Z) : option Z := List.find (fun i => rr_index (regsOf i) =? a) (seqZ 0 9).

Definition readNext (g : Counters) (a v : Z) : Counters :=
  match indexRing a with
  | Some i => if bad v || (64 <=? hardwareOf v) then g
              else mkCounters (hostCount g) (setCount (hwCount g) i (forward (hwCount g i) (hardwareOf v)))
  | None => g
  end.
Definition ctrNext (g : Counters) (o : ioOp) : ioAns o -> Counters :=
  match o with
  | Read32 a => fun x => readNext g a (u32 x)
  | Write16 a v => fun x =>
      match indexRing a with
      | Some i => if x then mkCounters (setCount (hostCount g) i (forward (hostCount g i) v)) (hwCount g) else g
      | None => g
      end
  | _ => fun _ => g
  end.
(** An index is written only as far as the ring allows: one descriptor into a
    free slot, or buffers the hardware has filled. *)
Definition ctrMay (g : Counters) (o : ioOp) : Prop :=
  match o with
  | Write16 a v => exists i, indexRing a = Some i /\ 0 <= v < 64 /\ apart i (forward (hostCount g i) v) (hwCount g i) /\
                     (i < 7 -> forward (hostCount g i) v = hostCount g i + 1)
  | Write32 a _ => indexRing a = None
  | _ => True
  end.
(** The hardware index moves forward, within what it was given. *)
Definition ctrAssume (g : Counters) (o : ioOp) : ioAns o -> Prop :=
  match o with
  | Read32 a => fun x => forall i, indexRing a = Some i -> bad (u32 x) = false -> hardwareOf (u32 x) < 64 ->
                  apart i (hostCount g i) (forward (hwCount g i) (hardwareOf (u32 x)))
  | _ => fun _ => True
  end.
Definition counting : protocol Io Counters := Protocol (Σ:=Io) ctrMay ctrAssume ctrNext.

(** The object's indices are the host counters. *)
Definition Indexed (s : PciRuntime) (g : Counters) : Prop :=
  length (host_ s) = 9%nat /\
  forall i, 0 <= i < 9 -> hostAt s i = hostCount g i mod 64 /\ apart i (hostCount g i) (hwCount g i).
Definition zeroCounters : Counters := mkCounters (fun _ => 0) (fun _ => 0).
Lemma newRuntime_indexed : Indexed newRuntime zeroCounters.
Proof.
  split; [reflexivity|]. intros i Hi. cbn [zeroCounters hostCount hwCount]. unfold apart, hostAt. cbn [newRuntime host_].
  split; [|destruct (i <? 7); lia].
  assert (Hn : (Z.to_nat i < 9)%nat) by lia. revert Hn. generalize (Z.to_nat i). intros n Hn. do 9 (destruct n as [|n]; [reflexivity|]). lia.
Qed.

Lemma indexRing_index i : 0 <= i < 9 -> indexRing (rr_index (regsOf i)) = Some i.
Proof.
  intros Hi. z_cases i 0 9; reflexivity.
Qed.
Lemma indexRing_range a i : indexRing a = Some i -> 0 <= i < 9.
Proof. intros H. apply List.find_some in H as [H _]. apply list_elem_of_In, elem_of_seqZ in H. lia. Qed.
Lemma hostOf_range v : 0 <= hostOf v.
Proof. apply Z.land_nonneg. right. discriminate. Qed.
Lemma hardwareOf_range v : 0 <= hardwareOf v.
Proof. apply Z.land_nonneg. right. discriminate. Qed.
Lemma forward_ge c i : c <= forward c i.
Proof. unfold forward. pose proof (Z.mod_pos_bound (i - c) 64 ltac:(lia)). lia. Qed.
Lemma forward_mod c i : 0 <= i < 64 -> forward c i mod 64 = i.
Proof. intros H. unfold forward. rewrite Zplus_mod_idemp_r. replace (c + (i - c)) with i by lia. apply Z.mod_small, H. Qed.
Lemma setCount_eq f i c : setCount f i c i = c.
Proof. unfold setCount. rewrite Z.eqb_refl. reflexivity. Qed.
Lemma setCount_ne f i j c : j <> i -> setCount f i c j = f j.
Proof. unfold setCount. destruct (Z.eqb_spec j i); [contradiction|reflexivity]. Qed.

(** Reading a register keeps the object indexed. *)
Lemma indexed_read s g a x : Indexed s g -> ctrAssume g (Read32 a) x -> Indexed s (ctrNext g (Read32 a) x).
Proof.
  intros [Hl H] Ha. split; [exact Hl|]. intros i Hi. destruct (H i Hi) as [H1 H2]. unfold ctrNext, readNext. cbn [ctrAssume] in Ha.
  destruct (indexRing a) as [k|] eqn:E; [|auto]. destruct (bad (u32 x) || (64 <=? hardwareOf (u32 x))) eqn:Eb; [auto|]. cbn [hostCount hwCount].
  split; [exact H1|]. apply orb_false_iff in Eb as [E1 E2%Z.leb_gt].
  destruct (Z.eq_dec i k) as [->|Hne]; [rewrite setCount_eq|rewrite setCount_ne by exact Hne; exact H2]. apply (Ha k eq_refl E1 E2).
Qed.
Lemma indexed_result s s' g : Indexed s g -> host_ s' = host_ s -> Indexed s' g.
Proof. intros [Hl H] E. unfold Indexed, hostAt. rewrite E. split; assumption. Qed.

Lemma stays_fail a e v : stays counting Indexed (fail a e v).
Proof. intros s g H. apply failed_wp. apply (indexed_result s _ g H), failed_host. Qed.
Lemma stays_read32 a : stays counting Indexed (read32 a).
Proof.
  unfold read32. stays. intros s g H. refine (wpm_call counting (Read32 a) s g _ _ _); [exact I|]. intros x Hx. apply indexed_read; assumption.
Qed.
Lemma stays_write a v : indexRing a = None -> stays counting Indexed (write a v).
Proof.
  intros Ha. unfold write. stays; [|apply stays_fail].
  intros s g H. refine (wpm_call counting (Write32 a v) s g _ _ _); [exact Ha|]. intros x _. exact H.
Qed.
Lemma stays_harmless (o : ioOp) : match o with Read16 _ | Command | WriteCommand _ | Barrier | NowUs | PauseUs _ => True | _ => False end ->
  stays counting Indexed (iocall o).
Proof.
  intros Ho s g H. refine (wpm_call counting o s g _ _ _); [destruct o; solve [exact I|contradiction]|]. intros x _. destruct o; solve [exact H|contradiction].
Qed.
Lemma stays_onResult f : stays counting Indexed (onResult f).
Proof. apply stays_modify. intros s g H. apply (indexed_result s _ g H). reflexivity. Qed.
#[local] Hint Resolve stays_fail stays_read32 stays_onResult stays_ret stays_get : stays.
#[local] Hint Extern 1 (stays counting Indexed (iocall _)) => apply stays_harmless; exact I : stays.
#[local] Hint Extern 1 (stays counting Indexed (write _ _)) => apply stays_write; reflexivity : stays.

Lemma stays_equal a m e : stays counting Indexed (equal a m e).
Proof. unfold equal. stays. Qed.
#[local] Hint Resolve stays_equal : stays.
Lemma stays_modifyReg a m v : indexRing a = None -> stays counting Indexed (modifyReg a m v).
Proof. intros Ha. unfold modifyReg. stays. apply stays_write, Ha. Qed.
#[local] Hint Extern 1 (stays counting Indexed (modifyReg _ _ _)) => apply stays_modifyReg; reflexivity : stays.
Lemma stays_sweep l f ok : Forall (fun a => stays counting Indexed (f a)) l -> stays counting Indexed (sweep l f ok).
Proof. intros H. revert ok. induction H as [|a l Ha _ IH]; intros ok; cbn [sweep]; [apply stays_ret|]. apply stays_bind; [exact Ha|]. intros x. apply IH. Qed.
Lemma stays_maskInterrupts : stays counting Indexed maskInterrupts.
Proof. unfold maskInterrupts. apply stays_bind; [apply stays_sweep; do 3 (apply List.Forall_cons; [auto with stays|]); apply List.Forall_nil|]. intros ok. apply stays_bind; [apply stays_sweep; do 3 (apply List.Forall_cons; [auto with stays|]); apply List.Forall_nil|]. intros ok'. stays. Qed.
#[local] Hint Resolve stays_maskInterrupts : stays.
Lemma irq_not_index i : 0 <= i < 3 -> indexRing (irqMask i) = None /\ indexRing (irqStat i) = None.
Proof. intros Hi. z_cases i 0 3; split; reflexivity. Qed.
Lemma stays_enableInterrupts : stays counting Indexed enableInterrupts.
Proof. unfold enableInterrupts. stays; [apply stays_write, irq_not_index; lia|]. destruct a0; stays. Qed.
Lemma stays_readCauses n i l : stays counting Indexed (readCauses n i l).
Proof. revert i l. induction n as [|n IH]; intros i l; cbn [readCauses]; [stays|]. apply stays_bind; [apply stays_read32|]. intros v. stays; try apply IH. Qed.
Lemma stays_acknowledge : stays counting Indexed acknowledgeInterrupts.
Proof. unfold acknowledgeInterrupts. pose proof stays_readCauses. stays; auto; [apply stays_write, irq_not_index; lia|]. destruct a2; stays. Qed.
Lemma stays_awaitIdle n b p : stays counting Indexed (awaitIdle n b p).
Proof.
  revert p. induction n as [|n IH]; intros p; cbn [awaitIdle]; [apply stays_ret|]. apply stays_bind; [|intros [now|]; [apply IH|apply stays_ret]].
  unfold idleTurn, nowUs. stays.
Qed.
Lemma stays_setCommand v : stays counting Indexed (setCommand v).
Proof. unfold setCommand, command. stays. Qed.
Lemma stays_stop : stays counting Indexed stop.
Proof.
  unfold stop, cutMaster, finish, nowUs, command. pose proof stays_setCommand. pose proof stays_awaitIdle. stays; auto.
  all: apply stays_modify; intros s g HI; apply (indexed_result s _ g HI); reflexivity.
Qed.
Lemma stays_readIndices ring : stays counting Indexed (readIndices ring).
Proof. unfold readIndices. stays. Qed.

(** What [readIndices] returns is where the ring stands. *)
Lemma readIndices_wp ring s g (Q : option (option (Z * Z)) -> PciRuntime -> Counters -> Prop) :
  Indexed s g -> 0 <= ring < 9 -> (forall s' g', Indexed s' g' -> Q (Some None) s' g') ->
  (forall g', Indexed s g' -> hostCount g' ring = hostCount g ring -> Q (Some (Some (hostCount g' ring mod 64, hwCount g' ring mod 64))) s g') ->
  wpm counting (readIndices ring) s g Q.
Proof.
  intros HI Hr Hno Hyes. unfold readIndices. do 2 wstep. destruct (negb (running s) || (9 <=? ring)); [apply wpm_ret, Hno, HI|]. cbv zeta.
  wstep. unfold read32. wstep. refine (wpm_call counting (Read32 _) s g _ _ _); [exact I|]. intros x Hx. apply wpm_ret. cbn beta iota.
  pose proof (indexed_read s g _ x HI Hx) as HI'. set (g' := next counting g (Read32 (rr_index (regsOf ring))) x) in *.
  destruct (bad (u32 x) || (64 <=? hostOf (u32 x)) || (64 <=? hardwareOf (u32 x)) || negb (hostOf (u32 x) =? hostAt s ring)) eqn:E.
  - wstep. apply failed_wp. apply wpm_ret, Hno. apply (indexed_result s _ _ HI'), failed_host.
  - apply wpm_ret. rewrite !orb_false_iff, negb_false_iff in E. destruct E as [[[E1 E2] E3] E4]. apply Z.eqb_eq in E4.
    assert (Eg : hostCount g' ring = hostCount g ring /\ hwCount g' ring = forward (hwCount g ring) (hardwareOf (u32 x))).
    { unfold g'. cbn [next counting ctrNext]. unfold readNext. rewrite indexRing_index, E1, E3 by exact Hr. cbn [orb hostCount hwCount]. rewrite setCount_eq. auto. }
    destruct Eg as [Eh Ew]. specialize (Hyes g' HI' Eh). rewrite Eh, Ew, forward_mod in Hyes by (pose proof (hardwareOf_range (u32 x)); lia).
    rewrite E4, (proj1 (proj2 HI ring Hr)). exact Hyes.
Qed.

Lemma mod_sub_pos a b : 0 <= a - b < 64 -> (a mod 64 + 64 - b mod 64) mod 64 = a - b.
Proof.
  intros H. rewrite <- (Z.mod_small (a - b) 64) by lia. rewrite (Zminus_mod a b). replace (a mod 64 + 64 - b mod 64) with (a mod 64 - b mod 64 + 1 * 64) by lia.
  apply Z.mod_add. lia.
Qed.
(** The checks of [publish] are the discipline on the counters. *)
Lemma publish_admissible ring nx h w : 0 <= nx < 64 -> apart ring h w ->
  (ring <? 7) && (negb ((nx + 64 - h mod 64) mod 64 =? 1) || (nx =? w mod 64)) = false ->
  negb (ring <? 7) && ((w mod 64 + 64 - h mod 64) mod 64 <? (nx + 64 - h mod 64) mod 64) = false ->
  apart ring (forward h nx) w /\ (ring < 7 -> forward h nx = h + 1).
Proof.
  intros Hn Ha E1 E2. assert (Ef : (nx + 64 - h mod 64) mod 64 = forward h nx - h).
  { unfold forward. rewrite Z.add_simpl_l, (Zminus_mod nx h), (Z.mod_small nx) by lia. rewrite <- (Z.mod_add (nx - h mod 64) 1 64) by lia. f_equal. lia. }
  rewrite Ef in E1, E2. unfold apart in *. destruct (Z.ltb_spec ring 7) as [Hr|Hr]; cbn [andb negb] in *.
  - apply orb_false_iff in E1 as [E1 E3]. apply negb_false_iff, Z.eqb_eq in E1. apply Z.eqb_neq in E3. split; [|lia].
    assert (Ex : forward h nx = h + 1) by lia. split; [lia|]. destruct (Z.eq_dec (h - w) 63) as [E|]; [|lia].
    exfalso. apply E3. rewrite <- (forward_mod h nx Hn), Ex. replace (h + 1) with (w + 1 * 64) by lia. apply Z.mod_add. lia.
  - rewrite mod_sub_pos in E2 by lia. pose proof (forward_ge h nx). lia.
Qed.

Lemma advance_zero nx h : 0 <= nx < 64 -> (nx + 64 - h mod 64) mod 64 = 0 -> h mod 64 = nx.
Proof. intros Hn H. pose proof (Z.mod_pos_bound h 64 ltac:(lia)). destruct (Z_lt_le_dec nx (h mod 64)).
  - rewrite Z.mod_small in H by lia. lia.
  - replace (nx + 64 - h mod 64) with (nx - h mod 64 + 1 * 64) in H by lia. rewrite Z.mod_add, Z.mod_small in H by lia. lia.
Qed.
(** The object after a successful write. *)
Definition moved (ring nx : Z) (s : PciRuntime) : PciRuntime := s <| host_ := <[Z.to_nat ring := nx]> (host_ s) |>.
Lemma hostAt_moved ring nx s i : length (host_ s) = 9%nat -> 0 <= ring < 9 -> 0 <= i -> hostAt (moved ring nx s) i = if i =? ring then nx else hostAt s i.
Proof. intros Hl Hr Hi. apply (nth_insert_Z (host_ s)); [unfold zlen; lia|exact Hi]. Qed.
Lemma publish_indexed ring nx s g : 0 <= ring -> 0 <= nx -> Indexed s g ->
  wpm counting (publish ring nx) s g (fun r s' g' => Indexed s' g' /\ (r = Some true -> hostAt s' ring = nx)).
Proof.
  intros Hr Hn HI. unfold publish. do 2 wstep. destruct (negb (running s) || (9 <=? ring) || (64 <=? nx)) eqn:E; [apply wpm_ret; split; [exact HI|discriminate]|].
  rewrite !orb_false_iff in E. destruct E as [[_ E1] E2]. wstep. apply readIndices_wp; [exact HI|lia|intros s' g' H'; apply wpm_ret; split; [exact H'|discriminate]|].
  intros g1 [Hl HI1] _. cbv zeta. destruct (HI1 ring ltac:(lia)) as [Hh Ha].
  pose proof (publish_admissible ring nx _ _ (conj Hn (proj1 (Z.leb_gt 64 nx) E2)) Ha) as Hadm.
  assert (Hfail : forall a e v, wpm counting (fail a e v) s g1 (fun r s' g' => Indexed s' g' /\ (r = Some true -> hostAt s' ring = nx))).
  { intros a e v. apply failed_wp. split; [apply (indexed_result s _ _ (conj Hl HI1)), failed_host|discriminate]. }
  destruct ((ring <? 7) && _); [apply Hfail|]. destruct (negb (ring <? 7) && _); [apply Hfail|].
  specialize (Hadm eq_refl eq_refl). destruct (_ =? 0) eqn:E0.
  { apply wpm_ret. split; [split; assumption|]. intros _. rewrite Hh. apply advance_zero; lia. } clear E0.
  wstep. refine (wpm_call counting Barrier s g1 _ _ _); [exact I|]. intros [] _. cbn [next counting ctrNext].
  wstep. refine (wpm_call counting (Write16 _ nx) s g1 _ _ _).
  { exists ring. split; [apply indexRing_index; lia|]. split; [lia|]. exact Hadm. }
  intros ok _. cbn [next counting ctrNext]. rewrite indexRing_index by lia. destruct ok; cbn [negb]; [|apply Hfail]. clear Hfail.
  assert (HI2 : Indexed (moved ring nx s) (mkCounters (setCount (hostCount g1) ring (forward (hostCount g1 ring) nx)) (hwCount g1))).
  { split; [change (length (<[Z.to_nat ring := nx]> (host_ s)) = 9%nat); rewrite length_insert; exact Hl|]. intros i Hi. cbn [hostCount hwCount].
    rewrite hostAt_moved by (lia || exact Hl). destruct (Z.eq_dec i ring) as [->|Hne].
    - rewrite setCount_eq, Z.eqb_refl, forward_mod by lia. split; [reflexivity|apply Hadm].
    - rewrite setCount_ne by exact Hne. destruct (Z.eqb_spec i ring); [congruence|]. apply (HI1 i Hi). }
  wstep. apply wpm_modify. cbn beta iota. wstep. unfold read32. wstep. refine (wpm_call counting (Read32 _) _ _ _ _ _); [exact I|]. intros x Hx. apply wpm_ret. cbn beta iota.
  pose proof (indexed_read _ _ _ x HI2 Hx) as HI3. destruct (_ && _).
  - apply wpm_ret. split; [exact HI3|]. intros _. fold (moved ring nx s). rewrite hostAt_moved, Z.eqb_refl by (lia || exact Hl). reflexivity.
  - apply failed_wp. split; [apply (indexed_result _ _ _ HI3), failed_host|discriminate].
Qed.

(** ** A life of the data path after its start *)

Inductive step := SMask | SEnable | SAcknowledge | SRead (ring : Z) | SPublish (ring next : Z) | SStop.
Definition stepOk (t : step) : Prop := match t with SRead r => 0 <= r | SPublish r n => 0 <= r /\ 0 <= n | _ => True end.
Definition perform (t : step) : D unit :=
  match t with
  | SMask => maskInterrupts;; mret tt
  | SEnable => enableInterrupts;; mret tt
  | SAcknowledge => acknowledgeInterrupts;; mret tt
  | SRead r => readIndices r;; mret tt
  | SPublish r n => publish r n;; mret tt
  | SStop => stop;; mret tt
  end.
Fixpoint life (l : list step) : D unit := match l with [] => mret tt | t :: l => perform t;; life l end.

Lemma stays_perform t : stepOk t -> stays counting Indexed (perform t).
Proof.
  intros Ht. destruct t; cbn [perform]; (apply stays_bind; [|intros a; apply stays_ret]);
    [apply stays_maskInterrupts|apply stays_enableInterrupts|apply stays_acknowledge|apply stays_readIndices| |apply stays_stop].
  intros s g HI. destruct Ht as [Hr Hn]. eapply wpm_mono; [apply publish_indexed; assumption|]. intros r s' g' H. apply H.
Qed.
Lemma stays_life l : Forall stepOk l -> stays counting Indexed (life l).
Proof. intros H. induction H as [|t l Ht _ IH]; cbn [life]; [apply stays_ret|]. apply stays_bind; [apply stays_perform, Ht|]. intros a. exact IH. Qed.

(** C29: Whatever is asked of it and in whatever order, the data path writes an
    index only as far as the ring allows, and its indices stay the counters
    modulo 64: nothing in flight is overwritten, nothing unfilled is read. *)
Theorem life_counts l s g tr s' : Forall stepOk l -> Indexed s g ->
  exec (final_state (life l) s) tr s' -> relies counting g tr -> accepts counting g tr /\ Indexed s' (after counting g tr).
Proof. intros Hl HI He Hr. exact (wpm_exec counting (life l) s g Indexed tr s' (stays_life l Hl s g HI) He Hr). Qed.

(** ** A simulated device, for concrete runs

    Registers keep what is written to them; a 16-bit write changes the low
    half; the clock advances at every reading. *)
Record IoBoard := mkIo { i_regs : list (Z * Z); i_command : Z; i_time : Z }.
Definition peek (a : Z) (d : IoBoard) : Z := match List.find (fun p => fst p =? a) (i_regs d) with Some p => snd p | None => 0 end.
Definition poke (a v : Z) (d : IoBoard) : IoBoard := mkIo ((a, v) :: i_regs d) (i_command d) (i_time d).
Definition ioBoard : handler Io IoBoard := fun d o =>
  match o as o return Ans Io o * IoBoard with
  | Read16 a => (peek a d, d)
  | Read32 a => (peek a d, d)
  | Write16 a v => (true, poke a (Z.lor (Z.ldiff (peek a d) 0xffff) v) d)
  | Write32 a v => (true, poke a v d)
  | Command => (i_command d, d)
  | WriteCommand v => (true, mkIo (i_regs d) v (i_time d))
  | Barrier => (tt, d)
  | NowUs => (i_time d, mkIo (i_regs d) (i_command d) (i_time d + 1))
  | PauseUs us => (tt, mkIo (i_regs d) (i_command d) (i_time d + us))
  end.
Definition sampleRings : list RingMemory := map (fun i => mkRing (0x10000 + 0x1000 * i) 64) (seqZ 0 9).
Definition sampleBoard : IoBoard := mkIo
  ([(0x1010, 0x1f0f00); (0x8380, 3); (0x8400, 0x60000000); (0xc000, 0x40000000); (0x1e0, 0xe0)] ++
   concat (map (fun i => [(rr_low (regsOf i), 0x10000 + 0x1000 * i); (rr_count (regsOf i), 64)]) (seqZ 0 9))) 2 0.
Definition startRun := run_trace ioBoard (start sampleRings newRuntime) sampleBoard.
Definition startedRuntime : PciRuntime := snd (fst (fst startRun)).
Definition startedBoard : IoBoard := snd (fst startRun).
Definition sampleLife : list step := [SPublish 0 1; SPublish 0 2; SRead 0; SEnable; SPublish 7 1; SMask].
Definition lifeRun := run_trace ioBoard (final_state (life sampleLife) startedRuntime) startedBoard.

Example sample_started : fst (fst (fst startRun)) = Some true.
Proof. vm_compute. reflexivity. Qed.
(** Two frames published; the receive index may not pass the hardware. *)
Example sample_life : (host_ (fst (fst lifeRun)), faulted_ (fst (fst lifeRun))) = ([2; 0; 0; 0; 0; 0; 0; 0; 0], true).
Proof. vm_compute. reflexivity. Qed.

(** Deciding that the answers of a trace are those of a ring. *)
Definition apartb (i h w : Z) : bool := if i <? 7 then (0 <=? h - w) && (h - w <=? 63) else (0 <=? w - h) && (w - h <=? 63).
Definition answerb (g : Counters) (o : ioOp) : ioAns o -> bool :=
  match o with
  | Read32 a => fun x => match indexRing a with
      | Some i => bad (u32 x) || (64 <=? hardwareOf (u32 x)) || apartb i (hostCount g i) (forward (hwCount g i) (hardwareOf (u32 x)))
      | None => true end
  | _ => fun _ => true
  end.
Fixpoint answersb (g : Counters) (tr : list (event Io)) : bool :=
  match tr with [] => true | e :: tr => answerb g (ev_op e) (ev_ans e) && answersb (ctrNext g (ev_op e) (ev_ans e)) tr end.
Lemma answersb_relies g tr : answersb g tr = true -> relies counting g tr.
Proof.
  revert g. induction tr as [|[o x] tr IH]; intros g H; [exact I|]. cbn [answersb relies ev_op ev_ans] in *. apply andb_true_iff in H as [H1 H2]. split; [|apply IH, H2].
  destruct o; try exact I. cbn [answerb assume counting ctrAssume] in *. intros i Ei Eb Eh. rewrite Ei, Eb in H1. cbn [orb] in H1.
  apply orb_true_iff in H1 as [H1|H1]; [lia|]. unfold apart, apartb in *. destruct (i <? 7); lia.
Qed.

Lemma started_indexed : Indexed startedRuntime zeroCounters.
Proof.
  assert (E : host_ startedRuntime = host_ newRuntime) by (vm_compute; reflexivity).
  apply (indexed_result newRuntime); [apply newRuntime_indexed|exact E].
Qed.
Lemma life_counts_witness : accepts counting zeroCounters (snd lifeRun) /\ Indexed (fst (fst lifeRun)) (after counting zeroCounters (snd lifeRun)).
Proof.
  apply (life_counts sampleLife startedRuntime).
  - repeat constructor; cbn; lia.
  - apply started_indexed.
  - apply run_trace_exec.
  - apply answersb_relies. vm_compute. reflexivity.
Defined.
