(* ===== verification/RuntimeControl.v ===== *)
(** * Starting and stopping the data path (src/network/PciRuntime.hpp)

    What [start] must have read before it opens the path, and what [stop] has
    established when it returns: both against a ghost record of what the
    registers have shown, whatever the device answers. *)

From S2P Require Import Prelude Prog DataPath PciRuntime.

(** ** What the registers have shown

    The ghost state keeps every reading since its register was last written;
    a reading of the busy register is stale after a write to a DMA control.
    [cutOff]: the last command written has the bus-master bit clear. *)

Record Seen := mkSeen { readings : list (Z * Z); lastCommand : option Z; cutOff : bool }.
Definition stale (a b : Z) : bool := (b =? a) || (((a =? 0x1000) || (a =? 0x1010)) && (b =? 0x101c)).
Definition noteRead (a v : Z) (g : Seen) : Seen := mkSeen ((a, v) :: readings g) (lastCommand g) (cutOff g).
Definition noteWrite (a : Z) (g : Seen) : Seen := mkSeen (List.filter (fun p => negb (stale a (fst p))) (readings g)) (lastCommand g) (cutOff g).
Definition seenNext (g : Seen) (o : ioOp) : ioAns o -> Seen :=
  match o with
  | Read16 a => fun x => noteRead a (u16 x) g
  | Read32 a => fun x => noteRead a (u32 x) g
  | Write16 a _ | Write32 a _ => fun _ => noteWrite a g
  | Command => fun x => mkSeen (readings g) (Some (u16 x)) (cutOff g)
  | WriteCommand v => fun _ => mkSeen (readings g) None (negb (flag v 4))
  | _ => fun _ => g
  end.

(** A field of a register: address, mask, value. *)
Definition fact : Type := Z * Z * Z.
Definition verified (g : Seen) (f : fact) : Prop :=
  let '(a, mask, value) := f in exists v, In (a, v) (readings g) /\ bad v = false /\ Z.land v mask = value.
Definition factAt (f : fact) : Z := fst (fst f).

(** [g'] knows what [g] does, except of the registers in [l]. *)
Definition knows (l : list Z) (g g' : Seen) : Prop :=
  (lastCommand g' = lastCommand g /\ cutOff g' = cutOff g) /\ forall f, Forall (fun a => stale a (factAt f) = false) l -> verified g f -> verified g' f.
Lemma knows_refl l g : knows l g g. Proof. split; auto. Qed.
Lemma knows_trans l l' g1 g2 g3 : knows l g1 g2 -> knows l' g2 g3 -> knows (l ++ l') g1 g3.
Proof. intros [[E1 C1] H1] [[E2 C2] H2]. split; [split; congruence|]. intros f [F1 F2]%Forall_app Hf. auto. Qed.
Lemma knows_more l l' g g' : knows l g g' -> incl l l' -> knows l' g g'.
Proof. intros [E H] Hi. split; [exact E|]. intros f Hf. apply H. apply List.Forall_forall. intros a Ha. rewrite List.Forall_forall in Hf. apply Hf, Hi, Ha. Qed.
Lemma knows_read a v g : knows [] g (noteRead a v g).
Proof. split; [split; reflexivity|]. intros [[b m] e] _ (w & Hin & H). exists w. split; [right; exact Hin|exact H]. Qed.
Lemma knows_write a g : knows [a] g (noteWrite a g).
Proof.
  split; [split; reflexivity|]. intros [[b m] e] Hf (w & Hin & H). exists w. split; [|exact H]. apply List.filter_In. split; [exact Hin|].
  inversion Hf; subst. cbn [fst factAt] in *. match goal with E : stale _ _ = false |- _ => rewrite E end. reflexivity.
Qed.
Lemma verified_read a v g m e : bad v = false -> Z.land v m = e -> verified (noteRead a v g) (a, m, e).
Proof. intros H1 H2. exists v. split; [left; reflexivity|auto]. Qed.

(** What no failure changes. *)
Record steady (s s' : PciRuntime) : Prop := {
  st_running : running_ s' = running_ s; st_idle : idle (result s') = idle (result s);
  st_master : masterOff (result s') = masterOff (result s); st_masked : irqMasked (result s') = irqMasked (result s)
}.
Lemma steady_refl s : steady s s. Proof. split; reflexivity. Qed.
Lemma steady_trans s1 s2 s3 : steady s1 s2 -> steady s2 s3 -> steady s1 s3.
Proof. intros [] []. split; congruence. Qed.
Lemma steady_failed a e v s : steady s (failed a e v s).
Proof. destruct (failed_fields a e v s) as (_ & H1 & _ & _ & H2 & H3 & H4). split; assumption. Qed.

Section watched.
Context (allow : Seen -> ioOp -> Prop).
Context (Hread : forall g o, match o with Write16 _ _ | Write32 _ _ | WriteCommand _ => True | _ => allow g o end).
Definition watching : protocol Io Seen := Protocol (Σ:=Io) allow (fun _ _ _ => True) seenNext.

(** The outcome of a checked access: on true the object is as it was. *)
Definition outcome (l : list Z) (s : PciRuntime) (g : Seen) (facts : list fact) (r : option bool) (s' : PciRuntime) (g' : Seen) : Prop :=
  exists b, r = Some b /\ knows l g g' /\ steady s s' /\ (b = true -> s' = s /\ Forall (verified g') facts).

Lemma read32_watch {S} a (s : S) g (Q : option Z -> S -> Seen -> Prop) : (forall v, Q (Some v) s (noteRead a v g)) -> wpm watching (read32 a) s g Q.
Proof. intros HQ. unfold read32. wstep. refine (wpm_call watching (Read32 a) s g _ _ _); [exact (Hread g (Read32 a))|]. intros x _. apply HQ. Qed.
Lemma read16_watch {S} a (s : S) g (Q : option Z -> S -> Seen -> Prop) : (forall v, in_u16 v -> Q (Some v) s (noteRead a v g)) -> wpm watching (read16 a) s g Q.
Proof. intros HQ. unfold read16. wstep. refine (wpm_call watching (Read16 a) s g _ _ _); [exact (Hread g (Read16 a))|]. intros x _. apply HQ, u16_range. Qed.
Lemma command_watch {S} (s : S) g (Q : option Z -> S -> Seen -> Prop) : (forall v, Q (Some v) s (mkSeen (readings g) (Some v) (cutOff g))) -> wpm watching command s g Q.
Proof. intros HQ. unfold command. wstep. refine (wpm_call watching Command s g _ _ _); [exact (Hread g Command)|]. intros x _. apply HQ. Qed.
Lemma equal_watch a m e s g : wpm watching (equal a m e) s g (outcome [] s g [(a, m, e)]).
Proof.
  unfold equal. wstep. apply read32_watch. intros v. destruct (negb (bad v) && (Z.land v m =? e)) eqn:E.
  - apply wpm_ret. exists true. split; [reflexivity|]. split; [apply knows_read|]. split; [apply steady_refl|]. intros _. split; [reflexivity|].
    apply andb_true_iff in E as [E1 E2]. apply List.Forall_cons; [|apply List.Forall_nil]. apply verified_read; [apply negb_true_iff, E1|lia].
  - apply failed_wp. exists false. split; [reflexivity|]. split; [apply knows_read|]. split; [apply steady_failed|]. discriminate.
Qed.
Lemma write_watch a v s g : allow g (Write32 a v) -> wpm watching (write a v) s g (outcome [a] s g []).
Proof.
  intros Ha. unfold write. apply wpm_orM. refine (wpm_call watching (Write32 a v) s g _ _ _); [exact Ha|]. intros ok _. cbn [next watching seenNext].
  destruct ok; [exists true|apply failed_wp; exists false]; (split; [reflexivity|]; split; [apply knows_write|]; split; [first [apply steady_refl|apply steady_failed]|]); [|discriminate].
  intros _. split; [reflexivity|apply List.Forall_nil].
Qed.
Lemma modifyReg_watch a m v s g : (forall old, allow (noteRead a old g) (Write32 a (Z.lor (Z.ldiff old m) v))) ->
  wpm watching (modifyReg a m v) s g (outcome [a] s g [(a, m, v)]).
Proof.
  intros Ha. unfold modifyReg. wstep. apply read32_watch. intros old. destruct (bad old).
  { apply failed_wp. exists false. split; [reflexivity|]. split; [apply (knows_more []); [apply knows_read|intros x []]|]. split; [apply steady_failed|discriminate]. }
  apply wpm_andM. eapply wpm_mono; [apply write_watch, Ha|]. intros r s1 g1 (b & -> & K1 & S1 & H1).
  assert (K01 : knows [a] g g1) by (apply (knows_trans [] [a] _ _ _ (knows_read a old g) K1)).
  destruct b; [|exists false; split; [reflexivity|]; split; [exact K01|]; split; [exact S1|discriminate]].
  destruct (H1 eq_refl) as [-> _]. eapply wpm_mono; [apply equal_watch|]. intros r s2 g2 (b & -> & K2 & S2 & H2).
  exists b. split; [reflexivity|]. split; [apply (knows_trans [a] [] _ _ _ K01 K2)|]. split; [exact S2|exact H2].
Qed.

(** A sweep of checked accesses. *)
Lemma sweep_watch (l : list Z) (f : Z -> D bool) (w : Z -> list Z) (facts : Z -> list fact) ok s g :
  (forall a s g, In a l -> wpm watching (f a) s g (outcome (w a) s g (facts a))) ->
  (forall a b, In a l -> In b l -> Forall (fun f => Forall (fun c => stale c (factAt f) = false) (w b)) (facts a)) ->
  wpm watching (sweep l f ok) s g (fun r s' g' => exists b, r = Some b /\ knows (concat (map w l)) g g' /\ steady s s' /\
    (b = true -> ok = true /\ s' = s /\ Forall (verified g') (concat (map facts l)))).
Proof.
  intros Hf Hw. revert ok s g. induction l as [|a l IH]; intros ok s g; cbn [sweep].
  { apply wpm_ret. exists ok. split; [reflexivity|]. split; [apply knows_refl|]. split; [apply steady_refl|]. intros ->. split; [reflexivity|]. split; [reflexivity|]. apply List.Forall_nil. }
  wstep. eapply wpm_mono; [apply Hf; left; reflexivity|]. intros r s1 g1 (b & -> & K1 & S1 & H1).
  eapply wpm_mono; [apply IH; [intros; apply Hf; right; assumption|intros; apply Hw; right; assumption]|].
  intros r s2 g2 (b2 & -> & K2 & S2 & H2). exists b2. split; [reflexivity|]. cbn [map concat]. split; [apply (knows_trans _ _ _ _ _ K1 K2)|].
  split; [apply (steady_trans _ _ _ S1 S2)|]. intros ->. destruct (H2 eq_refl) as (E & -> & F2). apply andb_true_iff in E as [-> ->].
  destruct (H1 eq_refl) as [-> F1]. split; [reflexivity|]. split; [reflexivity|]. apply List.Forall_app. split; [|exact F2].
  rewrite List.Forall_forall in *. intros f' Hf'. apply K2; [|apply F1, Hf'].
  apply List.Forall_forall. intros c Hc. apply List.in_concat in Hc as (wb & Hwb & Hc). apply List.in_map_iff in Hwb as (b' & <- & Hb').
  pose proof (Hw a b' (or_introl eq_refl) (or_intror Hb')) as HH. rewrite List.Forall_forall in HH. specialize (HH f' Hf'). rewrite List.Forall_forall in HH. apply HH, Hc.
Qed.

Definition maskFacts : list fact := map (fun a => (a, 0xffffffff, 0)) irqMasks.
Lemma mask_watch s g : (forall g a, In a irqMasks -> allow g (Write32 a 0)) ->
  wpm watching maskInterrupts s g (fun r s' g' => exists b, r = Some b /\ knows irqMasks g g' /\ irqMasked (result s') = b /\
    running_ s' = running_ s /\ idle (result s') = idle (result s) /\ masterOff (result s') = masterOff (result s) /\
    (b = true -> faulted_ s' = faulted_ s /\ Forall (verified g') maskFacts)).
Proof.
  intros Ha. unfold maskInterrupts. wstep. eapply wpm_mono.
  { apply (sweep_watch irqMasks _ (fun a => [a]) (fun _ => [])); [intros a s0 g0 Hin; apply write_watch, Ha, Hin|intros; apply List.Forall_nil]. }
  intros r s1 g1 (b1 & -> & K1 & S1 & H1). wstep. eapply wpm_mono.
  { apply (sweep_watch irqMasks _ (fun _ => []) (fun a => [(a, 0xffffffff, 0)])); [intros; apply equal_watch|intros; repeat constructor]. }
  intros r s2 g2 (b2 & -> & K2 & S2 & H2). wstep. apply wpm_modify. apply wpm_ret. exists b2. split; [reflexivity|].
  split; [apply (knows_more _ irqMasks _ _ (knows_trans _ _ _ _ _ K1 K2)); intros x Hx; exact Hx|]. split; [reflexivity|].
  pose proof (steady_trans _ _ _ S1 S2) as []. repeat (split; [assumption|]). intros ->. destruct (H2 eq_refl) as (-> & -> & F2).
  destruct (H1 eq_refl) as (_ & -> & _). split; [reflexivity|exact F2].
Qed.
Lemma setCommand_watch v s g : allow g (WriteCommand v) ->
  wpm watching (setCommand v) s g (fun r s' g' => exists b c, r = Some b /\ readings g' = readings g /\ lastCommand g' = Some c /\
    cutOff g' = negb (flag v 4) /\ steady s s' /\ (b = true -> c = v /\ s' = s)).
Proof.
  intros Hv. unfold setCommand. wstep. refine (wpm_call watching (WriteCommand v) s g _ _ _); [exact Hv|]. intros wrote _.
  wstep. apply command_watch. intros got. cbn [readings next watching seenNext].
  destruct (wrote && (got =? v)) eqn:E; [apply wpm_ret; exists true|apply failed_wp; exists false]; exists got; cbn [readings lastCommand cutOff]; do 4 (split; [reflexivity|]).
  - split; [apply steady_refl|]. intros _. apply andb_true_iff in E as [_ E]. split; [apply Z.eqb_eq, E|reflexivity].
  - split; [apply steady_failed|discriminate].
Qed.
(** A chain of comparisons. *)
Lemma and_watch l (a b : D bool) s g fa fb : wpm watching a s g (outcome l s g fa) -> (forall g1, wpm watching b s g1 (outcome [] s g1 fb)) ->
  wpm watching (a &&> b) s g (outcome l s g (fa ++ fb)).
Proof.
  intros Ha Hb. apply wpm_andM. eapply wpm_mono; [exact Ha|]. intros r s1 g1 (b1 & -> & K1 & S1 & H1).
  destruct b1; [|exists false; split; [reflexivity|]; split; [exact K1|]; split; [exact S1|discriminate]]. destruct (H1 eq_refl) as [-> F1].
  eapply wpm_mono; [apply Hb|]. intros r s2 g2 (b2 & -> & K2 & S2 & H2). exists b2. split; [reflexivity|].
  split; [apply (knows_more (l ++ [])); [exact (knows_trans _ _ _ _ _ K1 K2)|rewrite app_nil_r; intros x Hx; exact Hx]|]. split; [exact S2|].
  intros E. destruct (H2 E) as [-> F2]. split; [reflexivity|]. apply List.Forall_app. split; [|exact F2].
  eapply List.Forall_impl; [|exact F1]. intros f Hf. apply K2; [apply List.Forall_nil|exact Hf].
Qed.
End watched.

(** ** Stopping *)

Definition busyFact : fact := (0x101c, runtimeBusyMask, 0).
Definition quietFacts : list fact :=
  maskFacts ++ [(0x1000, 0x2800, 0); (0x1010, runtimeStopMask, runtimeStopMask); busyFact].
(** Stopping opens nothing: it masks, closes channels, clears bus mastering. *)
Definition stopAllow (g : Seen) (o : ioOp) : Prop :=
  match o with
  | Write32 a v => (In a irqMasks /\ v = 0) \/ (a = 0x1000 /\ Z.land v 0x2800 = 0) \/
                   (a = 0x1010 /\ Z.land v runtimeStopMask = runtimeStopMask)
  | Write16 _ _ => False
  | WriteCommand v => flag v 4 = false
  | _ => True
  end.
Definition stopping : protocol Io Seen := watching stopAllow.
Definition newSeen : Seen := mkSeen [] None false.

Lemma stopAllow_read g o : match o with Write16 _ _ | Write32 _ _ | WriteCommand _ => True | _ => stopAllow g o end.
Proof. destruct o; exact I. Qed.
Lemma stopAllow_mask g a : In a irqMasks -> stopAllow g (Write32 a 0).
Proof. intros H. left. auto. Qed.

(** The flags of the result are only as good as the readings. *)
Record Quiet (s : PciRuntime) (g : Seen) : Prop := {
  q_running : running_ s = false;
  q_idle : idle (result s) = true -> verified g busyFact
}.
Lemma quiet_steady l s s' g g' : Quiet s g -> steady s s' -> knows l g g' -> Forall (fun a => stale a 0x101c = false) l -> Quiet s' g'.
Proof.
  intros [H1 H2] [] [_ K] Hl. split; [congruence|]. intros Hi. apply K; [exact Hl|]. apply H2. congruence.
Qed.
Lemma awaitIdle_watch n b p s g (Q : option unit -> PciRuntime -> Seen -> Prop) : Quiet s g ->
  (forall s' g', Quiet s' g' -> Q (Some tt) s' g') -> wpm stopping (awaitIdle n b p) s g Q.
Proof.
  intros HI HQ. revert p s g HI. induction n as [|n IH]; intros p s g HI; cbn [awaitIdle]; [apply wpm_ret, HQ, HI|].
  unfold idleTurn, nowUs. do 3 wstep. refine (wpm_call stopping NowUs s g _ _ _); [exact I|]. intros x _. apply wpm_ret. cbn beta iota.
  destruct (_ || _); [do 2 apply wpm_ret; apply HQ, HI|]. wstep. apply (read32_watch _ stopAllow_read). intros busy.
  wstep. apply wpm_modify. cbn beta iota. destruct HI as [H1 H2].
  assert (HI' : Quiet (s <| result := (result s) <| lastBusy := busy |> <| polls := u32 (polls (result s) + 1) |> |>) (noteRead 0x101c busy g)).
  { split; [exact H1|]. intros Hi. apply knows_read; [apply List.Forall_nil|apply H2, Hi]. }
  destruct (bad busy) eqn:Eb; [do 2 apply wpm_ret; apply HQ, HI'|]. destruct (Z.eqb_spec (Z.land busy runtimeBusyMask) 0) as [E|E].
  - wstep. apply wpm_modify. do 2 apply wpm_ret. apply HQ. split; [exact H1|]. intros _. apply verified_read; assumption.
  - wstep. refine (wpm_call stopping (PauseUs 50) _ _ _ _ _); [exact I|]. intros [] _. apply wpm_ret. apply IH, HI'.
Qed.

(** The bits of the values written. *)
Lemma ldiff_lor_mask old m v : Z.land v m = v -> Z.land (Z.lor (Z.ldiff old m) v) m = v.
Proof.
  intros H. rewrite <- H at 2. apply Z.bits_inj'. intros i Hi. rewrite !Z.land_spec, Z.lor_spec, Z.ldiff_spec.
  destruct (Z.testbit old i), (Z.testbit m i), (Z.testbit v i); reflexivity.
Qed.
Lemma ldiff_flag c k : flag (u16 (Z.ldiff c k)) k = false.
Proof.
  unfold flag. apply negb_false_iff, Z.eqb_eq. apply Z.bits_inj'. intros i Hi. unfold u16. rewrite Z.land_spec, Z.bits_0.
  change 65536 with (2 ^ 16). destruct (Z_lt_le_dec i 16); [rewrite Z.mod_pow2_bits_low, Z.ldiff_spec by lia|rewrite Z.mod_pow2_bits_high by lia; reflexivity].
  destruct (Z.testbit c i), (Z.testbit k i); reflexivity.
Qed.

(** What [stop] has established, whatever the device answered. *)
Record Halted (b : bool) (s : PciRuntime) (g : Seen) : Prop := {
  h_running : running_ s = false;
  h_stopped : stopped (result s) = b;
  h_faulted : b = false -> faulted_ s = true;
  h_cut : cutOff g = true \/ lastCommand g = Some 0xffff;
  h_quiet : b = true -> Forall (verified g) quietFacts /\ exists c, lastCommand g = Some c /\ flag c 4 = false
}.

(** The state before the final checks: the wait and the command are done. *)
Record Cut (s : PciRuntime) (g : Seen) : Prop := {
  c_quiet : Quiet s g;
  c_cut : cutOff g = true \/ lastCommand g = Some 0xffff;
  c_master : masterOff (result s) = true -> exists c, lastCommand g = Some c /\ flag c 4 = false
}.
Lemma cut_steady l s s' g g' : Cut s g -> steady s s' -> knows l g g' -> Forall (fun a => stale a 0x101c = false) l -> Cut s' g'.
Proof.
  intros [H1 H2 H3] Hs K Hl. split; [apply (quiet_steady l s s' g g'); assumption| |]; destruct K as [[E1 E2] _]; rewrite E1, ?E2; [exact H2|].
  intros Hm. apply H3. rewrite <- (st_master _ _ Hs). exact Hm.
Qed.

Lemma quiet_readings s s' g g' : Quiet s g -> steady s s' -> readings g' = readings g -> Quiet s' g'.
Proof.
  intros [H1 H2] [E1 E2 _ _] E. split; [congruence|]. intros Hi. rewrite E2 in Hi. destruct (H2 Hi) as (v & Hv). exists v. rewrite E. exact Hv.
Qed.
Lemma cutMaster_watch s g (Q : option unit -> PciRuntime -> Seen -> Prop) : Quiet s g ->
  (forall s' g', Cut s' g' -> Q (Some tt) s' g') -> wpm stopping cutMaster s g Q.
Proof.
  intros HI HQ. unfold cutMaster. wstep. apply (command_watch _ stopAllow_read). intros cmd. wstep.
  assert (HI0 : Quiet s (mkSeen (readings g) (Some cmd) (cutOff g))) by (apply (quiet_readings s s g); [exact HI|apply steady_refl|reflexivity]).
  destruct (Z.eqb_spec cmd 0xffff) as [->|_].
  - apply wpm_ret, wpm_modify, HQ. destruct HI0 as [Q1 Q2]. split; [split; [exact Q1|exact Q2]|right; reflexivity|discriminate].
  - apply wpm_andM. eapply wpm_mono; [apply (setCommand_watch _ stopAllow_read), ldiff_flag|]. intros r s1 g1 (b & c & -> & Er & El & Ec & Hst & _). rewrite ldiff_flag in Ec.
    assert (HI1 : Quiet s1 g1) by (apply (quiet_readings s s1 g); [exact HI|exact Hst|exact Er]). destruct b.
    + wstep. apply (command_watch _ stopAllow_read). intros c2. apply wpm_ret, wpm_modify, HQ. destruct HI1 as [Q1 Q2]. split; [split; [exact Q1|exact Q2]|left; exact Ec|].
      intros Hm. exists c2. split; [reflexivity|]. apply negb_true_iff, Hm.
    + apply wpm_modify, HQ. destruct HI1 as [Q1 Q2]. split; [split; [exact Q1|exact Q2]|left; exact Ec|discriminate].
Qed.

(** The final checks; [ok0] is how the first steps went. *)
Lemma finish_watch ok0 s g : Cut s g ->
  wpm stopping (finish ok0) s g (fun r s' g' => exists b, r = Some b /\ Halted b s' g').
Proof.
  intros HC. unfold finish. wstep.
  apply (wpm_mono _ _ _ _ (fun r s' g' => exists b, r = Some b /\ Cut s' g' /\
    (b = true -> Forall (verified g') [(0x1000, 0x2800, 0); (0x1010, runtimeStopMask, runtimeStopMask)]))).
  { apply wpm_andM. eapply wpm_mono; [apply (equal_watch _ stopAllow_read)|]. intros r s1 g1 (b1 & -> & K1 & S1 & H1).
    pose proof (cut_steady _ _ _ _ _ HC S1 K1 (List.Forall_nil _)) as HC1. destruct b1; [|exists false; split; [reflexivity|]; split; [exact HC1|discriminate]].
    eapply wpm_mono; [apply (equal_watch _ stopAllow_read)|]. intros r s2 g2 (b2 & -> & K2 & S2 & H2). exists b2. split; [reflexivity|].
    split; [exact (cut_steady _ _ _ _ _ HC1 S2 K2 (List.Forall_nil _))|]. intros Hb. destruct (H1 eq_refl) as [_ F1], (H2 Hb) as [_ F2].
    apply List.Forall_cons; [|exact F2]. apply K2; [apply List.Forall_nil|]. inversion F1; assumption. }
  intros r s1 g1 (checked & -> & HC1 & Hch). wstep. eapply wpm_mono; [apply (mask_watch _ stopAllow_read), stopAllow_mask|].
  intros r s2 g2 (masked & -> & K2 & Em & Er & Ei & Emo & HM). wstep. apply wpm_modify. wstep. apply wpm_get. cbn beta iota.
  assert (HC2 : Cut s2 g2).
  { destruct HC1 as [[Q1 Q2] C1 C2], K2 as [[E1 E2] K2]. split; [split|..].
    - congruence.
    - intros Hi. apply K2; [repeat constructor|apply Q2; congruence].
    - rewrite E1, E2. exact C1.
    - rewrite E1. intros Hm. apply C2. congruence. }
  destruct HC2 as [[Q1 Q2] C1 C2]. set (b := _ && _). set (s3 := s2 <| result := _ |>).
  change (stopped (result s3)) with b. wstep. eapply wpm_mono with (Q := fun r s' g' => r = Some tt /\ g' = g2 /\ running_ s' = false /\ stopped (result s') = b /\ (b = false -> faulted_ s' = true)).
  { destruct b eqn:Eb; [apply wpm_ret|apply wpm_modify]; (split; [reflexivity|]; split; [reflexivity|]; split; [exact Q1|]; split; [reflexivity|]); [discriminate|reflexivity]. }
  intros r s4 g4 (-> & -> & R4 & S4 & F4). apply wpm_ret. exists b. split; [reflexivity|]. split; [exact R4|exact S4|exact F4|exact C1|].
  intros Hb. unfold b in Hb. rewrite !andb_true_iff in Hb. destruct Hb as [[[[Hm [Hck _]] Hi] Hmo] _]. split; [|apply C2, Hmo].
  destruct (HM Hm) as [_ FM]. unfold quietFacts. apply List.Forall_app. split; [exact FM|].
  specialize (Hch Hck). apply (List.Forall_app _ [_; _] [_]). split; [|apply List.Forall_cons; [apply Q2, Hi|apply List.Forall_nil]].
  rewrite List.Forall_forall in *. intros f Hf. apply K2; [|apply Hch, Hf]. destruct Hf as [<-|[<-|[]]]; repeat constructor.
Qed.
Lemma stop_watch s g : wpm stopping stop s g (fun r s' g' => exists b, r = Some b /\ Halted b s' g').
Proof.
  unfold stop. wstep. apply wpm_modify. wstep. apply wpm_modify. wstep.
  eapply wpm_mono; [apply (mask_watch _ stopAllow_read), stopAllow_mask|]. intros r s1 g1 (b1 & -> & _ & _ & R1 & _). change (running_ s1 = false) in R1.
  wstep. eapply wpm_mono; [apply (modifyReg_watch _ stopAllow_read)|].
  { intros old. right. left. split; [reflexivity|]. apply ldiff_lor_mask. reflexivity. }
  intros r s2 g2 (hci & -> & _ & [R2 _ _ _] & _). wstep. eapply wpm_mono; [apply (modifyReg_watch _ stopAllow_read)|].
  { intros old. right. right. split; [reflexivity|]. apply ldiff_lor_mask. reflexivity. }
  intros r s3 g3 (channels & -> & _ & [R3 _ _ _] & _). cbv zeta. wstep. unfold nowUs at 1. wstep.
  refine (wpm_call stopping NowUs s3 g3 _ _ _); [exact I|]. intros x _. apply wpm_ret. cbn beta iota. wstep. apply wpm_modify. wstep.
  apply awaitIdle_watch; [split; [change (running_ s3 = false); congruence|discriminate]|]. intros s4 g4 HI. wstep.
  apply cutMaster_watch; [exact HI|]. intros s5 g5 HC. apply finish_watch, HC.
Qed.

(** Every wait is bounded. *)
#[local] Hint Extern 1 (mcost (iocall ?o) _) => refine (@mcost_call Io PciRuntime o) : cost.
Lemma fail_cost a e v : mcost (fail a e v) 0.
Proof. unfold fail. eapply mcost_le; [mcost|]; lia. Qed.
#[local] Hint Resolve fail_cost : cost.
Lemma equal_cost a m e : mcost (equal a m e) 1.
Proof. unfold equal, read32. eapply mcost_le; [mcost|]; lia. Qed.
Lemma write_cost a v : mcost (write a v) 1.
Proof. unfold write. eapply mcost_le; [mcost|]; lia. Qed.
#[local] Hint Resolve equal_cost write_cost : cost.
Lemma modifyReg_cost a m v : mcost (modifyReg a m v) 3.
Proof. unfold modifyReg, read32. eapply mcost_le; [mcost|]; lia. Qed.
Lemma sweep_cost l f ok n : (forall a, mcost (f a) n) -> mcost (sweep l f ok) (zlen l * n).
Proof.
  intros Hf. revert ok. induction l as [|a l IH]; intros ok; cbn [sweep]; [apply mcost_ret|].
  eapply mcost_le; [apply mcost_bind; [apply Hf|intros x; apply IH|]|]; pose proof (zlen_nonneg l); pose proof (proj1 (Hf a)); [nia|].
  unfold zlen in *. cbn [length]. lia.
Qed.
Lemma maskInterrupts_cost : mcost maskInterrupts 6.
Proof.
  unfold maskInterrupts, onResult. eapply mcost_le; [|instantiate (1 := 3 * 1 + (3 * 1 + 0)); lia].
  apply mcost_bind; [apply (sweep_cost irqMasks _ _ 1); intros; apply write_cost|intros ok|lia].
  apply mcost_bind; [apply (sweep_cost irqMasks _ _ 1); intros; apply equal_cost|intros ok'|lia]. eapply mcost_le; [mcost|]; lia.
Qed.
#[local] Hint Resolve modifyReg_cost maskInterrupts_cost : cost.
Lemma awaitIdle_cost n b p : mcost (awaitIdle n b p) (3 * Z.of_nat n).
Proof.
  revert p. induction n as [|n IH]; intros p; cbn [awaitIdle]; [apply mcost_ret|].
  eapply mcost_le; [apply (mcost_bind _ _ 3 (3 * Z.of_nat n)); [|intros [now|]; [apply IH|eapply mcost_le; [apply mcost_ret|lia]]|lia]|lia].
  unfold idleTurn, nowUs, read32, onResult. eapply mcost_le; [mcost|]; lia.
Qed.
Lemma idle_wait_cost b p : mcost (awaitIdle 201 b p) 603.
Proof. exact (awaitIdle_cost 201 b p). Qed.
#[local] Hint Resolve idle_wait_cost : cost.
Lemma stop_cost : mcost stop 628.
Proof.
  eapply mcost_le; [unfold stop, cutMaster, finish, setCommand, nowUs, command, onResult; mcost|]; lia.
Qed.

(** C31: [stop] opens nothing, makes at most 628 calls, and always leaves the data
    path not running with bus mastering cut off or the device gone.  It answers
    true only when every mask reads zero, both DMA controls read closed, the
    channels were read idle after they had been closed, and the last command
    read has the bus-master bit clear; otherwise the object is faulted. *)
Theorem stop_halts s tr r s' : exec (stop s) tr (r, s') ->
  accepts stopping newSeen tr /\ zlen tr <= 628 /\ exists b, r = Some b /\ Halted b s' (after stopping newSeen tr).
Proof.
  intros He. destruct (wp_sound stopping _ _ _ _ _ (stop_watch s newSeen) He) as [H1 H2]; [apply relies_trivial; intros; exact I|].
  split; [exact H1|]. split; [exact (proj2 stop_cost s tr _ He)|exact H2].
Qed.

(** ** Starting *)

Definition baseFacts : list fact :=
  maskFacts ++ [(0x1000, 0x2808, 0); (0x1010, runtimeStopMask, runtimeStopMask); busyFact; (0x8380, 3, 3);
                (0x8400, 0x60000000, 0x60000000); (0xc000, 0x40000000, 0x40000000); (0x1e0, 0xe0, 0xe0)].
Definition ringFacts (rings : list RingMemory) (i : Z) : list fact :=
  let r := regsOf i in
  [(rr_low r, 0xffffffff, u32 (address (ringOf rings i))); (rr_high r, 0xffffffff, 0); (rr_count r, 0xfff, 64); (rr_index r, 0x0fff0fff, 0)].
(** The registers of the first [n] rings. *)
Definition ringsFacts (rings : list RingMemory) (n : Z) : list fact := concat (map (ringFacts rings) (seqZ 0 n)).

(** 512 bytes of 32-bit memory of its own for every ring. *)
Definition laidOutAt (rings : list RingMemory) (i : Z) : Prop :=
  let m := ringOf rings i in
  count m = 64 /\ Z.land (address m) 7 = 0 /\ address m + 512 <= 2 ^ 32 /\
  forall j, 0 <= j < i -> address m + 512 <= address (ringOf rings j) \/ address (ringOf rings j) + 512 <= address m.

(** Bus mastering was read back on. *)
Definition mastered (g : Seen) : Prop := exists c, lastCommand g = Some c /\ flag c 4 = true.
(** Nothing is opened before everything has been read back: bus mastering
    first, then the channels, then the DMA engine. *)
Definition startAllow (rings : list RingMemory) (g : Seen) (o : ioOp) : Prop :=
  match o with
  | WriteCommand _ => Forall (verified g) (baseFacts ++ ringsFacts rings 9) /\ forall i, 0 <= i < 9 -> laidOutAt rings i
  | Write32 a v => (In a irqMasks /\ v = 0) \/ In a irqStatus \/
                   (mastered g /\ (a = 0x1010 \/ (a = 0x1000 /\ verified g (0x1010, runtimeStopMask, 0))))
  | Write16 _ _ => False
  | _ => True
  end.
Definition starting (rings : list RingMemory) : protocol Io Seen := watching (startAllow rings).

Section start.
Context (rings : list RingMemory) (Hrings : forall i, 0 <= i < 9 -> 0 <= address (ringOf rings i)).
Lemma startAllow_read g o : match o with Write16 _ _ | Write32 _ _ | WriteCommand _ => True | _ => startAllow rings g o end.
Proof. destruct o; exact I. Qed.

(** A [return fail(...)]. *)
Lemma refuse_watch a e v s g (Q : option unit -> PciRuntime -> Seen -> Prop) :
  (forall s', steady s s' -> Q None s' g) -> wpm (starting rings) (refuse a e v) s g Q.
Proof. intros HQ. apply HQ, steady_failed. Qed.

Definition ended (s : PciRuntime) (g : Seen) (P : PciRuntime -> Seen -> Prop) (r : option unit) (s' : PciRuntime) (g' : Seen) : Prop :=
  match r with Some _ => P s' g' | None => running_ s' = running_ s end.

(** What no success changes. *)
Definition intact (s s' : PciRuntime) : Prop := steady s s' /\ faulted_ s' = faulted_ s.
Lemma intact_refl s : intact s s. Proof. split; [apply steady_refl|reflexivity]. Qed.
Lemma intact_trans s1 s2 s3 : intact s1 s2 -> intact s2 s3 -> intact s1 s3.
Proof. intros [S1 F1] [S2 F2]. split; [apply (steady_trans _ _ _ S1 S2)|congruence]. Qed.
Lemma overlaps_apart a b : 0 <= a -> 0 <= b -> a + 512 <= 2 ^ 32 -> b + 512 <= 2 ^ 32 -> overlaps a b = false -> a + 512 <= b \/ b + 512 <= a.
Proof.
  intros Ha Hb La Lb. unfold overlaps. rewrite !u64_small by (unfold in_u64; lia). lia.
Qed.
Lemma checkRing_watch i s g : 0 <= i < 9 -> (forall j, 0 <= j < i -> laidOutAt rings j) ->
  wpm (starting rings) (checkRing rings i) s g (ended s g (fun s' g' => intact s s' /\ knows [] g g' /\ laidOutAt rings i /\ Forall (verified g') (ringFacts rings i))).
Proof.
  intros Hi Hbefore. unfold checkRing. set (m := ringOf rings i). set (r := regsOf i). cbv zeta. wstep.
  destruct (negb (count m =? 64) || flag (address m) 7 || negb (dma32Range (address m) 512)) eqn:E1; cbn [when].
  { apply refuse_watch. intros s' Hs. apply (st_running _ _ Hs). }
  rewrite !orb_false_iff, !negb_false_iff in E1. destruct E1 as [[E1 E2] E3]. apply wpm_ret. wstep.
  destruct (existsb _ _) eqn:E4; cbn [when]; [apply refuse_watch; intros s' Hs; apply (st_running _ _ Hs)|]. apply wpm_ret. wstep.
  assert (HL : laidOutAt rings i).
  { pose proof (Hrings i Hi) as Ha. fold m in Ha. destruct (dma32Range_spec _ 512 Ha ltac:(lia) E3) as [_ E5]. unfold laidOutAt. cbv zeta. fold m. split; [lia|]. split; [unfold flag in E2; apply negb_false_iff in E2; lia|].
    split; [change (2 ^ 32) with 4294967296; lia|]. intros j Hj. destruct (Hbefore j Hj) as (_ & _ & Hj3 & _).
    apply overlaps_apart; [exact Ha|apply Hrings; lia|change (2 ^ 32) with 4294967296; fold m; lia|exact Hj3|].
    destruct (overlaps (address (ringOf rings i)) (address (ringOf rings j))) eqn:Eo; [|exact Eo].
    assert (Hex : existsb (fun j => overlaps (address m) (address (ringOf rings j))) (seqZ 0 i) = true); [|congruence].
    apply List.existsb_exists. exists j. split; [apply list_elem_of_In, elem_of_seqZ; lia|exact Eo]. }
  eapply wpm_mono.
  { apply (and_watch _ []); [apply (equal_watch _ startAllow_read)|]. intros g1. apply (and_watch _ []); [apply (equal_watch _ startAllow_read)|]. intros g2.
    apply (and_watch _ [] _ _ _ _ [(rr_count r, 0xfff, 64)]); [|intros g3; apply (equal_watch _ startAllow_read)].
    wstep. apply (read16_watch _ startAllow_read). intros v Hu. apply wpm_ret. eexists. split; [reflexivity|]. split; [apply knows_read|].
    split; [apply steady_refl|]. intros Hv. split; [reflexivity|]. apply List.Forall_cons; [|apply List.Forall_nil]. apply verified_read; [|lia].
    unfold bad, in_u16 in *. lia. }
  intros r0 s1 g1 (b & -> & K & Hs & HB). wstep. destruct b; cbn [unless].
  - destruct (HB eq_refl) as [-> HF]. apply wpm_ret, wpm_modify. split; [split; [split; reflexivity|reflexivity]|]. split; [exact K|]. split; [exact HL|exact HF].
  - wstep. apply (read16_watch _ startAllow_read). intros v _. apply refuse_watch. intros s' Hs'. apply (st_running _ _ (steady_trans _ _ _ Hs Hs')).
Qed.

Lemma ringsFacts_next n : 0 <= n -> ringsFacts rings (n + 1) = ringsFacts rings n ++ ringFacts rings n.
Proof. intros Hn. unfold ringsFacts. rewrite seqZ_app, map_app, concat_app by lia. change (seqZ (0 + n) 1) with [0 + (0 + n)]. cbn [map concat]. rewrite !Z.add_0_l, app_nil_r. reflexivity. Qed.
Definition ringsChecked (n : Z) (s0 s : PciRuntime) (g : Seen) : Prop :=
  intact s0 s /\ (forall i, 0 <= i < n -> laidOutAt rings i) /\ Forall (verified g) (baseFacts ++ ringsFacts rings n).
Lemma checkRings_watch s g : Forall (verified g) baseFacts ->
  wpm (starting rings) (for_each 0 9 (checkRing rings)) s g (ended s g (ringsChecked 9 s)).
Proof.
  intros H0. apply (wpm_for_each _ (fun j s' g' => ringsChecked j s s' g')); [lia| |intros j s1 g1 Hj (S1 & L1 & F1)|intros s1 g1 H; exact H].
  - split; [apply intact_refl|]. split; [lia|]. change (ringsFacts rings 0) with (@nil fact). rewrite app_nil_r. exact H0.
  - eapply wpm_mono; [apply checkRing_watch; [exact Hj|exact L1]|]. intros [[]|] s2 g2 H; cbn [ended] in *; [|rewrite H; apply (st_running _ _ (proj1 S1))].
    destruct H as (S2 & K2 & L2 & F2). split; [apply (intact_trans _ _ _ S1 S2)|]. split.
    + intros i Hi. destruct (Z.eq_dec i j) as [->|]; [exact L2|apply L1; lia].
    + rewrite ringsFacts_next by lia. rewrite app_assoc. apply List.Forall_app. split; [|exact F2].
      eapply List.Forall_impl; [|exact F1]. intros f Hf. apply K2; [apply List.Forall_nil|exact Hf].
Qed.

(** Clearing a cause disturbs no reading. *)
Lemma causes_apart : Forall (fun f => Forall (fun a => stale a (factAt f) = false) irqStatus) (baseFacts ++ ringsFacts rings 9).
Proof.
  assert (H : Forall (fun b => Forall (fun a => stale a b = false) irqStatus) (map factAt (baseFacts ++ ringsFacts rings 9)));
    [|apply List.Forall_map in H; exact H].
  assert (E : map factAt (baseFacts ++ ringsFacts rings 9) = map factAt (baseFacts ++ ringsFacts [] 9)) by (rewrite !map_app; reflexivity).
  rewrite E. clear. apply List.Forall_forall. intros b Hb. apply List.Forall_forall. intros a Ha.
  assert (Hall : forallb (fun b => forallb (fun a => negb (stale a b)) irqStatus) (map factAt (baseFacts ++ ringsFacts [] 9)) = true) by (vm_compute; reflexivity).
  rewrite List.forallb_forall in Hall. specialize (Hall b Hb). rewrite List.forallb_forall in Hall. apply negb_true_iff, Hall, Ha.
Qed.
Lemma clearCause_watch i s g : 0 <= i < 3 -> ringsChecked 9 s s g ->
  wpm (starting rings) (clearCause i) s g (ended s g (ringsChecked 9 s)).
Proof.
  intros Hi (_ & L & F). unfold clearCause. wstep. apply (read32_watch _ startAllow_read). intros v. wstep.
  destruct (bad v); cbn [when]; [apply refuse_watch; intros s' Hs; apply (st_running _ _ Hs)|]. apply wpm_ret.
  assert (Hin : In (irqStat i) irqStatus) by (z_cases i 0 3; cbn; auto).
  assert (F1 : Forall (verified (noteRead (irqStat i) v g)) (baseFacts ++ ringsFacts rings 9)).
  { eapply List.Forall_impl; [|exact F]. intros f Hf. apply knows_read; [apply List.Forall_nil|exact Hf]. }
  unfold unless. destruct (_ =? 0); [apply wpm_ret; split; [apply intact_refl|]; split; assumption|].
  apply wpm_must. eapply wpm_mono; [apply write_watch; right; left; exact Hin|]. intros r s1 g1 (b & -> & K & Hs & HB).
  destruct b; cbn [ended]; [|apply (st_running _ _ Hs)]. split; [destruct (HB eq_refl) as [-> _]; apply intact_refl|]. split; [exact L|].
  rewrite List.Forall_forall in *. intros f Hf. apply K; [|apply F1, Hf]. apply List.Forall_cons; [|apply List.Forall_nil].
  pose proof causes_apart as Hc. rewrite List.Forall_forall in Hc. specialize (Hc f Hf). rewrite List.Forall_forall in Hc. apply Hc, Hin.
Qed.
Lemma ringsChecked_base n s0 s1 s2 g : intact s0 s1 -> ringsChecked n s1 s2 g -> ringsChecked n s0 s2 g.
Proof. intros H (S & R). split; [apply (intact_trans _ _ _ H S)|exact R]. Qed.
Lemma clearCauses_watch s g : ringsChecked 9 s s g ->
  wpm (starting rings) (for_each 0 3 clearCause) s g (ended s g (ringsChecked 9 s)).
Proof.
  intros H0. apply (wpm_for_each _ (fun j s' g' => ringsChecked 9 s s' g')); [lia|exact H0| |intros s1 g1 H; exact H].
  intros j s1 g1 Hj (S1 & R1). eapply wpm_mono; [apply clearCause_watch; [exact Hj|split; [apply intact_refl|exact R1]]|].
  intros [[]|] s2 g2 H; cbn [ended] in *; [apply (ringsChecked_base _ _ _ _ _ S1 H)|rewrite H; apply (st_running _ _ (proj1 S1))].
Qed.

(** Everything read back before anything is opened. *)
Lemma base_watch s g :
  wpm (starting rings) (must (maskInterrupts &&> equal 0x1000 0x2808 0 &&>
        equal 0x1010 runtimeStopMask runtimeStopMask &&> equal 0x101c runtimeBusyMask 0 &&>
        equal 0x8380 3 3 &&> equal 0x8400 0x60000000 0x60000000 &&>
        equal 0xc000 0x40000000 0x40000000 &&> equal 0x1e0 0xe0 0xe0)) s g
    (ended s g (fun s' g' => running_ s' = running_ s /\ faulted_ s' = faulted_ s /\ Forall (verified g') baseFacts)).
Proof.
  apply wpm_must, wpm_andM. eapply wpm_mono; [apply (mask_watch _ startAllow_read); intros g0 a Ha; left; auto|].
  intros r s1 g1 (b & -> & _ & _ & Er & _ & _ & HM). destruct b; [|exact Er]. destruct (HM eq_refl) as [Ef FM].
  eapply wpm_mono.
  { do 6 (apply (and_watch _ []); [apply (equal_watch _ startAllow_read)|intros ?g]). apply (equal_watch _ startAllow_read). }
  intros r s2 g2 (b & -> & K & Hs & HB). destruct b; cbn [ended]; [|rewrite <- Er; apply (st_running _ _ Hs)].
  destruct (HB eq_refl) as [-> F]. split; [exact Er|]. split; [exact Ef|]. unfold baseFacts. apply List.Forall_app. split; [|exact F].
  eapply List.Forall_impl; [|exact FM]. intros f Hf. apply K; [apply List.Forall_nil|exact Hf].
Qed.

Lemma command_flag cmd : flag (u16 (Z.lor cmd 0x404)) 4 = true.
Proof.
  change 4 with (u64 (Z.shiftl 1 2)). rewrite flag_bit by lia. unfold u16. rewrite Z.mod_pow2_bits_low, Z.lor_spec by lia. apply orb_true_r.
Qed.
(** Bus mastering, then the channels, then the engine. *)
Definition Started (g : Seen) : Prop := mastered g /\ verified g (0x1010, runtimeStopMask, 0) /\ verified g (0x1000, 0x2800, 0x2800).
Lemma mastered_knows l g g' : knows l g g' -> mastered g -> mastered g'.
Proof. intros [[E _] _] (c & Hc & Hf). exists c. split; [congruence|exact Hf]. Qed.
Lemma open_watch s g : mastered g ->
  wpm (starting rings) (must (modifyReg 0x1010 runtimeStopMask 0 &&> modifyReg 0x1000 0x2800 0x2800)) s g
    (ended s g (fun s' g' => s' = s /\ Started g')).
Proof.
  intros Hm. apply wpm_must, wpm_andM. eapply wpm_mono; [apply (modifyReg_watch _ startAllow_read)|].
  { intros old. right. right. split; [exact Hm|left; reflexivity]. }
  intros r s1 g1 (b & -> & K1 & Hs & HB). destruct b; [|apply (st_running _ _ Hs)]. destruct (HB eq_refl) as [-> F1].
  pose proof (mastered_knows _ _ _ K1 Hm) as Hm1. inversion F1 as [|? ? F1' _]; subst.
  eapply wpm_mono; [apply (modifyReg_watch _ startAllow_read)|].
  { intros old. right. right. split; [exact Hm1|right; split; [reflexivity|]]. apply knows_read; [apply List.Forall_nil|exact F1']. }
  intros r s2 g2 (b & -> & K2 & Hs2 & HB2). destruct b; cbn [ended]; [|apply (st_running _ _ Hs2)]. destruct (HB2 eq_refl) as [-> F2].
  split; [reflexivity|]. split; [apply (mastered_knows _ _ _ K2 Hm1)|]. inversion F2; subst. split; [|assumption].
  apply K2; [repeat constructor|exact F1'].
Qed.

Lemma start_watch s g :
  wpm (starting rings) (start rings) s g (fun r s' g' =>
    (r = Some true /\ running s' = true /\ Started g') \/ (r = Some false /\ running_ s' = running_ s)).
Proof.
  unfold start. wstep. apply wpm_get. cbn beta iota. destruct (attempted_ s || faulted_ s) eqn:E0; [apply wpm_ret; right; auto|].
  apply orb_false_iff in E0 as [_ E0]. apply wpm_succeeds.
  apply (wpm_mono _ _ _ _ (fun r s' g' => match r with Some _ => running s' = true /\ Started g' | None => running_ s' = running_ s end));
    [|intros [[]|] s' g' H; [left|right]; auto].
  wstep. apply wpm_modify. wstep. apply (command_watch _ startAllow_read). intros c. wstep. unfold unless.
  destruct (Z.land c 6 =? 2); [apply wpm_ret|wstep; apply (command_watch _ startAllow_read); intros c2; apply refuse_watch; intros s' Hs; apply (st_running _ _ Hs)].
  wstep. eapply wpm_mono; [apply base_watch|]. intros [[]|] s1 g1 H; cbn [ended] in H; [|exact H]. destruct H as (R1 & F1 & B1).
  wstep. eapply wpm_mono; [apply checkRings_watch, B1|]. intros [[]|] s2 g2 H; cbn [ended] in H; [|rewrite H; exact R1]. destruct H as ([S2 F2] & C2).
  wstep. eapply wpm_mono; [apply clearCauses_watch; split; [apply intact_refl|exact C2]|]. intros [[]|] s3 g3 H; cbn [ended] in H; [|rewrite H, (st_running _ _ S2); exact R1].
  destruct H as ([S3 F3] & L3 & V3). assert (R3 : running_ s3 = running_ s) by (rewrite (st_running _ _ S3), (st_running _ _ S2); exact R1).
  wstep. refine (wpm_call (starting rings) Barrier s3 g3 _ _ _); [exact I|]. intros [] _. wstep. apply (command_watch _ startAllow_read). intros cmd. wstep.
  destruct (cmd =? 0xffff); cbn [when]; [apply refuse_watch; intros s' Hs; rewrite (st_running _ _ Hs); exact R3|]. apply wpm_ret. wstep. apply wpm_must.
  eapply wpm_mono; [apply (setCommand_watch _ startAllow_read); split; [exact V3|exact L3]|]. intros r s4 g4 (b & v & -> & _ & El & _ & S4 & Hv).
  destruct b; [|rewrite (st_running _ _ S4); exact R3]. destruct (Hv eq_refl) as [-> ->]. wstep. apply wpm_modify. wstep.
  eapply wpm_mono; [apply open_watch; exists (u16 (Z.lor cmd 0x404)); split; [exact El|apply command_flag]|].
  intros [[]|] s5 g5 H; cbn [ended] in H; [|rewrite H; exact R3]. destruct H as [-> H]. apply wpm_modify. split; [|exact H].
  unfold running. change (true && negb (faulted_ s3) = true). rewrite F3, F2, F1. change (faulted_ (s <| attempted_ := true |>)) with (faulted_ s). rewrite E0. reflexivity.
Qed.
End start.

(** C30: [start] opens the path only after every register it depends on has been
    read back - masks zero, DMA closed and idle, the blocks ready, all nine
    rings laid out apart in 32-bit memory and programmed with their indices
    zero - and then in order: bus mastering, the channels, the DMA engine, each
    read back.  It answers true exactly when the path runs. *)
Theorem start_opens rings s tr r s' : (forall i, 0 <= i < 9 -> 0 <= address (ringOf rings i)) -> running_ s = false ->
  exec (start rings s) tr (r, s') ->
  accepts (starting rings) newSeen tr /\
  (r = Some true /\ running s' = true /\ Started (after (starting rings) newSeen tr) \/ r = Some false /\ running s' = false).
Proof.
  intros Ha Hs He. destruct (wp_sound (starting rings) _ _ _ _ _ (start_watch rings Ha s newSeen) He) as [H1 H2]; [apply relies_trivial; intros; exact I|].
  split; [exact H1|]. destruct H2 as [H2|[H2 H3]]; [left; exact H2|right]. split; [exact H2|]. unfold running. cbn [fst snd] in H3. rewrite H3, Hs. reflexivity.
Qed.

(** ** Concrete runs *)

Definition stopRun := run_trace ioBoard (stop startedRuntime) startedBoard.
Example sample_stopped : fst (fst (fst stopRun)) = Some true.
Proof. vm_compute. reflexivity. Qed.
Lemma start_opens_witness :
  accepts (starting sampleRings) newSeen (snd startRun) /\
  (fst (fst (fst startRun)) = Some true /\ running startedRuntime = true /\ Started (after (starting sampleRings) newSeen (snd startRun)) \/
   fst (fst (fst startRun)) = Some false /\ running startedRuntime = false).
Proof.
  apply (start_opens sampleRings newRuntime).
  - intros i Hi. z_cases i 0 9; vm_compute; discriminate.
  - reflexivity.
  - unfold startedRuntime. rewrite <- surjective_pairing. apply run_trace_exec.
Defined.
Lemma stop_halts_witness :
  accepts stopping newSeen (snd stopRun) /\ zlen (snd stopRun) <= 628 /\
  exists b, fst (fst (fst stopRun)) = Some b /\ Halted b (snd (fst (fst stopRun))) (after stopping newSeen (snd stopRun)).
Proof. apply (stop_halts startedRuntime). rewrite <- surjective_pairing. apply run_trace_exec. Defined.
