(* ===== verification/PciRingSetup.v ===== *)
(** * Setting up the rings (src/network/PciRingSetup.hpp)

    [PciRingSetup] programs the nine rings of a stopped device, each write
    behind a fresh check that the device is stopped, and can put the registers
    back as they were. *)

From S2P Require Import Prelude Prog DataPath PciRuntime.

Record RingSetupResult := mkSetup {
  tried : bool; programmed : bool; restored : bool; failAt : Z; failExpected : Z; failActual : Z; writes : Z; resetPolls : Z
}.
#[export] Instance RingSetupResult_rebuild : Rebuild RingSetupResult := fun r =>
  mkSetup (tried r) (programmed r) (restored r) (failAt r) (failExpected r) (failActual r) (writes r) (resetPolls r).
Record Snapshot := mkSnap { s_low : Z; s_high : Z; s_bdram : Z; s_count : Z }.
Definition noSnapshot : Snapshot := mkSnap 0 0 0 0.
Record PciRingSetup := mkRingSetup { saved_ : list Snapshot; init_ : Z; snapshot_ : bool; outcome : RingSetupResult }.
#[export] Instance PciRingSetup_rebuild : Rebuild PciRingSetup := fun s =>
  mkRingSetup (saved_ s) (init_ s) (snapshot_ s) (outcome s).
Definition newRingSetup : PciRingSetup :=
  mkRingSetup (replicate 9 noSnapshot) 0 false (mkSetup false false false 0 0 0 0 0).

Definition SD (A : Type) : Type := M Io PciRingSetup A.
Definition onSetup (f : RingSetupResult -> RingSetupResult) : SD unit := modify (fun s => s <| outcome := f (outcome s) |>).
Definition savedAt (s : PciRingSetup) (i : Z) : Snapshot := nth (Z.to_nat i) (saved_ s) noSnapshot.

(** Answers false. *)
Definition mismatch (a expect got : Z) : SD bool :=
  onSetup (fun r => if failAt r =? 0 then r <| failAt := a |> <| failExpected := expect |> <| failActual := got |> else r);;
  mret false.
Fixpoint zeroAll (l : list Z) : SD bool :=
  match l with
  | [] => mret true
  | a :: l => v ← read32 a; if v =? 0 then zeroAll l else v ← read32 a; mismatch a 0 v
  end.
(** The device is stopped: bus mastering off, DMA closed and idle, interrupts
    masked. *)
Definition safe : SD bool :=
  c ← command;
  if negb (Z.land c 6 =? 2) then c ← command; mismatch 4 2 (Z.land c 6) else
  init ← read32 0x1000; stop ← read32 0x1010; busy ← read32 0x101c;
  if (init =? 0xffffffff) || flag init 0x2800 then mismatch 0x1000 0 init else
  if (stop =? 0xffffffff) || negb (Z.land stop 0x1f0f00 =? 0x1f0f00) then mismatch 0x1010 0x1f0f00 stop else
  if (busy =? 0xffffffff) || flag busy 0x7f0f03 then mismatch 0x101c 0 busy else
  zeroAll [0x1a0; 0x10b0; 0x13b0].
Definition countWrite : SD unit := onSetup (fun r => r <| writes := u32 (writes r + 1) |>).
Definition write32 (a v : Z) : SD bool :=
  ok ← safe;
  if negb ok then mret false else
  countWrite;;
  ok ← iocall (Write32 a v);
  if (ok : bool) then mret true else got ← read32 a; mismatch a v got.
Definition write16 (a v : Z) : SD bool :=
  ok ← safe;
  if negb ok then mret false else
  countWrite;;
  ok ← iocall (Write16 a v);
  if (ok : bool) then mret true else got ← read16 a; mismatch a v got.
Definition equal32 (a expect : Z) : SD bool :=
  v ← read32 a; if v =? expect then mret true else mismatch a expect v.
Definition equal16 (a expect : Z) : SD bool :=
  v ← read16 a; if v =? expect then mret true else mismatch a expect v.

(** ** Programming *)

Definition bytesOfRing (m : RingMemory) : Z := count m * 8.
Definition crosses (a b : RingMemory) : bool :=
  (address a <? u64 (address b + bytesOfRing b)) && (address b <? u64 (address a + bytesOfRing a)).
(** The memory of ring [i], against those before it. *)
Definition fitsAt (rings : list RingMemory) (i : Z) : bool :=
  let m := ringOf rings i in
  negb ((count m <? 2) || (4095 <? count m) || flag (address m) 7 || negb (dma32Range (address m) (bytesOfRing m))) &&
  negb (existsb (fun j => crosses m (ringOf rings j)) (seqZ 0 i)).
(** [if (...) return mismatch(...);] *)
Definition reject (bad : bool) (a expect got : Z) : SD unit := when bad (_ ← mismatch a expect got; brk).
Definition snapshotRing (i : Z) : SD unit :=
  let r := regsOf i in
  low ← read32 (rr_low r); high ← read32 (rr_high r); count ← read16 (rr_count r);
  bdram ← (if rr_bdram r =? 0 then mret 0 else read32 (rr_bdram r));
  modify (fun s => s <| saved_ := <[Z.to_nat i := mkSnap low high bdram count]> (saved_ s) |>);;
  reject (negb (low =? 0)) (rr_low r) 0 low;;
  reject (negb (high =? 0)) (rr_high r) 0 high;;
  reject (flag count 0xfff) (rr_count r) 0 count;;
  must (equal32 (rr_index r) 0);;
  reject ((bdram =? 0xffffffff) || (bdram =? 0xdeadbeef)) (rr_bdram r) 0 bdram.
(** What is written to the count and allocation registers of ring [i]. *)
Definition countValue (rings : list RingMemory) (s : PciRingSetup) (i : Z) : Z :=
  u16 (Z.lor (Z.land (s_count (savedAt s i)) 0xf000) (count (ringOf rings i))).
Definition bdramValue (s : PciRingSetup) (i : Z) : Z :=
  Z.lor (Z.land (s_bdram (savedAt s i)) 0xff000000) (rr_allocation (regsOf i)).
Definition programRing (rings : list RingMemory) (i : Z) : SD unit :=
  let r := regsOf i in
  let low := u32 (address (ringOf rings i)) in
  s ← get;
  must (write32 (rr_high r) 0 &&> write32 (rr_low r) low &&> write16 (rr_count r) (countValue rings s i) &&>
        (if rr_bdram r =? 0 then mret true else write32 (rr_bdram r) (bdramValue s i)));;
  must (equal32 (rr_high r) 0 &&> equal32 (rr_low r) low &&> equal16 (rr_count r) (countValue rings s i) &&>
        (if rr_bdram r =? 0 then mret true else equal32 (rr_bdram r) (bdramValue s i))).
(** One turn of the wait for the reset: [inl] leaves the loop with [reset],
    [inr] goes on with the time just read, a bad reading leaves the method. *)
Definition resetTurn (begin previous : Z) : SD (bool + Z) :=
  now ← nowUs;
  if (now <? previous) || (10000 <=? u64 (now - begin)) then mret (inl false) else
  value ← read32 0x1000;
  onSetup (fun r => r <| resetPolls := u32 (resetPolls r + 1) |>);;
  if (value =? 0xffffffff) || (value =? 0xdeadbeef) then (s ← get; _ ← mismatch 0x1000 (init_ s) value; brk) else
  if negb (flag value 8) then mret (inl true) else
  iocall (PauseUs 50);; mret (inr now).
Fixpoint awaitReset (n : nat) (begin previous : Z) : SD bool :=
  match n with
  | O => mret false
  | Datatypes.S n => r ← resetTurn begin previous; match r with inl b => mret b | inr now => awaitReset n begin now end
  end.
Definition configure (rings : list RingMemory) : SD bool :=
  s ← get;
  if tried (outcome s) then mret false else
  succeeds (
    onSetup (fun r => r <| tried := true |>);;
    unless (forallb (fitsAt rings) (seqZ 0 9)) brk;;
    must safe;;
    hci ← read32 0x8380;
    reject ((hci =? 0xffffffff) || negb (Z.land hci 3 =? 3)) 0x8380 3 hci;;
    init ← read32 0x1000;
    modify (fun s => s <| init_ := init |>);;
    reject (flag init 8) 0x1000 0 init;;
    for_each 0 9 snapshotRing;;
    modify (fun s => s <| snapshot_ := true |>);;
    for_each 0 9 (programRing rings);;
    must (write32 0x1014 0x70f &&> write32 0x1018 3 &&> write32 0x1000 (Z.lor init 8));;
    begin ← nowUs;
    reset ← awaitReset 201 begin begin;
    unless (reset : bool) (v ← read32 0x1000; reject true 0x1000 init v);;
    for_each 0 9 (fun i => must (equal32 (rr_index (regsOf i)) 0));;
    must (equal32 0x1000 init &&> safe);;
    onSetup (fun r => r <| programmed := true |>)).

(** ** Putting back *)

(** One ring: all its writes are tried. *)
Definition restoreRing (s : PciRingSetup) (ok : bool) (i : Z) : SD bool :=
  let r := regsOf i in let v := savedAt s i in
  high ← write32 (rr_high r) (s_high v); low ← write32 (rr_low r) (s_low v); count ← write16 (rr_count r) (s_count v);
  bdram ← (if rr_bdram r =? 0 then mret true else write32 (rr_bdram r) (s_bdram v));
  mret ((high : bool) && low && count && bdram && ok).
Definition checkRestored (s : PciRingSetup) (ok : bool) (i : Z) : SD bool :=
  let r := regsOf i in let v := savedAt s i in
  same ← equal32 (rr_high r) (s_high v) &&> equal32 (rr_low r) (s_low v) &&> equal16 (rr_count r) (s_count v);
  let ok := (same : bool) && ok in
  if rr_bdram r =? 0 then mret ok else b ← equal32 (rr_bdram r) (s_bdram v); mret ((b : bool) && ok).
(** [for (i = 0; ...) ok = step(i, ok);] *)
Fixpoint through (l : list Z) (step : bool -> Z -> SD bool) (ok : bool) : SD bool :=
  match l with [] => mret ok | i :: l => ok ← step ok i; through l step ok end.
Definition restore : SD bool :=
  s ← get;
  if negb (snapshot_ s) then mret false else
  sane ← safe;
  if negb sane then mret false else
  ok ← through (seqZ 0 9) (restoreRing s) true;
  init ← write32 0x1000 (init_ s);
  ok ← through (seqZ 0 9) (checkRestored s) ((init : bool) && ok);
  done ← (same ← equal32 0x1000 (init_ s); if (same : bool) && ok then safe else mret false);
  onSetup (fun r => r <| restored := done |>);; mret done.

(** ** What is known of the registers

    [fresh]: read since the last write of anything; [known]: read since that
    register was last written; [ever]: read at all. *)

Record Watched := mkWatched { fresh : list (Z * Z); freshCommand : option Z; known : list (Z * Z); ever : list (Z * Z) }.
Definition newWatched : Watched := mkWatched [] None [] [].
Definition sawRead (a v : Z) (g : Watched) : Watched := mkWatched ((a, v) :: fresh g) (freshCommand g) ((a, v) :: known g) ((a, v) :: ever g).
Definition sawWrite (a : Z) (g : Watched) : Watched := mkWatched [] None (List.filter (fun p => negb (fst p =? a)) (known g)) (ever g).
Definition watchNext (g : Watched) (o : ioOp) : ioAns o -> Watched :=
  match o with
  | Read16 a => fun x => sawRead a (u16 x) g
  | Read32 a => fun x => sawRead a (u32 x) g
  | Write16 a _ | Write32 a _ => fun _ => sawWrite a g
  | Command => fun x => mkWatched (fresh g) (Some (u16 x)) (known g) (ever g)
  | _ => fun _ => g
  end.
Definition freshly (g : Watched) (a mask value : Z) : Prop := exists v, In (a, v) (fresh g) /\ Z.land v mask = value.
(** The device was seen stopped since the last write. *)
Definition safeNow (g : Watched) : Prop :=
  (exists c, freshCommand g = Some c /\ Z.land c 6 = 2) /\ freshly g 0x1000 0x2800 0 /\ freshly g 0x1010 0x1f0f00 0x1f0f00 /\
  freshly g 0x101c 0x7f0f03 0 /\ Forall (fun a => In (a, 0) (fresh g)) [0x1a0; 0x10b0; 0x13b0].
(** A write: only of a stopped device, only to these registers, and the bits
    that are not the rings' own are written as they were read. *)
Definition setupMay (g : Watched) (o : ioOp) : Prop :=
  match o with
  | Write32 a v => safeNow g /\
      ((exists i, 0 <= i < 9 /\ (a = rr_high (regsOf i) /\ v = 0 \/ a = rr_low (regsOf i) \/
          a = rr_bdram (regsOf i) /\ a <> 0 /\ exists v0, In (a, v0) (ever g) /\ Z.land v 0xff000000 = Z.land v0 0xff000000)) \/
       a = 0x1014 \/ a = 0x1018 \/ a = 0x1000 /\ exists v0, In (a, v0) (ever g) /\ (v = v0 \/ v = Z.lor v0 8))
  | Write16 a v => safeNow g /\ exists i, 0 <= i < 9 /\ a = rr_count (regsOf i) /\
      exists v0, In (a, v0) (ever g) /\ Z.land v 0xf000 = Z.land v0 0xf000
  | WriteCommand _ => False
  | _ => True
  end.
Definition setupRules : protocol Io Watched := Protocol (Σ:=Io) setupMay (fun _ _ _ => True) watchNext.

(** [g'] knows what [g] does, except of the registers in [l]. *)
Definition keeps (l : list Z) (g g' : Watched) : Prop :=
  incl (ever g) (ever g') /\ forall a v, ~ In a l -> In (a, v) (known g) -> In (a, v) (known g').
Lemma keeps_refl l g : keeps l g g. Proof. split; [apply List.incl_refl|auto]. Qed.
Lemma keeps_trans l l' g1 g2 g3 : keeps l g1 g2 -> keeps l' g2 g3 -> keeps (l ++ l') g1 g3.
Proof.
  intros [E1 H1] [E2 H2]. split; [apply (List.incl_tran E1 E2)|]. intros a v Hn Ha. rewrite List.in_app_iff in Hn. apply H2; [tauto|]. apply H1; tauto.
Qed.
Lemma keeps_more l l' g g' : keeps l g g' -> incl l l' -> keeps l' g g'.
Proof. intros [E H] Hi. split; [exact E|]. intros a v Hn. apply H. intros Ha. apply Hn, Hi, Ha. Qed.
Lemma keeps_nil l g g' : keeps [] g g' -> keeps l g g'.
Proof. intros H. apply (keeps_more _ _ _ _ H). intros x []. Qed.
Lemma keeps_read a v g : keeps [] g (sawRead a v g).
Proof. split; [intros x; right; assumption|]. intros b w _ H. right. exact H. Qed.
Lemma keeps_write a g : keeps [a] g (sawWrite a g).
Proof.
  split; [apply List.incl_refl|]. intros b w Hn H. apply List.filter_In. split; [exact H|]. cbn [fst]. destruct (Z.eqb_spec b a) as [->|]; [|reflexivity].
  contradiction Hn. left. reflexivity.
Qed.

(** The object, but for its report. *)
Definition same (s s' : PciRingSetup) : Prop :=
  saved_ s' = saved_ s /\ init_ s' = init_ s /\ snapshot_ s' = snapshot_ s /\ tried (outcome s') = tried (outcome s).
Lemma same_self s : same s s. Proof. repeat split. Qed.
Lemma same_trans s1 s2 s3 : same s1 s2 -> same s2 s3 -> same s1 s3.
Proof. intros (A & B & C & D) (A' & B' & C' & D'). repeat split; congruence. Qed.
(** The registers read as said. *)
Definition reads (g : Watched) (l : list (Z * Z)) : Prop := Forall (fun p => In p (known g)) l.
Definition answered (l : list Z) (facts : list (Z * Z)) (s : PciRingSetup) (g : Watched) (r : option bool) (s' : PciRingSetup) (g' : Watched) : Prop :=
  exists b, r = Some b /\ same s s' /\ keeps l g g' /\ (b = true -> reads g' facts).

Lemma read32_sees a (s : PciRingSetup) g (Q : option Z -> PciRingSetup -> Watched -> Prop) :
  (forall v, Q (Some v) s (sawRead a v g)) -> wpm setupRules (read32 a) s g Q.
Proof. intros HQ. unfold read32. wstep. refine (wpm_call setupRules (Read32 a) s g _ _ _); [exact I|]. intros x _. apply HQ. Qed.
Lemma read16_sees a (s : PciRingSetup) g (Q : option Z -> PciRingSetup -> Watched -> Prop) :
  (forall v, in_u16 v -> Q (Some v) s (sawRead a v g)) -> wpm setupRules (read16 a) s g Q.
Proof. intros HQ. unfold read16. wstep. refine (wpm_call setupRules (Read16 a) s g _ _ _); [exact I|]. intros x _. apply HQ, u16_range. Qed.
Lemma command_sees (s : PciRingSetup) g (Q : option Z -> PciRingSetup -> Watched -> Prop) :
  (forall v, Q (Some v) s (mkWatched (fresh g) (Some v) (known g) (ever g))) -> wpm setupRules command s g Q.
Proof. intros HQ. unfold command. wstep. refine (wpm_call setupRules Command s g _ _ _); [exact I|]. intros x _. apply HQ. Qed.
Lemma mismatch_wp a e v s g (Q : option bool -> PciRingSetup -> Watched -> Prop) :
  (forall s', same s s' -> Q (Some false) s' g) -> wpm setupRules (mismatch a e v) s g Q.
Proof. intros HQ. apply HQ. repeat split. cbn. destruct (failAt _ =? 0); reflexivity. Qed.

Lemma zeroAll_sees l s g : wpm setupRules (zeroAll l) s g (fun r s' g' => exists b, r = Some b /\ same s s' /\ keeps [] g g' /\
  freshCommand g' = freshCommand g /\ incl (fresh g) (fresh g') /\ (b = true -> Forall (fun a => In (a, 0) (fresh g')) l)).
Proof.
  revert s g. induction l as [|a l IH]; intros s g; cbn [zeroAll].
  { apply wpm_ret. exists true. split; [reflexivity|]. split; [apply same_self|]. split; [apply keeps_refl|]. split; [reflexivity|]. split; [apply List.incl_refl|]. intros _. apply List.Forall_nil. }
  wstep. apply read32_sees. intros v. destruct (Z.eqb_spec v 0) as [->|_].
  - eapply wpm_mono; [apply IH|]. intros r s1 g1 (b & -> & S1 & K1 & C1 & F1 & H1). exists b. split; [reflexivity|]. split; [exact S1|].
    split; [apply (keeps_trans [] [] _ _ _ (keeps_read a 0 g) K1)|]. split; [exact C1|]. split; [intros x Hx; apply F1; right; exact Hx|].
    intros Hb. apply List.Forall_cons; [apply F1; left; reflexivity|apply H1, Hb].
  - wstep. apply read32_sees. intros w. apply mismatch_wp. intros s1 S1. exists false. split; [reflexivity|]. split; [exact S1|].
    split; [apply (keeps_trans [] [] _ _ _ (keeps_read a v g) (keeps_read a w _))|]. split; [reflexivity|]. split; [intros x Hx; right; right; exact Hx|discriminate].
Qed.
Lemma safe_sees s g : wpm setupRules safe s g (fun r s' g' => exists b, r = Some b /\ same s s' /\ keeps [] g g' /\ (b = true -> safeNow g')).
Proof.
  assert (Hno : forall a e v g', keeps [] g g' -> wpm setupRules (mismatch a e v) s g' (fun r s' g' => exists b, r = Some b /\ same s s' /\ keeps [] g g' /\ (b = true -> safeNow g'))).
  { intros a e v g' K. apply mismatch_wp. intros s' Hs. exists false. split; [reflexivity|]. split; [exact Hs|]. split; [exact K|discriminate]. }
  unfold safe. wstep. apply command_sees. intros c. destruct (Z.eqb_spec (Z.land c 6) 2) as [Hc|_]; cbn [negb].
  2: { wstep. apply command_sees. intros c2. apply Hno. split; [apply List.incl_refl|auto]. }
  set (g0 := mkWatched (fresh g) (Some c) (known g) (ever g)). assert (K0 : keeps [] g g0) by (split; [apply List.incl_refl|auto]).
  wstep. apply read32_sees. intros init. wstep. apply read32_sees. intros stop. wstep. apply read32_sees. intros busy.
  set (g1 := sawRead 0x101c busy _). assert (K1 : keeps [] g g1).
  { apply (keeps_trans [] [] _ _ _ K0), (keeps_trans [] [] _ _ _ (keeps_read 0x1000 init g0)), (keeps_trans [] [] _ _ _ (keeps_read 0x1010 stop _)). apply keeps_read. }
  destruct ((init =? 0xffffffff) || flag init 0x2800) eqn:E1; [apply Hno, K1|].
  destruct ((stop =? 0xffffffff) || _) eqn:E2; [apply Hno, K1|]. destruct ((busy =? 0xffffffff) || _) eqn:E3; [apply Hno, K1|].
  eapply wpm_mono; [apply zeroAll_sees|]. intros r s1 g2 (b & -> & S1 & K2 & C2 & F2 & H2). exists b. split; [reflexivity|]. split; [exact S1|].
  split; [apply (keeps_trans [] [] _ _ _ K1 K2)|]. intros Hb. apply orb_false_iff in E1 as [_ E1], E2 as [_ E2], E3 as [_ E3].
  unfold flag in E1, E3. apply negb_false_iff in E1, E2, E3. apply Z.eqb_eq in E1, E2, E3.
  split; [exists c; rewrite C2; split; [reflexivity|exact Hc]|].
  split; [exists init; split; [apply F2; right; right; left; reflexivity|exact E1]|]. split; [exists stop; split; [apply F2; right; left; reflexivity|exact E2]|].
  split; [exists busy; split; [apply F2; left; reflexivity|exact E3]|]. exact (H2 Hb).
Qed.

(** A write behind the check. *)
Lemma write_sees (wr : SD bool) a v (o : ioOp) s g :
  (o = Write32 a v /\ wr = write32 a v \/ o = Write16 a v /\ wr = write16 a v) ->
  (forall g', keeps [] g g' -> safeNow g' -> setupMay g' o) -> wpm setupRules wr s g (answered [a] [] s g).
Proof.
  intros Hw Ha. assert (Hread : forall s1 g1, same s s1 -> keeps [a] g g1 -> forall got, answered [a] [] s g (Some false) s1 (sawRead a got g1)).
  { intros s1 g1 S1 K1 got. exists false. split; [reflexivity|]. split; [exact S1|]. split; [|discriminate].
    apply (keeps_more ([a] ++ [])); [apply (keeps_trans [a] [] _ _ _ K1 (keeps_read a got g1))|intros x Hx; exact Hx]. }
  destruct Hw as [[-> ->]|[-> ->]]; (unfold write32, write16; wstep; eapply wpm_mono; [apply safe_sees|]; intros r s1 g1 (b & -> & S1 & K1 & H1);
    destruct b; cbn [negb]; [|apply wpm_ret; exists false; split; [reflexivity|]; split; [exact S1|]; split; [apply keeps_nil, K1|discriminate]];
    wstep; apply wpm_modify; wstep).
  - refine (wpm_call setupRules (Write32 a v) _ g1 _ _ _); [apply Ha; [exact K1|apply H1; reflexivity]|]. intros ok _. cbn [next setupRules watchNext].
    assert (K2 : keeps [a] g (sawWrite a g1)) by (apply (keeps_trans [] [a] _ _ _ K1), keeps_write). destruct ok.
    + apply wpm_ret. exists true. split; [reflexivity|]. split; [exact S1|]. split; [exact K2|]. intros _. apply List.Forall_nil.
    + wstep. apply read32_sees. intros got. apply mismatch_wp. intros s2 S2. apply Hread; [apply (same_trans _ _ _ S1 S2)|exact K2].
  - refine (wpm_call setupRules (Write16 a v) _ g1 _ _ _); [apply Ha; [exact K1|apply H1; reflexivity]|]. intros ok _. cbn [next setupRules watchNext].
    assert (K2 : keeps [a] g (sawWrite a g1)) by (apply (keeps_trans [] [a] _ _ _ K1), keeps_write). destruct ok.
    + apply wpm_ret. exists true. split; [reflexivity|]. split; [exact S1|]. split; [exact K2|]. intros _. apply List.Forall_nil.
    + wstep. apply read16_sees. intros got _. apply mismatch_wp. intros s2 S2. apply Hread; [apply (same_trans _ _ _ S1 S2)|exact K2].
Qed.
Lemma write32_sees a v s g : (forall g', keeps [] g g' -> safeNow g' -> setupMay g' (Write32 a v)) -> wpm setupRules (write32 a v) s g (answered [a] [] s g).
Proof. intros H. apply (write_sees _ a v (Write32 a v)); [left; auto|exact H]. Qed.
Lemma write16_sees a v s g : (forall g', keeps [] g g' -> safeNow g' -> setupMay g' (Write16 a v)) -> wpm setupRules (write16 a v) s g (answered [a] [] s g).
Proof. intros H. apply (write_sees _ a v (Write16 a v)); [right; auto|exact H]. Qed.
Lemma equal32_sees a v s g : wpm setupRules (equal32 a v) s g (answered [] [(a, v)] s g).
Proof.
  unfold equal32. wstep. apply read32_sees. intros w. destruct (Z.eqb_spec w v) as [->|_]; [apply wpm_ret; exists true|apply mismatch_wp; intros s' S'; exists false];
    (split; [reflexivity|]; split; [first [apply same_self|exact S']|]; split; [apply keeps_read|]); [|discriminate].
  intros _. apply List.Forall_cons; [left; reflexivity|apply List.Forall_nil].
Qed.
Lemma equal16_sees a v s g : wpm setupRules (equal16 a v) s g (answered [] [(a, v)] s g).
Proof.
  unfold equal16. wstep. apply read16_sees. intros w _. destruct (Z.eqb_spec w v) as [->|_]; [apply wpm_ret; exists true|apply mismatch_wp; intros s' S'; exists false];
    (split; [reflexivity|]; split; [first [apply same_self|exact S']|]; split; [apply keeps_read|]); [|discriminate].
  intros _. apply List.Forall_cons; [left; reflexivity|apply List.Forall_nil].
Qed.

(** Facts survive what does not touch their registers. *)
Lemma reads_keeps l g g' facts : keeps l g g' -> Forall (fun p => ~ In (fst p) l) facts -> reads g facts -> reads g' facts.
Proof.
  intros [_ K] Hl H. unfold reads in *. rewrite List.Forall_forall in *. intros [a v] Hp. apply K; [apply (Hl _ Hp)|apply H, Hp].
Qed.
Lemma reads_nil g g' facts : keeps [] g g' -> reads g facts -> reads g' facts.
Proof. intros K. apply (reads_keeps [] _ _ _ K). apply List.Forall_forall. intros p _ []. Qed.
(** Two answers in a row. *)
Lemma and_sees l l' fa fb (a b : SD bool) s g : wpm setupRules a s g (answered l fa s g) ->
  (forall s1 g1, same s s1 -> keeps l g g1 -> wpm setupRules b s1 g1 (answered l' fb s1 g1)) -> Forall (fun p => ~ In (fst p) l') fa ->
  wpm setupRules (a &&> b) s g (answered (l ++ l') (fa ++ fb) s g).
Proof.
  intros Ha Hb Hd. apply wpm_andM. eapply wpm_mono; [exact Ha|]. intros r s1 g1 (b1 & -> & S1 & K1 & H1). destruct b1.
  2: { exists false. split; [reflexivity|]. split; [exact S1|]. split; [apply (keeps_more l); [exact K1|apply List.incl_appl, List.incl_refl]|discriminate]. }
  eapply wpm_mono; [apply Hb; assumption|]. intros r s2 g2 (b2 & -> & S2 & K2 & H2). exists b2. split; [reflexivity|]. split; [apply (same_trans _ _ _ S1 S2)|].
  split; [apply (keeps_trans _ _ _ _ _ K1 K2)|]. intros Hb2. apply List.Forall_app. split; [apply (reads_keeps l' g1); auto|apply H2, Hb2].
Qed.
Lemma skip_sees l s g (m : SD bool) (b : bool) facts : (b = false -> wpm setupRules m s g (answered l facts s g)) ->
  wpm setupRules (if b then mret true else m) s g (answered (if b then [] else l) (if b then [] else facts) s g).
Proof.
  intros H. destruct b; [|apply H; reflexivity]. apply wpm_ret. exists true. split; [reflexivity|]. split; [apply same_self|]. split; [apply keeps_refl|]. intros _. apply List.Forall_nil.
Qed.

(** ** Programming the rings *)

Definition ringRegs (i : Z) : list Z :=
  let r := regsOf i in [rr_high r; rr_low r; rr_count r] ++ (if rr_bdram r =? 0 then [] else [rr_bdram r]).
(** What ring [i] reads when it is programmed. *)
Definition ringReadings (rings : list RingMemory) (s : PciRingSetup) (i : Z) : list (Z * Z) :=
  let r := regsOf i in
  [(rr_high r, 0); (rr_low r, u32 (address (ringOf rings i))); (rr_count r, countValue rings s i)] ++
  (if rr_bdram r =? 0 then [] else [(rr_bdram r, bdramValue s i)]).
(** What it reads when it is put back. *)
Definition savedReadings (s : PciRingSetup) (i : Z) : list (Z * Z) :=
  let r := regsOf i in let v := savedAt s i in
  [(rr_high r, s_high v); (rr_low r, s_low v); (rr_count r, s_count v)] ++ (if rr_bdram r =? 0 then [] else [(rr_bdram r, s_bdram v)]).
Definition otherRegs : list Z := [0x1014; 0x1018; 0x1000].

Lemma ring_cases i : 0 <= i < 9 -> In i (seqZ 0 9).
Proof. intros H. apply list_elem_of_In, elem_of_seqZ. lia. Qed.
Lemma cases_ring i : In i (seqZ 0 9) -> 0 <= i < 9.
Proof. intros H. apply list_elem_of_In, elem_of_seqZ in H. lia. Qed.
Lemma regs_apart i j a : 0 <= i < 9 -> 0 <= j < 9 -> i <> j -> In a (ringRegs i) -> ~ In a (ringRegs j).
Proof.
  intros Hi Hj Hn Ha Hb.
  assert (H : forallb (fun i => forallb (fun j => (i =? j) || forallb (fun a => negb (existsb (Z.eqb a) (ringRegs j))) (ringRegs i)) (seqZ 0 9)) (seqZ 0 9) = true)
    by (vm_compute; reflexivity).
  rewrite List.forallb_forall in H. specialize (H i (ring_cases i Hi)). rewrite List.forallb_forall in H. specialize (H j (ring_cases j Hj)).
  destruct (Z.eqb_spec i j); [contradiction|]. cbn [orb] in H. rewrite List.forallb_forall in H. specialize (H a Ha). apply negb_true_iff in H.
  assert (Ht : existsb (Z.eqb a) (ringRegs j) = true); [apply List.existsb_exists; exists a; split; [exact Hb|apply Z.eqb_refl]|congruence].
Qed.
Lemma others_apart i a : 0 <= i < 9 -> In a (ringRegs i) -> ~ In a otherRegs.
Proof.
  intros Hi Ha Hb.
  assert (H : forallb (fun i => forallb (fun a => negb (existsb (Z.eqb a) otherRegs)) (ringRegs i)) (seqZ 0 9) = true) by (vm_compute; reflexivity).
  rewrite List.forallb_forall in H. specialize (H i (ring_cases i Hi)). rewrite List.forallb_forall in H. specialize (H a Ha). apply negb_true_iff in H.
  assert (Ht : existsb (Z.eqb a) otherRegs = true); [apply List.existsb_exists; exists a; split; [exact Hb|apply Z.eqb_refl]|congruence].
Qed.
Lemma ringReadings_regs rings s i : map fst (ringReadings rings s i) = ringRegs i.
Proof. unfold ringReadings, ringRegs. destruct (_ =? 0); reflexivity. Qed.
Lemma savedReadings_regs s i : map fst (savedReadings s i) = ringRegs i.
Proof. unfold savedReadings, ringRegs. destruct (_ =? 0); reflexivity. Qed.
(** Facts on one ring survive writes to another one. *)
Lemma apart_facts i j (facts : list (Z * Z)) : 0 <= i < 9 -> 0 <= j < 9 -> i <> j -> map fst facts = ringRegs i -> Forall (fun p => ~ In (fst p) (ringRegs j)) facts.
Proof.
  intros Hi Hj Hn E. apply List.Forall_forall. intros p Hp. apply (regs_apart i j); try assumption. rewrite <- E. apply List.in_map, Hp.
Qed.

(** What the snapshot holds of the first [n] rings. *)
Definition snapped (n : Z) (s : PciRingSetup) (g : Watched) : Prop :=
  length (saved_ s) = 9%nat /\ forall i, 0 <= i < n -> let r := regsOf i in let v := savedAt s i in
    s_low v = 0 /\ s_high v = 0 /\ Z.land (s_count v) 0xfff = 0 /\ In (rr_count r, s_count v) (ever g) /\
    (rr_bdram r <> 0 -> In (rr_bdram r, s_bdram v) (ever g)).
Lemma snapped_same n s s' g g' l : snapped n s g -> same s s' -> keeps l g g' -> snapped n s' g'.
Proof.
  intros [Hl H] (Es & _ & _ & _) [He _]. split; [congruence|]. intros i Hi. unfold savedAt. rewrite Es. destruct (H i Hi) as (A & B & C & D & E). auto 7.
Qed.
Lemma savedAt_set s i v j : length (saved_ s) = 9%nat -> 0 <= i < 9 -> 0 <= j ->
  savedAt (s <| saved_ := <[Z.to_nat i := v]> (saved_ s) |>) j = if j =? i then v else savedAt s j.
Proof. intros Hl Hi Hj. apply (nth_insert_Z (saved_ s)); [unfold zlen; lia|exact Hj]. Qed.
Lemma reject_wp b a e v s g (Q : option unit -> PciRingSetup -> Watched -> Prop) :
  (forall s', same s s' -> Q None s' g) -> (b = false -> Q (Some tt) s g) -> wpm setupRules (reject b a e v) s g Q.
Proof.
  intros HN HS. unfold reject, when. destruct b; [|apply wpm_ret, HS; reflexivity]. wstep. apply mismatch_wp. intros s' Hs. apply HN, Hs.
Qed.

(** The snapshot, once taken, holds what was read; it is taken only once. *)
Record Kept (s : PciRingSetup) (g : Watched) : Prop := {
  k_length : length (saved_ s) = 9%nat;
  k_tried : tried (outcome s) = false -> snapshot_ s = false;
  k_snapshot : snapshot_ s = true -> snapped 9 s g /\ In (0x1000, init_ s) (ever g)
}.
Lemma kept_same s s' g g' l : Kept s g -> same s s' -> keeps l g g' -> Kept s' g'.
Proof.
  intros [H0 H1 H2] S K. pose proof S as (E1 & E2 & E3 & E4). split; [congruence|rewrite E3, E4; exact H1|].
  intros Hs. rewrite E3 in Hs. destruct (H2 Hs) as [H3 H4]. split; [apply (snapped_same _ _ _ _ _ _ H3 S K)|]. rewrite E2. apply (proj1 K), H4.
Qed.
(** How a step ends: by [return false], or as said. *)
Definition goesOn (P : PciRingSetup -> Watched -> Prop) (r : option unit) (s' : PciRingSetup) (g' : Watched) : Prop :=
  match r with Some _ => P s' g' | None => Kept s' g' end.
Lemma snapshotRing_sees i s g : 0 <= i < 9 -> snapped i s g -> snapshot_ s = false ->
  wpm setupRules (snapshotRing i) s g (goesOn (fun s' g' => snapshot_ s' = false /\ init_ s' = init_ s /\ tried (outcome s') = tried (outcome s) /\ keeps [] g g' /\ snapped (i + 1) s' g')).
Proof.
  intros Hi [Hl Hsn] Hs0. unfold snapshotRing. cbv zeta. set (r := regsOf i). wstep. apply read32_sees. intros low. wstep. apply read32_sees. intros high.
  wstep. apply read16_sees. intros count Hc. set (g1 := sawRead _ count _).
  assert (K1 : keeps [] g g1) by (apply (keeps_trans [] [] _ _ _ (keeps_read (rr_low r) low g)), (keeps_trans [] [] _ _ _ (keeps_read (rr_high r) high _)); apply keeps_read).
  assert (Hc1 : In (rr_count r, count) (ever g1)) by (left; reflexivity). clearbody g1. wstep.
  apply (wpm_mono _ _ _ _ (fun o s' g' => exists bdram, o = Some bdram /\ s' = s /\ keeps [] g1 g' /\ (rr_bdram r <> 0 -> In (rr_bdram r, bdram) (ever g')))).
  { destruct (Z.eqb_spec (rr_bdram r) 0) as [E|E].
    - apply wpm_ret. exists 0. split; [reflexivity|]. split; [reflexivity|]. split; [apply keeps_refl|contradiction].
    - apply read32_sees. intros v. exists v. split; [reflexivity|]. split; [reflexivity|]. split; [apply keeps_read|]. intros _. left. reflexivity. }
  intros o s1 g2 (bdram & -> & -> & K2 & Hb). pose proof (keeps_trans [] [] _ _ _ K1 K2) as K02. apply (proj1 K2) in Hc1.
  wstep. apply wpm_modify. cbn beta iota. set (s1 := s <| saved_ := _ |>).
  assert (Hl1 : length (saved_ s1) = 9%nat) by (change (length (<[Z.to_nat i := mkSnap low high bdram count]> (saved_ s)) = 9%nat); rewrite length_insert; exact Hl).
  assert (Hbad : forall s' g', same s1 s' -> Kept s' g').
  { intros s' g' (E1 & _ & E3 & _). assert (Hf : snapshot_ s' = false) by (rewrite E3; exact Hs0). split; [rewrite E1; exact Hl1|intros _; exact Hf|congruence]. }
  wstep. apply reject_wp; [intros s' Hs'; apply Hbad, Hs'|intros E1]. wstep. apply reject_wp; [intros s' Hs'; apply Hbad, Hs'|intros E2].
  wstep. apply reject_wp; [intros s' Hs'; apply Hbad, Hs'|intros E3]. wstep. apply wpm_must. eapply wpm_mono; [apply equal32_sees|].
  intros o s2 g3 (b & -> & S2 & K3 & _). destruct b; [|apply Hbad, S2]. apply reject_wp; [intros s' Hs'; apply Hbad, (same_trans _ _ _ S2 Hs')|intros _].
  destruct S2 as (A & B & C & T). split; [rewrite C; exact Hs0|]. split; [exact B|]. split; [exact T|]. split; [apply (keeps_trans [] [] _ _ _ K02 K3)|].
  split; [rewrite A; exact Hl1|].
  intros j Hj. cbv zeta. assert (E : savedAt s2 j = if j =? i then mkSnap low high bdram count else savedAt s j).
  { unfold savedAt at 1. rewrite A. apply (savedAt_set s i _ j Hl Hi). lia. }
  rewrite E. destruct (Z.eqb_spec j i) as [->|Hne].
  - cbn [s_low s_high s_count s_bdram]. fold r. apply negb_false_iff, Z.eqb_eq in E1, E2. unfold flag in E3. apply negb_false_iff, Z.eqb_eq in E3.
    split; [exact E1|]. split; [exact E2|]. split; [exact E3|]. split; [apply (proj1 K3), Hc1|]. intros Hr. apply (proj1 K3), Hb, Hr.
  - destruct (Hsn j ltac:(lia)) as (P1 & P2 & P3 & P4 & P5). pose proof (proj1 (keeps_trans [] [] _ _ _ K02 K3)) as HE. auto 7.
Qed.

(** Values that keep the bits the rings do not own. *)
Lemma countValue_keeps rings s i : 0 <= count (ringOf rings i) <= 4095 ->
  Z.land (countValue rings s i) 0xf000 = Z.land (s_count (savedAt s i)) 0xf000.
Proof.
  intros Hc. unfold countValue. generalize (s_count (savedAt s i)). intros v. apply Z.bits_inj'. intros n Hn. unfold u16. rewrite !Z.land_spec.
  assert (Hm : Z.testbit 0xf000 n = (12 <=? n) && (n <? 16)).
  { change 0xf000 with (Z.shiftl (Z.ones 4) 12). rewrite Z.shiftl_spec by lia. destruct (Z.leb_spec 12 n); [rewrite Z.testbit_ones_nonneg by lia|rewrite Z.testbit_neg_r by lia; reflexivity].
    cbn [andb]. destruct (Z.ltb_spec (n - 12) 4), (Z.ltb_spec n 16); lia || reflexivity. }
  rewrite Hm. destruct (Z.leb_spec 12 n); [|rewrite !andb_false_r; reflexivity]. destruct (Z.ltb_spec n 16); [|rewrite !andb_false_r; reflexivity].
  rewrite Z.mod_pow2_bits_low, Z.lor_spec, Z.land_spec, Hm by lia. destruct (Z.leb_spec 12 n), (Z.ltb_spec n 16); try lia. rewrite !andb_true_r.
  rewrite <- (Z.mod_small (count (ringOf rings i)) (2 ^ 12)) by (change (2 ^ 12) with 4096; lia). rewrite Z.mod_pow2_bits_high by lia. apply orb_false_r.
Qed.
Lemma bdramValue_keeps s i : 0 <= i < 9 -> Z.land (bdramValue s i) 0xff000000 = Z.land (s_bdram (savedAt s i)) 0xff000000.
Proof.
  intros Hi. unfold bdramValue. rewrite Z.land_lor_distr_l, <- Z.land_assoc. change (Z.land 0xff000000 0xff000000) with 0xff000000.
  assert (E : Z.land (rr_allocation (regsOf i)) 0xff000000 = 0).
  { assert (H : forallb (fun i => Z.land (rr_allocation (regsOf i)) 0xff000000 =? 0) (seqZ 0 9) = true) by (vm_compute; reflexivity).
    rewrite List.forallb_forall in H. apply Z.eqb_eq, H, ring_cases, Hi. }
  rewrite E. apply Z.lor_0_r.
Qed.

Definition ready (s : PciRingSetup) (g : Watched) : Prop := snapshot_ s = true /\ Kept s g.
Lemma ready_same l s s' g g' : ready s g -> same s s' -> keeps l g g' -> ready s' g'.
Proof. intros [H1 H2] S K. split; [destruct S as (_ & _ & E & _); congruence|apply (kept_same _ _ _ _ _ H2 S K)]. Qed.

(** The register writes of ring [i]. *)
Lemma ring_may i g : 0 <= i < 9 -> safeNow g -> forall v, v = 0 -> setupMay g (Write32 (rr_high (regsOf i)) v).
Proof. intros Hi Hs v ->. split; [exact Hs|]. left. exists i. split; [exact Hi|left; auto]. Qed.
Lemma low_may i g v : 0 <= i < 9 -> safeNow g -> setupMay g (Write32 (rr_low (regsOf i)) v).
Proof. intros Hi Hs. split; [exact Hs|]. left. exists i. split; [exact Hi|right; left; reflexivity]. Qed.
Lemma count_may i g s v : 0 <= i < 9 -> ready s g -> safeNow g -> Z.land v 0xf000 = Z.land (s_count (savedAt s i)) 0xf000 ->
  setupMay g (Write16 (rr_count (regsOf i)) v).
Proof.
  intros Hi [Hr Hk] Hs E. split; [exact Hs|]. exists i. split; [exact Hi|]. split; [reflexivity|]. exists (s_count (savedAt s i)). split; [|exact E].
  apply (proj2 (proj1 (k_snapshot _ _ Hk Hr)) i Hi).
Qed.
Lemma bdram_may i g s v : 0 <= i < 9 -> ready s g -> safeNow g -> (rr_bdram (regsOf i) =? 0) = false ->
  Z.land v 0xff000000 = Z.land (s_bdram (savedAt s i)) 0xff000000 -> setupMay g (Write32 (rr_bdram (regsOf i)) v).
Proof.
  intros Hi [Hr Hk] Hs Hb E. apply Z.eqb_neq in Hb. split; [exact Hs|]. left. exists i. split; [exact Hi|]. right. right. split; [reflexivity|]. split; [exact Hb|].
  exists (s_bdram (savedAt s i)). split; [|exact E]. apply (proj2 (proj1 (k_snapshot _ _ Hk Hr)) i Hi), Hb.
Qed.

Lemma programWrites_sees rings i s g : 0 <= i < 9 -> 0 <= count (ringOf rings i) <= 4095 -> ready s g -> let r := regsOf i in
  wpm setupRules (write32 (rr_high r) 0 &&> write32 (rr_low r) (u32 (address (ringOf rings i))) &&> write16 (rr_count r) (countValue rings s i) &&>
    (if rr_bdram r =? 0 then mret true else write32 (rr_bdram r) (bdramValue s i))) s g
    (answered (ringRegs i) ([] ++ [] ++ [] ++ (if rr_bdram r =? 0 then [] else [])) s g).
Proof.
  intros Hi Hc Hr r. set (bd := if rr_bdram r =? 0 then [] else [rr_bdram r]).
  apply (and_sees [rr_high r] ([rr_low r] ++ [rr_count r] ++ bd) []); [apply write32_sees; intros g1 K1 Hs; apply (ring_may i); auto| |apply List.Forall_nil].
  intros s1 g1 S1 K1. apply (and_sees [rr_low r] ([rr_count r] ++ bd) []); [apply write32_sees; intros g2 K2 Hs; apply (low_may i); auto| |apply List.Forall_nil].
  intros s2 g2 S2 K2. apply (and_sees [rr_count r] bd []); [|intros s3 g3 S3 K3|apply List.Forall_nil].
  - apply write16_sees. intros g3 K3 Hs. apply (count_may i g3 s); auto.
    + eapply ready_same; [exact Hr|apply same_self|]. apply (keeps_trans _ _ _ _ _ (keeps_trans _ _ _ _ _ K1 K2) K3).
    + apply countValue_keeps, Hc.
  - apply skip_sees. intros Hb. apply write32_sees. intros g4 K4 Hs. apply (bdram_may i g4 s); auto.
    + eapply ready_same; [exact Hr|apply same_self|]. apply (keeps_trans _ _ _ _ _ (keeps_trans _ _ _ _ _ (keeps_trans _ _ _ _ _ K1 K2) K3) K4).
    + apply bdramValue_keeps, Hi.
Qed.
(** The comparisons after them. *)
Lemma compare_sees high low cnt bdram i s g : let r := regsOf i in
  wpm setupRules (equal32 (rr_high r) high &&> equal32 (rr_low r) low &&> equal16 (rr_count r) cnt &&>
    (if rr_bdram r =? 0 then mret true else equal32 (rr_bdram r) bdram)) s g
    (answered [] ([(rr_high r, high); (rr_low r, low); (rr_count r, cnt)] ++ (if rr_bdram r =? 0 then [] else [(rr_bdram r, bdram)])) s g).
Proof.
  intros r. eapply wpm_mono.
  { apply (and_sees [] ([] ++ [] ++ (if rr_bdram r =? 0 then [] else []))); [apply equal32_sees| |apply List.Forall_cons; [intros Hx|apply List.Forall_nil]].
    2: { destruct (rr_bdram r =? 0) in Hx; destruct Hx. }
    intros s1 g1 S1 K1. apply (and_sees []); [apply equal32_sees| |apply List.Forall_cons; [intros Hx; destruct (rr_bdram r =? 0) in Hx; destruct Hx|apply List.Forall_nil]].
    intros s2 g2 S2 K2. apply (and_sees []); [apply equal16_sees| |apply List.Forall_cons; [intros Hx; destruct (rr_bdram r =? 0) in Hx; destruct Hx|apply List.Forall_nil]].
    intros s3 g3 S3 K3. apply skip_sees. intros _. apply equal32_sees. }
  intros o s1 g1 (b & -> & S1 & K1 & H1). exists b. split; [reflexivity|]. split; [exact S1|]. split; [|exact H1].
  apply (keeps_more _ _ _ _ K1). intros x Hx. destruct (rr_bdram r =? 0); exact Hx.
Qed.
Lemma programRing_sees rings i s g : 0 <= i < 9 -> 0 <= count (ringOf rings i) <= 4095 -> ready s g ->
  wpm setupRules (programRing rings i) s g (goesOn (fun s' g' => same s s' /\ keeps (ringRegs i) g g' /\ reads g' (ringReadings rings s i))).
Proof.
  intros Hi Hc Hr. unfold programRing. cbv zeta. wstep. apply wpm_get. cbn beta iota. wstep. apply wpm_must.
  eapply wpm_mono; [apply (programWrites_sees rings i s g Hi Hc Hr)|]. intros o s1 g1 (b & -> & S1 & K1 & _). destruct b; [|apply (kept_same _ _ _ _ _ (proj2 Hr) S1 K1)].
  apply wpm_must. eapply wpm_mono; [apply compare_sees|]. intros o s2 g2 (b & -> & S2 & K2 & H2).
  pose proof (same_trans _ _ _ S1 S2) as S02. assert (K02 : keeps (ringRegs i) g g2) by (apply (keeps_more _ _ _ _ (keeps_trans _ _ _ _ _ K1 K2)); rewrite app_nil_r; apply List.incl_refl).
  destruct b; [|apply (kept_same _ _ _ _ _ (proj2 Hr) S02 K02)]. split; [exact S02|]. split; [exact K02|]. apply H2. reflexivity.
Qed.

(** Memory of its own for every ring. *)
Definition laid (rings : list RingMemory) (i : Z) : Prop :=
  let m := ringOf rings i in
  2 <= count m <= 4095 /\ Z.land (address m) 7 = 0 /\ address m + bytesOfRing m <= 2 ^ 32 /\
  forall j, 0 <= j < i -> let n := ringOf rings j in address m + bytesOfRing m <= address n \/ address n + bytesOfRing n <= address m.
Definition unsignedRings (rings : list RingMemory) : Prop := forall i, 0 <= i < 9 -> 0 <= address (ringOf rings i).
Lemma fitsAt_memory rings i : 0 <= i < 9 -> unsignedRings rings -> fitsAt rings i = true ->
  let m := ringOf rings i in 2 <= count m <= 4095 /\ Z.land (address m) 7 = 0 /\ address m + bytesOfRing m <= 2 ^ 32 /\
  forall j, 0 <= j < i -> crosses m (ringOf rings j) = false.
Proof.
  intros Hi Hu H m. unfold fitsAt in H. fold m in H. cbv zeta in H. apply andb_true_iff in H as [H1 H2]. apply negb_true_iff in H1, H2.
  rewrite !orb_false_iff, negb_false_iff in H1. destruct H1 as [[[H1 H3] H4] H5]. split; [lia|]. unfold flag in H4. apply negb_false_iff, Z.eqb_eq in H4. split; [exact H4|].
  split; [apply dma32Range_spec in H5; [change (2 ^ 32) with 4294967296; lia|apply Hu, Hi|unfold bytesOfRing; lia]|].
  intros j Hj. destruct (crosses m (ringOf rings j)) eqn:E; [|reflexivity]. enough (existsb (fun j => crosses m (ringOf rings j)) (seqZ 0 i) = true) by congruence.
  apply List.existsb_exists. exists j. split; [apply list_elem_of_In, elem_of_seqZ; lia|exact E].
Qed.
Lemma fits_laid rings : unsignedRings rings -> forallb (fitsAt rings) (seqZ 0 9) = true -> forall i, 0 <= i < 9 -> laid rings i.
Proof.
  intros Hu H i Hi. rewrite List.forallb_forall in H.
  assert (Hm := fun i Hi => fitsAt_memory rings i Hi Hu (H i (ring_cases i Hi))). destruct (Hm i Hi) as (A & B & C & D).
  split; [exact A|]. split; [exact B|]. split; [exact C|]. intros j Hj n. specialize (D j Hj). destruct (Hm j ltac:(lia)) as (A' & _ & C' & _).
  unfold crosses in D. pose proof (Hu i Hi). pose proof (Hu j ltac:(lia)). unfold bytesOfRing in *. fold n in A', C', D |- *.
  rewrite !u64_small in D by (change (2 ^ 32) with 4294967296 in *; unfold in_u64; subst n; lia). lia.
Qed.

Definition allReadings (rings : list RingMemory) (s : PciRingSetup) (n : Z) : list (Z * Z) := concat (map (ringReadings rings s) (seqZ 0 n)).
Lemma concat_next {A} (f : Z -> list A) n : 0 <= n -> concat (map f (seqZ 0 (n + 1))) = concat (map f (seqZ 0 n)) ++ f n.
Proof. intros Hn. rewrite seqZ_app, map_app, concat_app by lia. change (seqZ (0 + n) 1) with [0 + (0 + n)]. cbn [map concat]. rewrite !Z.add_0_l, app_nil_r. reflexivity. Qed.
Lemma allReadings_in rings s n p : In p (allReadings rings s n) -> exists i, 0 <= i < n /\ In p (ringReadings rings s i).
Proof.
  intros H. apply List.in_concat in H as (l & Hl & Hp). apply List.in_map_iff in Hl as (i & <- & Hi). apply list_elem_of_In, elem_of_seqZ in Hi.
  exists i. split; [lia|exact Hp].
Qed.
Lemma allReadings_ring rings s g n i : reads g (allReadings rings s n) -> 0 <= i < n -> reads g (ringReadings rings s i).
Proof.
  unfold reads, allReadings. rewrite !List.Forall_forall. intros H Hi p Hp. apply H, List.in_concat. exists (ringReadings rings s i). split; [|exact Hp].
  apply List.in_map, list_elem_of_In, elem_of_seqZ. lia.
Qed.
Lemma same_readings rings s s' n : same s s' -> allReadings rings s' n = allReadings rings s n.
Proof. intros (E & _). unfold allReadings, ringReadings, countValue, bdramValue, savedAt. rewrite E. reflexivity. Qed.

Lemma snapshots_see s g : Kept s g -> snapshot_ s = false ->
  wpm setupRules (for_each 0 9 snapshotRing) s g (goesOn (fun s' g' => snapshot_ s' = false /\ init_ s' = init_ s /\ tried (outcome s') = tried (outcome s) /\ keeps [] g g' /\ snapped 9 s' g')).
Proof.
  intros Hk Hs. apply (wpm_for_each _ (fun j s' g' => snapshot_ s' = false /\ init_ s' = init_ s /\ tried (outcome s') = tried (outcome s) /\ keeps [] g g' /\ snapped j s' g'));
    [lia| |intros j s1 g1 Hj (A & B & T & K & H)|intros s1 g1 H; exact H].
  - do 3 (split; [assumption || reflexivity|]). split; [apply keeps_refl|]. split; [apply (k_length _ _ Hk)|lia].
  - eapply wpm_mono; [apply snapshotRing_sees; assumption|]. intros [[]|] s2 g2 H2; [|exact H2]. destruct H2 as (A2 & B2 & T2 & K2 & H2).
    split; [exact A2|]. split; [congruence|]. split; [congruence|]. split; [apply (keeps_trans [] [] _ _ _ K K2)|exact H2].
Qed.
Lemma programs_see rings s g : (forall i, 0 <= i < 9 -> laid rings i) -> ready s g ->
  wpm setupRules (for_each 0 9 (programRing rings)) s g (goesOn (fun s' g' => same s s' /\ ready s' g' /\ reads g' (allReadings rings s 9))).
Proof.
  intros Hlaid Hr. apply (wpm_for_each _ (fun j s' g' => same s s' /\ ready s' g' /\ reads g' (allReadings rings s j)));
    [lia| |intros j s1 g1 Hj (S1 & R1 & F1)|intros s1 g1 H; exact H].
  - split; [apply same_self|]. split; [exact Hr|apply List.Forall_nil].
  - eapply wpm_mono; [apply programRing_sees; [exact Hj|destruct (Hlaid j Hj) as (H & _); lia|exact R1]|]. intros [[]|] s2 g2 H2; [|exact H2].
    destruct H2 as (S2 & K2 & F2). split; [apply (same_trans _ _ _ S1 S2)|]. split; [apply (ready_same _ _ _ _ _ R1 S2 K2)|].
    unfold allReadings. rewrite concat_next by lia. apply List.Forall_app. split.
    + apply (reads_keeps _ g1 g2 _ K2); [|exact F1]. apply List.Forall_forall. intros p Hp. apply allReadings_in in Hp as (i & Hi & Hp).
      apply (regs_apart i j); [lia|exact Hj|lia|]. rewrite <- (ringReadings_regs rings s). apply List.in_map, Hp.
    + assert (E : ringReadings rings s j = ringReadings rings s1 j) by (destruct S1 as (E & _); unfold ringReadings, countValue, bdramValue, savedAt; rewrite E; reflexivity).
      rewrite E. exact F2.
Qed.
Lemma awaitReset_sees n b p s g (Q : option bool -> PciRingSetup -> Watched -> Prop) :
  (forall r s' g', same s s' -> keeps [] g g' -> Q r s' g') -> wpm setupRules (awaitReset n b p) s g Q.
Proof.
  revert p s g. induction n as [|n IH]; intros p s g HQ; cbn [awaitReset]; [apply wpm_ret, HQ; [apply same_self|apply keeps_refl]|].
  unfold resetTurn, nowUs. do 3 wstep. refine (wpm_call setupRules NowUs s g _ _ _); [exact I|]. intros x _. apply wpm_ret. cbn beta iota.
  destruct (_ || _); [do 2 apply wpm_ret; apply HQ; [apply same_self|apply keeps_refl]|]. wstep. apply read32_sees. intros v. wstep. apply wpm_modify. cbn beta iota.
  set (s1 := s <| outcome := _ |>). assert (S1 : same s s1) by (repeat split). destruct (_ || _).
  - wstep. apply wpm_get. cbn beta iota. wstep. apply mismatch_wp. intros s2 S2. apply HQ; [apply (same_trans _ _ _ S1 S2)|apply keeps_read].
  - destruct (negb (flag v 8)); [do 2 apply wpm_ret; apply HQ; [exact S1|apply keeps_read]|].
    wstep. refine (wpm_call setupRules (PauseUs 50) s1 _ _ _ _); [exact I|]. intros [] _. apply wpm_ret. apply IH. intros r s2 g2 S2 K2. apply HQ.
    + apply (same_trans _ _ _ S1 S2).
    + apply (keeps_trans [] [] _ _ _ (keeps_read _ _ _) K2).
Qed.

(** What a successful [configure] has read back. *)
Record Programmed (rings : list RingMemory) (s : PciRingSetup) (g : Watched) : Prop := {
  pr_laid : forall i, 0 <= i < 9 -> laid rings i;
  pr_rings : forall i, 0 <= i < 9 -> reads g (ringReadings rings s i);
  pr_index : forall i, 0 <= i < 9 -> In (rr_index (regsOf i), 0) (known g);
  pr_init : In (0x1000, init_ s) (known g);
  pr_safe : safeNow g
}.
Lemma others_see init s g : ready s g -> init_ s = init ->
  wpm setupRules (must (write32 0x1014 0x70f &&> write32 0x1018 3 &&> write32 0x1000 (Z.lor init 8))) s g
    (goesOn (fun s' g' => same s s' /\ keeps otherRegs g g')).
Proof.
  intros Hr <-. apply wpm_must. eapply wpm_mono.
  { apply (and_sees [0x1014] ([0x1018] ++ [0x1000]) [] ([] ++ [])); [apply write32_sees; intros g1 K1 Hs; split; [exact Hs|]; right; left; reflexivity| |apply List.Forall_nil].
    intros s1 g1 S1 K1. apply (and_sees [0x1018] [0x1000] [] []); [apply write32_sees; intros g2 K2 Hs; split; [exact Hs|]; right; right; left; reflexivity| |apply List.Forall_nil].
    intros s2 g2 S2 K2. apply write32_sees. intros g3 K3 Hs. split; [exact Hs|]. right. right. right. split; [reflexivity|]. exists (init_ s). split; [|right; reflexivity].
    apply (proj1 K3), (proj1 K2), (proj1 K1). apply (k_snapshot _ _ (proj2 Hr) (proj1 Hr)). }
  intros o s1 g1 (b & -> & S1 & K1 & _). destruct b; [split; [exact S1|exact K1]|apply (kept_same _ _ _ _ _ (proj2 Hr) S1 K1)].
Qed.
Lemma indices_see s g facts : reads g facts ->
  wpm setupRules (for_each 0 9 (fun i => must (equal32 (rr_index (regsOf i)) 0))) s g (fun r s' g' =>
    same s s' /\ keeps [] g g' /\ (r = Some tt -> reads g' facts /\ forall i, 0 <= i < 9 -> In (rr_index (regsOf i), 0) (known g'))).
Proof.
  intros Hf. apply (wpm_for_each _ (fun j s' g' => same s s' /\ keeps [] g g' /\ reads g' facts /\ forall i, 0 <= i < j -> In (rr_index (regsOf i), 0) (known g')));
    [lia| |intros j s1 g1 Hj (S1 & K1 & F1 & I1)|intros s1 g1 (S1 & K1 & F1 & I1); auto].
  - split; [apply same_self|]. split; [apply keeps_refl|]. split; [exact Hf|lia].
  - apply wpm_must. eapply wpm_mono; [apply equal32_sees|]. intros o s2 g2 (b & -> & S2 & K2 & H2).
    pose proof (same_trans _ _ _ S1 S2) as S. pose proof (keeps_trans [] [] _ _ _ K1 K2) as K. destruct b; [|split; [exact S|]; split; [exact K|discriminate]].
    split; [exact S|]. split; [exact K|]. split; [apply (reads_nil _ _ _ K2 F1)|]. intros i Hi. destruct (Z.eq_dec i j) as [->|].
    + specialize (H2 eq_refl). inversion H2; assumption.
    + apply (proj2 K2); [intros []|apply I1; lia].
Qed.
Lemma andSafe_sees a v s g : wpm setupRules (must (equal32 a v &&> safe)) s g (fun r s' g' =>
  same s s' /\ keeps [] g g' /\ (r = Some tt -> In (a, v) (known g') /\ safeNow g')).
Proof.
  apply wpm_must, wpm_andM. eapply wpm_mono; [apply equal32_sees|]. intros o s1 g1 (b & -> & S1 & K1 & H1).
  destruct b; [|split; [exact S1|]; split; [exact K1|discriminate]]. eapply wpm_mono; [apply safe_sees|]. intros o s2 g2 (b & -> & S2 & K2 & H2).
  pose proof (same_trans _ _ _ S1 S2) as S. pose proof (keeps_trans [] [] _ _ _ K1 K2) as K. destruct b; (split; [exact S|]; split; [exact K|]); [|discriminate].
  intros _. specialize (H1 eq_refl). inversion H1; subst. split; [apply (proj2 K2); [intros []|assumption]|apply H2; reflexivity].
Qed.

Lemma configure_sees rings s g : unsignedRings rings -> Kept s g ->
  wpm setupRules (configure rings) s g (fun r s' g' => Kept s' g' /\ exists b, r = Some b /\ (b = true -> Programmed rings s' g')).
Proof.
  intros Hu Hk. unfold configure. wstep. apply wpm_get. cbn beta iota. destruct (tried (outcome s)) eqn:Et; [apply wpm_ret; split; [exact Hk|exists false; split; [reflexivity|discriminate]]|].
  pose proof (k_tried _ _ Hk Et) as Hs0. apply wpm_succeeds.
  apply (wpm_mono _ _ _ _ (goesOn (fun s' g' => Kept s' g' /\ Programmed rings s' g'))).
  2: { intros [[]|] s' g' H; [split; [apply H|]; exists true; split; [reflexivity|]; intros _; apply H|split; [exact H|]; exists false; split; [reflexivity|discriminate]]. }
  wstep. apply wpm_modify. set (s0 := s <| outcome := _ |>).
  assert (K0 : Kept s0 g) by (split; [exact (k_length _ _ Hk)|intros _; exact Hs0|intros H; change (snapshot_ s = true) in H; congruence]).
  wstep. unfold unless. destruct (forallb _ _) eqn:Ef; [apply wpm_ret|apply wpm_brk; exact K0]. pose proof (fits_laid rings Hu Ef) as Hlaid.
  wstep. apply wpm_must. eapply wpm_mono; [apply safe_sees|]. intros o s1 g1 (b & -> & S1 & K1 & _). destruct b; [|apply (kept_same _ _ _ _ _ K0 S1 K1)].
  pose proof (kept_same _ _ _ _ _ K0 S1 K1) as Hk1. assert (Hs1 : snapshot_ s1 = false /\ tried (outcome s1) = true) by (destruct S1 as (_ & _ & E & T); rewrite E, T; split; [exact Hs0|reflexivity]).
  wstep. apply read32_sees. intros hci. set (g2 := sawRead _ hci g1). pose proof (kept_same _ _ _ _ _ Hk1 (same_self s1) (keeps_read 0x8380 hci g1)) as Hk2. fold g2 in Hk2. clearbody g2.
  wstep. apply reject_wp; [intros s' S'; apply (kept_same _ _ _ _ _ Hk2 S' (keeps_refl [] _))|intros _].
  wstep. apply read32_sees. intros init. set (g3 := sawRead _ init g2). assert (Hi3 : In (0x1000, init) (ever g3)) by (left; reflexivity). clearbody g3.
  wstep. apply wpm_modify. set (s3 := s1 <| init_ := init |>).
  assert (Hk3 : Kept s3 g3) by (split; [exact (k_length _ _ Hk1)|intros _; apply Hs1|intros H; change (snapshot_ s1 = true) in H; destruct Hs1; congruence]).
  wstep. apply reject_wp; [intros s' S'; apply (kept_same _ _ _ _ _ Hk3 S' (keeps_refl [] _))|intros _].
  wstep. eapply wpm_mono; [apply snapshots_see; [exact Hk3|apply Hs1]|]. intros [[]|] s4 g4 H4; [|exact H4]. destruct H4 as (A4 & B4 & T4 & K4 & N4).
  wstep. apply wpm_modify. set (s5 := s4 <| snapshot_ := true |>). change (init_ s4 = init) in B4.
  assert (R5 : ready s5 g4).
  { split; [reflexivity|]. split; [apply N4|intros H; change (tried (outcome s4) = false) in H; rewrite T4 in H; change (tried (outcome s1) = false) in H; destruct Hs1; congruence|].
    intros _. split; [exact N4|]. change (In (0x1000, init_ s4) (ever g4)). rewrite B4. apply (proj1 K4), Hi3. }
  wstep. eapply wpm_mono; [apply (programs_see rings s5 g4 Hlaid R5)|]. intros [[]|] s6 g6 H6; [|exact H6]. destruct H6 as (S6 & R6 & F6).
  assert (E6 : init_ s6 = init) by (destruct S6 as (_ & E & _); rewrite E; exact B4).
  wstep. eapply wpm_mono; [apply (others_see init); [exact R6|exact E6]|]. intros [[]|] s7 g7 H7; [|exact H7]. destruct H7 as [S7 K7].
  assert (F7 : reads g7 (allReadings rings s5 9)).
  { apply (reads_keeps otherRegs g6 g7 _ K7); [|exact F6]. apply List.Forall_forall. intros p Hp. apply allReadings_in in Hp as (i & Hi & Hp).
    apply (others_apart i); [exact Hi|]. rewrite <- (ringReadings_regs rings s5). apply List.in_map, Hp. }
  pose proof (ready_same _ _ _ _ _ R6 S7 K7) as R7. pose proof (same_trans _ _ _ S6 S7) as S57.
  wstep. unfold nowUs at 1. wstep. refine (wpm_call setupRules NowUs s7 g7 _ _ _); [exact I|]. intros x _. apply wpm_ret. cbn beta iota.
  wstep. apply awaitReset_sees. intros r s8 g8 S8 K8. destruct r as [reset|]; [|apply (kept_same _ _ _ _ _ (proj2 R7) S8 K8)].
  wstep. unfold unless. destruct reset; [apply wpm_ret|].
  2: { wstep. apply read32_sees. intros v. apply reject_wp; [|discriminate]. intros s' S'. apply (kept_same _ _ _ _ _ (proj2 R7) (same_trans _ _ _ S8 S') (keeps_trans [] [] _ _ _ K8 (keeps_read _ v _))). }
  pose proof (reads_nil _ _ _ K8 F7) as F8. wstep. eapply wpm_mono; [apply (indices_see s8 g8 _ F8)|]. intros o s9 g9 (S9 & K9 & H9).
  pose proof (kept_same _ _ _ _ _ (kept_same _ _ _ _ _ (proj2 R7) S8 K8) S9 K9) as Hk9. destruct o as [[]|]; [|exact Hk9]. destruct (H9 eq_refl) as [F9 I9].
  wstep. eapply wpm_mono; [apply andSafe_sees|]. intros o s10 g10 (S10 & K10 & H10). pose proof (kept_same _ _ _ _ _ Hk9 S10 K10) as Hk10.
  destruct o as [[]|]; [|exact Hk10]. destruct (H10 eq_refl) as [Hin Hsafe]. apply wpm_modify. cbn [goesOn].
  pose proof (same_trans _ _ _ S57 (same_trans _ _ _ S8 (same_trans _ _ _ S9 S10))) as S510.
  split; [apply (kept_same s10 _ g10 _ [] Hk10); [repeat split|apply keeps_refl]|]. split.
  - exact Hlaid.
  - intros i Hi. apply (allReadings_ring rings _ g10 9); [|exact Hi]. change (reads g10 (allReadings rings s10 9)). rewrite (same_readings rings _ _ 9 S510). apply (reads_nil _ _ _ K10 F9).
  - intros i Hi. apply (proj2 K10); [intros []|apply I9, Hi].
  - change (In (0x1000, init_ s10) (known g10)). destruct S510 as (_ & E & _). rewrite E. change (In (0x1000, init_ s4) (known g10)). rewrite B4. exact Hin.
  - exact Hsafe.
Qed.

(** ** Putting back *)

Record Restored (s : PciRingSetup) (g : Watched) : Prop := {
  re_rings : forall i, 0 <= i < 9 -> reads g (savedReadings s i);
  re_init : In (0x1000, init_ s) (known g);
  re_safe : safeNow g
}.
(** A step that always answers. *)
Definition replied (l : list Z) (s : PciRingSetup) (g : Watched) (r : option bool) (s' : PciRingSetup) (g' : Watched) : Prop :=
  exists b, r = Some b /\ same s s' /\ keeps l g g'.
Lemma replied_of l facts s g r s' g' : answered l facts s g r s' g' -> replied l s g r s' g'.
Proof. intros (b & E & S & K & _). exists b. auto. Qed.
Lemma same_saved s s' i : same s s' -> savedAt s' i = savedAt s i.
Proof. intros (E & _). unfold savedAt. rewrite E. reflexivity. Qed.

Lemma restoreRing_sees s0 ok i s g : 0 <= i < 9 -> same s0 s -> ready s g ->
  wpm setupRules (restoreRing s0 ok i) s g (replied (ringRegs i) s g).
Proof.
  intros Hi S0 Hr. unfold restoreRing. cbv zeta. set (r := regsOf i). destruct (proj2 (proj1 (k_snapshot _ _ (proj2 Hr) (proj1 Hr))) i Hi) as (_ & Hh & _).
  assert (Esv : savedAt s0 i = savedAt s i) by (symmetry; apply same_saved, S0). rewrite Esv. set (v := savedAt s i) in *.
  set (bd := if rr_bdram r =? 0 then [] else [rr_bdram r]).
  wstep. eapply wpm_mono; [apply write32_sees; intros g' K Hs; apply (ring_may i); [exact Hi|exact Hs|exact Hh]|]. intros o s1 g1 (b1 & -> & S1 & K1 & _).
  wstep. eapply wpm_mono; [apply write32_sees; intros g' K Hs; apply (low_may i); [exact Hi|exact Hs]|]. intros o s2 g2 (b2 & -> & S2 & K2 & _).
  pose proof (keeps_trans _ _ _ _ _ K1 K2) as K02.
  wstep. eapply wpm_mono; [apply write16_sees; intros g' K Hs; apply (count_may i g' s); [exact Hi|eapply ready_same; [exact Hr|apply same_self|apply (keeps_trans _ _ _ _ _ K02 K)]|exact Hs|reflexivity]|].
  intros o s3 g3 (b3 & -> & S3 & K3 & _). pose proof (keeps_trans _ _ _ _ _ K02 K3) as K03. pose proof (same_trans _ _ _ S1 (same_trans _ _ _ S2 S3)) as S03.
  wstep. eapply wpm_mono; [apply (skip_sees [rr_bdram r] s3 g3 _ (rr_bdram r =? 0) []); intros Hb; apply write32_sees; intros g' K Hs; apply (bdram_may i g' s);
    [exact Hi|eapply ready_same; [exact Hr|apply same_self|apply (keeps_trans _ _ _ _ _ K03 K)]|exact Hs|exact Hb|reflexivity]|].
  intros o s4 g4 (b4 & -> & S4 & K4 & _). apply wpm_ret. eexists. split; [reflexivity|]. split; [apply (same_trans _ _ _ S03 S4)|]. exact (keeps_trans _ _ _ _ _ K03 K4).
Qed.
Lemma restoreRings_see s0 l ok s g : (forall i, In i l -> 0 <= i < 9) -> same s0 s -> ready s g ->
  wpm setupRules (through l (restoreRing s0) ok) s g (fun r s' g' => exists b, r = Some b /\ same s s' /\ ready s' g').
Proof.
  revert ok s g. induction l as [|i l IH]; intros ok s g Hl S0 Hr; cbn [through].
  { apply wpm_ret. exists ok. split; [reflexivity|]. split; [apply same_self|exact Hr]. }
  wstep. eapply wpm_mono; [apply restoreRing_sees; [apply Hl; left; reflexivity|exact S0|exact Hr]|]. intros o s1 g1 (b & -> & S1 & K1).
  eapply wpm_mono; [apply IH; [intros j Hj; apply Hl; right; exact Hj|apply (same_trans _ _ _ S0 S1)|apply (ready_same _ _ _ _ _ Hr S1 K1)]|].
  intros o s2 g2 (b2 & -> & S2 & R2). exists b2. split; [reflexivity|]. split; [apply (same_trans _ _ _ S1 S2)|exact R2].
Qed.
Lemma checkRestored_sees s0 ok i s g : wpm setupRules (checkRestored s0 ok i) s g (fun r s' g' => exists b, r = Some b /\ same s s' /\ keeps [] g g' /\
  (b = true -> ok = true /\ reads g' (savedReadings s0 i))).
Proof.
  unfold checkRestored. cbv zeta. set (r := regsOf i). set (v := savedAt s0 i). wstep. eapply wpm_mono.
  { apply (and_sees [] []); [apply equal32_sees| |apply List.Forall_cons; [intros []|apply List.Forall_nil]]. intros s1 g1 S1 K1.
    apply (and_sees [] []); [apply equal32_sees|intros s2 g2 S2 K2; apply equal16_sees|apply List.Forall_cons; [intros []|apply List.Forall_nil]]. }
  intros o s1 g1 (b1 & -> & S1 & K1 & H1). unfold savedReadings. fold r v. destruct (rr_bdram r =? 0).
  - apply wpm_ret. exists (b1 && ok). split; [reflexivity|]. split; [exact S1|]. split; [exact K1|]. intros H. apply andb_true_iff in H as [-> ->]. split; [reflexivity|]. apply H1. reflexivity.
  - wstep. eapply wpm_mono; [apply equal32_sees|]. intros o s2 g2 (b2 & -> & S2 & K2 & H2). apply wpm_ret. exists (b2 && (b1 && ok)). split; [reflexivity|].
    split; [apply (same_trans _ _ _ S1 S2)|]. split; [apply (keeps_trans [] [] _ _ _ K1 K2)|]. intros H. apply andb_true_iff in H as [-> H]. apply andb_true_iff in H as [-> ->].
    split; [reflexivity|]. apply List.Forall_app. split; [apply (reads_nil _ _ _ K2), H1; reflexivity|apply H2; reflexivity].
Qed.
Lemma checksRestored_see s0 l ok s g : wpm setupRules (through l (checkRestored s0) ok) s g (fun r s' g' => exists b, r = Some b /\ same s s' /\ keeps [] g g' /\
  (b = true -> ok = true /\ Forall (fun i => reads g' (savedReadings s0 i)) l)).
Proof.
  revert ok s g. induction l as [|i l IH]; intros ok s g; cbn [through].
  { apply wpm_ret. exists ok. split; [reflexivity|]. split; [apply same_self|]. split; [apply keeps_refl|]. intros ->. split; [reflexivity|apply List.Forall_nil]. }
  wstep. eapply wpm_mono; [apply checkRestored_sees|]. intros o s1 g1 (b & -> & S1 & K1 & H1). eapply wpm_mono; [apply IH|]. intros o s2 g2 (b2 & -> & S2 & K2 & H2).
  exists b2. split; [reflexivity|]. split; [apply (same_trans _ _ _ S1 S2)|]. split; [apply (keeps_trans [] [] _ _ _ K1 K2)|]. intros Hb.
  destruct (H2 Hb) as [-> F2]. destruct (H1 eq_refl) as [-> F1]. split; [reflexivity|]. apply List.Forall_cons; [apply (reads_nil _ _ _ K2 F1)|exact F2].
Qed.
Lemma restore_sees s g : Kept s g ->
  wpm setupRules restore s g (fun r s' g' => Kept s' g' /\ exists b, r = Some b /\ (b = true -> Restored s' g')).
Proof.
  intros Hk. assert (Hno : forall s' g' l, same s s' -> keeps l g g' -> Kept s' g' /\ exists b, Some false = Some b /\ (b = true -> Restored s' g')).
  { intros s' g' l S K. split; [apply (kept_same _ _ _ _ _ Hk S K)|]. exists false. split; [reflexivity|discriminate]. }
  unfold restore. wstep. apply wpm_get. cbn beta iota. destruct (snapshot_ s) eqn:Es; cbn [negb]; [|apply wpm_ret, (Hno s g []); [apply same_self|apply keeps_refl]].
  assert (Hr : ready s g) by (split; [exact Es|exact Hk]). wstep. eapply wpm_mono; [apply safe_sees|]. intros o s1 g1 (b & -> & S1 & K1 & _).
  destruct b; cbn [negb]; [|apply wpm_ret, (Hno _ _ _ S1 K1)]. pose proof (ready_same _ _ _ _ _ Hr S1 K1) as R1.
  wstep. eapply wpm_mono; [apply restoreRings_see; [apply cases_ring|exact S1|exact R1]|]. intros o s2 g2 (b2 & -> & S2 & R2). pose proof (same_trans _ _ _ S1 S2) as S02.
  wstep. eapply wpm_mono; [apply write32_sees; intros g' K Hs; split; [exact Hs|]; right; right; right; split; [reflexivity|]; exists (init_ s); split; [|left; reflexivity]|].
  { apply (proj1 K). destruct S02 as (_ & E & _). rewrite <- E. apply (k_snapshot _ _ (proj2 R2) (proj1 R2)). }
  intros o s3 g3 (b3 & -> & S3 & K3 & _). pose proof (ready_same _ _ _ _ _ R2 S3 K3) as R3. pose proof (same_trans _ _ _ S02 S3) as S03.
  wstep. eapply wpm_mono; [apply checksRestored_see|]. intros o s4 g4 (b4 & -> & S4 & K4 & H4). pose proof (ready_same _ _ _ _ _ R3 S4 K4) as R4. pose proof (same_trans _ _ _ S03 S4) as S04.
  wstep. apply (wpm_mono _ _ _ _ (fun r s' g' => exists b, r = Some b /\ same s4 s' /\ keeps [] g4 g' /\ (b = true -> b4 = true /\ In (0x1000, init_ s) (known g') /\ safeNow g'))).
  { wstep. eapply wpm_mono; [apply equal32_sees|]. intros o s5 g5 (b5 & -> & S5 & K5 & H5). destruct (b5 && b4) eqn:E.
    - apply andb_true_iff in E as [-> ->]. specialize (H5 eq_refl). inversion H5; subst. eapply wpm_mono; [apply safe_sees|]. intros o s6 g6 (b6 & -> & S6 & K6 & H6).
      exists b6. split; [reflexivity|]. split; [apply (same_trans _ _ _ S5 S6)|]. split; [apply (keeps_trans [] [] _ _ _ K5 K6)|]. intros Hb. split; [reflexivity|].
      split; [apply (proj2 K6); [intros []|assumption]|apply H6, Hb].
    - apply wpm_ret. exists false. split; [reflexivity|]. split; [exact S5|]. split; [exact K5|discriminate]. }
  intros o s5 g5 (done & -> & S5 & K5 & H5). pose proof (same_trans _ _ _ S04 S5) as S05. pose proof (ready_same _ _ _ _ _ R4 S5 K5) as R5.
  wstep. apply wpm_modify. apply wpm_ret. set (s6 := s5 <| outcome := _ |>). assert (S56 : same s5 s6) by (repeat split).
  split; [apply (kept_same s5 s6 g5 g5 [] (proj2 R5) S56 (keeps_refl [] _))|]. exists done. split; [reflexivity|]. intros ->. destruct (H5 eq_refl) as (-> & Hi & Hs).
  destruct (H4 eq_refl) as [_ F4]. rewrite List.Forall_forall in F4. split; [|change (In (0x1000, init_ s5) (known g5)); destruct S05 as (_ & E & _); rewrite E; exact Hi|exact Hs].
  intros i Hi9. assert (E : savedReadings s6 i = savedReadings s i) by (unfold savedReadings; rewrite (same_saved s s6 i (same_trans _ _ _ S05 S56)); reflexivity).
  rewrite E. apply (reads_nil _ _ _ K5), F4, ring_cases, Hi9.
Qed.

(** ** Any sequence of calls *)

Inductive setupCall := SConfigure (rings : list RingMemory) | SRestore.
Definition callOk (c : setupCall) : Prop := match c with SConfigure rings => unsignedRings rings | SRestore => True end.
Definition setupDo (c : setupCall) : SD bool := match c with SConfigure rings => configure rings | SRestore => restore end.
Definition achieved (c : setupCall) (s : PciRingSetup) (g : Watched) : Prop :=
  match c with SConfigure rings => Programmed rings s g | SRestore => Restored s g end.
Lemma newRingSetup_kept : Kept newRingSetup newWatched.
Proof. split; [reflexivity|reflexivity|discriminate]. Qed.

(** C32: Every write of [configure] and [restore] is to a register of the rings of
    a device just seen stopped, and leaves the bits the rings do not own as
    they were read.  [configure] answers true only when the rings' memories lie
    apart and every register reads as programmed with the device still
    stopped; [restore] only when every register reads as before.  The
    invariant both rely on holds of a new object and is kept by both. *)
Theorem setup_contract c s g tr r s' : callOk c -> Kept s g -> exec (setupDo c s) tr (r, s') ->
  accepts setupRules g tr /\ Kept s' (after setupRules g tr) /\ exists b, r = Some b /\ (b = true -> achieved c s' (after setupRules g tr)).
Proof.
  intros Hc Hk He. assert (Hw : wpm setupRules (setupDo c) s g (fun r s' g' => Kept s' g' /\ exists b, r = Some b /\ (b = true -> achieved c s' g')))
    by (destruct c; [apply configure_sees|apply restore_sees]; assumption).
  apply (wp_sound setupRules _ _ _ _ _ Hw He). apply relies_trivial. intros; exact I.
Qed.

(** ** A concrete run: the reset bit clears itself *)

Definition resetBoard : handler Io IoBoard := fun d o =>
  match o as o return Ans Io o * IoBoard with
  | Write32 a v => (true, poke a (if a =? 0x1000 then Z.ldiff v 8 else v) d)
  | o => ioBoard d o
  end.
Definition stoppedBoard : IoBoard := mkIo [(0x1010, 0x1f0f00); (0x8380, 3); (0x1200, 0x5a000000); (0x1024, 0x3000)] 2 0.
Definition configureRun := run_trace resetBoard (configure sampleRings newRingSetup) stoppedBoard.
Definition configured : PciRingSetup := snd (fst (fst configureRun)).
Definition restoreRun := run_trace resetBoard (restore configured) (snd (fst configureRun)).
Example sample_configured : fst (fst (fst configureRun)) = Some true.
Proof. vm_compute. reflexivity. Qed.
Example sample_restored : (fst (fst (fst restoreRun)), peek 0x1200 (snd (fst restoreRun)), peek 0x1024 (snd (fst restoreRun)), peek 0x1110 (snd (fst restoreRun))) =
  (Some true, 0x5a000000, 0x3000, 0).
Proof. vm_compute. reflexivity. Qed.
Lemma setup_contract_witness :
  accepts setupRules newWatched (snd configureRun) /\ Kept configured (after setupRules newWatched (snd configureRun)) /\
  exists b, fst (fst (fst configureRun)) = Some b /\ (b = true -> achieved (SConfigure sampleRings) configured (after setupRules newWatched (snd configureRun))).
Proof.
  apply (setup_contract (SConfigure sampleRings) newRingSetup newWatched).
  - intros i Hi. z_cases i 0 9; vm_compute; discriminate.
  - apply newRingSetup_kept.
  - unfold configured. rewrite <- surjective_pairing. apply run_trace_exec.
Defined.
