(* ===== verification/RxDmaQueue.v ===== *)
(** * The receive queues (src/network/RxDmaQueue.hpp)

    [RxDmaQueue] owns 65 DMA banks: 64 buffers and the ring that names them.
    [poll] lends each filled buffer to a callback, which may call the queue
    again.  Banks are numbered 0 to 63, the ring is bank 64. *)

From S2P Require Import Prelude Prog DataPath.

(** ** The banks and the callback *)

(** What a callback may ask of the queue. *)
Inductive RxCall := XAllocate | XMarkDeviceVisible | XPoll (producer budget : Z) (receive : bool) | XRelease | XReleaseAfterDmaStopped.
Inductive bankOp :=
| Allocate (b size alignment : Z) | Mapping (b : Z) | SyncForDevice (b : Z) | SyncForCpu (b : Z)
| MarkDeviceVisible (b : Z) | Release (b : Z) | ReleaseAfterDmaStopped (b : Z)
| Load (b : Z) | Store16 (b off v : Z) | Store32 (b off v : Z)
| Receive (b length : Z).
(** [Mapping]: null bytes, or the bus address and the capacity. *)
Definition bankAns (o : bankOp) : Type :=
  match o with
  | Mapping _ => option (Z * Z)
  | Load _ => Z
  | Store16 _ _ _ | Store32 _ _ _ => unit
  | Receive _ _ => list RxCall
  | _ => bool
  end.
Definition Banks : sig := Sig bankOp bankAns.

(** ** The object *)

Definition slots : Z := 64.
Definition bufferBytes : Z := 11454 + 40.
Definition ring : Z := slots.
Record RxDmaPoll := mkPoll { ok : bool; consumer : Z; processed : Z; delivered : Z; dropped : Z }.
#[export] Instance RxDmaPoll_rebuild : Rebuild RxDmaPoll := fun r =>
  mkPoll (ok r) (consumer r) (processed r) (delivered r) (dropped r).
Record RxDmaQueue := mkQueue {
  consumer_ : Z; occupied_ : bool; ready_ : bool; visible_ : bool; faulted_ : bool; polling_ : bool
}.
#[export] Instance RxDmaQueue_rebuild : Rebuild RxDmaQueue := fun s =>
  mkQueue (consumer_ s) (occupied_ s) (ready_ s) (visible_ s) (faulted_ s) (polling_ s).
Definition newQueue : RxDmaQueue := mkQueue 0 false false false false false.
Definition Q (A : Type) : Type := M Banks RxDmaQueue A.
Definition bank (o : bankOp) : Q (bankAns o) := call (Σ:=Banks) o.

(** [for (auto &b : buffers_) ok = f(b) && ok;] *)
Fixpoint everyBuffer (n : nat) (b : Z) (f : Z -> Q bool) (good : bool) : Q bool :=
  match n with
  | O => mret good
  | Datatypes.S n => x ← f b; everyBuffer n (b + 1) f (x && good)
  end.
(** What both releases do to the banks. *)
Definition freeAll (op : Z -> Q bool) : Q bool :=
  good ← everyBuffer 64 0 op true;
  x ← op ring;
  let good := (x : bool) && good in
  when good (modify (fun s => s <| occupied_ := false |> <| faulted_ := false |> <| consumer_ := 0 |>));;
  mret good.
Definition release : Q bool :=
  s ← get;
  if visible_ s || polling_ s then mret false else
  modify (fun s => s <| ready_ := false |>);;
  freeAll (fun b => bank (Release b)).
Definition releaseAfterDmaStopped : Q bool :=
  s ← get;
  if polling_ s then mret false else
  modify (fun s => s <| ready_ := false |> <| visible_ := false |>);;
  freeAll (fun b => bank (ReleaseAfterDmaStopped b)).

(** [if (!ok) { release(); return false; }] *)
Definition orRelease (good : bool) : Q unit := unless good (release;; brk).
(** The mapping of a bank that can hold [need] bytes. *)
Definition usable (m : option (Z * Z)) (need : Z) : bool :=
  match m with Some (physical, capacity) => (need <=? capacity) && dma32Range physical need | None => false end.
(** The ring entry of buffer [i]. *)
Definition describe (i : Z) : Q unit :=
  m ← bank (Mapping i);
  orRelease (usable m bufferBytes);;
  let physical := match m with Some (p, _) => p | None => 0 end in
  bank (Store16 ring (i * 8) (u16 bufferBytes));;
  bank (Store16 ring (i * 8 + 2) 0);;
  bank (Store32 ring (i * 8 + 4) (u32 physical)).
Definition allocate : Q bool :=
  s ← get;
  if occupied_ s then mret false else
  succeeds (
    modify (fun s => s <| occupied_ := true |> <| consumer_ := 0 |> <| faulted_ := false |>);;
    x ← bank (Allocate ring (slots * 8) 8); orRelease x;;
    for_each 0 64 (fun i => x ← bank (Allocate i bufferBytes 8); orRelease x);;
    m ← bank (Mapping ring); orRelease (usable m (slots * 8));;
    for_each 0 64 describe;;
    x ← bank (SyncForDevice ring); orRelease x;;
    modify (fun s => s <| ready_ := true |>)).
Definition markDeviceVisible : Q bool :=
  s ← get;
  if negb (ready_ s) || faulted_ s then mret false else
  modify (fun s => s <| visible_ := true |>);;
  x ← bank (MarkDeviceVisible ring);
  good ← everyBuffer 64 0 (fun b => bank (MarkDeviceVisible b)) x;
  unless (good : bool) (modify (fun s => s <| faulted_ := true |>));;
  mret good.

(** ** Polling; [callback] runs what the receiver asks *)

Section poll.
Context (callback : list RxCall -> Q unit).

(** A buffer is lent, cleared and given back. *)
Fixpoint pollLoop (n : nat) (r : RxDmaPoll) : Q RxDmaPoll :=
  match n with
  | O => mret (r <| ok := true |>)
  | Datatypes.S n =>
      b ← gets consumer_;
      x ← bank (SyncForCpu b);
      if negb x then modify (fun s => s <| faulted_ := true |>);; mret r else
      bank (Mapping b);;
      prefix ← bank (Load b);
      let written := Z.land (u32 prefix) 0x3fff in
      r ← (if (written <? 4) || (bufferBytes <? written) then mret (r <| dropped := dropped r + 1 |>)
           else calls ← bank (Receive b written); callback calls;; mret (r <| delivered := delivered r + 1 |>));
      bank (Store32 b 0 0);;
      x ← bank (SyncForDevice b);
      if negb x then modify (fun s => s <| faulted_ := true |>);; mret r else
      modify (fun s => s <| consumer_ := (consumer_ s + 1) mod 64 |>);;
      c ← gets consumer_;
      pollLoop n (r <| consumer := c |> <| processed := processed r + 1 |>)
  end.
Definition poll (producer budget : Z) (receive : bool) : Q RxDmaPoll :=
  s ← get;
  let r := mkPoll false (consumer_ s) 0 0 0 in
  if negb (ready_ s) || negb (visible_ s) || faulted_ s || polling_ s || (64 <=? producer) || (budget =? 0) || negb receive
  then mret r else
  modify (fun s => s <| polling_ := true |>);;
  let pending := (producer + 64 - consumer_ s) mod 64 in
  r ← pollLoop (Z.to_nat (if budget <? pending then budget else pending)) r;
  modify (fun s => s <| polling_ := false |>);;
  mret r.

Definition doCall (c : RxCall) : Q unit :=
  match c with
  | XAllocate => _ ← allocate; mret tt
  | XMarkDeviceVisible => _ ← markDeviceVisible; mret tt
  | XPoll producer budget receive => _ ← poll producer budget receive; mret tt
  | XRelease => _ ← release; mret tt
  | XReleaseAfterDmaStopped => _ ← releaseAfterDmaStopped; mret tt
  end.
Fixpoint doCalls (l : list RxCall) : Q unit := match l with [] => mret tt | c :: l => doCall c;; doCalls l end.
End poll.

(** Inside a callback [polling_] is set, so that a nested [poll] returns before
    it would call back: its own callback never runs. *)
Definition nested : list RxCall -> Q unit := doCalls (fun _ => mret tt).
Definition session (l : list RxCall) : Q unit := doCalls nested l.


(** ** Who holds the banks

    [held]: allocated; [shown]: made visible to the device; [known]: the
    mapping seen; [lent]: synchronised for the processor and not yet given
    back; [loads] and [given]: what was read of the buffers, and lent to the
    receiver. *)

Record Ledger := mkLedger {
  held : Z -> bool; shown : Z -> bool; known : Z -> option (Z * Z); lent : option Z; loads : list (Z * Z); given : list (Z * Z)
}.
Definition at_ {A} (f : Z -> A) (b : Z) (v : A) : Z -> A := fun k => if k =? b then v else f k.
Definition newLedger : Ledger := mkLedger (fun _ => false) (fun _ => false) (fun _ => None) None [] [].
Definition freed (b : Z) (x : bool) (g : Ledger) : Ledger :=
  mkLedger (if x then at_ (held g) b false else held g) (at_ (shown g) b false) (at_ (known g) b None) (lent g) (loads g) (given g).
Definition bankNext (g : Ledger) (o : bankOp) : bankAns o -> Ledger :=
  match o with
  | Allocate b _ _ => fun x =>
      if x then mkLedger (at_ (held g) b true) (at_ (shown g) b false) (at_ (known g) b None) (lent g) (loads g) (given g) else g
  | Mapping b => fun x => mkLedger (held g) (shown g) (at_ (known g) b x) (lent g) (loads g) (given g)
  | SyncForCpu b => fun x => if x then mkLedger (held g) (shown g) (known g) (Some b) (loads g) (given g) else g
  | SyncForDevice b => fun _ => mkLedger (held g) (shown g) (known g) None (loads g) (given g)
  | MarkDeviceVisible b => fun _ => mkLedger (held g) (at_ (shown g) b true) (known g) (lent g) (loads g) (given g)
  | Release b | ReleaseAfterDmaStopped b => fun x => freed b x g
  | Load b => fun x => mkLedger (held g) (shown g) (known g) (lent g) (loads g ++ [(b, u32 x)]) (given g)
  | Receive b n => fun _ => mkLedger (held g) (shown g) (known g) (lent g) (loads g) (given g ++ [(b, n)])
  | _ => fun _ => g
  end.
(** A mapping with [n] bytes was seen. *)
Definition room (g : Ledger) (b n : Z) : Prop := exists p c, known g b = Some (p, c) /\ n <= c.
Definition bankMay (g : Ledger) (o : bankOp) : Prop :=
  match o with
  | Allocate b _ _ => 0 <= b <= 64 /\ held g b = false
  | Mapping b => held g b = true
  | SyncForCpu b => held g b = true /\ shown g b = true /\ lent g = None
  | SyncForDevice b => held g b = true /\ (lent g = Some b \/ b = ring /\ lent g = None /\ shown g ring = false)
  | MarkDeviceVisible b => held g b = true
  | Release b => lent g = None /\ shown g b = false
  | ReleaseAfterDmaStopped _ => lent g = None
  | Load b => lent g = Some b /\ room g b bufferBytes
  | Receive b n => lent g = Some b /\ room g b bufferBytes /\ 4 <= n <= bufferBytes
  | Store16 b off _ => b = ring /\ held g ring = true /\ shown g ring = false /\ room g ring (slots * 8) /\ 0 <= off /\ off + 2 <= slots * 8
  | Store32 b off _ => lent g = Some b /\ room g b bufferBytes /\ off = 0 \/
      b = ring /\ held g ring = true /\ shown g ring = false /\ room g ring (slots * 8) /\ 0 <= off /\ off + 4 <= slots * 8
  end.
(** A bank keeps its mapping until it is released. *)
Definition bankAssume (g : Ledger) (o : bankOp) : bankAns o -> Prop :=
  match o with
  | Mapping b => fun x => match known g b with Some m => x = Some m | None => True end
  | _ => fun _ => True
  end.
Definition lending : protocol Banks Ledger := Protocol (Σ:=Banks) bankMay bankAssume bankNext.

(** The part of a log that reached the receiver. *)
Definition valid (w : Z) : bool := negb ((Z.land w 0x3fff <? 4) || (bufferBytes <? Z.land w 0x3fff)).
Definition deliveries (l : list (Z * Z)) : list (Z * Z) := map (fun p => (fst p, Z.land (snd p) 0x3fff)) (List.filter (fun p => valid (snd p)) l).
Definition need (b : Z) : Z := if b =? ring then slots * 8 else bufferBytes.

(** The queue's flags say what is held, and what the device may see. *)
Record Owned (s : RxDmaQueue) (g : Ledger) : Prop := {
  o_consumer : 0 <= consumer_ s < 64;
  o_free : occupied_ s = false -> ready_ s = false /\ visible_ s = false /\ forall b, 0 <= b <= 64 -> held g b = false;
  o_ready : ready_ s = true -> forall b, 0 <= b <= 64 -> held g b = true /\ room g b (need b);
  o_visible : visible_ s = true -> ready_ s = true;
  o_shown : forall b, 0 <= b <= 64 -> shown g b = visible_ s;
  o_lent : lent g = None;
  o_idle : polling_ s = false;
  o_given : given g = deliveries (loads g)
}.
Lemma newQueue_owned : Owned newQueue newLedger.
Proof. split; try reflexivity; try discriminate. - cbn. lia. - intros _. auto. Qed.

Lemma at_eq {A} (f : Z -> A) b v : at_ f b v b = v.
Proof. unfold at_. rewrite Z.eqb_refl. reflexivity. Qed.
Lemma at_ne {A} (f : Z -> A) b v k : k <> b -> at_ f b v k = f k.
Proof. intros H. unfold at_. destruct (Z.eqb_spec k b); [contradiction|reflexivity]. Qed.
Lemma bank_wp o s g (P : option (bankAns o) -> RxDmaQueue -> Ledger -> Prop) :
  bankMay g o -> (forall x, bankAssume g o x -> P (Some x) s (bankNext g o x)) -> wpm lending (bank o) s g P.
Proof. intros H1 H2. apply wpm_call; [exact H1|exact H2]. Qed.

(** ** Releasing *)

(** [g'] holds and shows nothing that [g] did not. *)
Definition fewer (g g' : Ledger) : Prop :=
  lent g' = lent g /\ loads g' = loads g /\ given g' = given g /\
  forall b, (held g b = false -> held g' b = false) /\ (shown g b = false -> shown g' b = false).
Lemma fewer_refl g : fewer g g. Proof. repeat split; auto. Qed.
Lemma fewer_trans g1 g2 g3 : fewer g1 g2 -> fewer g2 g3 -> fewer g1 g3.
Proof. intros (A & B & C & D) (A' & B' & C' & D'). repeat split; try congruence; intros H; apply D', D, H. Qed.
Lemma freed_fewer b x g : fewer g (freed b x g).
Proof. repeat split; intros H; destruct x; cbn [freed held shown]; try exact H; unfold at_; destruct (b0 =? b); auto. Qed.
Lemma freed_gone b g : held (freed b true g) b = false.
Proof. apply at_eq. Qed.
Lemma freed_hidden b x g : shown (freed b x g) b = false.
Proof. apply at_eq. Qed.

(** Both releases, of the buffers and of the ring, when [C] holds. *)
Section freeing.
Context (op : Z -> Q bool) (C : Ledger -> Prop).
Hypothesis keepsC : forall g g', C g -> fewer g g' -> C g'.
Hypothesis frees : forall b s g (P : option bool -> RxDmaQueue -> Ledger -> Prop), 0 <= b <= 64 -> C g ->
  (forall x, P (Some x) s (freed b x g)) -> wpm lending (op b) s g P.

Definition cleared (b n : Z) (x : bool) (g : Ledger) : Prop := forall k, b <= k < b + n -> shown g k = false /\ (x = true -> held g k = false).
Lemma everyBuffer_frees n b good s g : 0 <= b -> b + Z.of_nat n <= 65 -> C g ->
  wpm lending (everyBuffer n b op good) s g (fun r s' g' => exists x, r = Some x /\ s' = s /\ fewer g g' /\
    (x = true -> good = true) /\ cleared b (Z.of_nat n) x g').
Proof.
  revert b good g. induction n as [|n IH]; intros b good g Hb Hn Hc; cbn [everyBuffer].
  { apply wpm_ret. exists good. split; [reflexivity|]. split; [reflexivity|]. split; [apply fewer_refl|]. split; [auto|intros k Hk; lia]. }
  wstep. apply frees; [lia|exact Hc|]. intros x. pose proof (freed_fewer b x g) as F. eapply wpm_mono; [apply IH; [lia|lia|apply (keepsC g); assumption]|].
  intros r s' g' (y & -> & -> & F2 & Hg & Hk). exists y. split; [reflexivity|]. split; [reflexivity|]. split; [apply (fewer_trans _ _ _ F F2)|].
  split; [intros ->; specialize (Hg eq_refl); apply andb_true_iff in Hg; apply Hg|]. intros k Hk2.
  destruct (Z.eq_dec k b) as [->|Hne]; [|apply Hk; lia]. split; [apply F2, freed_hidden|]. intros ->. specialize (Hg eq_refl).
  apply andb_true_iff in Hg as [-> _]. apply F2, freed_gone.
Qed.
Lemma freeAll_owned s g : C g -> ready_ s = false -> visible_ s = false -> polling_ s = false -> (occupied_ s = false -> forall b, 0 <= b <= 64 -> held g b = false) -> 0 <= consumer_ s < 64 ->
  lent g = None -> given g = deliveries (loads g) ->
  wpm lending (freeAll op) s g (fun r s' g' => exists x, r = Some x /\ Owned s' g' /\ loads g' = loads g /\ occupied_ s' = negb x && occupied_ s /\ ready_ s' = false).
Proof.
  intros Hc Hr Hv Hp Ho Hn Hl Hg. unfold freeAll. wstep. eapply wpm_mono; [apply everyBuffer_frees; [lia|lia|exact Hc]|]. intros o s1 g1 (y & -> & -> & F & _ & K).
  wstep. apply frees; [unfold ring, slots; lia|apply (keepsC g); assumption|]. intros x. pose proof (fewer_trans _ _ _ F (freed_fewer ring x g1)) as F2. set (g2 := freed ring x g1) in *.
  assert (K2 : forall b, 0 <= b <= 64 -> shown g2 b = false /\ (x && y = true -> held g2 b = false)).
  { intros b Hb. destruct (Z.eq_dec b ring) as [->|Hne].
    - split; [apply freed_hidden|]. intros E. apply andb_true_iff in E as [-> _]. apply freed_gone.
    - destruct (K b) as [K1 K2]; [unfold ring, slots in Hne; lia|]. split; [apply (freed_fewer ring x g1), K1|].
      intros E. apply andb_true_iff in E as [_ ->]. apply (freed_fewer ring x g1), K2. reflexivity. }
  destruct F2 as (F2a & F2b & F2c & F2d). wstep. unfold when. destruct (x && y) eqn:E; [apply wpm_modify|apply wpm_ret]; apply wpm_ret.
  - exists true. split; [reflexivity|]. split; [|auto]. split; try congruence; try (cbn; congruence).
    + cbn. lia.
    + intros _. split; [exact Hr|]. split; [exact Hv|]. intros b Hb. apply K2; [exact Hb|reflexivity].
    + intros b Hb. change (shown g2 b = visible_ s). rewrite Hv. apply K2, Hb.
  - exists false. split; [reflexivity|]. split; [|auto]. split; try congruence.
    + intros Hf. split; [exact Hr|]. split; [exact Hv|]. intros b Hb. apply F2d, Ho; assumption.
    + intros b Hb. rewrite Hv. apply K2, Hb.
Qed.
End freeing.

Definition hidden (g : Ledger) : Prop := lent g = None /\ forall b, 0 <= b <= 64 -> shown g b = false.
Lemma hidden_fewer g g' : hidden g -> fewer g g' -> hidden g'.
Proof. intros [H1 H2] (E & _ & _ & F). split; [congruence|]. intros b Hb. apply F, H2, Hb. Qed.
Lemma release_owned s g : visible_ s = false -> polling_ s = false -> hidden g -> (occupied_ s = false -> forall b, 0 <= b <= 64 -> held g b = false) -> 0 <= consumer_ s < 64 -> given g = deliveries (loads g) ->
  wpm lending release s g (fun r s' g' => exists x, r = Some x /\ Owned s' g' /\ loads g' = loads g /\ occupied_ s' = negb x && occupied_ s /\ ready_ s' = false).
Proof.
  intros Hv Hp Hh Ho Hn Hg. unfold release. wstep. apply wpm_get. cbn beta iota. rewrite Hv, Hp. cbn [orb]. wstep. apply wpm_modify. cbn beta iota.
  refine (freeAll_owned (fun b => bank (Release b)) hidden hidden_fewer _ (s <| ready_ := false |>) g Hh eq_refl Hv Hp Ho Hn (proj1 Hh) Hg).
  intros b s1 g1 P Hb H1 HP. apply bank_wp; [split; [apply H1|apply H1, Hb]|]. intros x _. apply HP.
Qed.
Lemma stopped_owned s g : Owned s g ->
  wpm lending releaseAfterDmaStopped s g (fun r s' g' => exists x, r = Some x /\ Owned s' g' /\ loads g' = loads g /\ occupied_ s' = negb x && occupied_ s /\ ready_ s' = false).
Proof.
  intros Hw. unfold releaseAfterDmaStopped. wstep. apply wpm_get. cbn beta iota. rewrite (o_idle _ _ Hw). wstep. apply wpm_modify. cbn beta iota.
  assert (Ho : occupied_ s = false -> forall b, 0 <= b <= 64 -> held g b = false) by (intros H; apply (o_free _ _ Hw H)).
  refine (freeAll_owned (fun b => bank (ReleaseAfterDmaStopped b)) (fun g => lent g = None) _ _ (s <| ready_ := false |> <| visible_ := false |>) g (o_lent _ _ Hw) eq_refl eq_refl (o_idle _ _ Hw) Ho (o_consumer _ _ Hw) (o_lent _ _ Hw) (o_given _ _ Hw)).
  - intros g1 g2 H (E & _). congruence.
  - intros b s1 g1 P Hb H1 HP. apply bank_wp; [exact H1|]. intros x _. apply HP.
Qed.

(** ** Allocating *)

(** What a refused step of [allocate] leaves, with [l] still logged. *)
Definition gaveUp (l : list (Z * Z)) (s' : RxDmaQueue) (g' : Ledger) : Prop := Owned s' g' /\ loads g' = l /\ ready_ s' = false.
(** Inside [allocate], where any step may give up. *)
Definition taking (l : list (Z * Z)) (s : RxDmaQueue) (g : Ledger) : Prop :=
  s = mkQueue 0 true false false false false /\ hidden g /\ loads g = l /\ given g = deliveries l.
Lemma orRelease_wp l good s g (P : option unit -> RxDmaQueue -> Ledger -> Prop) : taking l s g -> (good = true -> P (Some tt) s g) ->
  (forall s' g', gaveUp l s' g' -> P None s' g') -> wpm lending (orRelease good) s g P.
Proof.
  intros (-> & Hh & Hl & Hg) HP HN. unfold orRelease, unless. destruct good; [apply wpm_ret, HP; reflexivity|]. wstep.
  eapply wpm_mono; [apply release_owned; [reflexivity|reflexivity|exact Hh|discriminate|cbn; lia|rewrite Hl; exact Hg]|].
  intros o s' g' (x & -> & Hw & E & _ & Hr). apply wpm_brk, HN. split; [exact Hw|]. split; [congruence|exact Hr].
Qed.
Lemma taking_allocated l s g b x : taking l s g -> taking l s (bankNext g (Allocate b 0 0) x).
Proof.
  intros (Es & [H1 H2] & H3). destruct x; [|split; [exact Es|]; split; [split; assumption|exact H3]]. split; [exact Es|]. split; [|exact H3]. split; [exact H1|].
  intros k Hk. cbn. unfold at_. destruct (k =? b); [reflexivity|apply H2, Hk].
Qed.
Lemma usable_room m n : usable m n = true -> exists p c, m = Some (p, c) /\ n <= c.
Proof. destruct m as [[p c]|]; [|discriminate]. intros H. apply andb_true_iff in H as [H _]. exists p, c. split; [reflexivity|lia]. Qed.

(** The buffers below [n] are held. *)
Definition taken (l : list (Z * Z)) (n : Z) (s : RxDmaQueue) (g : Ledger) : Prop :=
  taking l s g /\ held g ring = true /\ forall b, 0 <= b < 64 -> held g b = (b <? n).
Lemma allocates_wp l s g : taken l 0 s g ->
  wpm lending (for_each 0 64 (fun i => x ← bank (Allocate i bufferBytes 8); orRelease x)) s g
    (fun r s' g' => match r with Some _ => taken l 64 s' g' | None => gaveUp l s' g' end).
Proof.
  intros H0. apply (wpm_for_each _ (taken l)); [lia|exact H0| |auto]. intros j s1 g1 Hj (H1 & H2 & H3).
  wstep. apply bank_wp; [split; [lia|rewrite H3 by lia; lia]|]. intros x _. pose proof (taking_allocated l s1 g1 j x H1) as H4.
  apply (orRelease_wp l); [exact H4| |auto]. intros ->. split; [exact H4|]. split.
  - cbn. rewrite at_ne by (unfold ring, slots; lia). exact H2.
  - intros b Hb. cbn. destruct (Z.eq_dec b j) as [->|Hn]; [rewrite at_eq; lia|rewrite at_ne by exact Hn; rewrite H3 by lia; lia].
Qed.

(** The buffers below [n] are in the ring. *)
Definition described (l : list (Z * Z)) (n : Z) (s : RxDmaQueue) (g : Ledger) : Prop :=
  taking l s g /\ (forall b, 0 <= b <= 64 -> held g b = true) /\ room g ring (slots * 8) /\ forall b, 0 <= b < n -> room g b bufferBytes.
Lemma room_at g b m k n : room g k n -> k <> b -> room (bankNext g (Mapping b) m) k n.
Proof. intros (p & c & E & H) Hn. exists p, c. split; [cbn; rewrite at_ne by exact Hn; exact E|exact H]. Qed.
Lemma room_seen g b m n : usable m n = true -> room (bankNext g (Mapping b) m) b n.
Proof. intros H. destruct (usable_room m n H) as (p & c & -> & Hc). exists p, c. split; [apply at_eq|exact Hc]. Qed.
Lemma describes_wp l s g : described l 0 s g ->
  wpm lending (for_each 0 64 describe) s g (fun r s' g' => match r with Some _ => described l 64 s' g' | None => gaveUp l s' g' end).
Proof.
  intros H0. apply (wpm_for_each _ (described l)); [lia|exact H0| |auto]. intros j s1 g1 Hj (H1 & H2 & H3 & H4). unfold describe.
  wstep. apply bank_wp; [apply H2; lia|]. intros m _. cbn beta iota. wstep. apply (orRelease_wp l); [exact H1| |auto]. intros Hm. cbv zeta.
  set (g2 := bankNext g1 (Mapping j) m). assert (Hs : shown g2 ring = false) by (destruct H1 as (_ & [_ Hs] & _); apply Hs; unfold ring, slots; lia).
  assert (Hr : room g2 ring (slots * 8)) by (apply room_at; [exact H3|unfold ring, slots; lia]).
  assert (Hh : held g2 ring = true) by (apply H2; unfold ring, slots; lia).
  wstep. apply bank_wp; [repeat split; try assumption; unfold slots; lia|]. intros [] _. cbn beta iota. change (bankNext g2 (Store16 ring (j * 8) (u16 bufferBytes)) tt) with g2.
  wstep. apply bank_wp; [repeat split; try assumption; unfold slots; lia|]. intros [] _. cbn beta iota.
  apply bank_wp; [right; repeat split; try assumption; unfold slots; lia|]. intros [] _. split; [exact H1|]. split; [exact H2|]. split; [exact Hr|].
  intros b Hb. destruct (Z.eq_dec b j) as [->|Hn]; [apply room_seen, Hm|apply room_at; [apply H4; lia|exact Hn]].
Qed.
Lemma allocate_owned s g : Owned s g ->
  wpm lending allocate s g (fun r s' g' => exists x, r = Some x /\ Owned s' g' /\ loads g' = loads g /\ (x = true -> ready_ s' = true)).
Proof.
  intros Hw. unfold allocate. wstep. apply wpm_get. cbn beta iota. destruct (occupied_ s) eqn:Eo; [apply wpm_ret; exists false; split; [reflexivity|]; split; [exact Hw|]; split; [reflexivity|discriminate]|].
  destruct (o_free _ _ Hw Eo) as (Er & Ev & Ef). pose proof (o_idle _ _ Hw) as Ei. apply wpm_succeeds.
  apply (wpm_mono _ _ _ _ (fun r s' g' => match r with Some _ => Owned s' g' /\ loads g' = loads g /\ ready_ s' = true | None => gaveUp (loads g) s' g' end)).
  2: { intros [[]|] s' g'; cbn; intros (A & B & C); eexists; (split; [reflexivity|]); auto. split; [exact A|]. split; [exact B|discriminate]. }
  wstep. apply wpm_modify. cbn beta iota. set (s0 := s <| occupied_ := true |> <| consumer_ := 0 |> <| faulted_ := false |>).
  assert (H0 : taking (loads g) s0 g).
  { split; [unfold s0; destruct s; cbn in *; congruence|]. split; [split; [apply Hw|intros b Hb; rewrite (o_shown _ _ Hw) by exact Hb; exact Ev]|]. split; [reflexivity|apply Hw]. }
  wstep. apply bank_wp; [split; [unfold ring, slots; lia|apply Ef; unfold ring, slots; lia]|]. intros x _. cbn beta iota. pose proof (taking_allocated _ s0 g ring x H0) as H1.
  wstep. apply (orRelease_wp (loads g)); [exact H1| |auto]. intros ->.
  wstep. eapply wpm_mono; [apply (allocates_wp (loads g))|].
  { split; [exact H1|]. split; [apply at_eq|]. intros b Hb. cbn. rewrite at_ne by (unfold ring, slots; lia). rewrite Ef by lia. lia. }
  intros [[]|] s2 g2 H2; [|exact H2]. destruct H2 as (T2 & Hr2 & Hb2).
  assert (Ha : forall b, 0 <= b <= 64 -> held g2 b = true).
  { intros b Hb. destruct (Z.eq_dec b ring) as [->|Hn]; [exact Hr2|]. unfold ring, slots in Hn. rewrite Hb2 by lia. lia. }
  wstep. apply bank_wp; [exact Hr2|]. intros m _. cbn beta iota. wstep. apply (orRelease_wp (loads g)); [exact T2| |auto]. intros Hm.
  wstep. eapply wpm_mono; [apply (describes_wp (loads g)); split; [exact T2|]; split; [exact Ha|]; split; [apply room_seen, Hm|intros b Hb; lia]|].
  intros [[]|] s3 g3 H3; [|exact H3]. destruct H3 as (T3 & Ha3 & R3 & B3). pose proof T3 as (-> & [L3 S3] & G3 & D3).
  wstep. apply bank_wp; [split; [apply Ha3; unfold ring, slots; lia|right; split; [reflexivity|]; split; [exact L3|apply S3; unfold ring, slots; lia]]|]. intros x _. cbn beta iota.
  wstep. apply (orRelease_wp (loads g)); [split; [reflexivity|]; split; [split; [reflexivity|exact S3]|]; split; assumption| |auto]. intros _.
  apply wpm_modify. split; [|split; [exact G3|reflexivity]]. split; cbn; try congruence; try lia.
  - intros _ b Hb. split; [apply Ha3, Hb|]. unfold need. destruct (Z.eqb_spec b ring) as [->|Hn]; [exact R3|]. unfold ring, slots in Hn. apply B3. lia.
  - intros b Hb. apply S3, Hb.
  - exact (eq_trans D3 (f_equal deliveries (eq_sym G3))).
Qed.

(** ** Showing the banks to the device *)

(** Only what the device may see changes. *)
Definition alike (g g' : Ledger) : Prop :=
  held g' = held g /\ known g' = known g /\ lent g' = lent g /\ loads g' = loads g /\ given g' = given g.
Lemma shows_wp (P : option bool -> RxDmaQueue -> Ledger -> Prop) n b good s g : (forall k, b <= k < b + Z.of_nat n -> held g k = true) ->
  (forall x g', alike g g' -> (forall k, shown g' k = shown g k \/ shown g' k = true) -> (forall k, b <= k < b + Z.of_nat n -> shown g' k = true) -> P (Some x) s g') ->
  wpm lending (everyBuffer n b (fun b => bank (MarkDeviceVisible b)) good) s g P.
Proof.
  revert b good g. induction n as [|n IH]; intros b good g Hh HP; cbn [everyBuffer].
  { apply wpm_ret, HP; [repeat split|auto|intros k Hk; lia]. }
  wstep. apply bank_wp; [apply Hh; lia|]. intros x _. cbn beta iota. apply IH; [intros k Hk; apply Hh; lia|]. intros y g' (A & B & C & D & E) F G.
  apply HP; [repeat split; assumption| |].
  - intros k. destruct (F k) as [F1|F1]; [|auto]. rewrite F1. cbn. unfold at_. destruct (k =? b); auto.
  - intros k Hk. destruct (Z.eq_dec k b) as [->|Hn]; [|apply G; lia]. destruct (F b) as [F1|F1]; [rewrite F1; apply at_eq|exact F1].
Qed.
(** The ready queue, and its flags after showing: [q] is [Owned] or [Busy]. *)
Lemma mark_wp s g (P : option bool -> RxDmaQueue -> Ledger -> Prop) :
  (ready_ s = true -> forall b, 0 <= b <= 64 -> held g b = true) ->
  P (Some false) s g ->
  (forall x s' g', ready_ s = true -> alike g g' -> (forall b, 0 <= b <= 64 -> shown g' b = true) ->
    consumer_ s' = consumer_ s -> occupied_ s' = occupied_ s -> ready_ s' = true -> visible_ s' = true -> polling_ s' = polling_ s -> P (Some x) s' g') ->
  wpm lending markDeviceVisible s g P.
Proof.
  intros Hh H0 HP. unfold markDeviceVisible. wstep. apply wpm_get. cbn beta iota. destruct (ready_ s) eqn:Er; cbn [negb orb]; [|apply wpm_ret, H0].
  destruct (faulted_ s); [apply wpm_ret, H0|]. specialize (Hh eq_refl). wstep. apply wpm_modify. cbn beta iota.
  wstep. apply bank_wp; [apply Hh; unfold ring, slots; lia|]. intros x _. cbn beta iota. wstep. apply shows_wp; [intros k Hk; apply Hh; lia|].
  intros y g' A F G. assert (Ha : forall b, 0 <= b <= 64 -> shown g' b = true).
  { intros b Hb. destruct (Z.eq_dec b ring) as [->|Hn]; [|apply G; unfold ring, slots in Hn; lia]. destruct (F ring) as [E|E]; [rewrite E; apply at_eq|exact E]. }
  wstep. unfold unless. destruct y; [apply wpm_ret|apply wpm_modify]; apply wpm_ret, HP; auto.
Qed.
Lemma mark_owned s g : Owned s g ->
  wpm lending markDeviceVisible s g (fun r s' g' => exists x, r = Some x /\ Owned s' g' /\ loads g' = loads g /\ (x = true -> visible_ s' = true)).
Proof.
  intros Hw. apply mark_wp; [intros Hr b Hb; apply (o_ready _ _ Hw Hr), Hb|exists false; split; [reflexivity|]; split; [exact Hw|]; split; [reflexivity|discriminate]|].
  intros x s' g' Hr (A & B & C & D & E) F H1 H2 H3 H4 H5. exists x. split; [reflexivity|]. split; [|split; [exact D|intros _; exact H4]].
  split; try congruence.
  - rewrite H1. apply Hw.
  - intros Hf. rewrite H2 in Hf. destruct (o_free _ _ Hw Hf). congruence.
  - intros _. unfold room. rewrite A, B. apply (o_ready _ _ Hw Hr).
  - intros b Hb. rewrite H4. apply F, Hb.
  - rewrite C. apply Hw.
  - rewrite H5. apply Hw.
  - rewrite E, D. apply Hw.
Qed.

(** ** Calls from inside a callback *)

(** While polling. *)
Record Busy (s : RxDmaQueue) (g : Ledger) : Prop := {
  b_consumer : 0 <= consumer_ s < 64;
  b_flags : occupied_ s = true /\ ready_ s = true /\ visible_ s = true /\ polling_ s = true;
  b_banks : forall b, 0 <= b <= 64 -> held g b = true /\ room g b (need b) /\ shown g b = true;
  b_given : given g = deliveries (loads g)
}.
Definition nestedPost (s : RxDmaQueue) (g : Ledger) (r : option unit) (s' : RxDmaQueue) (g' : Ledger) : Prop :=
  r = Some tt /\ Busy s' g' /\ consumer_ s' = consumer_ s /\ alike g g'.
Lemma nestedPost_refl s g : Busy s g -> nestedPost s g (Some tt) s g.
Proof. intros H. split; [reflexivity|]. split; [exact H|]. split; [reflexivity|repeat split]. Qed.
Lemma doCall_nested callback c s g : Busy s g -> wpm lending (doCall callback c) s g (nestedPost s g).
Proof.
  intros H. pose proof (b_flags _ _ H) as (Ho & Hr & Hv & Hp). pose proof (nestedPost_refl s g H) as H0. destruct c; cbn [doCall]; wstep.
  - unfold allocate. wstep. apply wpm_get. cbn beta iota. rewrite Ho. apply wpm_ret, wpm_ret, H0.
  - apply mark_wp; [intros _ b Hb; apply (b_banks _ _ H), Hb|apply wpm_ret, H0|]. intros x s' g' _ (A & B & C & D & E) F H1 H2 H3 H4 H5. apply wpm_ret.
    split; [reflexivity|]. split; [|split; [exact H1|repeat split; assumption]]. split.
    + rewrite H1. apply H.
    + repeat split; congruence.
    + intros b Hb. unfold room. rewrite A, B. split; [apply (b_banks _ _ H), Hb|]. split; [apply (b_banks _ _ H), Hb|apply F, Hb].
    + rewrite E, D. apply H.
  - unfold poll. wstep. apply wpm_get. cbn beta iota. cbv zeta. rewrite Hr, Hv, Hp. replace (_ || _ : bool) with true by (destruct (faulted_ s); reflexivity). apply wpm_ret, wpm_ret, H0.
  - unfold release. wstep. apply wpm_get. cbn beta iota. rewrite Hv. apply wpm_ret, wpm_ret, H0.
  - unfold releaseAfterDmaStopped. wstep. apply wpm_get. cbn beta iota. rewrite Hp. apply wpm_ret, wpm_ret, H0.
Qed.
Lemma doCalls_nested callback l s g : Busy s g -> wpm lending (doCalls callback l) s g (nestedPost s g).
Proof.
  revert s g. induction l as [|c l IH]; intros s g H; cbn [doCalls]; [apply wpm_ret, nestedPost_refl, H|].
  wstep. eapply wpm_mono; [apply doCall_nested, H|]. intros o s1 g1 (-> & H1 & C1 & A1 & A2 & A3 & A4 & A5). eapply wpm_mono; [apply IH, H1|].
  intros o s2 g2 (-> & H2 & C2 & A1' & A2' & A3' & A4' & A5'). split; [reflexivity|]. split; [exact H2|]. split; [congruence|]. repeat split; congruence.
Qed.

(** ** The receive loop *)

Fixpoint slotsFrom (c : Z) (n : nat) : list Z := match n with O => [] | Datatypes.S n => c :: slotsFrom ((c + 1) mod 64) n end.
(** What [n] turns from slot [c] did: [ws] was read. *)
Record Served (n : nat) (c : Z) (r : RxDmaPoll) (ws : list (Z * Z)) (r' : RxDmaPoll) (faulted : bool) : Prop := {
  v_slots : map fst ws = slotsFrom c (length ws);
  v_processed : processed r <= processed r' <= processed r + zlen ws;
  v_pending : zlen ws <= processed r' - processed r + 1;
  v_consumer : consumer r' = (c + (processed r' - processed r)) mod 64;
  v_delivered : delivered r' = delivered r + zlen (deliveries ws);
  v_dropped : delivered r' + dropped r' = delivered r + dropped r + zlen ws;
  v_bound : (length ws <= n)%nat;
  v_ok : ok r' = true -> processed r' = processed r + Z.of_nat n /\ length ws = n;
  v_fault : ok r' = false -> faulted = true
}.
Definition loopPost (n : nat) (c : Z) (r : RxDmaPoll) (l : list (Z * Z)) (o : option RxDmaPoll) (s' : RxDmaQueue) (g' : Ledger) : Prop :=
  exists r' ws, o = Some r' /\ Busy s' g' /\ lent g' = None /\ loads g' = l ++ ws /\ consumer r' = consumer_ s' /\ Served n c r ws r' (faulted_ s').
Lemma deliveries_app l1 l2 : deliveries (l1 ++ l2) = deliveries l1 ++ deliveries l2.
Proof. unfold deliveries. rewrite List.filter_app, List.map_app. reflexivity. Qed.
Lemma deliveries_one b w : deliveries [(b, w)] = if valid w then [(b, Z.land w 0x3fff)] else [].
Proof. unfold deliveries. cbn. destruct (valid w); reflexivity. Qed.

(** What becomes of a buffer of length word [w]. *)
Definition counted (w : Z) (r : RxDmaPoll) : RxDmaPoll :=
  if valid w then r <| delivered := delivered r + 1 |> else r <| dropped := dropped r + 1 |>.
Lemma lend_wp b prefix r s g (P : option RxDmaPoll -> RxDmaQueue -> Ledger -> Prop) :
  Busy s g -> lent g = Some b -> room g b bufferBytes ->
  (forall s' g', Busy s' g' -> consumer_ s' = consumer_ s -> lent g' = Some b -> room g' b bufferBytes -> loads g' = loads g ++ [(b, u32 prefix)] ->
    P (Some (counted (u32 prefix) r)) s' g') ->
  wpm lending (let written := Z.land (u32 prefix) 0x3fff in
    if (written <? 4) || (bufferBytes <? written) then mret (r <| dropped := dropped r + 1 |>)
    else calls ← bank (Receive b written); nested calls;; mret (r <| delivered := delivered r + 1 |>)) s (bankNext g (Load b) prefix) P.
Proof.
  intros H Hl Hr HP. cbv zeta. unfold counted, valid in HP. pose proof (deliveries_one b (u32 prefix)) as HD. unfold valid in HD.
  destruct (_ || _) eqn:E in |- *; rewrite E in HP, HD; cbn [negb] in HP, HD.
  - apply wpm_ret, HP; try reflexivity; try assumption. destruct H as [B1 B2 B3 B4]. split; try assumption.
    change (given g = deliveries (loads g ++ [(b, u32 prefix)])). rewrite deliveries_app, HD, app_nil_r. exact B4.
  - wstep. apply bank_wp.
    { split; [exact Hl|]. split; [exact Hr|]. apply orb_false_iff in E. lia. }
    intros calls _. cbn beta iota. set (g1 := bankNext _ _ calls).
    assert (B : Busy s g1).
    { destruct H as [B1 B2 B3 B4]. split; try assumption. change (given g ++ [(b, Z.land (u32 prefix) 0x3fff)] = deliveries (loads g ++ [(b, u32 prefix)])).
      rewrite deliveries_app, HD. congruence. }
    wstep. eapply wpm_mono; [apply doCalls_nested, B|]. intros o s2 g2 (-> & B2 & C2 & A1 & A2 & A3 & A4 & A5). apply wpm_ret, HP; try assumption.
    + rewrite A3. exact Hl.
    + destruct Hr as (p & c & Hk & Hc). exists p, c. rewrite A2. split; assumption.
Qed.
Lemma counted_facts w b r : delivered (counted w r) = delivered r + zlen (deliveries [(b, w)]) /\
  delivered (counted w r) + dropped (counted w r) = delivered r + dropped r + 1 /\
  processed (counted w r) = processed r /\ consumer (counted w r) = consumer r /\ ok (counted w r) = ok r.
Proof. rewrite deliveries_one. unfold counted, zlen. destruct (valid w); cbn; repeat split; lia. Qed.
Lemma served_none n c r f : ok r = false -> consumer r = c -> 0 <= c < 64 -> f = true -> Served n c r [] r f.
Proof. intros Ho Hc Hb Hf. split; unfold zlen; cbn; try reflexivity; try lia; try congruence; auto. rewrite Z.sub_diag, Z.add_0_r, Z.mod_small by lia. exact Hc. Qed.
Lemma served_all c r f : consumer r = c -> 0 <= c < 64 -> Served 0 c r [] (r <| ok := true |>) f.
Proof. intros Hc Hb. split; unfold zlen; cbn; try reflexivity; try lia; try discriminate; auto. rewrite Z.sub_diag, Z.add_0_r, Z.mod_small by lia. exact Hc. Qed.
Lemma served_stuck n c r w f : ok r = false -> consumer r = c -> 0 <= c < 64 -> f = true -> Served (Datatypes.S n) c r [(c, w)] (counted w r) f.
Proof.
  intros Ho Hc Hb Hf. destruct (counted_facts w c r) as (D1 & D2 & D3 & D4 & D5). split; unfold zlen in *; cbn [length map fst] in *; try reflexivity; try lia; try congruence; auto.
  rewrite D3, D4, Z.sub_diag, Z.add_0_r, Z.mod_small by lia. exact Hc.
Qed.
Lemma served_step n c r w ws r' f : Served n ((c + 1) mod 64) ((counted w r) <| consumer := (c + 1) mod 64 |> <| processed := processed (counted w r) + 1 |>) ws r' f ->
  Served (Datatypes.S n) c r ((c, w) :: ws) r' f.
Proof.
  intros [V1 V2 V3 V4 V5 V6 V7 V8 V9]. destruct (counted_facts w c r) as (D1 & D2 & D3 & D4 & D5). cbn [processed consumer delivered dropped ok] in *.
  assert (E : zlen ((c, w) :: ws) = zlen ws + 1) by (unfold zlen; cbn; lia).
  split.
  - cbn. rewrite V1. reflexivity.
  - cbn in V2. lia.
  - cbn in V3. lia.
  - cbn in V4. rewrite V4, Zplus_mod_idemp_l. f_equal. lia.
  - cbn in V5. change ((c, w) :: ws) with ([(c, w)] ++ ws). rewrite deliveries_app, zlen_app. lia.
  - cbn in V6. lia.
  - cbn. lia.
  - intros Ho. destruct (V8 Ho) as [V V']. cbn in V |- *. lia.
  - exact V9.
Qed.
Lemma pollLoop_serves n r s g : Busy s g -> lent g = None -> ok r = false -> consumer r = consumer_ s ->
  wpm lending (pollLoop nested n r) s g (loopPost n (consumer_ s) r (loads g)).
Proof.
  revert r s g. induction n as [|n IH]; intros r s g H Hl Ho Hc; cbn [pollLoop].
  { apply wpm_ret. exists (r <| ok := true |>), []. split; [reflexivity|]. split; [exact H|]. split; [exact Hl|]. split; [symmetry; apply app_nil_r|].
    split; [exact Hc|apply served_all; [exact Hc|apply H]]. }
  pose proof (b_consumer _ _ H) as Hb. destruct (b_banks _ _ H (consumer_ s) ltac:(lia)) as (Hh & Hr & Hs).
  assert (Hn : consumer_ s <> ring) by (unfold ring, slots; lia). unfold need in Hr. rewrite (proj2 (Z.eqb_neq _ _) Hn) in Hr.
  wstep. apply wpm_gets. cbn beta iota. wstep. apply bank_wp; [split; [exact Hh|split; [exact Hs|exact Hl]]|]. intros x _. cbn beta iota. destruct x; cbn [negb].
  2: { wstep. apply wpm_modify. apply wpm_ret. exists r, []. split; [reflexivity|]. split; [destruct H; split; assumption|]. split; [exact Hl|]. split; [symmetry; apply app_nil_r|].
    split; [exact Hc|]. apply served_none; [exact Ho|exact Hc|exact Hb|reflexivity]. }
  wstep. apply bank_wp; [exact Hh|]. intros m Hm. cbn beta iota. destruct Hr as (p & c & Hk & Hcap). cbn in Hm. rewrite Hk in Hm. subst m.
  set (g1 := bankNext (bankNext g _ _) _ _).
  assert (H1 : Busy s g1).
  { destruct H as [B1 B2 B3 B4]. split; try assumption. intros b Hbb. destruct (B3 b Hbb) as (C1 & (p' & c' & C2 & C2') & C3). split; [exact C1|]. split; [|exact C3].
    exists p', c'. split; [|exact C2']. cbn. unfold at_. destruct (Z.eqb_spec b (consumer_ s)) as [->|_]; congruence. }
  assert (R1 : room g1 (consumer_ s) bufferBytes) by (exists p, c; split; [apply at_eq|exact Hcap]).
  wstep. apply bank_wp; [split; [reflexivity|exact R1]|]. intros prefix _. cbn beta iota zeta.
  wstep. apply lend_wp; [exact H1|reflexivity|exact R1|]. intros s2 g2 H2 C2 L2 R2 E2. cbn beta iota.
  wstep. apply bank_wp; [left; auto|]. intros [] _. cbn beta iota. change (bankNext g2 (Store32 (consumer_ s) 0 0) tt) with g2.
  wstep. apply bank_wp; [split; [apply (b_banks _ _ H2); lia|left; exact L2]|]. intros y _. cbn beta iota. set (g3 := bankNext g2 _ _).
  assert (H3 : Busy s2 g3) by (destruct H2; split; assumption). destruct y; cbn [negb].
  2: { wstep. apply wpm_modify. apply wpm_ret. exists (counted (u32 prefix) r), [(consumer_ s, u32 prefix)]. split; [reflexivity|]. split; [destruct H3; split; assumption|].
    split; [reflexivity|]. split; [exact E2|]. split; [transitivity (consumer r); [apply (counted_facts _ 0)|]; cbn; congruence|]. apply served_stuck; [exact Ho|exact Hc|exact Hb|reflexivity]. }
  wstep. apply wpm_modify. cbn beta iota. wstep. apply wpm_gets. cbn beta iota. set (s4 := s2 <| consumer_ := _ |>).
  assert (Cs : consumer_ s4 = (consumer_ s + 1) mod 64) by (cbn; congruence).
  assert (H4 : Busy s4 g3).
  { destruct H3 as [B1 B2 B3 B4]. split; try assumption. rewrite Cs. apply Z.mod_pos_bound. lia. }
  rewrite Cs. eapply wpm_mono; [apply IH; [exact H4|reflexivity| |cbn; congruence]|].
  { cbn. rewrite (proj2 (proj2 (proj2 (proj2 (counted_facts (u32 prefix) 0 r))))). exact Ho. }
  intros o s5 g5 (r' & ws & -> & B5 & L5 & E5 & C5 & V). exists r', ((consumer_ s, u32 prefix) :: ws). split; [reflexivity|]. split; [exact B5|]. split; [exact L5|].
  split; [rewrite E5; change (loads g3) with (loads g2); rewrite E2, <- app_assoc; reflexivity|]. split; [exact C5|]. apply served_step. rewrite Cs in V. exact V.
Qed.

(** ** Polling, and any sequence of calls *)

Definition refused (s : RxDmaQueue) : RxDmaPoll := mkPoll false (consumer_ s) 0 0 0.
Definition polls (s : RxDmaQueue) (producer budget : Z) (receive : bool) : bool :=
  ready_ s && visible_ s && negb (faulted_ s) && (producer <? 64) && negb (budget =? 0) && receive.
(** How many buffers a poll is to serve. *)
Definition turns (s : RxDmaQueue) (producer budget : Z) : nat :=
  Z.to_nat (Z.min budget ((producer - consumer_ s) mod 64)).
(** What a poll that began in [s] did to the log. *)
Definition pollPost (producer budget : Z) (receive : bool) (s s' : RxDmaQueue) (r : RxDmaPoll) (ws : list (Z * Z)) : Prop :=
  consumer r = consumer_ s' /\
  if polls s producer budget receive then Served (turns s producer budget) (consumer_ s) (refused s) ws r (faulted_ s')
  else r = refused s /\ ws = [] /\ s' = s.
Lemma owned_busy s g : Owned s g -> ready_ s = true -> visible_ s = true -> Busy (s <| polling_ := true |>) g.
Proof.
  intros H Hr Hv. split; [apply H| | |apply H].
  - repeat split; try assumption. cbn. destruct (occupied_ s) eqn:E; [reflexivity|]. destruct (o_free _ _ H E). congruence.
  - intros b Hb. destruct (o_ready _ _ H Hr b Hb) as [B1 B2]. split; [exact B1|]. split; [exact B2|]. rewrite (o_shown _ _ H b Hb). exact Hv.
Qed.
Lemma busy_owned s g : Busy s g -> lent g = None -> Owned (s <| polling_ := false |>) g.
Proof.
  intros [B1 (B2 & B3 & B4 & B5) B6 B7] Hl. split; cbn; try assumption; try reflexivity; try congruence.
  - intros _ b Hb. split; apply (B6 b Hb).
  - intros b Hb. rewrite B4. apply (B6 b Hb).
Qed.
Lemma poll_owned producer budget receive s g : Owned s g ->
  wpm lending (poll nested producer budget receive) s g (fun o s' g' => exists r ws, o = Some r /\ Owned s' g' /\ loads g' = loads g ++ ws /\
    pollPost producer budget receive s s' r ws).
Proof.
  intros H. unfold poll. wstep. apply wpm_get. cbn beta iota. cbv zeta. unfold pollPost. rewrite (o_idle _ _ H).
  replace (negb (ready_ s) || negb (visible_ s) || faulted_ s || false || (64 <=? producer) || (budget =? 0) || negb receive)
    with (negb (polls s producer budget receive)).
  2: { unfold polls. rewrite Z.ltb_antisym. destruct (ready_ s), (visible_ s), (faulted_ s), (64 <=? producer), (budget =? 0), receive; reflexivity. }
  destruct (polls s producer budget receive) eqn:E; cbn [negb].
  2: { apply wpm_ret. exists (refused s), []. rewrite app_nil_r. auto 9. }
  unfold polls in E. repeat (apply andb_true_iff in E as [E ?]). wstep. apply wpm_modify. cbn beta iota.
  assert (Et : Z.to_nat (if budget <? (producer + 64 - consumer_ s) mod 64 then budget else (producer + 64 - consumer_ s) mod 64) = turns s producer budget).
  { unfold turns. replace (producer + 64 - consumer_ s) with (producer - consumer_ s + 1 * 64) by lia. rewrite Z_mod_plus_full. f_equal. destruct (Z.ltb_spec budget ((producer - consumer_ s) mod 64)); lia. }
  rewrite Et. wstep. eapply wpm_mono; [apply pollLoop_serves; [apply owned_busy; assumption|apply H|reflexivity|reflexivity]|].
  intros o s1 g1 (r & ws & -> & B & L & El & Ec & V). wstep. apply wpm_modify. apply wpm_ret. exists r, ws. split; [reflexivity|]. split; [apply busy_owned; assumption|].
  split; [exact El|]. split; [exact Ec|exact V].
Qed.
Lemma doCall_owned c s g : Owned s g -> wpm lending (doCall nested c) s g (fun r s' g' => r = Some tt /\ Owned s' g').
Proof.
  intros H. destruct c; cbn [doCall]; wstep.
  - eapply wpm_mono; [apply allocate_owned, H|]. intros o s' g' (x & -> & Hw & _). apply wpm_ret. auto.
  - eapply wpm_mono; [apply mark_owned, H|]. intros o s' g' (x & -> & Hw & _). apply wpm_ret. auto.
  - eapply wpm_mono; [apply poll_owned, H|]. intros o s' g' (x & ws & -> & Hw & _). apply wpm_ret. auto.
  - destruct (visible_ s) eqn:Ev.
    + unfold release. wstep. apply wpm_get. cbn beta iota. rewrite Ev. apply wpm_ret, wpm_ret. auto.
    + assert (Hh : hidden g) by (split; [apply H|]; intros b Hb; rewrite (o_shown _ _ H b Hb); exact Ev).
      eapply wpm_mono; [apply (release_owned s g Ev (o_idle _ _ H) Hh); [intros E; apply (o_free _ _ H E)|apply H|apply H]|].
      intros o s' g' (x & -> & Hw & _). apply wpm_ret. auto.
  - eapply wpm_mono; [apply stopped_owned, H|]. intros o s' g' (x & -> & Hw & _). apply wpm_ret. auto.
Qed.
Lemma session_owned l s g : Owned s g -> wpm lending (session l) s g (fun r s' g' => r = Some tt /\ Owned s' g').
Proof.
  revert s g. unfold session. induction l as [|c l IH]; intros s g H; cbn [doCalls]; [apply wpm_ret; auto|].
  wstep. eapply wpm_mono; [apply doCall_owned, H|]. intros o s1 g1 (-> & H1). apply IH, H1.
Qed.

(** A poll after any calls; answers the state it began in. *)
Definition pollAfter (l : list RxCall) (producer budget : Z) (receive : bool) : Q (RxDmaQueue * RxDmaPoll) :=
  session l;; s ← get; r ← poll nested producer budget receive; mret (s, r).

(** C33: Whatever is asked of the queue, also from inside its callbacks, a bank is
    only used while it is held, a buffer is read, lent and cleared only between
    its synchronisations, and a bank the device may see is only released once
    DMA has stopped.  A poll serves the buffers from the consumer on, in order,
    as many as the producer and the budget allow, and lends the receiver those
    of valid length and no others; it stops short only on a fault. *)
Theorem poll_serves l producer budget receive tr o s' :
  exec (pollAfter l producer budget receive newQueue) tr (o, s') -> relies lending newLedger tr ->
  accepts lending newLedger tr /\ Owned s' (after lending newLedger tr) /\
  exists s r before ws, o = Some (s, r) /\ loads (after lending newLedger tr) = before ++ ws /\ pollPost producer budget receive s s' r ws.
Proof.
  intros He Hr. refine (wp_sound lending _ newLedger (fun x g => Owned x.2 g /\ exists s r before ws, x.1 = Some (s, r) /\ loads g = before ++ ws /\ pollPost producer budget receive s x.2 r ws) tr (o, s') _ He Hr).
  unfold pollAfter. change (wpm lending (session l;; s ← get; r ← poll nested producer budget receive; mret (s, r)) newQueue newLedger
    (fun o s' g => Owned s' g /\ exists s r before ws, o = Some (s, r) /\ loads g = before ++ ws /\ pollPost producer budget receive s s' r ws)).
  wstep. eapply wpm_mono; [apply session_owned, newQueue_owned|]. intros o1 s1 g1 (-> & H1). wstep. apply wpm_get. cbn beta iota.
  wstep. eapply wpm_mono; [apply poll_owned, H1|]. intros o2 s2 g2 (r & ws & -> & H2 & El & Hp). apply wpm_ret. split; [exact H2|]. exists s1, r, (loads g1), ws. auto.
Qed.

(** ** A concrete run *)

(** Buffer 1 carries an impossible length; the receiver asks for everything. *)
Definition bankBoard : handler Banks unit := fun d o =>
  match o as o return Ans Banks o * unit with
  | Mapping b => (Some (0x10000 + b * 0x4000, 0x4000), d)
  | Load b => (if b =? 1 then 3 else 100 + b, d)
  | Receive _ _ => ([XReleaseAfterDmaStopped; XPoll 5 5 true; XRelease; XAllocate; XMarkDeviceVisible], d)
  | Store16 _ _ _ | Store32 _ _ _ => (tt, d)
  | Allocate _ _ _ | SyncForDevice _ | SyncForCpu _ | MarkDeviceVisible _ | Release _ | ReleaseAfterDmaStopped _ => (true, d)
  end.
Definition sampleCalls : list RxCall := [XAllocate; XMarkDeviceVisible; XPoll 2 1 true; XRelease].
Definition pollRun := run_trace bankBoard (pollAfter sampleCalls 4 8 true newQueue) tt.
Example sample_poll : fst (fst (fst pollRun)) = Some (mkQueue 1 true true true false false, mkPoll true 4 3 2 1).
Proof. vm_compute. reflexivity. Qed.
Lemma poll_serves_witness :
  accepts lending newLedger (snd pollRun) /\ Owned (snd (fst (fst pollRun))) (after lending newLedger (snd pollRun)) /\
  exists s r before ws, fst (fst (fst pollRun)) = Some (s, r) /\ loads (after lending newLedger (snd pollRun)) = before ++ ws /\
    pollPost 4 8 true s (snd (fst (fst pollRun))) r ws.
Proof.
  apply (poll_serves sampleCalls).
  - rewrite <- surjective_pairing. apply run_trace_exec.
  - vm_compute. repeat split.
Defined.
