(* ===== verification/PciQueueService.v ===== *)
(** * Serving the queues (src/network/PciQueueService.hpp)

    [PciQueueService::drain] brings the transmit consumers up to date, then
    polls the report ring and the receive ring, publishing what it consumed. *)

From S2P Require Import Prelude Prog.

(** ** The runtime, the queues and the receivers *)

(** Rings 0 to 5 transmit, 6 carries commands, 7 receives, 8 reports.  [Poll]
    answers the lengths of the buffers it will lend, one after the other;
    [PollEnd] its success and consumer index. *)
Inductive serviceOp :=
| Running | ReadIndices (ring : Z) | ConsumeTo (ring hardware : Z) | Poll (ring hardware budget : Z) | Callback (rpq : bool) (length : Z)
| PollEnd (ring : Z) | Publish (ring consumer : Z).
(** [ReadIndices]: the host's and the hardware's.  [ConsumeTo]: whether it
    succeeded.  [Callback]: its answer, and whether it called [drain]. *)
Definition serviceAns (o : serviceOp) : Type :=
  match o with
  | Running | ConsumeTo _ _ | Publish _ _ => bool
  | ReadIndices _ => option (Z * Z)
  | Poll _ _ _ => list Z
  | Callback _ _ => bool * bool
  | PollEnd _ => bool * Z
  end.
Definition Queues : sig := Sig serviceOp serviceAns.

Inductive QueueServiceResult := drained | more | fault_.
Record PciQueueService := mkService { tx_ : list bool; receive_rxq : bool; receive_rpq : bool; serving_ : bool; faulted_ : bool }.
#[export] Instance PciQueueService_rebuild : Rebuild PciQueueService := fun s =>
  mkService (tx_ s) (receive_rxq s) (receive_rpq s) (serving_ s) (faulted_ s).
Definition QS (A : Type) : Type := M Queues PciQueueService A.
Definition svc (o : serviceOp) : QS (serviceAns o) := call (Σ:=Queues) o.
Definition fault : QS QueueServiceResult := modify (fun s => s <| faulted_ := true |>);; mret fault_.
(** [return fault()] wherever the body breaks off. *)
Definition orFault (m : QS bool) : QS QueueServiceResult := fun s =>
  bindP (m s) (fun r => match r.1 with Some x => Ret (Some (if x : bool then more else drained), r.2) | None => fault r.2 end).

Section drain.
(** A [drain] called from inside a callback. *)
Context (again : QS unit).

(** One lent buffer; answers [sink.failed]. *)
Definition receive (rpq : bool) (length : Z) (failed : bool) : QS bool :=
  if failed then mret true else
  running ← svc Running;
  if negb (running : bool) then mret true else
  a ← svc (Callback rpq length);
  when (snd (a : bool * bool)) again;;
  if negb (fst (a : bool * bool)) then mret true else
  running ← svc Running; mret (negb (running : bool)).
Fixpoint receiveAll (rpq : bool) (l : list Z) (failed : bool) : QS bool :=
  match l with [] => mret failed | n :: l => f ← receive rpq n failed; receiveAll rpq l f end.
(** The host's and the hardware's index. *)
Definition readIndices (ring : Z) : QS (Z * Z) :=
  x ← svc (ReadIndices ring);
  match (x : option (Z * Z)) with Some p => mret p | None => brk end.
Definition consume (i : Z) : QS unit := p ← readIndices i; must (svc (ConsumeTo i (snd p))).
(** One polled ring; answers whether descriptors are left. *)
Definition pass (rpq : bool) : QS bool :=
  let ring := if rpq then 8 else 7 in
  p ← readIndices ring;
  l ← svc (Poll ring (snd p) 32);
  failed ← receiveAll rpq l false;
  r ← svc (PollEnd ring);
  s ← get;
  unless (fst (r : bool * Z) && negb failed && negb (faulted_ s)) brk;;
  must (svc Running);;
  must (svc (Publish ring (snd (r : bool * Z))));;
  p ← readIndices ring;
  mret (negb (fst p =? snd p)).
Definition drain : QS QueueServiceResult :=
  s ← get;
  if serving_ s || faulted_ s then fault else
  running ← svc Running;
  if negb (running : bool) || negb (receive_rxq s) || negb (receive_rpq s) || negb (forallb id (tx_ s)) then fault else
  modify (fun s => s <| serving_ := true |>);;
  r ← orFault (for_each 0 7 consume;; a ← pass true; b ← pass false; mret (b || a));
  modify (fun s => s <| serving_ := false |>);;
  mret r.
End drain.

(** A nested [drain] finds [serving_] set: it never gets to call back. *)
Definition nestedDrain : QS unit := _ ← drain (mret tt); mret tt.
Fixpoint drains (n : nat) : QS (list QueueServiceResult) :=
  match n with O => mret [] | Datatypes.S n => r ← drain nestedDrain; l ← drains n; mret (r :: l) end.

(** ** The rules of a drain

    [stage]: 0 to 6, the ring whose consumer is next; 7, the report ring is to
    be polled; 8, the receive ring; 9, done. *)

Record Turn := mkTurn {
  stage : Z; latest : list (Z * (Z * Z)); lent : option (list Z); refusal : bool; reentered : bool; gate : bool; ended : option Z
}.
#[export] Instance Turn_rebuild : Rebuild Turn := fun g => mkTurn (stage g) (latest g) (lent g) (refusal g) (reentered g) (gate g) (ended g).
Definition newTurn : Turn := mkTurn 0 [] None false false false None.
Definition polledAt (g : Turn) : Z := if stage g =? 7 then 8 else 7.
Fixpoint reading (ring : Z) (l : list (Z * (Z * Z))) : option (Z * Z) :=
  match l with [] => None | (k, p) :: l => if k =? ring then Some p else reading ring l end.
Definition serviceNext (g : Turn) (o : serviceOp) : serviceAns o -> Turn :=
  match o with
  | Running => fun x =>
      let g := if stage g =? 9 then newTurn else g in
      g <| gate := x |> <| refusal := refusal g || match lent g with Some _ => negb x | None => false end |>
  | ReadIndices ring => fun x => match x with Some p => g <| latest := (ring, p) :: latest g |> | None => g end
  | ConsumeTo ring _ => fun x => if x then g <| stage := ring + 1 |> else g
  | Poll _ _ _ => fun l => g <| lent := Some l |> <| gate := false |>
  | Callback _ _ => fun x => g <| lent := match lent g with Some (_ :: l) => Some l | l => l end |> <| refusal := negb (fst x) |> <| reentered := reentered g || snd x |> <| gate := false |>
  | PollEnd _ => fun x => g <| lent := None |> <| refusal := refusal g || negb (fst x) |> <| gate := false |> <| ended := Some (snd x) |>
  | Publish _ _ => fun x => if x then g <| stage := stage g + 1 |> <| ended := None |> else g
  end.
(** - the consumers of rings 0 to 6 are updated in order, each to an index just
      read, before anything is polled; then the report ring, then the receive
      ring, each with the index just read;
    - a receiver sees the lent buffers in order, each after a look that the
      device is still running, and none after a refusal;
    - an index is published only as the poll of that ring answered it, all
      buffers delivered, no refusal, no [drain] from inside a callback, and
      the device just seen running. *)
Definition serviceMay (g : Turn) (o : serviceOp) : Prop :=
  match o with
  | Running => True
  | ReadIndices ring => lent g = None /\ (0 <= ring < 7 /\ ring = stage g \/ stage g = 7 /\ ring = 8 \/ stage g = 8 /\ (ring = 7 \/ ring = 8) \/ stage g = 9 /\ ring = 7)
  | ConsumeTo ring hw => ring = stage g /\ 0 <= ring < 7 /\ exists host, reading ring (latest g) = Some (host, hw)
  | Poll ring hw budget => 7 <= stage g <= 8 /\ ring = polledAt g /\ budget = 32 /\ lent g = None /\ exists host, reading ring (latest g) = Some (host, hw)
  | Callback rpq n => gate g = true /\ refusal g = false /\ rpq = (polledAt g =? 8) /\ exists l, lent g = Some (n :: l)
  | PollEnd ring => 7 <= stage g <= 8 /\ ring = polledAt g /\ exists l, lent g = Some l /\ (refusal g = false -> l = [])
  | Publish ring c => 7 <= stage g <= 8 /\ ring = polledAt g /\ lent g = None /\ refusal g = false /\ reentered g = false /\ gate g = true /\ ended g = Some c
  end.
Definition serviceRules : protocol Queues Turn := Protocol (Σ:=Queues) serviceMay (fun _ _ _ => True) serviceNext.

Lemma svc_wp o s g (P : option (serviceAns o) -> PciQueueService -> Turn -> Prop) :
  serviceMay g o -> (forall x, P (Some x) s (serviceNext g o x)) -> wpm serviceRules (svc o) s g P.
Proof. intros H1 H2. apply wpm_call; [exact H1|intros x _; apply H2]. Qed.
Lemma orFault_wp m s g (P : option QueueServiceResult -> PciQueueService -> Turn -> Prop) :
  wpm serviceRules m s g (fun r s' g' => match r with
    | Some x => P (Some (if x : bool then more else drained)) s' g'
    | None => P (Some fault_) (s' <| faulted_ := true |>) g' end) ->
  wpm serviceRules (orFault m) s g P.
Proof. intros H. apply wp_bind. eapply wp_mono; [|exact H]. intros [[x|] s'] g' H'; exact H'. Qed.

Lemma nestedDrain_wp s g (P : option unit -> PciQueueService -> Turn -> Prop) : serving_ s = true ->
  P (Some tt) (s <| faulted_ := true |>) g -> wpm serviceRules nestedDrain s g P.
Proof. intros Hs HP. unfold nestedDrain, drain. wstep. wstep. apply wpm_get. cbn beta iota. rewrite Hs. cbn [orb]. unfold fault. wstep. apply wpm_modify. apply wpm_ret, wpm_ret, HP. Qed.

(** While buffers [l] are lent. *)
Record Lending (st : Z) (la : list (Z * (Z * Z))) (l : list Z) (failed : bool) (s : PciQueueService) (g : Turn) : Prop := {
  l_stage : stage g = st;
  l_latest : latest g = la;
  l_serving : serving_ s = true;
  l_refusal : refusal g = failed;
  l_reentered : reentered g = faulted_ s;
  l_lent : exists rest, lent g = Some rest /\ (failed = false -> rest = l)
}.
Lemma serviceReceive_wp rpq n l failed s g : 7 <= stage g <= 8 -> rpq = (polledAt g =? 8) -> Lending (stage g) (latest g) (n :: l) failed s g ->
  wpm serviceRules (receive nestedDrain rpq n failed) s g (fun r s' g' => exists f, r = Some f /\ Lending (stage g) (latest g) l f s' g').
Proof.
  intros Hst Hq H. unfold receive. destruct failed.
  { apply wpm_ret. exists true. split; [reflexivity|]. destruct H as [A A' B C D (rest & E & F)]. split; try assumption. exists rest. split; [exact E|discriminate]. }
  pose proof H as [A A' B C D (rest & E & F)]. specialize (F eq_refl) as ->. assert (H9 : (stage g =? 9) = false) by lia.
  assert (Hrun : forall s1 g1 x, Lending (stage g) (latest g) l false s1 g1 -> Lending (stage g) (latest g) l (negb x) s1 (serviceNext g1 Running x)).
  { intros s1 g1 x [A1 A1' B1 C1 D1 (rest & E1 & F1)]. cbn. rewrite A1, H9. split; cbn; try assumption; [rewrite C1, E1; reflexivity|]. rewrite E1. exists rest. split; [reflexivity|intros _; apply F1; reflexivity]. }
  wstep. apply svc_wp; [exact I|]. intros x. cbn beta iota. destruct x; cbn [negb].
  2: { apply wpm_ret. exists true. split; [reflexivity|]. cbn. rewrite H9. split; cbn; try assumption; [rewrite C, E; reflexivity|]. rewrite E. exists (n :: l). split; [reflexivity|discriminate]. }
  assert (Eg : serviceNext g Running true = g <| gate := true |> <| refusal := false |>).
  { cbn. rewrite H9, E, C. reflexivity. }
  rewrite Eg. wstep. apply svc_wp; [split; [reflexivity|]; split; [reflexivity|]; split; [exact Hq|]; exists l; exact E|]. intros [good again]. cbn beta iota.
  set (g2 := serviceNext _ _ _).
  assert (H2 : forall s2, serving_ s2 = true -> faulted_ s2 = faulted_ s || again -> Lending (stage g) (latest g) l (negb good) s2 g2).
  { intros s2 Hs Hf. split; cbn; try assumption; try reflexivity; [rewrite D; symmetry; exact Hf|]. rewrite E. exists l. auto. }
  assert (Hend : forall s2, serving_ s2 = true -> faulted_ s2 = faulted_ s || again ->
    wpm serviceRules (if negb good then mret true else running ← svc Running; mret (negb (running : bool))) s2 g2
      (fun r s' g' => exists f, r = Some f /\ Lending (stage g) (latest g) l f s' g')).
  { intros s2 Hs Hf. specialize (H2 s2 Hs Hf). destruct good; cbn [negb] in *; [|apply wpm_ret; exists true; auto].
    wstep. apply svc_wp; [exact I|]. intros x. apply wpm_ret. exists (negb x). split; [reflexivity|apply Hrun, H2]. }
  wstep. cbn [fst snd]. unfold when. destruct again.
  - apply nestedDrain_wp; [exact B|]. apply Hend; [exact B|symmetry; apply orb_true_r].
  - apply wpm_ret, Hend; [exact B|symmetry; apply orb_false_r].
Qed.
Lemma serviceReceiveAll_wp rpq l failed s g : 7 <= stage g <= 8 -> rpq = (polledAt g =? 8) -> Lending (stage g) (latest g) l failed s g ->
  wpm serviceRules (receiveAll nestedDrain rpq l failed) s g (fun r s' g' => exists f, r = Some f /\ Lending (stage g) (latest g) [] f s' g').
Proof.
  revert failed s g. induction l as [|n l IH]; intros failed s g Hst Hq H; cbn [receiveAll]; [apply wpm_ret; eauto|].
  wstep. eapply wpm_mono; [apply serviceReceive_wp; eassumption|]. intros o s1 g1 (f & -> & H1). rewrite <- (l_stage _ _ _ _ _ _ H1), <- (l_latest _ _ _ _ _ _ H1). apply IH.
  - rewrite (l_stage _ _ _ _ _ _ H1). exact Hst.
  - unfold polledAt. rewrite (l_stage _ _ _ _ _ _ H1). exact Hq.
  - rewrite (l_stage _ _ _ _ _ _ H1), (l_latest _ _ _ _ _ _ H1). exact H1.
Qed.

(** Between two rings. *)
Record Between (st : Z) (s : PciQueueService) (g : Turn) : Prop := {
  w_stage : stage g = st;
  w_lent : lent g = None;
  w_clean : refusal g = false /\ reentered g = false;
  w_faulted : faulted_ s = false
}.
Lemma reading_here ring p l : reading ring ((ring, p) :: l) = Some p.
Proof. cbn. rewrite Z.eqb_refl. reflexivity. Qed.
Lemma reading_other ring k p l : k <> ring -> reading k ((ring, p) :: l) = reading k l.
Proof. intros H. cbn. destruct (Z.eqb_spec ring k); [congruence|reflexivity]. Qed.
Lemma serviceIndices_wp ring s g (P : option (Z * Z) -> PciQueueService -> Turn -> Prop) : serviceMay g (ReadIndices ring) ->
  P None s g -> (forall p, P (Some p) s (g <| latest := (ring, p) :: latest g |>)) -> wpm serviceRules (readIndices ring) s g P.
Proof. intros H1 H2 H3. unfold readIndices. wstep. apply svc_wp; [exact H1|]. intros [p|]; [apply wpm_ret, H3|apply wpm_brk, H2]. Qed.
Lemma consume_wp i s g : 0 <= i < 7 -> serving_ s = true -> Between i s g ->
  wpm serviceRules (consume i) s g (fun r s' g' => s' = s /\ match r with Some _ => Between (i + 1) s g' | None => True end).
Proof.
  intros Hi Hs [A B [C C'] D]. unfold consume. wstep. apply serviceIndices_wp; [split; [exact B|left; auto]|auto|]. intros p. cbn beta iota.
  wstep. apply svc_wp; [split; [auto|]; split; [exact Hi|]; destruct p as [h w]; exists h; apply reading_here|].
  intros x. destruct x; [|auto]. split; [reflexivity|]. split; try assumption; [reflexivity|]. split; assumption.
Qed.
(** What a completed pass over [ring] found. *)
Definition passed (ring : Z) (g : Turn) (b : bool) (g' : Turn) : Prop :=
  (exists host hw, reading ring (latest g') = Some (host, hw) /\ b = negb (host =? hw)) /\ forall k, k <> ring -> reading k (latest g') = reading k (latest g).
Lemma pass_wp (rpq : bool) s g : serving_ s = true -> Between (if rpq then 7 else 8) s g ->
  wpm serviceRules (pass nestedDrain rpq) s g (fun r s' g' => serving_ s' = true /\
    match r with Some b => Between (if rpq then 8 else 9) s' g' /\ passed (if rpq then 8 else 7) g b g' | None => True end).
Proof.
  intros Hs [A B [C C'] D]. unfold pass. set (ring := if rpq then 8 else 7). cbv zeta.
  assert (Hst : 7 <= stage g <= 8) by (rewrite A; destruct rpq; lia).
  assert (Hr : ring = polledAt g) by (unfold polledAt; rewrite A; destruct rpq; reflexivity).
  assert (Hq : rpq = (polledAt g =? 8)) by (rewrite <- Hr; destruct rpq; reflexivity).
  assert (M1 : serviceMay g (ReadIndices ring)) by (split; [exact B|]; rewrite A; unfold ring; destruct rpq; lia).
  wstep. apply serviceIndices_wp; [exact M1|auto|].
  intros p. cbn beta iota. wstep. apply svc_wp.
  { split; [exact Hst|]. split; [exact Hr|]. split; [reflexivity|]. split; [exact B|]. destruct p as [h w]. exists h. apply reading_here. }
  intros l. cbn beta iota. set (g1 := serviceNext _ _ _). wstep. eapply wpm_mono.
  { apply serviceReceiveAll_wp; [exact Hst|exact Hq|]. split; [reflexivity|reflexivity|exact Hs|exact C|exact (eq_trans C' (eq_sym D))|exists l; auto]. }
  intros o s2 g2 (f & -> & H2). cbn beta iota. destruct H2 as [A2 A2' B2 C2 D2 (rest & E2 & F2)]. change (stage g1) with (stage g) in A2.
  wstep. apply svc_wp; [split; [rewrite A2; exact Hst|]; split; [unfold polledAt; rewrite A2; exact Hr|]; exists rest; split; [exact E2|]; rewrite C2; exact F2|].
  intros [good c]. cbn beta iota. wstep. apply wpm_get. cbn beta iota. wstep. cbn [fst]. unfold unless. destruct (good && _ && _) eqn:E; [apply wpm_ret|apply wpm_brk; auto].
  apply andb_true_iff in E as [E Hf]. apply andb_true_iff in E as [-> Hff]. apply negb_true_iff in Hf, Hff. rewrite Hff in C2.
  assert (H9 : (stage g2 =? 9) = false) by lia.
  wstep. wstep. apply svc_wp; [exact I|]. intros x. destruct x; [|auto].
  set (g3 := serviceNext _ Running _).
  assert (E3 : g3 = g2 <| lent := None |> <| refusal := false |> <| gate := true |> <| ended := Some c |>).
  { unfold g3. cbn. rewrite H9, C2. reflexivity. }
  rewrite E3. clear g3 E3. set (g3 := g2 <| lent := None |> <| refusal := false |> <| gate := true |> <| ended := Some c |>).
  assert (P3 : ring = polledAt g3) by (unfold polledAt; cbn; rewrite A2; exact Hr).
  wstep. wstep. apply svc_wp.
  { split; [cbn; rewrite A2; exact Hst|]. split; [exact P3|]. repeat split. cbn. congruence. }
  intros x. destruct x; [|auto]. cbn beta iota. set (g4 := serviceNext _ _ _).
  wstep. apply serviceIndices_wp; [split; [reflexivity|]; cbn; rewrite A2, A; unfold ring; destruct rpq; lia|auto|].
  intros [h w]. apply wpm_ret. split; [exact B2|]. split.
  - split; cbn; try reflexivity; try assumption; [rewrite A2, A; destruct rpq; reflexivity|]. split; [reflexivity|congruence].
  - split; [exists h, w; split; [apply reading_here|reflexivity]|]. intros k Hk. transitivity (reading k ((ring, (h, w)) :: latest g2)); [reflexivity|].
    rewrite reading_other by exact Hk. rewrite A2'. apply reading_other, Hk.
Qed.

(** ** A whole drain, and any number of them *)

(** Outside [drain]: never used, or the last one was complete, or a fault. *)
Definition Rested (s : PciQueueService) (g : Turn) : Prop :=
  serving_ s = false /\ (faulted_ s = false -> Between 0 s g \/ Between 9 s g).
(** What an answer means: on success every ring was served, and the last look
    at the indices of the polled rings tells whether descriptors are left. *)
Definition Answered (r : QueueServiceResult) (s : PciQueueService) (g : Turn) : Prop :=
  match r with
  | fault_ => faulted_ s = true
  | _ => Between 9 s g /\ exists h8 w8 h7 w7, reading 8 (latest g) = Some (h8, w8) /\ reading 7 (latest g) = Some (h7, w7) /\
      (r = drained <-> h8 = w8 /\ h7 = w7)
  end.
Lemma consumes_wp s g : serving_ s = true -> Between 0 s g ->
  wpm serviceRules (for_each 0 7 consume) s g (fun r s' g' => s' = s /\ match r with Some _ => Between 7 s g' | None => True end).
Proof.
  intros Hs H. apply (wpm_for_each _ (fun i s' g' => s' = s /\ Between i s g')); [lia|auto| |intros s1 g1 [-> H1]; auto].
  intros i s1 g1 Hi [-> H1]. eapply wpm_mono; [apply consume_wp; eassumption|]. intros [[]|] s2 g2 [-> H2]; auto.
Qed.
Lemma passes_wp s g : serving_ s = true -> Between 0 s g ->
  wpm serviceRules (for_each 0 7 consume;; a ← pass nestedDrain true; b ← pass nestedDrain false; mret ((b : bool) || a)) s g
    (fun r s' g' => serving_ s' = true /\ match r with Some x => Answered (if x : bool then more else drained) s' g' | None => True end).
Proof.
  intros Hs H. wstep. eapply wpm_mono; [apply consumes_wp; assumption|]. intros [[]|] s1 g1 [-> H1]; [|auto].
  wstep. eapply wpm_mono; [apply (pass_wp true); assumption|]. intros [a|] s2 g2 [S2 H2]; [|auto]. destruct H2 as [H2 [(h8 & w8 & R8 & ->) _]].
  wstep. eapply wpm_mono; [apply (pass_wp false); assumption|]. intros [b|] s3 g3 [S3 H3]; [|auto]. destruct H3 as [H3 [(h7 & w7 & R7 & ->) K]].
  apply wpm_ret. split; [exact S3|].
  assert (E : exists x y z t, reading 8 (latest g3) = Some (x, y) /\ reading 7 (latest g3) = Some (z, t) /\
    ((if negb (h7 =? w7) || negb (h8 =? w8) then more else drained) = drained <-> x = y /\ z = t)).
  { exists h8, w8, h7, w7. split; [rewrite K by lia; exact R8|]. split; [exact R7|]. destruct (Z.eqb_spec h7 w7), (Z.eqb_spec h8 w8); cbn; split; try discriminate; auto; intros []; contradiction. }
  destruct (negb (h7 =? w7) || _); exact (conj H3 E).
Qed.
Lemma drain_wp s g : Rested s g ->
  wpm serviceRules (drain nestedDrain) s g (fun o s' g' => exists r, o = Some r /\ Rested s' g' /\ Answered r s' g' /\ (faulted_ s = true -> r = fault_ /\ g' = g)).
Proof.
  intros [Hs Hr]. unfold drain. wstep. apply wpm_get. cbn beta iota. rewrite Hs. cbn [orb].
  assert (HF : forall s1 g1, serving_ s1 = false -> (faulted_ s = true -> g1 = g) -> wpm serviceRules fault s1 g1
    (fun o s' g' => exists r, o = Some r /\ Rested s' g' /\ Answered r s' g' /\ (faulted_ s = true -> r = fault_ /\ g' = g))).
  { intros s1 g1 H1 H2. unfold fault. wstep. apply wpm_modify. apply wpm_ret. exists fault_. split; [reflexivity|]. split; [split; [exact H1|discriminate]|]. split; [reflexivity|auto]. }
  destruct (faulted_ s) eqn:Ef; [apply HF; auto|]. specialize (Hr eq_refl).
  assert (H0 : forall x, Between 0 s (serviceNext g Running x)).
  { intros x. destruct Hr as [[A B [C C'] D]|[A B [C C'] D]]; cbn; rewrite A; cbn; [rewrite B, C|]; split; cbn; auto. }
  wstep. apply svc_wp; [exact I|]. intros x. cbn beta iota. specialize (H0 x). set (g0 := serviceNext _ _ _) in *.
  destruct (negb x || _ || _ || _); [apply HF; [exact Hs|discriminate]|]. wstep. apply wpm_modify. cbn beta iota. set (s0 := s <| serving_ := true |>).
  assert (B0 : Between 0 s0 g0) by (destruct H0; split; assumption).
  wstep. apply orFault_wp. eapply wpm_mono; [apply passes_wp; [reflexivity|exact B0]|]. intros [y|] s1 g1 [S1 H1]; cbn beta iota; wstep; apply wpm_modify; apply wpm_ret.
  - exists (if y : bool then more else drained). split; [reflexivity|].
    assert (B9 : Between 9 (s1 <| serving_ := false |>) g1) by (destruct y; destruct H1 as [[] _]; split; assumption).
    split; [split; [reflexivity|auto]|]. split; [destruct y; exact (conj B9 (proj2 H1))|discriminate].
  - exists fault_. split; [reflexivity|]. split; [split; [reflexivity|discriminate]|]. split; [reflexivity|discriminate].
Qed.

(** A list of answers: after a fault there are only faults. *)
Fixpoint untilFault (l : list QueueServiceResult) : Prop :=
  match l with [] => True | fault_ :: l => Forall (fun r => r = fault_) l | _ :: l => untilFault l end.
Lemma drains_wp n s g : Rested s g ->
  wpm serviceRules (drains n) s g (fun o s' g' => exists l, o = Some l /\ length l = n /\ Rested s' g' /\ untilFault l /\
    (faulted_ s = true -> Forall (fun r => r = fault_) l) /\ match l with [] => s' = s /\ g' = g | _ => Answered (List.last l fault_) s' g' end).
Proof.
  revert s g. induction n as [|n IH]; intros s g H; cbn [drains].
  { apply wpm_ret. exists []. split; [reflexivity|]. split; [reflexivity|]. split; [exact H|]. split; [exact I|]. split; [intros _; apply List.Forall_nil|auto]. }
  wstep. eapply wpm_mono; [apply drain_wp, H|]. intros o s1 g1 (r & -> & H1 & A1 & K). wstep. eapply wpm_mono; [apply IH, H1|].
  intros o s2 g2 (l & -> & L & H2 & U & F & A2). apply wpm_ret. exists (r :: l). split; [reflexivity|]. split; [cbn; congruence|]. split; [exact H2|]. split; [|split].
  - destruct r; cbn; [exact U|exact U|apply F, A1].
  - intros Hf. destruct (K Hf) as [-> _]. apply List.Forall_cons; [reflexivity|apply F, A1].
  - destruct l as [|r2 l]; [|exact A2]. destruct A2 as [-> ->]. exact A1.
Qed.
Definition newService (tx : list bool) (rxq rpq : bool) : PciQueueService := mkService tx rxq rpq false false.

(** C34: However often [drain] is called, the indices, the queues and the receivers
    are used by the rules; every call that is not a fault has served all nine
    rings, and answers [drained] exactly when the last look at the two polled
    rings found nothing left; a fault is final, and from then on nothing is
    called at all. *)
Theorem drains_contract n tx rxq rpq tr o s' : exec (drains n (newService tx rxq rpq)) tr (o, s') ->
  accepts serviceRules newTurn tr /\
  exists l, o = Some l /\ length l = n /\ untilFault l /\ (l <> [] -> Answered (List.last l fault_) s' (after serviceRules newTurn tr)) /\
  (faulted_ s' = true -> drain nestedDrain s' = Ret (Some fault_, s')).
Proof.
  intros He. assert (H : Rested (newService tx rxq rpq) newTurn) by (split; [reflexivity|intros _; left; split; auto]).
  destruct (wp_sound serviceRules _ _ _ _ _ (drains_wp n _ _ H) He (relies_trivial serviceRules newTurn tr (fun _ _ _ => I))) as [Hacc Hp]. cbn [fst snd] in Hp.
  destruct Hp as (l & -> & L & [R _] & U & _ & A).
  split; [exact Hacc|]. exists l. split; [reflexivity|]. split; [exact L|]. split; [exact U|]. split; [intros Hl; destruct l; [contradiction|exact A]|].
  intros Hf. unfold drain, get, mbind, M_bind. cbn. rewrite R, Hf. cbn. destruct s'. cbn in *. subst. reflexivity.
Qed.

(** ** A concrete run: two drains leave nothing, the third meets a
    receiver that refuses *)

Definition queueBoard : handler Queues Z := fun d o =>
  match o as o return Ans Queues o * Z with
  | ReadIndices ring => (Some (if (ring =? 7) && (d =? 0) then 1 else 2, 2), d)
  | Poll ring _ _ => ((if ring =? 7 then [10; 20] else [8]), d)
  | Callback rpq _ => ((rpq || (d <? 2), false), d)
  | PollEnd _ => ((true, 2), d)
  | Publish ring _ => (true, if ring =? 7 then d + 1 else d)
  | Running | ConsumeTo _ _ => (true, d)
  end.
Definition drainRun := run_trace queueBoard (drains 4 (newService (replicate 6 true) true true)) 0.
Example sample_drains : fst (fst (fst drainRun)) = Some [drained; drained; fault_; fault_].
Proof. vm_compute. reflexivity. Qed.
Lemma drains_contract_witness :
  accepts serviceRules newTurn (snd drainRun) /\
  exists l, fst (fst (fst drainRun)) = Some l /\ length l = 4%nat /\ untilFault l /\
  (l <> [] -> Answered (List.last l fault_) (snd (fst (fst drainRun))) (after serviceRules newTurn (snd drainRun))) /\
  (faulted_ (snd (fst (fst drainRun))) = true -> drain nestedDrain (snd (fst (fst drainRun))) = Ret (Some fault_, snd (fst (fst drainRun)))).
Proof.
  apply (drains_contract 4 (replicate 6 true) true true). rewrite <- surjective_pairing. apply run_trace_exec.
Defined.
