(* ===== verification/FirmwareMailbox.v ===== *)
(** * The register mailbox (src/network/FirmwareMailbox.hpp)

    [Mailbox] exchanges short messages with the firmware through four data
    registers and a control byte in each direction, and pauses the firmware's
    scheduler with one of them. *)

From S2P Require Import Prelude Prog.

(** ** The registers and the device *)

Definition h2cDataRegs : list Z := [0x8140; 0x8144; 0x8148; 0x814c].
Definition c2hDataRegs : list Z := [0x8150; 0x8154; 0x8158; 0x815c].
Definition h2cData (i : Z) : Z := nth (Z.to_nat i) h2cDataRegs 0.
Definition c2hData (i : Z) : Z := nth (Z.to_nat i) c2hDataRegs 0.
Definition h2cControl : Z := 0x8160.
Definition c2hControl : Z := 0x8164.
Definition hostCounters : Z := 0x1f5.
Definition firmwareControl : Z := 0x1e0.
Definition schedulerTx : Z := 0xc348.
Definition schedulerCommand : Z := 5.
Definition schedulerReply : Z := 4.

(** A read answers whether it succeeded, and the value. *)
Inductive mailOp :=
| InGate | Cancelled | NowUs | DelayUs (us : Z)
| Read8 (a : Z) | Read16 (a : Z) | Read32 (a : Z) | Write8 (a v : Z) | Write32 (a v : Z).
Definition mailAns (o : mailOp) : Type :=
  match o with
  | NowUs => Z
  | Read8 _ | Read16 _ | Read32 _ => bool * Z
  | _ => bool
  end.
Definition MailIo : sig := Sig mailOp mailAns.

(** ** The object *)

Inductive MailError :=
| none | invalid | ownership | io | timeout | clock | cancelled | staleReply | malformedReply | unexpectedReply | readback.
#[export] Instance MailError_eq : EqDecision MailError. Proof. solve_decision. Defined.
Record Request := mkRequest { function : Z; contentBytes : Z; words : list Z }.
Record Reply := mkReply { r_words : list Z; r_function : Z; r_contentBytes : Z; r_sequence : Z; r_ack : bool }.
#[export] Instance Reply_rebuild : Rebuild Reply := fun r =>
  mkReply (r_words r) (r_function r) (r_contentBytes r) (r_sequence r) (r_ack r).
Record MailResult := mkMailResult {
  error : MailError; address : Z; value : Z; operations : Z; polls : Z;
  triggerAttempted : bool; replyCaptured : bool; replyAcknowledged : bool; stateUncertain : bool; reply : Reply
}.
#[export] Instance MailResult_rebuild : Rebuild MailResult := fun r =>
  mkMailResult (error r) (address r) (value r) (operations r) (polls r)
    (triggerAttempted r) (replyCaptured r) (replyAcknowledged r) (stateUncertain r) (reply r).
Definition noResult : MailResult := mkMailResult none 0 0 0 0 false false false false (mkReply [0; 0; 0; 0] 0 0 0 false).
Record Mailbox := mkMailbox {
  active_ : bool; faulted_ : bool; paused_ : bool; savedTx_ : Z; begin_ : Z; previous_ : Z; clockStarted_ : bool; result : MailResult
}.
#[export] Instance Mailbox_rebuild : Rebuild Mailbox := fun s =>
  mkMailbox (active_ s) (faulted_ s) (paused_ s) (savedTx_ s) (begin_ s) (previous_ s) (clockStarted_ s) (result s).
Definition newMailbox : Mailbox := mkMailbox false false false 0 0 0 false noResult.

(** A [bool] method that answers false breaks off. *)
Definition MB (A : Type) : Type := M MailIo Mailbox A.
Definition mail (o : mailOp) : MB (mailAns o) := call (Σ:=MailIo) o.
Definition onResult (f : MailResult -> MailResult) : MB unit := modify (fun s => s <| result := f (result s) |>).
Definition onReply (f : Reply -> Reply) : MB unit := onResult (fun r => r <| reply := f (reply r) |>).

(** ** Failing, and the checks around every access *)

Definition isNone (e : MailError) : bool := bool_decide (e = none).
Definition note (e : MailError) (a v : Z) : MB unit := modify (fun s =>
  let r := result s in
  let r := if isNone (error r) then r <| error := e |> <| address := a |> <| value := v |> else r in
  s <| result := r <| stateUncertain := triggerAttempted r || replyCaptured r |> |> <| faulted_ := true |>).
Definition fail {A} (e : MailError) (a v : Z) : MB A := note e a v;; brk.
Definition now : MB Z := t ← mail NowUs; mret (u64 t).
Definition check : MB unit :=
  s ← get;
  if faulted_ s || negb (isNone (error (result s))) then brk else
  g ← mail InGate;
  if negb (g : bool) then fail ownership 0 0 else
  c ← mail Cancelled;
  if (c : bool) then fail cancelled 0 0 else
  t ← now;
  modify (fun s => if clockStarted_ s then s else s <| begin_ := t |> <| previous_ := t |> <| clockStarted_ := true |>);;
  s ← get;
  if t <? previous_ s then fail clock 0 0 else
  modify (fun s => s <| previous_ := t |>);;
  if (1100000 <? u64 (t - begin_ s)) || (1100000 <? operations (result s)) then fail timeout 0 0 else mret tt.
Definition countOperation : MB unit := onResult (fun r => r <| operations := u32 (operations r + 1) |>).
Definition reading (a : Z) (m : MB (bool * Z)) : MB Z :=
  check;; countOperation;; x ← m;
  unless (fst (x : bool * Z)) (fail io a 0);;
  check;; mret (snd (x : bool * Z)).
Definition writing (a v : Z) (m : MB bool) : MB unit :=
  check;; countOperation;; x ← m;
  unless (x : bool) (fail io a v);;
  check;; mret tt.
Definition read8 (a : Z) : MB Z := reading a (x ← mail (Read8 a); mret (fst x, u8 (snd x))).
Definition read16 (a : Z) : MB Z := reading a (x ← mail (Read16 a); mret (fst x, u16 (snd x))).
Definition read32 (a : Z) : MB Z := reading a (x ← mail (Read32 a); mret (fst x, u32 (snd x))).
Definition write8 (a v : Z) : MB unit := writing a v (mail (Write8 a v)).
Definition write32 (a v : Z) : MB unit := writing a v (mail (Write32 a v)).
Definition delay (us : Z) : MB unit := check;; x ← mail (DelayUs us); unless (x : bool) (fail io 0 0).
Fixpoint waitLoop (n : nat) (address wanted step limit start : Z) : MB unit :=
  match n with
  | O => fail timeout address 0
  | Datatypes.S n =>
      v ← read8 address;
      onResult (fun r => r <| polls := u32 (polls r + 1) |>);;
      if 1 <? v then fail io address v else
      s ← get;
      if previous_ s <? start then fail clock address 0 else
      let elapsed := u64 (previous_ s - start) in
      if limit <? elapsed then fail timeout address 0 else
      if v =? wanted then mret tt else
      if elapsed =? limit then fail timeout address 0 else
      delay step;; waitLoop n address wanted step limit start
  end.
Definition waitControl (address wanted step limit : Z) : MB unit :=
  start ← now; waitLoop (Z.to_nat (limit / step + 1)) address wanted step limit start.
(** The byte with its sending (low) or receiving (high) half incremented. *)
Definition bumped (sending : bool) (v : Z) : Z :=
  let shift := if sending then 0 else 4 in
  let mask := u8 (Z.shiftl 15 shift) in
  Z.lor (Z.ldiff v mask) (u8 (Z.shiftl (Z.land (Z.shiftr v shift + 1) 15) shift)).
Definition incrementCounter (sending : bool) : MB unit :=
  v ← read8 hostCounters; write8 hostCounters (bumped sending v).

(** ** A transaction *)

Definition caught {A} (m : MB A) : MB (option A) := fun s => bindP (m s) (fun r => Ret (Some r.1, r.2)).
Definition firmwareReady (v : Z) : bool := negb ((v =? 0xffffffff) || (v =? 0xdeadbeef) || negb (Z.land v 0xe0 =? 0xe0)).
Definition start : MB unit :=
  s ← get;
  if active_ s then fail ownership 0 0 else
  if faulted_ s then brk else
  modify (fun s => s <| result := noResult |> <| clockStarted_ := false |>);;
  check;;
  modify (fun s => s <| active_ := true |>);;
  fw ← caught (read32 firmwareControl);
  if match fw with Some v => firmwareReady v | None => false end then mret tt else
  note invalid firmwareControl (match fw with Some v => v | None => 0 end);;
  modify (fun s => s <| active_ := false |>);; brk.
(** The guard that ends a transaction however it goes. *)
Definition guarded (m : MB unit) : MB unit := fun s => bindP (m s) (fun r => Ret (r.1, r.2 <| active_ := false |>)).
(** [read32] into a word of the reply: stored even when the access fails. *)
Definition storeWord (i v : Z) (s : Mailbox) : Mailbox :=
  s <| result := (result s) <| reply := (reply (result s)) <| r_words := <[Z.to_nat i := v]> (r_words (reply (result s))) |> |> |>.
Definition readInto (i : Z) : MB Z :=
  reading (c2hData i) (x ← mail (Read32 (c2hData i)); modify (storeWord i (u32 (snd x)));; mret (fst x, u32 (snd x))).
Definition parseReply : MB unit :=
  s ← get;
  let w := nth 0 (r_words (reply (result s))) 0 in
  let length := Z.land (Z.shiftr w 8) 15 in
  onReply (fun r => r <| r_function := u8 (Z.land w 127) |> <| r_sequence := u8 (Z.land (Z.shiftr w 12) 15) |> <| r_ack := flag w 128 |>);;
  if (length <? 1) || (4 <? length) then fail malformedReply (c2hData 0) w else
  onReply (fun r => r <| r_contentBytes := u8 (length * 4 - 2) |>);; check.
Definition receive : MB unit :=
  waitControl c2hControl 1 1 1000000;;
  for_each 0 4 (fun i => _ ← readInto i; mret tt);;
  onResult (fun r => r <| replyCaptured := true |>);;
  write8 c2hControl 0;;
  onResult (fun r => r <| replyAcknowledged := true |>);;
  incrementCounter false;; parseReply.
Definition rejectStale {A} (v : Z) : MB A :=
  if negb (v =? 1) then fail io c2hControl v else
  onResult (fun r => r <| error := staleReply |> <| address := c2hControl |> <| value := v |>);; brk.
Definition wordCount (q : Request) : Z := (contentBytes q + 2 + 3) / 4.
(** Word [i] of a request: the header in the first, the padding cleared. *)
Definition requestWord (q : Request) (i : Z) : Z :=
  let count := wordCount q in
  let w := if i <? count then nth (Z.to_nat i) (words q) 0 else 0 in
  let w := if i =? 0 then Z.lor (Z.lor (Z.land w 0xffff0000) (function q)) (Z.shiftl count 8) else w in
  let bytes := contentBytes q + 2 in
  if (i <? count) && (bytes <? i * 4 + 4) then Z.land w (Z.shiftl 1 ((bytes - i * 4) * 8) - 1) else w.
Definition exchangeInner (q : Request) (expected : Z) : MB unit :=
  stale ← read8 c2hControl;
  if negb (stale =? 0) then rejectStale stale else
  waitControl h2cControl 0 1000 5000;;
  stale ← read8 c2hControl;
  if negb (stale =? 0) then rejectStale stale else
  for_each 0 4 (fun i => write32 (h2cData i) (requestWord q i));;
  incrementCounter true;; check;;
  onResult (fun r => r <| triggerAttempted := true |>);;
  write8 h2cControl 1;; receive;;
  s ← get;
  if negb (r_function (reply (result s)) =? expected) then fail unexpectedReply (c2hData 0) (nth 0 (r_words (reply (result s))) 0) else mret tt.
Definition schedulerRequest (v : Z) : Request := mkRequest schedulerCommand 6 [Z.shiftl v 16; 0xffff; 0; 0].
Definition setScheduler (v : Z) : MB unit :=
  exchangeInner (schedulerRequest v) schedulerReply;;
  actual ← read16 schedulerTx;
  check;;
  if actual =? v then mret tt else fail readback schedulerTx actual.

(** ** The public calls *)

Definition exchange (q : Request) (expected : Z) : MB bool :=
  if (127 <? function q) || (function q =? schedulerCommand) || (14 <? contentBytes q) || (127 <? expected) then mret false else
  succeeds (start;; guarded (exchangeInner q expected)).
Definition receivePending : MB bool := succeeds (start;; guarded receive).
Definition setSchedulerMask (v : Z) : MB bool :=
  s ← get; if paused_ s then mret false else succeeds (start;; guarded (setScheduler v)).
Definition pauseScheduler : MB bool :=
  s ← get;
  if paused_ s then mret false else
  succeeds (start;; guarded (
    old ← read16 schedulerTx;
    setScheduler 0;;
    modify (fun s => s <| savedTx_ := old |> <| paused_ := true |>))).
Definition resumeScheduler : MB bool :=
  s ← get;
  if negb (paused_ s) then mret false else
  succeeds (start;; guarded (
    current ← read16 schedulerTx;
    if negb (current =? 0) then fail readback schedulerTx current else
    s ← get;
    setScheduler (savedTx_ s);;
    modify (fun s => s <| paused_ := false |>))).

(** ** The rules of the mailbox

    What is known of the transaction since the firmware was seen ready:
    [c2h], [h2c] and [counter], the last readings not yet used, that of the
    reply control byte since the wait for the other; [sent], the
    data words written; [counted], the sending counter was advanced;
    [taken], the reply words read; [freed], the reply was given back and the
    receiving counter is still to be advanced; [sched], the scheduler mask's
    readings, latest first. *)

Record Mail := mkMail {
  ready : bool; c2h : option Z; h2c : option Z; counter : option Z; sent : list Z; counted : bool; triggered : bool;
  taken : list Z; acked : bool; freed : bool; wrote : bool; sched : list Z
}.
#[export] Instance Mail_rebuild : Rebuild Mail := fun m =>
  mkMail (ready m) (c2h m) (h2c m) (counter m) (sent m) (counted m) (triggered m) (taken m) (acked m) (freed m) (wrote m) (sched m).
Definition newMail : Mail := mkMail false None None None [] false false [] false false false [].
(** [lease]: 3 once the gate is held, nothing is cancelled and the clock was
    read, until the next access; [opened], the clock at the first access. *)
Record Mailing := mkMailing { lease : Z; clockRead : Z; opened : Z; letter : Mail }.
Definition newMailing : Mailing := mkMailing 0 0 0 newMail.

Definition mailNext (m : Mail) (o : mailOp) : mailAns o -> Mail :=
  match o with
  | Read32 a => fun x =>
      if a =? firmwareControl then newMail <| ready := fst x && firmwareReady (u32 (snd x)) |>
      else if fst x then m <| taken := taken m ++ [u32 (snd x)] |> else m
  | Read16 _ => fun x => if fst x then m <| sched := u16 (snd x) :: sched m |> else m
  | Read8 a => fun x =>
      if negb (fst x) then m else
      if a =? c2hControl then m <| c2h := Some (u8 (snd x)) |> else
      if a =? h2cControl then m <| h2c := Some (u8 (snd x)) |> <| c2h := None |> else m <| counter := Some (u8 (snd x)) |>
  | Write32 _ v => fun x => m <| wrote := true |> <| sent := if x then sent m ++ [v] else sent m |>
  | Write8 a v => fun x =>
      let m := m <| wrote := true |> in
      if a =? hostCounters then (if freed m then m <| counter := None |> <| freed := false |> else m <| counter := None |> <| counted := true |>)
      else if a =? h2cControl then m <| triggered := true |>
      else m <| c2h := None |> <| acked := true |> <| freed := true |>
  | _ => fun _ => m
  end.
Definition mailingNext (g : Mailing) (o : mailOp) : mailAns o -> Mailing :=
  match o with
  | InGate => fun x => mkMailing (if x then 1 else 0) (clockRead g) (opened g) (letter g)
  | Cancelled => fun x => mkMailing (if (lease g =? 1) && negb x then 2 else 0) (clockRead g) (opened g) (letter g)
  | NowUs => fun t => mkMailing (if 2 <=? lease g then 3 else 0) (u64 t) (opened g) (letter g)
  | DelayUs _ => fun _ => mkMailing 0 (clockRead g) (opened g) (letter g)
  | o => fun x => mkMailing 0 (clockRead g)
      (match o with Read32 a => if a =? firmwareControl then clockRead g else opened g | _ => opened g end) (mailNext (letter g) o x)
  end.
(** - the data words go in order into a free mailbox that holds no reply;
    - a counter is only advanced, from its last reading: the sending half once
      the words are there, the receiving half once the reply was given back;
    - the firmware is rung once, after that;
    - a reply is read in order once it is announced, and given back once it
      was read. *)
Definition mailMay (m : Mail) (o : mailOp) : Prop :=
  match o with
  | Read32 a => ready m = true /\ a = c2hData (zlen (taken m)) /\ zlen (taken m) < 4 /\ c2h m = Some 1
  | Read16 a => ready m = true /\ a = schedulerTx
  | Read8 a => ready m = true /\ (a = c2hControl \/ a = h2cControl \/ a = hostCounters)
  | Write32 a v => a = h2cData (zlen (sent m)) /\ zlen (sent m) < 4 /\ ready m = true /\ c2h m = Some 0 /\ h2c m = Some 0
  | Write8 a v => ready m = true /\
      (a = hostCounters /\ (exists r, counter m = Some r /\ (freed m = false /\ zlen (sent m) = 4 /\ counted m = false /\ triggered m = false /\ v = bumped true r \/
        freed m = true /\ v = bumped false r)) \/
       a = h2cControl /\ v = 1 /\ counted m = true /\ zlen (sent m) = 4 /\ triggered m = false /\ c2h m = Some 0 /\ h2c m = Some 0 \/
       a = c2hControl /\ v = 0 /\ zlen (taken m) = 4 /\ c2h m = Some 1)
  | _ => True
  end.
(** Every access is under a fresh lease, and all but the first within 1.1
    seconds of it. *)
Definition mailingMay (g : Mailing) (o : mailOp) : Prop :=
  match o with
  | InGate | Cancelled | NowUs => True
  | DelayUs _ => lease g = 3
  | Read32 a => lease g = 3 /\ (a = firmwareControl \/ 0 <= clockRead g - opened g <= 1100000 /\ mailMay (letter g) o)
  | o => lease g = 3 /\ 0 <= clockRead g - opened g <= 1100000 /\ mailMay (letter g) o
  end.
Definition mailRules : protocol MailIo Mailing := Protocol (Σ:=MailIo) mailingMay (fun _ _ _ => True) mailingNext.
Lemma mail_wp o s g (P : option (mailAns o) -> Mailbox -> Mailing -> Prop) :
  mailingMay g o -> (forall x, P (Some x) s (mailingNext g o x)) -> wpm mailRules (mail o) s g P.
Proof. intros H1 H2. apply wpm_call; [exact H1|intros x _; apply H2]. Qed.

(** ** A failure, and a transaction that goes on *)

(** What a failed call leaves: a fault that says whether the firmware may have
    seen something, or a refusal that wrote nothing. *)
Definition Ended (s : Mailbox) (m : Mail) : Prop :=
  (triggered m = true -> triggerAttempted (result s) = true) /\ (acked m = true -> replyCaptured (result s) = true) /\
  (faulted_ s = true /\ error (result s) <> none /\ error (result s) <> staleReply /\ stateUncertain (result s) = triggerAttempted (result s) || replyCaptured (result s) \/
   faulted_ s = false /\ error (result s) = staleReply /\ wrote m = false).
Definition Failed (s0 s : Mailbox) (g : Mailing) : Prop := paused_ s = paused_ s0 /\ savedTx_ s = savedTx_ s0 /\ Ended s (letter g).
Record Going (s : Mailbox) (g : Mailing) : Prop := {
  g_open : faulted_ s = false /\ error (result s) = none;
  g_clock : clockStarted_ s = true /\ 0 <= begin_ s <= opened g /\ opened g <= previous_ s /\ in_u64 (previous_ s);
  g_ready : ready (letter g) = true;
  g_flags : (triggered (letter g) = true -> triggerAttempted (result s) = true) /\ (acked (letter g) = true -> replyCaptured (result s) = true)
}.
(** Only the clock and the operation counts differ. *)
Definition same (s s' : Mailbox) : Prop :=
  active_ s' = active_ s /\ paused_ s' = paused_ s /\ savedTx_ s' = savedTx_ s /\ reply (result s') = reply (result s) /\
  triggerAttempted (result s') = triggerAttempted (result s) /\ replyCaptured (result s') = replyCaptured (result s) /\
  replyAcknowledged (result s') = replyAcknowledged (result s).
Lemma mail_same_refl s : same s s. Proof. repeat split. Qed.
Lemma mail_same_trans s1 s2 s3 : same s1 s2 -> same s2 s3 -> same s1 s3.
Proof. unfold same. intuition congruence. Qed.
Lemma mail_fail_wp {A} e a v s0 s g (P : option A -> Mailbox -> Mailing -> Prop) : e <> none -> e <> staleReply ->
  paused_ s = paused_ s0 -> savedTx_ s = savedTx_ s0 -> error (result s) = none ->
  (triggered (letter g) = true -> triggerAttempted (result s) = true) -> (acked (letter g) = true -> replyCaptured (result s) = true) ->
  (forall s', Failed s0 s' g -> P None s' g) -> wpm mailRules (fail e a v) s g P.
Proof.
  intros He1 He2 H1 H2 He H3 H4 HP. unfold fail, note. wstep. apply wpm_modify. apply wpm_brk, HP. cbv zeta.
  assert (E : isNone (error (result s)) = true) by (unfold isNone; rewrite bool_decide_eq_true; exact He). rewrite E.
  split; [exact H1|]. split; [exact H2|]. split; [exact H3|]. split; [exact H4|]. left. cbn. auto.
Qed.

(** ** Checks and accesses *)

Definition ticked (t : Z) (s : Mailbox) : Mailbox :=
  (if clockStarted_ s then s else s <| begin_ := t |> <| previous_ := t |> <| clockStarted_ := true |>) <| previous_ := t |>.
Definition flagsOf (s : Mailbox) (m : Mail) : Prop :=
  (triggered m = true -> triggerAttempted (result s) = true) /\ (acked m = true -> replyCaptured (result s) = true).
(** A fault noted from [s]. *)
Definition Halted (s s' : Mailbox) : Prop :=
  paused_ s' = paused_ s /\ savedTx_ s' = savedTx_ s /\ active_ s' = active_ s /\ faulted_ s' = true /\ error (result s') <> none /\ error (result s') <> staleReply /\
  stateUncertain (result s') = triggerAttempted (result s) || replyCaptured (result s) /\
  triggerAttempted (result s') = triggerAttempted (result s) /\ replyCaptured (result s') = replyCaptured (result s).
Lemma halted_failed s0 s s' g : paused_ s = paused_ s0 -> savedTx_ s = savedTx_ s0 -> flagsOf s (letter g) -> Halted s s' -> Failed s0 s' g.
Proof.
  intros H1 H2 [F1 F2] (A & B & _ & C & D & E & F & G & H). split; [congruence|]. split; [congruence|]. unfold Ended. rewrite G, H. split; [exact F1|]. split; [exact F2|]. left. auto.
Qed.
Lemma halt_wp {A} e a v s1 s g (P : option A -> Mailbox -> Mailing -> Prop) : e <> none -> e <> staleReply -> error (result s) = none ->
  paused_ s = paused_ s1 -> savedTx_ s = savedTx_ s1 -> active_ s = active_ s1 -> result s = result s1 ->
  (forall s', Halted s1 s' -> P None s' g) -> wpm mailRules (fail e a v) s g P.
Proof.
  intros He1 He2 He H1 H2 H3 H4 HP. unfold fail, note. wstep. apply wpm_modify. apply wpm_brk, HP. cbv zeta.
  assert (E : isNone (error (result s)) = true) by (unfold isNone; rewrite bool_decide_eq_true; exact He). rewrite E.
  unfold Halted. cbn. rewrite H4. auto 12.
Qed.
Lemma mail_check_wp s g (P : option unit -> Mailbox -> Mailing -> Prop) : faulted_ s = false -> error (result s) = none ->
  (clockStarted_ s = true -> 0 <= begin_ s <= previous_ s) ->
  (forall t, in_u64 t -> (clockStarted_ s = true -> previous_ s <= t) -> t - begin_ (ticked t s) <= 1100000 ->
    P (Some tt) (ticked t s) (mkMailing 3 t (opened g) (letter g))) ->
  (forall s' g', Halted s s' -> letter g' = letter g -> P None s' g') ->
  wpm mailRules check s g P.
Proof.
  intros Hf He Hc HP HN. unfold check. wstep. apply wpm_get. cbn beta iota. rewrite Hf.
  assert (E : isNone (error (result s)) = true) by (unfold isNone; rewrite bool_decide_eq_true; exact He). rewrite E. cbn [negb orb].
  assert (HF : forall e g2, e <> none -> e <> staleReply -> letter g2 = letter g -> wpm mailRules (fail (A:=unit) e 0 0) s g2 P).
  { intros e g2 X1 X2 X3. apply (halt_wp e 0 0 s); try assumption; try reflexivity. intros s' H. apply HN; assumption. }
  wstep. apply mail_wp; [exact I|]. intros x. cbn beta iota. destruct x; cbn [negb]; [|apply HF; (discriminate || reflexivity)].
  wstep. apply mail_wp; [exact I|]. intros x. cbn beta iota. destruct x; [apply HF; (discriminate || reflexivity)|].
  wstep. unfold now. wstep. apply mail_wp; [exact I|]. intros t0. apply wpm_ret. cbn beta iota. pose proof (u64_range t0) as Ht0. cbn [mailingNext lease Z.eqb negb andb Z.leb Z.compare].
  set (t := u64 t0) in *. set (g1 := mkMailing _ _ _ _). wstep. apply wpm_modify. cbn beta iota. wstep. apply wpm_get. cbn beta iota.
  set (s1 := if clockStarted_ s then s else _).
  assert (F1 : paused_ s1 = paused_ s /\ savedTx_ s1 = savedTx_ s /\ active_ s1 = active_ s /\ result s1 = result s) by (unfold s1; destruct (clockStarted_ s); auto).
  destruct F1 as (F1 & F2 & F3 & F4).
  assert (HF2 : forall e s2, e <> none -> e <> staleReply -> paused_ s2 = paused_ s1 -> savedTx_ s2 = savedTx_ s1 -> active_ s2 = active_ s1 -> result s2 = result s1 -> wpm mailRules (fail (A:=unit) e 0 0) s2 g1 P).
  { intros e s2 X1 X2 X3 X4 X5 X6. apply (halt_wp e 0 0 s); try congruence. intros s' H. apply HN; [exact H|reflexivity]. }
  destruct (Z.ltb_spec t (previous_ s1)) as [L|L]; [apply HF2; (discriminate || reflexivity)|].
  wstep. apply wpm_modify. cbn beta iota. change (s1 <| previous_ := t |>) with (ticked t s).
  assert (Eb : begin_ (ticked t s) = begin_ s1) by reflexivity.
  assert (Hb : 0 <= begin_ s1 <= t).
  { unfold s1 in *. destruct (clockStarted_ s) eqn:Es; cbn in *; [specialize (Hc eq_refl); lia|]. destruct Ht0. lia. }
  rewrite (u64_small (t - begin_ s1)) by (destruct Ht0; unfold in_u64; lia).
  destruct (Z.ltb_spec 1100000 (t - begin_ s1)) as [L2|L2]; cbn [orb]; [apply HF2; (discriminate || reflexivity)|].
  destruct (1100000 <? operations (result s1)); [apply HF2; (discriminate || reflexivity)|]. apply wpm_ret. apply HP; [exact Ht0| |rewrite Eb; exact L2].
  intros Hs. unfold s1 in L. rewrite Hs in L. exact L.
Qed.
Lemma going_check s g (P : option unit -> Mailbox -> Mailing -> Prop) : Going s g ->
  (forall s' g', Going s' g' -> same s s' -> lease g' = 3 -> letter g' = letter g -> 0 <= clockRead g' - opened g' <= 1100000 -> result s' = result s -> clockRead g' = previous_ s' -> opened g' = opened g -> P (Some tt) s' g') ->
  (forall s' g', Failed s s' g' -> letter g' = letter g -> P None s' g') ->
  wpm mailRules check s g P.
Proof.
  intros [[A1 A2] (B1 & B2 & B3 & B4) C D] HP HN. apply mail_check_wp; [exact A1|exact A2|intros _; lia| |].
  2: { intros s' g' H1 H2. apply HN; [|exact H2]. apply (halted_failed s s); try reflexivity; [unfold flagsOf; rewrite H2; exact D|exact H1]. }
  intros t Ht Hp Hb. specialize (Hp B1). assert (E : ticked t s = s <| previous_ := t |>) by (unfold ticked; rewrite B1; reflexivity).
  rewrite E in *. apply HP; try reflexivity; try (cbn in *; lia); [|repeat split].
  split; try assumption; [split; assumption|]. cbn in *. split; [exact B1|]. split; [exact B2|]. split; [lia|exact Ht].
Qed.
Lemma going_fail {A} e a v s0 s g (P : option A -> Mailbox -> Mailing -> Prop) : e <> none -> e <> staleReply -> same s0 s ->
  error (result s) = none -> flagsOf s (letter g) -> (forall s', Failed s0 s' g -> P None s' g) -> wpm mailRules (fail e a v) s g P.
Proof. intros H1 H2 (_ & S2 & S3 & _) He [F1 F2] HP. apply (mail_fail_wp e a v s0); assumption. Qed.
Lemma failed_same s0 s1 s2 g : same s0 s1 -> Failed s1 s2 g -> Failed s0 s2 g.
Proof. intros (_ & A & B & _) (C & D & E). split; [congruence|]. split; [congruence|exact E]. Qed.
Lemma flags_same s s' m : flagsOf s m -> same s s' -> flagsOf s' m.
Proof. intros [A B] (_ & _ & _ & _ & C & D & _). unfold flagsOf. rewrite C, D. auto. Qed.

Definition still (s s' : Mailbox) : Prop := active_ s' = active_ s /\ paused_ s' = paused_ s /\ savedTx_ s' = savedTx_ s.
Lemma still_trans s1 s2 s3 : still s1 s2 -> still s2 s3 -> still s1 s3.
Proof. unfold still. intuition congruence. Qed.
Lemma same_still s s' : same s s' -> still s s'.
Proof. intros (A & B & C & _). repeat split; assumption. Qed.
Lemma failed_still s0 s1 s2 g : still s0 s1 -> Failed s1 s2 g -> Failed s0 s2 g.
Proof. intros (_ & A & B) (C & D & E). split; [congruence|]. split; [congruence|exact E]. Qed.
Lemma still_fail {A} e a v s0 s g (P : option A -> Mailbox -> Mailing -> Prop) : e <> none -> e <> staleReply -> still s0 s -> Going s g ->
  (forall s', Failed s0 s' g -> P None s' g) -> wpm mailRules (fail e a v) s g P.
Proof. intros H1 H2 (_ & S2 & S3) [[_ He] _ _ [F1 F2]] HP. apply (mail_fail_wp e a v s0); assumption. Qed.

(** An access between its two checks. *)
Section access.
Context {A : Type} (m : MB A) (put : A -> Mailbox -> Mailbox) (small : A -> Prop) (next : A -> Mail) (good : A -> bool) (e : MailError) (a v : Z) (s : Mailbox) (g : Mailing).
Hypothesis at_once : forall s1 g1 (Q : option A -> Mailbox -> Mailing -> Prop), lease g1 = 3 -> 0 <= clockRead g1 - opened g1 <= 1100000 -> letter g1 = letter g ->
  (forall x, small x -> Q (Some x) (put x s1) (mkMailing 0 (clockRead g1) (opened g1) (next x))) -> wpm mailRules m s1 g1 Q.
Hypothesis puts_reply : forall x s1, put x s1 = s1 \/ exists r, put x s1 = s1 <| result := (result s1) <| reply := r |> |>.
Hypothesis keeps_flags : forall x, flagsOf s (next x) /\ ready (next x) = true.
Lemma access_wp {B} (k : A -> B) (P : option B -> Mailbox -> Mailing -> Prop) : Going s g -> e <> none -> e <> staleReply ->
  (forall s2 s' g' x, Going s' g' -> same s s2 -> same (put x s2) s' -> small x -> good x = true -> letter g' = next x -> P (Some (k x)) s' g') ->
  (forall s' g', Failed s s' g' -> P None s' g') ->
  wpm mailRules (check;; countOperation;; x ← m; unless (good x) (fail e a v);; check;; mret (k x)) s g P.
Proof.
  intros H He1 He2 HP HN. wstep. apply going_check; [exact H| |intros s' g' H1 _; apply HN, H1].
  intros s1 g1 G1 S1 L1 E1 C1 R1 P1 O1. cbn beta iota. wstep. unfold countOperation, onResult. apply wpm_modify. cbn beta iota.
  set (s2 := s1 <| result := _ |>). assert (S2 : same s s2) by exact S1.
  wstep. apply at_once; [exact L1|exact C1|exact E1|]. intros x Hx. cbn beta iota. set (g2 := mkMailing 0 _ _ _). destruct (keeps_flags x) as [Fx Rx].
  assert (G2 : Going (put x s2) g2 /\ still s (put x s2)).
  { pose proof (flags_same s s2 (next x) Fx S2) as F2. destruct G1 as [X1 (X2 & X3 & X4 & X5) X6 X7].
    destruct (puts_reply x s2) as [-> |[r ->]]; (split; [split; [exact X1|split; [exact X2|split; [exact X3|split; [exact X4|exact X5]]]|exact Rx|exact F2]|exact (same_still _ _ S2)]). }
  destruct G2 as [G2 S3]. wstep. unfold unless. destruct (good x) eqn:Eg; [apply wpm_ret|apply (still_fail _ _ _ s); try assumption; intros s' H'; apply HN, H'].
  cbn beta iota. wstep. apply going_check; [exact G2| |intros s' g' H1 _; apply HN, (failed_still s (put x s2)); assumption].
  intros s3 g3 G3 S4 L3 E3 C3 R3 P3 O3. cbn beta iota. apply wpm_ret, (HP s2); auto.
Qed.
End access.
(** The firmware's flags are not at stake. *)
Lemma plain_flags s g (m : Mail) : Going s g -> triggered m = triggered (letter g) -> acked m = acked (letter g) -> ready m = ready (letter g) ->
  flagsOf s m /\ ready m = true.
Proof. intros [_ _ R [F1 F2]] H1 H2 H3. unfold flagsOf. rewrite H1, H2, H3. auto. Qed.

Section readings.
Context (s : Mailbox) (g : Mailing) (P : option Z -> Mailbox -> Mailing -> Prop).
Hypothesis going : Going s g.
Hypothesis broken : forall s' g', Failed s s' g' -> P None s' g'.
Lemma mail_read8_wp a : mailMay (letter g) (Read8 a) ->
  (forall s' g' v, Going s' g' -> same s s' -> in_u8 v -> letter g' = mailNext (letter g) (Read8 a) (true, v) -> P (Some v) s' g') ->
  wpm mailRules (read8 a) s g P.
Proof.
  intros Hm HP. unfold read8, reading. apply (access_wp _ (fun _ => id) (fun x : bool * Z => in_u8 (snd x)) (fun x : bool * Z => mailNext (letter g) (Read8 a) x) fst _ _ _ s g); try discriminate; [|auto| |exact going| |exact broken].
  - intros s1 g1 Q L C E HQ. wstep. apply mail_wp; [split; [exact L|]; split; [exact C|]; rewrite E; exact Hm|]. intros [b v]. apply wpm_ret. cbn [fst snd mailingNext].
    rewrite E. replace (mailNext (letter g) (Read8 a) (b, v)) with (mailNext (letter g) (Read8 a) (b, u8 v)) by (cbn; rewrite u8_u8; reflexivity). apply (HQ (b, u8 v)), u8_range.
  - intros [[] v]; apply (plain_flags s g _ going); cbn; try reflexivity; repeat case_match; reflexivity.
  - intros s2 s' g' [b v] G S S2 Hv Hb E. cbn in Hv, Hb. subst b. apply HP; try assumption. apply (mail_same_trans s s2); assumption.
Qed.
Lemma mail_read16_wp : ready (letter g) = true ->
  (forall s' g' v, Going s' g' -> same s s' -> in_u16 v -> letter g' = (letter g) <| sched := v :: sched (letter g) |> -> P (Some v) s' g') ->
  wpm mailRules (read16 schedulerTx) s g P.
Proof.
  intros Hm HP. unfold read16, reading. apply (access_wp _ (fun _ => id) (fun x : bool * Z => in_u16 (snd x)) (fun x : bool * Z => if fst x then (letter g) <| sched := snd x :: sched (letter g) |> else letter g) fst _ _ _ s g);
    try discriminate; [|auto| |exact going| |exact broken].
  - intros s1 g1 Q L C E HQ. wstep. apply mail_wp; [split; [exact L|]; split; [exact C|]; rewrite E; split; [exact Hm|reflexivity]|]. intros [b v]. apply wpm_ret.
    cbn [fst snd mailingNext mailNext]. rewrite E. apply (HQ (b, u16 v)), u16_range.
  - intros [[] v]; apply (plain_flags s g _ going); reflexivity.
  - intros s2 s' g' [b v] G S S2 Hv Hb E. cbn in Hv, Hb. subst b. apply HP; try assumption. apply (mail_same_trans s s2); assumption.
Qed.
(** A reply word: it is stored before the access is known to have succeeded. *)
Lemma readInto_wp i : mailMay (letter g) (Read32 (c2hData i)) -> c2hData i <> firmwareControl ->
  (forall s2 s' g' v, Going s' g' -> same s s2 -> same (storeWord i v s2) s' -> in_u32 v -> letter g' = (letter g) <| taken := taken (letter g) ++ [v] |> -> P (Some v) s' g') ->
  wpm mailRules (readInto i) s g P.
Proof.
  intros Hm Ha HP. unfold readInto, reading. apply (access_wp _ (fun x => storeWord i (snd x)) (fun x : bool * Z => in_u32 (snd x)) (fun x : bool * Z => if fst x then (letter g) <| taken := taken (letter g) ++ [snd x] |> else letter g) fst _ _ _ s g);
    try discriminate; [| | |exact going| |exact broken].
  - intros s1 g1 Q L C E HQ. wstep. apply mail_wp; [split; [exact L|]; right; split; [exact C|]; rewrite E; exact Hm|]. intros [b v]. cbn beta iota. wstep. apply wpm_modify. apply wpm_ret.
    cbn [fst snd mailingNext mailNext]. rewrite (proj2 (Z.eqb_neq _ _) Ha), E. apply (HQ (b, u32 v)), u32_range.
  - intros x s1. right. eexists. reflexivity.
  - intros [[] v]; apply (plain_flags s g _ going); reflexivity.
  - intros s2 s' g' [b v] G S S2 Hv Hb E. cbn in Hv, Hb. subst b. apply (HP s2); assumption.
Qed.
End readings.

Section writings.
Context (s : Mailbox) (g : Mailing) (P : option unit -> Mailbox -> Mailing -> Prop).
Hypothesis going : Going s g.
Hypothesis broken : forall s' g', Failed s s' g' -> P None s' g'.
Lemma write8_wp a v : mailMay (letter g) (Write8 a v) ->
  (forall x, flagsOf s (mailNext (letter g) (Write8 a v) x) /\ ready (mailNext (letter g) (Write8 a v) x) = true) ->
  (forall s' g', Going s' g' -> same s s' -> letter g' = mailNext (letter g) (Write8 a v) true -> P (Some tt) s' g') ->
  wpm mailRules (write8 a v) s g P.
Proof.
  intros Hm Hf HP. unfold write8, writing. apply (access_wp _ (fun _ => id) (fun _ => True) (fun x : bool => mailNext (letter g) (Write8 a v) x) id _ _ _ s g);
    try discriminate; [|auto|exact Hf|exact going| |exact broken].
  - intros s1 g1 Q L C E HQ. apply mail_wp; [split; [exact L|]; split; [exact C|]; rewrite E; exact Hm|]. intros x. cbn [mailingNext]. rewrite E. apply HQ. exact I.
  - intros s2 s' g' x G S S2 _ Hb E. unfold id in Hb. subst x. apply HP; try assumption. apply (mail_same_trans s s2); assumption.
Qed.
Lemma write32_wp a v : mailMay (letter g) (Write32 a v) ->
  (forall s' g', Going s' g' -> same s s' -> letter g' = (letter g) <| wrote := true |> <| sent := sent (letter g) ++ [v] |> -> P (Some tt) s' g') ->
  wpm mailRules (write32 a v) s g P.
Proof.
  intros Hm HP. unfold write32, writing. apply (access_wp _ (fun _ => id) (fun _ => True) (fun x : bool => mailNext (letter g) (Write32 a v) x) id _ _ _ s g);
    try discriminate; [|auto| |exact going| |exact broken].
  - intros s1 g1 Q L C E HQ. apply mail_wp; [split; [exact L|]; split; [exact C|]; rewrite E; exact Hm|]. intros x. cbn [mailingNext]. rewrite E. apply HQ. exact I.
  - intros x. apply (plain_flags s g _ going); reflexivity.
  - intros s2 s' g' x G S S2 _ Hb E. unfold id in Hb. subst x. apply HP; try assumption. apply (mail_same_trans s s2); assumption.
Qed.
End writings.

(** ** Waiting, and the counters *)

(** The reading of a control byte. *)
Definition seenAt (a v : Z) (m m' : Mail) : Prop :=
  a = c2hControl /\ m' = m <| c2h := Some v |> \/ a = h2cControl /\ m' = m <| h2c := Some v |> <| c2h := None |>.
Lemma control_read a m v : a = c2hControl \/ a = h2cControl -> in_u8 v -> seenAt a v m (mailNext m (Read8 a) (true, v)).
Proof. intros [-> | ->] Hv; cbn; rewrite u8_small by exact Hv; [left|right]; auto. Qed.
Lemma seenAt_again a v w m m1 m2 : seenAt a v m m1 -> seenAt a w m1 m2 -> seenAt a w m m2.
Proof. intros [[-> ->]|[-> ->]] [[E ->]|[E ->]]; try discriminate; [left|right]; auto. Qed.
Lemma going_delay us s g (P : option unit -> Mailbox -> Mailing -> Prop) : Going s g ->
  (forall s' g', Going s' g' -> same s s' -> letter g' = letter g -> P (Some tt) s' g') ->
  (forall s' g', Failed s s' g' -> P None s' g') -> wpm mailRules (delay us) s g P.
Proof.
  intros H HP HN. unfold delay. wstep. apply going_check; [exact H| |intros s' g' H1 _; apply HN, H1].
  intros s1 g1 G1 S1 L1 E1 C1 R1 P1 O1. cbn beta iota. wstep. apply mail_wp; [exact L1|]. intros x. cbn beta iota.
  assert (G2 : Going s1 (mailingNext g1 (DelayUs us) x)) by (destruct G1; split; assumption).
  unfold unless. destruct x; [apply wpm_ret, HP; assumption|]. apply (going_fail _ _ _ s); try discriminate; try assumption; try apply G2. intros s' H'. apply HN, H'.
Qed.
Lemma going_polls s g f : Going s g -> Going (s <| result := (result s) <| polls := f |> |>) g.
Proof. intros [A B C D]. split; assumption. Qed.
Lemma waitLoop_wp n a wanted step limit begin s g (P : option unit -> Mailbox -> Mailing -> Prop) :
  a = c2hControl \/ a = h2cControl -> Going s g ->
  (forall s' g', Going s' g' -> same s s' -> seenAt a wanted (letter g) (letter g') -> P (Some tt) s' g') ->
  (forall s' g', Failed s s' g' -> P None s' g') -> wpm mailRules (waitLoop n a wanted step limit begin) s g P.
Proof.
  intros Ha. revert s g. induction n as [|n IH]; intros s g H HP HN; cbn [waitLoop].
  { apply (going_fail _ _ _ s); try discriminate; [apply mail_same_refl|apply H|apply H|]. intros s' H'. apply HN, H'. }
  wstep. apply mail_read8_wp; [exact H|exact HN|split; [apply H|tauto]|]. intros s1 g1 v G1 S1 Hv E1. cbn beta iota.
  pose proof (control_read a (letter g) v Ha Hv) as Hseen. rewrite <- E1 in Hseen.
  wstep. unfold onResult. apply wpm_modify. cbn beta iota. set (s2 := s1 <| result := _ |>).
  assert (G2 : Going s2 g1) by (apply going_polls, G1). assert (S2 : same s s2) by exact S1.
  assert (HF : forall e x y, e <> none -> e <> staleReply -> wpm mailRules (fail e x y) s2 g1 P).
  { intros e x y X1 X2. apply (going_fail _ _ _ s); try assumption; try apply G2. intros s' H'. apply HN, H'. }
  destruct (1 <? v); [apply HF; discriminate|]. wstep. apply wpm_get. cbn beta iota. cbv zeta.
  destruct (previous_ s2 <? begin); [apply HF; discriminate|]. destruct (limit <? _); [apply HF; discriminate|].
  destruct (Z.eqb_spec v wanted) as [->|Hne]; [apply wpm_ret, HP; assumption|]. destruct (_ =? limit); [apply HF; discriminate|].
  wstep. apply going_delay; [exact G2| |intros s' g' H'; apply HN, (failed_same s s2); assumption].
  intros s3 g3 G3 S3 E3. cbn beta iota. apply IH; [exact G3| |].
  - intros s' g' G S E. apply HP; [exact G|apply (mail_same_trans s s2); [exact S2|apply (mail_same_trans s2 s3); assumption]|]. rewrite E3 in E. apply (seenAt_again a v _ _ (letter g1)); assumption.
  - intros s' g' H'. apply HN, (failed_same s s3); [apply (mail_same_trans s s2); assumption|exact H'].
Qed.
Lemma going_now s g : Going s g -> forall t, Going s (mailingNext g NowUs t).
Proof. intros [A B C D] t. split; assumption. Qed.
Lemma waitControl_wp a wanted step limit s g (P : option unit -> Mailbox -> Mailing -> Prop) :
  a = c2hControl \/ a = h2cControl -> Going s g ->
  (forall s' g', Going s' g' -> same s s' -> seenAt a wanted (letter g) (letter g') -> P (Some tt) s' g') ->
  (forall s' g', Failed s s' g' -> P None s' g') -> wpm mailRules (waitControl a wanted step limit) s g P.
Proof.
  intros Ha H HP HN. unfold waitControl, now. wstep. wstep. apply mail_wp; [exact I|]. intros t. apply wpm_ret. cbn beta iota. generalize (Z.to_nat (limit / step + 1)). intros n.
  apply waitLoop_wp; [exact Ha|apply going_now, H|exact HP|exact HN].
Qed.
Lemma incrementCounter_wp (sending : bool) s g (P : option unit -> Mailbox -> Mailing -> Prop) : Going s g ->
  (if sending then freed (letter g) = false /\ zlen (sent (letter g)) = 4 /\ counted (letter g) = false /\ triggered (letter g) = false else freed (letter g) = true) ->
  (forall s' g', Going s' g' -> same s s' ->
    letter g' = (letter g) <| counter := None |> <| wrote := true |> <| counted := sending || counted (letter g) |> <| freed := false |> -> P (Some tt) s' g') ->
  (forall s' g', Failed s s' g' -> P None s' g') -> wpm mailRules (incrementCounter sending) s g P.
Proof.
  intros H Hc HP HN. unfold incrementCounter. wstep. apply mail_read8_wp; [exact H|exact HN|split; [apply H|tauto]|]. intros s1 g1 v G1 S1 Hv E1. cbn beta iota.
  cbn in E1. rewrite u8_small in E1 by exact Hv. apply write8_wp; [exact G1|intros s' g' H'; apply HN, (failed_same s s1); assumption| | |].
  - split; [apply G1|]. left. split; [reflexivity|]. exists v. rewrite E1. split; [reflexivity|]. destruct sending; [left|right]; cbn; tauto.
  - intros x. apply (plain_flags s1 g1 _ G1); cbn; rewrite E1; destruct (freed _); reflexivity.
  - intros s2 g2 G2 S2 E2. apply HP; [exact G2|apply (mail_same_trans s s1); assumption|]. rewrite E2, E1. cbn. destruct sending.
    + destruct Hc as (-> & _). reflexivity.
    + rewrite Hc. reflexivity.
Qed.

(** ** Receiving *)

(** The result changes, but not what the firmware may have seen. *)
Lemma going_result s g f : Going s g -> error f = none ->
  (triggered (letter g) = true -> triggerAttempted f = true) -> (acked (letter g) = true -> replyCaptured f = true) -> Going (s <| result := f |>) g.
Proof. intros [A B C D] H1 H2 H3. split; try assumption; [split; [apply A|exact H1]|split; assumption]. Qed.

(** The length field of a reply, and the reply its four words are. *)
Definition replyLength (ws : list Z) : Z := Z.land (Z.shiftr (nth 0 ws 0) 8) 15.
Definition decodedReply (ws : list Z) : Reply :=
  let w := nth 0 ws 0 in
  mkReply ws (u8 (Z.land w 127)) (u8 (replyLength ws * 4 - 2)) (u8 (Z.land (Z.shiftr w 12) 15)) (flag w 128).
(** A reply was taken, and the mailbox given back. *)
Record Received (s : Mailbox) (m : Mail) (s' : Mailbox) (m' : Mail) : Prop := {
  v_still : still s s';
  v_trigger : triggerAttempted (result s') = triggerAttempted (result s);
  v_reply : reply (result s') = decodedReply (taken m') /\ zlen (taken m') = 4 /\ 1 <= replyLength (taken m') <= 4;
  v_captured : replyCaptured (result s') = true /\ replyAcknowledged (result s') = true;
  v_letter : m' = m <| c2h := None |> <| taken := taken m' |> <| acked := true |> <| wrote := true |> <| counter := None |> <| freed := false |>
}.
(** The reply words read so far. *)
Definition reading_reply (s0 : Mailbox) (m : Mail) (j : Z) (s : Mailbox) (g : Mailing) : Prop :=
  Going s g /\ still s0 s /\ triggerAttempted (result s) = triggerAttempted (result s0) /\ replyCaptured (result s) = replyCaptured (result s0) /\
  exists ws, letter g = m <| c2h := Some 1 |> <| taken := ws |> /\ zlen ws = j /\ zlen (r_words (reply (result s))) = 4 /\ slice (r_words (reply (result s))) 0 j = ws.
Lemma c2hData_not_control j : 0 <= j < 4 -> c2hData j <> firmwareControl.
Proof. intros Hj. z_cases j 0 4; discriminate. Qed.
Lemma slice_insert (l : list Z) j w : 0 <= j < zlen l -> slice (<[Z.to_nat j := w]> l) 0 (j + 1) = slice l 0 j ++ [w].
Proof.
  intros Hj. unfold zlen in Hj. unfold slice. cbn [Z.to_nat]. rewrite !drop_0. replace (Z.to_nat (j + 1)) with (S (Z.to_nat j)) by lia.
  rewrite (take_S_r _ _ w) by (apply list_lookup_insert_eq; lia). f_equal. apply take_insert_ge. lia.
Qed.
Lemma readReply_wp m s0 j s g (P : option Z -> Mailbox -> Mailing -> Prop) : 0 <= j < 4 -> reading_reply s0 m j s g ->
  (forall s' g' w, reading_reply s0 m (j + 1) s' g' -> P (Some w) s' g') -> (forall s' g', Failed s0 s' g' -> P None s' g') ->
  wpm mailRules (readInto j) s g P.
Proof.
  intros Hj (G & S & T & C & ws & E & L & LW & SW) HP HN. apply readInto_wp; [exact G|intros s' g' H'; apply HN, (failed_still s0 s); assumption| |apply c2hData_not_control, Hj|].
  { split; [apply G|]. rewrite E. cbn. rewrite L. repeat split. lia. }
  intros s1 s2 g2 v G2 S1 S2 Hv E2. apply HP. pose proof S1 as (A1 & A2 & A3 & R1 & T1 & C1 & _). pose proof S2 as (B1 & B2 & B3 & R2 & T2 & C2 & _). cbn in B1, B2, B3, R2, T2, C2.
  split; [exact G2|]. split; [apply (still_trans s0 s); [exact S|repeat split; congruence]|]. split; [congruence|]. split; [congruence|].
  exists (ws ++ [v]). split; [rewrite E2, E; reflexivity|]. rewrite R2. cbn. rewrite R1. split; [rewrite zlen_app; unfold zlen in *; cbn; lia|].
  split; [unfold zlen in *; rewrite length_insert; exact LW|]. rewrite slice_insert by lia. rewrite SW. reflexivity.
Qed.
Lemma parseReply_wp s0 s g (P : option unit -> Mailbox -> Mailing -> Prop) : Going s g -> still s0 s ->
  (forall s' g' r, Going s' g' -> still s0 s' -> letter g' = letter g -> 1 <= replyLength (r_words (reply (result s))) <= 4 ->
    result s' = (result s) <| reply := r |> -> r = decodedReply (r_words (reply (result s))) -> P (Some tt) s' g') ->
  (forall s' g', Failed s0 s' g' -> P None s' g') -> wpm mailRules parseReply s g P.
Proof.
  intros H S HP HN. unfold parseReply. wstep. apply wpm_get. cbn beta iota zeta. set (ws := r_words (reply (result s))) in *.
  change (Z.land (Z.shiftr (nth 0 ws 0) 8) 15) with (replyLength ws). wstep. unfold onReply at 1, onResult at 1. apply wpm_modify. cbn beta iota. set (s1 := s <| result := _ |>).
  assert (G1 : Going s1 g) by (apply going_result; [exact H|apply H|apply (g_flags _ _ H)|apply (g_flags _ _ H)]).
  destruct ((replyLength ws <? 1) || (4 <? replyLength ws)) eqn:EL; [apply (still_fail _ _ _ s0); try discriminate; try assumption; intros s' H'; apply HN, H'|].
  wstep. unfold onReply, onResult. apply wpm_modify. cbn beta iota. set (s2 := s1 <| result := _ |>).
  assert (G2 : Going s2 g) by (apply going_result; [exact G1|apply G1|apply (g_flags _ _ G1)|apply (g_flags _ _ G1)]).
  apply going_check; [exact G2| |intros s' g' H' _; apply HN, (failed_still s0 s2); assumption].
  intros s3 g3 G3 S3 _ E3 _ R3 _ _. apply (HP s3 g3 (decodedReply ws)); [exact G3|apply (still_trans s0 s2); [exact S|apply same_still, S3]|exact E3| |rewrite R3; reflexivity|reflexivity].
  apply orb_false_iff in EL. lia.
Qed.
Lemma mail_receive_wp s g (P : option unit -> Mailbox -> Mailing -> Prop) : Going s g -> taken (letter g) = [] -> freed (letter g) = false -> zlen (r_words (reply (result s))) = 4 ->
  (forall s' g', Going s' g' -> Received s (letter g) s' (letter g') -> P (Some tt) s' g') -> (forall s' g', Failed s s' g' -> P None s' g') ->
  wpm mailRules receive s g P.
Proof.
  intros H Ht Hf Hw HP HN. unfold receive. wstep. apply waitControl_wp; [left; reflexivity|exact H| |exact HN].
  intros s1 g1 G1 S1 [[_ E1]|[E _]]; [|discriminate]. cbn beta iota. wstep.
  apply (wpm_for_each _ (reading_reply s (letter g))); [lia| | |].
  { split; [exact G1|]. pose proof S1 as (_ & _ & _ & R & T & C & _). split; [apply same_still, S1|]. split; [exact T|]. split; [exact C|].
    exists []. rewrite E1. split; [destruct (letter g); cbn in *; subst; reflexivity|]. rewrite R. auto. }
  { intros j s2 g2 Hj H2. wstep. apply (readReply_wp (letter g) s); [exact Hj|exact H2| |auto]. intros s3 g3 w H3. apply wpm_ret, H3. }
  intros s2 g2 (G2 & S2 & T2 & C2 & ws & E2 & L2 & LW & SW). cbn beta iota.
  assert (Ews : r_words (reply (result s2)) = ws).
  { rewrite <- SW. unfold slice. cbn [Z.to_nat]. rewrite drop_0. symmetry. apply take_ge. unfold zlen in LW. lia. }
  wstep. unfold onResult at 1. apply wpm_modify. cbn beta iota. set (s3 := s2 <| result := _ |>).
  assert (G3 : Going s3 g2) by (apply going_result; [exact G2|apply G2|apply (g_flags _ _ G2)|reflexivity]).
  assert (S3 : still s s3) by exact S2.
  wstep. apply write8_wp; [exact G3|intros s' g' H'; apply HN, (failed_still s s3); assumption| | |].
  { split; [apply G3|]. right. right. rewrite E2. split; [reflexivity|]. split; [reflexivity|]. split; [exact L2|reflexivity]. }
  { intros x. split; [|apply G3]. split; [apply (g_flags _ _ G3)|reflexivity]. }
  intros s4 g4 G4 S4 E4. cbn beta iota. pose proof S4 as (_ & _ & _ & R4 & T4 & C4 & _).
  wstep. unfold onResult at 1. apply wpm_modify. cbn beta iota. set (s5 := s4 <| result := _ |>).
  assert (G5 : Going s5 g4) by (apply going_result; [exact G4|apply G4|apply (g_flags _ _ G4)|apply (g_flags _ _ G4)]).
  assert (S5 : still s s5) by (apply (still_trans s s3); [exact S3|apply (same_still s3 s4 S4)]).
  wstep. apply (incrementCounter_wp false); [exact G5|rewrite E4; reflexivity| |intros s' g' H'; apply HN, (failed_still s s5); assumption].
  intros s6 g6 G6 S6 E6. cbn beta iota. pose proof S6 as (_ & _ & _ & R6 & T6 & C6 & A6).
  assert (ER : r_words (reply (result s6)) = ws) by (rewrite R6; cbn; rewrite R4; exact Ews).
  apply (parseReply_wp s); [exact G6|apply (still_trans s s5); [exact S5|apply same_still, S6]| |exact HN].
  intros s7 g7 r G7 S7 E7 L7 R7 ->. rewrite ER in *. assert (Et : taken (letter g7) = ws) by (rewrite E7, E6, E4, E2; reflexivity).
  apply HP; [exact G7|]. split; rewrite ?Et, ?R7; cbn.
  - exact S7.
  - rewrite T6. cbn. rewrite T4. exact T2.
  - auto.
  - rewrite C6, A6. cbn. rewrite C4. auto.
  - rewrite E7, E6, E4, E2. destruct (letter g). reflexivity.
Qed.

(** ** Exchanging *)

(** A transaction in which only the scheduler mask was read. *)
Definition opening (l : list Z) : Mail := mkMail true None None None [] false false [] false false false l.
Definition exchangedLetter (q : Request) (ws l : list Z) : Mail :=
  mkMail true None (Some 0) None (map (requestWord q) [0; 1; 2; 3]) true true ws true false true l.
Record Exchanged (q : Request) (expected : Z) (l : list Z) (s s' : Mailbox) (m' : Mail) : Prop := {
  x_still : still s s';
  x_reply : reply (result s') = decodedReply (taken m') /\ zlen (taken m') = 4 /\ 1 <= replyLength (taken m') <= 4;
  x_expected : r_function (reply (result s')) = expected;
  x_flags : triggerAttempted (result s') = true /\ replyCaptured (result s') = true /\ replyAcknowledged (result s') = true;
  x_letter : m' = exchangedLetter q (taken m') l
}.
Lemma rejectStale_wp {A} v s0 s g (P : option A -> Mailbox -> Mailing -> Prop) : still s0 s -> Going s g -> wrote (letter g) = false ->
  (forall s' g', Failed s0 s' g' -> P None s' g') -> wpm mailRules (rejectStale v) s g P.
Proof.
  intros S H Hw HN. unfold rejectStale. destruct (negb (v =? 1)).
  { apply (still_fail _ _ _ s0); try discriminate; try assumption. intros s' H'. apply HN, H'. }
  wstep. unfold onResult. apply wpm_modify. apply wpm_brk, HN. destruct S as (_ & S1 & S2). split; [exact S1|]. split; [exact S2|].
  split; [apply H|]. split; [apply H|]. right. split; [apply H|]. split; [reflexivity|exact Hw].
Qed.
Lemma sendWords_wp q m s g (P : option unit -> Mailbox -> Mailing -> Prop) : Going s g -> letter g = m -> sent m = [] -> c2h m = Some 0 -> h2c m = Some 0 ->
  (forall s' g', Going s' g' -> same s s' -> letter g' = m <| wrote := true |> <| sent := map (requestWord q) [0; 1; 2; 3] |> -> P (Some tt) s' g') ->
  (forall s' g', Failed s s' g' -> P None s' g') -> wpm mailRules (for_each 0 4 (fun i => write32 (h2cData i) (requestWord q i))) s g P.
Proof.
  intros H E Es Ec Eh HP HN.
  apply (wpm_for_each _ (fun j s' g' => Going s' g' /\ same s s' /\ letter g' = m <| wrote := (0 <? j) || wrote m |> <| sent := map (requestWord q) (seqZ 0 j) |>)); [lia| | |].
  - split; [exact H|]. split; [apply mail_same_refl|]. rewrite E. destruct m. cbn in *. subst. reflexivity.
  - intros j s1 g1 Hj (G1 & S1 & E1). apply write32_wp; [exact G1|intros s' g' H'; apply HN, (failed_same s s1); assumption| |].
    + rewrite E1. cbn. rewrite zlen_map. assert (L : zlen (seqZ 0 j) = j) by (unfold zlen; rewrite length_seqZ; lia). rewrite L.
      split; [reflexivity|]. split; [lia|]. split; [rewrite <- E; apply H|auto].
    + intros s2 g2 G2 S2 E2. split; [exact G2|]. split; [apply (mail_same_trans s s1); assumption|]. rewrite E2, E1. cbn.
      rewrite seqZ_app by lia. rewrite map_app. cbn. replace (0 <? j + 1) with true by (symmetry; apply Z.ltb_lt; lia). reflexivity.
  - intros s1 g1 (G1 & S1 & E1). apply HP; [exact G1|exact S1|exact E1].
Qed.
(** The trigger, and the reply to it. *)
Lemma trigger_wp q expected l s0 s g (P : option unit -> Mailbox -> Mailing -> Prop) : Going s g -> still s0 s -> zlen (r_words (reply (result s))) = 4 ->
  letter g = mkMail true (Some 0) (Some 0) None (map (requestWord q) [0; 1; 2; 3]) true false [] false false true l ->
  (forall s' g', Going s' g' -> Exchanged q expected l s0 s' (letter g') -> P (Some tt) s' g') ->
  (forall s' g', Failed s0 s' g' -> P None s' g') ->
  wpm mailRules (onResult (fun r => r <| triggerAttempted := true |>);;
    write8 h2cControl 1;; receive;;
    s ← get;
    if negb (r_function (reply (result s)) =? expected) then fail unexpectedReply (c2hData 0) (nth 0 (r_words (reply (result s))) 0) else mret tt) s g P.
Proof.
  intros H S Hw E HP HN. wstep. unfold onResult. apply wpm_modify. cbn beta iota. set (s1 := s <| result := _ |>).
  assert (G1 : Going s1 g) by (apply going_result; [exact H|apply H|reflexivity|apply (g_flags _ _ H)]). assert (S1 : still s0 s1) by exact S.
  wstep. apply write8_wp; [exact G1|intros s' g' H'; apply HN, (failed_still s0 s1); assumption| | |].
  { split; [apply G1|]. right. left. rewrite E. repeat split. }
  { intros x. rewrite E. split; [split; [reflexivity|discriminate]|reflexivity]. }
  intros s2 g2 G2 S2 E2. cbn beta iota. rewrite E in E2. cbn in E2. assert (S02 : still s0 s2) by (apply (still_trans s0 s1); [exact S1|apply same_still, S2]).
  pose proof S2 as (_ & _ & _ & R2 & T2 & _).
  wstep. apply mail_receive_wp; [exact G2|rewrite E2; reflexivity|rewrite E2; reflexivity|rewrite R2; exact Hw| |intros s' g' H'; apply HN, (failed_still s0 s2); assumption].
  intros s3 g3 G3 [S3 T3 R3 C3 E3]. cbn beta iota. assert (S03 : still s0 s3) by (apply (still_trans s0 s2); assumption).
  wstep. apply wpm_get. cbn beta iota. destruct (Z.eqb_spec (r_function (reply (result s3))) expected) as [EF|EF]; cbn [negb].
  2: { apply (still_fail _ _ _ s0); try discriminate; try assumption. intros s' H'. apply HN, H'. }
  apply wpm_ret, HP; [exact G3|]. split; [exact S03|exact R3|exact EF| |].
  - split; [rewrite T3, T2; reflexivity|exact C3].
  - rewrite E3 at 1. rewrite E2. reflexivity.
Qed.
Lemma exchangeInner_wp q expected l s g (P : option unit -> Mailbox -> Mailing -> Prop) : Going s g -> letter g = opening l -> zlen (r_words (reply (result s))) = 4 ->
  (forall s' g', Going s' g' -> Exchanged q expected l s s' (letter g') -> P (Some tt) s' g') ->
  (forall s' g', Failed s s' g' -> P None s' g') -> wpm mailRules (exchangeInner q expected) s g P.
Proof.
  intros H E Hw HP HN. unfold exchangeInner. wstep. apply mail_read8_wp; [exact H|exact HN|split; [apply H|tauto]|]. intros s1 g1 v G1 S1 Hv E1. cbn beta iota.
  assert (X1 : letter g1 = (opening l) <| c2h := Some v |>) by (rewrite E1, E; cbn; rewrite u8_small by exact Hv; reflexivity).
  destruct (Z.eqb_spec v 0) as [->|_]; cbn [negb]; [|apply (rejectStale_wp v s); [apply same_still, S1|exact G1|rewrite X1; reflexivity|exact HN]].
  wstep. apply waitControl_wp; [right; reflexivity|exact G1| |intros s' g' H'; apply HN, (failed_same s s1); assumption].
  intros s2 g2 G2 S2 [[E2 _]|[_ E2]]; [discriminate|]. cbn beta iota. pose proof (mail_same_trans _ _ _ S1 S2) as S02. rewrite X1 in E2.
  wstep. apply mail_read8_wp; [exact G2|intros s' g' H'; apply HN, (failed_same s s2); assumption|split; [apply G2|tauto]|]. intros s3 g3 w G3 S3 Hw3 E3. cbn beta iota.
  pose proof (mail_same_trans _ _ _ S02 S3) as S03.
  assert (X3 : letter g3 = (opening l) <| c2h := Some w |> <| h2c := Some 0 |>) by (rewrite E3, E2; cbn; rewrite u8_small by exact Hw3; reflexivity).
  destruct (Z.eqb_spec w 0) as [->|_]; cbn [negb]; [|apply (rejectStale_wp w s); [apply same_still, S03|exact G3|rewrite X3; reflexivity|exact HN]].
  wstep. apply (sendWords_wp q _ s3 g3 _ G3 X3); try reflexivity; [|intros s' g' H'; apply HN, (failed_same s s3); assumption].
  intros s4 g4 G4 S4 E4. cbn beta iota. pose proof (mail_same_trans _ _ _ S03 S4) as S04.
  wstep. apply (incrementCounter_wp true); [exact G4|rewrite E4; repeat split| |intros s' g' H'; apply HN, (failed_same s s4); assumption].
  intros s5 g5 G5 S5 E5. cbn beta iota. pose proof (mail_same_trans _ _ _ S04 S5) as S05.
  wstep. apply going_check; [exact G5| |intros s' g' H' _; apply HN, (failed_same s s5); assumption].
  intros s6 g6 G6 S6 _ E6 _ _ _ _. cbn beta iota. pose proof (mail_same_trans _ _ _ S05 S6) as S06.
  apply (trigger_wp q expected l s); [exact G6|apply same_still, S06|destruct S06 as (_ & _ & _ & R & _); rewrite R; exact Hw| |exact HP|exact HN].
  rewrite E6, E5, E4. reflexivity.
Qed.
(** The request and its reply, and the mask read back. *)
Record Scheduled (v : Z) (l : list Z) (s s' : Mailbox) (m' : Mail) : Prop := {
  d_still : still s s';
  d_reply : reply (result s') = decodedReply (taken m') /\ zlen (taken m') = 4 /\ 1 <= replyLength (taken m') <= 4;
  d_expected : r_function (reply (result s')) = schedulerReply;
  d_letter : m' = exchangedLetter (schedulerRequest v) (taken m') (v :: l)
}.
Lemma setScheduler_wp v l s g (P : option unit -> Mailbox -> Mailing -> Prop) : Going s g -> letter g = opening l -> zlen (r_words (reply (result s))) = 4 ->
  (forall s' g', Going s' g' -> Scheduled v l s s' (letter g') -> P (Some tt) s' g') ->
  (forall s' g', Failed s s' g' -> P None s' g') -> wpm mailRules (setScheduler v) s g P.
Proof.
  intros H E Hw HP HN. unfold setScheduler. wstep. apply (exchangeInner_wp _ _ l); [exact H|exact E|exact Hw| |exact HN].
  intros s1 g1 G1 [S1 R1 F1 T1 E1]. cbn beta iota. wstep. apply mail_read16_wp; [exact G1|intros s' g' H'; apply HN, (failed_still s s1); assumption|apply G1|].
  intros s2 g2 w G2 S2 _ E2. cbn beta iota. pose proof (still_trans _ _ _ S1 (same_still _ _ S2)) as S02.
  wstep. apply going_check; [exact G2| |intros s' g' H' _; apply HN, (failed_still s s2); assumption].
  intros s3 g3 G3 S3 _ E3 _ _ _ _. cbn beta iota. pose proof (still_trans _ _ _ S02 (same_still _ _ S3)) as S03.
  destruct (Z.eqb_spec w v) as [->|Hne]; [|apply (still_fail _ _ _ s); try discriminate; try assumption; intros s' H'; apply HN, H'].
  apply wpm_ret, HP; [exact G3|]. destruct S2 as (_ & _ & _ & R2 & _), S3 as (_ & _ & _ & R3 & _). split; [exact S03| | |].
  - rewrite R3, R2, E3, E2. exact R1.
  - rewrite R3, R2. exact F1.
  - rewrite E3, E2, E1. reflexivity.
Qed.

(** ** Opening and closing *)

(** Inside a transaction that [s0] began. *)
Definition Opened (s0 s : Mailbox) (g : Mailing) : Prop :=
  Going s g /\ still s0 s /\ letter g = opening [] /\ zlen (r_words (reply (result s))) = 4.
(** A transaction that never reached the firmware's status, having touched
    nothing but, at most, that register. *)
Definition Unopened (s0 s : Mailbox) : Prop :=
  paused_ s = paused_ s0 /\ savedTx_ s = savedTx_ s0 /\ faulted_ s = true /\ error (result s) <> none /\ error (result s) <> staleReply /\ stateUncertain (result s) = false.
(** The firmware's status in a fresh transaction. *)
Lemma readFirmware_wp s0 s g (P : option (option Z) -> Mailbox -> Mailing -> Prop) :
  still s0 s -> faulted_ s = false -> result s = noResult -> clockStarted_ s = true -> 0 <= begin_ s <= previous_ s -> in_u64 (previous_ s) ->
  (forall s' g' fw, firmwareReady fw = true -> Opened s0 s' g' -> P (Some (Some fw)) s' g') ->
  (forall s' g' fw, firmwareReady fw = false -> still s0 s' -> triggerAttempted (result s') = false -> replyCaptured (result s') = false -> error (result s') = none -> P (Some (Some fw)) s' g') ->
  (forall s' g', still s0 s' -> Unopened s0 s' -> triggerAttempted (result s') = false -> replyCaptured (result s') = false -> P (Some None) s' g') ->
  wpm mailRules (caught (read32 firmwareControl)) s g P.
Proof.
  intros S Hf Hr Hc Hb Hp H1 H2 H3. unfold caught. apply wp_bind. change (wpm mailRules (read32 firmwareControl) s g (fun r s' g' => P (Some r) s' g')).
  assert (HH : forall s1 s' g', still s0 s1 -> triggerAttempted (result s1) = false -> replyCaptured (result s1) = false -> Halted s1 s' -> P (Some None) s' g').
  { intros s1 s' g' (X1 & X2 & X3) T C (A1 & A2 & A3 & A4 & A5 & A6 & A7 & A8 & A9). apply H3; [repeat split; congruence| |congruence|congruence].
    split; [congruence|]. split; [congruence|]. split; [exact A4|]. split; [exact A5|]. split; [exact A6|]. rewrite A7, T, C. reflexivity. }
  unfold read32, reading. wstep. apply mail_check_wp; [exact Hf|rewrite Hr; reflexivity|intros _; exact Hb| |intros s' g' H _; apply (HH s); try assumption; rewrite Hr; reflexivity].
  intros t Ht Htp Htb. specialize (Htp Hc). cbn beta iota. wstep. unfold countOperation, onResult. apply wpm_modify. cbn beta iota.
  assert (E1 : ticked t s = s <| previous_ := t |>) by (unfold ticked; rewrite Hc; reflexivity). rewrite E1 in *. set (s1 := _ <| result := _ |>). cbn [opened letter].
  wstep. wstep. apply mail_wp; [split; [reflexivity|left; reflexivity]|]. intros [b v0]. apply wpm_ret. cbn [fst snd mailingNext mailNext Z.eqb]. rewrite Z.eqb_refl. cbn [clockRead letter].
  pose proof (u32_range v0) as Hv. set (v := u32 v0) in *. set (g1 := mkMailing _ _ _ _).
  assert (D1 : triggerAttempted (result s1) = false /\ replyCaptured (result s1) = false /\ error (result s1) = none) by (unfold s1; cbn; rewrite Hr; auto).
  destruct D1 as (T1 & C1 & X1). wstep. unfold unless. destruct b; [apply wpm_ret|].
  2: { apply (halt_wp _ _ _ s1); try discriminate; try reflexivity; [exact X1|]. intros s' H. apply (HH s1); assumption. }
  wstep. apply mail_check_wp; [exact Hf|exact X1|intros _; cbn; destruct Ht; cbn in *; lia| |intros s' g' H _; apply (HH s1); assumption].
  intros u Hu Hup Hub. cbn beta iota. specialize (Hup Hc). assert (E2 : ticked u s1 = s1 <| previous_ := u |>) by (unfold ticked; change (clockStarted_ s1) with (clockStarted_ s); rewrite Hc; reflexivity).
  rewrite E2 in *. apply wpm_ret. destruct (firmwareReady v) eqn:Efw.
  - apply (H1 _ _ v Efw). split; [|split; [exact S|split; [reflexivity|cbn; rewrite Hr; reflexivity]]]. split.
    + split; [exact Hf|exact X1].
    + cbn in Hup, Hub. split; [exact Hc|]. cbn. split; [lia|]. split; [lia|exact Hu].
    + reflexivity.
    + split; discriminate.
  - apply (H2 _ _ v Efw); [exact S|exact T1|exact C1|exact X1].
Qed.
Lemma start_wp s g (P : option unit -> Mailbox -> Mailing -> Prop) : active_ s = false ->
  (forall s' g', Opened (s <| active_ := true |>) s' g' -> P (Some tt) s' g') ->
  (faulted_ s = true -> P None s g) ->
  (forall s' g', active_ s' = false -> Unopened s s' -> P None s' g') ->
  wpm mailRules start s g P.
Proof.
  intros Ha HP HF HU. unfold start. wstep. apply wpm_get. cbn beta iota. rewrite Ha. destruct (faulted_ s) eqn:Hf; [apply wpm_brk, HF; reflexivity|].
  wstep. apply wpm_modify. cbn beta iota. set (s1 := s <| result := noResult |> <| clockStarted_ := false |>).
  wstep. apply mail_check_wp; [exact Hf|reflexivity|discriminate| |].
  2: { intros s' g' (A1 & A2 & A3 & A4 & A5 & A6 & A7 & A8 & A9) _. apply HU; [rewrite A3; exact Ha|]. split; [exact A1|]. split; [exact A2|]. split; [exact A4|]. split; [exact A5|]. split; [exact A6|exact A7]. }
  intros t Ht _ _. cbn beta iota. wstep. apply wpm_modify. cbn beta iota. set (s2 := ticked t s1 <| active_ := true |>).
  wstep. apply (readFirmware_wp (s <| active_ := true |>)); try reflexivity; try assumption.
  - repeat split.
  - cbn. destruct Ht. lia.
  - intros s' g' fw E H. cbn beta iota. rewrite E. apply wpm_ret, HP, H.
  - intros s' g' fw E (X1 & X2 & X3) T C X. cbn beta iota. rewrite E. wstep. unfold note. apply wpm_modify. cbn beta iota. wstep. apply wpm_modify. apply wpm_brk, HU; [reflexivity|].
    unfold isNone. rewrite X. cbn. unfold Unopened. cbn. rewrite T, C. auto 10 using eq_refl; repeat split; try assumption; discriminate.
  - intros s' g' (X1 & X2 & X3) (Y1 & Y2 & Y3 & Y4 & Y5 & Y6) T C. cbn beta iota. wstep. unfold note. apply wpm_modify. cbn beta iota. wstep. apply wpm_modify. apply wpm_brk, HU; [reflexivity|].
    assert (E : isNone (error (result s')) = false) by (unfold isNone; rewrite bool_decide_eq_false; exact Y4). cbv zeta. rewrite E. unfold Unopened. cbn. rewrite T, C. repeat split; assumption.
Qed.

(** ** The words of a request *)

(** Two header bytes, the content, and zeros. *)
Definition requestBytes (q : Request) : buf :=
  [function q; wordCount q] ++ slice (concat (map le32_bytes (words q))) 2 (contentBytes q) ++ zeros (14 - contentBytes q).
Definition goodRequest (q : Request) : Prop :=
  0 <= function q <= 127 /\ 0 <= contentBytes q <= 14 /\ exists a b c d, words q = [a; b; c; d] /\ in_u32 a.
Definition header (w f n : Z) : Z := Z.lor (Z.lor (Z.land w 0xffff0000) f) (Z.shiftl n 8).
Lemma high_half w : in_u32 w -> Z.land w 0xffff0000 = w / 65536 * 65536.
Proof.
  intros Hw. change 0xffff0000 with (Z.shiftl (Z.ones 16) 16). change 65536 with (2^16). rewrite <- Z.shiftl_mul_pow2, <- Z.shiftr_div_pow2 by lia.
  apply Z.bits_inj'. intros n Hn. rewrite Z.land_spec, !Z.shiftl_spec by lia. destruct (Z.lt_ge_cases n 16).
  - rewrite !(fun z => Z.testbit_neg_r z (n - 16)) by lia. apply andb_false_r.
  - rewrite Z.shiftr_spec, Z.testbit_ones_nonneg by lia. replace (n - 16 + 16) with n by lia. destruct (Z.ltb_spec (n - 16) 16); [apply andb_true_r|].
    rewrite andb_false_r. symmetry. destruct (Z.eq_dec w 0) as [->|]; [apply Z.bits_0|]. apply Z.bits_above_log2; [destruct Hw; lia|].
    apply Z.log2_lt_pow2; [destruct Hw; lia|]. eapply Z.lt_le_trans; [apply Hw|]. apply (Z.pow_le_mono_r 2 32 n); lia.
Qed.
Lemma header_sum w f n : in_u32 w -> 0 <= f <= 127 -> 0 <= n <= 4 -> header w f n = w / 65536 * 65536 + (f + n * 256).
Proof.
  intros Hw Hf Hn. unfold header. rewrite high_half by exact Hw. rewrite <- Z.lor_assoc, (lor_disjoint_add 8) by lia.
  replace (w / 65536 * 65536) with (Z.shiftl (w / 65536) 16) by (rewrite Z.shiftl_mul_pow2 by lia; reflexivity).
  rewrite Z.lor_comm, (lor_disjoint_add 16) by lia. rewrite Z.shiftl_mul_pow2 by lia. lia.
Qed.
(** Lists, one element at a time. *)
Ltac each_byte := repeat match goal with |- _ :: _ = _ :: _ => f_equal end; unfold u8; change (2^8) with 256; change (2^16) with 65536; change (2^24) with 16777216; zlia.
Lemma requestHeader_bytes w f n : in_u32 w -> 0 <= f <= 127 -> 0 <= n <= 4 -> le32_bytes (header w f n) = [f; n; u8 (Z.shiftr w 16); u8 (Z.shiftr w 24)].
Proof.
  intros Hw Hf Hn. rewrite header_sum by assumption. unfold le32_bytes. rewrite !u8_shiftr by lia. each_byte.
Qed.
(** Clearing all but the first [k] bytes. *)
Lemma masked_bytes w k : k = 1 \/ k = 2 \/ k = 3 -> le32_bytes (Z.land w (Z.shiftl 1 (k * 8) - 1)) = take (Z.to_nat k) (le32_bytes w) ++ zeros (4 - k).
Proof.
  intros [-> |[-> | ->]]; (match goal with |- context [Z.shiftl 1 ?e - 1] => let v := eval vm_compute in e in change (Z.shiftl 1 e - 1) with (Z.ones v) end); rewrite Z.land_ones by lia;
    unfold le32_bytes; rewrite !u8_shiftr by lia;
    (match goal with |- _ = take ?k _ ++ ?z => let v := eval vm_compute in k in let z' := eval vm_compute in z in change k with v; change z with z' end); cbn [take app]; each_byte.
Qed.
Ltac decide_ifs := repeat match goal with |- context [if ?b then _ else _] => let v := eval vm_compute in b in change b with v; cbv iota end.
(** One content length: evaluate the conditions, then compare the bytes. *)
Ltac request_case H a b c d f := decide_ifs; cbv zeta;
  repeat match goal with |- context [?x / 4] => let v := eval vm_compute in (x / 4) in change (x / 4) with v end;
  change (nth (Z.to_nat 0) [a; b; c; d] 0) with a; change (nth (Z.to_nat 1) [a; b; c; d] 0) with b;
  change (nth (Z.to_nat 2) [a; b; c; d] 0) with c; change (nth (Z.to_nat 3) [a; b; c; d] 0) with d;
  repeat match goal with |- context [Z.lor (Z.lor (Z.land a 0xffff0000) f) (Z.shiftl ?k 8)] =>
    change (Z.lor (Z.lor (Z.land a 0xffff0000) f) (Z.shiftl k 8)) with (header a f k) end;
  try match goal with |- context [Z.shiftl 1 (?e * 8) - 1] => let v := eval vm_compute in e in change (Z.shiftl 1 (e * 8) - 1) with (Z.shiftl 1 (v * 8) - 1); rewrite masked_bytes by auto end;
  rewrite H by lia; reflexivity.
Lemma request_words f n a b c d : 0 <= f <= 127 -> 0 <= n <= 14 -> in_u32 a ->
  concat (map le32_bytes (map (requestWord (mkRequest f n [a; b; c; d])) [0; 1; 2; 3])) = requestBytes (mkRequest f n [a; b; c; d]).
Proof.
  intros Hf Hn Ha.
  assert (H : forall k, 0 <= k <= 4 -> le32_bytes (header a f k) = [f; k; u8 (Z.shiftr a 16); u8 (Z.shiftr a 24)]) by (intros k Hk; apply requestHeader_bytes; assumption).
  cbn [map]. unfold requestBytes, requestWord, wordCount. cbn [function contentBytes words].
  z_cases n 0 15; request_case H a b c d f.
Qed.

(** Whatever the words hold beyond the content. *)
Lemma request_bytes q : goodRequest q -> concat (map le32_bytes (map (requestWord q) [0; 1; 2; 3])) = requestBytes q.
Proof. destruct q as [f n ws]. intros (Hf & Hn & a & b & c & d & E & Ha). cbn in Hf, Hn, E. subst ws. apply request_words; assumption. Qed.
Example sample_request : requestBytes (mkRequest 0x21 3 [0xbbaaffff; 0xffffffcc; 7; 7]) = [0x21; 2; 0xaa; 0xbb; 0xcc; 0; 0; 0; 0; 0; 0; 0; 0; 0; 0; 0].
Proof. vm_compute. reflexivity. Qed.

(** ** The public calls *)

Inductive mailCall := MExchange (q : Request) (expected : Z) | MReceivePending | MSetSchedulerMask (v : Z) | MPauseScheduler | MResumeScheduler.
Definition mailDo (c : mailCall) : MB bool :=
  match c with
  | MExchange q expected => exchange q expected
  | MReceivePending => receivePending
  | MSetSchedulerMask v => setSchedulerMask v
  | MPauseScheduler => pauseScheduler
  | MResumeScheduler => resumeScheduler
  end.
Definition unchanged (s s' : Mailbox) : Prop := paused_ s' = paused_ s /\ savedTx_ s' = savedTx_ s.
(** What an answer of true means. *)
Definition Done (c : mailCall) (s s' : Mailbox) (m : Mail) : Prop :=
  reply (result s') = decodedReply (taken m) /\ zlen (taken m) = 4 /\ 1 <= replyLength (taken m) <= 4 /\
  match c with
  | MExchange q expected => unchanged s s' /\ r_function (reply (result s')) = expected /\ m = exchangedLetter q (taken m) [] /\
      (goodRequest q -> concat (map le32_bytes (sent m)) = requestBytes q)
  | MReceivePending => unchanged s s' /\ triggered m = false /\ sent m = []
  | MSetSchedulerMask v => unchanged s s' /\ paused_ s = false /\ m = exchangedLetter (schedulerRequest v) (taken m) [v]
  | MPauseScheduler => paused_ s = false /\ paused_ s' = true /\ m = exchangedLetter (schedulerRequest 0) (taken m) [0; savedTx_ s']
  | MResumeScheduler => paused_ s = true /\ paused_ s' = false /\ savedTx_ s' = savedTx_ s /\ m = exchangedLetter (schedulerRequest (savedTx_ s)) (taken m) [savedTx_ s; 0]
  end.
Definition mailPost (c : mailCall) (s : Mailbox) (r : option bool) (s' : Mailbox) (g' : Mailing) : Prop :=
  active_ s' = false /\ exists b, r = Some b /\
  if b : bool then faulted_ s' = false /\ error (result s') = none /\ Done c s s' (letter g')
  else s' = s \/ Unopened s s' \/ Failed s s' g'.
Lemma guarded_wp m s g (P : option unit -> Mailbox -> Mailing -> Prop) :
  wpm mailRules m s g (fun r s' g' => P r (s' <| active_ := false |>) g') -> wpm mailRules (guarded m) s g P.
Proof. intros H. apply wp_bind. eapply wp_mono; [|exact H]. intros [r s'] g'. auto. Qed.
(** A transaction: [body] is only run on an opened one. *)
Lemma mail_transaction_wp c body s g : active_ s = false ->
  (forall s1 g1, Opened (s <| active_ := true |>) s1 g1 -> wpm mailRules body s1 g1 (fun r s' g' =>
    match r with Some _ => Going s' g' /\ Done c s s' (letter g') | None => Failed s s' g' end)) ->
  wpm mailRules (succeeds (start;; guarded body)) s g (mailPost c s).
Proof.
  intros Ha Hb. apply wpm_succeeds. wstep. apply start_wp; [exact Ha| | |].
  - intros s1 g1 H1. cbn beta iota. apply guarded_wp. eapply wpm_mono; [apply Hb, H1|]. intros [[]|] s2 g2 H2; (split; [reflexivity|]).
    + destruct H2 as [G D]. exists true. split; [reflexivity|]. split; [apply G|]. split; [apply G|exact D].
    + exists false. split; [reflexivity|]. right. right. exact H2.
  - intros _. split; [exact Ha|]. exists false. auto.
  - intros s1 g1 A U. split; [exact A|]. exists false. auto.
Qed.
Lemma opened_failed s s1 g1 s' g' : Opened (s <| active_ := true |>) s1 g1 -> Failed s1 s' g' -> Failed s s' g'.
Proof. intros (_ & (_ & A & B) & _) (C & D & E). split; [rewrite C; exact A|]. split; [rewrite D; exact B|exact E]. Qed.
Lemma refuse c s g : active_ s = false -> wpm mailRules (mret false) s g (mailPost c s).
Proof. intros Ha. apply wpm_ret. split; [exact Ha|]. exists false. auto. Qed.
Lemma mail_post c s g : active_ s = false -> wpm mailRules (mailDo c) s g (mailPost c s).
Proof.
  intros Ha. destruct c; cbn [mailDo].
  - unfold exchange. destruct (_ || _ || _ || _); [apply refuse, Ha|]. apply mail_transaction_wp; [exact Ha|]. intros s1 g1 H1. pose proof H1 as (G & S & L & W).
    apply (exchangeInner_wp _ _ []); [exact G|exact L|exact W| |intros s' g' H; apply (opened_failed s s1 g1); assumption].
    intros s2 g2 G2 [X1 (X2 & X3 & X4) X5 X6 X7]. split; [exact G2|]. split; [exact X2|]. split; [exact X3|]. split; [exact X4|].
    destruct (still_trans _ _ _ S X1) as (_ & Y1 & Y2). split; [split; assumption|]. split; [exact X5|]. split; [exact X7|]. rewrite X7. apply request_bytes.
  - unfold receivePending. apply mail_transaction_wp; [exact Ha|]. intros s1 g1 H1. pose proof H1 as (G & S & L & W).
    apply mail_receive_wp; [exact G|rewrite L; reflexivity|rewrite L; reflexivity|exact W| |intros s' g' H; apply (opened_failed s s1 g1); assumption].
    intros s2 g2 G2 [X1 X2 (X3 & X4 & X5) X6 X7]. split; [exact G2|]. split; [exact X3|]. split; [exact X4|]. split; [exact X5|].
    destruct (still_trans _ _ _ S X1) as (_ & Y1 & Y2). split; [split; assumption|]. rewrite X7, L. split; reflexivity.
  - unfold setSchedulerMask. wstep. apply wpm_get. cbn beta iota. destruct (paused_ s) eqn:Ep; [apply refuse, Ha|]. apply mail_transaction_wp; [exact Ha|]. intros s1 g1 H1. pose proof H1 as (G & S & L & W).
    apply (setScheduler_wp _ []); [exact G|exact L|exact W| |intros s' g' H; apply (opened_failed s s1 g1); assumption].
    intros s2 g2 G2 [X1 X2 X3 X4]. split; [exact G2|]. split; [apply X2|]. split; [apply X2|]. split; [apply X2|].
    destruct (still_trans _ _ _ S X1) as (_ & Y1 & Y2). split; [split; assumption|]. split; assumption.
  - unfold pauseScheduler. wstep. apply wpm_get. cbn beta iota. destruct (paused_ s) eqn:Ep; [apply refuse, Ha|]. apply mail_transaction_wp; [exact Ha|]. intros s1 g1 H1. pose proof H1 as (G & S & L & W).
    wstep. apply mail_read16_wp; [exact G|intros s' g' H; apply (opened_failed s s1 g1); assumption|apply G|]. intros s2 g2 old G2 S2 _ E2. cbn beta iota. rewrite L in E2. pose proof S2 as (_ & _ & _ & R2 & _).
    wstep. apply (setScheduler_wp _ [old]); [exact G2|exact E2|rewrite R2; exact W| |intros s' g' H; apply (opened_failed s s1 g1), (failed_same s1 s2); assumption].
    intros s3 g3 G3 [X1 X2 X3 X4]. cbn beta iota. apply wpm_modify. split; [destruct G3; split; assumption|]. split; [apply X2|]. split; [apply X2|]. split; [apply X2|].
    split; [exact Ep|]. split; [reflexivity|exact X4].
  - unfold resumeScheduler. wstep. apply wpm_get. cbn beta iota. destruct (paused_ s) eqn:Ep; cbn [negb]; [|apply refuse, Ha]. apply mail_transaction_wp; [exact Ha|]. intros s1 g1 H1. pose proof H1 as (G & S & L & W).
    wstep. apply mail_read16_wp; [exact G|intros s' g' H; apply (opened_failed s s1 g1); assumption|apply G|]. intros s2 g2 current G2 S2 _ E2. cbn beta iota. rewrite L in E2. pose proof S2 as (_ & _ & _ & R2 & _).
    destruct (Z.eqb_spec current 0) as [->|_]; cbn [negb].
    2: { apply (still_fail _ _ _ s1); try discriminate; [apply same_still, S2|exact G2|]. intros s' H. apply (opened_failed s s1 g1); assumption. }
    wstep. apply wpm_get. cbn beta iota. destruct (still_trans _ _ _ S (same_still _ _ S2)) as (_ & Y1 & Y2). change (savedTx_ s2 = savedTx_ s) in Y2. rewrite Y2.
    wstep. apply (setScheduler_wp _ [0]); [exact G2|exact E2|rewrite R2; exact W| |intros s' g' H; apply (opened_failed s s1 g1), (failed_same s1 s2); assumption].
    intros s3 g3 G3 [X1 X2 X3 X4]. cbn beta iota. apply wpm_modify. split; [destruct G3; split; assumption|]. split; [apply X2|]. split; [apply X2|]. split; [apply X2|].
    split; [exact Ep|]. split; [reflexivity|]. split; [|exact X4]. destruct X1 as (_ & _ & Z1). cbn. congruence.
Qed.

(** ** How long a call can take *)

Lemma mcost_caught {A} (m : MB A) n : mcost m n -> mcost (caught m) n.
Proof. intros [H0 H]. split; [exact H0|]. intros s. rewrite <- (Z.add_0_r n). apply cost_bind; [apply H|]. intros a. apply cost_ret. Qed.
Lemma mcost_guarded m n : mcost m n -> mcost (guarded m) n.
Proof. intros [H0 H]. split; [exact H0|]. intros s. rewrite <- (Z.add_0_r n). apply cost_bind; [apply H|]. intros a. apply cost_ret. Qed.
Lemma mail_cost o : mcost (mail o) 1.
Proof. exact (@mcost_call MailIo Mailbox o). Qed.
(** [mcost], with the two combinators of this file. *)
Ltac mail_steps := repeat (cbv zeta; lazymatch goal with
  | |- mcost (guarded _) _ => eapply mcost_guarded
  | |- mcost (caught _) _ => eapply mcost_caught
  | |- mcost (succeeds _) _ => eapply mcost_succeeds
  | _ => mcost_step
  end).
#[local] Hint Extern 1 (mcost (mail ?o) _) => exact (mail_cost o) : cost.
Lemma mail_fail_cost {A} e a v : mcost (fail (A:=A) e a v) 0.
Proof. eapply mcost_le; [unfold fail, note; mcost|]; lia. Qed.
#[local] Hint Resolve mail_fail_cost : cost.
Lemma mail_check_cost : mcost check 3.
Proof. eapply mcost_le; [unfold check, now; mcost|]; lia. Qed.
#[local] Hint Resolve mail_check_cost : cost.
Lemma mail_read8_cost a : mcost (read8 a) 7.
Proof. eapply mcost_le; [unfold read8, reading, countOperation, onResult; mcost|]; lia. Qed.
Lemma mail_read16_cost a : mcost (read16 a) 7.
Proof. eapply mcost_le; [unfold read16, reading, countOperation, onResult; mcost|]; lia. Qed.
Lemma mail_read32_cost a : mcost (read32 a) 7.
Proof. eapply mcost_le; [unfold read32, reading, countOperation, onResult; mcost|]; lia. Qed.
Lemma readInto_cost i : mcost (readInto i) 7.
Proof. eapply mcost_le; [unfold readInto, reading, countOperation, onResult; mcost|]; lia. Qed.
Lemma write8_cost a v : mcost (write8 a v) 7.
Proof. eapply mcost_le; [unfold write8, writing, countOperation, onResult; mcost|]; lia. Qed.
Lemma write32_cost a v : mcost (write32 a v) 7.
Proof. eapply mcost_le; [unfold write32, writing, countOperation, onResult; mcost|]; lia. Qed.
#[local] Hint Resolve mail_read8_cost mail_read16_cost mail_read32_cost readInto_cost write8_cost write32_cost : cost.
Lemma waitLoop_cost n a w step limit begin : mcost (waitLoop n a w step limit begin) (Z.of_nat n * 11).
Proof.
  induction n as [|n IH]; cbn [waitLoop]; [apply mail_fail_cost|]. rewrite Nat2Z.inj_succ, Z.mul_succ_l.
  eapply mcost_le; [unfold onResult, delay; mcost|]; lia.
Qed.
#[local] Hint Extern 1 (mcost (waitLoop _ _ _ _ _ _) _) => apply waitLoop_cost : cost.
Lemma waitControl_cost a w step limit n : 0 <= limit / step + 1 <= n -> mcost (waitControl a w step limit) (n * 11 + 1).
Proof. intros Hn. unfold waitControl, now. eapply mcost_le; [mcost|]; rewrite ?Z2Nat.id by lia; lia. Qed.
Lemma replyWait_cost : mcost (waitControl c2hControl 1 1 1000000) 11000012.
Proof. eapply mcost_le; [apply (waitControl_cost _ _ _ _ 1000001); split; vm_compute; discriminate|lia]. Qed.
Lemma sendWait_cost : mcost (waitControl h2cControl 0 1000 5000) 67.
Proof. eapply mcost_le; [apply (waitControl_cost _ _ _ _ 6); split; vm_compute; discriminate|lia]. Qed.
Lemma incrementCounter_cost b : mcost (incrementCounter b) 14.
Proof. eapply mcost_le; [unfold incrementCounter; mcost|]; lia. Qed.
#[local] Hint Extern 1 (mcost (waitControl c2hControl _ _ _) _) => exact replyWait_cost : cost.
#[local] Hint Extern 1 (mcost (waitControl h2cControl _ _ _) _) => exact sendWait_cost : cost.
#[local] Hint Resolve incrementCounter_cost : cost.
Lemma receive_cost : mcost receive 11000064.
Proof. eapply mcost_le; [unfold receive, parseReply, onReply, onResult; mcost|]; lia. Qed.
#[local] Hint Resolve receive_cost : cost.
Lemma exchangeInner_cost q e : mcost (exchangeInner q e) 11000197.
Proof. eapply mcost_le; [unfold exchangeInner, rejectStale, onResult; mcost|]; lia. Qed.
#[local] Hint Resolve exchangeInner_cost : cost.
Lemma start_cost : mcost start 10.
Proof. eapply mcost_le; [unfold start, note; mail_steps|]; lia. Qed.
#[local] Hint Resolve start_cost : cost.
Lemma setScheduler_cost v : mcost (setScheduler v) 11000207.
Proof. eapply mcost_le; [unfold setScheduler; mcost|]; lia. Qed.
#[local] Hint Resolve setScheduler_cost : cost.
Lemma mailDo_cost c : mcost (mailDo c) 11000224.
Proof.
  destruct c; cbn [mailDo]; unfold exchange, receivePending, setSchedulerMask, pauseScheduler, resumeScheduler;
    (eapply mcost_le; [mail_steps|]; lia).
Qed.

(** ** The contracts *)

(** A call from inside one of the device's own calls is refused at once, and
    is a fault, or leaves everything as it was. *)
Lemma reentry_refused c s : active_ s = true -> exists s', mailDo c s = Ret (Some false, s') /\ active_ s' = true /\ (s' = s \/ faulted_ s' = true).
Proof.
  intros Ha. assert (H : forall body, exists s', succeeds (start;; guarded body) s = Ret (Some false, s') /\ active_ s' = true /\ (s' = s \/ faulted_ s' = true)).
  { intros body. eexists. unfold succeeds, start, get, mbind, M_bind. cbn. rewrite Ha. cbn. split; [reflexivity|]. cbn. auto. }
  destruct c; cbn [mailDo]; unfold exchange, receivePending, setSchedulerMask, pauseScheduler, resumeScheduler, get, mbind, M_bind; cbn [bindP fst snd]; try apply H.
  - destruct (_ || _ || _ || _); [exists s; auto|apply H].
  - destruct (paused_ s); [exists s; auto|apply H].
  - destruct (paused_ s); [exists s; auto|apply H].
  - destruct (paused_ s); cbn [negb]; [apply H|exists s; auto].
Qed.


(** Every call ends, after at most 11,000,224 calls of the device. *)
Theorem mail_terminates c s : cost (mailDo c s) 11000224 /\ forall answer : (forall o : Op MailIo, Ans MailIo o), exists tr r, exec (mailDo c s) tr r.
Proof. split; [apply mailDo_cost|]. intros answer. apply (exec_total (mailDo c s) answer). Qed.

(** ** A concrete run: a firmware that acknowledges the scheduler command *)

Record MailBoard := mkBoard { b_regs : list (Z * Z); b_time : Z }.
Fixpoint lookupReg (a : Z) (l : list (Z * Z)) : Z := match l with [] => 0 | (k, v) :: l => if k =? a then v else lookupReg a l end.
Definition board : handler MailIo MailBoard := fun d o =>
  match o as o return Ans MailIo o * MailBoard with
  | InGate => (true, d)
  | Cancelled => (false, d)
  | NowUs => (b_time d, mkBoard (b_regs d) (b_time d + 1))
  | DelayUs us => (true, mkBoard (b_regs d) (b_time d + us))
  | Read8 a => ((true, lookupReg a (b_regs d)), d)
  | Read16 a => ((true, lookupReg a (b_regs d)), d)
  | Read32 a => ((true, lookupReg a (b_regs d)), d)
  | Write8 a v => (true, mkBoard (if (a =? h2cControl) && (v =? 1)
      then (c2hControl, 1) :: (c2hData 0, Z.lor 0x3184 0) :: (schedulerTx, Z.shiftr (lookupReg (h2cData 0) (b_regs d)) 16) :: b_regs d else (a, v) :: b_regs d) (b_time d))
  | Write32 a v => (true, mkBoard ((a, v) :: b_regs d) (b_time d))
  end.
Definition sampleBoard : MailBoard := mkBoard [(firmwareControl, 0xe0); (schedulerTx, 0x1234); (hostCounters, 0xff)] 0.
Definition pauseRun := run_trace board (mailDo MPauseScheduler newMailbox) sampleBoard.
Definition pausedMailbox : Mailbox := snd (fst (fst pauseRun)).
Definition resumeRun := run_trace board (mailDo MResumeScheduler pausedMailbox) (snd (fst pauseRun)).
Example sample_pause : (fst (fst (fst pauseRun)), savedTx_ pausedMailbox, lookupReg hostCounters (b_regs (snd (fst pauseRun)))) = (Some true, 0x1234, 0).
Proof. vm_compute. reflexivity. Qed.
Example sample_resume : (fst (fst (fst resumeRun)), lookupReg schedulerTx (b_regs (snd (fst resumeRun)))) = (Some true, 0x1234).
Proof. vm_compute. reflexivity. Qed.
