(* ===== verification/EfuseCalibration.v ===== *)
(** * Calibration data of the device (src/network/EfuseCalibration.hpp)

    The eFuse bank is a sequence of records, each a header and up to four
    two-byte words; [decodeEfuse] spreads them over a logical image, from which
    the board's and the radio's calibration are read. *)

From S2P Require Import Prelude.

Inductive EfuseStatus := ok | invalid | overlap | truncated | outOfRange.
#[export] Instance EfuseStatus_eq : EqDecision EfuseStatus. Proof. solve_decision. Defined.

(** ** Decoding *)

Section pass.
Context (physical : buf) (end_ logicalBytes : Z) (writing : bool).

(** Word [w] of a record; [inl] is a [return], which the later words pass on. *)
Definition decodeWord (block second w : Z) (st : (EfuseStatus + Z) * buf) : mres unit ((EfuseStatus + Z) * buf) :=
  match st with
  | (inl _, _) => mret st
  | (inr cursor, logical) =>
      if flag second (Z.shiftl 1 w) then mret st else
      let address := block * 8 + w * 2 in
      if end_ - cursor <? 2 then mret (inl truncated, logical) else
      if (logicalBytes <=? address) || (logicalBytes - address <? 2) then mret (inl outOfRange, logical) else
      if writing then
        b0 ← rd8 physical cursor; b1 ← rd8 physical (cursor + 1);
        logical ← store logical address [b0; b1]; mret (inr (cursor + 2), logical)
      else mret (inr (cursor + 2), logical)
  end.
(** One pass over the bank: [None] when it came to the end. *)
Fixpoint decodePass (n : nat) (cursor : Z) (logical : buf) : mres unit (option EfuseStatus * buf) :=
  match n with
  | O => mret (None, logical)
  | Datatypes.S n =>
      if end_ <=? cursor then mret (None, logical) else
      first ← rd8 physical cursor;
      if first =? 255 then mret (None, logical) else
      if end_ - cursor <? 2 then mret (Some truncated, logical) else
      second ← rd8 physical (cursor + 1);
      if second =? 255 then mret (None, logical) else
      let block := Z.lor (Z.land (Z.shiftr second 4) 15) (Z.shiftl (Z.land first 15) 4) in
      r ← for_m 4 0 (decodeWord block second) (inr (cursor + 2), logical);
      match r with (inl e, logical) => mret (Some e, logical) | (inr cursor, logical) => decodePass n cursor logical end
  end.
End pass.
(** The buffers lie at [in_] and [out]; a null pointer is 0. *)
Definition decodeEfuse (in_ : Z) (physical : buf) (physicalBytes : Z) (out : Z) (logical : buf) (logicalBytes securityBytes : Z) : mres unit (EfuseStatus * buf) :=
  if (in_ =? 0) || (out =? 0) || (logicalBytes =? 0) || (physicalBytes / 2 <? securityBytes) then mret (invalid, logical) else
  if (if in_ <=? out then out - in_ <? physicalBytes else in_ - out <? logicalBytes) then mret (overlap, logical) else
  let end_ := physicalBytes - securityBytes in
  let fuel := Datatypes.S (Z.to_nat physicalBytes) in
  r ← decodePass physical end_ logicalBytes false fuel securityBytes logical;
  match r with
  | (Some e, logical) => mret (e, logical)
  | (None, logical) =>
      logical ← store logical 0 (replicate (Z.to_nat logicalBytes) 255);
      r ← decodePass physical end_ logicalBytes true fuel securityBytes logical;
      match r with (Some e, logical) => mret (e, logical) | (None, logical) => mret (ok, logical) end
  end.

(** ** The format *)

(** A record: its two header bytes, and its words, absent where the header
    says so. *)
Record entry := mkEntry { e_first : Z; e_second : Z; e_words : list (option (Z * Z)) }.
Definition blockOf (first second : Z) : Z := Z.lor (Z.land (Z.shiftr second 4) 15) (Z.shiftl (Z.land first 15) 4).
Fixpoint wordBytes (ws : list (option (Z * Z))) : buf :=
  match ws with [] => [] | None :: ws => wordBytes ws | Some (b0, b1) :: ws => b0 :: b1 :: wordBytes ws end.
Definition entryBytes (e : entry) : buf := e_first e :: e_second e :: wordBytes (e_words e).
(** The words from number [i] on are those the header announces, and lie in an
    image of [n] bytes. *)
Fixpoint wordsGood (n block second i : Z) (ws : list (option (Z * Z))) : Prop :=
  match ws with
  | [] => True
  | w :: ws => flag second (Z.shiftl 1 i) = (match w with Some _ => false | None => true end) /\
      (w <> None -> block * 8 + i * 2 + 2 <= n) /\ wordsGood n block second (i + 1) ws
  end.
Definition entryGood (n : Z) (e : entry) : Prop :=
  e_first e <> 255 /\ e_second e <> 255 /\ length (e_words e) = 4%nat /\ wordsGood n (blockOf (e_first e) (e_second e)) (e_second e) 0 (e_words e).
(** What ends the records: the end of the bank, or an erased header byte. *)
Definition stops (d : buf) : Prop := match d with [] => True | first :: d => first = 255 \/ match d with [] => False | second :: _ => second = 255 end end.
(** The image the records leave. *)
Fixpoint putWords (block i : Z) (ws : list (option (Z * Z))) (l : buf) : buf :=
  match ws with
  | [] => l
  | None :: ws => putWords block (i + 1) ws l
  | Some (b0, b1) :: ws => putWords block (i + 1) ws (blit l (block * 8 + i * 2) [b0; b1])
  end.
Definition putEntry (l : buf) (e : entry) : buf := putWords (blockOf (e_first e) (e_second e)) 0 (e_words e) l.
Definition image (n : Z) (es : list entry) : buf := fold_left putEntry es (replicate (Z.to_nat n) 255).

(** ** A parser of the bytes that are left *)

Section parser.
Context (n : Z).
Fixpoint wordsOf (k : nat) (i block second : Z) (d : buf) : EfuseStatus + (list (option (Z * Z)) * buf) :=
  match k with
  | O => inr ([], d)
  | Datatypes.S k =>
      if flag second (Z.shiftl 1 i) then
        match wordsOf k (i + 1) block second d with inl e => inl e | inr (ws, d) => inr (None :: ws, d) end
      else
        match d with
        | b0 :: b1 :: d =>
            if n <? block * 8 + i * 2 + 2 then inl outOfRange else
            match wordsOf k (i + 1) block second d with inl e => inl e | inr (ws, d) => inr (Some (b0, b1) :: ws, d) end
        | _ => inl truncated
        end
  end.
Fixpoint entriesOf (k : nat) (d : buf) : option EfuseStatus * list entry :=
  match k with
  | O => (None, [])
  | Datatypes.S k =>
      match d with
      | [] => (None, [])
      | first :: d =>
          if first =? 255 then (None, []) else
          match d with
          | [] => (Some truncated, [])
          | second :: d =>
              if second =? 255 then (None, []) else
              match wordsOf 4 0 (blockOf first second) second d with
              | inl e => (Some e, [])
              | inr (ws, d) => let '(e, es) := entriesOf k d in (e, mkEntry first second ws :: es)
              end
          end
      end
  end.

(** It accepts the format, and only that. *)
Lemma wordsOf_iff k i block second d ws d' :
  wordsOf k i block second d = inr (ws, d') <-> d = wordBytes ws ++ d' /\ length ws = k /\ wordsGood n block second i ws.
Proof.
  revert i d ws d'. induction k as [|k IH]; intros i d ws d'; cbn [wordsOf].
  { split; [intros [= <- <-]; split; [reflexivity|split; [reflexivity|exact I]]|]. intros (-> & H & _). destruct ws; [reflexivity|discriminate]. }
  destruct (flag second (Z.shiftl 1 i)) eqn:Ef.
  - destruct (wordsOf k (i + 1) block second d) as [e|[ws2 d2]] eqn:Ew.
    + split; [discriminate|]. intros (E & Hl & Hg). destruct ws as [|[[b0 b1]|] ws]; [discriminate|destruct Hg as [Hg _]; congruence|]. destruct Hg as (_ & _ & Hg).
      assert (inl e = inr (ws, d')) by (rewrite <- Ew; apply IH; split; [exact E|]; split; [injection Hl; auto|exact Hg]). discriminate.
    + apply IH in Ew as (E & Hl & Hg). split.
      * intros [= <- <-]. split; [exact E|]. split; [cbn; congruence|]. split; [exact Ef|]. split; [intros []; reflexivity|exact Hg].
      * intros (E' & Hl' & Hg'). destruct ws as [|[[b0 b1]|] ws]; [discriminate|destruct Hg' as [Hg' _]; congruence|]. destruct Hg' as (_ & _ & Hg').
        assert (Ew : wordsOf k (i + 1) block second d = inr (ws, d')) by (apply IH; split; [exact E'|]; split; [injection Hl'; auto|exact Hg']).
        assert (Ew2 : wordsOf k (i + 1) block second d = inr (ws2, d2)) by (apply IH; auto). rewrite Ew in Ew2. injection Ew2 as -> ->. reflexivity.
  - assert (Hs : forall w : option (Z * Z), false = (match w with Some _ => false | None => true end) -> exists b0 b1, w = Some (b0, b1)) by (intros [[b0 b1]|]; [eauto|discriminate]).
    split.
    + destruct d as [|b0 [|b1 d]]; [discriminate..|]. destruct (Z.ltb_spec n (block * 8 + i * 2 + 2)); [discriminate|].
      destruct (wordsOf k (i + 1) block second d) as [e|[ws2 d2]] eqn:Ew; [discriminate|]. intros [= <- <-]. apply IH in Ew as (-> & Hl & Hg).
      split; [reflexivity|]. split; [cbn; congruence|]. split; [exact Ef|]. split; [intros _; lia|exact Hg].
    + intros (-> & Hl & Hg). destruct ws as [|w ws]; [discriminate|]. destruct Hg as (Hw & Hf & Hg). rewrite Ef in Hw. apply Hs in Hw as (b0 & b1 & ->). cbn [wordBytes app].
      destruct (Z.ltb_spec n (block * 8 + i * 2 + 2)) as [L|L]; [specialize (Hf ltac:(discriminate)); lia|].
      assert (Ew : wordsOf k (i + 1) block second (wordBytes ws ++ d') = inr (ws, d')) by (apply IH; split; [reflexivity|]; split; [injection Hl; auto|exact Hg]). rewrite Ew. reflexivity.
Qed.
Lemma entriesOf_iff k d es : (length d < k)%nat ->
  entriesOf k d = (None, es) <-> exists tail, d = concat (map entryBytes es) ++ tail /\ Forall (entryGood n) es /\ stops tail.
Proof.
  revert d es. induction k as [|k IH]; intros d es Hk; [lia|]. cbn [entriesOf].
  assert (Hnil : forall d, stops d -> (None, []) = (@None EfuseStatus, es) -> exists tail, d = concat (map entryBytes es) ++ tail /\ Forall (entryGood n) es /\ stops tail).
  { intros t Ht [= <-]. exists t. split; [reflexivity|]. split; [apply List.Forall_nil|exact Ht]. }
  assert (Hstop : forall tail, stops (concat (map entryBytes es) ++ tail) -> Forall (entryGood n) es -> es = []).
  { intros tail Ht Hg. destruct es as [|e es]; [reflexivity|]. apply List.Forall_inv in Hg. destruct Hg as (F1 & F2 & _). cbn in Ht. destruct Ht; contradiction. }
  destruct d as [|first d].
  { split; [apply Hnil; exact I|]. intros (tail & E & Hg & Ht). rewrite (Hstop tail) by (rewrite <- ?E; exact I || exact Hg). reflexivity. }
  destruct (Z.eqb_spec first 255) as [->|Hf].
  { split; [apply Hnil; left; reflexivity|]. intros (tail & E & Hg & Ht). rewrite (Hstop tail); [reflexivity|rewrite <- E; left; reflexivity|exact Hg]. }
  destruct d as [|second d].
  { split; [discriminate|]. intros (tail & E & Hg & Ht). destruct es as [|e es]; [|cbn in E; injection E; discriminate]. cbn in E. subst tail. destruct Ht; contradiction. }
  destruct (Z.eqb_spec second 255) as [->|Hs].
  { split; [apply Hnil; right; reflexivity|]. intros (tail & E & Hg & Ht). rewrite (Hstop tail); [reflexivity|rewrite <- E; right; reflexivity|exact Hg]. }
  split.
  - destruct (wordsOf 4 0 (blockOf first second) second d) as [e|[ws d2]] eqn:Ew; [discriminate|]. apply wordsOf_iff in Ew as (-> & Hl & Hg).
    destruct (entriesOf k d2) as [e es2] eqn:Ee. intros [= -> <-]. apply IH in Ee as (tail & -> & Hes & Ht); [|cbn in Hk; rewrite length_app in Hk; lia].
    exists tail. split; [cbn; rewrite <- app_assoc; reflexivity|]. split; [|exact Ht]. apply List.Forall_cons; [split; [exact Hf|]; split; [exact Hs|]; split; assumption|exact Hes].
  - intros (tail & E & Hg & Ht). destruct es as [|[f s ws] es].
    { cbn in E. subst tail. destruct Ht as [|]; contradiction. }
    cbn in E. injection E as -> -> E. rewrite <- app_assoc in E. pose proof (List.Forall_inv Hg) as (G1 & G2 & G3 & G4). apply List.Forall_inv_tail in Hg. cbn in G1, G2, G3, G4.
    assert (Ew : wordsOf 4 0 (blockOf f s) s d = inr (ws, concat (map entryBytes es) ++ tail)) by (apply wordsOf_iff; auto). rewrite Ew.
    assert (Ee : entriesOf k (concat (map entryBytes es) ++ tail) = (None, es)).
    { apply IH; [|eauto]. rewrite E in Hk. cbn in Hk. rewrite length_app in Hk. lia. }
    rewrite Ee. reflexivity.
Qed.
End parser.

(** ** A pass follows the parser *)

Section follows.
Context (physical : buf) (end_ n : Z).
Hypothesis ends : 0 <= end_ <= zlen physical.
Definition left_ (c : Z) : buf := bytesOf physical c (end_ - c).
Lemma left_cons c : 0 <= c < end_ -> left_ c = byte_at physical c :: left_ (c + 1).
Proof. intros H. unfold left_. replace (end_ - c) with (1 + (end_ - (c + 1))) by lia. apply bytesOf_cons; lia. Qed.
Lemma left_nil c : end_ <= c -> left_ c = [].
Proof. intros H. unfold left_, bytesOf, slice. replace (Z.to_nat (end_ - c)) with 0%nat by lia. reflexivity. Qed.
Lemma words_returned writing block second k i e l : for_m k i (decodeWord physical end_ n writing block second) (inl e, l) = MVal (inl e, l).
Proof. revert i. induction k as [|k IH]; intros i; [reflexivity|]. cbn. apply IH. Qed.

(** The words of a record; a writing pass is only made when they are all good. *)
Lemma words_follow writing block second k i c l : 0 <= block -> 0 <= i -> 0 <= c <= end_ -> n <= zlen l ->
  match wordsOf n k i block second (left_ c) with
  | inl e => writing = false -> for_m k i (decodeWord physical end_ n writing block second) (inr c, l) = MVal (inl e, l)
  | inr (ws, d) => exists c', c <= c' <= end_ /\ d = left_ c' /\
      for_m k i (decodeWord physical end_ n writing block second) (inr c, l) = MVal (inr c', if writing then putWords block i ws l else l)
  end.
Proof.
  intros Hblk. revert i c l. induction k as [|k IH]; intros i c l Hi Hc Hl; cbn [wordsOf for_m].
  { exists c. split; [lia|]. split; [reflexivity|]. destruct writing; reflexivity. }
  set (F := decodeWord physical end_ n writing block second) in *.
  destruct (flag second (Z.shiftl 1 i)) eqn:Ef.
  { assert (Es : F i (inr c, l) = MVal (inr c, l)) by (unfold F, decodeWord; rewrite Ef; reflexivity). rewrite Es. specialize (IH (i + 1) c l ltac:(lia) Hc Hl).
    destruct (wordsOf n k (i + 1) block second (left_ c)) as [e|[ws d]]; exact IH. }
  destruct (Z.ltb_spec (end_ - c) 2) as [L|L].
  { assert (Es : F i (inr c, l) = MVal (inl truncated, l)) by (unfold F, decodeWord; rewrite Ef, (proj2 (Z.ltb_lt _ _) L); reflexivity). rewrite Es.
    assert (E : match left_ c with b0 :: b1 :: _ => False | _ => True end).
    { destruct (Z.eq_dec c end_) as [->|]; [rewrite left_nil by lia; exact I|]. rewrite left_cons by lia. rewrite (left_nil (c + 1)) by lia. exact I. }
    destruct (left_ c) as [|b0 [|b1 d]]; [| |contradiction]; intros _; apply words_returned. }
  rewrite left_cons, left_cons by lia. replace (c + 1 + 1) with (c + 2) by lia.
  assert (Er : (n <=? block * 8 + i * 2) || (n - (block * 8 + i * 2) <? 2) = (n <? block * 8 + i * 2 + 2))
    by (destruct (Z.leb_spec n (block * 8 + i * 2)), (Z.ltb_spec (n - (block * 8 + i * 2)) 2), (Z.ltb_spec n (block * 8 + i * 2 + 2)); cbn; lia).
  destruct (Z.ltb_spec n (block * 8 + i * 2 + 2)) as [L2|L2].
  { assert (Es : F i (inr c, l) = MVal (inl outOfRange, l)) by (unfold F, decodeWord; rewrite Ef, (proj2 (Z.ltb_ge _ _) L), Er; reflexivity).
    rewrite Es. intros _. apply words_returned. }
  set (l2 := if writing then blit l (block * 8 + i * 2) [byte_at physical c; byte_at physical (c + 1)] else l).
  assert (Hl2 : n <= zlen l2) by (unfold l2; destruct writing; [rewrite zlen_blit; [exact Hl|lia|change (zlen [_; _]) with 2; lia]|exact Hl]).
  assert (Es : F i (inr c, l) = MVal (inr (c + 2), l2)).
  { unfold F, decodeWord. rewrite Ef, (proj2 (Z.ltb_ge _ _) L), Er. unfold l2. destruct writing; [|reflexivity].
    rewrite (rd8_in physical c), (rd8_in physical (c + 1)) by lia. cbn [mbind mres_bind]. rewrite store_in; [reflexivity|lia|change (zlen [_; _]) with 2; lia]. }
  rewrite Es. specialize (IH (i + 1) (c + 2) l2 ltac:(lia) ltac:(lia) Hl2).
  destruct (wordsOf n k (i + 1) block second (left_ (c + 2))) as [e|[ws d]].
  - intros Hw. unfold l2 in *. rewrite Hw in IH |- *. exact (IH eq_refl).
  - destruct IH as (c' & Hc' & Ed & E). exists c'. split; [lia|]. split; [exact Ed|]. cbn [mbind mres_bind]. rewrite E. unfold l2. destruct writing; reflexivity.
Qed.
Lemma zlen_putWords block second i ws l : 0 <= block -> 0 <= i -> n <= zlen l -> wordsGood n block second i ws -> zlen (putWords block i ws l) = zlen l.
Proof.
  intros Hb. revert i l. induction ws as [|[[b0 b1]|] ws IH]; intros i l Hi Hl Hg; cbn [putWords]; [reflexivity| |].
  - destruct Hg as (_ & Hf & Hg). specialize (Hf ltac:(discriminate)).
    assert (Ez : zlen (blit l (block * 8 + i * 2) [b0; b1]) = zlen l) by (apply zlen_blit; [lia|change (zlen [_; _]) with 2; lia]).
    rewrite IH; [exact Ez|lia|lia|exact Hg].
  - destruct Hg as (_ & _ & Hg). apply IH; [lia|exact Hl|exact Hg].
Qed.
Lemma blockOf_nonneg first second : 0 <= blockOf first second.
Proof. apply Z.lor_nonneg. split; [apply Z.land_nonneg; lia|]. apply Z.shiftl_nonneg, Z.land_nonneg. lia. Qed.
(** A pass reads the records to the first one that is wrong; the second pass,
    which is made when none is, writes them. *)
Lemma pass_follows (writing : bool) k c l : 0 <= c <= end_ -> n <= zlen l -> (Z.to_nat (end_ - c) < k)%nat ->
  (writing = true -> fst (entriesOf n k (left_ c)) = None) ->
  decodePass physical end_ n writing k c l =
  MVal (fst (entriesOf n k (left_ c)), if writing then fold_left putEntry (snd (entriesOf n k (left_ c))) l else l).
Proof.
  revert c l. induction k as [|k IH]; intros c l Hc Hl Hk Hw; [lia|]. cbn [decodePass entriesOf] in *.
  destruct (Z.leb_spec end_ c) as [L|L].
  { rewrite left_nil by exact L. destruct writing; reflexivity. }
  assert (Hc1 : c < zlen physical) by lia. rewrite (left_cons c) in * by lia. rewrite (rd8_in physical c) by lia. cbn [mbind mres_bind].
  destruct (Z.eqb_spec (byte_at physical c) 255) as [E|E]; [destruct writing; reflexivity|].
  destruct (Z.ltb_spec (end_ - c) 2) as [L2|L2].
  { rewrite (left_nil (c + 1)) in * by lia. destruct writing; [discriminate (Hw eq_refl)|reflexivity]. }
  rewrite (left_cons (c + 1)) in * by lia. replace (c + 1 + 1) with (c + 2) in * by lia.
  rewrite (rd8_in physical (c + 1)) by lia. cbn [mbind mres_bind].
  destruct (Z.eqb_spec (byte_at physical (c + 1)) 255) as [E2|E2]; [destruct writing; reflexivity|].
  set (first := byte_at physical c) in *. set (second := byte_at physical (c + 1)) in *. fold (blockOf first second).
  pose proof (words_follow writing (blockOf first second) second 4 0 (c + 2) l (blockOf_nonneg _ _) ltac:(lia) ltac:(lia) Hl) as Hf.
  destruct (wordsOf n 4 0 (blockOf first second) second (left_ (c + 2))) as [e|[ws d]] eqn:Ew.
  { destruct writing; [discriminate (Hw eq_refl)|]. rewrite (Hf eq_refl). reflexivity. }
  destruct Hf as (c' & Hc' & -> & ->). cbn [mbind mres_bind].
  apply wordsOf_iff in Ew as (_ & _ & Hg).
  destruct (entriesOf n k (left_ c')) as [e es] eqn:Ee.
  rewrite IH; [rewrite Ee; destruct writing; reflexivity|lia| |lia|rewrite Ee; exact Hw].
  destruct writing; [|exact Hl]. rewrite (zlen_putWords (blockOf first second) second); [exact Hl|apply blockOf_nonneg|lia|exact Hl|exact Hg].
Qed.
End follows.

(** ** The property *)

(** Arguments the function takes: buffers that are there, hold what the sizes
    say and lie apart. *)
Definition apart (in_ physicalBytes out logicalBytes : Z) : Prop := in_ + physicalBytes <= out \/ out + logicalBytes <= in_.
Record given (in_ : Z) (physical : buf) (physicalBytes out : Z) (logical : buf) (logicalBytes securityBytes : Z) : Prop := {
  gv_in : 0 < in_; gv_out : 0 < out; gv_logical : 0 < logicalBytes; gv_physical : 0 <= physicalBytes; gv_security : 0 <= securityBytes <= physicalBytes / 2;
  gv_holds : physicalBytes <= zlen physical; gv_room : logicalBytes <= zlen logical; gv_apart : apart in_ physicalBytes out logicalBytes }.

Lemma decode_is in_ physical pb out logical lb sb : given in_ physical pb out logical lb sb ->
  decodeEfuse in_ physical pb out logical lb sb =
  MVal (match entriesOf lb (Datatypes.S (Z.to_nat pb)) (bytesOf physical sb (pb - 2 * sb)) with
        | (Some e, _) => (e, logical) | (None, es) => (ok, fold_left putEntry es (blit logical 0 (replicate (Z.to_nat lb) 255))) end).
Proof.
  intros [H1 H2 H3 H4 H5 H6 H7 H8]. assert (Hpb : 2 * sb <= pb) by (pose proof (Z.mul_div_le pb 2 ltac:(lia)); lia). unfold decodeEfuse.
  rewrite !(proj2 (Z.eqb_neq _ 0)) by lia. rewrite (proj2 (Z.ltb_ge _ _)) by lia. cbn [orb].
  replace (if in_ <=? out then out - in_ <? pb else in_ - out <? lb) with false
    by (destruct (Z.leb_spec in_ out); symmetry; apply Z.ltb_ge; destruct H8; lia).
  set (k := Datatypes.S (Z.to_nat pb)). pose proof (pass_follows physical (pb - sb) lb ltac:(lia) false k sb logical ltac:(lia) H7 ltac:(unfold k; lia) ltac:(discriminate)) as E.
  rewrite E. clear E. unfold left_. replace (pb - sb - sb) with (pb - 2 * sb) by lia. cbn [mbind mres_bind].
  destruct (entriesOf lb k (bytesOf physical sb (pb - 2 * sb))) as [[e|] es] eqn:Ee; [reflexivity|]. cbn [fst].
  assert (Hz : zlen (replicate (Z.to_nat lb) 255) = lb) by (unfold zlen; rewrite length_replicate; lia).
  rewrite store_in by lia. cbn [mbind mres_bind].
  rewrite (pass_follows physical (pb - sb) lb ltac:(lia) true k sb); [|lia|rewrite zlen_blit; lia|unfold k; lia|].
  all: unfold left_; replace (pb - sb - sb) with (pb - 2 * sb) by lia; rewrite Ee; reflexivity.
Qed.
Lemma wordsOf_not_ok n k i block second d : wordsOf n k i block second d <> inl ok.
Proof.
  revert i d. induction k as [|k IH]; intros i d; cbn [wordsOf]; [discriminate|]. destruct (flag _ _).
  - specialize (IH (i + 1) d). destruct (wordsOf _ _ _ _ _ _) as [e|[ws d']]; [congruence|discriminate].
  - destruct d as [|b0 [|b1 d]]; [discriminate..|]. destruct (_ <? _); [discriminate|]. specialize (IH (i + 1) d). destruct (wordsOf _ _ _ _ _ _) as [e|[ws d']]; [congruence|discriminate].
Qed.
Lemma entriesOf_not_ok n k d : fst (entriesOf n k d) <> Some ok.
Proof.
  revert d. induction k as [|k IH]; intros d; cbn [entriesOf]; [discriminate|]. destruct d as [|first d]; [discriminate|]. destruct (_ =? _); [discriminate|].
  destruct d as [|second d]; [discriminate|]. destruct (_ =? _); [discriminate|].
  pose proof (wordsOf_not_ok n 4 0 (blockOf first second) second d). destruct (wordsOf _ _ _ _ _ _) as [e|[ws d']]; [cbn; congruence|].
  specialize (IH d'). destruct (entriesOf n k d') as [e es]. exact IH.
Qed.
(** What lies past the image is left alone. *)
Lemma putWords_app n block second i ws l r : 0 <= block -> 0 <= i -> zlen l = n -> wordsGood n block second i ws -> putWords block i ws (l ++ r) = putWords block i ws l ++ r.
Proof.
  intros Hb. revert i l. induction ws as [|[[b0 b1]|] ws IH]; intros i l Hi Hl Hg; cbn [putWords]; [reflexivity| |].
  - destruct Hg as (_ & Hf & Hg). specialize (Hf ltac:(discriminate)). rewrite blit_app_l by (change (zlen [_; _]) with 2; lia).
    apply IH; [lia|rewrite zlen_blit; [exact Hl|lia|change (zlen [_; _]) with 2; lia]|exact Hg].
  - destruct Hg as (_ & _ & Hg). apply IH; [lia|exact Hl|exact Hg].
Qed.
Lemma putEntries_over n es l r : zlen l = n -> Forall (entryGood n) es -> fold_left putEntry es (l ++ r) = fold_left putEntry es l ++ r.
Proof.
  revert l. induction es as [|e es IH]; intros l Hl Hg; cbn [fold_left]; [reflexivity|].
  pose proof (List.Forall_inv Hg) as (_ & _ & _ & Hw). apply List.Forall_inv_tail in Hg. pose proof (blockOf_nonneg (e_first e) (e_second e)) as Hb.
  assert (Ep : putEntry (l ++ r) e = putEntry l e ++ r) by (apply (putWords_app n _ (e_second e)); [exact Hb|lia|exact Hl|exact Hw]). rewrite Ep.
  apply IH; [|exact Hg]. unfold putEntry. rewrite (zlen_putWords n _ (e_second e)); [exact Hl|exact Hb|lia|lia|exact Hw].
Qed.
Lemma putEntries_app n es l : 0 <= n <= zlen l -> Forall (entryGood n) es ->
  fold_left putEntry es (blit l 0 (replicate (Z.to_nat n) 255)) = image n es ++ drop (Z.to_nat n) l.
Proof.
  intros Hn Hg. unfold blit. rewrite length_replicate. change (Z.to_nat 0) with 0%nat. rewrite take_0. cbn [app Nat.add]. apply (putEntries_over n); [unfold zlen; rewrite length_replicate; lia|exact Hg].
Qed.

Lemma zlen_image n es : 0 <= n -> Forall (entryGood n) es -> zlen (image n es) = n.
Proof.
  intros Hn Hg. unfold image. enough (H : forall l, zlen l = n -> zlen (fold_left putEntry es l) = n) by (apply H; unfold zlen; rewrite length_replicate; lia).
  induction Hg as [|e es (_ & _ & _ & Hw) _ IH]; intros l Hl; cbn [fold_left]; [exact Hl|]. apply IH. unfold putEntry.
  rewrite (zlen_putWords n _ (e_second e)); [exact Hl|apply blockOf_nonneg|lia|lia|exact Hw].
Qed.
(** A bank is in the format. *)
Definition wellFormed (d : buf) (n : Z) (es : list entry) : Prop := exists tail, d = concat (map entryBytes es) ++ tail /\ Forall (entryGood n) es /\ stops tail.
Lemma decode_cases in_ physical pb out logical lb sb : given in_ physical pb out logical lb sb ->
  (exists status, status <> ok /\ decodeEfuse in_ physical pb out logical lb sb = MVal (status, logical) /\ forall es, ~ wellFormed (bytesOf physical sb (pb - 2 * sb)) lb es) \/
  (exists es, wellFormed (bytesOf physical sb (pb - 2 * sb)) lb es /\ decodeEfuse in_ physical pb out logical lb sb = MVal (ok, image lb es ++ drop (Z.to_nat lb) logical)).
Proof.
  intros G. rewrite (decode_is _ _ _ _ _ _ _ G). destruct G as [H1 H2 H3 H4 H5 H6 H7 H8].
  assert (Hk : (length (bytesOf physical sb (pb - 2 * sb)) < Datatypes.S (Z.to_nat pb))%nat).
  { unfold bytesOf. rewrite length_map. unfold slice. rewrite length_take. lia. }
  pose proof (fun es => entriesOf_iff lb _ (bytesOf physical sb (pb - 2 * sb)) es Hk) as Hi.
  pose proof (entriesOf_not_ok lb (Datatypes.S (Z.to_nat pb)) (bytesOf physical sb (pb - 2 * sb))) as Hn.
  destruct (entriesOf lb _ _) as [[e|] es].
  - left. exists e. split; [intros ->; apply Hn; reflexivity|]. split; [reflexivity|]. intros es2 H. discriminate (proj2 (Hi es2) H).
  - right. exists es. pose proof (proj1 (Hi es) eq_refl) as W. split; [exact W|]. destruct W as (tail & E & Hg & Ht). do 2 f_equal. apply putEntries_app; [lia|exact Hg].
Qed.

(** [decodeEfuse] is the format: given buffers that hold what their sizes
    say and lie apart, it reports success exactly for a bank that is a list of
    good records - four words each, absent where the header's bits say so,
    every address inside the image - followed by an erased header byte or the
    end of the bank, and the image it then leaves is 0xff everywhere but for
    the records' words, the later ones over the earlier ones, with the bytes of
    the buffer past the image as they were; for every other bank it reports an
    error and the image is untouched. It never reads or writes outside the
    buffers. *)
Theorem decodeEfuse_iff in_ physical pb out logical lb sb : given in_ physical pb out logical lb sb ->
  exists status logical', decodeEfuse in_ physical pb out logical lb sb = MVal (status, logical') /\
  (forall es tail, bytesOf physical sb (pb - 2 * sb) = concat (map entryBytes es) ++ tail -> Forall (entryGood lb) es -> stops tail -> status = ok) /\
  (status = ok -> exists es tail, bytesOf physical sb (pb - 2 * sb) = concat (map entryBytes es) ++ tail /\ Forall (entryGood lb) es /\ stops tail /\
     logical' = image lb es ++ drop (Z.to_nat lb) logical) /\
  (status <> ok -> logical' = logical).
Proof.
  intros G. destruct (decode_cases _ _ _ _ _ _ _ G) as [(e & He & -> & Hn)|(es & (tail & E & Hg & Ht) & ->)]; eexists _, _; (split; [reflexivity|]).
  - split; [|split; [intros; contradiction|reflexivity]]. intros es tail E Hg Ht. destruct (Hn es). exists tail. auto.
  - split; [reflexivity|]. split; [|intros []; reflexivity]. intros _. exists es, tail. auto.
Qed.

(** Eight bytes of bank, two of them security bytes at either end. *)
Definition sampleBank : buf := [1; 2; 16; 14; 7; 8; 255; 9; 3; 4].
Definition sampleImage : buf := replicate 20 0.
Lemma decodeEfuse_iff_witness : given 1000 sampleBank 10 2000 sampleImage 18 2 /\
  exists status logical', decodeEfuse 1000 sampleBank 10 2000 sampleImage 18 2 = MVal (status, logical') /\
  (forall es tail, bytesOf sampleBank 2 (10 - 2 * 2) = concat (map entryBytes es) ++ tail -> Forall (entryGood 18) es -> stops tail -> status = ok) /\
  (status = ok -> exists es tail, bytesOf sampleBank 2 (10 - 2 * 2) = concat (map entryBytes es) ++ tail /\ Forall (entryGood 18) es /\ stops tail /\
     logical' = image 18 es ++ drop (Z.to_nat 18) sampleImage) /\
  (status <> ok -> logical' = sampleImage).
Proof.
  assert (G : given 1000 sampleBank 10 2000 sampleImage 18 2) by (split; try lia; try (vm_compute; lia || (split; discriminate) || discriminate || reflexivity); left; lia).
  split; [exact G|]. exact (decodeEfuse_iff _ _ _ _ _ _ _ G).
Defined.
(** The record here is accepted: block 0, word 0 only. *)
Example sampleBank_decoded : decodeEfuse 1000 sampleBank 10 2000 sampleImage 18 2 =
  MVal (ok, [7; 8] ++ replicate 16 255 ++ [0; 0]).
Proof. vm_compute. reflexivity. Qed.

(** ** The board's fields (src/network/Rtw8852bEfuseLayout.hpp) *)

(** [rtw8852b_efuse], a packed structure of bytes: its members in order, with
    their sizes, neighbouring bit fields together as the byte they share. The
    union at the end has the size of its larger member, [u]. *)
Definition tssi_offset : list (string * Z) := [("cck_tssi", 6); ("bw40_tssi", 5); ("rsvd", 7); ("bw40_1s_tssi_5g", 14)]%string.
Definition sizeof (t : list (string * Z)) : Z := fold_right (fun f n => snd f + n) 0 t.
Definition u_efuse : list (string * Z) := [("rsvd", 0x88); ("mac_addr", 6)]%string.
Definition rtw8852b_efuse : list (string * Z) := [
  ("rsvd", 0x210); ("path_a_tssi", sizeof tssi_offset); ("rsvd1", 10); ("path_b_tssi", sizeof tssi_offset); ("rsvd2", 94);
  ("channel_plan", 1); ("xtal_k", 1); ("rsvd3", 1); ("iqk_lck", 1); ("rsvd4", 5); ("reg_setting", 1); ("rsvd5", 1); ("shared_ant", 1);
  ("eeprom_version", 1); ("customer_id", 1); ("tx_bb_swing_2g", 1); ("tx_bb_swing_5g", 1); ("tx_cali_pwr_trk_mode", 1); ("trx_path_selection", 1);
  ("rfe_type", 1); ("country_code", 2); ("rsvd7", 3); ("path_a_therm", 1); ("path_b_therm", 1); ("rsvd8", 2);
  ("rx_gain_2g_ofdm", 1); ("rsvd9", 1); ("rx_gain_2g_cck", 1); ("rsvd10", 1); ("rx_gain_5g_low", 1); ("rsvd11", 1); ("rx_gain_5g_mid", 1); ("rsvd12", 1);
  ("rx_gain_5g_high", 1); ("rsvd13", 35); ("path_a_cck_pwr_idx", 6); ("path_a_bw40_1tx_pwr_idx", 5);
  ("path_a_ofdm_1tx_pwr_idx_diff", 1); ("path_a_bw20_2tx_pwr_idx_diff", 1); ("path_a_cck_2tx_pwr_idx_diff", 1); ("rsvd14", 0xf2); ("e", sizeof u_efuse)]%string.
(** [offsetof]: the sizes before a member. *)
Fixpoint offsetof (t : list (string * Z)) (f : string) : Z :=
  match t with [] => 0 | (g, n) :: t => if bool_decide (g = f) then 0 else n + offsetof t f end.
Definition at_ (f : string) : Z := offsetof rtw8852b_efuse f.
(** The assertions of the source, and the size it checks. *)
Lemma efuse_layout : at_ "e" = 0x400 /\ at_ "rfe_type" = 0x2ca /\ at_ "xtal_k" = 0x2b9 /\ sizeof rtw8852b_efuse = 1166 /\ sizeof tssi_offset = 32.
Proof. vm_compute. auto. Qed.

Definition signedByte (v : Z) : Z := if v <? 128 then v else v - 256.
Definition signedNibble (v : Z) : Z := let v := Z.land v 15 in if v <? 8 then v else v - 16.
Record BoardCalibration := mkBoard {
  mac : list Z; rfe : Z; xtal : Z; channelPlan : Z; country : list Z; thermal : list Z;
  tssiCck : list (list Z); tssiMcs : list (list Z); gainOffset : list (list Z);
  identityValid : bool; xtalValid : bool; gainOffsetValid : bool
}.
#[export] Instance BoardCalibration_eq : EqDecision BoardCalibration. Proof. solve_decision. Defined.
Definition noBoard : BoardCalibration := mkBoard (replicate 6 0) 0 0 0 [0; 0] [0; 0] (replicate 2 (replicate 6 0)) (replicate 2 (replicate 19 0)) (replicate 2 (replicate 5 0)) false false false.
(** [n] readings, the i-th at [f i]. *)
Fixpoint readings (b : buf) (n : nat) (i : Z) (f : Z -> Z) : mres unit (list Z) :=
  match n with O => mret [] | Datatypes.S n => v ← rd8 b (f i); l ← readings b n (i + 1) f; mret (v :: l) end.
(** The two loops over the paths. *)
Definition paths {A} (f : Z -> mres unit A) : mres unit (list A) := a ← f 0; b ← f 1; mret [a; b].
Definition tssi_at (path : Z) : Z := if path =? 0 then at_ "path_a_tssi" else at_ "path_b_tssi".
Definition gains : list Z := map at_ ["rx_gain_2g_cck"; "rx_gain_2g_ofdm"; "rx_gain_5g_low"; "rx_gain_5g_mid"; "rx_gain_5g_high"]%string.
Definition parseBoardCalibration (logical : option buf) (bytes : Z) : mres unit (bool * BoardCalibration) :=
  match logical with
  | None => mret (false, noBoard)
  | Some l =>
      if bytes <? sizeof rtw8852b_efuse then mret (false, noBoard) else
      m ← readings l 6 0 (fun i => at_ "e" + i);
      r ← rd8 l (at_ "rfe_type"); x ← rd8 l (at_ "xtal_k"); cp ← rd8 l (at_ "channel_plan");
      co ← readings l 2 0 (fun i => at_ "country_code" + i);
      ta ← rd8 l (at_ "path_a_therm"); tb ← rd8 l (at_ "path_b_therm");
      ts ← paths (fun p =>
        cck ← readings l 6 0 (fun i => tssi_at p + i);
        mcs2 ← readings l 5 0 (fun i => tssi_at p + 6 + i);
        mcs5 ← readings l 14 0 (fun i => tssi_at p + 18 + i);
        mret (map signedByte cck, map signedByte (mcs2 ++ mcs5)));
      gs ← readings l 5 0 (fun i => nth (Z.to_nat i) gains 0);
      let any := fold_left Z.lor m 0 in
      mret (true, mkBoard m r x cp co [ta; tb] (map fst ts) (map snd ts)
        [map (fun v => signedNibble (Z.shiftr v 4)) gs; map signedNibble gs]
        (negb (any =? 0) && negb (flag (nth 0 m 0) 1) && negb (r =? 255)) (negb (x =? 255)) (existsb (fun v => negb (v =? 255)) gs))
  end.

(** ** The radio's fields *)

Record PhyCalibration := mkPhy {
  tssiTrim : list (list Z); gainComp : list (list Z); thermalTrim : list Z; paBiasTrim : list Z;
  powerValid : bool; tssiValid : bool; thermalValid : bool; paBiasValid : bool; gainCompValid : bool
}.
#[export] Instance PhyCalibration_eq : EqDecision PhyCalibration. Proof. solve_decision. Defined.
Definition noPhy : PhyCalibration := mkPhy (replicate 2 (replicate 8 0)) (replicate 2 (replicate 5 0)) [0; 0] [0; 0] false false false false false.
Definition tssi_phy : list Z := [0x5d6; 0x5ab].
Definition thermal_phy : list Z := [0x5df; 0x5dc].
Definition bias_phy : list Z := [0x5de; 0x5db].
Definition gains_phy : list (list Z) := [[0x5bb; 0x5ba; 0; 0x5b9; 0x5b8]; [0x590; 0x58f; 0; 0x58e; 0x58d]].
(** An address of 0 is a channel group without compensation. *)
Fixpoint compensations (b : buf) (l : list Z) : mres unit (list (option Z)) :=
  match l with
  | [] => mret []
  | a :: l => v ← (if a =? 0 then mret None else v ← rd8 b (a - 0x580); mret (Some v)); r ← compensations b l; mret (v :: r)
  end.
Definition erased (v : Z) : bool := v =? 255.
Definition parsePhyCalibration (phycap : option buf) (bytes : Z) : mres unit (bool * PhyCalibration) :=
  match phycap with
  | None => mret (false, noPhy)
  | Some b =>
      if bytes <? 128 then mret (false, noPhy) else
      power ← rd8 b (0x5e9 - 0x580);
      ps ← paths (fun p =>
        let path := Z.to_nat p in
        ts ← readings b 8 0 (fun i => nth path tssi_phy 0 - 0x580 - i);
        th ← rd8 b (nth path thermal_phy 0 - 0x580);
        bi ← rd8 b (nth path bias_phy 0 - 0x580);
        gs ← compensations b (nth path gains_phy []);
        mret (ts, th, bi, gs));
      let ts := map (fun r => r.1.1.1) ps in let th := map (fun r => r.1.1.2) ps in
      let bi := map (fun r => r.1.2) ps in let gs := map snd ps in
      let valid := existsb (fun v => negb (erased v)) (concat ts) in
      mret (true, mkPhy (if valid then map (map signedByte) ts else replicate 2 (replicate 8 0))
        (map (map (fun v => match v with Some v => signedNibble v | None => 0 end)) gs) th bi
        (power =? 0xaa) valid (existsb (fun v => negb (erased v)) th) (existsb (fun v => negb (erased v)) bi)
        (existsb (fun v => match v with Some v => negb (erased v) | None => false end) (concat gs)))
  end.

(** ** The fields that are read *)

Lemma readings_are b n i f : (forall j, i <= j < i + Z.of_nat n -> 0 <= f j < zlen b) ->
  readings b n i f = MVal (map (fun j => byte_at b (f (i + Z.of_nat j))) (seq 0 n)).
Proof.
  revert i. induction n as [|n IH]; intros i H; cbn [readings]; [reflexivity|]. rewrite rd8_in by (apply H; lia). cbn [mbind mres_bind].
  rewrite IH by (intros; apply H; lia). cbn [mbind mres_bind seq map]. replace (i + Z.of_nat 0) with i by lia. f_equal. f_equal.
  rewrite <- seq_shift, map_map. apply map_ext. intros j. do 2 f_equal. lia.
Qed.
Lemma readings_from b n o : 0 <= o -> o + Z.of_nat n <= zlen b -> readings b n 0 (fun i => o + i) = MVal (bytesOf b o (Z.of_nat n)).
Proof.
  intros Ho Hn. enough (H : forall i, 0 <= i -> o + i + Z.of_nat n <= zlen b -> readings b n i (fun i => o + i) = MVal (bytesOf b (o + i) (Z.of_nat n))).
  { rewrite (H 0) by lia. do 2 f_equal. lia. }
  clear Hn. induction n as [|n IH]; intros i Hi Hn; cbn [readings]; [reflexivity|]. rewrite rd8_in by lia. cbn [mbind mres_bind]. rewrite IH by lia. cbn [mbind mres_bind].
  rewrite Nat2Z.inj_succ, <- Z.add_1_l, bytesOf_cons by lia. do 3 f_equal. lia.
Qed.

(** An image laid out as the structure, a value for each member. *)
Fixpoint member (t : list (string * Z)) (vs : list buf) (f : string) : buf :=
  match t, vs with
  | (g, _) :: t, v :: vs => if bool_decide (g = f) then v else member t vs f
  | _, _ => []
  end.
Definition laid (t : list (string * Z)) (vs : list buf) : Prop := Forall2 (fun f v => zlen v = snd f) t vs.
Lemma laid_size t vs : laid t vs -> zlen (concat vs) = sizeof t.
Proof. induction 1 as [|[f n] v t vs Hv _ IH]; [reflexivity|]. cbn [concat sizeof fold_right snd]. rewrite zlen_app, Hv. fold (sizeof t). rewrite IH. reflexivity. Qed.
Lemma member_at t vs f rest : laid t vs -> existsb (fun g => bool_decide (g.1 = f)) t = true ->
  slice (concat vs ++ rest) (offsetof t f) (zlen (member t vs f)) = member t vs f /\ 0 <= offsetof t f /\ offsetof t f + zlen (member t vs f) <= zlen (concat vs).
Proof.
  induction 1 as [|[g n] v t vs Hv _ IH]; cbn [existsb offsetof member concat fst]; [discriminate|]. rewrite zlen_app. pose proof (zlen_nonneg v).
  destruct (bool_decide (g = f)); intros Hx.
  - split; [|pose proof (zlen_nonneg (concat vs)); lia]. unfold slice. change (Z.to_nat 0) with 0%nat. rewrite drop_0, <- app_assoc, take_app_le by (unfold zlen; lia).
    apply take_ge. unfold zlen. lia.
  - cbn in Hv, Hx. destruct (IH Hx) as (E & L0 & L1). split; [|lia]. rewrite <- E at 2. unfold slice. f_equal. rewrite <- app_assoc, drop_app_ge by (unfold zlen in *; lia).
    f_equal. unfold zlen in *. lia.
Qed.
Lemma slice_within {A} (l : list A) o n i k : 0 <= o -> 0 <= i -> 0 <= k -> i + k <= n -> slice l (o + i) k = slice (slice l o n) i k.
Proof. intros. unfold slice. rewrite skipn_firstn_comm, take_take, drop_drop. f_equal; [|f_equal]; lia. Qed.

(** The record the members of the image make. *)
Section board.
Context (vs : list buf) (rest : buf) (bytes : Z).
Hypothesis image_laid : laid rtw8852b_efuse vs.
Hypothesis image_bytes : Forall (Forall in_u8) vs.
Let v (f : string) : buf := member rtw8852b_efuse vs f.
Definition part (f g : string) (n : Z) : buf := slice (v f) (offsetof tssi_offset g) n.
Definition only (f : string) : Z := nth 0 (v f) 0.
Definition gainsOf : buf := map only ["rx_gain_2g_cck"; "rx_gain_2g_ofdm"; "rx_gain_5g_low"; "rx_gain_5g_mid"; "rx_gain_5g_high"]%string.
Definition boardOf : BoardCalibration := mkBoard (slice (v "e") 0 6) (only "rfe_type") (only "xtal_k") (only "channel_plan") (v "country_code") [only "path_a_therm"; only "path_b_therm"]
  (map (fun p => map signedByte (part p "cck_tssi" 6)) ["path_a_tssi"; "path_b_tssi"]%string)
  (map (fun p => map signedByte (part p "bw40_tssi" 5 ++ part p "bw40_1s_tssi_5g" 14)) ["path_a_tssi"; "path_b_tssi"]%string)
  [map (fun g => signedNibble (Z.shiftr g 4)) gainsOf; map signedNibble gainsOf]
  (negb (fold_left Z.lor (slice (v "e") 0 6) 0 =? 0) && negb (flag (nth 0 (slice (v "e") 0 6) 0) 1) && negb (only "rfe_type" =? 255))
  (negb (only "xtal_k" =? 255)) (existsb (fun g => negb (g =? 255)) gainsOf).

Lemma member_size f n : In (f, n) rtw8852b_efuse -> zlen (v f) = n /\ Forall in_u8 (v f).
Proof.
  unfold v. enough (H : forall t vs, laid t vs -> Forall (Forall in_u8) vs -> forall n, In (f, n) t -> NoDup (map fst t) -> zlen (member t vs f) = n /\ Forall in_u8 (member t vs f)).
  { intros Hin. apply (H rtw8852b_efuse); [exact image_laid|exact image_bytes|exact Hin|]. exact (bool_decide_eq_true_1 (NoDup (map fst rtw8852b_efuse)) eq_refl). }
  clear. induction 1 as [|[g k] w t vs Hw _ IH]; intros Hb n Hin Hd; [contradiction|]. apply Forall_cons in Hb as [Hb1 Hb2]. cbn [member]. apply NoDup_cons in Hd as [Hd1 Hd2].
  destruct Hin as [E|Hin].
  - injection E as -> ->. rewrite bool_decide_eq_true_2 by reflexivity. auto.
  - rewrite bool_decide_eq_false_2; [apply IH; assumption|]. cbn in Hd1. intros ->. apply Hd1, list_elem_of_In, (in_map fst _ _ Hin).
Qed.
Lemma field_read f n i k : In (f, n) rtw8852b_efuse -> 0 <= i -> 0 <= k -> i + k <= n ->
  bytesOf (concat vs ++ rest) (at_ f + i) k = slice (v f) i k /\ 0 <= at_ f + i /\ at_ f + i + k <= zlen (concat vs ++ rest).
Proof.
  intros Hin Hi Hk Hn. destruct (member_size f n Hin) as [Hz Hb].
  destruct (member_at rtw8852b_efuse vs f rest image_laid) as (E & L0 & L1).
  { apply existsb_exists. exists (f, n). split; [exact Hin|]. apply bool_decide_eq_true_2. reflexivity. }
  fold (v f) in *. fold (at_ f) in *. rewrite zlen_app. pose proof (zlen_nonneg rest). split; [|lia].
  unfold bytesOf. rewrite (slice_within _ (at_ f) (zlen (v f))) by lia. rewrite E. apply map_u8_id. unfold slice. apply Forall_take, Forall_drop, Hb.
Qed.
Lemma only_read f : In (f, 1) rtw8852b_efuse -> rd8 (E:=unit) (concat vs ++ rest) (at_ f) = MVal (only f).
Proof.
  intros Hin. destruct (field_read f 1 0 1 Hin) as (E & L0 & L1); [lia..|]. rewrite Z.add_0_r in *. rewrite rd8_in by lia. f_equal.
  change 1 with (1 + 0) in E at 1. rewrite bytesOf_cons in E by lia. unfold only. destruct (member_size f 1 Hin) as [Hz _].
  destruct (v f) as [|x []]; [discriminate| |unfold zlen in Hz; cbn in Hz; lia]. injection E. auto.
Qed.
Lemma fields_read f n o i k : In (f, n) rtw8852b_efuse -> o = at_ f + i -> 0 <= i -> i + Z.of_nat k <= n ->
  readings (concat vs ++ rest) k 0 (fun j => o + j) = MVal (slice (v f) i (Z.of_nat k)).
Proof. intros Hin -> Hi Hk. destruct (field_read f n i (Z.of_nat k) Hin) as (E & L0 & L1); [lia..|]. rewrite readings_from by lia. f_equal. exact E. Qed.
Lemma gains_read : readings (concat vs ++ rest) 5 0 (fun i => nth (Z.to_nat i) gains 0) = MVal gainsOf.
Proof. cbn [readings]. unfold gains, gainsOf. change (0 + 1 + 1 + 1 + 1) with 4. change (0 + 1 + 1 + 1) with 3. change (0 + 1 + 1) with 2. change (0 + 1) with 1.
  change (Z.to_nat 0) with 0%nat. change (Z.to_nat 1) with 1%nat. change (Z.to_nat 2) with 2%nat. change (Z.to_nat 3) with 3%nat. change (Z.to_nat 4) with 4%nat.
  cbn [map nth]. rewrite !only_read by (cbn; tauto). reflexivity. Qed.
Lemma tssi_read p f : In (f, 32) rtw8852b_efuse -> tssi_at p = at_ f ->
  readings (concat vs ++ rest) 6 0 (fun i => tssi_at p + i) = MVal (part f "cck_tssi" 6) /\
  readings (concat vs ++ rest) 5 0 (fun i => tssi_at p + 6 + i) = MVal (part f "bw40_tssi" 5) /\
  readings (concat vs ++ rest) 14 0 (fun i => tssi_at p + 18 + i) = MVal (part f "bw40_1s_tssi_5g" 14).
Proof.
  intros Hin ->. split; [|split].
  - apply (fields_read f 32 _ 0 6 Hin); cbn; lia.
  - apply (fields_read f 32 _ 6 5 Hin); cbn; lia.
  - apply (fields_read f 32 _ 18 14 Hin); cbn; lia.
Qed.
Theorem board_parsed : 1166 <= bytes -> parseBoardCalibration (Some (concat vs ++ rest)) bytes = MVal (true, boardOf).
Proof.
  intros Hb. unfold parseBoardCalibration. rewrite (proj2 (Z.ltb_ge _ _)) by (change (sizeof rtw8852b_efuse) with 1166; lia).
  rewrite (fields_read "e" 0x8e _ 0 6) by (cbn; tauto || lia). cbn [mbind mres_bind].
  rewrite !only_read by (cbn; tauto). cbn [mbind mres_bind].
  rewrite (fields_read "country_code" 2 _ 0 2) by (cbn; tauto || lia). cbn [mbind mres_bind].
  unfold paths.
  destruct (tssi_read 0 "path_a_tssi") as (-> & -> & ->); [cbn; tauto|reflexivity|]. destruct (tssi_read 1 "path_b_tssi") as (-> & -> & ->); [cbn; tauto|reflexivity|].
  rewrite gains_read.
  assert (Ec : slice (v "country_code") 0 (Z.of_nat 2) = v "country_code").
  { destruct (member_size "country_code" 2) as [Hz _]; [cbn; tauto|]. fold (v "country_code") in *. unfold slice. change (Z.to_nat 0) with 0%nat. rewrite drop_0.
    apply take_ge. unfold zlen in Hz. lia. }
  unfold boardOf. rewrite <- Ec at 1. reflexivity.
Qed.
End board.

(** The radio's record: read inside the bank, its fields in their ranges, and
    no trim taken from an erased bank. *)
Lemma signedByte_range x : in_u8 x -> -128 <= signedByte x <= 127.
Proof. unfold signedByte. intros H. destruct (Z.ltb_spec x 128); zlia. Qed.
Lemma signedNibble_range x : -8 <= signedNibble x <= 7.
Proof. unfold signedNibble. pose proof (land_bounds x 15 ltac:(lia)). destruct (Z.ltb_spec (Z.land x 15) 8); lia. Qed.
Definition is_i8 (x : Z) : Prop := -128 <= x <= 127.
Definition is_nibble (x : Z) : Prop := -8 <= x <= 7.
Record phyGood (c : PhyCalibration) : Prop := {
  pg_trim : Forall (Forall is_i8) (tssiTrim c); pg_gain : Forall (Forall is_nibble) (gainComp c);
  pg_thermal : Forall in_u8 (thermalTrim c); pg_bias : Forall in_u8 (paBiasTrim c);
  pg_erased : tssiValid c = false -> tssiTrim c = replicate 2 (replicate 8 0) }.
Lemma compensations_ok b l : Forall (fun a => a = 0 \/ 0 <= a - 0x580 < zlen b) l ->
  exists r, compensations b l = MVal r.
Proof.
  induction 1 as [|a l Ha _ [r E]]; [exists []; reflexivity|]. cbn [compensations]. destruct (Z.eqb_spec a 0) as [->|Hn].
  - cbn [mbind mres_bind mret mres_ret]. rewrite E. eexists. reflexivity.
  - rewrite rd8_in by (destruct Ha; [contradiction|assumption]). cbn [mbind mres_bind mret mres_ret]. rewrite E. eexists. reflexivity.
Qed.
Lemma nibbles_good (l : list (option Z)) : Forall is_nibble (map (fun v => match v with Some v => signedNibble v | None => 0 end) l).
Proof. induction l as [|[x|] l IH]; [apply List.Forall_nil| |]; (apply List.Forall_cons; [|exact IH]); [apply signedNibble_range|unfold is_nibble; lia]. Qed.
Lemma trims_good b f n : Forall is_i8 (map signedByte (map (fun j => byte_at b (f j)) (seq 0 n))).
Proof. rewrite map_map. apply List.Forall_map, List.Forall_forall. intros j _. apply signedByte_range, byte_at_range. Qed.
Lemma path_read b p : 128 <= zlen b -> p = 0 \/ p = 1 ->
  exists ts th bi gs, (let path := Z.to_nat p in
    ts ← readings b 8 0 (fun i => nth path tssi_phy 0 - 0x580 - i);
    th ← rd8 b (nth path thermal_phy 0 - 0x580); bi ← rd8 b (nth path bias_phy 0 - 0x580); gs ← compensations b (nth path gains_phy []); mret (ts, th, bi, gs)) = MVal (ts, th, bi, gs) /\
  Forall is_i8 (map signedByte ts) /\ in_u8 th /\ in_u8 bi.
Proof.
  intros Hb Hp. cbv zeta.
  assert (Ht : 0x580 + 8 <= nth (Z.to_nat p) tssi_phy 0 < 0x600) by (destruct Hp as [-> | ->]; vm_compute; easy).
  assert (Hh : 0x580 <= nth (Z.to_nat p) thermal_phy 0 < 0x600) by (destruct Hp as [-> | ->]; vm_compute; easy).
  assert (Hi : 0x580 <= nth (Z.to_nat p) bias_phy 0 < 0x600) by (destruct Hp as [-> | ->]; vm_compute; easy).
  rewrite readings_are by (intros; lia). cbn [mbind mres_bind]. rewrite !rd8_in by lia. cbn [mbind mres_bind].
  destruct (compensations_ok b (nth (Z.to_nat p) gains_phy [])) as [gs ->]; [destruct Hp as [-> | ->]; repeat (apply List.Forall_cons; [first [left; reflexivity|right; cbn; lia]|]); apply List.Forall_nil|].
  eexists _, _, _, _. split; [reflexivity|]. split; [apply trims_good|]. split; apply byte_at_range.
Qed.
Theorem phy_parsed b bytes : 128 <= bytes <= zlen b -> exists c, parsePhyCalibration (Some b) bytes = MVal (true, c) /\ phyGood c.
Proof.
  intros Hb. unfold parsePhyCalibration. rewrite (proj2 (Z.ltb_ge _ _)) by lia. rewrite rd8_in by lia. cbn [mbind mres_bind]. unfold paths.
  destruct (path_read b 0) as (t0 & h0 & b0 & g0 & E0 & T0 & H0 & B0); [lia|auto|]. destruct (path_read b 1) as (t1 & h1 & b1 & g1 & E1 & T1 & H1 & B1); [lia|auto|].
  cbv zeta in *. rewrite E0, E1. cbn [mbind mres_bind mret mres_ret]. eexists. split; [reflexivity|]. cbn [map fst snd].
  split; cbn [tssiTrim gainComp thermalTrim paBiasTrim tssiValid].
  - destruct (existsb _ _); [repeat (apply List.Forall_cons; [assumption|]); apply List.Forall_nil|].
    repeat constructor; unfold is_i8; lia.
  - repeat (apply List.Forall_cons; [apply nibbles_good|]). apply List.Forall_nil.
  - repeat constructor; assumption || (unfold in_u8 in *; lia).
  - repeat constructor; assumption || (unfold in_u8 in *; lia).
  - intros ->. reflexivity.
Qed.
Lemma board_total b bytes : 1166 <= bytes <= zlen b -> exists c, parseBoardCalibration (Some b) bytes = MVal (true, c).
Proof.
  intros Hb. unfold parseBoardCalibration. rewrite (proj2 (Z.ltb_ge _ _)) by (change (sizeof rtw8852b_efuse) with 1166; lia).
  assert (Hr : forall n o, 0 <= o -> o + Z.of_nat n <= 1166 -> readings b n 0 (fun i => o + i) = MVal (bytesOf b o (Z.of_nat n))) by (intros; apply readings_from; lia).
  assert (H8 : forall o, 0 <= o < 1166 -> rd8 (E:=unit) b o = MVal (byte_at b o)) by (intros; apply rd8_in; lia).
  rewrite !Hr, !H8 by (vm_compute; easy). unfold paths.
  rewrite !Hr by (vm_compute; easy). cbn [mbind mres_bind mret mres_ret].
  rewrite readings_are; [eexists; reflexivity|]. intros j Hj. assert (0 <= nth (Z.to_nat j) gains 0 < 1166); [|lia].
  change (Z.of_nat 5) with 5 in Hj. assert (In j [0; 1; 2; 3; 4]) as Hin by (cbn; lia).
  repeat (destruct Hin as [<- |Hin]; [vm_compute; easy|]). destruct Hin.
Qed.
