(* ===== verification/EfuseReader.v ===== *)
(** * The reader of the main eFuse bank (src/network/EfuseReader.hpp)

    [EfuseReader::readDdv] powers the bank's rail, commands the reads one byte
    at a time and gives the rail back as it found it. *)

From S2P Require Import Prelude Prog.

(** ** The device *)

(** A read answers whether it succeeded, and the value. *)
Inductive fuseOp :=
| Cancelled | NowUs | DelayUs (us : Z)
| Read8 (a : Z) | Read16 (a : Z) | Read32 (a : Z) | Write8 (a v : Z) | Write16 (a v : Z) | Write32 (a v : Z).
Definition fuseAns (o : fuseOp) : Type :=
  match o with
  | NowUs => Z
  | Read8 _ | Read16 _ | Read32 _ => bool * Z
  | _ => bool
  end.
Definition FuseIo : sig := Sig fuseOp fuseAns.

(** ** The object *)

Inductive EfuseReadStatus := ok | invalid | busy | ioError | timeout | clockError | cancelled | cleanupFailed.
#[export] Instance EfuseReadStatus_eq : EqDecision EfuseReadStatus. Proof. solve_decision. Defined.
Record EfuseReadResult := mkResult {
  status : EfuseReadStatus; primary : EfuseReadStatus; bytesRead : Z; validBytes : Z; polls : Z; last : Z; cleanupAttempted : bool; restored : bool
}.
#[export] Instance EfuseReadResult_rebuild : Rebuild EfuseReadResult := fun r =>
  mkResult (status r) (primary r) (bytesRead r) (validBytes r) (polls r) (last r) (cleanupAttempted r) (restored r).
Definition noResult : EfuseReadResult := mkResult invalid invalid 0 0 0 0 false false.
(** The members, and the caller's buffer. *)
Record EfuseReader := mkReader {
  originalIso_ : Z; originalPmc_ : Z; originalBurst_ : Z; begin_ : Z; previous_ : Z; touched_ : bool; burst_ : bool; result_ : EfuseReadResult; out : buf
}.
#[export] Instance EfuseReader_rebuild : Rebuild EfuseReader := fun s =>
  mkReader (originalIso_ s) (originalPmc_ s) (originalBurst_ s) (begin_ s) (previous_ s) (touched_ s) (burst_ s) (result_ s) (out s).
Definition newReader (out : buf) : EfuseReader := mkReader 0 0 0 0 0 false false noResult out.
Definition FR (A : Type) : Type := M FuseIo EfuseReader A.
Definition fuse (o : fuseOp) : FR (fuseAns o) := call (Σ:=FuseIo) o.
Definition onResult (f : EfuseReadResult -> EfuseReadResult) : FR unit := modify (fun s => s <| result_ := f (result_ s) |>).
Definition because (e : EfuseReadStatus) : FR bool := onResult (fun r => r <| primary := e |>);; mret false.

(** ** The methods *)

Definition nowUs : FR Z := t ← fuse NowUs; mret (u64 t).
Definition read8 (a : Z) : FR (bool * Z) := x ← fuse (Read8 a); mret (fst x, u8 (snd x)).
Definition read16 (a : Z) : FR (bool * Z) := x ← fuse (Read16 a); mret (fst x, u16 (snd x)).
Definition read32 (a : Z) : FR (bool * Z) := x ← fuse (Read32 a); mret (fst x, u32 (snd x)).
Definition write8 (a v : Z) : FR bool := fuse (Write8 a v).
Definition write16 (a v : Z) : FR bool := fuse (Write16 a v).
Definition write32 (a v : Z) : FR bool := fuse (Write32 a v).
Definition delayUs (us : Z) : FR bool := fuse (DelayUs us).
Definition active : FR bool :=
  c ← fuse Cancelled;
  if (c : bool) then because cancelled else
  now ← nowUs;
  s ← get;
  if now <? previous_ s then because clockError else
  modify (fun s => s <| previous_ := now |>);;
  if 5000000 <=? u64 (now - begin_ s) then because timeout else mret true.
Definition failed : FR bool := because ioError.
(** [(v & ~mask) | (bits & mask)] *)
Definition merge (v mask bits : Z) : Z := Z.lor (Z.ldiff v mask) (Z.land bits mask).
Definition iso (mask bits : Z) : FR bool :=
  x ← read16 0;
  if negb (fst x) || (snd x =? 0xffff) then mret false else write16 0 (u16 (merge (snd x) mask bits)).
Definition pmc (bits : Z) : FR bool :=
  x ← read8 0xcc;
  if negb (fst x) || (snd x =? 0xff) then mret false else write8 0xcc (u8 (merge (snd x) 4 bits)).
Definition burst (bits : Z) : FR bool :=
  x ← read32 0x38;
  if negb (fst x) || (snd x =? 0xffffffff) then mret false else write32 0x38 (merge (snd x) 0x80000 bits).
(** [ok = m && ok;], every [m] attempted. *)
Definition also (m : FR bool) (good : bool) : FR bool := b ← m; mret (b && good).
Definition reread16 : FR bool := x ← read16 0; s ← get; mret (fst x && negb (snd x =? 0xffff) && (Z.land (snd x) 0xc100 =? Z.land (originalIso_ s) 0xc100)).
Definition reread8 : FR bool := x ← read8 0xcc; s ← get; mret (fst x && negb (snd x =? 0xff) && (Z.land (snd x) 4 =? Z.land (originalPmc_ s) 4)).
Definition reread32 : FR bool := x ← read32 0x38; s ← get; mret (fst x && negb (snd x =? 0xffffffff) && (Z.land (snd x) 0x80000 =? Z.land (originalBurst_ s) 0x80000)).
Definition restore : FR bool :=
  onResult (fun r => r <| cleanupAttempted := true |>);;
  s ← get;
  k ← (if burst_ s then also (burst (originalBurst_ s)) true else mret true);
  k ← also (iso 0x100 0x100) k;
  k ← also (iso 0x8000 0) k;
  k ← also (delayUs 1000) k;
  k ← also (iso 0x4000 0) k;
  k ← also (pmc (originalPmc_ s)) k;
  k ← also reread16 k;
  k ← also reread8 k;
  k ← (if burst_ s then also reread32 k else mret k);
  onResult (fun r => r <| restored := k |>);; mret k.
(** A reading kept in a member, whether or not it succeeded. *)
Definition keepIso : FR bool := x ← read16 0; modify (fun s => s <| originalIso_ := snd x |>);; mret (fst x && negb (snd x =? 0xffff)).
Definition keepPmc : FR bool := x ← read8 0xcc; modify (fun s => s <| originalPmc_ := snd x |>);; mret (fst x && negb (snd x =? 0xff)).
Definition keepBurst : FR bool := x ← read32 0x38; modify (fun s => s <| originalBurst_ := snd x |>);; mret (fst x && negb (snd x =? 0xffffffff)).
(** The last part of [enable], from when the rail is touched. *)
Definition powerUp : FR bool :=
  s ← get;
  k ← pmc 4 &&> iso 0x4000 0x4000 &&> delayUs 1000;
  if negb k then failed else
  a ← active;
  if negb a then mret false else
  k ← iso 0x8000 0x8000 &&> iso 0x100 0;
  if negb k then failed else
  k ← (if burst_ s then burst 0x80000 else mret true);
  if negb k then failed else mret true.
Definition enable : FR bool :=
  a ← active;
  if negb a then mret false else
  k ← keepIso &&> keepPmc;
  if negb k then failed else
  s ← get;
  if negb (Z.land (originalIso_ s) 0xc100 =? 0x100) || flag (originalPmc_ s) 4 then because busy else
  k ← (if burst_ s then keepBurst else mret true);
  if negb k then failed else
  a ← active;
  if negb a then mret false else
  modify (fun s => s <| touched_ := true |>);; powerUp.
(** One turn of the wait: [Some ready] leaves the loop. *)
Definition keepLast : FR bool := x ← read32 0x30; onResult (fun r => r <| last := snd x |>);; mret (fst x && negb (snd x =? 0xffffffff)).
Definition attempt (started : Z) : FR (option bool) :=
  a ← active;
  if negb a then mret (Some false) else
  k ← delayUs 1 &&> keepLast;
  if negb k then failed;; mret (Some false) else
  onResult (fun r => r <| polls := u32 (polls r + 1) |>);;
  s ← get;
  if flag (last (result_ s)) 0x20000000 then mret (Some true) else
  if 1000000 <=? u64 (previous_ s - started) then because timeout;; mret (Some false) else mret None.
Definition attempts : nat := Z.to_nat 1000000.
(** One byte: [Some tt] leaves the loop. *)
Definition readByte (address i : Z) : FR (option unit) :=
  a ← active;
  if negb a then mret (Some tt) else
  w ← write32 0x30 (u32 (Z.shiftl (u32 (address + i)) 16));
  if negb w then failed;; mret (Some tt) else
  s ← get;
  ready ← for_nat attempts 0 (fun _ => attempt (previous_ s));
  s ← get;
  match ready with
  | Some true =>
      modify (fun s => s <| out := blit (out s) i [u8 (last (result_ s))] |>);;
      onResult (fun r => r <| bytesRead := bytesRead r + 1 |>);; mret None
  | _ => (if bool_decide (primary (result_ s) = ok) then because timeout else mret false);; mret (Some tt)
  end.
Definition isOk (e : EfuseReadStatus) : bool := bool_decide (e = ok).
(** From the end of the reading to the result. *)
Definition finish : FR EfuseReadResult :=
  onResult (fun r => r <| status := primary r |>);;
  s ← get;
  k ← (if touched_ s then restore else mret true);
  unless k (onResult (fun r => r <| status := cleanupFailed |>));;
  s ← get;
  (if isOk (status (result_ s)) then onResult (fun r => r <| validBytes := bytesRead r |>)
   else modify (fun s => s <| out := blit (out s) 0 (replicate (Z.to_nat (bytesRead (result_ s))) 0) |>));;
  gets result_.
(** The bank's two readable ranges. *)
Definition readable (address bytes : Z) : bool :=
  ((address <? 1216) && (bytes <=? 1216 - address)) || ((0x580 <=? address) && (bytes <=? 0x600 - address)).
Definition readDdv (cut address bytes : Z) (present : bool) (capacity : Z) : FR EfuseReadResult :=
  modify (fun s => s <| result_ := noResult |> <| touched_ := false |> <| burst_ := cut =? 0 |>);;
  if negb present || (bytes =? 0) || (capacity <? bytes) || (0x600 <=? address) || (0x600 - address <? bytes) || negb (readable address bytes) then gets result_ else
  t ← nowUs;
  modify (fun s => s <| begin_ := t |> <| previous_ := t |> <| result_ := (result_ s) <| primary := ok |> |>);;
  e ← enable;
  (if (e : bool) then _ ← for_loop 0 bytes (readByte address); mret tt else mret tt);;
  finish.

(** ** What the device sees *)

(** A write: the register, its last reading if that is still fresh, and the
    value. *)
Record wr := mkWr { w_reg : Z; w_old : option Z; w_new : Z }.
(** [fresh r], the last good reading of [r] since it was written; [found16] and
    [found8], the first ones; [log], the writes; [asked], a command is out;
    [got], the bytes that came back. *)
Record Rail := mkRail { fresh16 : option Z; fresh8 : option Z; fresh32 : option Z; found16 : option Z; found8 : option Z; log : list wr; asked : bool; got : list Z }.
#[export] Instance Rail_rebuild : Rebuild Rail := fun g =>
  mkRail (fresh16 g) (fresh8 g) (fresh32 g) (found16 g) (found8 g) (log g) (asked g) (got g).
Definition newRail : Rail := mkRail None None None None None [] false [].
Definition good (k : Z) (x : bool * Z) : option Z := if fst x && negb (snd x =? k) then Some (snd x) else None.
Definition first_of (a b : option Z) : option Z := match a with Some _ => a | None => b end.
Definition logged (r : Z) (old : option Z) (v : Z) (g : Rail) : Rail := g <| log := log g ++ [mkWr r old v] |>.
Definition railNext (g : Rail) (o : fuseOp) : fuseAns o -> Rail :=
  match o with
  | Read16 a => fun x => let r := good 0xffff (fst x, u16 (snd x)) in g <| fresh16 := r |> <| found16 := first_of (found16 g) r |>
  | Read8 a => fun x => let r := good 0xff (fst x, u8 (snd x)) in g <| fresh8 := r |> <| found8 := first_of (found8 g) r |>
  | Read32 a => fun x =>
      let r := good 0xffffffff (fst x, u32 (snd x)) in
      if a =? 0x38 then g <| fresh32 := r |> else
      match r with Some v => if asked g && flag v 0x20000000 then g <| asked := false |> <| got := got g ++ [u8 v] |> else g | None => g end
  | Write16 a v => fun x => logged a (fresh16 g) v g <| fresh16 := None |>
  | Write8 a v => fun x => logged a (fresh8 g) v g <| fresh8 := None |>
  | Write32 a v => fun x => if a =? 0x38 then logged a (fresh32 g) v g <| fresh32 := None |> else logged a None v g <| asked := x |>
  | _ => fun _ => g
  end.

(** The writes of an operation: the rail's bits are merged into a fresh reading
    of their register; a command carries an address of the bank and no other
    bit. *)
Inductive act := Merge (reg mask bits : Z) | Command (address : Z).
Definition did (a : act) (w : wr) : Prop :=
  match a with
  | Merge reg mask bits => w_reg w = reg /\ exists v, w_old w = Some v /\ w_new w = merge v mask bits
  | Command address => w_reg w = 0x30 /\ 0 <= address < 0x600 /\ w_new w = Z.shiftl address 16
  end.
Definition opening (b : bool) : list act := [Merge 0xcc 4 4; Merge 0 0x4000 0x4000; Merge 0 0x8000 0x8000; Merge 0 0x100 0] ++ if b then [Merge 0x38 0x80000 0x80000] else [].
Definition commands (address n : Z) : list act := map (fun i => Command (address + Z.of_nat i)) (seq 0 (Z.to_nat n)).
Definition closing (b : bool) (origPmc origBurst : Z) : list act :=
  (if b then [Merge 0x38 0x80000 origBurst] else []) ++ [Merge 0 0x100 0x100; Merge 0 0x8000 0; Merge 0 0x4000 0; Merge 0xcc 4 origPmc].
(** Only those registers are written, an eFuse command only with the rail open. *)
Definition railMay (address bytes : Z) (b : bool) (g : Rail) (o : fuseOp) : Prop :=
  match o with
  | Read16 a => a = 0
  | Read8 a => a = 0xcc
  | Read32 a => a = 0x30 \/ a = 0x38
  | Write16 a v => exists x, In x [Merge 0 0x4000 0x4000; Merge 0 0x8000 0x8000; Merge 0 0x100 0; Merge 0 0x100 0x100; Merge 0 0x8000 0; Merge 0 0x4000 0] /\ did x (mkWr a (fresh16 g) v)
  | Write8 a v => exists bits, did (Merge 0xcc 4 bits) (mkWr a (fresh8 g) v)
  | Write32 a v =>
      (b = true /\ exists bits, did (Merge 0x38 0x80000 bits) (mkWr a (fresh32 g) v)) \/
      (exists n, 0 <= n < bytes /\ did (Command (address + n)) (mkWr a None v) /\ Forall2 did (opening b ++ commands address n) (log g) /\ zlen (got g) = n)
  | DelayUs us => us = 1 \/ us = 1000
  | _ => True
  end.


(** ** The operation follows them *)

Definition fuseRules (address bytes : Z) (b : bool) : protocol FuseIo Rail := Protocol (Σ:=FuseIo) (railMay address bytes b) (fun _ _ _ => True) railNext.

Section follows.
Context (address bytes : Z) (b : bool).
Hypothesis in_bank : 0 <= address /\ 0 <= bytes /\ address + bytes <= 0x600.
Let rules : protocol FuseIo Rail := fuseRules address bytes b.

(** What a step of the operation leaves of the members, and of the ghost. *)
Record same (s s' : EfuseReader) : Prop := {
  sm_iso : originalIso_ s' = originalIso_ s; sm_pmc : originalPmc_ s' = originalPmc_ s; sm_burst : originalBurst_ s' = originalBurst_ s;
  sm_touched : touched_ s' = touched_ s; sm_b : burst_ s' = burst_ s; sm_out : out s' = out s; sm_read : bytesRead (result_ s') = bytesRead (result_ s);
  sm_restored : restored (result_ s') = restored (result_ s) }.
Record kept (g g' : Rail) : Prop := {
  kp_got : got g' = got g; kp_asked : asked g' = asked g;
  kp_16 : forall v, found16 g = Some v -> found16 g' = Some v; kp_8 : forall v, found8 g = Some v -> found8 g' = Some v }.
Lemma fuse_same_refl s : same s s. Proof. split; reflexivity. Qed.
Lemma fuse_same_trans s1 s2 s3 : same s1 s2 -> same s2 s3 -> same s1 s3.
Proof. intros [A1 A2 A3 A4 A5 A6 A7 A8] [B1 B2 B3 B4 B5 B6 B7 B8]. split; congruence. Qed.
Lemma kept_refl g : kept g g. Proof. split; auto. Qed.
Lemma kept_trans g1 g2 g3 : kept g1 g2 -> kept g2 g3 -> kept g1 g3.
Proof. intros [A1 A2 A3 A4] [B1 B2 B3 B4]. split; [congruence|congruence|auto|auto]. Qed.
#[local] Hint Resolve fuse_same_refl kept_refl : core.

Lemma fuse_wp o s g (Q : option (fuseAns o) -> EfuseReader -> Rail -> Prop) :
  railMay address bytes b g o -> (forall x, Q (Some x) s (railNext g o x)) -> wpm rules (fuse o) s g Q.
Proof. intros H HQ. apply (wpm_call rules o); [exact H|]. intros x _. apply HQ. Qed.
Lemma because_wp e s g (Q : option bool -> EfuseReader -> Rail -> Prop) : e <> ok ->
  (forall s', same s s' -> primary (result_ s') <> ok -> Q (Some false) s' g) -> wpm rules (because e) s g Q.
Proof. intros He HQ. unfold because, onResult. wstep. apply wpm_modify. cbn beta iota. apply wpm_ret. apply HQ; [split; reflexivity|exact He]. Qed.
Lemma active_wp s g (Q : option bool -> EfuseReader -> Rail -> Prop) :
  (forall s', same s s' -> primary (result_ s') = primary (result_ s) -> Q (Some true) s' g) ->
  (forall s', same s s' -> primary (result_ s') <> ok -> Q (Some false) s' g) -> wpm rules active s g Q.
Proof.
  intros HT HF. unfold active, nowUs. wstep. apply fuse_wp; [exact I|]. intros [|]; cbn beta iota; [apply because_wp; [discriminate|exact HF]|].
  wstep. wstep. apply fuse_wp; [exact I|]. intros t. cbn beta iota. wstep. cbn beta iota. wstep. apply wpm_get. cbn beta iota.
  destruct (_ <? _); [apply because_wp; [discriminate|exact HF]|]. wstep. apply wpm_modify. cbn beta iota.
  destruct (_ <=? _); [apply because_wp; [discriminate|]|apply wpm_ret, HT; [split; reflexivity|reflexivity]].
  intros s' Hs. apply HF. eapply fuse_same_trans; [|exact Hs]. split; reflexivity.
Qed.

Lemma merge_bound k v mask bits : 0 <= k -> 0 <= v < 2 ^ k -> 0 <= mask < 2 ^ k -> 0 <= merge v mask bits < 2 ^ k.
Proof. intros Hk Hv Hm. apply lor_bound; [exact Hk| |]; [pose proof (ldiff_bounds v mask)|pose proof (land_bounds bits mask)]; lia. Qed.

(** [m] is one act on the rail: nothing, or the write. *)
Definition acts (a : act) (m : FR bool) : Prop := forall s g (Q : option bool -> EfuseReader -> Rail -> Prop),
  (forall g', kept g g' -> log g' = log g -> Q (Some false) s g') ->
  (forall w x g', kept g g' -> did a w -> log g' = log g ++ [w] -> Q (Some x) s g') -> wpm rules m s g Q.
Lemma first_of_some a r v : a = Some v -> first_of a r = Some v. Proof. intros ->. reflexivity. Qed.
Lemma iso_acts mask bits : In (Merge 0 mask bits) [Merge 0 0x4000 0x4000; Merge 0 0x8000 0x8000; Merge 0 0x100 0; Merge 0 0x100 0x100; Merge 0 0x8000 0; Merge 0 0x4000 0] ->
  acts (Merge 0 mask bits) (iso mask bits).
Proof.
  intros Hin s g Q HF HT. assert (Hm : 0 <= mask < 2 ^ 16) by (cbn in Hin; repeat (destruct Hin as [[= <- _]|Hin]; [lia|]); contradiction).
  unfold iso, read16, write16. wstep. wstep. apply fuse_wp; [reflexivity|]. intros [x v]. cbn beta iota. apply wpm_ret. cbn beta iota. cbn [fst snd].
  destruct (negb x || (u16 v =? 0xffff)) eqn:E.
  - apply wpm_ret, HF; [|reflexivity]. split; cbn; auto using first_of_some.
  - assert (Eg : good 0xffff (x, u16 v) = Some (u16 v)) by (unfold good; cbn; destruct x, (u16 v =? 0xffff); try discriminate; reflexivity).
    assert (Eu : u16 (merge (u16 v) mask bits) = merge (u16 v) mask bits) by (apply u16_small; pose proof (merge_bound 16 (u16 v) mask bits); pose proof (u16_range v); unfold in_u16 in *; lia).
    rewrite Eu. apply fuse_wp.
    + exists (Merge 0 mask bits). split; [exact Hin|]. cbn. split; [reflexivity|]. rewrite Eg. eauto.
    + intros y. eapply (HT (mkWr 0 (Some (u16 v)) (merge (u16 v) mask bits))); [|split; [reflexivity|eauto]|cbn; rewrite Eg; reflexivity].
      split; cbn; auto using first_of_some.
Qed.
Lemma pmc_acts bits : acts (Merge 0xcc 4 bits) (pmc bits).
Proof.
  intros s g Q HF HT. unfold pmc, read8, write8. wstep. wstep. apply fuse_wp; [reflexivity|]. intros [x v]. cbn beta iota. apply wpm_ret. cbn beta iota. cbn [fst snd].
  destruct (negb x || (u8 v =? 0xff)) eqn:E.
  - apply wpm_ret, HF; [|reflexivity]. split; cbn; auto using first_of_some.
  - assert (Eg : good 0xff (x, u8 v) = Some (u8 v)) by (unfold good; cbn; destruct x, (u8 v =? 0xff); try discriminate; reflexivity).
    assert (Eu : u8 (merge (u8 v) 4 bits) = merge (u8 v) 4 bits) by (apply u8_small; pose proof (merge_bound 8 (u8 v) 4 bits); pose proof (u8_range v); unfold in_u8 in *; lia).
    rewrite Eu. apply fuse_wp.
    + exists bits. cbn. split; [reflexivity|]. rewrite Eg. eauto.
    + intros y. eapply (HT (mkWr 0xcc (Some (u8 v)) (merge (u8 v) 4 bits))); [|split; [reflexivity|eauto]|cbn; rewrite Eg; reflexivity].
      split; cbn; auto using first_of_some.
Qed.
Lemma burst_acts bits : b = true -> acts (Merge 0x38 0x80000 bits) (burst bits).
Proof.
  intros Hb s g Q HF HT. unfold burst, read32, write32. wstep. wstep. apply fuse_wp; [right; reflexivity|]. intros [x v]. cbn beta iota. apply wpm_ret. cbn beta iota. cbn [fst snd].
  destruct (negb x || (u32 v =? 0xffffffff)) eqn:E.
  - apply wpm_ret, HF; [|reflexivity]. split; cbn; auto.
  - assert (Eg : good 0xffffffff (x, u32 v) = Some (u32 v)) by (unfold good; cbn; destruct x, (u32 v =? 0xffffffff); try discriminate; reflexivity).
    apply fuse_wp.
    + left. split; [exact Hb|]. exists bits. cbn. split; [reflexivity|]. rewrite Eg. eauto.
    + intros y. eapply (HT (mkWr 0x38 (Some (u32 v)) (merge (u32 v) 0x80000 bits))); [|split; [reflexivity|eauto]|cbn; rewrite Eg; reflexivity].
      split; cbn; auto.
Qed.
#[local] Hint Resolve fuse_same_refl kept_refl : core.

Lemma wpm_if {A} (c : bool) (m1 m2 : FR A) s g (Q : option A -> EfuseReader -> Rail -> Prop) :
  (c = true -> wpm rules m1 s g Q) -> (c = false -> wpm rules m2 s g Q) -> wpm rules (if c then m1 else m2) s g Q.
Proof. destruct c; auto. Qed.

(** *** Closing *)

(** The closing writes so far: [done], but for those whose reading failed. *)
Definition Closed (done : list act) (k : bool) (L : list wr) (g0 g : Rail) : Prop :=
  kept g0 g /\ exists ds ws, log g = L ++ ws /\ Forall2 did ds ws /\ ds `sublist_of` done /\ (k = true -> ds = done).
Lemma closed_step done k L g0 a m s g (Q : option bool -> EfuseReader -> Rail -> Prop) : acts a m -> Closed done k L g0 g ->
  (forall k' g', Closed (done ++ [a]) k' L g0 g' -> Q (Some k') s g') -> wpm rules (also m k) s g Q.
Proof.
  intros Ha (K & ds & ws & El & F & S & E) HQ. unfold also. wstep. apply Ha.
  - intros g' K' E'. cbn beta iota. apply wpm_ret, HQ. split; [exact (kept_trans _ _ _ K K')|]. exists ds, ws. split; [congruence|]. split; [exact F|].
    split; [apply sublist_inserts_r; exact S|discriminate].
  - intros w x g' K' D E'. cbn beta iota. apply wpm_ret, HQ. split; [exact (kept_trans _ _ _ K K')|]. exists (ds ++ [a]), (ws ++ [w]).
    split; [rewrite E', El, app_assoc; reflexivity|]. split; [apply Forall2_app; [exact F|constructor; [exact D|constructor]]|].
    split; [apply sublist_app; [exact S|reflexivity]|]. intros Hk. apply andb_true_iff in Hk as [_ Hk]. rewrite (E Hk). reflexivity.
Qed.
Lemma closed_delay done k L g0 us s g (Q : option bool -> EfuseReader -> Rail -> Prop) : us = 1 \/ us = 1000 -> Closed done k L g0 g ->
  (forall k', Closed done k' L g0 g -> Q (Some k') s g) -> wpm rules (also (delayUs us) k) s g Q.
Proof.
  intros Hu (K & ds & ws & El & F & S & E) HQ. unfold also. wstep. apply (fuse_wp (DelayUs us)); [exact Hu|]. intros x. cbn beta iota. apply wpm_ret, HQ.
  split; [exact K|]. exists ds, ws. split; [exact El|]. split; [exact F|]. split; [exact S|]. intros Hk. apply andb_true_iff in Hk as [_ Hk]. auto.
Qed.
(** The rail as it was found. *)
Definition back16 (s : EfuseReader) (g : Rail) : Prop := exists v, fresh16 g = Some v /\ Z.land v 0xc100 = Z.land (originalIso_ s) 0xc100.
Definition back8 (s : EfuseReader) (g : Rail) : Prop := exists v, fresh8 g = Some v /\ Z.land v 4 = Z.land (originalPmc_ s) 4.
Definition back32 (s : EfuseReader) (g : Rail) : Prop := exists v, fresh32 g = Some v /\ Z.land v 0x80000 = Z.land (originalBurst_ s) 0x80000.
Lemma and3 x y z : x && negb y && z = true -> x = true /\ y = false /\ z = true.
Proof. destruct x, y, z; try discriminate; auto. Qed.
Lemma reread16_wp s g (Q : option bool -> EfuseReader -> Rail -> Prop) :
  (forall k g', kept g g' -> log g' = log g -> (k = true -> back16 s g') -> fresh8 g' = fresh8 g -> Q (Some k) s g') -> wpm rules reread16 s g Q.
Proof.
  intros HQ. unfold reread16, read16. wstep. wstep. apply fuse_wp; [reflexivity|]. intros [x v]. cbn beta iota. apply wpm_ret. cbn beta iota. wstep. apply wpm_get. cbn beta iota. cbn [fst snd].
  apply wpm_ret, HQ; [split; cbn; auto using first_of_some|reflexivity| |reflexivity].
  intros (E1 & E2 & E3)%and3. exists (u16 v). split; [cbn; unfold good; cbn; rewrite E1, E2; reflexivity|apply Z.eqb_eq, E3].
Qed.
Lemma reread8_wp s g (Q : option bool -> EfuseReader -> Rail -> Prop) :
  (forall k g', kept g g' -> log g' = log g -> (k = true -> back8 s g') -> fresh16 g' = fresh16 g -> Q (Some k) s g') -> wpm rules reread8 s g Q.
Proof.
  intros HQ. unfold reread8, read8. wstep. wstep. apply fuse_wp; [reflexivity|]. intros [x v]. cbn beta iota. apply wpm_ret. cbn beta iota. wstep. apply wpm_get. cbn beta iota. cbn [fst snd].
  apply wpm_ret, HQ; [split; cbn; auto using first_of_some|reflexivity| |reflexivity].
  intros (E1 & E2 & E3)%and3. exists (u8 v). split; [cbn; unfold good; cbn; rewrite E1, E2; reflexivity|apply Z.eqb_eq, E3].
Qed.
Lemma reread32_wp s g (Q : option bool -> EfuseReader -> Rail -> Prop) :
  (forall k g', kept g g' -> log g' = log g -> (k = true -> back32 s g') -> fresh16 g' = fresh16 g -> fresh8 g' = fresh8 g -> Q (Some k) s g') -> wpm rules reread32 s g Q.
Proof.
  intros HQ. unfold reread32, read32. wstep. wstep. apply fuse_wp; [right; reflexivity|]. intros [x v]. cbn beta iota. apply wpm_ret. cbn beta iota. wstep. apply wpm_get. cbn beta iota. cbn [fst snd].
  apply wpm_ret, HQ; [split; cbn; auto|reflexivity| |reflexivity|reflexivity].
  intros (E1 & E2 & E3)%and3. exists (u32 v). split; [cbn; unfold good; cbn; rewrite E1, E2; reflexivity|apply Z.eqb_eq, E3].
Qed.
Definition Back (s : EfuseReader) (g : Rail) : Prop := back16 s g /\ back8 s g /\ (b = true -> back32 s g).
Definition afterClose (s s' : EfuseReader) : Prop :=
  originalIso_ s' = originalIso_ s /\ originalPmc_ s' = originalPmc_ s /\ originalBurst_ s' = originalBurst_ s /\ touched_ s' = touched_ s /\ burst_ s' = burst_ s /\ out s' = out s /\
  bytesRead (result_ s') = bytesRead (result_ s) /\ primary (result_ s') = primary (result_ s) /\ status (result_ s') = status (result_ s).
Lemma fuse_restore_wp s g (Q : option bool -> EfuseReader -> Rail -> Prop) : burst_ s = b ->
  (forall k s' g', afterClose s s' -> restored (result_ s') = k -> Closed (closing b (originalPmc_ s) (originalBurst_ s)) k (log g) g g' -> (k = true -> Back s g') -> Q (Some k) s' g') ->
  wpm rules restore s g Q.
Proof.
  intros Hb HQ. unfold restore, onResult. wstep. apply wpm_modify. cbn beta iota. wstep. apply wpm_get. cbn beta iota.
  set (s1 := s <| result_ := _ |>). change (burst_ s1) with (burst_ s). change (originalPmc_ s1) with (originalPmc_ s). change (originalBurst_ s1) with (originalBurst_ s). rewrite Hb.
  assert (C0 : Closed [] true (log g) g g) by (split; [apply kept_refl|]; exists [], []; rewrite app_nil_r; repeat split; auto; constructor).
  assert (Hfirst : forall Q', (forall k g', Closed (if b then [Merge 0x38 0x80000 (originalBurst_ s)] else []) k (log g) g g' -> Q' (Some k) s1 g') ->
    wpm rules (if b then also (burst (originalBurst_ s)) true else mret true) s1 g Q').
  { intros Q' HQ'. apply wpm_if; intros Eb; rewrite Eb in HQ'; [|apply wpm_ret, HQ', C0].
    apply (closed_step [] true (log g) g (Merge 0x38 0x80000 (originalBurst_ s))); [apply burst_acts, Eb|exact C0|exact HQ']. }
  wstep. apply Hfirst. intros k1 g1 C1. cbn beta iota.
  wstep. apply (closed_step _ _ _ _ (Merge 0 0x100 0x100) _ _ _ _ (iso_acts 0x100 0x100 ltac:(cbn; tauto)) C1). intros k2 g2 C2. cbn beta iota.
  wstep. apply (closed_step _ _ _ _ (Merge 0 0x8000 0) _ _ _ _ (iso_acts 0x8000 0 ltac:(cbn; tauto)) C2). intros k3 g3 C3. cbn beta iota.
  wstep. apply (closed_delay _ _ _ _ 1000 _ _ _ ltac:(auto) C3). intros k4 C4. cbn beta iota.
  wstep. apply (closed_step _ _ _ _ (Merge 0 0x4000 0) _ _ _ _ (iso_acts 0x4000 0 ltac:(cbn; tauto)) C4). intros k5 g5 C5. cbn beta iota.
  wstep. apply (closed_step _ _ _ _ (Merge 0xcc 4 (originalPmc_ s)) _ _ _ _ (pmc_acts _) C5). intros k6 g6 C6. cbn beta iota.
  rewrite <- !app_assoc in C6. cbn [app] in C6. fold (closing b (originalPmc_ s) (originalBurst_ s)) in C6.
  assert (Hkeep : forall g', kept g6 g' -> log g' = log g6 -> forall k, (k = true -> k6 = true) -> Closed (closing b (originalPmc_ s) (originalBurst_ s)) k (log g) g g').
  { intros g' K El k Hk. destruct C6 as (K6 & ds & ws & E6 & F & S & E). split; [exact (kept_trans _ _ _ K6 K)|]. exists ds, ws. rewrite El. split; [exact E6|]. split; [exact F|]. split; [exact S|]. auto. }
  wstep. unfold also. wstep. apply reread16_wp. intros r7 g7 K7 L7 B7 _. cbn beta iota. apply wpm_ret. cbn beta iota.
  wstep. wstep. apply reread8_wp. intros r8 g8 K8 L8 B8 F16. cbn beta iota. apply wpm_ret. cbn beta iota.
  assert (B7' : r7 = true -> back16 s g8) by (intros H; destruct (B7 H) as (v & E & E'); exists v; split; [congruence|exact E']).
  wstep. assert (Hlast : forall Q', (forall k g', kept g8 g' -> log g' = log g8 -> (k = true -> r8 && (r7 && k6) = true /\ Back s g') -> Q' (Some k) s1 g') ->
    wpm rules (if b then r ← reread32; mret (r && (r8 && (r7 && k6))) else mret (r8 && (r7 && k6))) s1 g8 Q').
  { intros Q' HQ'. apply wpm_if; intros Eb; unfold Back in HQ'; rewrite Eb in HQ'.
    - wstep. apply reread32_wp. intros r9 g9 K9 L9 B9 F16' F8'. cbn beta iota. apply wpm_ret, HQ'; [exact K9|exact L9|].
      intros [H9 H8]%andb_true_iff. split; [exact H8|]. apply andb_true_iff in H8 as [H8 H7]. apply andb_true_iff in H7 as [H7 _].
      destruct (B7' H7) as (v & E & E'). destruct (B8 H8) as (v2 & E2 & E2'). split; [exists v; split; [congruence|exact E']|]. split; [exists v2; split; [congruence|exact E2']|auto].
    - apply wpm_ret, HQ'; [apply kept_refl|reflexivity|]. intros H8. split; [exact H8|]. apply andb_true_iff in H8 as [H8 H7]. apply andb_true_iff in H7 as [H7 _]. split; [auto|]. split; [auto|discriminate]. }
  apply Hlast. intros k9 g9 K9 L9 H9. cbn beta iota. wstep. apply wpm_modify. cbn beta iota. apply wpm_ret. apply HQ.
  - repeat split; reflexivity.
  - reflexivity.
  - apply Hkeep; [exact (kept_trans _ _ _ (kept_trans _ _ _ K7 K8) K9)|congruence|]. intros H. destruct (H9 H) as [H8 _]. apply andb_true_iff in H8 as [_ H8]. apply andb_true_iff in H8 as [_ H8]. exact H8.
  - intros H. apply H9, H.
Qed.

(** *** Opening *)

(** Before the rail is touched: nothing was written; the members that go on
    are those of [s0]. *)
Record Idle (s0 s : EfuseReader) (g : Rail) : Prop := {
  id_log : log g = []; id_got : got g = []; id_out : out s = out s0; id_read : bytesRead (result_ s) = 0; id_burst : burst_ s = b; id_touched : touched_ s = false }.
(** The rail was found quiet, and these acts were done. *)
Record Held (s0 : EfuseReader) (done : list act) (s : EfuseReader) (g : Rail) : Prop := {
  hd_out : out s = out s0; hd_read : bytesRead (result_ s) = 0; hd_burst : burst_ s = b; hd_touched : touched_ s = true;
  hd_16 : found16 g = Some (originalIso_ s) /\ Z.land (originalIso_ s) 0xc100 = 0x100; hd_8 : found8 g = Some (originalPmc_ s) /\ Z.land (originalPmc_ s) 4 = 0;
  hd_got : got g = []; hd_log : Forall2 did done (log g) }.
Definition prim (s : EfuseReader) : EfuseReadStatus := primary (result_ s).
Lemma idle_same s0 s s' g : Idle s0 s g -> same s s' -> Idle s0 s' g.
Proof. intros [A1 A2 A3 A4 A5 A6] [B1 B2 B3 B4 B5 B6 B7 B8]. split; congruence. Qed.
Lemma held_same s0 done s s' g : Held s0 done s g -> same s s' -> Held s0 done s' g.
Proof. intros [A1 A2 A3 A4 A5 A6 A7 A8] [B1 B2 B3 B4 B5 B6 B7 B8]. split; rewrite ?B1, ?B2; congruence || assumption. Qed.
Lemma held_acts s0 done a m s g (Q : option bool -> EfuseReader -> Rail -> Prop) : acts a m -> Held s0 done s g ->
  (forall k g', Held s0 (done ++ [a]) s g' -> Q (Some k) s g') -> (forall g', Held s0 done s g' -> Q (Some false) s g') -> wpm rules m s g Q.
Proof.
  intros Ha [A1 A2 A3 A4 [A5 A5'] [A6 A6'] A7 A8] HT HF. apply Ha.
  - intros g' [K1 K2 K3 K4] El. apply HF. split; try assumption; [split; auto|split; auto|congruence|rewrite El; exact A8].
  - intros w x g' [K1 K2 K3 K4] D El. apply HT. split; try assumption; [split; auto|split; auto|congruence|].
    rewrite El. apply Forall2_app; [exact A8|]. constructor; [exact D|constructor].
Qed.
Lemma keepIso_wp s0 s g (Q : option bool -> EfuseReader -> Rail -> Prop) : Idle s0 s g -> found16 g = None -> found8 g = None ->
  (forall k s' g', Idle s0 s' g' -> prim s' = prim s -> (k = true -> found16 g' = Some (originalIso_ s')) -> found8 g' = None -> Q (Some k) s' g') ->
  wpm rules keepIso s g Q.
Proof.
  intros [A1 A2 A3 A4 A5 A6] N16 N8 HQ. unfold keepIso, read16. wstep. wstep. apply fuse_wp; [reflexivity|]. intros [x v]. cbn beta iota. apply wpm_ret. cbn beta iota. cbn [fst snd].
  wstep. apply wpm_modify. cbn beta iota. apply wpm_ret, HQ; [split; assumption|reflexivity| |exact N8].
  intros Hk. cbn. rewrite N16. cbn. unfold good. cbn. rewrite Hk. reflexivity.
Qed.
Lemma keepPmc_wp s0 s g (Q : option bool -> EfuseReader -> Rail -> Prop) : Idle s0 s g -> found16 g = Some (originalIso_ s) -> found8 g = None ->
  (forall k s' g', Idle s0 s' g' -> prim s' = prim s -> found16 g' = Some (originalIso_ s') -> (k = true -> found8 g' = Some (originalPmc_ s')) -> Q (Some k) s' g') ->
  wpm rules keepPmc s g Q.
Proof.
  intros [A1 A2 A3 A4 A5 A6] N16 N8 HQ. unfold keepPmc, read8. wstep. wstep. apply fuse_wp; [reflexivity|]. intros [x v]. cbn beta iota. apply wpm_ret. cbn beta iota. cbn [fst snd].
  wstep. apply wpm_modify. cbn beta iota. apply wpm_ret, HQ; [split; assumption|reflexivity|exact N16|].
  intros Hk. cbn. rewrite N8. cbn. unfold good. cbn. rewrite Hk. reflexivity.
Qed.
Definition Found (s : EfuseReader) (g : Rail) : Prop :=
  (found16 g = Some (originalIso_ s) /\ Z.land (originalIso_ s) 0xc100 = 0x100) /\ (found8 g = Some (originalPmc_ s) /\ Z.land (originalPmc_ s) 4 = 0).
Lemma keepBurst_wp s0 s g (Q : option bool -> EfuseReader -> Rail -> Prop) : Idle s0 s g -> Found s g ->
  (forall k s' g', Idle s0 s' g' -> prim s' = prim s -> Found s' g' -> Q (Some k) s' g') -> wpm rules keepBurst s g Q.
Proof.
  intros [A1 A2 A3 A4 A5 A6] F HQ. unfold keepBurst, read32. wstep. wstep. apply fuse_wp; [right; reflexivity|]. intros [x v]. cbn beta iota. apply wpm_ret. cbn beta iota. cbn [fst snd].
  wstep. apply wpm_modify. cbn beta iota. apply wpm_ret, HQ; [split; assumption|reflexivity|exact F].
Qed.
(** How an attempt to open ends. *)
Definition Refused (s0 s : EfuseReader) (g : Rail) : Prop :=
  prim s <> ok /\ (Idle s0 s g \/ exists done rest, opening b = done ++ rest /\ Held s0 done s g).
Lemma failed_refused s0 s g (Q : option bool -> EfuseReader -> Rail -> Prop) :
  (Idle s0 s g \/ exists done rest, opening b = done ++ rest /\ Held s0 done s g) ->
  (forall s', Refused s0 s' g -> Q (Some false) s' g) -> wpm rules failed s g Q.
Proof.
  intros H HQ. apply because_wp; [discriminate|]. intros s' S P. apply HQ. split; [exact P|]. destruct H as [H|(d & r & E & H)]; [left; eapply idle_same; eassumption|].
  right. exists d, r. split; [exact E|]. eapply held_same; eassumption.
Qed.
Lemma stop_refused s0 s g done rest (Q : option bool -> EfuseReader -> Rail -> Prop) : opening b = done ++ rest -> Held s0 done s g ->
  (forall s' g', Refused s0 s' g' -> Q (Some false) s' g') -> wpm rules failed s g Q.
Proof. intros E H HQ. apply (failed_refused s0); [right; eauto|]. intros s'. apply HQ. Qed.
Lemma powerUp_wp s0 s6 g4 (Q : option bool -> EfuseReader -> Rail -> Prop) : Held s0 [] s6 g4 -> prim s6 = ok ->
  (forall s' g', Held s0 (opening b) s' g' -> prim s' = ok -> Q (Some true) s' g') ->
  (forall s' g', Refused s0 s' g' -> Q (Some false) s' g') -> wpm rules powerUp s6 g4 Q.
Proof.
  intros H6 P6 HT HF. unfold powerUp. wstep. apply wpm_get. cbn beta iota.
  wstep. wstep. apply (held_acts s0 [] _ _ _ _ _ (pmc_acts 4) H6); [intros k7 g7 H7|intros g7 H7]; cbn beta iota; cbn [negb]; [|apply (stop_refused s0 _ _ [] (opening b)); [reflexivity|exact H7|exact HF]].
  cbn [app] in H7. destruct k7; cbn beta iota; cbn [negb]; [|eapply stop_refused; [|exact H7|exact HF]; reflexivity].
  wstep. apply (held_acts s0 _ _ _ _ _ _ (iso_acts 0x4000 0x4000 ltac:(cbn; tauto)) H7); [intros k8 g8 H8|intros g8 H8]; cbn beta iota; cbn [negb]; [|eapply stop_refused; [|exact H8|exact HF]; reflexivity].
  cbn [app] in H8. destruct k8; cbn beta iota; cbn [negb]; [|eapply stop_refused; [|exact H8|exact HF]; reflexivity].
  apply (fuse_wp (DelayUs 1000)); [right; reflexivity|]. intros k9. cbn beta iota. change (railNext g8 (DelayUs 1000) k9) with g8. destruct k9; cbn [negb]; [|eapply stop_refused; [|exact H8|exact HF]; reflexivity].
  wstep. apply active_wp; [intros s9 S9 P9|intros s9 S9 P9]; cbn beta iota; cbn [negb].
  2: { apply wpm_ret, HF. split; [exact P9|]. right. eexists _, _. split; [|eapply held_same; eassumption]. reflexivity. }
  pose proof (held_same _ _ _ _ _ H8 S9) as H9.
  wstep. wstep. apply (held_acts s0 _ _ _ _ _ _ (iso_acts 0x8000 0x8000 ltac:(cbn; tauto)) H9); [intros k10 g10 H10|intros g10 H10]; cbn beta iota; cbn [negb]; [|eapply stop_refused; [|exact H10|exact HF]; reflexivity].
  cbn [app] in H10. destruct k10; cbn beta iota; cbn [negb]; [|eapply stop_refused; [|exact H10|exact HF]; reflexivity].
  apply (held_acts s0 _ _ _ _ _ _ (iso_acts 0x100 0 ltac:(cbn; tauto)) H10); [intros k11 g11 H11|intros g11 H11]; cbn beta iota; cbn [negb]; [|eapply stop_refused; [|exact H11|exact HF]; reflexivity].
  cbn [app] in H11. destruct k11; cbn beta iota; cbn [negb]; [|eapply stop_refused; [|exact H11|exact HF]; reflexivity].
  wstep. assert (Pr9 : prim s9 = ok) by (unfold prim in *; congruence).
  assert (Eb : burst_ s6 = b) by apply H6. apply wpm_if; intros Ebb; rewrite Eb in Ebb.
  - apply (held_acts s0 _ _ _ _ _ _ (burst_acts 0x80000 Ebb) H11); [intros k12 g12 H12|intros g12 H12]; cbn beta iota; cbn [negb].
    + cbn [app] in H12. destruct k12; cbn [negb]; [|eapply stop_refused; [|exact H12|exact HF]; unfold opening; rewrite Ebb; reflexivity].
      apply wpm_ret, HT; [|exact Pr9]. unfold opening. rewrite Ebb. exact H12.
    + eapply stop_refused; [|exact H12|exact HF]; reflexivity.
  - apply wpm_ret. cbn beta iota. cbn [negb]. apply wpm_ret, HT; [|exact Pr9]. unfold opening. rewrite Ebb. exact H11.
Qed.
Lemma enable_wp s0 s g (Q : option bool -> EfuseReader -> Rail -> Prop) : Idle s0 s g -> found16 g = None -> found8 g = None -> prim s = ok ->
  (forall s' g', Held s0 (opening b) s' g' -> prim s' = ok -> Q (Some true) s' g') ->
  (forall s' g', Refused s0 s' g' -> Q (Some false) s' g') -> wpm rules enable s g Q.
Proof.
  intros H0 N16 N8 P0 HT HF. unfold enable.
  wstep. apply active_wp; [intros s1 S1 P1|intros s1 S1 P1]; cbn beta iota; cbn [negb].
  2: { apply wpm_ret, HF. split; [exact P1|]. left. eapply idle_same; eassumption. }
  pose proof (idle_same _ _ _ _ H0 S1) as H1. wstep. wstep. apply (keepIso_wp s0); [exact H1|exact N16|exact N8|]. intros k2 s2 g2 H2 P2 G2 N2. cbn beta iota.
  destruct k2; cbn beta iota; cbn [negb]; [|apply (failed_refused s0); [left; exact H2|intros; apply HF; assumption]].
  apply (keepPmc_wp s0); [exact H2|auto|exact N2|]. intros k3 s3 g3 H3 P3 G3 N3. cbn beta iota.
  destruct k3; cbn [negb]; [|apply (failed_refused s0); [left; exact H3|intros; apply HF; assumption]].
  wstep. apply wpm_get. cbn beta iota. destruct (negb (Z.land (originalIso_ s3) 0xc100 =? 0x100) || flag (originalPmc_ s3) 4) eqn:Eq.
  { apply because_wp; [discriminate|]. intros s' S P. apply HF. split; [exact P|]. left. eapply idle_same; eassumption. }
  apply orb_false_iff in Eq as [Eq1%negb_false_iff Eq2%negb_false_iff]. apply Z.eqb_eq in Eq1, Eq2.
  assert (Fd : Found s3 g3) by (split; split; auto).
  wstep. assert (Hb : forall Q' : option bool -> EfuseReader -> Rail -> Prop, (forall k s' g', Idle s0 s' g' -> prim s' = prim s3 -> Found s' g' -> Q' (Some k) s' g') -> wpm rules (if burst_ s3 then keepBurst else mret true) s3 g3 Q').
  { intros Q' HQ'. destruct (burst_ s3); [apply (keepBurst_wp s0); [exact H3|exact Fd|exact HQ']|apply wpm_ret, HQ'; auto]. }
  apply Hb. clear Hb. intros k4 s4 g4 H4 P4 F4. cbn beta iota.
  destruct k4; cbn [negb]; [|apply (failed_refused s0); [left; exact H4|intros; apply HF; assumption]].
  wstep. apply active_wp; [intros s5 S5 P5|intros s5 S5 P5]; cbn beta iota; cbn [negb].
  2: { apply wpm_ret, HF. split; [exact P5|]. left. eapply idle_same; eassumption. }
  wstep. apply wpm_modify. cbn beta iota. pose proof (idle_same _ _ _ _ H4 S5) as [A1 A2 A3 A4 A5 A6].
  set (s6 := s5 <| touched_ := true |>). assert (H6 : Held s0 [] s6 g4).
  { destruct F4 as [[F1 F2] [F3 F5]], S5 as [B1 B2 B3 B4 B5 B6 B7 B8]. split; try assumption; [reflexivity|change (originalIso_ s6) with (originalIso_ s5); rewrite B1; auto|change (originalPmc_ s6) with (originalPmc_ s5); rewrite B2; auto|rewrite A1; constructor]. }
  apply (powerUp_wp s0); [exact H6|change (prim s6) with (prim s5); unfold prim in *; congruence|exact HT|exact HF].
Qed.

(** *** Reading *)

Definition Base (n : Z) (s : EfuseReader) (g : Rail) : Prop :=
  burst_ s = b /\ touched_ s = true /\ Found s g /\ Forall2 did (opening b ++ commands address n) (log g).
(** [i] bytes have come. *)
Definition Data (s0 : EfuseReader) (i : Z) (s : EfuseReader) (g : Rail) : Prop :=
  zlen (got g) = i /\ bytesRead (result_ s) = i /\ out s = blit (out s0) 0 (got g).
Lemma base_same n s s' g : Base n s g -> same s s' -> Base n s' g.
Proof. intros (A1 & A2 & ([A3 A4] & A5 & A6) & A7) [B1 B2 B3 B4 B5 B6 B7 B8]. unfold Base, Found. rewrite B1, B2. repeat split; congruence || assumption. Qed.
Lemma data_same s0 i s s' g : Data s0 i s g -> same s s' -> Data s0 i s' g.
Proof. intros (A1 & A2 & A3) [B1 B2 B3 B4 B5 B6 B7 B8]. repeat split; congruence. Qed.
Lemma commands_next n : 0 <= n -> commands address (n + 1) = commands address n ++ [Command (address + n)].
Proof. intros Hn. unfold commands. replace (Z.to_nat (n + 1)) with (Datatypes.S (Z.to_nat n)) by lia. rewrite seq_S, map_app. cbn. do 3 f_equal. lia. Qed.
Lemma fuse_attempt_wp started s g (Q : option (option bool) -> EfuseReader -> Rail -> Prop) : asked g = true ->
  (forall s', same s s' -> prim s' = prim s -> Q (Some None) s' g) ->
  (forall s', same s s' -> prim s' <> ok -> Q (Some (Some false)) s' g) ->
  (forall s', same s s' -> prim s' = prim s -> Q (Some (Some true)) s' (g <| asked := false |> <| got := got g ++ [u8 (last (result_ s'))] |>)) ->
  wpm rules (attempt started) s g Q.
Proof.
  intros Ha HN HF HT. unfold attempt. wstep. apply active_wp; [intros s1 S1 P1|intros s1 S1 P1]; cbn beta iota; cbn [negb]; [|apply wpm_ret, HF; assumption].
  assert (Hbad : forall s2 g2, same s s2 -> g2 = g -> wpm rules (failed;; mret (Some false)) s2 g2 Q).
  { intros s2 g2 S2 ->. wstep. apply because_wp; [discriminate|]. intros s3 S3 P3. cbn beta iota. apply wpm_ret, HF; [eapply fuse_same_trans; eassumption|exact P3]. }
  wstep. wstep. apply (fuse_wp (DelayUs 1)); [left; reflexivity|]. intros d. cbn beta iota. destruct d; cbn beta iota; cbn [negb]; [|apply Hbad; [exact S1|reflexivity]].
  unfold keepLast, read32, onResult. wstep. wstep. apply (fuse_wp (Read32 0x30)); [left; reflexivity|]. intros [x v]. cbn beta iota. apply wpm_ret. cbn beta iota. cbn [fst snd].
  wstep. apply wpm_modify. cbn beta iota. apply wpm_ret. cbn beta iota. cbn [railNext fst snd]. change (0x30 =? 0x38) with false. cbn iota.
  set (s2 := s1 <| result_ := _ |>). assert (S2 : same s s2) by (eapply fuse_same_trans; [exact S1|]; split; reflexivity).
  destruct (x && negb (u32 v =? 0xffffffff)) eqn:Eg; cbn [negb].
  2: { apply Hbad; [exact S2|]. unfold good. cbn [fst snd]. rewrite Eg. reflexivity. }
  unfold good. cbn [fst snd]. rewrite Eg, Ha. cbn [andb].
  wstep. apply wpm_modify. cbn beta iota. set (s3 := s2 <| result_ := _ |>). assert (S3 : same s s3) by (eapply fuse_same_trans; [exact S2|]; split; reflexivity).
  wstep. apply wpm_get. cbn beta iota. change (last (result_ s3)) with (u32 v). destruct (flag (u32 v) 0x20000000) eqn:Ef.
  { apply wpm_ret. apply (HT s3); [exact S3|exact P1]. }
  destruct (_ <=? _); [|apply wpm_ret; apply (HN s3); [exact S3|exact P1]].
  wstep. apply because_wp; [discriminate|]. intros s4 S4 P4. cbn beta iota. apply wpm_ret, HF; [eapply fuse_same_trans; eassumption|exact P4].
Qed.
(** How a byte that does not come ends the loop. *)
Definition Broken (s0 s : EfuseReader) (g : Rail) : Prop :=
  prim s <> ok /\ exists n i, 0 <= i <= n /\ n <= bytes /\ Base n s g /\ Data s0 i s g.
Lemma readByte_wp s0 i s g (Q : option (option unit) -> EfuseReader -> Rail -> Prop) : 0 <= i < bytes -> prim s = ok -> Base i s g -> Data s0 i s g ->
  (forall s' g', prim s' = ok -> Base (i + 1) s' g' -> Data s0 (i + 1) s' g' -> Q (Some None) s' g') ->
  (forall s' g', Broken s0 s' g' -> Q (Some (Some tt)) s' g') -> wpm rules (readByte address i) s g Q.
Proof.
  intros Hi P0 B0 D0 HT HF. unfold readByte. wstep. apply active_wp; [intros s1 S1 P1|intros s1 S1 P1]; cbn beta iota; cbn [negb].
  2: { apply wpm_ret, HF. split; [exact P1|]. exists i, i. split; [lia|]. split; [lia|]. split; [eapply base_same|eapply data_same]; eassumption. }
  pose proof (base_same _ _ _ _ B0 S1) as B1. pose proof (data_same _ _ _ _ _ D0 S1) as D1.
  assert (Ev : u32 (Z.shiftl (u32 (address + i)) 16) = Z.shiftl (address + i) 16).
  { rewrite !Z.shiftl_mul_pow2 by lia. rewrite (u32_small (address + i)) by (unfold in_u32; lia). apply u32_small. change (2 ^ 16) with 65536. unfold in_u32. lia. }
  rewrite Ev. wstep. unfold write32. apply (fuse_wp (Write32 0x30 (Z.shiftl (address + i) 16))).
  { right. exists i. split; [lia|]. split; [cbn; split; [reflexivity|]; split; [lia|reflexivity]|]. split; [apply B1|apply D1]. }
  intros w. cbn beta iota. cbn [railNext]. change (0x30 =? 0x38) with false. cbn iota. set (g2 := logged 0x30 None _ g <| asked := w |>).
  assert (B2 : Base (i + 1) s1 g2).
  { destruct B1 as (A1 & A2 & A3 & A4). split; [exact A1|]. split; [exact A2|]. split; [exact A3|]. change (log g2) with (log g ++ [mkWr 0x30 None (Z.shiftl (address + i) 16)]). rewrite commands_next, app_assoc by lia.
    apply Forall2_app; [exact A4|]. constructor; [|constructor]. split; [reflexivity|]. split; [lia|reflexivity]. }
  assert (D2 : Data s0 i s1 g2) by exact D1. assert (Ea : asked g2 = w) by reflexivity. clearbody g2.
  destruct w; cbn [negb].
  2: { wstep. apply because_wp; [discriminate|]. intros s3 S3 P3. cbn beta iota. apply wpm_ret, HF. split; [exact P3|]. exists (i + 1), i. split; [lia|]. split; [lia|]. split; [eapply base_same|eapply data_same]; eassumption. }
  wstep. apply wpm_get. cbn beta iota. wstep.
  apply (wpm_for_nat _ (fun _ s g => same s1 s /\ g = g2 /\ prim s = ok)); [split; [apply fuse_same_refl|]; split; [reflexivity|unfold prim in *; congruence]| |].
  - intros j s3 g3 _ (S3 & -> & P3). apply fuse_attempt_wp; [exact Ea| | |].
    + intros s4 S4 P4. split; [eapply fuse_same_trans; eassumption|]. split; [reflexivity|congruence].
    + intros s4 S4 P4. cbn beta iota. wstep. apply wpm_get. cbn beta iota. wstep. rewrite bool_decide_eq_false_2 by exact P4. apply wpm_ret. cbn beta iota.
      apply wpm_ret, HF. pose proof (fuse_same_trans _ _ _ S3 S4) as S5. split; [exact P4|]. exists (i + 1), i. split; [lia|]. split; [lia|]. split; [eapply base_same|eapply data_same]; eassumption.
    + intros s4 S4 P4. cbn beta iota. wstep. apply wpm_get. cbn beta iota. unfold onResult. wstep. apply wpm_modify. cbn beta iota. wstep. apply wpm_modify. cbn beta iota. apply wpm_ret.
      pose proof (fuse_same_trans _ _ _ S3 S4) as S5. apply HT; [unfold prim in *; cbn; congruence| |].
      * destruct (base_same _ _ _ _ B2 S5) as (A1 & A2 & A3 & A4). repeat split; try assumption; apply A3.
      * destruct (data_same _ _ _ _ _ D2 S5) as (A1 & A2 & A3). split; [cbn; rewrite zlen_app, A1; reflexivity|]. split; [cbn; rewrite A2; reflexivity|]. cbn. rewrite A3. rewrite <- A1. apply blit_snoc.
  - intros s3 g3 (S3 & -> & P3). cbn beta iota. wstep. apply wpm_get. cbn beta iota. wstep. rewrite bool_decide_eq_true_2 by exact P3.
    apply because_wp; [discriminate|]. intros s4 S4 P4. cbn beta iota. apply wpm_ret, HF. pose proof (fuse_same_trans _ _ _ S3 S4) as S5. split; [exact P4|].
    exists (i + 1), i. split; [lia|]. split; [lia|]. split; [eapply base_same|eapply data_same]; eassumption.
Qed.

(** *** The whole operation *)

(** Nothing touched, or the rail opened, used and closed again. *)
Definition Untouched (s0 s : EfuseReader) (g : Rail) : Prop :=
  log g = [] /\ out s = out s0 /\ status (result_ s) <> ok /\ touched_ s = false.
Record Done (s0 s : EfuseReader) (g : Rail) (done rest : list act) (n : Z) (ds : list act) : Prop := {
  dn_found : Found s g;
  dn_prefix : opening b = done ++ rest; dn_full : 0 < n -> rest = []; dn_n : 0 <= n <= bytes;
  dn_closing : ds `sublist_of` closing b (originalPmc_ s) (originalBurst_ s);
  dn_log : Forall2 did (done ++ commands address n ++ ds) (log g);
  dn_read : bytesRead (result_ s) = zlen (got g) /\ zlen (got g) <= n;
  dn_restored : if restored (result_ s) then ds = closing b (originalPmc_ s) (originalBurst_ s) /\ Back s g else status (result_ s) = cleanupFailed;
  dn_status : if isOk (status (result_ s)) then restored (result_ s) = true /\ rest = [] /\ n = bytes /\ zlen (got g) = bytes /\ validBytes (result_ s) = bytes /\ out s = blit (out s0) 0 (got g)
              else out s = blit (out s0) 0 (replicate (length (got g)) 0) }.
Definition Finished (s0 : EfuseReader) (r : option EfuseReadResult) (s : EfuseReader) (g : Rail) : Prop :=
  r = Some (result_ s) /\ (Untouched s0 s g \/ exists done rest n ds, Done s0 s g done rest n ds).

(** How the reading ends. *)
Definition Over (s0 s : EfuseReader) (g : Rail) : Prop :=
  exists done rest n i, Found s g /\ burst_ s = b /\ touched_ s = true /\ opening b = done ++ rest /\ (0 < n -> rest = []) /\ 0 <= n <= bytes /\ i <= n /\
  Forall2 did (done ++ commands address n) (log g) /\ Data s0 i s g /\ (prim s = ok -> rest = [] /\ n = bytes /\ i = bytes).
Lemma finish_idle s0 s g (Q : option EfuseReadResult -> EfuseReader -> Rail -> Prop) : Idle s0 s g -> prim s <> ok ->
  (forall r s' g', Finished s0 r s' g' -> Q r s' g') -> wpm rules finish s g Q.
Proof.
  intros [A1 A2 A3 A4 A5 A6] P HQ. unfold finish, onResult. wstep. apply wpm_modify. cbn beta iota. wstep. apply wpm_get. cbn beta iota.
  set (s1 := s <| result_ := _ |>). change (touched_ s1) with (touched_ s). rewrite A6. wstep. apply wpm_ret. cbn beta iota. wstep. unfold unless. apply wpm_ret. cbn beta iota.
  wstep. apply wpm_get. cbn beta iota. wstep. change (status (result_ s1)) with (prim s). unfold isOk. rewrite bool_decide_eq_false_2 by exact P.
  apply wpm_modify. cbn beta iota. apply wpm_gets. apply HQ. split; [reflexivity|]. left.
  split; [exact A1|]. split; [|split; [exact P|exact A6]]. cbn. rewrite A4, A3. apply blit_nothing.
Qed.
Lemma finish_over s0 s g (Q : option EfuseReadResult -> EfuseReader -> Rail -> Prop) : Over s0 s g ->
  (forall r s' g', Finished s0 r s' g' -> Q r s' g') -> wpm rules finish s g Q.
Proof.
  intros (done & rest & n & i & F & Hb & Ht & E & Hn & Hn2 & Hi & L & D & P) HQ. unfold finish, onResult. wstep. apply wpm_modify. cbn beta iota. wstep. apply wpm_get. cbn beta iota.
  set (s1 := s <| result_ := _ |>). change (touched_ s1) with (touched_ s). rewrite Ht. wstep.
  apply fuse_restore_wp; [exact Hb|]. intros k s2 g2 (B1 & B2 & B3 & B4 & B5 & B6 & B7 & B8 & B9) R (K & ds & ws & El & Fd & Sd & Ed) Hback. cbn beta iota.
  change (originalPmc_ s1) with (originalPmc_ s) in *. change (originalBurst_ s1) with (originalBurst_ s) in *. change (originalIso_ s1) with (originalIso_ s) in *.
  change (out s1) with (out s) in *. change (bytesRead (result_ s1)) with (bytesRead (result_ s)) in *. change (status (result_ s1)) with (prim s) in *.
  destruct D as (D1 & D2 & D3). destruct K as [K1 K2 K3 K4]. destruct F as [[F1 F2] [F3 F4]].
  (* what does not depend on the status *)
  assert (Hall : forall s3, originalIso_ s3 = originalIso_ s -> originalPmc_ s3 = originalPmc_ s -> originalBurst_ s3 = originalBurst_ s -> bytesRead (result_ s3) = bytesRead (result_ s) ->
    restored (result_ s3) = k -> (k = false -> status (result_ s3) = cleanupFailed) ->
    (if isOk (status (result_ s3)) then k = true /\ rest = [] /\ n = bytes /\ i = bytes /\ validBytes (result_ s3) = bytes /\ out s3 = out s else out s3 = blit (out s) 0 (replicate (Z.to_nat i) 0)) ->
    Finished s0 (Some (result_ s3)) s3 g2).
  { intros s3 E1 E2 E3 E4 E5 E6 E7. split; [reflexivity|]. right. exists done, rest, n, ds. split.
    - split; split; [rewrite E1; auto|rewrite E1; exact F2|rewrite E2; auto|rewrite E2; exact F4].
    - exact E.
    - exact Hn.
    - exact Hn2.
    - rewrite E2, E3. exact Sd.
    - rewrite El, app_assoc. apply Forall2_app; [exact L|exact Fd].
    - rewrite E4, K1. lia.
    - rewrite E5. destruct k; [|auto]. rewrite E2, E3. split; [auto|]. destruct (Hback eq_refl) as (X1 & X2 & X3). unfold Back, back16, back8, back32 in *. rewrite E1, E2, E3.
      split; [exact X1|]. split; [exact X2|exact X3].
    - rewrite E5. destruct (isOk (status (result_ s3))).
      + destruct E7 as (Y1 & Y2 & Y3 & Y4 & Y5 & Y6). repeat split; try assumption; [rewrite K1; lia|]. rewrite Y6, K1. exact D3.
      + rewrite E7, D3. rewrite blit_over by (unfold zlen in *; rewrite length_replicate; lia). do 2 f_equal. rewrite K1. unfold zlen in D1. lia. }
  wstep. destruct k; cbn [unless].
  - apply wpm_ret. cbn beta iota. wstep. apply wpm_get. cbn beta iota. wstep. destruct (isOk (status (result_ s2))) eqn:Eo.
    + apply wpm_modify. cbn beta iota. apply wpm_gets, HQ. rewrite B9 in Eo. destruct P as (P1 & P2 & P3); [apply bool_decide_eq_true in Eo; exact Eo|].
      apply Hall; try assumption; [discriminate|]. cbn. rewrite B9, Eo. repeat split; try assumption. rewrite B7, D2. exact P3.
    + apply wpm_modify. cbn beta iota. apply wpm_gets, HQ. apply Hall; try assumption; [discriminate|]. cbn. rewrite Eo, B6, B7, D2. reflexivity.
  - apply wpm_modify. cbn beta iota. wstep. apply wpm_get. cbn beta iota. wstep. cbn [isOk]. unfold isOk at 1. rewrite bool_decide_eq_false_2 by discriminate.
    apply wpm_modify. cbn beta iota. apply wpm_gets, HQ. apply Hall; try assumption; [reflexivity|]. cbn. rewrite B6, B7, D2. reflexivity.
Qed.
Lemma accepted_wp s0 capacity s g (Q : option EfuseReadResult -> EfuseReader -> Rail -> Prop) : bytes <= capacity ->
  out s = out s0 -> bytesRead (result_ s) = 0 -> burst_ s = b -> touched_ s = false -> log g = [] -> got g = [] -> found16 g = None -> found8 g = None ->
  (forall r s' g', Finished s0 r s' g' -> Q r s' g') ->
  wpm rules (t ← nowUs;
    modify (fun s => s <| begin_ := t |> <| previous_ := t |> <| result_ := (result_ s) <| primary := ok |> |>);;
    e ← enable; (if (e : bool) then _ ← for_loop 0 bytes (readByte address); mret tt else mret tt);; finish) s g Q.
Proof.
  intros Hc Ho Hr Hb Ht Hl Hg H16 H8 HQ. unfold nowUs. wstep. wstep. apply (fuse_wp NowUs); [exact I|]. intros t. cbn beta iota. apply wpm_ret. cbn beta iota.
  wstep. apply wpm_modify. cbn beta iota. set (s1 := s <| begin_ := _ |> <| previous_ := _ |> <| result_ := _ |>).
  wstep. apply (enable_wp s0); [split; assumption|exact H16|exact H8|reflexivity| |].
  - intros s2 g2 [A1 A2 A3 A4 A5 A6 A7 A8] P2. cbn beta iota. wstep. wstep.
    assert (Hend : forall s3 g3 n i, 0 <= i <= n -> n <= bytes -> Base n s3 g3 -> Data s0 i s3 g3 -> (prim s3 = ok -> n = bytes /\ i = bytes) -> Over s0 s3 g3).
    { intros s3 g3 n i Hi Hn (B1 & B2 & B3 & B4) D P. exists (opening b), [], n, i. split; [exact B3|]. split; [exact B1|]. split; [exact B2|]. split; [rewrite app_nil_r; reflexivity|].
      split; [reflexivity|]. split; [lia|]. split; [lia|]. split; [exact B4|]. split; [exact D|]. intros H. split; [reflexivity|auto]. }
    apply (wpm_for_loop _ (fun i s g => prim s = ok /\ Base i s g /\ Data s0 i s g)); [lia| | |].
    + split; [exact P2|]. split.
      * split; [exact A3|]. split; [exact A4|]. split; [split; assumption|]. unfold commands. cbn [seq map]. rewrite app_nil_r. exact A8.
      * split; [rewrite A7; reflexivity|]. split; [exact A2|]. rewrite A7, blit_nothing. exact A1.
    + intros j s3 g3 Hj (P3 & B3 & D3). apply (readByte_wp s0 j); [exact Hj|exact P3|exact B3|exact D3|auto|].
      intros s4 g4 (P4 & n & i & Hi & Hn & B4 & D4). cbn beta iota. apply wpm_ret. cbn beta iota. apply (finish_over s0); [|exact HQ]. apply (Hend s4 g4 n i); try assumption. intros; contradiction.
    + intros s3 g3 (P3 & B3 & D3). cbn beta iota. apply wpm_ret. cbn beta iota. apply (finish_over s0); [|exact HQ]. apply (Hend s3 g3 bytes bytes); try assumption; [lia|lia|auto].
  - intros s2 g2 (P2 & [H2|(done & rest & E & [A1 A2 A3 A4 A5 A6 A7 A8])]); cbn beta iota; wstep; apply wpm_ret; cbn beta iota.
    + apply (finish_idle s0); assumption.
    + apply (finish_over s0); [|exact HQ]. exists done, rest, 0, 0. split; [split; assumption|]. split; [exact A3|]. split; [exact A4|]. split; [exact E|].
      split; [lia|]. split; [lia|]. split; [lia|]. split; [unfold commands; cbn [seq map]; rewrite app_nil_r; exact A8|].
      split; [|intros; contradiction]. split; [rewrite A7; reflexivity|]. split; [exact A2|]. rewrite A7, blit_nothing. exact A1.
Qed.
End follows.

(** The arguments the source accepts. *)
Definition acceptable (address bytes : Z) (present : bool) (capacity : Z) : Prop :=
  present = true /\ 0 < bytes <= capacity /\ address + bytes <= 0x600 /\ readable address bytes = true.
Lemma readDdv_wp cut address bytes present capacity s g : 0 <= address -> 0 <= bytes -> log g = [] -> got g = [] -> found16 g = None -> found8 g = None ->
  wpm (fuseRules address bytes (cut =? 0)) (readDdv cut address bytes present capacity) s g (fun r s' g' =>
    Finished address bytes (cut =? 0) s r s' g' /\ (~ acceptable address bytes present capacity -> log g' = [] /\ out s' = out s /\ result_ s' = noResult)).
Proof.
  intros Ha Hb Hl Hg H16 H8. unfold readDdv. wstep. apply wpm_modify. cbn beta iota. destruct (_ || _ || _ || _ || _ || _) eqn:Ec.
  - apply wpm_gets. split; [|split; [exact Hl|split; reflexivity]]. split; [reflexivity|]. left. split; [exact Hl|]. split; [reflexivity|]. split; [discriminate|reflexivity].
  - apply orb_false_iff in Ec as [Ec E6%negb_false_iff]. apply orb_false_iff in Ec as [Ec E5%Z.ltb_ge]. apply orb_false_iff in Ec as [Ec E4%Z.leb_gt].
    apply orb_false_iff in Ec as [Ec E3%Z.ltb_ge]. apply orb_false_iff in Ec as [E1%negb_false_iff E2%Z.eqb_neq].
    apply (accepted_wp address bytes (cut =? 0) ltac:(lia) s capacity); try assumption; try reflexivity.
    intros r s' g' H. split; [exact H|]. intros N. exfalso. apply N. split; [exact E1|]. split; [lia|]. split; [lia|exact E6].
Qed.

(** Every call ends, after at most this many calls of the device. *)
Lemma fuse_cost o : mcost (fuse o) 1.
Proof. exact (@mcost_call FuseIo EfuseReader o). Qed.
#[local] Hint Extern 1 (mcost (fuse ?o) _) => exact (fuse_cost o) : cost.
Lemma because_cost e : mcost (because e) 0.
Proof. eapply mcost_le; [unfold because, onResult; mcost|]; lia. Qed.
#[local] Hint Resolve because_cost : cost.
Lemma active_cost : mcost active 2.
Proof. eapply mcost_le; [unfold active, nowUs; mcost|]; lia. Qed.
#[local] Hint Resolve active_cost : cost.
Lemma iso_cost m v : mcost (iso m v) 2.
Proof. eapply mcost_le; [unfold iso, read16, write16; mcost|]; lia. Qed.
Lemma pmc_cost v : mcost (pmc v) 2.
Proof. eapply mcost_le; [unfold pmc, read8, write8; mcost|]; lia. Qed.
Lemma burst_cost v : mcost (burst v) 2.
Proof. eapply mcost_le; [unfold burst, read32, write32; mcost|]; lia. Qed.
#[local] Hint Resolve iso_cost pmc_cost burst_cost : cost.
Lemma restore_cost : mcost restore 14.
Proof. eapply mcost_le; [unfold restore, also, onResult, reread16, reread8, reread32, read16, read8, read32, delayUs; mcost|]; lia. Qed.
Lemma enable_cost : mcost enable 20.
Proof. eapply mcost_le; [unfold enable, powerUp, keepIso, keepPmc, keepBurst, failed, read16, read8, read32, delayUs; mcost|]; lia. Qed.
Lemma fuse_attempt_cost started : mcost (attempt started) 4.
Proof. eapply mcost_le; [unfold attempt, keepLast, failed, read32, onResult, delayUs; mcost|]; lia. Qed.
#[local] Hint Resolve restore_cost enable_cost fuse_attempt_cost : cost.
Lemma mcost_for_nat {R} n i (body : Z -> FR (option R)) k : (forall i, mcost (body i) k) -> mcost (for_nat n i body) (Z.of_nat n * k).
Proof.
  intros Hb. pose proof (mcost_for_loop i (i + Z.of_nat n) body k Hb) as H. unfold for_loop in H.
  replace (i + Z.of_nat n - i) with (Z.of_nat n) in H by lia. rewrite Nat2Z.id, Z.max_r in H by lia. exact H.
Qed.
Lemma attempts_cost started : mcost (for_nat attempts 0 (fun _ => attempt started)) 4000000.
Proof. eapply mcost_le; [apply mcost_for_nat; intros i; apply fuse_attempt_cost|]. unfold attempts. rewrite Z2Nat.id by lia. lia. Qed.
#[local] Hint Resolve attempts_cost : cost.
Lemma readByte_cost a i : mcost (readByte a i) 4000003.
Proof. eapply mcost_le; [unfold readByte, write32, failed, onResult; mcost|]; lia. Qed.
#[local] Hint Resolve readByte_cost : cost.
Lemma finish_cost : mcost finish 14.
Proof. eapply mcost_le; [unfold finish, onResult; mcost|]; lia. Qed.
#[local] Hint Resolve finish_cost : cost.
Lemma readDdv_cost cut address bytes present capacity : 0 <= bytes -> mcost (readDdv cut address bytes present capacity) (35 + 4000003 * bytes).
Proof. intros Hb. eapply mcost_le; [unfold readDdv, nowUs; mcost|]; lia. Qed.

(** ** The contract *)

(** Whatever the device answers, a read of the bank writes only the rail's
    three registers, each time merging its own bits into a reading that is
    still fresh, and the command register, there only an address of the bank
    that was asked for, in order and with the rail open. The rail is only
    touched if it was found quiet. The writes are then a beginning of the
    opening sequence, the commands if all of it was done, and the closing
    sequence, of which only the steps whose register cannot be read are
    missing. Success means that every byte was read, in order and each from an
    answer to its own command, that the whole closing sequence was made and
    that the rail reads back as it was found; after a failure the caller's
    buffer holds no byte of the bank. *)
Theorem read_contract cut address bytes present capacity s tr r s' : 0 <= address -> 0 <= bytes ->
  exec (readDdv cut address bytes present capacity s) tr (r, s') ->
  let g' := after (fuseRules address bytes (cut =? 0)) newRail tr in
  accepts (fuseRules address bytes (cut =? 0)) newRail tr /\
  Finished address bytes (cut =? 0) s r s' g' /\ (~ acceptable address bytes present capacity -> log g' = [] /\ out s' = out s /\ result_ s' = noResult).
Proof.
  intros Ha Hb He g'. exact (wp_sound (fuseRules address bytes (cut =? 0)) _ newRail _ tr _
    (readDdv_wp cut address bytes present capacity s newRail Ha Hb eq_refl eq_refl eq_refl eq_refl) He (relies_trivial (fuseRules address bytes (cut =? 0)) newRail tr (fun _ _ _ => I))).
Qed.
(** It always ends. *)
Theorem read_terminates cut address bytes present capacity s : 0 <= bytes ->
  cost (readDdv cut address bytes present capacity s) (35 + 4000003 * bytes) /\ forall answer : (forall o : Op FuseIo, Ans FuseIo o), exists tr r, exec (readDdv cut address bytes present capacity s) tr r.
Proof. intros Hb. split; [apply readDdv_cost, Hb|]. intros answer. apply (exec_total (readDdv cut address bytes present capacity s) answer). Qed.

(** ** A concrete run: a bank whose byte at address [a] is [3a] *)

Record FuseChip := mkChip { c_iso : Z; c_pmc : Z; c_burst : Z; c_command : Z; c_time : Z }.
Definition chip : handler FuseIo FuseChip := fun d o =>
  match o as o return Ans FuseIo o * FuseChip with
  | Cancelled => (false, d)
  | NowUs => (c_time d, mkChip (c_iso d) (c_pmc d) (c_burst d) (c_command d) (c_time d + 1))
  | DelayUs us => (true, mkChip (c_iso d) (c_pmc d) (c_burst d) (c_command d) (c_time d + us))
  | Read8 _ => ((true, c_pmc d), d)
  | Read16 _ => ((true, c_iso d), d)
  | Read32 a => ((true, if a =? 0x38 then c_burst d else Z.lor 0x20000000 (3 * c_command d)), d)
  | Write8 _ v => (true, mkChip (c_iso d) v (c_burst d) (c_command d) (c_time d))
  | Write16 _ v => (true, mkChip v (c_pmc d) (c_burst d) (c_command d) (c_time d))
  | Write32 a v => (true, if a =? 0x38 then mkChip (c_iso d) (c_pmc d) v (c_command d) (c_time d) else mkChip (c_iso d) (c_pmc d) (c_burst d) (Z.shiftr v 16) (c_time d))
  end.
Definition chipRun := run_trace chip (readDdv 0 0x580 3 true 4 (newReader [9; 9; 9; 9])) (mkChip 0x1123 0x10 0x40 0 0).
Example chip_read : (out (snd (fst (fst chipRun))), status (result_ (snd (fst (fst chipRun)))), snd (fst chipRun)) =
  ([0x80; 0x83; 0x86; 9], ok, mkChip 0x1123 0x10 0x40 0x582 (c_time (snd (fst chipRun)))).
Proof. vm_compute. reflexivity. Qed.
Lemma read_contract_witness : 0 <= 0x580 /\ 0 <= 3 /\
  let g' := after (fuseRules 0x580 3 true) newRail (snd chipRun) in
  accepts (fuseRules 0x580 3 true) newRail (snd chipRun) /\
  Finished 0x580 3 true (newReader [9; 9; 9; 9]) (fst (fst (fst chipRun))) (snd (fst (fst chipRun))) g' /\
  (~ acceptable 0x580 3 true 4 -> log g' = [] /\ out (snd (fst (fst chipRun))) = [9; 9; 9; 9] /\ result_ (snd (fst (fst chipRun))) = noResult).
Proof.
  split; [lia|]. split; [lia|]. apply (read_contract 0 0x580 3 true 4 (newReader [9; 9; 9; 9])); [lia|lia|]. rewrite <- surjective_pairing. apply run_trace_exec.
Defined.
