(* ===== verification/DavEfuseReader.v ===== *)
(** * The reader of the small eFuse bank (src/network/DavEfuseReader.hpp)

    [DavEfuseReader] reads the second bank through a serial port behind one
    register: every access is a command, whose completion is polled. *)

From S2P Require Import Prelude Prog EfuseCalibration.

(** ** The device *)

(** A read answers whether it succeeded, and the value. *)
Inductive davOp := Cancelled | NowUs | DelayUs (us : Z) | Read8 (a : Z) | Read32 (a : Z) | Write32 (a v : Z).
Definition davAns (o : davOp) : Type :=
  match o with NowUs => Z | Read8 _ | Read32 _ => bool * Z | _ => bool end.
Definition DavIo : sig := Sig davOp davAns.

(** ** The object *)

Inductive DavStatus := ok | invalid | busy | ioError | timeout | clockError | cancelled | cleanupFailed | requiresReset | decodeFailed.
#[export] Instance DavStatus_eq : EqDecision DavStatus. Proof. solve_decision. Defined.
Record DavResult := mkResult {
  status : DavStatus; primary : DavStatus; decode : EfuseStatus; bytesRead : Z; validBytes : Z; commands : Z; polls : Z;
  cleanupAttempted : bool; busIdle : bool; readEngineIdle : bool; needsReset : bool; logicalValid : bool
}.
#[export] Instance DavResult_rebuild : Rebuild DavResult := fun r =>
  mkResult (status r) (primary r) (decode r) (bytesRead r) (validBytes r) (commands r) (polls r) (cleanupAttempted r) (busIdle r) (readEngineIdle r) (needsReset r) (logicalValid r).
Definition noResult : DavResult := mkResult invalid invalid EfuseCalibration.invalid 0 0 0 0 false false false false false.
(** The members, and the caller's two buffers. *)
Record DavEfuseReader := mkReader {
  result_ : DavResult; start_ : Z; previous_ : Z; davStarted_ : Z; cleanupStarted_ : Z; cleanupPrevious_ : Z; steps_ : Z; cleanupSteps_ : Z; cleanupDelay_ : Z;
  pending_ : bool; touched_ : bool; poisoned_ : bool; davPolling_ : bool; out : buf; logical_ : buf
}.
#[export] Instance DavEfuseReader_rebuild : Rebuild DavEfuseReader := fun s =>
  mkReader (result_ s) (start_ s) (previous_ s) (davStarted_ s) (cleanupStarted_ s) (cleanupPrevious_ s) (steps_ s) (cleanupSteps_ s) (cleanupDelay_ s)
    (pending_ s) (touched_ s) (poisoned_ s) (davPolling_ s) (out s) (logical_ s).
Definition newReader (out logical : buf) : DavEfuseReader := mkReader noResult 0 0 0 0 0 0 0 0 false false false false out logical.
Definition DR (A : Type) : Type := M DavIo DavEfuseReader A.
Definition dav (o : davOp) : DR (davAns o) := call (Σ:=DavIo) o.
Definition onResult (f : DavResult -> DavResult) : DR unit := modify (fun s => s <| result_ := f (result_ s) |>).
Definition isOk (e : DavStatus) : bool := bool_decide (e = ok).

(** The commands the port takes: a register, a value and a mask; bit 24 reads. *)
Definition davCommandAllowed (command : Z) : bool :=
  if negb (Z.land command 0xfe000000 =? 0x80000000) then false else
  let reg := u8 command in let data := u8 (Z.shiftr command 8) in let mask := u8 (Z.shiftr command 16) in
  if flag command 0x01000000 then (data =? 0) && (mask =? 0) && ((reg =? 0x63) || (reg =? 0x7a)) else
  if reg =? 0x62 then (mask =? 0xff) && (data <? 96) else
  (reg =? 0x63) && (((mask =? 0xff) && (data =? 0x40)) || ((mask =? 7) && (data =? 0)) || ((mask =? 0xc0) && (data =? 0))).

(** ** Waiting *)

Definition port : Z := 0x270.
Definition pollBit : Z := 0x80000000.
Definition nowUs : DR Z := t ← dav NowUs; mret (u64 t).
Definition fail (e : DavStatus) : DR bool := onResult (fun r => if isOk (primary r) then r <| primary := e |> else r);; mret false.
(** [return cleanup ? false : fail(e)] *)
Definition lost (cleaning : bool) (e : DavStatus) : DR bool := if cleaning then mret false else fail e.
Definition cleanActive : DR bool :=
  now ← nowUs; s ← get;
  if now <? cleanupPrevious_ s then mret false else
  modify (fun s => s <| cleanupPrevious_ := now |>);;
  mret (u64 (now - cleanupStarted_ s) <? 100000).
Definition cleanDelay (us : Z) : DR bool :=
  a ← cleanActive; s ← get;
  if negb a || (u32 (100000 - cleanupDelay_ s) <? us) then mret false else
  modify (fun s => s <| cleanupDelay_ := u32 (cleanupDelay_ s + us) |>);;
  dav (DelayUs us) &&> cleanActive.
Definition active : DR bool :=
  c ← dav Cancelled;
  if (c : bool) then fail cancelled else
  now ← nowUs; s ← get;
  if now <? previous_ s then fail clockError else
  modify (fun s => s <| previous_ := now |>);;
  if 5000000 <=? u64 (now - start_ s) then fail timeout else
  if davPolling_ s && (10000 <=? u64 (now - davStarted_ s)) then fail timeout else
  modify (fun s => s <| steps_ := u32 (steps_ s + 1) |>);;
  s ← get;
  if 200000 <? steps_ s then fail timeout else mret true.
Definition siActive (cleaning : bool) (started : Z) : DR bool :=
  if cleaning then a ← cleanActive; s ← get; mret (a && (u64 (cleanupPrevious_ s - started) <? 50000))
  else
    a ← active;
    if negb a then mret false else
    s ← get; if u64 (previous_ s - started) <? 50000 then mret true else fail timeout.
(** One turn of [idle]: [Some] leaves the loop with its result. *)
Definition idleTurn (cleaning : bool) (started i : Z) : DR (option bool) :=
  a ← siActive cleaning started;
  if negb a then mret (Some false) else
  when cleaning (modify (fun s => s <| cleanupSteps_ := u32 (cleanupSteps_ s + 1) |>));;
  s ← get;
  if cleaning && (20000 <? cleanupSteps_ s) then mret (Some false) else
  x ← dav (Read32 port);
  let value := u32 (snd (x : bool * Z)) in
  if negb (fst (x : bool * Z)) || (value =? 0xffffffff) then r ← lost cleaning ioError; mret (Some r) else
  onResult (fun r => r <| polls := u32 (polls r + 1) |>);;
  a ← siActive cleaning started;
  if negb a then mret (Some false) else
  if negb (flag value pollBit) then modify (fun s => s <| pending_ := false |>);; mret (Some true) else
  if i =? 1000 then mret None else
  d ← (if cleaning then cleanDelay 50 else dav (DelayUs 50));
  if negb d then r ← lost cleaning ioError; mret (Some r) else mret None.
Definition idle (cleaning : bool) (started : Z) : DR bool :=
  r ← for_loop 0 1001 (idleTurn cleaning started);
  match r with Some x => mret x | None => lost cleaning timeout end.

(** ** Commands *)

(** [data]: the value is read back. *)
Definition transact (command : Z) (data : bool) (cleaning : bool) : DR (option Z) :=
  if negb (davCommandAllowed command) then _ ← lost cleaning invalid; mret None else
  a ← (if cleaning then cleanActive else active);
  if negb a then mret None else
  s ← get;
  k ← (if pending_ s then idle cleaning (if cleaning then cleanupPrevious_ s else previous_ s) else mret true);
  if negb k then mret None else
  s ← get;
  let started := if cleaning then cleanupPrevious_ s else previous_ s in
  modify (fun s => s <| touched_ := true |> <| pending_ := true |>);;
  onResult (fun r => r <| commands := u32 (commands r + 1) |>);;
  w ← dav (Write32 port command);
  if negb w then _ ← lost cleaning ioError; mret None else
  k ← idle cleaning started;
  if negb k then mret None else
  x ← (if data then dav (Read8 (port + 1)) else mret (true, 0));
  if negb (fst (x : bool * Z)) then _ ← lost cleaning ioError; mret None else
  a ← siActive cleaning started;
  mret (if a : bool then Some (u8 (snd (x : bool * Z))) else None).
Definition davWrite (reg value mask : Z) : Z := Z.lor (Z.lor (Z.lor pollBit (Z.shiftl mask 16)) (Z.shiftl value 8)) reg.
Definition davRead (reg : Z) : Z := Z.lor (Z.lor pollBit 0x01000000) reg.
Definition write (reg value mask : Z) : DR bool := r ← transact (davWrite reg value mask) false false; mret (match r with Some _ => true | None => false end).
Definition read (reg : Z) (cleaning : bool) : DR (option Z) := transact (davRead reg) true cleaning.
Definition settled (control : Z) : bool := (Z.land control 0xc0 =? 0x40) || flag control 0x20.
Definition drainTurn (i : Z) : DR (option bool) :=
  c ← read 0x63 true;
  match c with
  | None => modify (fun s => s <| result_ := (result_ s) <| busIdle := negb (pending_ s) |> |>);; mret (Some false)
  | Some control =>
      if settled control then onResult (fun r => r <| readEngineIdle := true |>);; mret (Some true) else
      if i =? 10000 then mret (Some false) else
      d ← cleanDelay 1; mret (if d : bool then None else Some false)
  end.
Definition cleanup : DR bool :=
  onResult (fun r => r <| cleanupAttempted := true |>);;
  modify (fun s => s <| cleanupSteps_ := 0 |> <| cleanupDelay_ := 0 |>);;
  t ← nowUs;
  modify (fun s => s <| cleanupStarted_ := t |> <| cleanupPrevious_ := t |>);;
  k ← idle true t;
  if negb k then mret false else
  onResult (fun r => r <| busIdle := true |>);;
  r ← for_loop 0 10001 drainTurn;
  mret (match r with Some x => x | None => false end).

(** ** Reading the bank *)

(** A turn of the wait for a byte: [Some ready] leaves the loop. *)
Definition attempt (i : Z) : DR (option bool) :=
  c ← read 0x63 false;
  match c with
  | None => mret (Some false)
  | Some control =>
      if flag control 0x20 then mret (Some true) else
      if i =? 10000 then _ ← fail timeout; mret (Some false) else
      d ← dav (DelayUs 1);
      if negb d then _ ← fail ioError; mret (Some false) else mret None
  end.
(** The value of a byte that is ready. *)
Definition fetch (i : Z) : DR (option unit) :=
  v ← read 0x7a false;
  match v with
  | None => mret (Some tt)
  | Some value => modify (fun s => s <| out := blit (out s) i [value] |>);; onResult (fun r => r <| bytesRead := bytesRead r + 1 |>);; mret None
  end.
Definition readByte (address i : Z) : DR (option unit) :=
  k ← write 0x63 0x40 0xff &&> write 0x62 (u8 (address + i)) 0xff &&> write 0x63 0 7 &&> write 0x63 0 0xc0;
  if negb k then mret (Some tt) else
  modify (fun s => s <| davStarted_ := previous_ s |> <| davPolling_ := true |>);;
  ready ← for_loop 0 10001 attempt;
  modify (fun s => s <| davPolling_ := false |>);;
  match ready with Some true => fetch i | _ => mret (Some tt) end.
Definition finish : DR DavResult :=
  onResult (fun r => r <| status := primary r |>);;
  s ← get;
  k ← (if touched_ s then cleanup else mret true);
  unless k (modify (fun s => s <| result_ := (result_ s) <| status := cleanupFailed |> <| needsReset := true |> |> <| poisoned_ := true |>));;
  s ← get;
  (if isOk (status (result_ s)) then onResult (fun r => r <| validBytes := bytesRead r |>)
   else modify (fun s => s <| out := blit (out s) 0 (replicate (Z.to_nat (bytesRead (result_ s))) 0) |>));;
  gets result_.
(** The port must be free before the first command. *)
Definition firstLook : DR unit :=
  a ← active;
  if negb a then mret tt else
  x ← dav (Read32 port);
  let initial := u32 (snd (x : bool * Z)) in
  if negb (fst (x : bool * Z)) || (initial =? 0xffffffff) then _ ← fail ioError; mret tt else
  if flag initial pollBit then _ ← fail busy; mret tt else mret tt.
Definition readPhysical (address bytes : Z) (present : bool) (capacity : Z) : DR DavResult :=
  modify (fun s => s <| result_ := noResult |> <| pending_ := false |> <| touched_ := false |> <| davPolling_ := false |> <| steps_ := 0 |>);;
  s ← get;
  if poisoned_ s then onResult (fun r => r <| status := requiresReset |> <| primary := requiresReset |> <| needsReset := true |>);; gets result_ else
  if negb present || (bytes =? 0) || (capacity <? bytes) || (96 <=? address) || (96 - address <? bytes) then gets result_ else
  t ← nowUs;
  modify (fun s => s <| result_ := (result_ s) <| primary := ok |> |> <| start_ := t |> <| previous_ := t |>);;
  firstLook;;
  s ← get;
  (if isOk (primary (result_ s)) then _ ← for_loop 0 bytes (readByte address); mret tt else mret tt);;
  finish.
(** [in_] and [out_] are the addresses of the buffers, 0 for none. *)
Definition readLogical (in_ physicalCapacity out_ logicalCapacity : Z) : DR DavResult :=
  if (in_ =? 0) || (physicalCapacity <? 96) || (out_ =? 0) || (logicalCapacity <? 16) then mret noResult else
  if (if in_ <=? out_ then out_ - in_ <? 96 else in_ - out_ <? 16) then mret noResult else
  r ← readPhysical 0 96 true physicalCapacity;
  if negb (isOk (status r)) then mret r else
  s ← get;
  match decodeEfuse in_ (out s) 96 out_ (logical_ s) 16 4 with
  | MVal (e, l) =>
      modify (fun s => s <| logical_ := l |>);;
      let r := r <| decode := e |> <| logicalValid := bool_decide (e = EfuseCalibration.ok) |> in
      mret (if bool_decide (e = EfuseCalibration.ok) then r else r <| status := decodeFailed |> <| primary := decodeFailed |>)
  | _ => brk
  end.

(** ** The bus *)

(** [free], the port was seen idle since the last command; [command], that
    command; [byte] and [step], the place in the reading of a byte; [got], the
    bytes read; [control], the last control byte; [sent], the number of
    commands. *)
Record Bus := mkBus { free : bool; command_ : Z; byte : Z; step : Z; got : list Z; control_ : option Z; sent : Z }.
#[export] Instance Bus_rebuild : Rebuild Bus := fun g => mkBus (free g) (command_ g) (byte g) (step g) (got g) (control_ g) (sent g).
Definition newBus : Bus := mkBus false 0 0 0 [] None 0.
(** The commands of a byte, in order; the last two steps read. *)
Definition byteCommands (address i : Z) : list Z :=
  [davWrite 0x63 0x40 0xff; davWrite 0x62 (u8 (address + i)) 0xff; davWrite 0x63 0 7; davWrite 0x63 0 0xc0; davRead 0x63; davRead 0x7a].
Definition expected (address : Z) (g : Bus) : Z := nth (Z.to_nat (step g)) (byteCommands address (byte g)) 0.
Definition busNext (address : Z) (g : Bus) (o : davOp) : davAns o -> Bus :=
  match o with
  | Read32 a => fun x => if fst x && negb (u32 (snd x) =? 0xffffffff) && negb (flag (u32 (snd x)) pollBit) then g <| free := true |> else g
  | Write32 a v => fun _ =>
      g <| free := false |> <| command_ := v |> <| sent := sent g + 1 |> <| step := if (v =? expected address g) && (step g <? 4) then step g + 1 else step g |>
  | Read8 a => fun x =>
      let v := u8 (snd x) in
      if negb (fst x) then g else
      if command_ g =? davRead 0x63 then g <| control_ := Some v |> <| step := if (step g =? 4) && flag v 0x20 then 5 else step g |>
      else g <| got := got g ++ [v] |> <| byte := byte g + 1 |> <| step := 0 |>
  | _ => fun _ => g
  end.
(** Only the port is accessed; a command is only given when the port was seen
    idle since the last, and is the next of the byte or a reading of the
    control byte; the value of a reading is only taken once it is complete. *)
Definition busMay (address bytes : Z) (g : Bus) (o : davOp) : Prop :=
  match o with
  | Read32 a => a = port
  | Write32 a v => a = port /\ free g = true /\ davCommandAllowed v = true /\ ((v = expected address g /\ byte g < bytes) \/ v = davRead 0x63)
  | Read8 a => a = port + 1 /\ free g = true /\ (command_ g = davRead 0x63 \/ command_ g = davRead 0x7a)
  | _ => True
  end.
Definition busRules (address bytes : Z) : protocol DavIo Bus := Protocol (Σ:=DavIo) (busMay address bytes) (fun _ _ _ => True) (busNext address).

(** ** The operation follows them *)

Section follows.
Context (address bytes : Z).
Hypothesis in_bank : 0 <= address /\ 0 <= bytes /\ address + bytes <= 96.
Let rules : protocol DavIo Bus := busRules address bytes.

Lemma dav_wp o s g (Q : option (davAns o) -> DavEfuseReader -> Bus -> Prop) :
  busMay address bytes g o -> (forall x, Q (Some x) s (busNext address g o x)) -> wpm rules (dav o) s g Q.
Proof. intros H HQ. apply (wpm_call rules o); [exact H|]. intros x _. apply HQ. Qed.
Lemma bus_if {A} (c : bool) (m1 m2 : DR A) s g (Q : option A -> DavEfuseReader -> Bus -> Prop) :
  (c = true -> wpm rules m1 s g Q) -> (c = false -> wpm rules m2 s g Q) -> wpm rules (if c then m1 else m2) s g Q.
Proof. destruct c; auto. Qed.

(** What the waits leave alone, and what a wait leaves of the other members; the primary status only goes
    from [ok] to a failure. *)
Definition port_ (s : DavEfuseReader) : bool * bool := (pending_ s, touched_ s).
Definition prim (s : DavEfuseReader) : DavStatus := primary (result_ s).
Record same (s s' : DavEfuseReader) : Prop := {
  sm_poisoned : poisoned_ s' = poisoned_ s; sm_out : out s' = out s; sm_logical : logical_ s' = logical_ s;
  sm_read : bytesRead (result_ s') = bytesRead (result_ s); sm_valid : validBytes (result_ s') = validBytes (result_ s);
  sm_idle : busIdle (result_ s') = busIdle (result_ s); sm_engine : readEngineIdle (result_ s') = readEngineIdle (result_ s);
  sm_reset : needsReset (result_ s') = needsReset (result_ s); sm_status : status (result_ s') = status (result_ s) }.
Lemma dav_same_refl s : same s s. Proof. split; reflexivity. Qed.
Lemma dav_same_trans s1 s2 s3 : same s1 s2 -> same s2 s3 -> same s1 s3.
Proof. intros [] []. split; congruence. Qed.
#[local] Hint Resolve dav_same_refl : core.
(** The outcome of a wait: a cleaning one leaves the primary status, another
    fails with a reason. *)
Definition Quiet (cleaning : bool) (s s' : DavEfuseReader) (k : bool) : Prop :=
  same s s' /\ (if cleaning || k then prim s' = prim s else prim s = ok -> prim s' <> ok).
Lemma quiet_trans c s1 s2 s3 k : Quiet c s1 s2 true -> Quiet c s2 s3 k -> Quiet c s1 s3 k.
Proof. intros [S1 P1] [S2 P2]. split; [eapply dav_same_trans; eassumption|]. rewrite orb_true_r in P1. destruct (c || k); [congruence|rewrite <- P1; exact P2]. Qed.
Lemma dav_fail_wp e s g (Q : option bool -> DavEfuseReader -> Bus -> Prop) : e <> ok ->
  (forall s', port_ s' = port_ s -> Quiet false s s' false -> Q (Some false) s' g) -> wpm rules (fail e) s g Q.
Proof.
  intros He HQ. unfold fail, onResult. wstep. apply wpm_modify. cbn beta iota. apply wpm_ret, HQ; [reflexivity|]. unfold isOk.
  destruct (bool_decide_reflect (primary (result_ s) = ok)) as [E|E].
  - split; [split; reflexivity|]. intros _. exact He.
  - split; [split; reflexivity|]. intros H. unfold prim in H. contradiction.
Qed.
Lemma lost_wp c e s g (Q : option bool -> DavEfuseReader -> Bus -> Prop) : e <> ok ->
  (forall s', port_ s' = port_ s -> Quiet c s s' false -> Q (Some false) s' g) -> wpm rules (lost c e) s g Q.
Proof. intros He HQ. unfold lost. destruct c; [apply wpm_ret, HQ; [reflexivity|split; [auto|reflexivity]]|apply dav_fail_wp; [exact He|exact HQ]]. Qed.
Lemma dav_nowUs_wp s g (Q : option Z -> DavEfuseReader -> Bus -> Prop) : (forall t, Q (Some t) s g) -> wpm rules nowUs s g Q.
Proof. intros HQ. unfold nowUs. wstep. apply (dav_wp NowUs); [exact I|]. intros t. cbn beta iota. apply wpm_ret, HQ. Qed.
Lemma cleanActive_wp s g (Q : option bool -> DavEfuseReader -> Bus -> Prop) :
  (forall k s', port_ s' = port_ s -> Quiet true s s' k -> Q (Some k) s' g) -> wpm rules cleanActive s g Q.
Proof.
  intros HQ. unfold cleanActive. wstep. apply dav_nowUs_wp. intros t. cbn beta iota. wstep. apply wpm_get. cbn beta iota.
  destruct (_ <? _); [apply wpm_ret, HQ; [reflexivity|split; [auto|reflexivity]]|]. wstep. apply wpm_modify. cbn beta iota. apply wpm_ret, HQ; [reflexivity|split; [split; reflexivity|reflexivity]].
Qed.
Lemma dav_active_wp s g (Q : option bool -> DavEfuseReader -> Bus -> Prop) :
  (forall k s', port_ s' = port_ s -> Quiet false s s' k -> Q (Some k) s' g) -> wpm rules active s g Q.
Proof.
  intros HQ. unfold active. assert (Hf : forall s1 e, e <> ok -> port_ s1 = port_ s -> Quiet false s s1 true -> wpm rules (fail e) s1 g Q).
  { intros s1 e He E1 H1. apply dav_fail_wp; [exact He|]. intros s2 E2 H2. apply HQ; [congruence|]. eapply quiet_trans; eassumption. }
  assert (Q0 : Quiet false s s true) by (split; [auto|reflexivity]).
  wstep. apply (dav_wp Cancelled); [exact I|]. intros [|]; cbn beta iota; [apply Hf; [discriminate|reflexivity|exact Q0]|].
  wstep. apply dav_nowUs_wp. intros t. cbn beta iota. wstep. apply wpm_get. cbn beta iota. destruct (_ <? _); [apply Hf; [discriminate|reflexivity|exact Q0]|].
  wstep. apply wpm_modify. cbn beta iota. destruct (_ <=? _); [apply Hf; [discriminate|reflexivity|split; [split; reflexivity|reflexivity]]|].
  destruct (_ && _); [apply Hf; [discriminate|reflexivity|split; [split; reflexivity|reflexivity]]|].
  wstep. apply wpm_modify. cbn beta iota. wstep. apply wpm_get. cbn beta iota.
  destruct (_ <? _); [apply Hf; [discriminate|reflexivity|split; [split; reflexivity|reflexivity]]|].
  apply wpm_ret, HQ; [reflexivity|]. split; [split; reflexivity|reflexivity].
Qed.
Lemma siActive_wp c started s g (Q : option bool -> DavEfuseReader -> Bus -> Prop) :
  (forall k s', port_ s' = port_ s -> Quiet c s s' k -> Q (Some k) s' g) -> wpm rules (siActive c started) s g Q.
Proof.
  intros HQ. unfold siActive. destruct c.
  - wstep. apply cleanActive_wp. intros k s1 E1 H1. cbn beta iota. wstep. apply wpm_get. cbn beta iota. apply wpm_ret, HQ; [exact E1|]. destruct H1 as [S1 P1]. split; [exact S1|exact P1].
  - wstep. apply dav_active_wp. intros k s1 E1 H1. cbn beta iota. destruct k; cbn [negb]; [|apply wpm_ret, HQ; assumption].
    wstep. apply wpm_get. cbn beta iota. destruct (_ <? _); [apply wpm_ret, HQ; assumption|]. apply dav_fail_wp; [discriminate|]. intros s2 E2 H2. apply HQ; [congruence|]. eapply quiet_trans; eassumption.
Qed.
Lemma cleanDelay_wp us s g (Q : option bool -> DavEfuseReader -> Bus -> Prop) :
  (forall k s', port_ s' = port_ s -> Quiet true s s' k -> Q (Some k) s' g) -> wpm rules (cleanDelay us) s g Q.
Proof.
  intros HQ. unfold cleanDelay. wstep. apply cleanActive_wp. intros k s1 E1 H1. cbn beta iota. wstep. apply wpm_get. cbn beta iota.
  destruct (_ || _); [apply wpm_ret, HQ; [exact E1|]; destruct H1; split; assumption|]. wstep. apply wpm_modify. cbn beta iota.
  destruct H1 as [S1 P1]. set (s2 := s1 <| cleanupDelay_ := _ |>). assert (H2 : Quiet true s s2 true) by (split; [eapply dav_same_trans; [exact S1|split; reflexivity]|exact P1]).
  wstep. apply (dav_wp (DelayUs us)); [exact I|]. intros [|]; cbn beta iota; [|apply HQ; [exact E1|]; destruct H2; split; assumption].
  apply cleanActive_wp. intros k3 s3 E3 H3. apply HQ; [rewrite E3; exact E1|]. eapply quiet_trans; eassumption.
Qed.

(** *** The port *)

Definition eased (g g' : Bus) : Prop := g' = g \/ g' = g <| free := true |>.
(** A command that is not pending has completed. *)
Definition Ties (s : DavEfuseReader) (g : Bus) : Prop := pending_ s = false -> free g = true.
Lemma ties_port s s' g : Ties s g -> port_ s' = port_ s -> Ties s' g.
Proof. unfold Ties. intros H [= -> _]. exact H. Qed.
Lemma ties_eased s g g' : Ties s g -> eased g g' -> Ties s g'.
Proof. intros H [-> | ->]; [exact H|intros _; reflexivity]. Qed.
Lemma idle_wp c started s g (Q : option bool -> DavEfuseReader -> Bus -> Prop) :
  (forall s', pending_ s' = false -> touched_ s' = touched_ s -> Quiet c s s' true -> Q (Some true) s' (g <| free := true |>)) ->
  (forall s' g', eased g g' -> port_ s' = port_ s -> Quiet c s s' false -> Q (Some false) s' g') -> wpm rules (idle c started) s g Q.
Proof.
  intros HT HF. unfold idle. wstep.
  apply (wpm_for_loop _ (fun _ s1 g1 => eased g g1 /\ port_ s1 = port_ s /\ Quiet c s s1 true)); [lia|split; [left; reflexivity|split; [reflexivity|split; [auto|rewrite orb_true_r; reflexivity]]]| |].
  2: { intros s1 g1 (G1 & E1 & H1). cbn beta iota. apply lost_wp; [discriminate|]. intros s2 E2 H2. apply HF; [exact G1|congruence|eapply quiet_trans; eassumption]. }
  intros i s1 g1 _ (G1 & E1 & H1). unfold idleTurn.
  wstep. apply siActive_wp. intros k2 s2 E2 H2. cbn beta iota. pose proof (quiet_trans _ _ _ _ _ H1 H2) as H12. assert (E12 : port_ s2 = port_ s) by congruence.
  destruct k2; cbn [negb]; [|apply wpm_ret; cbn beta iota; apply wpm_ret, HF; assumption].
  assert (Hstep : forall Q', (forall s3, port_ s3 = port_ s -> Quiet c s s3 true -> Q' (Some tt) s3 g1) -> wpm rules (when c (modify (fun s => s <| cleanupSteps_ := u32 (cleanupSteps_ s + 1) |>))) s2 g1 Q').
  { intros Q' HQ'. unfold when. destruct c; [apply wpm_modify|apply wpm_ret]; apply HQ'; try assumption. destruct H12 as [S P]. split; [eapply dav_same_trans; [exact S|split; reflexivity]|exact P]. }
  wstep. apply Hstep. clear Hstep H12 E12 H2 E2. intros s3 E3 H3. cbn beta iota. wstep. apply wpm_get. cbn beta iota.
  destruct (c && _) eqn:Ec; [apply wpm_ret; cbn beta iota; apply wpm_ret, HF; try assumption|].
  { destruct H3 as [S3 P3]. apply andb_true_iff in Ec as [-> _]. split; [exact S3|exact P3]. }
  wstep. apply (dav_wp (Read32 port)); [reflexivity|]. intros [x v]. cbn beta iota. cbn [fst snd busNext].
  destruct (negb x || (u32 v =? 0xffffffff)) eqn:Eg.
  { wstep. apply lost_wp; [discriminate|]. intros s4 E4 H4. cbn beta iota. apply wpm_ret. cbn beta iota. apply wpm_ret, HF; [|congruence|eapply quiet_trans; eassumption].
    apply orb_true_iff in Eg as [Ex|Ev]; [destruct x; [discriminate|exact G1]|rewrite Ev, andb_false_r; exact G1]. }
  apply orb_false_iff in Eg as [Ex%negb_false_iff Ev]. rewrite Ex, Ev. cbn [andb negb].
  set (g4 := if negb (flag (u32 v) pollBit) then _ else g1). assert (G4 : eased g g4) by (unfold g4; destruct (negb _); [right; destruct G1 as [-> | ->]; reflexivity|exact G1]).
  unfold onResult. wstep. apply wpm_modify. cbn beta iota. set (s4 := s3 <| result_ := _ |>).
  assert (E4 : port_ s4 = port_ s) by exact E3. assert (H4 : Quiet c s s4 true) by (destruct H3 as [S3 P3]; split; [eapply dav_same_trans; [exact S3|split; reflexivity]|exact P3]). clearbody s4.
  wstep. apply siActive_wp. intros k5 s5 E5 H5. cbn beta iota. pose proof (quiet_trans _ _ _ _ _ H4 H5) as H45. assert (E45 : port_ s5 = port_ s) by congruence.
  destruct k5; cbn [negb]; [|apply wpm_ret; cbn beta iota; apply wpm_ret, HF; assumption].
  destruct (flag (u32 v) pollBit) eqn:Ep; cbn [negb] in *.
  - destruct (i =? 1000); [apply wpm_ret; auto|]. wstep.
    assert (Hd : forall Q', (forall k s6, port_ s6 = port_ s -> Quiet c s s6 true -> Q' (Some k) s6 g4) -> wpm rules (if c then cleanDelay 50 else dav (DelayUs 50)) s5 g4 Q').
    { intros Q' HQ'. destruct c; [apply cleanDelay_wp|apply (dav_wp (DelayUs 50)); [exact I|intros k; apply HQ'; assumption]].
      intros k s6 E6 H6. apply HQ'; [congruence|]. destruct (quiet_trans true _ _ _ k H45 H6) as [S P]. split; [exact S|exact P]. }
    apply Hd. intros k6 s6 E6 H6. cbn beta iota. destruct k6; cbn [negb]; [apply wpm_ret; auto|].
    wstep. apply lost_wp; [discriminate|]. intros s7 E7 H7. cbn beta iota. apply wpm_ret. cbn beta iota. apply wpm_ret, HF; [exact G4|congruence|eapply quiet_trans; eassumption].
  - wstep. apply wpm_modify. cbn beta iota. apply wpm_ret. cbn beta iota. apply wpm_ret. replace g4 with (g <| free := true |>) by (unfold g4; destruct G1 as [-> | ->]; reflexivity).
    apply HT; [reflexivity|injection E45 as _ E; exact E|]. destruct H45 as [S P]. split; [eapply dav_same_trans; [exact S|split; reflexivity]|exact P].
Qed.

(** *** A command *)

Definition wrote (g : Bus) (command : Z) : Bus := busNext address g (Write32 port command) true.
Definition took (g : Bus) (v : Z) : Bus := busNext address g (Read8 (port + 1)) (true, v).
(** The bus once a command went out and was seen complete. *)
Definition served (g : Bus) (command : Z) : Bus := (wrote g command) <| free := true |>.
Definition cut_short (g : Bus) (command : Z) (data : bool) (g' : Bus) : Prop :=
  eased (wrote g command) g' \/ (data = true /\ exists v, g' = took (served g command) v).
Lemma transact_wp command data c s g (Q : option (option Z) -> DavEfuseReader -> Bus -> Prop) : Ties s g ->
  (data = true -> command = davRead 0x63 \/ command = davRead 0x7a) ->
  (davCommandAllowed command = true -> (command = expected address g /\ byte g < bytes) \/ command = davRead 0x63) ->
  (forall s' g', eased g g' -> Ties s' g' -> touched_ s' = touched_ s -> Quiet c s s' false -> Q (Some None) s' g') ->
  (forall s' g', cut_short g command data g' -> Ties s' g' -> touched_ s' = true -> Quiet c s s' false -> Q (Some None) s' g') ->
  (forall v s', pending_ s' = false -> touched_ s' = true -> Quiet c s s' true -> Q (Some (Some (u8 v))) s' (if data then took (served g command) v else served g command)) ->
  wpm rules (transact command data c) s g Q.
Proof.
  intros T Hd Ha HN HF HT. unfold transact. assert (Q0 : Quiet c s s true) by (split; [auto|rewrite orb_true_r; reflexivity]).
  destruct (davCommandAllowed command) eqn:Eal; cbn [negb].
  2: { wstep. apply lost_wp; [discriminate|]. intros s1 E1 H1. cbn beta iota. apply wpm_ret, HN; [left; reflexivity|eapply ties_port; eassumption|injection E1 as _ E; exact E|exact H1]. }
  specialize (Ha eq_refl). wstep.
  assert (H : forall Q', (forall k s1, port_ s1 = port_ s -> Quiet c s s1 k -> Q' (Some k) s1 g) -> wpm rules (if c then cleanActive else active) s g Q').
  { intros Q' HQ'. destruct c; [apply cleanActive_wp|apply dav_active_wp]; exact HQ'. }
  apply H. clear H. intros k1 s1 E1 H1. cbn beta iota. destruct k1; cbn [negb].
  2: { apply wpm_ret, HN; [left; reflexivity|eapply ties_port; eassumption|injection E1 as _ E; exact E|exact H1]. }
  wstep. apply wpm_get. cbn beta iota. wstep.
  assert (H : forall Q', (forall k s2 g2, eased g g2 -> Ties s2 g2 -> (k = true -> free g2 = true) -> touched_ s2 = touched_ s -> Quiet c s s2 k -> Q' (Some k) s2 g2) ->
    wpm rules (if pending_ s1 then idle c (if c then cleanupPrevious_ s1 else previous_ s1) else mret true) s1 g Q').
  { intros Q' HQ'. apply bus_if; intros Ep.
    - apply idle_wp.
      + intros s2 E2 E2' H2. apply HQ'; [right; reflexivity|intros _; reflexivity|reflexivity|rewrite E2'; injection E1 as _ E; exact E|eapply quiet_trans; eassumption].
      + intros s2 g2 G2 E2 H2. apply HQ'; [exact G2|eapply ties_eased; [|exact G2]; eapply ties_port; [exact T|congruence]|discriminate|assert (E : port_ s2 = port_ s) by congruence; injection E as _ E; exact E|eapply quiet_trans; eassumption].
    - apply wpm_ret, HQ'; [left; reflexivity|eapply ties_port; eassumption|intros _; apply T; injection E1 as E _; congruence|injection E1 as _ E; exact E|exact H1]. }
  apply H. clear H H1 E1. intros k2 s2 g2 G2 T2 F2 E2 H2. cbn beta iota. destruct k2; cbn [negb]; [|apply wpm_ret, HN; assumption].
  specialize (F2 eq_refl). wstep. apply wpm_get. cbn beta iota. wstep. apply wpm_modify. cbn beta iota. unfold onResult. wstep. apply wpm_modify. cbn beta iota.
  set (s3 := s2 <| touched_ := _ |> <| pending_ := _ |> <| result_ := _ |>).
  assert (H3 : Quiet c s s3 true) by (destruct H2 as [S P]; split; [eapply dav_same_trans; [exact S|split; reflexivity]|exact P]).
  assert (Ex : expected address g2 = expected address g /\ byte g2 = byte g /\ wrote g2 command = wrote g command) by (destruct G2 as [-> | ->]; auto). destruct Ex as (Ex & Ey & Ew).
  wstep. apply (dav_wp (Write32 port command)).
  { split; [reflexivity|]. split; [exact F2|]. split; [exact Eal|]. rewrite Ex, Ey. exact Ha. }
  intros w. cbn beta iota. change (busNext address g2 (Write32 port command) w) with (wrote g2 command). rewrite Ew.
  assert (T3 : pending_ s3 = true /\ touched_ s3 = true) by (split; reflexivity). destruct T3 as [T3 T3']. clearbody s3. clear Ew Ey Ex H2.
  destruct w; cbn [negb].
  2: { wstep. apply lost_wp; [discriminate|]. intros s4 E4 H4. cbn beta iota. injection E4 as E4 E4'. apply wpm_ret, HF; [left; left; reflexivity|unfold Ties; congruence|congruence|eapply quiet_trans; eassumption]. }
  wstep. apply idle_wp.
  2: { intros s4 g4 G4 E4 H4. cbn beta iota. cbn [negb]. injection E4 as E4 E4'. apply wpm_ret, HF; [left; exact G4|unfold Ties; congruence|congruence|eapply quiet_trans; eassumption]. }
  intros s4 E4 E4' H4. cbn beta iota. cbn [negb]. fold (served g command). pose proof (quiet_trans _ _ _ _ _ H3 H4) as H34.
  assert (Hend : forall v g5, (g5 = if data then took (served g command) v else served g command) ->
    wpm rules (a ← siActive c (if c then cleanupPrevious_ s2 else previous_ s2); mret (if a : bool then Some (u8 v) else None)) s4 g5 Q).
  { intros v g5 ->. wstep. apply siActive_wp. intros k5 s5 E5 H5. cbn beta iota. injection E5 as E5 E5'. apply wpm_ret. destruct k5.
    - apply HT; [congruence|congruence|eapply quiet_trans; eassumption].
    - apply HF; [|unfold Ties; intros _; destruct data; [unfold took; cbn; destruct (_ =? _); reflexivity|reflexivity]|congruence|eapply quiet_trans; eassumption].
      unfold cut_short. destruct data; [right; eauto|left; right; reflexivity]. }
  wstep. apply bus_if; intros Edata; rewrite Edata in *.
  - apply (dav_wp (Read8 (port + 1))); [split; [reflexivity|]; split; [reflexivity|exact (Hd eq_refl)]|]. intros [x v]. cbn beta iota. cbn [fst snd]. destruct x; cbn [negb].
    + apply Hend. reflexivity.
    + wstep. apply lost_wp; [discriminate|]. intros s5 E5 H5. cbn beta iota. injection E5 as E5 E5'. apply wpm_ret, HF; [left; right; reflexivity|unfold Ties; intros _; reflexivity|congruence|eapply quiet_trans; eassumption].
  - apply wpm_ret. cbn beta iota. cbn [fst snd negb]. apply Hend. reflexivity.
Qed.

(** *** A byte *)

(** What holds all along: [out] is what it was but for the bytes counted. *)
Record Live (s0 s : DavEfuseReader) (g : Bus) : Prop := {
  lv_ties : Ties s g; lv_touched : touched_ s = false -> sent g = 0 /\ got g = []; lv_poisoned : poisoned_ s = false; lv_logical : logical_ s = logical_ s0;
  lv_status : needsReset (result_ s) = false;
  lv_out : exists l, zlen l = bytesRead (result_ s) /\ zlen l <= bytes /\ out s = blit (out s0) 0 l }.
(** [i] bytes were read, and [k] steps of the next. *)
Record At (s0 : DavEfuseReader) (i k : Z) (s : DavEfuseReader) (g : Bus) : Prop := {
  at_live : Live s0 s g; at_byte : byte g = i; at_step : step g = k; at_got : zlen (got g) = i; at_read : bytesRead (result_ s) = i;
  at_out : out s = blit (out s0) 0 (got g); at_prim : prim s = ok }.
Lemma live_move s0 s s' g g' : Live s0 s g -> same s s' -> Ties s' g' -> (touched_ s' = false -> touched_ s = false /\ sent g' = sent g /\ got g' = got g) -> Live s0 s' g'.
Proof.
  intros [A1 A2 A3 A4 A5 A6] [B1 B2 B3 B4 B5 B6 B7 B8 B9] T H. split; [exact T| |congruence|congruence|congruence|rewrite B4, B2; exact A6].
  intros Ht. destruct (H Ht) as (H1 & -> & ->). auto.
Qed.
Definition Lost (s0 s : DavEfuseReader) (g : Bus) : Prop := Live s0 s g /\ prim s <> ok.
(** The next command of a byte, which does not read. *)
Lemma write_wp s0 i k c reg value mask s g (Q : option bool -> DavEfuseReader -> Bus -> Prop) : i < bytes -> 0 <= k < 4 -> At s0 i k s g ->
  nth (Z.to_nat k) (byteCommands address i) 0 = c -> davWrite reg value mask = c ->
  (forall s' g', At s0 i (k + 1) s' g' -> Q (Some true) s' g') -> (forall s' g', Lost s0 s' g' -> Q (Some false) s' g') -> wpm rules (write reg value mask) s g Q.
Proof.
  intros Hi Hk [L A1 A2 A3 A4 A5 A6] Ec Ed HT HF. unfold write. rewrite Ed.
  assert (Ee : expected address g = c) by (unfold expected; rewrite A1, A2; exact Ec).
  wstep. apply transact_wp; [apply L|discriminate|left; split; [congruence|lia]| | |].
  - intros s1 g1 G1 T1 E1 [S1 P1]. cbn beta iota. apply wpm_ret, HF. split; [|apply P1, A6]. apply (live_move s0 s s1 g); [exact L|exact S1|exact T1|]. intros H. split; [congruence|destruct G1 as [-> | ->]; split; reflexivity].
  - intros s1 g1 G1 T1 E1 [S1 P1]. cbn beta iota. apply wpm_ret, HF. split; [|apply P1, A6]. apply (live_move s0 s s1 g); [exact L|exact S1|exact T1|congruence].
  - intros v s1 E1 E2 [S1 P1]. cbn beta iota. apply wpm_ret, HT. pose proof S1 as [B1 B2 B3 B4 B5 B6 B7 B8 B9]. split; [apply (live_move s0 s s1 g); [exact L|exact S1|intros _; reflexivity|congruence]|exact A1| |exact A3|congruence| |cbn in P1; congruence].
    + change (step (served g c)) with (if (c =? expected address g) && (step g <? 4) then step g + 1 else step g). rewrite Ee, Z.eqb_refl, A2, (proj2 (Z.ltb_lt k 4)) by lia. reflexivity.
    + rewrite B2. exact A5.
Qed.
Lemma dav_poll_wp s0 i s g (Q : option (option Z) -> DavEfuseReader -> Bus -> Prop) : At s0 i 4 s g ->
  (forall v s' g', At s0 i (if flag v 0x20 then 5 else 4) s' g' -> Q (Some (Some v)) s' g') -> (forall s' g', Lost s0 s' g' -> Q (Some None) s' g') -> wpm rules (read 0x63 false) s g Q.
Proof.
  intros [L A1 A2 A3 A4 A5 A6] HT HF. unfold read.
  apply transact_wp; [apply L|left; reflexivity|right; reflexivity| | |].
  - intros s1 g1 G1 T1 E1 [S1 P1]. apply HF. split; [|apply P1, A6]. apply (live_move s0 s s1 g); [exact L|exact S1|exact T1|]. intros H. split; [congruence|destruct G1 as [-> | ->]; split; reflexivity].
  - intros s1 g1 G1 T1 E1 [S1 P1]. apply HF. split; [|apply P1, A6]. apply (live_move s0 s s1 g); [exact L|exact S1|exact T1|congruence].
  - intros v s1 E1 E2 [S1 P1]. cbn beta iota. apply HT. pose proof S1 as [B1 B2 B3 B4 B5 B6 B7 B8 B9].
    assert (Es : (if (davRead 0x63 =? expected address g) && (step g <? 4) then step g + 1 else step g) = 4) by (rewrite A2, andb_false_r; reflexivity).
    split; [apply (live_move s0 s s1 g); [exact L|exact S1|intros _; reflexivity|congruence]|exact A1| |exact A3|congruence| |cbn in P1; congruence].
    + change (step (took (served g (davRead 0x63)) v)) with
        (let k := if (davRead 0x63 =? expected address g) && (step g <? 4) then step g + 1 else step g in if (k =? 4) && flag (u8 v) 0x20 then 5 else k).
      cbv zeta. rewrite Es. destruct (flag _ _); reflexivity.
    + rewrite B2. exact A5.
Qed.
Lemma value_wp s0 i s g (Q : option (option Z) -> DavEfuseReader -> Bus -> Prop) : i < bytes -> At s0 i 5 s g ->
  (forall v s' g', Live s0 s' g' -> byte g' = i + 1 -> step g' = 0 -> got g' = got g ++ [v] -> same s s' -> prim s' = ok -> Q (Some (Some v)) s' g') ->
  (forall s' g', Lost s0 s' g' -> Q (Some None) s' g') -> wpm rules (read 0x7a false) s g Q.
Proof.
  intros Hi [L A1 A2 A3 A4 A5 A6] HT HF. unfold read.
  apply transact_wp; [apply L|right; reflexivity|left; split; [unfold expected; rewrite A1, A2; reflexivity|lia]| | |].
  - intros s1 g1 G1 T1 E1 [S1 P1]. apply HF. split; [|apply P1, A6]. apply (live_move s0 s s1 g); [exact L|exact S1|exact T1|]. intros H. split; [congruence|destruct G1 as [-> | ->]; split; reflexivity].
  - intros s1 g1 G1 T1 E1 [S1 P1]. apply HF. split; [|apply P1, A6]. apply (live_move s0 s s1 g); [exact L|exact S1|exact T1|congruence].
  - intros v s1 E1 E2 [S1 P1]. cbn beta iota. apply HT; [apply (live_move s0 s s1 g); [exact L|exact S1|intros _; reflexivity|congruence]|cbn; rewrite A1; reflexivity|reflexivity|reflexivity|exact S1|cbn in P1; congruence].
Qed.
Lemma lost_waiting s0 s g : Lost s0 s g -> Lost s0 (s <| davPolling_ := false |>) g.
Proof. intros [L P]. split; [|exact P]. apply (live_move s0 s _ g); [exact L|split; reflexivity|exact (lv_ties _ _ _ L)|auto]. Qed.
Lemma at_set s0 i k s g f : At s0 i k s g -> same s (f s) -> port_ (f s) = port_ s -> prim (f s) = prim s -> At s0 i k (f s) g.
Proof.
  intros [L B1 B2 B3 B4 B5 B6] S E P. pose proof E as [= E1 E2]. pose proof S as [C1 C2 C3 C4 C5 C6 C7 C8 C9]. split; try assumption; try congruence.
  apply (live_move s0 s (f s) g); [exact L|exact S|eapply ties_port; [apply L|exact E]|intros H; split; [congruence|split; reflexivity]].
Qed.
Lemma lost_fail {A} e (a : A) s0 i k s g (Q : option A -> DavEfuseReader -> Bus -> Prop) : e <> ok -> At s0 i k s g ->
  (forall s', Lost s0 s' g -> Q (Some a) s' g) -> wpm rules (_ ← fail e; mret a) s g Q.
Proof.
  intros He [L B1 B2 B3 B4 B5 B6] HQ. wstep. apply dav_fail_wp; [exact He|]. intros s8 E8 [S8 P8]. cbn beta iota. apply wpm_ret, HQ. split; [|exact (P8 B6)]. pose proof E8 as [= E81 E82].
  apply (live_move s0 s _ g); [exact L|exact S8|exact (ties_port _ _ _ (lv_ties _ _ _ L) E8)|]. intros H. split; [congruence|split; reflexivity].
Qed.
Lemma fetch_wp s0 i s g (Q : option (option unit) -> DavEfuseReader -> Bus -> Prop) : 0 <= i < bytes -> At s0 i 5 s g ->
  (forall s' g', At s0 (i + 1) 0 s' g' -> Q (Some None) s' g') -> (forall s' g', Lost s0 s' g' -> Q (Some (Some tt)) s' g') -> wpm rules (fetch i) s g Q.
Proof.
  intros Hi A5 HT HF. unfold fetch. wstep. apply (value_wp s0 i); [lia|exact A5| |intros s' g' H; cbn beta iota; apply wpm_ret, HF, H].
  intros v s6 g6 [T L2 L3 L4 L5 _] B1 B2 B3 S P. cbn beta iota. wstep. apply wpm_modify. cbn beta iota. unfold onResult. wstep. apply wpm_modify. cbn beta iota. apply wpm_ret, HT.
  destruct A5 as [_ C1 C2 C3 C4 C5 C6], S as [D1 D2 D3 D4 D5 D6 D7 D8 D9].
  assert (Eo : blit (out s6) i [v] = blit (out s0) 0 (got g6)) by (rewrite D2, C5, B3, <- C3; apply blit_snoc).
  assert (Ez : zlen (got g6) = i + 1) by (rewrite B3, zlen_app, C3; reflexivity).
  assert (Er : bytesRead (result_ s6) + 1 = i + 1) by (rewrite D4, C4; reflexivity).
  split; [|exact B1|exact B2|exact Ez|exact Er|exact Eo|exact P].
  split; [exact T|exact L2|exact L3|exact L4|exact L5|]. exists (got g6). split; [rewrite Ez; symmetry; exact Er|]. split; [lia|exact Eo].
Qed.
Lemma dav_attempt_wp s0 i j s g (Q : option (option bool) -> DavEfuseReader -> Bus -> Prop) : At s0 i 4 s g ->
  (forall s' g', At s0 i 5 s' g' -> Q (Some (Some true)) s' g') -> (forall s' g', Lost s0 s' g' -> Q (Some (Some false)) s' g') ->
  (forall s' g', j <> 10000 -> At s0 i 4 s' g' -> Q (Some None) s' g') -> wpm rules (attempt j) s g Q.
Proof.
  intros A5 HT HF HN. unfold attempt. wstep. apply (dav_poll_wp s0 i); [exact A5| |intros s' g' H; cbn beta iota; apply wpm_ret, HF, H].
  intros v s6 g6 A6. cbn beta iota. destruct (flag v 0x20); [apply wpm_ret, HT, A6|].
  destruct (Z.eqb_spec j 10000) as [E|E]; [apply (lost_fail timeout (Some false) s0 i 4); [discriminate|exact A6|intros; apply HF; assumption]|].
  wstep. apply (dav_wp (DelayUs 1)); [exact I|]. intros d. cbn beta iota. destruct d; cbn [negb]; [apply wpm_ret, HN; [exact E|exact A6]|].
  apply (lost_fail ioError (Some false) s0 i 4); [discriminate|exact A6|intros; apply HF; assumption].
Qed.
Lemma dav_readByte_wp s0 i s g (Q : option (option unit) -> DavEfuseReader -> Bus -> Prop) : 0 <= i < bytes -> At s0 i 0 s g ->
  (forall s' g', At s0 (i + 1) 0 s' g' -> Q (Some None) s' g') -> (forall s' g', Lost s0 s' g' -> Q (Some (Some tt)) s' g') -> wpm rules (readByte address i) s g Q.
Proof.
  intros Hi A0 HT HF. unfold readByte. wstep.
  assert (Hstop : forall s' g', Lost s0 s' g' -> wpm rules (mret (Some tt)) s' g' Q) by (intros; apply wpm_ret, HF; assumption).
  wstep. apply (write_wp s0 i 0 _ _ _ _ _ _ _ (proj2 Hi) ltac:(lia) A0 eq_refl eq_refl); cbn beta iota; cbn [negb]; [|exact Hstop]. intros s1 g1 A1.
  wstep. apply (write_wp s0 i 1 _ _ _ _ _ _ _ (proj2 Hi) ltac:(lia) A1 eq_refl eq_refl); cbn beta iota; cbn [negb]; [|exact Hstop]. intros s2 g2 A2.
  wstep. apply (write_wp s0 i 2 _ _ _ _ _ _ _ (proj2 Hi) ltac:(lia) A2 eq_refl eq_refl); cbn beta iota; cbn [negb]; [|exact Hstop]. intros s3 g3 A3.
  apply (write_wp s0 i 3 _ _ _ _ _ _ _ (proj2 Hi) ltac:(lia) A3 eq_refl eq_refl); cbn beta iota; cbn [negb]; [|exact Hstop]. intros s4 g4 A4.
  wstep. apply wpm_modify. cbn beta iota. wstep.
  apply (wpm_for_loop _ (fun j s g => j <= 10000 /\ At s0 i 4 s g)); [lia|split; [lia|apply (at_set _ _ _ s4 g4 (fun s => s <| davStarted_ := previous_ s |> <| davPolling_ := true |>) A4); try reflexivity; split; reflexivity]| |].
  - intros j s5 g5 Hj [_ A5]. apply (dav_attempt_wp s0 i); [exact A5| | |].
    + intros s6 g6 A6. cbn beta iota. wstep. apply wpm_modify. cbn beta iota. apply (fetch_wp s0 i); [exact Hi|apply (at_set _ _ _ s6 g6 (fun s => s <| davPolling_ := false |>) A6); try reflexivity; split; reflexivity|exact HT|exact HF].
    + intros s6 g6 L6. cbn beta iota. wstep. apply wpm_modify. cbn beta iota. apply Hstop, lost_waiting, L6.
    + intros s6 g6 Hn A6. cbn beta iota. split; [lia|exact A6].
  - intros s5 g5 [Hn _]. lia.
Qed.

(** *** The clean-up and the result *)

Record Clean (s s' : DavEfuseReader) (g g' : Bus) : Prop := {
  cl_poisoned : poisoned_ s' = poisoned_ s; cl_out : out s' = out s; cl_logical : logical_ s' = logical_ s; cl_read : bytesRead (result_ s') = bytesRead (result_ s);
  cl_reset : needsReset (result_ s') = needsReset (result_ s); cl_status : status (result_ s') = status (result_ s); cl_prim : prim s' = prim s; cl_got : got g' = got g }.
Lemma clean_trans s1 s2 s3 g1 g2 g3 : Clean s1 s2 g1 g2 -> Clean s2 s3 g2 g3 -> Clean s1 s3 g1 g3.
Proof. intros [] []. split; congruence. Qed.
Lemma clean_quiet s s' g g' k : Quiet true s s' k -> got g' = got g -> Clean s s' g g'.
Proof. intros [[S1 S2 S3 S4 S5 S6 S7 S8 S9] P] G. split; assumption. Qed.
(** The bus and the bank's own engine are done. *)
Definition Resting (s : DavEfuseReader) (g : Bus) : Prop :=
  busIdle (result_ s) = true /\ readEngineIdle (result_ s) = true /\ free g = true /\ exists v, control_ g = Some v /\ settled v = true.
Lemma got_cut_short g g' : cut_short g (davRead 0x63) true g' -> got g' = got g.
Proof. intros [[-> | ->]|(_ & v & ->)]; reflexivity. Qed.
Lemma dav_drainTurn_wp j s g (Q : option (option bool) -> DavEfuseReader -> Bus -> Prop) : Ties s g -> busIdle (result_ s) = true ->
  (forall s' g', Clean s s' g g' -> Resting s' g' -> Q (Some (Some true)) s' g') -> (forall s' g', Clean s s' g g' -> Q (Some (Some false)) s' g') ->
  (forall s' g', Clean s s' g g' -> Ties s' g' -> busIdle (result_ s') = true -> Q (Some None) s' g') -> wpm rules (drainTurn j) s g Q.
Proof.
  intros T B HT HF HN. unfold drainTurn. wstep.
  assert (Hnone : forall s1 g1, Quiet true s s1 false -> got g1 = got g -> wpm rules (modify (fun s => s <| result_ := (result_ s) <| busIdle := negb (pending_ s) |> |>);; mret (Some false)) s1 g1 Q).
  { intros s1 g1 H1 G1. wstep. apply wpm_modify. cbn beta iota. apply wpm_ret, HF. eapply clean_trans; [apply (clean_quiet _ _ _ _ _ H1 G1)|split; reflexivity]. }
  unfold read. apply transact_wp; [exact T|left; reflexivity|right; reflexivity| | |].
  - intros s1 g1 G1 T1 E1 H1. cbn beta iota. apply Hnone; [exact H1|destruct G1 as [-> | ->]; reflexivity].
  - intros s1 g1 G1 T1 E1 H1. cbn beta iota. apply Hnone; [exact H1|apply got_cut_short, G1].
  - intros v s1 E1 E2 H1. cbn beta iota. set (g1 := took _ v). assert (C1 : Clean s s1 g g1) by (apply (clean_quiet _ _ _ _ true H1); reflexivity).
    assert (F1 : free g1 = true /\ control_ g1 = Some (u8 v)) by (split; reflexivity). destruct F1 as [F1 V1]. clearbody g1.
    assert (B1 : busIdle (result_ s1) = true) by (destruct H1 as [[] _]; congruence).
    destruct (settled (u8 v)) eqn:Ev.
    { unfold onResult. wstep. apply wpm_modify. cbn beta iota. apply wpm_ret, HT; [destruct C1; split; assumption|]. split; [exact B1|]. split; [reflexivity|]. split; [exact F1|eauto]. }
    destruct (j =? 10000); [apply wpm_ret, HF, C1|]. wstep. apply cleanDelay_wp. intros k s2 E3 H2. cbn beta iota. apply wpm_ret.
    assert (C2 : Clean s s2 g g1) by (eapply clean_trans; [exact C1|apply (clean_quiet _ _ _ _ _ H2); reflexivity]).
    destruct k; [|apply HF, C2]. apply HN; [exact C2|intros _; exact F1|destruct H2 as [[] _]; congruence].
Qed.
Lemma dav_cleanup_wp s g (Q : option bool -> DavEfuseReader -> Bus -> Prop) : 
  (forall k s' g', Clean s s' g g' -> (k = true -> Resting s' g') -> Q (Some k) s' g') -> wpm rules cleanup s g Q.
Proof.
  intros HQ. unfold cleanup, onResult. wstep. apply wpm_modify. cbn beta iota. wstep. apply wpm_modify. cbn beta iota. wstep. apply dav_nowUs_wp. intros t. cbn beta iota. wstep. apply wpm_modify. cbn beta iota.
  set (s1 := s <| result_ := _ |> <| cleanupSteps_ := _ |> <| cleanupDelay_ := _ |> <| cleanupStarted_ := _ |> <| cleanupPrevious_ := _ |>).
  assert (C1 : Clean s s1 g g) by (split; reflexivity). clearbody s1.
  wstep. apply idle_wp.
  2: { intros s2 g2 G2 E2 H2. cbn beta iota. cbn [negb]. apply wpm_ret, HQ; [|discriminate]. eapply clean_trans; [exact C1|apply (clean_quiet _ _ _ _ _ H2)]. destruct G2 as [-> | ->]; reflexivity. }
  intros s2 E2 E2' H2. cbn beta iota. cbn [negb]. set (g2 := g <| free := true |>). wstep. apply wpm_modify. cbn beta iota. set (s3 := s2 <| result_ := _ |>).
  assert (C3 : Clean s s3 g g2) by (eapply clean_trans; [exact C1|eapply clean_trans; [apply (clean_quiet _ _ g g2 _ H2); reflexivity|split; reflexivity]]).
  wstep. apply (wpm_for_loop _ (fun _ s' g' => Clean s s' g g' /\ Ties s' g' /\ busIdle (result_ s') = true)); [lia|split; [exact C3|]; split; [intros _; reflexivity|reflexivity]| |].
  - intros j s4 g4 _ (C4 & T4 & B4). apply dav_drainTurn_wp; [exact T4|exact B4| | |].
    + intros s5 g5 C5 R5. cbn beta iota. apply wpm_ret, HQ; [eapply clean_trans; eassumption|auto].
    + intros s5 g5 C5. cbn beta iota. apply wpm_ret, HQ; [eapply clean_trans; eassumption|discriminate].
    + intros s5 g5 C5 T5 B5. cbn beta iota. split; [eapply clean_trans; eassumption|]. auto.
  - intros s4 g4 (C4 & _). cbn beta iota. apply wpm_ret, HQ; [exact C4|discriminate].
Qed.

(** How the reading ends, and what the operation leaves. *)
Definition Over (s0 s : DavEfuseReader) (g : Bus) : Prop :=
  poisoned_ s = false /\ logical_ s = logical_ s0 /\ needsReset (result_ s) = false /\ (touched_ s = false -> sent g = 0 /\ prim s <> ok) /\
  (exists l, zlen l = bytesRead (result_ s) /\ zlen l <= bytes /\ out s = blit (out s0) 0 l) /\
  (prim s = ok -> bytesRead (result_ s) = bytes /\ zlen (got g) = bytes /\ out s = blit (out s0) 0 (got g)).
Definition Finished (s0 : DavEfuseReader) (r : option DavResult) (s : DavEfuseReader) (g : Bus) : Prop :=
  r = Some (result_ s) /\ logical_ s = logical_ s0 /\ poisoned_ s = needsReset (result_ s) /\ (sent g = 0 \/ Resting s g \/ needsReset (result_ s) = true) /\
  (needsReset (result_ s) = true -> status (result_ s) = cleanupFailed) /\
  if isOk (status (result_ s)) then Resting s g /\ needsReset (result_ s) = false /\ validBytes (result_ s) = bytes /\ zlen (got g) = bytes /\ out s = blit (out s0) 0 (got g)
  else exists n, (n <= Z.to_nat bytes)%nat /\ out s = blit (out s0) 0 (replicate n 0).
Lemma zeros_over (o l : buf) n : zlen l = n -> n <= bytes -> exists m, (m <= Z.to_nat bytes)%nat /\ blit (blit o 0 l) 0 (replicate (Z.to_nat n) 0) = blit o 0 (replicate m 0).
Proof. intros H Hn. exists (Z.to_nat n). split; [lia|]. apply blit_over. unfold zlen in *. rewrite length_replicate. lia. Qed.
Lemma dav_finish_wp s0 s g (Q : option DavResult -> DavEfuseReader -> Bus -> Prop) : Over s0 s g -> (forall r s' g', Finished s0 r s' g' -> Q r s' g') -> wpm rules finish s g Q.
Proof.
  intros (O1 & O2 & O3 & O4 & (l & O5 & O6 & O7) & O8) HQ. unfold finish, onResult. wstep. apply wpm_modify. cbn beta iota. wstep. apply wpm_get. cbn beta iota.
  set (s1 := s <| result_ := _ |>). change (touched_ s1) with (touched_ s). wstep.
  assert (Hc : forall Q', (forall k s2 g2, Clean s1 s2 g g2 -> (touched_ s = true -> k = true -> Resting s2 g2) -> (touched_ s = false -> k = true /\ g2 = g /\ s2 = s1) -> Q' (Some k) s2 g2) ->
    wpm rules (if touched_ s then cleanup else mret true) s1 g Q').
  { intros Q' HQ'. apply bus_if; intros E; rewrite E in HQ'; [apply dav_cleanup_wp; intros k s2 g2 C R; apply HQ'; [exact C|auto|discriminate]|apply wpm_ret, HQ'; [split; reflexivity|discriminate|auto]]. }
  apply Hc. clear Hc. intros k s2 g2 [C1 C2 C3 C4 C5 C6 C7 C8] R N. cbn beta iota.
  change (poisoned_ s1) with (poisoned_ s) in C1. change (out s1) with (out s) in C2. change (logical_ s1) with (logical_ s) in C3. change (bytesRead (result_ s1)) with (bytesRead (result_ s)) in C4.
  change (needsReset (result_ s1)) with (needsReset (result_ s)) in C5. change (status (result_ s1)) with (prim s) in C6. change (prim s1) with (prim s) in C7.
  assert (Hrest : k = true -> sent g2 = 0 \/ Resting s2 g2).
  { intros Hk. destruct (touched_ s) eqn:Et; [right; auto|]. destruct (N eq_refl) as (_ & -> & _). left. apply O4. reflexivity. }
  wstep. destruct k; cbn [unless].
  - apply wpm_ret. cbn beta iota. wstep. apply wpm_get. cbn beta iota. wstep. destruct (isOk (status (result_ s2))) eqn:Eo.
    + apply wpm_modify. cbn beta iota. apply wpm_gets, HQ. pose proof Eo as Eo'. apply bool_decide_eq_true in Eo'. rewrite C6 in Eo'. destruct (O8 Eo') as (P1 & P2 & P3).
      assert (Hr : Resting s2 g2) by (destruct (touched_ s) eqn:Et; [auto|destruct (O4 eq_refl); contradiction]).
      split; [reflexivity|]. split; [cbn; congruence|]. split; [cbn; congruence|]. split; [right; left; exact Hr|]. split; [cbn; congruence|]. cbn [result_ status]. cbn. rewrite Eo.
      split; [exact Hr|]. split; [congruence|]. split; [congruence|]. split; [congruence|]. rewrite C2, C8. exact P3.
    + apply wpm_modify. cbn beta iota. apply wpm_gets, HQ. split; [reflexivity|]. split; [cbn; congruence|]. split; [cbn; congruence|]. split; [destruct (Hrest eq_refl); auto|]. split; [cbn; congruence|].
      cbn. rewrite Eo, C2, O7, C4. apply zeros_over; [exact O5|rewrite <- O5; exact O6].
  - apply wpm_modify. cbn beta iota. wstep. apply wpm_get. cbn beta iota. wstep. apply wpm_modify. cbn beta iota. apply wpm_gets, HQ. split; [reflexivity|]. split; [cbn; congruence|]. split; [reflexivity|]. split; [auto|]. split; [reflexivity|].
    cbn. rewrite C2, O7, C4. apply zeros_over; [exact O5|rewrite <- O5; exact O6].
Qed.

(** *** The whole reading *)

Lemma live_over s0 s g : Lost s0 s g -> Over s0 s g.
Proof.
  intros [[L1 L2 L3 L4 L5 L6] P]. split; [exact L3|]. split; [exact L4|]. split; [exact L5|]. split; [intros Ht; split; [apply L2, Ht|exact P]|]. split; [exact L6|]. intros H. contradiction.
Qed.
(** Before the first command. *)
Record Fresh (s0 s : DavEfuseReader) (g : Bus) : Prop := {
  fr_poisoned : poisoned_ s = false; fr_logical : logical_ s = logical_ s0; fr_reset : needsReset (result_ s) = false; fr_touched : touched_ s = false; fr_pending : pending_ s = false;
  fr_out : out s = out s0; fr_read : bytesRead (result_ s) = 0 }.
Lemma fresh_quiet s0 s s' g g' k : Fresh s0 s g -> Quiet false s s' k -> port_ s' = port_ s -> Fresh s0 s' g'.
Proof. intros [F1 F2 F3 F4 F5 F6 F7] [[S1 S2 S3 S4 S5 S6 S7 S8 S9] _] [= E1 E2]. split; congruence. Qed.
Definition start0 (g : Bus) : Prop := byte g = 0 /\ step g = 0 /\ got g = [] /\ sent g = 0.
Lemma firstLook_wp s0 s g (Q : option unit -> DavEfuseReader -> Bus -> Prop) : Fresh s0 s g -> prim s = ok -> start0 g ->
  (forall s' g', Fresh s0 s' g' -> prim s' = ok -> free g' = true -> start0 g' -> Q (Some tt) s' g') ->
  (forall s' g', Fresh s0 s' g' -> prim s' <> ok -> start0 g' -> Q (Some tt) s' g') -> wpm rules firstLook s g Q.
Proof.
  intros F P G HT HF. unfold firstLook. wstep. apply dav_active_wp. intros k s1 E1 H1. cbn beta iota. pose proof (fresh_quiet _ _ _ _ g _ F H1 E1) as F1. destruct H1 as [S1 P1].
  destruct k; cbn [negb]; [|apply wpm_ret, HF; [exact F1|exact (P1 P)|exact G]]. assert (Pok : prim s1 = ok) by (cbn in P1; congruence).
  assert (Hbad : forall e g2, e <> ok -> start0 g2 -> wpm rules (mbind (fun _ : bool => mret tt) (fail e)) s1 g2 Q).
  { intros e g2 He G2. wstep. apply dav_fail_wp; [exact He|]. intros s2 E2 H2. cbn beta iota. apply wpm_ret, HF; [eapply fresh_quiet; eassumption|apply H2, Pok|exact G2]. }
  wstep. apply (dav_wp (Read32 port)); [reflexivity|]. intros [x v]. cbn beta iota. cbn [fst snd busNext]. set (g2 := if (_ : bool) then g <| free := true |> else g).
  assert (G2 : start0 g2) by (unfold g2; destruct (_ && _); exact G).
  destruct (negb x || (u32 v =? 0xffffffff)) eqn:E; [apply Hbad; [discriminate|exact G2]|]. destruct (flag (u32 v) pollBit) eqn:Ef; [apply Hbad; [discriminate|exact G2]|].
  apply wpm_ret, HT; [destruct F1; split; assumption|exact Pok| |exact G2]. unfold g2. apply orb_false_iff in E as [->%negb_false_iff ->]. reflexivity.
Qed.
Lemma reading_wp s0 s g (Q : option DavResult -> DavEfuseReader -> Bus -> Prop) : 0 < bytes -> Fresh s0 s g -> prim s = ok -> start0 g ->
  (forall r s' g', Finished s0 r s' g' -> Q r s' g') ->
  wpm rules (firstLook;; s ← get; (if isOk (primary (result_ s)) then _ ← for_loop 0 bytes (readByte address); mret tt else mret tt);; finish) s g Q.
Proof.
  intros Hb F P G HQ. wstep. apply (firstLook_wp s0); [exact F|exact P|exact G| |].
  - intros s1 g1 [F1 F2 F3 F4 F5 F6 F7] P1 Fr (G1 & G2 & G3 & G4). cbn beta iota. wstep. apply wpm_get. cbn beta iota. unfold isOk. change (primary (result_ s1)) with (prim s1). rewrite bool_decide_eq_true_2 by exact P1.
    wstep. wstep. apply (wpm_for_loop _ (fun i => At s0 i 0)); [lia| | |].
    + split; [|exact G1|exact G2|rewrite G3; reflexivity|exact F7|rewrite G3; exact F6|exact P1].
      split; [intros _; exact Fr|auto|exact F1|exact F2|exact F3|]. exists []. split; [symmetry; exact F7|]. split; [change (zlen (@nil Z)) with 0; lia|exact F6].
    + intros i s2 g2 Hi A2. apply (dav_readByte_wp s0); [exact Hi|exact A2|auto|]. intros s3 g3 L3. cbn beta iota. apply wpm_ret. cbn beta iota. apply (dav_finish_wp s0); [apply live_over, L3|exact HQ].
    + intros s2 g2 [L A1 A2 A3 A4 A5 A6]. cbn beta iota. apply wpm_ret. cbn beta iota. apply (dav_finish_wp s0); [|exact HQ].
      split; [apply L|]. split; [apply L|]. split; [apply L|]. split; [|split; [apply L|intros _; split; [exact A4|split; [exact A3|exact A5]]]].
      intros Ht. exfalso. apply (lv_touched _ _ _ L) in Ht as [_ Ht]. rewrite Ht in A3. change (zlen (@nil Z)) with 0 in A3. lia.
  - intros s1 g1 [F1 F2 F3 F4 F5 F6 F7] P1 (G1 & G2 & G3 & G4). cbn beta iota. wstep. apply wpm_get. cbn beta iota. unfold isOk. change (primary (result_ s1)) with (prim s1). rewrite bool_decide_eq_false_2 by exact P1.
    wstep. apply wpm_ret. cbn beta iota. apply (dav_finish_wp s0); [|exact HQ].
    split; [exact F1|]. split; [exact F2|]. split; [exact F3|]. split; [auto|]. split; [|intros; contradiction]. exists []. split; [symmetry; exact F7|]. split; [change (zlen (@nil Z)) with 0; lia|exact F6].
Qed.
End follows.

Definition acceptable (bytes address : Z) (present : bool) (capacity : Z) : Prop := present = true /\ 0 < bytes <= capacity /\ address + bytes <= 96.
(** A poisoned reader, and unacceptable arguments, are refused without a
    command. *)
Definition Physical (address bytes : Z) (present : bool) (capacity : Z) (s : DavEfuseReader) (g : Bus) (r : option DavResult) (s' : DavEfuseReader) (g' : Bus) : Prop :=
  (poisoned_ s = true /\ g' = g /\ r = Some (result_ s') /\ status (result_ s') = requiresReset /\ needsReset (result_ s') = true /\ out s' = out s /\ logical_ s' = logical_ s /\ poisoned_ s' = true) \/
  (poisoned_ s = false /\ ~ acceptable bytes address present capacity /\ g' = g /\ r = Some noResult /\ out s' = out s /\ logical_ s' = logical_ s /\ poisoned_ s' = false) \/
  (poisoned_ s = false /\ acceptable bytes address present capacity /\ Finished bytes s r s' g').
Lemma readPhysical_wp address bytes present capacity s g : 0 <= address -> 0 <= bytes -> start0 g ->
  wpm (busRules address bytes) (readPhysical address bytes present capacity) s g (Physical address bytes present capacity s g).
Proof.
  intros Ha Hb G. unfold readPhysical, onResult. wstep. apply wpm_modify. cbn beta iota. wstep. apply wpm_get. cbn beta iota.
  set (s1 := s <| result_ := _ |> <| pending_ := _ |> <| touched_ := _ |> <| davPolling_ := _ |> <| steps_ := _ |>). change (poisoned_ s1) with (poisoned_ s).
  destruct (poisoned_ s) eqn:Ep.
  { wstep. apply wpm_modify. cbn beta iota. apply wpm_gets. left. repeat split; try reflexivity; exact Ep. }
  destruct (_ || _ || _ || _ || _) eqn:Ec.
  { apply wpm_gets. right. left. split; [exact Ep|]. split; [|repeat split; try reflexivity; exact Ep].
    intros (E1 & E2 & E3). rewrite E1, (proj2 (Z.eqb_neq bytes 0)), (proj2 (Z.ltb_ge capacity bytes)), (proj2 (Z.leb_gt 96 address)), (proj2 (Z.ltb_ge (96 - address) bytes)) in Ec by lia. discriminate. }
  apply orb_false_iff in Ec as [Ec E5%Z.ltb_ge]. apply orb_false_iff in Ec as [Ec E4%Z.leb_gt]. apply orb_false_iff in Ec as [Ec E3%Z.ltb_ge]. apply orb_false_iff in Ec as [E1%negb_false_iff E2%Z.eqb_neq].
  wstep. apply dav_nowUs_wp. intros t. cbn beta iota. wstep. apply wpm_modify. cbn beta iota.
  apply (reading_wp address bytes ltac:(lia) s); [lia|split; try reflexivity; exact Ep|reflexivity|exact G|].
  intros r s' g' H. right. right. split; [exact Ep|]. split; [split; [exact E1|]; lia|exact H].
Qed.

(** The logical reading: the buffers lie where the caller says, and hold what
    it says. *)
Record placed (in_ pc out_ lc : Z) (s : DavEfuseReader) : Prop := {
  pl_in : 0 <= in_; pl_out : 0 <= out_; pl_physical : pc <= zlen (out s); pl_logical : lc <= zlen (logical_ s) }.
Definition Logical (s : DavEfuseReader) (r : option DavResult) (s' : DavEfuseReader) (g' : Bus) : Prop :=
  exists res, r = Some res /\ (needsReset res = true -> poisoned_ s' = true) /\ (poisoned_ s = true -> sent g' = 0 /\ status res <> ok /\ poisoned_ s' = true) /\
  (sent g' = 0 \/ poisoned_ s' = true \/ Resting s' g') /\ zlen (out s') = zlen (out s) /\
  if isOk (status res) then
    Resting s' g' /\ busIdle res = true /\ readEngineIdle res = true /\ validBytes res = 96 /\ logicalValid res = true /\ needsReset res = false /\
    zlen (got g') = 96 /\ out s' = blit (out s) 0 (got g') /\
    exists es, wellFormed (bytesOf (out s') 4 88) 16 es /\ logical_ s' = image 16 es ++ drop 16 (logical_ s)
  else logical_ s' = logical_ s.
Lemma readLogical_wp in_ pc out_ lc s : placed in_ pc out_ lc s -> wpm (busRules 0 96) (readLogical in_ pc out_ lc) s newBus (Logical s).
Proof.
  intros [H1 H2 H3 H4]. unfold readLogical.
  assert (Hno : wpm (busRules 0 96) (mret noResult) s newBus (Logical s)).
  { apply wpm_ret. exists noResult. split; [reflexivity|]. split; [discriminate|]. split; [intros E; split; [reflexivity|]; split; [discriminate|exact E]|]. split; [left; reflexivity|]. split; reflexivity. }
  destruct (_ || _ || _ || _) eqn:Ec; [exact Hno|]. destruct (if in_ <=? out_ then out_ - in_ <? 96 else in_ - out_ <? 16) eqn:Eo; [exact Hno|].
  apply orb_false_iff in Ec as [Ec E4%Z.ltb_ge]. apply orb_false_iff in Ec as [Ec E3%Z.eqb_neq]. apply orb_false_iff in Ec as [E1%Z.eqb_neq E2%Z.ltb_ge].
  assert (Ap : apart in_ 96 out_ 16) by (unfold apart; destruct (Z.leb_spec in_ out_); apply Z.ltb_ge in Eo; lia).
  wstep. eapply wpm_mono; [apply (readPhysical_wp 0 96 true pc s newBus); [lia|lia|repeat split]|].
  intros r s1 g1 [(P & -> & -> & S1 & R1 & O1 & L1 & P1)|[(P & N & _)|(P & A & -> & F1 & F2 & F3 & F4 & F5)]].
  - unfold isOk. rewrite bool_decide_eq_false_2 by congruence. apply wpm_ret. exists (result_ s1). split; [reflexivity|]. split; [auto|]. split; [intros _; split; [reflexivity|]; split; [congruence|exact P1]|].
    split; [left; reflexivity|]. split; [congruence|]. unfold isOk. rewrite bool_decide_eq_false_2 by congruence. exact L1.
  - exfalso. apply N. split; [reflexivity|]. lia.
  - assert (Hb : forall l, zlen l <= 96 -> zlen (blit (out s) 0 l) = zlen (out s)) by (intros l Hl; apply zlen_blit; lia).
    destruct (isOk (status (result_ s1))) eqn:Es; cbn [negb].
    2: { apply wpm_ret. destruct F5 as (n & Hn & Eout). exists (result_ s1). split; [reflexivity|]. split; [congruence|]. split; [congruence|].
         split; [destruct F3 as [F3|[F3|F3]]; [auto|auto|right; left; congruence]|]. split; [rewrite Eout; apply Hb; unfold zlen; rewrite length_replicate; lia|]. rewrite Es. exact F1. }
    destruct F5 as (R & N & V & G & Eout). assert (Hz : zlen (out s1) = zlen (out s)) by (rewrite Eout; apply Hb; lia).
    wstep. apply wpm_get. cbn beta iota. rewrite F1.
    assert (Gv : given in_ (out s1) 96 out_ (logical_ s) 16 4) by (split; first [exact Ap|lia|vm_compute; easy]).
    assert (Hr : Resting s1 g1) by exact R. destruct Hr as (R1 & R2 & _).
    destruct (decode_cases _ _ _ _ _ _ _ Gv) as [(e & He & -> & _)|(es & W & ->)]; wstep; apply wpm_modify; cbn beta iota.
    + rewrite bool_decide_eq_false_2 by exact He. apply wpm_ret. eexists. split; [reflexivity|]. split; [cbn; congruence|]. split; [congruence|]. split; [right; right; exact R|]. split; [exact Hz|]. reflexivity.
    + rewrite bool_decide_eq_true_2 by reflexivity. apply wpm_ret. eexists. split; [reflexivity|]. split; [cbn; congruence|]. split; [congruence|]. split; [right; right; exact R|]. split; [exact Hz|].
      assert (Es' : forall (x : DavResult), status x = status (result_ s1) -> isOk (status x) = true) by (intros x ->; exact Es). rewrite Es' by reflexivity.
      split; [exact R|]. split; [exact R1|]. split; [exact R2|]. split; [exact V|]. split; [reflexivity|]. split; [exact N|]. split; [exact G|]. split; [exact Eout|]. exists es. split; [exact W|reflexivity].
Qed.

(** ** How long it can take *)

Lemma dav_cost o : mcost (dav o) 1.
Proof. exact (@mcost_call DavIo DavEfuseReader o). Qed.
#[local] Hint Extern 1 (mcost (dav ?o) _) => exact (dav_cost o) : cost.
Lemma dav_fail_cost e : mcost (fail e) 0.
Proof. eapply mcost_le; [unfold fail, onResult; mcost|]; lia. Qed.
#[local] Hint Resolve dav_fail_cost : cost.
Lemma lost_cost c e : mcost (lost c e) 0.
Proof. eapply mcost_le; [unfold lost; mcost|]; lia. Qed.
Lemma cleanActive_cost : mcost cleanActive 1.
Proof. eapply mcost_le; [unfold cleanActive, nowUs; mcost|]; lia. Qed.
Lemma dav_active_cost : mcost active 2.
Proof. eapply mcost_le; [unfold active, nowUs; mcost|]; lia. Qed.
#[local] Hint Resolve lost_cost cleanActive_cost dav_active_cost : cost.
Lemma cleanDelay_cost us : mcost (cleanDelay us) 3.
Proof. eapply mcost_le; [unfold cleanDelay; mcost|]; lia. Qed.
Lemma siActive_cost c started : mcost (siActive c started) 2.
Proof. eapply mcost_le; [unfold siActive; mcost|]; lia. Qed.
#[local] Hint Resolve cleanDelay_cost siActive_cost : cost.
Lemma idleTurn_cost c started i : mcost (idleTurn c started i) 8.
Proof. eapply mcost_le; [unfold idleTurn, onResult; mcost|]; lia. Qed.
#[local] Hint Resolve idleTurn_cost : cost.
Lemma idle_cost c started : mcost (idle c started) 8008.
Proof. eapply mcost_le; [unfold idle; mcost|]; lia. Qed.
#[local] Hint Resolve idle_cost : cost.
Lemma transact_cost command data c : mcost (transact command data c) 16022.
Proof. eapply mcost_le; [unfold transact, onResult; mcost|]; lia. Qed.
#[local] Hint Resolve transact_cost : cost.
Lemma drainTurn_cost i : mcost (drainTurn i) 16025.
Proof. eapply mcost_le; [unfold drainTurn, read, onResult; mcost|]; lia. Qed.
Lemma dav_attempt_cost i : mcost (attempt i) 16023.
Proof. eapply mcost_le; [unfold attempt, read; mcost|]; lia. Qed.
#[local] Hint Resolve drainTurn_cost dav_attempt_cost : cost.
Lemma cleanup_cost : mcost cleanup 160274034.
Proof. eapply mcost_le; [unfold cleanup, nowUs, onResult; mcost|]; lia. Qed.
Lemma dav_readByte_cost a i : mcost (readByte a i) 160326133.
Proof. eapply mcost_le; [unfold readByte, fetch, write, read, onResult; mcost|]; lia. Qed.
#[local] Hint Resolve cleanup_cost dav_readByte_cost : cost.
Lemma readPhysical_cost address bytes present capacity : 0 <= bytes -> mcost (readPhysical address bytes present capacity) (160274038 + 160326133 * bytes).
Proof. intros Hb. eapply mcost_le; [unfold readPhysical, firstLook, finish, nowUs, onResult; mcost|]; lia. Qed.
Lemma mcost_mres {A} (x : mres unit A) (f : A -> DR DavResult) n : (forall a, mcost (f a) n) -> 0 <= n -> mcost (match x with MVal a => f a | _ => brk end) n.
Proof. intros H Hn. destruct x; [apply H|eapply mcost_le; [apply mcost_brk|exact Hn]..]. Qed.
(** Every call ends; the bound is that of the loops alone, without the clock. *)
Theorem logical_terminates in_ pc out_ lc s : cost (readLogical in_ pc out_ lc s) 15551582806 /\
  forall answer : (forall o : Op DavIo, Ans DavIo o), exists tr r, exec (readLogical in_ pc out_ lc s) tr r.
Proof.
  split; [|intros answer; apply (exec_total (readLogical in_ pc out_ lc s) answer)]. revert s. enough (H : mcost (readLogical in_ pc out_ lc) 15551582806) by apply H.
  pose proof (readPhysical_cost 0 96 true pc ltac:(lia)) as Hp. change (160274038 + 160326133 * 96) with 15551582806 in Hp.
  unfold readLogical. assert (H0 : mcost (mret noResult : DR DavResult) 15551582806) by (eapply mcost_le; [apply mcost_ret|lia]).
  destruct (_ || _ || _ || _); [exact H0|]. destruct (if in_ <=? out_ then _ else _); [exact H0|]. rewrite <- (Z.add_0_r 15551582806). apply mcost_bind; [exact Hp| |lia].
  intros r. destruct (negb _); [apply mcost_ret|]. change 0 with (0 + 0). apply mcost_bind; [apply mcost_get| |lia]. intros s. apply mcost_mres; [|lia].
  intros [e l]. change 0 with (0 + 0). apply mcost_bind; [apply mcost_modify| |lia]. intros _. cbv zeta. apply mcost_ret.
Qed.

(** ** The contract *)

(** Whatever the device answers, the bank is read through the serial port by
    the rules: only a permitted command is given, and only when the port was
    seen idle since the last one; the commands of a byte come in order, its
    value is taken once the control byte reports it, and none is asked for
    past the bank. Success means that 96 bytes came so, that the bank is in the
    format of the main decoder and the logical image is what its records
    describe, and that the port and the bank's engine were seen at rest; any
    other result leaves the logical image as it was. If commands were given and
    the bus is not known to rest, the reader is poisoned and refuses every
    later reading without a command. *)
Theorem logical_contract in_ pc out_ lc s tr r s' : placed in_ pc out_ lc s -> exec (readLogical in_ pc out_ lc s) tr (r, s') ->
  accepts (busRules 0 96) newBus tr /\ Logical s r s' (after (busRules 0 96) newBus tr).
Proof. intros H He. exact (wp_sound (busRules 0 96) _ newBus _ tr _ (readLogical_wp in_ pc out_ lc s H) He (relies_trivial (busRules 0 96) newBus tr (fun _ _ _ => I))). Qed.

(** ** A concrete run *)

(** A bank of one record, and a device that answers at once. *)
Definition davBytes : list Z := [1; 2; 3; 4; 16; 14; 7; 8] ++ replicate 88 255.
Record DavChip := mkChip { v_address : Z; v_value : Z; v_time : Z }.
Definition chip : handler DavIo DavChip := fun d o =>
  match o as o return Ans DavIo o * DavChip with
  | Cancelled => (false, d)
  | NowUs => (v_time d, mkChip (v_address d) (v_value d) (v_time d + 1))
  | DelayUs us => (true, mkChip (v_address d) (v_value d) (v_time d + us))
  | Read8 _ => ((true, v_value d), d)
  | Read32 _ => ((true, 0), d)
  | Write32 _ v =>
      (true, if v =? davRead 0x63 then mkChip (v_address d) 0x60 (v_time d) else if v =? davRead 0x7a then mkChip (v_address d) (nth (Z.to_nat (v_address d)) davBytes 0) (v_time d)
             else if u8 v =? 0x62 then mkChip (u8 (Z.shiftr v 8)) 0 (v_time d) else d)
  end.
Definition sampleReader : DavEfuseReader := newReader (replicate 96 0) (replicate 16 0).
Definition chipRun := run_trace chip (readLogical 0x1000 96 0x2000 16 sampleReader) (mkChip 0 0 0).
Example dav_chip_read : (match fst (fst (fst chipRun)) with Some r => isOk (status r) | None => false end, out (snd (fst (fst chipRun))), logical_ (snd (fst (fst chipRun)))) =
  (true, davBytes, [7; 8] ++ replicate 14 255).
Proof. vm_compute. reflexivity. Qed.
Lemma logical_contract_witness : placed 0x1000 96 0x2000 16 sampleReader /\
  accepts (busRules 0 96) newBus (snd chipRun) /\ Logical sampleReader (fst (fst (fst chipRun))) (snd (fst (fst chipRun))) (after (busRules 0 96) newBus (snd chipRun)).
Proof.
  assert (H : placed 0x1000 96 0x2000 16 sampleReader) by (split; vm_compute; easy). split; [exact H|].
  apply (logical_contract 0x1000 96 0x2000 16); [exact H|]. rewrite <- surjective_pairing. unfold chipRun. exact (run_trace_exec chip (readLogical 0x1000 96 0x2000 16 sampleReader) (mkChip 0 0 0)).
Defined.
