(* ===== verification/DeviceCalibration.v ===== *)
(** * The calibration of the device (src/network/DeviceCalibration.hpp)

    [DeviceCalibration] reads both eFuse banks, decodes them and parses the
    board's and the radio's records: the composition of the two readers with
    the decoder, over whatever readers it is instantiated with. *)

From S2P Require Import Prelude Prog EfuseCalibration EfuseReader DavEfuseReader.

(** ** Two devices *)

Definition Sum (Σ1 Σ2 : sig) : sig := Sig (Op Σ1 + Op Σ2) (fun o => match o with inl o => Ans Σ1 o | inr o => Ans Σ2 o end).
Fixpoint left_ {Σ1 Σ2 A} (p : prog Σ1 A) : prog (Sum Σ1 Σ2) A :=
  match p with Ret a => Ret a | Act o k => Act (Σ:=Sum Σ1 Σ2) (inl o) (fun x => left_ (k x)) end.
Fixpoint right_ {Σ1 Σ2 A} (p : prog Σ2 A) : prog (Sum Σ1 Σ2) A :=
  match p with Ret a => Ret a | Act o k => Act (Σ:=Sum Σ1 Σ2) (inr o) (fun x => right_ (k x)) end.
Definition leftEv {Σ1 Σ2} (e : event Σ1) : event (Sum Σ1 Σ2) := Ev (Σ:=Sum Σ1 Σ2) (inl (ev_op e)) (ev_ans e).
Definition rightEv {Σ1 Σ2} (e : event Σ2) : event (Sum Σ1 Σ2) := Ev (Σ:=Sum Σ1 Σ2) (inr (ev_op e)) (ev_ans e).
Lemma exec_left {Σ1 Σ2 A} (p : prog Σ1 A) tr a : exec (left_ (Σ2:=Σ2) p) tr a -> exists t, exec p t a /\ tr = map leftEv t.
Proof.
  revert tr. induction p as [a0|o k IH]; intros tr; cbn [left_ exec].
  - intros [-> ->]. exists []. cbn. auto.
  - intros (x & t & -> & H). apply IH in H as (t' & H & ->). exists (Ev o x :: t'). split; [cbn; eauto|reflexivity].
Qed.
Lemma exec_right {Σ1 Σ2 A} (p : prog Σ2 A) tr a : exec (right_ (Σ1:=Σ1) p) tr a -> exists t, exec p t a /\ tr = map rightEv t.
Proof.
  revert tr. induction p as [a0|o k IH]; intros tr; cbn [right_ exec].
  - intros [-> ->]. exists []. cbn. auto.
  - intros (x & t & -> & H). apply IH in H as (t' & H & ->). exists (Ev o x :: t'). split; [cbn; eauto|reflexivity].
Qed.

(** ** What the readers promise *)

(** A reader of the main bank: its method, given a buffer; [ddvKept], the calls
    it made are by its rules, and these bytes came. *)
Class DdvReader (Σ : sig) (S : Type) := {
  ddvBuffer : S -> buf;
  ddvWith : buf -> S -> S;
  readDdv : Z -> Z -> Z -> Z -> M Σ S EfuseReadResult;
  ddvKept : Z -> Z -> Z -> list (event Σ) -> list Z -> Prop;
  ddv_law cut address bytes b s tr r s' : 0 <= address -> 0 <= bytes ->
    exec (readDdv cut address bytes (zlen b) (ddvWith b s)) tr (r, s') ->
    exists res got, r = Some res /\ ddvKept cut address bytes tr got /\ zlen (ddvBuffer s') = zlen b /\
      (EfuseReader.status res = EfuseReader.ok -> EfuseReader.restored res = true /\ EfuseReader.validBytes res = bytes /\ zlen got = bytes /\ ddvBuffer s' = blit b 0 got)
}.
(** A reader of the small bank, which decodes it. *)
Class DavReader (Σ : sig) (S : Type) := {
  davBuffers : S -> buf * buf;
  davWith : buf * buf -> S -> S;
  readLogical : Z -> Z -> Z -> Z -> M Σ S DavResult;
  davKept : list (event Σ) -> list Z -> Prop;
  dav_law in_ out_ b l s tr r s' : 0 <= in_ -> 0 <= out_ ->
    exec (readLogical in_ (zlen b) out_ (zlen l) (davWith (b, l) s)) tr (r, s') ->
    exists res got, r = Some res /\ davKept tr got /\ zlen (fst (davBuffers s')) = zlen b /\
      if DavEfuseReader.isOk (DavEfuseReader.status res) then
        DavEfuseReader.busIdle res = true /\ DavEfuseReader.readEngineIdle res = true /\ DavEfuseReader.validBytes res = 96 /\ DavEfuseReader.logicalValid res = true /\ zlen got = 96 /\
        fst (davBuffers s') = blit b 0 got /\ exists es, wellFormed (bytesOf (fst (davBuffers s')) 4 88) 16 es /\ snd (davBuffers s') = image 16 es ++ drop 16 l
      else snd (davBuffers s') = l
}.

(** ** The object *)

Inductive CalibrationStage := idle | ddv | decodeDdv | dav | phycap | parse | complete | failed.
#[export] Instance CalibrationStage_eq : EqDecision CalibrationStage. Proof. solve_decision. Defined.
Record CalibrationSnapshot := mkSnapshot { s_ddv : buf; s_dav : buf; s_phycap : buf; s_logical : buf; s_board : BoardCalibration; s_phy : PhyCalibration; s_cut : Z }.
#[export] Instance CalibrationSnapshot_rebuild : Rebuild CalibrationSnapshot := fun s =>
  mkSnapshot (s_ddv s) (s_dav s) (s_phycap s) (s_logical s) (s_board s) (s_phy s) (s_cut s).
Record CalibrationReadResult := mkRead {
  stage : CalibrationStage; failedStage : CalibrationStage; r_ddv : EfuseReadResult; r_phycap : EfuseReadResult; r_dav : DavResult; r_decode : EfuseStatus; requiresRecovery : bool }.
#[export] Instance CalibrationReadResult_rebuild : Rebuild CalibrationReadResult := fun r =>
  mkRead (stage r) (failedStage r) (r_ddv r) (r_phycap r) (r_dav r) (r_decode r) (requiresRecovery r).
Definition newSnapshot : CalibrationSnapshot := mkSnapshot (replicate 1216 0) (replicate 96 0) (replicate 128 0) (replicate 2064 0) noBoard noPhy 0.
Definition newRead : CalibrationReadResult := mkRead idle idle EfuseReader.noResult EfuseReader.noResult DavEfuseReader.noResult EfuseCalibration.invalid false.

Section calibration.
Context {Σ1 Σ2 : sig} {S1 S2 : Type} `{DdvReader Σ1 S1} `{DavReader Σ2 S2}.
(** [base], the address of the snapshot, whose buffers lie one after the other. *)
Context (base : Z).

Record DeviceCalibration := mkCalibration { ddv_ : S1; dav_ : S2; snapshot_ : CalibrationSnapshot; result_ : CalibrationReadResult }.
#[export] Instance DeviceCalibration_rebuild : Rebuild DeviceCalibration := fun s => mkCalibration (ddv_ s) (dav_ s) (snapshot_ s) (result_ s).
Definition CM (A : Type) : Type := M (Sum Σ1 Σ2) DeviceCalibration A.
Definition onResult (f : CalibrationReadResult -> CalibrationReadResult) : CM unit := modify (fun s => s <| result_ := f (result_ s) |>).
Definition enter (g : CalibrationStage) : CM unit := onResult (fun r => r <| stage := g |>).
Definition fail (recovery : bool) : CM bool :=
  onResult (fun r => r <| failedStage := stage r |> <| stage := failed |> <| requiresRecovery := recovery |>);; mret false.
(** The readers' methods, with the snapshot's buffers. *)
Definition callDdv (cut address bytes : Z) (b : buf) : CM EfuseReadResult := fun s =>
  bindP (left_ (readDdv cut address bytes (zlen b) (ddvWith b (ddv_ s)))) (fun r => Ret (fst r, s <| ddv_ := snd r |>)).
Definition callDav (in_ out_ : Z) (b l : buf) : CM DavResult := fun s =>
  bindP (right_ (readLogical in_ (zlen b) out_ (zlen l) (davWith (b, l) (dav_ s)))) (fun r => Ret (fst r, s <| dav_ := snd r |>)).
Definition onSnapshot (f : CalibrationSnapshot -> CalibrationSnapshot) : CM unit := modify (fun s => s <| snapshot_ := f (snapshot_ s) |>).
Definition pure {A} (x : mres unit A) : CM A := match x with MVal a => mret a | _ => brk end.
Definition goodDdv (bytes : Z) (r : EfuseReadResult) : bool := bool_decide (EfuseReader.status r = EfuseReader.ok) && (EfuseReader.validBytes r =? bytes) && EfuseReader.restored r.
Definition ddvRecovery (r : EfuseReadResult) : bool :=
  bool_decide (EfuseReader.status r = EfuseReader.cleanupFailed) || (bool_decide (EfuseReader.status r = EfuseReader.ok) && negb (EfuseReader.restored r)).
Definition goodDav (r : DavResult) : bool :=
  DavEfuseReader.isOk (DavEfuseReader.status r) && (DavEfuseReader.validBytes r =? 96) && DavEfuseReader.logicalValid r && DavEfuseReader.busIdle r && DavEfuseReader.readEngineIdle r.
Definition davRecovery (r : DavResult) : bool :=
  DavEfuseReader.needsReset r || (DavEfuseReader.isOk (DavEfuseReader.status r) && (negb (DavEfuseReader.busIdle r) || negb (DavEfuseReader.readEngineIdle r))).
(** The last steps of [read], each from where the one before went well. *)
Definition parseAll : CM bool :=
  enter parse;;
  s ← get;
  b ← pure (parseBoardCalibration (Some (s_logical (snapshot_ s))) 2064);
  onSnapshot (fun n => n <| s_board := snd b |>);;
  if negb (fst b) || negb (identityValid (snd b)) then fail false else
  p ← pure (parsePhyCalibration (Some (s_phycap (snapshot_ s))) 128);
  onSnapshot (fun n => n <| s_phy := snd p |>);;
  if negb (fst p) then fail false else
  enter complete;; mret true.
Definition readPhycap (cut : Z) : CM bool :=
  enter phycap;;
  s ← get;
  r ← callDdv cut 0x580 128 (s_phycap (snapshot_ s));
  modify (fun s => s <| snapshot_ := (snapshot_ s) <| s_phycap := ddvBuffer (ddv_ s) |> |>);;
  onResult (fun x => x <| r_phycap := r |>);;
  if negb (goodDdv 128 r) then fail (ddvRecovery r) else parseAll.
Definition readDav (cut : Z) : CM bool :=
  enter dav;;
  s ← get;
  r ← callDav (base + 1216) (base + 1440 + 2048) (s_dav (snapshot_ s)) (drop 2048 (s_logical (snapshot_ s)));
  modify (fun s => s <| snapshot_ := (snapshot_ s) <| s_dav := fst (davBuffers (dav_ s)) |> <| s_logical := take 2048 (s_logical (snapshot_ s)) ++ snd (davBuffers (dav_ s)) |> |>);;
  onResult (fun x => x <| r_dav := r |>);;
  if negb (goodDav r) then fail (davRecovery r) else readPhycap cut.
Definition read (verifiedCut : Z) : CM bool :=
  s ← get;
  if negb (bool_decide (stage (result_ s) = idle)) || (1 <? verifiedCut) then mret false else
  onSnapshot (fun n => n <| s_cut := verifiedCut |>);;
  enter ddv;;
  r ← callDdv verifiedCut 0 1216 (s_ddv (snapshot_ s));
  modify (fun s => s <| snapshot_ := (snapshot_ s) <| s_ddv := ddvBuffer (ddv_ s) |> |>);;
  onResult (fun x => x <| r_ddv := r |>);;
  if negb (goodDdv 1216 r) then fail (ddvRecovery r) else
  enter decodeDdv;;
  s ← get;
  d ← pure (decodeEfuse base (s_ddv (snapshot_ s)) 1216 (base + 1440) (s_logical (snapshot_ s)) 2048 4);
  onSnapshot (fun n => n <| s_logical := snd d |>);;
  onResult (fun x => x <| r_decode := fst d |>);;
  if negb (bool_decide (fst d = EfuseCalibration.ok)) then fail false else readDav verifiedCut.
Definition snapshot (s : DeviceCalibration) : option CalibrationSnapshot := if bool_decide (stage (result_ s) = complete) then Some (snapshot_ s) else None.
End calibration.

(** ** The contract *)

Section contract.
Context {Σ1 Σ2 : sig} {S1 S2 : Type} `{DdvReader Σ1 S1} `{DavReader Σ2 S2}.
Context (base : Z).

(** Every execution of [m] from [s] ends in [Q]. *)
Definition runs {A} (m : @CM Σ1 Σ2 S1 S2 A) (s : @DeviceCalibration S1 S2) (Q : list (event (Sum Σ1 Σ2)) -> option A -> @DeviceCalibration S1 S2 -> Prop) : Prop :=
  forall tr r s', exec (m s) tr (r, s') -> Q tr r s'.
Lemma runs_bind {A B} (m : @CM Σ1 Σ2 S1 S2 A) (f : A -> @CM Σ1 Σ2 S1 S2 B) s Q :
  runs m s (fun t1 o s1 => match o with Some a => runs (f a) s1 (fun t2 r s' => Q (t1 ++ t2) r s') | None => Q t1 None s1 end) -> runs (m ≫= f) s Q.
Proof.
  intros Hm tr r s' He. apply exec_mbind in He as (t1 & t2 & o & s1 & -> & E1 & E2). specialize (Hm _ _ _ E1). destruct o as [a|]; [exact (Hm _ _ _ E2)|].
  destruct E2 as [-> [= -> ->]]. rewrite app_nil_r. exact Hm.
Qed.
Lemma runs_ret {A} (a : A) s (Q : list (event (Sum Σ1 Σ2)) -> option A -> @DeviceCalibration S1 S2 -> Prop) : Q [] (Some a) s -> runs (mret a) s Q.
Proof. intros HQ tr r s' [-> [= <- <-]]. exact HQ. Qed.
Lemma runs_get s (Q : list (event (Sum Σ1 Σ2)) -> option (@DeviceCalibration S1 S2) -> @DeviceCalibration S1 S2 -> Prop) : Q [] (Some s) s -> runs get s Q.
Proof. intros HQ tr r s' [-> [= <- <-]]. exact HQ. Qed.
Lemma runs_modify f s (Q : list (event (Sum Σ1 Σ2)) -> option unit -> @DeviceCalibration S1 S2 -> Prop) : Q [] (Some tt) (f s) -> runs (modify f) s Q.
Proof. intros HQ tr r s' [-> [= <- <-]]. exact HQ. Qed.
Lemma runs_pure {A} (x : mres unit A) a s (Q : list (event (Sum Σ1 Σ2)) -> option A -> @DeviceCalibration S1 S2 -> Prop) : x = MVal a -> Q [] (Some a) s -> runs (pure x) s Q.
Proof. intros -> HQ. apply runs_ret, HQ. Qed.
Lemma runs_ddv cut address bytes b s (Q : list (event (Sum Σ1 Σ2)) -> option EfuseReadResult -> @DeviceCalibration S1 S2 -> Prop) : 0 <= address -> 0 <= bytes ->
  (forall t res got s1, ddvKept cut address bytes t got -> zlen (ddvBuffer s1) = zlen b ->
     (EfuseReader.status res = EfuseReader.ok -> EfuseReader.restored res = true /\ EfuseReader.validBytes res = bytes /\ zlen got = bytes /\ ddvBuffer s1 = blit b 0 got) ->
     Q (map leftEv t) (Some res) (s <| ddv_ := s1 |>)) -> runs (callDdv cut address bytes b) s Q.
Proof.
  intros Ha Hb HQ tr r s' He. apply exec_bind in He as (t1 & t2 & [o s1] & -> & E1 & -> & [= <- <-]). apply exec_left in E1 as (t & E1 & ->).
  destruct (ddv_law _ _ _ _ _ _ _ _ Ha Hb E1) as (res & got & -> & K & Z & L). rewrite app_nil_r. exact (HQ t res got s1 K Z L).
Qed.
Lemma runs_dav in_ out_ b l s (Q : list (event (Sum Σ1 Σ2)) -> option DavResult -> @DeviceCalibration S1 S2 -> Prop) : 0 <= in_ -> 0 <= out_ ->
  (forall t res got s1, davKept t got -> zlen (fst (davBuffers s1)) = zlen b ->
     (if DavEfuseReader.isOk (DavEfuseReader.status res) then
        DavEfuseReader.busIdle res = true /\ DavEfuseReader.readEngineIdle res = true /\ DavEfuseReader.validBytes res = 96 /\ DavEfuseReader.logicalValid res = true /\ zlen got = 96 /\
        fst (davBuffers s1) = blit b 0 got /\ exists es, wellFormed (bytesOf (fst (davBuffers s1)) 4 88) 16 es /\ snd (davBuffers s1) = image 16 es ++ drop 16 l
      else snd (davBuffers s1) = l) ->
     Q (map rightEv t) (Some res) (s <| dav_ := s1 |>)) -> runs (callDav in_ out_ b l) s Q.
Proof.
  intros Ha Hb HQ tr r s' He. apply exec_bind in He as (t1 & t2 & [o s1] & -> & E1 & -> & [= <- <-]). apply exec_right in E1 as (t & E1 & ->).
  destruct (dav_law _ _ _ _ _ _ _ _ Ha Hb E1) as (res & got & -> & K & Z & L). rewrite app_nil_r. exact (HQ t res got s1 K Z L).
Qed.

(** The parts of the calls made: each reader's by its rules, and the bytes. *)
Definition Ddv (cut address bytes : Z) (tr : list (event (Sum Σ1 Σ2))) (got : buf) : Prop := exists t, tr = map leftEv t /\ ddvKept cut address bytes t got.
Definition Dav (tr : list (event (Sum Σ1 Σ2))) (got : buf) : Prop := exists t, tr = map rightEv t /\ davKept t got.
(** A complete snapshot is what the device's bytes describe. *)
Definition Truthful (cut : Z) (got1 got2 got3 : buf) (n : CalibrationSnapshot) : Prop :=
  exists es1 es2, wellFormed (bytesOf got1 4 1208) 2048 es1 /\ wellFormed (bytesOf got2 4 88) 16 es2 /\ zlen got1 = 1216 /\ zlen got2 = 96 /\ zlen got3 = 128 /\
  s_ddv n = got1 /\ s_dav n = got2 /\ s_phycap n = got3 /\ s_logical n = image 2048 es1 ++ image 16 es2 /\ s_cut n = cut /\
  parseBoardCalibration (Some (s_logical n)) 2064 = MVal (true, s_board n) /\ identityValid (s_board n) = true /\
  parsePhyCalibration (Some got3) 128 = MVal (true, s_phy n) /\ phyGood (s_phy n).
(** How a reading ends: complete, or failed at a stage, with recovery asked for
    exactly when a reader left the device in doubt. *)
Inductive Ended (cut : Z) : list (event (Sum Σ1 Σ2)) -> bool -> @DeviceCalibration S1 S2 -> Prop :=
| EndComplete t1 t2 t3 got1 got2 got3 s : Ddv cut 0 1216 t1 got1 -> Dav t2 got2 -> Ddv cut 0x580 128 t3 got3 ->
    stage (result_ s) = complete -> Truthful cut got1 got2 got3 (snapshot_ s) -> Ended cut (t1 ++ t2 ++ t3) true s
| EndDdv t1 got1 s : Ddv cut 0 1216 t1 got1 -> stage (result_ s) = failed -> failedStage (result_ s) = ddv ->
    goodDdv 1216 (r_ddv (result_ s)) = false -> requiresRecovery (result_ s) = ddvRecovery (r_ddv (result_ s)) -> Ended cut t1 false s
| EndDecode t1 got1 s : Ddv cut 0 1216 t1 got1 -> stage (result_ s) = failed -> failedStage (result_ s) = decodeDdv ->
    zlen got1 = 1216 -> (forall es, ~ wellFormed (bytesOf got1 4 1208) 2048 es) -> requiresRecovery (result_ s) = false -> Ended cut t1 false s
| EndDav t1 t2 got1 got2 s : Ddv cut 0 1216 t1 got1 -> Dav t2 got2 -> stage (result_ s) = failed -> failedStage (result_ s) = dav ->
    goodDav (r_dav (result_ s)) = false -> requiresRecovery (result_ s) = davRecovery (r_dav (result_ s)) -> Ended cut (t1 ++ t2) false s
| EndPhycap t1 t2 t3 got1 got2 got3 s : Ddv cut 0 1216 t1 got1 -> Dav t2 got2 -> Ddv cut 0x580 128 t3 got3 -> stage (result_ s) = failed -> failedStage (result_ s) = phycap ->
    goodDdv 128 (r_phycap (result_ s)) = false -> requiresRecovery (result_ s) = ddvRecovery (r_phycap (result_ s)) -> Ended cut (t1 ++ t2 ++ t3) false s
| EndParse t1 t2 t3 got1 got2 got3 s : Ddv cut 0 1216 t1 got1 -> Dav t2 got2 -> Ddv cut 0x580 128 t3 got3 -> stage (result_ s) = failed -> failedStage (result_ s) = parse ->
    identityValid (s_board (snapshot_ s)) = false -> requiresRecovery (result_ s) = false -> Ended cut (t1 ++ t2 ++ t3) false s.

(** The buffers of a snapshot. *)
Record Sized (n : CalibrationSnapshot) : Prop := { sz_ddv : zlen (s_ddv n) = 1216; sz_dav : zlen (s_dav n) = 96; sz_phycap : zlen (s_phycap n) = 128; sz_logical : zlen (s_logical n) = 2064 }.
Lemma goodDdv_true n r : goodDdv n r = true -> EfuseReader.status r = EfuseReader.ok /\ EfuseReader.restored r = true.
Proof. unfold goodDdv. intros [[E _]%andb_true_iff R]%andb_true_iff. split; [apply bool_decide_eq_true in E; exact E|exact R]. Qed.
Lemma goodDav_true r : goodDav r = true -> DavEfuseReader.isOk (DavEfuseReader.status r) = true.
Proof. unfold goodDav. intros [[[[E _]%andb_true_iff _]%andb_true_iff _]%andb_true_iff _]%andb_true_iff. exact E. Qed.
Lemma runs_fail recovery s (Q : list (event (Sum Σ1 Σ2)) -> option bool -> @DeviceCalibration S1 S2 -> Prop) :
  Q [] (Some false) (s <| result_ := (result_ s) <| failedStage := stage (result_ s) |> <| stage := failed |> <| requiresRecovery := recovery |> |>) -> runs (fail recovery) s Q.
Proof. intros HQ. unfold fail, onResult. apply runs_bind, runs_modify. cbn beta iota. apply runs_ret. exact HQ. Qed.
Lemma runs_enter g s (Q : list (event (Sum Σ1 Σ2)) -> option unit -> @DeviceCalibration S1 S2 -> Prop) :
  Q [] (Some tt) (s <| result_ := (result_ s) <| stage := g |> |>) -> runs (enter g) s Q.
Proof. intros HQ. apply runs_modify, HQ. Qed.

(** From the last read on. *)
Definition Banks (cut : Z) (got1 got2 got3 : buf) (n : CalibrationSnapshot) : Prop :=
  exists es1 es2, wellFormed (bytesOf got1 4 1208) 2048 es1 /\ wellFormed (bytesOf got2 4 88) 16 es2 /\ zlen got1 = 1216 /\ zlen got2 = 96 /\ zlen got3 = 128 /\
  s_ddv n = got1 /\ s_dav n = got2 /\ s_phycap n = got3 /\ s_logical n = image 2048 es1 ++ image 16 es2 /\ s_cut n = cut.
Lemma banks_logical cut got1 got2 got3 n : Banks cut got1 got2 got3 n -> zlen (s_logical n) = 2064.
Proof.
  intros (es1 & es2 & (t1 & _ & G1 & _) & (t2 & _ & G2 & _) & _ & _ & _ & _ & _ & _ & -> & _). rewrite zlen_app, !zlen_image by (assumption || lia). reflexivity.
Qed.
Lemma parseAll_runs cut t1 t2 t3 got1 got2 got3 s : Ddv cut 0 1216 t1 got1 -> Dav t2 got2 -> Ddv cut 0x580 128 t3 got3 -> Banks cut got1 got2 got3 (snapshot_ s) ->
  runs parseAll s (fun t r s' => exists ok, r = Some ok /\ Ended cut (t1 ++ t2 ++ t3 ++ t) ok s').
Proof.
  intros K1 K2 K3 B. pose proof (banks_logical _ _ _ _ _ B) as Hz. unfold parseAll. apply runs_bind, runs_enter. cbn beta iota. apply runs_bind, runs_get. cbn beta iota.
  destruct (board_total (s_logical (snapshot_ s)) 2064 ltac:(lia)) as (c & Ec).
  apply runs_bind, (runs_pure _ _ _ _ Ec). cbn beta iota. unfold onSnapshot. apply runs_bind, runs_modify. cbn beta iota. cbn [fst snd negb orb].
  destruct (identityValid c) eqn:Ei; cbn [negb].
  2: { apply runs_fail. exists false. split; [reflexivity|]. rewrite !app_nil_r. eapply EndParse; try eassumption; reflexivity. }
  destruct B as (es1 & es2 & W1 & W2 & Z1 & Z2 & Z3 & E1 & E2 & E3 & E4 & E5).
  destruct (phy_parsed got3 128 ltac:(lia)) as (p & Ep & Gp).
  apply runs_bind, (runs_pure _ (true, p)); [cbn; rewrite E3; exact Ep|]. cbn beta iota. apply runs_bind, runs_modify. cbn beta iota. cbn [fst snd negb].
  apply runs_bind, runs_enter. cbn beta iota. apply runs_ret. exists true. split; [reflexivity|]. rewrite !app_nil_r. eapply EndComplete; try eassumption; [reflexivity|].
  exists es1, es2. split; [exact W1|]. split; [exact W2|]. split; [exact Z1|]. split; [exact Z2|]. split; [exact Z3|]. split; [exact E1|]. split; [exact E2|]. split; [exact E3|].
  split; [exact E4|]. split; [exact E5|]. split; [exact Ec|]. split; [exact Ei|]. split; [exact Ep|exact Gp].
Qed.
Lemma readPhycap_runs cut t1 t2 got1 got2 s : Ddv cut 0 1216 t1 got1 -> Dav t2 got2 -> zlen (s_phycap (snapshot_ s)) = 128 ->
  (forall got3, zlen got3 = 128 -> Banks cut got1 got2 got3 ((snapshot_ s) <| s_phycap := got3 |>)) ->
  runs (readPhycap cut) s (fun t r s' => exists ok, r = Some ok /\ Ended cut (t1 ++ t2 ++ t) ok s').
Proof.
  intros K1 K2 Hz HB. unfold readPhycap. apply runs_bind, runs_enter. cbn beta iota. apply runs_bind, runs_get. cbn beta iota.
  apply runs_bind, runs_ddv; [lia|lia|]. intros t res got3 s1 K Z L. cbn beta iota. apply runs_bind, runs_modify. cbn beta iota. unfold onResult. apply runs_bind, runs_modify. cbn beta iota.
  assert (K3 : Ddv cut 0x580 128 (map leftEv t) got3) by (exists t; auto).
  destruct (goodDdv 128 res) eqn:Eg; cbn [negb].
  - destruct (goodDdv_true _ _ Eg) as [Eok _]. destruct (L Eok) as (_ & _ & Zg & Eb). cbn in Eb. rewrite blit_all in Eb by (rewrite Zg; symmetry; exact Hz).
    intros tr r s' He. refine (parseAll_runs cut t1 t2 (map leftEv t) got1 got2 got3 _ K1 K2 K3 _ tr r s' He). cbn. rewrite Eb. apply HB, Zg.
  - apply runs_fail. exists false. split; [reflexivity|]. cbn [app]. rewrite !app_nil_r. eapply EndPhycap; try eassumption; reflexivity || exact Eg.
Qed.
Lemma readDav_runs cut t1 got1 es1 s : 0 < base -> Ddv cut 0 1216 t1 got1 -> wellFormed (bytesOf got1 4 1208) 2048 es1 -> zlen got1 = 1216 ->
  s_ddv (snapshot_ s) = got1 -> zlen (s_dav (snapshot_ s)) = 96 -> zlen (s_phycap (snapshot_ s)) = 128 -> s_cut (snapshot_ s) = cut ->
  (exists rest, zlen rest = 16 /\ s_logical (snapshot_ s) = image 2048 es1 ++ rest) ->
  runs (readDav base cut) s (fun t r s' => exists ok, r = Some ok /\ Ended cut (t1 ++ t) ok s').
Proof.
  intros Hbase K1 W1 Z1 E1 Zd Zp Ecut (rest & Zr & El). assert (Zi : zlen (image 2048 es1) = 2048) by (destruct W1 as (tail & _ & G & _); apply zlen_image; [lia|exact G]).
  unfold readDav. apply runs_bind, runs_enter. cbn beta iota. apply runs_bind, runs_get. cbn beta iota.
  apply runs_bind, runs_dav; [lia|lia|]. intros t res got2 s1 K Z L. cbn beta iota. apply runs_bind, runs_modify. cbn beta iota. unfold onResult. apply runs_bind, runs_modify. cbn beta iota.
  assert (K2 : Dav (map rightEv t) got2) by (exists t; auto).
  destruct (goodDav res) eqn:Eg; cbn [negb].
  - rewrite (goodDav_true _ Eg) in L. destruct L as (_ & _ & _ & _ & Zg & Eb & es2 & W2 & Eim). cbn in Eb, Eim. rewrite El in Eim.
    rewrite blit_all in Eb by (rewrite Zg; symmetry; exact Zd). rewrite Eb in W2.
    assert (Er : drop 2048 (image 2048 es1 ++ rest) = rest) by (rewrite drop_app_ge by (unfold zlen in Zi; lia); replace (2048 - length (image 2048 es1))%nat with 0%nat by (unfold zlen in Zi; lia); apply drop_0).
    rewrite Er, (drop_ge rest) in Eim by (unfold zlen in Zr; lia). rewrite app_nil_r in Eim.
    assert (Et : take 2048 (image 2048 es1 ++ rest) = image 2048 es1) by (rewrite take_app_le by (unfold zlen in Zi; lia); apply take_ge; unfold zlen in Zi; lia).
    intros tr r s' He. refine (readPhycap_runs cut t1 (map rightEv t) got1 got2 _ K1 K2 _ _ tr r s' He); [exact Zp|].
    intros got3 Z3. cbn. rewrite Eb, El, Et, Eim. exists es1, es2. split; [exact W1|]. split; [exact W2|]. split; [exact Z1|]. split; [exact Zg|]. split; [exact Z3|]. split; [exact E1|]. auto.
  - apply runs_fail. exists false. split; [reflexivity|]. cbn [app]. rewrite !app_nil_r. eapply EndDav; try eassumption; reflexivity || exact Eg.
Qed.
Lemma read_runs cut s : 0 < base -> 0 <= cut -> Sized (snapshot_ s) ->
  runs (read base cut) s (fun tr r s' =>
    if negb (bool_decide (stage (result_ s) = idle)) || (1 <? cut) then tr = [] /\ r = Some false /\ s' = s else exists ok, r = Some ok /\ Ended cut tr ok s').
Proof.
  intros Hbase Hcut [Z1 Z2 Z3 Z4]. unfold read. apply runs_bind, runs_get. cbn beta iota. destruct (negb _ || _); [apply runs_ret; auto|].
  unfold onSnapshot. apply runs_bind, runs_modify. cbn beta iota. apply runs_bind, runs_enter. cbn beta iota.
  apply runs_bind, runs_ddv; [lia|lia|]. intros t res got1 s1 K Z L. cbn beta iota. apply runs_bind, runs_modify. cbn beta iota. unfold onResult. apply runs_bind, runs_modify. cbn beta iota.
  assert (K1 : Ddv cut 0 1216 (map leftEv t) got1) by (exists t; auto).
  destruct (goodDdv 1216 res) eqn:Eg; cbn [negb].
  2: { apply runs_fail. exists false. split; [reflexivity|]. cbn [app]. rewrite !app_nil_r. eapply EndDdv; try eassumption; reflexivity || exact Eg. }
  destruct (goodDdv_true _ _ Eg) as [Eok _]. destruct (L Eok) as (_ & _ & Zg & Eb). rewrite blit_all in Eb by (rewrite Zg; symmetry; exact Z1).
  apply runs_bind, runs_enter. cbn beta iota. apply runs_bind, runs_get. cbn beta iota.
  assert (G : given base got1 1216 (base + 1440) (s_logical (snapshot_ s)) 2048 4) by (split; first [lia|vm_compute; easy|left; lia]).
  destruct (decode_cases _ _ _ _ _ _ _ G) as [(e & He & Ed & Hn)|(es & W & Ed)].
  - apply runs_bind, (runs_pure _ (e, s_logical (snapshot_ s))); [cbn; rewrite Eb; exact Ed|]. cbn beta iota. apply runs_bind, runs_modify. cbn beta iota. apply runs_bind, runs_modify. cbn beta iota. cbn [fst snd].
    rewrite bool_decide_eq_false_2 by exact He. cbn [negb]. apply runs_fail. exists false. split; [reflexivity|]. cbn [app]. rewrite !app_nil_r. eapply EndDecode; try eassumption; reflexivity.
  - apply runs_bind, (runs_pure _ (EfuseCalibration.ok, image 2048 es ++ drop (Z.to_nat 2048) (s_logical (snapshot_ s)))); [cbn; rewrite Eb; exact Ed|]. cbn beta iota.
    apply runs_bind, runs_modify. cbn beta iota. apply runs_bind, runs_modify. cbn beta iota. cbn [fst snd]. rewrite bool_decide_eq_true_2 by reflexivity. cbn [negb].
    intros tr r s' He. refine (readDav_runs cut (map leftEv t) got1 es _ Hbase K1 W Zg _ _ _ _ _ tr r s' He); [exact Eb|exact Z2|exact Z3|reflexivity|].
    eexists. split; [|reflexivity]. unfold zlen in *. rewrite length_drop. lia.
Qed.
End contract.

(** ** The readers keep the promises *)

Definition withFuse (b : buf) (s : EfuseReader.EfuseReader) : EfuseReader.EfuseReader :=
  EfuseReader.mkReader (EfuseReader.originalIso_ s) (EfuseReader.originalPmc_ s) (EfuseReader.originalBurst_ s) (EfuseReader.begin_ s) (EfuseReader.previous_ s)
    (EfuseReader.touched_ s) (EfuseReader.burst_ s) (EfuseReader.result_ s) b.
(** Every call by the rules of the reader, the rail left as its contract says. *)
Definition fuseKept (cut address bytes : Z) (tr : list (event FuseIo)) (l : buf) : Prop :=
  let g := after (fuseRules address bytes (cut =? 0)) newRail tr in
  accepts (fuseRules address bytes (cut =? 0)) newRail tr /\ EfuseReader.got g = l /\ exists s r s', EfuseReader.Finished address bytes (cut =? 0) s r s' g.
Lemma efuse_law cut address bytes b s tr r s' : 0 <= address -> 0 <= bytes ->
  exec (EfuseReader.readDdv cut address bytes true (zlen b) (withFuse b s)) tr (r, s') ->
  exists res got, r = Some res /\ fuseKept cut address bytes tr got /\ zlen (EfuseReader.out s') = zlen b /\
    (EfuseReader.status res = EfuseReader.ok -> EfuseReader.restored res = true /\ EfuseReader.validBytes res = bytes /\ zlen got = bytes /\ EfuseReader.out s' = blit b 0 got).
Proof.
  intros Ha Hb He. set (P := fuseRules address bytes (cut =? 0)).
  assert (H : accepts P newRail tr /\ EfuseReader.Finished address bytes (cut =? 0) (withFuse b s) r s' (after P newRail tr) /\
    (~ EfuseReader.acceptable address bytes true (zlen b) -> log (after P newRail tr) = [] /\ EfuseReader.out s' = b /\ EfuseReader.result_ s' = EfuseReader.noResult))
    by exact (wp_sound P _ newRail _ tr _ (readDdv_wp cut address bytes true (zlen b) (withFuse b s) newRail Ha Hb eq_refl eq_refl eq_refl eq_refl) He (relies_trivial P newRail tr (fun _ _ _ => I))).
  destruct H as (Hacc & Hfin & Hn). set (g := after P newRail tr) in *. pose proof Hfin as (-> & Hf).
  exists (EfuseReader.result_ s'), (EfuseReader.got g). split; [reflexivity|]. split; [split; [exact Hacc|split; [reflexivity|eauto]]|].
  destruct Hf as [(_ & Eo & Es & _)|(done & rest & n & ds & D)]; [cbn in Eo; split; [rewrite Eo; reflexivity|intros E; contradiction]|].
  assert (Hz : forall l, zlen l <= zlen b -> zlen (blit b 0 l) = zlen b) by (intros l Hl; apply zlen_blit; lia).
  destruct D as [_ _ _ Hn2 _ _ [_ Hg] _ Hs].
  destruct (Z_le_dec bytes (zlen b)) as [Hc|Hc].
  - destruct (EfuseReader.isOk (EfuseReader.status (EfuseReader.result_ s'))) eqn:Eok; cbn [EfuseReader.out withFuse] in Hs.
    + destruct Hs as (R & _ & _ & Zg & V & Eo). split; [rewrite Eo; apply Hz; lia|auto].
    + split; [rewrite Hs; apply Hz; unfold zlen in *; rewrite length_replicate; lia|]. intros E. unfold EfuseReader.isOk in Eok. apply bool_decide_eq_false in Eok. contradiction.
  - destruct Hn as (_ & Eo & Er); [intros (_ & Hc2 & _); lia|]. split; [rewrite Eo; reflexivity|]. rewrite Er. discriminate.
Qed.
#[export] Instance efuseReads : DdvReader FuseIo EfuseReader.EfuseReader := {|
  ddvBuffer := EfuseReader.out; ddvWith := withFuse; readDdv cut address bytes capacity := EfuseReader.readDdv cut address bytes true capacity; ddvKept := fuseKept; ddv_law := efuse_law |}.

Definition withDav (bl : buf * buf) (s : DavEfuseReader) : DavEfuseReader := s <| out := fst bl |> <| logical_ := snd bl |>.
Definition busKept (tr : list (event DavIo)) (l : buf) : Prop :=
  let g := after (busRules 0 96) newBus tr in
  accepts (busRules 0 96) newBus tr /\ got g = l /\ exists s r s', Logical s r s' g.
Lemma davReader_law in_ out_ b l s tr r s' : 0 <= in_ -> 0 <= out_ ->
  exec (DavEfuseReader.readLogical in_ (zlen b) out_ (zlen l) (withDav (b, l) s)) tr (r, s') ->
  exists res got, r = Some res /\ busKept tr got /\ zlen (out s') = zlen b /\
    if DavEfuseReader.isOk (status res) then
      busIdle res = true /\ readEngineIdle res = true /\ validBytes res = 96 /\ logicalValid res = true /\ zlen got = 96 /\
      out s' = blit b 0 got /\ exists es, wellFormed (bytesOf (out s') 4 88) 16 es /\ logical_ s' = image 16 es ++ drop 16 l
    else logical_ s' = l.
Proof.
  intros Hi Ho He. assert (Hp : placed in_ (zlen b) out_ (zlen l) (withDav (b, l) s)) by (split; [exact Hi|exact Ho|cbn; lia|cbn; lia]).
  assert (H : accepts (busRules 0 96) newBus tr /\ Logical (withDav (b, l) s) r s' (after (busRules 0 96) newBus tr))
    by exact (wp_sound (busRules 0 96) _ newBus _ tr _ (readLogical_wp in_ (zlen b) out_ (zlen l) _ Hp) He (relies_trivial (busRules 0 96) newBus tr (fun _ _ _ => I))).
  destruct H as (Hacc & Hlog). pose proof Hlog as (res & E & _ & _ & _ & Z1 & L).
  exists res, (got (after (busRules 0 96) newBus tr)). split; [exact E|]. split; [split; [exact Hacc|split; [reflexivity|eauto]]|]. split; [exact Z1|].
  destruct (isOk (status res)); [|exact L]. destruct L as (_ & B1 & B2 & B3 & B4 & _ & B5 & B6 & B7). auto 10.
Qed.
#[export] Instance davReads : DavReader DavIo DavEfuseReader := {|
  davBuffers s := (out s, logical_ s); davWith := withDav; readLogical := DavEfuseReader.readLogical; davKept := busKept; dav_law := davReader_law |}.


(** ** A concrete run *)

(** A main bank with a MAC address (at 0x400) and a front-end type (at 0x2ca);
    at 0x580 the radio's bytes; a small bank with one record. *)
Definition mainBank (a : Z) : Z :=
  if a <? 0x580 then nth (Z.to_nat a) ([1; 2; 3; 4; 8; 0; 0x00; 0xe0; 0x4c; 1; 2; 3; 255; 255; 5; 0x9d; 1; 0]) 255 else if a =? 0x5e9 then 0xaa else 255.
Record Chips := mkChips { h_fuse : EfuseReader.FuseChip; h_dav : DavChip }.
Definition fuseBank : handler FuseIo EfuseReader.FuseChip := fun d o =>
  match o as o return Ans FuseIo o * EfuseReader.FuseChip with
  | EfuseReader.Read32 a => ((true, if a =? 0x38 then EfuseReader.c_burst d else Z.lor 0x20000000 (mainBank (EfuseReader.c_command d))), d)
  | o => EfuseReader.chip d o
  end.
Definition chips : handler (Sum FuseIo DavIo) Chips := fun d o =>
  match o as o return Ans (Sum FuseIo DavIo) o * Chips with
  | inl o => let (x, f) := fuseBank (h_fuse d) o in (x, mkChips f (h_dav d))
  | inr o => let (x, v) := DavEfuseReader.chip (h_dav d) o in (x, mkChips (h_fuse d) v)
  end.
Definition sampleCalibration : @DeviceCalibration EfuseReader.EfuseReader DavEfuseReader :=
  mkCalibration (EfuseReader.newReader []) (newReader [] []) newSnapshot newRead.
Definition calibrationRun := run_trace chips (read 0x1000 1 sampleCalibration) (mkChips (EfuseReader.mkChip 0x1123 0x10 0x40 0 0) (mkChip 0 0 0)).
Example calibration_read :
  match snapshot (snd (fst (fst calibrationRun))) with Some n => (mac (s_board n), rfe (s_board n), powerValid (s_phy n), zlen (s_logical n)) | None => ([], 0, false, 0) end =
  ([0x00; 0xe0; 0x4c; 1; 2; 3], 1, true, 2064).
Proof. vm_compute. reflexivity. Qed.
