(* ===== verification/RadioTables.v ===== *)
(** * The tables of the radio (src/network/RadioTables.hpp)

    The radio is initialised from tables of registers whose rows may be grouped
    in branches, each for a kind of board. [applyRadioTable] selects the kind,
    checks the groups and writes the rows that are for it. *)

From S2P Require Import Prelude Prog.

(** ** Data *)

Record RadioRegister := mkRow { address : Z; value : Z }.
Inductive RadioTableKind := baseband | radio | gain.
#[export] Instance RadioTableKind_eq : EqDecision RadioTableKind. Proof. solve_decision. Defined.
(** A table's count is the length of its array; [None] is a null pointer. *)
Record RadioTable := mkTable { registers : option (list RadioRegister); kind : RadioTableKind; path : Z }.
Inductive RadioTableStatus := ok | invalid | unmatched | malformed | ioError | cancelled.
#[export] Instance RadioTableStatus_eq : EqDecision RadioTableStatus. Proof. solve_decision. Defined.
Record RadioTableResult := mkResult { status : RadioTableStatus; row : Z; selected : Z; writes : Z; delays : Z; target : Z }.
#[export] Instance RadioTableResult_rebuild : Rebuild RadioTableResult := fun r =>
  mkResult (status r) (row r) (selected r) (writes r) (delays r) (target r).
Definition noResult : RadioTableResult := mkResult invalid 0 0 0 0 0.

Definition op (r : RadioRegister) : Z := Z.shiftr (address r) 28.
Definition low (r : RadioRegister) : Z := Z.land (address r) 0x0fffffff.
Definition boardOf (r : RadioRegister) : Z := Z.land (Z.shiftr (address r) 16) 255.
Definition cutOf (r : RadioRegister) : Z := Z.land (address r) 255.

(** ** Selecting the kind of board *)

Fixpoint countHeadlines (rows : list RadioRegister) : nat :=
  match rows with r :: rows => if op r =? 15 then Datatypes.S (countHeadlines rows) else O | [] => O end.
(** The last of the highest cuts of a board: its cut, the target and whether
    there is one. *)
Definition highest (want : Z) (best : Z * Z * bool) (r : RadioRegister) : Z * Z * bool :=
  let '(maximum, target, found) := best in
  if negb (boardOf r =? want) then best else if maximum <=? cutOf r then (cutOf r, low r, true) else best.
Definition selectRadioTable (t : RadioTable) (rfe cut : Z) : RadioTableStatus * Z * Z :=
  match registers t with
  | None => (invalid, 0, 0)
  | Some rows =>
      if (zlen rows =? 0) || (65536 <? zlen rows) || (1 <? path t) then (invalid, 0, 0) else
      let n := countHeadlines rows in
      if (n =? 0)%nat then (ok, 0, match rows with r :: _ => low r | [] => 0 end) else
      if Z.of_nat n =? zlen rows then (malformed, Z.of_nat n, 0) else
      let heads := take n rows in
      let compare := Z.lor (Z.shiftl rfe 16) cut in
      if existsb (fun r => low r =? compare) heads then (ok, Z.of_nat n, compare) else
      let anyCut := Z.lor (Z.shiftl rfe 16) 255 in
      if existsb (fun r => low r =? anyCut) heads then (ok, Z.of_nat n, anyCut) else
      let '(_, t1, found) := fold_left (highest rfe) heads (0, 0, false) in
      if found then (ok, Z.of_nat n, t1) else
      let '(_, t2, found) := fold_left (highest 255) heads (0, t1, false) in
      if found then (ok, Z.of_nat n, t2) else (unmatched, Z.of_nat n, t2)
  end.

(** ** Checking the groups *)

Record Branches := mkBranches { branch : bool; needsCheck : bool; found : bool; seenElse : bool }.
(** One row, after [prev]; [inl] leaves the loop. *)
Definition checkRow (chosen : Z) (prev r : RadioRegister) (b : Branches) : RadioTableStatus + Branches :=
  if op r =? 8 then if branch b then inl malformed else inr (mkBranches true true false false)
  else if op r =? 9 then if negb (branch b) || needsCheck b || seenElse b then inl malformed else inr (mkBranches (branch b) true (found b) (seenElse b))
  else if op r =? 4 then
    if negb (branch b) || negb (needsCheck b) then inl malformed
    else inr (mkBranches (branch b) false (if low prev =? chosen then true else found b) (seenElse b))
  else if op r =? 10 then
    if negb (branch b) || needsCheck b || seenElse b then inl malformed
    else if negb (found b) then inl unmatched else inr (mkBranches (branch b) (needsCheck b) (found b) true)
  else if op r =? 11 then if negb (branch b) || needsCheck b then inl malformed else inr (mkBranches false (needsCheck b) (found b) (seenElse b))
  else if needsCheck b || (op r =? 15) then inl malformed else inr b.
Fixpoint checkRows (chosen : Z) (prev : RadioRegister) (rows : list RadioRegister) (b : Branches) : RadioTableStatus :=
  match rows with
  | [] => if branch b then malformed else ok
  | r :: rows => match checkRow chosen prev r b with inl s => s | inr b => checkRows chosen r rows b end
  end.
(** [begin] is the number of headlines; the row before the first is not used. *)
Definition validateRadioBranches (t : RadioTable) (begin chosen : Z) : RadioTableStatus :=
  match registers t with
  | None => ok
  | Some rows => checkRows chosen (nth (Z.to_nat (begin - 1)) rows (mkRow 0 0)) (drop (Z.to_nat begin) rows) (mkBranches false false false false)
  end.

(** ** Applying a table *)

Inductive sinkOp := Cancelled | BbWrite (a v : Z) | RfWrite (path a v : Z) | GainRecord (a v : Z) | DelayUs (us : Z).
Definition sinkAns (o : sinkOp) : Type := bool.
Definition Sink : sig := Sig sinkOp sinkAns.
Definition TM (A : Type) : Type := M Sink RadioTableResult A.
Definition sink (o : sinkOp) : TM bool := call (Σ:=Sink) o.
Definition finish (s : RadioTableStatus) : TM unit := modify (fun r => r <| status := s |>);; brk.
Definition delayOf (a : Z) : Z :=
  if a =? 0xfe then 50000 else if a =? 0xfd then 5000 else if a =? 0xfc then 1000 else if a =? 0xfb then 50 else if a =? 0xfa then 5 else if a =? 0xf9 then 1 else 0.
Definition counted (o : sinkOp) (f : RadioTableResult -> RadioTableResult) : TM bool := x ← sink o; when x (modify f);; mret (x : bool).
Definition wroteOne (r : RadioTableResult) : RadioTableResult := r <| writes := writes r + 1 |>.
Definition delayedOne (r : RadioTableResult) : RadioTableResult := r <| delays := delays r + 1 |>.
(** A row that is for the board; [continue] leaves nothing to check. *)
Definition applyRow (t : RadioTable) (r : RadioRegister) : TM unit :=
  modify (fun s => s <| selected := selected s + 1 |>);;
  x ← match kind t with
      | baseband =>
          if negb (delayOf (address r) =? 0) then counted (DelayUs (delayOf (address r))) delayedOne
          else if value r =? 0xbabecafe then mret true
          else counted (BbWrite (address r) (value r)) wroteOne
      | radio => counted (RfWrite (path t) (address r) (value r)) wroteOne
      | gain => counted (GainRecord (address r) (value r)) wroteOne
      end;
  unless x (finish ioError).
(** The rows from [i] on; [wanted] is the condition last met. *)
Fixpoint applyRows (t : RadioTable) (chosen i : Z) (rows : list RadioRegister) (matched fnd : bool) (wanted : Z) : TM unit :=
  match rows with
  | [] => modify (fun s => s <| status := ok |>)
  | r :: rows =>
      modify (fun s => s <| row := i |>);;
      c ← sink Cancelled;
      if c : bool then finish cancelled else
      if (op r =? 8) || (op r =? 9) then applyRows t chosen (i + 1) rows matched fnd (low r)
      else if op r =? 10 then applyRows t chosen (i + 1) rows false fnd wanted
      else if op r =? 11 then applyRows t chosen (i + 1) rows true false wanted
      else if op r =? 4 then
        let m := negb fnd && (wanted =? chosen) in applyRows t chosen (i + 1) rows m (if m then true else fnd) wanted
      else if negb matched then applyRows t chosen (i + 1) rows matched fnd wanted
      else applyRow t r;; applyRows t chosen (i + 1) rows matched fnd wanted
  end.
Definition applyRadioTable (t : RadioTable) (rfe cut : Z) : TM unit :=
  let '(st, start, tgt) := selectRadioTable t rfe cut in
  modify (fun r => r <| status := st |> <| target := tgt |>);;
  if negb (bool_decide (st = ok)) then brk else
  modify (fun r => r <| status := validateRadioBranches t start tgt |>);;
  if negb (bool_decide (validateRadioBranches t start tgt = ok)) then brk else
  match registers t with None => mret tt | Some rows => applyRows t tgt start (drop (Z.to_nat start) rows) true false 0 end.

(** ** The structure of a table *)

(** A row that is written; a branch, its condition, its check and its rows; and
    the items of a table: such rows, and groups of branches. *)
Definition plain (r : RadioRegister) : Prop := ~ In (op r) [8; 9; 4; 10; 11; 15].
Record arm := mkArm { a_head : RadioRegister; a_check : RadioRegister; a_rows : list RadioRegister }.
Inductive item := Plain (r : RadioRegister) | Group (arms : list arm) (els : option (RadioRegister * list RadioRegister)) (last : RadioRegister).
Definition armRows (a : arm) : list RadioRegister := a_head a :: a_check a :: a_rows a.
Definition elseRows (e : option (RadioRegister * list RadioRegister)) : list RadioRegister := match e with Some (r, rows) => r :: rows | None => [] end.
Definition flat (x : item) : list RadioRegister :=
  match x with Plain r => [r] | Group arms els e => concat (map armRows arms) ++ elseRows els ++ [e] end.
Definition goodArm (code : Z) (a : arm) : Prop := op (a_head a) = code /\ op (a_check a) = 4 /\ Forall plain (a_rows a).
Definition hit (chosen : Z) (a : arm) : bool := low (a_head a) =? chosen.
(** The first branch opens the group; a last resort is only allowed where a
    branch is for the board. *)
Definition goodElse (found : bool) (e : option (RadioRegister * list RadioRegister)) : Prop :=
  match e with Some (r, rows) => op r = 10 /\ Forall plain rows /\ found = true | None => True end.
Definition good (chosen : Z) (x : item) : Prop :=
  match x with
  | Plain r => plain r
  | Group arms els e =>
      match arms with [] => False | a :: arms => goodArm 8 a /\ Forall (goodArm 9) arms end /\
      goodElse (existsb (hit chosen) arms) els /\ op e = 11
  end.
(** The rows for the board: of a group, those of its first branch that is. *)
Fixpoint armChosen (chosen : Z) (arms : list arm) : list RadioRegister :=
  match arms with [] => [] | a :: arms => if hit chosen a then a_rows a else armChosen chosen arms end.
Definition chosenRows (chosen : Z) (x : item) : list RadioRegister := match x with Plain r => [r] | Group arms _ _ => armChosen chosen arms end.

(** *** The check is the structure *)

Lemma plain_op r k : plain r -> In k [8; 9; 4; 10; 11; 15] -> (op r =? k) = false.
Proof. intros H Hk. apply Z.eqb_neq. intros <-. contradiction. Qed.
Lemma checkRows_plain chosen prev b body rest : needsCheck b = false -> Forall plain body ->
  exists prev', checkRows chosen prev (body ++ rest) b = checkRows chosen prev' rest b.
Proof.
  intros Hn Hb. revert prev. induction Hb as [|r body Hr _ IH]; intros prev; [exists prev; reflexivity|]. destruct (IH r) as (p & E). exists p. rewrite <- E. cbn [app checkRows].
  assert (Er : checkRow chosen prev r b = inr b); [|rewrite Er; reflexivity]. unfold checkRow. rewrite !(plain_op r _ Hr) by (cbn; tauto). rewrite Hn. reflexivity.
Qed.
Lemma checkRow_head9 chosen prev r f : op r = 9 -> checkRow chosen prev r (mkBranches true false f false) = inr (mkBranches true true f false).
Proof. intros E. unfold checkRow. rewrite E. reflexivity. Qed.
Lemma checkRow_head8 chosen prev r f e : op r = 8 -> checkRow chosen prev r (mkBranches false false f e) = inr (mkBranches true true false false).
Proof. intros E. unfold checkRow. rewrite E. reflexivity. Qed.
Lemma checkRow_check chosen prev r f e : op r = 4 -> checkRow chosen prev r (mkBranches true true f e) = inr (mkBranches true false (if low prev =? chosen then true else f) e).
Proof. intros E. unfold checkRow. rewrite E. reflexivity. Qed.
Lemma checkRows_arm chosen code prev a f rest b : goodArm code a -> checkRow chosen prev (a_head a) b = inr (mkBranches true true f false) ->
  exists prev', checkRows chosen prev (armRows a ++ rest) b = checkRows chosen prev' rest (mkBranches true false (if hit chosen a then true else f) false).
Proof.
  intros (_ & E2 & E3) E1. unfold armRows. cbn [app checkRows]. rewrite E1. rewrite checkRow_check by exact E2. apply checkRows_plain; [reflexivity|exact E3].
Qed.
Lemma checkRows_arms chosen prev arms f rest : Forall (goodArm 9) arms ->
  exists prev', checkRows chosen prev (concat (map armRows arms) ++ rest) (mkBranches true false f false) =
    checkRows chosen prev' rest (mkBranches true false (if existsb (hit chosen) arms then true else f) false).
Proof.
  intros Ha. revert prev f. induction Ha as [|a arms Ha _ IH]; intros prev f; [exists prev; reflexivity|]. cbn [map concat existsb]. rewrite <- app_assoc.
  destruct (checkRows_arm chosen 9 prev a f (concat (map armRows arms) ++ rest) (mkBranches true false f false) Ha) as (p1 & ->); [apply checkRow_head9, Ha|].
  destruct (IH p1 (if hit chosen a then true else f)) as (p2 & ->). exists p2. destruct (hit chosen a), (existsb (hit chosen) arms); reflexivity.
Qed.
Lemma checkRows_end chosen prev els e f rest : goodElse f els -> op e = 11 ->
  exists prev' f' s', checkRows chosen prev (elseRows els ++ e :: rest) (mkBranches true false f false) = checkRows chosen prev' rest (mkBranches false false f' s').
Proof.
  intros Hg He.
  assert (Hend : forall p s, checkRows chosen p (e :: rest) (mkBranches true false f s) = checkRows chosen e rest (mkBranches false false f s)).
  { intros p s. cbn [checkRows]. unfold checkRow. rewrite He. reflexivity. }
  destruct els as [[r rows]|]; cbn [elseRows app].
  - destruct Hg as (E1 & E2 & ->). cbn [checkRows]. assert (Er : checkRow chosen prev r (mkBranches true false true false) = inr (mkBranches true false true true)) by (unfold checkRow; rewrite E1; reflexivity).
    rewrite Er. destruct (checkRows_plain chosen r (mkBranches true false true true) rows (e :: rest) eq_refl E2) as (p & ->). rewrite Hend. eauto.
  - rewrite Hend. eauto.
Qed.
Lemma checkRows_good chosen items prev f s : Forall (good chosen) items -> checkRows chosen prev (concat (map flat items)) (mkBranches false false f s) = ok.
Proof.
  intros Hg. revert prev f s. induction Hg as [|x items Hx _ IH]; intros prev f s; [reflexivity|]. cbn [map concat]. destruct x as [r|arms els e]; cbn [flat].
  - destruct (checkRows_plain chosen prev (mkBranches false false f s) [r] (concat (map flat items)) eq_refl) as (p & ->); [apply List.Forall_cons; [exact Hx|apply List.Forall_nil]|]. apply IH.
  - destruct arms as [|a arms]; [destruct Hx as [[] _]|]. destruct Hx as ((Ha & Hr) & He & Hl). cbn [map concat]. rewrite <- !app_assoc.
    destruct (checkRows_arm chosen 8 prev a false (concat (map armRows arms) ++ elseRows els ++ [e] ++ concat (map flat items)) (mkBranches false false f s) Ha) as (p1 & ->); [apply checkRow_head8, Ha|].
    destruct (checkRows_arms chosen p1 arms (if hit chosen a then true else false) (elseRows els ++ [e] ++ concat (map flat items)) Hr) as (p2 & ->).
    assert (Ef : (if existsb (hit chosen) arms then true else if hit chosen a then true else false) = existsb (hit chosen) (a :: arms)) by (cbn; destruct (hit chosen a), (existsb (hit chosen) arms); reflexivity).
    rewrite Ef. destruct (checkRows_end chosen p2 els e _ (concat (map flat items)) He Hl) as (p3 & f3 & s3 & E3). cbn [app] in E3 |- *. rewrite E3. apply IH.
Qed.
Lemma plain_default r : (op r =? 8) = false -> (op r =? 9) = false -> (op r =? 4) = false -> (op r =? 10) = false -> (op r =? 11) = false -> (op r =? 15) = false -> plain r.
Proof. intros E1 E2 E3 E4 E5 E6 H. cbn in H. apply Z.eqb_neq in E1, E2, E3, E4, E5, E6. intuition congruence. Qed.
(** After a condition comes its check. *)
Lemma checkRows_pending chosen prev rows f s : checkRows chosen prev rows (mkBranches true true f s) = ok ->
  exists c rows', rows = c :: rows' /\ op c = 4 /\ checkRows chosen c rows' (mkBranches true false (if low prev =? chosen then true else f) s) = ok.
Proof.
  destruct rows as [|c rows]; [discriminate|]. cbn [checkRows]. unfold checkRow.
  destruct (op c =? 8); [discriminate|]. destruct (op c =? 9); [discriminate|]. destruct (Z.eqb_spec (op c) 4) as [E|E]; [intros H; exists c, rows; auto|].
  destruct (op c =? 10); [discriminate|]. destruct (op c =? 11); discriminate.
Qed.
Definition Top (chosen : Z) (rows : list RadioRegister) : Prop := exists items, rows = concat (map flat items) /\ Forall (good chosen) items.
Definition Inside (chosen : Z) (f s : bool) (rows : list RadioRegister) : Prop := exists body arms els e items,
  rows = body ++ concat (map armRows arms) ++ elseRows els ++ e :: concat (map flat items) /\ Forall plain body /\ Forall (goodArm 9) arms /\
  (s = true -> arms = [] /\ els = None) /\ goodElse (existsb (hit chosen) arms || f) els /\ op e = 11 /\ Forall (good chosen) items.
Lemma inside_plain chosen f s r rows : plain r -> Inside chosen f s rows -> Inside chosen f s (r :: rows).
Proof.
  intros Hr (body & arms & els & e & items & -> & H1 & H). exists (r :: body), arms, els, e, items. split; [reflexivity|]. split; [apply List.Forall_cons; assumption|exact H].
Qed.
Lemma inside_arm chosen f r c rows : op r = 9 -> op c = 4 -> Inside chosen (if low r =? chosen then true else f) false rows -> Inside chosen f false (r :: c :: rows).
Proof.
  intros Hr Hc (body & arms & els & e & items & -> & H1 & H2 & _ & H3 & H4). exists [], (mkArm r c body :: arms), els, e, items.
  split; [cbn; rewrite <- !app_assoc; reflexivity|]. split; [apply List.Forall_nil|]. split; [apply List.Forall_cons; [split; [exact Hr|split; [exact Hc|exact H1]]|exact H2]|].
  split; [discriminate|]. split; [|exact H4]. cbn [existsb]. change (hit chosen (mkArm r c body)) with (low r =? chosen). destruct (low r =? chosen); [|exact H3]. rewrite orb_true_r in H3. exact H3.
Qed.
Lemma top_group chosen r c rows : op r = 8 -> op c = 4 -> Inside chosen (if low r =? chosen then true else false) false rows -> Top chosen (r :: c :: rows).
Proof.
  intros Hr Hc (body & arms & els & e & items & -> & H1 & H2 & _ & H3 & H4 & H5). exists (Group (mkArm r c body :: arms) els e :: items).
  split; [cbn; rewrite <- !app_assoc; reflexivity|]. apply List.Forall_cons; [|exact H5]. split; [split; [split; [exact Hr|split; [exact Hc|exact H1]]|exact H2]|]. split; [|exact H4].
  cbn [existsb]. change (hit chosen (mkArm r c body)) with (low r =? chosen). destruct (low r =? chosen); [rewrite orb_true_r in H3; exact H3|rewrite orb_false_r in H3; exact H3].
Qed.
Lemma checkRows_parse chosen n : forall rows, (length rows <= n)%nat ->
  (forall prev f s, checkRows chosen prev rows (mkBranches false false f s) = ok -> Top chosen rows) /\
  (forall prev f s, checkRows chosen prev rows (mkBranches true false f s) = ok -> Inside chosen f s rows).
Proof.
  induction n as [|n IH]; intros [|r rows] Hn; cbn [length] in Hn; try lia.
  1, 2: split; intros prev f s; [intros _; exists []; split; [reflexivity|apply List.Forall_nil]|discriminate].
  destruct (IH rows ltac:(lia)) as [Ht Hi]. split; intros prev f s; cbn [checkRows]; unfold checkRow; cbn [branch needsCheck found seenElse negb orb];
    destruct (Z.eqb_spec (op r) 8) as [E8|E8]; try discriminate.
  - intros H. apply checkRows_pending in H as (c & rows' & -> & Ec & H). apply top_group; [exact E8|exact Ec|]. cbn in Hn. apply (IH rows' ltac:(lia)) in H. exact H.
  - destruct (op r =? 9) eqn:E9; [discriminate|]. destruct (op r =? 4) eqn:E4; [discriminate|]. destruct (op r =? 10) eqn:E10; [discriminate|]. destruct (op r =? 11) eqn:E11; [discriminate|].
    destruct (op r =? 15) eqn:E15; [discriminate|]. intros H. destruct (Ht _ _ _ H) as (items & -> & Hg). exists (Plain r :: items). split; [reflexivity|].
    apply List.Forall_cons; [|exact Hg]. apply plain_default; try assumption. apply Z.eqb_neq, E8.
  - destruct (Z.eqb_spec (op r) 9) as [E9|E9].
    { destruct s; [discriminate|]. intros H. apply checkRows_pending in H as (c & rows' & -> & Ec & H). cbn in Hn. apply (IH rows' ltac:(lia)) in H. apply inside_arm; assumption. }
    destruct (op r =? 4) eqn:E4; [discriminate|]. destruct (Z.eqb_spec (op r) 10) as [E10|E10].
    { destruct s; [discriminate|]. destruct f; [|discriminate]. cbn [negb]. intros H. destruct (Hi _ _ _ H) as (body & arms & els & e & items & -> & H1 & _ & H2 & _ & H4 & H5). destruct (H2 eq_refl) as [-> ->].
      exists [], [], (Some (r, body)), e, items. split; [reflexivity|]. split; [apply List.Forall_nil|]. split; [apply List.Forall_nil|]. split; [discriminate|]. split; [split; [exact E10|split; [exact H1|reflexivity]]|]. split; assumption. }
    destruct (Z.eqb_spec (op r) 11) as [E11|E11].
    { intros H. destruct (Ht _ _ _ H) as (items & -> & Hg). exists [], [], None, r, items. split; [reflexivity|]. split; [apply List.Forall_nil|]. split; [apply List.Forall_nil|]. split; [auto|]. split; [exact I|]. split; assumption. }
    destruct (op r =? 15) eqn:E15; [discriminate|]. intros H. apply inside_plain; [|exact (Hi _ _ _ H)]. apply plain_default; try assumption; apply Z.eqb_neq; assumption.
Qed.
Lemma checkRows_iff chosen prev rows : checkRows chosen prev rows (mkBranches false false false false) = ok <-> Top chosen rows.
Proof.
  split; [intros H; exact (proj1 (checkRows_parse chosen _ rows (le_n _)) _ _ _ H)|]. intros (items & -> & Hg). apply checkRows_good, Hg.
Qed.

(** ** The selection *)

(** The last of the highest cuts of a board. *)
Definition Best (want : Z) (heads : list RadioRegister) (r : RadioRegister) : Prop :=
  exists l1 l2, heads = l1 ++ r :: l2 /\ boardOf r = want /\ (forall x, In x l1 -> boardOf x = want -> cutOf x <= cutOf r) /\ (forall x, In x l2 -> boardOf x = want -> cutOf x < cutOf r).
Definition none_for (want : Z) (heads : list RadioRegister) : Prop := forall r, In r heads -> boardOf r <> want.
Lemma cutOf_nonneg r : 0 <= cutOf r. Proof. apply Z.land_nonneg. lia. Qed.
Lemma highest_spec want heads t0 : let '(m, t, f) := fold_left (highest want) heads (0, t0, false) in
  if f : bool then exists r, Best want heads r /\ m = cutOf r /\ t = low r else none_for want heads /\ m = 0 /\ t = t0.
Proof.
  induction heads as [|r heads IH] using rev_ind; [cbn; split; [intros r []|auto]|]. rewrite fold_left_app. cbn [fold_left].
  destruct (fold_left (highest want) heads (0, t0, false)) as [[m t] f]. unfold highest. destruct (Z.eqb_spec (boardOf r) want) as [Eb|Eb]; cbn [negb].
  - assert (Hnew : (forall x, In x heads -> boardOf x = want -> cutOf x <= cutOf r) -> Best want (heads ++ [r]) r).
    { intros H. exists heads, []. split; [reflexivity|]. split; [exact Eb|]. split; [exact H|intros x []]. }
    destruct f.
    + destruct IH as (r0 & (l1 & l2 & -> & B1 & B2 & B3) & -> & ->). destruct (Z.leb_spec (cutOf r0) (cutOf r)) as [L|L].
      * exists r. split; [|auto]. apply Hnew. intros x Hx Ex. apply in_app_or in Hx as [Hx|[<-|Hx]]; [specialize (B2 x Hx Ex); lia|lia|specialize (B3 x Hx Ex); lia].
      * exists r0. split; [|auto]. exists l1, (l2 ++ [r]). split; [rewrite <- app_assoc; reflexivity|]. split; [exact B1|]. split; [exact B2|].
        intros x Hx Ex. apply in_app_or in Hx as [Hx|[<-|[]]]; [auto|exact L].
    + destruct IH as (N & -> & ->). rewrite (proj2 (Z.leb_le 0 (cutOf r))) by apply cutOf_nonneg. exists r. split; [|auto]. apply Hnew. intros x Hx Ex. destruct (N x Hx Ex).
  - destruct f.
    + destruct IH as (r0 & (l1 & l2 & -> & B1 & B2 & B3) & -> & ->). exists r0. split; [|auto]. exists l1, (l2 ++ [r]). split; [rewrite <- app_assoc; reflexivity|]. split; [exact B1|]. split; [exact B2|].
      intros x Hx Ex. apply in_app_or in Hx as [Hx|[<-|[]]]; [auto|contradiction].
    + destruct IH as (N & -> & ->). split; [|auto]. intros x Hx. apply in_app_or in Hx as [Hx|[<-|[]]]; [auto|exact Eb].
Qed.
Lemma headlines_split rows : exists heads rest, rows = heads ++ rest /\ countHeadlines rows = length heads /\ Forall (fun r => op r = 15) heads /\ match rest with r :: _ => op r <> 15 | [] => True end.
Proof.
  induction rows as [|r rows (heads & rest & E & En & H & Hr)]; [exists [], []; repeat split; apply List.Forall_nil|]. cbn [countHeadlines].
  destruct (Z.eqb_spec (op r) 15) as [E15|E15].
  - exists (r :: heads), rest. split; [cbn; congruence|]. split; [cbn; congruence|]. split; [apply List.Forall_cons; assumption|exact Hr].
  - exists [], (r :: rows). split; [reflexivity|]. split; [reflexivity|]. split; [apply List.Forall_nil|exact E15].
Qed.
(** The kind of board that is selected, of the headlines before the table's
    first row: the board's own cut, the entry for any cut of the board, the
    last of its highest cuts, or that of the entries for any board. *)
Definition Selected (rows : list RadioRegister) (rfe cut n tgt : Z) : Prop :=
  exists heads r rest, rows = heads ++ r :: rest /\ n = zlen heads /\ Forall (fun r => op r = 15) heads /\ op r <> 15 /\
  let exact := Z.lor (Z.shiftl rfe 16) cut in let any := Z.lor (Z.shiftl rfe 16) 255 in
  match heads with
  | [] => tgt = low r
  | _ => (In exact (map low heads) /\ tgt = exact) \/ (~ In exact (map low heads) /\
      ((In any (map low heads) /\ tgt = any) \/ (~ In any (map low heads) /\
        ((exists b, Best rfe heads b /\ tgt = low b) \/ (none_for rfe heads /\ exists b, Best 255 heads b /\ tgt = low b)))))
  end.
Definition usable (t : RadioTable) (rows : list RadioRegister) : Prop := registers t = Some rows /\ 0 < zlen rows <= 65536 /\ path t <= 1.
Lemma existsb_low heads k : reflect (In k (map low heads)) (existsb (fun r => low r =? k) heads).
Proof.
  apply iff_reflect. rewrite in_map_iff, existsb_exists. split; intros (r & H1 & H2); exists r; [split; [exact H2|apply Z.eqb_eq, H1]|split; [apply Z.eqb_eq, H2|exact H1]].
Qed.
Lemma split_unique h1 h2 r1 r2 (t1 t2 : list RadioRegister) : Forall (fun r => op r = 15) h1 -> Forall (fun r => op r = 15) h2 -> op r1 <> 15 -> op r2 <> 15 -> h1 ++ r1 :: t1 = h2 ++ r2 :: t2 -> h1 = h2 /\ r1 = r2 /\ t1 = t2.
Proof.
  intros H1. revert h2. induction H1 as [|x h1 Hx _ IH]; intros h2 H2 N1 N2 E; destruct H2 as [|y h2 Hy H2]; cbn in E; injection E.
  - auto.
  - intros _ ->. contradiction.
  - intros _ ->. contradiction.
  - intros E' ->. destruct (IH h2 H2 N1 N2 E') as (-> & -> & ->). auto.
Qed.
Lemma select_spec t rfe cut :
  match selectRadioTable t rfe cut with
  | (ok, n, tgt) => exists rows, usable t rows /\ Selected rows rfe cut n tgt
  | _ => forall rows n tgt, usable t rows -> ~ Selected rows rfe cut n tgt
  end.
Proof.
  unfold selectRadioTable, usable. destruct (registers t) as [rows|]; [|intros rows n tgt [E _]; discriminate].
  destruct (_ || _ || _) eqn:Ec.
  { intros rows0 n tgt ([= <-] & Hz & Hp). rewrite (proj2 (Z.eqb_neq (zlen rows) 0)), (proj2 (Z.ltb_ge 65536 (zlen rows))), (proj2 (Z.ltb_ge 1 (path t))) in Ec by lia. discriminate. }
  apply orb_false_iff in Ec as [Ec E3%Z.ltb_ge]. apply orb_false_iff in Ec as [E1%Z.eqb_neq E2%Z.ltb_ge]. pose proof (zlen_nonneg rows) as Hz.
  assert (Hu : Some rows = Some rows /\ 0 < zlen rows <= 65536 /\ path t <= 1) by (split; [reflexivity|lia]).
  destruct (headlines_split rows) as (heads & rest & E & -> & Hh & Hr). rewrite E. clear E1 E2 Hz. subst rows.
  rewrite take_app_length. change (Z.of_nat (length heads)) with (zlen heads).
  destruct rest as [|r rest].
  { rewrite app_nil_r in *. destruct (length heads =? 0)%nat eqn:E0; [apply Nat.eqb_eq in E0; unfold zlen in Hu; lia|]. rewrite Z.eqb_refl.
    intros rows n tgt ([= <-] & _) (h & r & rest & E & _ & _ & N & _). rewrite E in Hh. apply List.Forall_app in Hh as [_ Hh]. apply List.Forall_inv in Hh. contradiction. }
  destruct (length heads =? 0)%nat eqn:E0.
  { apply Nat.eqb_eq in E0. destruct heads; [|discriminate]. exists (r :: rest). split; [exact Hu|]. exists [], r, rest. auto. }
  apply Nat.eqb_neq in E0. rewrite (proj2 (Z.eqb_neq (zlen heads) _)) by (unfold zlen; rewrite length_app; cbn; lia).
  assert (Hs : forall tgt, (let exact := Z.lor (Z.shiftl rfe 16) cut in let any := Z.lor (Z.shiftl rfe 16) 255 in
     (In exact (map low heads) /\ tgt = exact) \/ (~ In exact (map low heads) /\ ((In any (map low heads) /\ tgt = any) \/ (~ In any (map low heads) /\
        ((exists b, Best rfe heads b /\ tgt = low b) \/ (none_for rfe heads /\ exists b, Best 255 heads b /\ tgt = low b)))))) ->
     exists rows, (Some (heads ++ r :: rest) = Some rows /\ 0 < zlen rows <= 65536 /\ path t <= 1) /\ Selected rows rfe cut (zlen heads) tgt).
  { intros tgt H. exists (heads ++ r :: rest). split; [exact Hu|]. exists heads, r, rest. split; [reflexivity|]. split; [reflexivity|]. split; [exact Hh|]. split; [exact Hr|]. destruct heads; [contradiction|exact H]. }
  destruct (existsb_low heads (Z.lor (Z.shiftl rfe 16) cut)) as [Hx|Hx]; [apply Hs; left; auto|].
  destruct (existsb_low heads (Z.lor (Z.shiftl rfe 16) 255)) as [Ha|Ha]; [apply Hs; right; split; [exact Hx|left; auto]|].
  pose proof (highest_spec rfe heads 0) as H1. destruct (fold_left (highest rfe) heads (0, 0, false)) as [[m1 t1] [|]].
  { destruct H1 as (b & B & _ & ->). apply Hs. right. split; [exact Hx|]. right. split; [exact Ha|]. left. eauto. }
  destruct H1 as (N1 & _ & ->). pose proof (highest_spec 255 heads 0) as H2. destruct (fold_left (highest 255) heads (0, 0, false)) as [[m2 t2] [|]].
  { destruct H2 as (b & B & _ & ->). apply Hs. right. split; [exact Hx|]. right. split; [exact Ha|]. right. split; [exact N1|]. eauto. }
  destruct H2 as (N2 & _ & _). intros rows n tgt ([= <-] & _) (h & r2 & rest2 & E & _ & Hh2 & Hr2 & HS). destruct (split_unique _ _ _ _ _ _ Hh Hh2 Hr Hr2 E) as (<- & _ & _).
  assert (Hno : forall want b, none_for want heads -> ~ Best want heads b).
  { intros want b Hn (l1 & l2 & El & Eb & _). apply (Hn b); [rewrite El; apply in_or_app; right; left; reflexivity|exact Eb]. }
  destruct heads as [|h0 heads]; [contradiction|]. destruct HS as [[HS _]|(_ & [[HS _]|(_ & [(b & HB & _)|(_ & b & HB & _)])])]; [auto|auto|exact (Hno _ _ N1 HB)|exact (Hno _ _ N2 HB)].
Qed.

(** ** What a table does *)

(** The call of a row for the board, if any. *)
Definition action (t : RadioTable) (r : RadioRegister) : list sinkOp :=
  match kind t with
  | baseband => if negb (delayOf (address r) =? 0) then [DelayUs (delayOf (address r))] else if value r =? 0xbabecafe then [] else [BbWrite (address r) (value r)]
  | radio => [RfWrite (path t) (address r) (value r)]
  | gain => [GainRecord (address r) (value r)]
  end.
Definition plan (t : RadioTable) (rows : list RadioRegister) : list sinkOp := concat (map (action t) rows).
Definition isDelay (o : sinkOp) : bool := match o with DelayUs _ => true | _ => false end.
Definition count_of (p : sinkOp -> bool) (l : list sinkOp) : Z := zlen (List.filter p l).
(** The calls still to be made, in order; nothing is called after a call that
    failed or a cancellation. *)
Record Plan := mkPlan { todo : list sinkOp; refused : bool; stopped : bool }.
Definition planNext (g : Plan) (o : sinkOp) (x : bool) : Plan :=
  match o with
  | Cancelled => if x then mkPlan (todo g) (refused g) true else g
  | _ => if x then mkPlan (List.tl (todo g)) (refused g) (stopped g) else mkPlan (todo g) true (stopped g)
  end.
Definition planMay (g : Plan) (o : sinkOp) : Prop :=
  refused g = false /\ stopped g = false /\ match o with Cancelled => True | _ => exists rest, todo g = o :: rest end.
Definition planRules : protocol Sink Plan := Protocol (Σ:=Sink) planMay (fun _ _ _ => True) planNext.
(** The result of a run. *)
Definition Ended (r : option unit) (s : RadioTableResult) (g : Plan) : Prop :=
  match r with
  | Some _ => status s = ok /\ todo g = [] /\ refused g = false /\ stopped g = false
  | None => (status s = ioError /\ refused g = true) \/ (status s = cancelled /\ stopped g = true)
  end.
Record Moved (s s' : RadioTableResult) (rows : list RadioRegister) (ops : list sinkOp) : Prop := {
  mv_selected : selected s' = selected s + zlen rows; mv_writes : writes s' = writes s + count_of (fun o => negb (isDelay o)) ops;
  mv_delays : delays s' = delays s + count_of isDelay ops; mv_target : target s' = target s }.
Lemma moved_nil s s' : selected s' = selected s -> writes s' = writes s -> delays s' = delays s -> target s' = target s -> Moved s s' [] [].
Proof. intros E1 E2 E3 E4. split; unfold count_of, zlen; cbn; congruence || lia. Qed.
Lemma moved_app s1 s2 s3 r1 r2 o1 o2 : Moved s1 s2 r1 o1 -> Moved s2 s3 r2 o2 -> Moved s1 s3 (r1 ++ r2) (o1 ++ o2).
Proof. intros [A1 A2 A3 A4] [B1 B2 B3 B4]. split; unfold count_of in *; rewrite ?zlen_app, ?List.filter_app, ?zlen_app; congruence || lia. Qed.
Definition going (g : Plan) (l : list sinkOp) : Prop := g = mkPlan l false false.

Section applying.
Context (t : RadioTable) (chosen : Z).
Lemma sink_wp o l s (Q : option bool -> RadioTableResult -> Plan -> Prop) : o <> Cancelled ->
  Q (Some true) s (mkPlan l false false) -> Q (Some false) s (mkPlan (o :: l) true false) -> wpm planRules (sink o) s (mkPlan (o :: l) false false) Q.
Proof.
  intros Ho HT HF. apply (wpm_call planRules o); [split; [reflexivity|split; [reflexivity|destruct o; [exact I|eexists; reflexivity..]]]|].
  intros x _. destruct o; [contradiction| | | |]; destruct x; assumption.
Qed.
Lemma counted_wp o f l s (Q : option bool -> RadioTableResult -> Plan -> Prop) : o <> Cancelled ->
  Q (Some true) (f s) (mkPlan l false false) -> Q (Some false) s (mkPlan (o :: l) true false) -> wpm planRules (counted o f) s (mkPlan (o :: l) false false) Q.
Proof.
  intros Ho HT HF. unfold counted. wstep. apply sink_wp; [exact Ho| |]; cbn beta iota; wstep; cbn [when]; [apply wpm_modify|apply wpm_ret]; cbn beta iota; apply wpm_ret; assumption.
Qed.
Lemma applyRow_wp r l s (Q : option unit -> RadioTableResult -> Plan -> Prop) :
  (forall s', Moved s s' [r] (action t r) -> Q (Some tt) s' (mkPlan l false false)) -> (forall s' g', Ended None s' g' -> Q None s' g') ->
  wpm planRules (applyRow t r) s (mkPlan (action t r ++ l) false false) Q.
Proof.
  intros HT HF. unfold applyRow. wstep. apply wpm_modify. cbn beta iota. wstep.
  assert (Hf : forall s' o l', wpm planRules (unless false (finish ioError)) s' (mkPlan (o :: l') true false) Q).
  { intros s' o l'. cbn [unless]. unfold finish. wstep. apply wpm_modify. cbn beta iota. apply wpm_brk. apply HF. left. split; reflexivity. }
  revert HT. unfold action. destruct (kind t); [destruct (delayOf (address r) =? 0); cbn [negb]; [destruct (value r =? 0xbabecafe)|]|..]; cbn [app]; intros HT.
  { apply wpm_ret. cbn beta iota. cbn [unless]. apply wpm_ret, HT. split; unfold count_of, zlen; cbn; lia. }
  all: apply counted_wp; [discriminate| |apply Hf]; cbn beta iota; cbn [unless]; apply wpm_ret, HT; split; unfold count_of, zlen; cbn; lia.
Qed.
(** A row of the table; the next ones are [m]. *)
Lemma head_wp i m s l (Q : option unit -> RadioTableResult -> Plan -> Prop) :
  (forall s', Moved s s' [] [] -> wpm planRules m s' (mkPlan l false false) Q) -> (forall s' g', Ended None s' g' -> Q None s' g') ->
  wpm planRules (modify (fun s => s <| row := i |>);; c ← sink Cancelled; if c : bool then finish cancelled else m) s (mkPlan l false false) Q.
Proof.
  intros HT HF. wstep. apply wpm_modify. cbn beta iota. wstep. apply (wpm_call planRules Cancelled); [split; [reflexivity|split; [reflexivity|exact I]]|]. intros x _. cbn beta iota. destruct x.
  - unfold finish. wstep. apply wpm_modify. cbn beta iota. apply wpm_brk. apply HF. right. split; reflexivity.
  - apply HT. apply moved_nil; reflexivity.
Qed.
(** What is left of a run does the calls [l] for the rows [rows]. *)
Definition Runs (m : TM unit) (rows : list RadioRegister) (l : list sinkOp) : Prop := forall s (Q : option unit -> RadioTableResult -> Plan -> Prop),
  (forall s', Moved s s' rows l -> status s' = ok -> Q (Some tt) s' (mkPlan [] false false)) -> (forall s' g', Ended None s' g' -> Q None s' g') -> wpm planRules m s (mkPlan l false false) Q.
Lemma applyRows_control i r rest matched fnd wanted rows l m : (forall w', applyRows t chosen i (r :: rest) matched fnd w' =
    (modify (fun s => s <| row := i |>);; c ← sink Cancelled; if c : bool then finish cancelled else m w')) ->
  Runs (m wanted) rows l -> Runs (applyRows t chosen i (r :: rest) matched fnd wanted) rows l.
Proof.
  intros E H s Q HT HF. rewrite E. apply head_wp; [|exact HF]. intros s1 M1. apply H; [|exact HF]. intros s' M' S'. apply HT; [|exact S'].
  change rows with ([] ++ rows). change l with ([] ++ l). eapply moved_app; eassumption.
Qed.
Definition R (rest : list RadioRegister) (m f : bool) (w : Z) (rows : list RadioRegister) (l : list sinkOp) : Prop := forall i, Runs (applyRows t chosen i rest m f w) rows l.
Lemma R_nil m f w : R [] m f w [] [].
Proof. intros i s Q HT _. cbn [applyRows]. apply wpm_modify. apply HT; [apply moved_nil; reflexivity|reflexivity]. Qed.
Lemma R_head r rest m f w rows l : op r = 8 \/ op r = 9 -> R rest m f (low r) rows l -> R (r :: rest) m f w rows l.
Proof.
  intros E H i. apply (applyRows_control i r rest m f w rows l (fun _ => applyRows t chosen (i + 1) rest m f (low r))); [|apply H].
  intros w'. cbn [applyRows]. destruct E as [-> | ->]; reflexivity.
Qed.
Lemma R_check r rest m f w rows l : op r = 4 -> R rest (negb f && (w =? chosen)) (f || (w =? chosen)) w rows l -> R (r :: rest) m f w rows l.
Proof.
  intros E H i. apply (applyRows_control i r rest m f w rows l (fun w' => let m := negb f && (w' =? chosen) in applyRows t chosen (i + 1) rest m (if m then true else f) w')).
  - intros w'. cbn [applyRows]. rewrite E. reflexivity.
  - cbv zeta. replace (if negb f && (w =? chosen) then true else f) with (f || (w =? chosen)) by (destruct f, (w =? chosen); reflexivity). apply H.
Qed.
Lemma R_else r rest m f w rows l : op r = 10 -> R rest false f w rows l -> R (r :: rest) m f w rows l.
Proof.
  intros E H i. apply (applyRows_control i r rest m f w rows l (fun w' => applyRows t chosen (i + 1) rest false f w')); [|apply H].
  intros w'. cbn [applyRows]. rewrite E. reflexivity.
Qed.
Lemma R_end r rest m f w rows l : op r = 11 -> R rest true false w rows l -> R (r :: rest) m f w rows l.
Proof.
  intros E H i. apply (applyRows_control i r rest m f w rows l (fun w' => applyRows t chosen (i + 1) rest true false w')); [|apply H].
  intros w'. cbn [applyRows]. rewrite E. reflexivity.
Qed.
Lemma applyRows_plain i r rest m f w : plain r -> applyRows t chosen i (r :: rest) m f w =
  (modify (fun s => s <| row := i |>);; c ← sink Cancelled; if c : bool then finish cancelled else
   if m then applyRow t r;; applyRows t chosen (i + 1) rest m f w else applyRows t chosen (i + 1) rest m f w).
Proof. intros Hr. cbn [applyRows]. rewrite !(plain_op r _ Hr) by (cbn; tauto). cbn [orb]. destruct m; reflexivity. Qed.
Lemma R_skip body rest f w rows l : Forall plain body -> R rest false f w rows l -> R (body ++ rest) false f w rows l.
Proof.
  intros Hb H. induction Hb as [|r body Hr _ IH]; [exact H|]. cbn [app]. intros i.
  apply (applyRows_control i r (body ++ rest) false f w rows l (fun w' => applyRows t chosen (i + 1) (body ++ rest) false f w')); [|apply IH].
  intros w'. rewrite applyRows_plain by exact Hr. reflexivity.
Qed.
Lemma R_do body rest f w rows l : Forall plain body -> R rest true f w rows l -> R (body ++ rest) true f w (body ++ rows) (plan t body ++ l).
Proof.
  intros Hb H. induction Hb as [|r body Hr _ IH]; [exact H|]. cbn [app]. intros i s Q HT HF. rewrite applyRows_plain by exact Hr.
  apply head_wp; [|exact HF]. intros s1 M1. wstep. change (plan t (r :: body)) with (action t r ++ plan t body). rewrite <- app_assoc. apply applyRow_wp; [|exact HF]. intros s2 M2. cbn beta iota.
  apply IH; [|exact HF]. intros s3 M3 S3. apply HT; [|exact S3].
  pose proof (moved_app _ _ _ _ _ _ _ M1 (moved_app _ _ _ _ _ _ _ M2 M3)) as M. cbn [app] in M. change (plan t (r :: body)) with (action t r ++ plan t body). rewrite <- app_assoc. exact M.
Qed.
Lemma R_arm code a rest m f w rows l : code = 8 \/ code = 9 -> goodArm code a -> (forall m' w', R rest m' (f || hit chosen a) w' rows l) ->
  R (armRows a ++ rest) m f w ((if negb f && hit chosen a then a_rows a else []) ++ rows) (plan t (if negb f && hit chosen a then a_rows a else []) ++ l).
Proof.
  intros Hc (E1 & E2 & E3) H. unfold armRows. cbn [app]. apply R_head; [destruct Hc; [left|right]; congruence|]. apply R_check; [exact E2|]. fold (hit chosen a).
  destruct (negb f && hit chosen a) eqn:Em; [apply R_do; [exact E3|apply H]|]. apply R_skip; [exact E3|apply H].
Qed.
Lemma R_arms arms rest m f w rows l : Forall (goodArm 9) arms -> (forall m' w', R rest m' (f || existsb (hit chosen) arms) w' rows l) ->
  R (concat (map armRows arms) ++ rest) m f w ((if f then [] else armChosen chosen arms) ++ rows) (plan t (if f then [] else armChosen chosen arms) ++ l).
Proof.
  intros Ha. revert m f w. induction Ha as [|a arms Ha _ IH]; intros m f w H.
  { cbn [map concat app armChosen existsb] in *. specialize (H m w). rewrite orb_false_r in H. destruct f; exact H. }
  cbn [map concat]. rewrite <- app_assoc.
  assert (H' : forall m' w', R (concat (map armRows arms) ++ rest) m' (f || hit chosen a) w' ((if f || hit chosen a then [] else armChosen chosen arms) ++ rows) (plan t (if f || hit chosen a then [] else armChosen chosen arms) ++ l)).
  { intros m' w'. apply IH. intros m2 w2. rewrite <- orb_assoc. apply H. }
  pose proof (R_arm 9 a _ m f w _ _ (or_intror eq_refl) Ha H') as G. cbn [armChosen]. destruct f; cbn [negb andb orb app] in G; [exact G|]. destruct (hit chosen a); [|exact G]. exact G.
Qed.
Lemma R_item x rest w rows l : good chosen x -> (forall w', R rest true false w' rows l) -> R (flat x ++ rest) true false w (chosenRows chosen x ++ rows) (plan t (chosenRows chosen x) ++ l).
Proof.
  intros Hx H. destruct x as [r|arms els e]; cbn [flat chosenRows].
  { apply R_do; [apply List.Forall_cons; [exact Hx|apply List.Forall_nil]|apply H]. }
  destruct arms as [|a arms]; [destruct Hx as [[] _]|]. destruct Hx as ((Ha & Hr) & He & Hl). cbn [map concat]. rewrite <- !app_assoc.
  assert (Hend : forall m f w, R (elseRows els ++ [e] ++ rest) m f w rows l).
  { intros m f w'. assert (Hlast : forall m f w, R ([e] ++ rest) m f w rows l) by (intros; apply R_end; [exact Hl|apply H]).
    destruct els as [[r0 body]|]; cbn [elseRows app]; [|apply Hlast]. destruct He as (E1 & E2 & _). apply R_else; [exact E1|]. apply R_skip; [exact E2|apply Hlast]. }
  assert (H' : forall m' w', R (concat (map armRows arms) ++ elseRows els ++ [e] ++ rest) m' (false || hit chosen a) w' ((if false || hit chosen a then [] else armChosen chosen arms) ++ rows) (plan t (if false || hit chosen a then [] else armChosen chosen arms) ++ l)).
  { intros m' w'. apply R_arms; [exact Hr|]. intros; apply Hend. }
  pose proof (R_arm 8 a _ true false w _ _ (or_introl eq_refl) Ha H') as G. cbn [armChosen]. cbn [negb andb orb] in G. destruct (hit chosen a); exact G.
Qed.
Lemma R_items items w : Forall (good chosen) items -> R (concat (map flat items)) true false w (concat (map (chosenRows chosen) items)) (plan t (concat (map (chosenRows chosen) items))).
Proof.
  intros Hg. revert w. induction Hg as [|x items Hx _ IH]; intros w; [apply R_nil|]. cbn [map concat]. unfold plan. rewrite map_app, concat_app. apply R_item; [exact Hx|exact IH].
Qed.
End applying.

(** ** The contract *)

(** The rows of a table for a board: what is behind the headlines is rows and
    groups, and of them those that are for the selected entry. *)
Definition tableRows (t : RadioTable) (rfe cut tgt : Z) (chosen : list RadioRegister) : Prop :=
  exists rows n items, usable t rows /\ Selected rows rfe cut n tgt /\ drop (Z.to_nat n) rows = concat (map flat items) /\ Forall (good tgt) items /\
    chosen = concat (map (chosenRows tgt) items).
Definition counters (t : RadioTable) (tgt : Z) (chosen : list RadioRegister) (s : RadioTableResult) : Prop :=
  target s = tgt /\ selected s = zlen chosen /\ writes s = count_of (fun o => negb (isDelay o)) (plan t chosen) /\ delays s = count_of isDelay (plan t chosen).
(** What a run must be: nothing is called for a table that is not usable, has
    no entry for the board or is not made of rows and groups; otherwise the
    calls are those of the rows for the board, in order, as far as the sink
    lets them. *)
Definition applied (t : RadioTable) (rfe cut : Z) (tr : list (event Sink)) (r : option unit) (s : RadioTableResult) : Prop :=
  (exists tgt chosen, tableRows t rfe cut tgt chosen /\ let g := mkPlan (plan t chosen) false false in
     accepts planRules g tr /\ Ended r s (after planRules g tr) /\ (status s = ok -> counters t tgt chosen s)) \/
  (tr = [] /\ status s <> ok /\ forall tgt chosen, ~ tableRows t rfe cut tgt chosen).
Lemma best_det want heads a b : Best want heads a -> Best want heads b -> a = b.
Proof.
  intros (l1 & l2 & -> & A1 & A2 & A3) (k1 & k2 & E & B1 & B2 & B3).
  destruct (app_eq_app _ _ _ _ E) as (l & [[-> El]|[-> El]]); destruct l as [|x l]; cbn in El; injection El.
  - auto.
  - intros -> <-. specialize (A2 b ltac:(apply in_or_app; right; left; reflexivity) B1). specialize (B3 a ltac:(apply in_or_app; right; left; reflexivity) A1). lia.
  - auto.
  - intros -> <-. specialize (B2 a ltac:(apply in_or_app; right; left; reflexivity) A1). specialize (A3 b ltac:(apply in_or_app; right; left; reflexivity) B1). lia.
Qed.
Lemma selected_det rows rfe cut n1 t1 n2 t2 : Selected rows rfe cut n1 t1 -> Selected rows rfe cut n2 t2 -> n1 = n2 /\ t1 = t2.
Proof.
  intros (h & r & rest & -> & -> & Hh & Hr & S1) (h' & r' & rest' & E & -> & Hh' & Hr' & S2). destruct (split_unique _ _ _ _ _ _ Hh Hh' Hr Hr' E) as (<- & <- & <-). split; [reflexivity|].
  destruct h as [|h0 h]; [congruence|]. cbv zeta in S1, S2.
  assert (Hno : forall want b, none_for want (h0 :: h) -> ~ Best want (h0 :: h) b).
  { intros want b Hn (l1 & l2 & El & Eb & _). apply (Hn b); [rewrite El; apply in_or_app; right; left; reflexivity|exact Eb]. }
  destruct S1 as [[I1 ->]|(N1 & S1)], S2 as [[I2 ->]|(N2 & S2)]; [reflexivity|contradiction|contradiction|].
  destruct S1 as [[J1 ->]|(M1 & S1)], S2 as [[J2 ->]|(M2 & S2)]; [reflexivity|contradiction|contradiction|].
  destruct S1 as [(b1 & B1 & ->)|(K1 & b1 & B1 & ->)], S2 as [(b2 & B2 & ->)|(K2 & b2 & B2 & ->)].
  - rewrite (best_det _ _ _ _ B1 B2). reflexivity.
  - destruct (Hno _ _ K2 B1).
  - destruct (Hno _ _ K1 B2).
  - rewrite (best_det _ _ _ _ B1 B2). reflexivity.
Qed.

(** The program, once its table is selected and checked. *)
Lemma apply_good t rfe cut tgt chosen : tableRows t rfe cut tgt chosen ->
  wpm planRules (applyRadioTable t rfe cut) noResult (mkPlan (plan t chosen) false false) (fun r s g => Ended r s g /\ (status s = ok -> counters t tgt chosen s)).
Proof.
  intros (rows & n & items & Hu & HS & Ei & Hg & ->). unfold applyRadioTable. pose proof (select_spec t rfe cut) as Hs. destruct (selectRadioTable t rfe cut) as [[st start] tgt'].
  destruct st; try (exfalso; exact (Hs rows n tgt Hu HS)). destruct Hs as (rows' & Hu' & HS'). pose proof (proj1 Hu) as Er. assert (rows' = rows) as -> by (destruct Hu' as [E' _]; congruence).
  destruct (selected_det _ _ _ _ _ _ _ HS' HS) as [-> ->]. unfold validateRadioBranches. rewrite Er.
  assert (Ev : checkRows tgt (nth (Z.to_nat (n - 1)) rows (mkRow 0 0)) (drop (Z.to_nat n) rows) (mkBranches false false false false) = ok) by (apply checkRows_iff; exists items; auto).
  rewrite Ev, Ei. rewrite !bool_decide_eq_true_2 by reflexivity. cbn [negb]. wstep. apply wpm_modify. cbn beta iota. wstep. apply wpm_modify. cbn beta iota. apply (R_items t tgt items 0 Hg n).
  - intros s' [M1 M2 M3 M4] S'. split; [split; [exact S'|repeat split]|]. intros _. split; [exact M4|]. split; [exact M1|]. split; [exact M2|exact M3].
  - intros s' g' E. split; [exact E|]. intros S'. destruct E as [[E _]|[E _]]; congruence.
Qed.
(** A table is for the board, or nothing is called. *)
Lemma apply_cases t rfe cut : (exists tgt chosen, tableRows t rfe cut tgt chosen) \/
  ((forall tgt chosen, ~ tableRows t rfe cut tgt chosen) /\ exists s, applyRadioTable t rfe cut noResult = Ret (None, s) /\ status s <> ok).
Proof.
  unfold applyRadioTable. pose proof (select_spec t rfe cut) as Hs. destruct (selectRadioTable t rfe cut) as [[st start] tgt].
  destruct (bool_decide (st = ok)) eqn:Est; cbn [negb].
  2: { apply bool_decide_eq_false in Est. right. split; [|eexists; split; [reflexivity|exact Est]]. intros tg chosen (rows & n & items & Hu & HS & _). destruct st; [contradiction|..]; exact (Hs rows n tg Hu HS). }
  apply bool_decide_eq_true in Est. subst st. destruct Hs as (rows & Hu & HS). pose proof (proj1 Hu) as Er. unfold validateRadioBranches. rewrite Er.
  pose proof (checkRows_iff tgt (nth (Z.to_nat (start - 1)) rows (mkRow 0 0)) (drop (Z.to_nat start) rows)) as Hi.
  destruct (bool_decide (checkRows _ _ _ _ = ok)) eqn:Ev; cbn [negb].
  - apply bool_decide_eq_true in Ev. destruct (proj1 Hi Ev) as (items & Ei & Hg). left. exists tgt, (concat (map (chosenRows tgt) items)), rows, start, items. auto.
  - apply bool_decide_eq_false in Ev. right. split; [|eexists; split; [reflexivity|exact Ev]]. intros tg chosen (rows' & n & items & [Er' _] & HS' & Ei & Hg & _). rewrite Er in Er'. injection Er' as <-.
    destruct (selected_det _ _ _ _ _ _ _ HS HS') as [<- <-]. apply Ev. apply Hi. exists items. auto.
Qed.

(** C37: [applyRadioTable] is the meaning of its tables. For a table that is a
    list of rows and groups of branches behind headlines that have an entry
    for the board, the calls of the sink are, in order, those of the rows for
    the board - every plain row, and of each group the rows of the first
    branch with the selected condition, never those of a last resort - and a
    run ends well exactly after the last of them, with the counters telling
    how many rows, writes and delays there were, or at the first call that
    fails or the first cancellation seen. For every other table nothing is
    called and an error is returned. *)
Theorem apply_meaning t rfe cut tr r s : exec (applyRadioTable t rfe cut noResult) tr (r, s) -> applied t rfe cut tr r s.
Proof.
  intros He. destruct (apply_cases t rfe cut) as [(tgt & chosen & Ht)|(Hn & s' & E & Hs)].
  - left. exists tgt, chosen. split; [exact Ht|]. pose proof (apply_good t rfe cut tgt chosen Ht) as Hw.
    destruct (wp_sound planRules _ _ _ tr _ Hw He (relies_trivial planRules _ tr (fun _ _ _ => I))) as [Ha Hp]. split; [exact Ha|exact Hp].
  - right. rewrite E in He. destruct He as [-> [= <- <-]]. auto.
Qed.

#[export] Instance sinkOp_eq : EqDecision sinkOp. Proof. solve_decision. Defined.

(** ** Sinks without a device *)

(** A sink that answers from its own state: the calls of a plan until one
    fails. *)
Fixpoint feed {D} (h : handler Sink D) (d : D) (l : list sinkOp) : bool * D :=
  match l with [] => (true, d) | o :: l => let (x, d') := h d o in if x : bool then feed h d' l else (false, d') end.
Lemma follows_feed {D} (h : handler Sink D) d d' l tr : (forall d, h d Cancelled = (false, d)) -> follows h d tr d' -> accepts planRules (mkPlan l false false) tr ->
  let g := after planRules (mkPlan l false false) tr in
  stopped g = false /\ if refused g then feed h d l = (false, d') else exists ops, l = ops ++ todo g /\ feed h d ops = (true, d').
Proof.
  intros Hc. revert d l. induction tr as [|[o x] tr IH]; intros d l; cbn [follows accepts after ev_op ev_ans].
  { intros -> _. split; [reflexivity|]. exists []. auto. }
  intros [Ex Hf] [[_ [_ Hm]] Ha]. cbn [may next planRules] in *.
  assert (Hx : forall y d1, h d o = (y, d1) -> o <> Cancelled -> x = y -> follows h d1 tr d' ->
    let g := after planRules (planNext (mkPlan l false false) o x) tr in stopped g = false /\ if refused g then feed h d l = (false, d') else exists ops, l = ops ++ todo g /\ feed h d ops = (true, d')).
  { intros y d1 Eh Hn -> Hf'. assert (Hl : exists rest, l = o :: rest) by (destruct o; [contradiction|exact Hm..]). destruct Hl as [rest ->].
    assert (En : planNext (mkPlan (o :: rest) false false) o y = if y : bool then mkPlan rest false false else mkPlan (o :: rest) true false) by (destruct o; [contradiction|destruct y; reflexivity..]).
    rewrite En in *. destruct y.
    - destruct (IH d1 rest Hf' Ha) as [H1 H2]. split; [exact H1|]. destruct (refused _); [cbn [feed]; rewrite Eh; exact H2|].
      destruct H2 as (ops & E1 & E2). exists (o :: ops). rewrite E1 at 1. split; [reflexivity|]. cbn [feed]. rewrite Eh. exact E2.
    - destruct tr as [|e tr].
      + cbn in Hf'. subst d'. split; [reflexivity|]. cbn. rewrite Eh. reflexivity.
      + exfalso. destruct Ha as [[Hr _] _]. discriminate. }
  destruct (h d o) as [y d1] eqn:Eh. destruct (decide (o = Cancelled)) as [-> |Hn]; [|exact (Hx y d1 eq_refl Hn Ex Hf)].
  rewrite Hc in Eh. injection Eh as <- <-. cbn in Ex. subst x. apply IH; assumption.
Qed.
(** A table fed to such a sink. *)
Lemma run_applied {D} (h : handler Sink D) d t rfe cut : (forall d, h d Cancelled = (false, d)) ->
  let '(r, s, d') := run h (applyRadioTable t rfe cut noResult) d in
  (forall tgt chosen, tableRows t rfe cut tgt chosen ->
     (status s = ok /\ r = Some tt /\ feed h d (plan t chosen) = (true, d') /\ counters t tgt chosen s) \/
     (status s = ioError /\ r = None /\ feed h d (plan t chosen) = (false, d'))) /\
  ((exists tgt chosen, tableRows t rfe cut tgt chosen) \/ (status s <> ok /\ d' = d)).
Proof.
  intros Hc. destruct (run_executes h (applyRadioTable t rfe cut noResult) d) as (tr & He & Hf). destruct (run h (applyRadioTable t rfe cut noResult) d) as [[r s] d'].
  cbn [fst snd] in He, Hf. split.
  - intros tgt chosen Ht. pose proof (apply_good t rfe cut tgt chosen Ht) as Hw.
    destruct (wp_sound planRules _ _ _ tr _ Hw He (relies_trivial planRules _ tr (fun _ _ _ => I))) as [Ha [Hp Hcnt]]. cbn [fst snd] in Hp, Hcnt.
    destruct (follows_feed h d d' (plan t chosen) tr Hc Hf Ha) as [Hs Hr]. destruct r as [[]|]; cbn in Hp.
    + destruct Hp as (S1 & S2 & S3 & S4). rewrite S3 in Hr. destruct Hr as (ops & E1 & E2). rewrite S2, app_nil_r in E1. subst ops. left. auto.
    + right. destruct Hp as [[S1 S2]|[S1 S2]]; [rewrite S2 in Hr; auto|congruence].
  - destruct (apply_cases t rfe cut) as [H|(_ & s' & E & Hs)]; [left; exact H|]. right. rewrite E in He. destruct He as [-> [= <- <-]]. cbn in Hf. auto.
Qed.

(** ** A concrete run *)

(** Headlines for two boards, a row, and a group for either board. *)
Definition sampleTable : RadioTable := mkTable (Some [
  mkRow 0xf0010001 0; mkRow 0xf0020003 0;
  mkRow 0x704 0x1; mkRow 0x80010001 0; mkRow 0x40000000 0; mkRow 0x700 0xa; mkRow 0x90020003 0; mkRow 0x40000000 0; mkRow 0x700 0xb; mkRow 0xfe 0; mkRow 0xb0000000 0;
  mkRow 0x708 0x2]) baseband 0.
Definition recorder : handler Sink (list sinkOp) := fun d o => match o with Cancelled => (false, d) | o => (true, d ++ [o]) end.
Definition tableRun := run_trace recorder (applyRadioTable sampleTable 2 3 noResult) [].
Example table_applied : (snd (fst tableRun), fst (fst (fst tableRun)), snd (fst (fst tableRun))) =
  ([BbWrite 0x704 1; BbWrite 0x700 0xb; DelayUs 50000; BbWrite 0x708 2], Some tt, mkResult ok 11 4 3 1 0x20003).
Proof. vm_compute. reflexivity. Qed.
Lemma apply_meaning_witness : applied sampleTable 2 3 (snd tableRun) (fst (fst (fst tableRun))) (snd (fst (fst tableRun))).
Proof. apply apply_meaning. rewrite <- surjective_pairing. unfold tableRun. exact (run_trace_exec recorder (applyRadioTable sampleTable 2 3 noResult) []). Defined.
