(* ===== verification/RadioSequence.v ===== *)
(** * The sequence of the radio's boot and tuning (src/network/RadioBootSequence.hpp)

    [Sequence] brings the radio up, tunes it and scans with it: one step of
    calibration at a time, each under a lease that the Bluetooth side granted
    and got back.  The back end is called under a guard; a call of [service] or
    [stop] from inside it makes the sequence fail. *)

From S2P Require Import Prelude Prog.

(** ** Data *)

Inductive Step := rck | dack | initialRxDc | channel | rxDc | iqk | tssi | dpk | scanBegin | scanTune | scanEnd.
#[export] Instance Step_eq : EqDecision Step. Proof. solve_decision. Defined.
Inductive Action := aInitialize | aTune | aScanBegin | aScanTune | aScanEnd.
#[export] Instance Action_eq : EqDecision Action. Proof. solve_decision. Defined.
Inductive Progress := pending | complete | failed.
Inductive Stage := idle | upload | btInitialization | acquiring | running | restoring | ready | fault | stopped.
#[export] Instance Stage_eq : EqDecision Stage. Proof. solve_decision. Defined.
Inductive Error := none | ownership | clock | timeout | backend | cancelled.
#[export] Instance Error_eq : EqDecision Error. Proof. solve_decision. Defined.

(** The members, [result] flattened. *)
Record Sequence := mkSequence {
  started_ : Z; last_ : Z; active_ : bool; action_ : Action; index_ : Z;
  stage : Stage; error : Error; step : Step; completion : Z; initialized : bool; tuned : bool;
  fullCalibration : bool; scanning : bool; requiresRecovery : bool
}.
#[export] Instance Sequence_rebuild : Rebuild Sequence := fun s =>
  mkSequence (started_ s) (last_ s) (active_ s) (action_ s) (index_ s) (stage s) (error s) (step s) (completion s)
    (initialized s) (tuned s) (fullCalibration s) (scanning s) (requiresRecovery s).
Definition newSequence : Sequence := mkSequence 0 0 false aInitialize 0 idle none rck 0 false false false false false.

(** The steps by their numbers. *)
Definition steps : list Step := [rck; dack; initialRxDc; channel; rxDc; iqk; tssi; dpk; scanBegin; scanTune; scanEnd].
Definition stepOf (n : Z) : Step := nth (Z.to_nat n) steps rck.

(** ** The back end *)

Inductive bootOp :=
| InGate | Healthy | Failed
| Pause | Prepare | Upload | StartBt | PollBt
| RequestLease (s : Step) | PollLease | RunStep (s : Step) | FinishLease | PollRestore
| FinishOperation (a : Action).
(** A call made under the guard answers its value and whether the back end
    called [service] or [stop] meanwhile. *)
Definition bootAns (o : bootOp) : Type :=
  match o with
  | InGate | Healthy => bool
  | Failed => unit
  | Upload | PollBt | PollLease | PollRestore => Progress * bool
  | _ => bool * bool
  end.
Definition Radio : sig := Sig bootOp bootAns.
Definition BM (A : Type) : Type := M Radio Sequence A.
Definition boot (o : bootOp) : BM (bootAns o) := call (Σ:=Radio) o.

(** [return fail(e)]. *)
Definition failedAs (e : Error) (s : Sequence) : Sequence :=
  s <| error := if bool_decide (error s = none) then e else error s |> <| stage := fault |>
    <| tuned := false |> <| fullCalibration := false |> <| requiresRecovery := true |>.
Definition failing (e : Error) : BM unit := modify (failedAs e);; boot Failed.
Definition fail {A} (e : Error) : BM A := failing e;; brk.
(** A call of the back end under the guard. *)
Definition yes (o : bootOp) (view : bootAns o -> bool * bool) : BM bool :=
  x ← boot o; when (snd (view x)) (failing ownership);; mret (fst (view x)).
Definition progress (o : bootOp) (view : bootAns o -> Progress * bool) : BM Progress :=
  x ← boot o; when (snd (view x)) (failing ownership);; mret (fst (view x)).
Definition broken : BM bool := gets (fun s => negb (bool_decide (error s = none))).
Definition orBackend (m : BM bool) : BM unit := x ← m; unless x (fail backend).

(** ** The methods *)

Definition busy (s : Sequence) : bool :=
  match stage s with idle | ready | fault | stopped => false | _ => true end.
Definition limit (a : Action) : Z := match a with aInitialize | aTune => 10000000 | _ => 2000000 end.
Definition check (now : Z) : BM unit :=
  g ← boot InGate;
  unless g (fail ownership);;
  s ← get;
  when (now <? last_ s) (fail clock);;
  modify (fun s => s <| last_ := now |>);;
  s ← get;
  when (bool_decide (stage s = fault) || bool_decide (stage s = stopped)) brk;;
  when (busy s && (limit (action_ s) <=? u64 (now - started_ s))) (fail timeout);;
  h ← boot Healthy; unless h (fail backend).
Definition current (s : Sequence) : Step :=
  match action_ s with
  | aInitialize => stepOf (index_ s)
  | aTune => stepOf (3 + index_ s)
  | aScanTune => if index_ s =? 0 then channel else scanTune
  | aScanBegin => scanBegin
  | aScanEnd => scanEnd
  end.
Definition acquire : BM unit :=
  modify (fun s => s <| step := current s |>);;
  s ← get;
  l ← yes (RequestLease (step s)) id;
  b ← broken;
  when (negb l || b) (fail backend);;
  modify (fun s => s <| stage := acquiring |>).
(** The body after [active_ = true] with its guard. *)
Definition guarded (m : BM unit) : BM bool :=
  modify (fun s => s <| active_ := true |>);; r ← succeeds m; modify (fun s => s <| active_ := false |>);; mret r.
(** [if(!check(now))return false; Guard ...] *)
Definition entered (now : Z) (m : BM unit) : BM bool :=
  ok ← succeeds (check now); if negb ok then mret false else guarded m.
Definition begin (now : Z) : BM bool :=
  s ← get;
  if negb (bool_decide (stage s = idle)) || active_ s then mret false else
  entered now
    (modify (fun s => s <| started_ := now |>);;
     orBackend (yes Pause id &&> yes Prepare id);;
     b ← broken; when b (fail backend);;
     modify (fun s => s <| stage := upload |>)).
Definition refused (a : Action) (s : Sequence) : bool :=
  bool_decide (a = aInitialize) || (bool_decide (a = aTune) && scanning s) ||
  (bool_decide (a = aScanBegin) && (negb (fullCalibration s) || scanning s)) ||
  ((bool_decide (a = aScanTune) || bool_decide (a = aScanEnd)) && negb (scanning s)).
Definition launch (a : Action) (now : Z) : BM bool :=
  s ← get;
  if negb (bool_decide (stage s = ready)) || negb (initialized s) || active_ s then mret false else
  if refused a s then mret false else
  entered now
    (modify (fun s => s <| started_ := now |> <| action_ := a |> <| index_ := 0 |> <| tuned := false |> <| fullCalibration := false |>);;
     orBackend (yes Pause id);;
     b ← broken; when b (fail backend);;
     acquire).
Definition count (a : Action) : Z := match a with aInitialize => 3 | aTune => 5 | aScanTune => 2 | _ => 1 end.
Definition finished (s : Sequence) : Sequence :=
  let a := action_ s in
  s <| initialized := true |> <| tuned := negb (bool_decide (a = aInitialize)) |>
    <| fullCalibration := bool_decide (a = aTune) || bool_decide (a = aScanEnd) |>
    <| scanning := if bool_decide (a = aScanBegin) then true else if bool_decide (a = aScanEnd) then false else scanning s |>
    <| stage := ready |> <| completion := u64 (completion s + 1) |>.
Definition advance (p : Progress) (m : BM unit) : BM unit :=
  match p with failed => fail backend | complete => m | pending => mret tt end.
Definition serveStage : BM unit :=
  s ← get;
  match stage s with
  | upload => p ← progress Upload id; advance p (orBackend (yes StartBt id);; modify (fun s => s <| stage := btInitialization |>))
  | btInitialization => p ← progress PollBt id; advance p (modify (fun s => s <| index_ := 0 |>);; acquire)
  | acquiring => p ← progress PollLease id; advance p (modify (fun s => s <| stage := running |>))
  | running => orBackend (yes (RunStep (step s)) id &&> yes FinishLease id);; modify (fun s => s <| stage := restoring |>)
  | restoring =>
      p ← progress PollRestore id;
      advance p
        (modify (fun s => s <| index_ := index_ s + 1 |>);;
         s ← get;
         if index_ s <? count (action_ s) then acquire
         else orBackend (yes (FinishOperation (action_ s)) id);; modify finished)
  | idle | ready => mret tt
  | _ => brk
  end.
Definition service (now : Z) : BM bool :=
  s ← get;
  if active_ s then failing ownership;; mret false else
  entered now (serveStage;; b ← broken; when b (modify (fun s => s <| stage := fault |>);; brk)).
Definition stop : BM bool :=
  s ← get;
  if active_ s then failing ownership;; mret false else
  boot Failed;; modify (fun s => s <| tuned := false |> <| fullCalibration := false |> <| stage := stopped |>);; mret true.

(** What the owner may ask, and a sequence of it; the answers are kept. *)
Inductive request := Begin (now : Z) | Launch (a : Action) (now : Z) | Service (now : Z) | Stop.
Definition serve (r : request) : BM bool :=
  match r with Begin now => begin now | Launch a now => launch a now | Service now => service now | Stop => stop end.
Fixpoint serveAll (l : list request) : BM (list bool) :=
  match l with [] => mret [] | r :: l => x ← serve r; xs ← serveAll l; mret (x :: xs) end.

(** ** The rules of the back end *)

(** The steps of an action, in order. *)
Definition stepsOf (a : Action) : list Step :=
  match a with
  | aInitialize => [rck; dack; initialRxDc]
  | aTune => [channel; rxDc; iqk; tssi; dpk]
  | aScanBegin => [scanBegin]
  | aScanTune => [channel; scanTune]
  | aScanEnd => [scanEnd]
  end.
Inductive Boots := fresh | prepared | uploaded | btStarted | booted.
Inductive Lease := free | requested (s : Step) | granted (s : Step) | ran (s : Step) | returning (s : Step).
(** What the calls have shown: how far the boot is, whether an operation is
    open, the lease, the steps that are over since the operation was opened,
    the operations that are over, latest first; whether the sequence failed or
    was called from inside a call, and whether that is in an earlier turn;
    whether an operation was finished nevertheless. *)
Record Watch := mkWatch {
  boots : Boots; open : bool; lease : Lease; trail : list Step; done : list Action; dead : bool; over : bool; late : bool
}.
#[export] Instance Watch_rebuild : Rebuild Watch := fun g =>
  mkWatch (boots g) (open g) (lease g) (trail g) (done g) (dead g) (over g) (late g).
Definition newWatch : Watch := mkWatch fresh false free [] [] false false false.
(** Whether a scan is open and whether the last operation left the home
    channel calibrated, after a history. *)
Fixpoint scanningOf (l : list Action) : bool :=
  match l with aScanBegin :: _ => true | aScanEnd :: _ => false | _ :: l => scanningOf l | [] => false end.
Definition calibratedOf (l : list Action) : bool := match l with aTune :: _ | aScanEnd :: _ => true | _ => false end.
Definition tunedOf (l : list Action) : bool := match l with [] | aInitialize :: _ => false | _ => true end.
Definition allowed (l : list Action) (a : Action) : Prop :=
  match a with
  | aInitialize => l = []
  | aTune => l <> [] /\ scanningOf l = false
  | aScanBegin => calibratedOf l = true /\ scanningOf l = false
  | aScanTune | aScanEnd => scanningOf l = true
  end.
Definition bootMay (g : Watch) (o : bootOp) : Prop :=
  match o with
  | InGate | Failed => True
  | Healthy => over g = false
  | Pause => over g = false /\ open g = false /\ lease g = free /\ (boots g = fresh \/ boots g = booted /\ done g <> [])
  | Prepare => over g = false /\ open g = true /\ boots g = fresh
  | Upload => over g = false /\ open g = true /\ boots g = prepared
  | StartBt => over g = false /\ open g = true /\ boots g = uploaded
  | PollBt => over g = false /\ open g = true /\ boots g = btStarted
  | RequestLease s => over g = false /\ open g = true /\ boots g = booted /\ lease g = free /\
      exists a rest, allowed (done g) a /\ stepsOf a = trail g ++ s :: rest
  | PollLease => over g = false /\ exists s, lease g = requested s
  | RunStep s => over g = false /\ lease g = granted s
  | FinishLease => over g = false /\ exists s, lease g = ran s
  | PollRestore => over g = false /\ exists s, lease g = returning s
  | FinishOperation a => over g = false /\ open g = true /\ lease g = free /\ allowed (done g) a /\ trail g = stepsOf a
  end.
Definition again (g : Watch) (b : bool) : Watch := g <| dead := dead g || b |>.
Definition won (g : Watch) (x : bool * bool) (f : Watch -> Watch) : Watch := again (if fst x then f g else g) (snd x).
Definition went (g : Watch) (x : Progress * bool) (f : Watch -> Watch) : Watch :=
  again (match fst x with complete => f g | _ => g end) (snd x).
Definition restored (g : Watch) : Watch :=
  match lease g with returning s => g <| lease := free |> <| trail := trail g ++ [s] |> | _ => g end.
Definition bootNext (g : Watch) (o : bootOp) : bootAns o -> Watch :=
  match o with
  | InGate => fun _ => g <| over := dead g |>
  | Healthy => fun _ => g
  | Failed => fun _ => g <| dead := true |>
  | Pause => fun x => won g x (fun g => g <| open := true |> <| trail := [] |>)
  | Prepare => fun x => won g x (fun g => g <| boots := prepared |>)
  | Upload => fun x => went g x (fun g => g <| boots := uploaded |>)
  | StartBt => fun x => won g x (fun g => g <| boots := btStarted |>)
  | PollBt => fun x => went g x (fun g => g <| boots := booted |>)
  | RequestLease s => fun x => won g x (fun g => g <| lease := requested s |>)
  | PollLease => fun x => went g x (fun g => match lease g with requested s => g <| lease := granted s |> | _ => g end)
  | RunStep s => fun x => won g x (fun g => g <| lease := ran s |>)
  | FinishLease => fun x => won g x (fun g => match lease g with ran s => g <| lease := returning s |> | _ => g end)
  | PollRestore => fun x => went g x restored
  | FinishOperation a => fun x =>
      won g x (fun g => g <| open := false |> <| trail := [] |> <| done := a :: done g |> <| late := late g || dead g || snd x |>)
  end.
Definition bootRules : protocol Radio Watch := Protocol (Σ:=Radio) bootMay (fun _ _ _ => True) bootNext.

(** ** The situations of the sequence *)

(** What holds in every stage. *)
Record Kept (s : Sequence) (g : Watch) : Prop := {
  k_init : initialized s = negb (bool_decide (done g = []));
  k_scan : scanning s = scanningOf (done g);
  k_count : completion s = u64 (zlen (done g));
  k_last : in_u64 (last_ s)
}.
(** An operation is open: its action is allowed, its first [index_] steps are
    over and it is not out of time. *)
Record Step_of (s : Sequence) (g : Watch) : Prop := {
  o_boots : boots g = booted; o_open : open g = true; o_allowed : allowed (done g) (action_ s);
  o_index : 0 <= index_ s < count (action_ s);
  o_trail : trail g = take (Z.to_nat (index_ s)) (stepsOf (action_ s));
  o_step : step s = current s
}.
Definition timely (s : Sequence) : Prop := 0 <= started_ s <= last_ s /\ last_ s - started_ s < limit (action_ s).
Definition blank (s : Sequence) : Prop := tuned s = false /\ fullCalibration s = false.
Definition Booting (b : Boots) (s : Sequence) (g : Watch) : Prop :=
  boots g = b /\ open g = true /\ lease g = free /\ trail g = [] /\ done g = [] /\ action_ s = aInitialize /\ index_ s = 0.
Definition Alive (s : Sequence) (g : Watch) : Prop := dead g = false /\ over g = false /\ error s = none /\ late g = false.
Definition Situation (s : Sequence) (g : Watch) : Prop :=
  match stage s with
  | idle => Alive s g /\ blank s /\ boots g = fresh /\ open g = false /\ lease g = free /\ trail g = [] /\ done g = [] /\ action_ s = aInitialize /\ index_ s = 0
  | upload => Alive s g /\ blank s /\ timely s /\ Booting prepared s g
  | btInitialization => Alive s g /\ blank s /\ timely s /\ Booting btStarted s g
  | acquiring => Alive s g /\ blank s /\ timely s /\ Step_of s g /\ lease g = requested (step s)
  | running => Alive s g /\ blank s /\ timely s /\ Step_of s g /\ lease g = granted (step s)
  | restoring => Alive s g /\ blank s /\ timely s /\ Step_of s g /\ lease g = returning (step s)
  | ready => Alive s g /\ boots g = booted /\ open g = false /\ lease g = free /\ done g <> [] /\ tuned s = tunedOf (done g) /\ fullCalibration s = calibratedOf (done g)
  | fault => dead g = true /\ error s <> none /\ (tuned s = true \/ fullCalibration s = true -> late g = true)
  | stopped => dead g = true /\ blank s
  end.
Record Inv (s : Sequence) (g : Watch) : Prop := { i_active : active_ s = false; i_kept : Kept s g; i_situation : Situation s g }.

(** ** Proofs *)

Definition down (g : Watch) : Watch := g <| dead := true |>.
Definition Doomed (s : Sequence) (g : Watch) : Prop := dead g = true /\ error s <> none /\ (tuned s = true \/ fullCalibration s = true -> late g = true).

Lemma failing_wp e s g (Q : option unit -> Sequence -> Watch -> Prop) : Q (Some tt) (failedAs e s) (down g) -> wpm bootRules (failing e) s g Q.
Proof. intros H. unfold failing. wstep. wstep. cbn beta iota. unfold boot; wcall; [exact I|]. intros [] _. exact H. Qed.
Lemma radio_fail_wp {A} e s g (Q : option A -> Sequence -> Watch -> Prop) : Q None (failedAs e s) (down g) -> wpm bootRules (fail e) s g Q.
Proof. intros H. unfold fail. wstep. apply failing_wp. cbn beta iota. wstep. exact H. Qed.
Lemma failed_error e s : e <> none -> error (failedAs e s) <> none.
Proof. intros H. cbn. case_bool_decide; assumption. Qed.
Lemma failed_kept e s g : Kept s g -> Kept (failedAs e s) (down g). Proof. intros [H1 H2 H3 H4]. split; assumption. Qed.
Lemma failed_situation e s g : e <> none -> Situation (failedAs e s) (down g).
Proof. intros H. unfold Situation. change (stage (failedAs e s)) with fault. cbv iota. split; [reflexivity|]. split; [apply failed_error, H|]. cbn. intros [?|?]; discriminate. Qed.
Lemma failed_doomed e s g : e <> none -> Doomed (failedAs e s) (down g).
Proof. intros H. exact (failed_situation e s g H). Qed.

(** What a method body leaves: a situation, or on its normal way out a doomed
    one that its caller settles. *)
Definition left_over (r : option unit) (s : Sequence) (g : Watch) : Prop :=
  Kept s g /\ match r with Some _ => error s = none /\ Situation s g \/ Doomed s g | None => Situation s g end.
Lemma fail_left e s g : e <> none -> Kept s g -> wpm bootRules (fail e) s g left_over.
Proof. intros He Hk. apply radio_fail_wp. split; [apply failed_kept, Hk|]. apply failed_situation, He. Qed.

Lemma yes_wp o view s g (Q : option bool -> Sequence -> Watch -> Prop) : bootMay g o ->
  (forall x, snd (view x) = false -> Q (Some (fst (view x))) s (bootNext g o x)) ->
  (forall x, snd (view x) = true -> Q (Some (fst (view x))) (failedAs ownership s) (down (bootNext g o x))) -> wpm bootRules (yes o view) s g Q.
Proof.
  intros Hm H1 H2. unfold yes. wstep. unfold boot; wcall; [exact Hm|]. intros x _. cbn beta iota. wstep. destruct (snd (view x)) eqn:E; cbn [when].
  - apply failing_wp. cbn beta iota. wstep. apply H2, E.
  - wstep. cbn beta iota. wstep. apply H1, E.
Qed.
Lemma progress_wp o view s g (Q : option Progress -> Sequence -> Watch -> Prop) : bootMay g o ->
  (forall x, snd (view x) = false -> Q (Some (fst (view x))) s (bootNext g o x)) ->
  (forall x, snd (view x) = true -> Q (Some (fst (view x))) (failedAs ownership s) (down (bootNext g o x))) -> wpm bootRules (progress o view) s g Q.
Proof.
  intros Hm H1 H2. unfold progress. wstep. unfold boot; wcall; [exact Hm|]. intros x _. cbn beta iota. wstep. destruct (snd (view x)) eqn:E; cbn [when].
  - apply failing_wp. cbn beta iota. wstep. apply H2, E.
  - wstep. cbn beta iota. wstep. apply H1, E.
Qed.

Lemma kept_last now s g : Kept s g -> last_ s <= now -> in_u64 now -> Kept (s <| last_ := now |>) g.
Proof. intros [H1 H2 H3 H4] _ Hn. split; assumption. Qed.
Lemma kept_while s g s' g' : Kept s g -> initialized s' = initialized s -> scanning s' = scanning s -> completion s' = completion s -> last_ s' = last_ s -> done g' = done g -> Kept s' g'.
Proof. intros [H1 H2 H3 H4] E1 E2 E3 E4 E5. split; rewrite ?E1, ?E2, ?E3, ?E4, ?E5; assumption. Qed.
(** The same situation at a later time. *)
Lemma later now s g : Situation s g -> last_ s <= now -> (busy s = true -> now - started_ s < limit (action_ s)) -> Situation (s <| last_ := now |>) g.
Proof.
  intros H Hn Hb. unfold Situation in *. change (stage (s <| last_ := now |>)) with (stage s). unfold busy in Hb.
  assert (Ht : timely s -> match stage s with idle | ready | fault | stopped => false | _ => true end = true -> timely (s <| last_ := now |>)).
  { intros [T _] E. split; [cbn; lia|]. apply Hb, E. }
  assert (Ho : Step_of s g -> Step_of (s <| last_ := now |>) g) by (intros []; split; assumption).
  destruct (stage s); try exact H; destruct H as (HA & HB & T & R); (split; [exact HA|]; split; [exact HB|]; split; [apply Ht; auto|]); try exact R; destruct R as [R1 R2]; split; auto.
Qed.
Lemma situation_alive s g : Situation s g -> stage s <> fault -> stage s <> stopped -> Alive s g.
Proof. unfold Situation. destruct (stage s); intros H H1 H2; first [exact (proj1 H)|congruence]. Qed.
Lemma situation_over s g x : Situation s g -> dead g = x -> Situation s (g <| over := x |>).
Proof.
  intros H E. unfold Situation in *.
  assert (Ha : Alive s g -> Alive s (g <| over := x |>)) by (intros (A1 & A2 & A3 & A4); split; [exact A1|]; split; [cbn; congruence|]; split; assumption).
  assert (Ho : Step_of s g -> Step_of s (g <| over := x |>)) by (intros []; split; assumption).
  destruct (stage s); try exact H; destruct H as (HA & R); (split; [apply Ha, HA|]); try exact R; destruct R as (R1 & R2 & R3 & R4); auto.
Qed.

(** [check] leaves the situation as it is in a sequence that goes on, and fails
    otherwise. *)
Lemma radio_check_wp now s g : in_u64 now -> Kept s g -> Situation s g ->
  wpm bootRules (check now) s g (fun r s' g' => Kept s' g' /\ Situation s' g' /\ active_ s' = active_ s /\
    match r with Some _ => s' = s <| last_ := now |> /\ Alive s' g' /\ g' = g /\ last_ s' = now | None => True end).
Proof.
  intros Hn Hk Hs. unfold check. wstep. unfold boot at 1; wcall; [exact I|]. intros x _. cbn beta iota. wstep.
  change (bootNext g InGate x) with (g <| over := dead g |>).
  set (g1 := g <| over := dead g |>). assert (Hk1 : Kept s g1) by (destruct Hk; split; assumption). pose proof (situation_over s g (dead g) Hs eq_refl) as Hs1. fold g1 in Hs1.
  assert (Hf : forall e t, Kept t g1 -> active_ t = active_ s -> e <> none -> wpm bootRules (fail (A:=unit) e) t g1 (fun r s' g' => r = None /\ Kept s' g' /\ Situation s' g' /\ active_ s' = active_ s)).
  { intros e t Ht Ea He. apply radio_fail_wp. split; [reflexivity|]. split; [apply failed_kept, Ht|]. split; [apply failed_situation, He|exact Ea]. }
  destruct x; cbn [unless].
  2: { eapply wpm_mono; [apply (Hf ownership s Hk1 eq_refl); discriminate|]. intros r s' g' (-> & A & B & C). auto. }
  wstep. cbn beta iota. wstep. wstep. wstep. destruct (Z.ltb_spec now (last_ s)) as [Hlt|Hle]; cbn [when].
  { eapply wpm_mono; [apply (Hf clock s Hk1 eq_refl); discriminate|]. intros r s' g' (-> & A & B & C). auto. }
  wstep. cbn beta iota. wstep. wstep. cbn beta iota. wstep. wstep. set (t := s <| last_ := now |>).
  assert (Hk2 : Kept t g1) by (apply kept_last; assumption).
  wstep. destruct (bool_decide (stage t = fault) || bool_decide (stage t = stopped)) eqn:Edead; cbn [when].
  { wstep. split; [exact Hk2|]. split; [|split; [reflexivity|exact I]]. apply later; [exact Hs1|exact Hle|]. intros Eb. exfalso.
    unfold busy in Eb. apply orb_true_iff in Edead. change (stage t) with (stage s) in Edead. destruct Edead as [E|E]; apply bool_decide_eq_true in E; rewrite E in Eb; discriminate. }
  wstep. cbn beta iota. wstep. apply orb_false_iff in Edead. rewrite !bool_decide_eq_false in Edead. destruct Edead as [E1 E2].
  pose proof (situation_alive s g Hs E1 E2) as (A1 & A2 & A3 & A4).
  assert (Ht : busy s = true -> 0 <= started_ s <= last_ s).
  { intros Eb. unfold Situation, busy in *. destruct (stage s); try discriminate; destruct Hs as (_ & _ & [T _] & _); exact T. }
  destruct (busy t && _) eqn:Eto; cbn [when].
  { eapply wpm_mono; [apply (Hf timeout t Hk2 eq_refl); discriminate|]. intros r s' g' (-> & A & B & C). auto. }
  wstep. cbn beta iota. wstep.
  assert (Hs2 : Situation t g1).
  { apply later; [exact Hs1|exact Hle|]. intros Eb. change (busy t) with (busy s) in Eto. rewrite Eb in Eto. cbn [andb] in Eto. specialize (Ht Eb).
    unfold t in Eto. cbn in Eto. apply Z.leb_gt in Eto. rewrite u64_small in Eto by zlia. exact Eto. }
  unfold boot; wcall; [cbn; congruence|]. intros h _. cbn beta iota. change (bootNext g1 Healthy h) with g1. destruct h; cbn [unless].
  2: { eapply wpm_mono; [apply (Hf backend t Hk2 eq_refl); discriminate|]. intros r s' g' (-> & A & B & C). auto. }
  wstep. split; [exact Hk2|]. split; [exact Hs2|]. split; [reflexivity|]. split; [reflexivity|].
  split; [split; [exact A1|]; split; [cbn; congruence|]; split; assumption|]. split; [|reflexivity].
  unfold g1. clear - A1 A2. destruct g; cbn in *; subst; reflexivity.
Qed.

(** The steps of every action, one by one. *)
Ltac index_cases a i H :=
  revert H; generalize i; intros k H; destruct a; cbn [count] in H;
  [z_cases k 0 3|z_cases k 0 5|z_cases k 0 1|z_cases k 0 2|z_cases k 0 1]; reflexivity.
Lemma current_next s : 0 <= index_ s < count (action_ s) ->
  stepsOf (action_ s) = take (Z.to_nat (index_ s)) (stepsOf (action_ s)) ++ current s :: drop (Datatypes.S (Z.to_nat (index_ s))) (stepsOf (action_ s)).
Proof. intros H. unfold current. index_cases (action_ s) (index_ s) H. Qed.
Lemma current_taken s : 0 <= index_ s < count (action_ s) ->
  take (Z.to_nat (index_ s + 1)) (stepsOf (action_ s)) = take (Z.to_nat (index_ s)) (stepsOf (action_ s)) ++ [current s].
Proof. intros H. unfold current. index_cases (action_ s) (index_ s) H. Qed.
Lemma all_taken a : take (Z.to_nat (count a)) (stepsOf a) = stepsOf a. Proof. destruct a; reflexivity. Qed.

(** Between two steps: the lease is free and the operation's earlier steps are
    over; the sequence is alive, or the back end called it. *)
Record Between (s : Sequence) (g : Watch) : Prop := {
  b_kept : Kept s g; b_over : over g = false; b_boots : boots g = booted; b_open : open g = true; b_lease : lease g = free;
  b_allowed : allowed (done g) (action_ s); b_trail : trail g = take (Z.to_nat (index_ s)) (stepsOf (action_ s));
  b_fate : Alive s g /\ blank s /\ timely s \/ Doomed s g
}.
Lemma broken_alive s g : Alive s g -> negb (bool_decide (error s = none)) = false.
Proof. intros (_ & _ & -> & _). reflexivity. Qed.
Lemma broken_doomed s g : Doomed s g -> negb (bool_decide (error s = none)) = true.
Proof. intros (_ & E & _). rewrite bool_decide_eq_false_2 by exact E. reflexivity. Qed.
(** What is left where no call of the back end is unnoticed. *)
Definition settled (r : option unit) (s : Sequence) (g : Watch) : Prop := Kept s g /\ Situation s g.
Lemma settled_failed e s g : e <> none -> Kept s g -> settled None (failedAs e s) (down g).
Proof. intros He Hk. split; [apply failed_kept, Hk|apply failed_situation, He]. Qed.
Definition noticed (r : option unit) (s : Sequence) (g : Watch) : Prop := settled r s g /\ match r with Some _ => error s = none | None => True end.
Lemma noticed_failed e s g : e <> none -> Kept s g -> noticed None (failedAs e s) (down g).
Proof. intros He Hk. split; [apply settled_failed; assumption|exact I]. Qed.
Lemma lease_wp s g : Between s g -> 0 <= index_ s < count (action_ s) -> wpm bootRules acquire s g noticed.
Proof.
  intros [Hk Ho Hb Hop Hl Ha Ht Hf] Hi. unfold acquire. wstep. wstep. cbn beta iota. wstep. wstep. cbn beta iota. wstep.
  set (t := s <| step := current s |>). assert (Hkt : Kept t g) by (eapply kept_while; [exact Hk|..]; reflexivity).
  apply yes_wp.
  - split; [exact Ho|]. split; [exact Hop|]. split; [exact Hb|]. split; [exact Hl|]. exists (action_ s), (drop (Datatypes.S (Z.to_nat (index_ s))) (stepsOf (action_ s))).
    split; [exact Ha|]. rewrite Ht. apply current_next, Hi.
  - intros [l a] Ea. cbn in Ea. subst a. cbn [fst id]. wstep. unfold broken. wstep. cbn beta iota. wstep.
    assert (Hk1 : Kept t (bootNext g (RequestLease (step t)) (l, false))) by (eapply kept_while; [exact Hkt|..]; try reflexivity; destruct l; reflexivity).
    destruct (negb l || negb (bool_decide (error t = none))) eqn:E; cbn [when]; [apply radio_fail_wp; apply noticed_failed; [discriminate|exact Hk1]|].
    wstep. cbn beta iota. apply orb_false_iff in E. destruct E as [El Ee]. destruct l; [|discriminate]. destruct Hf as [(HA & HB & HT)|HD]; [|change (error t) with (error s) in Ee; rewrite (broken_doomed s g HD) in Ee; discriminate].
    apply wpm_modify. split; [|exact (proj1 (proj2 (proj2 HA)))]. split; [eapply kept_while; [exact Hk1|..]; reflexivity|].
    destruct HA as (A1 & A2 & A3 & A4). unfold Situation. change (stage (t <| stage := acquiring |>)) with acquiring. cbv iota.
    split; [split; [cbn; rewrite A1; reflexivity|]; split; [exact A2|]; split; [exact A3|exact A4]|]. split; [exact HB|]. split; [exact HT|].
    split; [split; try assumption|]; reflexivity.
  - intros [l a] _. cbn [fst id]. wstep. unfold broken. wstep. cbn beta iota. wstep.
    assert (Hk1 : Kept (failedAs ownership t) (down (bootNext g (RequestLease (step t)) (l, a)))).
    { apply failed_kept. eapply kept_while; [exact Hkt|..]; try reflexivity; destruct l; reflexivity. }
    rewrite (broken_doomed _ _ (failed_doomed ownership t (bootNext g (RequestLease (step t)) (l, a)) ltac:(discriminate))), orb_true_r. cbn [when].
    apply radio_fail_wp; apply noticed_failed; [discriminate|exact Hk1].
Qed.
Lemma noticed_left r s g : noticed r s g -> left_over r s g.
Proof. intros [[Hk Hs] H]. split; [exact Hk|]. destruct r as [[]|]; [left; split; assumption|exact Hs]. Qed.
Lemma acquire_left s g : Between s g -> 0 <= index_ s < count (action_ s) -> wpm bootRules acquire s g left_over.
Proof. intros H1 H2. eapply wpm_mono; [apply lease_wp; assumption|exact noticed_left]. Qed.

Lemma again_false g : again g false = g. Proof. destruct g; cbn. unfold again; cbn. rewrite orb_false_r. reflexivity. Qed.
Lemma down_again g b : down (again g b) = down g. Proof. destruct g; reflexivity. Qed.
Lemma kept_again s g b : Kept s g -> Kept s (again g b). Proof. intros []. split; assumption. Qed.
Lemma kept_done s g g' : Kept s g -> done g' = done g -> Kept s g'. Proof. intros H E. eapply kept_while; [exact H|..]; first [exact E|reflexivity]. Qed.
(** A call that reports progress, and what is done when it is complete. *)
Lemma progress_left o (view : bootAns o -> Progress * bool) f m s g : bootMay g o -> (forall x, bootNext g o x = went g (view x) f) ->
  Kept s g -> Situation s g -> error s = none -> done (f g) = done g ->
  wpm bootRules m s (f g) left_over -> wpm bootRules m (failedAs ownership s) (down (f g)) left_over ->
  wpm bootRules (p ← progress o view; advance p m) s g left_over.
Proof.
  intros Hm Hn Hk Hs He Hd H1 H2. wstep. apply progress_wp; [exact Hm|..]; intros x Ex; rewrite Hn; unfold went; rewrite Ex; cbn beta iota.
  - rewrite again_false. destruct (fst (view x)); cbn [advance]; [wstep; split; [exact Hk|left; split; assumption]|exact H1|apply fail_left; [discriminate|exact Hk]].
  - rewrite down_again. destruct (fst (view x)); cbn [advance]; [|exact H2|apply fail_left; [discriminate|apply failed_kept, Hk]].
    wstep. split; [apply failed_kept, Hk|]. right. apply failed_doomed. discriminate.
Qed.
Lemma left_failed e s g : e <> none -> Kept s g -> left_over None (failedAs e s) (down g).
Proof. intros He Hk. split; [apply failed_kept, Hk|apply failed_situation, He]. Qed.
(** A call that must be answered by true, and what follows. *)
Lemma yes_left o (view : bootAns o -> bool * bool) f m s g (Q : option unit -> Sequence -> Watch -> Prop) : (forall e s g, e <> none -> Kept s g -> Q None (failedAs e s) (down g)) -> bootMay g o -> (forall x, bootNext g o x = won g (view x) f) ->
  Kept s g -> wpm bootRules m s (f g) Q -> (forall x, snd (view x) = true -> wpm bootRules m (failedAs ownership s) (down (f g)) Q) ->
  wpm bootRules (orBackend (yes o view);; m) s g Q.
Proof.
  intros HQ Hm Hn Hk H1 H2. unfold orBackend. wstep. wstep. apply yes_wp; [exact Hm|..]; intros x Ex; rewrite Hn; unfold won; rewrite Ex; cbn beta iota.
  - rewrite again_false. destruct (fst (view x)); cbn [unless]; [wstep; exact H1|]. apply radio_fail_wp. apply HQ; [discriminate|exact Hk].
  - rewrite down_again. destruct (fst (view x)); cbn [unless]; [wstep; apply (H2 x), Ex|]. apply radio_fail_wp. apply HQ; [discriminate|apply failed_kept, Hk].
Qed.
Lemma both_left o1 (v1 : bootAns o1 -> bool * bool) f1 o2 (v2 : bootAns o2 -> bool * bool) f2 m s g (Q : option unit -> Sequence -> Watch -> Prop) : (forall e s g, e <> none -> Kept s g -> Q None (failedAs e s) (down g)) -> bootMay g o1 -> (forall x, bootNext g o1 x = won g (v1 x) f1) ->
  (forall g', g' = f1 g \/ g' = down (f1 g) -> bootMay g' o2 /\ forall x, bootNext g' o2 x = won g' (v2 x) f2) -> Kept s g -> Kept s (f1 g) ->
  wpm bootRules m s (f2 (f1 g)) Q ->
  (forall s' g', s' = failedAs ownership s \/ s' = failedAs ownership (failedAs ownership s) -> g' = down (f2 (f1 g)) \/ g' = f2 (down (f1 g)) \/ g' = down (f2 (down (f1 g))) -> wpm bootRules m s' g' Q) ->
  wpm bootRules (orBackend (yes o1 v1 &&> yes o2 v2);; m) s g Q.
Proof.
  intros HQ Hm Hn H2 Hk Hk' Ha Hd. unfold orBackend. wstep. wstep. wstep. apply yes_wp; [exact Hm|..]; intros x Ex; rewrite Hn; unfold won; rewrite Ex.
  - rewrite again_false. destruct (fst (v1 x)); [|apply radio_fail_wp; apply HQ; [discriminate|exact Hk]]. destruct (H2 (f1 g) (or_introl eq_refl)) as [Hm2 Hn2].
    apply yes_wp; [exact Hm2|..]; intros y Ey; rewrite Hn2; unfold won; rewrite Ey; [rewrite again_false|rewrite down_again]; (destruct (fst (v2 y)); cbn [unless]; [wstep|apply radio_fail_wp; apply HQ; [discriminate|]]).
    + exact Ha.
    + exact Hk'.
    + apply Hd; auto.
    + apply failed_kept, Hk'.
  - rewrite down_again. destruct (fst (v1 x)); [|apply radio_fail_wp; apply HQ; [discriminate|apply failed_kept, Hk]]. destruct (H2 (down (f1 g)) (or_intror eq_refl)) as [Hm2 Hn2].
    assert (Hk2 : Kept (failedAs ownership s) (down (f1 g))) by (apply failed_kept, Hk').
    apply yes_wp; [exact Hm2|..]; intros y Ey; rewrite Hn2; unfold won; rewrite Ey; [rewrite again_false|rewrite down_again]; (destruct (fst (v2 y)); cbn [unless]; [wstep|apply radio_fail_wp; apply HQ; [discriminate|]]).
    + apply Hd; auto.
    + exact Hk2.
    + apply Hd; auto.
    + apply failed_kept, Hk2.
Qed.

(** What a doomed sequence does after the calls of its turn does not matter. *)
Definition Fallen (s : Sequence) (g : Watch) : Prop := Kept s g /\ Doomed s g.
Lemma fallen_failed s g : Kept s g -> Fallen (failedAs ownership s) (down g).
Proof. intros H. split; [apply failed_kept, H|apply failed_doomed; discriminate]. Qed.
Lemma fallen_stage x s g : Fallen s g -> Fallen (s <| stage := x |>) g.
Proof. intros [[H1 H2 H3 H4] H]. split; [split; assumption|exact H]. Qed.
Lemma fallen_index i s g : Fallen s g -> Fallen (s <| index_ := i |>) g.
Proof. intros [[H1 H2 H3 H4] H]. split; [split; assumption|exact H]. Qed.
Lemma fallen_boots b s g : Fallen s g -> Fallen s (g <| boots := b |>).
Proof. intros [[H1 H2 H3 H4] H]. split; [split; assumption|exact H]. Qed.
Lemma fallen_lease l s g : Fallen s g -> Fallen s (g <| lease := l |>).
Proof. intros [[H1 H2 H3 H4] H]. split; [split; assumption|exact H]. Qed.
Lemma fallen_down s g : Fallen s g -> Fallen s (down g).
Proof. intros [[H1 H2 H3 H4] (D1 & D2 & D3)]. split; [split; assumption|]. split; [reflexivity|]. split; [exact D2|exact D3]. Qed.
Lemma fallen_again s g : Fallen s g -> Fallen (failedAs ownership s) (down g).
Proof. intros [H _]. apply fallen_failed, H. Qed.
Lemma kept_stage x s g : Kept s g -> Kept (s <| stage := x |>) g. Proof. intros []. split; assumption. Qed.
Lemma kept_index x s g : Kept s g -> Kept (s <| index_ := x |>) g. Proof. intros []. split; assumption. Qed.
Lemma kept_boots b s g : Kept s g -> Kept s (g <| boots := b |>). Proof. intros []. split; assumption. Qed.
Lemma kept_lease l s g : Kept s g -> Kept s (g <| lease := l |>). Proof. intros []. split; assumption. Qed.
Lemma kept_down s g : Kept s g -> Kept s (down g). Proof. intros []. split; assumption. Qed.
Create HintDb radio.
#[local] Hint Resolve fallen_failed fallen_stage fallen_index fallen_boots fallen_lease fallen_down fallen_again kept_stage kept_index kept_boots kept_lease kept_down failed_kept : radio.
Lemma fallen_left f s g : Fallen (f s) g -> wpm bootRules (modify f) s g left_over.
Proof. intros [Hk Hd]. apply wpm_modify. split; [exact Hk|right; exact Hd]. Qed.
Lemma alive_left f s g : Kept (f s) g -> error (f s) = none -> Situation (f s) g -> wpm bootRules (modify f) s g left_over.
Proof. intros Hk He Hs. apply wpm_modify. split; [exact Hk|left; split; assumption]. Qed.
Ltac living HA := destruct HA as (?A1 & ?A2 & ?A3 & ?A4); repeat split; assumption.

Lemma upload_wp s g : stage s = upload -> Kept s g -> Situation s g -> wpm bootRules serveStage s g left_over.
Proof.
  intros E Hk Hs. pose proof Hs as HS. unfold Situation in HS. rewrite E in HS. destruct HS as (HA & HB & HT & B1 & B2 & B3 & B4 & B5 & B6 & B7).
  pose proof HA as (A1 & A2 & A3 & A4).
  unfold serveStage. wstep. wstep. cbn beta iota. rewrite E.
  apply (progress_left Upload id (fun g => g <| boots := uploaded |>)); [cbn; auto|reflexivity|exact Hk|exact Hs|exact A3|reflexivity|..].
  - apply (yes_left StartBt id (fun g => g <| boots := btStarted |>)); [exact left_failed|cbn; auto|reflexivity|auto with radio|..].
    + apply alive_left; [auto with radio|exact A3|]. unfold Situation. change (stage (s <| stage := btInitialization |>)) with btInitialization. cbv iota.
      split; [living HA|]. split; [exact HB|]. split; [exact HT|]. repeat split; assumption.
    + intros x _. apply fallen_left. auto 9 with radio.
  - apply (yes_left StartBt id (fun g => g <| boots := btStarted |>)); [exact left_failed|cbn; auto|reflexivity|auto with radio|..].
    + apply fallen_left. auto 9 with radio.
    + intros x _. apply fallen_left. auto 9 with radio.
Qed.

Lemma bt_wp s g : stage s = btInitialization -> Kept s g -> Situation s g -> wpm bootRules serveStage s g left_over.
Proof.
  intros E Hk Hs. pose proof Hs as HS. unfold Situation in HS. rewrite E in HS. destruct HS as (HA & HB & HT & B1 & B2 & B3 & B4 & B5 & B6 & B7).
  pose proof HA as (A1 & A2 & A3 & A4).
  unfold serveStage. wstep. wstep. cbn beta iota. rewrite E.
  assert (Hb : forall t h, Kept t h -> over h = false -> open h = true -> lease h = free -> trail h = [] -> done h = [] -> boots h = booted -> action_ t = aInitialize ->
    Alive t h /\ blank t /\ timely t \/ Doomed t h -> wpm bootRules (modify (fun s => s <| index_ := 0 |>);; acquire) t h left_over).
  { intros t h K O1 O2 O3 O4 O5 O6 Ea F. wstep. wstep. cbn beta iota. apply acquire_left.
    - split; try assumption.
      + auto with radio.
      + change (action_ (t <| index_ := 0 |>)) with (action_ t). rewrite Ea. exact O5.
    - change (action_ (t <| index_ := 0 |>)) with (action_ t). rewrite Ea. cbn. lia. }
  apply (progress_left PollBt id (fun g => g <| boots := booted |>)); [cbn; auto|reflexivity|exact Hk|exact Hs|exact A3|reflexivity|..].
  - apply Hb; try assumption; try reflexivity; [auto with radio|]. left. split; [living HA|]. split; assumption.
  - apply Hb; try assumption; try reflexivity; [auto 9 with radio|]. right. apply (fallen_failed s (g <| boots := booted |>)). auto with radio.
Qed.
Lemma acquiring_wp s g : stage s = acquiring -> Kept s g -> Situation s g -> wpm bootRules serveStage s g left_over.
Proof.
  intros E Hk Hs. pose proof Hs as HS. unfold Situation in HS. rewrite E in HS. destruct HS as (HA & HB & HT & HO & HL).
  pose proof HA as (A1 & A2 & A3 & A4).
  unfold serveStage. wstep. wstep. cbn beta iota. rewrite E.
  apply (progress_left PollLease id (fun g => match lease g with requested s => g <| lease := granted s |> | _ => g end));
    [split; [exact A2|exists (step s); exact HL]|reflexivity|exact Hk|exact Hs|exact A3|rewrite HL; reflexivity|..]; rewrite HL.
  - apply alive_left; [auto with radio|exact A3|]. unfold Situation. change (stage (s <| stage := running |>)) with running. cbv iota.
    split; [living HA|]. split; [exact HB|]. split; [exact HT|]. split; [destruct HO; split; assumption|reflexivity].
  - apply fallen_left. auto 9 with radio.
Qed.
Lemma running_wp s g : stage s = running -> Kept s g -> Situation s g -> wpm bootRules serveStage s g left_over.
Proof.
  intros E Hk Hs. pose proof Hs as HS. unfold Situation in HS. rewrite E in HS. destruct HS as (HA & HB & HT & HO & HL).
  pose proof HA as (A1 & A2 & A3 & A4).
  unfold serveStage. wstep. wstep. cbn beta iota. rewrite E.
  apply (both_left (RunStep (step s)) id (fun g => g <| lease := ran (step s) |>) FinishLease id (fun g => match lease g with ran s => g <| lease := returning s |> | _ => g end));
    [exact left_failed|split; [exact A2|exact HL]|reflexivity| |exact Hk|auto with radio|..].
  - intros g' Hg. split; [|reflexivity]. split; [|exists (step s)]; destruct Hg as [-> | ->]; first [exact A2|reflexivity].
  - change (match lease (g <| lease := ran (step s) |>) with ran s0 => (g <| lease := ran (step s) |>) <| lease := returning s0 |> | _ => g <| lease := ran (step s) |> end) with (g <| lease := ran (step s) |> <| lease := returning (step s) |>).
    apply alive_left; [auto with radio|exact A3|]. unfold Situation. change (stage (s <| stage := restoring |>)) with restoring. cbv iota.
    split; [living HA|]. split; [exact HB|]. split; [exact HT|]. split; [destruct HO; split; assumption|reflexivity].
  - intros s' g' Hs' Hg. apply fallen_left. apply fallen_stage.
    assert (HF1 : Fallen (failedAs ownership s) (down (g <| lease := ran (step s) |> <| lease := returning (step s) |>))) by auto 9 with radio.
    assert (HF : Fallen s' (down (g <| lease := ran (step s) |> <| lease := returning (step s) |>))) by (destruct Hs' as [-> | ->]; [exact HF1|exact (fallen_again _ _ HF1)]).
    destruct Hg as [-> | [-> | ->]]; exact HF.
Qed.

Lemma kept_finished s g : Kept s g -> Kept (finished s) (g <| open := false |> <| trail := [] |> <| done := action_ s :: done g |>).
Proof.
  intros [H1 H2 H3 H4]. split; [reflexivity| | |exact H4].
  - unfold finished. cbn. rewrite H2. destruct (action_ s); reflexivity.
  - unfold finished. cbn [completion]. change (u64 (completion s + 1) = u64 (zlen (action_ s :: done g))). rewrite H3. unfold zlen. cbn [length]. rewrite Nat2Z.inj_succ. clear. zlia.
Qed.
Lemma finished_ready s g x : Alive s g -> Between s g -> Alive s (g <| late := x |>) ->
  Situation (finished s) (g <| open := false |> <| trail := [] |> <| done := action_ s :: done g |> <| late := x |>).
Proof.
  intros _ [_ _ Hb _ Hl _ _ _] HA. unfold Situation. change (stage (finished s)) with ready. cbv iota. split; [living HA|].
  split; [exact Hb|]. split; [reflexivity|]. split; [exact Hl|]. split; [discriminate|]. unfold finished. cbn. destruct (action_ s); split; reflexivity.
Qed.
Lemma closing_wp s g : Between s g -> index_ s = count (action_ s) -> wpm bootRules (orBackend (yes (FinishOperation (action_ s)) id);; modify finished) s g left_over.
Proof.
  intros HB Hi. pose proof HB as [Hk Ho Hb Hop Hl Ha Ht Hf]. unfold orBackend. wstep. wstep. apply yes_wp.
  - split; [exact Ho|]. split; [exact Hop|]. split; [exact Hl|]. split; [exact Ha|]. rewrite Ht, Hi. apply all_taken.
  - intros [x a] Ea. cbn in Ea. subst a. cbn [fst id]. destruct x; cbn [unless].
    2: { apply radio_fail_wp. apply left_failed; [discriminate|]. eapply kept_done; [exact Hk|reflexivity]. }
    wstep. apply wpm_modify. split; [eapply kept_done; [apply kept_finished, Hk|reflexivity]|]. destruct Hf as [(HA & _)|(D1 & D2 & D3)].
    + left. pose proof HA as (A1 & A2 & A3 & A4). split; [exact A3|]. apply (finished_ready s (again g false) _); rewrite ?again_false; [exact HA|exact HB|].
      split; [exact A1|]. split; [exact A2|]. split; [exact A3|]. cbn. rewrite A1, A4. reflexivity.
    + right. split; [cbn; rewrite D1; reflexivity|]. split; [exact D2|]. intros _. cbn. rewrite D1, orb_true_r. reflexivity.
  - intros [x a] Ea. cbn in Ea. subst a. cbn [fst id].
    assert (Hk' : Kept (failedAs ownership s) (down (bootNext g (FinishOperation (action_ s)) (false, true)))).
    { apply failed_kept. eapply kept_done; [exact Hk|reflexivity]. }
    destruct x; cbn [unless]; [|apply radio_fail_wp, left_failed; [discriminate|exact Hk']].
    wstep. apply wpm_modify. split; [eapply kept_done; [apply kept_finished, (failed_kept ownership), Hk|reflexivity]|].
    right. split; [reflexivity|]. split; [apply failed_error; discriminate|]. intros _. cbn. rewrite orb_true_r. reflexivity.
Qed.
Lemma restoring_wp s g : stage s = restoring -> Kept s g -> Situation s g -> wpm bootRules serveStage s g left_over.
Proof.
  intros E Hk Hs. pose proof Hs as HS. unfold Situation in HS. rewrite E in HS. destruct HS as (HA & HB & HT & HO & HL).
  pose proof HA as (A1 & A2 & A3 & A4). destruct HO as [O1 O2 O3 O4 O5 O6].
  unfold serveStage. wstep. wstep. cbn beta iota. rewrite E.
  set (g1 := g <| lease := free |> <| trail := trail g ++ [step s] |>). assert (Er : restored g = g1) by (unfold restored; rewrite HL; reflexivity).
  assert (Hm : forall t h, Kept t h -> over h = false -> open h = true -> boots h = booted -> lease h = free -> done h = done g -> trail h = trail g1 -> action_ t = action_ s -> index_ t = index_ s ->
    Alive t h /\ blank t /\ timely t \/ Doomed t h ->
    wpm bootRules (modify (fun s => s <| index_ := index_ s + 1 |>);; s ← get; if index_ s <? count (action_ s) then acquire else orBackend (yes (FinishOperation (action_ s)) id);; modify finished) t h left_over).
  { intros t h K P1 P2 P3 P4 P5 P6 Ea Ei F. wstep. wstep. cbn beta iota. wstep. wstep. cbn beta iota. set (t1 := t <| index_ := index_ t + 1 |>).
    assert (Ea1 : action_ t1 = action_ s) by exact Ea. assert (Ei1 : index_ t1 = index_ s + 1) by (unfold t1; cbn; rewrite Ei; reflexivity).
    assert (Hbt : Between t1 h).
    { split; try assumption; [unfold t1; auto with radio|rewrite P5, Ea1; exact O3|]. rewrite P6, Ea1, Ei1. unfold g1. cbn. rewrite O5, O6. symmetry. apply current_taken, O4. }
    destruct (Z.ltb_spec (index_ t1) (count (action_ t1))) as [Hlt|Hge].
    - apply acquire_left; [exact Hbt|]. rewrite Ei1 in *. lia.
    - apply closing_wp; [exact Hbt|]. rewrite Ei1, Ea1 in *. lia. }
  assert (Hk1 : Kept s g1) by (eapply kept_done; [exact Hk|reflexivity]).
  apply (progress_left PollRestore id restored); [split; [exact A2|exists (step s); exact HL]|reflexivity|exact Hk|exact Hs|exact A3|rewrite Er; reflexivity|..]; rewrite Er.
  - apply Hm; try assumption; try reflexivity. left. split; [living HA|]. split; assumption.
  - apply Hm; try assumption; try reflexivity; [auto with radio|]. right. apply (fallen_failed s g1), Hk1.
Qed.
Lemma serveStage_wp s g : Kept s g -> Situation s g -> Alive s g -> wpm bootRules serveStage s g left_over.
Proof.
  intros Hk Hs HA. destruct (stage s) eqn:E; [|apply upload_wp; assumption|apply bt_wp; assumption|apply acquiring_wp; assumption|apply running_wp; assumption|apply restoring_wp; assumption|..].
  - unfold serveStage. wstep. wstep. cbn beta iota. rewrite E. wstep. split; [exact Hk|]. left. split; [exact (proj1 (proj2 (proj2 HA)))|exact Hs].
  - unfold serveStage. wstep. wstep. cbn beta iota. rewrite E. wstep. split; [exact Hk|]. left. split; [exact (proj1 (proj2 (proj2 HA)))|exact Hs].
  - exfalso. unfold Situation in Hs. rewrite E in Hs. destruct Hs as [Hd _], HA as [Hn _]. congruence.
  - exfalso. unfold Situation in Hs. rewrite E in Hs. destruct Hs as [Hd _], HA as [Hn _]. congruence.
Qed.

(** ** The calls of the owner *)

Lemma situation_active x s g : Situation s g -> Situation (s <| active_ := x |>) g.
Proof.
  unfold Situation. change (stage (s <| active_ := x |>)) with (stage s). assert (Ho : Step_of s g -> Step_of (s <| active_ := x |>) g) by (intros []; split; assumption).
  destruct (stage s); intros H; try exact H;
    destruct H as (H1 & H2 & H3 & H4 & H5); (split; [exact H1|]; split; [exact H2|]; split; [exact H3|]; split; [first [exact H4|apply Ho, H4]|exact H5]).
Qed.
Lemma kept_active x s g : Kept s g -> Kept (s <| active_ := x |>) g. Proof. intros []. split; assumption. Qed.
Lemma entered_wp now m s g : in_u64 now -> Inv s g ->
  (forall s1, s1 = s <| last_ := now |> <| active_ := true |> -> Kept s1 g -> Situation s1 g -> Alive s1 g -> wpm bootRules m s1 g settled) ->
  wpm bootRules (entered now m) s g (fun _ s' g' => Inv s' g').
Proof.
  intros Hn [Ia Ik Is] Hm. unfold entered. wstep. apply wpm_succeeds. eapply wpm_mono; [apply radio_check_wp; [exact Hn|exact Ik|exact Is]|].
  intros [[]|] s' g' (Hk & Hs & Ea & Hr); cbn beta iota; cbn [negb].
  2: { wstep. split; [congruence|exact Hk|exact Hs]. }
  destruct Hr as (Es & HA & -> & _). unfold guarded. wstep. wstep. cbn beta iota. wstep. apply wpm_succeeds.
  eapply wpm_mono; [apply (Hm (s' <| active_ := true |>)); [rewrite Es; reflexivity|apply kept_active, Hk|apply situation_active, Hs|exact HA]|].
  intros r s2 g2 [Hk2 Hs2]. cbn beta iota. wstep. wstep. cbn beta iota. wstep. split; [reflexivity|apply kept_active, Hk2|apply situation_active, Hs2].
Qed.
Lemma settle_begin f s g : (error s = none -> settled (Some tt) (f s) g) -> Kept s g ->
  wpm bootRules (b ← broken; when b (fail backend);; modify f) s g settled.
Proof.
  intros H Hk. unfold broken. wstep. wstep. cbn beta iota. wstep. destruct (negb (bool_decide (error s = none))) eqn:E; cbn [when].
  - apply radio_fail_wp. apply settled_failed; [discriminate|exact Hk].
  - wstep. cbn beta iota. apply wpm_modify. apply H. apply negb_false_iff, bool_decide_eq_true in E. exact E.
Qed.
Lemma begin_wp now s g : in_u64 now -> Inv s g -> wpm bootRules (begin now) s g (fun _ s' g' => Inv s' g').
Proof.
  intros Hn HI. unfold begin. wstep. wstep. cbn beta iota. destruct (_ || _) eqn:E; [wstep; exact HI|].
  apply orb_false_iff in E. destruct E as [E _]. apply negb_false_iff, bool_decide_eq_true in E.
  apply entered_wp; [exact Hn|exact HI|]. intros s1 E1 Hk Hs HA. assert (Est : stage s1 = idle) by (rewrite E1; exact E). pose proof Hs as HS. unfold Situation in HS. rewrite Est in HS.
  destruct HS as (_ & HB & B1 & B2 & B3 & B4 & B5 & B6 & B7). pose proof HA as (A1 & A2 & A3 & A4). wstep. wstep. cbn beta iota. set (t := s1 <| started_ := now |>).
  assert (Hkt : Kept t g) by (destruct Hk; split; assumption).
  apply (both_left Pause id (fun g => g <| open := true |> <| trail := [] |>) Prepare id (fun g => g <| boots := prepared |>)); [exact settled_failed|cbn; auto|reflexivity| |exact Hkt|destruct Hkt; split; assumption|..].
  - intros g' Hg. split; [|reflexivity]. destruct Hg as [-> | ->]; cbn; auto.
  - apply settle_begin; [|destruct Hkt; split; assumption]. intros _. split; [destruct Hkt; split; assumption|]. unfold Situation. change (stage (t <| stage := upload |>)) with upload. cbv iota.
    split; [living HA|]. split; [exact HB|]. split; [|repeat split; assumption].
    unfold timely, t. rewrite E1. cbn. change (action_ s) with (action_ s). assert (Ea : action_ s = aInitialize) by (rewrite E1 in B6; exact B6). rewrite Ea. cbn. zlia.
  - intros s' g' Hs' Hg. apply settle_begin.
    + intros He. exfalso. destruct Hs' as [-> | ->]; revert He; apply failed_error; discriminate.
    + assert (HF : Kept s' (down (g <| open := true |> <| trail := [] |> <| boots := prepared |>))).
      { assert (HF1 : Fallen (failedAs ownership t) (down (g <| open := true |> <| trail := [] |> <| boots := prepared |>))) by (apply fallen_failed; destruct Hkt; split; assumption).
        destruct Hs' as [-> | ->]; [exact (proj1 HF1)|exact (proj1 (fallen_again _ _ HF1))]. }
      destruct Hg as [-> | [-> | ->]]; exact HF.
Qed.
Lemma not_refused a s g : Kept s g -> done g <> [] -> fullCalibration s = calibratedOf (done g) -> refused a s = false -> allowed (done g) a.
Proof.
  intros [_ Hs _ _] Hd Hf. unfold refused, allowed. rewrite Hs, Hf. clear Hs Hf s.
  destruct a, (calibratedOf (done g)), (scanningOf (done g)); intros H; vm_compute in H; try discriminate; auto.
Qed.
Lemma launch_wp a now s g : in_u64 now -> Inv s g -> wpm bootRules (launch a now) s g (fun _ s' g' => Inv s' g').
Proof.
  intros Hn HI. unfold launch. wstep. wstep. cbn beta iota. destruct (_ || _ || _) eqn:E; [wstep; exact HI|].
  destruct (refused a s) eqn:Er; [wstep; exact HI|].
  apply orb_false_iff in E. destruct E as [E _]. apply orb_false_iff in E. destruct E as [E _]. apply negb_false_iff, bool_decide_eq_true in E.
  apply entered_wp; [exact Hn|exact HI|]. intros s1 E1 Hk Hs HA. assert (Est : stage s1 = ready) by (rewrite E1; exact E). pose proof Hs as HS. unfold Situation in HS. rewrite Est in HS.
  destruct HS as (_ & B1 & B2 & B3 & B4 & B5 & B6). pose proof HA as (A1 & A2 & A3 & A4). wstep. wstep. cbn beta iota.
  assert (Ha : allowed (done g) a) by (apply (not_refused a s1 g Hk B4 B6); rewrite E1; exact Er).
  set (t := s1 <| started_ := now |> <| action_ := a |> <| index_ := 0 |> <| tuned := false |> <| fullCalibration := false |>).
  assert (Hkt : Kept t g) by (destruct Hk; split; assumption).
  apply (yes_left Pause id (fun g => g <| open := true |> <| trail := [] |>)); [exact settled_failed|split; [exact A2|]; split; [exact B2|]; split; [exact B3|]; right; split; [exact B1|exact B4]|reflexivity|exact Hkt|..].
  - unfold broken. wstep. wstep. cbn beta iota. wstep. change (error t) with (error s1). rewrite A3. cbn [when negb bool_decide]. rewrite bool_decide_eq_true_2 by reflexivity. cbn [negb when]. wstep. cbn beta iota.
    eapply wpm_mono; [apply lease_wp|].
    + split; [destruct Hkt; split; assumption|exact A2|exact B1|reflexivity|exact B3|exact Ha|reflexivity|]. left. split; [living HA|]. split; [split; reflexivity|].
      unfold timely, t. rewrite E1. cbn. destruct a; cbn; zlia.
    + change (action_ t) with a. destruct a; cbn; lia.
    + intros r s' g' [H _]. exact H.
  - intros x _. unfold broken. wstep. wstep. cbn beta iota. wstep. rewrite (broken_doomed _ _ (failed_doomed ownership t g ltac:(discriminate))). cbn [when].
    apply radio_fail_wp. apply settled_failed; [discriminate|]. apply failed_kept. destruct Hkt; split; assumption.
Qed.
Lemma service_wp now s g : in_u64 now -> Inv s g -> wpm bootRules (service now) s g (fun _ s' g' => Inv s' g').
Proof.
  intros Hn HI. unfold service. wstep. wstep. cbn beta iota. rewrite (i_active s g HI). apply entered_wp; [exact Hn|exact HI|].
  intros s1 _ Hk Hs HA. wstep. eapply wpm_mono; [apply serveStage_wp; assumption|]. intros [[]|] s' g' [Hk' H']; [|split; assumption].
  unfold broken. wstep. wstep. cbn beta iota. destruct H' as [[He Hs']|HD].
  - rewrite He. rewrite bool_decide_eq_true_2 by reflexivity. cbn [negb when]. wstep. split; assumption.
  - rewrite (broken_doomed s' g' HD). cbn [when]. wstep. wstep. cbn beta iota. wstep. split; [apply kept_stage, Hk'|].
    unfold Situation. change (stage (s' <| stage := fault |>)) with fault. exact HD.
Qed.
Lemma stop_wp s g : Inv s g -> wpm bootRules stop s g (fun _ s' g' => Inv s' g').
Proof.
  intros HI. unfold stop. wstep. wstep. cbn beta iota. rewrite (i_active s g HI). wstep. unfold boot; wcall; [exact I|]. intros [] _. cbn beta iota. wstep. wstep. cbn beta iota. wstep.
  split; [exact (i_active s g HI)|destruct (i_kept s g HI); split; assumption|].
  split; [reflexivity|split; reflexivity].
Qed.
Definition timed (r : request) : Prop := match r with Begin now | Launch _ now | Service now => in_u64 now | Stop => True end.
Lemma serve_wp r s g : timed r -> Inv s g -> wpm bootRules (serve r) s g (fun _ s' g' => Inv s' g').
Proof. destruct r; cbn [timed serve]; intros H; [apply begin_wp, H|apply launch_wp, H|apply service_wp, H|apply stop_wp]. Qed.
Lemma serveAll_wp l s g : Forall timed l -> Inv s g -> wpm bootRules (serveAll l) s g (fun _ s' g' => Inv s' g').
Proof.
  intros Hl. revert s g. induction Hl as [|r l Hr _ IH]; intros s g HI; cbn [serveAll]; [wstep; exact HI|].
  wstep. eapply wpm_mono; [apply serve_wp; assumption|]. intros [x|] s' g' H'; [|exact H']. wstep. eapply wpm_mono; [apply IH, H'|]. intros [xs|] s2 g2 H2; [wstep|]; exact H2.
Qed.


(** ** Concrete runs *)

(** A back end that does everything at once, but calls the sequence again while
    it reports that operation [late] is finished. *)
Definition eager (late : Z) : handler Radio Z := fun d o =>
  match o return bootAns o * Z with
  | InGate | Healthy => (true, d)
  | Failed => (tt, d)
  | Upload | PollBt | PollLease | PollRestore => ((complete, false), d)
  | FinishOperation _ => ((true, d =? late), d + 1)
  | Pause | Prepare | StartBt | RequestLease _ | RunStep _ | FinishLease => ((true, false), d)
  end.
Definition day : list request :=
  Begin 5 :: repeat (Service 6) 11 ++ Launch aScanBegin 7 :: Launch aTune 7 :: repeat (Service 8) 15 ++ Launch aScanBegin 9 :: repeat (Service 9) 3 ++
  Launch aScanTune 10 :: repeat (Service 11) 6 ++ Launch aScanEnd 12 :: repeat (Service 12) 3 ++ [Stop; Service 13].
Definition runOf (late : Z) (l : list request) := run_trace (eager late) (serveAll l newSequence) 0.
Definition resultOf (late : Z) (n : nat) := let s := snd (fst (fst (runOf late (take n day)))) in
  (stage s, error s, completion s, tuned s, fullCalibration s, scanning s).
Example day_run : (resultOf (-1) 12, resultOf (-1) 29, resultOf (-1) 33, resultOf (-1) 40, resultOf (-1) 44, resultOf (-1) 46) =
  ((ready, none, 1, false, false, false), (ready, none, 2, true, true, false), (ready, none, 3, true, false, true),
   (ready, none, 4, true, false, true), (ready, none, 5, true, true, false), (stopped, none, 5, false, false, false)).
Proof. vm_compute. reflexivity. Qed.
(** The failure is noted, but the results of the operation are set after it. *)
Example late_results : resultOf 1 29 = (fault, ownership, 2, true, true, false).
Proof. vm_compute. reflexivity. Qed.
