(* ===== verification/BasebandGain.v ===== *)
(** * The gain tables of the baseband (src/network/BasebandGain.hpp)

    The gain table of the radio is no sequence of registers: its addresses say
    which entries of which array of [BasebandGain] the bytes of a value are.
    [loadBasebandGain] checks the whole table before it writes one. *)

From S2P Require Import Prelude Prog EfuseCalibration RadioTables.

(** ** Data *)

Inductive GainArray := lna_gain | tia_gain | lna_gain_bypass | lna_op1db | tia_lna_op1db | rpl_ofst_20 | rpl_ofst_40 | rpl_ofst_80 | rpl_ofst_160.
#[export] Instance GainArray_eq : EqDecision GainArray. Proof. solve_decision. Defined.
(** The members are arrays by band, path and entry. *)
Record BasebandGain := mkGain {
  g_lna_gain : list (list (list Z)); g_tia_gain : list (list (list Z)); g_lna_gain_bypass : list (list (list Z));
  g_lna_op1db : list (list (list Z)); g_tia_lna_op1db : list (list (list Z));
  g_rpl_ofst_20 : list (list (list Z)); g_rpl_ofst_40 : list (list (list Z)); g_rpl_ofst_80 : list (list (list Z)); g_rpl_ofst_160 : list (list (list Z))
}.
#[export] Instance BasebandGain_rebuild : Rebuild BasebandGain := fun g =>
  mkGain (g_lna_gain g) (g_tia_gain g) (g_lna_gain_bypass g) (g_lna_op1db g) (g_tia_lna_op1db g) (g_rpl_ofst_20 g) (g_rpl_ofst_40 g) (g_rpl_ofst_80 g) (g_rpl_ofst_160 g).
Definition width (a : GainArray) : Z :=
  match a with
  | lna_gain | lna_gain_bypass | lna_op1db => 7 | tia_gain => 2 | tia_lna_op1db => 8
  | rpl_ofst_20 => 1 | rpl_ofst_40 => 9 | rpl_ofst_80 => 13 | rpl_ofst_160 => 15
  end.
Definition noEntries (a : GainArray) : list (list (list Z)) := replicate 8 (replicate 2 (zeros (width a))).
Definition noGain : BasebandGain :=
  mkGain (noEntries lna_gain) (noEntries tia_gain) (noEntries lna_gain_bypass) (noEntries lna_op1db) (noEntries tia_lna_op1db)
    (noEntries rpl_ofst_20) (noEntries rpl_ofst_40) (noEntries rpl_ofst_80) (noEntries rpl_ofst_160).
Definition member (a : GainArray) (g : BasebandGain) : list (list (list Z)) :=
  match a with
  | lna_gain => g_lna_gain g | tia_gain => g_tia_gain g | lna_gain_bypass => g_lna_gain_bypass g | lna_op1db => g_lna_op1db g
  | tia_lna_op1db => g_tia_lna_op1db g | rpl_ofst_20 => g_rpl_ofst_20 g | rpl_ofst_40 => g_rpl_ofst_40 g | rpl_ofst_80 => g_rpl_ofst_80 g | rpl_ofst_160 => g_rpl_ofst_160 g
  end.
Definition setMember (a : GainArray) (v : list (list (list Z))) (g : BasebandGain) : BasebandGain :=
  match a with
  | lna_gain => g <| g_lna_gain := v |> | tia_gain => g <| g_tia_gain := v |> | lna_gain_bypass => g <| g_lna_gain_bypass := v |> | lna_op1db => g <| g_lna_op1db := v |>
  | tia_lna_op1db => g <| g_tia_lna_op1db := v |> | rpl_ofst_20 => g <| g_rpl_ofst_20 := v |> | rpl_ofst_40 => g <| g_rpl_ofst_40 := v |> | rpl_ofst_80 => g <| g_rpl_ofst_80 := v |> | rpl_ofst_160 => g <| g_rpl_ofst_160 := v |>
  end.

(** ** A record of the table *)

(** Which entries an address names: the array, the first entry and their
    number.  [Some None] is a record that is accepted and ignored. *)
Definition placeOf (rfe address : Z) : option (option (GainArray * Z * Z)) :=
  let type := Z.land address 255 in
  let path := Z.land (Z.shiftr address 8) 255 in
  let band := Z.land (Z.shiftr address 16) 255 in
  let config := Z.shiftr address 24 in
  if (2 <=? path) || (8 <=? band) || ((0xf9 <=? address) && (address <=? 0xfe)) then None else
  if (config =? 0) || (config =? 2) || (config =? 3) then
    if type <? 2 then
      Some (Some (if config =? 0 then lna_gain else if config =? 2 then lna_gain_bypass else lna_op1db, if type =? 0 then 0 else 4, if type =? 0 then 4 else 3))
    else if (config =? 0) && (type =? 2) then Some (Some (tia_gain, 0, 2))
    else if (config =? 3) && ((type =? 2) || (type =? 3)) then Some (Some (tia_lna_op1db, if type =? 3 then 4 else 0, 4))
    else None
  else if config =? 1 then
    let wide := Z.shiftr type 4 in let rxsc := Z.land type 15 in
    if wide =? 0 then Some (Some (rpl_ofst_20, 0, 1))
    else if wide <=? 3 then
      let target := if wide =? 1 then rpl_ofst_40 else if wide =? 2 then rpl_ofst_80 else rpl_ofst_160 in
      if rxsc =? 0 then Some (Some (target, rxsc, 1))
      else if rxsc =? 1 then Some (Some (target, rxsc, if wide =? 1 then 2 else 4))
      else if (rxsc =? 9) && (2 <=? wide) then Some (Some (target, rxsc, if wide =? 2 then 2 else 4))
      else if (wide =? 3) && (rxsc =? 5) then Some (Some (target, rxsc, 4))
      else if (wide =? 3) && (rxsc =? 13) then Some (Some (target, rxsc, 2))
      else None
    else None
  else if (config =? 4) && (rfe <? 50) then Some None
  else None.
(** [target[k] = v] in the row of a band and a path. *)
Definition putEntry (a : GainArray) (band path k v : Z) (g : BasebandGain) : mres unit BasebandGain :=
  match member a g !! Z.to_nat band with
  | Some paths =>
      match paths !! Z.to_nat path with
      | Some row => if (k <? 0) || (zlen row <=? k) then MOob
          else mret (setMember a (<[Z.to_nat band := <[Z.to_nat path := <[Z.to_nat k := v]> row]> paths]> (member a g)) g)
      | None => MOob
      end
  | None => MOob
  end.
Fixpoint putEntries (n : nat) (a : GainArray) (band path k value : Z) (g : BasebandGain) : mres unit BasebandGain :=
  match n with
  | O => mret g
  | Datatypes.S n => g ← putEntry a band path k (signedByte (u8 value)) g; putEntries n a band path (k + 1) (Z.shiftr value 8) g
  end.
(** [MErr] is the answer false, and [None] a null pointer. *)
Definition applyGainRecord (out : option BasebandGain) (rfe address value : Z) : mres unit (option BasebandGain) :=
  match placeOf rfe address with
  | None => MErr tt
  | Some None => mret out
  | Some (Some (a, start, count)) =>
      match out with
      | None => mret None
      | Some g => g ← putEntries (Z.to_nat count) a (Z.land (Z.shiftr address 16) 255) (Z.land (Z.shiftr address 8) 255) start value g; mret (Some g)
      end
  end.
(** [GainCollector]; [MOob] is kept for good. *)
Definition collector (rfe : Z) : handler Sink (mres unit (option BasebandGain)) := fun d o =>
  match o with
  | Cancelled | BbWrite _ _ | RfWrite _ _ _ | DelayUs _ => (false, d)
  | GainRecord a v =>
      match d with
      | MVal out => match applyGainRecord out rfe a v with MVal out => (true, MVal out) | MErr _ => (false, d) | MOob => (false, MOob) end
      | _ => (false, d)
      end
  end.
Definition loadBasebandGain (t : RadioTable) (rfe cut : Z) (out : BasebandGain) : RadioTableResult * mres unit (option BasebandGain) :=
  if negb (bool_decide (kind t = gain)) then (noResult, MVal (Some out)) else
  let result := snd (fst (run (collector rfe) (applyRadioTable t rfe cut noResult) (MVal None))) in
  if negb (bool_decide (status result = ok)) then (result, MVal (Some out)) else
  let '(_, result, d) := run (collector rfe) (applyRadioTable t rfe cut noResult) (MVal (Some noGain)) in (result, d).

(** ** What a table of gains means *)

(** The entries a record names, with their values. *)
Definition key : Type := GainArray * Z * Z * Z.
Fixpoint entriesFrom (n : nat) (a : GainArray) (band path k value : Z) : list (key * Z) :=
  match n with O => [] | Datatypes.S n => ((a, band, path, k), signedByte (u8 value)) :: entriesFrom n a band path (k + 1) (Z.shiftr value 8) end.
Definition entriesOf (rfe : Z) (r : RadioRegister) : list (key * Z) :=
  match placeOf rfe (address r) with
  | Some (Some (a, start, count)) => entriesFrom (Z.to_nat count) a (Z.land (Z.shiftr (address r) 16) 255) (Z.land (Z.shiftr (address r) 8) 255) start (value r)
  | _ => []
  end.
(** The last value given to an entry. *)
Definition lastOf (x : key) (d : Z) (l : list (key * Z)) : Z := fold_left (fun acc kv => if bool_decide (kv.1 = x) then kv.2 else acc) l d.
Definition entry (x : key) (g : BasebandGain) : Z :=
  let '(a, band, path, k) := x in nth (Z.to_nat k) (nth (Z.to_nat path) (nth (Z.to_nat band) (member a g) []) []) 0.
(** The arrays have their sizes. *)
Definition shaped (g : BasebandGain) : Prop := forall a, length (member a g) = 8%nat /\
  Forall (fun paths => length paths = 2%nat /\ Forall (fun row => zlen row = width a) paths) (member a g).
Definition inside (x : key) : Prop := let '(a, band, path, k) := x in 0 <= band < 8 /\ 0 <= path < 2 /\ 0 <= k < width a.

Lemma member_set a v g b : member b (setMember a v g) = if decide (b = a) then v else member b g.
Proof. destruct a, b; reflexivity. Qed.
Lemma noGain_shaped : shaped noGain.
Proof. intros a. destruct a; (split; [reflexivity|]); repeat constructor. Qed.
Lemma placeOf_inside rfe address a start count : placeOf rfe address = Some (Some (a, start, count)) ->
  0 <= Z.land (Z.shiftr address 16) 255 < 8 /\ 0 <= Z.land (Z.shiftr address 8) 255 < 2 /\ 0 <= start /\ 0 <= count /\ start + count <= width a.
Proof.
  unfold placeOf. cbv zeta. destruct (_ || _ || _) eqn:E; [discriminate|]. apply orb_false_iff in E as [E _]. apply orb_false_iff in E as [E1%Z.leb_gt E2%Z.leb_gt].
  pose proof (Z.land_nonneg (Z.shiftr address 16) 255). pose proof (Z.land_nonneg (Z.shiftr address 8) 255).
  intros H1. assert (Hs : 0 <= start /\ 0 <= count /\ start + count <= width a); [|lia]. clear - H1. revert H1.
  generalize (Z.land address 255) as ty; generalize (Z.shiftr address 24) as cf; intros cf ty. generalize (Z.shiftr ty 4) as w. generalize (Z.land ty 15) as x. intros x w.
  repeat match goal with |- context [if ?b then _ else _] => lazymatch b with context [if _ then _ else _] => fail | _ => destruct b eqn:? end end; intros [= <- <- <-];
    repeat match goal with H : (_ && _) = true |- _ => apply andb_true_iff in H as [? ?] | H : (?x =? _) = true |- _ => apply Z.eqb_eq in H end; subst; cbn [width]; try lia.
Qed.

(** Reading a three-dimensional array after a write. *)
Definition cell (m : list (list (list Z))) (i j k : Z) : Z := nth (Z.to_nat k) (nth (Z.to_nat j) (nth (Z.to_nat i) m []) []) 0.
Lemma cell_insert m paths row i j k v i' j' k' : m !! Z.to_nat i = Some paths -> paths !! Z.to_nat j = Some row -> 0 <= i -> 0 <= j -> 0 <= k < zlen row -> 0 <= i' -> 0 <= j' -> 0 <= k' ->
  cell (<[Z.to_nat i := <[Z.to_nat j := <[Z.to_nat k := v]> row]> paths]> m) i' j' k' = if bool_decide ((i, j, k) = (i', j', k')) then v else cell m i' j' k'.
Proof.
  intros Hm Hp Hi Hj Hk Hi' Hj' Hk'. unfold cell. pose proof (lookup_lt_Some _ _ _ Hm) as Li. pose proof (lookup_lt_Some _ _ _ Hp) as Lj.
  rewrite nth_insert_Z by (unfold zlen; lia). destruct (Z.eqb_spec i' i) as [-> |Ni].
  2: { rewrite bool_decide_eq_false_2 by congruence. reflexivity. }
  rewrite nth_insert_Z by (unfold zlen; lia). destruct (Z.eqb_spec j' j) as [-> |Nj].
  2: { rewrite bool_decide_eq_false_2 by congruence. rewrite (nth_lookup_Some m _ [] paths Hm). reflexivity. }
  rewrite nth_insert_Z by lia. rewrite (nth_lookup_Some m _ [] paths Hm), (nth_lookup_Some paths _ [] row Hp).
  destruct (Z.eqb_spec k' k) as [-> |Nk]; [rewrite bool_decide_eq_true_2 by reflexivity|rewrite bool_decide_eq_false_2 by congruence]; reflexivity.
Qed.

Definition keyed (x : key) (v : Z) (g g' : BasebandGain) : Prop :=
  shaped g' /\ forall y, inside y -> entry y g' = if bool_decide (x = y) then v else entry y g.
Lemma putEntry_spec a band path k v g : shaped g -> inside (a, band, path, k) -> exists g', putEntry a band path k v g = MVal g' /\ keyed (a, band, path, k) v g g'.
Proof.
  intros Hg (Hb & Hp & Hk). destruct (Hg a) as [L1 L2]. unfold putEntry.
  destruct (lookup_lt_is_Some_2 (member a g) (Z.to_nat band) ltac:(lia)) as [paths E1]. rewrite E1. destruct (Forall_lookup_1 _ _ _ _ L2 E1) as [L3 L4].
  destruct (lookup_lt_is_Some_2 paths (Z.to_nat path) ltac:(lia)) as [row E2]. rewrite E2. pose proof (Forall_lookup_1 _ _ _ _ L4 E2) as L5. cbn beta in L5.
  rewrite (proj2 (Z.ltb_ge k 0)), (proj2 (Z.leb_gt (zlen row) k)) by lia. cbn [orb]. eexists. split; [reflexivity|]. split.
  - intros b. rewrite member_set. destruct (decide (b = a)) as [-> |]; [|apply Hg]. rewrite length_insert. split; [exact L1|].
    apply Forall_insert; [exact L2|]. rewrite length_insert. split; [exact L3|]. apply Forall_insert; [exact L4|]. unfold zlen in *. rewrite length_insert. exact L5.
  - intros [[[b i] j] l] (Hi & Hj & Hl). unfold entry. rewrite member_set. destruct (decide (b = a)) as [-> |N].
    + pose proof (cell_insert (member a g) paths row band path k v i j l E1 E2 ltac:(lia) ltac:(lia) ltac:(lia) ltac:(lia) ltac:(lia) ltac:(lia)) as C. unfold cell in C. rewrite C.
      destruct (decide ((band, path, k) = (i, j, l))) as [E|E]; [rewrite !bool_decide_eq_true_2 by congruence|rewrite !bool_decide_eq_false_2 by congruence]; reflexivity.
    + rewrite bool_decide_eq_false_2 by congruence. reflexivity.
Qed.
Definition poured (l : list (key * Z)) (g g' : BasebandGain) : Prop := shaped g' /\ forall y, inside y -> entry y g' = lastOf y (entry y g) l.
Lemma putEntries_spec n a band path k value g : shaped g -> 0 <= band < 8 -> 0 <= path < 2 -> 0 <= k -> k + Z.of_nat n <= width a ->
  exists g', putEntries n a band path k value g = MVal g' /\ poured (entriesFrom n a band path k value) g g'.
Proof.
  revert k value g. induction n as [|n IH]; intros k value g Hg Hb Hp Hk Hn; cbn [putEntries entriesFrom].
  { exists g. split; [reflexivity|]. split; [exact Hg|]. reflexivity. }
  destruct (putEntry_spec a band path k (signedByte (u8 value)) g Hg) as (g1 & -> & Hs1 & H1); [unfold inside; lia|].
  destruct (IH (k + 1) (Z.shiftr value 8) g1 Hs1 Hb Hp ltac:(lia) ltac:(lia)) as (g2 & E2 & Hs2 & H2). exists g2. split; [exact E2|]. split; [exact Hs2|].
  intros y Hy. rewrite H2, H1 by exact Hy. reflexivity.
Qed.
Lemma record_spec rfe r g : shaped g -> placeOf rfe (address r) <> None ->
  exists g', applyGainRecord (Some g) rfe (address r) (value r) = MVal (Some g') /\ poured (entriesOf rfe r) g g'.
Proof.
  intros Hg Hp. unfold applyGainRecord, entriesOf. destruct (placeOf rfe (address r)) as [[[[a start] count]|]|] eqn:E; [| |congruence].
  - destruct (placeOf_inside _ _ _ _ _ E) as (H1 & H2 & H3 & H4 & H5).
    destruct (putEntries_spec (Z.to_nat count) a _ _ start (value r) g Hg H1 H2 H3 ltac:(lia)) as (g' & -> & H). exists g'. split; [reflexivity|exact H].
  - exists g. split; [reflexivity|]. split; [exact Hg|]. reflexivity.
Qed.
(** The records of the rows for the board, in order. *)
Definition gainPlan (rows : list RadioRegister) : list sinkOp := map (fun r => GainRecord (address r) (value r)) rows.
Lemma plan_gain t rows : kind t = gain -> plan t rows = gainPlan rows.
Proof. intros E. unfold plan, gainPlan, action. rewrite E. induction rows as [|r rows IH]; [reflexivity|]. cbn. f_equal. exact IH. Qed.
Lemma feed_check rfe rows : feed (collector rfe) (MVal None) (gainPlan rows) = (forallb (fun r => match placeOf rfe (address r) with Some _ => true | None => false end) rows, MVal None).
Proof.
  induction rows as [|r rows IH]; [reflexivity|]. cbn [gainPlan map feed forallb collector]. unfold applyGainRecord.
  destruct (placeOf rfe (address r)) as [[[[a start] count]|]|]; cbn [andb]; [exact IH|exact IH|reflexivity].
Qed.
Lemma feed_pour rfe rows g : shaped g -> Forall (fun r => placeOf rfe (address r) <> None) rows ->
  exists g', feed (collector rfe) (MVal (Some g)) (gainPlan rows) = (true, MVal (Some g')) /\ poured (concat (map (entriesOf rfe) rows)) g g'.
Proof.
  intros Hg Hr. revert g Hg. induction Hr as [|r rows Hr _ IH]; intros g Hg; cbn [gainPlan map feed concat].
  { exists g. split; [reflexivity|]. split; [exact Hg|]. reflexivity. }
  destruct (record_spec rfe r g Hg Hr) as (g1 & E1 & Hs1 & H1). cbn [collector]. rewrite E1. destruct (IH g1 Hs1) as (g2 & E2 & Hs2 & H2). exists g2. split; [exact E2|]. split; [exact Hs2|].
  intros y Hy. rewrite H2, H1 by exact Hy. unfold lastOf. rewrite fold_left_app. reflexivity.
Qed.

(** A table of gains for the board, all of whose records are known. *)
Definition gainRows (t : RadioTable) (rfe cut : Z) (rows : list RadioRegister) : Prop :=
  kind t = gain /\ (exists tgt, tableRows t rfe cut tgt rows) /\ Forall (fun r => placeOf rfe (address r) <> None) rows.
Lemma known_spec rfe rows : forallb (fun r => match placeOf rfe (address r) with Some _ => true | None => false end) rows = true <-> Forall (fun r => placeOf rfe (address r) <> None) rows.
Proof.
  rewrite forallb_forall, List.Forall_forall. split; intros H r Hr; specialize (H r Hr); destruct (placeOf rfe (address r)); congruence.
Qed.
Lemma entry_noGain x : inside x -> entry x noGain = 0.
Proof.
  destruct x as [[[a i] j] k]. intros (Hi & Hj & Hk). unfold entry. assert (E : member a noGain = noEntries a) by (destruct a; reflexivity). rewrite E. unfold noEntries.
  unfold zeros. rewrite !nth_lookup. rewrite lookup_replicate_2 by lia. cbv beta iota delta [default from_option id]. rewrite lookup_replicate_2 by lia. cbv beta iota delta [default from_option id]. rewrite lookup_replicate_2 by lia. reflexivity.
Qed.


(** ** A concrete table *)

Definition sampleGain : RadioTable := mkTable (Some [mkRow 0x00000000 0x04030201; mkRow 0x01000159 0; mkRow 0x01010011 0x0000f00f]) gain 0.
Example gain_sample : let (s, out) := loadBasebandGain (mkTable (Some [mkRow 0x00000000 0x04030201; mkRow 0x00000100 0x84838281; mkRow 0x01010011 0x0000f00f]) gain 0) 1 0 noGain in
  (status s, match out with MVal (Some g) => map (fun x => entry x g) [(lna_gain, 0, 0, 2); (lna_gain, 0, 1, 0); (rpl_ofst_40, 1, 0, 1); (rpl_ofst_40, 1, 0, 2); (tia_gain, 0, 0, 0)] | _ => [] end) = (ok, [3; -127; 15; -16; 0]).
Proof. vm_compute. reflexivity. Qed.
Example gain_unknown : loadBasebandGain sampleGain 1 0 noGain = (mkResult ioError 1 2 1 0 0, MVal (Some noGain)).
Proof. vm_compute. reflexivity. Qed.
