(* ===== verification/RadioFirmware.v ===== *)
(** * The radio's rows for the firmware (src/network/RadioFirmware.hpp)

    The rows that are written to the radio are kept for the firmware as well:
    [prepareRadioFirmware] collects them in a buffer of the caller, and
    [RadioFirmwarePages] sends it in pages of 500 words. *)

From S2P Require Import Prelude Prog Descriptors DataPath.
From S2P Require Protocol.
From S2P Require Import RadioTables.

(** ** Data *)

(** The addresses of buffers are compared, so that they are members here. *)
Record RadioFirmwarePages := mkPages { data : option buf; dataAddress : Z; words : Z; p_path : Z }.
Definition noPages : RadioFirmwarePages := mkPages None 0 0 0.
Definition pages (p : RadioFirmwarePages) : Z := (words p + 499) / 500.
(** Whether two ranges of addresses meet, as the source asks. *)
Definition overlap (src srcBytes dst dstBytes : Z) : bool := if src <=? dst then dst - src <? srcBytes else src - dst <? dstBytes.
Definition encode (p : RadioFirmwarePages) (page sequence : Z) (out : option buf) (outAddress capacity : Z) : mres unit (buf * Z) :=
  match data p with
  | None => MErr tt
  | Some d =>
      fail_if ((words p =? 0) || (1500 <? words p) || (1 <? p_path p) || (pages p <=? page)) tt;;
      let start := page * 500 in
      let count := if 500 <? words p - start then 500 else words p - start in
      match out with
      | None => MErr tt
      | Some o =>
          fail_if (overlap (dataAddress p) (words p * 4) outAddress capacity) tt;;
          Protocol.encodeH2c (Protocol.mkCommandId 2 (if p_path p =? 0 then 8 else 9) (u8 page)) sequence false false
            (Protocol.Payload (drop (Z.to_nat (start * 4)) d)) (count * 4) (Some o) capacity
      end
  end.

(** ** Collecting the rows *)

(** Rows the radio has no register or value for. *)
Definition unwritable (a v : Z) : bool := negb (Z.ldiff a 0x100ff =? 0) || negb (Z.ldiff v 0xfffff =? 0).
Definition word (a v : Z) : Z := Z.lor (u32 (Z.shiftl a 20)) v.
(** [RadioFirmwareCollector]: the buffer, if any, and the number of words; a
    write outside the buffer is [MOob], for good. *)
Definition collector (capacity : Z) : handler Sink (mres unit (option buf * Z)) := fun d o =>
  match o with
  | Cancelled | BbWrite _ _ | GainRecord _ _ | DelayUs _ => (false, d)
  | RfWrite _ a v =>
      if unwritable a v then (false, d) else
      if a <? 0x100 then (true, d) else
      match d with
      | MVal (storage, count) =>
          if (1500 <=? count) || (capacity / 4 <=? count) then (false, d) else
          match storage with
          | None => (true, MVal (None, count + 1))
          | Some b => match store32 (E:=unit) b (count * 4) (word a v) with MVal b => (true, MVal (Some b, count + 1)) | _ => (false, MOob) end
          end
      | _ => (false, d)
      end
  end.
(** The status, the buffer afterwards and the pages. *)
Definition prepareRadioFirmware (t : RadioTable) (tableAddress rfe cut : Z) (storage : option buf) (storageAddress capacity : Z)
    : RadioTableStatus * mres unit (option buf) * RadioFirmwarePages :=
  match storage with
  | None => (invalid, MVal None, noPages)
  | Some b =>
      if negb (bool_decide (kind t = radio)) then (invalid, MVal storage, noPages) else
      let count := match registers t with Some rows => zlen rows | None => 0 end in
      if (65536 <? count) || overlap tableAddress (count * 8) storageAddress capacity then (invalid, MVal storage, noPages) else
      let check := snd (fst (run (collector capacity) (applyRadioTable t rfe cut noResult) (MVal (None, 0)))) in
      if negb (bool_decide (status check = ok)) then (status check, MVal storage, noPages) else
      let '(_, result, d) := run (collector capacity) (applyRadioTable t rfe cut noResult) (MVal (Some b, 0)) in
      match d with
      | MVal (storage, n) => (status result, MVal storage, if bool_decide (status result = ok) then mkPages storage storageAddress n (path t) else noPages)
      | MErr e => (status result, MErr e, noPages)
      | MOob => (status result, MOob, noPages)
      end
  end.

(** ** What is collected *)

Definition kept (r : RadioRegister) : bool := 0x100 <=? address r.
Definition uploaded (rows : list RadioRegister) : list Z := map (fun r => word (address r) (value r)) (List.filter kept rows).
Definition bytes_of (ws : list Z) : buf := concat (map le32_bytes ws).
Definition writable (r : RadioRegister) : Prop := unwritable (address r) (value r) = false.
Definition rfPlan (p : Z) (rows : list RadioRegister) : list sinkOp := map (fun r => RfWrite p (address r) (value r)) rows.
Lemma plan_radio t rows : kind t = radio -> plan t rows = rfPlan (path t) rows.
Proof. intros E. unfold plan, rfPlan, action. rewrite E. induction rows as [|r rows IH]; [reflexivity|]. cbn. f_equal. exact IH. Qed.
Definition room (capacity n : Z) : Prop := n <= 1500 /\ n <= capacity / 4.

Lemma uploaded_cons r rows : uploaded (r :: rows) = if kept r then word (address r) (value r) :: uploaded rows else uploaded rows.
Proof. unfold uploaded. cbn [List.filter]. destruct (kept r); reflexivity. Qed.
Lemma not_kept r : kept r = negb (address r <? 0x100).
Proof. unfold kept. rewrite Z.leb_antisym. reflexivity. Qed.
(** The counting pass. *)
Lemma feed_count capacity p rows n : 0 <= n -> exists b d, feed (collector capacity) (MVal (None, n)) (rfPlan p rows) = (b, d) /\
  (b = true <-> Forall writable rows /\ (zlen (uploaded rows) = 0 \/ room capacity (n + zlen (uploaded rows)))).
Proof.
  unfold room. revert n. induction rows as [|r rows IH]; intros n Hn; cbn [rfPlan map feed].
  { exists true, (MVal (None, n)). split; [reflexivity|]. split; [intros _; split; [apply List.Forall_nil|left; reflexivity]|reflexivity]. }
  cbn [collector]. pose proof (zlen_nonneg (uploaded rows)) as Hz.
  assert (Hw : forall P : Prop, Forall writable (r :: rows) /\ P <-> writable r /\ Forall writable rows /\ P) by (intros P; rewrite List.Forall_cons_iff; tauto).
  rewrite uploaded_cons, not_kept. unfold writable at 1 in Hw. destruct (unwritable (address r) (value r)) eqn:Eu.
  { exists false, (MVal (None, n)). split; [reflexivity|]. split; [discriminate|]. intros H. apply Hw in H. destruct H; congruence. }
  destruct (address r <? 0x100) eqn:Ea; cbn [negb].
  { destruct (IH n Hn) as (b & d & E & Hb). exists b, d. split; [exact E|]. rewrite Hb, Hw. tauto. }
  assert (El : zlen (word (address r) (value r) :: uploaded rows) = 1 + zlen (uploaded rows)) by (unfold zlen; cbn; lia). rewrite El.
  destruct ((1500 <=? n) || (capacity / 4 <=? n)) eqn:Ec.
  { exists false, (MVal (None, n)). split; [reflexivity|]. split; [discriminate|]. intros [_ [H|[H1 H2]]]; [lia|]. apply orb_true_iff in Ec as [?|?]; lia. }
  apply orb_false_iff in Ec. destruct (IH (n + 1) ltac:(lia)) as (b & d & E & Hb). exists b, d. split; [exact E|]. rewrite Hb, Hw.
  split; [intros [H1 H2]; split; [exact Eu|split; [exact H1|]]|intros (_ & H1 & H2); split; [exact H1|]]; (destruct H2 as [H2|H2]; [|right; lia]); [right; lia|lia].
Qed.

Lemma zlen_bytes_of ws : zlen (bytes_of ws) = 4 * zlen ws.
Proof. induction ws as [|w ws IH]; [reflexivity|]. unfold bytes_of in *. cbn [map concat]. rewrite zlen_app, IH. change (zlen (le32_bytes w)) with 4. unfold zlen. cbn [length]. lia. Qed.
Lemma blit_blit (b : buf) p s1 s2 : 0 <= p -> p + zlen s1 + zlen s2 <= zlen b -> blit (blit b p s1) (p + zlen s1) s2 = blit b p (s1 ++ s2).
Proof.
  intros Hp Hl. unfold blit, zlen in *. rewrite length_app.
  assert (L : length (take (Z.to_nat p) b ++ s1) = Z.to_nat (p + Z.of_nat (length s1))) by (rewrite length_app, length_take; lia).
  rewrite (app_assoc (take (Z.to_nat p) b) s1). rewrite take_app_ge, drop_app_ge by lia.
  rewrite L. rewrite Nat.sub_diag, take_0, app_nil_r, drop_drop, <- !app_assoc. do 4 f_equal. lia.
Qed.
Lemma blit_none (b : buf) p : 0 <= p <= zlen b -> blit b p [] = b.
Proof. intros Hp. unfold blit. cbn [length app]. rewrite Nat.add_0_r. apply take_drop. Qed.
(** The storing pass. *)
Lemma feed_store capacity p rows b n : 0 <= n -> capacity <= zlen b -> 4 * n <= zlen b -> Forall writable rows -> zlen (uploaded rows) = 0 \/ room capacity (n + zlen (uploaded rows)) ->
  feed (collector capacity) (MVal (Some b, n)) (rfPlan p rows) = (true, MVal (Some (blit b (4 * n) (bytes_of (uploaded rows))), n + zlen (uploaded rows))).
Proof.
  intros Hn Hc Hb Hw. revert b n Hn Hc Hb. induction Hw as [|r rows Hr _ IH]; intros b n Hn Hc Hb Hroom; cbn [rfPlan map feed collector].
  { cbn [uploaded List.filter map bytes_of concat]. rewrite blit_none by lia. do 3 f_equal. unfold zlen. cbn. lia. }
  rewrite Hr. rewrite uploaded_cons, not_kept in *. destruct (address r <? 0x100) eqn:Ea; cbn [negb] in *; [apply IH; assumption|].
  pose proof (zlen_nonneg (uploaded rows)) as Hz. assert (El : zlen (word (address r) (value r) :: uploaded rows) = 1 + zlen (uploaded rows)) by (unfold zlen; cbn; lia). rewrite El in *.
  assert (Hr2 : room capacity (n + (1 + zlen (uploaded rows)))) by (destruct Hroom; [lia|assumption]). destruct Hr2 as [R1 R2].
  rewrite (proj2 (Z.leb_gt 1500 n)), (proj2 (Z.leb_gt (capacity / 4) n)) by lia. cbn [orb].
  assert (Hq : 4 * (n + 1) <= capacity) by (pose proof (Z.mul_div_le capacity 4); lia).
  rewrite store32_in by lia. change (zlen (le32_bytes (word (address r) (value r)))) with 4 in *.
  rewrite IH; [|lia|rewrite zlen_blit; [exact Hc|lia|change (zlen (le32_bytes (word (address r) (value r)))) with 4; lia]|rewrite zlen_blit; [lia|lia|change (zlen (le32_bytes (word (address r) (value r)))) with 4; lia]|right; split; lia].
  f_equal. f_equal. f_equal; [|lia]. f_equal. replace (n * 4) with (4 * n) by lia. replace (4 * (n + 1)) with (4 * n + zlen (le32_bytes (word (address r) (value r)))) by (change (zlen (le32_bytes (word (address r) (value r)))) with 4; lia).
  rewrite blit_blit; [reflexivity|lia|]. rewrite zlen_bytes_of. change (zlen (le32_bytes (word (address r) (value r)))) with 4. pose proof (Z.mul_div_le capacity 4). lia.
Qed.

(** ** The contract *)

(** Rows for the radio of a board that fit the buffer. *)
Definition uploadRows (t : RadioTable) (rfe cut capacity : Z) (rows : list RadioRegister) : Prop :=
  kind t = radio /\ (exists tgt, tableRows t rfe cut tgt rows) /\ Forall writable rows /\ (zlen (uploaded rows) = 0 \/ room capacity (zlen (uploaded rows))).
Lemma tables_bounded t rfe cut tgt rows : tableRows t rfe cut tgt rows -> match registers t with Some rows => zlen rows | None => 0 end <= 65536.
Proof. intros (all & n & items & (E & Hz & _) & _). rewrite E. lia. Qed.
(** The pages carry the words: page after page, each as the command of its
    path and number, their payloads are the words in order. *)
Definition carries (p : RadioFirmwarePages) (ws : list Z) : Prop :=
  words p = zlen ws /\ forall page sequence out outAddress capacity, 0 <= page < pages p -> in_u8 sequence -> capacity <= zlen out ->
    overlap (dataAddress p) (4 * zlen ws) outAddress capacity = false -> 2008 <= capacity ->
    exists packet n, encode p page sequence (Some out) outAddress capacity = MVal (packet, n) /\
      let length := Z.min 2000 (4 * zlen ws - 2000 * page) in
      Protocol.decodeC2h (Some packet) n = MVal (Protocol.mkEvent (Protocol.mkCommandId 2 (8 + p_path p) page) (Some (drop 8 packet)) length) /\
      forall i, 0 <= i < length -> byte_at (drop 8 packet) i = byte_at (bytes_of ws) (2000 * page + i).
Lemma pages_carry b address p ws : 0 <= p <= 1 -> zlen ws <= 1500 -> 4 * zlen ws <= zlen b ->
  carries (mkPages (Some (blit b 0 (bytes_of ws))) address (zlen ws) p) ws.
Proof.
  intros Hp Hw Hb. split; [reflexivity|]. intros page sequence out outAddress capacity Hpg Hq Hc Ho Hcap. unfold pages in Hpg. cbn [words dataAddress p_path] in *.
  assert (Hpg2 : 500 * page < zlen ws /\ 0 <= page < 3) by (clear - Hpg Hw; zlia). destruct Hpg2 as [Hpg2 Hp3].
  unfold encode. cbn [data words p_path dataAddress]. unfold pages. cbn [words].
  rewrite (proj2 (Z.eqb_neq (zlen ws) 0)), (proj2 (Z.ltb_ge 1500 (zlen ws))), (proj2 (Z.ltb_ge 1 p)), (proj2 (Z.leb_gt ((zlen ws + 499) / 500) page)) by lia. cbn [orb fail_if mbind mres_bind].
  replace (zlen ws * 4) with (4 * zlen ws) by lia. rewrite Ho. cbn [fail_if mbind mres_bind].
  set (length := Z.min 2000 (4 * zlen ws - 2000 * page)). replace ((if 500 <? zlen ws - page * 500 then 500 else zlen ws - page * 500) * 4) with length by (destruct (Z.ltb_spec 500 (zlen ws - page * 500)); lia).
  set (d := drop (Z.to_nat (page * 500 * 4)) (blit b 0 (bytes_of ws))). rewrite (u8_small page) by (clear - Hp3; zlia).
  assert (Hz : zlen (blit b 0 (bytes_of ws)) = zlen b) by (apply zlen_blit; rewrite ?zlen_bytes_of; lia).
  assert (Hd : length <= zlen d) by (unfold d, zlen in *; rewrite length_drop; lia).
  set (id := Protocol.mkCommandId 2 (if p =? 0 then 8 else 9) page).
  assert (Hid : Protocol.idOk id) by (split; [|split]; [cbn; lia|unfold id; cbn; destruct (p =? 0); lia|clear - Hp3; unfold id; cbn; zlia]).
  pose proof (Protocol.encodeH2c_spec id sequence false false (Protocol.Payload d) length out capacity Hid Hq ltac:(lia) Hd Hc) as Hs.
  destruct (Protocol.encodeH2c id sequence false false (Protocol.Payload d) length (Some out) capacity) as [[o n]|e|] eqn:E; cbn [mspec fst snd] in Hs; [| |contradiction].
  - destruct Hs as (-> & H1 & H2 & H3 & _ & Hcmd). exists o, (length + 8). split; [reflexivity|].
    destruct (Protocol.commandIn_decodes o id sequence _ false length _ Hid Hq ltac:(lia) H2 ltac:(lia) Hcmd) as [Hdec Hbytes].
    split; [rewrite Hdec; unfold id; do 3 f_equal; destruct (Z.eqb_spec p 0); lia|]. intros i Hi. rewrite Hbytes by exact Hi. cbn [Protocol.sourceByte].
    transitivity (byte_at (blit b 0 (bytes_of ws)) (2000 * page + i)).
    + unfold d, byte_at. rewrite !nth_lookup, lookup_drop. do 3 f_equal. lia.
    + rewrite byte_at_blit by (rewrite ?zlen_bytes_of; lia). rewrite zlen_bytes_of. replace ((0 <=? 2000 * page + i) && (2000 * page + i <? 0 + 4 * zlen ws)) with true by lia. f_equal. lia.
  - exfalso. destruct (Protocol.encodeH2c_err id sequence false false (Protocol.Payload d) length out capacity e Hid E) as [[H _]|[H|H]]; [discriminate|lia|lia].
Qed.

(** [prepareRadioFirmware] never writes outside the caller's buffer, and
    all or nothing: for rows for the radio of a board that the buffer and the
    firmware have room for, its pages carry exactly the words of the rows with
    an address from 0x100 on, in order, whatever buffer a page is encoded in;
    otherwise it answers an error, offers no page and leaves the buffer as it
    was. *)
Theorem radio_pages t tableAddress rfe cut b storageAddress capacity :
  capacity <= zlen b -> 0 <= path t -> overlap tableAddress (8 * match registers t with Some rows => zlen rows | None => 0 end) storageAddress capacity = false ->
  let '(st, storage, out) := prepareRadioFirmware t tableAddress rfe cut (Some b) storageAddress capacity in
  (exists rows, uploadRows t rfe cut capacity rows /\ st = ok /\ storage = MVal (Some (blit b 0 (bytes_of (uploaded rows)))) /\ p_path out = path t /\ carries out (uploaded rows)) \/
  ((forall rows, ~ uploadRows t rfe cut capacity rows) /\ st <> ok /\ storage = MVal (Some b) /\ out = noPages).
Proof.
  intros Hc Hpath Ho. unfold prepareRadioFirmware. destruct (bool_decide (kind t = radio)) eqn:Ek; cbn [negb].
  2: { right. apply bool_decide_eq_false in Ek. split; [intros rows [H _]; contradiction|]. split; [discriminate|auto]. }
  apply bool_decide_eq_true in Ek. rewrite Z.mul_comm in Ho. rewrite Ho, orb_false_r. destruct (65536 <? _) eqn:El.
  { right. split; [|split; [discriminate|auto]]. intros rows (_ & (tgt & Ht) & _). pose proof (tables_bounded t rfe cut tgt rows Ht). lia. }
  pose proof (run_applied (collector capacity) (MVal (None, 0)) t rfe cut ltac:(reflexivity)) as H1.
  destruct (run (collector capacity) (applyRadioTable t rfe cut noResult) (MVal (None, 0))) as [[r1 s1] d1]. destruct H1 as [H1 H1']. cbn [fst snd].
  destruct (bool_decide (status s1 = ok)) eqn:Es; cbn [negb].
  - apply bool_decide_eq_true in Es. destruct H1' as [(tgt & rows & Ht)|[N _]]; [|congruence]. destruct (H1 tgt rows Ht) as [(_ & _ & F & _)|[E _]]; [|congruence].
    rewrite (plan_radio t rows Ek) in F. destruct (feed_count capacity (path t) rows 0 ltac:(lia)) as (x & d & Ef & Hx). rewrite Ef in F. injection F as -> _. destruct (proj1 Hx eq_refl) as [Hw Hr]. rewrite Z.add_0_l in Hr.
    pose proof (zlen_nonneg (uploaded rows)) as Hz. assert (Hq : 4 * zlen (uploaded rows) <= zlen b).
    { destruct Hr as [Hr|[_ Hr]]; [rewrite Hr; pose proof (zlen_nonneg b); lia|]. pose proof (Z.mul_div_le capacity 4). lia. }
    pose proof (run_applied (collector capacity) (MVal (Some b, 0)) t rfe cut ltac:(reflexivity)) as H2.
    destruct (run (collector capacity) (applyRadioTable t rfe cut noResult) (MVal (Some b, 0))) as [[r2 s2] d2]. destruct H2 as [H2 _]. specialize (H2 tgt rows Ht).
    rewrite (plan_radio t rows Ek), feed_store in H2; [|lia|exact Hc|lia|exact Hw|rewrite Z.add_0_l; exact Hr]. destruct H2 as [(S & _ & D & _)|(_ & _ & D)]; [|discriminate]. injection D as <-.
    rewrite S. rewrite bool_decide_eq_true_2 by reflexivity. left. exists rows. split; [split; [exact Ek|split; [eauto|split; [exact Hw|exact Hr]]]|]. split; [reflexivity|]. split; [reflexivity|]. split; [reflexivity|].
    rewrite Z.add_0_l, Z.mul_0_r. apply pages_carry; [|destruct Hr as [Hr|[Hr _]]; lia|exact Hq]. split; [exact Hpath|]. destruct Ht as (all & n & items & (_ & _ & Hp1) & _). exact Hp1.
  - apply bool_decide_eq_false in Es. right. split; [|split; [exact Es|auto]]. intros rows (_ & (tgt & Ht) & Hw & Hr).
    destruct (H1 tgt rows Ht) as [(S & _)|(_ & _ & D)]; [contradiction|]. rewrite (plan_radio t rows Ek) in D. destruct (feed_count capacity (path t) rows 0 ltac:(lia)) as (x & d & Ef & Hx). rewrite Ef in D. injection D as -> _.
    assert (false = true) by (apply Hx; split; [exact Hw|rewrite Z.add_0_l; exact Hr]). discriminate.
Qed.

(** ** A concrete table *)

Definition sampleRadio : RadioTable := mkTable (Some [mkRow 0x05 0x1; mkRow 0x10018 0x23; mkRow 0x13f 0x45]) radio 1.
Definition sampleBuffer : buf := zeros 16.
Example radio_unwritable : prepareRadioFirmware sampleRadio 1000 1 0 (Some sampleBuffer) 5000 16 = (ioError, MVal (Some sampleBuffer), noPages).
Proof. vm_compute. reflexivity. Qed.
Definition goodRadio : RadioTable := mkTable (Some [mkRow 0x05 0x1; mkRow 0x10018 0x23; mkRow 0x10019 0x45]) radio 1.
Definition goodResult := prepareRadioFirmware goodRadio 1000 1 0 (Some sampleBuffer) 5000 16.
Example radio_words : match snd (fst goodResult) with MVal (Some b) => (map (fun i => le32_at b (4 * i)) [0; 1; 2], words (snd goodResult)) | _ => ([], 0) end = ([0x1800023; 0x1900045; 0], 2).
Proof. vm_compute. reflexivity. Qed.
Lemma radio_pages_witness : exists rows, uploadRows goodRadio 1 0 16 rows /\ carries (snd goodResult) (uploaded rows).
Proof.
  pose proof (radio_pages goodRadio 1000 1 0 sampleBuffer 5000 16 ltac:(vm_compute; discriminate) ltac:(vm_compute; discriminate) eq_refl) as H. fold goodResult in H.
  assert (E : words (snd goodResult) = 2) by (vm_compute; reflexivity). destruct goodResult as [[st storage] out]. destruct H as [(rows & H1 & _ & _ & _ & H2)|(_ & _ & _ & H)].
  - exists rows. split; [exact H1|exact H2].
  - exfalso. cbn in E. rewrite H in E. discriminate.
Defined.
