(* ===== verification/RadioAccess.v ===== *)
(** * Access to the radio (src/network/RadioAccess.hpp)

    The radio's own registers are behind the baseband: those of its digital
    part in a window, those of its analog part through a serial port with a
    command, a mask and a status register. *)

From S2P Require Import Prelude Prog.

(** ** Data and the device *)

Inductive RadioIoStatus := rOk | rInvalid | rIoError | rTimeout | rCancelled.
#[export] Instance RadioIoStatus_eq : EqDecision RadioIoStatus. Proof. solve_decision. Defined.
(** The members, [trace_] flattened. *)
Record RadioAccess := mkAccess { readAddress : Z; readValue : Z; writeAddress : Z; writeValue : Z; rfWriteCommand : Z; status_ : RadioIoStatus }.
#[export] Instance RadioAccess_rebuild : Rebuild RadioAccess := fun s =>
  mkAccess (readAddress s) (readValue s) (writeAddress s) (writeValue s) (rfWriteCommand s) (status_ s).
Definition newAccess : RadioAccess := mkAccess 0 0 0 0 0 rOk.

(** Addresses are absolute; [None] is a read that failed. *)
Inductive ioOp := IoCancelled | IoRead (a : Z) | IoWrite (a v : Z) | IoDelay (us : Z).
Definition ioAns (o : ioOp) : Type := match o with IoRead _ => option Z | _ => bool end.
Definition RadioIo : sig := Sig ioOp ioAns.
Definition RA (A : Type) : Type := M RadioIo RadioAccess A.
Definition io (o : ioOp) : RA (ioAns o) := call (Σ:=RadioIo) o.

(** ** The methods; [brk] is [return false] *)

Definition ends {A} (e : RadioIoStatus) : RA A := modify (fun s => s <| status_ := e |>);; brk.
Definition access_ready : RA unit := c ← io IoCancelled; when c (ends rCancelled).
Definition read (relative : Z) : RA Z :=
  access_ready;;
  modify (fun s => s <| readAddress := 0x10000 + relative |> <| readValue := 0 |>);;
  x ← io (IoRead (0x10000 + relative));
  match (x : option Z) with
  | None => ends rIoError
  | Some v => modify (fun s => s <| readValue := u32 v |>);; mret (u32 v)
  end.
Definition write (relative v : Z) : RA unit :=
  access_ready;;
  modify (fun s => s <| writeAddress := 0x10000 + relative |> <| writeValue := v |> <| rfWriteCommand := if relative =? 0x370 then v else rfWriteCommand s |>);;
  x ← io (IoWrite (0x10000 + relative) v);
  unless x (ends rIoError).
Definition delay (us : Z) : RA unit := access_ready;; x ← io (IoDelay us); unless x (ends rIoError).
(** [while(!(mask&1)){mask>>=1;++n;}] for a mask of 32 bits that is not 0. *)
Fixpoint shiftFrom (fuel : nat) (mask : Z) : Z :=
  match fuel with O => 0 | Datatypes.S fuel => if Z.testbit mask 0 then 0 else 1 + shiftFrom fuel (Z.shiftr mask 1) end.
Definition shift (mask : Z) : Z := shiftFrom 32 mask.
Definition update (address mask data : Z) : RA unit :=
  value ← (if mask =? 0xffffffff then mret 0 else read address);
  write address (Z.lor (Z.ldiff value mask) (Z.land (u32 (Z.shiftl data (shift mask))) mask)).
Definition pollTurn (mask : Z) (set : bool) (n : Z) : RA (option unit) :=
  v ← read 0x174c;
  if v =? 0xffffffff then ends rIoError else
  if (if set then Z.land v mask =? mask else Z.land v mask =? 0) then mret (Some tt) else
  unless (n =? 30) (delay 1);; mret None.
Definition poll (mask : Z) (set : bool) : RA unit :=
  r ← for_loop 0 31 (pollTurn mask set);
  match r with Some _ => mret tt | None => ends rTimeout end.
Definition validate (path address mask : Z) : RA unit :=
  modify (fun s => s <| status_ := rOk |>);;
  when ((1 <? path) || negb (Z.ldiff address 0x100ff =? 0) || (mask =? 0) || negb (Z.ldiff mask 0xfffff =? 0)) (ends rInvalid);;
  access_ready.
Definition window (path address : Z) : Z := (if path =? 0 then 0xe000 else 0xf000) + Z.shiftl (Z.land address 255) 2.
(** The value read; the caller's is 0 when it fails. *)
Definition readRf (path address mask : Z) : RA Z :=
  validate path address mask;;
  raw ← (if flag address 0x10000 then read (window path address) else
    poll 0x03000000 false;;
    update 0x378 0x7ff (Z.lor (Z.shiftl path 8) address);;
    delay 2;;
    poll 0x04000000 true;;
    raw ← read 0x174c;
    if raw =? 0xffffffff then ends rIoError else mret raw);
  mret (Z.shiftr (Z.land raw mask) (shift mask)).
Definition writeRf (path address mask data : Z) : RA unit :=
  validate path address mask;;
  if flag address 0x10000 then update (window path address) mask data;; delay 1 else
  poll 0x03000000 false;;
  let data := Z.land data 0xfffff in
  if mask =? 0xfffff then write 0x370 (Z.lor (Z.lor (Z.shiftl path 28) (Z.shiftl address 20)) data)
  else
    update 0x374 0xfffff mask;;
    write 0x370 (Z.lor (Z.lor (Z.lor 0x80000000 (Z.shiftl path 28)) (Z.shiftl address 20)) (Z.land (u32 (Z.shiftl data (shift mask))) 0xfffff)).
Definition drain : RA unit := modify (fun s => s <| status_ := rOk |>);; poll 0x03000000 false.
Definition aligned (relative : Z) : bool := (Z.land relative 3 =? 0) && (relative <? 0x10000).
Definition checked (relative : Z) : RA unit := modify (fun s => s <| status_ := rOk |>);; unless (aligned relative) (ends rInvalid).
Definition writeBaseband (relative value : Z) : RA unit := checked relative;; write relative value.
Definition readBaseband (relative : Z) : RA Z := checked relative;; read relative.
Definition updateBaseband (relative mask value : Z) : RA unit :=
  modify (fun s => s <| status_ := rOk |>);; when (negb (aligned relative) || (mask =? 0)) (ends rInvalid);; update relative mask value.
Definition delayMicroseconds (us : Z) : RA unit := modify (fun s => s <| status_ := rOk |>);; delay us.

(** ** The rules of the radio's registers *)

(** What the radio is told: a command of the serial port, with the mask it
    applies; a register of the window, before and after. *)
Inductive rfEvent := Analog (path address mask data : Z) | Direct (path address old new : Z).
(** What the calls have shown: whether one failed or a cancellation was seen;
    whether the status register showed the port idle and no command was given
    since; the mask register, if it was written; the last reading; whether a
    reading was asked for and is there; and what the radio was told. *)
Record Chip := mkChip { over : bool; portIdle : bool; maskWord : option Z; seen : option (Z * Z); asked : option (Z * Z); answered : bool; log : list rfEvent }.
#[export] Instance Chip_rebuild : Rebuild Chip := fun g => mkChip (over g) (portIdle g) (maskWord g) (seen g) (asked g) (answered g) (log g).
Definition newChip : Chip := mkChip false false None None None false [].
Definition statusRegister : Z := 0x1174c.
Definition inWindow (a : Z) : option (Z * Z) :=
  if (0x1e000 <=? a) && (a <? 0x1e400) then Some (0, (a - 0x1e000) / 4)
  else if (0x1f000 <=? a) && (a <? 0x1f400) then Some (1, (a - 0x1f000) / 4) else None.
Definition kept (old v mask : Z) : Prop := Z.ldiff v mask = Z.ldiff old mask.
Definition updates (g : Chip) (a v mask : Z) : Prop := exists old, seen g = Some (a, old) /\ kept old v mask.
Definition chipMay (g : Chip) (o : ioOp) : Prop :=
  over g = false /\
  match o with
  | IoCancelled | IoDelay _ => True
  | IoRead a => 0x10000 <= a < 0x20000 /\ a mod 4 = 0
  | IoWrite a v =>
      in_u32 v /\ a mod 4 = 0 /\
      (if a =? 0x10370 then portIdle g = true /\ (Z.testbit v 31 = true -> maskWord g <> None)
       else if a =? 0x10374 then updates g a v 0xfffff
       else if a =? 0x10378 then portIdle g = true /\ updates g a v 0x7ff
       else exists p, inWindow a = Some p /\ updates g a v 0xfffff)
  end.
Definition command (g : Chip) (v : Z) : rfEvent :=
  Analog (Z.land (Z.shiftr v 28) 7) (Z.land (Z.shiftr v 20) 255) (if Z.testbit v 31 then match maskWord g with Some m => m | None => 0 end else 0xfffff) (Z.land v 0xfffff).
Definition told (g : Chip) (a v : Z) : Chip :=
  if a =? 0x10370 then g <| portIdle := false |> <| log := log g ++ [command g v] |>
  else if a =? 0x10374 then g <| maskWord := Some (Z.land v 0xfffff) |>
  else if a =? 0x10378 then g <| portIdle := false |> <| asked := Some (Z.land (Z.shiftr v 8) 7, Z.land v 255) |> <| answered := false |>
  else match inWindow a, seen g with
       | Some (p, r), Some (_, old) => g <| log := log g ++ [Direct p r old v] |>
       | _, _ => g
       end.
Definition shown (g : Chip) (a v : Z) : Chip :=
  if a =? statusRegister then
    g <| seen := Some (a, v) |> <| over := over g || (v =? 0xffffffff) |> <| portIdle := negb (v =? 0xffffffff) && (Z.land v 0x03000000 =? 0) |>
      <| answered := answered g || (match asked g with Some _ => true | None => false end && (Z.land v 0x04000000 =? 0x04000000)) |>
  else g <| seen := Some (a, v) |>.
Definition chipNext (g : Chip) (o : ioOp) : ioAns o -> Chip :=
  match o with
  | IoCancelled => fun x => g <| over := over g || x |>
  | IoRead a => fun x => match x with None => g <| over := true |> | Some v => shown g a (u32 v) end
  | IoWrite a v => fun x => if x : bool then told g a v else g <| over := true |>
  | IoDelay _ => fun x => g <| over := over g || negb x |>
  end.
Definition chipRules : protocol RadioIo Chip := Protocol (Σ:=RadioIo) chipMay (fun _ _ _ => True) chipNext.

(** A method that fails tells so; what it told the radio is in [l]. *)
Definition lost (l : list rfEvent) (s : RadioAccess) (g : Chip) : Prop := status_ s <> rOk /\ log g = l.

Lemma chip_on g : over g = false -> g <| over := over g || false |> = g.
Proof. intros E. destruct g. cbn in *. subst. reflexivity. Qed.
Section methods.
Context (s : RadioAccess) (g : Chip).
Hypothesis Hon : over g = false.
Lemma ends_wp {A} e (Q : option A -> RadioAccess -> Chip -> Prop) l g' s' : e <> rOk -> log g' = l -> (forall s' g', lost l s' g' -> Q None s' g') -> wpm chipRules (ends e) s' g' Q.
Proof. intros He Hl HQ. unfold ends. wstep. apply wpm_modify. cbn beta iota. apply wpm_brk. apply HQ. split; [exact He|exact Hl]. Qed.
Lemma ready_wp (Q : option unit -> RadioAccess -> Chip -> Prop) : Q (Some tt) s g -> (forall s' g', lost (log g) s' g' -> Q None s' g') -> wpm chipRules access_ready s g Q.
Proof.
  intros H1 H2. unfold access_ready. wstep. apply (wpm_call chipRules IoCancelled); [split; [exact Hon|exact I]|]. intros [|] _; cbn beta iota; cbn [when].
  - apply (ends_wp rCancelled _ (log g)); [discriminate|reflexivity|exact H2].
  - cbn [next chipRules chipNext]. rewrite chip_on by exact Hon. apply wpm_ret, H1.
Qed.
Lemma access_read_wp rel (Q : option Z -> RadioAccess -> Chip -> Prop) : 0 <= rel < 0x10000 -> rel mod 4 = 0 ->
  (forall s' v, in_u32 v -> status_ s' = status_ s -> Q (Some v) s' (shown g (0x10000 + rel) v)) -> (forall s' g', lost (log g) s' g' -> Q None s' g') -> wpm chipRules (read rel) s g Q.
Proof.
  intros Hr Hm H1 H2. unfold read. wstep. apply ready_wp; [|exact H2]. cbn beta iota. wstep. apply wpm_modify. cbn beta iota. wstep.
  apply (wpm_call chipRules (IoRead (0x10000 + rel))); [split; [exact Hon|clear - Hr Hm; zlia]|]. intros [v|] _; cbn beta iota.
  - wstep. apply wpm_modify. cbn beta iota. apply wpm_ret. apply H1; [apply u32_range|reflexivity].
  - apply (ends_wp rIoError _ (log g)); [discriminate|reflexivity|exact H2].
Qed.
Lemma access_write_wp rel v (Q : option unit -> RadioAccess -> Chip -> Prop) : chipMay g (IoWrite (0x10000 + rel) v) ->
  (forall s', status_ s' = status_ s -> Q (Some tt) s' (told g (0x10000 + rel) v)) -> (forall s' g', lost (log g) s' g' -> Q None s' g') -> wpm chipRules (write rel v) s g Q.
Proof.
  intros Hm H1 H2. unfold write. wstep. apply ready_wp; [|exact H2]. cbn beta iota. wstep. apply wpm_modify. cbn beta iota. wstep.
  apply (wpm_call chipRules (IoWrite (0x10000 + rel) v)); [exact Hm|]. intros [|] _; cbn beta iota; cbn [unless].
  - apply wpm_ret. apply H1. reflexivity.
  - apply (ends_wp rIoError _ (log g)); [discriminate|reflexivity|exact H2].
Qed.
Lemma access_delay_wp us (Q : option unit -> RadioAccess -> Chip -> Prop) : Q (Some tt) s g -> (forall s' g', lost (log g) s' g' -> Q None s' g') -> wpm chipRules (delay us) s g Q.
Proof.
  intros H1 H2. unfold delay. wstep. apply ready_wp; [|exact H2]. cbn beta iota. wstep. apply (wpm_call chipRules (IoDelay us)); [split; [exact Hon|exact I]|]. intros [|] _; cbn beta iota; cbn [unless].
  - cbn [next chipRules chipNext negb]. rewrite chip_on by exact Hon. apply wpm_ret, H1.
  - apply (ends_wp rIoError _ (log g)); [discriminate|reflexivity|exact H2].
Qed.
End methods.

(** What a wait for the port leaves: the port idle, or the reading there. *)
Record waited (mask : Z) (set : bool) (s s' : RadioAccess) (g g' : Chip) : Prop := {
  w_over : over g' = false; w_status : status_ s' = status_ s; w_log : log g' = log g; w_mask : maskWord g' = maskWord g; w_asked : asked g' = asked g;
  w_idle : mask = 0x03000000 -> set = false -> portIdle g' = true; w_answered : mask = 0x04000000 -> set = true -> asked g <> None -> answered g' = true }.
Lemma port_poll_wp mask set s g (Q : option unit -> RadioAccess -> Chip -> Prop) : over g = false ->
  (forall s' g', waited mask set s s' g g' -> Q (Some tt) s' g') -> (forall s' g', lost (log g) s' g' -> Q None s' g') -> wpm chipRules (poll mask set) s g Q.
Proof.
  intros Hon H1 H2. unfold poll. wstep.
  apply (wpm_for_loop chipRules (fun _ t h => over h = false /\ status_ t = status_ s /\ log h = log g /\ maskWord h = maskWord g /\ asked h = asked g)); [lia|auto| |].
  - intros j t h _ (I1 & I2 & I3 & I4 & I5). unfold pollTurn. wstep.
    assert (H2' : forall s' g', lost (log h) s' g' -> Q None s' g') by (rewrite I3; exact H2).
    apply access_read_wp; [exact I1|lia|reflexivity| |intros s' g' H; apply H2'; exact H]. intros t1 v Hv E1. cbn beta iota. change (0x10000 + 0x174c) with statusRegister.
    assert (El : log (shown h statusRegister v) = log g) by exact I3.
    destruct (Z.eqb_spec v 0xffffffff) as [Ev|Ev].
    { apply (ends_wp rIoError _ (log g)); [discriminate|exact El|intros s' g' H; exact (H2 s' g' H)]. }
    assert (Eo : over (shown h statusRegister v) = false) by (cbn; rewrite I1, (proj2 (Z.eqb_neq v 0xffffffff)) by exact Ev; reflexivity).
    destruct (if set then _ else _) eqn:Ec.
    + apply wpm_ret. cbn beta iota. apply wpm_ret. apply H1. split; [exact Eo|congruence|exact El|exact I4|exact I5| |].
      * intros -> ->. cbn. rewrite (proj2 (Z.eqb_neq v 0xffffffff)) by exact Ev. exact Ec.
      * intros -> -> Ha. cbn. rewrite Ec, I5. destruct (asked g); [|congruence]. apply orb_true_r.
    + wstep. destruct (j =? 30); cbn [unless]; [apply wpm_ret; cbn beta iota; apply wpm_ret; cbn beta iota|].
      * split; [exact Eo|]. split; [congruence|]. split; [exact El|]. split; [exact I4|exact I5].
      * apply access_delay_wp; [exact Eo| |intros s' g' H; apply H2; rewrite <- El; exact H]. cbn beta iota. apply wpm_ret. cbn beta iota. split; [exact Eo|]. split; [congruence|]. split; [exact El|]. split; [exact I4|exact I5].
  - intros t h (I1 & I2 & I3 & I4 & I5). cbn beta iota. apply (ends_wp rTimeout _ (log g)); [discriminate|exact I3|exact H2].
Qed.
Lemma merge_kept old x mask m : Z.ldiff mask m = 0 -> kept old (Z.lor (Z.ldiff old mask) (Z.land x mask)) m.
Proof.
  intros H. unfold kept. apply Z.bits_inj'. intros n Hn. assert (Hb : Z.testbit (Z.ldiff mask m) n = false) by (rewrite H; apply Z.bits_0).
  rewrite Z.ldiff_spec in Hb. rewrite !Z.ldiff_spec, Z.lor_spec, Z.ldiff_spec, Z.land_spec. destruct (Z.testbit old n), (Z.testbit mask n), (Z.testbit m n), (Z.testbit x n); try reflexivity; discriminate.
Qed.
Lemma merge_u32 old x mask : in_u32 old -> in_u32 mask -> in_u32 (Z.lor (Z.ldiff old mask) (Z.land x mask)).
Proof. intros Ho Hm. apply lor_u32; [pose proof (ldiff_bounds old mask); clear - Ho H; zlia|pose proof (land_bounds x mask); clear - Hm H; zlia]. Qed.
Definition merged (old mask data : Z) : Z := Z.lor (Z.ldiff old mask) (Z.land (u32 (Z.shiftl data (shift mask))) mask).
Lemma update_wp rel mask data s g (Q : option unit -> RadioAccess -> Chip -> Prop) : over g = false -> 0 <= rel < 0x10000 -> rel mod 4 = 0 -> (0x10000 + rel =? statusRegister) = false -> in_u32 mask -> mask <> 0xffffffff ->
  (forall old, in_u32 old -> let h := shown g (0x10000 + rel) old in chipMay h (IoWrite (0x10000 + rel) (merged old mask data))) ->
  (forall s' old, in_u32 old -> status_ s' = status_ s -> Q (Some tt) s' (told (shown g (0x10000 + rel) old) (0x10000 + rel) (merged old mask data))) ->
  (forall s' g', lost (log g) s' g' -> Q None s' g') -> wpm chipRules (update rel mask data) s g Q.
Proof.
  intros Hon Hr Hm Hst Hmask Hf Hmay H1 H2. unfold update. wstep. rewrite (proj2 (Z.eqb_neq mask 0xffffffff)) by exact Hf.
  apply access_read_wp; [exact Hon|exact Hr|exact Hm| |exact H2]. intros s1 old Ho E1. cbn beta iota.
  assert (Es : shown g (0x10000 + rel) old = g <| seen := Some (0x10000 + rel, old) |>) by (unfold shown; rewrite Hst; reflexivity).
  apply access_write_wp; [rewrite Es; exact Hon|apply Hmay, Ho| |].
  - intros s2 E2. apply H1; [exact Ho|congruence].
  - intros s' g' H. apply H2. rewrite Es in H. exact H.
Qed.

(** The words of the serial port. *)
Lemma command_sum p a v : 0 <= a < 256 -> 0 <= v < 2^20 -> Z.lor (Z.lor (Z.shiftl p 28) (Z.shiftl a 20)) v = v + a * 2^20 + p * 2^28.
Proof.
  intros Ha Hv. rewrite (Z.lor_comm _ v), (Z.lor_comm (Z.shiftl p 28)), Z.lor_assoc. rewrite (lor_disjoint_add 20) by lia. rewrite (lor_disjoint_add 28) by (change (2^20) with 1048576 in *; change (2^28) with 268435456; lia). reflexivity.
Qed.
Lemma command_fields p a v : 0 <= p < 16 -> 0 <= a < 256 -> 0 <= v < 2^20 -> let w := v + a * 2^20 + p * 2^28 in
  in_u32 w /\ Z.land (Z.shiftr w 28) 7 = p mod 8 /\ Z.land (Z.shiftr w 20) 255 = a /\ Z.land w 0xfffff = v /\ Z.testbit w 31 = (8 <=? p).
Proof.
  intros Hp Ha Hv w. change (2^20) with 1048576 in *. change (2^28) with 268435456 in *.
  split; [unfold w; zlia|]. split; [change 7 with (Z.ones 3); rewrite Z.land_ones, Z.shiftr_div_pow2 by lia; change (2^28) with 268435456; change (2^3) with 8; unfold w; zlia|].
  split; [change 255 with (Z.ones 8); rewrite Z.land_ones, Z.shiftr_div_pow2 by lia; change (2^20) with 1048576; change (2^8) with 256; unfold w; zlia|].
  split; [change 0xfffff with (Z.ones 20); rewrite Z.land_ones by lia; change (2^20) with 1048576; unfold w; zlia|].
  rewrite Z.testbit_odd, Z.shiftr_div_pow2 by lia. change (2^31) with 2147483648. assert (E : w / 2147483648 = p / 8) by (unfold w; zlia). rewrite E.
  assert (Hq : p / 8 = if 8 <=? p then 1 else 0) by (destruct (Z.leb_spec 8 p); zlia). rewrite Hq. destruct (8 <=? p); reflexivity.
Qed.
Lemma analog_word path address v : 0 <= path <= 1 -> 0 <= address < 256 -> 0 <= v < 2^20 ->
  let w := Z.lor (Z.lor (Z.shiftl path 28) (Z.shiftl address 20)) v in
  in_u32 w /\ Z.testbit w 31 = false /\ forall g, command g w = Analog path address 0xfffff v.
Proof.
  intros Hp Ha Hv. rewrite command_sum by assumption. destruct (command_fields path address v ltac:(lia) Ha Hv) as (H1 & H2 & H3 & H4 & H5). cbv zeta.
  replace (8 <=? path) with false in H5 by lia. split; [exact H1|]. split; [exact H5|]. intros g. unfold command. rewrite H2, H3, H4, H5. f_equal. rewrite Z.mod_small by lia. reflexivity.
Qed.
Lemma masked_word path address v : 0 <= path <= 1 -> 0 <= address < 256 -> 0 <= v < 2^20 ->
  let w := Z.lor (Z.lor (Z.lor 0x80000000 (Z.shiftl path 28)) (Z.shiftl address 20)) v in
  in_u32 w /\ Z.testbit w 31 = true /\ forall g m, maskWord g = Some m -> command g w = Analog path address m v.
Proof.
  intros Hp Ha Hv. assert (E : Z.lor 0x80000000 (Z.shiftl path 28) = Z.shiftl (8 + path) 28) by (clear - Hp; assert (path = 0 \/ path = 1) as [-> | ->] by lia; reflexivity).
  rewrite E, command_sum by assumption. destruct (command_fields (8 + path) address v ltac:(lia) Ha Hv) as (H1 & H2 & H3 & H4 & H5). cbv zeta.
  replace (8 <=? 8 + path) with true in H5 by lia. split; [exact H1|]. split; [exact H5|]. intros g m Em. unfold command. rewrite H2, H3, H4, H5, Em. f_equal. clear - Hp. zlia.
Qed.
Lemma mask_word old m : in_u32 m -> Z.ldiff m 0xfffff = 0 -> Z.land (merged old 0xfffff m) 0xfffff = m.
Proof.
  intros Hm H. unfold merged. change (shift 0xfffff) with 0. rewrite Z.shiftl_0_r, u32_small by exact Hm. apply Z.bits_inj'. intros n Hn.
  assert (Hb : Z.testbit (Z.ldiff m 0xfffff) n = false) by (rewrite H; apply Z.bits_0). rewrite Z.ldiff_spec in Hb.
  rewrite !Z.land_spec, Z.lor_spec, Z.ldiff_spec, Z.land_spec. destruct (Z.testbit old n), (Z.testbit m n), (Z.testbit 0xfffff n); try reflexivity; discriminate.
Qed.
Lemma window_of path r : 0 <= path <= 1 -> 0 <= r < 256 ->
  let a := 0x10000 + window path r in inWindow a = Some (path, r) /\ 0 <= window path r < 0x10000 /\ window path r mod 4 = 0 /\
    (a =? 0x10370) = false /\ (a =? 0x10374) = false /\ (a =? 0x10378) = false /\ (a =? statusRegister) = false.
Proof.
  intros Hp Hr. unfold window, statusRegister. change 255 with (Z.ones 8). rewrite Z.land_ones, Z.mod_small, Z.shiftl_mul_pow2 by (change (2^8) with 256; lia). change (2^2) with 4.
  assert (path = 0 \/ path = 1) as [-> | ->] by lia; cbn [Z.eqb]; cbv zeta; unfold inWindow.
  - replace ((0x1e000 <=? 0x10000 + (0xe000 + r * 4)) && (0x10000 + (0xe000 + r * 4) <? 0x1e400)) with true by lia.
    split; [do 2 f_equal; clear - Hr; zlia|]. split; [lia|]. split; [clear - Hr; zlia|]. repeat split; lia.
  - replace ((0x1e000 <=? 0x10000 + (0xf000 + r * 4)) && (0x10000 + (0xf000 + r * 4) <? 0x1e400)) with false by lia.
    replace ((0x1f000 <=? 0x10000 + (0xf000 + r * 4)) && (0x10000 + (0xf000 + r * 4) <? 0x1f400)) with true by lia.
    split; [do 2 f_equal; clear - Hr; zlia|]. split; [lia|]. split; [clear - Hr; zlia|]. repeat split; lia.
Qed.

Lemma analog_address a : Z.ldiff a 0x100ff = 0 -> flag a 0x10000 = false -> 0 <= a < 256.
Proof.
  intros H1 H2. unfold flag in H2. apply negb_false_iff, Z.eqb_eq in H2. pose proof (land_ldiff_split a 0x100ff) as E. rewrite H1 in E.
  change 0x100ff with (Z.lor 0x10000 0xff) in E. rewrite Z.land_lor_distr_r, H2, Z.lor_0_l in E. pose proof (land_bounds a 0xff). lia.
Qed.
Lemma within_mask v m : Z.ldiff v m = 0 -> 0 <= m -> 0 <= v <= m.
Proof. intros H Hm. pose proof (land_ldiff_split v m) as E. rewrite H in E. pose proof (land_bounds v m Hm). lia. Qed.
(** What the radio is told by [writeRf]. *)
Definition fieldOf (mask data : Z) : Z := if mask =? 0xfffff then Z.land data 0xfffff else Z.land (u32 (Z.shiftl (Z.land data 0xfffff) (shift mask))) 0xfffff.
Definition writtenAs (path address mask data : Z) (e : rfEvent) : Prop :=
  if flag address 0x10000 then exists old, in_u32 old /\ e = Direct path (Z.land address 255) old (merged old mask data) else e = Analog path address mask (fieldOf mask data).
Definition valid (path address mask : Z) : Prop := path <= 1 /\ Z.ldiff address 0x100ff = 0 /\ mask <> 0 /\ Z.ldiff mask 0xfffff = 0.
Lemma validate_wp path address mask s g (Q : option unit -> RadioAccess -> Chip -> Prop) : over g = false ->
  (valid path address mask -> Q (Some tt) (s <| status_ := rOk |>) g) -> (forall s' g', lost (log g) s' g' -> Q None s' g') -> wpm chipRules (validate path address mask) s g Q.
Proof.
  intros Hon H1 H2. unfold validate. wstep. apply wpm_modify. cbn beta iota. wstep. destruct (_ || _ || _ || _) eqn:E; cbn [when].
  - apply (ends_wp rInvalid _ (log g)); [discriminate|reflexivity|exact H2].
  - apply wpm_ret. cbn beta iota. apply ready_wp; [exact Hon| |exact H2]. apply H1.
    apply orb_false_iff in E as [E E4%negb_false_iff%Z.eqb_eq]. apply orb_false_iff in E as [E E3%Z.eqb_neq]. apply orb_false_iff in E as [E1%Z.ltb_ge E2%negb_false_iff%Z.eqb_eq]. repeat split; assumption.
Qed.
Lemma field_bound mask data : 0 <= fieldOf mask data < 2^20.
Proof.
  assert (H : forall x, 0 <= Z.land x 0xfffff < 2^20) by (intros x; pose proof (land_bounds x 0xfffff); change (2^20) with 1048576; lia).
  unfold fieldOf. destruct (mask =? 0xfffff); apply H.
Qed.
Lemma writeRf_wp path address mask data s g (Q : option unit -> RadioAccess -> Chip -> Prop) : over g = false -> 0 <= path ->
  (forall s' g' e, writtenAs path address mask data e -> valid path address mask -> over g' = false -> status_ s' = rOk -> log g' = log g ++ [e] -> Q (Some tt) s' g') ->
  (forall s' g', lost (log g) s' g' \/ (exists e, writtenAs path address mask data e /\ valid path address mask /\ lost (log g ++ [e]) s' g') -> Q None s' g') -> wpm chipRules (writeRf path address mask data) s g Q.
Proof.
  intros Hon Hp H1 H2. unfold writeRf. wstep. apply validate_wp; [exact Hon| |intros; apply H2; auto]. intros HV. pose proof HV as (Hp1 & Ha & Hm & Hm2). cbn beta iota. set (s1 := s <| status_ := rOk |>).
  assert (Hmask : in_u32 mask /\ mask <> 0xffffffff) by (pose proof (within_mask mask 0xfffff Hm2); split; [clear - H; zlia|lia]). destruct Hmask as [Hmu Hmf].
  unfold writtenAs in *. destruct (flag address 0x10000) eqn:Ef.
  - assert (Hr : 0 <= Z.land address 255 < 256) by (pose proof (land_bounds address 255); lia).
    assert (Ew : window path address = window path (Z.land address 255)) by (unfold window; rewrite <- Z.land_assoc; reflexivity). rewrite Ew.
    destruct (window_of path (Z.land address 255) ltac:(lia) Hr) as (W1 & W2 & W3 & W4 & W5 & W6 & W7). wstep.
    apply update_wp; [exact Hon|exact W2|exact W3|exact W7|exact Hmu|exact Hmf| | |intros; apply H2; auto].
    + intros old Ho h. unfold h, shown. rewrite W7. split; [exact Hon|]. split; [apply merge_u32; assumption|]. split; [clear - W3; zlia|]. rewrite W4, W5, W6.
      exists (path, Z.land address 255). split; [exact W1|]. exists old. split; [reflexivity|]. apply merge_kept, Hm2.
    + intros s2 old Ho E2. cbn beta iota. set (e := Direct path (Z.land address 255) old (merged old mask data)).
      assert (Et : told (shown g (0x10000 + window path (Z.land address 255)) old) (0x10000 + window path (Z.land address 255)) (merged old mask data) = g <| seen := Some (0x10000 + window path (Z.land address 255), old) |> <| log := log g ++ [e] |>).
      { unfold told, shown. rewrite W4, W5, W6, W7, W1. reflexivity. }
      rewrite Et. apply access_delay_wp; [exact Hon| |].
      * apply (H1 _ _ e); [exists old; auto|exact HV|exact Hon|rewrite E2; reflexivity|reflexivity].
      * intros s' g' Hl. apply H2. right. exists e. split; [exists old; auto|]. split; [exact HV|exact Hl].
  - pose proof (analog_address address Ha Ef) as Hr. wstep. apply port_poll_wp; [exact Hon| |intros; apply H2; auto]. intros s2 g2 W. cbn beta iota. pose proof (w_idle _ _ _ _ _ _ W eq_refl eq_refl) as Hi.
    destruct W as [Wo Ws Wl Wm Wa _ _]. pose proof (field_bound mask data) as Hf. unfold fieldOf in *. destruct (mask =? 0xfffff) eqn:Em.
    + destruct (analog_word path address _ ltac:(lia) Hr Hf) as (A1 & A2 & A3). apply access_write_wp; [exact Wo| | |intros s' g' Hl; apply H2; left; rewrite <- Wl; exact Hl].
      * split; [exact Wo|]. split; [exact A1|]. split; [reflexivity|]. cbn [Z.eqb]. split; [exact Hi|rewrite A2; discriminate].
      * intros s3 E3. apply Z.eqb_eq in Em. apply (H1 _ _ (Analog path address mask (Z.land data 0xfffff))); [reflexivity|exact HV|exact Wo|rewrite E3, Ws; reflexivity|].
        change (log g2 ++ [command g2 (Z.lor (Z.lor (Z.shiftl path 28) (Z.shiftl address 20)) (Z.land data 0xfffff))] = log g ++ [Analog path address mask (Z.land data 0xfffff)]). rewrite A3, Wl, Em. reflexivity.
    + wstep. apply update_wp; [exact Wo|lia|reflexivity|reflexivity|vm_compute; split; congruence|discriminate| | |intros s' g' Hl; apply H2; left; rewrite <- Wl; exact Hl].
      * intros old Ho h. split; [exact Wo|]. split; [apply merge_u32; [exact Ho|vm_compute; split; congruence]|]. split; [reflexivity|]. change (0x10000 + 0x374 =? 0x10370) with false. change (0x10000 + 0x374 =? 0x10374) with true. cbv iota.
        exists old. split; [reflexivity|]. apply merge_kept. reflexivity.
      * intros s3 old Ho E3. cbn beta iota. set (h := told _ _ _).
        assert (Eh : h = g2 <| seen := Some (0x10374, old) |> <| maskWord := Some mask |>).
        { unfold h, told, shown. change (0x10000 + 0x374 =? statusRegister) with false. change (0x10000 + 0x374 =? 0x10370) with false. change (0x10000 + 0x374 =? 0x10374) with true. cbv iota. rewrite mask_word by assumption. reflexivity. }
        destruct (masked_word path address _ ltac:(lia) Hr Hf) as (A1 & A2 & A3). rewrite Eh. apply access_write_wp; [exact Wo| | |intros s' g' Hl; apply H2; left; rewrite <- Wl; exact Hl].
        -- split; [exact Wo|]. split; [exact A1|]. split; [reflexivity|]. cbn [Z.eqb]. split; [exact Hi|discriminate].
        -- intros s4 E4. apply (H1 _ _ (Analog path address mask (Z.land (u32 (Z.shiftl (Z.land data 0xfffff) (shift mask))) 0xfffff))); [reflexivity|exact HV|exact Wo|rewrite E4, E3, Ws; reflexivity|].
           unfold told. change (0x10000 + 0x370 =? 0x10370) with true. cbv iota. set (h2 := g2 <| seen := Some (0x10374, old) |> <| maskWord := Some mask |>). assert (Em2 : maskWord h2 = Some mask) by reflexivity. rewrite (A3 h2 mask Em2). change (log g2 ++ [Analog path address mask (Z.land (u32 (Z.shiftl (Z.land data 0xfffff) (shift mask))) 0xfffff)] = log g ++ [Analog path address mask (Z.land (u32 (Z.shiftl (Z.land data 0xfffff) (shift mask))) 0xfffff)]).
           rewrite Wl. reflexivity.
Qed.
Lemma port_drain_wp s g (Q : option unit -> RadioAccess -> Chip -> Prop) : over g = false ->
  (forall s' g', over g' = false -> status_ s' = rOk -> log g' = log g -> portIdle g' = true -> Q (Some tt) s' g') -> (forall s' g', lost (log g) s' g' -> Q None s' g') -> wpm chipRules drain s g Q.
Proof.
  intros Hon H1 H2. unfold drain. wstep. apply wpm_modify. cbn beta iota. apply port_poll_wp; [exact Hon| |exact H2].
  intros s' g' W. apply H1; [exact (w_over _ _ _ _ _ _ W)|rewrite (w_status _ _ _ _ _ _ W); reflexivity|exact (w_log _ _ _ _ _ _ W)|exact (w_idle _ _ _ _ _ _ W eq_refl eq_refl)].
Qed.

(** The words that ask for a reading. *)
Lemma ask_word old path address : 0 <= path <= 1 -> 0 <= address < 256 -> let w := merged old 0x7ff (Z.lor (Z.shiftl path 8) address) in
  Z.land (Z.shiftr w 8) 7 = path /\ Z.land w 255 = address.
Proof.
  intros Hp Ha. assert (Es : Z.lor (Z.shiftl path 8) address = address + path * 256) by (rewrite Z.lor_comm, (lor_disjoint_add 8) by (change (2^8) with 256; lia); reflexivity).
  unfold merged. change (shift 0x7ff) with 0. rewrite Z.shiftl_0_r, u32_small by (rewrite Es; zlia). set (x := Z.lor (Z.shiftl path 8) address) in *.
  assert (Hx : x mod 256 = address /\ x / 256 mod 8 = path) by (rewrite Es; zlia).
  assert (Hl : forall m, Z.ldiff m 0x7ff = 0 -> Z.land (Z.lor (Z.ldiff old 0x7ff) (Z.land x 0x7ff)) m = Z.land x m).
  { intros m Hm. apply Z.bits_inj'. intros n Hn. assert (Hb : Z.testbit (Z.ldiff m 0x7ff) n = false) by (rewrite Hm; apply Z.bits_0). rewrite Z.ldiff_spec in Hb.
    rewrite !Z.land_spec, Z.lor_spec, Z.ldiff_spec, Z.land_spec. destruct (Z.testbit old n), (Z.testbit x n), (Z.testbit m n), (Z.testbit 0x7ff n); try reflexivity; discriminate. }
  split.
  - assert (E : forall w, Z.land (Z.shiftr w 8) 7 = Z.shiftr (Z.land w 0x700) 8) by (intros w; rewrite Z.shiftr_land; reflexivity).
    cbv zeta. rewrite E, Hl by reflexivity. rewrite <- E. change 7 with (Z.ones 3). rewrite Z.land_ones, Z.shiftr_div_pow2 by lia. apply Hx.
  - cbv zeta. rewrite Hl by reflexivity. change 255 with (Z.ones 8). rewrite Z.land_ones by lia. apply Hx.
Qed.
(** A reading is the field of the register that was asked for. *)
Definition readAs (path address mask : Z) (g' : Chip) (v : Z) : Prop := exists a raw, seen g' = Some (a, raw) /\ v = Z.shiftr (Z.land raw mask) (shift mask) /\
  if flag address 0x10000 then inWindow a = Some (path, Z.land address 255) else a = statusRegister /\ raw <> 0xffffffff /\ asked g' = Some (path, address) /\ answered g' = true.
Lemma readRf_wp path address mask s g (Q : option Z -> RadioAccess -> Chip -> Prop) : over g = false -> 0 <= path ->
  (forall s' g' v, readAs path address mask g' v -> valid path address mask -> over g' = false -> status_ s' = rOk -> log g' = log g -> Q (Some v) s' g') ->
  (forall s' g', lost (log g) s' g' -> Q None s' g') -> wpm chipRules (readRf path address mask) s g Q.
Proof.
  intros Hon Hp H1 H2. unfold readRf. wstep. apply validate_wp; [exact Hon| |exact H2]. intros HV. pose proof HV as (Hp1 & Ha & _). cbn beta iota. wstep. unfold readAs in *. destruct (flag address 0x10000) eqn:Ef.
  - assert (Hr : 0 <= Z.land address 255 < 256) by (pose proof (land_bounds address 255); lia).
    assert (Ew : window path address = window path (Z.land address 255)) by (unfold window; rewrite <- Z.land_assoc; reflexivity). rewrite Ew.
    destruct (window_of path (Z.land address 255) ltac:(lia) Hr) as (W1 & W2 & W3 & W4 & W5 & W6 & W7).
    apply access_read_wp; [exact Hon|exact W2|exact W3| |exact H2]. intros s2 v Hv E2. cbn beta iota. apply wpm_ret. unfold shown. rewrite W7.
    apply H1; [|exact HV|exact Hon|rewrite E2; reflexivity|reflexivity]. exists (0x10000 + window path (Z.land address 255)), v. auto.
  - pose proof (analog_address address Ha Ef) as Hr. wstep. apply port_poll_wp; [exact Hon| |exact H2]. intros s2 g2 W. cbn beta iota. pose proof (w_idle _ _ _ _ _ _ W eq_refl eq_refl) as Hi. destruct W as [Wo Ws Wl Wm Wa _ _].
    assert (H2' : forall s' g', lost (log g2) s' g' -> Q None s' g') by (rewrite Wl; exact H2).
    wstep. apply update_wp; [exact Wo|lia|reflexivity|reflexivity|vm_compute; split; congruence|discriminate| | |exact H2'].
    { intros old Ho h. split; [exact Wo|]. split; [apply merge_u32; [exact Ho|vm_compute; split; congruence]|]. split; [reflexivity|]. cbn [Z.eqb Z.add]. change (0x10000 + 0x378 =? 0x10370) with false. change (0x10000 + 0x378 =? 0x10374) with false. change (0x10000 + 0x378 =? 0x10378) with true. cbv iota.
      split; [exact Hi|]. exists old. split; [reflexivity|]. apply merge_kept. reflexivity. }
    intros s3 old Ho E3. cbn beta iota. set (h := told _ _ _). destruct (ask_word old path address ltac:(lia) Hr) as [K1 K2].
    assert (Eh : asked h = Some (path, address) /\ over h = false /\ log h = log g2).
    { unfold h, told, shown. change (0x10000 + 0x378 =? statusRegister) with false. change (0x10000 + 0x378 =? 0x10370) with false. change (0x10000 + 0x378 =? 0x10374) with false. change (0x10000 + 0x378 =? 0x10378) with true. cbv iota.
      split; [|split; [exact Wo|reflexivity]]. cbv zeta in K1, K2. exact (f_equal Some (f_equal2 pair K1 K2)). }
    destruct Eh as (Eh1 & Eh2 & Eh3). assert (H2'' : forall s' g', lost (log h) s' g' -> Q None s' g') by (rewrite Eh3; exact H2').
    wstep. apply access_delay_wp; [exact Eh2| |exact H2'']. cbn beta iota. wstep. apply port_poll_wp; [exact Eh2| |exact H2'']. intros s4 g4 [Vo Vs Vl Vm Va _ Vn]. cbn beta iota. specialize (Vn eq_refl eq_refl ltac:(rewrite Eh1; discriminate)).
    wstep. apply access_read_wp; [exact Vo|lia|reflexivity| |rewrite Vl; exact H2'']. intros s5 v Hv E5. cbn beta iota. change (0x10000 + 0x174c) with statusRegister.
    destruct (Z.eqb_spec v 0xffffffff) as [Ev|Ev]; [apply (ends_wp rIoError _ (log h)); [discriminate|exact Vl|exact H2'']|]. apply wpm_ret. cbn beta iota. apply wpm_ret.
    apply H1; [|exact HV|cbn; rewrite Vo, (proj2 (Z.eqb_neq v 0xffffffff)) by exact Ev; reflexivity|rewrite E5, Vs, E3, Ws; reflexivity|change (log g4 = log g); congruence].
    exists statusRegister, v. split; [reflexivity|]. split; [reflexivity|]. split; [reflexivity|]. split; [exact Ev|]. cbn. rewrite Va, Eh1, Vn. auto.
Qed.
