(* ===== verification/RadioInitialization.v ===== *)
(** * Programming the radio (src/network/RadioInitialization.hpp)

    Every stage interprets a table twice: once into a check without a device,
    once into the device, through [RadioAccess]. *)

From S2P Require Import Prelude Prog.
From S2P Require EfuseCalibration.
From S2P Require Import RadioTables.
From S2P Require RadioFirmware.
From S2P Require Import RadioAccess.

(** ** The sinks *)

(** [Sink]: the calls of a table on the device. *)
Definition truth {A} (m : RA A) (s : RadioAccess) : prog RadioIo (bool * RadioAccess) :=
  bindP (m s) (fun r => Ret (match r.1 with Some _ => true | None => false end, r.2)).
Definition sinkMethod (o : sinkOp) (s : RadioAccess) : prog RadioIo (sinkAns o * RadioAccess) :=
  match o with
  | Cancelled => Act (Σ:=RadioIo) IoCancelled (fun x => Ret (x, s))
  | BbWrite a v => truth (writeBaseband a v) s
  | RfWrite p a v => truth (writeRf p a 0xfffff v) s
  | GainRecord _ _ => Ret (false, s)
  | DelayUs us => truth (delayMicroseconds us) s
  end.
(** [Check]. *)
Definition checkSink : handler Sink unit := fun d o =>
  match o with
  | Cancelled | GainRecord _ _ => (false, d)
  | BbWrite a _ => ((Z.land a 3 =? 0) && (a <? 0x10000), d)
  | RfWrite p a v => ((p <? 2) && (Z.ldiff a 0x100ff =? 0) && (Z.ldiff v 0xfffff =? 0), d)
  | DelayUs us => (us <=? 50000, d)
  end.
(** [applyRadioTable] into the device, and into the check. *)
Definition applyOn (t : RadioTable) (rfe cut : Z) : RA RadioTableResult := fun s =>
  bindP (interp (Σ:=Sink) sinkMethod (applyRadioTable t rfe cut noResult) s) (fun r => Ret (Some (snd (fst r)), snd r)).
Definition checkOf (t : RadioTable) (rfe cut : Z) : RadioTableResult := snd (fst (run checkSink (applyRadioTable t rfe cut noResult) tt)).

(** ** The stages *)

Definition baseband (t : RadioTable) (rfe cut : Z) : RA RadioTableResult :=
  if negb (bool_decide (kind t = RadioTables.baseband)) then mret noResult else
  let result := checkOf t rfe cut in
  if negb (bool_decide (status result = ok)) then mret result else applyOn t rfe cut.
(** [if(!m) return rf_.status();] *)
Definition attempt {A} (m : RA A) : RA (option A) := fun s => bindP (m s) (fun r => Ret (Some r.1, r.2)).
Definition orStatus {A} (m : RA A) (k : A -> RA RadioIoStatus) : RA RadioIoStatus :=
  x ← attempt m; match x with Some a => k a | None => gets status_ end.
Definition nctlTurn (n : Z) : RA (option unit) :=
  writeBaseband 0x8080 4;; delayMicroseconds 1;; value ← readBaseband 0x8080;
  if value =? 4 then mret (Some tt) else unless (n =? 100) (delayMicroseconds 10);; mret None.
Definition nctlPrologue : RA unit :=
  updateBaseband 0x0c60 3 3;; updateBaseband 0x0c6c 1 1;; updateBaseband 0x58ac 0x08000000 1;; updateBaseband 0x78ac 0x08000000 1;;
  updateBaseband 0x0c60 2 1;; writeBaseband 0x8000 8.
(** The table is [nctlTable], one of the imported tables. *)
Definition nctl (nctlTable : RadioTable) (rfe cut : Z) : RA RadioIoStatus :=
  if negb (bool_decide (status (checkOf nctlTable rfe cut) = ok)) then mret rInvalid else
  orStatus nctlPrologue (fun _ =>
  orStatus (for_loop 0 101 nctlTurn) (fun ready =>
  match ready with
  | None => mret rTimeout
  | Some _ =>
      result ← applyOn nctlTable rfe cut;
      if bool_decide (status result = ok) then mret rOk else
      if bool_decide (status result = cancelled) then mret rCancelled else
      s ← get; mret (if bool_decide (status_ s = rOk) then rIoError else status_ s)
  end)).
(** The result, the scratch buffer afterwards and the pages. *)
Definition radio (t : RadioTable) (tableAddress rfe cut : Z) (scratch : option buf) (scratchAddress bytes : Z)
    : RA (RadioTableResult * mres unit (option buf) * RadioFirmware.RadioFirmwarePages) :=
  let '(st, scratch, prepared) := RadioFirmware.prepareRadioFirmware t tableAddress rfe cut scratch scratchAddress bytes in
  if negb (bool_decide (st = ok)) then mret (noResult <| status := st |>, scratch, RadioFirmware.noPages) else
  result ← applyOn t rfe cut;
  if negb (bool_decide (status result = ok)) then mret (result, scratch, RadioFirmware.noPages) else
  d ← attempt drain;
  match d with
  | Some _ => mret (result, scratch, prepared)
  | None => s ← get; mret (result <| status := if bool_decide (status_ s = rCancelled) then cancelled else ioError |>, scratch, RadioFirmware.noPages)
  end.
(** Both paths of a part of the calibration. *)
Definition trims (f : Z -> Z -> RA unit) (raw : list Z) : RA unit := f 0 (nth 0 raw 0);; f 1 (nth 1 raw 0).
Definition thermal (p raw : Z) : RA unit := writeRf p 0x43 0xf0000 (Z.lor (Z.shiftl (Z.land raw 1) 3) (Z.shiftr (Z.land raw 0x1f) 1)).
Definition bias (p raw : Z) : RA unit := writeRf p 0x60 0xf000 (Z.land raw 15);; writeRf p 0x60 0xf0000 (Z.shiftr raw 4).
Definition powerTrim (c : EfuseCalibration.PhyCalibration) : RA RadioIoStatus :=
  let th := EfuseCalibration.thermalValid c in let pa := EfuseCalibration.paBiasValid c in
  orStatus (when th (trims thermal (EfuseCalibration.thermalTrim c))) (fun _ =>
  orStatus (when pa (trims bias (EfuseCalibration.paBiasTrim c))) (fun _ =>
  orStatus (when (th || pa) drain) (fun _ =>
  c ← io IoCancelled; mret (if c : bool then rCancelled else rOk)))).

(** ** What the radio is told *)

(** A row of a table, and the rows a run got through. *)
Definition rowTold (p : Z) (r : RadioRegister) : rfEvent -> Prop := writtenAs p (address r) 0xfffff (value r).
Definition through (p : Z) (rows : list RadioRegister) (l : list rfEvent) (all : Prop) : Prop :=
  exists done rest, rows = done ++ rest /\ Forall2 (rowTold p) done l /\ (all -> rest = []).
Lemma truth_wp {G A} (P : protocol RadioIo G) (m : RA A) s c (Q : bool * RadioAccess -> G -> Prop) :
  wpm P m s c (fun r s' c' => Q (match r with Some _ => true | None => false end, s') c') -> wp P (truth m s) c Q.
Proof. intros H. unfold truth. apply wp_bind. exact H. Qed.
Section rows.
Context (p : Z) (rows : list RadioRegister).
Hypothesis Hp : 0 <= p.
(** The sink of a run and the chip behind it. *)
Definition behind (g : Plan) (s : RadioAccess) (c : Chip) : Prop := exists done rest, rows = done ++ rest /\ Forall2 (rowTold p) done (log c) /\
  (refused g = false -> stopped g = false -> over c = false /\ todo g = RadioFirmware.rfPlan p rest).
Lemma sink_behind o g s c : behind g s c -> planMay g o ->
  wp chipRules (sinkMethod o s) c (fun r c' => behind (planNext g o r.1) r.2 c').
Proof.
  intros (done & rest & Er & HF & Hg) (Hr & Hs & Ho). destruct (Hg Hr Hs) as [Hon Ht]. destruct o.
  - split; [split; [exact Hon|exact I]|]. intros x _. exists done, rest. split; [exact Er|]. split; [exact HF|]. destruct x; cbn; [discriminate|]. intros _ _. rewrite Hon. auto.
  - exfalso. destruct Ho as [l Ho]. rewrite Ht in Ho. destruct rest; discriminate.
  - destruct Ho as [l Ho]. destruct rest as [|r rest]; [rewrite Ht in Ho; discriminate|]. rewrite Ht in Ho. cbn in Ho. injection Ho as <- <- <- <-.
    assert (Hsplit : rows = (done ++ [r]) ++ rest) by (rewrite Er, <- app_assoc; reflexivity).
    apply truth_wp. apply writeRf_wp; [exact Hon|exact Hp| |].
    + intros s' c' e He _ Ho' _ El. exists (done ++ [r]), rest. split; [exact Hsplit|]. split; [rewrite El; apply Forall2_app; [exact HF|constructor; [exact He|constructor]]|].
      cbn. rewrite Ht. intros _ _. split; [exact Ho'|reflexivity].
    + intros s' c' [[_ El]|(e & He & _ & _ & El)].
      * exists done, (r :: rest). split; [exact Er|]. split; [rewrite El; exact HF|]. cbn. discriminate.
      * exists (done ++ [r]), rest. split; [exact Hsplit|]. split; [rewrite El; apply Forall2_app; [exact HF|constructor; [exact He|constructor]]|]. cbn. discriminate.
  - exfalso. destruct Ho as [l Ho]. rewrite Ht in Ho. destruct rest; discriminate.
  - exfalso. destruct Ho as [l Ho]. rewrite Ht in Ho. destruct rest; discriminate.
Qed.
End rows.
Lemma applyOn_wp t rfe cut tgt rows s c (Q : option RadioTableResult -> RadioAccess -> Chip -> Prop) : kind t = RadioTables.radio -> 0 <= path t -> tableRows t rfe cut tgt rows -> over c = false -> log c = [] ->
  (forall res s' c', through (path t) rows (log c') (status res = ok) -> (status res = ok -> over c' = false /\ counters t tgt rows res) -> Q (Some res) s' c') -> wpm chipRules (applyOn t rfe cut) s c Q.
Proof.
  intros Hk Hp Ht Hon Hl HQ. unfold wpm, applyOn. apply wp_bind.
  pose proof (apply_good t rfe cut tgt rows Ht) as Hw. rewrite (RadioFirmware.plan_radio t rows Hk) in Hw.
  assert (Hb : behind (path t) rows (mkPlan (RadioFirmware.rfPlan (path t) rows) false false) s c).
  { exists [], rows. split; [reflexivity|]. split; [rewrite Hl; constructor|]. auto. }
  eapply wp_mono; [|exact (wp_interp planRules chipRules (behind (path t) rows) sinkMethod _ _ s c _ (fun o g s' c' H1 H2 => wp_mono chipRules _ _ _ _ (fun r d H => conj I H) (sink_behind (path t) rows Hp o g s' c' H1 H2)) Hb Hw)].
  intros [[r res] s'] c' (g1 & (done & rest & Er & HF & Hg) & He & Hc). cbn [fst snd] in *. apply HQ.
  - exists done, rest. split; [exact Er|]. split; [exact HF|]. intros Hok. destruct r as [[]|]; [|destruct He as [[E _]|[E _]]; congruence].
    destruct He as (_ & E2 & E3 & E4). destruct (Hg E3 E4) as [_ E]. rewrite E2 in E. destruct rest; [reflexivity|discriminate].
  - intros Hok. destruct r as [[]|]; [|destruct He as [[E _]|[E _]]; congruence]. destruct He as (_ & _ & E3 & E4). split; [apply Hg; assumption|exact (Hc Hok)].
Qed.

(** What a run of [radio] must be. *)
Definition programmed (t : RadioTable) (rfe cut bytes : Z) (b : buf) (tr : list (event RadioIo)) (res : RadioTableResult) (scratch : mres unit (option buf)) (out : RadioFirmware.RadioFirmwarePages) : Prop :=
  let c := after chipRules newChip tr in
  (exists rows, RadioFirmware.uploadRows t rfe cut bytes rows /\ accepts chipRules newChip tr /\ through (path t) rows (log c) (status res = ok) /\
     scratch = MVal (Some (blit b 0 (RadioFirmware.bytes_of (RadioFirmware.uploaded rows)))) /\
     (status res = ok -> portIdle c = true /\ over c = false /\ selected res = zlen rows /\ writes res = zlen rows /\
        RadioFirmware.p_path out = path t /\ RadioFirmware.carries out (RadioFirmware.uploaded rows)) /\
     (status res <> ok -> out = RadioFirmware.noPages)) \/
  ((forall rows, ~ RadioFirmware.uploadRows t rfe cut bytes rows) /\ tr = [] /\ status res <> ok /\ scratch = MVal (Some b) /\ out = RadioFirmware.noPages).
Lemma rf_writes p rows : count_of (fun o => negb (isDelay o)) (RadioFirmware.rfPlan p rows) = zlen rows.
Proof. unfold count_of. induction rows as [|r rows IH]; [reflexivity|]. cbn [RadioFirmware.rfPlan map List.filter isDelay negb]. unfold zlen in *. cbn [length]. unfold RadioFirmware.rfPlan in IH. lia. Qed.

Lemma attempted_wp {A} (m : RA A) s c (Q : option (option A) -> RadioAccess -> Chip -> Prop) : wpm chipRules m s c (fun r s' c' => Q (Some r) s' c') -> wpm chipRules (attempt m) s c Q.
Proof. intros H. unfold attempt. unfold wpm. apply wp_bind. exact H. Qed.

(** C40: whatever the device answers, [radio] reads and writes only the
    registers of the radio, gives a command of the serial port only when the
    port was read idle since the last one, changes a register of the window
    only in the bits it means and right after reading it, and does nothing
    after a call that fails or a cancellation.  For rows for the radio of the
    board that the buffer and the firmware have room for, it tells the radio
    the first rows of the table, in order and nothing else - all of them, with
    the port read idle at the end, exactly when it ends well, and then its
    pages carry the words of these rows; otherwise it offers no page.  For
    every other table the device is not called at all. *)
Theorem radio_programmed t tableAddress rfe cut b scratchAddress bytes tr res scratch out s s' :
  bytes <= zlen b -> 0 <= path t -> RadioFirmware.overlap tableAddress (8 * match registers t with Some rows => zlen rows | None => 0 end) scratchAddress bytes = false ->
  exec (radio t tableAddress rfe cut (Some b) scratchAddress bytes s) tr (Some (res, scratch, out), s') -> programmed t rfe cut bytes b tr res scratch out.
Proof.
  intros Hb Hp Ho He. unfold radio in He. pose proof (RadioFirmware.radio_pages t tableAddress rfe cut b scratchAddress bytes Hb Hp Ho) as Hprep.
  destruct (RadioFirmware.prepareRadioFirmware t tableAddress rfe cut (Some b) scratchAddress bytes) as [[st storage] prepared].
  destruct Hprep as [(rows & HU & -> & -> & Hpp & Hcar)|(Hn & Hst & -> & ->)].
  2: { rewrite bool_decide_eq_false_2 in He by exact Hst. destruct He as [-> [= <- <- <- _]]. right. auto. }
  left. exists rows. split; [exact HU|]. destruct HU as (Hk & (tgt & Ht) & _). rewrite bool_decide_eq_true_2 in He by reflexivity. cbn [negb] in He.
  set (W := fun (r : option (RadioTableResult * mres unit (option buf) * RadioFirmware.RadioFirmwarePages)) (s : RadioAccess) (c : Chip) => forall res sc out, r = Some (res, sc, out) ->
    through (path t) rows (log c) (status res = ok) /\ sc = MVal (Some (blit b 0 (RadioFirmware.bytes_of (RadioFirmware.uploaded rows)))) /\
    (status res = ok -> portIdle c = true /\ over c = false /\ selected res = zlen rows /\ writes res = zlen rows /\ out = prepared) /\ (status res <> ok -> out = RadioFirmware.noPages)).
  match type of He with exec (?m s) _ _ => assert (Hw : wpm chipRules m s newChip W) end.
  { wstep. apply (applyOn_wp t rfe cut tgt rows s newChip _ Hk Hp Ht eq_refl eq_refl). intros r s1 c1 Hthr Hok. cbn beta iota.
    destruct (bool_decide (status r = ok)) eqn:Es; cbn [negb].
    2: { apply bool_decide_eq_false in Es. apply wpm_ret. intros res0 sc0 out0 [= <- <- <-]. split; [exact Hthr|]. split; [reflexivity|]. split; [contradiction|reflexivity]. }
    apply bool_decide_eq_true in Es. destruct (Hok Es) as [Hon (Hc1 & Hc2 & Hc3 & _)]. wstep. apply attempted_wp. apply (port_drain_wp s1 c1); [exact Hon| |].
    - intros s2 c2 O2 _ L2 I2. cbn beta iota. apply wpm_ret. intros res0 sc0 out0 [= <- <- <-]. split; [rewrite L2; exact Hthr|]. split; [reflexivity|]. split; [|congruence]. intros _.
      rewrite (RadioFirmware.plan_radio t rows Hk), rf_writes in Hc3. auto.
    - intros s2 c2 [S2 L2]. cbn beta iota. wstep. apply wpm_get. cbn beta iota. apply wpm_ret. intros res0 sc0 out0 [= <- <- <-]. set (st' := if bool_decide (status_ s2 = rCancelled) then cancelled else ioError).
      assert (Hne : st' <> ok) by (unfold st'; destruct (bool_decide _); discriminate). change (status (r <| status := st' |>)) with st'.
      split; [|split; [reflexivity|split; [contradiction|reflexivity]]]. rewrite L2. destruct Hthr as (d & re & E1 & E2 & _). exists d, re. split; [exact E1|]. split; [exact E2|]. intros E. destruct (Hne E). }
  destruct (wp_sound chipRules _ newChip _ tr _ Hw He (relies_trivial chipRules newChip tr (fun _ _ _ => I))) as [Ha HW]. destruct (HW res scratch out eq_refl) as (H1 & H2 & H3 & H4).
  split; [exact Ha|]. split; [exact H1|]. split; [exact H2|]. split; [|exact H4]. intros Hok. destruct (H3 Hok) as (K1 & K2 & K3 & K4 & ->). auto 9.
Qed.

(** ** The trims of the board *)

(** A body that tells the radio these events, or fails after some of them. *)
Definition tells {A} (m : RA A) (l : list rfEvent) : Prop := forall s g (Q : option A -> RadioAccess -> Chip -> Prop), over g = false ->
  (forall s' g' x, over g' = false -> log g' = log g ++ l -> Q (Some x) s' g') -> (forall s' g' l1 l2, l = l1 ++ l2 -> lost (log g ++ l1) s' g' -> Q None s' g') -> wpm chipRules m s g Q.
Lemma tells_ret {A} (x : A) : tells (mret x) [].
Proof. intros s g Q Ho H1 _. apply wpm_ret. apply H1; [exact Ho|symmetry; apply app_nil_r]. Qed.
Lemma tells_bind {A B} (m : RA A) (k : A -> RA B) l1 l2 : tells m l1 -> (forall x, tells (k x) l2) -> tells (m ≫= k) (l1 ++ l2).
Proof.
  intros Hm Hk s g Q Ho H1 H2. wstep. apply Hm; [exact Ho| |].
  - intros s1 g1 x Ho1 El. cbn beta iota. apply Hk; [exact Ho1| |].
    + intros s2 g2 y Ho2 El2. apply H1; [exact Ho2|]. rewrite El2, El, app_assoc. reflexivity.
    + intros s2 g2 a b -> Hl. apply (H2 s2 g2 (l1 ++ a) b); [apply app_assoc|]. rewrite El, <- app_assoc in Hl. exact Hl.
  - intros s1 g1 a b -> Hl. apply (H2 s1 g1 a (b ++ l2)); [symmetry; apply app_assoc|exact Hl].
Qed.
Lemma tells_when (b : bool) m l : tells m l -> tells (when b m) (if b then l else []).
Proof. intros H. destruct b; [exact H|apply tells_ret]. Qed.
Lemma tells_rf path address mask data : 0 <= path -> flag address 0x10000 = false -> tells (writeRf path address mask data) [Analog path address mask (fieldOf mask data)].
Proof.
  intros Hp Hf s g Q Ho H1 H2. apply writeRf_wp; [exact Ho|exact Hp| |].
  - intros s' g' e He _ Ho' _ El. unfold writtenAs in He. rewrite Hf in He. subst e. apply H1; assumption.
  - intros s' g' [Hl|(e & He & _ & Hl)].
    + apply (H2 s' g' [] [Analog path address mask (fieldOf mask data)]); [reflexivity|]. rewrite app_nil_r. exact Hl.
    + unfold writtenAs in He. rewrite Hf in He. subst e. apply (H2 s' g' [Analog path address mask (fieldOf mask data)] []); [reflexivity|exact Hl].
Qed.
Definition thermalEvents (c : EfuseCalibration.PhyCalibration) : list rfEvent := if EfuseCalibration.thermalValid c then
  map (fun p => Analog p 0x43 0xf0000 (fieldOf 0xf0000 (let raw := nth (Z.to_nat p) (EfuseCalibration.thermalTrim c) 0 in Z.lor (Z.shiftl (Z.land raw 1) 3) (Z.shiftr (Z.land raw 0x1f) 1)))) [0; 1] else [].
Definition biasEvents (c : EfuseCalibration.PhyCalibration) : list rfEvent := if EfuseCalibration.paBiasValid c then
  concat (map (fun p => let raw := nth (Z.to_nat p) (EfuseCalibration.paBiasTrim c) 0 in
    [Analog p 0x60 0xf000 (fieldOf 0xf000 (Z.land raw 15)); Analog p 0x60 0xf0000 (fieldOf 0xf0000 (Z.shiftr raw 4))]) [0; 1]) else [].
Lemma thermal_tells c : tells (when (EfuseCalibration.thermalValid c) (trims thermal (EfuseCalibration.thermalTrim c))) (thermalEvents c).
Proof. unfold thermalEvents. apply tells_when. cbn [map]. apply (tells_bind _ _ [_] [_]); [|intros _]; apply tells_rf; [lia|reflexivity|lia|reflexivity]. Qed.
Lemma bias_tells c : tells (when (EfuseCalibration.paBiasValid c) (trims bias (EfuseCalibration.paBiasTrim c))) (biasEvents c).
Proof.
  unfold biasEvents. apply tells_when. cbn [map concat app]. assert (H : forall p raw, 0 <= p -> tells (bias p raw) [Analog p 0x60 0xf000 (fieldOf 0xf000 (Z.land raw 15)); Analog p 0x60 0xf0000 (fieldOf 0xf0000 (Z.shiftr raw 4))]).
  { intros p raw Hp. apply (tells_bind _ _ [_] [_]); [|intros _]; apply tells_rf; [exact Hp|reflexivity|exact Hp|reflexivity]. }
  apply (tells_bind _ _ [_; _] [_; _]); [|intros _]; apply H; lia.
Qed.
Lemma drain_tells b : tells (when b drain) [].
Proof.
  destruct b; [|apply tells_ret]. intros s g Q Ho H1 H2. apply port_drain_wp; [exact Ho| |].
  - intros s' g' Ho' _ El _. apply H1; [exact Ho'|rewrite El; symmetry; apply app_nil_r].
  - intros s' g' Hl. apply (H2 s' g' [] []); [reflexivity|rewrite app_nil_r; exact Hl].
Qed.
Lemma orStatus_wp {A} (m : RA A) k l s g (Q : option RadioIoStatus -> RadioAccess -> Chip -> Prop) : tells m l -> over g = false ->
  (forall s' g' x, over g' = false -> log g' = log g ++ l -> wpm chipRules (k x) s' g' Q) -> (forall s' g' l1 l2 st, l = l1 ++ l2 -> st <> rOk -> log g' = log g ++ l1 -> Q (Some st) s' g') -> wpm chipRules (orStatus m k) s g Q.
Proof.
  intros Hm Ho H1 H2. unfold orStatus. wstep. apply attempted_wp. apply Hm; [exact Ho| |].
  - intros s' g' x Ho' El. cbn beta iota. apply H1; assumption.
  - intros s' g' l1 l2 El [Hs Hl]. cbn beta iota. apply wpm_gets. apply (H2 s' g' l1 l2); assumption.
Qed.
(** [powerTrim] tells the radio the trims of the board that are valid, in
    order, and all of them when it ends well. *)
Theorem trims_told c tr st s s' : exec (powerTrim c s) tr (Some st, s') -> accepts chipRules newChip tr /\
  let g := after chipRules newChip tr in exists rest, thermalEvents c ++ biasEvents c = log g ++ rest /\ (st = rOk -> rest = [] /\ over g = false).
Proof.
  intros He. set (W := fun (r : option RadioIoStatus) (_ : RadioAccess) (g : Chip) => forall st, r = Some st -> exists rest, thermalEvents c ++ biasEvents c = log g ++ rest /\ (st = rOk -> rest = [] /\ over g = false)).
  assert (Hw : wpm chipRules (powerTrim c) s newChip W).
  { unfold powerTrim. apply (orStatus_wp _ _ _ _ _ _ (thermal_tells c)); [reflexivity| |].
    2: { intros s1 g1 l1 l2 e El Hne Hl st0 [= <-]. exists (l2 ++ biasEvents c). rewrite Hl, El, <- app_assoc. split; [reflexivity|contradiction]. }
    intros s1 g1 x1 O1 L1. apply (orStatus_wp _ _ _ _ _ _ (bias_tells c)); [exact O1| |].
    2: { intros s2 g2 l1 l2 e El Hne Hl st0 [= <-]. exists l2. rewrite Hl, L1, El, <- app_assoc. split; [reflexivity|contradiction]. }
    intros s2 g2 x2 O2 L2. apply (orStatus_wp _ _ _ _ _ _ (drain_tells _)); [exact O2| |].
    2: { intros s3 g3 l1 l2 e El Hne Hl st0 [= <-]. exists []. symmetry in El. apply app_eq_nil in El as [-> _]. rewrite Hl, L2, L1, !app_nil_r. split; [reflexivity|contradiction]. }
    intros s3 g3 x3 O3 L3. wstep. apply (wpm_call chipRules IoCancelled); [split; [exact O3|exact I]|]. intros y _. cbn beta iota. apply wpm_ret. intros st0 [= <-]. exists [].
    change (log (next chipRules g3 IoCancelled y)) with (log g3). rewrite L3, L2, L1, !app_nil_r. split; [reflexivity|]. destruct y; [discriminate|]. intros _. split; [reflexivity|]. cbn. rewrite O3. reflexivity. }
  destruct (wp_sound chipRules _ newChip _ tr _ Hw He (relies_trivial chipRules newChip tr (fun _ _ _ => I))) as [Ha HW]. split; [exact Ha|]. exact (HW st eq_refl).
Qed.

(** ** What the baseband is told *)

(** Whether a call failed, the writes and the last reading. *)
Record Wire := mkWire { w_dead : bool; w_log : list (Z * Z); w_read : option (Z * Z) }.
Definition newWire : Wire := mkWire false [] None.
Definition wireMay (g : Wire) (o : ioOp) : Prop :=
  w_dead g = false /\ match o with IoRead a | IoWrite a _ => 0x10000 <= a < 0x20000 /\ a mod 4 = 0 | _ => True end.
Definition wireNext (g : Wire) (o : ioOp) : ioAns o -> Wire :=
  match o with
  | IoCancelled => fun x => mkWire (w_dead g || x) (w_log g) (w_read g)
  | IoRead a => fun x => match x with None => mkWire true (w_log g) (w_read g) | Some v => mkWire (w_dead g) (w_log g) (Some (a, u32 v)) end
  | IoWrite a v => fun x => if x : bool then mkWire (w_dead g) (w_log g ++ [(a, v)]) (w_read g) else mkWire true (w_log g) (w_read g)
  | IoDelay _ => fun x => mkWire (w_dead g || negb x) (w_log g) (w_read g)
  end.
Definition wireRules : protocol RadioIo Wire := Protocol (Σ:=RadioIo) wireMay (fun _ _ _ => True) wireNext.
Definition fails (l : list (Z * Z)) (s : RadioAccess) (g : Wire) : Prop := status_ s <> rOk /\ w_log g = l.
Lemma wire_on g : w_dead g = false -> mkWire (w_dead g || false) (w_log g) (w_read g) = g.
Proof. intros E. destruct g. cbn in *. subst. reflexivity. Qed.
Section wire.
Context (s : RadioAccess) (g : Wire).
Hypothesis Hon : w_dead g = false.
Lemma wire_ends {A} e (Q : option A -> RadioAccess -> Wire -> Prop) l g' s' : e <> rOk -> w_log g' = l -> (forall s' g', fails l s' g' -> Q None s' g') -> wpm wireRules (ends e) s' g' Q.
Proof. intros He Hl HQ. unfold ends. wstep. apply wpm_modify. cbn beta iota. apply wpm_brk. apply HQ. split; [exact He|exact Hl]. Qed.
Lemma wire_ready (Q : option unit -> RadioAccess -> Wire -> Prop) : Q (Some tt) s g -> (forall s' g', fails (w_log g) s' g' -> Q None s' g') -> wpm wireRules access_ready s g Q.
Proof.
  intros H1 H2. unfold access_ready. wstep. apply (wpm_call wireRules IoCancelled); [split; [exact Hon|exact I]|]. intros [|] _; cbn beta iota; cbn [when].
  - apply (wire_ends rCancelled _ (w_log g)); [discriminate|reflexivity|exact H2].
  - cbn [next wireRules wireNext]. rewrite wire_on by exact Hon. apply wpm_ret, H1.
Qed.
Lemma wire_write rel v (Q : option unit -> RadioAccess -> Wire -> Prop) : 0 <= rel < 0x10000 -> rel mod 4 = 0 ->
  (forall s' g', status_ s' = status_ s -> w_dead g' = false -> w_log g' = w_log g ++ [(0x10000 + rel, v)] -> w_read g' = w_read g -> Q (Some tt) s' g') -> (forall s' g', fails (w_log g) s' g' -> Q None s' g') -> wpm wireRules (write rel v) s g Q.
Proof.
  intros Hr Hm H1 H2. unfold write. wstep. apply wire_ready; [|exact H2]. cbn beta iota. wstep. apply wpm_modify. cbn beta iota. wstep.
  apply (wpm_call wireRules (IoWrite (0x10000 + rel) v)); [split; [exact Hon|clear - Hr Hm; zlia]|]. intros [|] _; cbn beta iota; cbn [unless].
  - apply wpm_ret. apply H1; [reflexivity|exact Hon|reflexivity|reflexivity].
  - apply (wire_ends rIoError _ (w_log g)); [discriminate|reflexivity|exact H2].
Qed.
Lemma wire_read rel (Q : option Z -> RadioAccess -> Wire -> Prop) : 0 <= rel < 0x10000 -> rel mod 4 = 0 ->
  (forall s' v, status_ s' = status_ s -> Q (Some v) s' (mkWire false (w_log g) (Some (0x10000 + rel, v)))) -> (forall s' g', fails (w_log g) s' g' -> Q None s' g') -> wpm wireRules (read rel) s g Q.
Proof.
  intros Hr Hm H1 H2. unfold read. wstep. apply wire_ready; [|exact H2]. cbn beta iota. wstep. apply wpm_modify. cbn beta iota. wstep.
  apply (wpm_call wireRules (IoRead (0x10000 + rel))); [split; [exact Hon|clear - Hr Hm; zlia]|]. intros [v|] _; cbn beta iota.
  - wstep. apply wpm_modify. cbn beta iota. apply wpm_ret. cbn [next wireRules wireNext]. rewrite Hon. apply H1. reflexivity.
  - apply (wire_ends rIoError _ (w_log g)); [discriminate|reflexivity|exact H2].
Qed.
Lemma wire_delay us (Q : option unit -> RadioAccess -> Wire -> Prop) : Q (Some tt) s g -> (forall s' g', fails (w_log g) s' g' -> Q None s' g') -> wpm wireRules (delay us) s g Q.
Proof.
  intros H1 H2. unfold delay. wstep. apply wire_ready; [|exact H2]. cbn beta iota. wstep. apply (wpm_call wireRules (IoDelay us)); [split; [exact Hon|exact I]|]. intros [|] _; cbn beta iota; cbn [unless].
  - cbn [next wireRules wireNext negb]. rewrite wire_on by exact Hon. apply wpm_ret, H1.
  - apply (wire_ends rIoError _ (w_log g)); [discriminate|reflexivity|exact H2].
Qed.
End wire.
Lemma aligned_in rel : 0 <= rel -> aligned rel = true -> 0 <= rel < 0x10000 /\ rel mod 4 = 0.
Proof.
  intros H0 H. unfold aligned in H. apply andb_true_iff in H as [H1%Z.eqb_eq H2%Z.ltb_lt]. change 3 with (Z.ones 2) in H1. rewrite Z.land_ones in H1 by lia. change (2^2) with 4 in H1. lia.
Qed.
Lemma wire_writeBaseband rel v s g (Q : option unit -> RadioAccess -> Wire -> Prop) : w_dead g = false -> 0 <= rel ->
  (forall s' g', w_dead g' = false -> w_log g' = w_log g ++ [(0x10000 + rel, v)] -> w_read g' = w_read g -> Q (Some tt) s' g') -> (forall s' g', fails (w_log g) s' g' -> Q None s' g') -> wpm wireRules (writeBaseband rel v) s g Q.
Proof.
  intros Hon H0 H1 H2. unfold writeBaseband, checked. wstep. wstep. apply wpm_modify. cbn beta iota. destruct (aligned rel) eqn:E; cbn [unless].
  - apply wpm_ret. cbn beta iota. destruct (aligned_in rel H0 E) as [A1 A2]. apply wire_write; [exact Hon|exact A1|exact A2| |exact H2]. intros s' g' _. apply H1.
  - apply (wire_ends rInvalid _ (w_log g)); [discriminate|reflexivity|exact H2].
Qed.
Lemma wire_pause us s g (Q : option unit -> RadioAccess -> Wire -> Prop) : w_dead g = false ->
  (forall s', Q (Some tt) s' g) -> (forall s' g', fails (w_log g) s' g' -> Q None s' g') -> wpm wireRules (delayMicroseconds us) s g Q.
Proof. intros Hon H1 H2. unfold delayMicroseconds. wstep. apply wpm_modify. cbn beta iota. apply wire_delay; [exact Hon|apply H1|exact H2]. Qed.

(** The writes of a plan. *)
Definition wrote (l : list sinkOp) : list (Z * Z) := concat (map (fun o => match o with BbWrite a v => [(0x10000 + a, v)] | _ => [] end) l).
Lemma wrote_app a b : wrote (a ++ b) = wrote a ++ wrote b. Proof. unfold wrote. rewrite map_app, concat_app. reflexivity. Qed.
(** A table whose addresses are unsigned, as they are. *)
Definition unsigned (t : RadioTable) : Prop := match registers t with Some rows => Forall (fun r => 0 <= address r) rows | None => True end.
Lemma armChosen_in tgt arms r : In r (armChosen tgt arms) -> In r (concat (map armRows arms)).
Proof.
  induction arms as [|a arms IH]; [intros []|]. cbn [armChosen map concat]. intros Hr. apply in_or_app.
  destruct (hit tgt a); [left; right; right; exact Hr|right; apply IH, Hr].
Qed.
Lemma chosen_in tgt items r : In r (concat (map (chosenRows tgt) items)) -> In r (concat (map flat items)).
Proof.
  intros H. apply in_concat in H as (l & Hl & Hr). apply in_map_iff in Hl as (x & <- & Hx). apply in_concat. exists (flat x). split; [apply in_map, Hx|].
  destruct x as [r0|arms els e]; [exact Hr|]. cbn [chosenRows flat] in *. apply in_or_app. left. exact (armChosen_in _ _ _ Hr).
Qed.
Lemma tableRows_unsigned t rfe cut tgt rows : unsigned t -> tableRows t rfe cut tgt rows -> Forall (fun r => 0 <= address r) rows.
Proof.
  intros Hu (all & n & items & (E & _) & _ & Ei & _ & ->). unfold unsigned in Hu. rewrite E in Hu. apply List.Forall_forall. intros r Hr. apply (proj1 (List.Forall_forall _ _) Hu).
  apply chosen_in in Hr. rewrite <- Ei in Hr. rewrite <- (take_drop (Z.to_nat n) all). apply in_or_app. right. exact Hr.
Qed.
(** The sink of a run and the wire behind it; [before] is what was written
    earlier. *)
Definition behindWire (before : list (Z * Z)) (rd : option (Z * Z)) (l : list sinkOp) (g : Plan) (s : RadioAccess) (c : Wire) : Prop := exists done, l = done ++ todo g /\ w_log c = before ++ wrote done /\ (refused g = false -> stopped g = false -> w_dead c = false /\ w_read c = rd).
Definition natural (o : sinkOp) : Prop := match o with BbWrite a _ => 0 <= a | DelayUs _ => True | _ => False end.
Lemma sink_wire before rd l o g s c : Forall natural l -> behindWire before rd l g s c -> planMay g o -> wp wireRules (sinkMethod o s) c (fun r c' => behindWire before rd l (planNext g o r.1) r.2 c').
Proof.
  intros Hl (done & El & Elog & Hg) (Hr & Hs & Ho). destruct (Hg Hr Hs) as [Hon Hrd].
  assert (Hnat : o <> Cancelled -> natural o) by (intros Hn; rewrite El in Hl; apply List.Forall_app in Hl as [_ Hl]; destruct o; [contradiction|..]; destruct Ho as [rest Ho]; rewrite Ho in Hl; exact (List.Forall_inv Hl)).
  assert (Htl : forall rest, todo g = o :: rest -> l = (done ++ [o]) ++ rest) by (intros rest E; rewrite El, E, <- app_assoc; reflexivity).
  assert (Hno : forall s' c', o <> Cancelled -> fails (w_log c) s' c' -> behindWire before rd l (planNext g o false) s' c').
  { intros s' c' Hn [_ E]. exists done. destruct o; [contradiction|..]; (split; [exact El|]; split; [rewrite E; exact Elog|discriminate]). }
  destruct o; try (exfalso; exact (Hnat ltac:(discriminate))).
  - split; [split; [exact Hon|exact I]|]. intros x _. exists done. destruct x; (split; [exact El|]; split; [exact Elog|]); [discriminate|]. intros _ _. cbn. rewrite Hon. auto.
  - destruct Ho as [rest Ho]. apply truth_wp. apply (wire_writeBaseband a v s c); [exact Hon|exact (Hnat ltac:(discriminate))| |intros s' c' H; apply Hno; [discriminate|exact H]].
    intros s' c' Hd E Erd. exists (done ++ [BbWrite a v]). cbn [fst snd planNext todo]. rewrite Ho. split; [exact (Htl rest Ho)|]. split; [rewrite E, Elog, wrote_app, app_assoc; reflexivity|]. intros _ _. split; [exact Hd|congruence].
  - destruct Ho as [rest Ho]. apply truth_wp. apply (wire_pause us s c); [exact Hon| |intros s' c' H; apply Hno; [discriminate|exact H]].
    intros s'. exists (done ++ [DelayUs us]). cbn [fst snd planNext todo]. rewrite Ho. split; [exact (Htl rest Ho)|]. split; [rewrite Elog, wrote_app; cbn [wrote map concat]; rewrite app_nil_r; reflexivity|auto].
Qed.
Lemma plan_natural t rows : kind t = RadioTables.baseband -> Forall (fun r => 0 <= address r) rows -> Forall natural (plan t rows).
Proof.
  intros Ek Hr. unfold plan. induction Hr as [|r rows Hr _ IH]; [apply List.Forall_nil|]. cbn [map concat]. apply List.Forall_app. split; [|exact IH].
  unfold action. rewrite Ek. destruct (negb _); [repeat constructor|]. destruct (_ =? _); [apply List.Forall_nil|]. apply List.Forall_cons; [exact Hr|apply List.Forall_nil].
Qed.
Lemma applyOn_wire t rfe cut tgt rows s c before rd (Q : option RadioTableResult -> RadioAccess -> Wire -> Prop) : kind t = RadioTables.baseband -> unsigned t -> tableRows t rfe cut tgt rows -> w_dead c = false -> w_log c = before -> w_read c = rd ->
  (forall res s' c', (exists done rest, plan t rows = done ++ rest /\ w_log c' = before ++ wrote done /\ (status res = ok -> rest = [] /\ w_dead c' = false /\ w_read c' = rd)) -> Q (Some res) s' c') -> wpm wireRules (applyOn t rfe cut) s c Q.
Proof.
  intros Hk Hu Ht Hon Hl Hrd HQ. unfold wpm, applyOn. apply wp_bind. pose proof (plan_natural t rows Hk (tableRows_unsigned t rfe cut tgt rows Hu Ht)) as Hnat.
  assert (Hb : behindWire before rd (plan t rows) (mkPlan (plan t rows) false false) s c) by (exists []; split; [reflexivity|]; split; [rewrite Hl; symmetry; apply app_nil_r|auto]).
  eapply wp_mono; [|exact (wp_interp planRules wireRules (behindWire before rd (plan t rows)) sinkMethod _ _ s c _ (fun o g s' c' H1 H2 => wp_mono wireRules _ _ _ _ (fun r d H => conj I H) (sink_wire before rd (plan t rows) o g s' c' Hnat H1 H2)) Hb (apply_good t rfe cut tgt rows Ht))].
  intros [[r res] s'] c' (g1 & (done & El & Elog & Hg) & He & _). cbn [fst snd] in *. apply HQ. exists done, (todo g1). split; [exact El|]. split; [exact Elog|]. intros Hok.
  destruct r as [[]|]; [|destruct He as [[E _]|[E _]]; congruence]. destruct He as (_ & E2 & E3 & E4). auto.
Qed.

Lemma check_rows t rfe cut : status (checkOf t rfe cut) = ok -> exists tgt rows, tableRows t rfe cut tgt rows.
Proof.
  unfold checkOf. intros H. pose proof (run_applied checkSink tt t rfe cut ltac:(reflexivity)) as R. destruct (run checkSink (applyRadioTable t rfe cut noResult) tt) as [[r s] d].
  cbn [fst snd] in H. destruct R as [_ [(tgt & rows & Ht)|[N _]]]; [eauto|contradiction].
Qed.
(** [baseband] writes the rows of a table that are for the board, in order and
    nothing else, and all of them when it ends well. *)
Theorem baseband_written t rfe cut tr res s s' : unsigned t -> exec (baseband t rfe cut s) tr (Some res, s') ->
  accepts wireRules newWire tr /\ let c := after wireRules newWire tr in
  (exists tgt rows done rest, tableRows t rfe cut tgt rows /\ plan t rows = done ++ rest /\ w_log c = wrote done /\ (status res = ok -> rest = [] /\ w_dead c = false)) \/ (tr = [] /\ status res <> ok).
Proof.
  intros Hu He. unfold baseband in He. destruct (bool_decide (kind t = RadioTables.baseband)) eqn:Ek; cbn [negb] in He.
  2: { destruct He as [-> [= <- _]]. split; [exact I|]. right. split; [reflexivity|discriminate]. }
  apply bool_decide_eq_true in Ek. destruct (bool_decide (status (checkOf t rfe cut) = ok)) eqn:Ec; cbn [negb] in He.
  2: { apply bool_decide_eq_false in Ec. destruct He as [-> [= <- _]]. split; [exact I|]. right. auto. }
  apply bool_decide_eq_true in Ec. destruct (check_rows t rfe cut Ec) as (tgt & rows & Ht).
  assert (Hw : wpm wireRules (applyOn t rfe cut) s newWire (fun r _ c => forall res, r = Some res -> exists done rest, plan t rows = done ++ rest /\ w_log c = wrote done /\ (status res = ok -> rest = [] /\ w_dead c = false))).
  { apply (applyOn_wire t rfe cut tgt rows s newWire [] None); try reflexivity; try assumption. intros r s1 c1 (done & rest & E1 & E2 & E3) res0 [= <-]. exists done, rest. split; [exact E1|]. split; [exact E2|]. intros H. destruct (E3 H) as (K1 & K2 & _). auto. }
  destruct (wp_sound wireRules _ newWire _ tr _ Hw He (relies_trivial wireRules newWire tr (fun _ _ _ => I))) as [Ha HW]. split; [exact Ha|].
  left. destruct (HW res eq_refl) as (done & rest & H). exists tgt, rows, done, rest. auto.
Qed.

(** *** The table of the calibration engine *)

Definition enginePrologue : list Z := [0x10c60; 0x10c6c; 0x158ac; 0x178ac; 0x18000; 0x18080].
Definition prepares (before : list (Z * Z)) : Prop := Forall (fun w => In (fst w) enginePrologue) before.
(** A body that writes only registers of the engine. *)
Definition engine {A} (m : RA A) : Prop := forall s g (Q : option A -> RadioAccess -> Wire -> Prop), w_dead g = false -> prepares (w_log g) ->
  (forall s' g' x, w_dead g' = false -> prepares (w_log g') -> Q (Some x) s' g') -> (forall s' g', status_ s' <> rOk -> prepares (w_log g') -> Q None s' g') -> wpm wireRules m s g Q.
Lemma engine_bind {A B} (m : RA A) (k : A -> RA B) : engine m -> (forall x, engine (k x)) -> engine (m ≫= k).
Proof. intros Hm Hk s g Q Ho Hl H1 H2. wstep. apply Hm; [exact Ho|exact Hl| |exact H2]. intros s1 g1 x O1 L1. cbn beta iota. apply Hk; assumption. Qed.
Lemma prepares_snoc l a v : prepares l -> In a enginePrologue -> prepares (l ++ [(a, v)]).
Proof. intros H Ha. apply List.Forall_app. split; [exact H|]. apply List.Forall_cons; [exact Ha|apply List.Forall_nil]. Qed.
Lemma engine_write rel v : In (0x10000 + rel) enginePrologue -> 0 <= rel -> engine (writeBaseband rel v).
Proof.
  intros Hi Hr s g Q Ho Hl H1 H2. apply wire_writeBaseband; [exact Ho|exact Hr| |].
  - intros s' g' Hd E _. apply H1; [exact Hd|]. rewrite E. apply prepares_snoc; assumption.
  - intros s' g' [Hs E]. apply H2; [exact Hs|rewrite E; exact Hl].
Qed.
Lemma engine_update rel mask v : In (0x10000 + rel) enginePrologue -> 0 <= rel < 0x10000 -> rel mod 4 = 0 -> engine (updateBaseband rel mask v).
Proof.
  intros Hi Hr Hm s g Q Ho Hl H1 H2. unfold updateBaseband. wstep. apply wpm_modify. cbn beta iota. wstep. destruct (_ || _); cbn [when].
  { apply (wire_ends rInvalid _ (w_log g)); [discriminate|reflexivity|]. intros s' g' [Hs E]. apply H2; [exact Hs|rewrite E; exact Hl]. }
  apply wpm_ret. cbn beta iota. unfold update. wstep.
  assert (Hw : forall w s1 g1, w_dead g1 = false -> prepares (w_log g1) -> wpm wireRules (write rel w) s1 g1 Q).
  { intros w s1 g1 O1 L1. apply wire_write; [exact O1|exact Hr|exact Hm| |].
    - intros s' g' _ Hd E _. apply H1; [exact Hd|]. rewrite E. apply prepares_snoc; assumption.
    - intros s' g' [Hs E]. apply H2; [exact Hs|rewrite E; exact L1]. }
  destruct (mask =? 0xffffffff); [apply wpm_ret; cbn beta iota; apply Hw; assumption|]. apply wire_read; [exact Ho|exact Hr|exact Hm| |].
  - intros s' x _. cbn beta iota. apply Hw; [reflexivity|exact Hl].
  - intros s' g' [Hs E]. apply H2; [exact Hs|rewrite E; exact Hl].
Qed.
Lemma engine_prologue : engine nctlPrologue.
Proof.
  unfold nctlPrologue. repeat (apply engine_bind; [apply engine_update; [cbn; tauto|lia|reflexivity]|intros []]). apply engine_write; [cbn; tauto|lia].
Qed.
(** The wait for the engine: it was seen ready. *)
Lemma engine_wait s g (Q : option (option unit) -> RadioAccess -> Wire -> Prop) : w_dead g = false -> prepares (w_log g) ->
  (forall s' g', w_dead g' = false -> prepares (w_log g') -> w_read g' = Some (0x18080, 4) -> Q (Some (Some tt)) s' g') -> (forall s' g', prepares (w_log g') -> Q (Some None) s' g') -> (forall s' g', status_ s' <> rOk -> prepares (w_log g') -> Q None s' g') ->
  wpm wireRules (for_loop 0 101 nctlTurn) s g Q.
Proof.
  intros Ho Hl H1 H2 H3. apply (wpm_for_loop wireRules (fun _ _ h => w_dead h = false /\ prepares (w_log h))); [lia|auto| |intros s' h [_ Hp]; apply H2, Hp].
  intros j t h _ [O1 L1]. unfold nctlTurn.
  assert (Hf : forall l s' g', prepares l -> fails l s' g' -> Q None s' g') by (intros l s' g' Hp [Hs E]; apply H3; [exact Hs|rewrite E; exact Hp]).
  wstep. apply (engine_write 0x8080 4 ltac:(cbn; tauto) ltac:(lia)); [exact O1|exact L1| |intros s' g' Hs Hp; apply H3; assumption]. intros t1 h1 [] O2 L2. cbn beta iota.
  wstep. apply wire_pause; [exact O2| |intros s' g'; apply Hf, L2]. intros t2. cbn beta iota. wstep. unfold readBaseband, checked. wstep. wstep. apply wpm_modify. cbn beta iota. change (aligned 0x8080) with true. cbn [unless]. apply wpm_ret. cbn beta iota.
  apply wire_read; [exact O2|lia|reflexivity| |intros s' g'; apply Hf, L2]. intros t3 v _. cbn beta iota. destruct (Z.eqb_spec v 4) as [-> |Nv]; [apply wpm_ret; cbn beta iota; apply H1; [reflexivity|exact L2|reflexivity]|].
  wstep. destruct (j =? 100); cbn [unless]; [apply wpm_ret; cbn beta iota; apply wpm_ret; auto|]. apply wire_pause; [reflexivity| |intros s' g'; apply Hf, L2]. intros t4. cbn beta iota. apply wpm_ret. auto.
Qed.
Lemma orStatus_any {G A} (P : protocol RadioIo G) (m : RA A) k s g (Q : option RadioIoStatus -> RadioAccess -> G -> Prop) :
  wpm P m s g (fun r s' g' => match r with Some x => wpm P (k x) s' g' Q | None => Q (Some (status_ s')) s' g' end) -> wpm P (orStatus m k) s g Q.
Proof.
  intros H. unfold orStatus. wstep. unfold attempt, wpm. apply wp_bind. eapply wp_mono; [|exact H]. intros [[x|] s'] g' H'; exact H'.
Qed.
(** [nctl] writes the table of the calibration engine only after the engine
    was seen ready, and all of it when it ends well; before it, only registers
    of the engine are written. *)
Theorem nctl_written t rfe cut tr st s s' : kind t = RadioTables.baseband -> unsigned t -> exec (nctl t rfe cut s) tr (Some st, s') ->
  accepts wireRules newWire tr /\ let c := after wireRules newWire tr in
  (exists before l, w_log c = before ++ l /\ prepares before /\ (l = [] \/ exists tgt rows done rest, tableRows t rfe cut tgt rows /\ plan t rows = done ++ rest /\ l = wrote done)) /\
  (st = rOk -> exists tgt rows before, tableRows t rfe cut tgt rows /\ w_log c = before ++ wrote (plan t rows) /\ prepares before /\ w_read c = Some (0x18080, 4) /\ w_dead c = false).
Proof.
  intros Hk Hu He. unfold nctl in He. destruct (bool_decide _) eqn:Ec; cbn [negb] in He.
  2: { destruct He as [-> [= <- _]]. split; [exact I|]. split; [|discriminate]. exists [], []. split; [reflexivity|]. split; [apply List.Forall_nil|left; reflexivity]. }
  apply bool_decide_eq_true in Ec. destruct (check_rows t rfe cut Ec) as (tgt & rows & Ht).
  set (W := fun (r : option RadioIoStatus) (_ : RadioAccess) (c : Wire) => forall st, r = Some st ->
    (exists before l, w_log c = before ++ l /\ prepares before /\ (l = [] \/ exists tgt rows done rest, tableRows t rfe cut tgt rows /\ plan t rows = done ++ rest /\ l = wrote done)) /\
    (st = rOk -> exists tgt rows before, tableRows t rfe cut tgt rows /\ w_log c = before ++ wrote (plan t rows) /\ prepares before /\ w_read c = Some (0x18080, 4) /\ w_dead c = false)).
  assert (Hbad : forall st s c, st <> rOk -> prepares (w_log c) -> W (Some st) s c).
  { intros e s0 c Hne Hp st0 [= <-]. split; [|contradiction]. exists (w_log c), []. split; [symmetry; apply app_nil_r|]. split; [exact Hp|left; reflexivity]. }
  match type of He with exec (?m s) _ _ => assert (Hw : wpm wireRules m s newWire W) end.
  { apply orStatus_any. apply (engine_prologue s newWire); [reflexivity|apply List.Forall_nil| |intros s1 c1 Hs Hp; apply Hbad; assumption]. intros s1 c1 [] O1 L1. cbn beta iota.
    apply orStatus_any. apply (engine_wait s1 c1); [exact O1|exact L1| |intros s2 c2 Hp; cbn beta iota; apply wpm_ret, Hbad; [discriminate|exact Hp]|intros s2 c2 Hs Hp; cbn beta iota; apply Hbad; assumption].
    intros s2 c2 O2 L2 R2. cbn beta iota. wstep. apply (applyOn_wire t rfe cut tgt rows s2 c2 (w_log c2) (Some (0x18080, 4)) _ Hk Hu Ht O2 eq_refl R2). intros res s3 c3 (done & rest & E1 & E2 & E3). cbn beta iota.
    assert (Hres : forall e s0, (e = rOk -> status res = ok) -> W (Some e) s0 c3).
    { intros e s0 Hok st0 [= <-]. split; [exists (w_log c2), (wrote done); split; [exact E2|]; split; [exact L2|right; exists tgt, rows, done, rest; auto]|].
      intros Hr. destruct (E3 (Hok Hr)) as (-> & K1 & K2). rewrite app_nil_r in E1. exists tgt, rows, (w_log c2). rewrite E1. auto. }
    destruct (bool_decide (status res = ok)) eqn:E4; [apply wpm_ret, Hres; intros _; apply bool_decide_eq_true in E4; exact E4|]. destruct (bool_decide (status res = cancelled)); [apply wpm_ret, Hres; discriminate|].
    wstep. apply wpm_get. cbn beta iota. apply wpm_ret, Hres. destruct (bool_decide (status_ s3 = rOk)) eqn:E5; [discriminate|]. apply bool_decide_eq_false in E5. contradiction. }
  destruct (wp_sound wireRules _ newWire _ tr _ Hw He (relies_trivial wireRules newWire tr (fun _ _ _ => I))) as [Ha HW]. split; [exact Ha|]. exact (HW st eq_refl).
Qed.

(** ** A concrete device *)

(** Its registers; the port is always idle. *)
Definition registers_ : Type := list (Z * Z).
Definition chipDevice : handler RadioIo registers_ := fun d o =>
  match o return ioAns o * registers_ with
  | IoCancelled => (false, d)
  | IoRead a => (Some (match List.find (fun p => fst p =? a) d with Some (_, v) => v | None => 0 end), d)
  | IoWrite a v => (true, (a, v) :: d)
  | IoDelay _ => (true, d)
  end.
Definition radioRun := run_trace chipDevice (radio RadioFirmware.goodRadio 1000 1 0 (Some RadioFirmware.sampleBuffer) 5000 16 newAccess) [(0x1f060, 0xabc00000)].
Example radio_ran : (snd (fst radioRun), option_map (fun x => status (fst (fst x))) (fst (fst (fst radioRun))), log (after chipRules newChip (snd radioRun))) =
  ([(0x1f064, 0x45); (0x1f060, 0xabc00023); (0x10370, 0x10500001); (0x1f060, 0xabc00000)], Some ok, [Analog 1 5 0xfffff 1; Direct 1 0x18 0xabc00000 0xabc00023; Direct 1 0x19 0 0x45]).
Proof. vm_compute. reflexivity. Qed.
Lemma radio_programmed_witness : exists res scratch out, exec (radio RadioFirmware.goodRadio 1000 1 0 (Some RadioFirmware.sampleBuffer) 5000 16 newAccess) (snd radioRun) (Some (res, scratch, out), snd (fst (fst radioRun))) /\
  programmed RadioFirmware.goodRadio 1 0 16 RadioFirmware.sampleBuffer (snd radioRun) res scratch out.
Proof.
  assert (E : exists res scratch out, fst (fst (fst radioRun)) = Some (res, scratch, out)).
  { destruct (fst (fst (fst radioRun))) as [[[res scratch] out]|] eqn:E; [eauto|]. exfalso. revert E. vm_compute. discriminate. }
  destruct E as (res & scratch & out & E). exists res, scratch, out.
  assert (He : exec (radio RadioFirmware.goodRadio 1000 1 0 (Some RadioFirmware.sampleBuffer) 5000 16 newAccess) (snd radioRun) (Some (res, scratch, out), snd (fst (fst radioRun)))).
  { rewrite <- E, <- surjective_pairing. exact (run_trace_exec chipDevice (radio RadioFirmware.goodRadio 1000 1 0 (Some RadioFirmware.sampleBuffer) 5000 16 newAccess) [(0x1f060, 0xabc00000)]). }
  split; [exact He|]. refine (radio_programmed RadioFirmware.goodRadio 1000 1 0 RadioFirmware.sampleBuffer 5000 16 (snd radioRun) res scratch out newAccess _ _ _ _ He); [vm_compute; discriminate|vm_compute; discriminate|reflexivity].
Defined.
