(* ===== verification/FirmwareCapabilities.v ===== *)
(** * What the firmware says it can do (src/network/FirmwareCapabilities.hpp)

    One question per firmware, asked through the register mailbox: how many
    streams and antennas the device has.  The answer is kept with the identity
    of the device it was asked for. *)

From S2P Require Import Prelude Prog.
From S2P Require FirmwarePlan EfuseCalibration DeviceCalibration.
From S2P Require Import FirmwareMailbox.

(** ** Data *)

Definition getFeatureCommand : Z := 3.
Definition phyCapabilityReply : Z := 3.
Inductive CapabilityError := cNone | cIdentity | cMailbox | cLength | cAntenna | cInvalidated.
Record CapabilitySnapshot := mkCapability {
  n_words : list Z; n_epoch : Z; n_cut : Z; n_mac : list Z; n_rfe : Z;
  reportedTxNss : Z; reportedRxNss : Z; reportedTxAntennas : Z; reportedRxAntennas : Z;
  bandwidthRaw : Z; protocolRaw : Z; nicRaw : Z; wirelessFunctionRaw : Z; hardwareTypeRaw : Z;
  n_sequence : Z; txNss : Z; rxNss : Z; antennaTx : Z; antennaRx : Z; n_ack : bool;
  txNssFallback : bool; rxNssFallback : bool; txPathDiversity : bool; supportCckpd : bool; supportIgi : bool;
  bandwidthEncodingKnown : bool; protocolEncodingKnown : bool
}.
Definition noCapability : CapabilitySnapshot :=
  mkCapability [0; 0; 0; 0] 0 0 (zeros 6) 0 0 0 0 0 0 0 0 0 0 0 0 0 0 0 false false false false false false false false.
Definition effectiveTxPaths (n : CapabilitySnapshot) : Z := if antennaTx n =? 0 then 3 else antennaTx n.
Definition effectiveRxPaths (n : CapabilitySnapshot) : Z := if antennaRx n =? 0 then 3 else antennaRx n.
(** The members, [result_] flattened; the mailbox is the one borrowed. *)
Record FirmwareCapabilities := mkCapabilities { mail_ : Mailbox; snapshot_ : CapabilitySnapshot; error_ : CapabilityError; lastMail : MailResult; complete : bool; attempted_ : bool }.
#[export] Instance FirmwareCapabilities_rebuild : Rebuild FirmwareCapabilities := fun s =>
  mkCapabilities (mail_ s) (snapshot_ s) (error_ s) (lastMail s) (complete s) (attempted_ s).
Definition newCapabilities (m : Mailbox) : FirmwareCapabilities := mkCapabilities m noCapability cNone noResult false false.

(** ** The methods *)

Definition CM (A : Type) : Type := M MailIo FirmwareCapabilities A.
Definition failed (e : CapabilityError) (s : FirmwareCapabilities) : FirmwareCapabilities :=
  s <| snapshot_ := noCapability |> <| complete := false |> <| error_ := e |>.
Definition fail (e : CapabilityError) : CM bool := modify (failed e);; mret false.
Definition snapshot (s : FirmwareCapabilities) : option CapabilitySnapshot := if complete s then Some (snapshot_ s) else None.
Definition invalidate : CM unit := modify (fun s => failed cInvalidated (s <| attempted_ := true |>)).
Definition onMail {A} (m : MB A) : CM A := fun s => bindP (m (mail_ s)) (fun r => Ret (r.1, s <| mail_ := r.2 |>)).
Definition unidentified (c : DeviceCalibration.CalibrationSnapshot) (loaded : FirmwarePlan.Plan) (epoch : Z) : bool :=
  negb (EfuseCalibration.identityValid (DeviceCalibration.s_board c)) || (1 <? DeviceCalibration.s_cut c) || (epoch =? 0) ||
  negb (FirmwarePlan.valid loaded) || negb (FirmwarePlan.cut loaded =? DeviceCalibration.s_cut c) ||
  (negb (FirmwarePlan.p_type loaded =? 1) && negb (FirmwarePlan.p_type loaded =? 5)).
Definition capabilityRequest : Request := mkRequest getFeatureCommand 0 [0; 0; 0; 0].
(** A byte of the words of a reply, by word and position. *)
Definition part (ws : list Z) (i : nat) (k : Z) : Z := u8 (Z.shiftr (nth i ws 0) k).
Definition txAntennas (ws : list Z) : Z := part ws 3 8.
Definition rxAntennas (ws : list Z) : Z := part ws 3 16.
(** The snapshot of a reply: its bytes, and the streams and paths that follow. *)
Definition capabilityOf (c : DeviceCalibration.CalibrationSnapshot) (epoch : Z) (r : Reply) : CapabilitySnapshot :=
  let ws := r_words r in let board := DeviceCalibration.s_board c in
  let tx := part ws 1 0 in let rx := part ws 0 16 in
  let diversity := (tx =? 1) && (txAntennas ws =? 2) && (rxAntennas ws =? 2) in
  {| n_words := map (fun i => nth i ws 0) (List.seq 0 4); n_epoch := epoch; n_cut := DeviceCalibration.s_cut c; n_mac := EfuseCalibration.mac board; n_rfe := EfuseCalibration.rfe board;
     reportedTxNss := tx; reportedRxNss := rx; reportedTxAntennas := txAntennas ws; reportedRxAntennas := rxAntennas ws;
     bandwidthRaw := part ws 0 24; protocolRaw := part ws 1 8; nicRaw := part ws 1 16; wirelessFunctionRaw := part ws 1 24; hardwareTypeRaw := part ws 2 0;
     n_sequence := r_sequence r; txNss := if tx =? 1 then 1 else 2; rxNss := if rx =? 1 then 1 else 2;
     antennaTx := if diversity then 2 else if txAntennas ws =? 1 then 2 else 0; antennaRx := if rxAntennas ws =? 1 then 2 else 0; n_ack := r_ack r;
     txNssFallback := tx =? 0; rxNssFallback := rx =? 0; txPathDiversity := diversity;
     supportCckpd := 0 <? DeviceCalibration.s_cut c; supportIgi := false; bandwidthEncodingKnown := false; protocolEncodingKnown := false |}.
Definition query (calibration : option DeviceCalibration.CalibrationSnapshot) (loaded : FirmwarePlan.Plan) (epoch : Z) : CM bool :=
  s ← get;
  if attempted_ s then mret false else
  modify (fun s => s <| attempted_ := true |>);;
  match calibration with
  | None => fail cIdentity
  | Some c =>
      if unidentified c loaded epoch then fail cIdentity else
      ok ← onMail (exchange capabilityRequest phyCapabilityReply);
      modify (fun s => s <| lastMail := result (mail_ s) |>);;
      if negb ok then fail cMailbox else
      s ← get;
      let mail := lastMail s in let r := reply mail in
      if negb (triggerAttempted mail) || negb (replyCaptured mail) || negb (replyAcknowledged mail) || negb (isNone (error mail)) || negb (r_function r =? phyCapabilityReply) then fail cMailbox else
      if negb (r_contentBytes r =? 14) then fail cLength else
      if (2 <? txAntennas (r_words r)) || (2 <? rxAntennas (r_words r)) then fail cAntenna else
      modify (fun s => s <| snapshot_ := capabilityOf c epoch r |> <| complete := true |>);; mret true
  end.

(** What the owner may ask, and a sequence of it; the answers are kept, that of
    [invalidate] as false. *)
Inductive request := Query (calibration : option DeviceCalibration.CalibrationSnapshot) (loaded : FirmwarePlan.Plan) (epoch : Z) | Invalidate.
Definition ask (r : request) : CM bool :=
  match r with Query c p e => query c p e | Invalidate => invalidate;; mret false end.
Fixpoint askAll (l : list request) : CM (list bool) :=
  match l with [] => mret [] | r :: l => x ← ask r; xs ← askAll l; mret (x :: xs) end.

(** ** What a snapshot says *)

(** The bytes of a reply. *)
Definition replyByte (ws : list Z) (i : Z) : Z := byte_at (concat (map le32_bytes ws)) i.
Record Reported (c : DeviceCalibration.CalibrationSnapshot) (epoch : Z) (ws : list Z) (n : CapabilitySnapshot) : Prop := {
  q_words : n_words n = ws;
  q_identity : n_epoch n = epoch /\ n_cut n = DeviceCalibration.s_cut c /\ n_mac n = EfuseCalibration.mac (DeviceCalibration.s_board c) /\ n_rfe n = EfuseCalibration.rfe (DeviceCalibration.s_board c);
  q_raw : [reportedRxNss n; bandwidthRaw n; reportedTxNss n; protocolRaw n; nicRaw n; wirelessFunctionRaw n; hardwareTypeRaw n; reportedTxAntennas n; reportedRxAntennas n] =
    map (replyByte ws) [2; 3; 4; 5; 6; 7; 8; 13; 14];
  q_reply : n_sequence n = replyByte ws 1 / 16 /\ n_ack n = flag (replyByte ws 0) 128;
  q_streams : txNss n = (if replyByte ws 4 =? 1 then 1 else 2) /\ rxNss n = (if replyByte ws 2 =? 1 then 1 else 2) /\
    txNssFallback n = (replyByte ws 4 =? 0) /\ rxNssFallback n = (replyByte ws 2 =? 0);
  q_antennas : replyByte ws 13 <= 2 /\ replyByte ws 14 <= 2;
  q_diversity : txPathDiversity n = true <-> replyByte ws 4 = 1 /\ replyByte ws 13 = 2 /\ replyByte ws 14 = 2;
  q_tx : effectiveTxPaths n = (if (replyByte ws 13 =? 1) || txPathDiversity n then 2 else 3);
  q_rx : effectiveRxPaths n = (if replyByte ws 14 =? 1 then 2 else 3);
  q_support : supportCckpd n = (0 <? DeviceCalibration.s_cut c) /\ supportIgi n = false /\ bandwidthEncodingKnown n = false /\ protocolEncodingKnown n = false
}.
(** The device and the firmware a question may be asked for. *)
Definition identified (c : DeviceCalibration.CalibrationSnapshot) (loaded : FirmwarePlan.Plan) (epoch : Z) : Prop :=
  EfuseCalibration.identityValid (DeviceCalibration.s_board c) = true /\ DeviceCalibration.s_cut c <= 1 /\ epoch <> 0 /\
  FirmwarePlan.valid loaded = true /\ FirmwarePlan.cut loaded = DeviceCalibration.s_cut c /\ In (FirmwarePlan.p_type loaded) [1; 5].
Lemma identified_spec c p e : unidentified c p e = false <-> identified c p e.
Proof. unfold unidentified, identified. rewrite !orb_false_iff, !andb_false_iff, !negb_false_iff, Z.ltb_ge, Z.eqb_neq, !Z.eqb_eq. cbn. split; [|intuition congruence]. intros (((((A & B) & C) & D) & E) & F). repeat split; try assumption. destruct F as [->| ->]; auto. Qed.

(** ** The proofs *)

Lemma four_words (ws : list Z) : zlen ws = 4 -> exists a b c d, ws = [a; b; c; d].
Proof. intros H. destruct ws as [|a [|b [|c [|d [|e l]]]]]; unfold zlen in H; cbn in H; try lia. eauto. Qed.
(** The parts of four words, as bytes of the reply. *)
Lemma part_byte ws i k : zlen ws = 4 -> 0 <= i < 4 -> 0 <= k < 4 -> part ws (Z.to_nat i) (8 * k) = replyByte ws (4 * i + k).
Proof.
  intros H Hi Hk. destruct (four_words ws H) as (a & b & c & d & ->). symmetry. unfold part, replyByte, byte_at.
  z_cases i 0 4; z_cases k 0 4; cbv -[u8 Z.shiftr]; rewrite u8_u8; reflexivity.
Qed.
Ltac parts H := repeat match goal with |- context [part ?ws ?i ?k] =>
  let i' := eval vm_compute in (Z.of_nat i) in let k' := eval vm_compute in (k / 8) in
  change (part ws i k) with (part ws (Z.to_nat i') (8 * k')); rewrite (part_byte ws i' k' H) by lia; let n := eval vm_compute in (4 * i' + k') in change (4 * i' + k') with n end.
Lemma header_byte w : u8 (Z.land (Z.shiftr w 12) 15) = u8 (Z.shiftr w 8) / 16 /\ flag w 128 = flag (u8 (Z.shiftr w 0)) 128.
Proof.
  split.
  - change 15 with (Z.ones 4). rewrite Z.land_ones by lia. unfold u8. rewrite !Z.shiftr_div_pow2 by lia. zlia.
  - unfold flag. rewrite Z.shiftr_0_r. unfold u8. rewrite <- Z.land_ones, <- Z.land_assoc by lia. reflexivity.
Qed.
Lemma capability_reported c epoch ws : zlen ws = 4 -> txAntennas ws <= 2 -> rxAntennas ws <= 2 -> Reported c epoch ws (capabilityOf c epoch (decodedReply ws)).
Proof.
  intros H. destruct (header_byte (nth 0 ws 0)) as [H1 H2]. change (u8 (Z.shiftr (nth 0 ws 0) 8)) with (part ws 0 8) in H1. change (u8 (Z.shiftr (nth 0 ws 0) 0)) with (part ws 0 0) in H2.
  unfold capabilityOf, decodedReply, txAntennas, rxAntennas. cbv zeta. cbn [r_words r_sequence r_ack]. revert H1 H2. parts H. intros H1 H2 Ht Hr. split; cbn.
  - destruct (four_words ws H) as (a & b & x & d & ->). reflexivity.
  - auto.
  - reflexivity.
  - auto.
  - auto.
  - auto.
  - rewrite !andb_true_iff, !Z.eqb_eq. tauto.
  - destruct (_ && _ && _); [rewrite orb_true_r; reflexivity|]. rewrite orb_false_r. unfold effectiveTxPaths; cbn. destruct (replyByte ws 13 =? 1); reflexivity.
  - unfold effectiveRxPaths; cbn. destruct (replyByte ws 14 =? 1); reflexivity.
  - auto.
Qed.

(** *** Asking *)

Lemma onMail_wp {A} (m : MB A) s g (Q : option A -> FirmwareCapabilities -> Mailing -> Prop) :
  wpm mailRules m (mail_ s) g (fun r m' g' => Q r (s <| mail_ := m' |>) g') -> wpm mailRules (onMail m) s g Q.
Proof. intros H. apply wp_bind. eapply wp_mono; [|exact H]. intros [r m'] g'. auto. Qed.
(** The first question: what it leaves. *)
Record Answered (c : option DeviceCalibration.CalibrationSnapshot) (p : FirmwarePlan.Plan) (e : Z) (b : bool) (s : FirmwareCapabilities) (g : Mailing) : Prop := {
  a_free : active_ (mail_ s) = false;
  a_tried : attempted_ s = true;
  a_complete : complete s = b;
  a_yes : b = true -> exists cal ws, c = Some cal /\ identified cal p e /\ error_ s = cNone /\ Reported cal e ws (snapshot_ s) /\ replyByte ws 0 mod 128 = phyCapabilityReply /\
    letter g = exchangedLetter capabilityRequest ws [] /\ zlen ws = 4 /\ replyLength ws = 4;
  a_no : b = false -> snapshot_ s = noCapability /\ error_ s <> cNone /\ error_ s <> cInvalidated /\ ((forall cal, c = Some cal -> ~ identified cal p e) -> error_ s = cIdentity)
}.
Lemma refused_answer c p e err s g : err <> cNone -> err <> cInvalidated -> active_ (mail_ s) = false -> attempted_ s = true ->
  ((forall cal, c = Some cal -> ~ identified cal p e) -> err = cIdentity) -> Answered c p e false (failed err s) g.
Proof. intros H1 H2 Ha Ht Hi. split; try assumption; [reflexivity|discriminate|]. intros _. split; [reflexivity|]. auto. Qed.
Lemma query_wp c p e m g : active_ m = false ->
  wpm mailRules (query c p e) (newCapabilities m) g (fun r s' g' => exists b, r = Some b /\ Answered c p e b s' g').
Proof.
  intros Ha. unfold query. wstep. apply wpm_get. cbn beta iota. change (attempted_ (newCapabilities m)) with false. cbn iota. wstep. apply wpm_modify. cbn beta iota.
  set (s := (newCapabilities m) <| attempted_ := true |>).
  assert (Hf : forall err s1 g1, err <> cNone -> err <> cInvalidated -> active_ (mail_ s1) = false -> attempted_ s1 = true -> ((forall cal, c = Some cal -> ~ identified cal p e) -> err = cIdentity) ->
    wpm mailRules (fail err) s1 g1 (fun r s' g' => exists b, r = Some b /\ Answered c p e b s' g')).
  { intros err s1 g1 K1 K2 K3 K4 K5. unfold fail. wstep. apply wpm_modify. cbn beta iota. apply wpm_ret. exists false. split; [reflexivity|]. apply refused_answer; assumption. }
  destruct c as [cal|]; [|apply Hf; auto; discriminate]. destruct (unidentified cal p e) eqn:Ei; [apply Hf; auto; discriminate|]. apply identified_spec in Ei.
  assert (Hn : (forall cal0, Some cal = Some cal0 -> ~ identified cal0 p e) -> forall err, err = cIdentity) by (intros K; destruct (K cal eq_refl Ei)).
  wstep. apply onMail_wp. eapply wpm_mono; [apply (mail_post (MExchange capabilityRequest phyCapabilityReply) m g Ha)|]. intros r m1 g1 (Ha1 & ok & -> & Hok). cbn beta iota. wstep. apply wpm_modify. cbn beta iota.
  destruct ok; cbn [negb]; [|apply Hf; auto; discriminate]. destruct Hok as (_ & _ & E & H4 & _ & _ & EF & El & _). wstep. apply wpm_get. cbn beta iota zeta.
  set (s1 := s <| mail_ := m1 |> <| lastMail := _ |>). change (lastMail s1) with (result m1).
  destruct (_ || _ || _ || _ || _); [apply Hf; auto; discriminate|]. destruct (Z.eqb_spec (r_contentBytes (reply (result m1))) 14) as [EL|]; cbn [negb]; [|apply Hf; auto; discriminate].
  destruct (_ || _) eqn:EA; [apply Hf; auto; discriminate|]. apply orb_false_iff in EA. rewrite !Z.ltb_ge in EA. wstep. apply wpm_modify. cbn beta iota. apply wpm_ret. exists true. split; [reflexivity|].
  rewrite E in *. cbn [decodedReply r_words r_function r_contentBytes] in *. split; [exact Ha1|reflexivity|reflexivity| |discriminate]. intros _. exists cal, (taken (letter g1)).
  split; [reflexivity|]. split; [exact Ei|]. split; [reflexivity|]. split; [apply capability_reported; tauto|]. split; [|split; [exact El|split; [exact H4|]]].
  - rewrite <- (part_byte _ 0 0) by (lia || exact H4). unfold phyCapabilityReply in *. rewrite <- EF. unfold part. change 127 with (Z.ones 7). rewrite Z.land_ones by lia. rewrite Z.shiftr_0_r. change (Z.to_nat 0) with 0%nat. zlia.
  - assert (0 <= replyLength (taken (letter g1)) < 16) by (unfold replyLength; change 15 with (Z.ones 4); rewrite Z.land_ones by lia; apply Z.mod_pos_bound; lia). zlia.
Qed.

(** *** Whatever is asked *)

Definition forgets (l : list request) : bool := existsb (fun r => match r with Invalidate => true | Query _ _ _ => false end) l.
Lemma forgets_spec l : forgets l = true <-> In Invalidate l.
Proof. unfold forgets. rewrite existsb_exists. split; [intros (x & H & E); destruct x; [discriminate|exact H]|intros H; exists Invalidate; auto]. Qed.
Definition forgotten (s : FirmwareCapabilities) : FirmwareCapabilities := failed cInvalidated (s <| attempted_ := true |>).
Definition noes (l : list request) : list bool := map (fun _ => false) l.
(** After the first request nothing is asked any more. *)
Lemma later_asks l s : attempted_ s = true -> askAll l s = Ret (Some (noes l), if forgets l then forgotten s else s).
Proof.
  revert s. induction l as [|r l IH]; intros s Hs; [reflexivity|]. assert (Hr : ask r s = Ret (Some false, match r with Invalidate => forgotten s | _ => s end)).
  { destruct r; [|reflexivity]. unfold ask, query, mbind, M_bind, get. cbn [bindP fst snd]. rewrite Hs. reflexivity. }
  cbn [askAll]. unfold mbind, M_bind. rewrite Hr. cbn [bindP fst snd]. rewrite IH by (destruct r; [exact Hs|reflexivity]). cbn. destruct r; cbn; [reflexivity|]. destruct (forgets l); reflexivity.
Qed.
(** What the answers and the object say in the end. *)
Definition Told (l : list request) (r : option (list bool)) (s : FirmwareCapabilities) (g : Mailing) : Prop :=
  active_ (mail_ s) = false /\ (error_ s = cInvalidated <-> In Invalidate l) /\
  match snapshot s with
  | Some n => exists cal p e rest ws, l = Query (Some cal) p e :: rest /\ ~ In Invalidate rest /\ r = Some (true :: noes rest) /\ identified cal p e /\ Reported cal e ws n /\
      letter g = exchangedLetter capabilityRequest ws [] /\ zlen ws = 4 /\ replyLength ws = 4 /\ replyByte ws 0 mod 128 = phyCapabilityReply
  | None => snapshot_ s = noCapability /\ (l = [] \/ error_ s <> cNone) /\
      (r = Some (noes l) \/ exists c p e rest, l = Query c p e :: rest /\ In Invalidate rest /\ r = Some (true :: noes rest))
  end.
Lemma askAll_wp l m g : active_ m = false -> wpm mailRules (askAll l) (newCapabilities m) g (fun r s g => Told l r s g).
Proof.
  intros Ha. destruct l as [|[c p e|] l].
  - apply wpm_ret. split; [exact Ha|]. split; [split; [discriminate|intros []]|]. cbn. auto.
  - cbn [askAll ask]. wstep. eapply wpm_mono; [apply query_wp, Ha|]. intros r s1 g1 (b & -> & [H1 H2 H3 H4 H5]). cbn beta iota.
    unfold wpm, mbind, M_bind. rewrite later_asks by exact H2. cbn [bindP fst snd wp]. destruct (forgets l) eqn:EF; cbv iota.
    + pose proof (proj1 (forgets_spec l) EF) as Hin. split; [exact H1|]. split; [split; [right; exact Hin|reflexivity]|]. cbn. split; [reflexivity|]. split; [right; discriminate|].
      destruct b; [right; exists c, p, e, l; auto|left; reflexivity].
    + assert (Hnin : ~ In Invalidate l) by (rewrite <- forgets_spec, EF; discriminate). split; [exact H1|]. cbn [fst snd]. unfold snapshot. rewrite H3. destruct b.
      * destruct (H4 eq_refl) as (cal & ws & -> & K1 & K2 & K3 & K4 & K5 & K6 & K7). split; [rewrite K2; split; [discriminate|intros [H|H]; [discriminate|contradiction]]|].
        exists cal, p, e, l, ws. auto 10.
      * destruct (H5 eq_refl) as (K1 & K2 & K3 & _). split; [split; [contradiction|intros [H|H]; [discriminate|contradiction]]|]. split; [exact K1|]. split; [right; exact K2|left; reflexivity].
  - cbn [askAll ask]. unfold wpm, mbind, M_bind. cbn [bindP invalidate modify fst snd mret M_ret]. rewrite later_asks by reflexivity. cbn [bindP fst snd wp].
    set (s := if forgets l then _ else _). assert (Es : s = forgotten (newCapabilities m)) by (subst s; destruct (forgets l); reflexivity). rewrite Es.
    split; [exact Ha|]. split; [split; [left; reflexivity|reflexivity]|]. cbn. split; [reflexivity|]. split; [right; discriminate|left; reflexivity].
Qed.
(** Only the first request asks the device. *)
Lemma first_asks q l m tr x : active_ m = false -> exec (askAll (q :: l) (newCapabilities m)) tr x -> exists y, exec (ask q (newCapabilities m)) tr y.
Proof.
  intros Ha He. assert (Hq : wpm mailRules (ask q) (newCapabilities m) newMailing (fun r s _ => attempted_ s = true /\ exists b, r = Some b)).
  { destruct q; [|apply wpm_ret; split; [reflexivity|eauto]]. eapply wpm_mono; [apply query_wp, Ha|]. intros r s g (b & -> & [_ H _ _ _]). eauto. }
  cbn [askAll] in He. unfold mbind, M_bind in He. apply exec_bind in He as (t1 & t2 & [r1 s1] & -> & H1 & H2).
  destruct (wp_sound mailRules _ newMailing _ t1 _ Hq H1 (relies_trivial mailRules newMailing t1 (fun _ _ _ => I))) as [_ (Hs & b & Hb)]. cbn [fst snd] in *. subst r1.
  rewrite later_asks in H2 by exact Hs. cbn [bindP fst snd] in H2. destruct H2 as [-> _]. rewrite app_nil_r. eauto.
Qed.

(** C99: whatever the device answers and whatever is asked of the object, the
    mailbox is used by its rules, and only the first request uses it: the
    firmware is asked at most once, and only for an identified board and the
    firmware that was loaded for its cut.  There is a snapshot exactly when
    that question was answered completely and nothing was invalidated since:
    it is the four words of the reply that was taken, of the kind asked for,
    field by field, with the identity it was asked for; no more than two
    antennas are reported, one means the second path, and a single stream on
    two antennas means diversity.  Without one the object is blank, and says
    why. *)
Theorem capability_contract l m g tr r s : active_ m = false -> exec (askAll l (newCapabilities m)) tr (r, s) ->
  accepts mailRules g tr /\ Told l r s (after mailRules g tr) /\ match l with [] => tr = [] | q :: _ => exists y, exec (ask q (newCapabilities m)) tr y end.
Proof.
  intros Ha He. destruct (wp_sound mailRules _ g _ tr _ (askAll_wp l m g Ha) He (relies_trivial mailRules g tr (fun _ _ _ => I))) as [H1 H2].
  split; [exact H1|]. split; [exact H2|]. destruct l as [|q l]; [apply He|exact (first_asks q l m tr (r, s) Ha He)].
Qed.

(** ** A concrete device *)

(** A firmware that answers the question with the words of [ws]. *)
Definition answering (ws : list Z) : handler MailIo MailBoard := fun d o =>
  match o as o return Ans MailIo o * MailBoard with
  | Write8 a v => (true, FirmwareMailbox.mkBoard (if (a =? h2cControl) && (v =? 1)
      then (c2hControl, 1) :: map (fun i => (c2hData i, nth (Z.to_nat i) ws 0)) [0; 1; 2; 3] ++ b_regs d else (a, v) :: b_regs d) (b_time d))
  | o => board d o
  end.
Definition sampleCalibration : DeviceCalibration.CalibrationSnapshot :=
  let none := EfuseCalibration.noBoard in
  DeviceCalibration.mkSnapshot [] [] [] []
    (EfuseCalibration.mkBoard [2; 0; 0; 0; 0; 1] 5 (EfuseCalibration.xtal none) (EfuseCalibration.channelPlan none) (EfuseCalibration.country none) (EfuseCalibration.thermal none)
      (EfuseCalibration.tssiCck none) (EfuseCalibration.tssiMcs none) (EfuseCalibration.gainOffset none) true false false)
    EfuseCalibration.noPhy 1.
Definition loadedPlan : FirmwarePlan.Plan := FirmwarePlan.mkPlan 0 0 0 0 0 0 0 1 1 0 [] true.
Definition askedRun (ws : list Z) (l : list request) := run_trace (answering ws) (askAll l (newCapabilities newMailbox)) sampleBoard.
Definition questions : list request := [Query (Some sampleCalibration) loadedPlan 7; Query (Some sampleCalibration) loadedPlan 8].
Definition brief (x : option (list bool) * FirmwareCapabilities) :=
  (fst x, error_ (snd x), option_map (fun n => (n_epoch n, txNss n, rxNss n, effectiveTxPaths n, effectiveRxPaths n, txPathDiversity n)) (snapshot (snd x))).
(** Two antennas and one stream; three antennas; a reply too short; invalidated. *)
Example asked_runs :
  map (fun ws => brief (fst (fst (askedRun ws questions)))) [[0x00021403; 0x01; 0; 0x00020200]; [0x00021403; 0x01; 0; 0x00020300]; [0x00021303; 0x01; 0; 0x00020200]] =
    [(Some [true; false], cNone, Some (7, 1, 2, 2, 3, true)); (Some [false; false], cAntenna, None); (Some [false; false], cLength, None)] /\
  brief (fst (fst (askedRun [0x00021403; 0x01; 0; 0x00020200] (questions ++ [Invalidate])))) = (Some [true; false; false], cInvalidated, None).
Proof. split; vm_compute; reflexivity. Qed.
Definition sampleAsked := askedRun [0x00021403; 0x01; 0; 0x00020200] questions.
Lemma capability_contract_witness : accepts mailRules newMailing (snd sampleAsked) /\
  Told questions (fst (fst (fst sampleAsked))) (snd (fst (fst sampleAsked))) (after mailRules newMailing (snd sampleAsked)).
Proof.
  assert (He : exec (askAll questions (newCapabilities newMailbox)) (snd sampleAsked) (fst (fst (fst sampleAsked)), snd (fst (fst sampleAsked)))).
  { rewrite <- surjective_pairing. apply run_trace_exec. }
  destruct (capability_contract questions newMailbox newMailing (snd sampleAsked) (fst (fst (fst sampleAsked))) (snd (fst (fst sampleAsked))) eq_refl He) as (H1 & H2 & _). split; [exact H1|exact H2].
Defined.
