(* ===== verification/WirelessSelection.v ===== *)
(** * Selecting a network (src/network/WirelessSelection.hpp, WirelessRsn.hpp)

    What the user asks to join, the one request that waits for the work loop,
    and the parser of the security elements of beacons: one group and one
    pairwise cipher, and the pre-shared key. *)

From S2P Require Import Prelude.

(** ** Data *)

(** The enumerations are bytes of a structure that comes from outside, which
    may hold other values; [valid] refuses them. *)
Definition openSecurity : Z := 0.
Definition wpa2Psk : Z := 1.
Definition wpaPsk : Z := 2.
Definition ccmp : Z := 0.
Definition tkip : Z := 1.
Record Join := mkJoin {
  ssid : buf; ssidLength : Z; bssid : buf; specificBssid : bool; security : Z; j_pairwise : Z; j_group : Z; pmk : buf; pmkLength : Z
}.
Definition noJoin : Join := mkJoin (zeros 32) 0 (zeros 6) false openSecurity ccmp ccmp (zeros 32) 0.
Record PersonalCiphers := mkCiphers { pairwise : Z; group : Z }.
Definition noCiphers : PersonalCiphers := mkCiphers ccmp ccmp.

(** ** The waiting request *)

Definition valid (j : Join) : bool :=
  if (ssidLength j =? 0) || (32 <? ssidLength j) then false else
  if specificBssid j && ((fold_left Z.lor (bssid j) 0 =? 0) || flag (nth 0 (bssid j) 0) 1) then false else
  if security j =? openSecurity then pmkLength j =? 0 else
  if negb (security j =? wpa2Psk) && negb (security j =? wpaPsk) then false else
  if negb (j_pairwise j =? ccmp) && negb (j_pairwise j =? tkip) then false else
  if negb (j_group j =? ccmp) && negb (j_group j =? tkip) then false else
  pmkLength j =? 32.
Record Pending := mkPending { join_ : Join; waiting_ : bool; generation_ : Z }.
#[export] Instance Pending_rebuild : Rebuild Pending := fun p => mkPending (join_ p) (waiting_ p) (generation_ p).
Definition newPending : Pending := mkPending noJoin false 0.
(** [wipe] leaves zeros in every member. *)
Definition clear (p : Pending) : Pending := p <| join_ := noJoin |> <| waiting_ := false |>.
Definition submit (j : Join) (p : Pending) : bool * Pending :=
  if waiting_ p || negb (valid j) then (false, p) else
  let g := u64 (generation_ p + 1) in
  (true, mkPending j true (if g =? 0 then u64 (g + 1) else g)).
Definition take_ (stationIdle dataDrained actionPending : bool) (p : Pending) : option Join * Pending :=
  if negb (waiting_ p) || negb stationIdle || negb dataDrained || actionPending then (None, p) else (Some (join_ p), clear p).

(** ** The security element *)

Definition R := mres unit.
(** A length is a [size_t]; [MErr] is the answer false. *)
Definition word (ie : buf) (length p : Z) : R (Z * Z) := fail_if (u64 (length - p) <? 2) tt;; v ← rd16 ie p; mret (v, p + 2).
Definition suite (ie : buf) (length : Z) (wpa1 : bool) (p : Z) : R (Z * Z) :=
  fail_if (u64 (length - p) <? 4) tt;;
  a ← rd8 ie p; b ← rd8 ie (p + 1); c ← rd8 ie (p + 2); kind ← rd8 ie (p + 3);
  fail_if (negb ((a =? 0) && (b =? (if wpa1 then 0x50 else 0x0f)) && (c =? (if wpa1 then 0xf2 else 0xac)))) tt;;
  mret (kind, p + 4).
Definition cipher (ie : buf) (length : Z) (wpa1 : bool) (p : Z) : R (Z * Z) :=
  '(kind, p) ← suite ie length wpa1 p;
  if kind =? 2 then mret (tkip, p) else if kind =? 4 then mret (ccmp, p) else mthrow tt.
Definition number (ie : buf) (length wanted p : Z) : R Z := '(n, p) ← word ie length p; fail_if (negb (n =? wanted)) tt;; mret p.
(** From the version to the end. *)
Definition suites (ie : buf) (length : Z) (wpa1 : bool) (p : Z) : R PersonalCiphers :=
  p ← number ie length 1 p; '(g, p) ← cipher ie length wpa1 p;
  p ← number ie length 1 p; '(w, p) ← cipher ie length wpa1 p;
  p ← number ie length 1 p; '(akm, p) ← suite ie length wpa1 p; fail_if (negb (akm =? 2)) tt;;
  p ← (if p <? length then
         '(caps, p) ← word ie length p; fail_if (negb (Z.ldiff caps (if wpa1 then 0 else 0x3c) =? 0)) tt;;
         if p <? length then fail_if wpa1 tt;; number ie length 0 p else mret p
       else mret p);
  fail_if (negb (p =? length)) tt;; mret (mkCiphers w g).
(** The output is the default when the answer is false. *)
Definition personalIE (ie : option buf) (length : Z) (wpa1 : bool) : R PersonalCiphers :=
  if length =? 0 then mret (if wpa1 then mkCiphers tkip tkip else noCiphers) else
  match ie with
  | None => mthrow tt
  | Some b =>
      fail_if ((length <? 20) || (257 <? length)) tt;;
      l ← rd8 b 1; fail_if (negb (l + 2 =? length)) tt;;
      id ← rd8 b 0;
      if wpa1 then
        fail_if (negb (id =? 221) || (length <? 24)) tt;;
        a ← rd8 b 2; fail_if (negb (a =? 0)) tt;; a ← rd8 b 3; fail_if (negb (a =? 0x50)) tt;;
        a ← rd8 b 4; fail_if (negb (a =? 0xf2)) tt;; a ← rd8 b 5; fail_if (negb (a =? 1)) tt;;
        suites b length true 6
      else fail_if (negb (id =? 48)) tt;; suites b length false 2
  end.
Definition wpa2PskRsn (ie : option buf) (length : Z) : mres unit bool :=
  match personalIE ie length false with
  | MVal c => mret ((pairwise c =? ccmp) && (group c =? ccmp))
  | MErr _ => mret false
  | MOob => MOob
  end.

(** ** The format of the element *)

Definition suiteBytes (wpa1 : bool) (kind : Z) : buf := [0; if wpa1 then 0x50 else 0x0f; if wpa1 then 0xf2 else 0xac; kind].
Definition cipherKind (c : Z) : Z := if c =? tkip then 2 else 4.
Definition bodyBytes (wpa1 : bool) (c : PersonalCiphers) : buf :=
  [1; 0] ++ suiteBytes wpa1 (cipherKind (group c)) ++ [1; 0] ++ suiteBytes wpa1 (cipherKind (pairwise c)) ++ [1; 0] ++ suiteBytes wpa1 2.
(** What may follow: capabilities, and an empty list of keys. *)
Definition trailer (wpa1 : bool) (t : buf) : Prop :=
  match t with
  | [] => True
  | [lo; hi] => Z.ldiff (le16_of lo hi) (if wpa1 then 0 else 0x3c) = 0
  | [lo; hi; 0; 0] => wpa1 = false /\ Z.ldiff (le16_of lo hi) 0x3c = 0
  | _ => False
  end.
Definition goodCiphers (c : PersonalCiphers) : Prop := In (pairwise c) [ccmp; tkip] /\ In (group c) [ccmp; tkip].
Definition element (wpa1 : bool) (c : PersonalCiphers) (t : buf) : buf :=
  let body := (if wpa1 then [0; 0x50; 0xf2; 1] else []) ++ bodyBytes wpa1 c ++ t in (if wpa1 then 221 else 48) :: zlen body :: body.

(** ** Reading it *)

Lemma zlen_cons {A} (x : A) l : zlen (x :: l) = (1 + zlen l).
Proof. unfold zlen. cbn [length]. lia. Qed.
(** The bytes from [p] to the end. *)
Definition At (b : buf) (length p : Z) (rest : buf) : Prop := 0 <= p /\ p + zlen rest = length /\ length <= zlen b /\ length <= 257 /\ bytesOf b p (zlen rest) = rest.
Lemma at_cons b length p x rest : At b length p (x :: rest) -> rd8 (E:=unit) b p = MVal x /\ At b length (p + 1) rest.
Proof.
  intros (H1 & H2 & H3 & H4 & H5). pose proof (zlen_nonneg rest) as Hn. rewrite zlen_cons in *.
  rewrite bytesOf_cons in H5 by lia. injection H5 as E1 E2. split; [rewrite rd8_in by lia; rewrite E1; reflexivity|]. split; [lia|]. split; [lia|auto].
Qed.
Lemma at_nil b length p : At b length p [] -> p = length. Proof. intros (_ & H & _). change (zlen []) with 0 in H. lia. Qed.
Lemma at_small b length p rest : At b length p rest -> u64 (length - p) = (zlen rest).
Proof. intros (H1 & H2 & H3 & H4 & _). pose proof (zlen_nonneg rest). rewrite u64_small by (unfold in_u64; lia). lia. Qed.
Lemma at_less b length p rest : At b length p rest -> (p <? length) = match rest with [] => false | _ => true end.
Proof. intros H. pose proof (at_small b length p rest H) as Hs. destruct H as (H1 & H2 & _). destruct rest as [|x rest]; [change (zlen []) with 0 in *; lia|]. rewrite zlen_cons in *. pose proof (zlen_nonneg rest). lia. Qed.
Lemma word_at b length p rest : At b length p rest -> word b length p = match rest with x :: y :: _ => MVal (le16_of x y, p + 2) | _ => MErr tt end.
Proof.
  intros H. unfold word. rewrite (at_small b length p rest H). destruct rest as [|x [|y rest]]; [reflexivity|reflexivity|].
  replace (zlen (x :: y :: rest) <? 2) with false by (rewrite !zlen_cons; pose proof (zlen_nonneg rest); lia). destruct (at_cons _ _ _ _ _ H) as [E1 H1]. destruct (at_cons _ _ _ _ _ H1) as [E2 _].
  cbn [fail_if mbind mres_bind]. unfold rd16. rewrite E1, E2. reflexivity.
Qed.
Lemma suite_at b length wpa1 p rest : At b length p rest -> suite b length wpa1 p =
  match rest with x :: y :: z :: k :: _ => if (x =? 0) && (y =? (if wpa1 then 0x50 else 0x0f)) && (z =? (if wpa1 then 0xf2 else 0xac)) then MVal (k, p + 4) else MErr tt | _ => MErr tt end.
Proof.
  intros H. unfold suite. rewrite (at_small b length p rest H). destruct rest as [|x [|y [|z [|k rest]]]]; try reflexivity.
  replace (zlen (x :: y :: z :: k :: rest) <? 4) with false by (rewrite !zlen_cons; pose proof (zlen_nonneg rest); lia). destruct (at_cons _ _ _ _ _ H) as [E1 H1]. destruct (at_cons _ _ _ _ _ H1) as [E2 H2].
  destruct (at_cons _ _ _ _ _ H2) as [E3 H3]. destruct (at_cons _ _ _ _ _ H3) as [E4 _]. replace (p + 1 + 1) with (p + 2) in * by lia. replace (p + 2 + 1) with (p + 3) in * by lia.
  cbn [fail_if mbind mres_bind]. rewrite E1, E2, E3, E4. cbn [mbind mres_bind]. destruct (_ && _); reflexivity.
Qed.
Lemma at_skip b length p l rest : At b length p (l ++ rest) -> At b length (p + zlen l) rest.
Proof.
  revert p. induction l as [|x l IH]; intros p H; [rewrite Z.add_0_r; exact H|]. destruct (at_cons _ _ _ _ _ H) as [_ H']. replace (p + zlen (x :: l)) with (p + 1 + zlen l) by (rewrite zlen_cons; lia). apply IH, H'.
Qed.
Lemma at_two b length p x y rest : At b length p (x :: y :: rest) -> At b length (p + 2) rest.
Proof. exact (at_skip b length p [x; y] rest). Qed.
Lemma at_four b length p x y z k rest : At b length p (x :: y :: z :: k :: rest) -> At b length (p + 4) rest.
Proof. exact (at_skip b length p [x; y; z; k] rest). Qed.
Lemma at_bytes b length p rest : At b length p rest -> Forall in_u8 rest.
Proof. intros (_ & _ & _ & _ & <-). unfold bytesOf. rewrite List.Forall_map. apply List.Forall_forall. intros x _. apply u8_range. Qed.
(** A number is its two bytes. *)
Lemma le16_is x y n : in_u8 x -> in_u8 y -> 0 <= n < 256 -> le16_of x y = n -> x = n /\ y = 0.
Proof. intros Hx Hy Hn. rewrite le16_of_sum by exact Hx. unfold in_u8 in *. lia. Qed.
Lemma number_spec b length n p rest (Q : Z -> Prop) : 0 <= n < 256 -> At b length p rest -> (forall rest', rest = n :: 0 :: rest' -> At b length (p + 2) rest' -> Q (p + 2)) -> mspec (number b length n p) Q.
Proof.
  intros Hn H HQ. unfold number. rewrite (word_at _ _ _ _ H). pose proof (at_bytes _ _ _ _ H) as HF. destruct rest as [|x [|y rest]]; try exact I. cbn [mbind mres_bind].
  apply mspec_bind, mspec_fail_if. intros E. apply negb_false_iff, Z.eqb_eq in E. pose proof (List.Forall_inv HF) as Hx. pose proof (List.Forall_inv (List.Forall_inv_tail HF)) as Hy.
  destruct (le16_is x y n Hx Hy Hn E) as [-> ->]. apply mspec_ret, (HQ rest); [reflexivity|exact (at_two _ _ _ _ _ _ H)].
Qed.
Lemma suite_spec b length wpa1 p rest (Q : Z * Z -> Prop) : At b length p rest -> (forall k rest', rest = suiteBytes wpa1 k ++ rest' -> At b length (p + 4) rest' -> Q (k, p + 4)) -> mspec (suite b length wpa1 p) Q.
Proof.
  intros H HQ. rewrite (suite_at _ _ _ _ _ H). destruct rest as [|x [|y [|z [|k rest]]]]; try exact I. destruct (_ && _) eqn:E; [|exact I]. rewrite !andb_true_iff, !Z.eqb_eq in E. destruct E as [[-> ->] ->].
  apply mspec_ret, (HQ k rest); [reflexivity|exact (at_four _ _ _ _ _ _ _ _ H)].
Qed.
Lemma cipher_spec b length wpa1 p rest (Q : Z * Z -> Prop) : At b length p rest ->
  (forall c rest', In c [ccmp; tkip] -> rest = suiteBytes wpa1 (cipherKind c) ++ rest' -> At b length (p + 4) rest' -> Q (c, p + 4)) -> mspec (cipher b length wpa1 p) Q.
Proof.
  intros H HQ. unfold cipher. apply mspec_bind, (suite_spec _ _ _ _ rest); [exact H|]. intros k rest' E H'. destruct (Z.eqb_spec k 2) as [-> |_]; [|destruct (Z.eqb_spec k 4) as [-> |_]; [|exact I]].
  - apply mspec_ret, (HQ tkip rest'); [cbn; auto|exact E|exact H'].
  - apply mspec_ret, (HQ ccmp rest'); [cbn; auto|exact E|exact H'].
Qed.
Lemma suites_sound b length wpa1 p rest : At b length p rest -> mspec (suites b length wpa1 p) (fun c => goodCiphers c /\ exists t, trailer wpa1 t /\ rest = bodyBytes wpa1 c ++ t).
Proof.
  intros H. unfold suites. apply mspec_bind, (number_spec _ _ 1 _ rest); [lia|exact H|]. intros r1 -> H1. apply mspec_bind, (cipher_spec _ _ _ _ r1 _ H1). intros g r2 Hg -> H2.
  apply mspec_bind, (number_spec _ _ 1 _ r2); [lia|exact H2|]. intros r3 -> H3. apply mspec_bind, (cipher_spec _ _ _ _ r3 _ H3). intros w r4 Hw -> H4.
  apply mspec_bind, (number_spec _ _ 1 _ r4); [lia|exact H4|]. intros r5 -> H5. apply mspec_bind, (suite_spec _ _ _ _ r5 _ H5). intros k r6 -> H6.
  apply mspec_bind, mspec_fail_if. intros Ek. apply negb_false_iff, Z.eqb_eq in Ek. subst k.
  assert (Hend : forall t, trailer wpa1 t -> r6 = t -> goodCiphers (mkCiphers w g) /\ exists t', trailer wpa1 t' /\
    1 :: 0 :: suiteBytes wpa1 (cipherKind g) ++ 1 :: 0 :: suiteBytes wpa1 (cipherKind w) ++ 1 :: 0 :: suiteBytes wpa1 2 ++ r6 = bodyBytes wpa1 (mkCiphers w g) ++ t').
  { intros t Ht ->. split; [split; assumption|]. exists t. split; [exact Ht|reflexivity]. }
  set (q := p + 2 + 4 + 2 + 4 + 2 + 4) in *. apply mspec_bind. rewrite (at_less _ _ _ _ H6). destruct r6 as [|x r6].
  { apply mspec_ret. apply mspec_bind, mspec_fail_if. intros _. apply mspec_ret, (Hend []); [exact I|reflexivity]. }
  rewrite (word_at _ _ _ _ H6). destruct r6 as [|y r7]; [exact I|]. cbn [mbind mres_bind]. pose proof (at_two _ _ _ _ _ _ H6) as H7. apply mspec_bind, mspec_fail_if. intros Ec. apply negb_false_iff, Z.eqb_eq in Ec.
  rewrite (at_less _ _ _ _ H7). destruct r7 as [|u r8].
  { apply mspec_ret. apply mspec_bind, mspec_fail_if. intros _. apply mspec_ret, (Hend [x; y]); [exact Ec|reflexivity]. }
  apply mspec_bind, mspec_fail_if. intros Ew. apply (number_spec _ _ 0 _ (u :: r8)); [lia|exact H7|]. intros r9 E9 H9. apply mspec_bind, mspec_fail_if. intros Ez. apply negb_false_iff, Z.eqb_eq in Ez.
  pose proof (at_less _ _ _ _ H9) as E10. rewrite Ez, Z.ltb_irrefl in E10. destruct r9; [|discriminate]. injection E9 as -> ->. subst wpa1. apply mspec_ret, (Hend [x; y; 0; 0]); [split; [reflexivity|exact Ec]|reflexivity].
Qed.
(** What the format says is accepted. *)
Lemma number_at b length n p rest : 0 <= n < 256 -> At b length p (n :: 0 :: rest) -> number b length n p = MVal (p + 2) /\ At b length (p + 2) rest.
Proof.
  intros Hn H. split; [|exact (at_two _ _ _ _ _ _ H)]. unfold number. rewrite (word_at _ _ _ _ H). cbn [mbind mres_bind]. replace (le16_of n 0) with n by (rewrite le16_of_sum by exact Hn; lia). rewrite Z.eqb_refl. reflexivity.
Qed.
Lemma suite_ok b length wpa1 k p rest : At b length p (suiteBytes wpa1 k ++ rest) -> suite b length wpa1 p = MVal (k, p + 4) /\ At b length (p + 4) rest.
Proof. intros H. split; [|exact (at_four _ _ _ _ _ _ _ _ H)]. rewrite (suite_at _ _ _ _ _ H). destruct wpa1; reflexivity. Qed.
Lemma cipher_ok b length wpa1 c p rest : In c [ccmp; tkip] -> At b length p (suiteBytes wpa1 (cipherKind c) ++ rest) -> cipher b length wpa1 p = MVal (c, p + 4) /\ At b length (p + 4) rest.
Proof. intros Hc H. unfold cipher. destruct (suite_ok _ _ _ _ _ _ H) as [E H']. rewrite E. split; [|exact H']. destruct Hc as [<-|[<-|[]]]; reflexivity. Qed.
Lemma trailer_cases wpa1 t : trailer wpa1 t -> t = [] \/ (exists lo hi, t = [lo; hi] /\ Z.ldiff (le16_of lo hi) (if wpa1 then 0 else 0x3c) = 0) \/ (exists lo hi, t = [lo; hi; 0; 0] /\ wpa1 = false /\ Z.ldiff (le16_of lo hi) 0x3c = 0).
Proof. destruct t as [|a [|b [|[] [|[] [|]]]]]; cbn; try tauto; intros H; right; [left|right]; eauto. Qed.
Lemma suites_complete b length wpa1 p c t : goodCiphers c -> trailer wpa1 t -> At b length p (bodyBytes wpa1 c ++ t) -> suites b length wpa1 p = MVal c.
Proof.
  destruct c as [w g]. intros [Hw Hg] Ht H. unfold bodyBytes in H. rewrite <- !app_assoc in H. cbn [pairwise group] in *. unfold suites.
  destruct (number_at _ _ 1 _ _ ltac:(lia) H) as [-> H1]. cbn [mbind mres_bind]. destruct (cipher_ok _ _ _ _ _ _ Hg H1) as [-> H2]. cbn [mbind mres_bind].
  destruct (number_at _ _ 1 _ _ ltac:(lia) H2) as [-> H3]. cbn [mbind mres_bind]. destruct (cipher_ok _ _ _ _ _ _ Hw H3) as [-> H4]. cbn [mbind mres_bind].
  destruct (number_at _ _ 1 _ _ ltac:(lia) H4) as [-> H5]. cbn [mbind mres_bind]. destruct (suite_ok _ _ _ _ _ _ H5) as [-> H6]. cbn [mbind mres_bind fail_if negb Z.eqb Pos.eqb].
  set (q := p + 2 + 4 + 2 + 4 + 2 + 4) in *. rewrite (at_less _ _ _ _ H6). destruct (trailer_cases _ _ Ht) as [->|[(lo & hi & -> & Hc)|(lo & hi & -> & -> & Hc)]].
  - cbn [mret mres_ret mbind mres_bind]. rewrite (at_nil _ _ _ H6), Z.eqb_refl. reflexivity.
  - pose proof (at_two _ _ _ _ _ _ H6) as H7. rewrite (word_at _ _ _ _ H6). cbn [mbind mres_bind]. rewrite Hc, (at_less _ _ _ _ H7). cbn [mret mres_ret mbind mres_bind fail_if negb Z.eqb]. rewrite (at_nil _ _ _ H7), Z.eqb_refl. reflexivity.
  - pose proof (at_two _ _ _ _ _ _ H6) as H7. rewrite (word_at _ _ _ _ H6). cbn [mbind mres_bind]. rewrite Hc, (at_less _ _ _ _ H7). cbn [mret mres_ret mbind mres_bind fail_if negb Z.eqb].
    destruct (number_at _ _ 0 _ _ ltac:(lia) H7) as [-> H8]. cbn [mret mres_ret mbind mres_bind]. rewrite (at_nil _ _ _ H8), Z.eqb_refl. reflexivity.
Qed.
(** The bytes of a whole element. *)
Lemma at_start b length : 0 <= length <= zlen b -> length <= 257 -> At b length 0 (bytesOf b 0 length).
Proof. intros H1 H2. assert (E : zlen (bytesOf b 0 length) = length) by (apply zlen_bytesOf; lia). split; [lia|]. rewrite E. auto with lia. Qed.
Lemma head_byte b length x (k : R PersonalCiphers) (Q : PersonalCiphers -> Prop) p v rest : At b length p (x :: rest) ->
  (x = v -> mspec k Q) -> mspec (a ← rd8 b p; fail_if (negb (a =? v)) tt;; k) Q.
Proof. intros H HQ. destruct (at_cons _ _ _ _ _ H) as [-> _]. cbn [mbind mres_bind]. apply mspec_bind, mspec_fail_if. intros E. apply negb_false_iff, Z.eqb_eq in E. apply HQ, E. Qed.

Definition sound (wpa1 : bool) (L : buf) (c : PersonalCiphers) : Prop := goodCiphers c /\ exists t, trailer wpa1 t /\ L = element wpa1 c t.
Lemma personal_sound b length wpa1 : 0 < length <= zlen b -> mspec (personalIE (Some b) length wpa1) (sound wpa1 (bytesOf b 0 length)).
Proof.
  intros Hl. unfold personalIE. rewrite (proj2 (Z.eqb_neq length 0)) by lia. apply mspec_bind, mspec_fail_if. intros E. apply orb_false_iff in E. rewrite !Z.ltb_ge in E.
  pose proof (at_start b length ltac:(lia) ltac:(lia)) as H. assert (Hz : zlen (bytesOf b 0 length) = length) by (apply zlen_bytesOf; lia). set (L := bytesOf b 0 length) in *.
  destruct L as [|id [|l rest]]; [change (zlen []) with 0 in *; lia|rewrite zlen_cons in *; change (zlen []) with 0 in *; lia|]. rewrite !zlen_cons in Hz.
  destruct (at_cons _ _ _ _ _ H) as [E0 H1]. destruct (at_cons _ _ _ _ _ H1) as [E1 H2]. change (0 + 1) with 1 in *. change (1 + 1) with 2 in *. rewrite E0, E1. cbn [mbind mres_bind]. apply mspec_bind, mspec_fail_if. intros El. apply negb_false_iff, Z.eqb_eq in El.
  assert (E3 : l = zlen rest) by lia. destruct wpa1.
  - apply mspec_bind, mspec_fail_if. intros E2. apply orb_false_iff in E2. destruct E2 as [E2 E4]. apply negb_false_iff, Z.eqb_eq in E2. apply Z.ltb_ge in E4.
    destruct rest as [|a1 [|a2 [|a3 [|a4 rest]]]]; try (rewrite ?zlen_cons in Hz; change (@zlen Z []) with 0 in Hz; lia).
    apply (head_byte b length a1 _ _ 2 _ _ H2). intros ->. destruct (at_cons _ _ _ _ _ H2) as [_ H3]. apply (head_byte b length a2 _ _ 3 _ _ H3). intros ->. destruct (at_cons _ _ _ _ _ H3) as [_ H4]. apply (head_byte b length a3 _ _ 4 _ _ H4). intros ->.
    destruct (at_cons _ _ _ _ _ H4) as [_ H5]. apply (head_byte b length a4 _ _ 5 _ _ H5). intros ->. destruct (at_cons _ _ _ _ _ H5) as [_ H6].
    eapply mspec_mono; [exact (suites_sound b length true 6 _ H6)|]. intros c (Hc & t & Ht & ->). split; [exact Hc|]. exists t. split; [exact Ht|]. rewrite E2, E3. reflexivity.
  - apply mspec_bind, mspec_fail_if. intros E2. apply negb_false_iff, Z.eqb_eq in E2. eapply mspec_mono; [exact (suites_sound _ _ _ _ _ H2)|]. intros c (Hc & t & Ht & ->). split; [exact Hc|]. exists t. split; [exact Ht|]. rewrite E2, E3. reflexivity.
Qed.
Lemma trailer_length wpa1 t : trailer wpa1 t -> zlen t <= 4.
Proof. intros H. destruct (trailer_cases _ _ H) as [->|[(a & b & -> & _)|(a & b & -> & _)]]; cbn; discriminate || (unfold zlen; cbn; lia). Qed.
Lemma personal_complete b length wpa1 c : 0 < length <= zlen b -> sound wpa1 (bytesOf b 0 length) c -> personalIE (Some b) length wpa1 = MVal c.
Proof.
  intros Hl (Hc & t & Ht & E). pose proof (trailer_length _ _ Ht) as Hz. pose proof (zlen_nonneg t) as Hz0. assert (Hs : zlen (bytesOf b 0 length) = length) by (apply zlen_bytesOf; lia).
  assert (Hb : zlen (bodyBytes wpa1 c ++ t) = 18 + zlen t) by (rewrite zlen_app; reflexivity). assert (Hlen : length = 20 + (if wpa1 then 4 else 0) + zlen t).
  { rewrite <- Hs, E. unfold element. rewrite !zlen_cons, zlen_app, Hb. destruct wpa1; [change (zlen [0; 0x50; 0xf2; 1]) with 4|change (@zlen Z []) with 0]; lia. }
  pose proof (at_start b length ltac:(lia) ltac:(destruct wpa1; lia)) as H. rewrite E in H. unfold element in H. destruct (at_cons _ _ _ _ _ H) as [E0 H1]. destruct (at_cons _ _ _ _ _ H1) as [E1 H2]. change (0 + 1) with 1 in *. change (1 + 1) with 2 in *.
  unfold personalIE. rewrite (proj2 (Z.eqb_neq length 0)) by lia. replace ((length <? 20) || (257 <? length)) with false by (destruct wpa1; lia). cbn [fail_if mbind mres_bind]. rewrite E0, E1. cbn [mbind mres_bind].
  rewrite zlen_app, Hb. replace (zlen _ + (18 + zlen t) + 2 =? length) with true by (destruct wpa1; [change (zlen [0; 0x50; 0xf2; 1]) with 4|change (@zlen Z []) with 0]; lia). cbn [fail_if negb mbind mres_bind]. destruct wpa1.
  - replace (length <? 24) with false by lia. cbn [Z.eqb Pos.eqb negb orb fail_if mbind mres_bind]. cbn [app] in H2.
    destruct (at_cons _ _ _ _ _ H2) as [F2 H3]. destruct (at_cons _ _ _ _ _ H3) as [F3 H4]. destruct (at_cons _ _ _ _ _ H4) as [F4 H5]. destruct (at_cons _ _ _ _ _ H5) as [F5 H6].
    change (2 + 1) with 3 in *. change (3 + 1) with 4 in *. change (4 + 1) with 5 in *. change (5 + 1) with 6 in *. rewrite F2, F3, F4, F5. cbn.
    exact (suites_complete b length true 6 c t Hc Ht H6).
  - cbn. exact (suites_complete b length false 2 c t Hc Ht H2).
Qed.

(** C99: [personalIE] reads only the element it is given, and accepts exactly
    the elements of its format: the right identifier and length, one group
    and one pairwise cipher, both CCMP or TKIP, the pre-shared key as the only
    way of authentication, and after it at most capabilities that are allowed
    and, for RSN, an empty list of keys.  It then answers the ciphers the
    element names, and for no element the defaults. *)
Theorem personal_accepted b length wpa1 : 0 <= length <= zlen b ->
  personalIE (Some b) length wpa1 <> MOob /\ forall c, personalIE (Some b) length wpa1 = MVal c <->
    (length = 0 /\ c = (if wpa1 then mkCiphers tkip tkip else mkCiphers ccmp ccmp)) \/
    (0 < length /\ goodCiphers c /\ exists t, trailer wpa1 t /\ bytesOf b 0 length = element wpa1 c t).
Proof.
  intros Hl. destruct (Z.eq_dec length 0) as [->|Hne].
  { split; [discriminate|]. intros c. unfold personalIE. cbn. split; [intros [= <-]; auto|]. intros [[_ ->]|[H _]]; [destruct wpa1; reflexivity|lia]. }
  pose proof (personal_sound b length wpa1 ltac:(lia)) as Hs. split; [exact (mspec_safe _ _ Hs)|]. intros c. split.
  - intros E. right. split; [lia|]. exact (mspec_val _ _ _ Hs E).
  - intros [[H _]|[_ H]]; [contradiction|]. apply personal_complete; [lia|exact H].
Qed.

Definition sampleElement : buf := element false (mkCiphers ccmp tkip) [0x0c; 0].
Lemma personal_accepted_witness : personalIE (Some (sampleElement ++ [7; 7])) 22 false <> MOob /\ forall c, personalIE (Some (sampleElement ++ [7; 7])) 22 false = MVal c <->
    (22 = 0 /\ c = mkCiphers ccmp ccmp) \/ (0 < 22 /\ goodCiphers c /\ exists t, trailer false t /\ bytesOf (sampleElement ++ [7; 7]) 0 22 = element false c t).
Proof. apply (personal_accepted (sampleElement ++ [7; 7]) 22 false). vm_compute. split; discriminate. Defined.
Example personal_runs :
  (personalIE (Some sampleElement) 22 false, personalIE (Some sampleElement) 22 true, wpa2PskRsn (Some sampleElement) 22, personalIE (Some (element true (mkCiphers tkip ccmp) [])) 24 true,
   personalIE (Some (element true noCiphers [4; 0])) 26 true, personalIE (Some (element false noCiphers [0x3c; 0; 0; 0])) 24 false, personalIE None 0 true) =
  (MVal (mkCiphers ccmp tkip), MErr tt, MVal false, MVal (mkCiphers tkip ccmp), MErr tt, MVal noCiphers, MVal (mkCiphers tkip tkip)).
Proof. vm_compute. reflexivity. Qed.

(** ** The waiting request as an option *)

Inductive selectOp := Submit (j : Join) | Take (stationIdle dataDrained actionPending : bool) | Clear.
(** The answer of an operation: whether a request was accepted, or the one that
    was taken. *)
Inductive selectAns := Accepted (b : bool) | Taken (j : option Join) | Cleared.
Definition serve (o : selectOp) (p : Pending) : selectAns * Pending :=
  match o with
  | Submit j => let '(b, p) := submit j p in (Accepted b, p)
  | Take i d a => let '(j, p) := take_ i d a p in (Taken j, p)
  | Clear => (Cleared, clear p)
  end.
Fixpoint serveAll (l : list selectOp) (p : Pending) : list selectAns * Pending :=
  match l with [] => ([], p) | o :: l => let '(a, p) := serve o p in let '(r, p) := serveAll l p in (a :: r, p) end.
(** The specification: at most one request, handed out once. *)
Definition specStep (o : selectOp) (w : option Join) : selectAns * option Join :=
  match o with
  | Submit j => match w with None => if valid j then (Accepted true, Some j) else (Accepted false, None) | Some _ => (Accepted false, w) end
  | Take i d a => if i && d && negb a then (Taken w, None) else (Taken None, w)
  | Clear => (Cleared, None)
  end.
Fixpoint specAll (l : list selectOp) (w : option Join) : list selectAns * option Join :=
  match l with [] => ([], w) | o :: l => let '(a, w) := specStep o w in let '(r, w) := specAll l w in (a :: r, w) end.
Definition accepts_ (l : list selectAns) : Z := zlen (List.filter (fun a => match a with Accepted true => true | _ => false end) l).
(** Nothing of a request stays when none waits, its key included. *)
Definition holds (p : Pending) (w : option Join) : Prop :=
  waiting_ p = match w with Some _ => true | None => false end /\ join_ p = match w with Some j => j | None => noJoin end /\ match w with Some j => valid j = true | None => True end.
(** The generation counts the accepted requests; the first [2^64 - 1] have
    different ones, none of them 0. *)
Definition counted (p : Pending) (n : Z) : Prop := 0 <= n /\ generation_ p = (if n =? 0 then 0 else (n - 1) mod (2^64 - 1) + 1).
Lemma serve_refines o p w n : holds p w -> counted p n ->
  fst (serve o p) = fst (specStep o w) /\ holds (snd (serve o p)) (snd (specStep o w)) /\ counted (snd (serve o p)) (n + accepts_ [fst (serve o p)]).
Proof.
  intros (H1 & H2 & H3) (Hn & Hc). assert (Hsame : counted p (n + 0)) by (rewrite Z.add_0_r; split; assumption). destruct o as [j|i d a|]; cbn.
  - unfold submit. rewrite H1. destruct w as [j0|]; cbn; [split; [reflexivity|split; [split; auto|exact Hsame]]|]. destruct (valid j) eqn:Ev; cbn; [|split; [reflexivity|split; [split; auto|exact Hsame]]].
    split; [reflexivity|]. split; [split; auto|]. change (accepts_ [Accepted true]) with 1. split; [lia|]. cbn [generation_]. rewrite (proj2 (Z.eqb_neq (n + 1) 0)) by lia.
    assert (Hg : generation_ p = n mod (2^64 - 1) \/ generation_ p = 2^64 - 1 /\ n mod (2^64 - 1) = 0).
    { rewrite Hc. destruct (Z.eqb_spec n 0) as [->|]; [left; reflexivity|]. Z.div_mod_to_equations. lia. }
    replace (n + 1 - 1) with n by lia. destruct Hg as [->|[-> E]]; [|rewrite E; reflexivity]. pose proof (Z.mod_pos_bound n (2^64 - 1) ltac:(lia)) as Hb.
    rewrite u64_small by (unfold in_u64; lia). rewrite (proj2 (Z.eqb_neq _ 0)) by lia. reflexivity.
  - unfold take_. rewrite H1. destruct w as [j0|], i, d, a; cbn; (split; [congruence|split; [split; auto|exact Hsame]]).
  - split; [reflexivity|]. split; [split; auto|exact Hsame].
Qed.
(** The object is the option, whatever is asked of it; what is not waiting is
    wiped. *)
Theorem pending_refines l : fst (serveAll l newPending) = fst (specAll l None) /\ holds (snd (serveAll l newPending)) (snd (specAll l None)) /\
  counted (snd (serveAll l newPending)) (accepts_ (fst (serveAll l newPending))).
Proof.
  assert (H : forall p w n, holds p w -> counted p n -> fst (serveAll l p) = fst (specAll l w) /\ holds (snd (serveAll l p)) (snd (specAll l w)) /\ counted (snd (serveAll l p)) (n + accepts_ (fst (serveAll l p)))).
  { induction l as [|o l IH]; intros p w n Hp Hn; [cbn; rewrite Z.add_0_r; auto|]. destruct (serve_refines o p w n Hp Hn) as (E & Hp' & Hn'). cbn [serveAll specAll].
    destruct (serve o p) as [a p1], (specStep o w) as [a' w1]. cbn [fst snd] in *. subst a'. destruct (IH p1 w1 _ Hp' Hn') as (E2 & Hp2 & Hn2). destruct (serveAll l p1) as [r p2], (specAll l w1) as [r' w2]. cbn [fst snd] in *. subst r'.
    split; [reflexivity|]. split; [exact Hp2|]. replace (n + accepts_ (a :: r)) with (n + accepts_ [a] + accepts_ r); [exact Hn2|]. unfold accepts_. cbn [List.filter]. destruct a as [[]| |]; rewrite ?zlen_cons; change (@zlen selectAns []) with 0; lia. }
  apply (H newPending None 0); [split; cbn; auto|split; [lia|reflexivity]].
Qed.
(** A request that is accepted names a network and, if it asks for one, an
    access point, and carries a key of 32 bytes exactly when it needs one. *)
Theorem valid_meaning j : 0 <= ssidLength j -> valid j = true <->
  1 <= ssidLength j <= 32 /\ (specificBssid j = true -> fold_left Z.lor (bssid j) 0 <> 0 /\ flag (nth 0 (bssid j) 0) 1 = false) /\
  ((security j = openSecurity /\ pmkLength j = 0) \/
   (In (security j) [wpa2Psk; wpaPsk] /\ In (j_pairwise j) [ccmp; tkip] /\ In (j_group j) [ccmp; tkip] /\ pmkLength j = 32)).
Proof.
  intros Hs. unfold valid, openSecurity, wpa2Psk, wpaPsk, ccmp, tkip. cbn [In].
  destruct (Z.eqb_spec (ssidLength j) 0), (Z.ltb_spec 32 (ssidLength j)); cbn [orb]; try (split; [discriminate|lia]).
  destruct (specificBssid j); cbn [andb]; [destruct (Z.eqb_spec (fold_left Z.lor (bssid j) 0) 0) as [E|E]; cbn [orb]; [split; [discriminate|intros (_ & K & _); destruct (K eq_refl); contradiction]|];
    destruct (flag _ 1); [split; [discriminate|intros (_ & K & _); destruct (K eq_refl); discriminate]|]|].
  1,2: destruct (Z.eqb_spec (security j) 0); [rewrite Z.eqb_eq; intuition (discriminate || lia)|];
    destruct (Z.eqb_spec (security j) 1), (Z.eqb_spec (security j) 2), (Z.eqb_spec (j_pairwise j) 0), (Z.eqb_spec (j_pairwise j) 1), (Z.eqb_spec (j_group j) 0), (Z.eqb_spec (j_group j) 1); cbn [negb andb];
    rewrite ?Z.eqb_eq; intuition (discriminate || lia).
Qed.
